(* ===== verification/_CoqProject ===== *)
-Q . S2P
Prelude.v
JsNumber.v
JsValue.v
JsText.v
DecimalLib.v
DecimalExact.v
Money.v
Domain.v
Shared.v
RiskChecks.v
CircuitBreakers.v
RiskEngine.v
Guardrails.v
MarketIdentity.v
OrderStore.v
Executor.v
Reconciler.v
AllocatorPolicy.v
Rebalance.v
TreasuryPolicy.v
TreasuryPlanner.v
SpotPerp.v
MultiLeg.v
MismatchLifecycle.v
MismatchStore.v
HealthMonitor.v
ReconcileStore.v
ReconcileFindings.v
ReconcileDetect.v
ReconcileVenues.v
DerivativeState.v
DerivativeCompare.v
VaultLedger.v
Vault.v
RuntimeOrders.v
ConnectorEvidence.v
ConnectorPromotion.v
Reconciliation.v
SimVenue.v
SimBook.v
SimExecution.v
CsvParser.v
CexPnl.v
StrategyPolicy.v
CarryExecution.v
RealizedApy.v
CarrySizing.v
Opportunities.v
Optimizer.v
Pipeline.v
PortfolioTracker.v
Backtest.v
BacktestEngine.v
BacktestRuns.v
Commands.v
RuntimeWorker.v
MismatchControl.v
TreasuryVenues.v
TreasuryActions.v
Approvals.v
TreasuryRuntime.v
CarryActions.v
CarryRuntime.v
