(* ===== verification/Prelude.v ===== *)
(** * Sentinel Apex: a verification development

    Sentinel Apex (src/) is a TypeScript monorepo that manages a vault split in
    two sleeves: a carry sleeve, which trades spot against perpetual futures, and
    a treasury sleeve, which parks the reserve with lending venues.  The program
    decides in exact decimal arithmetic, guards every order by risk checks, and
    records what it did in a relational store.  This library models its decision
    and state-keeping code file by file and proves what makes it correct.

    ** How the parts work together

    A cycle of the strategy pipeline ([Pipeline]) detects opportunities
    ([Opportunities]), selects and sizes them ([Optimizer], [CarrySizing]) against
    the portfolio state ([PortfolioTracker]) and builds order intents.  An order
    intent is assessed by the risk engine ([RiskEngine], over the checks
    of [RiskChecks] and the registry of [CircuitBreakers]) and by the execution
    guardrails ([Guardrails]); an approved one goes to the order executor
    ([Executor]), which records it in an order store ([OrderStore]) and places it
    with a venue adapter; [SimVenue] is the adapter of the paper-trading mode, and
    [SimExecution] the executor running on it.  The reconciler ([Reconciler])
    later compares store and venue.  In the running system [HealthMonitor] and
    [Reconciliation] compare what the runtime recorded with its runs, projections
    and commands and with the venues; the mismatches they record ([MismatchStore])
    go through the cycle of [MismatchLifecycle].  Between the sleeves the allocator ([AllocatorPolicy])
    computes target budgets and the planner ([Rebalance]) proposes the transfer.
    Within the treasury, [TreasuryPolicy] recommends deposits and redemptions and
    [TreasuryPlanner] turns them into execution intents.  Within carry,
    [SpotPerp] and [MultiLeg] coordinate the legs of a hedge.  [CsvParser] and
    [CexPnl] verify a trade history downloaded from an exchange.

    ** Files and the code they model

    - [Prelude]: thrown errors ([exn]), computations with state and throws
      ([Eff]), list and option lemmas, tactics.  Nothing of the program.
    - [JsNumber], [JsValue], [JsText]: the language's numbers (binary64, on
      [spec_float]), dynamic values and insertion-ordered maps ([jmap]), stable
      sorting, text functions on ASCII.  Nothing of the program.
    - [DecimalLib]: decimal.js, a third-party package, as the class [DecimalLib]
      of its operations and the class [DecimalLaws] of the documented laws the
      proofs rely on; [DecimalExact]: an instance of both, on which the
      witnesses compute; [Money]: exactness lemmas for amounts in cents.
    - [Domain]: packages/domain (risk.ts, order.ts, invariants.ts);
      [Shared]: packages/shared (result.ts, decimal.ts, retry.ts, time.ts).
    - [RiskChecks], [CircuitBreakers], [RiskEngine], [Guardrails]:
      packages/risk-engine (limits.ts and checks.ts, circuit-breakers.ts,
      engine.ts, execution-guardrails.ts).
    - [OrderStore], [Executor], [Reconciler]: packages/execution
      (order-manager.ts, executor.ts, reconciler.ts).
    - [MarketIdentity], [SimVenue], [SimBook], [SimExecution]:
      packages/venue-adapters (interfaces/market-identity.ts,
      simulation/simulated-venue-adapter.ts, simulation/price-feed.ts).
    - [AllocatorPolicy], [Rebalance]: packages/allocator (types.ts, registry.ts,
      policy.ts, rebalance.ts).
    - [TreasuryPolicy], [TreasuryPlanner]: packages/treasury (types.ts, policy.ts,
      execution-planner.ts).
    - [SpotPerp], [MultiLeg]: packages/carry (spot-perp-coordination.ts,
      multi-leg-orchestration.ts).
    - [MismatchLifecycle]: packages/runtime (mismatch-lifecycle.ts).
    - [CsvParser], [CexPnl]: packages/cex-verification (csv-parser.ts,
      pnl-calculator.ts).
    - [CarrySizing], [Opportunities], [Optimizer]: packages/carry (config.ts,
      position-sizer.ts, hedge-state.ts, pnl.ts; opportunity-detector.ts;
      portfolio-optimizer.ts).
    - [StrategyPolicy], [CarryExecution], [RealizedApy]: packages/carry
      (strategy-policy.ts; types.ts and controlled-execution.ts; realized-apy.ts).
    - [Pipeline], [PortfolioTracker]: packages/strategy-engine (intent-builder.ts
      and pipeline.ts; portfolio-state-tracker.ts).
    - [Backtest], [BacktestEngine], [BacktestRuns]: packages/backtest (types.ts and
      market-data.ts; the simulation and the run engine of engine.ts).
    - [MismatchStore], [HealthMonitor]: packages/runtime (the mismatch records and
      recovery events of store.ts; health-monitor.ts).
    - [ReconcileStore], [ReconcileFindings], [ReconcileDetect], [ReconcileVenues],
      [Reconciliation]: packages/runtime (reconciliation runs and findings of
      store.ts; reconciliation-engine.ts: comparisons, detectors, the run).
    - [DerivativeState], [DerivativeCompare]: packages/runtime
      (internal-derivative-state.ts: the snapshot, its comparison with a venue).
    - [VaultLedger], [Vault]: packages/runtime and packages/db (the vault accounting
      of store.ts over the tables of schema/vault.ts: lock, redemption plan and
      summaries; deposits and redemption requests).
    - [RuntimeOrders]: packages/runtime and packages/db ([RuntimeOrderStore] and
      [persistFill] of store.ts, the execution of approved intents in runtime.ts,
      over the tables of schema/orders.ts).
    - [ConnectorEvidence], [ConnectorPromotion]: packages/runtime (the readiness
      evidence and promotions of store.ts, their workflow in control-plane.ts).
    - [Commands], [RuntimeWorker]: packages/runtime (the queue of commands and the
      remediations of store.ts and control-plane.ts; worker.ts).
    - [MismatchControl]: packages/runtime (the operators' calls on mismatches in
      control-plane.ts).
    - [TreasuryVenues]: packages/venue-adapters (the treasury adapter interface, the
      simulated treasury venue and the PUSD adapter).
    - [TreasuryActions], [TreasuryRuntime]: packages/runtime (treasury actions in
      store.ts and control-plane.ts; evaluation and execution in runtime.ts).
    - [Approvals]: what approved actions of either kind have in common.
    - [CarryActions], [CarryRuntime]: packages/runtime (carry actions in store.ts and
      control-plane.ts, adapters/carry-orchestration-adapter.ts; their execution in
      runtime.ts, over [Executor] and [RuntimeOrders]).
    A definition keeps the name of the function, method or type it models; a
    class's state is a record with one field per private member, and a method is
    a function of the state (its clock readings are arguments) that returns the
    new state, or a computation in [Eff] where it calls other objects.

    ** Interfaces

    The executor and the reconciler are verified against the class [OrderStore]
    and its contract [OrderStoreLaws]; [InMemoryOrderStore] is proved to meet it
    and the order life cycle is stated for it.  The store of the running system
    does not meet it ([runtime_store_breaks_contract]).
    The adapters of a strategy cycle are the class [PipelineEnv], those the
    portfolio tracker queries [TrackerEnv].
    The venue, the audit trail, the clock and the sleeps of the executor are the
    class [ExecutionEnv] over an abstract world; [SimExecution.sim_env]
    instantiates it with the simulated venue.  The tables of the runtime
    are the classes [MismatchDb] and [ReconDb] with the laws of their statements
    ([MismatchDbLaws], [ReconDbLaws]), its queries [MonitorQueries],
    [ReconQueries] and [VenueQueries]; [memory_db] is an instance.  The price feed
    is the class [PriceFeed], decimal.js the classes [DecimalLib] and [DecimalLaws], and the
    parsing of dates [HostEnv] and [DateHost].

    ** What the theorems show

    - Safety of orders: an approved intent is within every limit
      ([approved_order_within_limits]), nothing passes an open breaker or the kill
      switch, a check refuses what would bring the notional recorded on the day
      over its limit, however checks and records are interleaved.
    - Order life cycle: over the in-memory store every executor call moves a
      record along the moves of the life cycle, a submission places at most once
      when the audit trail works, a fill is counted once; a placed client order id
      fills at most once at the simulated venue whatever is called, and no id at
      all twice where replays use new ids, also end to end under the executor,
      whatever store and audit trail do.
    - State invariants by rule induction over step relations: the breaker
      registry, the simulated venue, the mismatch cycle, guardrail histories.
    - Refinement: the position book of the simulated venue implements signed
      quantities.
    - Exact characterisations (both directions) of the decision functions:
      guardrail check, treasury intents and reserve, rebalance proposals, plan
      creation, hedge state, reconciliation.
    - Termination, round trips and equivalences: the depth-first search of a plan,
      the queue matching of trades, retries; CSV fields, identity metadata; LIFO
      as reversed FIFO.
    - The strategy cycle: detected candidates are hedged, approved and profitable
      enough; the selection respects its limits and the allocation the caps per
      asset and venue; every candidate is accounted for; only intents of the cycle
      that the risk engine approved reach a venue.  The portfolio state stands for
      the balances and positions read from the venues ([refresh_refines]).
    - The carry strategy: which profiles are eligible, when a controlled intent is
      executable, which orders a reduction of the open positions plans, and that
      the daily snapshots book every confirmed trade once for each day that holds
      it: once in all when the days neither overlap nor leave a gap.
    - Backtests: market data is complete and grouped without loss; the engine's
      runs are well formed in every reachable state and end; the drawdown is the
      largest fall; a simulation never closes a position.
    - The runtime's mismatches: after a health check or a reconciliation run the
      mismatch of a comparison is unsettled exactly if the comparison found a
      difference; neither ever verifies or loses a mismatch, whatever fails; which
      orders are compared, and when positions differ, in integers.
    - The derivative state: the positions account for every fill, every position
      and order is compared once, and two of the findings of the comparison can
      never be raised.
    - The vault: in every history the pending redemptions of a depositor are covered
      by the shares of the live lots; how long a lock lasts.
    - The order store of the running system: what a saved order reads back as, that
      it does not meet the contract of order stores, and that the executor on it
      never records a fee, however often intents are executed.
    - Connectors: when one is eligible for live use, and that none is open to
      sensitive execution without a request, an administrator's approval on
      eligible evidence that no later decision took back, and evidence that still
      holds.
    - The worker: a command is executed at most once, and is completed or failed
      when its poll returns.
    - Mismatches in the running system: control plane, worker, monitors and
      reconciliation together follow the lifecycle of [MismatchLifecycle], and only
      operators verify.
    - The treasury in the running system: no action goes beyond its recommendation
      without an approval, and a venue is asked only when it is cleared by what
      that execution read.  The evaluation recommends exactly the plans of
      [TreasuryPolicy] in integers.
    - Carry actions in the running system: none goes beyond its recommendation without
      an approval, the orders that reach a venue are planned orders, once each, after
      connectors and guardrails were read by that execution and let them pass; the multi-leg plan is always refused
      ([adapter_plan_refused]).
    Some theorems state what the code does where that is not what a comment says
    or what one would want ([audit_failure_places_again], [reduce_only_not_enforced],
    [poll_drops_fill_details], [colliding_intents_lost], [executed_count_is_approved],
    [first_order_refused]).

    ** Bounds and fuel

    Recursion that the code bounds only implicitly has fuel, and a theorem shows
    that the fuel is enough: [visit] of [MultiLeg] runs on one unit more than the
    number of legs ([visit_spec]); the matching loops of [CexPnl] on the length of
    the queue plus three ([fifo_matching_terminates]); the retry loops are
    recursions on the attempts left.  Exactness of decimal arithmetic is used
    below decimal.js's twenty significant digits: [Money.money_bound] is 10^15
    cents, and quantities with eight decimals stay below 10^20.  Where order
    numbers of the simulated venue are unique they are below 2^53, where the
    language's increment is exact; what holds beyond is stated apart
    ([sim_sound]).

    ** Not modelled

    Logging, metrics and tracing (output only); the rest of the SQL store and the
    schema of packages/runtime and packages/db (statements through a query
    builder), the cycles of runtime.ts that wire the components over it, and the
    queries and rebalance bundles of the control plane; the
    network clients of packages/venue-adapters and of the vault (third-party
    services); the HTTP API and dashboard; configuration (a third-party schema
    library); the random walk of [VolatilePriceFeed]; constant capability reports
    of the adapters.  An object's calls are taken one at a time: interleavings of
    asynchronous calls on the same object are not modelled.  Text is ASCII.
*)
From Stdlib Require Export ZArith QArith Lqa.
From stdpp Require Export base tactics option list strings gmap pretty.

(** ** Thrown errors and fallible code *)

(** A JavaScript [Error]: its [name] and its [message]. *)
Record JsError := MkError { err_name : string; err_message : string }.

(** [new Error(m)] and [new RangeError(m)]. *)
Definition Error_ (m : string) : JsError := MkError "Error" m.
Definition RangeError_ (m : string) : JsError := MkError "RangeError" m.

(** The completion of a synchronous computation: a value, or a throw. *)
Inductive exn (A : Type) : Type :=
| Ret (a : A)
| Throw (e : JsError).
Arguments Ret {A} a.
Arguments Throw {A} e.

#[export] Instance exn_ret : MRet exn := fun A a => Ret a.
#[export] Instance exn_bind : MBind exn := fun A B f m =>
  match m with Ret a => f a | Throw e => Throw e end.
#[export] Instance exn_fmap : FMap exn := fun A B f m =>
  match m with Ret a => Ret (f a) | Throw e => Throw e end.

(** [try { m } catch (e) { h(e) }]. *)
Definition try_catch {A} (m : exn A) (h : JsError -> exn A) : exn A :=
  match m with Ret a => Ret a | Throw e => h e end.

Definition is_ret {A} (m : exn A) : bool :=
  match m with Ret _ => true | Throw _ => false end.

(** A stateful computation; a throw keeps the state changes made before it,
    as in the program. *)
Definition eff (S A : Type) : Type := S -> exn A * S.

#[export] Instance eff_ret S : MRet (eff S) := fun A a s => (Ret a, s).
#[export] Instance eff_bind S : MBind (eff S) := fun A B f m s =>
  match m s with
  | (Ret a, s') => f a s'
  | (Throw e, s') => (Throw e, s')
  end.

Section Eff.
Context {S : Type}.
Definition get_state : eff S S := fun s => (Ret s, s).
Definition put_state (s : S) : eff S unit := fun _ => (Ret tt, s).
Definition modify_state (f : S -> S) : eff S unit := fun s => (Ret tt, f s).
Definition throw_eff {A} (e : JsError) : eff S A := fun s => (Throw e, s).
Definition lift_exn {A} (m : exn A) : eff S A := fun s => (m, s).
(** Runs [m] and goes on with how it settled. *)
Definition settle {A B} (m : eff S A) (k : exn A -> eff S B) : eff S B :=
  fun s => let '(r, s') := m s in k r s'.
Definition catch_eff {A} (m : eff S A) (h : JsError -> eff S A) : eff S A :=
  fun s => match m s with
           | (Ret a, s') => (Ret a, s')
           | (Throw e, s') => h e s'
           end.
End Eff.

(** ** Lemmas and automation for fallible code *)

Lemma exn_bind_inv {A B} (m : exn A) (f : A -> exn B) (b : B) :
  (m ≫= f) = Ret b -> exists a, m = Ret a /\ f a = Ret b.
Proof. destruct m as [a|e]; [by exists a|done]. Qed.

Lemma exn_bind_throw {A B} (m : exn A) (f : A -> exn B) (e : JsError) :
  (m ≫= f) = Throw e -> m = Throw e \/ exists a, m = Ret a /\ f a = Throw e.
Proof. destruct m as [a|e']; [right; by exists a|]. intros [= ->]. by left. Qed.

Lemma exn_bind_step {A B} (m : exn A) (f : A -> exn B) (a : A) : m = Ret a -> (m ≫= f) = f a.
Proof. by intros ->. Qed.

(** [exn_inv H as x E] splits a bind that returned: [x] is the value of its
    first computation, [E] says so, and [H] becomes the rest. *)
Ltac exn_inv_as H x E := apply exn_bind_inv in H; destruct H as (x & E & H).
Tactic Notation "exn_inv" hyp(H) "as" ident(x) ident(E) := exn_inv_as H x E.

(** [exn_step E] runs the first computation of a bind by its equation. *)
Ltac exn_step E := rewrite (exn_bind_step _ _ _ E).

(** ** Lemmas for stateful code *)

(** A bind that ended in [(r, s'')] threw in its first computation or ran the
    second from where the first stopped. *)
Lemma eff_bind_inv {S A B} (m : eff S A) (f : A -> eff S B) s r s'' :
  (m ≫= f) s = (r, s'') ->
  (exists e, m s = (Throw e, s'') /\ r = Throw e) \/
  (exists a s', m s = (Ret a, s') /\ f a s' = (r, s'')).
Proof. unfold mbind, eff_bind. destruct (m s) as [[a|e] s'] eqn:E; [eauto 6|intros [= <- <-]; eauto]. Qed.

Lemma eff_bind_ret {St A B} (m : eff St A) (f : A -> eff St B) s a s' :
  m s = (Ret a, s') -> (m ≫= f) s = f a s'.
Proof. intros H. unfold mbind, eff_bind. by rewrite H. Qed.

Lemma eff_bind_throw {St A B} (m : eff St A) (f : A -> eff St B) s e s' :
  m s = (Throw e, s') -> (m ≫= f) s = (Throw e, s').
Proof. intros H. unfold mbind, eff_bind. by rewrite H. Qed.

(** [eff_step E] runs the first computation of a bind by its equation. *)
Ltac eff_step E := rewrite (eff_bind_ret _ _ _ _ _ E).

Lemma lift_exn_step {St A B} (m : exn A) (f : A -> eff St B) s a : m = Ret a -> (lift_exn m ≫= f) s = f a s.
Proof. by intros ->. Qed.
Ltac lift_step E := rewrite (lift_exn_step _ _ _ _ E).

(** A computation that answers [a], or fails, in every state. *)
Definition answers {S A} (m : eff S A) (a : A) : Prop := forall s, exists s', m s = (Ret a, s').
Definition fails {S A} (m : eff S A) : Prop := forall s, exists e s', m s = (Throw e, s').

(** A [for] loop with effects. *)
Fixpoint fold_eff {S A B} (f : B -> A -> eff S B) (b : B) (l : list A) : eff S B :=
  match l with
  | [] => mret b
  | a :: l' => b' ← f b a; fold_eff f b' l'
  end.
Definition each_eff {S A} (f : A -> eff S unit) (l : list A) : eff S unit := fold_eff (fun _ a => f a) tt l.

(** [eff_inv H as x s E]: the two cases of a bind; [E] is the equation of the
    first computation, and in the second case [x], [s] its value and state. *)
Tactic Notation "eff_inv" hyp(H) "as" ident(x) ident(s) ident(E) :=
  apply eff_bind_inv in H; destruct H as [(x & E & H)|(x & s & E & H)].

(** The results of a throwing function on every element, in order. *)
Fixpoint map_exn {A B} (f : A -> exn B) (l : list A) : exn (list B) :=
  match l with
  | [] => Ret []
  | a :: l' => b ← f a; bs ← map_exn f l'; Ret (b :: bs)
  end.

Lemma map_exn_Forall2 {A B} (f : A -> exn B) l l' :
  map_exn f l = Ret l' <-> Forall2 (fun a b => f a = Ret b) l l'.
Proof.
  split.
  - revert l'. induction l as [|a l IH]; intros l' H; [injection H as <-; constructor|].
    cbn [map_exn] in H. exn_inv H as b E1. exn_inv H as bs E2. injection H as <-. auto.
  - induction 1 as [|a b l l' E _ IH]; [done|]. cbn [map_exn]. exn_step E. by exn_step IH.
Qed.

(** The results present, of a throwing function on every element: the [for]
    loops that push or [continue]. *)
Fixpoint omap_exn {A B} (f : A -> exn (option B)) (l : list A) : exn (list B) :=
  match l with
  | [] => Ret []
  | a :: l' => b ← f a; bs ← omap_exn f l'; Ret (match b with Some b => b :: bs | None => bs end)
  end.

Lemma omap_exn_elem {A B} (f : A -> exn (option B)) l l' b :
  omap_exn f l = Ret l' -> b ∈ l' -> exists a, a ∈ l /\ f a = Ret (Some b).
Proof.
  revert l'. induction l as [|a l IH]; intros l' H Hb; [injection H as <-; inversion Hb|].
  cbn [omap_exn] in H. exn_inv H as o E1. exn_inv H as bs E2. injection H as <-.
  destruct o as [b'|]; [apply elem_of_cons in Hb as [->|Hb]; [exists a; split; [left|done]|]|].
  all: destruct (IH _ E2 Hb) as (a' & Ha' & E'); exists a'; split; [by right|done].
Qed.

(** A fold whose step may throw: the [for] loops that parse amounts. *)
Fixpoint fold_exn {A B} (f : B -> A -> exn B) (b : B) (l : list A) : exn B :=
  match l with
  | [] => Ret b
  | a :: l' => b' ← f b a; fold_exn f b' l'
  end.

Lemma fold_exn_app {A B} (f : B -> A -> exn B) b l1 l2 :
  fold_exn f b (l1 ++ l2) = (b' ← fold_exn f b l1; fold_exn f b' l2).
Proof. revert b. induction l1 as [|a l1 IH]; intros b; [done|]. cbn. destruct (f b a); [apply IH|done]. Qed.

(** An invariant of the accumulator holds of the result. *)
Lemma fold_exn_inv {A B} (f : B -> A -> exn B) (P : B -> Prop) l b b' :
  (forall x a y, P x -> In a l -> f x a = Ret y -> P y) -> P b -> fold_exn f b l = Ret b' -> P b'.
Proof.
  revert b. induction l as [|a l IH]; intros b Hf Hb H; [injection H as <-; done|].
  cbn [fold_exn] in H. exn_inv H as c E. eapply IH; [|by eapply Hf; [|left|]|exact H].
  intros x a' y Hx Ha. apply Hf; [done|by right].
Qed.

(** ** Filtered lists *)

Lemma filter_split {A} (f : A -> bool) l : List.filter f l ++ List.filter (fun x => negb (f x)) l ≡ₚ l.
Proof.
  induction l as [|a l IH]; [done|]. cbn. destruct (f a); cbn; [by rewrite IH|]. by rewrite <- Permutation_middle, IH.
Qed.

#[export] Instance bool_filter_perm {A} (f : A -> bool) : Proper (Permutation ==> Permutation) (List.filter f).
Proof.
  intros l l'. induction 1 as [|x l l' _ IH|x y l|]; cbn; [done| | |by etrans; eauto].
  - case_match; [by apply Permutation_skip|done].
  - repeat case_match; (apply Permutation_swap || done).
Qed.

(** ** Computations that keep a relation between states *)

(** Whatever [m] answers, the states before and after are related. *)
Definition keeps {S A} (R : S -> S -> Prop) (m : eff S A) : Prop := forall d r d', m d = (r, d') -> R d d'.

Section Keeps.
Context {S : Type} (R : S -> S -> Prop) `{!PreOrder R}.

Lemma keeps_ret {A} (a : A) : keeps R (mret a).
Proof. intros d r d' [= _ <-]. reflexivity. Qed.
Lemma keeps_throw {A} (e : JsError) : keeps R (throw_eff (A := A) e).
Proof. intros d r d' [= _ <-]. reflexivity. Qed.
Lemma keeps_lift {A} (m : exn A) : keeps R (lift_exn m).
Proof. intros d r d' [= _ <-]. reflexivity. Qed.
Lemma keeps_bind {A B} (m : eff S A) (f : A -> eff S B) : keeps R m -> (forall a, keeps R (f a)) -> keeps R (m ≫= f).
Proof.
  intros Hm Hf d r d' H. eff_inv H as a d1 E; [by eapply Hm|]. apply Hm in E. apply Hf in H. by etrans.
Qed.
Lemma keeps_fold {A B} (f : B -> A -> eff S B) l : (forall b a, keeps R (f b a)) -> forall b, keeps R (fold_eff f b l).
Proof. intros Hf. induction l as [|a l IH]; intros b; [apply keeps_ret|]. cbn [fold_eff]. by apply keeps_bind. Qed.
End Keeps.

(** Splits a computation into its statements and closes those with a lemma. *)
Ltac keeps_tac :=
  repeat first [progress intros | progress cbn zeta | solve [eauto with keeps] | apply keeps_bind; [typeclasses eauto| |] | apply keeps_fold; [typeclasses eauto|]
               | apply keeps_ret; typeclasses eauto | apply keeps_throw; typeclasses eauto | apply keeps_lift; typeclasses eauto
               | case_match].
Create HintDb keeps discriminated.

(** ** Tables of rows with a text key *)

Section FindKey.
Context {A : Type} (key : A -> string).
Definition find_key (k : string) (rows : list A) : option A := find (fun r => String.eqb (key r) k) rows.

Lemma find_key_key k rows r : find_key k rows = Some r -> key r = k.
Proof. intros [_ H]%find_some. by apply String.eqb_eq in H. Qed.
Lemma find_key_app k rows r : find_key k (rows ++ [r]) =
  match find_key k rows with Some x => Some x | None => if decide (key r = k) then Some r else None end.
Proof.
  unfold find_key. induction rows as [|x rows IH]; cbn.
  - destruct (String.eqb_spec (key r) k); [by rewrite decide_True|by rewrite decide_False].
  - destruct (String.eqb (key x) k); [done|exact IH].
Qed.
Lemma find_key_map k (g : A -> A) rows : (forall r, key (g r) = key r) -> find_key k (map g rows) = g <$> find_key k rows.
Proof.
  intros Hg. unfold find_key. induction rows as [|x rows IH]; [done|]. cbn. rewrite Hg. by destruct (String.eqb (key x) k).
Qed.
End FindKey.
