(* ===== verification/JsNumber.v ===== *)
(** * The language's [number]: IEEE 754 binary64

    The program's [number]s are binary64 values; this file gives the
    arithmetic, comparisons, [Math] functions and conversions to and from
    strings that the source uses, as executable functions on Corelib's
    [spec_float], and the order lemmas the components share.  Nothing of the
    program itself is here. *)
From Stdlib Require Import SpecFloat Ascii Qround.
From S2P Require Import Prelude.
Open Scope Z_scope.

Abbreviation num := spec_float.

Definition n_add : num -> num -> num := SFadd 53 1024.
Definition n_sub : num -> num -> num := SFsub 53 1024.
Definition n_mul : num -> num -> num := SFmul 53 1024.
Definition n_div : num -> num -> num := SFdiv 53 1024.

(** An integer as a [number] (exact below 2^53, correctly rounded above). *)
Definition num_of_Z (z : Z) : num := binary_normalize 53 1024 z 0 false.

(** The [number] nearest to [m * 10^p]: the value of a decimal literal.
    The operands of the division are exact, so it rounds once. *)
Definition num_of_dec (m p : Z) : num :=
  if 0 <=? p then num_of_Z (m * 10 ^ p)
  else match m with
       | Z0 => S754_zero false
       | Zpos q => SFdiv 53 1024 (S754_finite false q 0) (S754_finite false (Z.to_pos (10 ^ (- p))) 0)
       | Zneg q => SFdiv 53 1024 (S754_finite true q 0) (S754_finite false (Z.to_pos (10 ^ (- p))) 0)
       end.

Definition n_isNaN (x : num) : bool := match x with S754_nan => true | _ => false end.
Definition n_isFinite (x : num) : bool :=
  match x with S754_zero _ | S754_finite _ _ _ => true | _ => false end.
Definition n_sign (x : num) : bool :=
  match x with S754_zero s | S754_infinity s | S754_finite s _ _ => s | S754_nan => false end.
Definition n_zero : num := S754_zero false.

(** [x < y], [x <= y], [x > y], [x >= y], [x === y]. *)
Definition n_lt (x y : num) : bool := SFltb x y.
Definition n_le (x y : num) : bool := SFleb x y.
Definition n_gt (x y : num) : bool := n_lt y x.
Definition n_ge (x y : num) : bool := n_le y x.
Definition n_eq (x y : num) : bool := SFeqb x y.

(** [Math.abs], [Math.max], [Math.min] ([+0] is larger than [-0]). *)
Definition n_abs (x : num) : num := SFabs x.
Definition n_max (x y : num) : num :=
  if n_isNaN x || n_isNaN y then S754_nan
  else if n_lt x y then y
  else if n_lt y x then x
  else if n_sign x then y else x.
Definition n_min (x y : num) : num :=
  if n_isNaN x || n_isNaN y then S754_nan
  else if n_lt x y then x
  else if n_lt y x then y
  else if n_sign x then x else y.

(** [Math.floor]. *)
Definition n_floor (x : num) : num :=
  match x with
  | S754_finite s m e =>
      if 0 <=? e then x else num_of_Z (cond_Zopp s (Zpos m) / 2 ^ (- e))
  | _ => x
  end.

(** The exact rational value of a finite [number]. *)
Definition num_q (x : num) : Q :=
  match x with
  | S754_finite s m e =>
      if 0 <=? e then inject_Z (cond_Zopp s (Zpos m) * 2 ^ e)
      else Qmake (cond_Zopp s (Zpos m)) (Z.to_pos (2 ^ (- e)))
  | _ => 0%Q
  end.

(** [Math.ceil] and [Math.round]. *)
Definition n_ceil (x : num) : num := SFopp (n_floor (SFopp x)).
Definition n_round (x : num) : num :=
  if n_isFinite x then num_of_Z (Qfloor (num_q x + (1 # 2))) else x.

(** ** [Number.prototype.toString] and [toFixed] *)

Definition str_repeat (c : string) (n : Z) : string :=
  Nat.iter (Z.to_nat n) (fun s => c +:+ s) "".

Definition z_str (z : Z) : string := pretty z.

(** Number of decimal digits of a non-negative integer. *)
Definition dec_digits (z : Z) : Z := Z.of_nat (String.length (z_str z)).

(** The decimal exponent [n] of a positive [a/b]: [10^(n-1) <= a/b < 10^n]. *)
Fixpoint small_exponent (fuel : nat) (a b n : Z) : Z :=
  match fuel with
  | O => n
  | S f => if b <=? a then n else small_exponent f (a * 10) b (n - 1)
  end.
Definition dec_exponent (a b : Z) : Z :=
  if b <=? a then dec_digits (a / b) else small_exponent 400 (a * 10) b 0.

(** [a/b * 10^p] rounded to the nearest integer, ties up. *)
Definition round_scaled (a b p : Z) : Z :=
  let a' := if 0 <=? p then a * 10 ^ p else a in
  let b' := if 0 <=? p then b else b * 10 ^ (- p) in
  (2 * a' + b') / (2 * b').

(** The shortest digits [s] (of [k] digits) that read back as the number. *)
Fixpoint shortest_digits (fuel : nat) (x : num) (a b n k : Z) : Z * Z :=
  let s := round_scaled a b (k - n) in
  match fuel with
  | O => (s, k)
  | S f => if n_eq (num_of_dec s (n - k)) x then (s, k)
           else shortest_digits f x a b n (k + 1)
  end.

Definition digits_string (s k n : Z) : string :=
  let ds := z_str s in
  if (k <=? n) && (n <=? 21) then ds +:+ str_repeat "0" (n - k)
  else if (0 <? n) && (n <=? 21) then
    String.substring 0 (Z.to_nat n) ds +:+ "." +:+ String.substring (Z.to_nat n) (Z.to_nat k) ds
  else if (-6 <? n) && (n <=? 0) then "0." +:+ str_repeat "0" (- n) +:+ ds
  else
    let e := n - 1 in
    let es := (if 0 <=? e then "+" else "-") +:+ z_str (Z.abs e) in
    if k =? 1 then ds +:+ "e" +:+ es
    else String.substring 0 1 ds +:+ "." +:+ String.substring 1 (Z.to_nat k) ds +:+ "e" +:+ es.

Definition n_str (x : num) : string :=
  match x with
  | S754_nan => "NaN"
  | S754_zero _ => "0"
  | S754_infinity s => if s then "-Infinity" else "Infinity"
  | S754_finite sg m e =>
      let a := if 0 <=? e then Zpos m * 2 ^ e else Zpos m in
      let b := if 0 <=? e then 1 else 2 ^ (- e) in
      let n := dec_exponent a b in
      let '(s, k) := shortest_digits 16 (SFabs x) a b n 1 in
      (if sg then "-" else "") +:+
      (if s =? 10 ^ k then digits_string (s / 10) k (n + 1) else digits_string s k n)
  end.

(** The digits of [i / 10^f] with exactly [f] decimals. *)
Definition fixed_string (i f : Z) : string :=
  let ds := z_str i in
  let k := Z.of_nat (String.length ds) in
  if f =? 0 then ds
  else
    let ds' := if k <=? f then str_repeat "0" (f + 1 - k) +:+ ds else ds in
    let k' := Z.of_nat (String.length ds') in
    String.substring 0 (Z.to_nat (k' - f)) ds' +:+ "." +:+
    String.substring (Z.to_nat (k' - f)) (Z.to_nat f) ds'.

(** [x.toFixed(f)]. *)
Definition n_toFixed (f : Z) (x : num) : string :=
  match x with
  | S754_finite sg m e =>
      let a := if 0 <=? e then Zpos m * 2 ^ e else Zpos m in
      let b := if 0 <=? e then 1 else 2 ^ (- e) in
      if 10 ^ 21 * b <=? a then n_str x
      else (if sg then "-" else "") +:+ fixed_string (round_scaled a b f) f
  | S754_zero _ => fixed_string 0 f
  | _ => n_str x
  end.

(** ** [parseFloat] *)

Definition digit_val (c : Ascii.ascii) : option Z :=
  let n := Z.of_nat (Ascii.nat_of_ascii c) in
  if (48 <=? n) && (n <=? 57) then Some (n - 48) else None.

Definition is_space (c : Ascii.ascii) : bool :=
  let n := Z.of_nat (Ascii.nat_of_ascii c) in ((9 <=? n) && (n <=? 13)) || (n =? 32).

Fixpoint trim_start (s : string) : string :=
  match s with
  | String c s' => if is_space c then trim_start s' else s
  | EmptyString => s
  end.

(** Longest digit prefix: value, number of digits, rest. *)
Fixpoint take_digits (acc cnt : Z) (s : string) : Z * Z * string :=
  match s with
  | String c s' =>
      match digit_val c with
      | Some d => take_digits (acc * 10 + d) (cnt + 1) s'
      | None => (acc, cnt, s)
      end
  | EmptyString => (acc, cnt, s)
  end.

Definition take_sign (s : string) : bool * string :=
  match s with
  | String "-"%char s' => (true, s')
  | String "+"%char s' => (false, s')
  | _ => (false, s)
  end.

(** The exponent part after the mantissa, if it is well formed. *)
Definition take_exponent (s : string) : Z * string :=
  match s with
  | String ("e"%char | "E"%char) s' =>
      let '(neg, s2) := take_sign s' in
      let '(v, cnt, rest) := take_digits 0 0 s2 in
      if cnt =? 0 then (0, s) else ((if neg : bool then - v else v), rest)
  | _ => (0, s)
  end.

(** The longest decimal-literal prefix of an unsigned numeral:
    [Some (m, p, rest)] for the value [m * 10^p]. *)
Definition take_decimal (s : string) : option (Z * Z * string) :=
  let '(i, ci, s1) := take_digits 0 0 s in
  let '(m, cf, s2) :=
    match s1 with
    | String "."%char s' =>
        let '(m, cf, rest) := take_digits i 0 s' in
        if (ci =? 0) && (cf =? 0) then (i, 0, s1) else (m, cf, rest)
    | _ => (i, 0, s1)
    end in
  if (ci =? 0) && (cf =? 0) then None
  else let '(e, s3) := take_exponent s2 in Some (m, e - cf, s3).

Definition num_signed (neg : bool) (x : num) : num := if neg then SFopp x else x.

Definition parseFloat (s : string) : num :=
  let '(neg, s1) := take_sign (trim_start s) in
  if String.prefix "Infinity" s1 then num_signed neg (S754_infinity false)
  else match take_decimal s1 with
       | Some (m, p, _) => num_signed neg (num_of_dec m p)
       | None => S754_nan
       end.
Example n_str_samples : map n_str [num_of_Z 200; num_of_dec 31 (-1); num_of_dec 1 (-7); num_of_dec 12345678901234567890123 0; n_add (num_of_dec 1 (-1)) (num_of_dec 2 (-1)); num_of_dec (-25) (-3); n_div (num_of_Z 1) (num_of_Z 3)]
 = ["200"; "3.1"; "1e-7"; "1.2345678901234568e+22"; "0.30000000000000004"; "-0.025"; "0.3333333333333333"].
Proof. vm_compute. reflexivity. Qed.
Example n_toFixed_samples : map (n_toFixed 2) [num_of_dec 1005 (-3); num_of_dec (-25) (-3); num_of_Z 3; num_of_dec 5 (-4)] = ["1.00"; "-0.03"; "3.00"; "0.00"].
Proof. vm_compute. reflexivity. Qed.
Example parseFloat_samples : map (fun s => n_str (parseFloat s)) ["  12.50abc"; "-.5"; "1e3"; "."; "x"; "1e"; "-Infinity"; "5."] = ["12.5"; "-0.5"; "1000"; "NaN"; "NaN"; "1"; "-Infinity"; "5"].
Proof. vm_compute. reflexivity. Qed.

(** ** The order on numbers

    Every number but NaN has a key in [Z * Z * Z]; the comparisons are the
    lexicographic comparisons of the keys, so linear integer arithmetic
    decides questions about them. *)

Definition n_key (x : num) : option (Z * Z * Z) :=
  match x with
  | S754_nan => None
  | S754_infinity s => Some (if s then -2 else 2, 0, 0)
  | S754_zero _ => Some (0, 0, 0)
  | S754_finite false m e => Some (1, e, Zpos m)
  | S754_finite true m e => Some (-1, - e, Zneg m)
  end.

Definition key_lt (a b : Z * Z * Z) : Prop :=
  let '(a1, a2, a3) := a in let '(b1, b2, b3) := b in
  a1 < b1 \/ (a1 = b1 /\ (a2 < b2 \/ (a2 = b2 /\ a3 < b3))).

Lemma key_compare_spec x y :
  match n_key x, n_key y with
  | Some a, Some b =>
      match SFcompare x y with
      | Some Lt => key_lt a b
      | Some Gt => key_lt b a
      | Some Eq => a = b
      | None => False
      end
  | _, _ => SFcompare x y = None
  end.
Proof.
  destruct x as [s|s| |s m e], y as [s'|s'| |s' m' e']; try destruct s; try destruct s';
    cbn; try reflexivity; try lia.
  all: change (Pos.compare_cont Eq m m') with (Pos.compare m m').
  all: destruct (Z.compare_spec e e'); cbn; try lia.
  all: destruct (Pos.compare_spec m m'); cbn; subst; try reflexivity; lia.
Qed.

Lemma n_lt_key x y :
  n_lt x y = true <-> exists a b, n_key x = Some a /\ n_key y = Some b /\ key_lt a b.
Proof.
  unfold n_lt, SFltb. pose proof (key_compare_spec x y) as H.
  destruct (n_key x) as [[[a1 a2] a3]|], (n_key y) as [[[b1 b2] b3]|];
    try (rewrite H; split; [done|intros (?&?&?&?&?); congruence]).
  destruct (SFcompare x y) as [[]|]; cbn in H |- *; (split;
    [try discriminate; intros _; repeat eexists; eauto
    |intros (?&?&[= <-]&[= <-]&?); cbn in *; simplify_eq; try reflexivity; exfalso; lia]).
Qed.

Lemma n_le_key x y :
  n_le x y = true <-> exists a b, n_key x = Some a /\ n_key y = Some b /\ (key_lt a b \/ a = b).
Proof.
  unfold n_le, SFleb. pose proof (key_compare_spec x y) as H.
  destruct (n_key x) as [[[a1 a2] a3]|], (n_key y) as [[[b1 b2] b3]|];
    try (rewrite H; split; [done|intros (?&?&?&?&?); congruence]).
  destruct (SFcompare x y) as [[]|]; cbn in H |- *; (split;
    [try discriminate; intros _; repeat eexists; eauto
    |intros (?&?&[= <-]&[= <-]&[?|?]); cbn in *; simplify_eq; try reflexivity; exfalso; lia]).
Qed.

Lemma n_key_None x : n_key x = None <-> n_isNaN x = true.
Proof. destruct x as [|?| |[] ? ?]; cbn; split; congruence. Qed.

Lemma n_key_Some x : n_isNaN x = false -> exists a, n_key x = Some a.
Proof. destruct x as [|?| |[] ? ?]; cbn; eauto; discriminate. Qed.

(** Turns comparisons of numbers in the context into integer facts. *)
Ltac num_facts :=
  repeat match goal with
  | H : n_gt ?x ?y = _ |- _ => change (n_gt x y) with (n_lt y x) in H
  | H : n_ge ?x ?y = _ |- _ => change (n_ge x y) with (n_le y x) in H
  | |- context [n_gt ?x ?y] => change (n_gt x y) with (n_lt y x)
  | |- context [n_ge ?x ?y] => change (n_ge x y) with (n_le y x)
  | H : n_lt _ _ = true |- _ => apply n_lt_key in H as (? & ? & ? & ? & H)
  | H : n_le _ _ = true |- _ => apply n_le_key in H as (? & ? & ? & ? & H)
  | H : n_isNaN ?x = false |- _ => apply n_key_Some in H as [? H]
  end; simplify_eq.

(** Splits the keys in the context and finishes with [lia]. *)
Ltac key_solve :=
  num_facts;
  repeat match goal with p : (_ * _)%type |- _ => destruct p end;
  cbn [key_lt] in *; simplify_eq;
  try lia.

Lemma n_lt_irrefl x : n_lt x x = false.
Proof.
  destruct (n_lt x x) eqn:E; [|done]. key_solve.
Qed.

Lemma n_lt_trans x y z : n_lt x y = true -> n_lt y z = true -> n_lt x z = true.
Proof.
  intros H1 H2. num_facts. apply n_lt_key. do 2 eexists. split_and!; eauto.
  key_solve.
Qed.

Lemma n_lt_le_trans x y z : n_lt x y = true -> n_le y z = true -> n_lt x z = true.
Proof.
  intros H1 H2. num_facts. apply n_lt_key. do 2 eexists. split_and!; eauto.
  destruct H2; key_solve.
Qed.

Lemma n_le_lt_trans x y z : n_le x y = true -> n_lt y z = true -> n_lt x z = true.
Proof.
  intros H1 H2. num_facts. apply n_lt_key. do 2 eexists. split_and!; eauto.
  destruct H1; key_solve.
Qed.

Lemma n_le_trans x y z : n_le x y = true -> n_le y z = true -> n_le x z = true.
Proof.
  intros H1 H2. num_facts. apply n_le_key. do 2 eexists. split_and!; eauto.
  destruct H1, H2; simplify_eq; auto. left. key_solve.
Qed.

Lemma n_lt_le x y : n_lt x y = true -> n_le x y = true.
Proof. intros H. num_facts. apply n_le_key. repeat eexists; eauto. Qed.

Lemma n_le_refl x : n_isNaN x = false -> n_le x x = true.
Proof. intros H. num_facts. apply n_le_key. repeat eexists; eauto. Qed.

Lemma n_not_lt x y :
  n_isNaN x = false -> n_isNaN y = false -> n_lt x y = false -> n_le y x = true.
Proof.
  intros [[[a1 a2] a3] Ha]%n_key_Some [[[b1 b2] b3] Hb]%n_key_Some H.
  apply not_true_iff_false in H. rewrite n_lt_key in H.
  apply n_le_key. do 2 eexists. split_and!; eauto.
  destruct (Z.lt_trichotomy a1 b1) as [|[|]], (Z.lt_trichotomy a2 b2) as [|[|]],
    (Z.lt_trichotomy a3 b3) as [|[|]]; subst; cbn; auto; try (left; lia);
    exfalso; apply H; do 2 eexists; split_and!; eauto; cbn; lia.
Qed.

Lemma n_le_not_lt x y : n_le x y = true -> n_lt y x = false.
Proof.
  intros H. destruct (n_lt y x) eqn:E; [|done].
  pose proof (n_lt_le_trans _ _ _ E H) as F. rewrite n_lt_irrefl in F. done.
Qed.

Lemma n_le_nan_l x y : n_le x y = true -> n_isNaN x = false.
Proof.
  intros H. destruct (n_isNaN x) eqn:E; [|done].
  apply n_le_key in H as (?&?&?&?&?). apply n_key_None in E. congruence.
Qed.

Lemma n_le_nan_r x y : n_le x y = true -> n_isNaN y = false.
Proof.
  intros H. destruct (n_isNaN y) eqn:E; [|done].
  apply n_le_key in H as (?&?&?&?&?). apply n_key_None in E. congruence.
Qed.

Lemma n_min_le_l x y :
  n_isNaN x = false -> n_isNaN y = false -> n_le (n_min x y) x = true.
Proof.
  intros Hx Hy. unfold n_min. rewrite Hx, Hy. cbn.
  destruct (n_lt x y) eqn:E1; [by apply n_le_refl|].
  destruct (n_lt y x) eqn:E2; [by apply n_lt_le|].
  destruct (n_sign x); [by apply n_le_refl|]. by apply n_not_lt.
Qed.

Lemma n_min_le_r x y :
  n_isNaN x = false -> n_isNaN y = false -> n_le (n_min x y) y = true.
Proof.
  intros Hx Hy. unfold n_min. rewrite Hx, Hy. cbn.
  destruct (n_lt x y) eqn:E1; [by apply n_lt_le|].
  destruct (n_lt y x) eqn:E2; [by apply n_le_refl|].
  destruct (n_sign x); [by apply n_not_lt|]. by apply n_le_refl.
Qed.

Lemma n_max_le_l x y :
  n_isNaN x = false -> n_isNaN y = false -> n_le x (n_max x y) = true.
Proof.
  intros Hx Hy. unfold n_max. rewrite Hx, Hy. cbn.
  destruct (n_lt x y) eqn:E1; [by apply n_lt_le|].
  destruct (n_lt y x) eqn:E2; [by apply n_le_refl|].
  destruct (n_sign x); [by apply n_not_lt|]. by apply n_le_refl.
Qed.

Lemma n_max_le_r x y :
  n_isNaN x = false -> n_isNaN y = false -> n_le y (n_max x y) = true.
Proof.
  intros Hx Hy. unfold n_max. rewrite Hx, Hy. cbn.
  destruct (n_lt x y) eqn:E1; [by apply n_le_refl|].
  destruct (n_lt y x) eqn:E2; [by apply n_lt_le|].
  destruct (n_sign x); [by apply n_le_refl|]. by apply n_not_lt.
Qed.

Lemma n_max_cases x y :
  n_isNaN x = false -> n_isNaN y = false -> n_max x y = x \/ n_max x y = y.
Proof.
  intros Hx Hy. unfold n_max. rewrite Hx, Hy. cbn.
  destruct (n_lt x y), (n_lt y x), (n_sign x); auto.
Qed.

Lemma n_min_cases x y :
  n_isNaN x = false -> n_isNaN y = false -> n_min x y = x \/ n_min x y = y.
Proof.
  intros Hx Hy. unfold n_min. rewrite Hx, Hy. cbn.
  destruct (n_lt x y), (n_lt y x), (n_sign x); auto.
Qed.

Lemma n_min_not_nan x y :
  n_isNaN x = false -> n_isNaN y = false -> n_isNaN (n_min x y) = false.
Proof. intros. by destruct (n_min_cases x y) as [->| ->]. Qed.

Lemma n_max_not_nan x y :
  n_isNaN x = false -> n_isNaN y = false -> n_isNaN (n_max x y) = false.
Proof. intros. by destruct (n_max_cases x y) as [->| ->]. Qed.

Lemma n_max_lub x y z : n_le x z = true -> n_le y z = true -> n_le (n_max x y) z = true.
Proof.
  intros H1 H2.
  destruct (n_max_cases x y) as [->| ->]; eauto using n_le_nan_l.
Qed.

(** ** Products are numbers *)

Lemma shr_1_nonneg r : 0 <= shr_m r -> 0 <= shr_m (shr_1 r).
Proof. destruct r as [m rr s]. cbn. destruct m as [|[p|p|]|p]; cbn; lia. Qed.

Lemma shr_nonneg r e n : 0 <= shr_m r -> 0 <= shr_m (shr r e n).1.
Proof.
  intros H. unfold shr. destruct n as [|p|p]; cbn; try done.
  assert (Hi : forall q r, 0 <= shr_m r -> 0 <= shr_m (SpecFloat.iter_pos shr_1 q r)).
  { induction q as [q IH|q IH|]; intros r' Hr; cbn; auto using shr_1_nonneg. }
  by apply Hi.
Qed.

Lemma round_aux_not_nan s m e l : 0 <= m -> n_isNaN (binary_round_aux 53 1024 s m e l) = false.
Proof.
  intros Hm. unfold binary_round_aux, shr_fexp.
  assert (H0 : forall m l, 0 <= m -> 0 <= shr_m (shr_record_of_loc m l))
    by (intros m' [|[]]; cbn; lia).
  pose proof (shr_nonneg (shr_record_of_loc m l) e (fexp 53 1024 (Zdigits2 m + e) - e) (H0 m l Hm)) as H1.
  destruct (shr _ _ _) as [r1 e1]. cbn [fst] in H1.
  set (m' := round_nearest_even _ _).
  assert (Hm' : 0 <= m').
  { unfold m', round_nearest_even. repeat case_match; lia. }
  pose proof (shr_nonneg (shr_record_of_loc m' loc_Exact) e1 (fexp 53 1024 (Zdigits2 m' + e1) - e1) (H0 m' loc_Exact Hm')) as H2.
  destruct (shr _ _ _) as [r2 e2]. cbn [fst] in H2.
  destruct (shr_m r2); [done|by destruct (_ <=? _)|lia].
Qed.

(** A number times a finite non-zero number is a number. *)
Lemma n_mul_not_nan x y :
  n_isNaN x = false -> n_isFinite y = true -> n_eq y n_zero = false -> n_isNaN (n_mul x y) = false.
Proof.
  intros Hx Hy Hz. destruct y as [b|b| |b m e]; try done.
  destruct x as [b'|b'| |b' m' e']; try done. unfold n_mul, SFmul. apply round_aux_not_nan. lia.
Qed.

Lemma normalize_not_nan m e szero : n_isNaN (binary_normalize 53 1024 m e szero) = false.
Proof.
  destruct m as [|p|p]; cbn -[binary_round_aux]; [done| |]; unfold binary_round;
    destruct (shl_align _ _ _) as [mz ez]; apply round_aux_not_nan; lia.
Qed.

(** Sums and differences with a finite number are numbers. *)
Lemma n_add_not_nan x y : n_isNaN x = false -> n_isFinite y = true -> n_isNaN (n_add x y) = false.
Proof.
  intros Hx Hy. destruct y as [b|b| |b m e]; try done; destruct x as [b'|b'| |b' m' e']; try done;
    try (by destruct b, b'). unfold n_add, SFadd. apply normalize_not_nan.
Qed.

Lemma n_sub_not_nan x y : n_isFinite x = true -> n_isNaN y = false -> n_isNaN (n_sub x y) = false.
Proof.
  intros Hx Hy. destruct x as [b|b| |b m e]; try done; destruct y as [b'|b'| |b' m' e']; try done;
    try (by destruct b, b'). unfold n_sub, SFsub. apply normalize_not_nan.
Qed.

Create HintDb num discriminated.
#[export] Hint Resolve n_min_le_l n_min_le_r n_max_le_l n_max_le_r n_min_not_nan n_max_not_nan
  n_le_refl n_lt_le n_max_lub n_add_not_nan n_sub_not_nan : num.

(** ** [Math.trunc] and [Number.parseInt] *)

Definition n_trunc (x : num) : num :=
  match x with
  | S754_finite s m e =>
      if 0 <=? e then x
      else let z := Z.quot (cond_Zopp s (Zpos m)) (2 ^ (- e)) in
           if z =? 0 then S754_zero s else num_of_Z z
  | _ => x
  end.

(** [Number.parseInt(s, 10)]: an optional sign and the longest run of digits. *)
Definition parseInt (s : string) : num :=
  let '(neg, s1) := take_sign (trim_start s) in
  let '(v, cnt, _) := take_digits 0 0 s1 in
  if cnt =? 0 then S754_nan else num_signed neg (num_of_Z v).

(** ** Characters of the texts of numbers *)

Definition str_all (P : Ascii.ascii -> Prop) (s : string) : Prop :=
  Forall P (String.list_ascii_of_string s).

Lemma list_ascii_app s t :
  String.list_ascii_of_string (s +:+ t) = String.list_ascii_of_string s ++ String.list_ascii_of_string t.
Proof. induction s as [|c s IH]; cbn; [done|]. by rewrite <- IH. Qed.

Lemma list_ascii_inj s t : String.list_ascii_of_string s = String.list_ascii_of_string t -> s = t.
Proof.
  revert t. induction s as [|c s IH]; intros [|c' t]; cbn; try done.
  intros [= -> E]. f_equal. by apply IH.
Qed.

Lemma str_all_app P s t : str_all P (s +:+ t) <-> str_all P s /\ str_all P t.
Proof. unfold str_all. by rewrite list_ascii_app, Forall_app. Qed.

Lemma str_all_substring P s : forall n m, str_all P s -> str_all P (String.substring n m s).
Proof.
  unfold str_all. induction s as [|c s IH]; intros n m H; cbn.
  - destruct n, m; constructor.
  - apply Forall_cons in H as [Hc H]. destruct n as [|n], m as [|m]; cbn; auto.
Qed.

Lemma str_all_repeat P c n : str_all P c -> str_all P (str_repeat c n).
Proof.
  intros Hc. unfold str_repeat. induction (Z.to_nat n) as [|k IH]; cbn; [constructor|].
  apply str_all_app. auto.
Qed.

Lemma str_all_pretty_N P x :
  (forall y, P (pretty_N_char y)) -> str_all P (pretty (x : N)).
Proof.
  intros HP.
  assert (Hgo : forall (x : N) s, str_all P s -> str_all P (pretty_N_go x s)).
  { induction x0 as [x0 IH] using (well_founded_induction N.lt_wf_0). intros s Hs.
    destruct (decide (0 < x0)%N) as [Hx|Hx].
    - rewrite pretty_N_go_step by done. apply IH; [apply N.div_lt; lia|].
      unfold str_all. cbn. by constructor.
    - assert (x0 = 0%N) as -> by lia. by rewrite pretty_N_go_0. }
  unfold pretty, pretty_N. case_decide.
  - constructor; [apply (HP 0%N)|constructor].
  - apply Hgo. constructor.
Qed.

(** The characters of decimal integers, and of all numbers. *)
Definition is_digit (c : Ascii.ascii) : Prop := exists y, c = pretty_N_char y.
Definition num_char (c : Ascii.ascii) : Prop :=
  is_digit c \/ c ∈ String.list_ascii_of_string "+-.eNaInfity".

Lemma z_str_chars z : str_all (fun c => is_digit c \/ c = "-"%char) (z_str z).
Proof.
  assert (HN : forall x : N, str_all (fun c => is_digit c \/ c = "-"%char) (pretty x)).
  { intros x. apply str_all_pretty_N. intros y. left. by exists y. }
  unfold z_str, pretty, pretty_Z. destruct z as [|p|p].
  - constructor; [|constructor]. left. by exists 0%N.
  - apply HN.
  - apply str_all_app. split; [|apply (HN (Npos p))]. constructor; [by right|constructor].
Qed.

Lemma z_str_num_chars z : str_all num_char (z_str z).
Proof.
  eapply Forall_impl; [apply z_str_chars|]. intros c [?| ->]; [by left|right].
  by apply (bool_decide_unpack _).
Qed.

Lemma literal_num_chars s :
  bool_decide (Forall (fun c => c ∈ String.list_ascii_of_string "+-.eNaInfity0123456789") (String.list_ascii_of_string s)) = true ->
  str_all num_char s.
Proof.
  intros H%bool_decide_eq_true. eapply Forall_impl; [exact H|]. intros c Hc.
  change (String.list_ascii_of_string "+-.eNaInfity0123456789") with
    (String.list_ascii_of_string "+-.eNaInfity" ++ String.list_ascii_of_string "0123456789") in Hc.
  apply elem_of_app in Hc as [Hc|Hc]; [by right|left].
  cbn in Hc. repeat (apply elem_of_cons in Hc as [->|Hc]);
    [by exists 0%N|by exists 1%N|by exists 2%N|by exists 3%N|by exists 4%N|by exists 5%N|by exists 6%N
    |by exists 7%N|by exists 8%N|by exists 9%N|inversion Hc].
Qed.

Lemma n_str_chars x : str_all num_char (n_str x).
Proof.
  destruct x as [s|s| |s m e]; try (by apply literal_num_chars).
  - destruct s; by apply literal_num_chars.
  - unfold n_str. destruct (shortest_digits _ _ _ _ _ _) as [d k]. apply str_all_app. split.
    { destruct s; by apply literal_num_chars. }
    assert (Hd : forall d k n, str_all num_char (digits_string d k n)).
    { intros. unfold digits_string. repeat case_match; rewrite ?str_all_app; split_and?;
      auto using z_str_num_chars, str_all_substring, str_all_repeat, literal_num_chars. }
    by destruct (_ =? _).
Qed.
