(* ===== verification/JsValue.v ===== *)
(** * Dynamically typed values and insertion-ordered maps

    [jsval] is the type [unknown] (the values of a [Record<string, unknown>]);
    [jmap K V] is the language's [Map]: iteration follows insertion order and
    setting an existing key keeps its position.  The lemmas are those the
    components share. *)
From Stdlib Require Import Sorting.Sorted.
From S2P Require Import Prelude JsNumber.
Open Scope Z_scope.

#[local] Set Warnings "-register-all".
Inductive jsval : Type :=
| JUndefined
| JNull
| JBool (b : bool)
| JNum (n : num)
| JStr (s : string)
| JDate (ms : Z)
| JArr (l : list jsval)
| JObj (fields : list (string * jsval)).

(** A [Record<string, unknown>] literal. *)
Definition record_ : Type := list (string * jsval).

(** [r[key]]. *)
Definition rec_get (r : record_) (key : string) : jsval :=
  match List.find (fun kv => bool_decide (kv.1 = key)) r with
  | Some kv => kv.2
  | None => JUndefined
  end.

(** [x ?? y]. *)
Definition nullish (x y : jsval) : jsval :=
  match x with JUndefined | JNull => y | _ => x end.

(** [o ?? d] on an optional value. *)
Definition or_else {A} (o : option A) (d : A) : A := match o with Some a => a | None => d end.

(** A string, a number or an optional string as record data. *)
Definition JStrOpt (o : option string) : jsval := match o with Some s => JStr s | None => JUndefined end.
(** [x ?? null] as record data. *)
Definition JStrNull (o : option string) : jsval := match o with Some s => JStr s | None => JNull end.
Definition JInt (z : Z) : jsval := JNum (num_of_Z z).

(** A value between double quotes in a message. *)
Definition dq : string := String (Ascii.ascii_of_nat 34) EmptyString.
Definition quoted (s : string) : string := dq +:+ s +:+ dq.

(** [if (c) list.push(x)], and [list.length === 0]. *)
Definition push_if {A} (c : bool) (x : A) : list A := if c then [x] else [].
Definition is_empty {A} (l : list A) : bool := match l with [] => true | _ => false end.

Lemma is_empty_app {A} (l1 l2 : list A) : is_empty (l1 ++ l2) = is_empty l1 && is_empty l2.
Proof. by destruct l1. Qed.

Lemma is_empty_push_if {A} c (x : A) : is_empty (push_if c x) = negb c.
Proof. by destruct c. Qed.

Lemma is_empty_nil {A} (l : list A) : is_empty l = true <-> l = [].
Proof. by destruct l. Qed.

(** Decides emptiness of a list of conditional pushes. *)
#[export] Hint Rewrite @is_empty_app @is_empty_push_if : pushes.

(** ** [Array.prototype.sort]

    The sort is stable; [before x y] says that the comparator is negative on
    [x], [y].  An element goes before the first one it must precede. *)

Section Sort.
Context {A : Type} (before : A -> A -> bool).

Fixpoint sort_insert (x : A) (l : list A) : list A :=
  match l with
  | [] => [x]
  | y :: l' => if before x y then x :: l else y :: sort_insert x l'
  end.

Definition js_sort (l : list A) : list A := fold_left (fun acc x => sort_insert x acc) l [].

Lemma sort_insert_perm x l : sort_insert x l ≡ₚ x :: l.
Proof.
  induction l as [|y l IH]; [done|]. cbn. destruct (before x y); [done|]. rewrite IH. apply Permutation_swap.
Qed.

Lemma js_sort_perm l : js_sort l ≡ₚ l.
Proof.
  unfold js_sort. rewrite <- (app_nil_r l) at 2. generalize (@nil A) as acc.
  induction l as [|x l IH]; intros acc; cbn; [done|]. rewrite IH, sort_insert_perm. symmetry. apply Permutation_middle.
Qed.

(** Sorted: no later element has to precede an earlier one. *)
Definition in_order (l : list A) : Prop := StronglySorted (fun x y => before y x = false) l.

Hypothesis before_asym : forall x y, before x y = true -> before y x = false.
Hypothesis before_negtrans : forall x y z, before y x = false -> before z y = false -> before z x = false.

Lemma sort_insert_in_order x l : in_order l -> in_order (sort_insert x l).
Proof.
  intros Hl. induction Hl as [|y l Hl IH Hy]; cbn; [repeat constructor|].
  destruct (before x y) eqn:E.
  - constructor; [by constructor|]. constructor; [by apply before_asym|].
    eapply Forall_impl; [exact Hy|]. intros z Hz. eapply before_negtrans; [|exact Hz]. by apply before_asym.
  - constructor; [done|]. rewrite sort_insert_perm. by constructor.
Qed.

Lemma js_sort_in_order l : in_order (js_sort l).
Proof.
  unfold js_sort. cut (forall acc, in_order acc -> in_order (fold_left (fun acc x => sort_insert x acc) l acc)).
  { intros H. apply H. constructor. }
  induction l as [|x l IH]; intros acc Ha; cbn; [done|]. by apply IH, sort_insert_in_order.
Qed.
End Sort.

(** Only the comparisons between the elements matter. *)
Lemma js_sort_ext {A} (b1 b2 : A -> A -> bool) l :
  (forall x y, x ∈ l -> y ∈ l -> b1 x y = b2 x y) -> js_sort b1 l = js_sort b2 l.
Proof.
  unfold js_sort. intros Hb.
  assert (Hins : forall x s, x ∈ l -> (forall y, y ∈ s -> y ∈ l) -> sort_insert b1 x s = sort_insert b2 x s).
  { intros x s Hx. induction s as [|y s IH]; intros Hs; [done|]. cbn. rewrite Hb by (try done; apply Hs; left).
    rewrite IH; [done|]. intros z Hz. apply Hs. by right. }
  assert (Hgo : forall r acc, (forall x, x ∈ r -> x ∈ l) -> (forall x, x ∈ acc -> x ∈ l) ->
    fold_left (fun acc x => sort_insert b1 x acc) r acc = fold_left (fun acc x => sort_insert b2 x acc) r acc).
  { intros r. induction r as [|x r IH]; intros acc Hr Ha; [done|]. cbn.
    assert (Hx : x ∈ l) by (apply Hr; left). rewrite Hins by done. apply IH; [intros z Hz; apply Hr; by right|].
    intros z Hz. rewrite sort_insert_perm, elem_of_cons in Hz. destruct Hz as [->|Hz]; [done|by apply Ha]. }
  apply Hgo; [done|]. intros x Hx. inversion Hx.
Qed.

(** ** [Map] *)

Section JsMap.
Context {K V : Type} `{EqDecision K}.

Fixpoint jm_get (k : K) (m : list (K * V)) : option V :=
  match m with
  | [] => None
  | (k', v) :: m' => if decide (k = k') then Some v else jm_get k m'
  end.

Fixpoint jm_set (k : K) (v : V) (m : list (K * V)) : list (K * V) :=
  match m with
  | [] => [(k, v)]
  | (k', v') :: m' => if decide (k = k') then (k, v) :: m' else (k', v') :: jm_set k v m'
  end.

Fixpoint jm_delete (k : K) (m : list (K * V)) : list (K * V) :=
  match m with
  | [] => []
  | (k', v') :: m' => if decide (k = k') then jm_delete k m' else (k', v') :: jm_delete k m'
  end.

Definition jm_has (k : K) (m : list (K * V)) : bool :=
  match jm_get k m with Some _ => true | None => false end.
Definition jm_keys (m : list (K * V)) : list K := m.*1.
Definition jm_values (m : list (K * V)) : list V := m.*2.
Definition jm_of_list (l : list (K * V)) : list (K * V) :=
  foldl (fun m kv => jm_set kv.1 kv.2 m) [] l.

Lemma jm_get_set_eq k v m : jm_get k (jm_set k v m) = Some v.
Proof. induction m as [|[k' v'] m IH]; cbn; repeat (case_decide; cbn); done. Qed.

Lemma jm_get_set_ne k k' v m : k <> k' -> jm_get k (jm_set k' v m) = jm_get k m.
Proof.
  intros Hne. induction m as [|[k2 v2] m IH]; cbn; repeat (case_decide; cbn); try congruence; done.
Qed.

Lemma jm_get_set k k' v m :
  jm_get k (jm_set k' v m) = if decide (k = k') then Some v else jm_get k m.
Proof.
  destruct (decide (k = k')) as [->|]; [apply jm_get_set_eq|by apply jm_get_set_ne].
Qed.

Lemma jm_get_delete_eq k m : jm_get k (jm_delete k m) = None.
Proof. induction m as [|[k' v'] m IH]; cbn; repeat (case_decide; cbn); done. Qed.

Lemma jm_get_delete_ne k k' m : k <> k' -> jm_get k (jm_delete k' m) = jm_get k m.
Proof.
  intros Hne. induction m as [|[k2 v2] m IH]; cbn; repeat (case_decide; cbn); try congruence; done.
Qed.

(** Setting a present key keeps the keys and their order. *)
Lemma jm_keys_set_present k v m :
  is_Some (jm_get k m) -> jm_keys (jm_set k v m) = jm_keys m.
Proof.
  unfold jm_keys. induction m as [|[k' v'] m IH]; cbn; intros [w Hw]; [done|].
  case_decide; cbn; [congruence|]. f_equal. eauto.
Qed.

Lemma jm_get_In k v m : jm_get k m = Some v -> (k, v) ∈ m.
Proof.
  induction m as [|[k' v'] m IH]; cbn; [done|].
  case_decide; intros; simplify_eq; [left|right; auto].
Qed.

Lemma jm_get_keys k m : is_Some (jm_get k m) <-> k ∈ jm_keys m.
Proof.
  unfold jm_keys. induction m as [|[k' v'] m IH]; cbn.
  - split; [by intros [? ?]|inversion 1].
  - rewrite elem_of_cons. case_decide; [split; eauto|]. rewrite IH.
    split; [auto|intros [->|?]; done].
Qed.

Lemma jm_In_get k v m : NoDup (jm_keys m) -> (k, v) ∈ m -> jm_get k m = Some v.
Proof.
  unfold jm_keys. induction m as [|[k' v'] m IH]; cbn; intros Hnd Hin; [inversion Hin|].
  apply NoDup_cons in Hnd as [Hk Hnd].
  apply elem_of_cons in Hin as [[= -> ->]|Hin]; case_decide; subst; try done; auto.
  exfalso. apply Hk, list_elem_of_fmap. by exists (k', v).
Qed.

Lemma jm_get_spec m k v : NoDup (jm_keys m) -> jm_get k m = Some v <-> (k, v) ∈ m.
Proof. intros H. split; [apply jm_get_In|by apply jm_In_get]. Qed.

Lemma jm_keys_set k v m k0 :
  k0 ∈ jm_keys (jm_set k v m) <-> k0 = k \/ k0 ∈ jm_keys m.
Proof.
  rewrite <- !jm_get_keys, jm_get_set. case_decide; [split; eauto|].
  split; [auto|intros [->|?]; done].
Qed.

Lemma jm_set_NoDup k v m : NoDup (jm_keys m) -> NoDup (jm_keys (jm_set k v m)).
Proof.
  unfold jm_keys. induction m as [|[k' v'] m IH]; cbn; intros Hnd.
  - apply NoDup_singleton.
  - apply NoDup_cons in Hnd as [Hk Hnd]. case_decide as Hd; cbn.
    + subst. apply NoDup_cons; auto.
    + apply NoDup_cons; split; [|auto].
      intros [->|Hin]%(jm_keys_set k v m k'); [done|]. by apply Hk.
Qed.

Lemma jm_values_set k v m w :
  w ∈ jm_values (jm_set k v m) -> w = v \/ w ∈ jm_values m.
Proof.
  unfold jm_values. induction m as [|[k' v'] m IH]; cbn.
  - intros ->%list_elem_of_singleton. auto.
  - case_decide; cbn; rewrite !elem_of_cons; intuition.
Qed.

Lemma jm_delete_NoDup k m : NoDup (jm_keys m) -> NoDup (jm_keys (jm_delete k m)).
Proof.
  unfold jm_keys. induction m as [|[k' v'] m IH]; cbn; intros Hnd; [done|].
  apply NoDup_cons in Hnd as [Hk Hnd]. case_decide; cbn; auto.
  apply NoDup_cons; split; auto. intros Hin.
  apply (jm_get_keys k' (jm_delete k m)) in Hin as [w Hw].
  rewrite jm_get_delete_ne in Hw by congruence.
  apply Hk, (jm_get_keys k' m). eauto.
Qed.

Lemma jm_of_list_app l kv : jm_of_list (l ++ [kv]) = jm_set kv.1 kv.2 (jm_of_list l).
Proof. unfold jm_of_list. by rewrite foldl_app. Qed.

Lemma jm_of_list_NoDup l : NoDup (jm_keys (jm_of_list l)).
Proof.
  induction l as [|kv l IH] using rev_ind; [constructor|]. rewrite jm_of_list_app. by apply jm_set_NoDup.
Qed.

(** A list of entries with one value per key is kept as it is. *)
Lemma jm_of_list_elem l k v :
  (forall k v v', (k, v) ∈ l -> (k, v') ∈ l -> v = v') ->
  (k, v) ∈ jm_of_list l <-> (k, v) ∈ l.
Proof.
  intros Hf. rewrite <- (jm_get_spec (jm_of_list l)) by apply jm_of_list_NoDup.
  induction l as [|[k0 v0] l IH] using rev_ind; [split; [done|intros H; inversion H]|].
  rewrite jm_of_list_app, jm_get_set, elem_of_app, list_elem_of_singleton. cbn.
  assert (Hl : jm_get k (jm_of_list l) = Some v <-> (k, v) ∈ l).
  { apply IH. intros ? ? ? H1 H2. eapply Hf; apply elem_of_app; left; eassumption. }
  case_decide as Hk.
  - subst. split; [intros [= ->]; by right|]. intros [H|[= ->]]; [|done]. f_equal.
    eapply Hf; apply elem_of_app; [right; by apply list_elem_of_singleton|left; exact H].
  - rewrite Hl. split; [by left|]. intros [?|[= ? ?]]; done.
Qed.

Lemma jm_filter_NoDup (f : K * V -> bool) m : NoDup (jm_keys m) -> NoDup (jm_keys (List.filter f m)).
Proof.
  unfold jm_keys. induction m as [|[k v] m IH]; cbn; intros Hnd; [constructor|].
  apply NoDup_cons in Hnd as [Hk Hnd]. destruct (f (k, v)); cbn; [|auto].
  apply NoDup_cons; split; [|auto]. intros ([k' v'] & E & Hin)%list_elem_of_fmap. cbn in E. subst k'.
  apply list_elem_of_In, filter_In in Hin as [Hin%list_elem_of_In _].
  apply Hk, list_elem_of_fmap. by exists (k, v').
Qed.
End JsMap.

(** ** [Set] *)

Section JsSet.
Context {K : Type} `{EqDecision K}.

Definition js_has (k : K) (s : list K) : bool := bool_decide (k ∈ s).
Definition js_add (s : list K) (k : K) : list K := if js_has k s then s else s ++ [k].
(** [[...new Set(l)]]: the first occurrences, in order. *)
Definition js_unique (l : list K) : list K := foldl js_add [] l.

Lemma elem_of_js_add s k k' : k' ∈ js_add s k <-> k' ∈ s \/ k' = k.
Proof.
  unfold js_add, js_has. case_bool_decide; [split; [auto|by intros [?| ->]]|].
  rewrite elem_of_app, list_elem_of_singleton. done.
Qed.

Lemma js_add_NoDup s k : NoDup s -> NoDup (js_add s k).
Proof.
  intros Hs. unfold js_add, js_has. case_bool_decide; [done|].
  apply NoDup_app. split_and!; [done|set_solver|apply NoDup_singleton].
Qed.

Lemma js_unique_spec l : NoDup (js_unique l) /\ forall k, k ∈ js_unique l <-> k ∈ l.
Proof.
  unfold js_unique. cut (forall acc, NoDup acc -> NoDup (foldl js_add acc l) /\
    forall k, k ∈ foldl js_add acc l <-> k ∈ acc \/ k ∈ l).
  { intros H. destruct (H [] (NoDup_nil_2)) as [H1 H2]. split; [done|]. intros k. rewrite H2. set_solver. }
  induction l as [|x l IH]; intros acc Ha; cbn [foldl].
  - split; [done|]. set_solver.
  - destruct (IH (js_add acc x) (js_add_NoDup _ _ Ha)) as [H1 H2]. split; [done|].
    intros k. rewrite H2, elem_of_js_add. set_solver.
Qed.
End JsSet.

(** The last element does not depend on the default, for a non-empty list. *)
Lemma last_default {A} (x d : A) l : List.last (x :: l) d = List.last l x.
Proof. revert x d. induction l as [|y l IH]; intros x d; [done|]. rewrite (IH y x). apply (IH y d). Qed.

Create Rewrite HintDb jmap.
#[export] Hint Rewrite @jm_get_set_eq @jm_get_delete_eq : jmap.
#[export] Hint Rewrite @jm_get_set_ne @jm_get_delete_ne using congruence : jmap.

(** ** Text *)

(** [s.trim()] and [s.toLowerCase()] on ASCII text. *)
Fixpoint trim_end (s : string) : string :=
  match s with
  | EmptyString => EmptyString
  | String c s' =>
      let t := trim_end s' in
      if bool_decide (t = "") && is_space c then "" else String c t
  end.
Definition js_trim (s : string) : string := trim_end (trim_start s).

Definition lower_char (c : Ascii.ascii) : Ascii.ascii :=
  let n := Ascii.nat_of_ascii c in
  if (65 <=? Z.of_nat n) && (Z.of_nat n <=? 90) then Ascii.ascii_of_nat (n + 32) else c.
Fixpoint toLowerCase (s : string) : string :=
  match s with EmptyString => EmptyString | String c s' => String (lower_char c) (toLowerCase s') end.

Lemma trim_end_idem s : trim_end (trim_end s) = trim_end s.
Proof.
  induction s as [|c s IH]; cbn; [done|].
  destruct (bool_decide (trim_end s = "") && is_space c) eqn:E; [done|].
  cbn. by rewrite IH, E.
Qed.

(** Text without surrounding white space. *)
Definition trimmed (s : string) : Prop := js_trim s = s.

Lemma trim_trimmed s : trimmed (js_trim s).
Proof.
  unfold trimmed, js_trim. induction s as [|c s IH]; cbn; [done|].
  destruct (is_space c) eqn:E; [done|].
  assert (Hs : trim_start (trim_end (String c s)) = trim_end (String c s)).
  { cbn. rewrite E, andb_false_r. cbn. by rewrite E. }
  by rewrite Hs, trim_end_idem.
Qed.

(** Text with no white space, and trimmed text before such text, is trimmed. *)
Lemma no_space_trimmed s : str_all (fun c => is_space c = false) s -> trimmed s.
Proof.
  intros H. unfold trimmed, js_trim. assert (Ht : trim_start s = s).
  { destruct s as [|c s]; [done|]. apply Forall_cons in H as [Hc _]. cbn. by rewrite Hc. }
  rewrite Ht. clear Ht. induction s as [|c s IH]; cbn; [done|].
  apply Forall_cons in H as [Hc H]. rewrite IH by done. by rewrite Hc, andb_false_r.
Qed.

Lemma trim_start_length u : (String.length (trim_start u) <= String.length u)%nat.
Proof. induction u as [|c u IH]; cbn [trim_start String.length]; [lia|]. destruct (is_space c); cbn [String.length]; lia. Qed.

Lemma trim_end_length u : (String.length (trim_end u) <= String.length u)%nat.
Proof. induction u as [|c u IH]; cbn [trim_end String.length]; [lia|]. case_match; cbn [String.length]; lia. Qed.

Lemma trim_start_shrinks c s : trim_start s = String c s -> False.
Proof. intros H. pose proof (trim_start_length s) as Hl. rewrite H in Hl. cbn [String.length] in Hl. lia. Qed.

Lemma trimmed_start s : trimmed s -> trim_start s = s /\ trim_end s = s.
Proof.
  unfold trimmed, js_trim. intros H. assert (Hs : trim_start s = s); [|by rewrite Hs in H].
  destruct s as [|c s]; [done|]. cbn [trim_start] in *. destruct (is_space c); [|done].
  pose proof (trim_end_length (trim_start s)). pose proof (trim_start_length s).
  rewrite H in *. cbn [String.length] in *. lia.
Qed.

Lemma trimmed_app s t :
  trimmed s -> s <> "" -> t <> "" -> str_all (fun c => is_space c = false) t -> trimmed (s +:+ t).
Proof.
  intros [Hst Hend]%trimmed_start Hne Hnt [Ht1 Ht2]%no_space_trimmed%trimmed_start.
  assert (Hstart : trim_start (s +:+ t) = s +:+ t).
  { destruct s as [|c s]; [done|]. change (String c s +:+ t) with (String c (s +:+ t)).
    cbn [trim_start] in *. destruct (is_space c); [|done]. by apply trim_start_shrinks in Hst. }
  unfold trimmed, js_trim. rewrite Hstart. clear Hst Hstart Hne Hend Ht1.
  induction s as [|c s IH]; [done|]. change (String c s +:+ t) with (String c (s +:+ t)).
  cbn [trim_end]. rewrite IH. rewrite bool_decide_false; [done|]. by destruct s, t.
Qed.

Lemma num_chars_no_space s : str_all num_char s -> str_all (fun c => is_space c = false) s.
Proof.
  intros H. eapply Forall_impl; [exact H|]. intros c [[y ->]|Hc].
  - unfold pretty_N_char. by repeat case_match.
  - cbn in Hc. repeat (apply elem_of_cons in Hc as [->|Hc]); try done. inversion Hc.
Qed.

(** ** The host *)

(** What the program takes from the host's time zone: the text of a date, and
    the next local midnight after an instant ([setDate(getDate() + 1)] followed
    by [setHours(0, 0, 0, 0)]). *)
Class HostEnv := {
  date_toString : Z -> string;
  next_local_midnight : Z -> Z;
}.

(** The time of [new Date(text)], when it is valid. *)
Class DateHost := { date_parse : string -> option Z }.

(** A host in UTC. *)
#[export] Instance utc_host : HostEnv := {|
  date_toString := fun ms => "Date(" +:+ z_str ms +:+ ")";
  next_local_midnight := fun ms => (ms / 86400000 + 1) * 86400000;
|}.

(** [Date.prototype.toISOString]: the proleptic Gregorian date and time of an
    instant in UTC, for the years 0 to 9999. *)
Definition pad (n : nat) (z : Z) : string :=
  let ds := z_str z in str_repeat "0" (Z.of_nat n - Z.of_nat (String.length ds)) +:+ ds.
Definition civil_from_days (days : Z) : Z * Z * Z :=
  let z := days + 719468 in
  let era := z / 146097 in
  let doe := z - era * 146097 in
  let yoe := (doe - doe / 1460 + doe / 36524 - doe / 146096) / 365 in
  let doy := doe - (365 * yoe + yoe / 4 - yoe / 100) in
  let mp := (5 * doy + 2) / 153 in
  let d := doy - (153 * mp + 2) / 5 + 1 in
  let m := if mp <? 10 then mp + 3 else mp - 9 in
  let y := yoe + era * 400 in
  ((if m <=? 2 then y + 1 else y), m, d).
Definition toISOString (ms : Z) : string :=
  let '(y, m, d) := civil_from_days (ms / 86400000) in
  let r := ms mod 86400000 in
  pad 4 y +:+ "-" +:+ pad 2 m +:+ "-" +:+ pad 2 d +:+ "T" +:+ pad 2 (r / 3600000) +:+ ":"
  +:+ pad 2 (r / 60000 mod 60) +:+ ":" +:+ pad 2 (r / 1000 mod 60) +:+ "." +:+ pad 3 (r mod 1000) +:+ "Z".
Example toISOString_samples :
  map toISOString [0; 1709210096789] = ["1970-01-01T00:00:00.000Z"; "2024-02-29T12:34:56.789Z"].
Proof. vm_compute. reflexivity. Qed.

Definition bool_str (b : bool) : string := if b then "true" else "false".

(** [String(v)]. *)
Fixpoint js_String `{HostEnv} (v : jsval) : string :=
  match v with
  | JUndefined => "undefined"
  | JNull => "null"
  | JBool b => bool_str b
  | JNum n => n_str n
  | JStr s => s
  | JDate ms => date_toString ms
  | JArr l => String.concat "," (map (fun x => match x with
                                               | JUndefined | JNull => ""
                                               | _ => js_String x end) l)
  | JObj _ => "[object Object]"
  end.

(** [v === s] for a string literal, [v === true]. *)
Definition is_str (v : jsval) (s : string) : bool :=
  match v with JStr t => bool_decide (t = s) | _ => false end.
Definition is_true (v : jsval) : bool := match v with JBool true => true | _ => false end.
