(* ===== verification/JsText.v ===== *)
(** * Text functions of the language

    [split], [includes], [endsWith], [slice], [replace], [join] and the numeric
    conversion [Number(s)] on ASCII text, with the lemmas the text components
    share.  Nothing of the program itself is here. *)
From Stdlib Require Import SpecFloat Ascii.
From S2P Require Import Prelude JsNumber JsValue.
Open Scope Z_scope.

(** The line feed, and a character as text. *)
Definition newline : ascii := Ascii.ascii_of_nat 10.
Definition dquote : ascii := Ascii.ascii_of_nat 34.
Definition chr (c : ascii) : string := String c EmptyString.

(** [s.split(c)]. *)
Fixpoint js_split (c : ascii) (s : string) : list string :=
  match s with
  | EmptyString => [EmptyString]
  | String d s' =>
      if bool_decide (d = c) then EmptyString :: js_split c s'
      else match js_split c s' with
           | [] => [String d EmptyString]
           | w :: ws => String d w :: ws
           end
  end.

(** [l.join(sep)]. *)
Fixpoint js_join (sep : string) (l : list string) : string :=
  match l with
  | [] => ""
  | [w] => w
  | w :: l' => w +:+ sep +:+ js_join sep l'
  end.

(** [s.includes(t)]. *)
Fixpoint includes (t s : string) : bool :=
  String.prefix t s || match s with EmptyString => false | String _ s' => includes t s' end.

(** The first [n] characters, and the rest. *)
Fixpoint str_take (n : nat) (s : string) : string :=
  match n, s with Datatypes.S n', String c s' => String c (str_take n' s') | _, _ => EmptyString end.
Fixpoint str_drop (n : nat) (s : string) : string :=
  match n, s with O, _ => s | Datatypes.S n', String _ s' => str_drop n' s' | _, EmptyString => EmptyString end.

(** [s.endsWith(t)]. *)
Definition endsWith (t s : string) : bool :=
  (String.length t <=? String.length s)%nat && bool_decide (str_drop (String.length s - String.length t) s = t).

(** [s.replace(c, '')] of a single character: the first occurrence. *)
Fixpoint remove_first (c : ascii) (s : string) : string :=
  match s with EmptyString => EmptyString | String d s' => if bool_decide (d = c) then s' else String d (remove_first c s') end.

(** [s.replace(/[...]/g, '')]: the characters that do not satisfy [f]. *)
Fixpoint keep_chars (f : ascii -> bool) (s : string) : string :=
  match s with EmptyString => EmptyString | String d s' => if f d then String d (keep_chars f s') else keep_chars f s' end.

Definition upper_char (c : ascii) : ascii :=
  let n := Ascii.nat_of_ascii c in
  if (97 <=? Z.of_nat n) && (Z.of_nat n <=? 122) then Ascii.ascii_of_nat (n - 32) else c.
Fixpoint toUpperCase (s : string) : string :=
  match s with EmptyString => EmptyString | String c s' => String (upper_char c) (toUpperCase s') end.

(** [s.replace(/\.?0+$/, '')]: the leftmost match of an optional dot and zeros
    that reaches the end. *)
Fixpoint only_zeros (s : string) : bool :=
  match s with EmptyString => true | String c s' => bool_decide (c = "0"%char) && only_zeros s' end.
Definition some_zeros (s : string) : bool := negb (bool_decide (s = "")) && only_zeros s.
Fixpoint strip_zeros (s : string) : string :=
  match s with
  | EmptyString => EmptyString
  | String c s' =>
      if some_zeros s || bool_decide (c = "."%char) && some_zeros s' then EmptyString else String c (strip_zeros s')
  end.

(** ** [Number(s)] *)

Definition hex_val (c : ascii) : option Z :=
  let n := Z.of_nat (Ascii.nat_of_ascii c) in
  if (48 <=? n) && (n <=? 57) then Some (n - 48)
  else if (65 <=? n) && (n <=? 70) then Some (n - 55)
  else if (97 <=? n) && (n <=? 102) then Some (n - 87) else None.

(** An integer in the given radix, all of the text. *)
Fixpoint radix_digits (radix acc : Z) (s : string) : option Z :=
  match s with
  | EmptyString => Some acc
  | String c s' => match hex_val c with
                   | Some d => if d <? radix then radix_digits radix (acc * radix + d) s' else None
                   | None => None
                   end
  end.
Definition radix_number (radix : Z) (s : string) : num :=
  match s with
  | EmptyString => S754_nan
  | _ => match radix_digits radix 0 s with Some z => num_of_Z z | None => S754_nan end
  end.

Definition js_Number (s : string) : num :=
  let t := js_trim s in
  match t with
  | EmptyString => n_zero
  | String "0" (String ("x" | "X") s') => radix_number 16 s'
  | String "0" (String ("o" | "O") s') => radix_number 8 s'
  | String "0" (String ("b" | "B") s') => radix_number 2 s'
  | _ =>
      let '(neg, s1) := take_sign t in
      if bool_decide (s1 = "Infinity") then num_signed neg (S754_infinity false)
      else match take_decimal s1 with
           | Some (m, p, EmptyString) => num_signed neg (num_of_dec m p)
           | _ => S754_nan
           end
  end.

(** An integral number as an integer (truncated). *)
Definition Z_of_num (x : num) : Z :=
  match x with
  | S754_finite s m e =>
      if 0 <=? e then cond_Zopp s (Zpos m) * 2 ^ e else Z.quot (cond_Zopp s (Zpos m)) (2 ^ (- e))
  | _ => 0
  end.

Example js_Number_samples :
  map (fun s => n_str (js_Number s)) [" 12.5 "; ""; "0x1F"; "1e3"; "12a"; "-Infinity"; "."; "+7"; "0b2"] =
  ["12.5"; "0"; "31"; "1000"; "NaN"; "-Infinity"; "NaN"; "7"; "NaN"].
Proof. vm_compute. reflexivity. Qed.
Example strip_zeros_samples :
  map strip_zeros ["100.00000000"; "0.50000000"; "12.00340000"; "100"; "1e+30"; ""] = ["100"; "0.5"; "12.0034"; "1"; "1e+3"; ""].
Proof. vm_compute. reflexivity. Qed.
Example js_split_samples : js_split "," "a,b,,c" = ["a"; "b"; ""; "c"] /\ js_split "," "" = [""].
Proof. split; reflexivity. Qed.

(** ** Lemmas *)

Lemma str_app_nil s : s +:+ "" = s.
Proof. apply list_ascii_inj. by rewrite list_ascii_app, app_nil_r. Qed.

Lemma str_app_assoc a b c : (a +:+ b) +:+ c = a +:+ b +:+ c.
Proof. apply list_ascii_inj. by rewrite !list_ascii_app, app_assoc. Qed.

Lemma js_split_nonempty c s : js_split c s <> [].
Proof. destruct s as [|d s]; [done|]. cbn. case_bool_decide; [done|]. by destruct (js_split c s). Qed.

(** Splitting and joining with the separator is the identity. *)
Lemma js_join_split c s : js_join (chr c) (js_split c s) = s.
Proof.
  induction s as [|d s IH]; [done|]. cbn [js_split].
  pose proof (js_split_nonempty c s) as Hne. case_bool_decide as Hd.
  - subst. destruct (js_split c s) as [|w ws]; [done|]. cbn [js_join] in *. 
    change (EmptyString +:+ chr c +:+ ?x) with (String c x). by rewrite IH.
  - destruct (js_split c s) as [|w [|w' ws]]; [done| |]; cbn [js_join] in *.
    + by rewrite IH.
    + change (String d w +:+ ?x) with (String d (w +:+ x)). by rewrite IH.
Qed.
