(* ===== verification/DecimalLib.v ===== *)
(** * The decimal.js interface

    decimal.js is a third-party package: its operations are the fields of the
    class [DecimalLib], an argument of every definition that uses them.
    [DecimalLaws] states the documented behaviour the proofs rely on; the
    instance [exact_decimal] (rational arithmetic without a precision limit)
    satisfies it, so the hypotheses are consistent and the witnesses compute. *)
From Stdlib Require Import SpecFloat Ascii Qround Qabs.
From S2P Require Import Prelude JsNumber.
Open Scope Z_scope.

(** ** Operations *)

Class DecimalLib := {
  dec : Type;
  (** [new Decimal(s)] of a string: throws a [DecimalError] on an invalid one. *)
  dec_of_string : string -> exn dec;
  (** [new Decimal(n)] of a number. *)
  dec_of_num : num -> dec;
  d_plus : dec -> dec -> dec;
  d_minus : dec -> dec -> dec;
  d_times : dec -> dec -> dec;
  d_div : dec -> dec -> dec;
  d_abs : dec -> dec;
  d_neg : dec -> dec;
  d_gt : dec -> dec -> bool;
  d_lt : dec -> dec -> bool;
  d_gte : dec -> dec -> bool;
  d_lte : dec -> dec -> bool;
  d_eq : dec -> dec -> bool;
  d_isZero : dec -> bool;
  (** [a.comparedTo(b)]; [None] is NaN. *)
  d_cmp : dec -> dec -> option comparison;
  (** [Decimal.max(...l)] and [Decimal.min(...l)]. *)
  d_max : list dec -> dec;
  d_min : list dec -> dec;
  (** [toFixed()], [toFixed(dp)], [toString()], [toNumber()]. *)
  d_toFixed : dec -> string;
  d_toFixedN : Z -> dec -> string;
  d_toString : dec -> string;
  d_toNumber : dec -> num;
  (** [a.pow(n)] with a number as exponent. *)
  d_pow : dec -> num -> dec;
  (** [toDecimalPlaces(dp)], rounding half up, and [toDecimalPlaces(dp, ROUND_DOWN)]. *)
  d_toDP : Z -> dec -> dec;
  d_toDP_down : Z -> dec -> dec;
}.

(** [new Decimal(z)] of an integer literal. *)
Definition dec_of_Z `{DecimalLib} (z : Z) : dec := dec_of_num (num_of_Z z).

(** ** Values *)

Inductive dvalue : Type := DNaN | DNInf | DFin (q : Q) | DPInf.

Definition Qltb (x y : Q) : bool := negb (Qle_bool y x).

Definition dv_lt (x y : dvalue) : bool :=
  match x, y with
  | DNaN, _ | _, DNaN => false
  | DNInf, DNInf => false
  | DNInf, _ => true
  | _, DNInf => false
  | DPInf, _ => false
  | DFin _, DPInf => true
  | DFin a, DFin b => Qltb a b
  end.

Definition dv_isNaN (x : dvalue) : bool := match x with DNaN => true | _ => false end.
Definition dv_le (x y : dvalue) : bool :=
  negb (dv_isNaN x) && negb (dv_isNaN y) && negb (dv_lt y x).
Definition dv_eqb (x y : dvalue) : bool := dv_le x y && dv_le y x.

(** [comparedTo]: no result when a side is not a number. *)
Definition dv_cmp (a b : dvalue) : option comparison :=
  if dv_isNaN a || dv_isNaN b then None
  else Some (if dv_lt a b then Lt else if dv_lt b a then Gt else Eq).

(** The same value: rationals up to [==]. *)
Definition dv_equiv (x y : dvalue) : Prop :=
  match x, y with
  | DFin a, DFin b => (a == b)%Q
  | DNaN, DNaN | DNInf, DNInf | DPInf, DPInf => True
  | _, _ => False
  end.

Definition dv_neg (x : dvalue) : dvalue :=
  match x with DNaN => DNaN | DNInf => DPInf | DPInf => DNInf | DFin q => DFin (- q) end.
Definition dv_abs (x : dvalue) : dvalue :=
  match x with DNaN => DNaN | DNInf | DPInf => DPInf | DFin q => DFin (Qabs q) end.

#[export] Instance dv_equiv_equivalence : Equivalence dv_equiv.
Proof.
  split.
  - intros x. destruct x; cbn; done.
  - intros x y. destruct x, y; cbn; try done. 
  - intros x y z. destruct x, y, z; cbn; try done. intros H1 H2. by rewrite H1.
Qed.

#[export] Instance Qltb_proper : Proper (Qeq ==> Qeq ==> eq) Qltb.
Proof. intros a b H c d H'. unfold Qltb. by rewrite H, H'. Qed.

#[export] Instance dv_lt_proper : Proper (dv_equiv ==> dv_equiv ==> eq) dv_lt.
Proof.
  intros x y H x' y' H'. destruct x, y, x', y'; cbn in *; try done. by rewrite H, H'.
Qed.

#[export] Instance dv_isNaN_proper : Proper (dv_equiv ==> eq) dv_isNaN.
Proof. intros x y H. destruct x, y; done. Qed.

#[export] Instance dv_le_proper : Proper (dv_equiv ==> dv_equiv ==> eq) dv_le.
Proof. intros a b H c d H'. unfold dv_le. by rewrite H, H'. Qed.

#[export] Instance dv_eqb_proper : Proper (dv_equiv ==> dv_equiv ==> eq) dv_eqb.
Proof. intros a b H c d H'. unfold dv_eqb. by rewrite H, H'. Qed.

(** [x] rounded to [dp] decimal places, ties away from zero (ROUND_HALF_UP). *)
Definition round_half_up (dp : Z) (x : Q) : Q :=
  let i := Qfloor (Qabs x * inject_Z (10 ^ dp) + (1 # 2)) in
  Qmake (if Qltb x 0 then - i else i) (Z.to_pos (10 ^ dp)).

(** [x] cut off after [dp] decimal places (ROUND_DOWN: towards zero). *)
Definition round_down (dp : Z) (x : Q) : Q :=
  let i := Qfloor (Qabs x * inject_Z (10 ^ dp)) in
  Qmake (if Qltb x 0 then - i else i) (Z.to_pos (10 ^ dp)).

(** The value of a decimal literal: sign, digits, optional fraction and exponent. *)
Definition dec_value (m p : Z) : Q :=
  if 0 <=? p then inject_Z (m * 10 ^ p) else Qmake m (Z.to_pos (10 ^ (- p))).
Definition decimal_literal (s : string) : option Q :=
  let '(neg, s1) := take_sign s in
  match take_decimal s1 with
  | Some (m, p, EmptyString) =>
      if Z.abs p <=? 1000 then Some (dec_value (if neg : bool then - m else m) p) else None
  | _ => None
  end.

(** ** Documented behaviour *)

Class DecimalLaws `{DL : DecimalLib} := {
  dval : dec -> dvalue;
  (** rounding to the configured precision, with overflow to an infinity *)
  d_rnd : Q -> dvalue;
  d_rnd_proper : forall x y, (x == y)%Q -> dv_equiv (d_rnd x) (d_rnd y);
  d_rnd_mono : forall x y, (x <= y)%Q -> dv_le (d_rnd x) (d_rnd y) = true;
  (** what has at most 20 significant digits is not rounded *)
  d_rnd_exact : forall m p, Z.abs m < 10 ^ 20 -> 0 <= p <= 1000 ->
    dv_equiv (d_rnd (Qmake m (Z.to_pos (10 ^ p)))) (DFin (Qmake m (Z.to_pos (10 ^ p))));
  d_gt_val : forall a b, d_gt a b = dv_lt (dval b) (dval a);
  d_lt_val : forall a b, d_lt a b = dv_lt (dval a) (dval b);
  d_gte_val : forall a b, d_gte a b = dv_le (dval b) (dval a);
  d_lte_val : forall a b, d_lte a b = dv_le (dval a) (dval b);
  d_eq_val : forall a b, d_eq a b = dv_eqb (dval a) (dval b);
  d_cmp_val : forall a b, d_cmp a b = dv_cmp (dval a) (dval b);
  d_isZero_val : forall a, d_isZero a = dv_eqb (dval a) (DFin 0);
  d_of_int : forall z, Z.abs z < 2 ^ 53 -> dv_equiv (dval (dec_of_Z z)) (DFin (inject_Z z));
  d_abs_val : forall a, dv_equiv (dval (d_abs a)) (dv_abs (dval a));
  d_neg_val : forall a, dv_equiv (dval (d_neg a)) (dv_neg (dval a));
  d_plus_val : forall a b x y, dval a = DFin x -> dval b = DFin y ->
    dv_equiv (dval (d_plus a b)) (d_rnd (x + y));
  d_minus_val : forall a b x y, dval a = DFin x -> dval b = DFin y ->
    dv_equiv (dval (d_minus a b)) (d_rnd (x - y));
  d_times_val : forall a b x y, dval a = DFin x -> dval b = DFin y ->
    dv_equiv (dval (d_times a b)) (d_rnd (x * y));
  d_div_val : forall a b x y, dval a = DFin x -> dval b = DFin y -> ~ (y == 0)%Q ->
    dv_equiv (dval (d_div a b)) (d_rnd (x / y));
  (** an infinity divided, or multiplied, by a positive value is that infinity *)
  d_div_inf : forall a b y, dval b = DFin y -> (0 < y)%Q -> dval a = DPInf \/ dval a = DNInf ->
    dval (d_div a b) = dval a;
  d_times_inf : forall a b y, dval b = DFin y -> (0 < y)%Q -> dval a = DPInf \/ dval a = DNInf ->
    dval (d_times a b) = dval a;
  d_max_in : forall l, l <> [] -> Forall (fun a => dv_isNaN (dval a) = false) l ->
    exists a, a ∈ l /\ dv_equiv (dval (d_max l)) (dval a) /\
              Forall (fun b => dv_le (dval b) (dval (d_max l)) = true) l;
  d_min_in : forall l, l <> [] -> Forall (fun a => dv_isNaN (dval a) = false) l ->
    exists a, a ∈ l /\ dv_equiv (dval (d_min l)) (dval a) /\
              Forall (fun b => dv_le (dval (d_min l)) (dval b) = true) l;
  (** a decimal literal is converted exactly *)
  d_of_literal : forall s q, decimal_literal s = Some q ->
    exists d, dec_of_string s = Ret d /\ dv_equiv (dval d) (DFin q);
  (** the output of [toFixed(dp)] parses to the value rounded half up *)
  d_toFixedN_parse : forall dp a x, 0 <= dp -> dval a = DFin x ->
    exists b, dec_of_string (d_toFixedN dp a) = Ret b /\ dv_equiv (dval b) (DFin (round_half_up dp x));
  (** the output of [toFixed()] of a value with at most 20 decimal places parses to the value *)
  d_toFixed_parse : forall a m p, 0 <= p <= 20 -> dv_equiv (dval a) (DFin (Qmake m (Z.to_pos (10 ^ p)))) ->
    exists b, dec_of_string (d_toFixed a) = Ret b /\ dv_equiv (dval b) (dval a);
  (** a number of decimal places is a fixed one, whatever the precision *)
  d_toDP_val : forall dp a x, 0 <= dp -> dval a = DFin x -> dv_equiv (dval (d_toDP dp a)) (DFin (round_half_up dp x));
  d_toDP_down_val : forall dp a x, 0 <= dp -> dval a = DFin x ->
    dv_equiv (dval (d_toDP_down dp a)) (DFin (round_down dp x));
}.

(** ** Order lemmas *)

Lemma Qltb_spec x y : Qltb x y = true <-> (x < y)%Q.
Proof.
  unfold Qltb. rewrite negb_true_iff, <- not_true_iff_false, Qle_bool_iff.
  split; [apply Qnot_le_lt|apply Qlt_not_le].
Qed.

Lemma Qltb_false x y : Qltb x y = false <-> (y <= x)%Q.
Proof. unfold Qltb. by rewrite negb_false_iff, Qle_bool_iff. Qed.

(** Reduces comparisons of decimal values to rational inequalities. *)
Ltac dv_simpl :=
  unfold dv_eqb, dv_le in *; cbn [dv_lt dv_isNaN negb andb] in *;
  repeat match goal with
  | H : (_ && _)%bool = true |- _ => apply andb_true_iff in H as [? H]
  | H : negb _ = true |- _ => apply negb_true_iff in H
  | H : negb _ = false |- _ => apply negb_false_iff in H
  | H : Qltb _ _ = true |- _ => apply Qltb_spec in H
  | H : Qltb _ _ = false |- _ => apply Qltb_false in H
  | |- (_ && _)%bool = true => apply andb_true_iff; split
  | |- negb _ = true => apply negb_true_iff
  | |- Qltb _ _ = true => apply Qltb_spec
  | |- Qltb _ _ = false => apply Qltb_false
  end.
Ltac dv_solve := dv_simpl; try done; try lra.

Lemma dv_le_refl x : dv_isNaN x = false -> dv_le x x = true.
Proof. destruct x; intros; dv_solve. Qed.

Lemma dv_le_trans x y z : dv_le x y = true -> dv_le y z = true -> dv_le x z = true.
Proof. destruct x, y, z; intros; dv_solve. Qed.

Lemma dv_lt_le_trans x y z : dv_lt x y = true -> dv_le y z = true -> dv_lt x z = true.
Proof. destruct x, y, z; intros; dv_solve. Qed.

Lemma dv_le_lt_trans x y z : dv_le x y = true -> dv_lt y z = true -> dv_lt x z = true.
Proof. destruct x, y, z; intros; dv_solve. Qed.

Lemma dv_lt_irrefl x : dv_lt x x = false.
Proof. destruct x; dv_solve. Qed.

Lemma dv_lt_le x y : dv_lt x y = true -> dv_le x y = true.
Proof. destruct x, y; intros; dv_solve. Qed.

Lemma dv_le_not_lt x y : dv_le x y = true -> dv_lt y x = false.
Proof. destruct x, y; intros; dv_solve. Qed.

Lemma dv_not_lt_le x y :
  dv_isNaN x = false -> dv_isNaN y = false -> dv_lt x y = false -> dv_le y x = true.
Proof. destruct x, y; intros; dv_solve. Qed.

Lemma dv_le_nan_l x y : dv_le x y = true -> dv_isNaN x = false.
Proof. destruct x; done. Qed.

Lemma dv_le_nan_r x y : dv_le x y = true -> dv_isNaN y = false.
Proof. destruct x, y; done. Qed.

Create HintDb dec discriminated.
#[export] Hint Resolve dv_le_refl dv_le_trans dv_lt_le dv_le_nan_l dv_le_nan_r : dec.

(** [d] is the finite value [q]. *)
Definition is_fin `{DecimalLaws} (d : dec) (q : Q) : Prop := dv_equiv (dval d) (DFin q).

Section Arith.
Context `{DecimalLaws}.

Lemma is_fin_dval d q : is_fin d q -> exists q', dval d = DFin q' /\ (q' == q)%Q.
Proof. unfold is_fin. destruct (dval d); cbn; try done. eauto. Qed.

Lemma is_fin_not_nan d q : is_fin d q -> dv_isNaN (dval d) = false.
Proof. intros (?&->&?)%is_fin_dval. done. Qed.

Lemma d_rnd_not_nan x : dv_isNaN (d_rnd x) = false.
Proof. eapply dv_le_nan_l, d_rnd_mono, Qle_refl. Qed.

Lemma d_plus_fin a b x y : is_fin a x -> is_fin b y -> dv_equiv (dval (d_plus a b)) (d_rnd (x + y)).
Proof.
  intros (x'&Hx&Ex)%is_fin_dval (y'&Hy&Ey)%is_fin_dval.
  rewrite (d_plus_val _ _ _ _ Hx Hy). apply d_rnd_proper. by rewrite Ex, Ey.
Qed.

Lemma d_minus_fin a b x y : is_fin a x -> is_fin b y -> dv_equiv (dval (d_minus a b)) (d_rnd (x - y)).
Proof.
  intros (x'&Hx&Ex)%is_fin_dval (y'&Hy&Ey)%is_fin_dval.
  rewrite (d_minus_val _ _ _ _ Hx Hy). apply d_rnd_proper. by rewrite Ex, Ey.
Qed.

Lemma d_times_fin a b x y : is_fin a x -> is_fin b y -> dv_equiv (dval (d_times a b)) (d_rnd (x * y)).
Proof.
  intros (x'&Hx&Ex)%is_fin_dval (y'&Hy&Ey)%is_fin_dval.
  rewrite (d_times_val _ _ _ _ Hx Hy). apply d_rnd_proper. by rewrite Ex, Ey.
Qed.

Lemma d_div_fin a b x y : is_fin a x -> is_fin b y -> ~ (y == 0)%Q ->
  dv_equiv (dval (d_div a b)) (d_rnd (x / y)).
Proof.
  intros (x'&Hx&Ex)%is_fin_dval (y'&Hy&Ey)%is_fin_dval Hnz.
  rewrite (d_div_val _ _ _ _ Hx Hy) by (by rewrite Ey). apply d_rnd_proper. by rewrite Ex, Ey.
Qed.

Lemma d_isZero_fin a x : is_fin a x -> d_isZero a = Qeq_bool x 0.
Proof.
  intros (x'&Hx&Ex)%is_fin_dval. rewrite d_isZero_val, Hx.
  apply eq_true_iff_eq. rewrite Qeq_bool_iff, <- Ex. split; intros.
  - dv_simpl. lra.
  - dv_solve.
Qed.

Lemma d_rnd_zero : dv_equiv (d_rnd 0) (DFin 0).
Proof. apply (d_rnd_exact 0 0); lia. Qed.

Lemma d_rnd_nonneg x : (0 <= x)%Q -> dv_le (DFin 0) (d_rnd x) = true.
Proof. intros Hx. rewrite <- d_rnd_zero. by apply d_rnd_mono. Qed.

Lemma d_zero_fin : is_fin (dec_of_Z 0) 0.
Proof. by apply (d_of_int 0). Qed.

(** Comparisons of finite values. *)
Lemma d_gt_fin a b x y : is_fin a x -> is_fin b y -> d_gt a b = Qltb y x.
Proof. intros Hx Hy. unfold is_fin in *. by rewrite d_gt_val, Hx, Hy. Qed.

Lemma d_lt_fin a b x y : is_fin a x -> is_fin b y -> d_lt a b = Qltb x y.
Proof. intros Hx Hy. unfold is_fin in *. by rewrite d_lt_val, Hx, Hy. Qed.

Lemma d_gte_fin a b x y : is_fin a x -> is_fin b y -> d_gte a b = Qle_bool y x.
Proof. intros Hx Hy. unfold is_fin in *. rewrite d_gte_val, Hx, Hy. cbn. apply negb_involutive. Qed.

Lemma d_lte_fin a b x y : is_fin a x -> is_fin b y -> d_lte a b = Qle_bool x y.
Proof. intros Hx Hy. unfold is_fin in *. rewrite d_lte_val, Hx, Hy. cbn. apply negb_involutive. Qed.

Lemma d_eq_fin a b x y : is_fin a x -> is_fin b y -> d_eq a b = Qeq_bool x y.
Proof.
  intros Hx Hy. unfold is_fin in *. rewrite d_eq_val, Hx, Hy. apply eq_true_iff_eq. rewrite Qeq_bool_iff.
  split; intros; dv_solve.
Qed.

Lemma d_abs_fin a x : is_fin a x -> is_fin (d_abs a) (Qabs x).
Proof.
  intros (x' & Hx & E)%is_fin_dval. unfold is_fin. rewrite d_abs_val, Hx. cbn. by rewrite E.
Qed.

(** The larger (smaller) of two finite values is one of them. *)
Lemma d_max2_fin a b x y : is_fin a x -> is_fin b y ->
  exists z, is_fin (d_max [a; b]) z /\ (x <= z)%Q /\ (y <= z)%Q /\ (z == x \/ z == y)%Q.
Proof.
  intros Ha Hb. destruct (d_max_in [a; b]) as (c & Hc & Ec & Hall); [done| |].
  { repeat constructor; by eapply is_fin_not_nan. }
  inversion Hall as [|? ? La Hall']; inversion Hall' as [|? ? Lb _]; subst. unfold is_fin in *.
  assert (dv_equiv (dval (d_max [a; b])) (DFin x) \/ dv_equiv (dval (d_max [a; b])) (DFin y)) as [E|E].
  { rewrite elem_of_cons, list_elem_of_singleton in Hc. destruct Hc as [-> | ->]; [left|right]; by etrans. }
  - exists x. split; [done|]. rewrite E, ?Ha, ?Hb in *. split_and!; [lra|dv_solve|by left].
  - exists y. split; [done|]. rewrite E, ?Ha, ?Hb in *. split_and!; [dv_solve|lra|by right].
Qed.

Lemma d_cmp_lt_fin a b x y : is_fin a x -> is_fin b y -> bool_decide (d_cmp a b = Some Lt) = Qltb x y.
Proof.
  intros Hx Hy. pose proof (d_lt_fin _ _ _ _ Hx Hy) as Hlt. rewrite d_lt_val in Hlt.
  pose proof (is_fin_not_nan _ _ Hx) as Nx. pose proof (is_fin_not_nan _ _ Hy) as Ny.
  rewrite d_cmp_val. unfold dv_cmp. rewrite Nx, Ny, Hlt. cbn [orb].
  destruct (Qltb x y); [by apply bool_decide_eq_true|apply bool_decide_eq_false].
  by destruct (dv_lt (dval b) (dval a)).
Qed.

(** [s] is a decimal string of finite value [q]. *)
Definition parses (s : string) (q : Q) : Prop :=
  exists d, dec_of_string s = Ret d /\ is_fin d q.

Lemma literal_parses s q : decimal_literal s = Some q -> parses s q.
Proof. intros (d & ? & ?)%d_of_literal. by exists d. Qed.

(** Division and multiplication by a positive value are monotone. *)
Lemma d_div_mono a b c y :
  is_fin c y -> (0 < y)%Q -> dv_le (dval a) (dval b) = true ->
  dv_le (dval (d_div a c)) (dval (d_div b c)) = true.
Proof.
  intros Hc Hy Hab. destruct (is_fin_dval _ _ Hc) as (y' & Hc' & Ey).
  assert (0 < y')%Q by lra. assert (~ y == 0)%Q by lra.
  assert (Hv : forall d, dv_isNaN (dval d) = false ->
    match dval d with
    | DFin x => dv_equiv (dval (d_div d c)) (d_rnd (x / y))
    | v => dval (d_div d c) = v
    end).
  { intros d Hd. destruct (dval d) eqn:E; [done| | |].
    - by rewrite (d_div_inf _ _ _ Hc'), E; auto.
    - apply d_div_fin; try done. by unfold is_fin; rewrite E.
    - by rewrite (d_div_inf _ _ _ Hc'), E; auto. }
  pose proof (Hv a (dv_le_nan_l _ _ Hab)) as Ha. pose proof (Hv b (dv_le_nan_r _ _ Hab)) as Hb.
  destruct (dval a) eqn:Ea, (dval b) eqn:Eb; try done; rewrite Ha, Hb; try done.
  - pose proof (d_rnd_not_nan (q / y)). destruct (d_rnd (q / y)); done.
  - apply d_rnd_mono. apply Qmult_le_compat_r; [by dv_simpl|].
    by apply Qlt_le_weak, Qinv_lt_0_compat.
  - pose proof (d_rnd_not_nan (q / y)). destruct (d_rnd (q / y)); done.
Qed.

Lemma d_times_mono a b c y :
  is_fin c y -> (0 < y)%Q -> dv_le (dval a) (dval b) = true ->
  dv_le (dval (d_times a c)) (dval (d_times b c)) = true.
Proof.
  intros Hc Hy Hab. destruct (is_fin_dval _ _ Hc) as (y' & Hc' & Ey).
  assert (0 < y')%Q by lra.
  assert (Hv : forall d, dv_isNaN (dval d) = false ->
    match dval d with
    | DFin x => dv_equiv (dval (d_times d c)) (d_rnd (x * y))
    | v => dval (d_times d c) = v
    end).
  { intros d Hd. destruct (dval d) eqn:E; [done| | |].
    - by rewrite (d_times_inf _ _ _ Hc'), E; auto.
    - apply d_times_fin; try done. by unfold is_fin; rewrite E.
    - by rewrite (d_times_inf _ _ _ Hc'), E; auto. }
  pose proof (Hv a (dv_le_nan_l _ _ Hab)) as Ha. pose proof (Hv b (dv_le_nan_r _ _ Hab)) as Hb.
  destruct (dval a) eqn:Ea, (dval b) eqn:Eb; try done; rewrite Ha, Hb; try done.
  - pose proof (d_rnd_not_nan (q * y)). destruct (d_rnd (q * y)); done.
  - apply d_rnd_mono. apply Qmult_le_compat_r; [|lra]. dv_simpl. done.
  - pose proof (d_rnd_not_nan (q * y)). destruct (d_rnd (q * y)); done.
Qed.

Lemma d_plus_mono a b c x y z :
  is_fin a x -> is_fin b y -> is_fin c z -> (x <= y)%Q ->
  dv_le (dval (d_plus c a)) (dval (d_plus c b)) = true.
Proof.
  intros Ha Hb Hc Hle. rewrite (d_plus_fin _ _ _ _ Hc Ha), (d_plus_fin _ _ _ _ Hc Hb).
  apply d_rnd_mono. lra.
Qed.

Lemma d_max2_ge a b :
  dv_isNaN (dval a) = false -> dv_isNaN (dval b) = false ->
  dv_le (dval a) (dval (d_max [a; b])) = true /\ dv_le (dval b) (dval (d_max [a; b])) = true.
Proof.
  intros Ha Hb. destruct (d_max_in [a; b]) as (c & _ & _ & Hc); [done|by repeat constructor|].
  by inversion Hc as [|? ? ? Hc']; inversion Hc'.
Qed.

Lemma d_min_le l a :
  Forall (fun a => dv_isNaN (dval a) = false) l -> a ∈ l -> dv_le (dval (d_min l)) (dval a) = true.
Proof.
  intros Hl Ha. destruct (d_min_in l) as (c & _ & _ & Hc); [by intros ->; inversion Ha|done|].
  by rewrite Forall_forall in Hc; apply Hc.
Qed.

Lemma d_min_case l :
  l <> [] -> Forall (fun a => dv_isNaN (dval a) = false) l ->
  exists c, c ∈ l /\ dv_equiv (dval (d_min l)) (dval c).
Proof. intros H1 H2. destruct (d_min_in l) as (c & ? & ? & _); eauto. Qed.
End Arith.
