(* ===== verification/DecimalExact.v ===== *)
(** * A concrete instance of the decimal.js interface

    Rational arithmetic without a precision limit.  It satisfies
    [DecimalLaws], so the hypotheses the proofs make of the third-party
    package are consistent, and the witnesses evaluate with it. *)
From Stdlib Require Import SpecFloat Ascii Qround Qabs.
From S2P Require Import Prelude JsNumber DecimalLib.
Open Scope Z_scope.

(** ** Printing with a fixed number of decimals, and parsing back *)

Definition digit_char (d : Z) : ascii := Ascii.ascii_of_nat (48 + Z.to_nat d).

(** [i] as exactly [f] digits. *)
Fixpoint pad_digits (f : nat) (i : Z) (tail : string) : string :=
  match f with
  | O => tail
  | S f' => pad_digits f' (i / 10) (String (digit_char (i mod 10)) tail)
  end.

Definition print_fixed (dp i : Z) : string :=
  z_str (i / 10 ^ dp) +:+ (if dp =? 0 then "" else "." +:+ pad_digits (Z.to_nat dp) (i mod 10 ^ dp) "").

Definition parse_dec (s : string) : exn dvalue :=
  let '(neg, s1) := take_sign s in
  match take_decimal s1 with
  | Some (m, p, EmptyString) => Ret (DFin (dec_value (if neg : bool then - m else m) p))
  | _ => Throw (MkError "Error" ("[DecimalError] Invalid argument: " +:+ s))
  end.

Lemma digit_val_char d : 0 <= d <= 9 -> digit_val (digit_char d) = Some d.
Proof.
  intros H. assert (Hd : d = 0 \/ d = 1 \/ d = 2 \/ d = 3 \/ d = 4 \/ d = 5 \/ d = 6 \/ d = 7 \/ d = 8 \/ d = 9) by lia.
  destruct_or!; subst; reflexivity.
Qed.

Lemma pretty_char_digit n : (n < 10)%N -> digit_val (pretty_N_char n) = Some (Z.of_N n).
Proof.
  intros H. do 10 (destruct n as [|n] using N.peano_ind; [reflexivity|clear IHn]). lia.
Qed.

Lemma take_digits_pretty_go x :
  exists len, 0 <= len /\ forall acc cnt s,
    take_digits acc cnt (pretty_N_go x s) = take_digits (acc * 10 ^ len + Z.of_N x) (cnt + len) s.
Proof.
  induction (N.lt_wf_0 x) as [x _ IH].
  destruct (decide (x = 0)%N) as [->|Hx].
  - exists 0. split; [done|]. intros. rewrite pretty_N_go_0. f_equal; lia.
  - destruct (IH (x / 10)%N) as (len & Hlen & Hd); [apply N.div_lt; lia|].
    exists (len + 1). split; [lia|]. intros acc cnt s.
    rewrite pretty_N_go_step by lia. rewrite Hd. cbn [take_digits].
    rewrite pretty_char_digit by (apply N.mod_lt; lia).
    rewrite Z.pow_add_r, Z.pow_1_r by lia. f_equal; [|lia].
    pose proof (N.div_mod' x 10). lia.
Qed.

Lemma pretty_N_go_app x s t : pretty_N_go x s +:+ t = pretty_N_go x (s +:+ t).
Proof.
  revert s. induction (N.lt_wf_0 x) as [x _ IH]; intros s.
  destruct (decide (x = 0)%N) as [->|Hx]; [by rewrite !pretty_N_go_0|].
  rewrite !(pretty_N_go_step x) by lia. by rewrite IH by (apply N.div_lt; lia).
Qed.

Lemma take_digits_z_str i :
  0 <= i -> exists len, 0 < len /\ forall acc cnt s,
    take_digits acc cnt (z_str i +:+ s) = take_digits (acc * 10 ^ len + i) (cnt + len) s.
Proof.
  intros Hi. destruct i as [|p|p]; [| |lia].
  - exists 1. split; [lia|]. intros. cbn. f_equal; lia.
  - destruct (take_digits_pretty_go (Npos p / 10)) as (len & Hlen & Hd).
    exists (len + 1). split; [lia|]. intros acc cnt s.
    change (z_str (Zpos p)) with (pretty_N_go (Npos p) "").
    rewrite pretty_N_go_app, pretty_N_go_step by lia. rewrite Hd. cbn [take_digits String.app].
    rewrite pretty_char_digit by (apply N.mod_lt; lia).
    rewrite Z.pow_add_r, Z.pow_1_r by lia. f_equal; [|lia].
    pose proof (N.div_mod' (Npos p) 10). lia.
Qed.

Lemma take_digits_pad f : forall i tail, 0 <= i < 10 ^ Z.of_nat f ->
  forall acc cnt, take_digits acc cnt (pad_digits f i tail) =
    take_digits (acc * 10 ^ Z.of_nat f + i) (cnt + Z.of_nat f) tail.
Proof.
  induction f as [|f IH]; intros i tail Hi acc cnt; cbn [pad_digits].
  - f_equal; lia.
  - rewrite Nat2Z.inj_succ, Z.pow_succ_r in * by lia.
    rewrite IH by (split; [apply Z.div_pos; lia|apply Z.div_lt_upper_bound; lia]).
    cbn [take_digits]. rewrite digit_val_char by (pose proof (Z.mod_pos_bound i 10); lia).
    f_equal; [|lia]. pose proof (Z.div_mod i 10). lia.
Qed.

Lemma take_digits_count s : forall acc cnt, cnt <= (take_digits acc cnt s).1.2.
Proof.
  induction s as [|c s IH]; intros acc cnt; cbn; [lia|].
  destruct (digit_val c); cbn; [|lia]. etrans; [|apply IH]. lia.
Qed.

(** A printed non-negative number does not start with a sign. *)
Lemma z_str_no_sign i s : 0 <= i -> take_sign (z_str i +:+ s) = (false, z_str i +:+ s).
Proof.
  intros Hi. destruct (take_digits_z_str i Hi) as (len & Hlen & Hd).
  specialize (Hd 0 0 s). pose proof (take_digits_count s (0 * 10 ^ len + i) (0 + len)) as Hc.
  rewrite <- Hd in Hc. destruct (z_str i +:+ s) as [|c t]; [done|].
  unfold take_sign. destruct c as [[] [] [] [] [] [] [] []]; try done; assert (len <= 0) by exact Hc; lia.
Qed.

Lemma take_decimal_fixed dp i :
  0 <= dp -> 0 <= i -> take_decimal (print_fixed dp i) = Some (i, - dp, "").
Proof.
  intros Hdp Hi. unfold print_fixed, take_decimal.
  destruct (take_digits_z_str (i / 10 ^ dp)) as (len & Hlen & Hd);
    [apply Z.div_pos; lia|].
  rewrite Hd. assert (Hl : (0 + len =? 0) = false) by (apply Z.eqb_neq; lia).
  destruct (Z.eqb_spec dp 0) as [->|Hne].
  - cbn [take_digits]. rewrite Hl. cbn [andb take_exponent].
    rewrite Z.pow_0_r, Z.div_1_r. repeat f_equal; lia.
  - change ("." +:+ ?x) with (String "."%char x). cbn [take_digits digit_val].
    replace (digit_val "."%char) with (@None Z) by reflexivity.
    rewrite take_digits_pad by (rewrite Z2Nat.id by lia; apply Z.mod_pos_bound; lia).
    rewrite Z2Nat.id by lia. cbn [take_digits].
    rewrite Hl. cbn [andb take_exponent]. pose proof (Z.div_mod i (10 ^ dp)).
    repeat f_equal; lia.
Qed.

Lemma parse_print_fixed dp i (neg : bool) :
  0 <= dp -> 0 <= i ->
  parse_dec ((if neg then "-" else "") +:+ print_fixed dp i) =
    Ret (DFin (dec_value (if neg then - i else i) (- dp))).
Proof.
  intros Hdp Hi. unfold parse_dec. destruct neg.
  - change ("-" +:+ ?x) with (String "-"%char x). cbn [take_sign].
    by rewrite take_decimal_fixed.
  - change ("" +:+ ?x) with x. unfold print_fixed at 1.
    rewrite z_str_no_sign by (apply Z.div_pos; lia).
    change (z_str (i / 10 ^ dp) +:+ _) with (print_fixed dp i).
    by rewrite take_decimal_fixed.
Qed.

(** ** Integers as numbers are exact below 2^53 *)

Lemma digits2_iter_xO k m :
  Zpos (digits2_pos (Pos.iter xO m k)) = Zpos (digits2_pos m) + Zpos k.
Proof.
  induction k as [|k IH] using Pos.peano_ind; [cbn; lia|].
  rewrite Pos.iter_succ. cbn [digits2_pos]. lia.
Qed.

Lemma digits2_bound m : 2 ^ (Zpos (digits2_pos m) - 1) <= Zpos m.
Proof.
  induction m as [m IH|m IH|]; cbn [digits2_pos]; [| |done].
  - rewrite Pos2Z.inj_succ. replace (Z.succ _ - 1) with (Z.succ (Zpos (digits2_pos m) - 1)) by lia.
    rewrite Z.pow_succ_r by lia. lia.
  - rewrite Pos2Z.inj_succ. replace (Z.succ _ - 1) with (Z.succ (Zpos (digits2_pos m) - 1)) by lia.
    rewrite Z.pow_succ_r by lia. lia.
Qed.

Lemma iter_xO_val k m : Zpos (Pos.iter xO m k) = Zpos m * 2 ^ Zpos k.
Proof.
  induction k as [|k IH] using Pos.peano_ind; [cbn; lia|].
  rewrite Pos.iter_succ, Pos2Z.inj_xO, IH, Pos2Z.inj_succ, Z.pow_succ_r by lia. lia.
Qed.

Lemma binary_round_exact s m :
  Zpos m < 2 ^ 53 ->
  exists m' e', binary_round 53 1024 s m 0 = S754_finite s m' e' /\ e' <= 0 /\
    Zpos m' = Zpos m * 2 ^ (- e').
Proof.
  intros Hm. set (d := Zpos (digits2_pos m)).
  assert (Hd : 1 <= d <= 53).
  { pose proof (digits2_bound m) as Hb. fold d in Hb. split; [lia|].
    assert (d - 1 < 53); [|lia]. eapply Z.pow_lt_mono_r_iff with (a := 2); lia. }
  assert (Hf : forall x, -1000 <= x -> fexp 53 1024 x = x - 53) by (intros; unfold fexp, emin; lia).
  unfold binary_round. rewrite Hf by (fold d; lia). fold d. replace (d + 0 - 53) with (d - 53) by lia.
  assert (Haux : forall m2, Zpos (digits2_pos m2) = 53 ->
    binary_round_aux 53 1024 s (Zpos m2) (d - 53) loc_Exact = S754_finite s m2 (d - 53)).
  { intros m2 Hm2. unfold binary_round_aux, shr_fexp. cbn [Zdigits2]. rewrite Hm2, Hf by lia.
    replace (53 + (d - 53) - 53 - (d - 53)) with 0 by lia. cbn [shr shr_record_of_loc shr_m loc_of_shr_record round_nearest_even Zdigits2].
    rewrite Hm2, Hf by lia.
    replace (53 + (d - 53) - 53 - (d - 53)) with 0 by lia. cbn [shr shr_record_of_loc shr_m].
    destruct (Z.leb_spec (d - 53) (1024 - 53)); [done|lia]. }
  unfold shl_align. replace (d - 53 - 0) with (d - 53) by lia.
  destruct (d - 53) as [|q|q] eqn:E; [|lia|].
  - exists m, 0. rewrite Haux by lia. split_and!; try done. lia.
  - eexists _, (Zneg q). rewrite Haux by (rewrite digits2_iter_xO; lia).
    split_and!; [done|lia|]. by rewrite iter_xO_val.
Qed.

Lemma num_q_of_Z z : Z.abs z < 2 ^ 53 -> (num_q (num_of_Z z) == inject_Z z)%Q.
Proof.
  intros Hz. unfold num_of_Z, binary_normalize. destruct z as [|p|p]; [reflexivity| |].
  all: destruct (binary_round_exact false p) as (m' & e' & _ & He & Hv); [lia|].
  1: destruct (binary_round_exact false p) as (m2 & e2 & -> & He2 & Hv2); [lia|].
  2: destruct (binary_round_exact true p) as (m2 & e2 & -> & He2 & Hv2); [lia|].
  all: unfold num_q; destruct (Z.leb_spec 0 e2) as [H0|H0].
  1,3: assert (e2 = 0) as -> by lia; cbn [cond_Zopp]; unfold Qeq; cbn; lia.
  all: assert (0 < 2 ^ (- e2)) by lia; unfold Qeq; cbn [Qnum Qden inject_Z cond_Zopp];
    rewrite ?Z2Pos.id by lia; lia.
Qed.

(** ** The instance *)

Definition dv_lift2 (f : Q -> Q -> dvalue) (a b : dvalue) : dvalue :=
  match a, b with DFin x, DFin y => f x y | _, _ => DNaN end.

(** As [dv_lift2], an infinity scaled by a positive value being itself. *)
Definition dv_scale (f : Q -> Q -> dvalue) (a b : dvalue) : dvalue :=
  match a, b with
  | DFin x, DFin y => f x y
  | DPInf, DFin y | DNInf, DFin y => if Qltb 0 y then a else DNaN
  | _, _ => DNaN
  end.

Definition dv_of_num (n : num) : dvalue :=
  match n with
  | S754_nan => DNaN
  | S754_infinity s => if s then DNInf else DPInf
  | _ => DFin (num_q n)
  end.

Definition dv_toFixedN (dp : Z) (a : dvalue) : string :=
  match a with
  | DNaN => "NaN" | DNInf => "-Infinity" | DPInf => "Infinity"
  | DFin q => (if Qltb q 0 then "-" else "") +:+
              print_fixed dp (Qfloor (Qabs q * inject_Z (10 ^ dp) + (1 # 2)))
  end.

(** Decimals printed without a number of places: the fewest that are enough, at most 20. *)
Fixpoint fewest_places (fuel : nat) (k : Z) (q : Q) : Z :=
  match fuel with
  | O => k
  | Datatypes.S fuel' =>
      if Qeq_bool (q * inject_Z (10 ^ k)) (inject_Z (Qfloor (q * inject_Z (10 ^ k)))) then k
      else fewest_places fuel' (k + 1) q
  end.
Definition dv_print (a : dvalue) : string :=
  match a with
  | DFin q => dv_toFixedN (fewest_places 20 0 q) a
  | _ => dv_toFixedN 0 a
  end.

Definition dv_toNumber (a : dvalue) : num :=
  match a with
  | DNaN => S754_nan | DNInf => S754_infinity true | DPInf => S754_infinity false
  | DFin q =>
      match Qnum q with
      | Z0 => S754_zero false
      | Zpos p => SFdiv 53 1024 (S754_finite false p 0) (S754_finite false (Qden q) 0)
      | Zneg p => SFdiv 53 1024 (S754_finite true p 0) (S754_finite false (Qden q) 0)
      end
  end.

Definition dv_pick (better : dvalue -> dvalue -> bool) (l : list dvalue) : dvalue :=
  match l with
  | [] => DNaN
  | a :: l' => foldl (fun m b => if better b m then b else m) a l'
  end.

Definition dv_map (f : Q -> Q) (a : dvalue) : dvalue := match a with DFin x => DFin (f x) | _ => a end.

(** Powers with whole exponents only: no proof uses them. *)
Definition dv_pow (a : dvalue) (n : num) : dvalue :=
  match a with
  | DFin q => if Qeq_bool (num_q n) (inject_Z (Qfloor (num_q n))) then DFin (Qred (Qpower q (Qfloor (num_q n)))) else DNaN
  | _ => DNaN
  end.

#[export] Instance exact_decimal : DecimalLib := {|
  dec := dvalue;
  dec_of_string := parse_dec;
  dec_of_num := dv_of_num;
  d_plus := dv_lift2 (fun x y => DFin (Qred (x + y)));
  d_minus := dv_lift2 (fun x y => DFin (Qred (x - y)));
  d_times := dv_scale (fun x y => DFin (Qred (x * y)));
  d_div := dv_scale (fun x y => if Qeq_bool y 0 then DNaN else DFin (Qred (x / y)));
  d_abs := dv_abs;
  d_neg := dv_neg;
  d_gt a b := dv_lt b a;
  d_lt := dv_lt;
  d_gte a b := dv_le b a;
  d_lte := dv_le;
  d_eq := dv_eqb;
  d_isZero a := dv_eqb a (DFin 0);
  d_cmp := dv_cmp;
  d_max := dv_pick (fun b m => dv_lt m b);
  d_min := dv_pick (fun b m => dv_lt b m);
  d_toFixed := dv_print;
  d_toFixedN := dv_toFixedN;
  d_toString := dv_print;
  d_toNumber := dv_toNumber;
  d_pow := dv_pow;
  d_toDP dp := dv_map (round_half_up dp);
  d_toDP_down dp := dv_map (round_down dp);
|}.

(** The running maximum (minimum) is a member and bounds the list. *)
Lemma foldl_pick (better : dvalue -> dvalue -> bool) (le : dvalue -> dvalue -> Prop) l :
  (forall a, dv_isNaN a = false -> le a a) ->
  (forall a b c, le a b -> le b c -> le a c) ->
  (forall b m, dv_isNaN b = false -> dv_isNaN m = false ->
     if better b m then le m b else le b m) ->
  forall m, dv_isNaN m = false -> Forall (fun a => dv_isNaN a = false) l ->
  let r := foldl (fun m b => if better b m then b else m) m l in
  r ∈ m :: l /\ le m r /\ Forall (fun b => le b r) l.
Proof.
  intros Hrefl Htrans Hb. induction l as [|b l IH]; intros m Hm Hl; cbn.
  - split_and!; [apply elem_of_cons; by left|auto|done].
  - inversion Hl as [|? ? Hb' Hl']; subst. pose proof (Hb b m Hb' Hm) as Hcase.
    destruct (better b m).
    + destruct (IH b Hb' Hl') as (Hin & Hle & Hall). cbn in *.
      split_and!; [by apply elem_of_cons; right|eauto|by constructor].
    + destruct (IH m Hm Hl') as (Hin & Hle & Hall). cbn in *.
      split_and!; [apply elem_of_cons in Hin; rewrite !elem_of_cons; intuition|done|].
      constructor; eauto.
Qed.

Lemma dv_pick_max l : l <> [] -> Forall (fun a => dv_isNaN a = false) l ->
  exists a, a ∈ l /\ dv_equiv (dv_pick (fun b m => dv_lt m b) l) a /\
    Forall (fun b => dv_le b (dv_pick (fun b m => dv_lt m b) l) = true) l.
Proof.
  destruct l as [|m l]; [done|]. intros _ Hl. inversion Hl; subst.
  destruct (foldl_pick (fun b m => dv_lt m b) (fun a b => dv_le a b = true) l) with (m := m)
    as (Hin & Hm & Hall); eauto with dec.
  { intros b m' ? ?. cbn. destruct (dv_lt m' b) eqn:E; [by apply dv_lt_le|by apply dv_not_lt_le]. }
  eexists. split_and!; [exact Hin|reflexivity|by constructor].
Qed.

Lemma dv_pick_min l : l <> [] -> Forall (fun a => dv_isNaN a = false) l ->
  exists a, a ∈ l /\ dv_equiv (dv_pick (fun b m => dv_lt b m) l) a /\
    Forall (fun b => dv_le (dv_pick (fun b m => dv_lt b m) l) b = true) l.
Proof.
  destruct l as [|m l]; [done|]. intros _ Hl. inversion Hl; subst.
  destruct (foldl_pick (fun b m => dv_lt b m) (fun a b => dv_le b a = true) l) with (m := m)
    as (Hin & Hm & Hall); eauto with dec.
  { intros b m' ? ?. cbn. destruct (dv_lt b m') eqn:E; [by apply dv_lt_le|by apply dv_not_lt_le]. }
  eexists. split_and!; [exact Hin|reflexivity|by constructor].
Qed.

Lemma dv_of_int z : Z.abs z < 2 ^ 53 -> dv_equiv (dv_of_num (num_of_Z z)) (DFin (inject_Z z)).
Proof.
  intros Hz. pose proof (num_q_of_Z z Hz) as Hq. unfold num_of_Z, binary_normalize in *.
  destruct z as [|p|p]; [done| |].
  - destruct (binary_round_exact false p) as (m & e & Hr & _); [lia|]. by rewrite Hr in *.
  - destruct (binary_round_exact true p) as (m & e & Hr & _); [lia|]. by rewrite Hr in *.
Qed.

Lemma dv_toFixedN_parse dp a x : 0 <= dp -> a = DFin x ->
  exists b, parse_dec (dv_toFixedN dp a) = Ret b /\ dv_equiv b (DFin (round_half_up dp x)).
Proof.
  intros Hdp ->. unfold dv_toFixedN. rewrite parse_print_fixed; [|done|].
  - eexists. split; [done|]. cbn. unfold round_half_up, dec_value.
    assert (0 < 10 ^ dp) by (apply Z.pow_pos_nonneg; lia).
    destruct (Z.leb_spec 0 (- dp)).
    + assert (dp = 0) as -> by lia. cbn. unfold Qeq. cbn. lia.
    + rewrite Z.opp_involutive. reflexivity.
  - change 0 with (Qfloor 0). apply Qfloor_resp_le. assert (0 < 10 ^ dp) by (apply Z.pow_pos_nonneg; lia).
    pose proof (Qabs_nonneg x) as Hx.
    assert (0 <= Qabs x * inject_Z (10 ^ dp))%Q; [|lra].
    apply Qmult_le_0_compat; [done|]. change 0%Q with (inject_Z 0). rewrite <- Zle_Qle. lia.
Qed.

(** Rounding to places that are enough changes nothing. *)
Lemma round_half_up_enough k q n : 0 <= k -> (q * inject_Z (10 ^ k) == inject_Z n)%Q ->
  (round_half_up k q == q)%Q.
Proof.
  intros Hk Hq. assert (0 < 10 ^ k) as Hp by (apply Z.pow_pos_nonneg; lia). unfold round_half_up.
  assert (Habs : (Qabs q * inject_Z (10 ^ k) == inject_Z (Z.abs n))%Q).
  { rewrite <- (Qabs_pos (inject_Z (10 ^ k))), <- Qabs_Qmult, Hq by (change 0%Q with (inject_Z 0); rewrite <- Zle_Qle; lia).
    destruct n; reflexivity. }
  assert (Hf : Qfloor (Qabs q * inject_Z (10 ^ k) + (1 # 2)) = Z.abs n).
  { rewrite Habs. apply Z.le_antisymm.
    - apply Z.lt_succ_r. rewrite Zlt_Qlt. eapply Qle_lt_trans; [apply Qfloor_le|].
      rewrite <- Z.add_1_r, inject_Z_plus. change (inject_Z 1) with (1 # 1). lra.
    - rewrite <- (Qfloor_Z (Z.abs n)) at 1. apply Qfloor_resp_le. lra. }
  rewrite Hf. rewrite Qmake_Qdiv, Z2Pos.id by done.
  assert (~ (inject_Z (10 ^ k) == 0)%Q) by (change 0%Q with (inject_Z 0); rewrite inject_Z_injective; lia).
  apply (Qmult_inj_r _ _ (inject_Z (10 ^ k))); [done|]. rewrite Hq.
  unfold Qdiv. rewrite <- Qmult_assoc, (Qmult_comm (/ _)), Qmult_inv_r, Qmult_1_r by done.
  rewrite inject_Z_injective. destruct (Qltb q 0) eqn:E.
  - apply Qltb_spec in E. assert (n < 0); [|lia]. rewrite Zlt_Qlt, <- Hq.
    change (inject_Z 0) with 0%Q. assert (0 < inject_Z (10 ^ k))%Q by (change 0%Q with (inject_Z 0); by rewrite <- Zlt_Qlt). nra.
  - apply Qltb_false in E. assert (0 <= n); [|lia]. rewrite Zle_Qle, <- Hq.
    change (inject_Z 0) with 0%Q. assert (0 < inject_Z (10 ^ k))%Q by (change 0%Q with (inject_Z 0); by rewrite <- Zlt_Qlt). nra.
Qed.

Lemma fewest_places_enough q p m fuel : forall k,
  0 <= k -> k <= p <= k + Z.of_nat fuel -> (q * inject_Z (10 ^ p) == inject_Z m)%Q ->
  0 <= fewest_places fuel k q /\ exists n, (q * inject_Z (10 ^ fewest_places fuel k q) == inject_Z n)%Q.
Proof.
  induction fuel as [|fuel IH]; intros k Hk Hp Hm; cbn [fewest_places].
  - assert (p = k) as -> by lia. eauto.
  - destruct (Qeq_bool _ _) eqn:E; [apply Qeq_bool_iff in E; eauto|].
    destruct (decide (p = k)) as [->|]; [|apply IH; [lia|lia|done]].
    exfalso. apply Qeq_bool_neq in E. apply E. rewrite Hm. by rewrite Qfloor_Z.
Qed.

Lemma dv_print_parse a m p : 0 <= p <= 20 -> dv_equiv a (DFin (Qmake m (Z.to_pos (10 ^ p)))) ->
  exists b, parse_dec (dv_print a) = Ret b /\ dv_equiv b a.
Proof.
  intros Hp Ha. destruct a as [|q| |]; try done. cbn in Ha.
  assert (0 < 10 ^ p) as H10 by (apply Z.pow_pos_nonneg; lia).
  destruct (fewest_places_enough q p m 20 0) as (Hk & n & Hn); [lia|lia| |].
  { rewrite Ha, Qmake_Qdiv, Z2Pos.id by done. field. change 0%Q with (inject_Z 0). rewrite inject_Z_injective. lia. }
  destruct (dv_toFixedN_parse (fewest_places 20 0 q) (DFin q) q Hk eq_refl) as (b & Hb & Eb).
  exists b. split; [exact Hb|]. rewrite Eb. cbn. by eapply round_half_up_enough.
Qed.

Lemma parse_dec_literal s q : decimal_literal s = Some q ->
  exists d, parse_dec s = Ret d /\ dv_equiv d (DFin q).
Proof.
  unfold decimal_literal, parse_dec. destruct (take_sign s) as [neg s1].
  destruct (take_decimal s1) as [[[m p] rest]|]; [|done].
  destruct rest; [|done]. case_match; intros; simplify_eq. by eexists.
Qed.

#[export] Instance exact_decimal_laws : DecimalLaws (DL := exact_decimal).
Proof.
  refine {| dval := fun a : @dec exact_decimal => a; d_rnd := DFin |}; cbn [dec exact_decimal].
  - done.
  - intros x y Hxy. dv_solve.
  - done.
  - done.
  - done.
  - done.
  - done.
  - done.
  - done.
  - done.
  - apply dv_of_int.
  - done.
  - done.
  - intros a b x y -> ->. cbn. apply Qred_correct.
  - intros a b x y -> ->. cbn. apply Qred_correct.
  - intros a b x y -> ->. cbn. apply Qred_correct.
  - intros a b x y -> -> Hnz. cbn. destruct (Qeq_bool y 0) eqn:E.
    + by apply Qeq_bool_iff in E.
    + cbn. apply Qred_correct.
  - intros a b y -> Hy%Qltb_spec [-> | ->]; cbn; by rewrite Hy.
  - intros a b y -> Hy%Qltb_spec [-> | ->]; cbn; by rewrite Hy.
  - apply dv_pick_max.
  - apply dv_pick_min.
  - apply parse_dec_literal.
  - apply dv_toFixedN_parse.
  - apply dv_print_parse.
  - by intros dp a x _ ->.
  - by intros dp a x _ ->.
Defined.
