(* ===== verification/Money.v ===== *)
(** * Exact arithmetic on amounts of money

    Amounts arrive as decimal strings in dollars and cents.  Below the twenty
    significant digits of decimal.js sums, differences, percentages and
    comparisons of such amounts are exact: [units d m] says that the decimal
    [d] is [m] ten-thousandths of a dollar, and the lemmas turn the decimal
    operations into integer ones.  [money] decides that a string is a
    non-negative amount in cents below the bound. *)
From Stdlib Require Import Qabs Qround.
From S2P Require Import Prelude JsNumber DecimalLib DecimalExact.
Open Scope Z_scope.

(** The cents of a decimal string. *)
Definition cents_of (s : string) : Z :=
  match decimal_literal s with Some q => Qfloor (q * 100) | None => 0 end.

(** A non-negative amount in whole cents below ten trillion dollars. *)
Definition money_bound : Z := 10 ^ 15.
Definition money (s : string) : bool :=
  match decimal_literal s with
  | Some q => Qeq_bool q (cents_of s # 100) && (0 <=? cents_of s) && (cents_of s <? money_bound)
  | None => false
  end.

(** The sum of a list of integers. *)
Definition zsum (l : list Z) : Z := foldr Z.add 0 l.

Lemma zsum_cons x l : zsum (x :: l) = x + zsum l.
Proof. done. Qed.

Lemma zsum_app l1 l2 : zsum (l1 ++ l2) = zsum l1 + zsum l2.
Proof. induction l1 as [|x l1 IH]; [done|]. rewrite <- app_comm_cons, !zsum_cons. lia. Qed.

#[export] Instance zsum_perm : Proper ((≡ₚ) ==> (=)) zsum.
Proof. intros l1 l2 H. induction H; cbn in *; unfold zsum in *; lia. Qed.

Lemma zsum_nonneg l : Forall (fun x => 0 <= x) l -> 0 <= zsum l.
Proof. induction 1; cbn; unfold zsum in *; lia. Qed.

(** A decimal string with at most [k] places, in units of [10^-k]. *)
Definition units_in (k : Z) (s : string) : option Z :=
  match decimal_literal s with
  | Some q => let m := Qfloor (q * inject_Z (10 ^ k)) in
              if Qeq_bool q (Qmake m (Z.to_pos (10 ^ k))) then Some m else None
  | None => None
  end.

Section Units.
Context `{DL : DecimalLib} `{LW : !DecimalLaws}.

(** [d] is exactly [m] units of [10^-k]; sums and differences below the
    precision are exact, and so are comparisons. *)
Definition scaled (k : Z) (d : dec) (m : Z) : Prop := is_fin d (Qmake m (Z.to_pos (10 ^ k))).

Lemma scaled_plus k a b x y : 0 <= k <= 1000 -> scaled k a x -> scaled k b y -> Z.abs (x + y) < 10 ^ 20 ->
  scaled k (d_plus a b) (x + y).
Proof.
  intros Hk Ha Hb Hm. unfold scaled, is_fin. rewrite (d_plus_fin _ _ _ _ Ha Hb).
  etrans; [apply d_rnd_proper|by apply d_rnd_exact]. unfold Qeq, Qplus; cbn. rewrite Pos2Z.inj_mul. ring.
Qed.

Lemma scaled_minus k a b x y : 0 <= k <= 1000 -> scaled k a x -> scaled k b y -> Z.abs (x - y) < 10 ^ 20 ->
  scaled k (d_minus a b) (x - y).
Proof.
  intros Hk Ha Hb Hm. unfold scaled, is_fin. rewrite (d_minus_fin _ _ _ _ Ha Hb).
  etrans; [apply d_rnd_proper|by apply d_rnd_exact]. unfold Qeq, Qminus, Qplus, Qopp; cbn. rewrite Pos2Z.inj_mul. ring.
Qed.

Lemma scaled_neg k a x : scaled k a x -> scaled k (d_neg a) (- x).
Proof.
  intros (x' & Hx & E)%is_fin_dval. unfold scaled, is_fin. rewrite d_neg_val, Hx. cbn. rewrite E. done.
Qed.

Lemma scaled_zero k : scaled k (dec_of_Z 0) 0.
Proof. unfold scaled, is_fin. etrans; [apply d_zero_fin|]. done. Qed.

Lemma scaled_isZero k a x : scaled k a x -> d_isZero a = (x =? 0).
Proof.
  intros Ha. rewrite (d_isZero_fin _ _ Ha). apply eq_true_iff_eq. rewrite Qeq_bool_iff, Z.eqb_eq.
  unfold Qeq; cbn. lia.
Qed.

Lemma scaled_lte k a b x y : scaled k a x -> scaled k b y -> d_lte a b = (x <=? y).
Proof.
  intros Ha Hb. rewrite (d_lte_fin _ _ _ _ Ha Hb). apply eq_true_iff_eq. rewrite Qle_bool_iff, Z.leb_le.
  unfold Qle; cbn. split; intros H; [by apply Z.mul_le_mono_pos_r in H|by apply Z.mul_le_mono_pos_r].
Qed.

Lemma scaled_gte k a b x y : scaled k a x -> scaled k b y -> d_gte a b = (y <=? x).
Proof.
  intros Ha Hb. rewrite (d_gte_fin _ _ _ _ Ha Hb). apply eq_true_iff_eq. rewrite Qle_bool_iff, Z.leb_le.
  unfold Qle; cbn. split; intros H; [by apply Z.mul_le_mono_pos_r in H|by apply Z.mul_le_mono_pos_r].
Qed.

Lemma pow10_pos k : 0 <= k -> Zpos (Z.to_pos (10 ^ k)) = 10 ^ k.
Proof. intros Hk. apply Z2Pos.id. apply Z.pow_pos_nonneg; lia. Qed.

Lemma scaled_proper k d x q : is_fin d q -> (q == Qmake x (Z.to_pos (10 ^ k)))%Q -> scaled k d x.
Proof. unfold scaled, is_fin. intros -> E. exact E. Qed.

(** [s] is a decimal string worth [m] units of [10^-k]. *)
Definition amount (k : Z) (s : string) (m : Z) : Prop := exists d, dec_of_string s = Ret d /\ scaled k d m.

Lemma units_in_parses k s m : units_in k s = Some m -> amount k s m.
Proof.
  unfold units_in. destruct (decimal_literal s) as [q|] eqn:E; [|done]. case_match eqn:Eq; [|done]. intros [= <-].
  destruct (literal_parses _ _ E) as (d & Hd & Fd). exists d. split; [done|].
  eapply scaled_proper; [exact Fd|]. by apply Qeq_bool_iff.
Qed.

(** Printed in full, an amount of at most twenty places is read back. *)
Lemma amount_print k d m : 0 <= k <= 20 -> scaled k d m -> amount k (d_toFixed d) m.
Proof.
  intros Hk Hd. destruct (d_toFixed_parse d m k Hk Hd) as (b & Hb & Eb). exists b. split; [done|].
  unfold scaled, is_fin. rewrite Eb. exact Hd.
Qed.

Lemma amount_zero k : amount k "0" 0.
Proof.
  destruct (literal_parses "0" 0 eq_refl) as (d & Hd & Fd). exists d. split; [done|]. by eapply scaled_proper.
Qed.

(** What lies between two finite values is finite. *)
Lemma between_fin d x y : dv_le (DFin x) (dval d) = true -> dv_le (dval d) (DFin y) = true ->
  exists q, is_fin d q /\ (x <= q)%Q /\ (q <= y)%Q.
Proof.
  unfold is_fin. intros L U. destruct (dval d) as [| |q|]; try done. exists q. split; [done|]. dv_simpl. done.
Qed.

(** The same amount in smaller units. *)
Lemma scaled_finer k j d x : 0 <= k -> 0 <= j -> scaled k d x -> scaled (k + j) d (x * 10 ^ j).
Proof.
  intros Hk Hj H. eapply scaled_proper; [exact H|]. unfold Qeq. cbn [Qnum Qden].
  rewrite !pow10_pos, Z.pow_add_r by lia. ring.
Qed.

Lemma scaled_times j k a b x y : 0 <= j -> 0 <= k -> j + k <= 1000 -> scaled j a x -> scaled k b y ->
  Z.abs (x * y) < 10 ^ 20 -> scaled (j + k) (d_times a b) (x * y).
Proof.
  intros Hj Hk Hjk Ha Hb Hm. unfold scaled, is_fin. rewrite (d_times_fin _ _ _ _ Ha Hb).
  etrans; [apply d_rnd_proper|apply d_rnd_exact; [done|lia]].
  unfold Qeq, Qmult. cbn [Qnum Qden]. rewrite Pos2Z.inj_mul, !pow10_pos, Z.pow_add_r by lia. ring.
Qed.

Lemma scaled_min2 k a b x y : 0 <= k -> scaled k a x -> scaled k b y -> scaled k (d_min [a; b]) (Z.min x y).
Proof.
  intros Hk Ha Hb. destruct (d_min_in [a; b]) as (c & Hc & Ec & Hall); [done| |].
  { repeat constructor; by eapply is_fin_not_nan. }
  rewrite !Forall_cons in Hall. destruct Hall as (H1 & H2 & _). unfold scaled, is_fin in *.
  rewrite !elem_of_cons, elem_of_nil in Hc. destruct Hc as [-> |[-> |[]]]; rewrite Ec, ?Ha, ?Hb in *.
  - assert (x <= y) by (dv_simpl; unfold Qle in *; cbn in *; pose proof (pow10_pos k Hk); nia).
    by rewrite Z.min_l by done.
  - assert (y <= x) by (dv_simpl; unfold Qle in *; cbn in *; pose proof (pow10_pos k Hk); nia).
    by rewrite Z.min_r by done.
Qed.

Lemma scaled_max2 k a b x y : 0 <= k -> scaled k a x -> scaled k b y -> scaled k (d_max [a; b]) (Z.max x y).
Proof.
  intros Hk Ha Hb. destruct (d_max2_fin _ _ _ _ Ha Hb) as (z & Fz & L1 & L2 & Hc). eapply scaled_proper; [exact Fz|].
  pose proof (pow10_pos k Hk) as Hp. unfold Qle, Qeq in *. cbn in *. rewrite Hp in *.
  assert (0 < 10 ^ k) by (apply Z.pow_pos_nonneg; lia).
  destruct Hc as [E|E]; rewrite E; destruct (Z.max_spec x y) as [[? ->]|[? ->]]; nia.
Qed.

(** A percentage. *)
Lemma scaled_div100 k a x : 0 <= k -> k + 2 <= 1000 -> scaled k a x -> Z.abs x < 10 ^ 20 ->
  scaled (k + 2) (d_div a (dec_of_Z 100)) x.
Proof.
  intros Hk Hk' Ha Hx. unfold scaled, is_fin.
  rewrite (d_div_fin _ _ _ _ Ha (d_of_int 100 ltac:(lia))) by by intros ?.
  etrans; [apply d_rnd_proper|apply d_rnd_exact; [done|lia]].
  unfold Qeq, Qdiv, Qmult, Qinv, inject_Z. cbn [Qnum Qden]. rewrite Pos2Z.inj_mul, !pow10_pos, Z.pow_add_r by lia. ring.
Qed.

Lemma scaled_lt k a b x y : 0 <= k -> scaled k a x -> scaled k b y -> d_lt a b = (x <? y).
Proof.
  intros Hk Ha Hb. rewrite (d_lt_fin _ _ _ _ Ha Hb). apply eq_true_iff_eq. rewrite Qltb_spec, Z.ltb_lt.
  unfold Qlt. cbn [Qnum Qden]. rewrite pow10_pos by lia. assert (0 < 10 ^ k) by (apply Z.pow_pos_nonneg; lia). nia.
Qed.

Lemma scaled_cmp_lt k a b x y : 0 <= k -> scaled k a x -> scaled k b y -> bool_decide (d_cmp a b = Some Lt) = (x <? y).
Proof. intros Hk Ha Hb. rewrite (d_cmp_lt_fin _ _ _ _ Ha Hb), <- (d_lt_fin _ _ _ _ Ha Hb). by apply (scaled_lt k). Qed.

Lemma scaled_inj k d x y : 0 <= k -> scaled k d x -> scaled k d y -> x = y.
Proof.
  unfold scaled, is_fin. intros Hk H1 H2. rewrite H1 in H2. cbn in H2. unfold Qeq in H2. cbn in H2.
  by apply Z.mul_cancel_r in H2.
Qed.

(** A smaller amount than a bound is a bounded number of units. *)
Lemma scaled_le k a b x y : 0 <= k -> scaled k a x -> scaled k b y -> dv_le (dval a) (dval b) = true <-> x <= y.
Proof. intros Hk Ha Hb. rewrite <- d_lte_val, (scaled_lte _ _ _ _ _ Ha Hb). apply Z.leb_le. Qed.

(** The smallest of a list of exact amounts. *)
Lemma scaled_min k l zs : 0 <= k -> l <> [] -> Forall2 (scaled k) l zs ->
  exists z, scaled k (d_min l) z /\ z ∈ zs /\ Forall (Z.le z) zs.
Proof.
  intros Hk Hne Hl.
  destruct (d_min_in l Hne) as (a & Ha & Ea & Hall).
  { clear Hne. induction Hl as [|d z l zs Hd _ IH]; constructor; [|done]. by eapply is_fin_not_nan. }
  apply list_elem_of_lookup in Ha as [i Hi]. destruct (Forall2_lookup_l _ _ _ _ _ Hl Hi) as (z & Hz & Hu).
  assert (Hm : scaled k (d_min l) z) by (unfold scaled, is_fin in *; by rewrite Ea).
  exists z. split_and!; [done|by eapply list_elem_of_lookup_2|].
  rewrite Forall_lookup. intros j y Hy. destruct (Forall2_lookup_r _ _ _ _ _ Hl Hy) as (b & Hb & Hub).
  pose proof (proj1 (Forall_lookup _ _) Hall j b Hb) as Hle. cbn beta in Hle.
  by apply (scaled_le k _ _ _ _ Hk Hm Hub) in Hle.
Qed.

(** Cutting off at [j] fewer places. *)
Lemma floor_scaled k x m : 0 <= k -> (x == Qmake m (Z.to_pos (10 ^ k)))%Q -> Qfloor x = m / 10 ^ k.
Proof.
  intros Hk E. rewrite (Qfloor_comp _ _ E). unfold Qfloor. by rewrite pow10_pos.
Qed.

Lemma scaled_down k j d x : 0 <= k -> 0 <= j -> 0 <= x -> scaled (k + j) d x -> scaled k (d_toDP_down k d) (x / 10 ^ j).
Proof.
  intros Hk Hj Hx (q & Hq & E)%is_fin_dval. unfold scaled, is_fin. rewrite (d_toDP_down_val _ _ _ Hk Hq). cbn.
  unfold round_down. assert (0 < 10 ^ (k + j)) by (apply Z.pow_pos_nonneg; lia).
  assert (H0 : (0 <= q)%Q) by (rewrite E; by unfold Qle; cbn; lia).
  rewrite (proj2 (Qltb_false _ _) H0). rewrite (floor_scaled j _ x); [done|done|].
  rewrite (Qabs_pos _ H0), E. unfold Qeq, Qmult, inject_Z. cbn [Qnum Qden].
  rewrite !Pos2Z.inj_mul, !pow10_pos, Z.pow_add_r by lia. ring.
Qed.

(** Printing with [k] places rounds [j] places half up. *)
Definition half_up (j x : Z) : Z := (2 * x + 10 ^ j) / (2 * 10 ^ j).

Lemma scaled_fixed k j d x : 0 <= k -> 0 <= j -> 0 <= x -> scaled (k + j) d x ->
  exists b, dec_of_string (d_toFixedN k d) = Ret b /\ scaled k b (half_up j x).
Proof.
  intros Hk Hj Hx (q & Hq & E)%is_fin_dval. destruct (d_toFixedN_parse k d q Hk Hq) as (b & Hb & Fb).
  exists b. split; [done|]. unfold scaled, is_fin. rewrite Fb. cbn. unfold round_half_up.
  assert (0 < 10 ^ (k + j)) by (apply Z.pow_pos_nonneg; lia).
  assert (H0 : (0 <= q)%Q) by (rewrite E; by unfold Qle; cbn; lia).
  rewrite (proj2 (Qltb_false _ _) H0).
  assert (Hj0 : 0 < 10 ^ j) by (apply Z.pow_pos_nonneg; lia).
  assert (Ef : (Qabs q * inject_Z (10 ^ k) + (1 # 2) == Qmake (2 * x + 10 ^ j) (Z.to_pos (2 * 10 ^ j)))%Q).
  { rewrite (Qabs_pos _ H0), E. unfold Qeq, Qmult, Qplus, inject_Z. cbn [Qnum Qden].
    rewrite !Pos2Z.inj_mul, !pow10_pos, Z2Pos.id, Z.pow_add_r by lia. ring. }
  rewrite (Qfloor_comp _ _ Ef). unfold Qfloor, half_up. by rewrite Z2Pos.id by lia.
Qed.

(** Printing what lies between two exact amounts. *)
Lemma between_fixed k j d q x y : 0 <= k -> 0 <= j -> 0 <= x -> is_fin d q ->
  (Qmake x (Z.to_pos (10 ^ (k + j))) <= q)%Q -> (q <= Qmake y (Z.to_pos (10 ^ (k + j))))%Q ->
  exists b c, dec_of_string (d_toFixedN k d) = Ret b /\ scaled k b c /\ half_up j x <= c <= half_up j y.
Proof.
  intros Hk Hj Hx (q' & Hq & E)%is_fin_dval L U. destruct (d_toFixedN_parse k d q' Hk Hq) as (b & Hb & Fb).
  assert (H1 : 0 < 10 ^ (k + j)) by (apply Z.pow_pos_nonneg; lia).
  assert (H2 : 0 < 10 ^ j) by (apply Z.pow_pos_nonneg; lia).
  assert (H3 : 0 < 10 ^ k) by (apply Z.pow_pos_nonneg; lia).
  assert (H0 : (0 <= q')%Q) by (rewrite E; eapply Qle_trans; [|exact L]; by unfold Qle; cbn; lia).
  assert (Hf : forall z, half_up j z = Qfloor (Qmake z (Z.to_pos (10 ^ (k + j))) * inject_Z (10 ^ k) + (1 # 2))).
  { intros z. unfold half_up.
    transitivity (Qfloor (Qmake (2 * z + 10 ^ j) (Z.to_pos (2 * 10 ^ j)))).
    - unfold Qfloor. by rewrite Z2Pos.id by lia.
    - apply Qfloor_comp. unfold Qeq, Qmult, Qplus, inject_Z. cbn [Qnum Qden].
      rewrite !Pos2Z.inj_mul, !pow10_pos, Z2Pos.id, Z.pow_add_r by lia. ring. }
  eexists b, _. split_and!; [done|exact Fb| |]; unfold round_half_up; rewrite (proj2 (Qltb_false _ _) H0), Hf;
    apply Qfloor_resp_le; rewrite (Qabs_pos _ H0), E; apply Qplus_le_compat; try apply Qle_refl;
    (apply Qmult_le_compat_r; [done|]); unfold Qle; cbn; lia.
Qed.

Lemma half_up_mono j x y : 0 <= j -> x <= y -> half_up j x <= half_up j y.
Proof. intros Hj Hxy. unfold half_up. assert (0 < 10 ^ j) by (apply Z.pow_pos_nonneg; lia). apply Z.div_le_mono; lia. Qed.

(** Ten-thousandths. *)
Definition units (d : dec) (m : Z) : Prop := scaled 4 d m.

Lemma units_q m : Qmake m (Z.to_pos (10 ^ 4)) = Qmake m 10000.
Proof. done. Qed.

Lemma rnd_units x m : (x == m # 10000)%Q -> Z.abs m < 10 ^ 20 -> dv_equiv (d_rnd x) (DFin (m # 10000)).
Proof. intros E Hm. etrans; [apply d_rnd_proper, E|]. apply (d_rnd_exact m 4); [done|lia]. Qed.

Lemma units_zero : units (dec_of_Z 0) 0.
Proof. apply scaled_zero. Qed.

Lemma units_plus a b x y : units a x -> units b y -> Z.abs (x + y) < 10 ^ 20 -> units (d_plus a b) (x + y).
Proof. by apply scaled_plus. Qed.

Lemma units_minus a b x y : units a x -> units b y -> Z.abs (x - y) < 10 ^ 20 -> units (d_minus a b) (x - y).
Proof. by apply scaled_minus. Qed.

Lemma Qltb_units x y : Qltb (x # 10000) (y # 10000) = (x <? y).
Proof. apply eq_true_iff_eq. rewrite Qltb_spec, Z.ltb_lt. unfold Qlt; cbn. lia. Qed.

Lemma Qle_units x y : Qle_bool (x # 10000) (y # 10000) = (x <=? y).
Proof. apply eq_true_iff_eq. rewrite Qle_bool_iff, Z.leb_le. unfold Qle; cbn. lia. Qed.

Lemma units_lt a b x y : units a x -> units b y -> d_lt a b = (x <? y).
Proof. intros Ha Hb. rewrite (d_lt_fin _ _ _ _ Ha Hb). apply Qltb_units. Qed.

Lemma units_gt a b x y : units a x -> units b y -> d_gt a b = (y <? x).
Proof. intros Ha Hb. rewrite (d_gt_fin _ _ _ _ Ha Hb). apply Qltb_units. Qed.

Lemma units_lte a b x y : units a x -> units b y -> d_lte a b = (x <=? y).
Proof. intros Ha Hb. rewrite (d_lte_fin _ _ _ _ Ha Hb). apply Qle_units. Qed.

Lemma units_gte a b x y : units a x -> units b y -> d_gte a b = (y <=? x).
Proof. intros Ha Hb. rewrite (d_gte_fin _ _ _ _ Ha Hb). apply Qle_units. Qed.

Lemma units_eq a b x y : units a x -> units b y -> d_eq a b = (x =? y).
Proof.
  intros Ha Hb. rewrite (d_eq_fin _ _ _ _ Ha Hb). apply eq_true_iff_eq. rewrite Qeq_bool_iff, Z.eqb_eq.
  unfold Qeq; cbn. lia.
Qed.

Lemma units_max a b x y : units a x -> units b y -> units (d_max [a; b]) (Z.max x y).
Proof. by apply scaled_max2. Qed.

Lemma units_abs a x : units a x -> units (d_abs a) (Z.abs x).
Proof.
  intros Ha. unfold units, scaled, is_fin in *. rewrite d_abs_val. destruct (dval a) as [| |q|]; try done. cbn in *. by rewrite Ha.
Qed.

Lemma units_inj d x y : units d x -> units d y -> x = y.
Proof. by apply scaled_inj. Qed.

(** The smallest of a list of exact amounts is the smallest integer. *)
Lemma units_min l zs : l <> [] -> Forall2 units l zs -> exists z, units (d_min l) z /\ z ∈ zs /\ Forall (Z.le z) zs.
Proof. by apply scaled_min. Qed.

Lemma units_min2 a b x y : units a x -> units b y -> units (d_min [a; b]) (Z.min x y).
Proof.
  intros Ha Hb. destruct (units_min [a; b] [x; y]) as (z & Hz & Hin & Hall); [done|by repeat constructor|].
  replace (Z.min x y) with z; [done|]. rewrite !Forall_cons in Hall. rewrite !elem_of_cons, elem_of_nil in Hin. lia.
Qed.

Lemma units_min3 a b c x y w : units a x -> units b y -> units c w -> units (d_min [a; b; c]) (Z.min x (Z.min y w)).
Proof.
  intros Ha Hb Hc. destruct (units_min [a; b; c] [x; y; w]) as (z & Hz & Hin & Hall); [done|by repeat constructor|].
  replace (Z.min x (Z.min y w)) with z; [done|].
  rewrite !Forall_cons in Hall. rewrite !elem_of_cons, elem_of_nil in Hin. lia.
Qed.

(** A whole percentage of an amount in cents. *)
Lemma units_pct t c k : units t (100 * c) -> Z.abs k <= 100 -> Z.abs (c * k) < 10 ^ 20 ->
  units (d_div (d_times t (dec_of_num (num_of_Z k))) (dec_of_Z 100)) (c * k).
Proof.
  intros Ht Hk Hm. assert (Fk : is_fin (dec_of_num (num_of_Z k)) (inject_Z k)) by (apply (d_of_int k); lia).
  assert (F1 : is_fin (d_times t (dec_of_num (num_of_Z k))) (c * k # 100)).
  { unfold is_fin. rewrite (d_times_fin _ _ _ _ Ht Fk). etrans; [apply d_rnd_proper|apply (d_rnd_exact (c * k) 2); lia].
    unfold Qeq, Qmult, inject_Z; cbn. lia. }
  unfold units, scaled, is_fin. rewrite (d_div_fin _ _ _ _ F1 (d_of_int 100 ltac:(lia))) by by intros ?.
  apply rnd_units; [|done]. unfold Qeq, Qdiv, Qmult, Qinv, inject_Z; cbn. lia.
Qed.

(** Bounded results are finite. *)
Lemma rnd_bounded x M : Z.abs M < 10 ^ 20 -> (0 <= x)%Q -> (x <= inject_Z M)%Q ->
  exists q, dv_equiv (d_rnd x) (DFin q) /\ (0 <= q)%Q /\ (q <= inject_Z M)%Q.
Proof.
  intros HM H0 Hx. pose proof (d_rnd_nonneg x H0) as L. pose proof (d_rnd_mono _ _ Hx) as U.
  assert (E : dv_equiv (d_rnd (inject_Z M)) (DFin (inject_Z M))) by by apply (d_rnd_exact M 0).
  rewrite E in U. destruct (d_rnd x) as [| |q|]; try done. exists q. dv_simpl. done.
Qed.

(** The comparison of a share with a whole percentage is exact: the quotient
    and the product are rounded, but two shares of a total below the bound that
    differ do so by more than the precision. *)
Lemma units_share_of x t p X T k :
  units x (100 * X) -> units t (100 * T) -> is_fin p (inject_Z k) ->
  0 <= X <= 2 * money_bound -> 0 < T <= money_bound -> 0 <= k <= 100 ->
  d_gt (d_times (d_div x t) (dec_of_Z 100)) p = (k * T <? 100 * X).
Proof.
  intros Hx Ht Fk HX HT Hk. unfold money_bound in *.
  set (s := ((100 * X # 10000) / (100 * T # 10000))%Q).
  assert (HT0 : (0 < 100 * T # 10000)%Q) by (unfold Qlt; cbn; lia).
  assert (Hs0 : (0 <= s)%Q) by (apply Qle_shift_div_l; [done|unfold Qle; cbn; lia]).
  destruct (rnd_bounded s (2 * 10 ^ 15)) as (q & Eq & Q0 & Q1); [lia|done| |].
  { apply Qle_shift_div_r; [done|]. unfold Qle; cbn. lia. }
  assert (Fq : is_fin (d_div x t) q).
  { unfold is_fin. rewrite (d_div_fin _ _ _ _ Hx Ht); [done|]. unfold Qeq; cbn. lia. }
  rewrite d_gt_val. unfold is_fin in Fk. rewrite Fk, (d_times_fin _ _ _ _ Fq (d_of_int 100 ltac:(lia))).
  change (inject_Z 100) with (100 # 1)%Q. destruct (Z.ltb_spec (k * T) (100 * X)).
  - assert (L1 : (k * 10 ^ 15 + 1 # Z.to_pos (10 ^ 17) <= q)%Q).
    { assert (L : dv_le (DFin (k * 10 ^ 15 + 1 # Z.to_pos (10 ^ 17))) (DFin q) = true).
      { rewrite <- Eq, <- (d_rnd_exact (k * 10 ^ 15 + 1) 17) by lia. apply d_rnd_mono.
        apply Qle_shift_div_l; [done|]. unfold Qle; cbn. nia. }
      by dv_simpl. }
    assert (L2 : dv_le (DFin (k * 10 ^ 15 + 1 # Z.to_pos (10 ^ 15))) (d_rnd (q * (100 # 1))) = true).
    { rewrite <- (d_rnd_exact (k * 10 ^ 15 + 1) 15) by lia. apply d_rnd_mono.
      apply Qle_trans with ((k * 10 ^ 15 + 1 # Z.to_pos (10 ^ 17)) * (100 # 1))%Q; [unfold Qle; cbn; lia|].
      apply Qmult_le_compat_r; [done|]. by unfold Qle. }
    eapply dv_lt_le_trans; [|exact L2]. cbn. apply Qltb_spec. unfold Qlt, inject_Z; cbn. lia.
  - assert (L1 : (q <= k # Z.to_pos (10 ^ 2))%Q).
    { assert (L : dv_le (DFin q) (DFin (k # Z.to_pos (10 ^ 2))) = true).
      { rewrite <- Eq, <- (d_rnd_exact k 2) by lia. apply d_rnd_mono.
        apply Qle_shift_div_r; [done|]. unfold Qle; cbn. lia. }
      by dv_simpl. }
    apply dv_le_not_lt. rewrite <- (d_rnd_exact k 0) at 1 by lia. apply d_rnd_mono.
    apply Qle_trans with ((k # Z.to_pos (10 ^ 2)) * (100 # 1))%Q.
    + apply Qmult_le_compat_r; [done|]. by unfold Qle.
    + unfold Qle; cbn. lia.
Qed.

Lemma units_share_lte x t p X T k :
  units x (100 * X) -> units t (100 * T) -> is_fin p (inject_Z k) ->
  0 <= X <= 2 * money_bound -> 0 < T <= money_bound -> 0 <= k <= 100 ->
  d_lte (d_times (d_div x t) (dec_of_Z 100)) p = (100 * X <=? k * T).
Proof.
  intros Hx Ht Fk HX HT Hk. pose proof (units_share_of _ _ _ _ _ _ Hx Ht Fk HX HT Hk) as Hd.
  unfold money_bound in *.
  destruct (rnd_bounded ((100 * X # 10000) / (100 * T # 10000)) (2 * 10 ^ 15)) as (q & Eq & Q0 & Q1); [lia| | |].
  { apply Qle_shift_div_l; unfold Qlt, Qle; cbn; lia. }
  { apply Qle_shift_div_r; unfold Qlt, Qle; cbn; lia. }
  assert (Fq : is_fin (d_div x t) q).
  { unfold is_fin. rewrite (d_div_fin _ _ _ _ Hx Ht); [done|]. unfold Qeq; cbn; lia. }
  destruct (rnd_bounded (q * inject_Z 100) (2 * 10 ^ 17)) as (v & Ev & _); [lia| | |].
  { apply Qmult_le_0_compat; [done|]. by unfold Qle. }
  { apply Qle_trans with (inject_Z (2 * 10 ^ 15) * inject_Z 100)%Q; [|by unfold Qle].
    apply Qmult_le_compat_r; [done|]. by unfold Qle. }
  assert (Fv : is_fin (d_times (d_div x t) (dec_of_Z 100)) v).
  { unfold is_fin. by rewrite (d_times_fin _ _ _ _ Fq (d_of_int 100 ltac:(lia))). }
  rewrite (d_lte_fin _ _ _ _ Fv Fk). rewrite (d_gt_fin _ _ _ _ Fv Fk) in Hd.
  unfold Qltb in Hd. rewrite Z.leb_antisym, <- Hd. by rewrite negb_involutive.
Qed.

Lemma units_share x t X T k :
  units x (100 * X) -> units t (100 * T) -> 0 <= X <= 2 * money_bound -> 0 < T <= money_bound -> 0 <= k <= 100 ->
  d_gt (d_times (d_div x t) (dec_of_Z 100)) (dec_of_num (num_of_Z k)) = (k * T <? 100 * X).
Proof. intros Hx Ht HX HT Hk. apply units_share_of; try done. apply (d_of_int k). lia. Qed.

(** An amount in cents parses exactly. *)
Lemma money_parses s : money s = true ->
  exists d, dec_of_string s = Ret d /\ units d (100 * cents_of s) /\ 0 <= cents_of s < money_bound.
Proof.
  unfold money. destruct (decimal_literal s) as [q|] eqn:E; [|done].
  intros [[Hq%Qeq_bool_iff H0%Z.leb_le]%andb_true_iff Hb%Z.ltb_lt]%andb_true_iff.
  destruct (literal_parses _ _ E) as (d & Hd & Fd). exists d. split_and!; try done.
  unfold units, scaled, is_fin. etrans; [exact Fd|]. cbn. rewrite Hq. unfold Qeq; cbn. lia.
Qed.
End Units.
