(* ===== verification/Domain.v ===== *)
(** * Domain types and invariants (packages/domain)

    [src/packages/domain/src/types/risk.ts] and [order.ts]: the records and
    enumerations exchanged by the risk engine and the execution layer.
    [src/packages/domain/src/invariants.ts]: the business assertions, which
    throw an [InvariantError].  A [Date] is its time value in milliseconds;
    branded identifiers are strings. *)
From S2P Require Import Prelude JsNumber JsValue.
Open Scope Z_scope.

(** ** risk.ts *)

Inductive RiskCheckStatus := passed_ | failed_ | warning_.
#[export] Instance RiskCheckStatus_eq_dec : EqDecision RiskCheckStatus.
Proof. solve_decision. Defined.

Record RiskCheckResult := MkRiskCheckResult {
  rcr_checkName : string;
  rcr_status : RiskCheckStatus;
  rcr_message : string;
  rcr_limit : option string;
  rcr_actual : option string;
}.

Record RiskAssessment := MkRiskAssessment {
  ra_opportunityId : option string;
  ra_orderId : option string;
  ra_results : list RiskCheckResult;
  ra_overallStatus : RiskCheckStatus;
  ra_timestamp : Z;
}.

Inductive CircuitBreakerState := closed | open | half_open.
#[export] Instance CircuitBreakerState_eq_dec : EqDecision CircuitBreakerState.
Proof. solve_decision. Defined.

(** ** order.ts *)

Inductive OrderSide := buy | sell.
#[export] Instance OrderSide_eq_dec : EqDecision OrderSide.
Proof. solve_decision. Defined.

Inductive OrderType := market | limit | post_only.
#[export] Instance OrderType_eq_dec : EqDecision OrderType.
Proof. solve_decision. Defined.

Inductive OrderStatus :=
| pending | submitted | partially_filled | filled | cancelled | failed | expired.
#[export] Instance OrderStatus_eq_dec : EqDecision OrderStatus.
Proof. solve_decision. Defined.

Definition OrderSide_str (s : OrderSide) : string :=
  match s with buy => "buy" | sell => "sell" end.

Definition OrderStatus_str (s : OrderStatus) : string :=
  match s with
  | pending => "pending" | submitted => "submitted" | partially_filled => "partially_filled"
  | filled => "filled" | cancelled => "cancelled" | failed => "failed" | expired => "expired"
  end.

Record OrderFill := MkOrderFill {
  of_fillId : string;
  of_orderId : string;
  of_filledSize : string;
  of_fillPrice : string;
  of_fee : string;
  of_feeAsset : string;
  of_filledAt : Z;
}.

Record OrderIntent := MkOrderIntent {
  oi_intentId : string;
  oi_venueId : string;
  oi_asset : string;
  oi_side : OrderSide;
  oi_type : OrderType;
  oi_size : string;
  oi_limitPrice : option string;
  oi_opportunityId : string;
  oi_reduceOnly : bool;
  oi_createdAt : Z;
  oi_metadata : record_;
}.

(** ** invariants.ts *)

Definition InvariantError (invariant detail : string) : JsError :=
  MkError "InvariantError" ("Invariant violation [" +:+ invariant +:+ "]: " +:+ detail).

Definition parseDecimal (value fieldName : string) : exn num :=
  let n := parseFloat value in
  if negb (n_isFinite n)
  then Throw (InvariantError fieldName (quoted value +:+ " is not a finite decimal number"))
  else Ret n.

Definition assertPositiveSize (size : string) : exn unit :=
  n ← parseDecimal size "assertPositiveSize";
  if n_le n (num_of_Z 0)
  then Throw (InvariantError "assertPositiveSize"
                ("Size must be strictly positive, got " +:+ quoted size))
  else Ret tt.

Definition assertValidAllocationPct (pct : num) : exn unit :=
  if negb (n_isFinite pct)
  then Throw (InvariantError "assertValidAllocationPct"
                ("Allocation must be finite, got " +:+ n_str pct))
  else if n_lt pct (num_of_Z 0) || n_gt pct (num_of_Z 100)
  then Throw (InvariantError "assertValidAllocationPct"
                ("Allocation must be between 0 and 100 (inclusive), got " +:+ n_str pct))
  else Ret tt.

Definition assertHedgeStateConsistent (longSize shortSize : string) : exn unit :=
  long ← parseDecimal longSize "assertHedgeStateConsistent.longSize";
  short ← parseDecimal shortSize "assertHedgeStateConsistent.shortSize";
  if n_lt long (num_of_Z 0)
  then Throw (InvariantError "assertHedgeStateConsistent"
                ("Long size must be non-negative, got " +:+ quoted longSize))
  else if n_lt short (num_of_Z 0)
  then Throw (InvariantError "assertHedgeStateConsistent"
                ("Short size must be non-negative, got " +:+ quoted shortSize))
  else
    let larger := n_max long short in
    if n_eq larger (num_of_Z 0) then Ret tt
    else
      let diffPct := n_div (n_abs (n_sub long short)) larger in
      if n_gt diffPct (num_of_dec 1 (-3))
      then Throw (InvariantError "assertHedgeStateConsistent"
                    ("Hedge imbalance of " +:+ n_toFixed 4 (n_mul diffPct (num_of_Z 100)) +:+
                     "% exceeds 0.1% threshold (long=" +:+ quoted longSize +:+
                     ", short=" +:+ quoted shortSize +:+ ")"))
      else Ret tt.

Definition assertNoNegativeNav (nav : string) : exn unit :=
  n ← parseDecimal nav "assertNoNegativeNav";
  if n_lt n (num_of_Z 0)
  then Throw (InvariantError "assertNoNegativeNav"
                ("NAV must be non-negative, got " +:+ quoted nav))
  else Ret tt.

Lemma n_finite_not_nan x : n_isFinite x = true -> n_isNaN x = false.
Proof. by destruct x. Qed.

(** The allocation assertion accepts exactly the finite numbers between
    0 and 100, and every rejection is an [InvariantError]. *)
Theorem assertValidAllocationPct_spec (pct : num) :
  (assertValidAllocationPct pct = Ret tt <->
     n_isFinite pct = true /\ n_le (num_of_Z 0) pct = true /\ n_le pct (num_of_Z 100) = true) /\
  (forall e, assertValidAllocationPct pct = Throw e -> err_name e = "InvariantError").
Proof.
  unfold assertValidAllocationPct. destruct (n_isFinite pct) eqn:Hf; cbn [negb].
  - pose proof (n_finite_not_nan _ Hf) as Hn. unfold n_gt.
    destruct (n_lt pct (num_of_Z 0)) eqn:E1; cbn [orb];
      [|destruct (n_lt (num_of_Z 100) pct) eqn:E2].
    + split; [|intros e He; by inversion He]. split; [done|]. intros (_ & H & _).
      apply n_le_not_lt in H. congruence.
    + split; [|intros e He; by inversion He]. split; [done|]. intros (_ & _ & H).
      apply n_le_not_lt in H. congruence.
    + split; [|done]. split; [|done]. intros _. split_and!; [done| |]; by apply n_not_lt.
  - split; [|intros e He; by inversion He]. split; [done|]. by intros (? & _).
Qed.
