(* ===== verification/Shared.v ===== *)
(** * Shared utilities (packages/shared)

    [src/packages/shared/src/result.ts]: the [Result] type and its
    combinators; [decimal.ts]: the string-to-string wrappers around
    decimal.js; [retry.ts]: retry with exponential backoff, as a recursion on
    the attempts left, with the effects it performs (calls and sleeps) in a
    trace; [time.ts]: the pure date helpers. *)
From S2P Require Import Prelude JsNumber JsValue DecimalLib.
Open Scope Z_scope.

(** ** result.ts *)

Inductive Result (T E : Type) : Type :=
| Ok (value : T)
| Err (error : E).
Arguments Ok {T E} value.
Arguments Err {T E} error.

Definition isOk {T E} (r : Result T E) : bool := match r with Ok _ => true | Err _ => false end.
Definition isErr {T E} (r : Result T E) : bool := match r with Ok _ => false | Err _ => true end.

Definition mapResult {T U E} (r : Result T E) (fn : T -> U) : Result U E :=
  match r with Err e => Err e | Ok v => Ok (fn v) end.

Definition flatMapResult {T U E} (r : Result T E) (fn : T -> Result U E) : Result U E :=
  match r with Err e => Err e | Ok v => fn v end.

(** What a JavaScript [throw] can carry: an [Error], or another value of
    which only [String(thrown)] is observed. *)
Inductive thrown := ThrownError (e : JsError) | ThrownValue (shown : string).

Definition to_error (t : thrown) : JsError :=
  match t with ThrownError e => e | ThrownValue s => Error_ s end.

(** The promise settled by [fn]: a value, or a rejection. *)
Definition asyncResult {T} (fn : T + thrown) : Result T JsError :=
  match fn with
  | inl value => Ok value
  | inr t => Err (to_error t)
  end.

(** ** decimal.ts *)

Section DecimalStrings.
Context `{DL : DecimalLib}.

Definition ZERO : string := "0".
Definition ONE : string := "1".

Definition add (a b : string) : exn string :=
  x ← dec_of_string a; y ← dec_of_string b; Ret (d_toFixed (d_plus x y)).
Definition subtract (a b : string) : exn string :=
  x ← dec_of_string a; y ← dec_of_string b; Ret (d_toFixed (d_minus x y)).
Definition multiply (a b : string) : exn string :=
  x ← dec_of_string a; y ← dec_of_string b; Ret (d_toFixed (d_times x y)).

Definition divide (a b : string) (precision : option Z) : exn string :=
  divisor ← dec_of_string b;
  if d_isZero divisor then Throw (RangeError_ "Division by zero is not allowed")
  else
    x ← dec_of_string a;
    let result := d_div x divisor in
    Ret (match precision with
         | Some p => d_toFixedN p result
         | None => d_toFixed result
         end).

(** [cmp < 0], [cmp > 0] on the number [comparedTo] returns (NaN is neither). *)
Definition compare (a b : string) : exn Z :=
  x ← dec_of_string a; y ← dec_of_string b;
  let cmp := d_cmp x y in
  Ret (match cmp with Some Lt => -1 | Some Gt => 1 | _ => 0 end).

Definition isPositive (a : string) : exn bool := x ← dec_of_string a; Ret (d_gt x (dec_of_Z 0)).
Definition isNegative (a : string) : exn bool := x ← dec_of_string a; Ret (d_lt x (dec_of_Z 0)).
Definition isZero (a : string) : exn bool := x ← dec_of_string a; Ret (d_isZero x).
(** ROUND_HALF_UP is also the package's default rounding mode. *)
Definition toFixed (a : string) (decimals : Z) : exn string :=
  x ← dec_of_string a; Ret (d_toFixedN decimals x).
End DecimalStrings.

(** ** retry.ts *)

Section Retry.
Context {T : Type}.

(** Attempt counts are integers; delays are numbers of milliseconds. *)
Record RetryOptions := MkRetryOptions {
  maxAttempts : Z;
  initialDelayMs : num;
  maxDelayMs : num;
  backoffMultiplier : num;
  shouldRetry : option (JsError -> bool);
}.

(** What [retry] does to the outside: calls [fn], or sleeps. *)
Inductive retry_event := RCall (attempt : Z) | RSleep (delayMs : num).

(** How the call of [fn] at each attempt settles. *)
Variable fn : Z -> T + thrown.

(** The [for] loop, entered with [attempt] and [fuel] iterations left. *)
Fixpoint retry_loop (fuel : nat) (o : RetryOptions) (attempt : Z) (delayMs : num)
    (lastError : JsError) : exn T * list retry_event :=
  match fuel with
  | O => (Throw lastError, [])
  | S fuel' =>
      match fn attempt with
      | inl value => (Ret value, [RCall attempt])
      | inr t =>
          let error := to_error t in
          let shouldRetry := or_else (shouldRetry o) (fun _ => true) in
          if negb (shouldRetry error) then (Throw error, [RCall attempt])
          else if attempt <? maxAttempts o then
            let '(r, tr) := retry_loop fuel' o (attempt + 1)
                (n_min (n_mul delayMs (backoffMultiplier o)) (maxDelayMs o)) error in
            (r, RCall attempt :: RSleep delayMs :: tr)
          else
            let '(r, tr) := retry_loop fuel' o (attempt + 1) delayMs error in
            (r, RCall attempt :: tr)
      end
  end.

Definition retry (o : RetryOptions) : exn T * list retry_event :=
  if maxAttempts o <? 1
  then (Throw (RangeError_ "retry: maxAttempts must be at least 1"), [])
  else retry_loop (Z.to_nat (maxAttempts o)) o 1 (initialDelayMs o)
         (Error_ "retry: no attempts made").
End Retry.

(** ** time.ts *)

Definition addSeconds (date : Z) (seconds : Z) : Z := date + seconds * 1000.
Definition diffMs (a b : Z) : Z := a - b.
(** [now] is the clock reading the function takes. *)
Definition isStale (now lastUpdated maxAgeMs : Z) : bool := maxAgeMs <? now - lastUpdated.

(** ** Properties *)

Definition is_call (e : retry_event) : bool := match e with RCall _ => true | _ => false end.

Section RetryFacts.
Context {T : Type} (fn : Z -> T + thrown) (o : RetryOptions).

(** Sleeps are bounded by [b] once the current delay is. *)
Definition delay_ok (e : retry_event) : Prop :=
  match e with
  | RCall _ => True
  | RSleep d => n_le d (maxDelayMs o) = true \/ d = initialDelayMs o
  end.

Lemma retry_loop_calls fuel : forall attempt d err,
  Z.of_nat (length (List.filter is_call (retry_loop fn fuel o attempt d err).2)) <= Z.of_nat fuel.
Proof.
  induction fuel as [|fuel IH]; intros attempt d err; cbn [retry_loop]; [done|].
  destruct (fn attempt) as [v|t]; [cbn; lia|].
  destruct (negb _); [cbn; lia|].
  destruct (attempt <? maxAttempts o).
  - specialize (IH (attempt + 1) (n_min (n_mul d (backoffMultiplier o)) (maxDelayMs o)) (to_error t)).
    destruct (retry_loop _ _ _ _ _ _) as [r tr]. cbn in *. lia.
  - specialize (IH (attempt + 1) d (to_error t)).
    destruct (retry_loop _ _ _ _ _ _) as [r tr]. cbn in *. lia.
Qed.

(** The first success, after failures that may be retried, is returned. *)
Lemma retry_loop_success fuel v k : forall attempt d err,
  attempt <= k < attempt + Z.of_nat fuel -> 
  fn k = inl v ->
  (forall i, attempt <= i < k -> exists t, fn i = inr t /\
     or_else (shouldRetry o) (fun _ => true) (to_error t) = true) ->
  (retry_loop fn fuel o attempt d err).1 = Ret v.
Proof.
  induction fuel as [|fuel IH]; intros attempt d err Hk Hv Hf; [lia|]. cbn [retry_loop].
  destruct (decide (attempt = k)) as [->|Hne]; [by rewrite Hv|].
  destruct (Hf attempt) as (t & -> & ->); [lia|]. cbn [negb].
  destruct (attempt <? maxAttempts o).
  - specialize (IH (attempt + 1) (n_min (n_mul d (backoffMultiplier o)) (maxDelayMs o)) (to_error t)).
    destruct (retry_loop _ _ _ _ _ _) as [r tr]. apply IH; [lia|done|]. intros; apply Hf; lia.
  - specialize (IH (attempt + 1) d (to_error t)).
    destruct (retry_loop _ _ _ _ _ _) as [r tr]. apply IH; [lia|done|]. intros; apply Hf; lia.
Qed.

(** When every attempt fails with a retryable error the last one is thrown. *)
Lemma retry_loop_exhausted fuel : forall attempt d err,
  (forall i, attempt <= i < attempt + Z.of_nat fuel -> exists t, fn i = inr t /\
     or_else (shouldRetry o) (fun _ => true) (to_error t) = true) ->
  (fuel = O -> (retry_loop fn fuel o attempt d err).1 = Throw err) /\
  (forall t, fuel <> O -> fn (attempt + Z.of_nat fuel - 1) = inr t ->
     (retry_loop fn fuel o attempt d err).1 = Throw (to_error t)).
Proof.
  induction fuel as [|fuel IH]; intros attempt d err Hf; [done|]. split; [done|].
  intros t _ Ht. cbn [retry_loop].
  destruct (Hf attempt) as (t0 & Ht0 & Hr); [lia|]. rewrite Ht0, Hr. cbn [negb].
  assert (Hrec : forall d', (retry_loop fn fuel o (attempt + 1) d' (to_error t0)).1 = Throw (to_error t)).
  { intros d'. destruct (IH (attempt + 1) d' (to_error t0)) as [H0 H1]; [intros; apply Hf; lia|].
    destruct fuel as [|fuel].
    - rewrite H0 by done. replace (attempt + Z.of_nat 1 - 1) with attempt in Ht by lia. congruence.
    - apply H1; [done|]. rewrite <- Ht. f_equal. lia. }
  destruct (attempt <? maxAttempts o).
  - specialize (Hrec (n_min (n_mul d (backoffMultiplier o)) (maxDelayMs o))).
    by destruct (retry_loop _ _ _ _ _ _) as [r tr].
  - specialize (Hrec d). by destruct (retry_loop _ _ _ _ _ _) as [r tr].
Qed.

Lemma retry_loop_sleeps fuel : forall attempt d err,
  n_isNaN (maxDelayMs o) = false -> n_isNaN d = false ->
  n_isFinite (backoffMultiplier o) = true -> n_eq (backoffMultiplier o) n_zero = false ->
  (n_le d (maxDelayMs o) = true \/ d = initialDelayMs o) ->
  Forall delay_ok (retry_loop fn fuel o attempt d err).2.
Proof.
  induction fuel as [|fuel IH]; intros attempt d err Hm Hn Hb Hz Hd; cbn [retry_loop]; [done|].
  destruct (fn attempt) as [v|t]; [by repeat constructor|].
  destruct (negb _); [by repeat constructor|].
  destruct (attempt <? maxAttempts o).
  - specialize (IH (attempt + 1) (n_min (n_mul d (backoffMultiplier o)) (maxDelayMs o)) (to_error t) Hm).
    destruct (retry_loop _ _ _ _ _ _) as [r tr]. cbn in *.
    do 2 (constructor; [done|]). apply IH; try done; [|left]; auto using n_mul_not_nan with num.
  - specialize (IH (attempt + 1) d (to_error t) Hm Hn Hb Hz Hd).
    destruct (retry_loop _ _ _ _ _ _) as [r tr]. cbn in *. by constructor.
Qed.
End RetryFacts.

(** [retry] calls the function at most [maxAttempts] times, never sleeps
    longer than [maxDelayMs] after the initial delay, returns the first
    success that follows retryable failures, and throws the last error when
    every attempt fails with a retryable one. *)
Theorem retry_contract {T} (fn : Z -> T + thrown) (o : RetryOptions) (Hm : 1 <= maxAttempts o)
    (Hmax : n_isNaN (maxDelayMs o) = false) (Hd : n_isNaN (initialDelayMs o) = false)
    (Hb : n_isFinite (backoffMultiplier o) = true) (Hz : n_eq (backoffMultiplier o) n_zero = false) :
  let retryable i := exists t, fn i = inr t /\ or_else (shouldRetry o) (fun _ => true) (to_error t) = true in
  Z.of_nat (length (List.filter is_call (retry fn o).2)) <= maxAttempts o /\
  Forall (delay_ok o) (retry fn o).2 /\
  (forall k v, 1 <= k <= maxAttempts o -> fn k = inl v -> (forall i, 1 <= i < k -> retryable i) ->
     (retry fn o).1 = Ret v) /\
  (forall t, (forall i, 1 <= i <= maxAttempts o -> retryable i) -> fn (maxAttempts o) = inr t ->
     (retry fn o).1 = Throw (to_error t)).
Proof.
  cbn zeta. unfold retry. destruct (Z.ltb_spec (maxAttempts o) 1); [lia|]. split_and!.
  - etransitivity; [apply retry_loop_calls|lia].
  - apply retry_loop_sleeps; auto.
  - intros k v Hk Hv Hf. apply retry_loop_success with k; [lia|done|done].
  - intros t Hf Ht. apply retry_loop_exhausted; [intros; apply Hf; lia|lia|].
    rewrite <- Ht. f_equal. lia.
Qed.

(** Failing twice, then succeeding. *)
Definition flaky (i : Z) : Z + thrown := if i <? 3 then inr (ThrownError (Error_ "busy")) else inl 7.
Definition sample_retry : RetryOptions :=
  MkRetryOptions 5 (num_of_Z 10) (num_of_Z 1000) (num_of_Z 2) None.

Lemma retry_contract_witness : (retry flaky sample_retry).1 = Ret 7.
Proof.
  destruct (retry_contract flaky sample_retry) as (_ & _ & H & _); [done..|].
  apply (H 3 7); [done|done|]. intros i Hi. exists (ThrownError (Error_ "busy")).
  split; [|done]. unfold flaky. destruct (Z.ltb_spec i 3); [done|lia].
Defined.
