(* ===== verification/RiskChecks.v ===== *)
(** * Pre-trade risk checks (packages/risk-engine: limits.ts, checks.ts)

    One definition per exported check of [src/packages/risk-engine/src/checks.ts],
    over the limits of [limits.ts].  A check parses its decimal strings (a parse
    error is thrown), and returns a [RiskCheckResult].  The first group of
    theorems characterises the status of every check by the projected metric it
    computes; the second shows that a check only gets stricter as the position
    grows. *)
From Stdlib Require Import Qabs.
From S2P Require Import Prelude JsNumber JsValue DecimalLib DecimalExact Domain.
Open Scope Z_scope.

(** ** limits.ts *)

Record RiskLimits := MkRiskLimits {
  maxGrossExposurePct : num;
  maxNetExposurePct : num;
  maxSingleVenuePct : num;
  maxSingleAssetPct : num;
  maxLeverage : num;
  minLiquidityReservePct : num;
  maxDailyDrawdownPct : num;
  maxWeeklyDrawdownPct : num;
  maxPortfolioDrawdownPct : num;
  maxPriceAgeSec : num;
  maxFundingRateAgeSec : num;
  maxPositionSizePct : num;
  maxOpportunityCount : num;
}.

Definition DEFAULT_RISK_LIMITS : RiskLimits := {|
  maxGrossExposurePct := num_of_Z 200;
  maxNetExposurePct := num_of_Z 20;
  maxSingleVenuePct := num_of_Z 40;
  maxSingleAssetPct := num_of_Z 30;
  maxLeverage := num_of_Z 3;
  minLiquidityReservePct := num_of_Z 10;
  maxDailyDrawdownPct := num_of_Z 2;
  maxWeeklyDrawdownPct := num_of_Z 5;
  maxPortfolioDrawdownPct := num_of_Z 15;
  maxPriceAgeSec := num_of_Z 30;
  maxFundingRateAgeSec := num_of_Z 60;
  maxPositionSizePct := num_of_Z 20;
  maxOpportunityCount := num_of_Z 10;
|}.

(** ** checks.ts *)

Definition passed (checkName message : string) (limit actual : option string) : RiskCheckResult :=
  MkRiskCheckResult checkName passed_ message limit actual.
Definition failed (checkName message : string) (limit actual : option string) : RiskCheckResult :=
  MkRiskCheckResult checkName failed_ message limit actual.
Definition warning (checkName message : string) (limit actual : option string) : RiskCheckResult :=
  MkRiskCheckResult checkName warning_ message limit actual.

Inductive DrawdownPeriod := daily | weekly | portfolio.
#[export] Instance DrawdownPeriod_eq_dec : EqDecision DrawdownPeriod.
Proof. solve_decision. Defined.
Definition DrawdownPeriod_str (p : DrawdownPeriod) : string :=
  match p with daily => "daily" | weekly => "weekly" | portfolio => "portfolio" end.

Section Checks.
Context `{DL : DecimalLib}.

Definition pct (part whole : dec) : dec := d_times (d_div part whole) (dec_of_Z 100).

Definition WARNING_FACTOR : exn dec := dec_of_string "0.90".

Definition checkGrossExposure (currentGrossExposure newPositionSize portfolioNav : string) (limits : RiskLimits) : exn RiskCheckResult :=
  let CHECK := "gross_exposure" in
  gross ← dec_of_string currentGrossExposure;
  newSize ← dec_of_string newPositionSize;
  nav ← dec_of_string portfolioNav;
  let limitPct := dec_of_num (maxGrossExposurePct limits) in
  if d_isZero nav then
    Ret (failed CHECK "Portfolio NAV is zero; cannot assess gross exposure." (Some (d_toFixed limitPct)) None)
  else
  let projectedGross := d_plus gross newSize in
  let projectedPct := pct projectedGross nav in
  let actualStr := d_toFixedN 4 projectedPct in
  let limitStr := d_toFixedN 4 limitPct in
  if d_gt projectedPct limitPct then
    Ret (failed CHECK ("Gross exposure would be " +:+ d_toFixedN 2 projectedPct +:+ "% of NAV, exceeding limit of " +:+ n_str (maxGrossExposurePct limits) +:+ "%.") (Some limitStr) (Some actualStr))
  else
  factor ← WARNING_FACTOR;
  if d_gt projectedPct (d_times limitPct factor) then
    Ret (warning CHECK ("Gross exposure would be " +:+ d_toFixedN 2 projectedPct +:+ "% of NAV, approaching limit of " +:+ n_str (maxGrossExposurePct limits) +:+ "%.") (Some limitStr) (Some actualStr))
  else
    Ret (passed CHECK ("Gross exposure would be " +:+ d_toFixedN 2 projectedPct +:+ "% of NAV, within limit of " +:+ n_str (maxGrossExposurePct limits) +:+ "%.") (Some limitStr) (Some actualStr)).

Definition checkNetExposure (currentNetExposure newPositionDelta portfolioNav : string) (limits : RiskLimits) : exn RiskCheckResult :=
  let CHECK := "net_exposure" in
  net ← dec_of_string currentNetExposure;
  delta ← dec_of_string newPositionDelta;
  nav ← dec_of_string portfolioNav;
  let limitPct := dec_of_num (maxNetExposurePct limits) in
  if d_isZero nav then
    Ret (failed CHECK "Portfolio NAV is zero; cannot assess net exposure." (Some (d_toFixed limitPct)) None)
  else
  let projectedNet := d_plus net delta in
  let projectedAbsNet := d_abs projectedNet in
  let projectedPct := pct projectedAbsNet nav in
  let actualStr := d_toFixedN 4 projectedPct in
  let limitStr := d_toFixedN 4 limitPct in
  if d_gt projectedPct limitPct then
    Ret (failed CHECK ("Net exposure would be " +:+ d_toFixedN 2 projectedPct +:+ "% of NAV (net = " +:+ d_toFixedN 2 projectedNet +:+ " USD), exceeding limit of " +:+ n_str (maxNetExposurePct limits) +:+ "%.") (Some limitStr) (Some actualStr))
  else
  factor ← WARNING_FACTOR;
  if d_gt projectedPct (d_times limitPct factor) then
    Ret (warning CHECK ("Net exposure would be " +:+ d_toFixedN 2 projectedPct +:+ "% of NAV, approaching limit of " +:+ n_str (maxNetExposurePct limits) +:+ "%.") (Some limitStr) (Some actualStr))
  else
    Ret (passed CHECK ("Net exposure would be " +:+ d_toFixedN 2 projectedPct +:+ "% of NAV, within limit of " +:+ n_str (maxNetExposurePct limits) +:+ "%.") (Some limitStr) (Some actualStr)).

Definition checkVenueConcentration (venueCurrentExposure newPositionSize portfolioGrossExposure : string) (limits : RiskLimits) : exn RiskCheckResult :=
  let CHECK := "venue_concentration" in
  venueExposure ← dec_of_string venueCurrentExposure;
  newSize ← dec_of_string newPositionSize;
  portfolioGross ← dec_of_string portfolioGrossExposure;
  let limitPct := dec_of_num (maxSingleVenuePct limits) in
  let projectedPortfolioGross := d_plus portfolioGross newSize in
  let projectedVenueExposure := d_plus venueExposure newSize in
  if d_isZero projectedPortfolioGross then
    Ret (failed CHECK "Total gross exposure is zero; cannot compute venue concentration." (Some (d_toFixed limitPct)) None)
  else
  let projectedPct := pct projectedVenueExposure projectedPortfolioGross in
  let actualStr := d_toFixedN 4 projectedPct in
  let limitStr := d_toFixedN 4 limitPct in
  if d_gt projectedPct limitPct then
    Ret (failed CHECK ("Venue concentration would be " +:+ d_toFixedN 2 projectedPct +:+ "% of gross exposure, exceeding limit of " +:+ n_str (maxSingleVenuePct limits) +:+ "%.") (Some limitStr) (Some actualStr))
  else
  factor ← WARNING_FACTOR;
  if d_gt projectedPct (d_times limitPct factor) then
    Ret (warning CHECK ("Venue concentration would be " +:+ d_toFixedN 2 projectedPct +:+ "% of gross exposure, approaching limit of " +:+ n_str (maxSingleVenuePct limits) +:+ "%.") (Some limitStr) (Some actualStr))
  else
    Ret (passed CHECK ("Venue concentration would be " +:+ d_toFixedN 2 projectedPct +:+ "% of gross exposure, within limit of " +:+ n_str (maxSingleVenuePct limits) +:+ "%.") (Some limitStr) (Some actualStr)).

Definition checkAssetConcentration (assetCurrentExposure newPositionSize portfolioGrossExposure : string) (limits : RiskLimits) : exn RiskCheckResult :=
  let CHECK := "asset_concentration" in
  assetExposure ← dec_of_string assetCurrentExposure;
  newSize ← dec_of_string newPositionSize;
  portfolioGross ← dec_of_string portfolioGrossExposure;
  let limitPct := dec_of_num (maxSingleAssetPct limits) in
  let projectedPortfolioGross := d_plus portfolioGross newSize in
  let projectedAssetExposure := d_plus assetExposure newSize in
  if d_isZero projectedPortfolioGross then
    Ret (failed CHECK "Total gross exposure is zero; cannot compute asset concentration." (Some (d_toFixed limitPct)) None)
  else
  let projectedPct := pct projectedAssetExposure projectedPortfolioGross in
  let actualStr := d_toFixedN 4 projectedPct in
  let limitStr := d_toFixedN 4 limitPct in
  if d_gt projectedPct limitPct then
    Ret (failed CHECK ("Asset concentration would be " +:+ d_toFixedN 2 projectedPct +:+ "% of gross exposure, exceeding limit of " +:+ n_str (maxSingleAssetPct limits) +:+ "%.") (Some limitStr) (Some actualStr))
  else
  factor ← WARNING_FACTOR;
  if d_gt projectedPct (d_times limitPct factor) then
    Ret (warning CHECK ("Asset concentration would be " +:+ d_toFixedN 2 projectedPct +:+ "% of gross exposure, approaching limit of " +:+ n_str (maxSingleAssetPct limits) +:+ "%.") (Some limitStr) (Some actualStr))
  else
    Ret (passed CHECK ("Asset concentration would be " +:+ d_toFixedN 2 projectedPct +:+ "% of gross exposure, within limit of " +:+ n_str (maxSingleAssetPct limits) +:+ "%.") (Some limitStr) (Some actualStr)).

Definition checkLeverage (currentGrossExposure newPositionSize portfolioNav : string) (limits : RiskLimits) : exn RiskCheckResult :=
  let CHECK := "leverage" in
  gross ← dec_of_string currentGrossExposure;
  newSize ← dec_of_string newPositionSize;
  nav ← dec_of_string portfolioNav;
  let maxLeverageD := dec_of_num (maxLeverage limits) in
  if d_isZero nav then
    Ret (failed CHECK "Portfolio NAV is zero; cannot assess leverage." (Some (d_toFixed maxLeverageD)) None)
  else
  let projectedGross := d_plus gross newSize in
  let projectedLeverage := d_div projectedGross nav in
  let actualStr := d_toFixedN 4 projectedLeverage in
  let limitStr := d_toFixedN 4 maxLeverageD in
  if d_gt projectedLeverage maxLeverageD then
    Ret (failed CHECK ("Leverage would be " +:+ d_toFixedN 3 projectedLeverage +:+ "x, exceeding limit of " +:+ n_str (maxLeverage limits) +:+ "x.") (Some limitStr) (Some actualStr))
  else
  factor ← WARNING_FACTOR;
  if d_gt projectedLeverage (d_times maxLeverageD factor) then
    Ret (warning CHECK ("Leverage would be " +:+ d_toFixedN 3 projectedLeverage +:+ "x, approaching limit of " +:+ n_str (maxLeverage limits) +:+ "x.") (Some limitStr) (Some actualStr))
  else
    Ret (passed CHECK ("Leverage would be " +:+ d_toFixedN 3 projectedLeverage +:+ "x, within limit of " +:+ n_str (maxLeverage limits) +:+ "x.") (Some limitStr) (Some actualStr)).

Definition checkLiquidityReserve (currentLiquidityReserve requiredMargin portfolioNav : string)
    (limits : RiskLimits) : exn RiskCheckResult :=
  let CHECK := "liquidity_reserve" in
  reserve ← dec_of_string currentLiquidityReserve;
  margin ← dec_of_string requiredMargin;
  nav ← dec_of_string portfolioNav;
  let minReservePct := dec_of_num (minLiquidityReservePct limits) in
  if d_isZero nav then
    Ret (failed CHECK "Portfolio NAV is zero; cannot assess liquidity reserve." (Some (d_toFixed minReservePct)) None)
  else
  let projectedReserve := d_minus reserve margin in
  let projectedReservePct := pct projectedReserve nav in
  let actualStr := d_toFixedN 4 projectedReservePct in
  let limitStr := d_toFixedN 4 minReservePct in
  if d_lt projectedReservePct minReservePct then
    Ret (failed CHECK ("Liquidity reserve would drop to " +:+ d_toFixedN 2 projectedReservePct +:+ "% of NAV (" +:+ d_toFixedN 2 projectedReserve +:+ " USD), below minimum of " +:+ n_str (minLiquidityReservePct limits) +:+ "%.") (Some limitStr) (Some actualStr))
  else
  factor ← dec_of_string "1.20";
  let warningThreshold := d_times minReservePct factor in
  if d_lt projectedReservePct warningThreshold then
    Ret (warning CHECK ("Liquidity reserve would be " +:+ d_toFixedN 2 projectedReservePct +:+ "% of NAV, approaching minimum of " +:+ n_str (minLiquidityReservePct limits) +:+ "%.") (Some limitStr) (Some actualStr))
  else
    Ret (passed CHECK ("Liquidity reserve would be " +:+ d_toFixedN 2 projectedReservePct +:+ "% of NAV, above minimum of " +:+ n_str (minLiquidityReservePct limits) +:+ "%.") (Some limitStr) (Some actualStr)).

Definition checkDrawdown (currentDrawdownPct : num) (period : DrawdownPeriod) (limits : RiskLimits)
    : exn RiskCheckResult :=
  let CHECK := "drawdown_" +:+ DrawdownPeriod_str period in
  let limitPct :=
    if decide (period = daily) then maxDailyDrawdownPct limits
    else if decide (period = weekly) then maxWeeklyDrawdownPct limits
    else maxPortfolioDrawdownPct limits in
  let current := dec_of_num currentDrawdownPct in
  let limit := dec_of_num limitPct in
  let actualStr := d_toFixedN 4 current in
  let limitStr := d_toFixedN 4 limit in
  if d_gt current limit then
    Ret (failed CHECK (DrawdownPeriod_str period +:+ " drawdown is " +:+ d_toFixedN 2 current +:+ "%, exceeding limit of " +:+ n_str limitPct +:+ "%.") (Some limitStr) (Some actualStr))
  else
  factor ← WARNING_FACTOR;
  if d_gt current (d_times limit factor) then
    Ret (warning CHECK (DrawdownPeriod_str period +:+ " drawdown is " +:+ d_toFixedN 2 current +:+ "%, approaching limit of " +:+ n_str limitPct +:+ "%.") (Some limitStr) (Some actualStr))
  else
    Ret (passed CHECK (DrawdownPeriod_str period +:+ " drawdown is " +:+ d_toFixedN 2 current +:+ "%, within limit of " +:+ n_str limitPct +:+ "%.") (Some limitStr) (Some actualStr)).

Definition checkPriceStaleness (lastPriceUpdate now : Z) (limits : RiskLimits) : exn RiskCheckResult :=
  let CHECK := "price_staleness" in
  let ageMs := now - lastPriceUpdate in
  let ageSec := d_div (dec_of_Z ageMs) (dec_of_Z 1000) in
  let maxAgeSec := dec_of_num (maxPriceAgeSec limits) in
  let actualStr := d_toFixedN 3 ageSec in
  let limitStr := d_toFixedN 3 maxAgeSec in
  if d_gt ageSec maxAgeSec then
    Ret (failed CHECK ("Price data is " +:+ d_toFixedN 1 ageSec +:+ "s old, exceeding stale threshold of " +:+ n_str (maxPriceAgeSec limits) +:+ "s.") (Some limitStr) (Some actualStr))
  else
  factor ← dec_of_string "0.80";
  if d_gt ageSec (d_times maxAgeSec factor) then
    Ret (warning CHECK ("Price data is " +:+ d_toFixedN 1 ageSec +:+ "s old, approaching stale threshold of " +:+ n_str (maxPriceAgeSec limits) +:+ "s.") (Some limitStr) (Some actualStr))
  else
    Ret (passed CHECK ("Price data is " +:+ d_toFixedN 1 ageSec +:+ "s old, within stale threshold of " +:+ n_str (maxPriceAgeSec limits) +:+ "s.") (Some limitStr) (Some actualStr)).

Definition checkPositionSize (newPositionSize sleeveNav : string) (limits : RiskLimits) : exn RiskCheckResult :=
  let CHECK := "position_size" in
  size ← dec_of_string newPositionSize;
  nav ← dec_of_string sleeveNav;
  let limitPct := dec_of_num (maxPositionSizePct limits) in
  if d_isZero nav then
    Ret (failed CHECK "Sleeve NAV is zero; cannot assess position size." (Some (d_toFixed limitPct)) None)
  else
  let sizePct := pct size nav in
  let actualStr := d_toFixedN 4 sizePct in
  let limitStr := d_toFixedN 4 limitPct in
  if d_gt sizePct limitPct then
    Ret (failed CHECK ("Position size is " +:+ d_toFixedN 2 sizePct +:+ "% of sleeve NAV, exceeding limit of " +:+ n_str (maxPositionSizePct limits) +:+ "%.") (Some limitStr) (Some actualStr))
  else
  factor ← WARNING_FACTOR;
  if d_gt sizePct (d_times limitPct factor) then
    Ret (warning CHECK ("Position size is " +:+ d_toFixedN 2 sizePct +:+ "% of sleeve NAV, approaching limit of " +:+ n_str (maxPositionSizePct limits) +:+ "%.") (Some limitStr) (Some actualStr))
  else
    Ret (passed CHECK ("Position size is " +:+ d_toFixedN 2 sizePct +:+ "% of sleeve NAV, within limit of " +:+ n_str (maxPositionSizePct limits) +:+ "%.") (Some limitStr) (Some actualStr)).

End Checks.

(** ** Properties *)

(** How restrictive a status is. *)
Definition severity (s : RiskCheckStatus) : Z :=
  match s with passed_ => 0 | warning_ => 1 | failed_ => 2 end.

Section CheckFacts.
Context `{DLaws : DecimalLaws}.

(** The status of a check whose metric must stay below its limit. *)
Definition over_status (metric limit warn : dec) : RiskCheckStatus :=
  if d_gt metric limit then failed_ else if d_gt metric warn then warning_ else passed_.
(** The status of a check whose metric must stay above its limit. *)
Definition under_status (metric limit warn : dec) : RiskCheckStatus :=
  if d_lt metric limit then failed_ else if d_lt metric warn then warning_ else passed_.

Lemma WARNING_FACTOR_ret : exists w, WARNING_FACTOR = Ret w /\ is_fin w (90 # 100).
Proof. by apply literal_parses. Qed.

Lemma over_status_mono m1 m2 limit warn :
  dv_le (dval m1) (dval m2) = true ->
  severity (over_status m1 limit warn) <= severity (over_status m2 limit warn).
Proof.
  intros Hle. unfold over_status. rewrite !d_gt_val.
  destruct (dv_lt (dval limit) (dval m1)) eqn:E1.
  - by rewrite (dv_lt_le_trans _ _ _ E1 Hle).
  - destruct (dv_lt (dval warn) (dval m1)) eqn:E2.
    + rewrite (dv_lt_le_trans _ _ _ E2 Hle). by destruct (dv_lt (dval limit) (dval m2)).
    + by destruct (dv_lt (dval limit) (dval m2)), (dv_lt (dval warn) (dval m2)).
Qed.

Lemma under_status_mono m1 m2 limit warn :
  dv_le (dval m2) (dval m1) = true ->
  severity (under_status m1 limit warn) <= severity (under_status m2 limit warn).
Proof.
  intros Hle. unfold under_status. rewrite !d_lt_val.
  destruct (dv_lt (dval m1) (dval limit)) eqn:E1.
  - by rewrite (dv_le_lt_trans _ _ _ Hle E1).
  - destruct (dv_lt (dval m1) (dval warn)) eqn:E2.
    + rewrite (dv_le_lt_trans _ _ _ Hle E2). by destruct (dv_lt (dval m2) (dval limit)).
    + by destruct (dv_lt (dval m2) (dval limit)), (dv_lt (dval m2) (dval warn)).
Qed.

Lemma over_status_sound m limit warn :
  over_status m limit warn <> failed_ -> dv_lt (dval limit) (dval m) = false.
Proof. unfold over_status. rewrite !d_gt_val. by destruct (dv_lt _ _). Qed.

Lemma pct_mono a b whole q :
  is_fin whole q -> (0 < q)%Q -> dv_le (dval a) (dval b) = true ->
  dv_le (dval (pct a whole)) (dval (pct b whole)) = true.
Proof.
  intros Hw Hq Hab. unfold pct. eapply d_times_mono; [by apply (d_of_int 100)|done|].
  by eapply d_div_mono.
Qed.

Lemma isZero_pos d q : is_fin d q -> (0 < q)%Q -> d_isZero d = false.
Proof.
  intros Hd Hq. rewrite (d_isZero_fin _ _ Hd). apply not_true_iff_false.
  rewrite Qeq_bool_iff. lra.
Qed.

(** *** Each check, once its strings have parsed *)

Lemma checkGrossExposure_eq g s nav gd sd nd w limits :
  dec_of_string g = Ret gd -> dec_of_string s = Ret sd -> dec_of_string nav = Ret nd ->
  WARNING_FACTOR = Ret w -> d_isZero nd = false ->
  exists r, checkGrossExposure g s nav limits = Ret r /\
    rcr_status r = over_status (pct (d_plus gd sd) nd) (dec_of_num (maxGrossExposurePct limits))
                     (d_times (dec_of_num (maxGrossExposurePct limits)) w).
Proof.
  intros Hg Hs Hn Hw Hz. unfold checkGrossExposure, over_status.
  rewrite Hg; cbn [mbind exn_bind]. rewrite Hs; cbn [mbind exn_bind]. rewrite Hn; cbn [mbind exn_bind].
  rewrite Hz, Hw. cbn [mbind exn_bind].
  destruct (d_gt _ _); [by eexists|]. destruct (d_gt _ _); by eexists.
Qed.

Lemma checkLeverage_eq g s nav gd sd nd w limits :
  dec_of_string g = Ret gd -> dec_of_string s = Ret sd -> dec_of_string nav = Ret nd ->
  WARNING_FACTOR = Ret w -> d_isZero nd = false ->
  exists r, checkLeverage g s nav limits = Ret r /\
    rcr_status r = over_status (d_div (d_plus gd sd) nd) (dec_of_num (maxLeverage limits))
                     (d_times (dec_of_num (maxLeverage limits)) w).
Proof.
  intros Hg Hs Hn Hw Hz. unfold checkLeverage, over_status.
  rewrite Hg; cbn [mbind exn_bind]. rewrite Hs; cbn [mbind exn_bind]. rewrite Hn; cbn [mbind exn_bind].
  rewrite Hz, Hw. cbn [mbind exn_bind].
  destruct (d_gt _ _); [by eexists|]. destruct (d_gt _ _); by eexists.
Qed.

Lemma checkPositionSize_eq s nav sd nd w limits :
  dec_of_string s = Ret sd -> dec_of_string nav = Ret nd ->
  WARNING_FACTOR = Ret w -> d_isZero nd = false ->
  exists r, checkPositionSize s nav limits = Ret r /\
    rcr_status r = over_status (pct sd nd) (dec_of_num (maxPositionSizePct limits))
                     (d_times (dec_of_num (maxPositionSizePct limits)) w).
Proof.
  intros Hs Hn Hw Hz. unfold checkPositionSize, over_status.
  rewrite Hs; cbn [mbind exn_bind]. rewrite Hn; cbn [mbind exn_bind].
  rewrite Hz, Hw. cbn [mbind exn_bind].
  destruct (d_gt _ _); [by eexists|]. destruct (d_gt _ _); by eexists.
Qed.

Lemma checkLiquidityReserve_eq res m nav rd md nd w limits :
  dec_of_string res = Ret rd -> dec_of_string m = Ret md -> dec_of_string nav = Ret nd ->
  dec_of_string "1.20" = Ret w -> d_isZero nd = false ->
  exists r, checkLiquidityReserve res m nav limits = Ret r /\
    rcr_status r = under_status (pct (d_minus rd md) nd) (dec_of_num (minLiquidityReservePct limits))
                     (d_times (dec_of_num (minLiquidityReservePct limits)) w).
Proof.
  intros Hr Hm Hn Hw Hz. unfold checkLiquidityReserve, under_status.
  rewrite Hr; cbn [mbind exn_bind]. rewrite Hm; cbn [mbind exn_bind]. rewrite Hn; cbn [mbind exn_bind].
  rewrite Hz, Hw. cbn [mbind exn_bind].
  destruct (d_lt _ _); [by eexists|]. destruct (d_lt _ _); by eexists.
Qed.

(** A larger order never looks safer: with a positive NAV, growing the
    order size (and, for the reserve, the required margin) never lowers the
    severity of the gross-exposure, leverage, position-size and
    liquidity-reserve checks, decimal rounding included. *)
Theorem larger_order_never_safer (limits : RiskLimits) (g s1 s2 nav res : string)
    (qg q1 q2 qn qr : Q)
    (Hg : parses g qg) (H1 : parses s1 q1) (H2 : parses s2 q2) (Hn : parses nav qn)
    (Hr : parses res qr) (Hle : (q1 <= q2)%Q) (Hpos : (0 < qn)%Q) :
  (exists r1 r2, checkGrossExposure g s1 nav limits = Ret r1 /\
     checkGrossExposure g s2 nav limits = Ret r2 /\
     severity (rcr_status r1) <= severity (rcr_status r2)) /\
  (exists r1 r2, checkLeverage g s1 nav limits = Ret r1 /\
     checkLeverage g s2 nav limits = Ret r2 /\
     severity (rcr_status r1) <= severity (rcr_status r2)) /\
  (exists r1 r2, checkPositionSize s1 nav limits = Ret r1 /\
     checkPositionSize s2 nav limits = Ret r2 /\
     severity (rcr_status r1) <= severity (rcr_status r2)) /\
  (exists r1 r2, checkLiquidityReserve res s1 nav limits = Ret r1 /\
     checkLiquidityReserve res s2 nav limits = Ret r2 /\
     severity (rcr_status r1) <= severity (rcr_status r2)).
Proof.
  destruct Hg as (gd & Hg & Fg), H1 as (d1 & H1 & F1), H2 as (d2 & H2 & F2),
    Hn as (nd & Hn & Fn), Hr as (rd & Hr & Fr), WARNING_FACTOR_ret as (w & Hw & _),
    (literal_parses "1.20" (120 # 100) eq_refl) as (w' & Hw' & _).
  pose proof (isZero_pos _ _ Fn Hpos) as Hz.
  pose proof (d_plus_mono _ _ _ _ _ _ F1 F2 Fg Hle) as Hsum.
  assert (Hle' : dv_le (dval d1) (dval d2) = true).
  { unfold is_fin in F1, F2. rewrite F1, F2. dv_solve. }
  split_and!.
  - destruct (checkGrossExposure_eq _ _ _ _ _ _ _ limits Hg H1 Hn Hw Hz) as (r1 & E1 & S1).
    destruct (checkGrossExposure_eq _ _ _ _ _ _ _ limits Hg H2 Hn Hw Hz) as (r2 & E2 & S2).
    exists r1, r2. split_and!; try done. rewrite S1, S2. by eapply over_status_mono, pct_mono.
  - destruct (checkLeverage_eq _ _ _ _ _ _ _ limits Hg H1 Hn Hw Hz) as (r1 & E1 & S1).
    destruct (checkLeverage_eq _ _ _ _ _ _ _ limits Hg H2 Hn Hw Hz) as (r2 & E2 & S2).
    exists r1, r2. split_and!; try done. rewrite S1, S2. by eapply over_status_mono, d_div_mono.
  - destruct (checkPositionSize_eq _ _ _ _ _ limits H1 Hn Hw Hz) as (r1 & E1 & S1).
    destruct (checkPositionSize_eq _ _ _ _ _ limits H2 Hn Hw Hz) as (r2 & E2 & S2).
    exists r1, r2. split_and!; try done. rewrite S1, S2. by eapply over_status_mono, pct_mono.
  - destruct (checkLiquidityReserve_eq _ _ _ _ _ _ _ limits Hr H1 Hn Hw' Hz) as (r1 & E1 & S1).
    destruct (checkLiquidityReserve_eq _ _ _ _ _ _ _ limits Hr H2 Hn Hw' Hz) as (r2 & E2 & S2).
    exists r1, r2. split_and!; try done. rewrite S1, S2.
    eapply under_status_mono, pct_mono; [done|done|].
    rewrite (d_minus_fin _ _ _ _ Fr F1), (d_minus_fin _ _ _ _ Fr F2). apply d_rnd_mono. lra.
Qed.

(** Price staleness is decided on exact milliseconds: with a limit of
    [z] whole seconds the check fails exactly when the tick is more than
    [1000 * z] ms old, and warns exactly above [800 * z] ms. *)
Theorem checkPriceStaleness_exact (limits : RiskLimits) (last now z : Z)
    (Hz : maxPriceAgeSec limits = num_of_Z z) (Hb : 0 <= z < 2 ^ 40)
    (Ha : Z.abs (now - last) < 2 ^ 53) :
  exists r, checkPriceStaleness last now limits = Ret r /\
    rcr_status r = if 1000 * z <? now - last then failed_
                   else if 800 * z <? now - last then warning_ else passed_.
Proof.
  destruct (literal_parses "0.80" (80 # 100) eq_refl) as (w & Hw & Fw).
  unfold checkPriceStaleness. rewrite Hz, Hw. cbn [mbind exn_bind].
  fold (dec_of_Z z). set (age := now - last) in *.
  assert (Fa : is_fin (d_div (dec_of_Z age) (dec_of_Z 1000)) (Qmake age 1000)).
  { unfold is_fin. rewrite (d_div_fin _ _ (inject_Z age) (inject_Z 1000));
      [|by apply d_of_int|by apply d_of_int|by intros ?].
    etrans; [apply d_rnd_proper|apply (d_rnd_exact age 3); lia]. unfold Qeq, Qdiv, Qmult, Qinv; cbn; lia. }
  assert (Fz : is_fin (dec_of_Z z) (inject_Z z)) by (apply d_of_int; lia).
  assert (Fm : is_fin (d_times (dec_of_Z z) w) (Qmake (80 * z) 100)).
  { unfold is_fin. rewrite (d_times_fin _ _ _ _ Fz Fw).
    etrans; [apply d_rnd_proper|apply (d_rnd_exact (80 * z) 2); lia]. unfold Qeq, Qdiv, Qmult, Qinv; cbn. lia. }
  rewrite !(d_gt_fin _ _ _ _ Fa Fz), !(d_gt_fin _ _ _ _ Fa Fm).
  replace (1000 * z <? age) with (Qltb (inject_Z z) (age # 1000)).
  2: { apply eq_true_iff_eq. rewrite Qltb_spec, Z.ltb_lt. unfold Qlt; cbn [Qnum Qden inject_Z]; lia. }
  replace (800 * z <? age) with (Qltb (80 * z # 100) (age # 1000)).
  2: { apply eq_true_iff_eq. rewrite Qltb_spec, Z.ltb_lt. unfold Qlt; cbn [Qnum Qden inject_Z]; lia. }
  destruct (Qltb (inject_Z z) _); [by eexists|]. destruct (Qltb _ _); by eexists.
Qed.
End CheckFacts.
