(* ===== verification/CircuitBreakers.v ===== *)
(** * Circuit breakers (packages/risk-engine: circuit-breakers.ts)

    The registry of [src/packages/risk-engine/src/circuit-breakers.ts]: its
    state is the insertion-ordered [Map] of breakers, every method is a
    definition, and the mutating ones form a labelled transition system whose
    reachable states satisfy [wf].  Clock readings ([new Date()]) are
    arguments. *)
From S2P Require Import Prelude JsNumber JsValue Domain RiskChecks.
Open Scope Z_scope.

Inductive CircuitBreakerName :=
| daily_drawdown | weekly_drawdown | portfolio_drawdown
| venue_failure | data_staleness | execution_failure_rate.
#[export] Instance CircuitBreakerName_eq_dec : EqDecision CircuitBreakerName.
Proof. solve_decision. Defined.

Definition CircuitBreakerName_str (n : CircuitBreakerName) : string :=
  match n with
  | daily_drawdown => "daily_drawdown" | weekly_drawdown => "weekly_drawdown"
  | portfolio_drawdown => "portfolio_drawdown" | venue_failure => "venue_failure"
  | data_staleness => "data_staleness" | execution_failure_rate => "execution_failure_rate"
  end.

Record CircuitBreaker := MkCircuitBreaker {
  cb_name : CircuitBreakerName;
  cb_state : CircuitBreakerState;
  cb_tripCondition : string;
  cb_trippedAt : option Z;
  cb_resetAt : option Z;
  cb_autoResetAfterMs : option Z;
  cb_tripCount : Z;
}.

Definition defaultAutoResetMs (name : CircuitBreakerName) : option Z :=
  match name with
  | daily_drawdown => Some (24 * 60 * 60 * 1000)
  | weekly_drawdown => None
  | portfolio_drawdown => None
  | venue_failure => Some (15 * 60 * 1000)
  | data_staleness => Some (5 * 60 * 1000)
  | execution_failure_rate => Some (30 * 60 * 1000)
  end.

Definition defaultTripCondition (name : CircuitBreakerName) (limits : RiskLimits) : string :=
  match name with
  | daily_drawdown => "Daily drawdown exceeds " +:+ n_str (maxDailyDrawdownPct limits) +:+ "% of NAV"
  | weekly_drawdown => "Weekly drawdown exceeds " +:+ n_str (maxWeeklyDrawdownPct limits) +:+ "% of NAV"
  | portfolio_drawdown =>
      "Portfolio peak-to-trough drawdown exceeds " +:+ n_str (maxPortfolioDrawdownPct limits) +:+ "% of NAV"
  | venue_failure => "Venue API is returning persistent errors or is unreachable"
  | data_staleness =>
      "Market data is stale beyond " +:+ n_str (maxPriceAgeSec limits) +:+ "s price or " +:+
      n_str (maxFundingRateAgeSec limits) +:+ "s funding-rate threshold"
  | execution_failure_rate => "Order execution failure rate has exceeded acceptable bounds"
  end.

(** The [breakers] field of [CircuitBreakerRegistry]. *)
Definition Registry : Type := list (CircuitBreakerName * CircuitBreaker).

Definition breaker_names : list CircuitBreakerName :=
  [daily_drawdown; weekly_drawdown; portfolio_drawdown; venue_failure; data_staleness;
   execution_failure_rate].

Definition initial_breaker (limits : RiskLimits) (name : CircuitBreakerName) : CircuitBreaker := {|
  cb_name := name;
  cb_state := closed;
  cb_tripCondition := defaultTripCondition name limits;
  cb_trippedAt := None;
  cb_resetAt := None;
  cb_autoResetAfterMs := defaultAutoResetMs name;
  cb_tripCount := 0;
|}.

(** [new CircuitBreakerRegistry(limits)]. *)
Definition new_CircuitBreakerRegistry (limits : RiskLimits) : Registry :=
  foldl (fun m name => jm_set name (initial_breaker limits name) m) [] breaker_names.

Definition getAll (r : Registry) : Registry := r.

Definition get (name : CircuitBreakerName) (r : Registry) : exn CircuitBreaker :=
  match jm_get name r with
  | None => Throw (Error_ ("CircuitBreaker '" +:+ CircuitBreakerName_str name +:+ "' is not registered."))
  | Some breaker => Ret breaker
  end.

Definition is_open (b : CircuitBreaker) : bool := bool_decide (cb_state b = open).

Definition isAnyOpen (r : Registry) : bool := existsb is_open (jm_values r).
Definition getOpenBreakers (r : Registry) : list CircuitBreaker := List.filter is_open (jm_values r).

Definition trip (name : CircuitBreakerName) (reason : string) (now : Z) : eff Registry CircuitBreaker :=
  fun r =>
    match get name r with
    | Throw e => (Throw e, r)
    | Ret existing =>
        let autoResetAfterMs := cb_autoResetAfterMs existing in
        let resetAt := match autoResetAfterMs with Some ms => Some (now + ms) | None => None end in
        let updated := {|
          cb_name := cb_name existing;
          cb_state := open;
          cb_tripCondition := cb_tripCondition existing;
          cb_trippedAt := Some now;
          cb_resetAt := resetAt;
          cb_autoResetAfterMs := cb_autoResetAfterMs existing;
          cb_tripCount := cb_tripCount existing + 1;
        |} in
        (Ret updated, jm_set name updated r)
    end.

(** The record both [reset] and [confirmReset] write. *)
Definition reset_breaker (existing : CircuitBreaker) : CircuitBreaker := {|
  cb_name := cb_name existing;
  cb_state := closed;
  cb_tripCondition := cb_tripCondition existing;
  cb_trippedAt := None;
  cb_resetAt := None;
  cb_autoResetAfterMs := cb_autoResetAfterMs existing;
  cb_tripCount := cb_tripCount existing;
|}.

Definition reset (name : CircuitBreakerName) : eff Registry CircuitBreaker :=
  fun r =>
    match get name r with
    | Throw e => (Throw e, r)
    | Ret existing =>
        let updated := reset_breaker existing in
        (Ret updated, jm_set name updated r)
    end.

Definition half_open_breaker (breaker : CircuitBreaker) : CircuitBreaker := {|
  cb_name := cb_name breaker;
  cb_state := half_open;
  cb_tripCondition := cb_tripCondition breaker;
  cb_trippedAt := cb_trippedAt breaker;
  cb_resetAt := cb_resetAt breaker;
  cb_autoResetAfterMs := cb_autoResetAfterMs breaker;
  cb_tripCount := cb_tripCount breaker;
|}.

(** One iteration of the loop of [evaluateAutoResets]. *)
Definition evaluate_one (now : Z) (acc : Registry * list CircuitBreaker) (breaker : CircuitBreaker)
    : Registry * list CircuitBreaker :=
  if negb (bool_decide (cb_state breaker = open)) then acc
  else match cb_resetAt breaker with
       | None => acc
       | Some resetAt =>
           if resetAt <=? now then
             let updated := half_open_breaker breaker in
             (jm_set (cb_name breaker) updated acc.1, acc.2 ++ [updated])
           else acc
       end.

(** The values iterated over are those at the start: the loop only replaces
    the value it is visiting. *)
Definition evaluateAutoResets (now : Z) : eff Registry (list CircuitBreaker) :=
  fun r =>
    let '(r', changed) := foldl (evaluate_one now) (r, []) (jm_values r) in
    (Ret changed, r').

Definition confirmReset (name : CircuitBreakerName) : eff Registry CircuitBreaker :=
  fun r =>
    match get name r with
    | Throw e => (Throw e, r)
    | Ret existing =>
        if negb (bool_decide (cb_state existing = half_open)) then (Ret existing, r)
        else
          let updated := reset_breaker existing in
          (Ret updated, jm_set name updated r)
    end.

(** ** The transition system *)

Inductive cb_op :=
| OpTrip (name : CircuitBreakerName) (reason : string) (now : Z)
| OpReset (name : CircuitBreakerName)
| OpEvaluate (now : Z)
| OpConfirm (name : CircuitBreakerName).
#[export] Instance cb_op_eq_dec : EqDecision cb_op.
Proof. solve_decision. Defined.

Definition run_op (op : cb_op) (r : Registry) : Registry :=
  match op with
  | OpTrip name reason now => (trip name reason now r).2
  | OpReset name => (reset name r).2
  | OpEvaluate now => (evaluateAutoResets now r).2
  | OpConfirm name => (confirmReset name r).2
  end.

Inductive reachable (limits : RiskLimits) : Registry -> Prop :=
| reach_init : reachable limits (new_CircuitBreakerRegistry limits)
| reach_step op r : reachable limits r -> reachable limits (run_op op r).

(** A breaker as the registry keeps it under [name]. *)
Definition wf_breaker (limits : RiskLimits) (name : CircuitBreakerName) (b : CircuitBreaker) : Prop :=
  cb_name b = name /\
  cb_tripCondition b = defaultTripCondition name limits /\
  cb_autoResetAfterMs b = defaultAutoResetMs name /\
  0 <= cb_tripCount b /\
  match cb_state b with
  | closed => cb_trippedAt b = None /\ cb_resetAt b = None
  | open | half_open =>
      0 < cb_tripCount b /\
      exists t, cb_trippedAt b = Some t /\
        cb_resetAt b = match defaultAutoResetMs name with Some ms => Some (t + ms) | None => None end
  end /\
  (cb_state b = half_open -> defaultAutoResetMs name <> None).

Definition wf (limits : RiskLimits) (r : Registry) : Prop :=
  jm_keys r = breaker_names /\
  forall name b, jm_get name r = Some b -> wf_breaker limits name b.

(** ** Lemmas *)

Lemma names_NoDup : NoDup breaker_names.
Proof. by apply (bool_decide_unpack _). Qed.

Lemma wf_get limits r name : wf limits r -> exists b, jm_get name r = Some b.
Proof.
  intros [Hk _]. apply jm_get_keys. rewrite Hk. destruct name; by apply (bool_decide_unpack _).
Qed.

Lemma wf_set limits r name b :
  wf limits r -> wf_breaker limits name b -> wf limits (jm_set name b r).
Proof.
  intros Hwf Hb. destruct (wf_get _ _ name Hwf) as [b0 Hb0]. destruct Hwf as [Hk Hr]. split.
  - rewrite jm_keys_set_present; [done|by eexists].
  - intros n b'. rewrite jm_get_set. case_decide; [by intros [= <-]; subst|]. apply Hr.
Qed.

(** What [evaluateAutoResets] does to one breaker. *)
Definition evaluated (now : Z) (b : CircuitBreaker) : CircuitBreaker :=
  if bool_decide (cb_state b = open) && 
     match cb_resetAt b with Some t => t <=? now | None => false end
  then half_open_breaker b else b.

Lemma evaluate_one_get now acc b n :
  jm_get (cb_name b) acc.1 = Some b ->
  jm_get n (evaluate_one now acc b).1 =
    if decide (n = cb_name b) then Some (evaluated now b) else jm_get n acc.1.
Proof.
  intros Hb. unfold evaluate_one, evaluated.
  destruct (bool_decide (cb_state b = open)); cbn [negb andb]; [|by case_decide; subst].
  destruct (cb_resetAt b) as [t|]; [|by case_decide; subst].
  destruct (t <=? now); [|by case_decide; subst]. cbn [fst]. apply jm_get_set.
Qed.

Lemma evaluate_fold now l : forall acc,
  NoDup (cb_name <$> l) ->
  (forall b, b ∈ l -> jm_get (cb_name b) acc.1 = Some b) ->
  forall n, jm_get n (foldl (evaluate_one now) acc l).1 =
    if decide (n ∈ cb_name <$> l) then evaluated now <$> jm_get n acc.1 else jm_get n acc.1.
Proof.
  induction l as [|b l IH]; intros acc Hnd Hin n; cbn [foldl fmap list_fmap].
  - case_decide as Hd; [inversion Hd|done].
  - cbn [fmap list_fmap] in Hnd. apply NoDup_cons in Hnd as [Hb Hnd].
    assert (Hgb : jm_get (cb_name b) acc.1 = Some b) by (apply Hin; left).
    rewrite IH; [|done|].
    + rewrite evaluate_one_get by done.
      destruct (decide (n = cb_name b)) as [->|Hn].
      * rewrite decide_False by done. rewrite decide_True by left. by rewrite Hgb.
      * destruct (decide (n ∈ cb_name <$> l)).
        -- by rewrite decide_True by (by right).
        -- by rewrite decide_False by (intros [?|?]%elem_of_cons; done).
    + intros b' Hb'. rewrite evaluate_one_get by done. rewrite decide_False.
      * apply Hin. by right.
      * intros Heq. apply Hb. rewrite <- Heq. by apply list_elem_of_fmap_2.
Qed.

Lemma wf_values_names limits r : wf limits r -> cb_name <$> jm_values r = breaker_names.
Proof.
  intros [Hk Hr]. rewrite <- Hk. unfold jm_keys, jm_values. rewrite <- list_fmap_compose.
  apply list_fmap_ext. intros i [n b] Hi. cbn.
  apply (Hr n b). apply jm_In_get; [by rewrite Hk; apply names_NoDup|].
  by eapply list_elem_of_lookup_2.
Qed.

Lemma wf_value_get limits r b : wf limits r -> b ∈ jm_values r -> jm_get (cb_name b) r = Some b.
Proof.
  intros [Hk Hr] Hb. apply list_elem_of_fmap in Hb as ([n b'] & -> & Hin). cbn.
  assert (Hg : jm_get n r = Some b') by (apply jm_In_get; [by rewrite Hk; apply names_NoDup|done]).
  destruct (Hr n b' Hg) as (-> & _). done.
Qed.

(** The registry after [evaluateAutoResets], breaker by breaker. *)
Lemma evaluate_get limits now r n :
  wf limits r -> jm_get n (evaluateAutoResets now r).2 = evaluated now <$> jm_get n r.
Proof.
  intros Hwf. unfold evaluateAutoResets.
  destruct (foldl (evaluate_one now) (r, []) (jm_values r)) as [r' ch] eqn:E.
  pose proof (evaluate_fold now (jm_values r) (r, [])) as H. rewrite E in H. cbn [fst snd] in *.
  rewrite H.
  - rewrite decide_True; [done|]. rewrite (wf_values_names _ _ Hwf).
    destruct n; by apply (bool_decide_unpack _).
  - rewrite (wf_values_names _ _ Hwf). apply names_NoDup.
  - intros b. by apply wf_value_get with limits.
Qed.

Lemma evaluate_keys now l : forall acc,
  (forall b, b ∈ l -> is_Some (jm_get (cb_name b) acc.1)) ->
  jm_keys (foldl (evaluate_one now) acc l).1 = jm_keys acc.1.
Proof.
  induction l as [|b l IH]; intros acc Hin; cbn [foldl]; [done|].
  assert (Hone : jm_keys (evaluate_one now acc b).1 = jm_keys acc.1 /\
    forall n, is_Some (jm_get n acc.1) -> is_Some (jm_get n (evaluate_one now acc b).1)).
  { unfold evaluate_one. destruct (negb _); [done|]. destruct (cb_resetAt b); [|done].
    destruct (_ <=? _); [|done]. cbn [fst]. split.
    - apply jm_keys_set_present. apply Hin. left.
    - intros n Hn. rewrite jm_get_set. case_decide; eauto. }
  destruct Hone as [Hk Hs]. rewrite IH; [done|]. intros b' Hb'. apply Hs, Hin. by right.
Qed.

Lemma wf_evaluated limits name now b :
  wf_breaker limits name b -> wf_breaker limits name (evaluated now b).
Proof.
  intros Hb. unfold evaluated. destruct (bool_decide (cb_state b = open)) eqn:Eo; cbn [andb]; [|done].
  apply bool_decide_eq_true in Eo. destruct (cb_resetAt b) as [t|] eqn:Er; [|done].
  destruct (t <=? now); [|done].
  destruct Hb as (Hn & Hc & Ha & Ht & Hs & _). rewrite Eo in Hs.
  destruct Hs as (Hp & t' & Htr & Hre).
  unfold wf_breaker, half_open_breaker; cbn. split_and!; try done.
  - by exists t'.
  - intros _ Hd. rewrite Hd in Hre. congruence.
Qed.

Lemma wf_evaluate limits now r : wf limits r -> wf limits (evaluateAutoResets now r).2.
Proof.
  intros Hwf. split.
  - unfold evaluateAutoResets.
    destruct (foldl (evaluate_one now) (r, []) (jm_values r)) as [r' ch] eqn:E.
    pose proof (evaluate_keys now (jm_values r) (r, [])) as H. rewrite E in H. cbn [fst snd] in *.
    rewrite H; [apply Hwf|]. intros b Hb. rewrite (wf_value_get limits r b) by done. by eexists.
  - intros n b. rewrite (evaluate_get limits) by done.
    destruct (jm_get n r) as [b0|] eqn:E; [|done]. cbn. intros [= <-].
    apply wf_evaluated. by apply Hwf.
Qed.

Lemma wf_reset_breaker limits name b :
  wf_breaker limits name b -> wf_breaker limits name (reset_breaker b).
Proof. intros (Hn & Hc & Ha & Ht & _). by unfold wf_breaker, reset_breaker. Qed.

Lemma wf_initial limits name : wf_breaker limits name (initial_breaker limits name).
Proof. by unfold wf_breaker, initial_breaker. Qed.

Lemma wf_trip_breaker limits name b now :
  wf_breaker limits name b ->
  wf_breaker limits name {| cb_name := cb_name b; cb_state := open;
    cb_tripCondition := cb_tripCondition b; cb_trippedAt := Some now;
    cb_resetAt := match cb_autoResetAfterMs b with Some ms => Some (now + ms) | None => None end;
    cb_autoResetAfterMs := cb_autoResetAfterMs b; cb_tripCount := cb_tripCount b + 1 |}.
Proof.
  intros (Hn & Hc & Ha & Ht & _). unfold wf_breaker; cbn. rewrite Ha.
  split_and!; try done; try lia. by eexists.
Qed.

Lemma reachable_wf (limits : RiskLimits) (r : Registry) : reachable limits r -> wf limits r.
Proof.
  intros Hr. induction Hr as [|op r Hr IH].
  - split; [done|]. intros name b Hb.
    assert (jm_get name (new_CircuitBreakerRegistry limits) = Some (initial_breaker limits name)) as E
      by (destruct name; reflexivity).
    rewrite E in Hb. injection Hb as <-. apply wf_initial.
  - destruct op as [name reason now|name|now|name]; cbn [run_op].
    + unfold trip, get. destruct (wf_get _ _ name IH) as [b Hb]. rewrite Hb. cbn [snd].
      apply wf_set; [done|]. by apply wf_trip_breaker, IH.
    + unfold reset, get. destruct (wf_get _ _ name IH) as [b Hb]. rewrite Hb. cbn [snd].
      apply wf_set; [done|]. by apply wf_reset_breaker, IH.
    + by apply wf_evaluate.
    + unfold confirmReset, get. destruct (wf_get _ _ name IH) as [b Hb]. rewrite Hb.
      destruct (negb _); [done|]. cbn [snd]. apply wf_set; [done|]. by apply wf_reset_breaker, IH.
Qed.

(** ** One breaker at a time *)

(** What a registry operation does to the breaker kept under [n]. *)
Definition op_effect (limits : RiskLimits) (op : cb_op) (n : CircuitBreakerName) (b : CircuitBreaker)
    : CircuitBreaker :=
  match op with
  | OpTrip name _ now =>
      if decide (name = n) then
        {| cb_name := n; cb_state := open; cb_tripCondition := defaultTripCondition n limits;
           cb_trippedAt := Some now;
           cb_resetAt := match defaultAutoResetMs n with Some ms => Some (now + ms) | None => None end;
           cb_autoResetAfterMs := defaultAutoResetMs n; cb_tripCount := cb_tripCount b + 1 |}
      else b
  | OpReset name => if decide (name = n) then reset_breaker b else b
  | OpEvaluate now => evaluated now b
  | OpConfirm name =>
      if decide (name = n /\ cb_state b = half_open) then reset_breaker b else b
  end.

Lemma run_op_get limits op r n b :
  wf limits r -> jm_get n r = Some b ->
  jm_get n (run_op op r) = Some (op_effect limits op n b).
Proof.
  intros Hwf Hb. destruct op as [name reason now|name|now|name]; cbn [run_op op_effect].
  - unfold trip, get. destruct (wf_get _ _ name Hwf) as [b' Hb']. rewrite Hb'. cbn [snd].
    rewrite jm_get_set. destruct (decide (name = n)) as [->|Hne].
    + rewrite decide_True by done. assert (b' = b) as -> by congruence.
      destruct (proj2 Hwf n b Hb) as (-> & -> & -> & _). done.
    + by rewrite decide_False by done.
  - unfold reset, get. destruct (wf_get _ _ name Hwf) as [b' Hb']. rewrite Hb'. cbn [snd].
    rewrite jm_get_set. destruct (decide (name = n)) as [->|Hne].
    + rewrite decide_True by done. by assert (b' = b) as -> by congruence.
    + by rewrite decide_False by done.
  - rewrite (evaluate_get limits) by done. by rewrite Hb.
  - unfold confirmReset, get. destruct (wf_get _ _ name Hwf) as [b' Hb']. rewrite Hb'.
    destruct (decide (name = n)) as [->|Hne].
    + assert (b' = b) as -> by congruence.
      destruct (bool_decide (cb_state b = half_open)) eqn:E; cbn [negb snd].
      * apply bool_decide_eq_true in E. rewrite decide_True by done. apply jm_get_set_eq.
      * apply bool_decide_eq_false in E. rewrite decide_False by tauto. done.
    + rewrite decide_False by tauto. destruct (negb _); [done|]. cbn [snd].
      by rewrite jm_get_set_ne by congruence.
Qed.

Lemma run_ops_reachable limits ops : forall r,
  reachable limits r -> reachable limits (foldl (fun r op => run_op op r) r ops).
Proof. induction ops as [|op ops IH]; intros r Hr; cbn; [done|]. apply IH. by constructor. Qed.

(** An invariant of one breaker, preserved by the operations of [ops]. *)
Lemma run_ops_inv limits n (P : CircuitBreaker -> Prop) ops : forall r b,
  reachable limits r -> jm_get n r = Some b -> P b ->
  (forall op b, op ∈ ops -> wf_breaker limits n b -> P b -> P (op_effect limits op n b)) ->
  exists b', jm_get n (foldl (fun r op => run_op op r) r ops) = Some b' /\ P b'.
Proof.
  induction ops as [|op ops IH]; intros r b Hr Hb HP Hstep; cbn; [by exists b|].
  assert (Hwf : wf limits r) by by apply reachable_wf.
  eapply IH.
  - by constructor.
  - by apply run_op_get.
  - apply Hstep; [left| |done]. by apply Hwf.
  - intros. apply Hstep; [by right| |]; done.
Qed.

(** ** Properties *)

(** Every state of the circuit-breaker registry reachable from the
    constructor by [trip], [reset], [evaluateAutoResets] and [confirmReset] is
    well formed: exactly the six breakers in their order, each under its own
    name with its constructor-given condition and reset window, closed
    breakers without timestamps, open and half-open ones with a trip time, a
    positive trip count and [resetAt = trippedAt + window], and no breaker
    that requires a manual reset is ever half-open. *)
Theorem registry_invariant (limits : RiskLimits) (r : Registry)
    (Hr : reachable limits r) : wf limits r.
Proof. by apply reachable_wf. Qed.

(** A tripped breaker that requires a manual reset (weekly and portfolio
    drawdown) stays open, so [isAnyOpen] keeps blocking execution, through
    every later sequence of registry operations that does not [reset] that
    breaker, whatever the clock says. *)
Theorem manual_breaker_stays_open (limits : RiskLimits) (r : Registry) (n : CircuitBreakerName)
    (reason : string) (now : Z) (ops : list cb_op)
    (Hr : reachable limits r) (Hn : defaultAutoResetMs n = None) (Hops : OpReset n ∉ ops) :
  let r' := foldl (fun r op => run_op op r) (run_op (OpTrip n reason now) r) ops in
  (exists b, get n r' = Ret b /\ cb_state b = open) /\ isAnyOpen r' = true.
Proof.
  cbn zeta. destruct (wf_get limits r n) as [b Hb]; [by apply reachable_wf|].
  destruct (run_ops_inv limits n (fun b => cb_state b = open) ops (run_op (OpTrip n reason now) r)
    (op_effect limits (OpTrip n reason now) n b)) as (b' & Hb' & Ho).
  - by constructor.
  - apply run_op_get; [by apply reachable_wf|done].
  - cbn [op_effect]. by rewrite decide_True by done.
  - intros op b0 Hop (_ & _ & _ & _ & Hs & _) Hopen. destruct op as [name ? ?|name|now'|name]; cbn [op_effect].
    + by case_decide.
    + by case_decide; subst.
    + unfold evaluated. rewrite Hopen, Hn in Hs. destruct Hs as (_ & t & _ & ->).
      by rewrite andb_false_r.
    + rewrite decide_False; [done|]. intros [_ ?]. congruence.
  - split; [exists b'; unfold get; by rewrite Hb'|].
    unfold isAnyOpen. apply existsb_exists. exists b'. split.
    + apply list_elem_of_In, list_elem_of_fmap. exists (n, b'). split; [done|]. by apply jm_get_In.
    + unfold is_open. by apply bool_decide_eq_true.
Qed.

(** A breaker with a reset window [ms], tripped at [t], neither closes nor
    goes half-open before [t + ms] under any operations on other breakers,
    confirmations, and evaluations at earlier instants; the first evaluation
    at or after [t + ms] makes it half-open, and a confirmation then closes it
    and clears its timestamps. *)
Theorem breaker_reset_window (limits : RiskLimits) (r : Registry) (n : CircuitBreakerName)
    (reason : string) (t ms later : Z) (ops : list cb_op)
    (Hr : reachable limits r) (Hn : defaultAutoResetMs n = Some ms)
    (Hops : Forall (fun op => match op with
                              | OpTrip m _ _ | OpReset m => m <> n
                              | OpEvaluate now => now < t + ms
                              | OpConfirm _ => True end) ops)
    (Hlater : t + ms <= later) :
  let r1 := foldl (fun r op => run_op op r) (run_op (OpTrip n reason t) r) ops in
  let r2 := run_op (OpEvaluate later) r1 in
  let r3 := run_op (OpConfirm n) r2 in
  (exists b, get n r1 = Ret b /\ cb_state b = open /\ cb_trippedAt b = Some t /\
     cb_resetAt b = Some (t + ms)) /\
  (exists b, get n r2 = Ret b /\ cb_state b = half_open) /\
  (exists b, get n r3 = Ret b /\ cb_state b = closed /\ cb_trippedAt b = None /\ cb_resetAt b = None).
Proof.
  cbn zeta. destruct (wf_get limits r n) as [b Hb]; [by apply reachable_wf|].
  pose proof (reach_step limits (OpTrip n reason t) r Hr) as Hr0.
  destruct (run_ops_inv limits n (fun b => cb_state b = open /\ cb_trippedAt b = Some t /\
      cb_resetAt b = Some (t + ms)) ops (run_op (OpTrip n reason t) r)
    (op_effect limits (OpTrip n reason t) n b)) as (b1 & Hb1 & Ho & Ht & Hre).
  - done.
  - apply run_op_get; [by apply reachable_wf|done].
  - cbn [op_effect]. rewrite decide_True, Hn by done. done.
  - intros op b0 Hop _ (Hopen & Ht & Hre). rewrite Forall_forall in Hops.
    specialize (Hops op Hop). destruct op as [name ? ?|name|now'|name]; cbn [op_effect].
    + by rewrite decide_False by done.
    + by rewrite decide_False by done.
    + unfold evaluated. rewrite Hre. destruct (Z.leb_spec (t + ms) now'); [lia|].
      by rewrite andb_false_r.
    + rewrite decide_False; [done|]. intros [_ ?]. congruence.
  - pose proof (run_ops_reachable limits ops _ Hr0) as Hr1.
    set (r1 := foldl _ _ ops) in *.
    pose proof (run_op_get limits (OpEvaluate later) r1 n b1 (reachable_wf _ _ Hr1) Hb1) as Hb2.
    pose proof (reach_step limits (OpEvaluate later) r1 Hr1) as Hr2.
    cbn [op_effect] in Hb2. unfold evaluated in Hb2. rewrite Ho, Hre in Hb2.
    rewrite bool_decide_true in Hb2 by done. destruct (Z.leb_spec (t + ms) later); [|lia].
    cbn [andb] in Hb2.
    pose proof (run_op_get limits (OpConfirm n) _ n _ (reachable_wf _ _ Hr2) Hb2) as Hb3.
    cbn [op_effect] in Hb3. rewrite decide_True in Hb3 by done.
    unfold get. rewrite Hb1, Hb2, Hb3. split_and!; eexists; split_and!; done.
Qed.

(** Witnesses. *)
Lemma registry_invariant_witness :
  wf DEFAULT_RISK_LIMITS
    (run_op (OpTrip daily_drawdown "x" 5) (new_CircuitBreakerRegistry DEFAULT_RISK_LIMITS)).
Proof. apply registry_invariant. apply reach_step, reach_init. Defined.

Lemma manual_breaker_stays_open_witness :
  let r' := foldl (fun r op => run_op op r)
    (run_op (OpTrip weekly_drawdown "x" 5) (new_CircuitBreakerRegistry DEFAULT_RISK_LIMITS))
    [OpEvaluate 10000000000; OpConfirm weekly_drawdown; OpReset daily_drawdown] in
  (exists b, get weekly_drawdown r' = Ret b /\ cb_state b = open) /\ isAnyOpen r' = true.
Proof.
  apply (manual_breaker_stays_open DEFAULT_RISK_LIMITS); [apply reach_init|reflexivity|].
  by apply (bool_decide_unpack _).
Defined.

Lemma breaker_reset_window_witness :
  let r1 := foldl (fun r op => run_op op r)
    (run_op (OpTrip data_staleness "x" 1000) (new_CircuitBreakerRegistry DEFAULT_RISK_LIMITS))
    [OpEvaluate 2000; OpConfirm data_staleness; OpTrip venue_failure "y" 3] in
  let r2 := run_op (OpEvaluate 301000) r1 in
  let r3 := run_op (OpConfirm data_staleness) r2 in
  (exists b, get data_staleness r1 = Ret b /\ cb_state b = open /\ cb_trippedAt b = Some 1000 /\
     cb_resetAt b = Some (1000 + 300000)) /\
  (exists b, get data_staleness r2 = Ret b /\ cb_state b = half_open) /\
  (exists b, get data_staleness r3 = Ret b /\ cb_state b = closed /\ cb_trippedAt b = None /\
     cb_resetAt b = None).
Proof.
  apply (breaker_reset_window DEFAULT_RISK_LIMITS _ data_staleness "x" 1000 300000 301000);
    [apply reach_init|reflexivity| |lia].
  repeat constructor; done || lia.
Defined.
