(* ===== verification/RiskEngine.v ===== *)
(** * Risk engine (packages/risk-engine: engine.ts)

    [src/packages/risk-engine/src/engine.ts]: the pre-trade assessment, the
    kill switch, the risk summary and the post-fill delta, over the checks of
    [RiskChecks] and the breakers of [CircuitBreakers]. *)
From S2P Require Import Prelude JsNumber JsValue DecimalLib DecimalExact Money Domain RiskChecks CircuitBreakers.
Open Scope Z_scope.

Record PortfolioState := MkPortfolioState {
  totalNav : string;
  grossExposure : string;
  netExposure : string;
  liquidityReserve : string;
  currentDailyDrawdownPct : num;
  currentWeeklyDrawdownPct : num;
  currentPortfolioDrawdownPct : num;
  venueExposures : gmap string string;
  assetExposures : gmap string string;
  sleeveNav : gmap string string;
  openPositionCount : num;
}.

Record OrderIntentContext := MkOrderIntentContext {
  ctx_intent : OrderIntent;
  ctx_venueId : string;
  ctx_assetSymbol : string;
  ctx_positionSizeUsd : string;
  ctx_deltaUsd : string;
  ctx_requiredMarginUsd : string;
  ctx_lastPriceUpdate : Z;
}.

Inductive RiskLevel := normal | elevated | high | critical.
#[export] Instance RiskLevel_eq_dec : EqDecision RiskLevel.
Proof. solve_decision. Defined.

(** [RiskSummary] without [riskLevel]. *)
Record PartialSummary := MkPartialSummary {
  rs_grossExposurePct : num;
  rs_netExposurePct : num;
  rs_leverage : num;
  rs_liquidityReservePct : num;
  rs_dailyDrawdownPct : num;
  rs_weeklyDrawdownPct : num;
  rs_portfolioDrawdownPct : num;
  rs_openCircuitBreakers : list CircuitBreakerName;
}.

Record RiskSummary := MkRiskSummary {
  rs_partial : PartialSummary;
  rs_riskLevel : RiskLevel;
}.

Fixpoint rollUp (hasWarning : bool) (results : list RiskCheckResult) : RiskCheckStatus :=
  match results with
  | [] => if hasWarning then warning_ else passed_
  | r :: results' =>
      if decide (rcr_status r = failed_) then failed_
      else rollUp (if decide (rcr_status r = warning_) then true else hasWarning) results'
  end.
Definition rollUpStatus (results : list RiskCheckResult) : RiskCheckStatus := rollUp false results.

Definition classifyRiskLevel (summary : PartialSummary) (limits : RiskLimits) : RiskLevel :=
  if (0 <? Z.of_nat (length (rs_openCircuitBreakers summary))) then critical
  else
    let dailyRatio := n_div (rs_dailyDrawdownPct summary) (maxDailyDrawdownPct limits) in
    let weeklyRatio := n_div (rs_weeklyDrawdownPct summary) (maxWeeklyDrawdownPct limits) in
    let portfolioRatio := n_div (rs_portfolioDrawdownPct summary) (maxPortfolioDrawdownPct limits) in
    let leverageRatio := n_div (rs_leverage summary) (maxLeverage limits) in
    let worstDrawdown := n_max (n_max dailyRatio weeklyRatio) portfolioRatio in
    if n_ge worstDrawdown (num_of_dec 9 (-1)) || n_ge leverageRatio (num_of_dec 95 (-2)) then critical
    else if n_ge worstDrawdown (num_of_dec 7 (-1)) || n_ge leverageRatio (num_of_dec 8 (-1)) then high
    else if n_ge worstDrawdown (num_of_dec 5 (-1)) || n_ge leverageRatio (num_of_dec 6 (-1)) then elevated
    else normal.

(** The check of the open position count. *)
Definition checkOpportunityCount (count : num) (limits : RiskLimits) : RiskCheckResult :=
  let lim := Some (n_str (maxOpportunityCount limits)) in
  let act := Some (n_str count) in
  if n_ge count (maxOpportunityCount limits) then
    MkRiskCheckResult "max_opportunity_count" failed_
      ("Open position count (" +:+ n_str count +:+ ") has reached the limit of " +:+
       n_str (maxOpportunityCount limits) +:+ ".") lim act
  else if n_ge count (n_floor (n_mul (maxOpportunityCount limits) (num_of_dec 9 (-1)))) then
    MkRiskCheckResult "max_opportunity_count" warning_
      ("Open position count (" +:+ n_str count +:+ ") is approaching the limit of " +:+
       n_str (maxOpportunityCount limits) +:+ ".") lim act
  else
    MkRiskCheckResult "max_opportunity_count" passed_
      ("Open position count (" +:+ n_str count +:+ ") is within the limit of " +:+
       n_str (maxOpportunityCount limits) +:+ ".") lim act.

Section Engine.
Context `{DL : DecimalLib} `{Host : HostEnv}.

(** The ten numbered sections of [assessOrderIntent], in order. *)
Definition pre_trade_checks (context : OrderIntentContext) (portfolioState : PortfolioState)
    (limits : RiskLimits) (now : Z) : exn (list RiskCheckResult) :=
  r1 ← checkPriceStaleness (ctx_lastPriceUpdate context) now limits;
  r2 ← checkGrossExposure (grossExposure portfolioState) (ctx_positionSizeUsd context)
         (totalNav portfolioState) limits;
  r3 ← checkNetExposure (netExposure portfolioState) (ctx_deltaUsd context)
         (totalNav portfolioState) limits;
  let venueCurrentExposure := or_else (venueExposures portfolioState !! ctx_venueId context) "0" in
  r4 ← checkVenueConcentration venueCurrentExposure (ctx_positionSizeUsd context)
         (grossExposure portfolioState) limits;
  let assetCurrentExposure := or_else (assetExposures portfolioState !! ctx_assetSymbol context) "0" in
  r5 ← checkAssetConcentration assetCurrentExposure (ctx_positionSizeUsd context)
         (grossExposure portfolioState) limits;
  r6 ← checkLeverage (grossExposure portfolioState) (ctx_positionSizeUsd context)
         (totalNav portfolioState) limits;
  r7 ← checkLiquidityReserve (liquidityReserve portfolioState) (ctx_requiredMarginUsd context)
         (totalNav portfolioState) limits;
  r8 ← checkDrawdown (currentDailyDrawdownPct portfolioState) daily limits;
  r9 ← checkDrawdown (currentWeeklyDrawdownPct portfolioState) weekly limits;
  r10 ← checkDrawdown (currentPortfolioDrawdownPct portfolioState) portfolio limits;
  let sleeveId := js_String (nullish (rec_get (oi_metadata (ctx_intent context)) "sleeveId") (JStr "")) in
  let nav := or_else (sleeveNav portfolioState !! sleeveId) (totalNav portfolioState) in
  r11 ← checkPositionSize (ctx_positionSizeUsd context) nav limits;
  let r12 := checkOpportunityCount (openPositionCount portfolioState) limits in
  Ret [r1; r2; r3; r4; r5; r6; r7; r8; r9; r10; r11; r12].

Definition assessOrderIntent (limits : RiskLimits) (circuitBreakers : Registry) (now : Z)
    (context : OrderIntentContext) (portfolioState : PortfolioState) : exn RiskAssessment :=
  if isAnyOpen circuitBreakers then
    let names := String.concat ", " (map (fun b => CircuitBreakerName_str (cb_name b))
                                       (getOpenBreakers circuitBreakers)) in
    Ret {|
      ra_opportunityId := Some (oi_opportunityId (ctx_intent context));
      ra_orderId := None;
      ra_results := [MkRiskCheckResult "circuit_breaker_gate" failed_
        ("Execution blocked: circuit breaker(s) open — " +:+ names +:+ ".") None None];
      ra_overallStatus := failed_;
      ra_timestamp := now;
    |}
  else
    results ← pre_trade_checks context portfolioState limits now;
    Ret {|
      ra_opportunityId := Some (oi_opportunityId (ctx_intent context));
      ra_orderId := None;
      ra_results := results;
      ra_overallStatus := rollUpStatus results;
      ra_timestamp := now;
    |}.

Definition drawdown_reason (label : string) (current limit : num) : list string :=
  if n_gt current limit then
    [label +:+ " drawdown (" +:+ n_toFixed 2 current +:+ "%) exceeds limit (" +:+ n_str limit +:+ "%)."]
  else [].

Definition evaluateKillSwitch (limits : RiskLimits) (circuitBreakers : Registry)
    (portfolioState : PortfolioState) : bool * list string :=
  let reasons :=
    drawdown_reason "Daily" (currentDailyDrawdownPct portfolioState) (maxDailyDrawdownPct limits) ++
    drawdown_reason "Weekly" (currentWeeklyDrawdownPct portfolioState) (maxWeeklyDrawdownPct limits) ++
    drawdown_reason "Portfolio" (currentPortfolioDrawdownPct portfolioState) (maxPortfolioDrawdownPct limits) ++
    map (fun b => "Circuit breaker '" +:+ CircuitBreakerName_str (cb_name b) +:+ "' is open: " +:+
                  cb_tripCondition b) (getOpenBreakers circuitBreakers) in
  (0 <? Z.of_nat (length reasons), reasons).

Definition getRiskSummary (limits : RiskLimits) (circuitBreakers : Registry)
    (portfolioState : PortfolioState) : exn RiskSummary :=
  nav ← dec_of_string (totalNav portfolioState);
  grossExposurePct ← (if d_isZero nav then Ret (num_of_Z 0)
    else g ← dec_of_string (grossExposure portfolioState);
         Ret (d_toNumber (d_times (d_div g nav) (dec_of_Z 100))));
  netExposurePct ← (if d_isZero nav then Ret (num_of_Z 0)
    else n ← dec_of_string (netExposure portfolioState);
         Ret (d_toNumber (d_times (d_div (d_abs n) nav) (dec_of_Z 100))));
  leverage ← (if d_isZero nav then Ret (num_of_Z 0)
    else g ← dec_of_string (grossExposure portfolioState); Ret (d_toNumber (d_div g nav)));
  liquidityReservePct ← (if d_isZero nav then Ret (num_of_Z 0)
    else l ← dec_of_string (liquidityReserve portfolioState);
         Ret (d_toNumber (d_times (d_div l nav) (dec_of_Z 100))));
  let openCircuitBreakers := map cb_name (List.filter is_open (jm_values (getAll circuitBreakers))) in
  let partial := {|
    rs_grossExposurePct := grossExposurePct;
    rs_netExposurePct := netExposurePct;
    rs_leverage := leverage;
    rs_liquidityReservePct := liquidityReservePct;
    rs_dailyDrawdownPct := currentDailyDrawdownPct portfolioState;
    rs_weeklyDrawdownPct := currentWeeklyDrawdownPct portfolioState;
    rs_portfolioDrawdownPct := currentPortfolioDrawdownPct portfolioState;
    rs_openCircuitBreakers := openCircuitBreakers;
  |} in
  Ret {| rs_partial := partial; rs_riskLevel := classifyRiskLevel partial limits |}.

(** The exposure fields of the [Partial<PortfolioState>] returned after a
    fill.  [metadata] is the untyped [fill.metadata], if there is one. *)
Record StateDelta := MkStateDelta {
  sd_grossExposure : string;
  sd_netExposure : string;
  sd_liquidityReserve : string;
}.

Definition fill_metadata (metadata : option record_) (key : string) : jsval :=
  match metadata with Some m => rec_get m key | None => JUndefined end.

Definition computeStateAfterFill (limits : RiskLimits) (current : PortfolioState)
    (fill : OrderFill) (metadata : option record_) : exn StateDelta :=
  let markPriceUsd := js_String (match metadata with
    | Some m => nullish (rec_get m "markPriceUsd") (JStr (of_fillPrice fill))
    | None => JStr (of_fillPrice fill)
    end) in
  filledSize ← dec_of_string (of_filledSize fill);
  price ← dec_of_string markPriceUsd;
  let fillNotionalUsd := d_times filledSize price in
  let side := fill_metadata metadata "side" in
  let isShort := is_str side "sell" || is_str side "short" in
  let deltaUsd := if isShort then d_neg fillNotionalUsd else fillNotionalUsd in
  let isClosing := is_true (fill_metadata metadata "isClosing") in
  let grossDelta := if isClosing then d_neg fillNotionalUsd else fillNotionalUsd in
  gross ← dec_of_string (grossExposure current);
  let newGrossExposure := d_plus gross grossDelta in
  net ← dec_of_string (netExposure current);
  let newNetExposure := d_plus net (if isClosing then d_neg deltaUsd else deltaUsd) in
  fee ← dec_of_string (of_fee fill);
  let marginConsumed := if isClosing then dec_of_Z 0
                        else d_div fillNotionalUsd (dec_of_num (maxLeverage limits)) in
  reserve ← dec_of_string (liquidityReserve current);
  let newLiquidityReserve := d_minus (d_minus reserve marginConsumed) fee in
  Ret {|
    sd_grossExposure := d_toFixed newGrossExposure;
    sd_netExposure := d_toFixed newNetExposure;
    sd_liquidityReserve := d_toFixed newLiquidityReserve;
  |}.
End Engine.

(** ** Properties *)

Lemma rollUp_spec results : forall w,
  rollUp w results =
    if existsb (fun r => bool_decide (rcr_status r = failed_)) results then failed_
    else if w || existsb (fun r => bool_decide (rcr_status r = warning_)) results then warning_
    else passed_.
Proof.
  induction results as [|r results IH]; intros w; cbn [rollUp existsb]; [by destruct w|].
  destruct (rcr_status r) eqn:E; cbn; rewrite ?IH; try done; cbn; by rewrite ?orb_true_r.
Qed.

Lemma rollUpStatus_spec results :
  (rollUpStatus results = failed_ <-> exists r, r ∈ results /\ rcr_status r = failed_) /\
  (rollUpStatus results = passed_ <-> forall r, r ∈ results -> rcr_status r = passed_).
Proof.
  unfold rollUpStatus. rewrite rollUp_spec. cbn [orb].
  assert (Hex : forall s, existsb (fun r => bool_decide (rcr_status r = s)) results = true <->
    exists r, r ∈ results /\ rcr_status r = s).
  { intros s. rewrite existsb_exists. setoid_rewrite list_elem_of_In.
    setoid_rewrite bool_decide_eq_true. done. }
  pose proof (Hex failed_) as Hf. pose proof (Hex warning_) as Hw.
  destruct (existsb _ results) eqn:Ef; [split; split; try done; [by intros _; apply Hf|]|].
  - intros H. destruct (proj1 Hf eq_refl) as (r & Hr & Hs). rewrite (H r Hr) in Hs. done.
  - assert (Hnf : forall r, r ∈ results -> rcr_status r <> failed_).
    { intros r Hr Hs. assert (false = true) by (apply Hf; eauto). done. }
    destruct (existsb (fun r => bool_decide (rcr_status r = warning_)) results) eqn:Ew.
    + split; split; try done.
      * intros (r & Hr & Hs). by destruct (Hnf r Hr).
      * intros H. destruct (proj1 Hw eq_refl) as (r & Hr & Hs). rewrite (H r Hr) in Hs. done.
    + split; split; try done.
      * intros (r & Hr & Hs). by destruct (Hnf r Hr).
      * intros _ r Hr. destruct (rcr_status r) eqn:E; [done|by destruct (Hnf r Hr)|].
        assert (false = true) by (apply Hw; eauto). done.
Qed.

Lemma isAnyOpen_open r : isAnyOpen r = true <-> getOpenBreakers r <> [].
Proof.
  unfold isAnyOpen, getOpenBreakers. rewrite existsb_exists. split.
  - intros (b & Hin & Ho) Hnil.
    assert (In b (List.filter is_open (jm_values r))) as H by (by apply filter_In).
    by rewrite Hnil in H.
  - intros Hne. destruct (List.filter is_open (jm_values r)) as [|b l] eqn:E; [done|].
    exists b. apply filter_In. rewrite E. by left.
Qed.

(** Reduces a successful check to the branch it took. *)
Ltac check_cases :=
  repeat match goal with
  | H : context [mbind (M := exn) _ ?m] |- _ =>
      let E := fresh "E" in destruct m eqn:E; cbn [mbind exn_bind] in H; [|discriminate H]
  | H : context [if ?b then _ else _] |- _ =>
      let E := fresh "E" in destruct b eqn:E
  | H : Ret _ = Ret _ |- _ => injection H as <-
  end; cbn [rcr_status failed passed warning] in *; try congruence.

Section Facts.
Context `{DL : DecimalLib} `{Host : HostEnv}.

(** [metric] of the parsed strings does not exceed [limit]. *)
Definition not_above (metric limit : dec) : Prop := d_gt metric limit = false.

(** The limits an order must respect to be let through. *)
Record within_limits (limits : RiskLimits) (now : Z) (c : OrderIntentContext) (s : PortfolioState)
    : Prop := {
  wl_price : not_above (d_div (dec_of_Z (now - ctx_lastPriceUpdate c)) (dec_of_Z 1000))
               (dec_of_num (maxPriceAgeSec limits));
  wl_gross : exists g x n, dec_of_string (grossExposure s) = Ret g /\
    dec_of_string (ctx_positionSizeUsd c) = Ret x /\ dec_of_string (totalNav s) = Ret n /\
    d_isZero n = false /\
    not_above (pct (d_plus g x) n) (dec_of_num (maxGrossExposurePct limits)) /\
    not_above (d_div (d_plus g x) n) (dec_of_num (maxLeverage limits));
  wl_net : exists e d n, dec_of_string (netExposure s) = Ret e /\
    dec_of_string (ctx_deltaUsd c) = Ret d /\ dec_of_string (totalNav s) = Ret n /\
    not_above (pct (d_abs (d_plus e d)) n) (dec_of_num (maxNetExposurePct limits));
  wl_venue : exists v x g, dec_of_string (or_else (venueExposures s !! ctx_venueId c) "0") = Ret v /\
    dec_of_string (ctx_positionSizeUsd c) = Ret x /\ dec_of_string (grossExposure s) = Ret g /\
    d_isZero (d_plus g x) = false /\
    not_above (pct (d_plus v x) (d_plus g x)) (dec_of_num (maxSingleVenuePct limits));
  wl_asset : exists v x g, dec_of_string (or_else (assetExposures s !! ctx_assetSymbol c) "0") = Ret v /\
    dec_of_string (ctx_positionSizeUsd c) = Ret x /\ dec_of_string (grossExposure s) = Ret g /\
    not_above (pct (d_plus v x) (d_plus g x)) (dec_of_num (maxSingleAssetPct limits));
  wl_reserve : exists l m n, dec_of_string (liquidityReserve s) = Ret l /\
    dec_of_string (ctx_requiredMarginUsd c) = Ret m /\ dec_of_string (totalNav s) = Ret n /\
    d_lt (pct (d_minus l m) n) (dec_of_num (minLiquidityReservePct limits)) = false;
  wl_daily : not_above (dec_of_num (currentDailyDrawdownPct s)) (dec_of_num (maxDailyDrawdownPct limits));
  wl_weekly : not_above (dec_of_num (currentWeeklyDrawdownPct s)) (dec_of_num (maxWeeklyDrawdownPct limits));
  wl_portfolio : not_above (dec_of_num (currentPortfolioDrawdownPct s))
                   (dec_of_num (maxPortfolioDrawdownPct limits));
  wl_size : exists x n, dec_of_string (ctx_positionSizeUsd c) = Ret x /\
    dec_of_string (or_else (sleeveNav s !!
      js_String (nullish (rec_get (oi_metadata (ctx_intent c)) "sleeveId") (JStr ""))) (totalNav s)) = Ret n /\
    d_isZero n = false /\ not_above (pct x n) (dec_of_num (maxPositionSizePct limits));
  wl_count : n_ge (openPositionCount s) (maxOpportunityCount limits) = false;
}.

Lemma checkDrawdown_ok cur p limits r :
  checkDrawdown cur p limits = Ret r -> rcr_status r <> failed_ ->
  not_above (dec_of_num cur) (dec_of_num (match p with
    | daily => maxDailyDrawdownPct limits | weekly => maxWeeklyDrawdownPct limits
    | portfolio => maxPortfolioDrawdownPct limits end)).
Proof. unfold checkDrawdown, not_above. intros H Hs. destruct p; cbn [decide] in *; by check_cases. Qed.

Lemma checkPriceStaleness_ok last now limits r :
  checkPriceStaleness last now limits = Ret r -> rcr_status r <> failed_ ->
  not_above (d_div (dec_of_Z (now - last)) (dec_of_Z 1000)) (dec_of_num (maxPriceAgeSec limits)).
Proof. unfold checkPriceStaleness, not_above. intros H Hs. by check_cases. Qed.

Lemma checkGrossExposure_ok g x n limits r :
  checkGrossExposure g x n limits = Ret r -> rcr_status r <> failed_ ->
  exists gd xd nd, dec_of_string g = Ret gd /\ dec_of_string x = Ret xd /\ dec_of_string n = Ret nd /\
    d_isZero nd = false /\ not_above (pct (d_plus gd xd) nd) (dec_of_num (maxGrossExposurePct limits)).
Proof. unfold checkGrossExposure, not_above. intros H Hs. check_cases; naive_solver. Qed.

Lemma checkNetExposure_ok e d n limits r :
  checkNetExposure e d n limits = Ret r -> rcr_status r <> failed_ ->
  exists ed dd nd, dec_of_string e = Ret ed /\ dec_of_string d = Ret dd /\ dec_of_string n = Ret nd /\
    not_above (pct (d_abs (d_plus ed dd)) nd) (dec_of_num (maxNetExposurePct limits)).
Proof. unfold checkNetExposure, not_above. intros H Hs. check_cases; naive_solver. Qed.

Lemma checkVenueConcentration_ok v x g limits r :
  checkVenueConcentration v x g limits = Ret r -> rcr_status r <> failed_ ->
  exists vd xd gd, dec_of_string v = Ret vd /\ dec_of_string x = Ret xd /\ dec_of_string g = Ret gd /\
    d_isZero (d_plus gd xd) = false /\
    not_above (pct (d_plus vd xd) (d_plus gd xd)) (dec_of_num (maxSingleVenuePct limits)).
Proof. unfold checkVenueConcentration, not_above. intros H Hs. check_cases; naive_solver. Qed.

Lemma checkAssetConcentration_ok v x g limits r :
  checkAssetConcentration v x g limits = Ret r -> rcr_status r <> failed_ ->
  exists vd xd gd, dec_of_string v = Ret vd /\ dec_of_string x = Ret xd /\ dec_of_string g = Ret gd /\
    not_above (pct (d_plus vd xd) (d_plus gd xd)) (dec_of_num (maxSingleAssetPct limits)).
Proof. unfold checkAssetConcentration, not_above. intros H Hs. check_cases; naive_solver. Qed.

Lemma checkLeverage_ok g x n limits r :
  checkLeverage g x n limits = Ret r -> rcr_status r <> failed_ ->
  exists gd xd nd, dec_of_string g = Ret gd /\ dec_of_string x = Ret xd /\ dec_of_string n = Ret nd /\
    not_above (d_div (d_plus gd xd) nd) (dec_of_num (maxLeverage limits)).
Proof. unfold checkLeverage, not_above. intros H Hs. check_cases; naive_solver. Qed.

Lemma checkLiquidityReserve_ok l m n limits r :
  checkLiquidityReserve l m n limits = Ret r -> rcr_status r <> failed_ ->
  exists ld md nd, dec_of_string l = Ret ld /\ dec_of_string m = Ret md /\ dec_of_string n = Ret nd /\
    d_lt (pct (d_minus ld md) nd) (dec_of_num (minLiquidityReservePct limits)) = false.
Proof. unfold checkLiquidityReserve. intros H Hs. check_cases; naive_solver. Qed.

Lemma checkPositionSize_ok x n limits r :
  checkPositionSize x n limits = Ret r -> rcr_status r <> failed_ ->
  exists xd nd, dec_of_string x = Ret xd /\ dec_of_string n = Ret nd /\ d_isZero nd = false /\
    not_above (pct xd nd) (dec_of_num (maxPositionSizePct limits)).
Proof. unfold checkPositionSize, not_above. intros H Hs. check_cases; naive_solver. Qed.

Lemma checkOpportunityCount_ok count limits :
  rcr_status (checkOpportunityCount count limits) <> failed_ ->
  n_ge count (maxOpportunityCount limits) = false.
Proof. unfold checkOpportunityCount. by destruct (n_ge count (maxOpportunityCount limits)). Qed.
End Facts.

(** Membership in a literal list. *)
Ltac in_list := apply list_elem_of_In; cbn [In]; auto 20.

Section EngineTheorems.
Context `{DL : DecimalLib} `{Host : HostEnv}.

Lemma pre_trade_checks_ok limits now c s results :
  pre_trade_checks c s limits now = Ret results ->
  (forall r, r ∈ results -> rcr_status r <> failed_) ->
  length results = 12%nat /\ within_limits limits now c s.
Proof.
  unfold pre_trade_checks. intros H Hok.
  repeat match type of H with
  | mbind (M := exn) _ ?m = _ =>
      let E := fresh "E" in destruct m as [?r|] eqn:E; cbn [mbind exn_bind] in H; [|discriminate H]
  end.
  injection H as <-. split; [done|].
  apply checkPriceStaleness_ok in E; [|apply Hok; in_list].
  apply checkGrossExposure_ok in E0 as (g & x & n & Hg & Hx & Hn & Hz & E0); [|apply Hok; in_list].
  apply checkNetExposure_ok in E1; [|apply Hok; in_list].
  apply checkVenueConcentration_ok in E2; [|apply Hok; in_list].
  apply checkAssetConcentration_ok in E3; [|apply Hok; in_list].
  apply checkLeverage_ok in E4 as (g' & x' & n' & Hg' & Hx' & Hn' & E4); [|apply Hok; in_list].
  apply checkLiquidityReserve_ok in E5; [|apply Hok; in_list].
  apply checkDrawdown_ok in E6; [|apply Hok; in_list].
  apply checkDrawdown_ok in E7; [|apply Hok; in_list].
  apply checkDrawdown_ok in E8; [|apply Hok; in_list].
  apply checkPositionSize_ok in E9; [|apply Hok; in_list].
  assert (E10 : n_ge (openPositionCount s) (maxOpportunityCount limits) = false)
    by (apply checkOpportunityCount_ok, Hok; in_list).
  split; try done. exists g, x, n.
  assert (g' = g) as -> by congruence. assert (x' = x) as -> by congruence.
  by assert (n' = n) as -> by congruence.
Qed.

Lemma assessment_within_limits (limits : RiskLimits) (cbs : Registry) (now : Z)
    (c : OrderIntentContext) (s : PortfolioState) (a : RiskAssessment)
    (Ha : assessOrderIntent limits cbs now c s = Ret a) (Hok : ra_overallStatus a <> failed_) :
  isAnyOpen cbs = false /\ length (ra_results a) = 12%nat /\ within_limits limits now c s.
Proof.
  unfold assessOrderIntent in Ha. destruct (isAnyOpen cbs); [by injection Ha as <-|].
  split; [done|]. destruct (pre_trade_checks c s limits now) as [results|] eqn:E;
    cbn [mbind exn_bind] in Ha; [|discriminate].
  injection Ha as <-. cbn [ra_overallStatus ra_results] in *.
  apply (pre_trade_checks_ok _ _ _ _ _ E). intros r Hr Hs. apply Hok.
  apply rollUpStatus_spec. eauto.
Qed.

(** C1. No order is let through beyond a limit: when [assessOrderIntent]
    returns an assessment that is not [failed], no circuit breaker is open,
    all twelve checks ran, and every exposure, concentration, leverage,
    reserve, drawdown, staleness, position-size and position-count metric
    computed from the order and the portfolio respects its limit. *)
Theorem approved_order_within_limits (limits : RiskLimits) (cbs : Registry) (now : Z)
    (c : OrderIntentContext) (s : PortfolioState) (a : RiskAssessment)
    (Ha : assessOrderIntent limits cbs now c s = Ret a) (Hok : ra_overallStatus a <> failed_) :
  isAnyOpen cbs = false /\ length (ra_results a) = 12%nat /\ within_limits limits now c s.
Proof. by apply assessment_within_limits. Qed.

(** An open circuit breaker is seen by every part of the engine: the
    assessment fails with the single gate result whatever the order and the
    portfolio are (even ones whose decimals do not parse), the kill switch
    halts with one reason per open breaker at least, and every risk summary
    that can be computed is critical and names the open breakers. *)
Theorem open_breaker_blocks_everything (limits : RiskLimits) (cbs : Registry) (now : Z)
    (c : OrderIntentContext) (s : PortfolioState) (Hopen : isAnyOpen cbs = true) :
  (exists a r, assessOrderIntent limits cbs now c s = Ret a /\ ra_overallStatus a = failed_ /\
     ra_results a = [r] /\ rcr_checkName r = "circuit_breaker_gate" /\ rcr_status r = failed_) /\
  (evaluateKillSwitch limits cbs s).1 = true /\
  (length (getOpenBreakers cbs) <= length (evaluateKillSwitch limits cbs s).2)%nat /\
  (forall sum, getRiskSummary limits cbs s = Ret sum ->
     rs_riskLevel sum = critical /\
     rs_openCircuitBreakers (rs_partial sum) = map cb_name (getOpenBreakers cbs)).
Proof.
  pose proof (proj1 (isAnyOpen_open _) Hopen) as Hne.
  assert (Hlen : (0 < length (getOpenBreakers cbs))%nat) by (destruct (getOpenBreakers cbs); [done|cbn; lia]).
  split_and!.
  - unfold assessOrderIntent. rewrite Hopen. by do 2 eexists.
  - unfold evaluateKillSwitch. cbn [fst]. rewrite !length_app, length_map. apply Z.ltb_lt. lia.
  - unfold evaluateKillSwitch. cbn [snd]. rewrite !length_app, length_map. lia.
  - intros sum H. unfold getRiskSummary in H.
    repeat match type of H with
    | mbind (M := exn) _ ?m = _ =>
        destruct m; cbn [mbind exn_bind] in H; [|discriminate H]
    end.
    injection H as <-. cbn [rs_riskLevel rs_partial rs_openCircuitBreakers]. split; [|done].
    unfold classifyRiskLevel. cbn [rs_openCircuitBreakers]. unfold getAll.
    fold (getOpenBreakers cbs). rewrite length_map. by destruct (Z.ltb_spec 0 (Z.of_nat (length (getOpenBreakers cbs)))); [|lia].
Qed.

(** The kill switch halts exactly when a drawdown exceeds its limit or a
    circuit breaker is open. *)
Theorem kill_switch_spec (limits : RiskLimits) (cbs : Registry) (s : PortfolioState) :
  (evaluateKillSwitch limits cbs s).1 = true <->
  n_gt (currentDailyDrawdownPct s) (maxDailyDrawdownPct limits) = true \/
  n_gt (currentWeeklyDrawdownPct s) (maxWeeklyDrawdownPct limits) = true \/
  n_gt (currentPortfolioDrawdownPct s) (maxPortfolioDrawdownPct limits) = true \/
  isAnyOpen cbs = true.
Proof.
  rewrite isAnyOpen_open. unfold evaluateKillSwitch, drawdown_reason. cbn [fst].
  rewrite Z.ltb_lt, !length_app, length_map.
  destruct (n_gt (currentDailyDrawdownPct s) _), (n_gt (currentWeeklyDrawdownPct s) _),
    (n_gt (currentPortfolioDrawdownPct s) _); cbn [length]; try (split; [auto|lia]).
  destruct (getOpenBreakers cbs); cbn; split; try lia; auto 10.
  intros [|[|[|]]]; done.
Qed.

(** The assessment's rolled-up status: [failed] exactly when some check
    failed, [passed] exactly when all passed. *)
Theorem assessment_status (limits : RiskLimits) (cbs : Registry) (now : Z)
    (c : OrderIntentContext) (s : PortfolioState) (a : RiskAssessment)
    (Ha : assessOrderIntent limits cbs now c s = Ret a) :
  (ra_overallStatus a = failed_ <-> exists r, r ∈ ra_results a /\ rcr_status r = failed_) /\
  (ra_overallStatus a = passed_ <-> forall r, r ∈ ra_results a -> rcr_status r = passed_).
Proof.
  unfold assessOrderIntent in Ha. destruct (isAnyOpen cbs).
  - injection Ha as <-. cbn. split; split; try done.
    + intros _. eexists. split; [by left|done].
    + intros H. by specialize (H _ ltac:(left)).
  - destruct (pre_trade_checks c s limits now) as [results|]; cbn in Ha; [|discriminate].
    injection Ha as <-. apply rollUpStatus_spec.
Qed.
End EngineTheorems.

(** ** The first order *)

Section FirstOrder.
Context `{DL : DecimalLib} `{LW : !DecimalLaws} `{Host : HostEnv}.

(** A portfolio without exposure cannot take its first order: whatever its
    size, a single order is the whole of its venue's exposure, so with a venue
    limit below 100 percent (the default is 40) every assessment fails. *)
Theorem first_order_refused (limits : RiskLimits) (cbs : Registry) (now : Z) (c : OrderIntentContext)
    (s : PortfolioState) (a : RiskAssessment) (x k : Z)
    (Hg : units_in 2 (grossExposure s) = Some 0) (Hv : venueExposures s !! ctx_venueId c = None)
    (Hx : units_in 2 (ctx_positionSizeUsd c) = Some x) (Hx0 : 0 < x <= money_bound)
    (Hk : maxSingleVenuePct limits = num_of_Z k) (Hk0 : 0 <= k < 100)
    (Ha : assessOrderIntent limits cbs now c s = Ret a) : ra_overallStatus a = failed_.
Proof.
  destruct (decide (ra_overallStatus a = failed_)) as [|Hne]; [done|exfalso].
  destruct (assessment_within_limits _ _ _ _ _ _ Ha Hne) as (_ & _ & Hw).
  destruct (wl_venue _ _ _ _ Hw) as (v & dx & g & Ev & Ex & Eg & _ & Hle).
  destruct (units_in_parses _ _ _ Hg) as (g' & Eg' & Fg), (units_in_parses _ _ _ Hx) as (dx' & Ex' & Fx).
  rewrite Eg in Eg'. rewrite Ex in Ex'. injection Eg' as <-. injection Ex' as <-.
  rewrite Hv in Ev. cbn [or_else] in Ev. destruct (units_in_parses 2 "0" 0 eq_refl) as (v' & Ev' & Fv).
  rewrite Ev in Ev'. injection Ev' as <-.
  assert (Hsum : forall d, scaled 2 d 0 -> units (d_plus d dx) (100 * x)).
  { intros d Hd. unfold money_bound in *. replace (100 * x) with ((0 + x) * 10 ^ 2) by lia.
    apply (scaled_finer 2 2 _ (0 + x)); [lia|lia|]. apply scaled_plus; [lia|done|done|lia]. }
  unfold not_above, pct in Hle. rewrite Hk, (units_share _ _ x x k) in Hle by first [by apply Hsum|unfold money_bound in *; lia].
  apply Z.ltb_ge in Hle. nia.
Qed.
End FirstOrder.

(** ** Witnesses *)

Definition sample_limits : RiskLimits := DEFAULT_RISK_LIMITS.
Definition sample_registry : Registry := new_CircuitBreakerRegistry sample_limits.
Definition sample_intent : OrderIntent :=
  MkOrderIntent "i1" "venue-a" "BTC" buy market "0.1" None "opp-1" false 0 [("sleeveId", JStr "carry")].
Definition sample_context : OrderIntentContext :=
  MkOrderIntentContext sample_intent "venue-a" "BTC" "1000" "1000" "500" 1000.
Definition sample_state : PortfolioState :=
  MkPortfolioState "100000" "50000" "0" "50000" (num_of_Z 0) (num_of_Z 0) (num_of_Z 0)
    ∅ ∅ {["carry" := "50000"]} (num_of_Z 2).

Definition ret_or {A} (m : exn A) (d : A) : A := match m with Ret a => a | Throw _ => d end.
Definition sample_assessment : RiskAssessment :=
  ret_or (assessOrderIntent sample_limits sample_registry 2000 sample_context sample_state)
    (MkRiskAssessment None None [] failed_ 0).

Lemma approved_order_within_limits_witness :
  isAnyOpen sample_registry = false /\ length (ra_results sample_assessment) = 12%nat /\
  within_limits sample_limits 2000 sample_context sample_state.
Proof.
  apply (approved_order_within_limits sample_limits sample_registry 2000 sample_context sample_state).
  - vm_compute. reflexivity.
  - vm_compute. discriminate.
Defined.

Lemma open_breaker_blocks_everything_witness :
  let cbs := run_op (OpTrip daily_drawdown "x" 5) sample_registry in
  (exists a r, assessOrderIntent sample_limits cbs 2000 sample_context sample_state = Ret a /\
     ra_overallStatus a = failed_ /\ ra_results a = [r] /\
     rcr_checkName r = "circuit_breaker_gate" /\ rcr_status r = failed_) /\
  (evaluateKillSwitch sample_limits cbs sample_state).1 = true /\
  (length (getOpenBreakers cbs) <= length (evaluateKillSwitch sample_limits cbs sample_state).2)%nat /\
  (forall sum, getRiskSummary sample_limits cbs sample_state = Ret sum ->
     rs_riskLevel sum = critical /\
     rs_openCircuitBreakers (rs_partial sum) = map cb_name (getOpenBreakers cbs)).
Proof. apply open_breaker_blocks_everything. reflexivity. Defined.

Lemma assessment_status_witness :
  (ra_overallStatus sample_assessment = failed_ <->
     exists r, r ∈ ra_results sample_assessment /\ rcr_status r = failed_) /\
  (ra_overallStatus sample_assessment = passed_ <->
     forall r, r ∈ ra_results sample_assessment -> rcr_status r = passed_).
Proof.
  apply (assessment_status sample_limits sample_registry 2000 sample_context sample_state).
  vm_compute. reflexivity.
Defined.

Lemma larger_order_never_safer_witness :
  (exists r1 r2, checkGrossExposure "50000" "1000" "100000" sample_limits = Ret r1 /\
     checkGrossExposure "50000" "150001" "100000" sample_limits = Ret r2 /\
     severity (rcr_status r1) <= severity (rcr_status r2)) /\
  (exists r1 r2, checkLeverage "50000" "1000" "100000" sample_limits = Ret r1 /\
     checkLeverage "50000" "150001" "100000" sample_limits = Ret r2 /\
     severity (rcr_status r1) <= severity (rcr_status r2)) /\
  (exists r1 r2, checkPositionSize "1000" "100000" sample_limits = Ret r1 /\
     checkPositionSize "150001" "100000" sample_limits = Ret r2 /\
     severity (rcr_status r1) <= severity (rcr_status r2)) /\
  (exists r1 r2, checkLiquidityReserve "20000" "1000" "100000" sample_limits = Ret r1 /\
     checkLiquidityReserve "20000" "150001" "100000" sample_limits = Ret r2 /\
     severity (rcr_status r1) <= severity (rcr_status r2)).
Proof.
  apply (larger_order_never_safer sample_limits "50000" "1000" "150001" "100000" "20000"
    50000 1000 150001 100000 20000); try (by apply literal_parses); done.
Defined.

Lemma checkPriceStaleness_exact_witness :
  exists r, checkPriceStaleness 1000 31001 sample_limits = Ret r /\ rcr_status r = failed_.
Proof.
  apply (checkPriceStaleness_exact sample_limits 1000 31001 30); [reflexivity|lia|vm_compute; reflexivity].
Defined.

Lemma first_order_refused_witness :
  ra_overallStatus (ret_or (assessOrderIntent DEFAULT_RISK_LIMITS sample_registry 2000 sample_context
    (MkPortfolioState "100000" "0" "0" "100000" n_zero n_zero n_zero ∅ ∅ ∅ n_zero)) sample_assessment) = failed_.
Proof.
  apply (first_order_refused DEFAULT_RISK_LIMITS sample_registry 2000 sample_context
    (MkPortfolioState "100000" "0" "0" "100000" n_zero n_zero n_zero ∅ ∅ ∅ n_zero) _ 100000 40); try (vm_compute; reflexivity); try lia.
  vm_compute. split; [reflexivity|discriminate].
Defined.
