(* ===== verification/Guardrails.v ===== *)
(** * Execution guardrails (packages/risk-engine/src/execution-guardrails.ts)

    [ExecutionGuardrailEngine] keeps a [Map] from configuration ids to mutable
    configuration objects.  The engine's state is [Engine]; a method that
    mutates a configuration object in place writes the changed record back
    under its id, and returns the state after the call.  Every reading of the
    clock inside one call is the argument [now] (milliseconds).  The private
    [violations] map of the class is never read or written by its methods and
    has no counterpart.  Logger calls are not modelled.  Nothing under src
    composes a check with the record of its execution, so histories are any
    sequences of calls. *)
From Stdlib Require Import Ascii.
From S2P Require Import Prelude JsNumber JsValue DecimalLib DecimalExact Shared.
Open Scope Z_scope.

Inductive GuardrailScope := g_global | g_venue | g_sleeve | g_strategy.
#[export] Instance GuardrailScope_eq_dec : EqDecision GuardrailScope.
Proof. solve_decision. Defined.
Definition GuardrailScope_str (s : GuardrailScope) : string :=
  match s with g_global => "global" | g_venue => "venue" | g_sleeve => "sleeve" | g_strategy => "strategy" end.

Inductive ViolationType :=
| max_notional | min_notional | circuit_breaker | kill_switch | partial_fill | timeout | concurrency_limit.
#[export] Instance ViolationType_eq_dec : EqDecision ViolationType.
Proof. solve_decision. Defined.

Inductive PartialFillAction := pf_continue | pf_block | pf_rollback.
#[export] Instance PartialFillAction_eq_dec : EqDecision PartialFillAction.
Proof. solve_decision. Defined.

Section Guardrails.
Context `{DL : DecimalLib} `{HE : HostEnv}.

(** [Omit<GuardrailConfig, 'id' | 'createdAt' | 'updatedAt'>].  Counts,
    minutes and seconds are integers. *)
Record GuardrailConfigInput := MkGuardrailConfigInput {
  scopeType : GuardrailScope;
  scopeId : string;
  maxSingleActionNotionalUsd : option dec;
  maxDailyNotionalUsd : option dec;
  maxPositionNotionalUsd : option dec;
  minActionNotionalUsd : option dec;
  maxConcurrentExecutions : option Z;
  maxConcurrentLegs : option Z;
  circuitBreakerEnabled : bool;
  maxFailuresBeforeBreaker : Z;
  circuitBreakerResetMinutes : Z;
  killSwitchEnabled : bool;
  killSwitchTriggered : bool;
  killSwitchTriggeredAt : option Z;
  killSwitchTriggeredBy : option string;
  killSwitchReason : option string;
  partialFillAction : PartialFillAction;
  minFillPctRequired : dec;
  maxExecutionTimeSeconds : Z;
  legTimeoutSeconds : Z;
  failureCount : Z;
  lastFailureAt : option Z;
  dailyNotionalUsd : dec;
  dailyResetAt : Z;
}.

(** [GuardrailConfig]: the input fields with [id], [createdAt], [updatedAt]. *)
Record GuardrailConfig := MkGuardrailConfig {
  gc_id : string;
  gc_in : GuardrailConfigInput;
  createdAt : Z;
  updatedAt : Z;
}.

Record GuardrailCheckInput := MkGuardrailCheckInput {
  gi_carryActionId : option string;
  gi_planId : option string;
  gi_legId : option string;
  gi_venueId : option string;
  gi_sleeveId : option string;
  gi_strategyId : option string;
  notionalUsd : dec;
  isExecution : bool;
}.

Record GuardrailViolationInput := MkViolation {
  v_type : ViolationType;
  v_message : string;
  v_blocked : bool;
  v_details : record_;
}.

Record GuardrailCheckResult := MkGuardrailCheckResult {
  gr_allowed : bool;
  gr_violations : list GuardrailViolationInput;
  gr_warnings : list string;
}.

Definition Engine := list (string * GuardrailConfig).

(** [DEFAULT_GLOBAL_GUARDRAIL_CONFIG]; [loadedAt] is the instant the module
    was loaded. *)
Definition DEFAULT_GLOBAL_GUARDRAIL_CONFIG (loadedAt : Z) : GuardrailConfigInput := {|
  scopeType := g_global;
  scopeId := "default";
  maxSingleActionNotionalUsd := Some (dec_of_Z 100000);
  maxDailyNotionalUsd := Some (dec_of_Z 500000);
  maxPositionNotionalUsd := Some (dec_of_Z 1000000);
  minActionNotionalUsd := Some (dec_of_Z 1000);
  maxConcurrentExecutions := Some 3;
  maxConcurrentLegs := Some 6;
  circuitBreakerEnabled := true;
  maxFailuresBeforeBreaker := 3;
  circuitBreakerResetMinutes := 30;
  killSwitchEnabled := true;
  killSwitchTriggered := false;
  killSwitchTriggeredAt := None;
  killSwitchTriggeredBy := None;
  killSwitchReason := None;
  partialFillAction := pf_continue;
  minFillPctRequired := dec_of_Z 95;
  maxExecutionTimeSeconds := 300;
  legTimeoutSeconds := 60;
  failureCount := 0;
  lastFailureAt := None;
  dailyNotionalUsd := dec_of_Z 0;
  dailyResetAt := loadedAt;
|}.

(** ** Assignments to the fields of a configuration object *)

Definition with_in (c : GuardrailConfig) (i : GuardrailConfigInput) : GuardrailConfig :=
  {| gc_id := gc_id c; gc_in := i; createdAt := createdAt c; updatedAt := updatedAt c |}.
Definition touch (now : Z) (c : GuardrailConfig) : GuardrailConfig :=
  {| gc_id := gc_id c; gc_in := gc_in c; createdAt := createdAt c; updatedAt := now |}.

Definition set_failures (n : Z) (last : option Z) (i : GuardrailConfigInput) : GuardrailConfigInput := {|
  scopeType := scopeType i; scopeId := scopeId i;
  maxSingleActionNotionalUsd := maxSingleActionNotionalUsd i;
  maxDailyNotionalUsd := maxDailyNotionalUsd i;
  maxPositionNotionalUsd := maxPositionNotionalUsd i;
  minActionNotionalUsd := minActionNotionalUsd i;
  maxConcurrentExecutions := maxConcurrentExecutions i; maxConcurrentLegs := maxConcurrentLegs i;
  circuitBreakerEnabled := circuitBreakerEnabled i;
  maxFailuresBeforeBreaker := maxFailuresBeforeBreaker i;
  circuitBreakerResetMinutes := circuitBreakerResetMinutes i;
  killSwitchEnabled := killSwitchEnabled i; killSwitchTriggered := killSwitchTriggered i;
  killSwitchTriggeredAt := killSwitchTriggeredAt i; killSwitchTriggeredBy := killSwitchTriggeredBy i;
  killSwitchReason := killSwitchReason i;
  partialFillAction := partialFillAction i; minFillPctRequired := minFillPctRequired i;
  maxExecutionTimeSeconds := maxExecutionTimeSeconds i; legTimeoutSeconds := legTimeoutSeconds i;
  failureCount := n; lastFailureAt := last;
  dailyNotionalUsd := dailyNotionalUsd i; dailyResetAt := dailyResetAt i;
|}.

Definition set_daily (d : dec) (at_ : Z) (i : GuardrailConfigInput) : GuardrailConfigInput := {|
  scopeType := scopeType i; scopeId := scopeId i;
  maxSingleActionNotionalUsd := maxSingleActionNotionalUsd i;
  maxDailyNotionalUsd := maxDailyNotionalUsd i;
  maxPositionNotionalUsd := maxPositionNotionalUsd i;
  minActionNotionalUsd := minActionNotionalUsd i;
  maxConcurrentExecutions := maxConcurrentExecutions i; maxConcurrentLegs := maxConcurrentLegs i;
  circuitBreakerEnabled := circuitBreakerEnabled i;
  maxFailuresBeforeBreaker := maxFailuresBeforeBreaker i;
  circuitBreakerResetMinutes := circuitBreakerResetMinutes i;
  killSwitchEnabled := killSwitchEnabled i; killSwitchTriggered := killSwitchTriggered i;
  killSwitchTriggeredAt := killSwitchTriggeredAt i; killSwitchTriggeredBy := killSwitchTriggeredBy i;
  killSwitchReason := killSwitchReason i;
  partialFillAction := partialFillAction i; minFillPctRequired := minFillPctRequired i;
  maxExecutionTimeSeconds := maxExecutionTimeSeconds i; legTimeoutSeconds := legTimeoutSeconds i;
  failureCount := failureCount i; lastFailureAt := lastFailureAt i;
  dailyNotionalUsd := d; dailyResetAt := at_;
|}.

Definition set_kill (on : bool) (at_ : option Z) (by_ reason : option string)
    (i : GuardrailConfigInput) : GuardrailConfigInput := {|
  scopeType := scopeType i; scopeId := scopeId i;
  maxSingleActionNotionalUsd := maxSingleActionNotionalUsd i;
  maxDailyNotionalUsd := maxDailyNotionalUsd i;
  maxPositionNotionalUsd := maxPositionNotionalUsd i;
  minActionNotionalUsd := minActionNotionalUsd i;
  maxConcurrentExecutions := maxConcurrentExecutions i; maxConcurrentLegs := maxConcurrentLegs i;
  circuitBreakerEnabled := circuitBreakerEnabled i;
  maxFailuresBeforeBreaker := maxFailuresBeforeBreaker i;
  circuitBreakerResetMinutes := circuitBreakerResetMinutes i;
  killSwitchEnabled := killSwitchEnabled i; killSwitchTriggered := on;
  killSwitchTriggeredAt := at_; killSwitchTriggeredBy := by_; killSwitchReason := reason;
  partialFillAction := partialFillAction i; minFillPctRequired := minFillPctRequired i;
  maxExecutionTimeSeconds := maxExecutionTimeSeconds i; legTimeoutSeconds := legTimeoutSeconds i;
  failureCount := failureCount i; lastFailureAt := lastFailureAt i;
  dailyNotionalUsd := dailyNotionalUsd i; dailyResetAt := dailyResetAt i;
|}.

(** ** Private helpers of the class *)

Definition same_scope (st : GuardrailScope) (sid : string) (c : GuardrailConfig) : bool :=
  bool_decide (scopeType (gc_in c) = st) && bool_decide (scopeId (gc_in c) = sid).

(** [getConfig(scopeType, scopeId)]. *)
Definition getConfig (st : GuardrailScope) (sid : string) (e : Engine) : option GuardrailConfig :=
  List.find (same_scope st sid) (jm_values e).

(** A scope the input names: an absent or empty id names none. *)
Definition scoped (st : GuardrailScope) (id : option string) (e : Engine) : list GuardrailConfig :=
  match id with
  | Some sid => if bool_decide (sid = "") then [] else option_list (getConfig st sid e)
  | None => []
  end.

Definition getApplicableConfigs (input : GuardrailCheckInput) (e : Engine) : list GuardrailConfig :=
  option_list (getConfig g_global "default" e)
  ++ scoped g_venue (gi_venueId input) e
  ++ scoped g_sleeve (gi_sleeveId input) e
  ++ scoped g_strategy (gi_strategyId input) e.

(** [minutesSinceLastFailure > config.circuitBreakerResetMinutes]. *)
Definition reset_window_passed (now last : Z) (i : GuardrailConfigInput) : bool :=
  n_gt (n_div (num_of_Z (now - last)) (num_of_Z (1000 * 60))) (num_of_Z (circuitBreakerResetMinutes i)).

(** The answer, and the configuration after the call (a passed window clears
    the failure count). *)
Definition isCircuitBreakerOpen (now : Z) (c : GuardrailConfig) : bool * GuardrailConfig :=
  let i := gc_in c in
  if negb (circuitBreakerEnabled i) then (false, c)
  else if failureCount i <? maxFailuresBeforeBreaker i then (false, c)
  else match lastFailureAt i with
       | Some last =>
           if reset_window_passed now last i
           then (false, with_in c (set_failures 0 (lastFailureAt i) i))
           else (true, c)
       | None => (true, c)
       end.

Definition getCircuitBreakerResetTime (c : GuardrailConfig) : option Z :=
  match lastFailureAt (gc_in c) with
  | Some last => Some (last + circuitBreakerResetMinutes (gc_in c) * 60 * 1000)
  | None => None
  end.

Definition resetDailyNotionalIfNeeded (now : Z) (c : GuardrailConfig) : GuardrailConfig :=
  let i := gc_in c in
  if next_local_midnight (dailyResetAt i) <=? now
  then with_in c (set_daily (dec_of_Z 0) now i) else c.

(** ** Methods *)

Definition guardrail_id (i : GuardrailConfigInput) (now : Z) : string :=
  "guardrail_" +:+ GuardrailScope_str (scopeType i) +:+ "_" +:+ scopeId i +:+ "_" +:+ z_str now.

(** [createConfig]: drops the configurations of the same scope, then stores
    the new one. *)
Definition createConfig (input : GuardrailConfigInput) (now : Z) (e : Engine) : GuardrailConfig * Engine :=
  let kept := List.filter (fun kv => negb (same_scope (scopeType input) (scopeId input) kv.2)) e in
  let config := {| gc_id := guardrail_id input now; gc_in := input; createdAt := now; updatedAt := now |} in
  (config, jm_set (gc_id config) config kept).

Definition new_ExecutionGuardrailEngine (loadedAt now : Z) : Engine :=
  (createConfig (DEFAULT_GLOBAL_GUARDRAIL_CONFIG loadedAt) now []).2.

Definition violation (t : ViolationType) (m : string) (details : record_) : GuardrailViolationInput :=
  {| v_type := t; v_message := m; v_blocked := true; v_details := details |}.

(** The two limits of a single action. *)
Definition single_action_violations (input : GuardrailCheckInput) (i : GuardrailConfigInput)
    : list GuardrailViolationInput :=
  match maxSingleActionNotionalUsd i with
  | Some m =>
      if d_gt (notionalUsd input) m then
        [violation max_notional
           ("Action notional " +:+ d_toString (notionalUsd input) +:+ " exceeds maximum " +:+ d_toString m)
           [("attempted", JStr (d_toString (notionalUsd input))); ("limit", JStr (d_toString m))]]
      else []
  | None => []
  end ++
  match minActionNotionalUsd i with
  | Some m =>
      if d_lt (notionalUsd input) m then
        [violation min_notional
           ("Action notional " +:+ d_toString (notionalUsd input) +:+ " below minimum " +:+ d_toString m)
           [("attempted", JStr (d_toString (notionalUsd input))); ("limit", JStr (d_toString m))]]
      else []
  | None => []
  end.

(** The daily limit; the configuration after the daily reset. *)
Definition daily_violations (now : Z) (input : GuardrailCheckInput) (c : GuardrailConfig)
    : list GuardrailViolationInput * GuardrailConfig :=
  match maxDailyNotionalUsd (gc_in c) with
  | Some m =>
      let c' := resetDailyNotionalIfNeeded now c in
      let projectedDaily := d_plus (dailyNotionalUsd (gc_in c')) (notionalUsd input) in
      (if d_gt projectedDaily m then
         [violation max_notional
            ("Daily notional would exceed limit: " +:+ d_toString projectedDaily +:+ " > " +:+ d_toString m)
            [("currentDaily", JStr (d_toString (dailyNotionalUsd (gc_in c'))));
             ("attempted", JStr (d_toString (notionalUsd input))); ("limit", JStr (d_toString m))]]
       else [], c')
  | None => ([], c)
  end.

(** The body of the loop of [check] for one configuration. *)
Definition check_config (now : Z) (input : GuardrailCheckInput) (c : GuardrailConfig)
    : list GuardrailViolationInput * list string * GuardrailConfig :=
  let i := gc_in c in
  if killSwitchEnabled i && killSwitchTriggered i then
    ([violation kill_switch
        ("Kill switch active: " +:+ or_else (killSwitchReason i) "Emergency halt triggered")
        [("triggeredAt", match killSwitchTriggeredAt i with Some t => JDate t | None => JUndefined end);
         ("triggeredBy", JStrOpt (killSwitchTriggeredBy i))]], [], c)
  else
  let '(is_open, c1) := if circuitBreakerEnabled i then isCircuitBreakerOpen now c else (false, c) in
  if is_open : bool then
    ([violation circuit_breaker
        ("Circuit breaker open after " +:+ z_str (maxFailuresBeforeBreaker i) +:+ " failures")
        [("failureCount", JInt (failureCount (gc_in c1)));
         ("resetAt", match getCircuitBreakerResetTime c1 with Some t => JDate t | None => JUndefined end)]],
     [], c1)
  else
  let single := single_action_violations input (gc_in c1) in
  let '(day, c2) := daily_violations now input c1 in
  let warnings :=
    match maxConcurrentExecutions (gc_in c2) with
    | Some n => if negb (n =? 0) && isExecution input
                then ["Concurrency check: max " +:+ z_str n +:+ " executions"] else []
    | None => []
    end in
  (single ++ day, warnings, c2).

Definition check_step (now : Z) (input : GuardrailCheckInput)
    (acc : list GuardrailViolationInput * list string * Engine) (c : GuardrailConfig)
    : list GuardrailViolationInput * list string * Engine :=
  let '(vs, ws, e) := acc in
  let '(vs', ws', c') := check_config now input c in
  (vs ++ vs', ws ++ ws', jm_set (gc_id c') c' e).

Definition check (now : Z) (input : GuardrailCheckInput) (e : Engine) : GuardrailCheckResult * Engine :=
  let '(vs, ws, e') := foldl (check_step now input) ([], [], e) (getApplicableConfigs input e) in
  ({| gr_allowed := negb (existsb v_blocked vs); gr_violations := vs; gr_warnings := ws |}, e').

Definition triggerKillSwitch (configId triggeredBy reason : string) (now : Z) (e : Engine)
    : Result GuardrailConfig JsError * Engine :=
  match jm_get configId e with
  | None => (Err (Error_ ("Guardrail config not found: " +:+ configId)), e)
  | Some c =>
      if negb (killSwitchEnabled (gc_in c)) then
        (Err (Error_ ("Kill switch not enabled for config: " +:+ configId)), e)
      else
        let c' := touch now (with_in c (set_kill true (Some now) (Some triggeredBy) (Some reason) (gc_in c))) in
        (Ok c', jm_set configId c' e)
  end.

Definition resetKillSwitch (configId resetBy : string) (now : Z) (e : Engine)
    : Result GuardrailConfig JsError * Engine :=
  match jm_get configId e with
  | None => (Err (Error_ ("Guardrail config not found: " +:+ configId)), e)
  | Some c =>
      let c' := touch now (with_in c (set_kill false None None None (gc_in c))) in
      (Ok c', jm_set configId c' e)
  end.

(** The failure count after the reset check of [recordFailure]. *)
Definition failures_before (now : Z) (i : GuardrailConfigInput) : Z :=
  match lastFailureAt i with
  | Some last => if reset_window_passed now last i then 0 else failureCount i
  | None => failureCount i
  end.

Definition recordFailure (configId : string) (now : Z) (e : Engine) : option GuardrailConfig * Engine :=
  match jm_get configId e with
  | Some c =>
      if negb (circuitBreakerEnabled (gc_in c)) then (None, e)
      else
        let i := gc_in c in
        let c' := touch now (with_in c (set_failures (failures_before now i + 1) (Some now) i)) in
        (Some c', jm_set configId c' e)
  | None => (None, e)
  end.

Definition recordSuccess (configId : string) (notional : dec) (now : Z) (e : Engine)
    : option GuardrailConfig * Engine :=
  match jm_get configId e with
  | None => (None, e)
  | Some c =>
      let c1 := if 0 <? failureCount (gc_in c)
                then with_in c (set_failures 0 None (gc_in c)) else c in
      let c2 := resetDailyNotionalIfNeeded now c1 in
      let c3 := touch now (with_in c2
        (set_daily (d_plus (dailyNotionalUsd (gc_in c2)) notional) (dailyResetAt (gc_in c2)) (gc_in c2))) in
      (Some c3, jm_set configId c3 e)
  end.

(** [{ action, reason? }]. *)
Definition checkPartialFill (configId : string) (targetSize filledSize : dec) (e : Engine)
    : Result (PartialFillAction * option string) JsError :=
  match jm_get configId e with
  | None => Err (Error_ ("Guardrail config not found: " +:+ configId))
  | Some c =>
      let i := gc_in c in
      if d_lte targetSize (dec_of_Z 0) then Ok (partialFillAction i, None)
      else
        let fillPct := d_times (d_div filledSize targetSize) (dec_of_Z 100) in
        if d_gte fillPct (minFillPctRequired i) then Ok (pf_continue, None)
        else
          let reason := "Partial fill " +:+ d_toFixedN 2 fillPct +:+ "% below minimum "
                        +:+ d_toString (minFillPctRequired i) +:+ "%" in
          match partialFillAction i with
          | pf_block => Ok (pf_block, Some reason)
          | pf_rollback => Ok (pf_rollback, Some reason)
          | pf_continue => Ok (pf_continue, Some reason)
          end
  end.

(** The singleton: [globalGuardrailEngine] as an optional engine. *)
Definition getExecutionGuardrailEngine (loadedAt now : Z) (g : option Engine) : Engine * option Engine :=
  match g with
  | Some e => (e, g)
  | None => let e := new_ExecutionGuardrailEngine loadedAt now in (e, Some e)
  end.

Definition resetExecutionGuardrailEngine (g : option Engine) : option Engine := None.

(** ** Traces and the engine's invariant *)

Inductive gop :=
| GCreate (input : GuardrailConfigInput) (now : Z)
| GCheck (input : GuardrailCheckInput) (now : Z)
| GTrigger (id triggeredBy reason : string) (now : Z)
| GReset (id resetBy : string) (now : Z)
| GFailure (id : string) (now : Z)
| GSuccess (id : string) (notional : dec) (now : Z).

Definition run_gop (e : Engine) (op : gop) : Engine :=
  match op with
  | GCreate input now => (createConfig input now e).2
  | GCheck input now => (check now input e).2
  | GTrigger id by_ reason now => (triggerKillSwitch id by_ reason now e).2
  | GReset id by_ now => (resetKillSwitch id by_ now e).2
  | GFailure id now => (recordFailure id now e).2
  | GSuccess id n now => (recordSuccess id n now e).2
  end.

(** Configurations are stored under their own id, which names their scope;
    no two share a scope. *)
Definition wf_engine (e : Engine) : Prop :=
  NoDup (jm_keys e) /\
  (forall k c, (k, c) ∈ e -> gc_id c = k /\ k = guardrail_id (gc_in c) (createdAt c)) /\
  (forall k1 c1 k2 c2, (k1, c1) ∈ e -> (k2, c2) ∈ e ->
     scopeType (gc_in c1) = scopeType (gc_in c2) -> scopeId (gc_in c1) = scopeId (gc_in c2) -> k1 = k2).

(** [input] is in the scope of the configuration. *)
Definition applies (i : GuardrailConfigInput) (input : GuardrailCheckInput) : Prop :=
  match scopeType i with
  | g_global => scopeId i = "default"
  | g_venue => gi_venueId input = Some (scopeId i) /\ scopeId i <> ""
  | g_sleeve => gi_sleeveId input = Some (scopeId i) /\ scopeId i <> ""
  | g_strategy => gi_strategyId input = Some (scopeId i) /\ scopeId i <> ""
  end.

(** The notional already used on the day of [now]. *)
Definition daily_used (now : Z) (i : GuardrailConfigInput) : dec :=
  if next_local_midnight (dailyResetAt i) <=? now then dec_of_Z 0 else dailyNotionalUsd i.

(** What a configuration allows, as a specification. *)
Definition permits (now : Z) (input : GuardrailCheckInput) (c : GuardrailConfig) : Prop :=
  let i := gc_in c in
  ~ (killSwitchEnabled i = true /\ killSwitchTriggered i = true) /\
  (circuitBreakerEnabled i = true -> maxFailuresBeforeBreaker i <= failureCount i ->
     exists last, lastFailureAt i = Some last /\ reset_window_passed now last i = true) /\
  (forall m, maxSingleActionNotionalUsd i = Some m -> d_gt (notionalUsd input) m = false) /\
  (forall m, minActionNotionalUsd i = Some m -> d_lt (notionalUsd input) m = false) /\
  (forall m, maxDailyNotionalUsd i = Some m ->
     d_gt (d_plus (daily_used now i) (notionalUsd input)) m = false).

(** Same identity: what every method but [createConfig] preserves. *)
Definition same_config (c c' : GuardrailConfig) : Prop :=
  gc_id c' = gc_id c /\ createdAt c' = createdAt c /\
  scopeType (gc_in c') = scopeType (gc_in c) /\ scopeId (gc_in c') = scopeId (gc_in c) /\
  maxDailyNotionalUsd (gc_in c') = maxDailyNotionalUsd (gc_in c) /\
  killSwitchEnabled (gc_in c') = killSwitchEnabled (gc_in c) /\
  circuitBreakerEnabled (gc_in c') = circuitBreakerEnabled (gc_in c) /\
  maxFailuresBeforeBreaker (gc_in c') = maxFailuresBeforeBreaker (gc_in c) /\
  circuitBreakerResetMinutes (gc_in c') = circuitBreakerResetMinutes (gc_in c).
End Guardrails.

(** ** Configuration ids name their scope *)

Section Ids.
Lemma z_str_no_us z : "_"%char ∉ String.list_ascii_of_string (z_str z).
Proof.
  intros H. pose proof (z_str_chars z) as Hz. unfold str_all in Hz. rewrite Forall_forall in Hz.
  destruct (Hz _ H) as [[y Hy]|Hy]; [|done].
  revert Hy. unfold pretty_N_char. by repeat case_match.
Qed.

(** The last separator splits a string in one way. *)
Lemma split_last_us {A} (u : A) l1 l2 d1 d2 :
  u ∉ d1 -> u ∉ d2 -> l1 ++ u :: d1 = l2 ++ u :: d2 -> l1 = l2 /\ d1 = d2.
Proof.
  revert l2. induction l1 as [|a l1 IH]; intros l2 H1 H2 E; destruct l2 as [|b l2]; cbn in E.
  - injection E as <-. done.
  - injection E as -> ->. exfalso. apply H1, elem_of_app. right. left.
  - injection E as -> <-. exfalso. apply H2, elem_of_app. right. left.
  - injection E as -> E. by destruct (IH l2 H1 H2 E) as [-> ->].
Qed.

Context `{DL : DecimalLib} `{HE : HostEnv}.

Lemma guardrail_id_inj i j n m :
  guardrail_id i n = guardrail_id j m -> scopeType i = scopeType j /\ scopeId i = scopeId j.
Proof.
  unfold guardrail_id. intros E%(f_equal String.list_ascii_of_string). rewrite !list_ascii_app in E.
  apply app_inv_head in E.
  pose proof (z_str_no_us n) as Hn. pose proof (z_str_no_us m) as Hm.
  cbn [String.list_ascii_of_string app] in E.
  destruct (scopeType i), (scopeType j); cbn in E; try discriminate E; (split; [done|]);
    repeat (injection E as E);
    apply split_last_us in E as [E _]; try done; by apply list_ascii_inj.
Qed.
End Ids.

(** ** Effects of the methods *)

Section Effects.
Context `{DL : DecimalLib} `{HE : HostEnv}.
Implicit Types (e : Engine) (c : GuardrailConfig).

#[global] Instance same_config_preorder : PreOrder same_config.
Proof.
  split; [by intros c; unfold same_config|].
  unfold same_config. intros c1 c2 c3 H1 H2. intuition congruence.
Qed.

Lemma resetDaily_same now c : same_config c (resetDailyNotionalIfNeeded now c).
Proof. unfold resetDailyNotionalIfNeeded. by destruct (_ <=? _). Qed.

Lemma breaker_open_same now c : same_config c (isCircuitBreakerOpen now c).2.
Proof.
  unfold isCircuitBreakerOpen. destruct (negb _); [done|]. destruct (_ <? _); [done|].
  destruct (lastFailureAt _); [|done]. by destruct (reset_window_passed _ _ _).
Qed.

Lemma daily_violations_same now input c : same_config c (daily_violations now input c).2.
Proof.
  unfold daily_violations. destruct (maxDailyNotionalUsd _); [apply resetDaily_same|done].
Qed.

Lemma check_config_same now input c : same_config c (check_config now input c).2.
Proof.
  unfold check_config. destruct (_ && _); [done|].
  destruct (if circuitBreakerEnabled (gc_in c) then _ else _) as [b c1] eqn:E.
  assert (same_config c c1).
  { pose proof (breaker_open_same now c) as H. destruct (circuitBreakerEnabled _); [|by simplify_eq].
    by rewrite E in H. }
  destruct b; [done|].
  pose proof (daily_violations_same now input c1) as H'.
  destruct (daily_violations now input c1) as [day c2]. cbn in *. by etransitivity.
Qed.

(** A set under a present id with the same identity keeps the invariant. *)
Lemma wf_update e c c' :
  wf_engine e -> jm_get (gc_id c) e = Some c -> same_config c c' ->
  wf_engine (jm_set (gc_id c) c' e).
Proof.
  intros (Hnd & Hid & Hsc) Hc (Ei & Ec & Et & Es & _).
  assert (Hin : forall k c0, (k, c0) ∈ jm_set (gc_id c) c' e ->
    exists c1, (k, c1) ∈ e /\ gc_id c0 = gc_id c1 /\ createdAt c0 = createdAt c1 /\
      scopeType (gc_in c0) = scopeType (gc_in c1) /\ scopeId (gc_in c0) = scopeId (gc_in c1)).
  { intros k c0 Hin. apply jm_In_get in Hin; [|by apply jm_set_NoDup].
    rewrite jm_get_set in Hin. case_decide as Hk.
    - simplify_eq. exists c. split; [by apply jm_get_In|done].
    - exists c0. split; [by apply jm_get_In|done]. }
  split_and!.
  - by apply jm_set_NoDup.
  - intros k c0 (c1 & H1 & E1 & E2 & E3 & E4)%Hin. destruct (Hid k c1 H1) as [<- E].
    split; [done|]. rewrite E. unfold guardrail_id. by rewrite E2, E3, E4.
  - intros k1 c1 k2 c2 (d1 & H1 & _ & _ & E1 & E2)%Hin (d2 & H2 & _ & _ & E3 & E4)%Hin ? ?.
    apply (Hsc k1 d1 k2 d2); congruence.
Qed.

Lemma wf_create input now e : wf_engine e -> wf_engine (createConfig input now e).2.
Proof.
  intros (Hnd & Hid & Hsc). cbn [createConfig snd gc_id].
  set (kept := List.filter _ e). set (c := {| gc_id := _ |}).
  assert (Hk : forall k c0, (k, c0) ∈ kept -> (k, c0) ∈ e /\ same_scope (scopeType input) (scopeId input) c0 = false).
  { intros k c0 Hin%list_elem_of_In. apply filter_In in Hin as [Hin%list_elem_of_In H].
    split; [done|]. by apply negb_true_iff. }
  assert (Hndk : NoDup (jm_keys kept)) by by apply jm_filter_NoDup.
  assert (Hin : forall k c0, (k, c0) ∈ jm_set (guardrail_id input now) c kept ->
    (k = guardrail_id input now /\ c0 = c) \/ (k, c0) ∈ kept).
  { intros k c0 Hin. apply jm_In_get in Hin; [|by apply jm_set_NoDup].
    rewrite jm_get_set in Hin. case_decide; [left; by simplify_eq|right; by apply jm_get_In]. }
  assert (Hno : forall c0, same_scope (scopeType input) (scopeId input) c0 = false ->
    scopeType (gc_in c0) = scopeType input -> scopeId (gc_in c0) = scopeId input -> False).
  { intros c0 H E1 E2. unfold same_scope in H. rewrite E1, E2, !bool_decide_true in H; done. }
  split_and!.
  - by apply jm_set_NoDup.
  - intros k c0 [[-> ->]|[H _]%Hk]%Hin; [done|]. by apply Hid.
  - intros k1 c1 k2 c2 [[-> ->]|[H1 N1]%Hk]%Hin [[-> ->]|[H2 N2]%Hk]%Hin E1 E2; cbn in *; try done.
    + exfalso. by eapply Hno.
    + exfalso. by eapply Hno.
    + by eapply Hsc.
Qed.

(** ** Lookup by scope *)

Lemma getConfig_spec st sid e c :
  wf_engine e ->
  getConfig st sid e = Some c <->
  jm_get (gc_id c) e = Some c /\ scopeType (gc_in c) = st /\ scopeId (gc_in c) = sid.
Proof.
  intros (Hnd & Hid & Hsc). unfold getConfig. split.
  - intros H. pose proof (List.find_some _ _ H) as [Hin Hs].
    unfold same_scope in Hs. apply andb_true_iff in Hs as [->%bool_decide_eq_true ->%bool_decide_eq_true].
    apply list_elem_of_In, list_elem_of_fmap in Hin as ([k c'] & -> & Hin). cbn.
    destruct (Hid k c' Hin) as [-> _]. split; [by apply jm_In_get|done].
  - intros (Hc & <- & <-). apply jm_get_In in Hc as Hin.
    destruct (List.find _ _) as [c'|] eqn:E.
    + pose proof (List.find_some _ _ E) as [Hin' Hs].
      unfold same_scope in Hs. apply andb_true_iff in Hs as [Hs1%bool_decide_eq_true Hs2%bool_decide_eq_true].
      apply list_elem_of_In, list_elem_of_fmap in Hin' as ([k c0] & -> & Hin').
      cbn in *. assert (gc_id c = k) as Ek by (by eapply Hsc).
      apply jm_In_get in Hin'; [|done]. by rewrite <- Ek, Hc in Hin'.
    + exfalso. assert (Hn : same_scope (scopeType (gc_in c)) (scopeId (gc_in c)) c = true).
      { unfold same_scope. by rewrite !bool_decide_true. }
      rewrite (List.find_none _ _ E c) in Hn; [done|].
      apply list_elem_of_In, list_elem_of_fmap. by exists (gc_id c, c).
Qed.

Lemma scoped_spec st id e c :
  wf_engine e ->
  c ∈ scoped st id e <->
  jm_get (gc_id c) e = Some c /\ scopeType (gc_in c) = st /\
  id = Some (scopeId (gc_in c)) /\ scopeId (gc_in c) <> "".
Proof.
  intros Hwf. unfold scoped. destruct id as [sid|]; [|split; [intros H; inversion H|by intros (_&_&?&_)]].
  destruct (bool_decide (sid = "")) eqn:E.
  - apply bool_decide_eq_true in E as ->.
    split; [intros H; inversion H|]. intros (_ & _ & ? & ?). congruence.
  - apply bool_decide_eq_false in E. pose proof (getConfig_spec st sid e c Hwf) as G.
    destruct (getConfig st sid e) as [c'|]; cbn.
    + rewrite list_elem_of_singleton. split; [intros ->; destruct G as [G _]; destruct G as (?&?&?); [done|]; subst; done|].
      intros (? & ? & [= ->] & ?). assert (Some c' = Some c) by (by apply G). congruence.
    + split; [intros H; inversion H|]. intros (? & ? & [= ->] & ?).
      assert (None = Some c) by (by apply G). done.
Qed.

Lemma applicable_spec input e c :
  wf_engine e ->
  c ∈ getApplicableConfigs input e <-> jm_get (gc_id c) e = Some c /\ applies (gc_in c) input.
Proof.
  intros Hwf. unfold getApplicableConfigs. rewrite !elem_of_app, !scoped_spec by done.
  assert (c ∈ option_list (getConfig g_global "default" e) <-> getConfig g_global "default" e = Some c) as ->.
  { destruct (getConfig _ _ _); cbn; [rewrite list_elem_of_singleton; split; congruence|].
    split; [intros H; inversion H|done]. }
  rewrite getConfig_spec by done. unfold applies.
  destruct (scopeType (gc_in c)); intuition (try congruence; try discriminate).
Qed.

Lemma applicable_NoDup input e :
  wf_engine e -> NoDup (gc_id <$> getApplicableConfigs input e).
Proof.
  intros Hwf. unfold getApplicableConfigs.
  assert (H1 : forall (o : option GuardrailConfig), NoDup (gc_id <$> option_list o)).
  { intros [c|]; cbn; [apply NoDup_singleton|constructor]. }
  assert (Hs : forall st id, NoDup (gc_id <$> scoped st id e)).
  { intros st [sid|]; cbn; [|constructor]. destruct (bool_decide _); [constructor|apply H1]. }
  assert (Hty : forall st id i, i ∈ gc_id <$> scoped st id e ->
    exists c, jm_get i e = Some c /\ scopeType (gc_in c) = st).
  { intros st id i (c & -> & Hc)%list_elem_of_fmap. apply scoped_spec in Hc as (? & ? & _); [|done]. eauto. }
  assert (Hg : forall i, i ∈ gc_id <$> option_list (getConfig g_global "default" e) ->
    exists c, jm_get i e = Some c /\ scopeType (gc_in c) = g_global).
  { intros i (c & -> & Hc)%list_elem_of_fmap. destruct (getConfig _ _ _) eqn:E; cbn in Hc; [|inversion Hc].
    apply list_elem_of_singleton in Hc as ->. apply getConfig_spec in E as (? & ? & _); eauto. }
  rewrite !fmap_app. repeat (apply NoDup_app; split_and!); auto.
  all: intros i Hi; rewrite ?elem_of_app; intros Hj; intuition;
    repeat match goal with
    | H : i ∈ gc_id <$> scoped _ _ _ |- _ => apply Hty in H as (? & ? & ?)
    | H : i ∈ gc_id <$> option_list _ |- _ => apply Hg in H as (? & ? & ?)
    end; congruence.
Qed.
End Effects.

(** ** The loop of [check] *)

Section CheckLoop.
Context `{DL : DecimalLib} `{HE : HostEnv}.
Implicit Types (e : Engine) (c : GuardrailConfig).

Lemma check_fold_violations now input l : forall vs ws e,
  (foldl (check_step now input) (vs, ws, e) l).1.1 =
  vs ++ concat ((fun c => (check_config now input c).1.1) <$> l).
Proof.
  induction l as [|c l IH]; intros vs ws e; cbn [foldl]; [by rewrite app_nil_r|].
  unfold check_step at 2. destruct (check_config now input c) as [[vs' ws'] c'] eqn:E.
  rewrite IH. cbn. by rewrite E, <- app_assoc.
Qed.

(** Every applicable configuration is replaced by what its iteration leaves. *)
Lemma check_fold_engine now input l : forall vs ws e,
  wf_engine e -> NoDup (gc_id <$> l) -> (forall c, c ∈ l -> jm_get (gc_id c) e = Some c) ->
  wf_engine (foldl (check_step now input) (vs, ws, e) l).2 /\
  (forall c, c ∈ l -> jm_get (gc_id c) (foldl (check_step now input) (vs, ws, e) l).2
                      = Some (check_config now input c).2) /\
  (forall k, k ∉ gc_id <$> l ->
     jm_get k (foldl (check_step now input) (vs, ws, e) l).2 = jm_get k e).
Proof.
  induction l as [|c l IH]; intros vs ws e Hwf Hnd Hl; cbn [foldl].
  { split_and!; try done. intros c Hc; inversion Hc. }
  unfold check_step at 2 4 6. destruct (check_config now input c) as [[vs' ws'] c'] eqn:E.
  pose proof (check_config_same now input c) as Hs. rewrite E in Hs. cbn [snd] in Hs.
  assert (gc_id c' = gc_id c) as -> by apply Hs.
  apply NoDup_cons in Hnd as [Hc Hnd].
  assert (Hg : jm_get (gc_id c) e = Some c) by (apply Hl; left).
  destruct (IH (vs ++ vs') (ws ++ ws') (jm_set (gc_id c) c' e)) as (H1 & H2 & H3).
  - by apply wf_update.
  - done.
  - intros c0 H0. rewrite jm_get_set_ne; [apply Hl; by right|].
    intros Ec. apply Hc, list_elem_of_fmap. by exists c0.
  - split_and!; [done| |].
    + intros c0 [->|H0]%elem_of_cons; [|by apply H2].
      rewrite H3 by done. rewrite E. apply jm_get_set_eq.
    + intros k [Hk1 Hk2]%not_elem_of_cons. rewrite H3 by done. by apply jm_get_set_ne.
Qed.

Lemma check_engine now input e :
  wf_engine e ->
  wf_engine (check now input e).2 /\
  forall k c, jm_get k e = Some c ->
    jm_get k (check now input e).2 = Some c /\ ~ applies (gc_in c) input \/
    jm_get k (check now input e).2 = Some (check_config now input c).2 /\ applies (gc_in c) input.
Proof.
  intros Hwf.
  destruct (check_fold_engine now input (getApplicableConfigs input e) [] [] e) as (H1 & H2 & H3);
    [done|by apply applicable_NoDup|by intros c Hc%applicable_spec; [apply Hc|]|].
  unfold check. destruct (foldl _ _ _) as [[vs ws] e'] eqn:E. cbn [snd] in *.
  split; [done|]. intros k c Hc.
  assert (gc_id c = k) as <- by (by apply jm_get_In in Hc as Hin; destruct Hwf as (_ & Hid & _); apply (Hid k c)).
  destruct (decide (gc_id c ∈ gc_id <$> getApplicableConfigs input e)) as [Hin|Hin].
  - right. apply list_elem_of_fmap in Hin as (c0 & Ei & Hc0).
    pose proof Hc0 as [Hg Ha]%applicable_spec; [|done].
    assert (c0 = c) as -> by congruence. split; [by apply H2|done].
  - left. split; [by rewrite H3|]. intros Ha. apply Hin, list_elem_of_fmap. exists c.
    split; [done|]. by apply applicable_spec.
Qed.

Lemma check_violations_blocked now input c :
  Forall (fun v => v_blocked v = true) (check_config now input c).1.1.
Proof.
  unfold check_config. destruct (_ && _); [by repeat constructor|].
  destruct (if circuitBreakerEnabled (gc_in c) then _ else _) as [[] c1]; [by repeat constructor|].
  assert (Forall (fun v => v_blocked v = true) (daily_violations now input c1).1).
  { unfold daily_violations. destruct (maxDailyNotionalUsd _); [|constructor].
    cbn. destruct (d_gt _ _); by repeat constructor. }
  destruct (daily_violations now input c1) as [day c2]. cbn in *.
  apply Forall_app; split; [|done]. unfold single_action_violations.
  apply Forall_app; split.
  - destruct (maxSingleActionNotionalUsd _); [|constructor]. destruct (d_gt _ _); by repeat constructor.
  - destruct (minActionNotionalUsd _); [|constructor]. destruct (d_lt _ _); by repeat constructor.
Qed.

Lemma allowed_iff_no_violation now input e :
  gr_allowed (check now input e).1 = true <->
  forall c, c ∈ getApplicableConfigs input e -> (check_config now input c).1.1 = [].
Proof.
  unfold check. pose proof (check_fold_violations now input (getApplicableConfigs input e) [] [] e) as H.
  destruct (foldl _ _ _) as [[vs ws] e']. cbn [fst gr_allowed] in *. subst vs. rewrite negb_true_iff. cbn [app].
  induction (getApplicableConfigs input e) as [|c l IH]; cbn.
  { split; [|done]. intros _ c Hc. inversion Hc. }
  rewrite existsb_app, orb_false_iff, IH.
  assert (existsb v_blocked (check_config now input c).1.1 = false <-> (check_config now input c).1.1 = []) as ->.
  { pose proof (check_violations_blocked now input c) as Hb.
    destruct ((check_config now input c).1.1) as [|v vs]; [done|].
    inversion Hb as [|? ? Hv]. cbn. rewrite Hv. done. }
  setoid_rewrite elem_of_cons. split; [intros [? ?] ? [->|?]; auto|auto].
Qed.

Lemma breaker_open_iff now c :
  circuitBreakerEnabled (gc_in c) = true ->
  (isCircuitBreakerOpen now c).1 = false <->
  (maxFailuresBeforeBreaker (gc_in c) <= failureCount (gc_in c) ->
     exists last, lastFailureAt (gc_in c) = Some last /\ reset_window_passed now last (gc_in c) = true).
Proof.
  intros He. unfold isCircuitBreakerOpen. rewrite He. cbn.
  destruct (Z.ltb_spec (failureCount (gc_in c)) (maxFailuresBeforeBreaker (gc_in c))); cbn.
  { split; [lia|done]. }
  destruct (lastFailureAt (gc_in c)) as [last|]; cbn.
  - destruct (reset_window_passed now last (gc_in c)) eqn:E; cbn.
    + split; [eauto|done].
    + split; [done|]. intros (l & [= <-] & ?); [done|congruence].
  - split; [done|]. intros (l & ? & ?); done.
Qed.

(** An iteration reports no violation exactly when the configuration permits. *)
Lemma check_config_permits now input c :
  (check_config now input c).1.1 = [] <-> permits now input c.
Proof.
  unfold check_config, permits.
  destruct (killSwitchEnabled (gc_in c) && killSwitchTriggered (gc_in c)) eqn:Ek.
  { apply andb_true_iff in Ek as [? ?]. cbn. split; [done|]. intros [Hn _]. exfalso. auto. }
  assert (Hk : ~ (killSwitchEnabled (gc_in c) = true /\ killSwitchTriggered (gc_in c) = true)).
  { intros [H1 H2]. by rewrite H1, H2 in Ek. }
  destruct (if circuitBreakerEnabled (gc_in c) then _ else _) as [b c1] eqn:Eb.
  assert (Hb : b = false <-> (circuitBreakerEnabled (gc_in c) = true ->
    maxFailuresBeforeBreaker (gc_in c) <= failureCount (gc_in c) ->
    exists last, lastFailureAt (gc_in c) = Some last /\ reset_window_passed now last (gc_in c) = true)).
  { destruct (circuitBreakerEnabled (gc_in c)) eqn:Ee; [|simplify_eq; split; done].
    pose proof (breaker_open_iff now c Ee) as H. rewrite Eb in H. cbn in H. rewrite H. tauto. }
  assert (Hsame : maxSingleActionNotionalUsd (gc_in c1) = maxSingleActionNotionalUsd (gc_in c) /\
    minActionNotionalUsd (gc_in c1) = minActionNotionalUsd (gc_in c) /\
    maxDailyNotionalUsd (gc_in c1) = maxDailyNotionalUsd (gc_in c) /\
    daily_used now (gc_in c1) = daily_used now (gc_in c)).
  { destruct (circuitBreakerEnabled (gc_in c)); [|by simplify_eq].
    unfold isCircuitBreakerOpen in Eb. repeat case_match; by simplify_eq. }
  destruct b. { cbn. split; [done|]. intros (_ & H & _). by apply Hb in H. }
  destruct Hsame as (E1 & E2 & E3 & E4).
  assert (Hday : (daily_violations now input c1).1 = [] <-> forall m, maxDailyNotionalUsd (gc_in c) = Some m ->
     d_gt (d_plus (daily_used now (gc_in c)) (notionalUsd input)) m = false).
  { unfold daily_violations. rewrite E3, <- E4. destruct (maxDailyNotionalUsd (gc_in c)) as [m|]; [|done].
    assert (dailyNotionalUsd (gc_in (resetDailyNotionalIfNeeded now c1)) = daily_used now (gc_in c1)) as ->.
    { unfold resetDailyNotionalIfNeeded, daily_used. by destruct (_ <=? _). }
    cbn. destruct (d_gt _ m) eqn:E; (split; [try done; intros _ ? [= <-]; done|]);
      [intros H; by rewrite H in E|done]. }
  destruct (daily_violations now input c1) as [day c2]. cbn [fst snd] in *.
  unfold single_action_violations. rewrite E1, E2.
  split.
  - intros ([H1 H2]%app_nil & H3)%app_nil. split_and!; try done.
    + by apply Hb.
    + intros m Em. rewrite Em in H1. by destruct (d_gt _ m).
    + intros m Em. rewrite Em in H2. by destruct (d_lt _ m).
    + by apply Hday.
  - intros (_ & _ & H1 & H2 & H3). apply Hday in H3 as ->. rewrite app_nil_r. apply app_nil. split.
    + destruct (maxSingleActionNotionalUsd (gc_in c)) as [m|]; [|done]. rewrite (H1 m eq_refl). done.
    + destruct (minActionNotionalUsd (gc_in c)) as [m|]; [|done]. rewrite (H2 m eq_refl). done.
Qed.
End CheckLoop.

(** ** Histories *)

Section Histories.
Context `{DL : DecimalLib} `{HE : HostEnv}.
Implicit Types (e : Engine) (c : GuardrailConfig).

Lemma wf_get_id e id c : wf_engine e -> jm_get id e = Some c -> gc_id c = id.
Proof. intros (_ & Hid & _) Hc%jm_get_In. by apply (Hid id c). Qed.

Lemma success_same now n c :
  let c1 := if 0 <? failureCount (gc_in c) then with_in c (set_failures 0 None (gc_in c)) else c in
  let c2 := resetDailyNotionalIfNeeded now c1 in
  same_config c (touch now (with_in c2
    (set_daily (d_plus (dailyNotionalUsd (gc_in c2)) n) (dailyResetAt (gc_in c2)) (gc_in c2)))) /\
  killSwitchTriggered (gc_in c2) = killSwitchTriggered (gc_in c).
Proof.
  cbn zeta. unfold resetDailyNotionalIfNeeded.
  destruct (0 <? _); destruct (_ <=? _); done.
Qed.

Lemma check_config_kill now input c :
  killSwitchTriggered (gc_in (check_config now input c).2) = killSwitchTriggered (gc_in c).
Proof.
  unfold check_config. destruct (_ && _); [done|].
  destruct (if circuitBreakerEnabled (gc_in c) then _ else _) as [b c1] eqn:E.
  assert (killSwitchTriggered (gc_in c1) = killSwitchTriggered (gc_in c)) as <-.
  { destruct (circuitBreakerEnabled _); [|by simplify_eq].
    unfold isCircuitBreakerOpen in E. repeat case_match; by simplify_eq. }
  destruct b; [done|]. unfold daily_violations, resetDailyNotionalIfNeeded.
  destruct (maxDailyNotionalUsd _); [|done]. cbn. by destruct (_ <=? _).
Qed.

(** Creating a configuration leaves those of other scopes alone. *)
Lemma create_keeps e input now id c : wf_engine e -> jm_get id e = Some c ->
  ~ (scopeType input = scopeType (gc_in c) /\ scopeId input = scopeId (gc_in c)) ->
  jm_get id (createConfig input now e).2 = Some c.
Proof.
  intros Hwf Hc Hop. unfold createConfig. cbn [snd gc_id]. rewrite jm_get_set_ne.
  - apply jm_In_get.
    + apply jm_filter_NoDup, Hwf.
    + apply list_elem_of_In, filter_In. split; [by apply list_elem_of_In, jm_get_In|].
      cbn. unfold same_scope. apply negb_true_iff, andb_false_iff.
      destruct (decide (scopeType (gc_in c) = scopeType input)) as [E1|?];
        [right|left]; apply bool_decide_eq_false; [|done]. intros E2. apply Hop. by split.
  - intros E. destruct Hwf as (_ & Hid & _). apply jm_get_In in Hc. destruct (Hid id c Hc) as [_ E'].
    rewrite E' in E. apply guardrail_id_inj in E as [? ?]. apply Hop. by split.
Qed.

(** A call leaves another configuration alone, or keeps its identity. *)
Lemma gop_config e op id c :
  wf_engine e -> jm_get id e = Some c ->
  (forall input now, op = GCreate input now ->
     ~ (scopeType input = scopeType (gc_in c) /\ scopeId input = scopeId (gc_in c))) ->
  exists c', jm_get id (run_gop e op) = Some c' /\ same_config c c' /\
    ((forall by_ reason now, op <> GTrigger id by_ reason now) ->
     (forall by_ now, op <> GReset id by_ now) ->
     killSwitchTriggered (gc_in c') = killSwitchTriggered (gc_in c)).
Proof.
  intros Hwf Hc Hop. pose proof (wf_get_id _ _ _ Hwf Hc) as Ei.
  destruct op as [input now|input now|id' by_ reason now|id' by_ now|id' now|id' n now]; cbn [run_gop].
  - exists c. split; [|done]. by apply create_keeps, (Hop input now).
  - destruct (check_engine now input e Hwf) as [_ H].
    destruct (H id c Hc) as [[E _]|[E _]]; [by exists c|].
    eexists. split; [exact E|]. split; [apply check_config_same|]. intros _ _. apply check_config_kill.
  - unfold triggerKillSwitch. destruct (jm_get id' e) as [c0|] eqn:E0; [|by exists c].
    destruct (negb _); [by exists c|]. cbn [snd]. rewrite jm_get_set. case_decide; [|by exists c].
    subst id'. simplify_eq. eexists. split; [done|]. split; [done|]. intros H _. by destruct (H by_ reason now).
  - unfold resetKillSwitch. destruct (jm_get id' e) as [c0|] eqn:E0; [|by exists c].
    cbn [snd]. rewrite jm_get_set. case_decide; [|by exists c].
    subst id'. simplify_eq. eexists. split; [done|]. split; [done|]. intros _ H. by destruct (H by_ now).
  - unfold recordFailure. destruct (jm_get id' e) as [c0|] eqn:E0; [|by exists c].
    destruct (negb _); [by exists c|]. cbn [snd]. rewrite jm_get_set. case_decide; [|by exists c].
    subst id'. simplify_eq. by eexists.
  - unfold recordSuccess. destruct (jm_get id' e) as [c0|] eqn:E0; [|by exists c].
    cbn [snd]. rewrite jm_get_set. case_decide; [|by exists c].
    subst id'. simplify_eq. eexists. split; [done|]. destruct (success_same now n c). auto.
Qed.

Lemma wf_gop e op : wf_engine e -> wf_engine (run_gop e op).
Proof.
  intros Hwf. destruct op as [input now|input now|id by_ reason now|id by_ now|id now|id n now]; cbn [run_gop].
  - by apply wf_create.
  - by apply check_engine.
  - unfold triggerKillSwitch. destruct (jm_get id e) as [c|] eqn:E; [|done].
    destruct (negb _); [done|]. pose proof (wf_get_id _ _ _ Hwf E); subst id. by apply wf_update.
  - unfold resetKillSwitch. destruct (jm_get id e) as [c|] eqn:E; [|done].
    pose proof (wf_get_id _ _ _ Hwf E); subst id. by apply wf_update.
  - unfold recordFailure. destruct (jm_get id e) as [c|] eqn:E; [|done].
    destruct (negb _); [done|]. pose proof (wf_get_id _ _ _ Hwf E); subst id. by apply wf_update.
  - unfold recordSuccess. destruct (jm_get id e) as [c|] eqn:E; [|done].
    pose proof (wf_get_id _ _ _ Hwf E); subst id. apply wf_update; [done|done|]. apply (success_same now n c).
Qed.

Lemma wf_new loadedAt now : wf_engine (new_ExecutionGuardrailEngine loadedAt now).
Proof.
  apply wf_create. split_and!; [constructor|intros k c H; inversion H|intros ? ? ? ? H; inversion H].
Qed.

Lemma wf_history loadedAt now ops : wf_engine (foldl run_gop (new_ExecutionGuardrailEngine loadedAt now) ops).
Proof.
  assert (forall e, wf_engine e -> wf_engine (foldl run_gop e ops)) as H.
  { induction ops as [|op ops IH]; intros e He; cbn; [done|]. by apply IH, wf_gop. }
  apply H, wf_new.
Qed.

Lemma allowed_iff now input e :
  gr_allowed (check now input e).1 = true <->
  (forall c, c ∈ getApplicableConfigs input e -> permits now input c).
Proof.
  rewrite allowed_iff_no_violation. split; intros H c Hc; by apply check_config_permits, H.
Qed.

(** Failures in a row, each within the reset window of the one before. *)
Fixpoint chained (i : GuardrailConfigInput) (t : Z) (ts : list Z) : Prop :=
  match ts with
  | [] => True
  | t' :: ts' => reset_window_passed t' t i = false /\ chained i t' ts'
  end.

Lemma chained_window i j t ts :
  circuitBreakerResetMinutes i = circuitBreakerResetMinutes j -> chained i t ts -> chained j t ts.
Proof.
  intros E. revert t. induction ts as [|t' ts IH]; intros t; cbn; [done|].
  unfold reset_window_passed. rewrite E. intros [? ?]. auto.
Qed.

Lemma failures_count id ts : forall e c t,
  wf_engine e -> jm_get id e = Some c -> circuitBreakerEnabled (gc_in c) = true ->
  lastFailureAt (gc_in c) = Some t -> chained (gc_in c) t ts ->
  exists c', jm_get id (foldl (fun e t => (recordFailure id t e).2) e ts) = Some c' /\
    same_config c c' /\ failureCount (gc_in c') = failureCount (gc_in c) + Z.of_nat (length ts) /\
    lastFailureAt (gc_in c') = Some (List.last ts t).
Proof.
  induction ts as [|t' ts IH]; intros e c t Hwf Hc He Ht Hch; cbn [foldl length].
  { exists c. split_and!; try done. lia. }
  destruct Hch as [Hw Hch].
  assert (Hstep : (recordFailure id t' e).2 = jm_set id (touch t' (with_in c
    (set_failures (failureCount (gc_in c) + 1) (Some t') (gc_in c)))) e).
  { unfold recordFailure. rewrite Hc, He. cbn [negb snd]. unfold failures_before. by rewrite Ht, Hw. }
  destruct (IH (recordFailure id t' e).2 (touch t' (with_in c
    (set_failures (failureCount (gc_in c) + 1) (Some t') (gc_in c)))) t') as (c' & H1 & H2 & H3 & H4).
  - apply (wf_gop e (GFailure id t') Hwf).
  - rewrite Hstep. apply jm_get_set_eq.
  - done.
  - done.
  - by eapply chained_window; [|exact Hch].
  - exists c'. split_and!; [done| | |].
    + etransitivity; [|exact H2]. done.
    + rewrite H3. cbn. lia.
    + by rewrite H4, last_default.
Qed.
(** Calls that neither reset the kill switch of [id] nor replace its scope
    leave it on. *)
Lemma kill_preserved id c ops : forall e c0,
  Forall (fun op => match op with
                    | GReset id' _ _ => id' <> id
                    | GCreate i _ => ~ (scopeType i = scopeType (gc_in c) /\ scopeId i = scopeId (gc_in c))
                    | _ => True end) ops ->
  wf_engine e -> jm_get id e = Some c0 -> same_config c c0 -> killSwitchTriggered (gc_in c0) = true ->
  wf_engine (foldl run_gop e ops) /\ exists c', jm_get id (foldl run_gop e ops) = Some c' /\
    same_config c c' /\ killSwitchTriggered (gc_in c') = true.
Proof.
  induction ops as [|op ops IH]; intros e c0 Hops Hw Hc Hs Hk; cbn; [eauto|].
  apply Forall_cons in Hops as [Hop Hops].
  destruct (gop_config e op id c0) as (c1 & H1 & H2 & H3); [done|done| |].
  { intros i t ->. destruct Hs as (_ & _ & -> & -> & _). done. }
  apply (IH _ c1); [done|by apply wf_gop|done|by transitivity c0|].
  destruct op as [i t|i t|id' b r t|id' b t|id' t|id' n t]; try by rewrite H3.
  - cbn [run_gop] in H1. unfold triggerKillSwitch in H1.
    destruct (jm_get id' e) as [d|] eqn:E; cbn [snd] in H1; [|congruence].
    destruct (negb _); cbn [snd] in H1; [congruence|]. rewrite jm_get_set in H1.
    case_decide; by simplify_eq.
  - rewrite H3; [done|done|]. intros ? ? [= -> _ _]. done.
Qed.
End Histories.

(** ** Properties *)

Section Properties.
Context `{DL : DecimalLib} `{HE : HostEnv}.

(** [check] allows an action exactly when every configuration whose scope
    the action falls in permits it: no active kill switch, no open circuit
    breaker (below the failure threshold, or the reset window has passed),
    the notional within the single-action bounds, and the day's notional
    plus this action within the daily limit.  The applicable configurations
    are exactly the stored ones whose scope the action names. *)
Theorem guardrail_check_exact (loadedAt t0 : Z) (ops : list gop) (now : Z) (input : GuardrailCheckInput) :
  let e := foldl run_gop (new_ExecutionGuardrailEngine loadedAt t0) ops in
  gr_allowed (check now input e).1 = true <->
  (forall id c, jm_get id e = Some c -> applies (gc_in c) input -> permits now input c).
Proof.
  cbn zeta. pose proof (wf_history loadedAt t0 ops) as Hwf. rewrite allowed_iff.
  split.
  - intros H id c Hc Ha. apply H, applicable_spec; [done|]. by rewrite (wf_get_id _ _ _ Hwf Hc).
  - intros H c [Hc Ha]%applicable_spec; [|done]. by eapply H.
Qed.

(** C31. Once [triggerKillSwitch] has succeeded on a configuration, every
    later check of an action in its scope is refused, after any sequence of
    engine calls that neither resets that kill switch nor replaces the
    configuration of that scope. *)
Theorem kill_switch_holds (e e1 : Engine) (id by_ reason : string) (now later : Z)
    (c : GuardrailConfig) (ops : list gop) (input : GuardrailCheckInput)
    (Hwf : wf_engine e) (Ht : triggerKillSwitch id by_ reason now e = (Ok c, e1))
    (Hops : Forall (fun op => match op with
                              | GReset id' _ _ => id' <> id
                              | GCreate i _ => ~ (scopeType i = scopeType (gc_in c) /\ scopeId i = scopeId (gc_in c))
                              | _ => True end) ops)
    (Ha : applies (gc_in c) input) :
  gr_allowed (check later input (foldl run_gop e1 ops)).1 = false.
Proof.
  assert (Hwf1 : wf_engine e1) by (replace e1 with (run_gop e (GTrigger id by_ reason now)) by
    (cbn [run_gop]; by rewrite Ht); by apply wf_gop).
  assert (Hc : jm_get id e1 = Some c /\ killSwitchEnabled (gc_in c) = true /\ killSwitchTriggered (gc_in c) = true).
  { unfold triggerKillSwitch in Ht. destruct (jm_get id e) as [c0|]; [|done].
    destruct (killSwitchEnabled (gc_in c0)) eqn:E; [|done]. injection Ht as <- <-. by rewrite jm_get_set_eq. }
  destruct (kill_preserved id c ops e1 c) as (Hwf' & c' & Hc' & Hs & Hk); try done; try apply Hc.
  apply not_true_iff_false. rewrite allowed_iff.
  intros H. destruct (H c') as [Hn _].
  - apply applicable_spec; [done|]. rewrite (wf_get_id _ _ _ Hwf' Hc'). split; [done|].
    destruct Hs as (_ & _ & E1 & E2 & _). unfold applies in *. by rewrite E1, E2.
  - apply Hn. split; [|done]. destruct Hs as (_ & _ & _ & _ & _ & -> & _). apply Hc.
Qed.

(** A run of failures recorded on a configuration, each within the reset
    window of the one before, opens its circuit breaker as soon as the run is
    as long as the configured maximum: checks of actions in its scope are
    refused until the reset window has passed since the last failure. *)
Theorem failures_open_breaker (e : Engine) (id : string) (c : GuardrailConfig) (t now : Z) (ts : list Z)
    (input : GuardrailCheckInput) (Hwf : wf_engine e) (Hc : jm_get id e = Some c)
    (He : circuitBreakerEnabled (gc_in c) = true) (H0 : 0 <= failureCount (gc_in c))
    (Hch : chained (gc_in c) t ts)
    (Hlen : maxFailuresBeforeBreaker (gc_in c) <= Z.of_nat (length (t :: ts)))
    (Ha : applies (gc_in c) input)
    (Hnow : reset_window_passed now (List.last ts t) (gc_in c) = false) :
  let e' := foldl (fun e t => (recordFailure id t e).2) e (t :: ts) in
  gr_allowed (check now input e').1 = false.
Proof.
  cbn zeta. cbn [foldl]. set (c1 := touch t (with_in c (set_failures (failures_before t (gc_in c) + 1)
    (Some t) (gc_in c)))).
  assert (Hstep : (recordFailure id t e).2 = jm_set id c1 e).
  { unfold recordFailure. by rewrite Hc, He. }
  assert (Hge : 1 <= failureCount (gc_in c1)).
  { cbn. unfold failures_before. repeat case_match; lia. }
  destruct (failures_count id ts (recordFailure id t e).2 c1 t) as (c' & H1 & H2 & H3 & H4).
  - apply (wf_gop e (GFailure id t) Hwf).
  - rewrite Hstep. apply jm_get_set_eq.
  - done.
  - done.
  - by eapply chained_window; [|exact Hch].
  - set (e' := foldl _ _ ts) in *.
    assert (Hwf' : wf_engine e').
    { unfold e'. clear -Hwf. assert (Hg : forall e, wf_engine e ->
        wf_engine (foldl (fun e t => (recordFailure id t e).2) e ts)).
      { induction ts as [|x l IH]; intros e0 H; cbn; [done|]. by apply IH, (wf_gop e0 (GFailure id x)). }
      by apply Hg, (wf_gop e (GFailure id t)). }
    assert (Hs : same_config c c') by (etransitivity; [|exact H2]; done).
    apply not_true_iff_false. rewrite allowed_iff. intros H. destruct (H c') as (_ & Hb & _).
    + apply applicable_spec; [done|]. rewrite (wf_get_id _ _ _ Hwf' H1). split; [done|].
      destruct Hs as (_ & _ & E1 & E2 & _). unfold applies in *. by rewrite E1, E2.
    + destruct Hs as (_ & _ & _ & _ & _ & _ & E1 & E2 & E3). rewrite E1, E2 in Hb.
      cbn [length] in Hlen. destruct Hb as (l & Hl & Hw); [done|lia|].
      rewrite H4 in Hl. injection Hl as <-. unfold reset_window_passed in *. by rewrite E3, Hnow in Hw.
Qed.

End Properties.

(** ** The daily notional *)

Section DailyLimit.
Context `{DL : DecimalLib} `{HE : HostEnv}.

(** The instant of a call. *)
Definition gop_time (op : gop) : Z :=
  match op with
  | GCreate _ now | GCheck _ now | GTrigger _ _ _ now | GReset _ _ now | GFailure _ now | GSuccess _ _ now => now
  end.
(** The clock does not go back. *)
Fixpoint in_time (from : Z) (times : list Z) : Prop :=
  match times with [] => True | t :: rest => from <= t /\ in_time t rest end.

(** The notionals recorded on a configuration, with their instants. *)
Definition records (id : string) (ops : list gop) : list (Z * dec) :=
  flat_map (fun op => match op with GSuccess id' n t => if bool_decide (id' = id) then [(t, n)] else [] | _ => [] end) ops.

(** What was used up to the local day of [now]: what was there at [start],
    unless that day is over, and what was recorded since on the day. *)
Definition used_on (now : Z) (start : dec * Z) (recorded : list (Z * dec)) : dec :=
  foldl d_plus (if now <? next_local_midnight start.2 then start.1 else dec_of_Z 0)
    (map snd (List.filter (fun tn => now <? next_local_midnight tn.1) recorded)).

(** The day's notional and the instant its day began. *)
Definition counter (i : GuardrailConfigInput) : dec * Z := (dailyNotionalUsd i, dailyResetAt i).
Definition reset_or_kept (now : Z) (c c' : GuardrailConfig) : Prop :=
  counter (gc_in c') = counter (gc_in c) \/
  next_local_midnight (dailyResetAt (gc_in c)) <= now /\ counter (gc_in c') = (dec_of_Z 0, now).

Lemma resetDaily_counter now c :
  counter (gc_in (resetDailyNotionalIfNeeded now c)) =
    if next_local_midnight (dailyResetAt (gc_in c)) <=? now then (dec_of_Z 0, now) else counter (gc_in c).
Proof. unfold resetDailyNotionalIfNeeded. by destruct (_ <=? _). Qed.

(** What an iteration of [check] leaves of the counter. *)
Lemma check_config_counter now input c : reset_or_kept now c (check_config now input c).2.
Proof.
  unfold check_config. destruct (_ && _); [by left|].
  destruct (if circuitBreakerEnabled (gc_in c) then _ else _) as [b c1] eqn:E.
  assert (Ec : counter (gc_in c1) = counter (gc_in c)).
  { destruct (circuitBreakerEnabled _); [|by simplify_eq]. unfold isCircuitBreakerOpen in E. repeat case_match; by simplify_eq. }
  destruct b; [by left|]. unfold daily_violations. destruct (maxDailyNotionalUsd _); [|by left]. unfold reset_or_kept. cbn [snd].
  rewrite resetDaily_counter, Ec. injection Ec as _ ->. destruct (Z.leb_spec (next_local_midnight (dailyResetAt (gc_in c))) now); auto.
Qed.

(** What a call leaves of a configuration that it does not replace. *)
Lemma gop_counter e op id c : wf_engine e -> jm_get id e = Some c ->
  (forall input now, op = GCreate input now -> ~ (scopeType input = scopeType (gc_in c) /\ scopeId input = scopeId (gc_in c))) ->
  exists c', jm_get id (run_gop e op) = Some c' /\ same_config c c' /\
    match records id [op] with
    | [] => reset_or_kept (gop_time op) c c'
    | _ => exists n, records id [op] = [(gop_time op, n)] /\
        counter (gc_in c') = (d_plus (daily_used (gop_time op) (gc_in c)) n,
          if next_local_midnight (dailyResetAt (gc_in c)) <=? gop_time op then gop_time op else dailyResetAt (gc_in c))
    end.
Proof.
  intros Hwf Hc Hop. destruct (gop_config e op id c Hwf Hc Hop) as (c' & Hc' & Hs & _). exists c'. split_and!; [done|done|].
  clear Hs. destruct op as [input now|input now|id' by_ reason now|id' by_ now|id' now|id' n now];
    cbn [run_gop records flat_map gop_time app] in *.
  - rewrite (create_keeps e input now id c Hwf Hc (Hop input now eq_refl)) in Hc'. injection Hc' as <-. by left.
  - destruct (check_engine now input e Hwf) as [_ H]. destruct (H id c Hc) as [[E _]|[E _]]; rewrite E in Hc'; simplify_eq; [by left|].
    apply check_config_counter.
  - left. unfold triggerKillSwitch in Hc'. destruct (jm_get id' e) as [c0|] eqn:E0; [|cbn [snd] in Hc'; by simplify_eq].
    destruct (negb _); [cbn [snd] in Hc'; by simplify_eq|]. cbn [snd] in Hc'. rewrite jm_get_set in Hc'. case_decide; [subst; rewrite Hc in E0|]; by simplify_eq.
  - left. unfold resetKillSwitch in Hc'. destruct (jm_get id' e) as [c0|] eqn:E0; [|cbn [snd] in Hc'; by simplify_eq].
    cbn [snd] in Hc'. rewrite jm_get_set in Hc'. case_decide; [subst; rewrite Hc in E0|]; by simplify_eq.
  - left. unfold recordFailure in Hc'. destruct (jm_get id' e) as [c0|] eqn:E0; [|cbn [snd] in Hc'; by simplify_eq].
    destruct (negb _); [cbn [snd] in Hc'; by simplify_eq|]. cbn [snd] in Hc'. rewrite jm_get_set in Hc'. case_decide; [subst; rewrite Hc in E0|]; by simplify_eq.
  - unfold recordSuccess in Hc'. case_bool_decide as Hd; cbn [app].
    + subst id'. rewrite Hc in Hc'. cbn [snd] in Hc'. rewrite jm_get_set_eq in Hc'. injection Hc' as <-. exists n. split; [done|].
      set (c1 := if 0 <? failureCount (gc_in c) then _ else c).
      assert (E1 : counter (gc_in c1) = counter (gc_in c)) by (unfold c1; by destruct (0 <? _)).
      pose proof (resetDaily_counter now c1) as E2. unfold daily_used. injection E1 as E1 E1'. rewrite E1' in E2.
      destruct (next_local_midnight (dailyResetAt (gc_in c)) <=? now); injection E2 as Ea Eb; unfold counter; cbn; rewrite Ea, Eb;
        [done|by rewrite E1, E1'].
    + left. destruct (jm_get id' e) as [c0|] eqn:E0; [|cbn [snd] in Hc'; by simplify_eq]. cbn [snd] in Hc'.
      rewrite jm_get_set_ne in Hc' by done. by simplify_eq.
Qed.

(** A call in time moves the counter as its record says, seen from any later
    instant. *)
Lemma used_step (Hcal : forall r t, r <= t < next_local_midnight r -> next_local_midnight t = next_local_midnight r)
    e op id c now recs : wf_engine e -> jm_get id e = Some c ->
  (forall input now, op = GCreate input now -> ~ (scopeType input = scopeType (gc_in c) /\ scopeId input = scopeId (gc_in c))) ->
  dailyResetAt (gc_in c) <= gop_time op <= now ->
  exists c', jm_get id (run_gop e op) = Some c' /\ same_config c c' /\ dailyResetAt (gc_in c') <= gop_time op /\
    used_on now (counter (gc_in c)) (records id [op] ++ recs) = used_on now (counter (gc_in c')) recs.
Proof.
  intros Hwf Hc Hop [Hr Hn]. destruct (gop_counter e op id c Hwf Hc Hop) as (c' & Hc' & Hs & H). exists c'. split_and!; [done|done| |].
  - destruct (records id [op]) as [|x l]; [destruct H as [H|[_ H]]|destruct H as (n & _ & H)]; injection H as _ ->; [done..|].
    by destruct (_ <=? _).
  - unfold used_on. destruct (records id [op]) as [|x l]; cbn [app].
    + destruct H as [->|[Hm ->]]; [done|]. cbn [counter fst snd].
      destruct (Z.ltb_spec now (next_local_midnight (dailyResetAt (gc_in c)))); [lia|]. by destruct (_ <? _).
    + destruct H as (n & [= -> ->] & ->). cbn [counter fst snd app List.filter]. unfold daily_used.
      destruct (Z.leb_spec (next_local_midnight (dailyResetAt (gc_in c))) (gop_time op)) as [Hm|Hm].
      * destruct (Z.ltb_spec now (next_local_midnight (dailyResetAt (gc_in c)))); [lia|].
        by destruct (now <? next_local_midnight (gop_time op)).
      * rewrite (Hcal (dailyResetAt (gc_in c)) (gop_time op)) by lia. by destruct (now <? _).
Qed.

(** Over any calls in time the counter is what was recorded on the day. *)
Lemma used_after (Hcal : forall r t, r <= t < next_local_midnight r -> next_local_midnight t = next_local_midnight r)
    id now ops : forall e c, wf_engine e -> jm_get id e = Some c ->
  Forall (fun op => match op with
                    | GCreate i _ => ~ (scopeType i = scopeType (gc_in c) /\ scopeId i = scopeId (gc_in c))
                    | _ => True end) ops ->
  in_time (dailyResetAt (gc_in c)) (map gop_time ops ++ [now]) ->
  wf_engine (foldl run_gop e ops) /\ exists c', jm_get id (foldl run_gop e ops) = Some c' /\ same_config c c' /\
    daily_used now (gc_in c') = used_on now (counter (gc_in c)) (records id ops).
Proof.
  induction ops as [|op ops IH]; intros e c Hwf Hc Hops Ht; cbn [foldl].
  { split; [done|]. exists c. split_and!; [done|done|]. unfold used_on, daily_used. cbn. rewrite Z.leb_antisym. by destruct (_ <? _). }
  apply Forall_cons in Hops as [Hop Hops]. cbn in Ht. destruct Ht as [Hr Ht].
  assert (Hlater : forall ts t, in_time t (ts ++ [now]) -> t <= now).
  { clear. induction ts as [|x ts IH]; intros t; cbn; [tauto|]. intros [? ?%IH]. lia. }
  destruct (used_step Hcal e op id c now (records id ops) Hwf Hc) as (c1 & Hc1 & Hs1 & Hr1 & Hu1);
    [by intros i t ->|by pose proof (Hlater _ _ Ht)|].
  destruct (IH (run_gop e op) c1) as (Hw & c' & Hc' & Hs' & Hu'); [by apply wf_gop|done| | |].
  - eapply Forall_impl; [exact Hops|]. intros [] H; try done. by destruct Hs1 as (_ & _ & -> & -> & _).
  - destruct (map gop_time ops ++ [now]) as [|t ts]; [done|]. cbn in *. split; [lia|tauto].
  - split; [done|]. exists c'. split_and!; [done|by transitivity c1|]. rewrite Hu', <- Hu1. unfold records. cbn [flat_map].
    by rewrite app_nil_r.
Qed.

(** C32. The daily limit of a configuration, from its creation on and for as long
    as it is not replaced, whatever the calls (checks and records of any
    executions, interleaved in any way) as long as the clock does not go back:
    the notional that a record adds to is exactly the sum of what was recorded
    on the configuration since the local day began, and a check of an action in
    its scope is allowed only if that sum and the action are within the limit.
    Records themselves are not refused: two executions that were both checked
    before either is recorded can go over the limit
    (Example [checked_together_over_limit]).  [Hcal] is how a local calendar
    works: the instants of a day from [r] on have the same next midnight. *)
Theorem daily_limit_respected (e : Engine) (input : GuardrailConfigInput) (created now : Z) (ops : list gop) (n : dec)
    (Hcal : forall r t, r <= t < next_local_midnight r -> next_local_midnight t = next_local_midnight r)
    (Hwf : wf_engine e)
    (Htime : in_time (dailyResetAt input) (map gop_time ops ++ [now]))
    (Hkept : Forall (fun op => match op with
                               | GCreate i _ => ~ (scopeType i = scopeType input /\ scopeId i = scopeId input)
                               | _ => True end) ops) :
  let '(config, e0) := createConfig input created e in
  let e1 := foldl run_gop e0 ops in
  let today := used_on now (dailyNotionalUsd input, dailyResetAt input) (records (gc_id config) ops) in
  (exists c, (recordSuccess (gc_id config) n now e1).1 = Some c /\ dailyNotionalUsd (gc_in c) = d_plus today n /\
     jm_get (gc_id config) (recordSuccess (gc_id config) n now e1).2 = Some c) /\
  (forall m action, maxDailyNotionalUsd input = Some m -> applies input action ->
     gr_allowed (check now action e1).1 = true -> d_gt (d_plus today (notionalUsd action)) m = false).
Proof.
  destruct (createConfig input created e) as [config e0] eqn:E. cbn zeta.
  assert (He0 : e0 = (createConfig input created e).2) by by rewrite E.
  assert (Hin : gc_in config = input) by by injection E as <- _.
  assert (Hc0 : jm_get (gc_id config) e0 = Some config) by (injection E as <- <-; apply jm_get_set_eq).
  assert (Hw0 : wf_engine e0) by (rewrite He0; by apply (wf_gop e (GCreate input created))). clear E He0. subst input.
  destruct (used_after Hcal (gc_id config) now ops e0 config Hw0 Hc0 Hkept Htime) as (Hw1 & c & Hc & Hs & Hu).
  change (dailyNotionalUsd (gc_in config), dailyResetAt (gc_in config)) with (counter (gc_in config)). rewrite <- Hu. split.
  - pose proof (gop_counter (foldl run_gop e0 ops) (GSuccess (gc_id config) n now) (gc_id config) c Hw1 Hc ltac:(done)) as H.
    destruct H as (c' & Hc' & _ & H). cbn [records flat_map] in H. rewrite bool_decide_eq_true_2 in H by done. cbn [app] in H.
    destruct H as (n' & [= <-] & Hk). injection Hk as Hd _. exists c'. cbn [run_gop gop_time] in *. split_and!; [|done|done].
    unfold recordSuccess in *. rewrite Hc in *. cbn [fst snd] in *. rewrite jm_get_set_eq in Hc'. done.
  - intros m action Hm Ha Hal. rewrite allowed_iff in Hal.
    destruct (Hal c) as (_ & _ & _ & _ & Hd).
    + apply applicable_spec; [done|]. rewrite (wf_get_id _ _ _ Hw1 Hc). split; [done|].
      destruct Hs as (_ & _ & E1 & E2 & _). unfold applies in *. by rewrite E1, E2.
    + apply Hd. destruct Hs as (_ & _ & _ & _ & -> & _). done.
Qed.
End DailyLimit.

Section PartialFills.
Context `{DL : DecimalLib} `{DW : !DecimalLaws} `{HE : HostEnv}.

(** [checkPartialFill] answers [continue] without a reason exactly for
    fills that reach the configured percentage of the target, so a larger
    fill never turns such an answer into a policy action, and short fills get
    the configured action. *)
Theorem larger_fill_accepted (e : Engine) (id : string) (c : GuardrailConfig) (target f1 f2 : dec)
    (t : Q) (Hc : jm_get id e = Some c) (Ht : is_fin target t) (Ht0 : (0 < t)%Q)
    (Hle : dv_le (dval f1) (dval f2) = true)
    (H1 : checkPartialFill id target f1 e = Ok (pf_continue, None)) :
  checkPartialFill id target f2 e = Ok (pf_continue, None) /\
  (forall f, checkPartialFill id target f e = Ok (pf_continue, None) \/
     exists reason, checkPartialFill id target f e = Ok (partialFillAction (gc_in c), Some reason)).
Proof.
  assert (Hpos : d_lte target (dec_of_Z 0) = false).
  { pose proof d_zero_fin as Hz. unfold is_fin in *. rewrite d_lte_val, Ht, Hz. apply not_true_iff_false.
    intros H. dv_simpl. lra. }
  unfold checkPartialFill in *. rewrite Hc, Hpos in *.
  assert (H100 : is_fin (dec_of_Z 100) 100) by by apply (d_of_int 100).
  split.
  - destruct (d_gte _ _) eqn:E in H1; [|by destruct (partialFillAction _)].
    rewrite d_gte_val in E. rewrite d_gte_val.
    rewrite (dv_le_trans _ _ _ E); [done|].
    eapply d_times_mono; [exact H100|done|]. by eapply d_div_mono.
  - intros f. clear H1; destruct (d_gte _ _); [left; reflexivity|right].
    destruct (partialFillAction _); by eexists.
Qed.
End PartialFills.

(** ** Witnesses *)

(** An action of 2000 USD on the default engine, created at instant 0. *)
Definition sample_action `{DL : DecimalLib} (n : Z) : GuardrailCheckInput :=
  {| gi_carryActionId := None; gi_planId := None; gi_legId := None; gi_venueId := None;
     gi_sleeveId := None; gi_strategyId := None; notionalUsd := dec_of_Z n; isExecution := true |}.
Definition default_engine : Engine (DL := exact_decimal) := new_ExecutionGuardrailEngine 0 0.
Definition default_config : GuardrailConfig (DL := exact_decimal) :=
  MkGuardrailConfig "guardrail_global_default_0" (DEFAULT_GLOBAL_GUARDRAIL_CONFIG 0) 0 0.

Lemma default_get : jm_get "guardrail_global_default_0" default_engine = Some default_config.
Proof. reflexivity. Qed.

Lemma kill_switch_holds_witness :
  exists c e1, triggerKillSwitch "guardrail_global_default_0" "ops" "test" 5 default_engine = (Ok c, e1) /\
    gr_allowed (check 10 (sample_action 2000)
      (foldl run_gop e1 [GSuccess "guardrail_global_default_0" (dec_of_Z 1) 7])).1 = false.
Proof.
  eexists _, _. split; [reflexivity|].
  eapply (kill_switch_holds default_engine _ "guardrail_global_default_0" "ops" "test" 5 10 _
    [GSuccess "guardrail_global_default_0" (dec_of_Z 1) 7]).
  - apply wf_new.
  - reflexivity.
  - by repeat constructor.
  - reflexivity.
Defined.

Lemma failures_open_breaker_witness :
  gr_allowed (check 5000 (sample_action 2000) (foldl (fun e t =>
    (recordFailure "guardrail_global_default_0" t e).2) default_engine [1000; 2000; 3000])).1 = false.
Proof.
  apply (failures_open_breaker default_engine "guardrail_global_default_0" default_config 1000 5000 [2000; 3000]).
  - apply wf_new.
  - reflexivity.
  - reflexivity.
  - by cbn.
  - by vm_compute.
  - by cbn.
  - reflexivity.
  - by vm_compute.
Defined.

Lemma utc_calendar r t : r <= t < next_local_midnight r -> next_local_midnight t = next_local_midnight r.
Proof.
  cbn. intros [H1 H2]. f_equal. f_equal. apply (Z.le_antisymm _ _); [|by apply Z.div_le_mono].
  apply Z.lt_succ_r, Z.div_lt_upper_bound; lia.
Qed.

(** The default configuration, and two executions of 90000 USD recorded on it,
    the first on the day before. *)
Definition two_records : list (gop (DL := exact_decimal)) :=
  [GCheck (sample_action 90000) 1; GSuccess "guardrail_global_default_0" (dec_of_Z 90000) 2;
   GSuccess "guardrail_global_default_0" (dec_of_Z 90000) 86400001].

Lemma daily_limit_respected_witness :
  d_toString (DecimalLib := exact_decimal) (used_on (HE := utc_host) 86400002 (dec_of_Z 0, 0) (records "guardrail_global_default_0" two_records)) = "90000" /\
  d_gt (d_plus (used_on 86400002 (dec_of_Z 0, 0) (records "guardrail_global_default_0" two_records)) (dec_of_Z 50000)) (dec_of_Z 500000) = false.
Proof.
  split; [vm_compute; reflexivity|].
  destruct (daily_limit_respected [] (DEFAULT_GLOBAL_GUARDRAIL_CONFIG 0) 0 86400002 two_records (dec_of_Z 50000) utc_calendar) as [_ H].
  - split_and!; [constructor|intros k c H; inversion H|intros ? ? ? ? H; inversion H].
  - cbn. lia.
  - repeat constructor.
  - apply (H (dec_of_Z 500000) (sample_action 50000)); [reflexivity|reflexivity|vm_compute; reflexivity].
Defined.

(** Two executions of 50000 USD on a day of 450000 USD: each check passes, and
    when both are recorded the day is over its limit of 500000 USD. *)
Example checked_together_over_limit :
  let id := "guardrail_global_default_0" in
  let e := (recordSuccess id (dec_of_Z 450000) 1 default_engine).2 in
  let '(r1, e1) := check 2 (sample_action 50000) e in
  let '(r2, e2) := check 3 (sample_action 50000) e1 in
  let e3 := (recordSuccess id (dec_of_Z 50000) 5 (recordSuccess id (dec_of_Z 50000) 4 e2).2).2 in
  gr_allowed r1 = true /\ gr_allowed r2 = true /\
  (d_toString ∘ dailyNotionalUsd ∘ gc_in <$> jm_get id e3) = Some "550000".
Proof. by vm_compute. Qed.

Lemma larger_fill_accepted_witness :
  checkPartialFill "guardrail_global_default_0" (dec_of_Z 100) (dec_of_Z 99) default_engine = Ok (pf_continue, None).
Proof.
  apply (larger_fill_accepted default_engine "guardrail_global_default_0" default_config
    (dec_of_Z 100) (dec_of_Z 96) (dec_of_Z 99) 100).
  - reflexivity.
  - by apply (d_of_int 100).
  - by vm_compute.
  - by vm_compute.
  - by vm_compute.
Defined.
