(* ===== verification/MarketIdentity.v ===== *)
(** * Canonical market identities (packages/venue-adapters/src/interfaces/market-identity.ts)

    How an order's market is identified across venues: one definition per
    function of the file, over [jsval] metadata.  Text is ASCII; an absent and
    a [null] string input are both [None], since the source treats them alike. *)
From S2P Require Import Prelude JsNumber JsValue.
Open Scope Z_scope.

Inductive CanonicalMarketType := mt_perp | mt_spot | mt_unknown.
Inductive CanonicalMarketIdentityProvenance := venue_native | derived | prov_unsupported.
Inductive CanonicalMarketIdentityConfidence := exact | partial | conf_unsupported.
Inductive CanonicalMarketIdentityKeyType :=
| market_index | market_key | market_symbol | asset_market_type | key_unsupported.
Inductive CanonicalMarketIdentityCaptureStage :=
| market_data | opportunity_leg | strategy_intent | runtime_order | carry_planned_order
| carry_execution_step | execution_result | fill | internal_snapshot | external_truth.

#[export] Instance CanonicalMarketType_eq_dec : EqDecision CanonicalMarketType.
Proof. solve_decision. Defined.
#[export] Instance Provenance_eq_dec : EqDecision CanonicalMarketIdentityProvenance.
Proof. solve_decision. Defined.
#[export] Instance Confidence_eq_dec : EqDecision CanonicalMarketIdentityConfidence.
Proof. solve_decision. Defined.

Definition market_type_str (t : CanonicalMarketType) : string :=
  match t with mt_perp => "perp" | mt_spot => "spot" | mt_unknown => "unknown" end.
Definition provenance_str (p : CanonicalMarketIdentityProvenance) : string :=
  match p with venue_native => "venue_native" | derived => "derived" | prov_unsupported => "unsupported" end.
Definition confidence_str (c : CanonicalMarketIdentityConfidence) : string :=
  match c with exact => "exact" | partial => "partial" | conf_unsupported => "unsupported" end.
Definition key_type_str (k : CanonicalMarketIdentityKeyType) : string :=
  match k with
  | market_index => "market_index" | market_key => "market_key" | market_symbol => "market_symbol"
  | asset_market_type => "asset_market_type" | key_unsupported => "unsupported"
  end.
Definition stage_str (s : CanonicalMarketIdentityCaptureStage) : string :=
  match s with
  | market_data => "market_data" | opportunity_leg => "opportunity_leg" | strategy_intent => "strategy_intent"
  | runtime_order => "runtime_order" | carry_planned_order => "carry_planned_order"
  | carry_execution_step => "carry_execution_step" | execution_result => "execution_result"
  | fill => "fill" | internal_snapshot => "internal_snapshot" | external_truth => "external_truth"
  end.

Record CanonicalMarketIdentity := MkIdentity {
  mi_venueId : option string;
  mi_asset : option string;
  mi_marketType : CanonicalMarketType;
  mi_marketIndex : option num;
  mi_marketKey : option string;
  mi_marketSymbol : option string;
  mi_marketName : option string;
  mi_aliases : list string;
  mi_normalizedKey : option string;
  mi_normalizedKeyType : CanonicalMarketIdentityKeyType;
  mi_provenance : CanonicalMarketIdentityProvenance;
  mi_confidence : CanonicalMarketIdentityConfidence;
  mi_capturedAtStage : CanonicalMarketIdentityCaptureStage;
  mi_source : string;
  mi_notes : list string;
}.

Record CanonicalMarketIdentityInput := MkIdentityInput {
  ii_venueId : option string;
  ii_asset : option string;
  ii_marketType : jsval;
  ii_marketIndex : jsval;
  ii_marketKey : option string;
  ii_marketSymbol : option string;
  ii_marketName : option string;
  ii_aliases : option (list string);
  ii_provenance : option CanonicalMarketIdentityProvenance;
  ii_capturedAtStage : CanonicalMarketIdentityCaptureStage;
  ii_source : string;
  ii_notes : option (list string);
}.

Record CanonicalMarketIdentityMetadataDefaults := MkIdentityDefaults {
  md_venueId : option string;
  md_asset : option string;
  md_marketType : jsval;
  md_provenance : option CanonicalMarketIdentityProvenance;
  md_capturedAtStage : CanonicalMarketIdentityCaptureStage;
  md_source : string;
  md_notes : option (list string);
}.

Definition MARKET_IDENTITY_METADATA_KEY : string := "marketIdentity".
Definition MARKET_INDEX_METADATA_KEYS : list string := ["marketIndex"; "driftMarketIndex"; "venueMarketIndex"].
Definition MARKET_KEY_METADATA_KEYS : list string := ["marketKey"; "driftMarketKey"; "venueMarketKey"].
Definition MARKET_SYMBOL_METADATA_KEYS : list string :=
  ["marketSymbol"; "driftMarketSymbol"; "venueMarketSymbol"; "marketName"].

(** ** Reading unknown values *)

(** [asRecord]; a [Date] is an object without own enumerable fields. *)
Definition asRecord (v : jsval) : option record_ :=
  match v with
  | JObj fields => Some fields
  | JDate _ => Some []
  | _ => None
  end.

Definition nonempty_trim (s : string) : option string :=
  if bool_decide (js_trim s = "") then None else Some (js_trim s).

Definition stringValue (v : jsval) : option string :=
  match v with JStr s => nonempty_trim s | _ => None end.

Definition integerValue (v : jsval) : option num :=
  match v with
  | JNum n => if n_isFinite n then Some (n_trunc n) else None
  | JStr s =>
      match nonempty_trim s with
      | Some t => let parsed := parseInt t in if n_isNaN parsed then None else Some parsed
      | None => None
      end
  | _ => None
  end.

Fixpoint metadataString (metadata : record_) (keys : list string) : option string :=
  match keys with
  | [] => None
  | key :: keys' =>
      match stringValue (rec_get metadata key) with
      | Some v => Some v
      | None => metadataString metadata keys'
      end
  end.

Fixpoint metadataInteger (metadata : record_) (keys : list string) : option num :=
  match keys with
  | [] => None
  | key :: keys' =>
      match integerValue (rec_get metadata key) with
      | Some v => Some v
      | None => metadataInteger metadata keys'
      end
  end.

Definition normalizeCanonicalMarketType (v : jsval) : CanonicalMarketType :=
  match v with
  | JStr s =>
      let t := toLowerCase (js_trim s) in
      if bool_decide (t = "perp") || bool_decide (t = "perpetual") then mt_perp
      else if bool_decide (t = "spot") then mt_spot else mt_unknown
  | _ => mt_unknown
  end.

(** ** Keys *)

Definition is_unknown (t : CanonicalMarketType) : bool := bool_decide (t = mt_unknown).

Definition canonicalMarketIndexKey (t : CanonicalMarketType) (marketIndex : option num) : option string :=
  match marketIndex with
  | Some n => if is_unknown t then None else Some (market_type_str t +:+ ":" +:+ n_str n)
  | None => None
  end.

Definition canonicalMarketSymbolKey (t : CanonicalMarketType) (marketSymbol : option string) : option string :=
  match marketSymbol with
  | Some s => Some (if is_unknown t then s else market_type_str t +:+ ":" +:+ s)
  | None => None
  end.

Definition canonicalAssetTypeKey (t : CanonicalMarketType) (asset : option string) : option string :=
  match asset with
  | Some a => if is_unknown t then None else Some (market_type_str t +:+ ":" +:+ a)
  | None => None
  end.

(** [/^(?:perp|spot):(\d+)$/]. *)
Definition market_index_digits (key : string) : option string :=
  if String.prefix "perp:" key || String.prefix "spot:" key then
    let rest := String.substring 5 (String.length key - 5) key in
    let '(_, cnt, tail) := take_digits 0 0 rest in
    if (0 <? cnt) && bool_decide (tail = "") then Some rest else None
  else None.

Definition parseMarketIndexFromKey (marketKey : option string) : option num :=
  match marketKey with
  | None => None
  | Some key =>
      match market_index_digits key with
      | None => None
      | Some digits => let parsed := parseInt digits in if n_isNaN parsed then None else Some parsed
      end
  end.

Definition deriveMarketSymbol (asset : option string) (t : CanonicalMarketType) : option string :=
  match asset with
  | Some a => if is_unknown t then None
              else Some (if bool_decide (t = mt_perp) then a +:+ "-PERP" else a)
  | None => None
  end.

Definition alias_step (aliases : list string) (v : option string) : list string :=
  match v with
  | None => aliases
  | Some a => if bool_decide (a ∈ aliases) then aliases else aliases ++ [a]
  end.
Definition uniqueAliases (values : list (option string)) : list string := foldl alias_step [] values.

(** ** Identities *)

(** The confidence, the normalized key and its type. *)
Definition normalizeConfidence (t : CanonicalMarketType) (marketIndex : option num)
    (marketKey marketSymbol asset : option string) (provenance : CanonicalMarketIdentityProvenance)
    : CanonicalMarketIdentityConfidence * option string * CanonicalMarketIdentityKeyType :=
  if bool_decide (provenance = prov_unsupported) then (conf_unsupported, None, key_unsupported)
  else if bool_decide (is_Some marketIndex) && negb (is_unknown t) then
    (exact, canonicalMarketIndexKey t marketIndex, market_index)
  else if bool_decide (is_Some marketKey) then (exact, marketKey, market_key)
  else if bool_decide (is_Some marketSymbol) then
    (if bool_decide (provenance = venue_native) then exact else partial,
     canonicalMarketSymbolKey t marketSymbol, market_symbol)
  else if negb (is_unknown t) && bool_decide (is_Some asset) then
    (partial, canonicalAssetTypeKey t asset, asset_market_type)
  else (conf_unsupported, None, key_unsupported).

(** [x ?? y] on optional values. *)
Definition opt_or {A} (x y : option A) : option A := match x with Some _ => x | None => y end.

Definition opt_string (o : option string) : option string :=
  match o with Some s => nonempty_trim s | None => None end.

Definition createCanonicalMarketIdentity (input : CanonicalMarketIdentityInput) : CanonicalMarketIdentity :=
  let asset := opt_string (ii_asset input) in
  let marketType := normalizeCanonicalMarketType (ii_marketType input) in
  let rawMarketKey := opt_string (ii_marketKey input) in
  let marketIndex := opt_or (integerValue (ii_marketIndex input)) (parseMarketIndexFromKey rawMarketKey) in
  let marketKey := opt_or rawMarketKey (canonicalMarketIndexKey marketType marketIndex) in
  let marketName := opt_string (ii_marketName input) in
  let marketSymbol := opt_or (opt_or (opt_string (ii_marketSymbol input)) marketName)
                             (deriveMarketSymbol asset marketType) in
  let provenance := or_else (ii_provenance input) derived in
  let '(confidence, normalizedKey, normalizedKeyType) :=
    normalizeConfidence marketType marketIndex marketKey marketSymbol asset provenance in
  {| mi_venueId := opt_string (ii_venueId input);
     mi_asset := asset;
     mi_marketType := marketType;
     mi_marketIndex := marketIndex;
     mi_marketKey := marketKey;
     mi_marketSymbol := marketSymbol;
     mi_marketName := marketName;
     mi_aliases := uniqueAliases ((Some <$> or_else (ii_aliases input) []) ++
       [marketSymbol; marketKey; canonicalAssetTypeKey marketType asset]);
     mi_normalizedKey := normalizedKey;
     mi_normalizedKeyType := normalizedKeyType;
     mi_provenance := provenance;
     mi_confidence := confidence;
     mi_capturedAtStage := ii_capturedAtStage input;
     mi_source := ii_source input;
     mi_notes := or_else (ii_notes input) [];
  |}.

Definition captureCanonicalMarketIdentity (identity : CanonicalMarketIdentity)
    (capturedAtStage : CanonicalMarketIdentityCaptureStage) (source : option string)
    (notes : option (list string)) : CanonicalMarketIdentity :=
  {| mi_venueId := mi_venueId identity; mi_asset := mi_asset identity;
     mi_marketType := mi_marketType identity; mi_marketIndex := mi_marketIndex identity;
     mi_marketKey := mi_marketKey identity; mi_marketSymbol := mi_marketSymbol identity;
     mi_marketName := mi_marketName identity; mi_aliases := mi_aliases identity;
     mi_normalizedKey := mi_normalizedKey identity; mi_normalizedKeyType := mi_normalizedKeyType identity;
     mi_provenance := mi_provenance identity; mi_confidence := mi_confidence identity;
     mi_capturedAtStage := capturedAtStage;
     mi_source := or_else source (mi_source identity);
     mi_notes := or_else notes (mi_notes identity) |}.

Definition marketIdentityRank (identity : option CanonicalMarketIdentity) : Z :=
  match identity with
  | None => -1
  | Some i =>
      match mi_normalizedKeyType i with
      | market_index => 400
      | market_key => 300
      | market_symbol => if bool_decide (mi_confidence i = exact) then 250 else 150
      | asset_market_type => 100
      | key_unsupported => 0
      end
  end.

Definition is_native (i : CanonicalMarketIdentity) : bool := bool_decide (mi_provenance i = venue_native).

Definition preferCanonicalMarketIdentity (left_ right_ : option CanonicalMarketIdentity)
    : option CanonicalMarketIdentity :=
  match left_, right_ with
  | None, _ => right_
  | _, None => left_
  | Some l, Some r =>
      let leftRank := marketIdentityRank left_ in
      let rightRank := marketIdentityRank right_ in
      if leftRank <? rightRank then right_
      else if rightRank <? leftRank then left_
      else if negb (is_native l) && is_native r then right_
      else if is_native l && negb (is_native r) then left_
      else right_
  end.

(** ** Metadata *)

Definition stage_of (v : jsval) : option CanonicalMarketIdentityCaptureStage :=
  List.find (fun s => is_str v (stage_str s))
    [market_data; opportunity_leg; strategy_intent; runtime_order; carry_planned_order;
     carry_execution_step; execution_result; fill; internal_snapshot; external_truth].

Definition provenance_of (v : jsval) : option CanonicalMarketIdentityProvenance :=
  List.find (fun p => is_str v (provenance_str p)) [venue_native; derived; prov_unsupported].

(** The strings of an array; [None] when the value is not an array. *)
Definition string_array (v : jsval) : option (list string) :=
  match v with
  | JArr l => Some (omap (fun x => match x with JStr s => Some s | _ => None end) l)
  | _ => None
  end.

Definition JNumOpt (o : option num) : jsval := match o with Some n => JNum n | None => JNull end.

Definition readCanonicalMarketIdentityFromMetadata (metadata : record_)
    (defaults : CanonicalMarketIdentityMetadataDefaults) : option CanonicalMarketIdentity :=
  match asRecord (rec_get metadata MARKET_IDENTITY_METADATA_KEY) with
  | Some structured =>
      Some (createCanonicalMarketIdentity {|
        ii_venueId := opt_or (stringValue (rec_get structured "venueId")) (md_venueId defaults);
        ii_asset := opt_or (stringValue (rec_get structured "asset")) (md_asset defaults);
        ii_marketType := nullish (rec_get structured "marketType") (md_marketType defaults);
        ii_marketIndex := JNumOpt (integerValue (rec_get structured "marketIndex"));
        ii_marketKey := stringValue (rec_get structured "marketKey");
        ii_marketSymbol := stringValue (rec_get structured "marketSymbol");
        ii_marketName := stringValue (rec_get structured "marketName");
        ii_aliases := Some (or_else (string_array (rec_get structured "aliases")) []);
        ii_provenance := opt_or (provenance_of (rec_get structured "provenance")) (md_provenance defaults);
        ii_capturedAtStage := or_else (stage_of (rec_get structured "capturedAtStage")) (md_capturedAtStage defaults);
        ii_source := or_else (stringValue (rec_get structured "source")) (md_source defaults);
        ii_notes := opt_or (string_array (rec_get structured "notes")) (md_notes defaults);
      |})
  | None =>
      let legacyMarketIndex := metadataInteger metadata MARKET_INDEX_METADATA_KEYS in
      let legacyMarketKey := metadataString metadata MARKET_KEY_METADATA_KEYS in
      let legacyMarketSymbol := metadataString metadata MARKET_SYMBOL_METADATA_KEYS in
      match legacyMarketIndex, legacyMarketKey, legacyMarketSymbol with
      | None, None, None => None
      | _, _, _ =>
          Some (createCanonicalMarketIdentity {|
            ii_venueId := md_venueId defaults;
            ii_asset := md_asset defaults;
            ii_marketType := md_marketType defaults;
            ii_marketIndex := JNumOpt legacyMarketIndex;
            ii_marketKey := legacyMarketKey;
            ii_marketSymbol := legacyMarketSymbol;
            ii_marketName := metadataString metadata ["marketName"];
            ii_aliases := None;
            ii_provenance := Some (or_else (md_provenance defaults) derived);
            ii_capturedAtStage := md_capturedAtStage defaults;
            ii_source := md_source defaults;
            ii_notes := md_notes defaults;
          |})
      end
  end.

(** The object stored under [MARKET_IDENTITY_METADATA_KEY]. *)
Definition identity_record (i : CanonicalMarketIdentity) : record_ :=
  [("venueId", JStrNull (mi_venueId i)); ("asset", JStrNull (mi_asset i));
   ("marketType", JStr (market_type_str (mi_marketType i)));
   ("marketIndex", JNumOpt (mi_marketIndex i)); ("marketKey", JStrNull (mi_marketKey i));
   ("marketSymbol", JStrNull (mi_marketSymbol i)); ("marketName", JStrNull (mi_marketName i));
   ("aliases", JArr (JStr <$> mi_aliases i)); ("normalizedKey", JStrNull (mi_normalizedKey i));
   ("normalizedKeyType", JStr (key_type_str (mi_normalizedKeyType i)));
   ("provenance", JStr (provenance_str (mi_provenance i)));
   ("confidence", JStr (confidence_str (mi_confidence i)));
   ("capturedAtStage", JStr (stage_str (mi_capturedAtStage i)));
   ("source", JStr (mi_source i)); ("notes", JArr (JStr <$> mi_notes i))].

Definition set_some (key : string) (v : jsval) (cond : bool) (r : record_) : record_ :=
  if cond then jm_set key v r else r.

Definition attachCanonicalMarketIdentityToMetadata (metadata : record_)
    (identity : option CanonicalMarketIdentity) : record_ :=
  match identity with
  | None => metadata
  | Some i =>
      let m0 := jm_set MARKET_IDENTITY_METADATA_KEY (JObj (identity_record i)) metadata in
      let m1 := set_some "marketIndex" (JNumOpt (mi_marketIndex i)) (bool_decide (is_Some (mi_marketIndex i))) m0 in
      let m2 := set_some "marketKey" (JStrNull (mi_marketKey i)) (bool_decide (is_Some (mi_marketKey i))) m1 in
      let m3 := set_some "marketSymbol" (JStrNull (mi_marketSymbol i)) (bool_decide (is_Some (mi_marketSymbol i))) m2 in
      let m4 := set_some "marketName" (JStrNull (mi_marketName i)) (bool_decide (is_Some (mi_marketName i))) m3 in
      set_some "marketType" (JStr (market_type_str (mi_marketType i))) (negb (is_unknown (mi_marketType i))) m4
  end.

(** ** Lemmas *)

Lemma rec_get_jm r key : rec_get r key = or_else (jm_get key r) JUndefined.
Proof.
  unfold rec_get. induction r as [|[k v] r IH]; cbn; [done|].
  case_bool_decide as E; cbn.
  - subst. by rewrite decide_True.
  - rewrite decide_False by congruence. exact IH.
Qed.

Lemma rec_get_set_some k k' v b r : k <> k' -> rec_get (set_some k' v b r) k = rec_get r k.
Proof.
  intros Hne. unfold set_some. destruct b; [|done].
  by rewrite !rec_get_jm, jm_get_set_ne.
Qed.

Lemma attach_identity md i :
  rec_get (attachCanonicalMarketIdentityToMetadata md (Some i)) MARKET_IDENTITY_METADATA_KEY
  = JObj (identity_record i).
Proof.
  unfold attachCanonicalMarketIdentityToMetadata. rewrite !rec_get_set_some by done.
  by rewrite rec_get_jm, jm_get_set_eq.
Qed.

(** Optional text that is trimmed and not empty. *)
Definition clean (o : option string) : Prop := forall s, o = Some s -> trimmed s /\ s <> "".

Lemma nonempty_trim_clean s : clean (nonempty_trim s).
Proof.
  intros t. unfold nonempty_trim. case_bool_decide; [done|]. intros [= <-].
  split; [apply trim_trimmed|done].
Qed.

Lemma opt_string_clean o : clean (opt_string o).
Proof. destruct o; [apply nonempty_trim_clean|done]. Qed.

Lemma opt_or_clean o o' : clean o -> clean o' -> clean (opt_or o o').
Proof. destruct o; cbn; auto. Qed.

Lemma clean_opt_string o : clean o -> opt_string o = o.
Proof.
  destruct o as [s|]; [|done]. intros H. destruct (H s eq_refl) as [Ht Hne].
  cbn. unfold nonempty_trim. rewrite Ht. by rewrite bool_decide_false.
Qed.

Lemma stringValue_null o : stringValue (JStrNull o) = opt_string o.
Proof. by destruct o. Qed.

Lemma index_key_clean t idx : clean (canonicalMarketIndexKey t idx).
Proof.
  destruct idx as [n|]; [|done]. unfold canonicalMarketIndexKey. intros s.
  destruct (is_unknown t); [done|]. intros [= <-]. split; [|by destruct t].
  apply no_space_trimmed. apply str_all_app. split; [destruct t; by repeat constructor|].
  apply str_all_app. split; [by repeat constructor|]. apply num_chars_no_space, n_str_chars.
Qed.

Lemma derive_clean a t : clean a -> clean (deriveMarketSymbol a t).
Proof.
  destruct a as [a|]; [|done]. intros H s. destruct (H a eq_refl) as [Ht Hne].
  unfold deriveMarketSymbol. destruct (is_unknown t); [done|].
  case_bool_decide; intros [= <-]; [|done]. split.
  - apply trimmed_app; try done. by repeat constructor.
  - by destruct a.
Qed.

Lemma alias_fold_elem a vs : forall acc,
  a ∈ foldl alias_step acc vs <-> a ∈ acc \/ Some a ∈ vs.
Proof.
  induction vs as [|v vs IH]; intros acc; cbn [foldl].
  - split; [auto|intros [?|H]; [done|inversion H]].
  - rewrite IH, elem_of_cons. destruct v as [b|]; cbn.
    + case_bool_decide as Hb.
      * split; [tauto|]. intros [?|[[= ->]|?]]; auto.
      * rewrite elem_of_app, list_elem_of_singleton. naive_solver.
    + split; [tauto|]. intros [?|[?|?]]; auto; done.
Qed.

Lemma alias_fold_NoDup vs : forall acc, NoDup acc -> NoDup (foldl alias_step acc vs).
Proof.
  induction vs as [|[b|] vs IH]; intros acc H; cbn; auto.
  case_bool_decide as Hb; auto. apply IH, NoDup_app. split_and!; [done| |apply NoDup_singleton].
  intros x Hx ->%list_elem_of_singleton. done.
Qed.

Lemma alias_fold_fresh l : forall acc, NoDup (acc ++ l) -> foldl alias_step acc (Some <$> l) = acc ++ l.
Proof.
  induction l as [|a l IH]; intros acc H; cbn; [by rewrite app_nil_r|].
  rewrite bool_decide_false.
  - rewrite IH; [by rewrite <- app_assoc|by rewrite <- app_assoc].
  - apply NoDup_app in H as (_ & H & _). intros Ha. apply (H a Ha). left.
Qed.

Lemma alias_fold_known vs : forall acc, (forall a, Some a ∈ vs -> a ∈ acc) -> foldl alias_step acc vs = acc.
Proof.
  induction vs as [|[b|] vs IH]; intros acc H; cbn; [done| |].
  - rewrite bool_decide_true by (apply H; left). apply IH. intros a Ha. apply H. by right.
  - apply IH. intros a Ha. apply H. by right.
Qed.

Lemma uniqueAliases_again l rest :
  uniqueAliases ((Some <$> uniqueAliases (l ++ rest)) ++ rest) = uniqueAliases (l ++ rest).
Proof.
  unfold uniqueAliases at 1. rewrite foldl_app, alias_fold_fresh.
  - apply alias_fold_known. intros a Ha. cbn. apply alias_fold_elem. right. apply elem_of_app. by right.
  - apply alias_fold_NoDup. constructor.
Qed.

Lemma string_array_strings l : string_array (JArr (JStr <$> l)) = Some l.
Proof. cbn. f_equal. induction l as [|s l IH]; cbn; [done|]. by rewrite IH. Qed.

Lemma stage_of_str s : stage_of (JStr (stage_str s)) = Some s.
Proof. by destruct s. Qed.

Lemma provenance_of_str p : provenance_of (JStr (provenance_str p)) = Some p.
Proof. by destruct p. Qed.

Lemma market_type_of_str t : normalizeCanonicalMarketType (JStr (market_type_str t)) = t.
Proof. by destruct t. Qed.

Lemma opt_or_self {A} (o d : option A) : (o = None -> d = None) -> opt_or o d = o.
Proof. destruct o; cbn; auto. Qed.

(** What the reader passes to [createCanonicalMarketIdentity] for attached metadata. *)
Lemma read_attached md i d :
  readCanonicalMarketIdentityFromMetadata (attachCanonicalMarketIdentityToMetadata md (Some i)) d =
  Some (createCanonicalMarketIdentity {|
    ii_venueId := opt_or (opt_string (mi_venueId i)) (md_venueId d);
    ii_asset := opt_or (opt_string (mi_asset i)) (md_asset d);
    ii_marketType := JStr (market_type_str (mi_marketType i));
    ii_marketIndex := JNumOpt (integerValue (JNumOpt (mi_marketIndex i)));
    ii_marketKey := opt_string (mi_marketKey i);
    ii_marketSymbol := opt_string (mi_marketSymbol i);
    ii_marketName := opt_string (mi_marketName i);
    ii_aliases := Some (mi_aliases i);
    ii_provenance := Some (mi_provenance i);
    ii_capturedAtStage := mi_capturedAtStage i;
    ii_source := or_else (opt_string (Some (mi_source i))) (md_source d);
    ii_notes := Some (mi_notes i);
  |}).
Proof.
  unfold readCanonicalMarketIdentityFromMetadata. rewrite attach_identity. cbn [asRecord]. do 2 f_equal.
  transitivity {|
    ii_venueId := opt_or (stringValue (JStrNull (mi_venueId i))) (md_venueId d);
    ii_asset := opt_or (stringValue (JStrNull (mi_asset i))) (md_asset d);
    ii_marketType := JStr (market_type_str (mi_marketType i));
    ii_marketIndex := JNumOpt (integerValue (JNumOpt (mi_marketIndex i)));
    ii_marketKey := stringValue (JStrNull (mi_marketKey i));
    ii_marketSymbol := stringValue (JStrNull (mi_marketSymbol i));
    ii_marketName := stringValue (JStrNull (mi_marketName i));
    ii_aliases := Some (or_else (string_array (JArr (JStr <$> mi_aliases i))) []);
    ii_provenance := opt_or (provenance_of (JStr (provenance_str (mi_provenance i)))) (md_provenance d);
    ii_capturedAtStage := or_else (stage_of (JStr (stage_str (mi_capturedAtStage i)))) (md_capturedAtStage d);
    ii_source := or_else (stringValue (JStr (mi_source i))) (md_source d);
    ii_notes := opt_or (string_array (JArr (JStr <$> mi_notes i))) (md_notes d);
  |}; [reflexivity|].
  by rewrite !stringValue_null, !string_array_strings, stage_of_str, provenance_of_str.
Qed.

(** ** Properties *)

(** Metadata round trip: reading the market identity back from metadata it
    was attached to returns the identity itself, field by field (keys, aliases,
    confidence and provenance included), for every identity built by
    [createCanonicalMarketIdentity] with an integral index and a trimmed
    source, provided the reader's defaults add no venue or asset the identity
    does not have. *)
Theorem identity_metadata_roundtrip (input : CanonicalMarketIdentityInput) (md : record_)
    (defaults : CanonicalMarketIdentityMetadataDefaults) :
  let i := createCanonicalMarketIdentity input in
  (forall n, mi_marketIndex i = Some n -> n_isFinite n = true /\ n_trunc n = n) ->
  trimmed (mi_source i) -> mi_source i <> "" ->
  (mi_venueId i = None -> opt_string (md_venueId defaults) = None) ->
  (mi_asset i = None -> opt_string (md_asset defaults) = None) ->
  readCanonicalMarketIdentityFromMetadata (attachCanonicalMarketIdentityToMetadata md (Some i)) defaults = Some i.
Proof.
  intros i.
  set (venue := opt_string (ii_venueId input)). set (asset := opt_string (ii_asset input)).
  set (t := normalizeCanonicalMarketType (ii_marketType input)).
  set (raw := opt_string (ii_marketKey input)).
  set (idx := opt_or (integerValue (ii_marketIndex input)) (parseMarketIndexFromKey raw)).
  set (mkey := opt_or raw (canonicalMarketIndexKey t idx)).
  set (name := opt_string (ii_marketName input)).
  set (sym := opt_or (opt_or (opt_string (ii_marketSymbol input)) name) (deriveMarketSymbol asset t)).
  set (prov := or_else (ii_provenance input) derived).
  destruct (normalizeConfidence t idx mkey sym asset prov) as [[conf key] kt] eqn:En.
  assert (Ei : i = MkIdentity venue asset t idx mkey sym name
    (uniqueAliases ((Some <$> or_else (ii_aliases input) []) ++ [sym; mkey; canonicalAssetTypeKey t asset]))
    key kt prov conf (ii_capturedAtStage input) (ii_source input) (or_else (ii_notes input) [])).
  { unfold i, createCanonicalMarketIdentity.
    fold venue asset t raw. fold idx. fold mkey name. fold sym prov. by rewrite En. }
  clearbody i. subst i.
  cbn [mi_marketIndex mi_source mi_venueId mi_asset].
  intros Hidx Hsrc Hsrc' Hv Ha. rewrite read_attached. f_equal.
  cbn [mi_venueId mi_asset mi_marketType mi_marketIndex mi_marketKey mi_marketSymbol mi_marketName mi_aliases
       mi_normalizedKey mi_normalizedKeyType mi_provenance mi_confidence mi_capturedAtStage mi_source mi_notes].
  assert (Hclean : clean venue /\ clean asset /\ clean name /\ clean raw) by (split_and!; apply opt_string_clean).
  destruct Hclean as (Cv & Ca & Cn & Cr).
  assert (Ck : clean mkey) by (apply opt_or_clean; [done|apply index_key_clean]).
  assert (Cs : clean sym).
  { apply opt_or_clean; [|by apply derive_clean]. apply opt_or_clean; [apply opt_string_clean|done]. }
  rewrite (clean_opt_string (Some _)) by (by intros ? [= <-]).
  rewrite !(clean_opt_string _ Cv), !(clean_opt_string _ Ca), !(clean_opt_string _ Ck),
    !(clean_opt_string _ Cs), !(clean_opt_string _ Cn).
  assert (Hi : integerValue (JNumOpt idx) = idx).
  { destruct idx as [n|]; [|done]. destruct (Hidx n eq_refl) as [Hf Ht]. cbn. by rewrite Hf, Ht. }
  rewrite Hi. unfold createCanonicalMarketIdentity.
  cbn [ii_venueId ii_asset ii_marketType ii_marketIndex ii_marketKey ii_marketSymbol ii_marketName ii_aliases
       ii_provenance ii_capturedAtStage ii_source ii_notes].
  rewrite market_type_of_str, Hi, !(clean_opt_string _ Ck), !(clean_opt_string _ Cs), !(clean_opt_string _ Cn).
  assert (Hopt : forall o d, clean o -> (o = None -> opt_string d = None) -> opt_string (opt_or o d) = o).
  { intros [s|] d Hc H; cbn [opt_or]; [by apply clean_opt_string|by apply H]. }
  rewrite (Hopt venue), (Hopt asset) by done. cbn [opt_or or_else].
  assert (E1 : opt_or idx (parseMarketIndexFromKey mkey) = idx).
  { apply opt_or_self. unfold mkey, idx. intros H. rewrite H.
    destruct (integerValue (ii_marketIndex input)); [done|]. cbn in H |- *.
    destruct raw; [done|]. cbn. done. }
  rewrite E1.
  assert (E2 : opt_or mkey (canonicalMarketIndexKey t idx) = mkey).
  { apply opt_or_self. unfold mkey. by destruct raw. }
  assert (E3 : opt_or (opt_or sym name) (deriveMarketSymbol asset t) = sym).
  { unfold sym. destruct (opt_string (ii_marketSymbol input)), name, (deriveMarketSymbol asset t); done. }
  rewrite E2, E3, En. f_equal. apply uniqueAliases_again.
Qed.

(** [preferCanonicalMarketIdentity] returns one of its arguments, of the
    highest rank of the two, so combining identities never loses precision;
    [null] is its unit; and among equal ranks a venue-native identity is never
    replaced by a derived one. *)
Theorem prefer_keeps_best (l r : option CanonicalMarketIdentity) :
  let p := preferCanonicalMarketIdentity l r in
  (p = l \/ p = r) /\
  marketIdentityRank p = Z.max (marketIdentityRank l) (marketIdentityRank r) /\
  (marketIdentityRank l = marketIdentityRank r ->
   (exists i, (l = Some i \/ r = Some i) /\ mi_provenance i = venue_native) ->
   exists i, p = Some i /\ mi_provenance i = venue_native).
Proof.
  assert (Hr : forall i, 0 <= marketIdentityRank (Some i)).
  { intros i. cbn. destruct (mi_normalizedKeyType i); try case_bool_decide; lia. }
  destruct l as [l|], r as [r|]; cbn [preferCanonicalMarketIdentity].
  - pose proof (Hr l). pose proof (Hr r).
    destruct (Z.ltb_spec (marketIdentityRank (Some l)) (marketIdentityRank (Some r))).
    { split_and!; [by right|lia|intros; exfalso; lia]. }
    destruct (Z.ltb_spec (marketIdentityRank (Some r)) (marketIdentityRank (Some l))).
    { split_and!; [by left|lia|intros; exfalso; lia]. }
    unfold is_native. do 2 case_bool_decide; cbn [negb andb]; (split_and!; [auto|lia|]); intros _;
      try (intros _; eexists; split; [done|assumption]).
    intros (i & [[= <-]|[= <-]] & ?); done.
  - pose proof (Hr l). split_and!; [by left|cbn [marketIdentityRank] in *; lia|].
    intros E. exfalso. cbn [marketIdentityRank] in *. lia.
  - pose proof (Hr r). split_and!; [by right|cbn [marketIdentityRank] in *; lia|].
    intros E. exfalso. cbn [marketIdentityRank] in *. lia.
  - split_and!; [by left|done|]. intros _ (i & [?|?] & _); done.
Qed.

(** ** Witness *)

Lemma identity_metadata_roundtrip_witness :
  let i := createCanonicalMarketIdentity {|
    ii_venueId := Some "drift"; ii_asset := Some " SOL "; ii_marketType := JStr "Perp";
    ii_marketIndex := JNum (num_of_Z 3); ii_marketKey := None; ii_marketSymbol := None; ii_marketName := None;
    ii_aliases := Some ["sol"; "sol"]; ii_provenance := Some venue_native; ii_capturedAtStage := market_data;
    ii_source := "feed"; ii_notes := None |} in
  readCanonicalMarketIdentityFromMetadata (attachCanonicalMarketIdentityToMetadata [("marketKey", JStr "old")] (Some i))
    {| md_venueId := Some "x"; md_asset := None; md_marketType := JUndefined; md_provenance := None;
       md_capturedAtStage := fill; md_source := "s"; md_notes := None |} = Some i.
Proof.
  apply identity_metadata_roundtrip.
  - intros n. vm_compute. intros [= <-]. done.
  - reflexivity.
  - done.
  - done.
  - done.
Defined.
