(* ===== verification/OrderStore.v ===== *)
(** * The order store (packages/execution/src/order-manager.ts)

    [OrderRecord], the status transition relation, the [OrderStore] interface
    as a class with its contract ([OrderStoreLaws]: a map from client order ids
    to records whose updates respect the transition relation), and
    [InMemoryOrderStore] as an instance that meets it.  The executor and the
    reconciler are verified against the contract. *)
From S2P Require Import Prelude JsNumber JsValue Domain.
Open Scope Z_scope.

Record OrderRecord := MkOrderRecord {
  or_intent : OrderIntent;
  or_status : OrderStatus;
  or_venueOrderId : option string;
  or_filledSize : string;
  or_averageFillPrice : option string;
  or_feesPaid : option string;
  or_fills : list OrderFill;
  or_submittedAt : option Z;
  or_completedAt : option Z;
  or_lastError : option string;
  or_attemptCount : Z;
}.

(** [Partial<OrderRecord>]: an absent field is [None]; the status of an update
    is always overwritten, so it is left out. *)
Record OrderUpdate := MkOrderUpdate {
  ou_intent : option OrderIntent;
  ou_venueOrderId : option (option string);
  ou_filledSize : option string;
  ou_averageFillPrice : option (option string);
  ou_feesPaid : option (option string);
  ou_fills : option (list OrderFill);
  ou_submittedAt : option (option Z);
  ou_completedAt : option (option Z);
  ou_lastError : option (option string);
  ou_attemptCount : option Z;
}.
Definition no_update : OrderUpdate := MkOrderUpdate None None None None None None None None None None.

Definition TERMINAL_ORDER_STATUSES : list OrderStatus := [filled; cancelled; expired].
Definition is_terminal (s : OrderStatus) : bool := bool_decide (s ∈ TERMINAL_ORDER_STATUSES).

Definition status_in (to_ : OrderStatus) (l : list OrderStatus) : bool := bool_decide (to_ ∈ l).

Definition isValidStatusTransition (from to_ : OrderStatus) : bool :=
  if bool_decide (from = to_) then true
  else if is_terminal from then false
  else match from with
       | pending => status_in to_ [submitted; failed; cancelled; expired]
       | submitted => status_in to_ [partially_filled; filled; cancelled; failed; expired]
       | partially_filled => status_in to_ [partially_filled; filled; cancelled; failed]
       | failed => status_in to_ [submitted]
       | filled | cancelled | expired => false
       end.

(** ** The interface *)

(** The methods of [OrderStore] over a store state [S]; an implementation may
    fail (a database error). *)
Class OrderStore (S : Type) := {
  os_save : OrderRecord -> eff S unit;
  os_getByClientId : string -> eff S (option OrderRecord);
  os_updateStatus : string -> OrderStatus -> OrderUpdate -> eff S unit;
  os_listByStatus : OrderStatus -> eff S (list OrderRecord);
}.

(** [{ ...existing, ...updates, status, fills }]. *)
Definition merge_record (existing : OrderRecord) (status : OrderStatus) (u : OrderUpdate) : OrderRecord := {|
  or_intent := or_else (ou_intent u) (or_intent existing);
  or_status := status;
  or_venueOrderId := or_else (ou_venueOrderId u) (or_venueOrderId existing);
  or_filledSize := or_else (ou_filledSize u) (or_filledSize existing);
  or_averageFillPrice := or_else (ou_averageFillPrice u) (or_averageFillPrice existing);
  or_feesPaid := or_else (ou_feesPaid u) (or_feesPaid existing);
  or_fills := or_else (ou_fills u) (or_fills existing);
  or_submittedAt := or_else (ou_submittedAt u) (or_submittedAt existing);
  or_completedAt := or_else (ou_completedAt u) (or_completedAt existing);
  or_lastError := or_else (ou_lastError u) (or_lastError existing);
  or_attemptCount := or_else (ou_attemptCount u) (or_attemptCount existing);
|}.

(** What every implementation promises: reads do not change the store, [save]
    writes one record under its client id, and [updateStatus] merges into an
    existing record through a valid transition, or throws and changes nothing. *)
Class OrderStoreLaws (S : Type) `{OrderStore S} := {
  os_lookup : string -> S -> option OrderRecord;
  os_get_spec : forall id s, os_getByClientId id s = (Ret (os_lookup id s), s);
  os_save_spec : forall r s, exists s', os_save r s = (Ret tt, s') /\
    forall id, os_lookup id s' = if decide (id = oi_intentId (or_intent r)) then Some r else os_lookup id s;
  os_update_spec : forall id st u s,
    match os_lookup id s with
    | Some r =>
        if isValidStatusTransition (or_status r) st then
          exists s', os_updateStatus id st u s = (Ret tt, s') /\
            forall id', os_lookup id' s' = if decide (id' = id) then Some (merge_record r st u) else os_lookup id' s
        else exists e, os_updateStatus id st u s = (Throw e, s)
    | None => exists e, os_updateStatus id st u s = (Throw e, s)
    end;
  os_list_spec : forall st s, exists l, os_listByStatus st s = (Ret l, s) /\
    forall r, r ∈ l <-> exists id, os_lookup id s = Some r /\ or_status r = st;
}.

(** ** InMemoryOrderStore *)

Definition MemStore := list (string * OrderRecord).

Definition save (record : OrderRecord) : eff MemStore unit :=
  fun s => (Ret tt, jm_set (oi_intentId (or_intent record)) record s).

Definition getByClientId (clientOrderId : string) : eff MemStore (option OrderRecord) :=
  fun s => (Ret (jm_get clientOrderId s), s).

Definition updateStatus (clientOrderId : string) (status : OrderStatus) (updates : OrderUpdate) : eff MemStore unit :=
  fun s =>
    match jm_get clientOrderId s with
    | None => (Throw (Error_ ("InMemoryOrderStore.updateStatus: no record found for clientOrderId="
                              +:+ quoted clientOrderId)), s)
    | Some existing =>
        if negb (isValidStatusTransition (or_status existing) status) then
          (Throw (Error_ ("InMemoryOrderStore.updateStatus: invalid order status transition "
             +:+ quoted (OrderStatus_str (or_status existing)) +:+ " -> " +:+ quoted (OrderStatus_str status)
             +:+ " for clientOrderId=" +:+ quoted clientOrderId)), s)
        else (Ret tt, jm_set clientOrderId (merge_record existing status updates) s)
    end.

Definition listByStatus (status : OrderStatus) : eff MemStore (list OrderRecord) :=
  fun s => (Ret (List.filter (fun r => bool_decide (or_status r = status)) (jm_values s)), s).

(** The states of a store built by its own methods: keys are unique. *)
Record InMemoryOrderStore := MkInMemoryOrderStore {
  mem_store : MemStore;
  mem_wf : bool_decide (NoDup (jm_keys mem_store));
}.

Lemma update_wf id st u s : NoDup (jm_keys s) -> NoDup (jm_keys (updateStatus id st u s).2).
Proof.
  intros H. unfold updateStatus. destruct (jm_get id s); [|done]. destruct (negb _); [done|].
  by apply jm_set_NoDup.
Qed.

#[export] Instance mem_order_store : OrderStore InMemoryOrderStore := {|
  os_save := fun r s => (Ret tt, MkInMemoryOrderStore (save r (mem_store s)).2 (bool_decide_pack _ (jm_set_NoDup _ _ _ (bool_decide_unpack _ (mem_wf s)))));
  os_getByClientId := fun id s => ((getByClientId id (mem_store s)).1, s);
  os_updateStatus := fun id st u s =>
    ((updateStatus id st u (mem_store s)).1, MkInMemoryOrderStore _ (bool_decide_pack _ (update_wf id st u _ (bool_decide_unpack _ (mem_wf s)))));
  os_listByStatus := fun st s => ((listByStatus st (mem_store s)).1, s);
|}.

Definition empty_store : InMemoryOrderStore := MkInMemoryOrderStore [] (bool_decide_pack _ NoDup_nil_2).

(** Stores are equal when their records are (the proofs of [mem_wf] agree). *)
Lemma mem_store_eq (a b : InMemoryOrderStore) : mem_store a = mem_store b -> a = b.
Proof.
  destruct a as [s H1], b as [s' H2]. cbn. intros <-. f_equal. apply proof_irrel.
Qed.

#[export] Instance mem_order_store_laws : OrderStoreLaws InMemoryOrderStore.
Proof.
  refine {| os_lookup := fun id s => jm_get id (mem_store s) |}.
  - done.
  - intros r s. eexists. split; [done|]. intros id. cbn. apply jm_get_set.
  - intros id st u s. destruct (jm_get id (mem_store s)) as [r|] eqn:E; [destruct (isValidStatusTransition (or_status r) st) eqn:Ev|].
    + eexists. split.
      * cbn. unfold updateStatus at 1. by rewrite E, Ev.
      * intros id'. cbn. unfold updateStatus. rewrite E, Ev. apply jm_get_set.
    + eexists. cbn. unfold updateStatus at 1. rewrite E, Ev. cbn. f_equal.
      apply mem_store_eq. cbn. unfold updateStatus. by rewrite E, Ev.
    + eexists. cbn. unfold updateStatus at 1. rewrite E. cbn. f_equal.
      apply mem_store_eq. cbn. unfold updateStatus. by rewrite E.
  - intros st s. eexists. split; [done|]. intros r.
    rewrite list_elem_of_In, filter_In, <- list_elem_of_In, bool_decide_eq_true.
    unfold jm_values. rewrite list_elem_of_fmap. split.
    + intros (([id r'] & -> & Hin) & Hs). exists id. split; [|done]. apply jm_In_get; [apply (bool_decide_unpack _ (mem_wf s))|done].
    + intros (id & Hr & Hs). split; [|done]. exists (id, r). split; [done|]. by apply jm_get_In.
Defined.

(** ** Lifecycles *)

(** One step of a record's status, and the steps of a history. *)
Definition status_step (a b : OrderStatus) : Prop := isValidStatusTransition a b = true.
Definition status_path : OrderStatus -> OrderStatus -> Prop := rtc status_step.

(** The moves of the lifecycle: an order is submitted, again after a failure, may
    be filled in parts, and ends filled, cancelled or expired. *)
Inductive order_move : OrderStatus -> OrderStatus -> Prop :=
| move_submit : order_move pending submitted
| move_resubmit : order_move failed submitted
| move_fill_part : order_move submitted partially_filled
| move_fill a : a = submitted \/ a = partially_filled -> order_move a filled
| move_cancel a : a = pending \/ a = submitted \/ a = partially_filled -> order_move a cancelled
| move_fail a : a = pending \/ a = submitted \/ a = partially_filled -> order_move a failed
| move_expire a : a = pending \/ a = submitted -> order_move a expired.

Lemma status_step_moves a b : status_step a b -> a = b \/ order_move a b.
Proof.
  unfold status_step. destruct a, b; intros H; try (left; reflexivity); try (vm_compute in H; discriminate H);
    right; constructor; tauto.
Qed.
Lemma status_path_moves a b : status_path a b -> rtc order_move a b.
Proof.
  induction 1 as [|a b c Hs _ IH]; [apply rtc_refl|]. apply status_step_moves in Hs as [->|Hm]; [done|]. by eapply rtc_l.
Qed.

Lemma terminal_step a b : is_terminal a = true -> status_step a b -> b = a.
Proof.
  unfold status_step, isValidStatusTransition. intros Ht. case_bool_decide; [done|]. by rewrite Ht.
Qed.

Lemma terminal_path a b : is_terminal a = true -> status_path a b -> b = a.
Proof.
  intros Ht Hp. induction Hp as [|x y z Hs _ IH]; [done|].
  apply terminal_step in Hs as ->; [|done]. by apply IH.
Qed.

(** The order lifecycle: the statuses that no history ever leaves are
    exactly [filled], [cancelled] and [expired]; from [pending] every status is
    reachable; a failed order can only be re-submitted; and no history returns
    to [pending]. *)
Theorem order_lifecycle (a b : OrderStatus) :
  ((forall c, status_path a c -> c = a) <-> is_terminal a = true) /\
  status_path pending b /\
  (status_step failed b -> b = failed \/ b = submitted) /\
  (status_path a pending -> a = pending).
Proof.
  split_and!.
  - split; [|by intros ? c; apply terminal_path].
    intros H. destruct (is_terminal a) eqn:E; [done|].
    assert (Hn : exists c, status_step a c /\ c <> a).
    { destruct a; cbn in E; try discriminate E; [exists submitted|exists filled|exists filled|exists submitted];
        by split. }
    destruct Hn as (c & Hc & Hne). by destruct (Hne (H c (rtc_once _ _ Hc))).
  - assert (H : status_path pending submitted) by by apply rtc_once.
    destruct b; try (by apply rtc_once); (eapply rtc_r; [exact H|done]).
  - unfold status_step. destruct b; vm_compute; auto; discriminate.
  - intros H. remember pending as p eqn:Ep. induction H as [|x y z Hs _ IH]; [done|].
    specialize (IH Ep). subst. unfold status_step in Hs. destruct x; vm_compute in Hs; try done; discriminate.
Qed.
