(* ===== verification/Executor.v ===== *)
(** * The order executor (packages/execution/src/executor.ts)

    [OrderExecutor] drives an order through its lifecycle against three
    interfaces: the order store (class [OrderStore]), the venue adapter and the
    audit writer (class [ExecutionEnv], whose operations act on an abstract
    world and may throw).  The state of a computation is the pair of the store
    and the world; a throw keeps the effects made before it.  Logger and metric
    calls are not modelled.  One call runs at a time. *)
From S2P Require Import Prelude JsNumber JsValue Domain MarketIdentity OrderStore.
Open Scope Z_scope.

(** ** The venue adapter and the audit writer *)

Inductive VenueOrderExecutionMode := simulated | real.
Definition mode_str (m : VenueOrderExecutionMode) : string :=
  match m with simulated => "simulated" | real => "real" end.
Definition VENUE_EXECUTION_REFERENCE_METADATA_KEY : string := "venueExecutionReference".
Definition VENUE_EXECUTION_MODE_METADATA_KEY : string := "venueExecutionMode".

Record PlaceOrderParams := MkPlaceOrderParams {
  pp_clientOrderId : string;
  pp_asset : string;
  pp_side : OrderSide;
  pp_type : OrderType;
  pp_size : string;
  pp_price : option string;
  pp_reduceOnly : bool;
  pp_postOnly : bool;
  pp_marketIdentity : option CanonicalMarketIdentity;
}.

Inductive VenueOrderStatus := vo_submitted | vo_filled | vo_partially_filled | vo_rejected.
Definition venue_status_str (s : VenueOrderStatus) : string :=
  match s with
  | vo_submitted => "submitted" | vo_filled => "filled"
  | vo_partially_filled => "partially_filled" | vo_rejected => "rejected"
  end.

(** [executionReference] may be absent, null or text. *)
Record PlaceOrderResult := MkPlaceOrderResult {
  pr_venueOrderId : string;
  pr_clientOrderId : string;
  pr_status : VenueOrderStatus;
  pr_filledSize : string;
  pr_averageFillPrice : option string;
  pr_fees : option string;
  pr_submittedAt : Z;
  pr_executionReference : option (option string);
  pr_executionMode : option VenueOrderExecutionMode;
  pr_marketIdentity : option CanonicalMarketIdentity;
}.

Record CancelOrderResult := MkCancelOrderResult {
  cr_venueOrderId : string;
  cr_cancelled : bool;
  cr_reason : option string;
}.

Inductive PositionSide := long | short.
#[export] Instance PositionSide_eq_dec : EqDecision PositionSide.
Proof. solve_decision. Defined.
Definition PositionSide_str (s : PositionSide) : string := match s with long => "long" | short => "short" end.

Record VenuePosition := MkVenuePosition {
  vp_venueId : string;
  vp_asset : string;
  vp_side : PositionSide;
  vp_size : string;
  vp_entryPrice : string;
  vp_markPrice : string;
  vp_unrealizedPnl : string;
  vp_marginUsed : string;
  vp_liquidationPrice : option string;
  vp_updatedAt : Z;
}.

(** [AuditEvent]; the actor of every event here is the system. *)
Record AuditEvent := MkAuditEvent {
  ae_eventId : string;
  ae_eventType : string;
  ae_occurredAt : string;
  ae_actorId : string;
  ae_data : record_;
}.

(** The order operations of a [VenueAdapter], the audit writer, the clock and
    the id generator, over a world [W]. *)
Class ExecutionEnv (W : Type) := {
  env_venueId : string;
  env_placeOrder : PlaceOrderParams -> eff W PlaceOrderResult;
  env_cancelOrder : string -> eff W CancelOrderResult;
  env_getOrder : string -> eff W (option PlaceOrderResult);
  env_getPositions : eff W (list VenuePosition);
  env_audit : AuditEvent -> eff W unit;
  env_now : W -> Z * W;
  env_createId : W -> string * W;
  env_sleep : Z -> W -> W;
}.

Record ExecutorConfig := MkExecutorConfig {
  maxRetries : Z;
  retryDelayMs : Z;
  orderTimeoutMs : Z;
}.

Section Executor.
Context {S W : Type} `{OS : OrderStore S} `{EE : ExecutionEnv W}.

Definition on_store {A} (m : eff S A) : eff (S * W) A :=
  fun sw => let '(r, s') := m sw.1 in (r, (s', sw.2)).
Definition on_world {A} (m : eff W A) : eff (S * W) A :=
  fun sw => let '(r, w') := m sw.2 in (r, (sw.1, w')).
Definition pure_world {A} (m : W -> A * W) : eff (S * W) A :=
  fun sw => let '(a, w') := m sw.2 in (Ret a, (sw.1, w')).

Definition now_ : eff (S * W) Z := pure_world env_now.
Definition createId : eff (S * W) string := pure_world env_createId.
Definition sleep (ms : Z) : eff (S * W) unit := pure_world (fun w => (tt, env_sleep ms w)).

Definition audit (eventType actorId : string) (data : record_) : eff (S * W) unit :=
  id ← createId;
  t ← now_;
  on_world (env_audit (MkAuditEvent id eventType (toISOString t) actorId data)).

(** [finalRecord ?? record] *)
Definition get_or (id : string) (record : OrderRecord) : eff (S * W) OrderRecord :=
  r ← on_store (os_getByClientId id);
  mret (or_else r record).

(** ** submitIntent *)

Definition new_record (intent : OrderIntent) : OrderRecord := {|
  or_intent := intent; or_status := pending; or_venueOrderId := None; or_filledSize := "0";
  or_averageFillPrice := None; or_feesPaid := None; or_fills := []; or_submittedAt := None;
  or_completedAt := None; or_lastError := None; or_attemptCount := 0 |}.

Definition runtime_identity (record : OrderRecord) : CanonicalMarketIdentity :=
  let intent := or_intent record in
  or_else
    (readCanonicalMarketIdentityFromMetadata (oi_metadata intent) {|
       md_venueId := Some (oi_venueId intent);
       md_asset := Some (oi_asset intent);
       md_marketType := rec_get (oi_metadata intent) "instrumentType";
       md_provenance := Some derived;
       md_capturedAtStage := runtime_order;
       md_source := "order_executor_submit";
       md_notes := Some ["Runtime order market identity falls back to persisted intent metadata when no venue-native execution metadata is available."] |})
    (createCanonicalMarketIdentity {|
       ii_venueId := Some (oi_venueId intent);
       ii_asset := Some (oi_asset intent);
       ii_marketType := rec_get (oi_metadata intent) "instrumentType";
       ii_marketIndex := JUndefined; ii_marketKey := None; ii_marketSymbol := None; ii_marketName := None;
       ii_aliases := None;
       ii_provenance := Some derived;
       ii_capturedAtStage := runtime_order;
       ii_source := "order_executor_submit";
       ii_notes := Some ["Runtime order market identity is derived from asset and instrument type because the intent did not carry richer market metadata."] |}).

Definition submit_status (s : VenueOrderStatus) : OrderStatus :=
  match s with
  | vo_filled => filled
  | vo_partially_filled => partially_filled
  | vo_rejected => failed
  | vo_submitted => submitted
  end.

Definition is_complete (s : OrderStatus) : bool := bool_decide (s = filled) || bool_decide (s = failed).

(** The metadata persisted with the result of a placement. *)
Definition persisted_metadata (record : OrderRecord) (identity : CanonicalMarketIdentity)
    (result : PlaceOrderResult) : record_ :=
  let resultIdentity :=
    match pr_marketIdentity result with
    | None => None
    | Some i => Some (captureCanonicalMarketIdentity i execution_result (Some ("venue_adapter:" +:+ env_venueId)) None)
    end in
  let persistedIdentity := preferCanonicalMarketIdentity (Some identity) resultIdentity in
  let m0 := attachCanonicalMarketIdentityToMetadata (oi_metadata (or_intent record)) persistedIdentity in
  let m1 := match pr_executionReference result with
            | None => m0
            | Some r => jm_set VENUE_EXECUTION_REFERENCE_METADATA_KEY (JStrNull r) m0
            end in
  match pr_executionMode result with
  | None => m1
  | Some m => jm_set VENUE_EXECUTION_MODE_METADATA_KEY (JStr (mode_str m)) m1
  end.

Definition with_metadata (i : OrderIntent) (m : record_) : OrderIntent := {|
  oi_intentId := oi_intentId i; oi_venueId := oi_venueId i; oi_asset := oi_asset i; oi_side := oi_side i;
  oi_type := oi_type i; oi_size := oi_size i; oi_limitPrice := oi_limitPrice i;
  oi_opportunityId := oi_opportunityId i; oi_reduceOnly := oi_reduceOnly i; oi_createdAt := oi_createdAt i;
  oi_metadata := m |}.

(** [updatedRecord], its [completedAt] read from the clock when complete. *)
Definition result_update (record : OrderRecord) (identity : CanonicalMarketIdentity)
    (result : PlaceOrderResult) (completedAt : option (option Z)) : OrderUpdate := {|
  ou_intent := Some (with_metadata (or_intent record) (persisted_metadata record identity result));
  ou_venueOrderId := Some (Some (pr_venueOrderId result));
  ou_filledSize := Some (pr_filledSize result);
  ou_averageFillPrice := Some (pr_averageFillPrice result);
  ou_feesPaid := Some (pr_fees result);
  ou_fills := None;
  ou_submittedAt := Some (Some (pr_submittedAt result));
  ou_completedAt := completedAt;
  ou_lastError := Some None;
  ou_attemptCount := None |}.

Definition place_params (intent : OrderIntent) (identity : CanonicalMarketIdentity) : PlaceOrderParams := {|
  pp_clientOrderId := oi_intentId intent; pp_asset := oi_asset intent; pp_side := oi_side intent;
  pp_type := oi_type intent; pp_size := oi_size intent; pp_price := oi_limitPrice intent;
  pp_reduceOnly := oi_reduceOnly intent; pp_postOnly := bool_decide (oi_type intent = post_only);
  pp_marketIdentity := Some identity |}.

(** [new Date()] when the status completes the order. *)
Definition completion_time (s : OrderStatus) : eff (S * W) (option (option Z)) :=
  if is_complete s then t ← now_; mret (Some (Some t)) else mret None.

Definition submitted_update (t attempt : Z) : OrderUpdate :=
  MkOrderUpdate None None None None None None (Some (Some t)) None None (Some attempt).
Definition failed_update (message : string) (t : Z) : OrderUpdate :=
  MkOrderUpdate None None None None None None None (Some (Some t)) (Some (Some message)) None.
Definition completed_update (t : Z) : OrderUpdate :=
  MkOrderUpdate None None None None None None None (Some (Some t)) None None.

(** The body of the [try] block of one attempt. *)
Definition submit_attempt (intent : OrderIntent) (record : OrderRecord) (identity : CanonicalMarketIdentity)
    (startMs attempt : Z) : eff (S * W) OrderRecord :=
  t ← now_;
  _ ← on_store (os_updateStatus (oi_intentId intent) submitted (submitted_update t attempt));
  result ← on_world (env_placeOrder (place_params intent identity));
  t2 ← now_;
  let latencyMs := t2 - startMs in
  let newStatus := submit_status (pr_status result) in
  completed ← completion_time newStatus;
  _ ← on_store (os_updateStatus (oi_intentId intent) newStatus (result_update record identity result completed));
  _ ← audit "order.submitted" "order-executor"
        [("intentId", JStr (oi_intentId intent));
         ("venueOrderId", JStr (pr_venueOrderId result));
         ("executionReference", JStrNull (or_else (pr_executionReference result) None));
         ("executionMode", JStrNull (mode_str <$> pr_executionMode result));
         ("status", JStr (venue_status_str (pr_status result)));
         ("latencyMs", JInt latencyMs)];
  get_or (oi_intentId intent) record.

(** The [catch] block: the order is marked failed, then the executor waits
    unless the attempts are used up. *)
Definition after_failure (config : ExecutorConfig) (intent : OrderIntent) (e : JsError) (attempt : Z)
    : eff (S * W) unit :=
  t ← now_;
  _ ← on_store (os_updateStatus (oi_intentId intent) failed (failed_update (err_message e) t));
  if attempt <=? maxRetries config then sleep (retryDelayMs config) else mret tt.

(** The [for] loop with [n] iterations left; [None] when they are exhausted. *)
Fixpoint submit_loop (n : nat) (config : ExecutorConfig) (intent : OrderIntent) (record : OrderRecord)
    (identity : CanonicalMarketIdentity) (startMs attempt : Z) : eff (S * W) (option OrderRecord) :=
  match n with
  | O => mret None
  | Datatypes.S n' => fun sw =>
      match submit_attempt intent record identity startMs attempt sw with
      | (Ret r, sw') => (Ret (Some r), sw')
      | (Throw e, sw') =>
          (_ ← after_failure config intent e attempt;
           submit_loop n' config intent record identity startMs (attempt + 1)) sw'
      end
  end.

Definition submit_record (config : ExecutorConfig) (intent : OrderIntent) (record : OrderRecord)
    : eff (S * W) OrderRecord :=
  _ ← on_store (os_save record);
  let identity := runtime_identity record in
  startMs ← now_;
  outcome ← submit_loop (Z.to_nat (maxRetries config + 1)) config intent record identity startMs 1;
  match outcome with
  | Some r => mret r
  | None => get_or (oi_intentId intent) record
  end.

Definition resubmittable (s : OrderStatus) : bool := bool_decide (s = pending) || bool_decide (s = failed).

Definition submitIntent (config : ExecutorConfig) (intent : OrderIntent) : eff (S * W) OrderRecord :=
  existing ← on_store (os_getByClientId (oi_intentId intent));
  match existing with
  | Some r => if resubmittable (or_status r) then submit_record config intent r else mret r
  | None => submit_record config intent (new_record intent)
  end.

(** ** pollOrderStatus, cancelOrder, processFill *)

Definition no_record (method id : string) : JsError :=
  Error_ (method +:+ ": no order record found for clientOrderId=" +:+ quoted id).

Definition poll_status (s : VenueOrderStatus) (current : OrderStatus) : OrderStatus :=
  match s with
  | vo_filled => filled
  | vo_partially_filled => partially_filled
  | vo_rejected => failed
  | vo_submitted => current
  end.

Definition completed_opt (c : option (option Z)) : OrderUpdate :=
  MkOrderUpdate None None None None None None None c None None.

Definition pollOrderStatus (clientOrderId : string) : eff (S * W) OrderRecord :=
  existing ← on_store (os_getByClientId clientOrderId);
  match existing with
  | None => throw_eff (no_record "pollOrderStatus" clientOrderId)
  | Some record =>
      match or_venueOrderId record with
      | None => mret record
      | Some venueOrderId =>
          venueResult ← on_world (env_getOrder venueOrderId);
          match venueResult with
          | None => mret record
          | Some v =>
              let newStatus := poll_status (pr_status v) (or_status record) in
              completed ← completion_time newStatus;
              _ ← on_store (os_updateStatus clientOrderId newStatus (completed_opt completed));
              get_or clientOrderId record
          end
      end
  end.

Definition cancelOrder (clientOrderId : string) : eff (S * W) OrderRecord :=
  existing ← on_store (os_getByClientId clientOrderId);
  match existing with
  | None => throw_eff (no_record "cancelOrder" clientOrderId)
  | Some record =>
      match or_venueOrderId record with
      | None =>
          t ← now_;
          _ ← on_store (os_updateStatus clientOrderId cancelled (completed_update t));
          get_or clientOrderId record
      | Some venueOrderId =>
          cancelResult ← on_world (env_cancelOrder venueOrderId);
          _ ← (if cr_cancelled cancelResult then
                 t ← now_;
                 _ ← on_store (os_updateStatus clientOrderId cancelled (completed_update t));
                 audit "order.cancelled" "order-executor"
                   [("clientOrderId", JStr clientOrderId); ("venueOrderId", JStr venueOrderId)]
               else mret tt);
          get_or clientOrderId record
      end
  end.

(** [totalFilled]: the sizes added left to right as numbers. *)
Definition total_filled (fills : list OrderFill) : num :=
  foldl (fun acc f => n_add acc (parseFloat (of_filledSize f))) (num_of_Z 0) fills.

Definition fills_complete (size : string) (fills : list OrderFill) : bool :=
  n_ge (total_filled fills) (n_sub (parseFloat size) (num_of_dec 1 (-12))).

Definition fills_update (fills : list OrderFill) (completed : option (option Z)) : OrderUpdate :=
  MkOrderUpdate None None None None None (Some fills) None completed None None.

Definition ignores_fills (s : OrderStatus) : bool :=
  bool_decide (s = filled) || bool_decide (s = cancelled) || bool_decide (s = failed).

Definition has_fill (fill : OrderFill) (record : OrderRecord) : bool :=
  existsb (fun f => bool_decide (of_fillId f = of_fillId fill)) (or_fills record).

Definition processFill (clientOrderId : string) (fill : OrderFill) : eff (S * W) OrderRecord :=
  existing ← on_store (os_getByClientId clientOrderId);
  match existing with
  | None => throw_eff (no_record "processFill" clientOrderId)
  | Some record =>
      if ignores_fills (or_status record) then mret record
      else if has_fill fill record then mret record
      else
        let updatedFills := or_fills record ++ [fill] in
        let isFullyFilled := fills_complete (oi_size (or_intent record)) updatedFills in
        let newStatus := if isFullyFilled then filled else partially_filled in
        completed ← (if isFullyFilled then t ← now_; mret (Some (Some t)) else mret None);
        _ ← on_store (os_updateStatus clientOrderId newStatus (fills_update updatedFills completed));
        _ ← audit "order.fill_received" "order-executor"
              [("clientOrderId", JStr clientOrderId); ("fillId", JStr (of_fillId fill));
               ("filledSize", JStr (of_filledSize fill)); ("fillPrice", JStr (of_fillPrice fill));
               ("totalFilled", JNum (total_filled updatedFills)); ("status", JStr (OrderStatus_str newStatus))];
        get_or clientOrderId record
  end.
End Executor.

(** ** Executions only move records along the lifecycle *)

Section Lifecycle.
Context {S W : Type} `{OS : OrderStore S} `{OL : !OrderStoreLaws S} `{EE : ExecutionEnv W}.

(** Records are stored under their intent id. *)
Definition keyed (s : S) : Prop :=
  forall id r, os_lookup id s = Some r -> oi_intentId (or_intent r) = id.

(** The store after: still keyed, no record lost, every status advanced along
    the lifecycle. *)
Definition evolves (s s' : S) : Prop :=
  keyed s' /\ forall id r, os_lookup id s = Some r ->
    exists r', os_lookup id s' = Some r' /\ status_path (or_status r) (or_status r').

Definition safe {A} (m : eff (S * W) A) : Prop :=
  forall sw, keyed sw.1 -> evolves sw.1 (m sw).2.1.

Lemma evolves_refl s : keyed s -> evolves s s.
Proof. intros H. split; [done|]. intros id r Hr. exists r. split; [done|apply rtc_refl]. Qed.

Lemma evolves_trans s1 s2 s3 : evolves s1 s2 -> evolves s2 s3 -> evolves s1 s3.
Proof.
  intros [_ H1] [K H2]. split; [done|]. intros id r (r2 & Hr2 & P2)%H1.
  apply H2 in Hr2 as (r3 & Hr3 & P3). exists r3. split; [done|]. by etransitivity.
Qed.

Lemma safe_ret {A} (a : A) : safe (mret a).
Proof. intros sw H. by apply evolves_refl. Qed.

Lemma safe_throw {A} e : safe (throw_eff (A := A) e).
Proof. intros sw H. by apply evolves_refl. Qed.

Lemma safe_bind {A B} (m : eff (S * W) A) (f : A -> eff (S * W) B) :
  safe m -> (forall a, safe (f a)) -> safe (m ≫= f).
Proof.
  intros Hm Hf sw Hk. specialize (Hm sw Hk). unfold mbind, eff_bind.
  destruct (m sw) as [[a|e] sw']; [|done]. cbn in Hm.
  eapply evolves_trans; [exact Hm|]. apply Hf, Hm.
Qed.

(** The continuation of a read may use what was read. *)
Lemma safe_get {B} id (f : option OrderRecord -> eff (S * W) B) :
  (forall sw, keyed sw.1 -> evolves sw.1 (f (os_lookup id sw.1) sw).2.1) ->
  safe (on_store (os_getByClientId id) ≫= f).
Proof.
  intros Hf [s w] Hk. erewrite eff_bind_ret; [by apply Hf|].
  unfold on_store. cbn. by rewrite os_get_spec.
Qed.

Lemma safe_read id : safe (on_store (os_getByClientId id)).
Proof. intros [s w] Hk. unfold on_store. cbn. rewrite os_get_spec. by apply evolves_refl. Qed.

Lemma safe_world {A} (m : eff W A) : safe (on_world m).
Proof. intros [s w] Hk. unfold on_world. cbn. destruct (m w). by apply evolves_refl. Qed.

Lemma safe_pure {A} (m : W -> A * W) : safe (pure_world m).
Proof. intros [s w] Hk. unfold pure_world. cbn. destruct (m w). by apply evolves_refl. Qed.

Lemma safe_get_or id record : safe (get_or id record).
Proof.
  apply safe_get. intros sw Hk. by apply evolves_refl.
Qed.

Lemma safe_update id st u :
  match ou_intent u with Some i => oi_intentId i = id | None => True end ->
  safe (on_store (os_updateStatus id st u)).
Proof.
  intros Hu [s w] Hk. unfold on_store. cbn. pose proof (os_update_spec id st u s) as H.
  destruct (os_lookup id s) as [r|] eqn:E.
  - destruct (isValidStatusTransition (or_status r) st) eqn:Ev.
    + destruct H as (s' & -> & Hl). cbn in *. split.
      * intros id' r' Hr'. rewrite Hl in Hr'. case_decide; [|by apply Hk]. subst. simplify_eq.
        cbn. destruct (ou_intent u); [done|]. cbn. by apply Hk.
      * intros id' r' Hr'. rewrite Hl. case_decide; [|exists r'; split; [done|apply rtc_refl]].
        subst. simplify_eq. eexists. split; [done|]. by apply rtc_once.
    + destruct H as (e & ->). by apply evolves_refl.
  - destruct H as (e & ->). by apply evolves_refl.
Qed.

Lemma safe_audit t a d : safe (audit t a d).
Proof. unfold audit, createId, now_. repeat (apply safe_bind; intros); auto using safe_pure, safe_world. Qed.

Lemma safe_completion st : safe (completion_time st).
Proof.
  unfold completion_time, now_. destruct (is_complete st); [|apply safe_ret].
  apply safe_bind; [apply safe_pure|]. intros. apply safe_ret.
Qed.

Create HintDb safe discriminated.
#[local] Hint Resolve safe_ret safe_throw safe_world safe_pure safe_get_or safe_audit safe_completion : safe.

Ltac safe_steps := repeat first
  [ progress auto with safe nocore
  | apply safe_update; done
  | apply safe_bind; [|intros ?] ].

Lemma safe_attempt intent record identity startMs attempt :
  oi_intentId (or_intent record) = oi_intentId intent ->
  safe (submit_attempt intent record identity startMs attempt).
Proof. intros Hid. unfold submit_attempt, now_. safe_steps. Qed.

Lemma safe_loop n config intent record identity startMs : forall attempt,
  oi_intentId (or_intent record) = oi_intentId intent ->
  safe (submit_loop n config intent record identity startMs attempt).
Proof.
  induction n as [|n IH]; intros attempt Hid; cbn [submit_loop]; [apply safe_ret|].
  intros sw Hk. pose proof (safe_attempt intent record identity startMs attempt Hid sw Hk) as Ha.
  destruct (submit_attempt intent record identity startMs attempt sw) as [[r|e] sw']; [done|].
  cbn in Ha. eapply evolves_trans; [exact Ha|].
  apply (safe_bind (after_failure config intent e attempt)); [| |apply Ha].
  - unfold after_failure, now_, sleep. safe_steps. case_match; safe_steps.
  - intros _. by apply IH.
Qed.

Lemma safe_save_then {B} record (f : unit -> eff (S * W) B) sw :
  keyed sw.1 -> (forall a, safe (f a)) ->
  (forall r, os_lookup (oi_intentId (or_intent record)) sw.1 = Some r -> r = record) ->
  evolves sw.1 ((on_store (os_save record) ≫= f) sw).2.1.
Proof.
  intros Hk Hf Hr. destruct sw as [s w]. cbn in *. destruct (os_save_spec record s) as (s' & Hs & Hl).
  erewrite eff_bind_ret by (unfold on_store; cbn; by rewrite Hs).
  assert (He : evolves s s').
  { split.
    - intros id r H. rewrite Hl in H. case_decide; [by simplify_eq|by apply Hk].
    - intros id r H. rewrite Hl. case_decide; [subst; rewrite (Hr r H)|]; eauto using rtc_refl.
      exists record. split; [done|apply rtc_refl]. 
      exists r. split; [done|apply rtc_refl]. }
  eapply evolves_trans; [exact He|]. apply (Hf tt (s', w)), He.
Qed.

Lemma safe_submit_record config intent record sw :
  keyed sw.1 -> oi_intentId (or_intent record) = oi_intentId intent ->
  (forall r, os_lookup (oi_intentId intent) sw.1 = Some r -> r = record) ->
  evolves sw.1 (submit_record config intent record sw).2.1.
Proof.
  intros Hk Hid Hr. apply safe_save_then; [done| |by rewrite Hid].
  intros _. unfold now_. apply safe_bind; [apply safe_pure|]. intros t.
  apply safe_bind; [by apply safe_loop|]. intros [r|]; auto with safe nocore.
Qed.

Lemma safe_submitIntent config intent : safe (submitIntent config intent).
Proof.
  apply safe_get. intros sw Hk. destruct (os_lookup _ _) as [r|] eqn:E.
  - destruct (resubmittable _); [|by apply evolves_refl].
    apply safe_submit_record; [done|by apply Hk|intros; congruence].
  - apply safe_submit_record; [done|done|intros; congruence].
Qed.

Lemma safe_poll id : safe (pollOrderStatus id).
Proof.
  unfold pollOrderStatus. apply safe_bind; [apply safe_read|]. intros [r|]; [|apply safe_throw].
  destruct (or_venueOrderId r); [|apply safe_ret]. apply safe_bind; [apply safe_world|].
  intros [v|]; safe_steps.
Qed.

Lemma safe_cancel id : safe (cancelOrder id).
Proof.
  unfold cancelOrder, now_. apply safe_bind; [apply safe_read|]. intros [r|]; [|apply safe_throw].
  destruct (or_venueOrderId r); safe_steps. destruct (cr_cancelled _); safe_steps.
Qed.

Lemma safe_processFill id f : safe (processFill id f).
Proof.
  unfold processFill, now_. apply safe_bind; [apply safe_read|]. intros [r|]; [|apply safe_throw].
  destruct (ignores_fills _); [apply safe_ret|]. destruct (has_fill _ _); [apply safe_ret|].
  destruct (fills_complete _ _); safe_steps.
Qed.
End Lifecycle.

(** A call of the executor, and the store and world it leaves (whether it
    returns or throws). *)
Inductive xop :=
| XSubmit (config : ExecutorConfig) (intent : OrderIntent)
| XPoll (id : string)
| XCancel (id : string)
| XFill (id : string) (f : OrderFill).

Definition run_xop {S W : Type} `{OS : OrderStore S} `{EE : ExecutionEnv W} (sw : S * W) (op : xop) : S * W :=
  match op with
  | XSubmit config intent => (submitIntent config intent sw).2
  | XPoll id => (pollOrderStatus id sw).2
  | XCancel id => (cancelOrder id sw).2
  | XFill id f => (processFill id f sw).2
  end.

(** ** Counting placements *)

(** The environment with a counter of the placements requested of the venue. *)
#[local] Instance counting {W} (EE : ExecutionEnv W) : ExecutionEnv (W * nat) := {|
  env_venueId := env_venueId;
  env_placeOrder := fun p wk => let '(r, w') := env_placeOrder p wk.1 in (r, (w', Datatypes.S wk.2));
  env_cancelOrder := fun id wk => let '(r, w') := env_cancelOrder id wk.1 in (r, (w', wk.2));
  env_getOrder := fun id wk => let '(r, w') := env_getOrder id wk.1 in (r, (w', wk.2));
  env_getPositions := fun wk => let '(r, w') := env_getPositions wk.1 in (r, (w', wk.2));
  env_audit := fun ev wk => let '(r, w') := env_audit ev wk.1 in (r, (w', wk.2));
  env_now := fun wk => let '(r, w') := env_now wk.1 in (r, (w', wk.2));
  env_createId := fun wk => let '(r, w') := env_createId wk.1 in (r, (w', wk.2));
  env_sleep := fun ms wk => (env_sleep ms wk.1, wk.2);
|}.

Section Counting.
Context {S W : Type} `{OS : OrderStore S} `{OL : !OrderStoreLaws S} (EE : ExecutionEnv W).
Abbreviation St := (S * (W * nat))%type.
#[local] Existing Instance counting.

Definition placements (sw : St) : nat := sw.2.2.

(** [m] requests at most [n] placements. *)
Definition places {A} (n : nat) (m : eff St A) : Prop :=
  forall sw, (placements (m sw).2 <= placements sw + n)%nat.

Lemma places_weaken {A} n n' (m : eff St A) : (n <= n')%nat -> places n m -> places n' m.
Proof. intros H Hm sw. specialize (Hm sw). lia. Qed.

Lemma places_bind {A B} n1 n2 (m : eff St A) (f : A -> eff St B) :
  places n1 m -> (forall a, places n2 (f a)) -> places (n1 + n2) (m ≫= f).
Proof.
  intros Hm Hf sw. specialize (Hm sw). unfold mbind, eff_bind.
  destruct (m sw) as [[a|e] sw']; cbn in *; [|lia]. specialize (Hf a sw'). lia.
Qed.

Lemma places_bind0 {A B} n (m : eff St A) (f : A -> eff St B) :
  places 0 m -> (forall a, places n (f a)) -> places n (m ≫= f).
Proof. apply (places_bind 0). Qed.

Lemma places_ret {A} n (a : A) : places n (mret a).
Proof. intros sw. unfold placements. cbn. lia. Qed.

Lemma places_store {A} n (m : eff S A) : places n (on_store m).
Proof. intros [s w]. unfold on_store, placements. cbn. destruct (m s). cbn. lia. Qed.

Lemma places_now n : places n now_.
Proof. intros [s [w k]]. unfold now_, pure_world, placements. cbn. destruct (env_now w). cbn. lia. Qed.

Lemma places_sleep n ms : places n (sleep ms).
Proof. intros [s [w k]]. unfold sleep, pure_world, placements. cbn. lia. Qed.

Lemma places_id n : places n createId.
Proof. intros [s [w k]]. unfold createId, pure_world, placements. cbn. destruct (env_createId w). cbn. lia. Qed.

Lemma places_env_audit n ev : places n (on_world (env_audit ev)).
Proof. intros [s [w k]]. unfold on_world, placements. cbn. destruct (env_audit ev w). cbn. lia. Qed.

Lemma places_place p : places 1 (on_world (env_placeOrder p)).
Proof. intros [s [w k]]. unfold on_world, placements. cbn. destruct (env_placeOrder p w). cbn. lia. Qed.

Lemma places_get_or n id r : places n (get_or id r).
Proof. unfold get_or. apply places_bind0; [apply places_store|]. intros. apply places_ret. Qed.

Lemma places_audit n t a d : places n (audit t a d).
Proof.
  unfold audit. apply places_bind0; [apply places_id|]. intros.
  apply places_bind0; [apply places_now|]. intros. apply places_env_audit.
Qed.

Lemma places_completion n st : places n (completion_time st).
Proof.
  unfold completion_time. destruct (is_complete st); [|apply places_ret].
  apply places_bind0; [apply places_now|]. intros. apply places_ret.
Qed.

Lemma places_attempt intent record identity startMs attempt :
  places 1 (submit_attempt intent record identity startMs attempt).
Proof.
  unfold submit_attempt. apply places_bind0; [apply places_now|]. intros t.
  apply places_bind0; [apply places_store|]. intros _.
  apply (places_bind 1 0); [apply places_place|]. intros result.
  apply places_bind0; [apply places_now|]. intros t2.
  apply places_bind0; [apply places_completion|]. intros c.
  apply places_bind0; [apply places_store|]. intros _.
  apply places_bind0; [apply places_audit|]. intros _. apply places_get_or.
Qed.

Lemma places_failure n config intent e attempt : places n (after_failure config intent e attempt).
Proof.
  unfold after_failure. apply places_bind0; [apply places_now|]. intros t.
  apply places_bind0; [apply places_store|]. intros _.
  destruct (_ <=? _); [apply places_sleep|apply places_ret].
Qed.

Lemma places_loop n config intent record identity startMs : forall attempt,
  places n (submit_loop n config intent record identity startMs attempt).
Proof.
  induction n as [|n IH]; intros attempt; cbn [submit_loop]; [apply places_ret|].
  intros sw. pose proof (places_attempt intent record identity startMs attempt sw) as Ha.
  destruct (submit_attempt intent record identity startMs attempt sw) as [[r|e] sw']; cbn in *; [lia|].
  pose proof (places_bind0 n (after_failure config intent e attempt)
    (fun _ => submit_loop n config intent record identity startMs (attempt + 1))
    (places_failure 0 config intent e attempt) (fun _ => IH (attempt + 1)) sw').
  lia.
Qed.

Lemma places_submit config intent :
  places (Z.to_nat (maxRetries config + 1)) (submitIntent config intent).
Proof.
  unfold submitIntent. apply places_bind0; [apply places_store|]. intros existing.
  assert (Hr : forall record, places (Z.to_nat (maxRetries config + 1)) (submit_record config intent record)).
  { intros record. unfold submit_record. apply places_bind0; [apply places_store|]. intros _.
    apply places_bind0; [apply places_now|]. intros t.
    apply (places_weaken (Z.to_nat (maxRetries config + 1) + 0)); [lia|].
    apply places_bind; [apply places_loop|].
    intros [r|]; [apply places_ret|apply places_get_or]. }
  destruct existing as [r|]; [destruct (resubmittable _); [done|apply places_ret]|done].
Qed.
End Counting.

(** ** Outcomes of a submission *)

Section Outcomes.
Context {S W : Type} `{OS : OrderStore S} `{OL : !OrderStoreLaws S} (EE : ExecutionEnv W).
Abbreviation St := (S * (W * nat))%type.
#[local] Existing Instance counting.

Lemma now_step (s : S) (w : W) (k : nat) : exists t w', now_ (s, (w, k)) = (Ret t, (s, (w', k))).
Proof. unfold now_, pure_world. cbn. destruct (env_now w) as [t w']. eauto. Qed.

Lemma update_step id st u (s : S) (w : W) (k : nat) r :
  os_lookup id s = Some r -> isValidStatusTransition (or_status r) st = true ->
  exists s', on_store (os_updateStatus id st u) (s, (w, k)) = (Ret tt, (s', (w, k))) /\
    forall id', os_lookup id' s' = if decide (id' = id) then Some (merge_record r st u) else os_lookup id' s.
Proof.
  intros Hr Hv. pose proof (os_update_spec id st u s) as H. rewrite Hr, Hv in H.
  destruct H as (s' & H & Hl). exists s'. split; [|done]. unfold on_store. cbn. by rewrite H.
Qed.

Lemma completion_step st (s : S) (w : W) (k : nat) :
  exists c w', completion_time st (s, (w, k)) = (Ret c, (s, (w', k))).
Proof.
  unfold completion_time. destruct (is_complete st); [|by eexists _, _].
  destruct (now_step s w k) as (t & w' & H). erewrite eff_bind_ret by exact H. by eexists _, _.
Qed.

(** An attempt reaches the venue with the order marked as submitted. *)
Lemma attempt_to_venue intent record identity startMs attempt (s : S) (w : W) (k : nat) r :
  os_lookup (oi_intentId intent) s = Some r -> resubmittable (or_status r) = true ->
  exists s1 w1 r1,
    os_lookup (oi_intentId intent) s1 = Some r1 /\ or_status r1 = submitted /\ or_attemptCount r1 = attempt /\
    or_intent r1 = or_intent r /\
    submit_attempt intent record identity startMs attempt (s, (w, k)) =
    (result ← on_world (env_placeOrder (place_params intent identity));
     t2 ← now_;
     completed ← completion_time (submit_status (pr_status result));
     _ ← on_store (os_updateStatus (oi_intentId intent) (submit_status (pr_status result))
           (result_update record identity result completed));
     _ ← audit "order.submitted" "order-executor"
        [("intentId", JStr (oi_intentId intent));
         ("venueOrderId", JStr (pr_venueOrderId result));
         ("executionReference", JStrNull (or_else (pr_executionReference result) None));
         ("executionMode", JStrNull (mode_str <$> pr_executionMode result));
         ("status", JStr (venue_status_str (pr_status result)));
         ("latencyMs", JInt (t2 - startMs))];
     get_or (oi_intentId intent) record) (s1, (w1, k)).
Proof.
  intros Hr Hres. unfold submit_attempt.
  destruct (now_step s w k) as (t & w1 & Ht). erewrite eff_bind_ret by exact Ht.
  destruct (update_step (oi_intentId intent) submitted (submitted_update t attempt) s w1 k r) as (s1 & Hs1 & Hl); [done| |].
  { unfold resubmittable in Hres. destruct (or_status r); done. }
  erewrite eff_bind_ret by exact Hs1. exists s1, w1, (merge_record r submitted (submitted_update t attempt)).
  split_and!; try done. by rewrite Hl, decide_True.
Qed.

Lemma place_step p (s : S) (w : W) (k : nat) x w' :
  env_placeOrder p w = (x, w') -> on_world (env_placeOrder p) (s, (w, k)) = (x, (s, (w', Datatypes.S k))).
Proof. intros H. unfold on_world. cbn. by rewrite H. Qed.

(** When every audit write succeeds. *)
Lemma audit_step t a d (s : S) (w : W) (k : nat) :
  (forall ev w, exists w', env_audit ev w = (Ret tt, w')) ->
  exists w', audit t a d (s, (w, k)) = (Ret tt, (s, (w', k))).
Proof.
  intros Ha. unfold audit, createId, now_, pure_world, mbind, eff_bind. cbn -[toISOString].
  destruct (env_createId w) as [id w1]. cbn -[toISOString]. destruct (env_now w1) as [n w2]. cbn -[toISOString].
  unfold on_world. cbn -[toISOString]. destruct (Ha (MkAuditEvent id t (toISOString n) a d) w2) as [w3 ->]. eauto.
Qed.

Lemma audit_fails t a d e (s : S) (w : W) (k : nat) :
  (forall ev w, exists w', env_audit ev w = (Throw e, w')) ->
  exists w', audit t a d (s, (w, k)) = (Throw e, (s, (w', k))).
Proof.
  intros Ha. unfold audit, createId, now_, pure_world, mbind, eff_bind. cbn -[toISOString].
  destruct (env_createId w) as [id w1]. cbn -[toISOString]. destruct (env_now w1) as [n w2]. cbn -[toISOString].
  unfold on_world. cbn -[toISOString]. destruct (Ha (MkAuditEvent id t (toISOString n) a d) w2) as [w3 ->]. eauto.
Qed.

Lemma submitted_valid st : isValidStatusTransition submitted (submit_status st) = true.
Proof. by destruct st. Qed.

(** The venue's answer is persisted. *)
Lemma attempt_succeeds intent record identity startMs attempt (s : S) (w : W) (k : nat) r answer :
  os_lookup (oi_intentId intent) s = Some r -> resubmittable (or_status r) = true ->
  (forall p w, exists w', env_placeOrder p w = (Ret (answer p), w')) ->
  (forall ev w, exists w', env_audit ev w = (Ret tt, w')) ->
  exists r' s' w', submit_attempt intent record identity startMs attempt (s, (w, k)) =
      (Ret r', (s', (w', Datatypes.S k))) /\
    os_lookup (oi_intentId intent) s' = Some r' /\
    or_status r' = submit_status (pr_status (answer (place_params intent identity))) /\
    or_venueOrderId r' = Some (pr_venueOrderId (answer (place_params intent identity))) /\
    or_filledSize r' = pr_filledSize (answer (place_params intent identity)) /\
    or_lastError r' = None.
Proof.
  intros Hr Hres Hp Ha.
  destruct (attempt_to_venue intent record identity startMs attempt s w k r Hr Hres)
    as (s1 & w1 & r1 & Hr1 & Hst1 & _ & _ & ->).
  destruct (Hp (place_params intent identity) w1) as [w2 H2].
  erewrite eff_bind_ret by (by apply place_step).
  destruct (now_step s1 w2 (Datatypes.S k)) as (t2 & w3 & H3). erewrite eff_bind_ret by exact H3.
  set (res := answer _) in *.
  destruct (completion_step (submit_status (pr_status res)) s1 w3 (Datatypes.S k)) as (c & w4 & H4).
  erewrite eff_bind_ret by exact H4.
  destruct (update_step (oi_intentId intent) (submit_status (pr_status res)) (result_update record identity res c)
    s1 w4 (Datatypes.S k) r1) as (s2 & H5 & Hl); [done|by rewrite Hst1; apply submitted_valid|].
  erewrite eff_bind_ret by exact H5.
  match goal with |- context [audit ?a ?b ?d] => destruct (audit_step a b d s2 w4 (Datatypes.S k) Ha) as [w5 H6] end.
  erewrite eff_bind_ret by exact H6.
  assert (Hlk : os_lookup (oi_intentId intent) s2 =
    Some (merge_record r1 (submit_status (pr_status res)) (result_update record identity res c)))
    by by rewrite Hl, decide_True.
  eexists _, s2, w5. unfold get_or. erewrite eff_bind_ret; cycle 1.
  { unfold on_store. cbn. rewrite os_get_spec, Hlk. done. }
  cbn. rewrite Hlk. done.
Qed.

(** A venue that cannot be reached, or an audit trail that cannot be written
    after the venue accepted: either way the attempt throws. *)
Definition attempts_throw (e : JsError) : Prop :=
  (forall p w, exists w', env_placeOrder p w = (Throw e, w')) \/
  ((exists answer, (forall p, pr_status (answer p) = vo_submitted) /\
      forall p w, exists w', env_placeOrder p w = (Ret (answer p), w')) /\
   (forall ev w, exists w', env_audit ev w = (Throw e, w'))).

Lemma attempt_fails e intent record identity startMs attempt (s : S) (w : W) (k : nat) r :
  attempts_throw e ->
  os_lookup (oi_intentId intent) s = Some r -> resubmittable (or_status r) = true ->
  exists s' w' r', submit_attempt intent record identity startMs attempt (s, (w, k)) =
      (Throw e, (s', (w', Datatypes.S k))) /\
    os_lookup (oi_intentId intent) s' = Some r' /\ or_status r' = submitted /\ or_attemptCount r' = attempt.
Proof.
  intros Hf Hr Hres.
  destruct (attempt_to_venue intent record identity startMs attempt s w k r Hr Hres)
    as (s1 & w1 & r1 & Hr1 & Hst1 & Hat1 & _ & ->).
  destruct Hf as [Hp|[(answer & Hans & Hp) Ha]]; destruct (Hp (place_params intent identity) w1) as [w2 H2].
  { exists s1, w2, r1. split_and!; try done. erewrite eff_bind_throw; [done|]. by apply place_step. }
  erewrite eff_bind_ret by (by apply place_step).
  destruct (now_step s1 w2 (Datatypes.S k)) as (t2 & w3 & H3). erewrite eff_bind_ret by exact H3.
  rewrite Hans. cbn [submit_status].
  destruct (completion_step submitted s1 w3 (Datatypes.S k)) as (c & w4 & H4).
  erewrite eff_bind_ret by exact H4.
  destruct (update_step (oi_intentId intent) submitted (result_update record identity (answer (place_params intent identity)) c)
    s1 w4 (Datatypes.S k) r1) as (s2 & H5 & Hl); [done|by rewrite Hst1|].
  erewrite eff_bind_ret by exact H5.
  match goal with |- context [audit ?a ?b ?d] => destruct (audit_fails a b d e s2 w4 (Datatypes.S k) Ha) as [w5 H6] end.
  erewrite eff_bind_throw by exact H6.
  eexists s2, w5, _. split; [done|]. rewrite Hl, decide_True by done. split; [done|]. done.
Qed.

Lemma failure_step config intent e attempt (s : S) (w : W) (k : nat) r :
  os_lookup (oi_intentId intent) s = Some r -> or_status r = submitted ->
  exists s' w' r', after_failure config intent e attempt (s, (w, k)) = (Ret tt, (s', (w', k))) /\
    os_lookup (oi_intentId intent) s' = Some r' /\ or_status r' = failed /\
    or_lastError r' = Some (err_message e) /\ or_attemptCount r' = or_attemptCount r.
Proof.
  intros Hr Hs. unfold after_failure.
  destruct (now_step s w k) as (t & w1 & H1). erewrite eff_bind_ret by exact H1.
  destruct (update_step (oi_intentId intent) failed (failed_update (err_message e) t) s w1 k r) as (s' & H2 & Hl);
    [done|by rewrite Hs|].
  erewrite eff_bind_ret by exact H2.
  assert (exists w2, (if attempt <=? maxRetries config then sleep (retryDelayMs config) else mret tt) (s', (w1, k))
    = (Ret tt, (s', (w2, k)))) as [w2 H3] by (destruct (_ <=? _); by eexists).
  rewrite H3. eexists s', w2, _. split; [done|]. rewrite Hl, decide_True by done. split; [done|]. done.
Qed.

Lemma loop_exhausted e config intent record identity startMs n : forall attempt s w k r,
  attempts_throw e ->
  os_lookup (oi_intentId intent) s = Some r -> resubmittable (or_status r) = true ->
  exists s' w' r', submit_loop n config intent record identity startMs attempt (s, (w, k)) =
      (Ret None, (s', (w', (k + n)%nat))) /\
    os_lookup (oi_intentId intent) s' = Some r' /\
    ((0 < n)%nat -> or_status r' = failed /\ or_lastError r' = Some (err_message e) /\
       or_attemptCount r' = attempt + Z.of_nat n - 1).
Proof.
  induction n as [|n IH]; intros attempt s w k r Hf Hr Hres; cbn [submit_loop].
  { exists s, w, r. rewrite Nat.add_0_r. split_and!; [done|done|lia]. }
  destruct (attempt_fails e intent record identity startMs attempt s w k r Hf Hr Hres)
    as (s1 & w1 & r1 & -> & Hr1 & Hs1 & Ha1).
  destruct (failure_step config intent e attempt s1 w1 (Datatypes.S k) r1 Hr1 Hs1)
    as (s2 & w2 & r2 & H2 & Hr2 & Hs2 & He2 & Ha2).
  erewrite eff_bind_ret by exact H2.
  destruct (IH (attempt + 1) s2 w2 (Datatypes.S k) r2 Hf Hr2) as (s3 & w3 & r3 & H3 & Hr3 & Hn).
  { by rewrite Hs2. }
  rewrite H3. exists s3, w3, r3. split_and!; [do 3 f_equal; lia|done|]. intros _.
  destruct n as [|n].
  - cbn in H3. injection H3 as <- <- _. rewrite Hr2 in Hr3. injection Hr3 as <-.
    split_and!; [done|done|]. rewrite Ha2, Ha1. lia.
  - destruct Hn as (? & ? & ->); [lia|]. split_and!; [done|done|lia].
Qed.

(** No record yet, or one that may be (re)submitted. *)
Definition can_submit (id : string) (s : S) : Prop :=
  match os_lookup id s with
  | None => True
  | Some r => resubmittable (or_status r) = true /\ oi_intentId (or_intent r) = id
  end.

Lemma submit_unfold config intent (s : S) (w : W) (k : nat) :
  can_submit (oi_intentId intent) s ->
  exists record s1 startMs w1,
    os_lookup (oi_intentId intent) s1 = Some record /\ resubmittable (or_status record) = true /\
    submitIntent config intent (s, (w, k)) =
    (outcome ← submit_loop (Z.to_nat (maxRetries config + 1)) config intent record (runtime_identity record) startMs 1;
     match outcome with
     | Some r => mret r
     | None => get_or (oi_intentId intent) record
     end) (s1, (w1, k)).
Proof.
  intros Hc. unfold submitIntent.
  assert (Hrec : forall record, resubmittable (or_status record) = true ->
    oi_intentId (or_intent record) = oi_intentId intent ->
    exists s1 startMs w1,
    os_lookup (oi_intentId intent) s1 = Some record /\ 
    submit_record config intent record (s, (w, k)) =
    (outcome ← submit_loop (Z.to_nat (maxRetries config + 1)) config intent record (runtime_identity record) startMs 1;
     match outcome with
     | Some r => mret r
     | None => get_or (oi_intentId intent) record
     end) (s1, (w1, k))).
  { intros record Hres Hid. unfold submit_record. destruct (os_save_spec record s) as (s1 & Hs & Hl).
    erewrite eff_bind_ret by (unfold on_store; cbn; by rewrite Hs). cbn zeta.
    destruct (now_step s1 w k) as (t & w1 & H1). erewrite eff_bind_ret by exact H1.
    exists s1, t, w1. split; [|done]. by rewrite Hl, Hid, decide_True. }
  erewrite eff_bind_ret by (unfold on_store; cbn; by rewrite os_get_spec).
  unfold can_submit in Hc. destruct (os_lookup (oi_intentId intent) s) as [r|].
  - destruct Hc as [Hres Hid]. rewrite Hres.
    destruct (Hrec r Hres Hid) as (s1 & t & w1 & H1 & H2). by exists r, s1, t, w1.
  - destruct (Hrec (new_record intent)) as (s1 & t & w1 & H1 & H2); [done|done|].
    by exists (new_record intent), s1, t, w1.
Qed.

Lemma submit_exhausted e config intent (s : S) (w : W) (k : nat) :
  attempts_throw e -> 0 <= maxRetries config -> can_submit (oi_intentId intent) s ->
  exists r s' w', submitIntent config intent (s, (w, k)) =
      (Ret r, (s', (w', (k + Z.to_nat (maxRetries config + 1))%nat))) /\
    os_lookup (oi_intentId intent) s' = Some r /\ or_status r = failed /\
    or_lastError r = Some (err_message e) /\ or_attemptCount r = maxRetries config + 1.
Proof.
  intros Hf Hn Hc. destruct (submit_unfold config intent s w k Hc) as (record & s1 & t & w1 & Hr & Hres & ->).
  destruct (loop_exhausted e config intent record (runtime_identity record) t (Z.to_nat (maxRetries config + 1))
    1 s1 w1 k record Hf Hr Hres) as (s2 & w2 & r2 & H2 & Hr2 & Hout).
  erewrite eff_bind_ret by exact H2.
  exists r2, s2, w2. unfold get_or. erewrite eff_bind_ret; cycle 1.
  { unfold on_store. cbn. rewrite os_get_spec, Hr2. done. }
  destruct Hout as (H3 & H4 & H5); [lia|]. split_and!; try done. rewrite H5. lia.
Qed.
End Outcomes.

(** ** Properties *)

Section ExecutorProperties.
Context {S W : Type} `{OS : OrderStore S} `{OL : !OrderStoreLaws S} (EE : ExecutionEnv W).
#[local] Existing Instance counting.

(** Submission is idempotent: for an intent whose record is neither
    pending nor failed, [submitIntent] returns that record and has no effect
    on the store, the venue or the audit trail. *)
Theorem submit_idempotent (config : ExecutorConfig) (intent : OrderIntent) (s : S) (w : W) (r : OrderRecord)
    (Hr : os_lookup (oi_intentId intent) s = Some r) (Hp : or_status r <> pending) (Hf : or_status r <> failed) :
  submitIntent config intent (s, w) = (Ret r, (s, w)).
Proof.
  unfold submitIntent. erewrite eff_bind_ret by (unfold on_store; cbn; by rewrite os_get_spec).
  rewrite Hr. unfold resubmittable. by rewrite !bool_decide_false.
Qed.

(** Bounded retries: one call of [submitIntent] requests at most
    [maxRetries + 1] placements of the venue, whatever fails. *)
Theorem submit_bounded_placements (config : ExecutorConfig) (intent : OrderIntent) (s : S) (w : W) (k : nat) :
  (placements (submitIntent config intent (s, (w, k))).2 <= k + Z.to_nat (maxRetries config + 1))%nat.
Proof. apply (places_submit EE config intent (s, (w, k))). Qed.

(** When the venue answers and the audit trail is written, a submission of
    a new, pending or failed order places it exactly once, and stores and
    returns a record with the venue's order id, filled size and status
    (rejected becomes failed), without an error. *)
Theorem submission_places_once (config : ExecutorConfig) (intent : OrderIntent) (s : S) (w : W) (k : nat)
    (answer : PlaceOrderParams -> PlaceOrderResult)
    (Hn : 0 <= maxRetries config) (Hc : can_submit (oi_intentId intent) s)
    (Hp : forall p w, exists w', env_placeOrder p w = (Ret (answer p), w'))
    (Ha : forall ev w, exists w', env_audit ev w = (Ret tt, w')) :
  exists r s' w' p, submitIntent config intent (s, (w, k)) = (Ret r, (s', (w', Datatypes.S k))) /\
    os_lookup (oi_intentId intent) s' = Some r /\
    pp_clientOrderId p = oi_intentId intent /\ pp_size p = oi_size intent /\ pp_side p = oi_side intent /\
    or_status r = submit_status (pr_status (answer p)) /\
    or_venueOrderId r = Some (pr_venueOrderId (answer p)) /\
    or_filledSize r = pr_filledSize (answer p) /\ or_lastError r = None.
Proof.
  destruct (submit_unfold EE config intent s w k Hc) as (record & s1 & t & w1 & Hr & Hres & ->).
  destruct (Z.to_nat (maxRetries config + 1)) as [|n] eqn:En; [lia|]. cbn [submit_loop].
  destruct (attempt_succeeds EE intent record (runtime_identity record) t 1 s1 w1 k record answer Hr Hres Hp Ha)
    as (r' & s' & w' & H & Hl & H1 & H2 & H3 & H4).
  exists r', s', w', (place_params intent (runtime_identity record)).
  split; [|by split_and!]. unfold mbind, eff_bind. by rewrite H.
Qed.

(** When every placement throws, [submitIntent] does not throw: it tries
    [maxRetries + 1] times and returns a failed record carrying the error and
    the number of attempts. *)
Theorem unreachable_venue_exhausts_retries (config : ExecutorConfig) (intent : OrderIntent) (s : S) (w : W)
    (k : nat) (e : JsError) (Hn : 0 <= maxRetries config) (Hc : can_submit (oi_intentId intent) s)
    (Hp : forall p w, exists w', env_placeOrder p w = (Throw e, w')) :
  exists r s' w', submitIntent config intent (s, (w, k)) =
      (Ret r, (s', (w', (k + Z.to_nat (maxRetries config + 1))%nat))) /\
    os_lookup (oi_intentId intent) s' = Some r /\ or_status r = failed /\
    or_lastError r = Some (err_message e) /\ or_attemptCount r = maxRetries config + 1.
Proof. apply submit_exhausted; [by left|done|done]. Qed.

(** C40. A failing audit trail makes the executor place an accepted order
    again: when the venue accepts every placement as submitted but the audit
    write throws, the same order is placed [maxRetries + 1] times and ends as
    failed. *)
Theorem audit_failure_places_again (config : ExecutorConfig) (intent : OrderIntent) (s : S) (w : W)
    (k : nat) (e : JsError) (answer : PlaceOrderParams -> PlaceOrderResult)
    (Hn : 0 <= maxRetries config) (Hc : can_submit (oi_intentId intent) s)
    (Hans : forall p, pr_status (answer p) = vo_submitted)
    (Hp : forall p w, exists w', env_placeOrder p w = (Ret (answer p), w'))
    (Ha : forall ev w, exists w', env_audit ev w = (Throw e, w')) :
  exists r s' w', submitIntent config intent (s, (w, k)) =
      (Ret r, (s', (w', (k + Z.to_nat (maxRetries config + 1))%nat))) /\
    os_lookup (oi_intentId intent) s' = Some r /\ or_status r = failed.
Proof.
  destruct (submit_exhausted EE e config intent s w k) as (r & s' & w' & H1 & H2 & H3 & _);
    [right; split; [by exists answer|done]|done|done|]. by exists r, s', w'.
Qed.

(** A new fill of a working order is appended once: the order becomes
    filled exactly when the sum of its fills reaches its size (up to the
    tolerance of the code), partially filled otherwise, no placement is
    requested, and reporting the same fill again changes nothing. *)
Theorem fill_counted_once (id : string) (f : OrderFill) (s : S) (w : W) (k : nat) (r : OrderRecord)
    (Hr : os_lookup id s = Some r) (Hst : or_status r = submitted \/ or_status r = partially_filled)
    (Hnew : has_fill f r = false) (Ha : forall ev w, exists w', env_audit ev w = (Ret tt, w')) :
  exists r' s' w', processFill id f (s, (w, k)) = (Ret r', (s', (w', k))) /\
    os_lookup id s' = Some r' /\ or_fills r' = or_fills r ++ [f] /\
    or_status r' = (if fills_complete (oi_size (or_intent r)) (or_fills r ++ [f]) then filled else partially_filled) /\
    processFill id f (s', (w', k)) = (Ret r', (s', (w', k))).
Proof.
  assert (Hread : forall (s : S) (w : W) (k : nat) (r : OrderRecord), os_lookup id s = Some r ->
    on_store (os_getByClientId id) (s, (w, k)) = (Ret (Some r), (s, (w, k)))).
  { intros s0 w0 k0 r0 H. unfold on_store. cbn. by rewrite os_get_spec, H. }
  set (st := if fills_complete (oi_size (or_intent r)) (or_fills r ++ [f]) then filled else partially_filled).
  assert (Hagain : forall (s2 : S) (w2 : W) r2, os_lookup id s2 = Some r2 -> or_status r2 = st ->
    or_fills r2 = or_fills r ++ [f] -> processFill id f (s2, (w2, k)) = (Ret r2, (s2, (w2, k)))).
  { intros s2 w2 r2 H2 Hs2 Hf2. unfold processFill. erewrite eff_bind_ret by by apply Hread.
    cbn beta iota. destruct (ignores_fills (or_status r2)); [reflexivity|].
    assert (has_fill f r2 = true) as ->; [|done]. unfold has_fill. rewrite Hf2, existsb_app. cbn.
    rewrite bool_decide_true by done. by rewrite orb_true_r. }
  unfold processFill at 1. erewrite eff_bind_ret by by apply Hread. cbn beta iota.
  assert (ignores_fills (or_status r) = false) as -> by by destruct Hst as [-> | ->].
  rewrite Hnew. cbn zeta. fold st.
  assert (exists c w1, (if fills_complete (oi_size (or_intent r)) (or_fills r ++ [f])
    then t ← now_; mret (Some (Some t)) else mret None) (s, (w, k)) = (Ret c, (s, (w1, k)))) as (c & w1 & H1).
  { destruct (fills_complete _ _); [|by eexists _, _].
    destruct (now_step EE s w k) as (t & w' & H). erewrite eff_bind_ret by exact H. by eexists _, _. }
  erewrite eff_bind_ret by exact H1.
  destruct (update_step id st (fills_update (or_fills r ++ [f]) c) s w1 k r Hr) as (s' & H2 & Hl).
  { unfold st. destruct Hst as [-> | ->]; by destruct (fills_complete _ _). }
  erewrite eff_bind_ret by exact H2.
  match goal with |- context [audit ?a ?b ?d] => destruct (audit_step EE a b d s' w1 k Ha) as [w2 H3] end.
  erewrite eff_bind_ret by exact H3.
  assert (Hr' : os_lookup id s' = Some (merge_record r st (fills_update (or_fills r ++ [f]) c)))
    by by rewrite Hl, decide_True.
  eexists _, s', w2. unfold get_or. erewrite eff_bind_ret by by apply Hread.
  split_and!; [done|done|done|done|]. by apply Hagain.
Qed.
End ExecutorProperties.

(** Over a store that keeps its contract, calls only let the store evolve. *)
Section Calls.
Context {S W : Type} `{OS : OrderStore S} `{OL : !OrderStoreLaws S} `{EE : ExecutionEnv W}.

Lemma run_xop_evolves op (sw : S * W) : keyed sw.1 -> evolves sw.1 (run_xop sw op).1.
Proof. intros Hk. destruct op; cbn; [by apply safe_submitIntent|by apply safe_poll|by apply safe_cancel|by apply safe_processFill]. Qed.

Lemma run_xops_evolve ops : forall sw : S * W, keyed sw.1 -> evolves sw.1 (foldl run_xop sw ops).1.
Proof.
  induction ops as [|op ops IH]; intros sw Hk; cbn; [by apply evolves_refl|].
  pose proof (run_xop_evolves op sw Hk) as H1. eapply evolves_trans; [exact H1|]. apply IH, H1.
Qed.
End Calls.

(** C3. Over the in-memory order store, whatever the venue, the audit writer and
    the clock do (errors included): after any sequence [calls] of [submitIntent],
    [pollOrderStatus], [cancelOrder] and [processFill] calls from the empty
    store, every record is kept under its intent id, and any further calls
    [more] keep it: its status moves along the order lifecycle only, an order
    that is filled, cancelled or expired keeps that status, and none becomes
    pending again.  (The runtime's own store does not keep the lifecycle:
    [RuntimeOrders.runtime_store_breaks_contract].) *)
Theorem executor_respects_lifecycle {W : Type} (EE : ExecutionEnv W) (calls more : list xop) (w : W) (id : string)
    (r : OrderRecord) :
  let before := foldl run_xop (empty_store, w) calls in
  let after := foldl run_xop before more in
  jm_get id (mem_store before.1) = Some r ->
  exists r', jm_get id (mem_store after.1) = Some r' /\ oi_intentId (or_intent r) = id /\ oi_intentId (or_intent r') = id /\
    rtc order_move (or_status r) (or_status r') /\
    (or_status r ∈ [filled; cancelled; expired] -> or_status r' = or_status r) /\
    (or_status r' = pending -> or_status r = pending).
Proof.
  cbn zeta. intros Hr. set (before := foldl run_xop (empty_store, w) calls) in *.
  assert (H0 : keyed (S := InMemoryOrderStore) empty_store) by done.
  destruct (run_xops_evolve calls (empty_store, w) H0) as [Hk _]. fold before in Hk.
  destruct (run_xops_evolve more before Hk) as [Hk' He]. destruct (He id r Hr) as (r' & Hr' & Hp).
  exists r'. split_and!; [done|by apply Hk|by apply Hk'|by apply status_path_moves| |].
  - intros Ht. apply terminal_path; [|done]. by apply bool_decide_eq_true.
  - intros Ep. rewrite Ep in Hp. by apply (order_lifecycle _ pending).
Qed.

(** ** Witnesses *)

(** An environment without state: every placement answers [place], every audit
    write [aud]. *)
Definition scripted_env (place : exn PlaceOrderResult) (aud : exn unit) : ExecutionEnv unit := {|
  env_venueId := "sim";
  env_placeOrder := fun _ w => (place, w);
  env_cancelOrder := fun id w => (Ret (MkCancelOrderResult id true None), w);
  env_getOrder := fun _ w => (Ret None, w);
  env_getPositions := fun w => (Ret [], w);
  env_audit := fun _ w => (aud, w);
  env_now := fun w => (0, w);
  env_createId := fun w => ("id", w);
  env_sleep := fun _ w => w;
|}.

Definition sample_result (st : VenueOrderStatus) : PlaceOrderResult :=
  MkPlaceOrderResult "v1" "i1" st "1" (Some "100") (Some "0.1") 0 None (Some simulated) None.
Definition sample_intent : OrderIntent :=
  MkOrderIntent "i1" "sim" "BTC" buy market "1" None "opp" false 0 [].
Definition sample_config : ExecutorConfig := MkExecutorConfig 2 10 1000.
Definition sample_record (st : OrderStatus) : OrderRecord :=
  MkOrderRecord sample_intent st (Some "v1") "0" None None [] None None None 1.
Definition sample_fill : OrderFill := MkOrderFill "f1" "i1" "1" "100" "0" "USD" 0.
Definition store_with (r : OrderRecord) : InMemoryOrderStore := (os_save r empty_store).2.

(** A filled order that a second submission, a poll and a cancellation do not
    move. *)
Lemma executor_respects_lifecycle_witness :
  let EE := scripted_env (Ret (sample_result vo_filled)) (Ret tt) in
  let before := foldl run_xop (empty_store, tt) [XSubmit sample_config sample_intent] in
  let after := foldl run_xop before [XSubmit sample_config sample_intent; XPoll "i1"; XCancel "i1"; XPoll "i2"] in
  (or_status <$> jm_get "i1" (mem_store before.1)) = Some filled /\
  exists r', jm_get "i1" (mem_store after.1) = Some r' /\ or_status r' = filled.
Proof.
  cbn zeta. split; [vm_compute; reflexivity|].
  destruct (jm_get "i1" (mem_store (foldl (run_xop (EE := scripted_env (Ret (sample_result vo_filled)) (Ret tt)))
    (empty_store, tt) [XSubmit sample_config sample_intent]).1)) as [r|] eqn:E; [|vm_compute in E; discriminate E].
  destruct (executor_respects_lifecycle (scripted_env (Ret (sample_result vo_filled)) (Ret tt)) [XSubmit sample_config sample_intent]
    [XSubmit sample_config sample_intent; XPoll "i1"; XCancel "i1"; XPoll "i2"] tt "i1" r E) as (r' & Hr & _ & _ & _ & Ht & _).
  assert (Es : or_status r = filled) by (vm_compute in E; injection E as <-; reflexivity).
  exists r'. split; [exact Hr|]. rewrite <- Es. apply Ht. rewrite Es. apply list_elem_of_here.
Defined.

Lemma submit_idempotent_witness :
  submitIntent (EE := scripted_env (Ret (sample_result vo_filled)) (Ret tt)) sample_config sample_intent
    (store_with (sample_record submitted), tt) = (Ret (sample_record submitted), (store_with (sample_record submitted), tt)).
Proof. apply submit_idempotent; [reflexivity|discriminate|discriminate]. Defined.

Lemma submission_places_once_witness :
  exists r s' w' p, submitIntent (EE := counting (scripted_env (Ret (sample_result vo_filled)) (Ret tt)))
      sample_config sample_intent (empty_store, (tt, O)) = (Ret r, (s', (w', 1%nat))) /\
    os_lookup "i1" s' = Some r /\ pp_clientOrderId p = "i1" /\ pp_size p = "1" /\ pp_side p = buy /\
    or_status r = filled /\ or_venueOrderId r = Some "v1" /\ or_filledSize r = "1" /\ or_lastError r = None.
Proof.
  apply (submission_places_once (scripted_env (Ret (sample_result vo_filled)) (Ret tt)) sample_config sample_intent
    empty_store tt O (fun _ => sample_result vo_filled)).
  - by cbn.
  - exact I.
  - intros p w. by exists w.
  - intros ev w. by exists w.
Defined.

Lemma unreachable_venue_exhausts_retries_witness :
  exists r s' w', submitIntent (EE := counting (scripted_env (Throw (Error_ "down")) (Ret tt)))
      sample_config sample_intent (empty_store, (tt, O)) = (Ret r, (s', (w', 3%nat))) /\
    os_lookup "i1" s' = Some r /\ or_status r = failed /\ or_lastError r = Some "down" /\ or_attemptCount r = 3.
Proof.
  apply (unreachable_venue_exhausts_retries (scripted_env (Throw (Error_ "down")) (Ret tt)) sample_config sample_intent
    empty_store tt O (Error_ "down")).
  - by cbn.
  - exact I.
  - intros p w. by exists w.
Defined.

Lemma audit_failure_places_again_witness :
  exists r s' w', submitIntent (EE := counting (scripted_env (Ret (sample_result vo_submitted)) (Throw (Error_ "db"))))
      sample_config sample_intent (empty_store, (tt, O)) = (Ret r, (s', (w', 3%nat))) /\
    os_lookup "i1" s' = Some r /\ or_status r = failed.
Proof.
  apply (audit_failure_places_again (scripted_env (Ret (sample_result vo_submitted)) (Throw (Error_ "db")))
    sample_config sample_intent empty_store tt O (Error_ "db") (fun _ => sample_result vo_submitted)).
  - by cbn.
  - exact I.
  - done.
  - intros p w. by exists w.
  - intros ev w. by exists w.
Defined.

Lemma fill_counted_once_witness :
  exists r' s' w', processFill (EE := counting (scripted_env (Throw (Error_ "down")) (Ret tt))) "i1" sample_fill
      (store_with (sample_record submitted), (tt, O)) = (Ret r', (s', (w', O))) /\
    os_lookup "i1" s' = Some r' /\ or_fills r' = [sample_fill] /\ or_status r' = filled /\
    processFill (EE := counting (scripted_env (Throw (Error_ "down")) (Ret tt))) "i1" sample_fill (s', (w', O))
      = (Ret r', (s', (w', O))).
Proof.
  assert (fills_complete (oi_size (or_intent (sample_record submitted)))
    (or_fills (sample_record submitted) ++ [sample_fill]) = true) as Hc by reflexivity.
  destruct (fill_counted_once (scripted_env (Throw (Error_ "down")) (Ret tt)) "i1" sample_fill
    (store_with (sample_record submitted)) tt O (sample_record submitted)) as (r' & s' & w' & H1 & H2 & H3 & H4 & H5).
  - reflexivity.
  - by left.
  - reflexivity.
  - intros ev w. by exists w.
  - rewrite Hc in H4. exists r', s', w'. split_and!; [exact H1|exact H2|exact H3|exact H4|exact H5].
Defined.
