(* ===== verification/Reconciler.v ===== *)
(** * The reconciler (packages/execution/src/reconciler.ts)

    [Reconciler] compares the order store and the local positions with what
    the venue reports, over the interfaces of [OrderStore.v] and [Executor.v].
    Both methods audit what they found and return it. *)
From S2P Require Import Prelude JsNumber JsValue DecimalLib DecimalExact Domain MarketIdentity OrderStore Executor.
Open Scope Z_scope.

Inductive DiscrepancyType := position_mismatch | balance_mismatch | missing_order | unknown_order.
Definition discrepancy_type_str (t : DiscrepancyType) : string :=
  match t with
  | position_mismatch => "position_mismatch" | balance_mismatch => "balance_mismatch"
  | missing_order => "missing_order" | unknown_order => "unknown_order"
  end.

Inductive Severity := sev_low | sev_medium | sev_high | sev_critical.
#[export] Instance Severity_eq_dec : EqDecision Severity.
Proof. solve_decision. Defined.
Definition Severity_str (s : Severity) : string :=
  match s with sev_low => "low" | sev_medium => "medium" | sev_high => "high" | sev_critical => "critical" end.

Record Discrepancy := MkDiscrepancy {
  ds_type : DiscrepancyType;
  ds_description : string;
  ds_localValue : string;
  ds_venueValue : string;
  ds_severity : Severity;
}.

Record ReconciliationResult := MkReconciliationResult {
  rr_timestamp : Z;
  rr_venueId : string;
  rr_discrepancies : list Discrepancy;
  rr_healthy : bool;
}.

Definition is_severe (d : Discrepancy) : bool :=
  bool_decide (ds_severity d = sev_high) || bool_decide (ds_severity d = sev_critical).

Definition is_healthy (ds : list Discrepancy) : bool := negb (existsb is_severe ds).

(** The results of a computation on every element, in order; the first throw
    ends the loop. *)
Fixpoint collect {S A B} (f : A -> eff S (list B)) (l : list A) : eff S (list B) :=
  match l with
  | [] => mret []
  | a :: l' => x ← f a; y ← collect f l'; mret (x ++ y)
  end.

Section Reconciler.
Context `{DL : DecimalLib} {S W : Type} `{OS : OrderStore S} `{EE : ExecutionEnv W}.

Definition POSITION_SIZE_TOLERANCE : exn dec := dec_of_string "0.000001".
Definition POSITION_RELATIVE_TOLERANCE : exn dec := dec_of_string "0.001".

Definition classifyPositionSeverity (localSize venueSize entryPrice : dec) : exn Severity :=
  let diff := d_abs (d_minus localSize venueSize) in
  tol ← POSITION_SIZE_TOLERANCE;
  if d_lte diff tol then Ret sev_low
  else
    let notionalDiff := d_times diff entryPrice in
    m ← dec_of_string "100";
    if d_lt notionalDiff m then Ret sev_medium
    else
      h ← dec_of_string "10000";
      if d_lt notionalDiff h then Ret sev_high else Ret sev_critical.

Definition discrepancy_record (d : Discrepancy) : jsval :=
  JObj [("type", JStr (discrepancy_type_str (ds_type d))); ("description", JStr (ds_description d));
        ("localValue", JStr (ds_localValue d)); ("venueValue", JStr (ds_venueValue d));
        ("severity", JStr (Severity_str (ds_severity d)))].

Definition _writeAuditEvent (venueId eventType : string) (ds : list Discrepancy) (timestamp : Z)
    : eff (S * W) unit :=
  id ← createId;
  on_world (env_audit (MkAuditEvent id eventType (toISOString timestamp) "reconciler"
    [("venueId", JStr venueId); ("discrepancyCount", JInt (Z.of_nat (length ds)));
     ("discrepancies", JArr (discrepancy_record <$> ds))])).

Definition finish (venueId eventType : string) (timestamp : Z) (ds : list Discrepancy)
    : eff (S * W) ReconciliationResult :=
  _ ← _writeAuditEvent venueId eventType ds timestamp;
  mret (MkReconciliationResult timestamp venueId ds (is_healthy ds)).

(** ** reconcileOrders *)

(** The records of one status that are open at the venue. *)
Definition open_at (venueId : string) (r : OrderRecord) : list (string * string) :=
  match or_venueOrderId r with
  | Some v => if bool_decide (oi_venueId (or_intent r) = venueId)
              then [(oi_intentId (or_intent r), v)] else []
  | None => []
  end.

Definition open_orders (venueId : string) : eff (S * W) (list (string * string)) :=
  entries ← collect (fun st => records ← on_store (os_listByStatus st);
                                mret (concat (open_at venueId <$> records)))
                    [pending; submitted; partially_filled];
  mret (jm_of_list entries).

Definition missing_at_venue (clientOrderId venueOrderId : string) : Discrepancy := {|
  ds_type := missing_order;
  ds_description := "Order " +:+ quoted venueOrderId +:+ " is open locally but not found at venue";
  ds_localValue := "open (clientOrderId=" +:+ clientOrderId +:+ ")";
  ds_venueValue := "not found"; ds_severity := sev_high |}.

Definition filled_at_venue (venueOrderId : string) : Discrepancy := {|
  ds_type := missing_order;
  ds_description := "Order " +:+ quoted venueOrderId +:+ " is open locally but already filled at venue";
  ds_localValue := "open"; ds_venueValue := "filled"; ds_severity := sev_medium |}.

Definition check_order (entry : string * string) : eff (S * W) (list Discrepancy) :=
  venueOrder ← on_world (env_getOrder entry.2);
  mret match venueOrder with
       | None => [missing_at_venue entry.1 entry.2]
       | Some v => match pr_status v with vo_filled => [filled_at_venue entry.2] | _ => [] end
       end.

Definition reconcileOrders (venueId : string) : eff (S * W) ReconciliationResult :=
  timestamp ← now_;
  localOpenOrders ← open_orders venueId;
  ds ← collect check_order localOpenOrders;
  finish venueId "reconcile.orders" timestamp ds.

(** ** reconcilePositions *)

Definition by_asset (l : list VenuePosition) : list (string * VenuePosition) :=
  jm_of_list ((fun p => (vp_asset p, p)) <$> l).

Definition missing_position (asset : string) (p : VenuePosition) : exn (list Discrepancy) :=
  localSizeD ← dec_of_string (vp_size p);
  if d_isZero localSizeD then Ret []
  else
    one ← dec_of_string "1";
    Ret [{| ds_type := position_mismatch;
            ds_description := "Local has " +:+ asset +:+ " " +:+ PositionSide_str (vp_side p) +:+ " position of "
                              +:+ vp_size p +:+ " but venue reports none";
            ds_localValue := PositionSide_str (vp_side p) +:+ " " +:+ vp_size p;
            ds_venueValue := "none";
            ds_severity := if d_gt localSizeD one then sev_critical else sev_high |}].

Definition compare_positions (asset : string) (local_ venue : VenuePosition) : exn (list Discrepancy) :=
  localSizeD ← dec_of_string (vp_size local_);
  venueSizeD ← dec_of_string (vp_size venue);
  entryPriceD ← dec_of_string (vp_entryPrice venue);
  if negb (bool_decide (vp_side local_ = vp_side venue)) then
    Ret [{| ds_type := position_mismatch;
            ds_description := asset +:+ " position side mismatch: local=" +:+ PositionSide_str (vp_side local_)
                              +:+ ", venue=" +:+ PositionSide_str (vp_side venue);
            ds_localValue := PositionSide_str (vp_side local_);
            ds_venueValue := PositionSide_str (vp_side venue);
            ds_severity := sev_critical |}]
  else
    let sizeDiff := d_abs (d_minus localSizeD venueSizeD) in
    let ref := d_max [localSizeD; venueSizeD] in
    zero ← dec_of_string "0";
    let relDiff := if d_isZero ref then zero else d_div sizeDiff ref in
    tol ← POSITION_SIZE_TOLERANCE;
    rel ← POSITION_RELATIVE_TOLERANCE;
    if d_gt sizeDiff tol && d_gt relDiff rel then
      severity ← classifyPositionSeverity localSizeD venueSizeD entryPriceD;
      Ret [{| ds_type := position_mismatch;
              ds_description := asset +:+ " position size mismatch: local=" +:+ vp_size local_
                                +:+ ", venue=" +:+ vp_size venue;
              ds_localValue := vp_size local_; ds_venueValue := vp_size venue; ds_severity := severity |}]
    else Ret [].

Definition check_local (venueByAsset : list (string * VenuePosition)) (entry : string * VenuePosition)
    : exn (list Discrepancy) :=
  match jm_get entry.1 venueByAsset with
  | None => missing_position entry.1 entry.2
  | Some venuePos => compare_positions entry.1 entry.2 venuePos
  end.

Definition check_venue (localByAsset : list (string * VenuePosition)) (entry : string * VenuePosition)
    : exn (list Discrepancy) :=
  if jm_has entry.1 localByAsset then Ret []
  else
    venueSizeD ← dec_of_string (vp_size entry.2);
    if d_isZero venueSizeD then Ret []
    else
      Ret [{| ds_type := unknown_order;
              ds_description := "Venue has " +:+ entry.1 +:+ " " +:+ PositionSide_str (vp_side entry.2)
                +:+ " position of " +:+ vp_size entry.2 +:+ " but no local record exists";
              ds_localValue := "none";
              ds_venueValue := PositionSide_str (vp_side entry.2) +:+ " " +:+ vp_size entry.2;
              ds_severity := sev_high |}].

Definition reconcilePositions (venueId : string) (localPositions : list VenuePosition)
    : eff (S * W) ReconciliationResult :=
  timestamp ← now_;
  venuePositions ← on_world env_getPositions;
  let localByAsset := by_asset localPositions in
  let venueByAsset := by_asset venuePositions in
  ds1 ← collect (fun e => lift_exn (check_local venueByAsset e)) localByAsset;
  ds2 ← collect (fun e => lift_exn (check_venue localByAsset e)) venueByAsset;
  finish venueId "reconcile.positions" timestamp (ds1 ++ ds2).
End Reconciler.

(** ** Lemmas *)

Section ReconcilerLemmas.
Context `{DL : DecimalLib} `{DW : !DecimalLaws}.
Context {S W : Type} `{OS : OrderStore S} `{OL : !OrderStoreLaws S} `{EE : ExecutionEnv W}.

(** A loop whose steps return without touching the store. *)
Lemma collect_total {A B} (f : A -> eff (S * W) (list B)) (g : A -> list B) (s : S) l : forall w : W,
  (forall a (w : W), a ∈ l -> exists w', f a (s, w) = (Ret (g a), (s, w'))) ->
  exists w', collect f l (s, w) = (Ret (concat (g <$> l)), (s, w')).
Proof.
  induction l as [|a l IH]; intros w Hf; cbn [collect]; [by exists w|].
  destruct (Hf a w) as [w1 H1]; [left|]. rewrite (eff_bind_ret _ _ _ _ _ H1).
  destruct (IH w1) as [w2 H2]; [intros; apply Hf; by right|]. rewrite (eff_bind_ret _ _ _ _ _ H2).
  by exists w2.
Qed.

Lemma now_total (s : S) (w : W) : exists t w', now_ (S := S) (s, w) = (Ret t, (s, w')).
Proof. unfold now_, pure_world. cbn. destruct (env_now w) as [t w']. eauto. Qed.

Lemma finish_total v ty t ds (s : S) (w : W) :
  (forall ev w, exists w', env_audit ev w = (Ret tt, w')) ->
  exists w', finish v ty t ds (s, w) = (Ret (MkReconciliationResult t v ds (is_healthy ds)), (s, w')).
Proof.
  intros Ha. unfold finish, _writeAuditEvent, createId, pure_world, mbind, eff_bind. cbn -[toISOString].
  destruct (env_createId w) as [id w1]. unfold on_world. cbn -[toISOString].
  match goal with |- context [env_audit ?ev ?w] => destruct (Ha ev w) as [w2 ->] end. by exists w2.
Qed.

Lemma healthy_concat {A} (g : A -> list Discrepancy) l :
  is_healthy (concat (g <$> l)) = true <-> forall a, a ∈ l -> is_healthy (g a) = true.
Proof.
  unfold is_healthy. induction l as [|a l IH]; cbn; [split; [intros _ a H; inversion H|done]|].
  rewrite existsb_app, negb_orb, andb_true_iff, IH. setoid_rewrite elem_of_cons.
  split; [intros [? ?] ? [->|?]; auto|auto].
Qed.

Lemma healthy_app ds1 ds2 : is_healthy (ds1 ++ ds2) = true <-> is_healthy ds1 = true /\ is_healthy ds2 = true.
Proof. unfold is_healthy. by rewrite existsb_app, negb_orb, andb_true_iff. Qed.

(** The statuses [reconcileOrders] treats as open. *)
Definition is_open_status (st : OrderStatus) : Prop := st ∈ [pending; submitted; partially_filled].

Lemma open_orders_spec v (s : S) (w : W) :
  keyed s ->
  exists l w', open_orders v (s, w) = (Ret l, (s, w')) /\
    forall id vo, (id, vo) ∈ l <->
      exists r, os_lookup id s = Some r /\ is_open_status (or_status r) /\
        oi_venueId (or_intent r) = v /\ or_venueOrderId r = Some vo.
Proof.
  intros Hk.
  assert (Hex : exists g : OrderStatus -> list OrderRecord, forall st, os_listByStatus st s = (Ret (g st), s) /\
    forall r, r ∈ g st <-> exists id, os_lookup id s = Some r /\ or_status r = st).
  { exists (fun st => match (os_listByStatus st s).1 with Ret l => l | Throw _ => [] end). intros st.
    destruct (os_list_spec st s) as (l & H & Hl). rewrite H. done. }
  destruct Hex as [g Hg].
  destruct (collect_total (fun st => records ← on_store (os_listByStatus st); mret (concat (open_at v <$> records)))
    (fun st => concat (open_at v <$> g st)) s [pending; submitted; partially_filled] w) as [w' Hc].
  { intros st w0 _. exists w0. erewrite eff_bind_ret; [done|].
    unfold on_store. cbn. by rewrite (proj1 (Hg st)). }
  eexists _, w'. split.
  { unfold open_orders. rewrite (eff_bind_ret _ _ _ _ _ Hc). done. }
  set (entries := concat _).
  assert (Hel : forall id vo, (id, vo) ∈ entries <->
    exists r, os_lookup id s = Some r /\ is_open_status (or_status r) /\
        oi_venueId (or_intent r) = v /\ or_venueOrderId r = Some vo).
  { intros id vo. unfold entries. rewrite list_elem_of_In, in_concat. split.
    - intros (x & (st & <- & Hst)%in_map_iff & Hin). apply in_concat in Hin as (y & (r & <- & Hr)%in_map_iff & Hin).
      apply list_elem_of_In in Hr, Hst. apply Hg in Hr as (id' & Hr & <-).
      unfold open_at in Hin. destruct (or_venueOrderId r) as [vo'|] eqn:Ev; [|done].
      case_bool_decide; [|done]. destruct Hin as [[= <- <-]|[]]. exists r.
      rewrite (Hk _ _ Hr). done.
    - intros (r & Hr & Hst & Hv & Hvo). exists (concat (open_at v <$> g (or_status r))). split.
      + apply in_map_iff. exists (or_status r). split; [done|]. by apply list_elem_of_In.
      + apply in_concat. exists (open_at v r). split.
        * apply in_map_iff. exists r. split; [done|]. apply list_elem_of_In, Hg. by exists id.
        * unfold open_at. rewrite Hvo, bool_decide_true by done. left. f_equal. by apply Hk. }
  intros id vo. rewrite jm_of_list_elem; [apply Hel|].
  intros k v1 v2 (r1 & H1 & _ & _ & E1)%Hel (r2 & H2 & _ & _ & E2)%Hel. congruence.
Qed.

(** ** Properties *)

(** When the venue answers, [reconcileOrders] returns, leaves the store
    as it was, and reports a healthy state exactly when every order that is
    open locally at that venue (with a venue order id) is known to the venue. *)
Theorem reconcileOrders_exact (v : string) (s : S) (w : W) (answer : string -> option PlaceOrderResult)
    (Hk : keyed s) (Hans : forall id w, exists w', env_getOrder id w = (Ret (answer id), w'))
    (Ha : forall ev w, exists w', env_audit ev w = (Ret tt, w')) :
  exists res w', reconcileOrders v (s, w) = (Ret res, (s, w')) /\
    (rr_healthy res = true <->
     forall id r vo, os_lookup id s = Some r -> is_open_status (or_status r) ->
       oi_venueId (or_intent r) = v -> or_venueOrderId r = Some vo -> answer vo <> None).
Proof.
  unfold reconcileOrders. destruct (now_total s w) as (t & w1 & H1). rewrite (eff_bind_ret _ _ _ _ _ H1).
  destruct (open_orders_spec v s w1 Hk) as (l & w2 & H2 & Hl). rewrite (eff_bind_ret _ _ _ _ _ H2).
  destruct (collect_total check_order (fun e => match answer e.2 with
    | None => [missing_at_venue e.1 e.2]
    | Some r => match pr_status r with vo_filled => [filled_at_venue e.2] | _ => [] end end) s l w2) as [w3 H3].
  { intros e w0 _. destruct (Hans e.2 w0) as [w' H]. exists w'. unfold check_order.
    erewrite eff_bind_ret; [done|]. unfold on_world. cbn. by rewrite H. }
  rewrite (eff_bind_ret _ _ _ _ _ H3). set (ds := concat _).
  destruct (finish_total v "reconcile.orders" t ds s w3 Ha) as [w4 H4].
  eexists _, w4. split; [exact H4|]. cbn [rr_healthy]. unfold ds. rewrite healthy_concat. split.
  - intros H id r vo Hr Hst Hv Hvo Hn. specialize (H (id, vo)). cbn in H. rewrite Hn in H.
    discriminate H. apply Hl. by exists r.
  - intros H [id vo] (r & Hr & Hst & Hv & Hvo)%Hl. cbn.
    specialize (H id r vo Hr Hst Hv Hvo). destruct (answer vo) as [a|]; [|done].
    by destruct (pr_status a).
Qed.

(** ** Positions *)

Definition parsed (s : string) (d : dec) : Prop := dec_of_string s = Ret d.

(** Sizes that do not differ by more than both tolerances, or differ by less
    than 100 USD of notional. *)
Definition sizes_agree (l v price : dec) : Prop :=
  forall tol rel m, parsed "0.000001" tol -> parsed "0.001" rel -> parsed "100" m ->
    d_gt (d_abs (d_minus l v)) tol = true ->
    (forall zero, parsed "0" zero ->
       d_gt (if d_isZero (d_max [l; v]) then zero else d_div (d_abs (d_minus l v)) (d_max [l; v])) rel = true) ->
    d_lt (d_times (d_abs (d_minus l v)) price) m = true.

(** What a healthy result promises of one asset. *)
Definition positions_agree (lo vo : option VenuePosition) : Prop :=
  match lo, vo with
  | None, None => True
  | Some p, None | None, Some p => forall d, parsed (vp_size p) d -> d_isZero d = true
  | Some l, Some v =>
      vp_side l = vp_side v /\
      forall dl dv dp, parsed (vp_size l) dl -> parsed (vp_size v) dv -> parsed (vp_entryPrice v) dp ->
        sizes_agree dl dv dp
  end.

Definition parseable (p : VenuePosition) : Prop :=
  (exists d, parsed (vp_size p) d) /\ exists d, parsed (vp_entryPrice p) d.

Lemma parsed_det s d d' : parsed s d -> parsed s d' -> d = d'.
Proof. unfold parsed. congruence. Qed.

Lemma literal s q : decimal_literal s = Some q -> exists d, parsed s d.
Proof. intros H. destruct (d_of_literal s q H) as (d & Hd & _). by exists d. Qed.

Lemma missing_position_spec a p :
  parseable p -> exists ds, missing_position a p = Ret ds /\
    (is_healthy ds = true <-> positions_agree (Some p) None).
Proof.
  intros [[d Hd] _]. unfold missing_position. rewrite Hd. cbn.
  destruct (literal "1" _ eq_refl) as [one Hone]. rewrite Hone. cbn.
  destruct (d_isZero d) eqn:Ez.
  - eexists. split; [done|]. split; [|done]. intros _ d' Hd'. by rewrite (parsed_det _ _ _ Hd' Hd).
  - eexists. split; [done|]. split.
    + by destruct (d_gt d one).
    + intros H. specialize (H d Hd). congruence.
Qed.

Lemma check_venue_spec localByAsset e :
  parseable e.2 -> exists ds, check_venue localByAsset e = Ret ds /\
    (is_healthy ds = true <-> (jm_get e.1 localByAsset = None -> positions_agree None (Some e.2))).
Proof.
  intros [[d Hd] _]. unfold check_venue, jm_has. destruct (jm_get e.1 localByAsset).
  { eexists. split; [done|]. split; done. }
  rewrite Hd. cbn. destruct (d_isZero d) eqn:Ez.
  - eexists. split; [done|]. split; [|done]. intros _ _ d' Hd'. by rewrite (parsed_det _ _ _ Hd' Hd).
  - eexists. split; [done|]. split; [done|]. intros H. specialize (H eq_refl d Hd). congruence.
Qed.

(** The severity of a difference above the absolute tolerance. *)
Lemma severity_spec l v p tol m :
  parsed "0.000001" tol -> parsed "100" m -> d_gt (d_abs (d_minus l v)) tol = true ->
  exists sev, classifyPositionSeverity l v p = Ret sev /\
    (sev = sev_medium <-> d_lt (d_times (d_abs (d_minus l v)) p) m = true) /\ sev <> sev_low.
Proof.
  intros Ht Hm Hgt. unfold classifyPositionSeverity, POSITION_SIZE_TOLERANCE. rewrite Ht. cbn.
  assert (d_lte (d_abs (d_minus l v)) tol = false) as ->.
  { rewrite d_gt_val in Hgt. rewrite d_lte_val. apply not_true_iff_false. intros H.
    by rewrite (dv_le_not_lt _ _ H) in Hgt. }
  rewrite Hm. cbn. destruct (d_lt _ m) eqn:E; [by eexists|].
  destruct (literal "10000" _ eq_refl) as [h Hh]. rewrite Hh. cbn.
  destruct (d_lt _ h); eexists; done.
Qed.

Lemma compare_positions_spec a l v :
  parseable l -> parseable v -> exists ds, compare_positions a l v = Ret ds /\
    (is_healthy ds = true <-> positions_agree (Some l) (Some v)).
Proof.
  intros [[dl Hl] _] [[dv Hv] [dp Hp]]. unfold compare_positions. rewrite Hl, Hv, Hp. cbn.
  case_bool_decide as Hs; cbn; [|eexists; split; [done|]; split; [done|by intros [? _]]].
  destruct (literal "0" _ eq_refl) as [zero Hz]. rewrite Hz. cbn.
  destruct (literal "0.000001" _ eq_refl) as [tol Ht]. unfold POSITION_SIZE_TOLERANCE. rewrite Ht. cbn.
  destruct (literal "0.001" _ eq_refl) as [rel Hr]. unfold POSITION_RELATIVE_TOLERANCE. rewrite Hr. cbn.
  destruct (literal "100" _ eq_refl) as [m Hm].
  set (rd := if d_isZero (d_max [dl; dv]) then zero else _).
  assert (Hagree : (vp_side l = vp_side v /\ (forall dl' dv' dp', parsed (vp_size l) dl' -> parsed (vp_size v) dv' ->
      parsed (vp_entryPrice v) dp' -> sizes_agree dl' dv' dp')) <->
    (d_gt (d_abs (d_minus dl dv)) tol = true -> d_gt rd rel = true ->
     d_lt (d_times (d_abs (d_minus dl dv)) dp) m = true)).
  { split.
    - intros [_ H] H1 H2. eapply (H dl dv dp); try done. intros z Hz'. by rewrite (parsed_det _ _ _ Hz' Hz).
    - intros H. split; [done|]. intros dl' dv' dp' E1 E2 E3 tol' rel' m' E4 E5 E6.
      rewrite (parsed_det _ _ _ E1 Hl), (parsed_det _ _ _ E2 Hv), (parsed_det _ _ _ E3 Hp),
        (parsed_det _ _ _ E4 Ht), (parsed_det _ _ _ E5 Hr), (parsed_det _ _ _ E6 Hm).
      intros H1 H2. apply H; [done|]. by apply H2. }
  destruct (d_gt (d_abs (d_minus dl dv)) tol) eqn:E1; cbn [andb];
    [destruct (d_gt rd rel) eqn:E2|]; cycle 1.
  { eexists. split; [done|]. split; [|done]. intros _. by apply Hagree. }
  { eexists. split; [done|]. split; [|done]. intros _. by apply Hagree. }
  destruct (severity_spec dl dv dp tol m Ht Hm E1) as (sev & -> & Hsev & Hlow). cbn.
  eexists. split; [done|]. cbn [positions_agree]. rewrite Hagree. split.
  - intros H _ _. apply Hsev. destruct sev; try done.
  - intros H. rewrite (proj2 Hsev) by auto. done.
Qed.
End ReconcilerLemmas.

Section PositionsTheorem.
Context `{DL : DecimalLib} `{DW : !DecimalLaws}.
Context {S W : Type} `{OS : OrderStore S} `{OL : !OrderStoreLaws S} `{EE : ExecutionEnv W}.

Lemma by_asset_elem ps a p : (a, p) ∈ by_asset ps -> p ∈ ps.
Proof.
  unfold by_asset. intros H. apply jm_get_spec in H; [|apply jm_of_list_NoDup]. revert H.
  induction ps as [|q ps IH] using rev_ind; [done|].
  rewrite fmap_app, list_fmap_singleton, jm_of_list_app, jm_get_set, elem_of_app, list_elem_of_singleton. cbn.
  case_decide; [intros [= ->]; by right|]. intros ?. left. auto.
Qed.

Lemma by_asset_get ps a p : jm_get a (by_asset ps) = Some p <-> (a, p) ∈ by_asset ps.
Proof. apply jm_get_spec, jm_of_list_NoDup. Qed.

(** A loop of pure checks. *)
Lemma collect_checks (f : string * VenuePosition -> exn (list Discrepancy)) (P : string * VenuePosition -> Prop)
    l (s : S) (w : W) :
  (forall e, e ∈ l -> exists ds, f e = Ret ds /\ (is_healthy ds = true <-> P e)) ->
  exists ds w', collect (fun e => lift_exn (f e)) l (s, w) = (Ret ds, (s, w')) /\
    (is_healthy ds = true <-> forall e, e ∈ l -> P e).
Proof.
  intros Hf. set (g := fun e => match f e with Ret ds => ds | Throw _ => [] end).
  destruct (collect_total (fun e => lift_exn (f e)) g s l w) as [w' H].
  { intros e w0 He. exists w0. unfold lift_exn, g. by destruct (Hf e He) as (ds & -> & _). }
  eexists _, w'. split; [exact H|]. rewrite healthy_concat.
  split; intros H' e He; destruct (Hf e He) as (ds & Hds & Hiff); specialize (H' e He).
  - apply Hiff. unfold g in H'. by rewrite Hds in H'.
  - unfold g. rewrite Hds. by apply Hiff.
Qed.

(** When the venue answers with positions [venue] and every size and
    price parses, [reconcilePositions] returns, leaves the store as it was,
    and reports a healthy state exactly when, asset by asset, the last local
    and the last venue position agree: one side alone has size zero; on both
    sides the direction is the same and the sizes differ by at most one of
    the tolerances, or by less than 100 USD of notional. *)
Theorem reconcilePositions_exact (v : string) (s : S) (w : W) (locals venue : list VenuePosition)
    (Hpos : forall w, exists w', env_getPositions w = (Ret venue, w'))
    (Ha : forall ev w, exists w', env_audit ev w = (Ret tt, w'))
    (Hl : Forall parseable locals) (Hv : Forall parseable venue) :
  exists res w', reconcilePositions v locals (s, w) = (Ret res, (s, w')) /\
    (rr_healthy res = true <->
     forall a, positions_agree (jm_get a (by_asset locals)) (jm_get a (by_asset venue))).
Proof.
  rewrite Forall_forall in Hl, Hv.
  unfold reconcilePositions. destruct (now_total s w) as (t & w1 & H1). rewrite (eff_bind_ret _ _ _ _ _ H1).
  destruct (Hpos w1) as [w2 H2]. erewrite eff_bind_ret by (unfold on_world; cbn; by rewrite H2). cbn zeta.
  destruct (collect_checks (check_local (by_asset venue))
    (fun e => positions_agree (Some e.2) (jm_get e.1 (by_asset venue))) (by_asset locals) s w2)
    as (ds1 & w3 & H3 & Hh1).
  { intros [a p] He. cbn. pose proof (Hl p (by_asset_elem _ _ _ He)) as Hp. unfold check_local. cbn.
    destruct (jm_get a (by_asset venue)) as [q|] eqn:Eq; [|by apply missing_position_spec].
    apply compare_positions_spec; [done|]. apply Hv. eapply by_asset_elem. by apply by_asset_get. }
  rewrite (eff_bind_ret _ _ _ _ _ H3).
  destruct (collect_checks (check_venue (by_asset locals))
    (fun e => jm_get e.1 (by_asset locals) = None -> positions_agree None (Some e.2)) (by_asset venue) s w3)
    as (ds2 & w4 & H4 & Hh2).
  { intros [a p] He. apply check_venue_spec. apply Hv. by eapply by_asset_elem. }
  rewrite (eff_bind_ret _ _ _ _ _ H4).
  destruct (finish_total v "reconcile.positions" t (ds1 ++ ds2) s w4 Ha) as [w5 H5].
  eexists _, w5. split; [exact H5|]. cbn [rr_healthy]. rewrite healthy_app, Hh1, Hh2. split.
  - intros [Hloc Hven] a. destruct (jm_get a (by_asset locals)) as [p|] eqn:Ep.
    + apply (Hloc (a, p)). by apply by_asset_get.
    + destruct (jm_get a (by_asset venue)) as [q|] eqn:Eq; [|done].
      by apply (Hven (a, q)); [apply by_asset_get|].
  - intros H. split; intros [a p] He%by_asset_get; cbn.
    + specialize (H a). by rewrite He in H.
    + intros Hn. specialize (H a). by rewrite He, Hn in H.
Qed.
End PositionsTheorem.

(** ** Witnesses *)

(** A venue that knows the orders and positions it is given. *)
Definition reporting_env (orders : string -> option PlaceOrderResult) (ps : list VenuePosition) : ExecutionEnv unit := {|
  env_venueId := "sim";
  env_placeOrder := fun _ w => (Throw (Error_ "closed"), w);
  env_cancelOrder := fun id w => (Ret (MkCancelOrderResult id false None), w);
  env_getOrder := fun id w => (Ret (orders id), w);
  env_getPositions := fun w => (Ret ps, w);
  env_audit := fun _ w => (Ret tt, w);
  env_now := fun w => (0, w);
  env_createId := fun w => ("id", w);
  env_sleep := fun _ w => w;
|}.

Lemma reconcileOrders_exact_witness :
  exists res w', reconcileOrders (EE := reporting_env (fun _ => None) []) "sim"
      (store_with (sample_record submitted), tt) = (Ret res, (store_with (sample_record submitted), w')) /\
    (rr_healthy res = true <->
     forall id r vo, os_lookup id (store_with (sample_record submitted)) = Some r -> is_open_status (or_status r) ->
       oi_venueId (or_intent r) = "sim" -> or_venueOrderId r = Some vo -> (fun _ => @None PlaceOrderResult) vo <> None).
Proof.
  apply (reconcileOrders_exact (EE := reporting_env (fun _ => None) []) "sim"
    (store_with (sample_record submitted)) tt (fun _ => None)).
  - intros id r. cbn. case_decide; [by intros [= <-]; subst|done].
  - intros id w. by exists w.
  - intros ev w. by exists w.
Defined.

Definition sample_position (sz : string) : VenuePosition :=
  MkVenuePosition "sim" "BTC" long sz "100" "100" "0" "10" None 0.

Lemma reconcilePositions_exact_witness :
  exists res w', reconcilePositions (DL := exact_decimal) (EE := reporting_env (fun _ => None) [sample_position "1.5"])
      "sim" [sample_position "1"] (empty_store, tt) = (Ret res, (empty_store, w')) /\
    (rr_healthy res = true <->
     forall a, positions_agree (DL := exact_decimal) (jm_get a (by_asset [sample_position "1"]))
       (jm_get a (by_asset [sample_position "1.5"]))).
Proof.
  apply (reconcilePositions_exact (EE := reporting_env (fun _ => None) [sample_position "1.5"])
    "sim" empty_store tt [sample_position "1"] [sample_position "1.5"]).
  - intros w. by exists w.
  - intros ev w. by exists w.
  - repeat constructor; (eexists; vm_compute; reflexivity).
  - repeat constructor; (eexists; vm_compute; reflexivity).
Defined.
