(* ===== verification/AllocatorPolicy.v ===== *)
(** * The sleeve allocator (packages/allocator: types.ts, registry.ts, policy.ts)

    [SentinelAllocatorPolicyEngine.evaluate] splits the portfolio between the
    carry and the treasury sleeve.  The engine keeps no state: [evaluate] is a
    function that throws when a sleeve is missing or an amount does not parse.
    Its steps on the carry target, the rationales and the constraints are one
    definition each, composed in the order of the source. *)
From S2P Require Import Prelude JsNumber JsValue DecimalLib DecimalExact Domain.
Open Scope Z_scope.

(** ** types.ts *)

Inductive AllocatorSleeveId := s_carry | s_treasury.
#[export] Instance AllocatorSleeveId_eq_dec : EqDecision AllocatorSleeveId.
Proof. solve_decision. Defined.
Definition sleeve_str (s : AllocatorSleeveId) : string :=
  match s with s_carry => "carry" | s_treasury => "treasury" end.

Inductive AllocatorSleeveStatus := st_active | st_throttled | st_degraded | st_blocked.
#[export] Instance AllocatorSleeveStatus_eq_dec : EqDecision AllocatorSleeveStatus.
Proof. solve_decision. Defined.
Definition sleeve_status_str (s : AllocatorSleeveStatus) : string :=
  match s with
  | st_active => "active" | st_throttled => "throttled" | st_degraded => "degraded" | st_blocked => "blocked"
  end.

Inductive AllocatorThrottleState := th_normal | th_throttled | th_de_risk | th_blocked.
#[export] Instance AllocatorThrottleState_eq_dec : EqDecision AllocatorThrottleState.
Proof. solve_decision. Defined.
Definition throttle_str (t : AllocatorThrottleState) : string :=
  match t with
  | th_normal => "normal" | th_throttled => "throttled" | th_de_risk => "de_risk" | th_blocked => "blocked"
  end.

Inductive AllocatorRegimeState := rg_normal | rg_cautious | rg_defensive | rg_recovery.
Inductive AllocatorPressureLevel := pl_normal | pl_elevated | pl_high.
#[export] Instance AllocatorPressureLevel_eq_dec : EqDecision AllocatorPressureLevel.
Proof. solve_decision. Defined.

Inductive AllocatorRecommendationType :=
| increase_budget | decrease_budget | hold_budget | de_risk | increase_reserve_buffer.
Inductive AllocatorPriority := pr_low | pr_medium | pr_high.
Inductive AllocatorRationaleSeverity := rs_info | rs_warning | rs_critical.

Inductive RuntimeLifecycleState := lc_ready | lc_paused | lc_degraded | lc_stopped | lc_starting.
#[export] Instance RuntimeLifecycleState_eq_dec : EqDecision RuntimeLifecycleState.
Proof. solve_decision. Defined.
Definition lifecycle_str (s : RuntimeLifecycleState) : string :=
  match s with
  | lc_ready => "ready" | lc_paused => "paused" | lc_degraded => "degraded"
  | lc_stopped => "stopped" | lc_starting => "starting"
  end.

Inductive ExecutionMode := dry_run | live.
#[export] Instance ExecutionMode_eq_dec : EqDecision ExecutionMode.
Proof. solve_decision. Defined.
Definition mode_text (m : ExecutionMode) : string := match m with dry_run => "dry-run" | live => "live" end.

Inductive Actionability := actionable | observe_only | act_blocked.

Record AllocatorPolicy := MkAllocatorPolicy {
  baselineCarryPct : num;
  baselineTreasuryPct : num;
  minimumTreasuryPct : num;
  maximumCarryPct : num;
  degradedCarryCapPct : num;
  elevatedMismatchCarryCapPct : num;
  reserveShortfallCarryCapPct : num;
  weakCarryCarryCapPct : num;
  carryOpportunityScoreFloor : num;
  carryOpportunityScoreStrong : num;
}.

Record AllocatorSleeveDefinition := MkSleeveDefinition {
  sd_sleeveId : AllocatorSleeveId;
  sd_kind : AllocatorSleeveId;
  sd_name : string;
  sd_reserveManaged : bool;
  sd_executionMode : ExecutionMode;
  sd_supportsAllocatorBudgeting : bool;
}.

Record AllocatorSleeveSnapshot := MkSleeveSnapshot {
  ss_sleeveId : AllocatorSleeveId;
  ss_kind : AllocatorSleeveId;
  ss_name : string;
  ss_currentAllocationUsd : string;
  ss_currentAllocationPct : num;
  ss_minAllocationPct : num;
  ss_maxAllocationPct : num;
  ss_capacityUsd : option string;
  ss_status : AllocatorSleeveStatus;
  ss_throttleState : AllocatorThrottleState;
  ss_healthy : bool;
  ss_actionability : Actionability;
  ss_opportunityScore : option num;
  ss_metadata : record_;
}.

(** Counts are integers. *)
Record AllocatorSystemState := MkSystemState {
  sy_totalCapitalUsd : string;
  sy_reserveConstrainedCapitalUsd : string;
  sy_allocatableCapitalUsd : string;
  sy_runtimeLifecycleState : RuntimeLifecycleState;
  sy_runtimeHalted : bool;
  sy_openMismatchCount : Z;
  sy_criticalMismatchCount : Z;
  sy_degradedReasonCount : Z;
  sy_treasuryReserveCoveragePct : num;
  sy_treasuryReserveShortfallUsd : string;
  sy_carryOpportunityCount : Z;
  sy_carryApprovedOpportunityCount : Z;
  sy_carryOpportunityScore : num;
  sy_recentReconciliationIssues : Z;
}.

Record AllocatorPolicyInput := MkPolicyInput {
  pi_policy : AllocatorPolicy;
  pi_sleeves : list AllocatorSleeveSnapshot;
  pi_system : AllocatorSystemState;
  pi_evaluatedAt : string;
  pi_sourceReference : option string;
}.

Record AllocatorRationale := MkRationale {
  ra_code : string;
  ra_severity : AllocatorRationaleSeverity;
  ra_summary : string;
  ra_details : record_;
}.

Record AllocatorBudgetConstraint := MkConstraint {
  bc_code : string;
  bc_summary : string;
  bc_binding : bool;
  bc_details : record_;
}.

Record AllocatorTargetAllocation := MkTarget {
  ta_sleeveId : AllocatorSleeveId;
  ta_sleeveName : string;
  ta_sleeveKind : AllocatorSleeveId;
  ta_currentAllocationUsd : string;
  ta_currentAllocationPct : num;
  ta_targetAllocationUsd : string;
  ta_targetAllocationPct : num;
  ta_minAllocationPct : num;
  ta_maxAllocationPct : num;
  ta_deltaUsd : string;
  ta_status : AllocatorSleeveStatus;
  ta_throttleState : AllocatorThrottleState;
  ta_opportunityScore : option num;
  ta_capacityUsd : option string;
  ta_rationale : list AllocatorRationale;
  ta_metadata : record_;
}.

Record AllocatorRecommendation := MkRecommendation {
  rc_recommendationType : AllocatorRecommendationType;
  rc_sleeveId : AllocatorSleeveId;
  rc_priority : AllocatorPriority;
  rc_summary : string;
  rc_details : record_;
  rc_rationale : list AllocatorRationale;
}.

Record AllocatorDecision := MkDecision {
  de_regimeState : AllocatorRegimeState;
  de_pressureLevel : AllocatorPressureLevel;
  de_totalCapitalUsd : string;
  de_reserveConstrainedCapitalUsd : string;
  de_allocatableCapitalUsd : string;
  de_targets : list AllocatorTargetAllocation;
  de_recommendations : list AllocatorRecommendation;
  de_rationale : list AllocatorRationale;
  de_constraints : list AllocatorBudgetConstraint;
}.

(** ** registry.ts *)

Definition DEFAULT_SLEEVES : list AllocatorSleeveDefinition :=
  [MkSleeveDefinition s_carry s_carry "Apex Carry" false dry_run true;
   MkSleeveDefinition s_treasury s_treasury "Atlas Treasury" true dry_run true].

Definition sleeve_list (sleeves : list AllocatorSleeveDefinition) : list AllocatorSleeveDefinition := sleeves.

Definition sleeve_get (sleeves : list AllocatorSleeveDefinition) (id : AllocatorSleeveId)
    : exn AllocatorSleeveDefinition :=
  match List.find (fun s => bool_decide (sd_sleeveId s = id)) sleeves with
  | Some s => Ret s
  | None => Throw (Error_ ("Unknown Sentinel sleeve " +:+ quoted (sleeve_str id) +:+ "."))
  end.

(** ** policy.ts *)

Definition DEFAULT_ALLOCATOR_POLICY : AllocatorPolicy := {|
  baselineCarryPct := num_of_Z 55; baselineTreasuryPct := num_of_Z 45;
  minimumTreasuryPct := num_of_Z 35; maximumCarryPct := num_of_Z 65;
  degradedCarryCapPct := num_of_Z 25; elevatedMismatchCarryCapPct := num_of_Z 35;
  reserveShortfallCarryCapPct := num_of_Z 15; weakCarryCarryCapPct := num_of_Z 20;
  carryOpportunityScoreFloor := num_of_dec 35 (-2); carryOpportunityScoreStrong := num_of_dec 7 (-1) |}.

Definition clampPct (v min max : num) : num := n_max min (n_min max v).

Definition buildRationale (code : string) (severity : AllocatorRationaleSeverity) (summary : string)
    (details : record_) : AllocatorRationale := MkRationale code severity summary details.

Definition buildConstraint (code summary : string) (binding : bool) (details : record_)
    : AllocatorBudgetConstraint := MkConstraint code summary binding details.

(** The local variables of [evaluate] that its steps update. *)
Record Budget := MkBudget {
  bu_carry : num;
  bu_rationales : list AllocatorRationale;
  bu_constraints : list AllocatorBudgetConstraint;
}.

Definition cap_carry (cap : num) (r : list AllocatorRationale) (c : list AllocatorBudgetConstraint) (b : Budget)
    : Budget :=
  MkBudget (n_min (bu_carry b) cap) (bu_rationales b ++ r) (bu_constraints b ++ c).

Section Evaluate.
Context `{DL : DecimalLib}.

Definition toUsd (totalCapitalUsd : dec) (pct : num) : string :=
  d_toFixedN 2 (d_div (d_times totalCapitalUsd (dec_of_num pct)) (dec_of_Z 100)).

(** [new Decimal(shortfall).greaterThan(0)]. *)
Definition has_shortfall (s : AllocatorSystemState) : exn bool :=
  d ← dec_of_string (sy_treasuryReserveShortfallUsd s); Ret (d_gt d (dec_of_Z 0)).

Definition halted_or_critical (s : AllocatorSystemState) : bool :=
  sy_runtimeHalted s || bool_decide (sy_runtimeLifecycleState s = lc_paused)
  || bool_decide (sy_runtimeLifecycleState s = lc_stopped) || (0 <? sy_criticalMismatchCount s).

Definition degraded_signals (s : AllocatorSystemState) : bool :=
  bool_decide (sy_runtimeLifecycleState s = lc_degraded) || (3 <=? sy_openMismatchCount s)
  || (0 <? sy_recentReconciliationIssues s) || (0 <? sy_degradedReasonCount s).

Definition pressureFromInput (input : AllocatorPolicyInput) : exn AllocatorPressureLevel :=
  let s := pi_system input in
  if halted_or_critical s then Ret pl_high
  else
    short ← has_shortfall s;
    if short : bool then Ret pl_high
    else if degraded_signals s then Ret pl_elevated
    else Ret pl_normal.

Definition regimeFromInput (input : AllocatorPolicyInput) (p : AllocatorPressureLevel) : AllocatorRegimeState :=
  match p with
  | pl_high => if sy_runtimeHalted (pi_system input) then rg_recovery else rg_defensive
  | _ =>
      if bool_decide (p = pl_elevated)
         || n_lt (sy_carryOpportunityScore (pi_system input)) (carryOpportunityScoreStrong (pi_policy input))
      then rg_cautious else rg_normal
  end.

Definition treasuryFloorPct (input : AllocatorPolicyInput) : num :=
  let min := minimumTreasuryPct (pi_policy input) in
  let cov := sy_treasuryReserveCoveragePct (pi_system input) in
  n_max min (if n_isFinite cov && n_lt cov (num_of_Z 100) then n_add min (num_of_Z 10) else min).

Definition floor_constraint (input : AllocatorPolicyInput) : AllocatorBudgetConstraint :=
  buildConstraint "treasury_minimum_floor"
    "Treasury receives a minimum portfolio budget so reserve obligations remain inspectable and funded."
    (n_lt (baselineTreasuryPct (pi_policy input)) (treasuryFloorPct input))
    [("treasuryFloorPct", JNum (treasuryFloorPct input))].

Definition shortfall_step (input : AllocatorPolicyInput) (b : Budget) : exn Budget :=
  let cap := reserveShortfallCarryCapPct (pi_policy input) in
  short ← has_shortfall (pi_system input);
  Ret (if short : bool then
         cap_carry cap
           [buildRationale "reserve_shortfall_defense" rs_critical
              "Treasury reserve is short, so carry is capped defensively until reserve coverage is restored."
              [("reserveShortfallUsd", JStr (sy_treasuryReserveShortfallUsd (pi_system input)));
               ("carryCapPct", JNum cap)]]
           [buildConstraint "reserve_shortfall_carry_cap" "Reserve shortfall constrains carry budget." true
              [("carryCapPct", JNum cap)]] b
       else b).

Definition pressure_step (input : AllocatorPolicyInput) (p : AllocatorPressureLevel) (b : Budget) : Budget :=
  let s := pi_system input in
  match p with
  | pl_high =>
      let cap := degradedCarryCapPct (pi_policy input) in
      cap_carry cap
        [buildRationale "system_pressure_high" rs_critical
           "System pressure is high, so allocator shifts portfolio budget toward Treasury."
           [("runtimeLifecycleState", JStr (lifecycle_str (sy_runtimeLifecycleState s)));
            ("criticalMismatchCount", JInt (sy_criticalMismatchCount s));
            ("runtimeHalted", JBool (sy_runtimeHalted s))]]
        [buildConstraint "high_pressure_carry_cap" "High operational pressure caps carry allocation." true
           [("carryCapPct", JNum cap)]] b
  | pl_elevated =>
      let cap := elevatedMismatchCarryCapPct (pi_policy input) in
      cap_carry cap
        [buildRationale "system_pressure_elevated" rs_warning
           "Operational pressure is elevated, so carry is downweighted relative to the baseline."
           [("openMismatchCount", JInt (sy_openMismatchCount s));
            ("recentReconciliationIssues", JInt (sy_recentReconciliationIssues s))]]
        [buildConstraint "elevated_pressure_carry_cap"
           "Elevated operational pressure limits carry budget expansion." true [("carryCapPct", JNum cap)]] b
  | pl_normal => b
  end.

Definition carry_unfit (carry : AllocatorSleeveSnapshot) : bool :=
  bool_decide (ss_status carry = st_degraded) || bool_decide (ss_status carry = st_blocked)
  || bool_decide (ss_throttleState carry = th_de_risk) || bool_decide (ss_throttleState carry = th_blocked)
  || negb (ss_healthy carry).

Definition health_step (input : AllocatorPolicyInput) (carry : AllocatorSleeveSnapshot) (b : Budget) : Budget :=
  if carry_unfit carry then
    cap_carry (weakCarryCarryCapPct (pi_policy input))
      [buildRationale "carry_throttled" rs_warning
         "Carry sleeve health is degraded or throttled, so its capital budget is reduced."
         [("status", JStr (sleeve_status_str (ss_status carry)));
          ("throttleState", JStr (throttle_str (ss_throttleState carry)));
          ("healthy", JBool (ss_healthy carry))]] [] b
  else b.

Definition opportunity_step (input : AllocatorPolicyInput) (p : AllocatorPressureLevel) (b : Budget) : Budget :=
  let pol := pi_policy input in
  let score := sy_carryOpportunityScore (pi_system input) in
  if n_lt score (carryOpportunityScoreFloor pol) then
    cap_carry (weakCarryCarryCapPct pol)
      [buildRationale "carry_opportunity_weak" rs_warning
         "Carry opportunity quality is weak, so idle and reserve capital is steered toward Treasury."
         [("carryOpportunityScore", JNum score);
          ("carryOpportunityScoreFloor", JNum (carryOpportunityScoreFloor pol))]] [] b
  else if n_ge score (carryOpportunityScoreStrong pol) && bool_decide (p = pl_normal) then
    MkBudget (n_min (maximumCarryPct pol) (n_add (bu_carry b) (num_of_Z 5)))
      (bu_rationales b ++
        [buildRationale "carry_opportunity_strong" rs_info
           "Carry opportunity quality is strong, so carry receives a moderate budget uplift within portfolio limits."
           [("carryOpportunityScore", JNum score);
            ("carryOpportunityScoreStrong", JNum (carryOpportunityScoreStrong pol))]])
      (bu_constraints b)
  else b.

(** The carry budget before it is clamped to the sleeve limits. *)
Definition carry_budget (input : AllocatorPolicyInput) (carry : AllocatorSleeveSnapshot) (p : AllocatorPressureLevel)
    : exn Budget :=
  b ← shortfall_step input (MkBudget (baselineCarryPct (pi_policy input)) [] [floor_constraint input]);
  Ret (opportunity_step input p (health_step input carry (pressure_step input p b))).

(** The two targets, in percent of the portfolio: carry, then treasury. *)
Definition clamp_targets (input : AllocatorPolicyInput) (carry treasury : AllocatorSleeveSnapshot) (budget : num)
    : num * num :=
  let carryMax := n_min (ss_maxAllocationPct carry) (maximumCarryPct (pi_policy input)) in
  let carry1 := clampPct budget (ss_minAllocationPct carry) carryMax in
  let treasury1 := clampPct (n_sub (num_of_Z 100) carry1)
    (n_max (ss_minAllocationPct treasury) (treasuryFloorPct input)) (ss_maxAllocationPct treasury) in
  (clampPct (n_sub (num_of_Z 100) treasury1) (ss_minAllocationPct carry) carryMax, treasury1).

Definition code_starts (prefixes : list string) (r : AllocatorRationale) : bool :=
  existsb (fun p => String.prefix p (ra_code r)) prefixes.

Definition build_target (id : AllocatorSleeveId) (s : AllocatorSleeveSnapshot) (targetUsd deltaUsd : string) (pct : num)
    (rationale : list AllocatorRationale) : AllocatorTargetAllocation := {|
  ta_sleeveId := id; ta_sleeveName := ss_name s; ta_sleeveKind := ss_kind s;
  ta_currentAllocationUsd := ss_currentAllocationUsd s; ta_currentAllocationPct := ss_currentAllocationPct s;
  ta_targetAllocationUsd := targetUsd; ta_targetAllocationPct := pct;
  ta_minAllocationPct := ss_minAllocationPct s; ta_maxAllocationPct := ss_maxAllocationPct s;
  ta_deltaUsd := deltaUsd; ta_status := ss_status s; ta_throttleState := ss_throttleState s;
  ta_opportunityScore := ss_opportunityScore s; ta_capacityUsd := ss_capacityUsd s;
  ta_rationale := rationale; ta_metadata := ss_metadata s |}.

(** [new Decimal(targetUsd).minus(current).toFixed(2)]. *)
Definition delta_usd (targetUsd current : string) : exn string :=
  t ← dec_of_string targetUsd; c ← dec_of_string current; Ret (d_toFixedN 2 (d_minus t c)).

Definition build_targets (input : AllocatorPolicyInput) (total : dec) (carry treasury : AllocatorSleeveSnapshot)
    (b : Budget) : exn (list AllocatorTargetAllocation) :=
  let '(carryPct, treasuryPct) := clamp_targets input carry treasury (bu_carry b) in
  let carryUsd := toUsd total carryPct in
  let treasuryUsd := toUsd total treasuryPct in
  carryDelta ← delta_usd carryUsd (ss_currentAllocationUsd carry);
  treasuryDelta ← delta_usd treasuryUsd (ss_currentAllocationUsd treasury);
  Ret [build_target s_carry carry carryUsd carryDelta carryPct
         (List.filter (code_starts ["carry_"; "system_"; "reserve_"]) (bu_rationales b));
       build_target s_treasury treasury treasuryUsd treasuryDelta treasuryPct
         (buildRationale "treasury_residual_allocator" rs_info
            "Treasury receives the residual portfolio budget after reserve and carry constraints are applied."
            [("treasuryFloorPct", JNum (treasuryFloorPct input))]
          :: List.filter (code_starts ["reserve_"; "system_"]) (bu_rationales b))].

Definition move_details (t : AllocatorTargetAllocation) : record_ :=
  [("currentAllocationUsd", JStr (ta_currentAllocationUsd t));
   ("targetAllocationUsd", JStr (ta_targetAllocationUsd t));
   ("deltaUsd", JStr (ta_deltaUsd t))].

Definition move_priority (p : AllocatorPressureLevel) : AllocatorPriority :=
  if bool_decide (p = pl_high) then pr_high else pr_medium.

(** One iteration of the recommendation loop. *)
Definition recommend (p : AllocatorPressureLevel) (t : AllocatorTargetAllocation) : exn AllocatorRecommendation :=
  delta ← dec_of_string (ta_deltaUsd t);
  let amount := d_toFixedN 2 (d_abs delta) in
  let pct := n_toFixed 2 (ta_targetAllocationPct t) in
  if d_lt (d_abs delta) (dec_of_Z 1) then
    Ret (MkRecommendation hold_budget (ta_sleeveId t) pr_low
           (ta_sleeveName t +:+ " remains within its current budget band.")
           [("targetAllocationPct", JNum (ta_targetAllocationPct t));
            ("currentAllocationPct", JNum (ta_currentAllocationPct t))] (ta_rationale t))
  else if bool_decide (ta_sleeveId t = s_carry) && d_lt delta (dec_of_Z 0) then
    Ret (MkRecommendation
           (if bool_decide (ta_throttleState t = th_de_risk) || negb (bool_decide (p = pl_normal))
            then de_risk else decrease_budget)
           (ta_sleeveId t) (move_priority p)
           ("Reduce carry budget by " +:+ amount +:+ " USD toward " +:+ pct +:+ "% of portfolio capital.")
           (move_details t) (ta_rationale t))
  else
    Ret (MkRecommendation
           (if bool_decide (ta_sleeveId t = s_treasury) && negb (bool_decide (p = pl_normal))
            then increase_reserve_buffer
            else if d_gt delta (dec_of_Z 0) then increase_budget else decrease_budget)
           (ta_sleeveId t) (move_priority p)
           ((if d_gt delta (dec_of_Z 0) then "Increase" else "Reduce") +:+ " " +:+ ta_sleeveName t
            +:+ " budget by " +:+ amount +:+ " USD toward " +:+ pct +:+ "% of portfolio capital.")
           (move_details t) (ta_rationale t)).

Definition baseline_rationale : AllocatorRationale :=
  buildRationale "baseline_policy_applied" rs_info
    "Allocator applied the baseline policy because reserve, risk, and carry-quality inputs were all within normal bands."
    [].

Definition find_sleeve (id : AllocatorSleeveId) (l : list AllocatorSleeveSnapshot) : option AllocatorSleeveSnapshot :=
  List.find (fun s => bool_decide (ss_sleeveId s = id)) l.

Definition evaluate (input : AllocatorPolicyInput) : exn AllocatorDecision :=
  match find_sleeve s_carry (pi_sleeves input), find_sleeve s_treasury (pi_sleeves input) with
  | Some carry, Some treasury =>
      total ← dec_of_string (sy_totalCapitalUsd (pi_system input));
      pressureLevel ← pressureFromInput input;
      let regimeState := regimeFromInput input pressureLevel in
      b ← carry_budget input carry pressureLevel;
      targets ← build_targets input total carry treasury b;
      recommendations ← map_exn (recommend pressureLevel) targets;
      let rationales := match bu_rationales b with [] => [baseline_rationale] | rs => rs end in
      reserve ← dec_of_string (sy_reserveConstrainedCapitalUsd (pi_system input));
      allocatable ← dec_of_string (sy_allocatableCapitalUsd (pi_system input));
      Ret {| de_regimeState := regimeState; de_pressureLevel := pressureLevel;
             de_totalCapitalUsd := d_toFixedN 2 total;
             de_reserveConstrainedCapitalUsd := d_toFixedN 2 reserve;
             de_allocatableCapitalUsd := d_toFixedN 2 allocatable;
             de_targets := targets; de_recommendations := recommendations;
             de_rationale := rationales; de_constraints := bu_constraints b |}
  | _, _ => Throw (Error_ "SentinelAllocatorPolicyEngine requires carry and treasury sleeves.")
  end.
End Evaluate.

(** ** Lemmas *)

Lemma clampPct_bounds v lo hi :
  n_isNaN v = false -> n_le lo hi = true ->
  n_isNaN (clampPct v lo hi) = false /\ n_le lo (clampPct v lo hi) = true /\ n_le (clampPct v lo hi) hi = true.
Proof.
  intros Hv Hle. pose proof (n_le_nan_l _ _ Hle) as Hl. pose proof (n_le_nan_r _ _ Hle) as Hh.
  unfold clampPct. split_and!; auto with num.
Qed.

Section Budget.
Context `{DL : DecimalLib}.

(** The percentages of a policy are numbers. *)
Definition policy_ok (p : AllocatorPolicy) : Prop :=
  n_isNaN (baselineCarryPct p) = false /\ n_isFinite (minimumTreasuryPct p) = true /\
  n_isNaN (maximumCarryPct p) = false /\ n_isNaN (degradedCarryCapPct p) = false /\
  n_isNaN (elevatedMismatchCarryCapPct p) = false /\ n_isNaN (reserveShortfallCarryCapPct p) = false /\
  n_isNaN (weakCarryCarryCapPct p) = false.

Lemma cap_carry_spec cap r c b :
  n_isNaN cap = false -> n_isNaN (bu_carry b) = false ->
  n_isNaN (bu_carry (cap_carry cap r c b)) = false /\
  n_le (bu_carry (cap_carry cap r c b)) cap = true /\
  n_le (bu_carry (cap_carry cap r c b)) (bu_carry b) = true.
Proof. intros Hc Hb. cbn. auto with num. Qed.

(** A step that can only lower the carry budget. *)
Definition lowers (f : Budget -> Budget) : Prop :=
  forall b, n_isNaN (bu_carry b) = false ->
    n_isNaN (bu_carry (f b)) = false /\ n_le (bu_carry (f b)) (bu_carry b) = true.

Lemma lowers_cap cap r c : n_isNaN cap = false -> lowers (cap_carry cap r c).
Proof. intros Hc b Hb. destruct (cap_carry_spec cap r c b Hc Hb) as (? & _ & ?). done. Qed.

Lemma lowers_id : lowers (fun b => b).
Proof. intros b Hb. auto with num. Qed.

Lemma pressure_lowers input p : policy_ok (pi_policy input) -> lowers (pressure_step input p).
Proof.
  intros (_ & _ & _ & Hd & He & _). destruct p; cbn; [apply lowers_id|by apply lowers_cap|by apply lowers_cap].
Qed.

Lemma health_lowers input carry : policy_ok (pi_policy input) -> lowers (health_step input carry).
Proof.
  intros (_ & _ & _ & _ & _ & _ & Hw). unfold health_step. destruct (carry_unfit carry); [by apply lowers_cap|apply lowers_id].
Qed.

(** The uplift of [opportunity_step] is given only without pressure. *)
Definition uplift (input : AllocatorPolicyInput) (p : AllocatorPressureLevel) : bool :=
  negb (n_lt (sy_carryOpportunityScore (pi_system input)) (carryOpportunityScoreFloor (pi_policy input)))
  && (n_ge (sy_carryOpportunityScore (pi_system input)) (carryOpportunityScoreStrong (pi_policy input))
      && bool_decide (p = pl_normal)).

Lemma opportunity_lowers input p :
  policy_ok (pi_policy input) -> uplift input p = false -> lowers (opportunity_step input p).
Proof.
  intros (_ & _ & _ & _ & _ & _ & Hw) Hu b Hb. unfold uplift in Hu. unfold opportunity_step.
  destruct (n_lt _ (carryOpportunityScoreFloor _)); cbn [negb andb] in Hu; [by apply lowers_cap|].
  rewrite Hu. by apply lowers_id.
Qed.

Lemma opportunity_numeric input p b :
  policy_ok (pi_policy input) -> n_isNaN (bu_carry b) = false ->
  n_isNaN (bu_carry (opportunity_step input p b)) = false.
Proof.
  intros Hp Hb. destruct (uplift input p) eqn:Hu; [|by apply opportunity_lowers].
  destruct Hp as (_ & _ & Hm & _). unfold uplift in Hu. unfold opportunity_step.
  destruct (n_lt _ (carryOpportunityScoreFloor _)); [done|]. cbn [negb andb] in Hu. rewrite Hu.
  cbn [bu_carry]. auto with num.
Qed.

Lemma shortfall_step_spec input b short :
  policy_ok (pi_policy input) -> n_isNaN (bu_carry b) = false -> has_shortfall (pi_system input) = Ret short ->
  exists b', shortfall_step input b = Ret b' /\ n_isNaN (bu_carry b') = false /\
    n_le (bu_carry b') (bu_carry b) = true /\
    (short = true -> n_le (bu_carry b') (reserveShortfallCarryCapPct (pi_policy input)) = true).
Proof.
  intros (_ & _ & _ & _ & _ & Hr & _) Hb Hs. unfold shortfall_step. rewrite Hs. cbn.
  destruct short; eexists; (split; [done|]); cbn; split_and!; try done; auto with num.
Qed.

Lemma lowers_le f b x : lowers f -> n_isNaN (bu_carry b) = false -> n_le (bu_carry b) x = true ->
  n_isNaN (bu_carry (f b)) = false /\ n_le (bu_carry (f b)) x = true.
Proof. intros Hf Hb Hx. destruct (Hf b Hb) as [H1 H2]. split; [done|]. by eapply n_le_trans. Qed.

Lemma pressure_caps input p b :
  policy_ok (pi_policy input) -> n_isNaN (bu_carry b) = false ->
  (p = pl_high -> n_le (bu_carry (pressure_step input p b)) (degradedCarryCapPct (pi_policy input)) = true) /\
  (p = pl_elevated -> n_le (bu_carry (pressure_step input p b)) (elevatedMismatchCarryCapPct (pi_policy input)) = true).
Proof.
  intros (_ & _ & _ & Hd & He & _) Hb. destruct p; (split; [|]); try done; intros _; by apply cap_carry_spec.
Qed.

Lemma high_has_no_uplift input p : p <> pl_normal -> uplift input p = false.
Proof. intros Hp. unfold uplift. rewrite (bool_decide_false (p = _)) by done. by rewrite !andb_false_r. Qed.

Lemma shortfall_means_high input short p :
  has_shortfall (pi_system input) = Ret short -> pressureFromInput input = Ret p -> short = true -> p = pl_high.
Proof.
  intros Hs Hp ->. unfold pressureFromInput in Hp. destruct (halted_or_critical _); [by injection Hp|].
  rewrite Hs in Hp. cbn in Hp. by injection Hp.
Qed.

(** ** Properties *)

(** Defensive caps: the carry budget the allocator computes never exceeds
    the reserve-shortfall cap while the treasury reserve is short, the degraded
    cap under high pressure, the mismatch cap under elevated pressure, the weak
    cap while opportunities are weak, and, unless the opportunity uplift
    applies, the weak cap for an unfit carry sleeve and the baseline in every
    case. *)
Theorem carry_budget_caps (input : AllocatorPolicyInput) (carry : AllocatorSleeveSnapshot)
    (p : AllocatorPressureLevel) (short : bool)
    (Hok : policy_ok (pi_policy input)) (Hs : has_shortfall (pi_system input) = Ret short)
    (Hp : pressureFromInput input = Ret p) :
  let pol := pi_policy input in
  exists b, carry_budget input carry p = Ret b /\
    (short = true -> n_le (bu_carry b) (reserveShortfallCarryCapPct pol) = true) /\
    (p = pl_high -> n_le (bu_carry b) (degradedCarryCapPct pol) = true) /\
    (p = pl_elevated -> n_le (bu_carry b) (elevatedMismatchCarryCapPct pol) = true) /\
    (n_lt (sy_carryOpportunityScore (pi_system input)) (carryOpportunityScoreFloor pol) = true ->
       n_le (bu_carry b) (weakCarryCarryCapPct pol) = true) /\
    (uplift input p = false ->
       n_le (bu_carry b) (baselineCarryPct pol) = true /\
       (carry_unfit carry = true -> n_le (bu_carry b) (weakCarryCarryCapPct pol) = true)).
Proof.
  cbn zeta. pose proof Hok as (Hb0 & _ & _ & Hd & He & Hr & Hw).
  destruct (shortfall_step_spec input (MkBudget (baselineCarryPct (pi_policy input)) [] [floor_constraint input]) short)
    as (b1 & H1 & N1 & L1 & S1); [done|done|done|].
  pose proof (pressure_lowers input p Hok) as Hpl. pose proof (health_lowers input carry Hok) as Hhl.
  destruct (Hpl b1 N1) as [N2 L2]. destruct (Hhl _ N2) as [N3 L3].
  destruct (pressure_caps input p b1 Hok N1) as [Hhigh Hel].
  unfold carry_budget. rewrite H1. cbn. eexists. split; [done|].
  assert (Hup : uplift input p = false -> lowers (opportunity_step input p)) by by apply opportunity_lowers.
  assert (Hchain : forall x, uplift input p = false ->
    n_le (bu_carry (health_step input carry (pressure_step input p b1))) x = true ->
    n_le (bu_carry (opportunity_step input p (health_step input carry (pressure_step input p b1)))) x = true).
  { intros x Hu Hx. by apply (lowers_le _ _ _ (Hup Hu) N3 Hx). }
  split_and!.
  - intros Hsh. pose proof (shortfall_means_high _ _ _ Hs Hp Hsh) as ->.
    apply Hchain; [by apply high_has_no_uplift|]. eapply n_le_trans; [exact L3|]. eapply n_le_trans; [exact L2|]. auto.
  - intros ->. apply Hchain; [by apply high_has_no_uplift|]. eapply n_le_trans; [exact L3|]. auto.
  - intros ->. apply Hchain; [by apply high_has_no_uplift|]. eapply n_le_trans; [exact L3|]. auto.
  - intros Hweak. unfold opportunity_step. rewrite Hweak. by apply cap_carry_spec.
  - intros Hu. split.
    + apply Hchain; [done|]. eapply n_le_trans; [exact L3|]. by eapply n_le_trans.
    + intros Hf. apply Hchain; [done|]. unfold health_step. rewrite Hf. by apply cap_carry_spec.
Qed.

Lemma build_targets_pct input total carry treasury b l :
  build_targets input total carry treasury b = Ret l ->
  exists tc tt, l = [tc; tt] /\
    (ta_targetAllocationPct tc, ta_targetAllocationPct tt) = clamp_targets input carry treasury (bu_carry b) /\
    ta_targetAllocationUsd tc = toUsd total (ta_targetAllocationPct tc) /\
    ta_targetAllocationUsd tt = toUsd total (ta_targetAllocationPct tt).
Proof.
  unfold build_targets. destruct (clamp_targets input carry treasury (bu_carry b)) as [c t].
  destruct (delta_usd _ (ss_currentAllocationUsd carry)) as [d1|]; [|done].
  destruct (delta_usd _ (ss_currentAllocationUsd treasury)) as [d2|]; [|done].
  cbn. intros [= <-]. eexists _, _. split; [done|]. done.
Qed.

Lemma carry_budget_numeric input carry p b :
  policy_ok (pi_policy input) -> carry_budget input carry p = Ret b -> n_isNaN (bu_carry b) = false.
Proof.
  intros Hok Eb. unfold carry_budget in Eb. exn_inv Eb as b1 E1. injection Eb as <-.
  assert (exists short, has_shortfall (pi_system input) = Ret short) as (short & Es)
    by (unfold shortfall_step in E1; exn_inv E1 as sh Esh; by exists sh).
  destruct (shortfall_step_spec input (MkBudget (baselineCarryPct (pi_policy input)) [] [floor_constraint input]) short)
    as (b1' & H1 & N1 & _); [done|apply Hok|done|].
  rewrite H1 in E1. injection E1 as <-.
  apply opportunity_numeric; [done|]. apply health_lowers; [done|]. by apply pressure_lowers.
Qed.

Lemma treasuryFloor_numeric input : policy_ok (pi_policy input) ->
  n_isNaN (treasuryFloorPct input) = false /\
  n_le (minimumTreasuryPct (pi_policy input)) (treasuryFloorPct input) = true.
Proof.
  intros (_ & Hmin & _). pose proof (n_finite_not_nan _ Hmin).
  unfold treasuryFloorPct. destruct (_ && _); split; auto with num.
Qed.

Lemma clamp_targets_bounds input carry treasury budget :
  let carryMax := n_min (ss_maxAllocationPct carry) (maximumCarryPct (pi_policy input)) in
  let floor := n_max (ss_minAllocationPct treasury) (treasuryFloorPct input) in
  let t := clamp_targets input carry treasury budget in
  n_isNaN budget = false -> n_le (ss_minAllocationPct carry) carryMax = true ->
  n_le floor (ss_maxAllocationPct treasury) = true ->
  n_le (ss_minAllocationPct carry) t.1 = true /\ n_le t.1 carryMax = true /\
  n_le floor t.2 = true /\ n_le t.2 (ss_maxAllocationPct treasury) = true.
Proof.
  intros carryMax floor t Hb Hc Ht. subst t. unfold clamp_targets. cbn [fst snd]. fold carryMax floor.
  destruct (clampPct_bounds budget _ _ Hb Hc) as (N1 & _ & _).
  destruct (clampPct_bounds (n_sub (num_of_Z 100) (clampPct budget (ss_minAllocationPct carry) carryMax)) _ _
    (n_sub_not_nan (num_of_Z 100) _ eq_refl N1) Ht) as (N2 & L1 & L2).
  set (t1 := clampPct (n_sub (num_of_Z 100) _) floor _) in *.
  destruct (clampPct_bounds (n_sub (num_of_Z 100) t1) _ _ (n_sub_not_nan (num_of_Z 100) _ eq_refl N2) Hc)
    as (_ & L3 & L4). done.
Qed.

(** C35. Every decision stays within the portfolio limits: the carry target lies
    between its minimum and the smaller of its maximum and the policy's carry
    maximum, the treasury target between its floor (at least the policy's
    treasury minimum, ten points more while the reserve is not fully covered)
    and its maximum; and the amounts are those percentages of the capital. *)
Theorem allocation_within_limits (input : AllocatorPolicyInput) (carry treasury : AllocatorSleeveSnapshot)
    (d : AllocatorDecision)
    (Hc : find_sleeve s_carry (pi_sleeves input) = Some carry)
    (Ht : find_sleeve s_treasury (pi_sleeves input) = Some treasury)
    (Hok : policy_ok (pi_policy input))
    (Hcr : n_le (ss_minAllocationPct carry)
             (n_min (ss_maxAllocationPct carry) (maximumCarryPct (pi_policy input))) = true)
    (Htr : n_le (n_max (ss_minAllocationPct treasury) (treasuryFloorPct input)) (ss_maxAllocationPct treasury) = true)
    (Hcm : n_isNaN (ss_maxAllocationPct carry) = false) (Htm : n_isNaN (ss_minAllocationPct treasury) = false)
    (Hd : evaluate input = Ret d) :
  exists tc tt total, de_targets d = [tc; tt] /\ dec_of_string (sy_totalCapitalUsd (pi_system input)) = Ret total /\
    n_le (ss_minAllocationPct carry) (ta_targetAllocationPct tc) = true /\
    n_le (ta_targetAllocationPct tc) (ss_maxAllocationPct carry) = true /\
    n_le (ta_targetAllocationPct tc) (maximumCarryPct (pi_policy input)) = true /\
    n_le (treasuryFloorPct input) (ta_targetAllocationPct tt) = true /\
    n_le (minimumTreasuryPct (pi_policy input)) (ta_targetAllocationPct tt) = true /\
    n_le (ta_targetAllocationPct tt) (ss_maxAllocationPct treasury) = true /\
    ta_targetAllocationUsd tc = toUsd total (ta_targetAllocationPct tc) /\
    ta_targetAllocationUsd tt = toUsd total (ta_targetAllocationPct tt).
Proof.
  unfold evaluate in Hd. rewrite Hc, Ht in Hd.
  exn_inv Hd as total Etot. exn_inv Hd as p Ep. exn_inv Hd as b Eb. exn_inv Hd as l El.
  exn_inv Hd as rs Ers. exn_inv Hd as r Er. exn_inv Hd as a Ea. injection Hd as <-.
  destruct (build_targets_pct _ _ _ _ _ _ El) as (tc & tt & -> & Hpct & Hu1 & Hu2).
  exists tc, tt, total. split; [done|]. split; [done|].
  pose proof (carry_budget_numeric _ _ _ _ Hok Eb) as Hb. destruct (treasuryFloor_numeric _ Hok) as [Nfl Lfl].
  destruct (clamp_targets_bounds input carry treasury (bu_carry b) Hb Hcr Htr) as (Lc1 & Lc2 & Lt1 & Lt2).
  rewrite <- Hpct in Lc1, Lc2, Lt1, Lt2. cbn [fst snd] in Lc1, Lc2, Lt1, Lt2. destruct Hok as (_ & _ & Hmax & _).
  assert (Hf2 : n_le (treasuryFloorPct input) (ta_targetAllocationPct tt) = true).
  { eapply n_le_trans; [|exact Lt1]. auto with num. }
  split_and!; try done.
  - eapply n_le_trans; [exact Lc2|]. auto with num.
  - eapply n_le_trans; [exact Lc2|]. auto with num.
  - by eapply n_le_trans.
Qed.
End Budget.

(** ** Concrete inputs *)

Definition sample_sleeve (id : AllocatorSleeveId) (name usd : string) (pct lo hi : Z) (st : AllocatorSleeveStatus)
    : AllocatorSleeveSnapshot :=
  MkSleeveSnapshot id id name usd (num_of_Z pct) (num_of_Z lo) (num_of_Z hi) None st th_normal true actionable None [].
Definition sample_carry : AllocatorSleeveSnapshot := sample_sleeve s_carry "Apex Carry" "70000" 70 0 80 st_active.
Definition sample_treasury : AllocatorSleeveSnapshot :=
  sample_sleeve s_treasury "Atlas Treasury" "30000" 30 20 100 st_active.
Definition sample_system (shortfall : string) (score : num) : AllocatorSystemState := {|
  sy_totalCapitalUsd := "100000"; sy_reserveConstrainedCapitalUsd := "10000"; sy_allocatableCapitalUsd := "90000";
  sy_runtimeLifecycleState := lc_ready; sy_runtimeHalted := false; sy_openMismatchCount := 0;
  sy_criticalMismatchCount := 0; sy_degradedReasonCount := 0; sy_treasuryReserveCoveragePct := num_of_Z 80;
  sy_treasuryReserveShortfallUsd := shortfall; sy_carryOpportunityCount := 2;
  sy_carryApprovedOpportunityCount := 1; sy_carryOpportunityScore := score; sy_recentReconciliationIssues := 0 |}.
Definition sample_input (shortfall : string) (score : num) : AllocatorPolicyInput := {|
  pi_policy := DEFAULT_ALLOCATOR_POLICY; pi_sleeves := [sample_carry; sample_treasury];
  pi_system := sample_system shortfall score; pi_evaluatedAt := "2024-01-01T00:00:00.000Z";
  pi_sourceReference := None |}.

Definition pcts (m : exn AllocatorDecision) : option (list (string * num)) :=
  match m with
  | Ret d => Some (map (fun t => (ta_targetAllocationUsd t, ta_targetAllocationPct t)) (de_targets d))
  | Throw _ => None
  end.

(** A short reserve brings the carry target from 70% to its cap of 15%. *)
Example shortfall_decision :
  pcts (evaluate (sample_input "2500" (num_of_dec 5 (-1)))) =
  Some [("15000.00", num_of_Z 15); ("85000.00", num_of_Z 85)].
Proof. vm_compute. reflexivity. Qed.

(** Strong opportunities lift the baseline by five points; the treasury floor
    is 45% while the reserve is not fully covered. *)
Example strong_decision :
  pcts (evaluate (sample_input "0" (num_of_dec 9 (-1)))) =
  Some [("55000.00", num_of_Z 55); ("45000.00", num_of_Z 45)].
Proof. vm_compute. reflexivity. Qed.

(** A throttled carry sleeve of weak cap 20% is lifted above it by strong
    opportunities. *)
Example uplift_exceeds_weak_cap :
  let degraded := sample_sleeve s_carry "Apex Carry" "70000" 70 0 80 st_degraded in
  match carry_budget (sample_input "0" (num_of_dec 9 (-1))) degraded pl_normal with
  | Ret b => bu_carry b
  | Throw _ => num_of_Z 0
  end = num_of_Z 25.
Proof. vm_compute. reflexivity. Qed.

Lemma default_policy_ok : policy_ok DEFAULT_ALLOCATOR_POLICY.
Proof. by vm_compute. Defined.

Lemma carry_budget_caps_witness :
  let input := sample_input "2500" (num_of_dec 5 (-1)) in
  exists b, carry_budget input sample_carry pl_high = Ret b /\
    (true = true -> n_le (bu_carry b) (num_of_Z 15) = true) /\
    (pl_high = pl_high -> n_le (bu_carry b) (num_of_Z 25) = true) /\
    (pl_high = pl_elevated -> n_le (bu_carry b) (num_of_Z 35) = true) /\
    (n_lt (num_of_dec 5 (-1)) (num_of_dec 35 (-2)) = true -> n_le (bu_carry b) (num_of_Z 20) = true) /\
    (uplift input pl_high = false ->
       n_le (bu_carry b) (num_of_Z 55) = true /\
       (carry_unfit sample_carry = true -> n_le (bu_carry b) (num_of_Z 20) = true)).
Proof.
  apply (carry_budget_caps (sample_input "2500" (num_of_dec 5 (-1))) sample_carry pl_high true);
    [apply default_policy_ok|vm_compute; reflexivity..].
Defined.

Definition sample_decision : AllocatorDecision :=
  match evaluate (sample_input "2500" (num_of_dec 5 (-1))) with
  | Ret d => d
  | Throw _ => MkDecision rg_normal pl_normal "" "" "" [] [] [] []
  end.

Lemma allocation_within_limits_witness :
  exists tc tt total, de_targets sample_decision = [tc; tt] /\ dec_of_string "100000" = Ret total /\
    n_le (num_of_Z 0) (ta_targetAllocationPct tc) = true /\
    n_le (ta_targetAllocationPct tc) (num_of_Z 80) = true /\
    n_le (ta_targetAllocationPct tc) (num_of_Z 65) = true /\
    n_le (num_of_Z 45) (ta_targetAllocationPct tt) = true /\
    n_le (num_of_Z 35) (ta_targetAllocationPct tt) = true /\
    n_le (ta_targetAllocationPct tt) (num_of_Z 100) = true /\
    ta_targetAllocationUsd tc = toUsd total (ta_targetAllocationPct tc) /\
    ta_targetAllocationUsd tt = toUsd total (ta_targetAllocationPct tt).
Proof.
  apply (allocation_within_limits (sample_input "2500" (num_of_dec 5 (-1))) sample_carry sample_treasury sample_decision);
    try apply default_policy_ok; vm_compute; reflexivity.
Defined.
