(* ===== verification/Rebalance.v ===== *)
(** * Rebalance proposals between the sleeves (packages/allocator/src/rebalance.ts)

    [SentinelRebalancePlanner.createProposal] turns an allocator decision into
    a proposal with one intent per sleeve, or into nothing when neither sleeve
    has to move.  Every guard of the source is one definition that returns its
    blocked reason; [blocked_reasons] runs them in the source's order. *)
From Stdlib Require Import Qabs.
From S2P Require Import Prelude JsNumber JsValue DecimalLib DecimalExact AllocatorPolicy.
Open Scope Z_scope.

(** ** Data *)

Inductive RebalanceProposalStatus :=
| rp_proposed | rp_approved | rp_queued | rp_executing | rp_completed | rp_failed | rp_rejected | rp_cancelled.
Inductive RebalanceApprovalRequirement := ap_operator | ap_admin.
Inductive RebalanceReadiness := rd_actionable | rd_blocked | rd_unsupported.
Inductive RebalanceActionType :=
| increase_treasury_allocation | reduce_treasury_allocation | increase_carry_budget | reduce_carry_budget
| rebalance_between_sleeves.

Inductive RebalanceBlockedReasonCode :=
| below_minimum_action_size | runtime_not_ready | critical_mismatch_pressure | carry_throttle_active
| carry_budget_execution_pending | treasury_reserve_shortfall | insufficient_treasury_idle_capital
| live_execution_disabled.
#[export] Instance RebalanceBlockedReasonCode_eq_dec : EqDecision RebalanceBlockedReasonCode.
Proof. solve_decision. Defined.

Record RebalanceBlockedReason := MkBlockedReason {
  br_code : RebalanceBlockedReasonCode;
  br_message : string;
  br_operatorAction : string;
  br_details : record_;
}.

Record RebalancePlannerPolicy := MkPlannerPolicy { minimumActionableUsd : string }.

Record RebalancePlannerSystemInput := MkPlannerSystem {
  ps_runtimeLifecycleState : RuntimeLifecycleState;
  ps_runtimeHalted : bool;
  ps_criticalMismatchCount : Z;
  ps_executionMode : ExecutionMode;
  ps_liveExecutionEnabled : bool;
}.

Record RebalancePlannerTreasuryInput := MkPlannerTreasury {
  pt_idleCapitalUsd : string;
  pt_reserveShortfallUsd : string;
}.

Record RebalanceProposalIntent := MkProposalIntent {
  in_sleeveId : AllocatorSleeveId;
  in_sourceSleeveId : option AllocatorSleeveId;
  in_targetSleeveId : option AllocatorSleeveId;
  in_actionType : RebalanceActionType;
  in_status : RebalanceProposalStatus;
  in_readiness : RebalanceReadiness;
  in_executable : bool;
  in_currentAllocationUsd : string;
  in_currentAllocationPct : num;
  in_targetAllocationUsd : string;
  in_targetAllocationPct : num;
  in_deltaUsd : string;
  in_rationale : list AllocatorRationale;
  in_blockedReasons : list RebalanceBlockedReason;
  in_details : record_;
}.

Record RebalanceProposal := MkProposal {
  po_allocatorRunId : string;
  po_actionType : RebalanceActionType;
  po_status : RebalanceProposalStatus;
  po_summary : string;
  po_executionMode : ExecutionMode;
  po_simulated : bool;
  po_executable : bool;
  po_approvalRequirement : RebalanceApprovalRequirement;
  po_rationale : list AllocatorRationale;
  po_blockedReasons : list RebalanceBlockedReason;
  po_intents : list RebalanceProposalIntent;
  po_details : record_;
}.

(** [policy] is [Partial]: the minimum may be given or not. *)
Record RebalancePlannerInput := MkPlannerInput {
  ri_allocatorRunId : string;
  ri_decision : AllocatorDecision;
  ri_system : RebalancePlannerSystemInput;
  ri_treasury : RebalancePlannerTreasuryInput;
  ri_minimumActionableUsd : option string;
}.

Definition DEFAULT_REBALANCE_POLICY : RebalancePlannerPolicy := MkPlannerPolicy "2500".

(** ** Operations *)

Definition buildBlockedReason (code : RebalanceBlockedReasonCode) (message operatorAction : string)
    (details : record_) : RebalanceBlockedReason := MkBlockedReason code message operatorAction details.

Definition findTarget (decision : AllocatorDecision) (sleeveId : AllocatorSleeveId) : exn AllocatorTargetAllocation :=
  match List.find (fun t => bool_decide (ta_sleeveId t = sleeveId)) (de_targets decision) with
  | Some t => Ret t
  | None => Throw (Error_ ("Missing allocator target for sleeve " +:+ quoted (sleeve_str sleeveId) +:+ "."))
  end.

Definition createIntent (t : AllocatorTargetAllocation) (actionType : RebalanceActionType)
    (source target : option AllocatorSleeveId) (blockedReasons : list RebalanceBlockedReason)
    : RebalanceProposalIntent := {|
  in_sleeveId := ta_sleeveId t; in_sourceSleeveId := source; in_targetSleeveId := target;
  in_actionType := actionType; in_status := rp_proposed;
  in_readiness := if is_empty blockedReasons then rd_actionable else rd_blocked;
  in_executable := is_empty blockedReasons;
  in_currentAllocationUsd := ta_currentAllocationUsd t; in_currentAllocationPct := ta_currentAllocationPct t;
  in_targetAllocationUsd := ta_targetAllocationUsd t; in_targetAllocationPct := ta_targetAllocationPct t;
  in_deltaUsd := ta_deltaUsd t; in_rationale := ta_rationale t; in_blockedReasons := blockedReasons;
  in_details := ta_metadata t |}.

Definition lifecycle_not_ready (s : RebalancePlannerSystemInput) : bool :=
  ps_runtimeHalted s || bool_decide (ps_runtimeLifecycleState s = lc_paused)
  || bool_decide (ps_runtimeLifecycleState s = lc_stopped) || bool_decide (ps_runtimeLifecycleState s = lc_starting).

Definition live_disabled (s : RebalancePlannerSystemInput) : bool :=
  bool_decide (ps_executionMode s = live) && negb (ps_liveExecutionEnabled s).

Definition carry_throttled (carry : AllocatorTargetAllocation) : bool :=
  bool_decide (ta_status carry = st_degraded) || bool_decide (ta_status carry = st_blocked)
  || bool_decide (ta_throttleState carry = th_de_risk) || bool_decide (ta_throttleState carry = th_blocked).

Section Planner.
Context `{DL : DecimalLib}.

Definition rebalance_policy (input : RebalancePlannerInput) : RebalancePlannerPolicy :=
  MkPlannerPolicy (or_else (ri_minimumActionableUsd input) (minimumActionableUsd DEFAULT_REBALANCE_POLICY)).

Definition size_reason (amount : dec) (policy : RebalancePlannerPolicy) : exn (list RebalanceBlockedReason) :=
  min ← dec_of_string (minimumActionableUsd policy);
  Ret (push_if (d_lt amount min)
    (buildBlockedReason below_minimum_action_size
       ("Allocator delta " +:+ d_toFixedN 2 amount +:+ " USD is below the minimum actionable rebalance size.")
       "Wait for a larger allocator delta before approving a rebalance proposal."
       [("rebalanceAmountUsd", JStr (d_toFixedN 2 amount));
        ("minimumActionableUsd", JStr (minimumActionableUsd policy))])).

Definition runtime_reasons (s : RebalancePlannerSystemInput) : list RebalanceBlockedReason :=
  push_if (lifecycle_not_ready s)
    (buildBlockedReason runtime_not_ready
       "Runtime is not in a state that permits rebalance approval or execution."
       "Resume the runtime and return it to ready state before approving a rebalance proposal."
       [("runtimeLifecycleState", JStr (lifecycle_str (ps_runtimeLifecycleState s)));
        ("runtimeHalted", JBool (ps_runtimeHalted s))]) ++
  push_if (0 <? ps_criticalMismatchCount s)
    (buildBlockedReason critical_mismatch_pressure
       "Critical mismatch pressure blocks rebalance approval until recovery posture improves."
       "Resolve or verify critical mismatches before approving a rebalance proposal."
       [("criticalMismatchCount", JInt (ps_criticalMismatchCount s))]) ++
  push_if (live_disabled s)
    (buildBlockedReason live_execution_disabled
       "Live rebalance application is disabled for this runtime."
       "Keep the proposal in dry-run or enable live mode only after operator signoff."
       [("executionMode", JStr (mode_text (ps_executionMode s)));
        ("liveExecutionEnabled", JBool (ps_liveExecutionEnabled s))]).

Definition throttle_reason (movingIntoCarry : bool) (carry : AllocatorTargetAllocation) : list RebalanceBlockedReason :=
  push_if (movingIntoCarry && carry_throttled carry)
    (buildBlockedReason carry_throttle_active
       "Carry sleeve is throttled or degraded, so its budget cannot be increased."
       "Keep capital in Treasury until carry health and throttle state normalize."
       [("carryStatus", JStr (sleeve_status_str (ta_status carry)));
        ("carryThrottleState", JStr (throttle_str (ta_throttleState carry)))]).

Definition reserve_reason (movingIntoCarry : bool) (t : RebalancePlannerTreasuryInput)
    : exn (list RebalanceBlockedReason) :=
  if movingIntoCarry then
    shortfall ← dec_of_string (pt_reserveShortfallUsd t);
    Ret (push_if (d_gt shortfall (dec_of_Z 0))
      (buildBlockedReason treasury_reserve_shortfall
         "Treasury reserve is short, so capital cannot be reallocated away from Treasury."
         "Restore reserve coverage before approving a Treasury-to-Carry rebalance."
         [("reserveShortfallUsd", JStr (pt_reserveShortfallUsd t))]))
  else Ret [].

Definition idle_reason (movingIntoCarry : bool) (amount : dec) (t : RebalancePlannerTreasuryInput)
    : exn (list RebalanceBlockedReason) :=
  if movingIntoCarry then
    idle ← dec_of_string (pt_idleCapitalUsd t);
    Ret (push_if (d_lt idle amount)
      (buildBlockedReason insufficient_treasury_idle_capital
         "Treasury does not have enough idle capital to fund the requested carry increase without additional venue reductions."
         "Free treasury liquidity through explicit treasury actions before approving this rebalance."
         [("idleCapitalUsd", JStr (pt_idleCapitalUsd t)); ("rebalanceAmountUsd", JStr (d_toFixedN 2 amount))]))
  else Ret [].

Definition blocked_reasons (input : RebalancePlannerInput) (carry : AllocatorTargetAllocation) (amount : dec)
    (movingIntoCarry : bool) : exn (list RebalanceBlockedReason) :=
  r1 ← size_reason amount (rebalance_policy input);
  r2 ← reserve_reason movingIntoCarry (ri_treasury input);
  r3 ← idle_reason movingIntoCarry amount (ri_treasury input);
  Ret (r1 ++ runtime_reasons (ri_system input) ++ throttle_reason movingIntoCarry carry ++ r2 ++ r3).

Definition proposal_intents (carry treasury : AllocatorTargetAllocation) (movingIntoCarry : bool)
    (blockedReasons : list RebalanceBlockedReason) : list RebalanceProposalIntent :=
  if movingIntoCarry then
    [createIntent carry increase_carry_budget (Some s_treasury) (Some s_carry) blockedReasons;
     createIntent treasury reduce_treasury_allocation (Some s_treasury) (Some s_carry) blockedReasons]
  else
    [createIntent carry reduce_carry_budget (Some s_carry) (Some s_treasury) blockedReasons;
     createIntent treasury increase_treasury_allocation (Some s_carry) (Some s_treasury) blockedReasons].

(** [Decimal.max(carryDelta.abs(), treasuryDelta.abs())]. *)
Definition rebalance_amount (carryDelta treasuryDelta : dec) : dec := d_max [d_abs carryDelta; d_abs treasuryDelta].

Definition createProposal (input : RebalancePlannerInput) : exn (option RebalanceProposal) :=
  carry ← findTarget (ri_decision input) s_carry;
  treasury ← findTarget (ri_decision input) s_treasury;
  carryDelta ← dec_of_string (ta_deltaUsd carry);
  treasuryDelta ← dec_of_string (ta_deltaUsd treasury);
  let amount := rebalance_amount carryDelta treasuryDelta in
  if d_eq amount (dec_of_Z 0) then Ret None
  else
    let movingIntoCarry := d_gt carryDelta (dec_of_Z 0) in
    reasons ← blocked_reasons input carry amount movingIntoCarry;
    let mode := ps_executionMode (ri_system input) in
    Ret (Some {|
      po_allocatorRunId := ri_allocatorRunId input;
      po_actionType := rebalance_between_sleeves;
      po_status := rp_proposed;
      po_summary := if movingIntoCarry
        then "Rebalance " +:+ d_toFixedN 2 amount +:+ " USD from Treasury to Carry budget."
        else "Rebalance " +:+ d_toFixedN 2 amount +:+ " USD from Carry to Treasury budget.";
      po_executionMode := mode;
      po_simulated := negb (bool_decide (mode = live));
      po_executable := is_empty reasons;
      po_approvalRequirement := if bool_decide (mode = live) then ap_admin else ap_operator;
      po_rationale := de_rationale (ri_decision input);
      po_blockedReasons := reasons;
      po_intents := proposal_intents carry treasury movingIntoCarry reasons;
      po_details := [("rebalanceAmountUsd", JStr (d_toFixedN 2 amount));
                     ("carryCurrentAllocationUsd", JStr (ta_currentAllocationUsd carry));
                     ("carryTargetAllocationUsd", JStr (ta_targetAllocationUsd carry));
                     ("treasuryCurrentAllocationUsd", JStr (ta_currentAllocationUsd treasury));
                     ("treasuryTargetAllocationUsd", JStr (ta_targetAllocationUsd treasury))] |}).
End Planner.

(** ** Properties *)

Section Proofs.
Context `{DL : DecimalLib} `{LW : !DecimalLaws}.

(** What a proposal that moves [amount] must satisfy to be executable:
    [carryDelta] is the change of the carry budget. *)
Record rebalance_permitted (input : RebalancePlannerInput) (carry : AllocatorTargetAllocation)
    (carryDelta amount min shortfall idle : Q) : Prop := {
  permitted_size : (min <= amount)%Q;
  permitted_running : ps_runtimeHalted (ri_system input) = false;
  permitted_state : ps_runtimeLifecycleState (ri_system input) = lc_ready \/
                    ps_runtimeLifecycleState (ri_system input) = lc_degraded;
  permitted_mismatches : ps_criticalMismatchCount (ri_system input) <= 0;
  permitted_mode : ps_executionMode (ri_system input) = live -> ps_liveExecutionEnabled (ri_system input) = true;
  permitted_carry : (0 < carryDelta)%Q -> carry_throttled carry = false;
  permitted_reserve : (0 < carryDelta)%Q -> (shortfall <= 0)%Q;
  permitted_funding : (0 < carryDelta)%Q -> (amount <= idle)%Q;
}.

Lemma runtime_reasons_empty s :
  is_empty (runtime_reasons s) = true <->
  ps_runtimeHalted s = false /\
  (ps_runtimeLifecycleState s = lc_ready \/ ps_runtimeLifecycleState s = lc_degraded) /\
  ps_criticalMismatchCount s <= 0 /\ (ps_executionMode s = live -> ps_liveExecutionEnabled s = true).
Proof.
  unfold runtime_reasons. autorewrite with pushes.
  rewrite !andb_true_iff, !negb_true_iff, Z.ltb_ge. unfold lifecycle_not_ready, live_disabled.
  destruct (ps_runtimeHalted s), (ps_runtimeLifecycleState s), (ps_executionMode s), (ps_liveExecutionEnabled s);
    cbn; intuition discriminate.
Qed.

Lemma rebalance_size_spec amount a min m policy :
  dec_of_string (minimumActionableUsd policy) = Ret min -> is_fin amount a -> is_fin min m ->
  exists l, size_reason amount policy = Ret l /\ (is_empty l = true <-> (m <= a)%Q).
Proof.
  intros Hm Fa Fm. unfold size_reason. exn_step Hm. eexists. split; [done|].
  autorewrite with pushes. by rewrite (d_lt_fin _ _ _ _ Fa Fm), negb_true_iff, Qltb_false.
Qed.

Lemma reserve_reason_spec (into : bool) t s q :
  dec_of_string (pt_reserveShortfallUsd t) = Ret s -> is_fin s q ->
  exists l, reserve_reason into t = Ret l /\ (is_empty l = true <-> (into = true -> (q <= 0)%Q)).
Proof.
  intros Hs Fs. unfold reserve_reason. destruct into; [|by exists []; split; [|split]].
  exn_step Hs. eexists. split; [done|]. autorewrite with pushes.
  rewrite (d_gt_fin _ _ _ _ Fs d_zero_fin), negb_true_iff, Qltb_false. naive_solver.
Qed.

Lemma idle_reason_spec (into : bool) amount a t i q :
  dec_of_string (pt_idleCapitalUsd t) = Ret i -> is_fin amount a -> is_fin i q ->
  exists l, idle_reason into amount t = Ret l /\ (is_empty l = true <-> (into = true -> (a <= q)%Q)).
Proof.
  intros Hi Fa Fi. unfold idle_reason. destruct into; [|by exists []; split; [|split]].
  exn_step Hi. eexists. split; [done|]. autorewrite with pushes.
  rewrite (d_lt_fin _ _ _ _ Fi Fa), negb_true_iff, Qltb_false. naive_solver.
Qed.

Lemma blocked_reasons_spec input carry amount q a m sf idle :
  parses (minimumActionableUsd (rebalance_policy input)) m ->
  parses (pt_reserveShortfallUsd (ri_treasury input)) sf ->
  parses (pt_idleCapitalUsd (ri_treasury input)) idle -> is_fin amount a ->
  exists l, blocked_reasons input carry amount (Qltb 0 q) = Ret l /\
    (is_empty l = true <-> rebalance_permitted input carry q a m sf idle).
Proof.
  intros (dm & Hm & Fm) (ds & Hs & Fs) (di & Hi & Fi) Fa. unfold blocked_reasons.
  destruct (rebalance_size_spec amount a dm m (rebalance_policy input)) as (l1 & E1 & S1); [done..|].
  destruct (reserve_reason_spec (Qltb 0 q) (ri_treasury input) ds sf) as (l2 & E2 & S2); [done..|].
  destruct (idle_reason_spec (Qltb 0 q) amount a (ri_treasury input) di idle) as (l3 & E3 & S3); [done..|].
  exn_step E1. exn_step E2. exn_step E3. eexists. split; [done|].
  rewrite !is_empty_app, !andb_true_iff, S1, S2, S3, runtime_reasons_empty, Qltb_spec.
  unfold throttle_reason. rewrite is_empty_push_if, negb_true_iff, andb_false_iff.
  pose proof (Qltb_spec 0 q) as Hq. destruct (Qltb 0 q); split.
  - intros (? & (? & ? & ? & ?) & Ht & ? & ?). destruct Ht; [done|]. by constructor.
  - intros [? ? ? ? ? Pc Pr Pf]. assert (Hq0 : (0 < q)%Q) by by apply Hq. split_and!; try done; [right|intros _..]; auto.
  - intros (? & (? & ? & ? & ?) & Ht & ? & ?). constructor; try done; by intros Hd0%Hq.
  - intros []. split_and!; try done. by left.
Qed.

Lemma intents_follow carry treasury into l i :
  i ∈ proposal_intents carry treasury into l ->
  in_executable i = is_empty l /\ in_blockedReasons i = l /\
  in_targetSleeveId i = Some (if into : bool then s_carry else s_treasury) /\
  in_sourceSleeveId i = Some (if into then s_treasury else s_carry).
Proof.
  unfold proposal_intents. destruct into; rewrite elem_of_cons, list_elem_of_singleton; by intros [-> | ->].
Qed.

(** The planner proposes a rebalance exactly when one of the two sleeves
    has to move; the amount is the larger of the two moves; and the proposal,
    with both of its intents, is executable exactly when the amount reaches the
    minimum, the runtime is running without critical mismatches, live mode is
    enabled if used, and, when capital moves into carry, carry is not throttled,
    the reserve is not short and the idle treasury capital funds the move. *)
Theorem rebalance_executable_exact (input : RebalancePlannerInput) (carry treasury : AllocatorTargetAllocation)
    (dc dt m sf idle : Q)
    (Hc : findTarget (ri_decision input) s_carry = Ret carry)
    (Ht : findTarget (ri_decision input) s_treasury = Ret treasury)
    (Hdc : parses (ta_deltaUsd carry) dc) (Hdt : parses (ta_deltaUsd treasury) dt)
    (Hm : parses (minimumActionableUsd (rebalance_policy input)) m)
    (Hsf : parses (pt_reserveShortfallUsd (ri_treasury input)) sf)
    (Hidle : parses (pt_idleCapitalUsd (ri_treasury input)) idle) :
  exists o a, createProposal input = Ret o /\
    (Qabs dc <= a /\ Qabs dt <= a /\ (a == Qabs dc \/ a == Qabs dt))%Q /\
    (o = None <-> (dc == 0 /\ dt == 0)%Q) /\
    (forall p, o = Some p ->
      (po_executable p = true <-> rebalance_permitted input carry dc a m sf idle) /\
      forall i, i ∈ po_intents p ->
        in_executable i = po_executable p /\ in_blockedReasons i = po_blockedReasons p /\
        in_targetSleeveId i = Some (if Qltb 0 dc then s_carry else s_treasury) /\
        in_sourceSleeveId i = Some (if Qltb 0 dc then s_treasury else s_carry)).
Proof.
  destruct Hdc as (c & Hc1 & Fc), Hdt as (t & Ht1 & Ft).
  destruct (d_max2_fin _ _ _ _ (d_abs_fin _ _ Fc) (d_abs_fin _ _ Ft)) as (a & Fa & La & Lb & Hcase).
  unfold createProposal. exn_step Hc. exn_step Ht. exn_step Hc1. exn_step Ht1.
  fold (rebalance_amount c t) in Fa. rewrite (d_eq_fin _ _ _ _ Fa d_zero_fin), (d_gt_fin _ _ _ _ Fc d_zero_fin).
  assert (Hz : (a == 0 <-> dc == 0 /\ dt == 0)%Q).
  { revert La Lb Hcase. apply (Qabs_case dc); apply (Qabs_case dt); intros; split; intros; lra. }
  destruct (blocked_reasons_spec input carry (rebalance_amount c t) dc a m sf idle) as (l & El & Sl); [done..|].
  destruct (Qeq_bool a 0) eqn:Ea.
  - apply Qeq_bool_iff in Ea. exists None, a. split_and!; try done. by split; [intros _; apply Hz|].
  - exn_step El. eexists _, a. split; [done|]. split_and!; try done.
    + split; [done|]. intros Hd%Hz. apply Qeq_bool_iff in Hd. by rewrite Hd in Ea.
    + intros p [= <-]. split; [exact Sl|]. intros i Hi. by apply intents_follow in Hi.
Qed.
End Proofs.

(** ** Concrete inputs *)

Definition sample_rebalance (delta : string) : RebalancePlannerInput := {|
  ri_allocatorRunId := "run-1";
  ri_decision := MkDecision rg_normal pl_normal "100000.00" "10000.00" "90000.00"
    [build_target s_carry sample_carry "75000.00" delta (num_of_Z 75) [];
     build_target s_treasury sample_treasury "25000.00" ("-" +:+ delta) (num_of_Z 25) []] [] [] [];
  ri_system := MkPlannerSystem lc_ready false 0 dry_run false;
  ri_treasury := MkPlannerTreasury "20000" "0";
  ri_minimumActionableUsd := None |}.

Lemma rebalance_executable_exact_witness :
  let input := sample_rebalance "5000.00" in
  let carry := build_target s_carry sample_carry "75000.00" "5000.00" (num_of_Z 75) [] in
  exists o a, createProposal input = Ret o /\
    (Qabs (500000 # 100) <= a /\ Qabs (- 500000 # 100) <= a /\
     (a == Qabs (500000 # 100) \/ a == Qabs (- 500000 # 100)))%Q /\
    (o = None <-> (500000 # 100 == 0 /\ - 500000 # 100 == 0)%Q) /\
    (forall p, o = Some p ->
      (po_executable p = true <-> rebalance_permitted input carry (500000 # 100) a 2500 0 20000) /\
      forall i, i ∈ po_intents p ->
        in_executable i = po_executable p /\ in_blockedReasons i = po_blockedReasons p /\
        in_targetSleeveId i = Some (if Qltb 0 (500000 # 100) then s_carry else s_treasury) /\
        in_sourceSleeveId i = Some (if Qltb 0 (500000 # 100) then s_treasury else s_carry)).
Proof.
  apply (rebalance_executable_exact (sample_rebalance "5000.00")
    (build_target s_carry sample_carry "75000.00" "5000.00" (num_of_Z 75) [])
    (build_target s_treasury sample_treasury "25000.00" "-5000.00" (num_of_Z 25) [])
    (500000 # 100) (- 500000 # 100) 2500 0 20000);
    [reflexivity|reflexivity|apply literal_parses; reflexivity..].
Defined.

Definition executable_of (m : exn (option RebalanceProposal)) : option (option bool) :=
  match m with Ret o => Some (option_map po_executable o) | Throw _ => None end.

Example rebalance_cases :
  executable_of (createProposal (sample_rebalance "5000.00")) = Some (Some true) /\
  executable_of (createProposal (sample_rebalance "1000.00")) = Some (Some false) /\
  executable_of (createProposal (sample_rebalance "0.00")) = Some None.
Proof. vm_compute. done. Qed.
