(* ===== verification/TreasuryPolicy.v ===== *)
(** * The treasury policy engine (packages/treasury: types.ts, policy.ts)

    [TreasuryPolicyEngine.evaluate] computes the reserve position, reviews
    every venue against the eligibility list and the concentration cap,
    redeems liquidity while the reserve is short, and deploys the surplus.
    Each loop is a Fixpoint that yields its moves as venue and amount; the
    recommendations are their rendering.  The file gives the plans that the
    evaluation is to recommend as functions on integers, and shows that it
    recommends exactly them. *)
From Stdlib Require Import Sorting.Sorted.
From S2P Require Import Prelude JsNumber JsValue DecimalLib DecimalExact Money.
Open Scope Z_scope.

(** ** types.ts *)

Inductive TreasuryLiquidityTier := instant | same_day | delayed.
Definition tier_str (t : TreasuryLiquidityTier) : string :=
  match t with instant => "instant" | same_day => "same_day" | delayed => "delayed" end.
Inductive TreasuryVenueMode := vm_simulated | vm_live.
#[export] Instance TreasuryVenueMode_eq_dec : EqDecision TreasuryVenueMode.
Proof. solve_decision. Defined.
Inductive TreasuryRecommendationType := rt_deposit | rt_redeem.
#[export] Instance TreasuryRecommendationType_eq_dec : EqDecision TreasuryRecommendationType.
Proof. solve_decision. Defined.
Inductive TreasuryRecommendationReasonCode :=
| reserve_shortfall | surplus_deployable | venue_concentration | rr_venue_ineligible | rebalance_budget_application.
#[export] Instance TreasuryRecommendationReasonCode_eq_dec : EqDecision TreasuryRecommendationReasonCode.
Proof. solve_decision. Defined.

Record TreasuryPolicy := MkTreasuryPolicy {
  tp_sleeveId : string;
  reserveFloorPct : num;
  minReserveUsd : string;
  minimumRemainingIdleUsd : string;
  maxAllocationPctPerVenue : num;
  minimumDeployableUsd : string;
  eligibleVenues : list string;
}.

Record TreasuryVenueSnapshot := MkVenueSnapshot {
  vs_venueId : string;
  vs_venueName : string;
  vs_mode : TreasuryVenueMode;
  vs_liquidityTier : TreasuryLiquidityTier;
  vs_healthy : bool;
  vs_aprBps : num;
  vs_availableCapacityUsd : string;
  vs_currentAllocationUsd : string;
  vs_withdrawalAvailableUsd : string;
  vs_concentrationPct : string;
  vs_updatedAt : string;
  vs_metadata : record_;
}.

Record TreasuryReserveStatus := MkReserveStatus {
  rv_totalCapitalUsd : string;
  rv_idleCapitalUsd : string;
  rv_allocatedCapitalUsd : string;
  rv_requiredReserveUsd : string;
  rv_currentReserveUsd : string;
  rv_reserveCoveragePct : string;
  rv_surplusCapitalUsd : string;
  rv_reserveShortfallUsd : string;
}.

Record TreasuryRecommendation := MkTreasuryRecommendation {
  tr_actionType : TreasuryRecommendationType;
  tr_venueId : option string;
  tr_amountUsd : string;
  tr_reasonCode : TreasuryRecommendationReasonCode;
  tr_summary : string;
  tr_details : record_;
}.

Record TreasuryEvaluation := MkTreasuryEvaluation {
  te_policy : TreasuryPolicy;
  te_reserveStatus : TreasuryReserveStatus;
  te_venueSnapshots : list TreasuryVenueSnapshot;
  te_recommendations : list TreasuryRecommendation;
  te_alerts : list string;
  te_simulated : bool;
}.

Record TreasuryEvaluationInput := MkTreasuryInput {
  ti_totalNavUsd : string;
  ti_idleCapitalUsd : string;
  ti_venueSnapshots : list TreasuryVenueSnapshot;
  ti_policy : TreasuryPolicy;
}.

(** ** policy.ts *)

Definition LIQUIDITY_PRIORITY (t : TreasuryLiquidityTier) : Z :=
  match t with instant => 0 | same_day => 1 | delayed => 2 end.

Definition DEFAULT_TREASURY_POLICY : TreasuryPolicy := {|
  tp_sleeveId := "treasury"; reserveFloorPct := num_of_Z 10; minReserveUsd := "10000";
  minimumRemainingIdleUsd := "10000"; maxAllocationPctPerVenue := num_of_Z 50;
  minimumDeployableUsd := "2500"; eligibleVenues := ["atlas-t0-sim"; "atlas-t1-sim"] |}.

Definition is_eligible (policy : TreasuryPolicy) (v : TreasuryVenueSnapshot) : bool :=
  bool_decide (vs_venueId v ∈ eligibleVenues policy).

(** [byYieldDescending(a, b) < 0]. *)
Definition byYieldDescending (a b : TreasuryVenueSnapshot) : bool :=
  n_lt (n_sub (vs_aprBps b) (vs_aprBps a)) n_zero.

Section Evaluate.
Context `{DL : DecimalLib}.

Definition decimalMax (a b : dec) : dec := if d_gt a b then a else b.

(** A venue with an amount. *)
Definition Move : Type := TreasuryVenueSnapshot * dec.

(** [byLiquidityAscending(a, b) < 0]; the venues come with their parsed
    withdrawable amounts. *)
Definition byLiquidityAscending (a b : Move) : bool :=
  let tier := LIQUIDITY_PRIORITY (vs_liquidityTier a.1) - LIQUIDITY_PRIORITY (vs_liquidityTier b.1) in
  if negb (tier =? 0) then tier <? 0
  else match d_cmp b.2 a.2 with Some Lt => true | _ => false end.

Record Balances := MkBalances {
  ba_idle : dec; ba_allocated : dec; ba_total : dec; ba_required : dec;
  ba_shortfall : dec; ba_surplus : dec; ba_coverage : dec }.

Definition totalAllocated (venues : list TreasuryVenueSnapshot) : exn dec :=
  fold_exn (fun sum v => a ← dec_of_string (vs_currentAllocationUsd v); Ret (d_plus sum a)) (dec_of_Z 0) venues.

Definition balances (input : TreasuryEvaluationInput) : exn Balances :=
  idle ← dec_of_string (ti_idleCapitalUsd input);
  allocated ← totalAllocated (ti_venueSnapshots input);
  let total := d_plus idle allocated in
  minReserve ← dec_of_string (minReserveUsd (ti_policy input));
  let required := decimalMax minReserve
    (d_div (d_times total (dec_of_num (reserveFloorPct (ti_policy input)))) (dec_of_Z 100)) in
  Ret {| ba_idle := idle; ba_allocated := allocated; ba_total := total; ba_required := required;
         ba_shortfall := d_max [d_minus required idle; dec_of_Z 0];
         ba_surplus := d_max [d_minus idle required; dec_of_Z 0];
         ba_coverage := if d_eq required (dec_of_Z 0) then dec_of_Z 100
                        else d_times (d_div idle required) (dec_of_Z 100) |}.

(** [{...venue, concentrationPct}]. *)
Definition set_concentration (v : TreasuryVenueSnapshot) (c : string) : TreasuryVenueSnapshot := {|
  vs_venueId := vs_venueId v; vs_venueName := vs_venueName v; vs_mode := vs_mode v;
  vs_liquidityTier := vs_liquidityTier v; vs_healthy := vs_healthy v; vs_aprBps := vs_aprBps v;
  vs_availableCapacityUsd := vs_availableCapacityUsd v; vs_currentAllocationUsd := vs_currentAllocationUsd v;
  vs_withdrawalAvailableUsd := vs_withdrawalAvailableUsd v; vs_concentrationPct := c;
  vs_updatedAt := vs_updatedAt v; vs_metadata := vs_metadata v |}.

Definition with_concentration (total : dec) (v : TreasuryVenueSnapshot) : exn TreasuryVenueSnapshot :=
  if d_eq total (dec_of_Z 0) then Ret (set_concentration v (d_toFixedN 2 (dec_of_Z 0)))
  else
    a ← dec_of_string (vs_currentAllocationUsd v);
    Ret (set_concentration v (d_toFixedN 2 (d_times (d_div a total) (dec_of_Z 100)))).

(** [totalCapitalUsd.times(maxAllocationPctPerVenue).div(100)]. *)
Definition maxVenueAllocation (policy : TreasuryPolicy) (total : dec) : dec :=
  d_div (d_times total (dec_of_num (maxAllocationPctPerVenue policy))) (dec_of_Z 100).

(** An iteration of the first loop: alerts paired with recommendations. *)
Definition review_venue (policy : TreasuryPolicy) (total : dec) (v : TreasuryVenueSnapshot)
    : exn (list (string * TreasuryRecommendation)) :=
  concentration ← dec_of_string (vs_concentrationPct v);
  allocation ← dec_of_string (vs_currentAllocationUsd v);
  let excess := d_max [d_minus allocation (maxVenueAllocation policy total); dec_of_Z 0] in
  Ret (push_if (negb (is_eligible policy v) && d_gt allocation (dec_of_Z 0))
         ("Venue " +:+ vs_venueName v +:+ " is no longer eligible.",
          MkTreasuryRecommendation rt_redeem (Some (vs_venueId v)) (d_toFixedN 2 allocation) rr_venue_ineligible
            ("Redeem the full " +:+ d_toFixedN 2 allocation +:+ " USD allocation from ineligible venue "
             +:+ vs_venueName v +:+ ".")
            [("concentrationPct", JStr (vs_concentrationPct v))]) ++
       push_if (d_gt concentration (dec_of_num (maxAllocationPctPerVenue policy)) && d_gt excess (dec_of_Z 0))
         ("Venue " +:+ vs_venueName v +:+ " exceeds the concentration cap.",
          MkTreasuryRecommendation rt_redeem (Some (vs_venueId v)) (d_toFixedN 2 excess) venue_concentration
            ("Redeem " +:+ d_toFixedN 2 excess +:+ " USD from " +:+ vs_venueName v
             +:+ " to restore concentration limits.")
            [("concentrationPct", JStr (vs_concentrationPct v));
             ("maxAllocationPctPerVenue", JNum (maxAllocationPctPerVenue policy))])).

(** The venues that can pay out, with what they can pay, most liquid first. *)
Definition redeem_candidates (venues : list TreasuryVenueSnapshot) : exn (list Move) :=
  l ← map_exn (fun v => w ← dec_of_string (vs_withdrawalAvailableUsd v); Ret (v, w)) venues;
  Ret (js_sort byLiquidityAscending (List.filter (fun m => d_gt m.2 (dec_of_Z 0)) l)).

Fixpoint redeem_loop (remaining : dec) (candidates : list Move) : list Move :=
  match candidates with
  | [] => []
  | (v, withdrawable) :: rest =>
      if d_lte remaining (dec_of_Z 0) then []
      else
        let withdrawal := d_min [remaining; withdrawable] in
        if d_lte withdrawal (dec_of_Z 0) then redeem_loop remaining rest
        else (v, withdrawal) :: redeem_loop (d_minus remaining withdrawal) rest
  end.

Definition redeem_recommendation (m : Move) : TreasuryRecommendation :=
  let '(v, withdrawal) := m in
  MkTreasuryRecommendation rt_redeem (Some (vs_venueId v)) (d_toFixedN 2 withdrawal) reserve_shortfall
    ("Redeem " +:+ d_toFixedN 2 withdrawal +:+ " USD from " +:+ vs_venueName v
     +:+ " to restore the treasury reserve floor.")
    [("liquidityTier", JStr (tier_str (vs_liquidityTier v)));
     ("withdrawalAvailableUsd", JStr (vs_withdrawalAvailableUsd v))].

Definition redemptions (shortfall : dec) (venues : list TreasuryVenueSnapshot) : exn (list Move) :=
  if d_gt shortfall (dec_of_Z 0) then
    candidates ← redeem_candidates venues; Ret (redeem_loop shortfall candidates)
  else Ret [].

Definition deploy_candidates (policy : TreasuryPolicy) (venues : list TreasuryVenueSnapshot)
    : list TreasuryVenueSnapshot :=
  js_sort byYieldDescending (List.filter (fun v => is_eligible policy v && vs_healthy v) venues).

Fixpoint deploy_loop (policy : TreasuryPolicy) (total minDeployable remaining : dec)
    (candidates : list TreasuryVenueSnapshot) : exn (list Move) :=
  match candidates with
  | [] => Ret []
  | v :: rest =>
      if d_lt remaining minDeployable then Ret []
      else
        current ← dec_of_string (vs_currentAllocationUsd v);
        let capRoom := d_max [d_minus (maxVenueAllocation policy total) current; dec_of_Z 0] in
        capacity ← dec_of_string (vs_availableCapacityUsd v);
        let deploy := d_min [remaining; capRoom; capacity] in
        if d_lt deploy minDeployable then deploy_loop policy total minDeployable remaining rest
        else
          more ← deploy_loop policy total minDeployable (d_minus remaining deploy) rest;
          Ret ((v, deploy) :: more)
  end.

Definition deploy_recommendation (m : Move) : TreasuryRecommendation :=
  let '(v, deploy) := m in
  MkTreasuryRecommendation rt_deposit (Some (vs_venueId v)) (d_toFixedN 2 deploy) surplus_deployable
    ("Deploy " +:+ d_toFixedN 2 deploy +:+ " USD of surplus cash into " +:+ vs_venueName v +:+ ".")
    [("aprBps", JNum (vs_aprBps v)); ("liquidityTier", JStr (tier_str (vs_liquidityTier v)));
     ("availableCapacityUsd", JStr (vs_availableCapacityUsd v))].

Definition deployments (policy : TreasuryPolicy) (b : Balances) (venues : list TreasuryVenueSnapshot)
    : exn (list Move) :=
  minDeployable ← dec_of_string (minimumDeployableUsd policy);
  if d_gte (ba_surplus b) minDeployable then
    deploy_loop policy (ba_total b) minDeployable (ba_surplus b) (deploy_candidates policy venues)
  else Ret [].

Definition reserve_status (b : Balances) : TreasuryReserveStatus := {|
  rv_totalCapitalUsd := d_toFixedN 2 (ba_total b); rv_idleCapitalUsd := d_toFixedN 2 (ba_idle b);
  rv_allocatedCapitalUsd := d_toFixedN 2 (ba_allocated b); rv_requiredReserveUsd := d_toFixedN 2 (ba_required b);
  rv_currentReserveUsd := d_toFixedN 2 (ba_idle b); rv_reserveCoveragePct := d_toFixedN 2 (ba_coverage b);
  rv_surplusCapitalUsd := d_toFixedN 2 (ba_surplus b); rv_reserveShortfallUsd := d_toFixedN 2 (ba_shortfall b) |}.

Definition evaluate (input : TreasuryEvaluationInput) : exn TreasuryEvaluation :=
  let policy := ti_policy input in
  b ← balances input;
  venues ← map_exn (with_concentration (ba_total b)) (ti_venueSnapshots input);
  reviews ← map_exn (review_venue policy (ba_total b)) venues;
  redeems ← redemptions (ba_shortfall b) venues;
  deploys ← deployments policy b venues;
  Ret {| te_policy := policy;
         te_reserveStatus := reserve_status b;
         te_venueSnapshots := venues;
         te_recommendations := map snd (concat reviews) ++ map redeem_recommendation redeems
                               ++ map deploy_recommendation deploys;
         te_alerts := map fst (concat reviews) ++
           push_if (d_gt (ba_shortfall b) (dec_of_Z 0))
             ("Liquidity reserve is short by " +:+ d_toFixedN 2 (ba_shortfall b) +:+ " USD.");
         te_simulated := forallb (fun v => bool_decide (vs_mode v = vm_simulated)) venues |}.
End Evaluate.

(** ** The reserve position in integers *)

Definition current_cents (v : TreasuryVenueSnapshot) : Z := cents_of (vs_currentAllocationUsd v).
Definition capacity_cents (v : TreasuryVenueSnapshot) : Z := cents_of (vs_availableCapacityUsd v).
Definition withdrawable_cents (v : TreasuryVenueSnapshot) : Z := cents_of (vs_withdrawalAvailableUsd v).

Definition venue_ok (v : TreasuryVenueSnapshot) : bool :=
  money (vs_currentAllocationUsd v) && money (vs_availableCapacityUsd v) && money (vs_withdrawalAvailableUsd v).

Definition idle_cents (input : TreasuryEvaluationInput) : Z := cents_of (ti_idleCapitalUsd input).
Definition total_cents (input : TreasuryEvaluationInput) : Z :=
  idle_cents input + zsum (map current_cents (ti_venueSnapshots input)).

(** Amounts in cents, a total below the bound, and a positive minimum action. *)
Definition input_ok (input : TreasuryEvaluationInput) : bool :=
  money (ti_idleCapitalUsd input) && forallb venue_ok (ti_venueSnapshots input)
  && money (minReserveUsd (ti_policy input)) && money (minimumDeployableUsd (ti_policy input))
  && (0 <? cents_of (minimumDeployableUsd (ti_policy input))) && (total_cents input <? money_bound).

(** The required reserve in ten-thousandths, for a floor of [f] percent. *)
Definition required_units (input : TreasuryEvaluationInput) (f : Z) : Z :=
  Z.max (100 * cents_of (minReserveUsd (ti_policy input))) (total_cents input * f).

(** ** What the evaluation is to recommend, in integers

    A move is a venue with an amount in ten-thousandths of a dollar. *)

Definition planned : Type := TreasuryVenueSnapshot * Z.

(** What is returned for a shortfall: from each venue all it can pay out, until
    the shortfall is covered. *)
Fixpoint return_plan (shortfall : Z) (venues : list TreasuryVenueSnapshot) : list planned :=
  match venues with
  | [] => []
  | v :: rest =>
      if shortfall <=? 0 then []
      else let z := Z.min shortfall (100 * withdrawable_cents v) in (v, z) :: return_plan (shortfall - z) rest
  end.

(** What is deployed of a surplus: into each venue the rest, its room below [k]
    percent of the total of [T] cents, or its capacity, whichever is least;
    nothing less than [D] cents, and nothing once less than that is left. *)
Fixpoint deposit_plan (T k D surplus : Z) (venues : list TreasuryVenueSnapshot) : list planned :=
  match venues with
  | [] => []
  | v :: rest =>
      if surplus <? 100 * D then []
      else
        let z := Z.min surplus (Z.min (T * k - 100 * current_cents v) (100 * capacity_cents v)) in
        if z <? 100 * D then deposit_plan T k D surplus rest else (v, z) :: deposit_plan T k D (surplus - z) rest
  end.

(** The rank of a tier of liquidity. *)
Definition tier_rank (t : TreasuryLiquidityTier) : Z := match t with instant => 0 | same_day => 1 | delayed => 2 end.

(** What the review of a venue of [c] hundredths of a percent of the total
    redeems: everything from a venue that is not eligible, and the excess over
    the cap from one whose share is above it. *)
Definition review_plan (policy : TreasuryPolicy) (T k c : Z) (v : TreasuryVenueSnapshot)
    : list (TreasuryRecommendationReasonCode * planned) :=
  push_if (negb (bool_decide (vs_venueId v ∈ eligibleVenues policy)) && (0 <? current_cents v)) (rr_venue_ineligible, (v, 100 * current_cents v)) ++
  push_if ((100 * k <? c) && (0 <? 100 * current_cents v - T * k)) (venue_concentration, (v, 100 * current_cents v - T * k)).

(** The more liquid tier first, then the larger withdrawable amount. *)
Definition more_liquid (v w : TreasuryVenueSnapshot) : Prop :=
  tier_rank (vs_liquidityTier v) < tier_rank (vs_liquidityTier w) \/
  tier_rank (vs_liquidityTier v) = tier_rank (vs_liquidityTier w) /\ withdrawable_cents w <= withdrawable_cents v.

(** The comparator of the yields: the higher annual rate goes first. *)
Definition higher_yield (v w : TreasuryVenueSnapshot) : bool := n_lt (n_sub (vs_aprBps w) (vs_aprBps v)) n_zero.

(** A deposit: an eligible healthy venue, at least the minimum action, within
    the venue's capacity and its share of the total. *)
Definition deposit_fits (policy : TreasuryPolicy) (T k D : Z) (m : planned) : Prop :=
  (vs_venueId m.1 ∈ eligibleVenues policy /\ vs_healthy m.1 = true) /\
  100 * D <= m.2 <= 100 * capacity_cents m.1 /\ 100 * current_cents m.1 + m.2 <= T * k.

Lemma return_plan_sum venues : forall r, Forall (fun v => 0 < withdrawable_cents v) venues ->
  zsum (return_plan r venues).*2 = Z.min (Z.max r 0) (100 * zsum (map withdrawable_cents venues)) /\
  Forall (fun m : planned => 0 < m.2 <= 100 * withdrawable_cents m.1) (return_plan r venues).
Proof.
  induction venues as [|v rest IH]; intros r Hv; cbn [return_plan map]; [split; [cbn; lia|constructor]|].
  apply Forall_cons in Hv as [Hv Hrest]. rewrite zsum_cons. assert (0 <= zsum (map withdrawable_cents rest)).
  { apply zsum_nonneg. rewrite Forall_map. eapply Forall_impl; [exact Hrest|]. cbn. lia. }
  destruct (Z.leb_spec r 0); [split; [cbn; lia|constructor]|].
  destruct (IH (r - Z.min r (100 * withdrawable_cents v)) Hrest) as [IH1 IH2]. cbn [fmap list_fmap snd].
  rewrite zsum_cons, IH1. split; [lia|]. constructor; [cbn; lia|done].
Qed.

Lemma return_plan_none r venues : r <= 0 -> return_plan r venues = [].
Proof. destruct venues; cbn; [done|]. by destruct (Z.leb_spec r 0); [|lia]. Qed.

Lemma deposit_plan_none T k D r venues : 0 < D -> r <= 0 -> deposit_plan T k D r venues = [].
Proof. intros HD Hr. destruct venues; cbn; [done|]. by destruct (Z.ltb_spec r (100 * D)); [|lia]. Qed.

Lemma deposit_plan_fits policy T k D venues : 0 < D ->
  Forall (fun v => vs_venueId v ∈ eligibleVenues policy /\ vs_healthy v = true) venues -> forall r,
  Forall (deposit_fits policy T k D) (deposit_plan T k D r venues) /\ zsum (deposit_plan T k D r venues).*2 <= Z.max r 0 /\
  sublist (deposit_plan T k D r venues).*1 venues.
Proof.
  intros HD Hv. induction Hv as [|v rest Hv _ IH]; intros r; cbn [deposit_plan]; [split_and!; [constructor|cbn; lia|constructor]|].
  destruct (Z.ltb_spec r (100 * D)); [split_and!; [constructor|cbn; lia|apply sublist_nil_l]|].
  set (z := Z.min r _) in *. destruct (Z.ltb_spec z (100 * D)).
  - destruct (IH r) as (I1 & I2 & I3). split_and!; [done|done|by apply sublist_cons].
  - destruct (IH (r - z)) as (I1 & I2 & I3). cbn [fmap list_fmap fst snd]. rewrite zsum_cons. split_and!.
    + constructor; [|done]. unfold deposit_fits. cbn [fst snd]. split; [done|]. lia.
    + lia.
    + by apply sublist_skip.
Qed.

(** ** Lemmas *)

Section Proofs.
Context `{DL : DecimalLib} `{LW : !DecimalLaws}.

Lemma venue_ok_inv v : venue_ok v = true ->
  money (vs_currentAllocationUsd v) = true /\ money (vs_availableCapacityUsd v) = true /\
  money (vs_withdrawalAvailableUsd v) = true.
Proof. unfold venue_ok. rewrite !andb_true_iff. tauto. Qed.

Lemma current_nonneg l : Forall (fun v => venue_ok v = true) l -> 0 <= zsum (map current_cents l).
Proof.
  intros Hl. apply zsum_nonneg. rewrite Forall_map. eapply Forall_impl; [exact Hl|].
  intros v (Hm & _ & _)%venue_ok_inv. by destruct (money_parses _ Hm) as (_ & _ & _ & ? & _).
Qed.

Lemma totalAllocated_from l d z :
  Forall (fun v => venue_ok v = true) l -> units d (100 * z) -> 0 <= z ->
  z + zsum (map current_cents l) < money_bound ->
  exists t, fold_exn (fun sum v => a ← dec_of_string (vs_currentAllocationUsd v); Ret (d_plus sum a)) d l = Ret t /\
    units t (100 * (z + zsum (map current_cents l))).
Proof.
  intros Hl. revert d z. induction Hl as [|v l Hv Hl IH]; intros d z Hd Hz Hb.
  - exists d. split; [done|]. by rewrite Z.add_0_r.
  - pose proof (current_nonneg l Hl). destruct (venue_ok_inv _ Hv) as (Hm & _ & _).
    destruct (money_parses _ Hm) as (a & Ea & Ua & Ha). cbn [fold_exn map]. rewrite Ea, zsum_cons. cbn [mbind exn_bind].
    fold (current_cents v) in Ua, Ha. cbn [map] in Hb. rewrite zsum_cons in Hb.
    unfold money_bound in *. destruct (IH (d_plus d a) (z + current_cents v)) as (t & Et & Ut).
    + replace (100 * (z + current_cents v)) with (100 * z + 100 * current_cents v) by lia.
      apply units_plus; [done|done|lia].
    + lia.
    + lia.
    + exists t. split; [done|].
      by replace (z + (current_cents v + zsum (map current_cents l)))
        with (z + current_cents v + zsum (map current_cents l)) by lia.
Qed.

Lemma input_ok_inv input : input_ok input = true ->
  money (ti_idleCapitalUsd input) = true /\ Forall (fun v => venue_ok v = true) (ti_venueSnapshots input) /\
  money (minReserveUsd (ti_policy input)) = true /\ money (minimumDeployableUsd (ti_policy input)) = true /\
  0 < cents_of (minimumDeployableUsd (ti_policy input)) /\ total_cents input < money_bound.
Proof.
  unfold input_ok. rewrite !andb_true_iff, !Z.ltb_lt. intros (((((? & Hf) & ?) & ?) & ?) & ?).
  split_and!; try done. rewrite Forall_forall. intros v Hv. rewrite forallb_forall in Hf.
  apply Hf. by apply list_elem_of_In.
Qed.

Lemma decimalMax_units a b x y : units a x -> units b y -> units (decimalMax a b) (Z.max x y).
Proof.
  intros Ha Hb. unfold decimalMax. rewrite (units_gt _ _ _ _ Ha Hb).
  destruct (Z.ltb_spec y x); [by rewrite Z.max_l by lia|by rewrite Z.max_r by lia].
Qed.

(** What [balances] computes, in integers. *)
Lemma balances_spec input f :
  input_ok input = true -> reserveFloorPct (ti_policy input) = num_of_Z f -> 0 <= f <= 100 ->
  exists b, balances input = Ret b /\
    units (ba_idle b) (100 * idle_cents input) /\ units (ba_total b) (100 * total_cents input) /\
    units (ba_required b) (required_units input f) /\
    units (ba_shortfall b) (Z.max (required_units input f - 100 * idle_cents input) 0) /\
    units (ba_surplus b) (Z.max (100 * idle_cents input - required_units input f) 0).
Proof.
  intros Hok Hf Hfr. destruct (input_ok_inv _ Hok) as (Hi & Hv & Hr & _ & _ & Ht).
  destruct (money_parses _ Hi) as (i & Ei & Ui & Bi). destruct (money_parses _ Hr) as (r & Er & Ur & Br).
  fold (idle_cents input) in Ui, Bi. pose proof (current_nonneg _ Hv) as Hnn.
  assert (Htot : 0 <= total_cents input) by (unfold total_cents; lia).
  unfold balances. exn_step Ei.
  destruct (totalAllocated_from (ti_venueSnapshots input) (dec_of_Z 0) 0) as (t & Et & Ut);
    [done|by apply units_zero|done|unfold total_cents in Ht; lia|].
  fold (totalAllocated (ti_venueSnapshots input)) in Et. exn_step Et. exn_step Er. cbn zeta.
  unfold money_bound in *.
  assert (Utot : units (d_plus i t) (100 * total_cents input)).
  { replace (100 * total_cents input) with (100 * idle_cents input + 100 * (0 + zsum (map current_cents (ti_venueSnapshots input))))
      by (unfold total_cents; lia).
    apply units_plus; [done|done|]. unfold total_cents in *. lia. }
  assert (Uq : units (decimalMax r (d_div (d_times (d_plus i t) (dec_of_num (reserveFloorPct (ti_policy input)))) (dec_of_Z 100)))
                 (required_units input f)).
  { rewrite Hf. apply decimalMax_units; [done|]. apply units_pct; [done|lia|nia]. }
  assert (Hq : 0 <= required_units input f < 10 ^ 18) by (unfold required_units; nia).
  eexists. split; [done|]. cbn. split_and!; try done.
  - apply units_max; [|by apply units_zero]. apply units_minus; [done|done|lia].
  - apply units_max; [|by apply units_zero]. apply units_minus; [done|done|lia].
Qed.

(** The moves [l] are those of a plan. *)
Definition amounts (l : list Move) (plan : list planned) : Prop := Forall2 (fun m p => m.1 = p.1 /\ units m.2 p.2) l plan.

Lemma redeem_loop_spec cands remaining r :
  Forall (fun m => units m.2 (100 * withdrawable_cents m.1) /\ 0 < withdrawable_cents m.1 < money_bound) cands ->
  units remaining r -> Z.abs r < 10 ^ 19 -> amounts (redeem_loop remaining cands) (return_plan r cands.*1).
Proof.
  intros Hc. revert remaining r. induction Hc as [|[v w] cands [Hw Hp] Hc IH]; intros remaining r Hr Hb; cbn [fst snd] in *; [constructor|].
  cbn [redeem_loop return_plan fmap list_fmap fst]. rewrite (units_lte _ _ _ _ Hr units_zero). destruct (Z.leb_spec r 0); [constructor|].
  pose proof (units_min2 _ _ _ _ Hr Hw) as Hm. rewrite (units_lte _ _ _ _ Hm units_zero).
  destruct (Z.leb_spec (Z.min r (100 * withdrawable_cents v)) 0); [lia|]. unfold money_bound in *.
  constructor; [done|]. apply IH; [apply units_minus; [done|done|lia]|lia].
Qed.

(** Two venues that differ only in the concentration. *)
Definition same_amounts (v w : TreasuryVenueSnapshot) : Prop := exists c, w = set_concentration v c.

Lemma map_filter_sum {A} (f : A -> bool) (g : A -> Z) l :
  (forall x, x ∈ l -> f x = false -> g x = 0) -> zsum (map g (List.filter f l)) = zsum (map g l).
Proof.
  intros H. induction l as [|x l IH]; [done|]. cbn [map List.filter]. rewrite zsum_cons, <- IH by (intros y Hy; apply H; by right).
  destruct (f x) eqn:E; [done|]. rewrite (H x) by (by try left). lia.
Qed.

Lemma filter_submseteq {A} (f : A -> bool) l : List.filter f l ⊆+ l.
Proof. induction l as [|x l IH]; [done|]. cbn. destruct (f x); [by apply submseteq_skip|by apply submseteq_cons]. Qed.

(** The order of [byLiquidityAscending], in integers. *)
Definition liquid_before (a b : Move) : bool :=
  let tier := LIQUIDITY_PRIORITY (vs_liquidityTier a.1) - LIQUIDITY_PRIORITY (vs_liquidityTier b.1) in
  if negb (tier =? 0) then tier <? 0 else withdrawable_cents b.1 <? withdrawable_cents a.1.

Lemma liquid_before_false a b : liquid_before b a = false -> more_liquid a.1 b.1.
Proof.
  unfold liquid_before, more_liquid. cbv zeta. change LIQUIDITY_PRIORITY with tier_rank.
  destruct (Z.eqb_spec (tier_rank (vs_liquidityTier b.1) - tier_rank (vs_liquidityTier a.1)) 0); cbn [negb];
    rewrite Z.ltb_ge; lia.
Qed.

Lemma liquidity_sorted (l : list Move) :
  Forall (fun m => units m.2 (100 * withdrawable_cents m.1) /\ 0 < withdrawable_cents m.1 < money_bound) l ->
  StronglySorted more_liquid (js_sort byLiquidityAscending l).*1.
Proof.
  intros Hl. rewrite (js_sort_ext byLiquidityAscending liquid_before).
  - assert (Ho : in_order liquid_before (js_sort liquid_before l)).
    { apply js_sort_in_order; unfold liquid_before; intros *; cbv zeta;
        repeat match goal with |- context [Z.eqb ?a 0] => destruct (Z.eqb_spec a 0) end; cbn [negb];
        rewrite ?Z.ltb_lt, ?Z.ltb_ge; lia. }
    induction Ho as [|a rest _ IH Ha]; [constructor|]. constructor; [exact IH|]. apply Forall_fmap.
    eapply Forall_impl; [exact Ha|]. intros b. apply liquid_before_false.
  - intros a b Ha Hb. rewrite Forall_forall in Hl. destruct (Hl a Ha) as [Ua _], (Hl b Hb) as [Ub _].
    unfold byLiquidityAscending, liquid_before. cbv zeta. destruct (negb _); [done|].
    pose proof (scaled_cmp_lt 4 _ _ _ _ ltac:(lia) Ub Ua) as E.
    assert (E2 : (100 * withdrawable_cents b.1 <? 100 * withdrawable_cents a.1) = (withdrawable_cents b.1 <? withdrawable_cents a.1)).
    { destruct (Z.ltb_spec (withdrawable_cents b.1) (withdrawable_cents a.1)),
        (Z.ltb_spec (100 * withdrawable_cents b.1) (100 * withdrawable_cents a.1)); lia. }
    rewrite E2 in E. rewrite <- E. destruct (d_cmp b.2 a.2) as [[]|]; cbn; try done; symmetry.
    all: by (apply bool_decide_eq_false || apply bool_decide_eq_true).
Qed.

Lemma redeem_candidates_spec venues :
  Forall (fun v => venue_ok v = true) venues ->
  exists l, redeem_candidates venues = Ret l /\
    Forall (fun m => units m.2 (100 * withdrawable_cents m.1) /\ 0 < withdrawable_cents m.1 < money_bound) l /\
    l.*1 ≡ₚ List.filter (fun v => 0 <? withdrawable_cents v) venues /\ StronglySorted more_liquid l.*1.
Proof.
  intros Hv. unfold redeem_candidates.
  assert (exists l0, map_exn (fun v => w ← dec_of_string (vs_withdrawalAvailableUsd v); Ret (v, w)) venues = Ret l0 /\
    l0.*1 = venues /\ Forall (fun m => units m.2 (100 * withdrawable_cents m.1) /\ 0 <= withdrawable_cents m.1 < money_bound) l0)
    as (l0 & E0 & M0 & F0).
  { induction Hv as [|v venues Hv0 Hv IH]; [by exists []|]. destruct IH as (l0 & E0 & M0 & F0).
    destruct (venue_ok_inv _ Hv0) as (_ & _ & Hm). destruct (money_parses _ Hm) as (w & Ew & Uw & Bw).
    exists ((v, w) :: l0). split_and!.
    - cbn [map_exn]. rewrite Ew. cbn. by rewrite E0.
    - cbn. by rewrite M0.
    - by constructor. }
  exn_step E0. eexists. split; [done|]. set (kept := List.filter _ l0).
  assert (Fk : Forall (fun m => units m.2 (100 * withdrawable_cents m.1) /\ 0 < withdrawable_cents m.1 < money_bound) kept).
  { rewrite Forall_forall in F0 |- *. intros m Hm. apply list_elem_of_In, filter_In in Hm as [Hm Hg].
    destruct (F0 m) as [Hu Hb]; [by apply list_elem_of_In|]. split; [done|].
    rewrite (units_gt _ _ _ _ Hu units_zero) in Hg. lia. }
  assert (Ek : kept.*1 = List.filter (fun v => 0 <? withdrawable_cents v) venues).
  { rewrite <- M0. unfold kept. clear -F0 LW. induction F0 as [|m l0 [Hu _] _ IH]; [done|]. cbn.
    rewrite (units_gt _ _ _ _ Hu units_zero).
    replace (0 <? 100 * withdrawable_cents m.1) with (0 <? withdrawable_cents m.1)
      by (destruct (Z.ltb_spec 0 (withdrawable_cents m.1)), (Z.ltb_spec 0 (100 * withdrawable_cents m.1)); lia).
    destruct (0 <? withdrawable_cents m.1); cbn; by rewrite IH. }
  split_and!.
  - by rewrite js_sort_perm.
  - by rewrite <- Ek, js_sort_perm.
  - by apply liquidity_sorted.
Qed.

Lemma deploy_loop_spec policy total minD D T k cands remaining r :
  Forall (fun v => venue_ok v = true) cands -> maxAllocationPctPerVenue policy = num_of_Z k -> 0 <= k <= 100 ->
  units total (100 * T) -> 0 <= T < money_bound -> units minD (100 * D) -> 0 < D ->
  units remaining r -> 0 <= r < 10 ^ 19 ->
  exists l, deploy_loop policy total minD remaining cands = Ret l /\ amounts l (deposit_plan T k D r cands).
Proof.
  intros Hc Hk Hkr Ht HT Hd HD. revert remaining r.
  induction Hc as [|v cands Hok Hc IH]; intros remaining r Hr Hb; [by exists []; split; [|constructor]|].
  cbn [deploy_loop deposit_plan]. rewrite (units_lt _ _ _ _ Hr Hd). destruct (Z.ltb_spec r (100 * D)); [by exists []; split; [|constructor]|].
  destruct (venue_ok_inv _ Hok) as (Hm1 & Hm2 & _).
  destruct (money_parses _ Hm1) as (a & Ea & Ua & Ba). destruct (money_parses _ Hm2) as (c & Ec & Uc & Bc).
  fold (current_cents v) in Ua, Ba. fold (capacity_cents v) in Uc, Bc. exn_step Ea. cbn zeta. exn_step Ec.
  unfold money_bound in *.
  assert (Ucap : units (maxVenueAllocation policy total) (T * k))
    by (unfold maxVenueAllocation; rewrite Hk; apply units_pct; [done|lia|nia]).
  assert (Uroom : units (d_max [d_minus (maxVenueAllocation policy total) a; dec_of_Z 0])
                    (Z.max (T * k - 100 * current_cents v) 0)).
  { apply units_max; [|by apply units_zero]. apply units_minus; [done|done|nia]. }
  pose proof (units_min3 _ _ _ _ _ _ Hr Uroom Uc) as Um. set (deploy := d_min _) in *.
  rewrite (units_lt _ _ _ _ Um Hd).
  set (z := Z.min r (Z.min (T * k - 100 * current_cents v) (100 * capacity_cents v))).
  destruct (Z.ltb_spec (Z.min r (Z.min (Z.max (T * k - 100 * current_cents v) 0) (100 * capacity_cents v))) (100 * D)),
    (Z.ltb_spec z (100 * D)); [by apply IH|lia|lia|].
  assert (Ez : Z.min r (Z.min (Z.max (T * k - 100 * current_cents v) 0) (100 * capacity_cents v)) = z) by lia.
  rewrite Ez in Um. destruct (IH (d_minus remaining deploy) (r - z)) as (l & E & A);
    [apply units_minus; [exact Hr|exact Um|lia]|lia|].
  exn_step E. exists ((v, deploy) :: l). split; [done|]. by constructor.
Qed.

(** The share of a venue in the total, in hundredths of a percent [c]: one of the
    two numbers next to it. *)
Definition share_of (T : Z) (v : TreasuryVenueSnapshot) (c : Z) : Prop :=
  amount 2 (vs_concentrationPct v) c /\ 10000 * current_cents v / T <= c <= - (- (10000 * current_cents v) / T).

Lemma with_concentration_spec T total v :
  units total (100 * T) -> 0 <= T < money_bound -> venue_ok v = true -> current_cents v <= T ->
  exists s c, with_concentration total v = Ret (set_concentration v s) /\ share_of T (set_concentration v s) c.
Proof.
  intros Ht HT Hok Hle. destruct (venue_ok_inv _ Hok) as (Hm & _ & _).
  destruct (money_parses _ Hm) as (a & Ea & Ua & Ba). fold (current_cents v) in Ua, Ba.
  unfold with_concentration. rewrite (units_eq _ _ _ _ Ht units_zero). destruct (Z.eqb_spec (100 * T) 0) as [E0|E0].
  { destruct (scaled_fixed 2 2 (dec_of_Z 0) 0) as (b & Hb & Sb); [lia..|exact units_zero|].
    exists (d_toFixedN 2 (dec_of_Z 0)), 0. split; [done|]. unfold share_of. cbn [vs_concentrationPct set_concentration].
    split; [by exists b|]. replace T with 0 by lia. by rewrite !Zdiv_0_r. }
  exn_step Ea. set (X := current_cents v) in *. set (lo := 10000 * X / T). set (hi := - (- (10000 * X) / T)).
  assert (Hlo : 0 <= lo <= 10000) by (split; [apply Z.div_pos; lia|apply Z.div_le_upper_bound; lia]).
  assert (Hhi : 0 <= hi <= 10000).
  { unfold hi. split; [enough (- (10000 * X) / T <= 0) by lia; apply Z.div_le_upper_bound; lia|].
    enough (- 10000 <= - (10000 * X) / T) by lia. apply Z.div_le_lower_bound; lia. }
  pose proof (Z.mul_div_le (10000 * X) T ltac:(lia)) as Flo. pose proof (Z.mul_div_le (- (10000 * X)) T ltac:(lia)) as Fhi.
  fold lo in Flo. assert (Fhi' : 10000 * X <= T * hi) by (unfold hi; lia). clear Fhi.
  assert (Q1 : ((lo # Z.to_pos (10 ^ 4)) <= (100 * X # Z.to_pos (10 ^ 4)) / (100 * T # Z.to_pos (10 ^ 4)))%Q).
  { apply Qle_shift_div_l; [unfold Qlt; cbn; lia|]. unfold Qle. cbn. nia. }
  assert (Q2 : ((100 * X # Z.to_pos (10 ^ 4)) / (100 * T # Z.to_pos (10 ^ 4)) <= (hi # Z.to_pos (10 ^ 4)))%Q).
  { apply Qle_shift_div_r; [unfold Qlt; cbn; lia|]. unfold Qle. cbn. nia. }
  destruct (between_fin (d_div a total) (lo # Z.to_pos (10 ^ 4)) (hi # Z.to_pos (10 ^ 4))) as (x & Fx & X0 & X1).
  - rewrite (d_div_fin _ _ _ _ Ua Ht); [|unfold Qeq; cbn; lia]. rewrite <- (d_rnd_exact lo 4) by lia. by apply d_rnd_mono.
  - rewrite (d_div_fin _ _ _ _ Ua Ht); [|unfold Qeq; cbn; lia]. rewrite <- (d_rnd_exact hi 4) by lia. by apply d_rnd_mono.
  - destruct (between_fin (d_times (d_div a total) (dec_of_Z 100)) (lo # Z.to_pos (10 ^ 2)) (hi # Z.to_pos (10 ^ 2))) as (y & Fy & Y0 & Y1).
    + rewrite (d_times_fin _ _ _ _ Fx (d_of_int 100 ltac:(lia))), <- (d_rnd_exact lo 2) by lia. apply d_rnd_mono.
      apply (Qmult_le_r _ _ (inject_Z 100)) in X0; [|done]. eapply Qle_trans; [|exact X0]. unfold Qle. cbn. lia.
    + rewrite (d_times_fin _ _ _ _ Fx (d_of_int 100 ltac:(lia))), <- (d_rnd_exact hi 2) by lia. apply d_rnd_mono.
      apply (Qmult_le_r _ _ (inject_Z 100)) in X1; [|done]. eapply Qle_trans; [exact X1|]. unfold Qle. cbn. lia.
    + destruct (between_fixed 2 0 _ y lo hi ltac:(lia) ltac:(lia) ltac:(lia) Fy Y0 Y1) as (b & c & Eb & Sc & Hc).
      assert (Hh : forall z, half_up 0 z = z).
      { intros z. unfold half_up. symmetry. apply (Z.div_unique _ _ _ 1); [left|]; rewrite Z.pow_0_r; lia. }
      rewrite !Hh in Hc. eexists _, c. split; [done|]. split; [by exists b|done].
Qed.

(** The copies of the venues that carry the concentration. *)
Definition reviewed (T : Z) (v w : TreasuryVenueSnapshot) : Prop := same_amounts v w /\ exists c, share_of T w c.

Lemma concentrations_spec T total venues :
  units total (100 * T) -> 0 <= T < money_bound -> Forall (fun v => venue_ok v = true) venues ->
  Forall (fun v => current_cents v <= T) venues ->
  exists l, map_exn (with_concentration total) venues = Ret l /\ Forall2 (reviewed T) venues l.
Proof.
  intros Ht HT Hv Hle. induction Hv as [|v venues Hv0 Hv IH]; [by exists []; split; [|constructor]|].
  inversion Hle as [|? ? Hle0 Hle']; subst. destruct (IH Hle') as (l & El & Fl).
  destruct (with_concentration_spec T total v Ht HT Hv0 Hle0) as (t & c & Ec & Hc).
  exists (set_concentration v t :: l). split; [cbn [map_exn]; exn_step Ec; by exn_step El|].
  constructor; [|done]. split; [by exists t|by exists c].
Qed.

Lemma reviewed_same T venues l : Forall2 (reviewed T) venues l ->
  Forall (fun v => venue_ok v = true) venues ->
  Forall (fun v => venue_ok v = true) l /\ map withdrawable_cents l = map withdrawable_cents venues /\
  Forall (fun w => exists c, share_of T w c) l.
Proof.
  induction 1 as [|v w venues l [[c ->] Hs] _ IH]; intros Hv; [done|]. inversion Hv; subst.
  destruct IH as (IH1 & IH2 & IH3); [done|]. split_and!; [by constructor|cbn; by rewrite IH2|by constructor].
Qed.

(** A recommendation [r] of a planned move: the amount is printed in cents,
    rounded half up. *)
Record recommends (type : TreasuryRecommendationType) (reason : TreasuryRecommendationReasonCode) (p : planned)
    (r : TreasuryRecommendation) : Prop := {
  rc_type : tr_actionType r = type;
  rc_venue : tr_venueId r = Some (vs_venueId p.1);
  rc_reason : tr_reasonCode r = reason;
  rc_amount : amount 2 (tr_amountUsd r) (half_up 2 p.2);
}.

Lemma printed d z : units d z -> 0 <= z -> amount 2 (d_toFixedN 2 d) (half_up 2 z).
Proof. intros Hd Hz. destruct (scaled_fixed 2 2 d z) as (b & Hb & Sb); [lia..|exact Hd|]. by exists b. Qed.

Lemma amounts_recommended (f : Move -> TreasuryRecommendation) type reason l plan :
  (forall m p, m.1 = p.1 -> units m.2 p.2 -> 0 <= p.2 -> recommends type reason p (f m)) ->
  amounts l plan -> Forall (fun p : planned => 0 <= p.2) plan -> Forall2 (recommends type reason) plan (map f l).
Proof.
  intros Hf H. induction H as [|m p l plan [H1 H2] _ IH]; intros Hp; [constructor|]. apply Forall_cons in Hp as [Hp Hps].
  cbn. constructor; [by apply Hf|by apply IH].
Qed.

(** What the review of a venue recommends. *)
Definition venue_reviewed (policy : TreasuryPolicy) (T k : Z) (v : TreasuryVenueSnapshot) (rs : list TreasuryRecommendation) : Prop :=
  exists c, share_of T v c /\ Forall2 (fun p r => recommends rt_redeem p.1 p.2 r) (review_plan policy T k c v) rs.

Lemma review_venue_spec policy total T k w :
  maxAllocationPctPerVenue policy = num_of_Z k -> 0 <= k <= 100 -> units total (100 * T) -> 0 <= T < money_bound ->
  venue_ok w = true -> (exists c, share_of T w c) ->
  exists l, review_venue policy total w = Ret l /\ venue_reviewed policy T k w (map snd l).
Proof.
  intros Hk Hkr Ht HT (Hm & _ & _)%venue_ok_inv (c & (dc & Ec & Sc) & Hc). destruct (money_parses _ Hm) as (a & Ea & Ua & Ba).
  fold (current_cents w) in Ua, Ba. unfold review_venue. exn_step Ec. exn_step Ea. cbv zeta. eexists. split; [reflexivity|].
  exists c. split; [split; [by exists dc|done]|]. unfold money_bound in *.
  assert (Uk : scaled 2 (dec_of_num (maxAllocationPctPerVenue policy)) (100 * k)).
  { rewrite Hk. replace (100 * k) with (k * 10 ^ 2) by lia. apply (scaled_finer 0 2); [lia..|]. by apply (d_of_int k ltac:(lia)). }
  assert (Ucap : units (maxVenueAllocation policy total) (T * k))
    by (unfold maxVenueAllocation; rewrite Hk; apply units_pct; [done|lia|nia]).
  set (ex := d_max _). assert (Ux : units ex (Z.max (100 * current_cents w - T * k) 0)).
  { apply units_max; [|by apply units_zero]. apply units_minus; [done|done|nia]. }
  rewrite (units_gt _ _ _ _ Ua units_zero), (units_gt _ _ _ _ Ux units_zero).
  assert (Eg : d_gt dc (dec_of_num (maxAllocationPctPerVenue policy)) = (100 * k <? c)).
  { rewrite d_gt_val, <- d_lt_val. by apply (scaled_lt 2). }
  rewrite Eg, map_app. unfold review_plan.
  replace (0 <? 100 * current_cents w) with (0 <? current_cents w)
    by (destruct (Z.ltb_spec 0 (current_cents w)), (Z.ltb_spec 0 (100 * current_cents w)); lia).
  replace (0 <? Z.max (100 * current_cents w - T * k) 0) with (0 <? 100 * current_cents w - T * k)
    by (destruct (Z.ltb_spec 0 (100 * current_cents w - T * k)), (Z.ltb_spec 0 (Z.max (100 * current_cents w - T * k) 0)); lia).
  apply Forall2_app.
  - destruct (_ && _); cbn; repeat constructor; cbn. by apply printed; [|lia].
  - destruct (Z.ltb_spec 0 (100 * current_cents w - T * k)); [rewrite andb_true_r|by rewrite andb_false_r].
    rewrite Z.max_l in Ux by lia. destruct (_ <? _); cbn; repeat constructor; cbn. by apply printed; [|lia].
Qed.

Lemma reviews_spec policy total T k l :
  maxAllocationPctPerVenue policy = num_of_Z k -> 0 <= k <= 100 -> units total (100 * T) -> 0 <= T < money_bound ->
  Forall (fun v => venue_ok v = true) l -> Forall (fun w => exists c, share_of T w c) l ->
  exists rs, map_exn (review_venue policy total) l = Ret rs /\ Forall2 (venue_reviewed policy T k) l (map (map snd) rs).
Proof.
  intros Hk Hkr Ht HT Hv Hs. induction Hv as [|w l Hw _ IH]; [by exists []; split; [|constructor]|].
  apply Forall_cons in Hs as [Hs0 Hs]. destruct (IH Hs) as (rs & Ers & Frs).
  destruct (review_venue_spec policy total T k w Hk Hkr Ht HT Hw Hs0) as (x & Ex & Fx).
  exists (x :: rs). split; [cbn [map_exn]; exn_step Ex; by exn_step Ers|]. by constructor.
Qed.

Lemma current_le_total input v : input_ok input = true -> v ∈ ti_venueSnapshots input -> current_cents v <= total_cents input.
Proof.
  intros Hok Hv. destruct (input_ok_inv _ Hok) as (Hi & Hvs & _).
  destruct (money_parses _ Hi) as (_ & _ & _ & Hi0 & _). fold (idle_cents input) in Hi0. unfold total_cents.
  apply elem_of_Permutation in Hv as [l Hp]. rewrite Hp in Hvs |- *.
  inversion Hvs as [|? ? _ Hl]; subst. cbn [map]. rewrite zsum_cons. pose proof (current_nonneg l Hl). lia.
Qed.

(** Redeeming covers the shortfall [s] by the plan over the venues that can pay
    out, the most liquid first. *)
Lemma redemptions_spec shortfall s venues :
  Forall (fun v => venue_ok v = true) venues -> units shortfall (Z.max s 0) -> s < 10 ^ 18 ->
  exists l cands, redemptions shortfall venues = Ret l /\ amounts l (return_plan s cands) /\
    cands ≡ₚ List.filter (fun v => 0 <? withdrawable_cents v) venues /\ StronglySorted more_liquid cands.
Proof.
  intros Hv Us Hs. unfold redemptions. rewrite (units_gt _ _ _ _ Us units_zero).
  destruct (redeem_candidates_spec venues Hv) as (l & El & Fl & Pl & Sl). destruct (Z.ltb_spec 0 (Z.max s 0)).
  - exn_step El. eexists _, l.*1. split; [done|]. split_and!; [|done|done].
    rewrite Z.max_l in Us by lia. apply redeem_loop_spec; [done|done|lia].
  - exists [], l.*1. split_and!; [done| |done|done]. rewrite return_plan_none by lia. constructor.
Qed.

Lemma deployments_spec policy b venues x T k :
  Forall (fun v => venue_ok v = true) venues -> money (minimumDeployableUsd policy) = true ->
  0 < cents_of (minimumDeployableUsd policy) -> maxAllocationPctPerVenue policy = num_of_Z k -> 0 <= k <= 100 ->
  units (ba_total b) (100 * T) -> 0 <= T < money_bound -> units (ba_surplus b) (Z.max x 0) -> x < 10 ^ 18 ->
  exists l, deployments policy b venues = Ret l /\
    amounts l (deposit_plan T k (cents_of (minimumDeployableUsd policy)) x (deploy_candidates policy venues)).
Proof.
  intros Hv Hmin HD Hk Hkr Ut HT Ux Hx. destruct (money_parses _ Hmin) as (minD & ED & UD & _).
  unfold deployments. exn_step ED. rewrite (units_gte _ _ _ _ Ux UD).
  destruct (Z.leb_spec (100 * cents_of (minimumDeployableUsd policy)) (Z.max x 0)).
  - rewrite Z.max_l in Ux by lia. apply (deploy_loop_spec policy (ba_total b) minD); try done; [|lia].
    unfold deploy_candidates. rewrite js_sort_perm, Forall_forall. intros v [Hin _]%list_elem_of_In%filter_In.
    rewrite Forall_forall in Hv. apply Hv. by apply list_elem_of_In.
  - exists []. split; [done|]. destruct (deploy_candidates policy venues); cbn [deposit_plan]; [constructor|].
    destruct (Z.ltb_spec x (100 * cents_of (minimumDeployableUsd policy))); [constructor|lia].
Qed.

Lemma payers_sum venues payers r : Forall (fun v => venue_ok v = true) venues ->
  payers ≡ₚ List.filter (fun v => 0 <? withdrawable_cents v) venues ->
  zsum (return_plan r payers).*2 = Z.min (Z.max r 0) (100 * zsum (map withdrawable_cents venues)) /\
  Forall (fun m : planned => 0 < m.2 <= 100 * withdrawable_cents m.1) (return_plan r payers).
Proof.
  intros Hv Hp. destruct (return_plan_sum payers r) as [H1 H2].
  - rewrite Hp, Forall_forall. intros v [_ Hg]%list_elem_of_In%filter_In. lia.
  - split; [|done]. rewrite H1, (zsum_perm _ _ (Permutation_map withdrawable_cents Hp)), map_filter_sum; [done|].
    intros v Hin Hg. rewrite Forall_forall in Hv. destruct (venue_ok_inv _ (Hv v Hin)) as (_ & _ & Hm).
    destruct (money_parses _ Hm) as (_ & _ & _ & Hb & _). fold (withdrawable_cents v) in Hb. lia.
Qed.

Lemma takers_fit policy venues : Forall (fun v => vs_venueId v ∈ eligibleVenues policy /\ vs_healthy v = true) (deploy_candidates policy venues).
Proof.
  unfold deploy_candidates. rewrite js_sort_perm, Forall_forall. intros v [_ H%andb_true_iff]%list_elem_of_In%filter_In.
  unfold is_eligible in H. by rewrite bool_decide_eq_true in H.
Qed.

(** ** Properties *)

(** C34. The treasury evaluation of amounts in cents returns, and recommends
    exactly this.  First what the review of each venue redeems: everything from
    a venue that is not eligible, the excess from one above the concentration
    cap.  Then, when the cash is short of the required reserve, returns from the
    venues that can pay out, the most liquid first, each all it can pay until
    the shortfall is covered: together the shortfall or all that can be paid
    out.  Or else, of a surplus, deposits into the eligible healthy venues by
    yield, each the least of the rest, its room below the cap and its capacity,
    none below the minimum action: together they leave the required reserve in
    cash.  Never both.  Each amount is printed in cents rounded half up, so a
    printed deposit can pass the cap, the capacity or the surplus by half a
    cent (Example [deposit_rounds_above_cap]). *)
Theorem treasury_keeps_reserve (input : TreasuryEvaluationInput) (f k : Z)
    (Hok : input_ok input = true)
    (Hf : reserveFloorPct (ti_policy input) = num_of_Z f) (Hfr : 0 <= f <= 100)
    (Hk : maxAllocationPctPerVenue (ti_policy input) = num_of_Z k) (Hkr : 0 <= k <= 100) :
  let policy := ti_policy input in
  let idle := 100 * idle_cents input in
  let required := required_units input f in
  let T := total_cents input in
  let D := cents_of (minimumDeployableUsd policy) in
  exists ev reviews returns deposits payers takers,
    evaluate input = Ret ev /\ Forall2 (reviewed T) (ti_venueSnapshots input) (te_venueSnapshots ev) /\
    te_recommendations ev = concat reviews ++ returns ++ deposits /\
    Forall2 (venue_reviewed policy T k) (te_venueSnapshots ev) reviews /\
    payers ≡ₚ List.filter (fun v => 0 <? withdrawable_cents v) (te_venueSnapshots ev) /\ StronglySorted more_liquid payers /\
    Forall2 (recommends rt_redeem reserve_shortfall) (return_plan (required - idle) payers) returns /\
    zsum (return_plan (required - idle) payers).*2 =
      Z.min (Z.max (required - idle) 0) (100 * zsum (map withdrawable_cents (ti_venueSnapshots input))) /\
    takers = js_sort higher_yield (List.filter (fun v => bool_decide (vs_venueId v ∈ eligibleVenues policy) && vs_healthy v) (te_venueSnapshots ev)) /\
    Forall2 (recommends rt_deposit surplus_deployable) (deposit_plan T k D (idle - required) takers) deposits /\
    Forall (deposit_fits policy T k D) (deposit_plan T k D (idle - required) takers) /\
    (deposits <> [] -> required <= idle - zsum (deposit_plan T k D (idle - required) takers).*2) /\
    (returns = [] \/ deposits = []).
Proof.
  cbn zeta. destruct (input_ok_inv _ Hok) as (Hi & Hv & Hr & Hmin & HD & HT).
  destruct (balances_spec input f Hok Hf Hfr) as (b & Eb & Ui & Ut & Uq & Us & Ux).
  destruct (money_parses _ Hi) as (_ & _ & _ & Hi0). destruct (money_parses _ Hr) as (_ & _ & _ & Hr0).
  fold (idle_cents input) in Hi0. pose proof (current_nonneg _ Hv).
  assert (HT0 : 0 <= total_cents input) by (unfold total_cents; lia).
  assert (Hq : 0 <= required_units input f < 10 ^ 18) by (unfold required_units, money_bound in *; nia).
  destruct (concentrations_spec (total_cents input) (ba_total b) (ti_venueSnapshots input)) as (vs & Evs & Fvs);
    [done|done|done|rewrite Forall_forall; intros v Hin; by apply current_le_total|].
  destruct (reviewed_same _ _ _ Fvs Hv) as (Hvs & Hw & Hsh).
  destruct (reviews_spec (ti_policy input) (ba_total b) (total_cents input) k vs Hk Hkr Ut (conj HT0 HT) Hvs Hsh) as (rs & Ers & Frs).
  destruct (redemptions_spec _ _ vs Hvs Us) as (redeems & payers & Er & Ar & Pp & Sp); [lia|].
  destruct (deployments_spec (ti_policy input) b vs _ _ k Hvs Hmin HD Hk Hkr Ut (conj HT0 HT) Ux) as (deploys & Ed & Ad);
    [unfold money_bound in *; lia|].
  destruct (payers_sum vs payers (required_units input f - 100 * idle_cents input) Hvs Pp) as [Sr Fr]. rewrite Hw in Sr.
  destruct (deposit_plan_fits (ti_policy input) (total_cents input) k _ (deploy_candidates (ti_policy input) vs) HD
    (takers_fit _ _) (100 * idle_cents input - required_units input f)) as (Fd & Sd & _).
  unfold evaluate. exn_step Eb. exn_step Evs. exn_step Ers. exn_step Er. exn_step Ed.
  eexists _, (map (map snd) rs), (map redeem_recommendation redeems), (map deploy_recommendation deploys), payers,
    (deploy_candidates (ti_policy input) vs).
  cbn [te_recommendations te_venueSnapshots]. rewrite concat_map.
  split_and!; try done.
  - apply (amounts_recommended _ _ _ redeems); [|done|eapply Forall_impl; [exact Fr|]; cbn beta; lia].
    intros [v d] p H1 H2 H3. cbn in *. subst v. constructor; try done. by apply printed.
  - apply (amounts_recommended _ _ _ deploys); [|done|eapply Forall_impl; [exact Fd|]; intros p (_ & ? & _); lia].
    intros [v d] p H1 H2 H3. cbn in *. subst v. constructor; try done. by apply printed.
  - intros Hne. destruct (Z.le_gt_cases (100 * idle_cents input) (required_units input f)) as [Hle|Hgt]; [|lia].
    rewrite deposit_plan_none in Ad by lia. inversion Ad; subst. done.
  - destruct (Z.le_gt_cases (required_units input f) (100 * idle_cents input)).
    + left. rewrite return_plan_none in Ar by lia. by inversion Ar.
    + right. rewrite deposit_plan_none in Ad by lia. by inversion Ad.
Qed.
End Proofs.

(** ** Concrete inputs *)

Definition sample_venue (id : string) (tier : TreasuryLiquidityTier) (apr : Z) (capacity current withdrawable : string)
    : TreasuryVenueSnapshot := {|
  vs_venueId := id; vs_venueName := id; vs_mode := vm_simulated; vs_liquidityTier := tier; vs_healthy := true;
  vs_aprBps := num_of_Z apr; vs_availableCapacityUsd := capacity; vs_currentAllocationUsd := current;
  vs_withdrawalAvailableUsd := withdrawable; vs_concentrationPct := "0"; vs_updatedAt := "t"; vs_metadata := [] |}.

Definition sample_treasury_input (idle current1 : string) : TreasuryEvaluationInput := {|
  ti_totalNavUsd := "100000"; ti_idleCapitalUsd := idle;
  ti_venueSnapshots := [sample_venue "atlas-t1-sim" same_day 450 "50000" "20000" "20000";
                        sample_venue "atlas-t0-sim" instant 300 "50000" current1 "3000"];
  ti_policy := DEFAULT_TREASURY_POLICY |}.

Definition moves_of (m : exn TreasuryEvaluation) : list (TreasuryRecommendationReasonCode * option string * string) :=
  match m with
  | Ret ev => map (fun r => (tr_reasonCode r, tr_venueId r, tr_amountUsd r)) (te_recommendations ev)
  | Throw _ => []
  end.

(** A surplus is deployed by yield; a shortfall is covered by liquidity. *)
Example treasury_moves :
  moves_of (evaluate (sample_treasury_input "60000" "20000")) =
    [(surplus_deployable, Some "atlas-t1-sim", "30000.00");
     (surplus_deployable, Some "atlas-t0-sim", "20000.00")] /\
  moves_of (evaluate (sample_treasury_input "5000" "20000")) =
    [(reserve_shortfall, Some "atlas-t0-sim", "3000.00"); (reserve_shortfall, Some "atlas-t1-sim", "2000.00")].
Proof. vm_compute. done. Qed.

(** An ineligible venue above the cap is redeemed in full and by its excess:
    together more than it holds. *)
Example ineligible_redeemed_twice :
  moves_of (evaluate (MkTreasuryInput "100000" "30000"
    [sample_venue "closed" delayed 100 "0" "70000" "0"] DEFAULT_TREASURY_POLICY)) =
  [(rr_venue_ineligible, Some "closed", "70000.00"); (venue_concentration, Some "closed", "20000.00")].
Proof. vm_compute. done. Qed.

(** Cent rounding: half of 100005.01 is 50002.505, the recommended deposit
    50002.51 exceeds it. *)
Example deposit_rounds_above_cap :
  moves_of (evaluate (MkTreasuryInput "100005.01" "100005.01"
    [sample_venue "atlas-t0-sim" instant 100 "90000" "0" "0"] DEFAULT_TREASURY_POLICY)) =
  [(surplus_deployable, Some "atlas-t0-sim", "50002.51")].
Proof. vm_compute. done. Qed.

Lemma treasury_keeps_reserve_witness :
  let input := sample_treasury_input "60000" "20000" in
  exists ev reviews returns deposits payers takers,
    evaluate input = Ret ev /\ te_recommendations ev = concat reviews ++ returns ++ deposits /\
    Forall2 (recommends rt_redeem reserve_shortfall) (return_plan (-500000000) payers) returns /\
    zsum (return_plan (-500000000) payers).*2 = 0 /\
    Forall2 (recommends rt_deposit surplus_deployable) (deposit_plan 10000000 50 250000 500000000 takers) deposits /\
    Forall (deposit_fits DEFAULT_TREASURY_POLICY 10000000 50 250000) (deposit_plan 10000000 50 250000 500000000 takers) /\
    (deposits <> [] -> 100000000 <= 600000000 - zsum (deposit_plan 10000000 50 250000 500000000 takers).*2).
Proof.
  destruct (treasury_keeps_reserve (sample_treasury_input "60000" "20000") 10 50)
    as (ev & reviews & returns & deposits & payers & takers & H1 & _ & H2 & _ & _ & _ & H3 & H4 & _ & H5 & H6 & H7 & _);
    [vm_compute; reflexivity|reflexivity|lia|reflexivity|lia|].
  exists ev, reviews, returns, deposits, payers, takers. split_and!; [exact H1|exact H2|exact H3| |exact H5|exact H6|exact H7].
  rewrite return_plan_none by lia. reflexivity.
Defined.
