(* ===== verification/TreasuryPlanner.v ===== *)
(** * The treasury execution planner (packages/treasury/src/execution-planner.ts)

    [TreasuryExecutionPlanner] turns every recommendation of the treasury
    policy into an execution intent, which is executable when no guard blocks
    it.  A guard is a definition that yields its blocked reason; they run in
    the order of the source. *)
From S2P Require Import Prelude JsNumber JsValue DecimalLib DecimalExact Money TreasuryPolicy.
Open Scope Z_scope.

(** ** types.ts *)

Inductive TreasuryActionType := allocate_to_venue | reduce_venue_allocation | rebalance_treasury_budget.
Inductive TreasuryExecutionMode := tm_dry_run | tm_live.
#[export] Instance TreasuryExecutionMode_eq_dec : EqDecision TreasuryExecutionMode.
Proof. solve_decision. Defined.
Definition execution_mode_str (m : TreasuryExecutionMode) : string :=
  match m with tm_dry_run => "dry-run" | tm_live => "live" end.
Inductive TreasuryApprovalRequirement := ta_operator | ta_admin.

Inductive TreasuryActionBlockedReasonCode :=
| below_minimum_action_size | insufficient_idle_capital | live_execution_disabled
| minimum_remaining_liquidity_breach | reserve_floor_breach | venue_capacity_exceeded
| venue_concentration_breach | venue_execution_unsupported | venue_live_unapproved | venue_live_ineligible
| venue_ineligible | venue_not_found | venue_unhealthy | withdrawal_capacity_exceeded.
#[export] Instance TreasuryActionBlockedReasonCode_eq_dec : EqDecision TreasuryActionBlockedReasonCode.
Proof. solve_decision. Defined.

Inductive TreasuryBlockedReasonCategory :=
| ct_action_size | ct_liquidity | ct_reserve | ct_concentration | ct_venue_eligibility | ct_venue_health
| ct_venue_capability | ct_capacity | ct_execution_mode.
Inductive TreasuryActionReadiness := tr_actionable | tr_blocked.

Inductive PromotionStatus := pm_not_requested | pm_pending_review | pm_approved | pm_rejected | pm_suspended.
Definition promotion_str (s : PromotionStatus) : string :=
  match s with
  | pm_not_requested => "not_requested" | pm_pending_review => "pending_review" | pm_approved => "approved"
  | pm_rejected => "rejected" | pm_suspended => "suspended"
  end.
Inductive OnboardingState := ob_simulated | ob_read_only | ob_ready_for_review | ob_approved_for_live.

Record TreasuryVenueCapabilities := MkCapabilities {
  vc_venueId : string;
  vc_venueMode : TreasuryVenueMode;
  vc_supportsAllocation : bool;
  vc_supportsReduction : bool;
  vc_executionSupported : bool;
  vc_readOnly : bool;
  vc_approvedForLiveUse : bool;
  vc_sensitiveExecutionEligible : bool;
  vc_promotionStatus : PromotionStatus;
  vc_promotionBlockedReasons : list string;
  vc_onboardingState : OnboardingState;
  vc_missingPrerequisites : list string;
  vc_healthy : bool;
  vc_metadata : record_;
}.

Record TreasuryActionBlockedReason := MkActionBlocked {
  ab_code : TreasuryActionBlockedReasonCode;
  ab_category : TreasuryBlockedReasonCategory;
  ab_message : string;
  ab_operatorAction : string;
  ab_details : record_;
}.

Record TreasuryExecutionEffects := MkEffects {
  fx_totalCapitalUsd : string;
  fx_idleCapitalUsd : string;
  fx_allocatedCapitalUsd : string;
  fx_requiredReserveUsd : string;
  fx_minimumRemainingIdleUsd : string;
  fx_reserveShortfallUsd : string;
  fx_targetVenueAllocationUsd : option string;
  fx_targetVenueConcentrationPct : option string;
}.

(** [TreasuryVenueMode | 'reserve']. *)
Inductive IntentVenueMode := im_venue (m : TreasuryVenueMode) | im_reserve.
#[export] Instance IntentVenueMode_eq_dec : EqDecision IntentVenueMode.
Proof. solve_decision. Defined.

Record TreasuryExecutionIntent := MkExecutionIntent {
  ti_actionType : TreasuryActionType;
  ti_recommendationType : TreasuryRecommendationType;
  ti_venueId : option string;
  ti_venueName : option string;
  ti_venueMode : IntentVenueMode;
  ti_amountUsd : string;
  ti_reasonCode : TreasuryRecommendationReasonCode;
  ti_summary : string;
  ti_details : record_;
  ti_readiness : TreasuryActionReadiness;
  ti_blockedReasons : list TreasuryActionBlockedReason;
  ti_executable : bool;
  ti_approvalRequirement : TreasuryApprovalRequirement;
  ti_executionMode : TreasuryExecutionMode;
  ti_simulated : bool;
  ti_effects : TreasuryExecutionEffects;
}.

Record TreasuryExecutionPlanningInput := MkPlanningInput {
  pn_evaluation : TreasuryEvaluation;
  pn_policy : TreasuryPolicy;
  pn_executionMode : TreasuryExecutionMode;
  pn_liveExecutionEnabled : bool;
  pn_venueCapabilities : list TreasuryVenueCapabilities;
}.

(** ** execution-planner.ts *)

Definition buildBlockedReason (code : TreasuryActionBlockedReasonCode) (message : string)
    (category : TreasuryBlockedReasonCategory) (operatorAction : string) (details : record_)
    : TreasuryActionBlockedReason := MkActionBlocked code category message operatorAction details.

Definition mapActionType (r : TreasuryRecommendation) : TreasuryActionType :=
  match tr_actionType r with rt_deposit => allocate_to_venue | rt_redeem => reduce_venue_allocation end.

Definition mapApprovalRequirement (m : IntentVenueMode) : TreasuryApprovalRequirement :=
  if bool_decide (m = im_venue vm_live) then ta_admin else ta_operator.

Definition findVenueSnapshot (ev : TreasuryEvaluation) (venueId : option string) : option TreasuryVenueSnapshot :=
  id ← venueId; List.find (fun v => bool_decide (vs_venueId v = id)) (te_venueSnapshots ev).

Definition findVenueCapabilities (l : list TreasuryVenueCapabilities) (venueId : option string)
    : option TreasuryVenueCapabilities :=
  id ← venueId; List.find (fun c => bool_decide (vc_venueId c = id)) l.

Definition is_deposit (r : TreasuryRecommendation) : bool := bool_decide (tr_actionType r = rt_deposit).

Definition support_reason (r : TreasuryRecommendation) (id : string) (c : option TreasuryVenueCapabilities)
    : list TreasuryActionBlockedReason :=
  let unsupported := [buildBlockedReason venue_execution_unsupported
    ("Venue " +:+ id +:+ " does not support treasury execution yet.") ct_venue_capability
    "Keep the venue in simulated or read-only mode until execution support is implemented and approved."
    [("venueId", JStr id)]] in
  match c with
  | None => unsupported
  | Some c =>
      if negb (vc_executionSupported c) then unsupported
      else
        let name := if is_deposit r then "deposit" else "redeem" in
        push_if ((is_deposit r && negb (vc_supportsAllocation c)) || (negb (is_deposit r) && negb (vc_supportsReduction c)))
          (buildBlockedReason venue_execution_unsupported
             ("Venue " +:+ id +:+ " does not support " +:+ name +:+ " execution.") ct_venue_capability
             "Use a venue that supports this treasury action type or limit the venue to read-only operation."
             [("venueId", JStr id); ("actionType", JStr name)])
  end.

Definition live_reasons (input : TreasuryExecutionPlanningInput) (id : string) (c : option TreasuryVenueCapabilities)
    : list TreasuryActionBlockedReason :=
  match c with
  | None => []
  | Some c =>
      let live := bool_decide (vc_venueMode c = vm_live) in
      push_if (live && negb (vc_approvedForLiveUse c))
        (buildBlockedReason venue_live_unapproved
           ("Venue " +:+ id +:+ " is not approved for live treasury execution.") ct_venue_capability
           "Complete connector promotion review before using this venue in sensitive treasury execution."
           [("venueId", JStr id); ("promotionStatus", JStr (promotion_str (vc_promotionStatus c)))]) ++
      push_if (live && vc_approvedForLiveUse c && negb (vc_sensitiveExecutionEligible c))
        (buildBlockedReason venue_live_ineligible
           ("Venue " +:+ id +:+ " is approved for live use but currently blocked by connector readiness evidence.")
           ct_venue_capability
           "Restore connector truth freshness and health, then re-run treasury evaluation before executing."
           [("venueId", JStr id); ("promotionStatus", JStr (promotion_str (vc_promotionStatus c)));
            ("blockers", JArr (map JStr (vc_promotionBlockedReasons c)))]) ++
      push_if (live && (negb (bool_decide (pn_executionMode input = tm_live)) || negb (pn_liveExecutionEnabled input)))
        (buildBlockedReason live_execution_disabled
           "Live treasury execution is disabled for this runtime." ct_execution_mode
           "Keep this action in dry-run or enable live mode only after connector approval and operator signoff."
           [("executionMode", JStr (execution_mode_str (pn_executionMode input)));
            ("liveExecutionEnabled", JBool (pn_liveExecutionEnabled input))])
  end.

Definition capability_reasons (input : TreasuryExecutionPlanningInput) (r : TreasuryRecommendation)
    (c : option TreasuryVenueCapabilities) : list TreasuryActionBlockedReason :=
  match tr_venueId r with
  | None => []
  | Some id => support_reason r id c ++ live_reasons input id c
  end.

Definition not_found_reason (r : TreasuryRecommendation) (snapshot : option TreasuryVenueSnapshot)
    : list TreasuryActionBlockedReason :=
  match tr_venueId r, snapshot with
  | Some id, None =>
      [buildBlockedReason venue_not_found
         ("Venue " +:+ id +:+ " was not present in the latest treasury snapshot.") ct_venue_capability
         "Refresh treasury evaluation and confirm the venue adapter is registered and reporting snapshots."
         [("venueId", JStr id)]]
  | _, _ => []
  end.

Definition venue_reasons (policy : TreasuryPolicy) (v : TreasuryVenueSnapshot) : list TreasuryActionBlockedReason :=
  push_if (negb (is_eligible policy v))
    (buildBlockedReason venue_ineligible
       ("Venue " +:+ vs_venueName v +:+ " is not on the treasury eligibility list.") ct_venue_eligibility
       "Use an eligible venue or update treasury policy only after formal approval."
       [("venueId", JStr (vs_venueId v))]) ++
  push_if (negb (vs_healthy v))
    (buildBlockedReason venue_unhealthy
       ("Venue " +:+ vs_venueName v +:+ " is unhealthy and cannot receive new capital.") ct_venue_health
       "Wait for venue health to recover before approving or executing this action."
       [("venueId", JStr (vs_venueId v))]).

Section Planner.
Context `{DL : DecimalLib}.

(** The parsed amounts and the position after the action. *)
Record Position := MkPosition {
  ps_amount : dec; ps_idle : dec; ps_total : dec; ps_required : dec; ps_minRemaining : dec;
  ps_postIdle : dec; ps_postAllocated : dec;
  ps_targetAllocation : option dec; ps_targetConcentration : option dec }.

Definition position (r : TreasuryRecommendation) (input : TreasuryExecutionPlanningInput)
    (snapshot : option TreasuryVenueSnapshot) : exn Position :=
  let status := te_reserveStatus (pn_evaluation input) in
  amount ← dec_of_string (tr_amountUsd r);
  idle ← dec_of_string (rv_idleCapitalUsd status);
  allocated ← dec_of_string (rv_allocatedCapitalUsd status);
  total ← dec_of_string (rv_totalCapitalUsd status);
  required ← dec_of_string (rv_requiredReserveUsd status);
  minRemaining ← dec_of_string (minimumRemainingIdleUsd (pn_policy input));
  current ← dec_of_string (match snapshot with Some v => vs_currentAllocationUsd v | None => "0" end);
  let target := match snapshot with
    | None => None
    | Some _ => Some (if is_deposit r then d_plus current amount else d_max [d_minus current amount; dec_of_Z 0])
    end in
  Ret {| ps_amount := amount; ps_idle := idle; ps_total := total; ps_required := required;
         ps_minRemaining := minRemaining;
         ps_postIdle := if is_deposit r then d_minus idle amount else d_plus idle amount;
         ps_postAllocated := if is_deposit r then d_plus allocated amount
                             else d_max [d_minus allocated amount; dec_of_Z 0];
         ps_targetAllocation := target;
         ps_targetConcentration := match target with
           | Some t => if d_lte total (dec_of_Z 0) then None else Some (d_times (d_div t total) (dec_of_Z 100))
           | None => None
           end |}.

Definition size_reason (p : Position) (policy : TreasuryPolicy) : exn (list TreasuryActionBlockedReason) :=
  min ← dec_of_string (minimumDeployableUsd policy);
  Ret (push_if (d_lt (ps_amount p) min)
    (buildBlockedReason below_minimum_action_size
       ("Action amount " +:+ d_toFixedN 2 (ps_amount p) +:+ " USD is below the minimum action size.") ct_action_size
       "Increase the action size or wait for treasury conditions that produce a larger move."
       [("amountUsd", JStr (d_toFixedN 2 (ps_amount p)));
        ("minimumDeployableUsd", JStr (minimumDeployableUsd policy))])).

Definition liquidity_reasons (p : Position) : list TreasuryActionBlockedReason :=
  push_if (d_lt (ps_postIdle p) (ps_required p))
    (buildBlockedReason reserve_floor_breach
       "Action would breach the hard treasury reserve floor." ct_reserve
       "Reduce the allocation amount or redeem funds to restore reserve headroom first."
       [("postIdleCapitalUsd", JStr (d_toFixedN 2 (ps_postIdle p)));
        ("requiredReserveUsd", JStr (d_toFixedN 2 (ps_required p)))]) ++
  push_if (d_lt (ps_postIdle p) (ps_minRemaining p))
    (buildBlockedReason minimum_remaining_liquidity_breach
       "Action would leave treasury below the minimum remaining idle balance." ct_liquidity
       "Preserve more idle cash before executing this action."
       [("postIdleCapitalUsd", JStr (d_toFixedN 2 (ps_postIdle p)));
        ("minimumRemainingIdleUsd", JStr (d_toFixedN 2 (ps_minRemaining p)))]) ++
  push_if (d_gt (ps_amount p) (ps_idle p))
    (buildBlockedReason insufficient_idle_capital
       "Action exceeds currently available idle capital." ct_liquidity
       "Reduce the action amount or wait for more idle capital to become available."
       [("amountUsd", JStr (d_toFixedN 2 (ps_amount p))); ("idleCapitalUsd", JStr (d_toFixedN 2 (ps_idle p)))]).

Definition capacity_reason (p : Position) (v : TreasuryVenueSnapshot) : exn (list TreasuryActionBlockedReason) :=
  capacity ← dec_of_string (vs_availableCapacityUsd v);
  Ret (push_if (d_gt (ps_amount p) capacity)
    (buildBlockedReason venue_capacity_exceeded
       ("Action exceeds available capacity at " +:+ vs_venueName v +:+ ".") ct_capacity
       "Reduce the action amount or choose a venue with more remaining capacity."
       [("amountUsd", JStr (d_toFixedN 2 (ps_amount p)));
        ("availableCapacityUsd", JStr (vs_availableCapacityUsd v))])).

Definition concentration_reason (p : Position) (policy : TreasuryPolicy) : list TreasuryActionBlockedReason :=
  match ps_targetConcentration p with
  | None => []
  | Some c =>
      push_if (d_gt c (dec_of_num (maxAllocationPctPerVenue policy)))
        (buildBlockedReason venue_concentration_breach
           "Action would breach the venue concentration limit." ct_concentration
           "Reduce the action amount or rebalance capital across more venues first."
           [("targetVenueConcentrationPct", JStr (d_toFixedN 2 c));
            ("maxAllocationPctPerVenue", JNum (maxAllocationPctPerVenue policy))])
  end.

Definition withdrawal_reason (p : Position) (v : TreasuryVenueSnapshot) : exn (list TreasuryActionBlockedReason) :=
  withdrawable ← dec_of_string (vs_withdrawalAvailableUsd v);
  Ret (push_if (d_gt (ps_amount p) withdrawable)
    (buildBlockedReason withdrawal_capacity_exceeded
       ("Action exceeds withdrawal capacity at " +:+ vs_venueName v +:+ ".") ct_capacity
       "Lower the reduction amount or wait until more capital becomes withdrawable."
       [("amountUsd", JStr (d_toFixedN 2 (ps_amount p)));
        ("withdrawalAvailableUsd", JStr (vs_withdrawalAvailableUsd v))])).

(** [if (snapshot !== null) guard]. *)
Definition on_venue (snapshot : option TreasuryVenueSnapshot)
    (guard : TreasuryVenueSnapshot -> exn (list TreasuryActionBlockedReason)) : exn (list TreasuryActionBlockedReason) :=
  match snapshot with Some v => guard v | None => Ret [] end.

(** The guards that depend on the direction of the action. *)
Definition action_reasons (r : TreasuryRecommendation) (policy : TreasuryPolicy) (p : Position)
    (snapshot : option TreasuryVenueSnapshot) : exn (list TreasuryActionBlockedReason) :=
  if is_deposit r then
    capacity ← on_venue snapshot (capacity_reason p);
    Ret (match snapshot with Some v => venue_reasons policy v | None => [] end
         ++ liquidity_reasons p ++ capacity ++ concentration_reason p policy)
  else on_venue snapshot (withdrawal_reason p).

Definition blocked_reasons (r : TreasuryRecommendation) (input : TreasuryExecutionPlanningInput) (p : Position)
    (snapshot : option TreasuryVenueSnapshot) (c : option TreasuryVenueCapabilities)
    : exn (list TreasuryActionBlockedReason) :=
  size ← size_reason p (pn_policy input);
  action ← action_reasons r (pn_policy input) p snapshot;
  Ret (size ++ not_found_reason r snapshot ++ action ++ capability_reasons input r c).

Definition intent_venue_mode (r : TreasuryRecommendation) (snapshot : option TreasuryVenueSnapshot)
    (c : option TreasuryVenueCapabilities) : IntentVenueMode :=
  match tr_venueId r with
  | None => im_reserve
  | Some _ =>
      im_venue (match snapshot, c with
                | Some v, _ => vs_mode v
                | None, Some c => vc_venueMode c
                | None, None => vm_simulated
                end)
  end.

Definition position_effects (p : Position) : TreasuryExecutionEffects := {|
  fx_totalCapitalUsd := d_toFixedN 2 (ps_total p); fx_idleCapitalUsd := d_toFixedN 2 (ps_postIdle p);
  fx_allocatedCapitalUsd := d_toFixedN 2 (ps_postAllocated p); fx_requiredReserveUsd := d_toFixedN 2 (ps_required p);
  fx_minimumRemainingIdleUsd := d_toFixedN 2 (ps_minRemaining p);
  fx_reserveShortfallUsd := d_toFixedN 2 (d_max [d_minus (ps_required p) (ps_postIdle p); dec_of_Z 0]);
  fx_targetVenueAllocationUsd := d_toFixedN 2 <$> ps_targetAllocation p;
  fx_targetVenueConcentrationPct := d_toFixedN 2 <$> ps_targetConcentration p |}.

Definition createIntentForRecommendation (input : TreasuryExecutionPlanningInput) (r : TreasuryRecommendation)
    : exn TreasuryExecutionIntent :=
  let snapshot := findVenueSnapshot (pn_evaluation input) (tr_venueId r) in
  let c := findVenueCapabilities (pn_venueCapabilities input) (tr_venueId r) in
  p ← position r input snapshot;
  reasons ← blocked_reasons r input p snapshot c;
  let mode := intent_venue_mode r snapshot c in
  Ret {| ti_actionType := mapActionType r; ti_recommendationType := tr_actionType r; ti_venueId := tr_venueId r;
         ti_venueName := vs_venueName <$> snapshot; ti_venueMode := mode;
         ti_amountUsd := d_toFixedN 2 (ps_amount p); ti_reasonCode := tr_reasonCode r; ti_summary := tr_summary r;
         ti_details := tr_details r;
         ti_readiness := if is_empty reasons then tr_actionable else tr_blocked;
         ti_blockedReasons := reasons; ti_executable := is_empty reasons;
         ti_approvalRequirement := mapApprovalRequirement mode; ti_executionMode := pn_executionMode input;
         ti_simulated := negb (bool_decide (mode = im_venue vm_live));
         ti_effects := position_effects p |}.

Definition createExecutionIntents (input : TreasuryExecutionPlanningInput) : exn (list TreasuryExecutionIntent) :=
  map_exn (createIntentForRecommendation input) (te_recommendations (pn_evaluation input)).
End Planner.

(** ** When an intent is executable *)

Section Permission.
Variables (input : TreasuryExecutionPlanningInput) (r : TreasuryRecommendation).
Let status := te_reserveStatus (pn_evaluation input).
Let policy := pn_policy input.
Let amount := cents_of (tr_amountUsd r).
Let idle := cents_of (rv_idleCapitalUsd status).
Let total := cents_of (rv_totalCapitalUsd status).

(** The amounts the planner reads are whole cents. *)
Definition status_ok : bool :=
  money (rv_idleCapitalUsd status) && money (rv_allocatedCapitalUsd status) && money (rv_totalCapitalUsd status)
  && money (rv_requiredReserveUsd status) && money (minimumRemainingIdleUsd policy)
  && money (minimumDeployableUsd policy) && forallb venue_ok (te_venueSnapshots (pn_evaluation input)).

(** A deposit keeps the reserve and the minimum idle balance; its venue is
    eligible and healthy and has room for it under the cap of [k] percent. *)
Definition deposit_permitted (k : Z) (snapshot : option TreasuryVenueSnapshot) : Prop :=
  cents_of (rv_requiredReserveUsd status) <= idle - amount /\
  cents_of (minimumRemainingIdleUsd policy) <= idle - amount /\
  (forall v, snapshot = Some v ->
     is_eligible policy v = true /\ vs_healthy v = true /\ amount <= capacity_cents v /\
     (0 < total -> 100 * (current_cents v + amount) <= k * total)).

Definition redeem_permitted (snapshot : option TreasuryVenueSnapshot) : Prop :=
  forall v, snapshot = Some v -> amount <= withdrawable_cents v.

(** The venue supports the action and, if live, is cleared for live execution. *)
Definition venue_capable (c : TreasuryVenueCapabilities) : Prop :=
  vc_executionSupported c = true /\
  (if is_deposit r then vc_supportsAllocation c = true else vc_supportsReduction c = true) /\
  (vc_venueMode c = vm_live ->
     vc_approvedForLiveUse c = true /\ vc_sensitiveExecutionEligible c = true /\
     pn_executionMode input = tm_live /\ pn_liveExecutionEnabled input = true).

Definition action_permitted (k : Z) : Prop :=
  let snapshot := findVenueSnapshot (pn_evaluation input) (tr_venueId r) in
  let capabilities := findVenueCapabilities (pn_venueCapabilities input) (tr_venueId r) in
  cents_of (minimumDeployableUsd policy) <= amount /\
  (tr_venueId r <> None ->
     snapshot <> None /\ exists c, capabilities = Some c /\ venue_capable c) /\
  (if is_deposit r then deposit_permitted k snapshot else redeem_permitted snapshot).
End Permission.

Section Proofs.
Context `{DL : DecimalLib} `{LW : !DecimalLaws}.

Lemma capability_reasons_empty input r c :
  is_empty (capability_reasons input r c) = true <->
  (tr_venueId r <> None -> exists c', c = Some c' /\ venue_capable input r c').
Proof.
  unfold capability_reasons. destruct (tr_venueId r) as [id|]; [|by split; intros].
  rewrite is_empty_app, andb_true_iff. destruct c as [c|]; cbn [support_reason live_reasons].
  2: { split; [by intros []|]. intros H. by destruct H as (? & ? & _). }
  split.
  - intros [Hs Hl] _. exists c. split; [done|]. unfold venue_capable.
    destruct (vc_executionSupported c); [|done]. cbn [negb] in Hs. autorewrite with pushes in Hs, Hl.
    rewrite !andb_true_iff in Hl. destruct Hl as (L1 & L2 & L3).
    destruct (is_deposit r), (vc_supportsAllocation c), (vc_supportsReduction c), (vc_venueMode c),
      (vc_approvedForLiveUse c), (vc_sensitiveExecutionEligible c), (pn_executionMode input),
      (pn_liveExecutionEnabled input); done.
  - intros H. destruct H as (? & [= <-] & Hs & Ha & Hl); [done|]. rewrite Hs. cbn [negb]. autorewrite with pushes.
    split; [destruct (is_deposit r); by rewrite Ha|].
    destruct (vc_venueMode c); [done|]. by destruct (Hl eq_refl) as (-> & -> & -> & ->).
Qed.

Lemma not_found_empty r s : is_empty (not_found_reason r s) = true <-> (tr_venueId r <> None -> s <> None).
Proof. unfold not_found_reason. destruct (tr_venueId r), s; cbn; naive_solver. Qed.

Lemma venue_reasons_empty policy v :
  is_empty (venue_reasons policy v) = true <-> is_eligible policy v = true /\ vs_healthy v = true.
Proof.
  unfold venue_reasons. autorewrite with pushes. rewrite andb_true_iff, !negb_involutive. done.
Qed.

(** The position in integers. *)
Definition position_units (input : TreasuryExecutionPlanningInput) (r : TreasuryRecommendation)
    (snapshot : option TreasuryVenueSnapshot) (p : Position) : Prop :=
  let status := te_reserveStatus (pn_evaluation input) in
  let amount := cents_of (tr_amountUsd r) in
  let idle := cents_of (rv_idleCapitalUsd status) in
  let total := cents_of (rv_totalCapitalUsd status) in
  units (ps_amount p) (100 * amount) /\ units (ps_idle p) (100 * idle) /\ units (ps_total p) (100 * total) /\
  units (ps_required p) (100 * cents_of (rv_requiredReserveUsd status)) /\
  units (ps_minRemaining p) (100 * cents_of (minimumRemainingIdleUsd (pn_policy input))) /\
  units (ps_postIdle p) (100 * (if is_deposit r then idle - amount else idle + amount)) /\
  (forall k, 0 <= k <= 100 -> is_deposit r = true ->
     maxAllocationPctPerVenue (pn_policy input) = num_of_Z k ->
     is_empty (concentration_reason p (pn_policy input)) = true <->
     forall v, snapshot = Some v -> 0 < total -> 100 * (current_cents v + amount) <= k * total).

Lemma status_ok_inv input : status_ok input = true ->
  let status := te_reserveStatus (pn_evaluation input) in
  money (rv_idleCapitalUsd status) = true /\ money (rv_allocatedCapitalUsd status) = true /\
  money (rv_totalCapitalUsd status) = true /\ money (rv_requiredReserveUsd status) = true /\
  money (minimumRemainingIdleUsd (pn_policy input)) = true /\
  money (minimumDeployableUsd (pn_policy input)) = true /\
  forallb venue_ok (te_venueSnapshots (pn_evaluation input)) = true.
Proof. unfold status_ok. rewrite !andb_true_iff. tauto. Qed.

Lemma find_snapshot_ok input id v : forallb venue_ok (te_venueSnapshots (pn_evaluation input)) = true ->
  findVenueSnapshot (pn_evaluation input) id = Some v -> venue_ok v = true.
Proof.
  unfold findVenueSnapshot. intros Hf H. destruct id as [id|]; [|done]. cbn in H.
  apply List.find_some in H as [Hin _]. by apply (proj1 (forallb_forall _ _) Hf).
Qed.

Lemma position_spec input r snapshot :
  status_ok input = true -> money (tr_amountUsd r) = true ->
  (forall v, snapshot = Some v -> venue_ok v = true) ->
  exists p, position r input snapshot = Ret p /\ position_units input r snapshot p.
Proof.
  intros Hok Ha Hv. apply status_ok_inv in Hok as (H1 & H2 & H3 & H4 & H5 & _).
  destruct (money_parses _ Ha) as (a & Ea & Ua & Ba). destruct (money_parses _ H1) as (i & Ei & Ui & Bi).
  destruct (money_parses _ H2) as (al & Eal & _). destruct (money_parses _ H3) as (t & Et & Ut & Bt).
  destruct (money_parses _ H4) as (q & Eq & Uq & _). destruct (money_parses _ H5) as (m & Em & Um & _).
  assert (exists cur, dec_of_string (match snapshot with Some v => vs_currentAllocationUsd v | None => "0" end) = Ret cur /\
    forall v, snapshot = Some v -> units cur (100 * current_cents v) /\ 0 <= current_cents v < money_bound)
    as (cur & Ecur & Ucur).
  { destruct snapshot as [v|].
    - destruct (venue_ok_inv _ (Hv v eq_refl)) as (Hc & _). destruct (money_parses _ Hc) as (c & Ec & Uc & Bc).
      exists c. split; [done|]. by intros ? [= <-].
    - destruct (money_parses "0" eq_refl) as (z & Ez & _). by exists z. }
  unfold position. exn_step Ea. exn_step Ei. exn_step Eal. exn_step Et. exn_step Eq. exn_step Em. exn_step Ecur.
  eexists. split; [done|]. unfold position_units, money_bound in *. cbn [ps_amount ps_idle ps_total ps_required ps_minRemaining ps_postIdle].
  split_and!; try done.
  - destruct (is_deposit r); [rewrite Z.mul_sub_distr_l; apply units_minus|rewrite Z.mul_add_distr_l; apply units_plus];
      done || lia.
  - intros k Hk Hd Hcap. unfold concentration_reason. cbn [ps_targetConcentration]. rewrite Hd, Hcap.
    destruct snapshot as [v|]; [|by split]. destruct (Ucur v eq_refl) as [Uc Bc].
    rewrite (units_lte _ _ _ _ Ut units_zero). destruct (Z.leb_spec (100 * cents_of (rv_totalCapitalUsd (te_reserveStatus (pn_evaluation input)))) 0).
    { split; [|done]. intros _ v' _ ?. lia. }
    rewrite is_empty_push_if, (units_share _ _ (current_cents v + cents_of (tr_amountUsd r))
      (cents_of (rv_totalCapitalUsd (te_reserveStatus (pn_evaluation input))))), negb_true_iff, Z.ltb_ge; try (unfold money_bound; lia).
    + split; [by intros ? v' [= <-]|]. intros Hall. apply (Hall v eq_refl). lia.
    + rewrite Z.mul_add_distr_l. apply units_plus; [done|done|lia].
    + done.
Qed.

Lemma action_size_spec p policy a : money (minimumDeployableUsd policy) = true -> units (ps_amount p) (100 * a) ->
  exists l, size_reason p policy = Ret l /\ (is_empty l = true <-> cents_of (minimumDeployableUsd policy) <= a).
Proof.
  intros Hm Ua. destruct (money_parses _ Hm) as (d & Ed & Ud & _). unfold size_reason. exn_step Ed.
  eexists. split; [done|]. rewrite is_empty_push_if, (units_lt _ _ _ _ Ua Ud), negb_true_iff, Z.ltb_ge. lia.
Qed.

Lemma capacity_reason_spec p v a : venue_ok v = true -> units (ps_amount p) (100 * a) ->
  exists l, capacity_reason p v = Ret l /\ (is_empty l = true <-> a <= capacity_cents v).
Proof.
  intros (_ & Hm & _)%venue_ok_inv Ua. destruct (money_parses _ Hm) as (d & Ed & Ud & _).
  unfold capacity_reason. exn_step Ed. eexists. split; [done|].
  rewrite is_empty_push_if, (units_gt _ _ _ _ Ua Ud), negb_true_iff, Z.ltb_ge. unfold capacity_cents. lia.
Qed.

Lemma withdrawal_reason_spec p v a : venue_ok v = true -> units (ps_amount p) (100 * a) ->
  exists l, withdrawal_reason p v = Ret l /\ (is_empty l = true <-> a <= withdrawable_cents v).
Proof.
  intros (_ & _ & Hm)%venue_ok_inv Ua. destruct (money_parses _ Hm) as (d & Ed & Ud & _).
  unfold withdrawal_reason. exn_step Ed. eexists. split; [done|].
  rewrite is_empty_push_if, (units_gt _ _ _ _ Ua Ud), negb_true_iff, Z.ltb_ge. unfold withdrawable_cents. lia.
Qed.

Lemma action_reasons_spec input r p snapshot k :
  status_ok input = true -> money (tr_amountUsd r) = true -> (forall v, snapshot = Some v -> venue_ok v = true) ->
  position_units input r snapshot p -> maxAllocationPctPerVenue (pn_policy input) = num_of_Z k -> 0 <= k <= 100 ->
  exists l, action_reasons r (pn_policy input) p snapshot = Ret l /\
    (is_empty l = true <-> if is_deposit r then deposit_permitted input r k snapshot else redeem_permitted r snapshot).
Proof.
  intros Hok Ha Hv (Ua & Ui & _ & Uq & Um & Upost & Hconc) Hcap Hk.
  apply status_ok_inv in Hok as (_ & _ & _ & Hq & _). destruct (money_parses _ Hq) as (_ & _ & _ & Hq0 & _).
  unfold action_reasons. destruct (is_deposit r) eqn:Hd.
  - assert (exists l, on_venue snapshot (capacity_reason p) = Ret l /\
      (is_empty l = true <-> forall v, snapshot = Some v -> cents_of (tr_amountUsd r) <= capacity_cents v)) as (l & El & Sl).
    { destruct snapshot as [v|]; [|by exists []]. destruct (capacity_reason_spec p v _ (Hv v eq_refl) Ua) as (l & El & Sl).
      exists l. split; [done|]. rewrite Sl. naive_solver. }
    exn_step El. eexists. split; [done|]. unfold liquidity_reasons. autorewrite with pushes.
    rewrite !andb_true_iff, !negb_true_iff, (units_lt _ _ _ _ Upost Uq), (units_lt _ _ _ _ Upost Um), (units_gt _ _ _ _ Ua Ui),
      !Z.ltb_ge, Sl, (Hconc k Hk eq_refl Hcap). unfold deposit_permitted.
    assert (is_empty (match snapshot with Some v => venue_reasons (pn_policy input) v | None => [] end) = true <->
      forall v, snapshot = Some v -> is_eligible (pn_policy input) v = true /\ vs_healthy v = true) as ->.
    { destruct snapshot as [v|]; [|done]. rewrite venue_reasons_empty. naive_solver. }
    split.
    + intros (HA & (? & ? & ?) & HC & HD). split_and!; [lia|lia|]. intros v Hsv.
      destruct (HA v Hsv). specialize (HC v Hsv). specialize (HD v Hsv). done.
    + intros (? & ? & Hall). split_and!; try lia; intros v Hsv; destruct (Hall v Hsv) as (? & ? & ? & ?); done.
  - unfold on_venue, redeem_permitted. destruct snapshot as [v|]; [|by exists []].
    destruct (withdrawal_reason_spec p v _ (Hv v eq_refl) Ua) as (l & El & Sl). exists l. split; [done|]. rewrite Sl. naive_solver.
Qed.

(** ** Properties *)

(** The planner's intent for a recommendation is executable exactly when
    the action is permitted: large enough, its venue known and capable (and
    cleared when live); for a deposit, the required reserve and the minimum
    idle balance stay in cash and the eligible, healthy venue has capacity and
    stays under the concentration cap; for a redemption, the venue can pay it. *)
Theorem treasury_intent_exact (input : TreasuryExecutionPlanningInput) (r : TreasuryRecommendation) (k : Z)
    (Hok : status_ok input = true) (Ha : money (tr_amountUsd r) = true)
    (Hcap : maxAllocationPctPerVenue (pn_policy input) = num_of_Z k) (Hk : 0 <= k <= 100) :
  exists i, createIntentForRecommendation input r = Ret i /\
    (ti_executable i = true <-> action_permitted input r k) /\
    (ti_executable i = true <-> ti_blockedReasons i = []) /\
    ti_recommendationType i = tr_actionType r /\ ti_venueId i = tr_venueId r.
Proof.
  pose proof (status_ok_inv _ Hok) as (_ & _ & _ & _ & _ & Hmin & Hvs).
  set (snapshot := findVenueSnapshot (pn_evaluation input) (tr_venueId r)).
  assert (Hv : forall v, snapshot = Some v -> venue_ok v = true) by (intros v; by apply find_snapshot_ok).
  destruct (position_spec input r snapshot Hok Ha Hv) as (p & Ep & Up).
  destruct (action_size_spec p (pn_policy input) _ Hmin (proj1 Up)) as (l1 & E1 & S1).
  destruct (action_reasons_spec input r p snapshot k Hok Ha Hv Up Hcap Hk) as (l2 & E2 & S2).
  unfold createIntentForRecommendation. fold snapshot. cbn zeta. exn_step Ep. unfold blocked_reasons at 1.
  rewrite E1, E2. cbn [mbind exn_bind]. eexists. split; [done|]. cbn [ti_executable ti_blockedReasons ti_recommendationType ti_venueId].
  split_and!; [|apply is_empty_nil|done|done].
  unfold action_permitted. fold snapshot.
  rewrite !is_empty_app, !andb_true_iff, S1, S2, not_found_empty, capability_reasons_empty.
  split; [intros (? & Hf & ? & Hc)|intros (? & Hc & ?)]; split_and!; try done.
  - intros Hne. by split; [apply Hf|apply Hc].
  - intros Hne. by apply Hc.
  - intros Hne. by apply Hc.
Qed.
End Proofs.

(** ** Concrete inputs *)

Definition sample_capabilities (id : string) : TreasuryVenueCapabilities :=
  MkCapabilities id vm_simulated true true true false false false pm_not_requested [] ob_simulated [] true [].

Definition empty_evaluation : TreasuryEvaluation :=
  MkTreasuryEvaluation DEFAULT_TREASURY_POLICY (MkReserveStatus "0" "0" "0" "0" "0" "0" "0" "0") [] [] [] true.
Definition plan_of (input : TreasuryEvaluationInput) : TreasuryExecutionPlanningInput := {|
  pn_evaluation := match evaluate input with Ret ev => ev | Throw _ => empty_evaluation end;
  pn_policy := DEFAULT_TREASURY_POLICY; pn_executionMode := tm_dry_run; pn_liveExecutionEnabled := false;
  pn_venueCapabilities := [sample_capabilities "atlas-t0-sim"; sample_capabilities "atlas-t1-sim"] |}.

Definition intents_of (m : exn (list TreasuryExecutionIntent)) : list (string * list TreasuryActionBlockedReasonCode) :=
  match m with
  | Ret l => map (fun i => (ti_amountUsd i, map ab_code (ti_blockedReasons i))) l
  | Throw _ => []
  end.

(** The deposits of the sample are executable; the one whose rounding exceeds
    the cap is refused. *)
Example planned_intents :
  intents_of (createExecutionIntents (plan_of (sample_treasury_input "60000" "20000"))) =
    [("30000.00", []); ("20000.00", [])] /\
  intents_of (createExecutionIntents (plan_of (MkTreasuryInput "100005.01" "100005.01"
    [sample_venue "atlas-t0-sim" instant 100 "90000" "0" "0"] DEFAULT_TREASURY_POLICY))) =
    [("50002.51", [venue_concentration_breach])].
Proof. vm_compute. done. Qed.

Definition sample_deposit : TreasuryRecommendation :=
  deploy_recommendation (sample_venue "atlas-t1-sim" same_day 450 "50000" "20000" "20000", DFin 30000).

Lemma treasury_intent_exact_witness :
  let input := plan_of (sample_treasury_input "60000" "20000") in
  exists i, createIntentForRecommendation input sample_deposit = Ret i /\
    (ti_executable i = true <-> action_permitted input sample_deposit 50) /\
    (ti_executable i = true <-> ti_blockedReasons i = []) /\
    ti_recommendationType i = tr_actionType sample_deposit /\ ti_venueId i = tr_venueId sample_deposit.
Proof.
  apply (treasury_intent_exact (plan_of (sample_treasury_input "60000" "20000")) sample_deposit 50);
    [vm_compute; reflexivity|vm_compute; reflexivity|reflexivity|lia].
Defined.
