(* ===== verification/SpotPerp.v ===== *)
(** * Spot and perp coordination (packages/carry/src/spot-perp-coordination.ts)

    A hedge pair is a long spot leg and a short perp leg of the same notional.
    The file models its creation, validation, execution plan, the update after
    an execution, the balance checks, the closing orders and the funding
    estimate.  [new Date()] is an argument, in milliseconds. *)
From Stdlib Require Import Qabs Qround.
From S2P Require Import Prelude JsNumber JsValue DecimalLib DecimalExact Money Domain.
Open Scope Z_scope.

(** ** Types *)

Inductive HedgeSide := hd_long | hd_short.
#[export] Instance HedgeSide_eq_dec : EqDecision HedgeSide.
Proof. solve_decision. Defined.
Inductive HedgeMarket := hm_spot | hm_perp.
#[export] Instance HedgeMarket_eq_dec : EqDecision HedgeMarket.
Proof. solve_decision. Defined.
Definition hedge_market_str (m : HedgeMarket) : string := match m with hm_spot => "spot" | hm_perp => "perp" end.
Inductive HedgeLegStatus := hl_pending | hl_executing | hl_completed | hl_failed.
#[export] Instance HedgeLegStatus_eq_dec : EqDecision HedgeLegStatus.
Proof. solve_decision. Defined.
Inductive HedgePairStatus := hp_pending | hp_executing | hp_completed | hp_partial | hp_failed.
#[export] Instance HedgePairStatus_eq_dec : EqDecision HedgePairStatus.
Proof. solve_decision. Defined.

Record HedgeLeg := MkHedgeLeg {
  hl_side : HedgeSide;
  hl_marketType : HedgeMarket;
  hl_venueId : string;
  hl_size : string;
  hl_targetSize : string;
  hl_status : HedgeLegStatus;
}.

Record DeltaNeutralHedgePair := MkHedgePair {
  hp_pairId : string;
  hp_asset : string;
  hp_spotLeg : HedgeLeg;
  hp_perpLeg : HedgeLeg;
  hp_notionalUsd : string;
  hp_status : HedgePairStatus;
  hp_createdAt : Z;
  hp_updatedAt : Z;
}.

Record SpotPerpCoordinationConfig := MkCoordinationConfig {
  cc_maxHedgeDeviationPct : num;
  cc_perpFirst : bool;
  cc_executionTimeoutMs : Z;
  cc_minimumSizeIncrement : string;
}.

Definition DEFAULT_SPOT_PERP_COORDINATION_CONFIG : SpotPerpCoordinationConfig :=
  MkCoordinationConfig (num_of_Z 1) true 30000 "0.0001".

Record HedgeExecutionPlan := MkHedgePlan {
  hx_pair : DeltaNeutralHedgePair;
  hx_executionOrder : list HedgeMarket;
  hx_spotOrder : option OrderIntent;
  hx_perpOrder : option OrderIntent;
}.

Record CoordinationValidationResult := MkCoordinationResult {
  cv_valid : bool; cv_errors : list string; cv_warnings : list string }.

Record HedgePairParams := MkPairParams {
  pp_asset : string; pp_notionalUsd : string; pp_spotVenueId : string; pp_perpVenueId : string;
  pp_spotPrice : string; pp_perpPrice : string }.

(** ** Operations *)

Definition new_leg (side : HedgeSide) (m : HedgeMarket) (venueId targetSize : string) : HedgeLeg :=
  MkHedgeLeg side m venueId "0" targetSize hl_pending.

Definition order_side (s : HedgeSide) : OrderSide := match s with hd_long => buy | hd_short => sell end.

(** An order of a pair: a market order without limit price. *)
Definition pair_order (pair : DeltaNeutralHedgePair) (suffix venueId : string) (side : OrderSide) (size : string)
    (reduceOnly : bool) (now : Z) (metadata : record_) : OrderIntent := {|
  oi_intentId := hp_pairId pair +:+ suffix; oi_venueId := venueId; oi_asset := hp_asset pair; oi_side := side;
  oi_type := market; oi_size := size; oi_limitPrice := None; oi_opportunityId := hp_pairId pair;
  oi_reduceOnly := reduceOnly; oi_createdAt := now; oi_metadata := metadata |}.

Definition set_leg_execution (size : string) (status : HedgeLegStatus) (l : HedgeLeg) : HedgeLeg :=
  MkHedgeLeg (hl_side l) (hl_marketType l) (hl_venueId l) size (hl_targetSize l) status.

Definition leg_done (l : HedgeLeg) : bool :=
  bool_decide (hl_status l = hl_completed) || bool_decide (hl_status l = hl_failed).

(** The overall status after an update. *)
Definition pair_status (spot perp : HedgeLeg) : HedgePairStatus :=
  if bool_decide (hl_status spot = hl_failed) && bool_decide (hl_status perp = hl_failed) then hp_failed
  else if leg_done spot && leg_done perp then hp_completed
  else if leg_done spot || leg_done perp then hp_partial
  else hp_executing.

Definition updateHedgePairWithExecution (now : Z) (pair : DeltaNeutralHedgePair) (legType : HedgeMarket)
    (executedSize : string) (status : HedgeLegStatus) : DeltaNeutralHedgePair :=
  let spot := if bool_decide (legType = hm_spot) then set_leg_execution executedSize status (hp_spotLeg pair)
              else hp_spotLeg pair in
  let perp := if bool_decide (legType = hm_spot) then hp_perpLeg pair
              else set_leg_execution executedSize status (hp_perpLeg pair) in
  {| hp_pairId := hp_pairId pair; hp_asset := hp_asset pair; hp_spotLeg := spot; hp_perpLeg := perp;
     hp_notionalUsd := hp_notionalUsd pair; hp_status := pair_status spot perp; hp_createdAt := hp_createdAt pair;
     hp_updatedAt := now |}.

Section Ops.
Context `{DL : DecimalLib}.

Definition createHedgePair (now : Z) (params : HedgePairParams) : exn DeltaNeutralHedgePair :=
  notional ← dec_of_string (pp_notionalUsd params);
  spotPrice ← dec_of_string (pp_spotPrice params);
  perpPrice ← dec_of_string (pp_perpPrice params);
  Ret {| hp_pairId := "hedge-" +:+ pp_asset params +:+ "-" +:+ z_str now; hp_asset := pp_asset params;
         hp_spotLeg := new_leg hd_long hm_spot (pp_spotVenueId params) (d_toFixedN 8 (d_div notional spotPrice));
         hp_perpLeg := new_leg hd_short hm_perp (pp_perpVenueId params) (d_toFixedN 8 (d_div notional perpPrice));
         hp_notionalUsd := d_toFixedN 2 notional; hp_status := hp_pending; hp_createdAt := now; hp_updatedAt := now |}.

(** [|a - b| / ((a + b) / 2) * 100], undefined when the average is zero. *)
Definition average (a b : dec) : dec := d_div (d_plus a b) (dec_of_Z 2).
Definition deviation_pct (a b : dec) : dec := d_times (d_div (d_abs (d_minus a b)) (average a b)) (dec_of_Z 100).

Definition validateHedgePair (pair : DeltaNeutralHedgePair) (config : SpotPerpCoordinationConfig)
    : exn CoordinationValidationResult :=
  spotTarget ← dec_of_string (hl_targetSize (hp_spotLeg pair));
  perpTarget ← dec_of_string (hl_targetSize (hp_perpLeg pair));
  minIncrement ← dec_of_string (cc_minimumSizeIncrement config);
  let too_small name size := push_if (d_lt size minIncrement)
    (name +:+ " size " +:+ d_toFixedN 8 size +:+ " is below minimum increment " +:+ cc_minimumSizeIncrement config) in
  let errors := too_small "Spot" spotTarget ++ too_small "Perp" perpTarget in
  let deviationPct := if d_isZero (average spotTarget perpTarget) then dec_of_Z 0 else deviation_pct spotTarget perpTarget in
  Ret {| cv_valid := is_empty errors; cv_errors := errors;
         cv_warnings :=
           push_if (d_gt deviationPct (dec_of_num (cc_maxHedgeDeviationPct config)))
             ("Size deviation " +:+ d_toFixedN 2 deviationPct +:+ "% exceeds max "
              +:+ n_str (cc_maxHedgeDeviationPct config) +:+ "% (prices may have diverged)") ++
           push_if (bool_decide (hl_venueId (hp_spotLeg pair) = hl_venueId (hp_perpLeg pair)))
             "Spot and perp legs use the same venue (reduces redundancy)" |}.

(** [spotNow] and [perpNow] are the two readings of the clock. *)
Definition createHedgeExecutionPlan (spotNow perpNow : Z) (pair : DeltaNeutralHedgePair)
    (config : SpotPerpCoordinationConfig) : exn HedgeExecutionPlan :=
  validation ← validateHedgePair pair config;
  if negb (cv_valid validation)
  then Throw (Error_ ("Invalid hedge pair: " +:+ String.concat ", " (cv_errors validation)))
  else
    let metadata m := [("legType", JStr (hedge_market_str m)); ("pairId", JStr (hp_pairId pair));
                       ("targetNotionalUsd", JStr (hp_notionalUsd pair))] in
    let order suffix leg now m := pair_order pair suffix (hl_venueId leg) (order_side (hl_side leg))
                                    (hl_targetSize leg) false now (metadata m) in
    Ret {| hx_pair := pair;
           hx_executionOrder := if cc_perpFirst config then [hm_perp; hm_spot] else [hm_spot; hm_perp];
           hx_spotOrder := Some (order "-spot" (hp_spotLeg pair) spotNow hm_spot);
           hx_perpOrder := Some (order "-perp" (hp_perpLeg pair) perpNow hm_perp) |}.

(** The result is [deviationPct] and [isBalanced]; [Number(...)] of the
    printed percentage. *)
Definition calculateHedgeDeviation (spotSize perpSize : string) : exn (num * bool) :=
  spot ← dec_of_string spotSize;
  perp ← dec_of_string perpSize;
  if d_isZero (average spot perp) then Ret (num_of_Z 0, true)
  else
    let deviationPct := parseFloat (d_toFixedN 2 (deviation_pct spot perp)) in
    Ret (deviationPct, n_le deviationPct (num_of_Z 5)).

Definition isHedgeBalanced (pair : DeltaNeutralHedgePair) (tolerancePct : num) : exn bool :=
  spot ← dec_of_string (hl_size (hp_spotLeg pair));
  perp ← dec_of_string (hl_size (hp_perpLeg pair));
  if d_isZero spot || d_isZero perp then Ret false
  else Ret (n_le (d_toNumber (deviation_pct spot perp)) tolerancePct).

(** A closing order, when there is something to close. *)
Definition reduction_order (now : Z) (pair : DeltaNeutralHedgePair) (reductionPct : num) (suffix : string) (leg : HedgeLeg)
    (side : OrderSide) (size : dec) (m : HedgeMarket) : option OrderIntent :=
  if d_gt size (dec_of_Z 0)
  then Some (pair_order pair suffix (hl_venueId leg) side (d_toFixedN 8 size) true now
         [("legType", JStr (hedge_market_str m)); ("pairId", JStr (hp_pairId pair));
          ("reductionPct", JNum reductionPct); ("action", JStr "close_hedge")])
  else None.

(** The result is [spotOrder] and [perpOrder]. *)
Definition createHedgeReductionOrders (now : Z) (pair : DeltaNeutralHedgePair) (reductionPct : num)
    : exn (option OrderIntent * option OrderIntent) :=
  let pct := d_div (dec_of_num reductionPct) (dec_of_Z 100) in
  spotSize ← dec_of_string (hl_size (hp_spotLeg pair));
  perpSize ← dec_of_string (hl_size (hp_perpLeg pair));
  Ret (reduction_order now pair reductionPct "-spot-reduce" (hp_spotLeg pair) sell (d_times spotSize pct) hm_spot,
       reduction_order now pair reductionPct "-perp-reduce" (hp_perpLeg pair) buy (d_times perpSize pct) hm_perp).

(** The result is [estimatedCaptureUsd] and [annualizedPct]. *)
Definition calculateHedgeFundingCapture (pair : DeltaNeutralHedgePair) (fundingRate : string) (days : num)
    : exn (string * string) :=
  notional ← dec_of_string (hp_notionalUsd pair);
  rate ← dec_of_string fundingRate;
  let periods := d_times (dec_of_num days) (dec_of_Z 3) in
  let fundingPerPeriod := d_times notional rate in
  let totalFunding := d_times fundingPerPeriod periods in
  let annualFunding := d_times (d_times fundingPerPeriod (dec_of_Z 3)) (dec_of_Z 365) in
  let annualizedPct := if d_isZero notional then dec_of_Z 0
                       else d_times (d_div annualFunding notional) (dec_of_Z 100) in
  Ret (d_toFixedN 2 totalFunding, d_toFixedN 4 annualizedPct).
End Ops.

(** ** Properties *)

(** A hedge pair is reported as completed although one of its legs failed
    and the other is filled: whichever leg fails last, and whichever comes
    second, the status is [completed], so a one-sided position is not told from
    a finished hedge; [failed] needs both legs to fail. *)
Theorem one_sided_pair_reported_completed (n1 n2 : Z) (pair : DeltaNeutralHedgePair) (first : HedgeMarket)
    (size1 size2 : string) (s1 s2 : HedgeLegStatus)
    (Hs1 : s1 = hl_completed \/ s1 = hl_failed) (Hs2 : s2 = hl_completed \/ s2 = hl_failed) :
  let second := match first with hm_spot => hm_perp | hm_perp => hm_spot end in
  let after := updateHedgePairWithExecution n2 (updateHedgePairWithExecution n1 pair first size1 s1) second size2 s2 in
  (hp_status after = hp_completed <-> s1 = hl_completed \/ s2 = hl_completed) /\
  (hp_status after = hp_failed <-> s1 = hl_failed /\ s2 = hl_failed) /\
  (hl_size (match first with hm_spot => hp_spotLeg after | hm_perp => hp_perpLeg after end) = size1) /\
  (hl_size (match first with hm_spot => hp_perpLeg after | hm_perp => hp_spotLeg after end) = size2).
Proof.
  destruct first, Hs1 as [-> | ->], Hs2 as [-> | ->]; cbn; unfold pair_status, leg_done; cbn; split_and!; try done;
    split; intros; try done; try (by left); try (by right); try (by destruct_or?); by destruct_and?.
Qed.

Section Closing.
Context `{DL : DecimalLib} `{LW : !DecimalLaws}.

(** [s] is a size of [m] units of the eighth decimal. *)
Definition size_units (s : string) (m : Z) : Prop :=
  parses s (Qmake m (Z.to_pos (10 ^ 8))) /\ 0 <= m < 10 ^ 20.

Lemma round_exact m : (round_half_up 8 (Qmake m (Z.to_pos (10 ^ 8))) == Qmake m (Z.to_pos (10 ^ 8)))%Q.
Proof.
  unfold round_half_up. change (Z.to_pos (10 ^ 8)) with 100000000%positive. change (10 ^ 8) with 100000000.
  rewrite (Qfloor_comp _ (2 * Z.abs m + 1 # 2)) by (unfold Qeq, Qplus, Qmult, Qabs, inject_Z; cbn; lia).
  assert (Hf : Qfloor (2 * Z.abs m + 1 # 2) = Z.abs m).
  { cbn [Qfloor]. rewrite Z.add_comm, Z.mul_comm. by rewrite Z.div_add by lia. }
  rewrite Hf. destruct (Qltb _ 0) eqn:E; [apply Qltb_spec in E|apply Qltb_false in E]; unfold Qlt, Qle, Qeq in *; cbn in *; lia.
Qed.

(** Closing in full keeps a size as it is. *)
Lemma full_size d m : is_fin d (Qmake m (Z.to_pos (10 ^ 8))) -> Z.abs m < 10 ^ 20 ->
  is_fin (d_times d (d_div (dec_of_num (num_of_Z 100)) (dec_of_Z 100))) (Qmake m (Z.to_pos (10 ^ 8))).
Proof.
  intros Hd Hm. assert (H100 : is_fin (dec_of_Z 100) 100) by by apply (d_of_int 100).
  assert (H1 : is_fin (d_div (dec_of_num (num_of_Z 100)) (dec_of_Z 100)) 1).
  { unfold is_fin. rewrite (d_div_fin _ _ _ _ H100 H100) by by intros ?.
    etrans; [apply (d_rnd_proper _ (Qmake 1 (Z.to_pos (10 ^ 0)))); by unfold Qeq|by apply (d_rnd_exact 1 0)]. }
  unfold is_fin. rewrite (d_times_fin _ _ _ _ Hd H1). etrans; [apply d_rnd_proper, Qmult_1_r|]. by apply (d_rnd_exact m 8).
Qed.

Lemma full_reduction_order now pair suffix leg side m d k :
  is_fin d (Qmake k (Z.to_pos (10 ^ 8))) -> 0 <= k < 10 ^ 20 ->
  match reduction_order now pair (num_of_Z 100) suffix leg side
          (d_times d (d_div (dec_of_num (num_of_Z 100)) (dec_of_Z 100))) m with
  | None => k = 0
  | Some o => 0 < k /\ parses (oi_size o) (Qmake k (Z.to_pos (10 ^ 8))) /\ oi_side o = side /\ oi_reduceOnly o = true /\
              oi_venueId o = hl_venueId leg /\ oi_type o = market
  end.
Proof.
  intros Hd Hk. pose proof (full_size d k Hd ltac:(lia)) as Hf. unfold reduction_order.
  rewrite (d_gt_fin _ _ _ _ Hf d_zero_fin). destruct (Qltb 0 _) eqn:E.
  - apply Qltb_spec in E. unfold Qlt in E. cbn in E. split; [lia|]. split; [|done]. cbn.
    destruct (is_fin_dval _ _ Hf) as (q & Hq & Eq). destruct (d_toFixedN_parse 8 _ _ ltac:(lia) Hq) as (b & Hb & Fb).
    exists b. split; [done|]. unfold is_fin. rewrite Fb. cbn. rewrite <- (round_exact k).
    unfold round_half_up. rewrite (Qfloor_comp _ (Qabs (k # Z.to_pos (10 ^ 8)) * inject_Z (10 ^ 8) + (1 # 2))) by (by rewrite Eq).
    by rewrite Eq.
  - apply Qltb_false in E. unfold Qle in E. cbn in E. lia.
Qed.

(** Closing a hedge in full ends it on both sides: the spot size is sold
    and the perp size bought back, each by a reduce-only market order at the
    venue of its leg for exactly the size held; a leg of size zero gets no
    order. *)
Theorem full_reduction_closes_pair (now : Z) (pair : DeltaNeutralHedgePair) (spot perp : Z)
    (Hspot : size_units (hl_size (hp_spotLeg pair)) spot) (Hperp : size_units (hl_size (hp_perpLeg pair)) perp) :
  exists so po, createHedgeReductionOrders now pair (num_of_Z 100) = Ret (so, po) /\
    match so with
    | None => spot = 0
    | Some o => 0 < spot /\ parses (oi_size o) (Qmake spot (Z.to_pos (10 ^ 8))) /\ oi_side o = sell /\
        oi_reduceOnly o = true /\ oi_venueId o = hl_venueId (hp_spotLeg pair) /\ oi_type o = market
    end /\
    match po with
    | None => perp = 0
    | Some o => 0 < perp /\ parses (oi_size o) (Qmake perp (Z.to_pos (10 ^ 8))) /\ oi_side o = buy /\
        oi_reduceOnly o = true /\ oi_venueId o = hl_venueId (hp_perpLeg pair) /\ oi_type o = market
    end.
Proof.
  destruct Hspot as ((ds & Hs & Fs) & Bs), Hperp as ((dp & Hp & Fp) & Bp).
  unfold createHedgeReductionOrders. cbn zeta. exn_step Hs. exn_step Hp. eexists _, _. split; [done|].
  split; by apply full_reduction_order.
Qed.
End Closing.

(** ** Concrete inputs *)

Definition sample_pair (spot perp : string) : DeltaNeutralHedgePair :=
  MkHedgePair "hedge-BTC-1" "BTC" (MkHedgeLeg hd_long hm_spot "v1" spot "2" hl_completed)
    (MkHedgeLeg hd_short hm_perp "v2" perp "2" hl_completed) "1000.00" hp_completed 1 1.

Lemma one_sided_pair_reported_completed_witness :
  let after := updateHedgePairWithExecution 3 (updateHedgePairWithExecution 2 (sample_pair "0" "0") hm_perp "2" hl_completed)
                 hm_spot "0" hl_failed in
  (hp_status after = hp_completed <-> hl_completed = hl_completed \/ hl_failed = hl_completed) /\
  (hp_status after = hp_failed <-> hl_completed = hl_failed /\ hl_failed = hl_failed) /\
  hl_size (hp_perpLeg after) = "2" /\ hl_size (hp_spotLeg after) = "0".
Proof.
  apply (one_sided_pair_reported_completed 2 3 (sample_pair "0" "0") hm_perp "2" "0" hl_completed hl_failed); [by left|by right].
Defined.

Lemma full_reduction_closes_pair_witness :
  exists so po, createHedgeReductionOrders 5 (sample_pair "1.5" "0") (num_of_Z 100) = Ret (so, po) /\
    match so with
    | None => 150000000 = 0
    | Some o => 0 < 150000000 /\ parses (oi_size o) (Qmake 150000000 (Z.to_pos (10 ^ 8))) /\ oi_side o = sell /\
        oi_reduceOnly o = true /\ oi_venueId o = "v1" /\ oi_type o = market
    end /\
    match po with
    | None => 0 = 0
    | Some o => 0 < 0 /\ parses (oi_size o) (Qmake 0 (Z.to_pos (10 ^ 8))) /\ oi_side o = buy /\
        oi_reduceOnly o = true /\ oi_venueId o = "v2" /\ oi_type o = market
    end.
Proof.
  apply (full_reduction_closes_pair 5 (sample_pair "1.5" "0") 150000000 0).
  - split; [|lia]. destruct (literal_parses "1.5" (15 # 10) eq_refl) as (d & Hd & Fd). exists d. split; [exact Hd|].
    unfold is_fin in *. rewrite Fd. by unfold dv_equiv.
  - split; [|lia]. destruct (literal_parses "0" 0 eq_refl) as (d & Hd & Fd). exists d. split; [exact Hd|].
    unfold is_fin in *. rewrite Fd. by unfold dv_equiv.
Defined.
