(* ===== verification/MultiLeg.v ===== *)
(** * Multi-leg carry plans (packages/carry/src/multi-leg-orchestration.ts)

    A plan is a list of legs with dependencies.  [createMultiLegPlan] checks
    the sequence numbers and orders the legs by a depth-first search
    ([computeExecutionOrder]); the other functions derive the hedge state, the
    reaction to a failed leg, the plan's status, its result and its
    validation.  The search is recursive without a decreasing argument, so it
    runs on fuel and says when it is out of it; [visit_spec] shows that one
    unit more than the number of legs is always enough. *)
From Stdlib Require Import Sorting.Sorted.
From stdpp Require Import relations sorting.
From S2P Require Import Prelude JsNumber JsValue DecimalLib DecimalExact Money Shared SpotPerp.
Open Scope Z_scope.

(** ** Types *)

Inductive LegStatus := ls_pending | ls_executing | ls_completed | ls_failed | ls_skipped | ls_cancelled.
#[export] Instance LegStatus_eq_dec : EqDecision LegStatus.
Proof. solve_decision. Defined.
Inductive PlanStatus := pl_pending | pl_executing | pl_completed | pl_partial | pl_failed | pl_cancelled.
#[export] Instance PlanStatus_eq_dec : EqDecision PlanStatus.
Proof. solve_decision. Defined.
Definition plan_status_str (s : PlanStatus) : string :=
  match s with
  | pl_pending => "pending" | pl_executing => "executing" | pl_completed => "completed" | pl_partial => "partial"
  | pl_failed => "failed" | pl_cancelled => "cancelled"
  end.
Inductive HedgeStatus := hs_pending | hs_balanced | hs_imbalanced | hs_rebalancing | hs_closed.
#[export] Instance HedgeStatus_eq_dec : EqDecision HedgeStatus.
Proof. solve_decision. Defined.
Inductive LegType := lt_spot | lt_perp | lt_futures.
#[export] Instance LegType_eq_dec : EqDecision LegType.
Proof. solve_decision. Defined.
Inductive LegSide := sd_long | sd_short.
#[export] Instance LegSide_eq_dec : EqDecision LegSide.
Proof. solve_decision. Defined.
Inductive PlanType := delta_neutral_carry | custom.
#[export] Instance PlanType_eq_dec : EqDecision PlanType.
Proof. solve_decision. Defined.
Inductive LegExecutionMode := lm_dry_run | lm_live.
Inductive PairType := spot_perp | perp_perp.
Inductive ImbalanceDirection := spot_heavy | perp_heavy.
Inductive FailureAction := fa_continue | fa_rollback | fa_wait.
#[export] Instance FailureAction_eq_dec : EqDecision FailureAction.
Proof. solve_decision. Defined.

Record PartialFailureHandling := MkFailureHandling {
  pf_action : FailureAction;
  pf_waitTimeoutMs : option Z;
  pf_rollbackLegs : option (list Z);
}.

Section Types.
Context `{DL : DecimalLib}.

Record LegDefinition := MkLegDefinition {
  ld_legSequence : Z;
  ld_legType : LegType;
  ld_side : LegSide;
  ld_venueId : string;
  ld_asset : string;
  ld_marketSymbol : option string;
  ld_targetSize : dec;
  ld_targetNotionalUsd : dec;
  ld_dependsOn : option Z;
}.

Record MultiLegPlanInput := MkPlanInput {
  mi_carryActionId : string;
  mi_strategyRunId : option string;
  mi_asset : string;
  mi_notionalUsd : dec;
  mi_legs : list LegDefinition;
  mi_coordinationConfig : SpotPerpCoordinationConfig;
  mi_maxHedgeDeviationPct : dec;
}.

Record LegExecution := MkLegExecution {
  le_id : string;
  le_planId : string;
  le_carryActionId : string;
  le_legSequence : Z;
  le_parentLegId : option string;
  le_legType : LegType;
  le_side : LegSide;
  le_venueId : string;
  le_asset : string;
  le_marketSymbol : option string;
  le_targetSize : dec;
  le_targetNotionalUsd : dec;
  le_executedSize : option dec;
  le_executedNotionalUsd : option dec;
  le_status : LegStatus;
  le_executionMode : LegExecutionMode;
  le_simulated : bool;
  le_venueExecutionReference : option string;
  le_filledSize : option dec;
  le_averageFillPrice : option dec;
  le_retryCount : Z;
  le_maxRetries : Z;
  le_lastError : option string;
  le_createdAt : Z;
  le_updatedAt : Z;
}.

Record MultiLegPlan := MkPlan {
  mp_id : string;
  mp_carryActionId : string;
  mp_strategyRunId : option string;
  mp_planType : PlanType;
  mp_asset : string;
  mp_notionalUsd : dec;
  mp_legCount : Z;
  mp_legs : list LegExecution;
  mp_executionOrder : list Z;
  mp_status : PlanStatus;
  mp_coordinationConfig : SpotPerpCoordinationConfig;
  mp_maxHedgeDeviationPct : dec;
  mp_hedgeDeviationPct : option dec;
  mp_createdAt : Z;
  mp_updatedAt : Z;
}.

Record HedgeState := MkHedgeState {
  hg_id : string;
  hg_planId : string;
  hg_carryActionId : string;
  hg_asset : string;
  hg_pairType : PairType;
  hg_spotLeg : LegExecution;
  hg_perpLeg : LegExecution;
  hg_notionalUsd : dec;
  hg_hedgeDeviationPct : dec;
  hg_maxAllowedDeviationPct : dec;
  hg_status : HedgeStatus;
  hg_imbalanceDirection : option ImbalanceDirection;
  hg_imbalanceThresholdBreached : bool;
  hg_lastCalculatedAt : Z;
  hg_createdAt : Z;
  hg_updatedAt : Z;
}.

Record LegResult := MkLegResult {
  lr_legId : string;
  lr_legSequence : Z;
  lr_status : LegStatus;
  lr_filledSize : option dec;
  lr_averageFillPrice : option dec;
  lr_venueExecutionReference : option string;
  lr_error : option string;
}.

Record ExecutionResult := MkExecutionResult {
  er_planId : string;
  er_status : PlanStatus;
  er_completedLegs : Z;
  er_failedLegs : Z;
  er_skippedLegs : Z;
  er_totalLegs : Z;
  er_hedgeDeviationPct : option dec;
  er_outcomeSummary : string;
  er_legResults : list LegResult;
}.
End Types.

Record ValidationResult := MkValidation { vr_valid : bool; vr_errors : list string; vr_warnings : list string }.

(** ** Plan creation *)

Section Create.
Context `{DL : DecimalLib}.

(** The state of [computeExecutionOrder]'s search. *)
Record Search := MkSearch { visited : list Z; visiting : list Z; order : list Z }.
Inductive VisitResult := Done (s : Search) | Circular | OutOfFuel.

Definition set_has (x : Z) (l : list Z) : bool := bool_decide (x ∈ l).
Definition set_delete (x : Z) (l : list Z) : list Z := List.filter (fun y => negb (bool_decide (y = x))) l.

Definition find_leg (legs : list LegDefinition) (seq : Z) : option LegDefinition :=
  List.find (fun l => bool_decide (ld_legSequence l = seq)) legs.

(** [legs.find(l => l.legSequence === leg.dependsOn)]. *)
Definition dependency (legs : list LegDefinition) (leg : LegDefinition) : option LegDefinition :=
  d ← ld_dependsOn leg; find_leg legs d.

Fixpoint visit (legs : list LegDefinition) (fuel : nat) (leg : LegDefinition) (s : Search) : VisitResult :=
  match fuel with
  | O => OutOfFuel
  | S fuel' =>
      let seq := ld_legSequence leg in
      if set_has seq (visited s) then Done s
      else if set_has seq (visiting s) then Circular
      else
        let s1 := MkSearch (visited s) (seq :: visiting s) (order s) in
        match (match dependency legs leg with Some dep => visit legs fuel' dep s1 | None => Done s1 end) with
        | Done s2 => Done (MkSearch (seq :: visited s2) (set_delete seq (visiting s2)) (order s2 ++ [seq]))
        | r => r
        end
  end.

(** The loop over the legs. *)
Fixpoint visit_all (legs : list LegDefinition) (fuel : nat) (todo : list LegDefinition) (s : Search) : VisitResult :=
  match todo with
  | [] => Done s
  | leg :: rest =>
      match visit legs fuel leg s with
      | Done s' => visit_all legs fuel rest s'
      | r => r
      end
  end.

Definition computeExecutionOrder (legs : list LegDefinition) : list Z :=
  match visit_all legs (S (length legs)) legs (MkSearch [] [] []) with
  | Done s => order s
  | _ => []
  end.

(** [sequences[i] !== i + 1] for the first such [i], as [i + 1]. *)
Fixpoint first_gap (i : Z) (sequences : list Z) : option Z :=
  match sequences with
  | [] => None
  | x :: rest => if x =? i then first_gap (i + 1) rest else Some i
  end.

Definition sorted_sequences (legs : list LegDefinition) : list Z :=
  js_sort (fun a b => a - b <? 0) (map ld_legSequence legs).

Definition create_leg (planId carryActionId : string) (now : Z) (leg : LegDefinition) : LegExecution := {|
  le_id := "leg_" +:+ planId +:+ "_" +:+ z_str (ld_legSequence leg); le_planId := planId;
  le_carryActionId := carryActionId; le_legSequence := ld_legSequence leg; le_parentLegId := None;
  le_legType := ld_legType leg; le_side := ld_side leg; le_venueId := ld_venueId leg; le_asset := ld_asset leg;
  le_marketSymbol := ld_marketSymbol leg; le_targetSize := ld_targetSize leg;
  le_targetNotionalUsd := ld_targetNotionalUsd leg; le_executedSize := None; le_executedNotionalUsd := None;
  le_status := ls_pending; le_executionMode := lm_dry_run; le_simulated := true;
  le_venueExecutionReference := None; le_filledSize := None; le_averageFillPrice := None; le_retryCount := 0;
  le_maxRetries := 3; le_lastError := None; le_createdAt := now; le_updatedAt := now |}.

Definition plan_type (legs : list LegDefinition) : PlanType :=
  if (Z.of_nat (length legs) =? 2) && existsb (fun l => bool_decide (ld_legType l = lt_spot)) legs
     && existsb (fun l => bool_decide (ld_legType l = lt_perp)) legs
  then delta_neutral_carry else custom.

(** [now] is the reading of [new Date()], [ms] that of [Date.now()]. *)
Definition createMultiLegPlan (now ms : Z) (input : MultiLegPlanInput) : Result MultiLegPlan JsError :=
  let legs := mi_legs input in
  if is_empty legs then Err (Error_ "Multi-leg plan must have at least one leg")
  else match first_gap 1 (sorted_sequences legs) with
  | Some i => Err (Error_ ("Leg sequences must be contiguous starting from 1. Missing: " +:+ z_str i))
  | None =>
      let executionOrder := computeExecutionOrder legs in
      if negb (Z.of_nat (length executionOrder) =? Z.of_nat (length legs))
      then Err (Error_ "Circular dependency detected in leg dependencies")
      else
        let planId := "plan_" +:+ z_str ms in
        Ok {| mp_id := planId; mp_carryActionId := mi_carryActionId input; mp_strategyRunId := mi_strategyRunId input;
              mp_planType := plan_type legs; mp_asset := mi_asset input; mp_notionalUsd := mi_notionalUsd input;
              mp_legCount := Z.of_nat (length legs);
              mp_legs := map (create_leg planId (mi_carryActionId input) now) legs;
              mp_executionOrder := executionOrder; mp_status := pl_pending;
              mp_coordinationConfig := mi_coordinationConfig input;
              mp_maxHedgeDeviationPct := mi_maxHedgeDeviationPct input; mp_hedgeDeviationPct := None;
              mp_createdAt := now; mp_updatedAt := now |}
  end.

(** ** Hedge state *)

Definition active_leg (t : LegType) (plan : MultiLegPlan) : option LegExecution :=
  List.find (fun l => bool_decide (le_legType l = t) && negb (bool_decide (le_status l = ls_failed))) (mp_legs plan).

Definition executed_or_zero (l : LegExecution) : dec := or_else (le_executedSize l) (dec_of_Z 0).

Definition hedge_deviation (spotLeg perpLeg : LegExecution) : dec :=
  let target := le_targetSize spotLeg in
  if d_gt target (dec_of_Z 0)
  then d_times (d_div (d_abs (d_minus (executed_or_zero spotLeg) (executed_or_zero perpLeg))) target) (dec_of_Z 100)
  else dec_of_Z 0.

Definition calculateHedgeState (now : Z) (plan : MultiLegPlan) : Result HedgeState JsError :=
  match active_leg lt_spot plan, active_leg lt_perp plan with
  | Some spotLeg, Some perpLeg =>
      let deviation := hedge_deviation spotLeg perpLeg in
      let status0 := if bool_decide (le_status spotLeg = ls_completed) && bool_decide (le_status perpLeg = ls_completed)
                     then hs_balanced else hs_pending in
      let breached := d_gt deviation (mp_maxHedgeDeviationPct plan) in
      Ok {| hg_id := "hedge_" +:+ mp_id plan; hg_planId := mp_id plan; hg_carryActionId := mp_carryActionId plan;
            hg_asset := mp_asset plan; hg_pairType := spot_perp; hg_spotLeg := spotLeg; hg_perpLeg := perpLeg;
            hg_notionalUsd := mp_notionalUsd plan; hg_hedgeDeviationPct := deviation;
            hg_maxAllowedDeviationPct := mp_maxHedgeDeviationPct plan;
            hg_status := if breached && bool_decide (status0 = hs_balanced) then hs_imbalanced else status0;
            hg_imbalanceDirection :=
              if breached
              then Some (if d_gt (executed_or_zero spotLeg) (executed_or_zero perpLeg) then spot_heavy else perp_heavy)
              else None;
            hg_imbalanceThresholdBreached := breached; hg_lastCalculatedAt := now;
            hg_createdAt := now; hg_updatedAt := now |}
  | _, _ => Err (Error_ "Cannot calculate hedge state: missing spot or perp leg")
  end.

(** ** Partial failures *)

(** [list.indexOf(x)]: -1 when absent. *)
Fixpoint index_of (x : Z) (l : list Z) : Z :=
  match l with
  | [] => -1
  | y :: l' => if x =? y then 0 else let i := index_of x l' in if i <? 0 then -1 else i + 1
  end.

(** [list.slice(0, k)]: a negative [k] counts from the end. *)
Definition slice_to {A} (k : Z) (l : list A) : list A :=
  if k <? 0 then take (Z.to_nat (Z.of_nat (length l) + k)) l else take (Z.to_nat k) l.

Definition determinePartialFailureAction (plan : MultiLegPlan) (failedLegSequence : Z)
    (config : PartialFailureHandling) : PartialFailureHandling :=
  let failedLegIndex := index_of failedLegSequence (mp_executionOrder plan) in
  match pf_action config with
  | fa_rollback => MkFailureHandling fa_rollback None (Some (slice_to failedLegIndex (mp_executionOrder plan)))
  | fa_wait => MkFailureHandling fa_wait (Some (or_else (pf_waitTimeoutMs config) 30000)) None
  | fa_continue => MkFailureHandling fa_continue None None
  end.

(** ** Status, result, validation *)

Definition every_status (p : LegStatus -> bool) (plan : MultiLegPlan) : bool := forallb (fun l => p (le_status l)) (mp_legs plan).
Definition some_status (s : LegStatus) (plan : MultiLegPlan) : bool :=
  existsb (fun l => bool_decide (le_status l = s)) (mp_legs plan).

Definition updatePlanStatus (plan : MultiLegPlan) : PlanStatus :=
  if every_status (fun s => bool_decide (s = ls_completed)) plan then pl_completed
  else if every_status (fun s => bool_decide (s = ls_failed) || bool_decide (s = ls_cancelled)) plan then pl_failed
  else if some_status ls_executing plan then pl_executing
  else if some_status ls_completed plan && some_status ls_failed plan then pl_partial
  else if some_status ls_cancelled plan then pl_cancelled
  else pl_pending.

Definition count_status (s : LegStatus) (plan : MultiLegPlan) : Z :=
  Z.of_nat (length (List.filter (fun l => bool_decide (le_status l = s)) (mp_legs plan))).

Definition outcome_summary (plan : MultiLegPlan) : string :=
  let total := z_str (mp_legCount plan) in
  match mp_status plan with
  | pl_completed => "All " +:+ total +:+ " legs completed successfully"
  | pl_partial => "Partial completion: " +:+ z_str (count_status ls_completed plan) +:+ "/" +:+ total
                  +:+ " legs completed, " +:+ z_str (count_status ls_failed plan) +:+ " failed"
  | pl_failed => "Execution failed: " +:+ z_str (count_status ls_failed plan) +:+ "/" +:+ total +:+ " legs failed"
  | s => "Execution " +:+ plan_status_str s
  end.

Definition leg_result (l : LegExecution) : LegResult := {|
  lr_legId := le_id l; lr_legSequence := le_legSequence l; lr_status := le_status l; lr_filledSize := le_filledSize l;
  lr_averageFillPrice := le_averageFillPrice l; lr_venueExecutionReference := le_venueExecutionReference l;
  lr_error := le_lastError l |}.

Definition buildExecutionResult (now : Z) (plan : MultiLegPlan) : ExecutionResult := {|
  er_planId := mp_id plan; er_status := mp_status plan; er_completedLegs := count_status ls_completed plan;
  er_failedLegs := count_status ls_failed plan; er_skippedLegs := count_status ls_skipped plan;
  er_totalLegs := mp_legCount plan;
  er_hedgeDeviationPct := match calculateHedgeState now plan with Ok h => Some (hg_hedgeDeviationPct h) | Err _ => None end;
  er_outcomeSummary := outcome_summary plan; er_legResults := map leg_result (mp_legs plan) |}.

Definition leg_of_type (t : LegType) (plan : MultiLegPlan) : option LegExecution :=
  List.find (fun l => bool_decide (le_legType l = t)) (mp_legs plan).

Definition coordination_errors (plan : MultiLegPlan) : list string :=
  if bool_decide (mp_planType plan = delta_neutral_carry) then
    match leg_of_type lt_spot plan, leg_of_type lt_perp plan with
    | Some spotLeg, Some perpLeg =>
        push_if (bool_decide (le_side spotLeg = le_side perpLeg))
          "Delta-neutral plan requires opposite sides for spot and perp legs"
    | _, _ => ["Delta-neutral plan must have exactly one spot and one perp leg"]
    end
  else [].

Definition validateMultiLegPlan (plan : MultiLegPlan) : ValidationResult :=
  let uniqueVenues := remove_dups (map le_venueId (mp_legs plan)) in
  let total := fold_left (fun sum l => d_plus sum (le_targetNotionalUsd l)) (mp_legs plan) (dec_of_Z 0) in
  let hasIncrease := existsb (fun l => bool_decide (le_side l = sd_long)) (mp_legs plan) in
  let hasDecrease := existsb (fun l => bool_decide (le_side l = sd_short)) (mp_legs plan) in
  let errors := coordination_errors plan in
  {| vr_valid := is_empty errors; vr_errors := errors;
     vr_warnings :=
       push_if (negb (Z.of_nat (length uniqueVenues) =? Z.of_nat (length (mp_legs plan))))
         "Multiple legs use the same venue; ensure this is intentional" ++
       push_if (negb (d_eq total (mp_notionalUsd plan)))
         ("Target notional (" +:+ d_toFixed total +:+ ") does not match plan notional ("
          +:+ d_toFixed (mp_notionalUsd plan) +:+ ")") ++
       push_if (hasIncrease && hasDecrease)
         "Plan has both long and short legs; verify hedge direction is correct" |}.
End Create.

(** ** The execution order *)

Lemma NoDup_split_unique {A} (a1 b1 : list A) x a2 b2 :
  NoDup (a1 ++ x :: a2) -> a1 ++ x :: a2 = b1 ++ x :: b2 -> a1 = b1 /\ a2 = b2.
Proof.
  revert b1. induction a1 as [|y a1 IH]; intros [|z b1] Hn E; cbn in *.
  - by injection E.
  - injection E as <- ->. apply NoDup_cons in Hn as [Hn _]. destruct Hn. apply elem_of_app. right. by left.
  - injection E as -> E. apply NoDup_cons in Hn as [Hn _]. destruct Hn. apply elem_of_app. right. by left.
  - injection E as -> E. apply NoDup_cons in Hn as [_ Hn]. by destruct (IH b1 Hn E) as [-> ->].
Qed.

Section Order.
Context `{DL : DecimalLib}.
Variable legs : list LegDefinition.

Definition sequences : list Z := map ld_legSequence legs.

(** [a] depends directly on [b]; a dependency on a leg that is not in the plan
    is ignored, as in the source. *)
Definition depends (a b : Z) : Prop :=
  exists leg dep, leg ∈ legs /\ ld_legSequence leg = a /\ dependency legs leg = Some dep /\ ld_legSequence dep = b.

(** No leg depends on itself, directly or not. *)
Definition acyclic : Prop := forall a, ~ tc depends a a.

(** [a] comes before [b]. *)
Definition before (l : list Z) (a b : Z) : Prop := exists l1 l2, l = l1 ++ b :: l2 /\ a ∈ l1.

(** Every leg comes after the leg it depends on. *)
Definition respects (l : list Z) : Prop := forall a b, a ∈ l -> depends a b -> before l b a.

Hypothesis Hnodup : NoDup sequences.

Lemma leg_of_sequence l1 l2 : l1 ∈ legs -> l2 ∈ legs -> ld_legSequence l1 = ld_legSequence l2 -> l1 = l2.
Proof.
  intros H1 H2 E. unfold sequences in Hnodup.
  apply list_elem_of_lookup in H1 as [i Hi]. apply list_elem_of_lookup in H2 as [j Hj].
  assert (i = j) as ->; [|congruence].
  eapply NoDup_lookup; [exact Hnodup| |]; rewrite list_lookup_fmap.
  - by rewrite Hi.
  - by rewrite Hj, E.
Qed.

Lemma dependency_leg leg dep : dependency legs leg = Some dep -> dep ∈ legs.
Proof.
  unfold dependency. destruct (ld_dependsOn leg) as [d|]; [|done]. cbn. intros [H _]%List.find_some.
  by apply list_elem_of_In.
Qed.

Lemma depends_leg leg b : leg ∈ legs -> depends (ld_legSequence leg) b ->
  exists dep, dependency legs leg = Some dep /\ ld_legSequence dep = b.
Proof.
  intros Hl (leg' & dep & Hl' & E & Hd & Hb). rewrite (leg_of_sequence _ _ Hl Hl') by done. by exists dep.
Qed.

Lemma before_snoc l x a b : before l a b -> before (l ++ [x]) a b.
Proof. intros (l1 & l2 & -> & H). exists l1, (l2 ++ [x]). split; [by rewrite <- app_assoc|done]. Qed.

(** What the search maintains. *)
Record search_ok (s : Search) : Prop := {
  so_visited : forall x, x ∈ visited s <-> x ∈ order s;
  so_nodup : NoDup (order s);
  so_legs : forall x, x ∈ order s -> x ∈ sequences;
  so_respects : respects (order s);
  so_apart : forall x, x ∈ visiting s -> x ∉ order s;
  so_path : NoDup (visiting s);
  so_path_legs : forall x, x ∈ visiting s -> x ∈ sequences;
}.

Lemma search_push s x : search_ok s -> x ∈ sequences -> x ∉ order s -> x ∉ visiting s ->
  search_ok (MkSearch (visited s) (x :: visiting s) (order s)).
Proof.
  intros [] Hx Ho Hv. constructor; cbn; try done.
  - intros y [-> | Hy]%elem_of_cons; auto.
  - by constructor.
  - intros y [-> | Hy]%elem_of_cons; auto.
Qed.

Lemma set_delete_head x l : x ∉ l -> set_delete x (x :: l) = l.
Proof.
  intros Hx. unfold set_delete. cbn. rewrite bool_decide_true by done. cbn.
  induction l as [|y l IH]; [done|]. rewrite not_elem_of_cons in Hx. destruct Hx as [Hne Hx]. cbn.
  rewrite bool_decide_false by congruence. cbn. by rewrite IH.
Qed.

Lemma search_finish s x v : search_ok s -> visiting s = x :: v -> x ∈ sequences ->
  (forall b, depends x b -> b ∈ order s) ->
  search_ok (MkSearch (x :: visited s) (set_delete x (visiting s)) (order s ++ [x])) /\
  set_delete x (visiting s) = v.
Proof.
  intros [Hv Hn Hl Hr Ha Hp Hpl] Ev Hx Hd. rewrite Ev in *. apply NoDup_cons in Hp as [Hxv Hp].
  rewrite set_delete_head by done. split; [|done].
  assert (Hxo : x ∉ order s) by (apply Ha; by left).
  constructor; cbn.
  - intros y. rewrite elem_of_cons, elem_of_app, list_elem_of_singleton, Hv. tauto.
  - apply NoDup_app. split_and!; [done| |apply NoDup_singleton]. by intros y Hy ->%list_elem_of_singleton.
  - intros y [Hy | ->%list_elem_of_singleton]%elem_of_app; auto.
  - intros a b [Hy | ->%list_elem_of_singleton]%elem_of_app Hdep; [by apply before_snoc, Hr|].
    exists (order s), []. split; [done|]. by apply Hd.
  - intros y Hy [Hy' | ->%list_elem_of_singleton]%elem_of_app; [|done]. by apply (Ha y); [right|].
  - done.
  - intros y Hy. apply Hpl. by right.
Qed.

(** The search from a leg: it never runs out of fuel, reports a circle only if
    there is one, and otherwise appends the leg after its dependencies. *)
Lemma visit_spec fuel leg s :
  search_ok s -> leg ∈ legs -> (forall v, v ∈ visiting s -> tc depends v (ld_legSequence leg)) ->
  (length legs < fuel + length (visiting s))%nat ->
  match visit legs fuel leg s with
  | OutOfFuel => False
  | Circular => exists a, tc depends a a
  | Done s' => search_ok s' /\ visiting s' = visiting s /\ ld_legSequence leg ∈ order s' /\
               forall x, x ∈ order s -> x ∈ order s'
  end.
Proof.
  revert leg s. induction fuel as [|fuel IH]; intros leg s Hs Hleg Hpath Hfuel.
  { cbn in *. assert (length (visiting s) <= length sequences)%nat; [|unfold sequences in *; rewrite length_map in *; lia].
    apply submseteq_length, NoDup_submseteq; [apply Hs|]. intros x. apply Hs. }
  assert (Hin : ld_legSequence leg ∈ sequences) by (by apply list_elem_of_fmap_2).
  cbn [visit]. unfold set_has. case_bool_decide as Hvis.
  { split_and!; try done. by apply Hs. }
  case_bool_decide as Hcyc; [by exists (ld_legSequence leg); apply Hpath|].
  assert (Hs1 := search_push s _ Hs Hin (fun H => Hvis (proj2 (so_visited _ Hs _) H)) Hcyc).
  set (s1 := MkSearch (visited s) (ld_legSequence leg :: visiting s) (order s)) in *.
  assert (Hfin : forall s2, search_ok s2 -> visiting s2 = visiting s1 -> (forall x, x ∈ order s -> x ∈ order s2) ->
    (forall b, depends (ld_legSequence leg) b -> b ∈ order s2) ->
    let s3 := MkSearch (ld_legSequence leg :: visited s2) (set_delete (ld_legSequence leg) (visiting s2))
                (order s2 ++ [ld_legSequence leg]) in
    search_ok s3 /\ visiting s3 = visiting s /\ ld_legSequence leg ∈ order s3 /\ forall x, x ∈ order s -> x ∈ order s3).
  { intros s2 H2 Ev Ho Hd. destruct (search_finish s2 _ _ H2 Ev Hin Hd) as [H3 E3].
    split_and!; [done|done|cbn; apply elem_of_app; right; by left|]. intros x Hx. cbn. apply elem_of_app. left. by apply Ho. }
  destruct (dependency legs leg) as [dep|] eqn:Hdep.
  - assert (Hd1 : depends (ld_legSequence leg) (ld_legSequence dep)) by (by exists leg, dep).
    specialize (IH dep s1 Hs1 (dependency_leg _ _ Hdep)).
    destruct (visit legs fuel dep s1) as [s2| |]; try (apply IH).
    1: destruct IH as (H2 & Ev & Hdo & Ho); [| |apply Hfin; try done].
    all: try (cbn; lia).
    all: try (intros v [-> | Hv]%elem_of_cons; [by apply tc_once|eapply tc_r; [by apply Hpath|done]]).
    intros b Hb. destruct (depends_leg leg b Hleg Hb) as (dep' & E' & <-). congruence.
  - apply Hfin; try done. intros b Hb. destruct (depends_leg leg b Hleg Hb) as (dep' & E' & _). congruence.
Qed.

Lemma visit_all_spec todo s :
  search_ok s -> visiting s = [] -> (forall l, l ∈ todo -> l ∈ legs) ->
  match visit_all legs (S (length legs)) todo s with
  | OutOfFuel => False
  | Circular => exists a, tc depends a a
  | Done s' => search_ok s' /\ (forall x, x ∈ order s -> x ∈ order s') /\
               forall l, l ∈ todo -> ld_legSequence l ∈ order s'
  end.
Proof.
  revert s. induction todo as [|leg todo IH]; intros s Hs Hv Ht.
  { cbn. split_and!; [done|done|]. by intros l ?%elem_of_nil. }
  pose proof (visit_spec (S (length legs)) leg s Hs (Ht leg ltac:(left))) as Hvisit.
  cbn [visit_all]. destruct (visit legs (S (length legs)) leg s) as [s1| |].
  - destruct Hvisit as (H1 & E1 & Hin & Ho); [by rewrite Hv; intros v ?%elem_of_nil|rewrite Hv; cbn; lia|].
    specialize (IH s1 H1 ltac:(congruence) (fun l Hl => Ht l ltac:(by right))).
    destruct (visit_all _ _ todo s1) as [s2| |]; [|done|done]. destruct IH as (H2 & Ho2 & Hall). split_and!; [done|auto|].
    intros l [-> | Hl]%elem_of_cons; auto.
  - apply Hvisit; [by rewrite Hv; intros v ?%elem_of_nil|rewrite Hv; cbn; lia].
  - apply Hvisit; [by rewrite Hv; intros v ?%elem_of_nil|rewrite Hv; cbn; lia].
Qed.

Lemma search_start : search_ok (MkSearch [] [] []).
Proof.
  constructor; cbn; [done|constructor|by intros ? ?%elem_of_nil| |by intros ? ?%elem_of_nil|constructor|by intros ? ?%elem_of_nil].
  by intros a b ?%elem_of_nil.
Qed.

Lemma respects_tc l : respects l -> (forall a b, depends a b -> a ∈ l) -> NoDup l ->
  forall a b, tc depends a b -> before l b a.
Proof.
  intros Hr Hall Hn a b Hab. induction Hab as [a b Hab|a b c Hab _ (l1 & l2 & El & Hc)]; [by apply Hr; [by eapply Hall|]|].
  destruct (Hr a b (Hall _ _ Hab) Hab) as (m1 & m2 & Em & Hb). apply list_elem_of_split in Hb as (n1 & n2 & ->).
  exists (n1 ++ b :: n2), m2. split; [exact Em|].
  rewrite <- app_assoc in Em. cbn in Em.
  destruct (NoDup_split_unique n1 l1 b (n2 ++ a :: m2) l2) as [-> _]; [by rewrite <- Em|congruence|].
  apply elem_of_app. by left.
Qed.
End Order.

Section Plans.
Context `{DL : DecimalLib}.

Lemma first_gap_none i l : first_gap i l = None <-> l = seqZ i (Z.of_nat (length l)).
Proof.
  revert i. induction l as [|x l IH]; intros i; [done|]. cbn [first_gap length].
  rewrite seqZ_cons by lia. replace (Z.pred (Z.of_nat (S (length l)))) with (Z.of_nat (length l)) by lia.
  destruct (Z.eqb_spec x i) as [->|Hne].
  - rewrite Z.add_1_r, IH. split; [congruence|by intros [= ?]].
  - split; [done|]. intros [= ? _]. congruence.
Qed.

Lemma seqZ_sorted i n : StronglySorted Z.le (seqZ i (Z.of_nat n)).
Proof.
  revert i. induction n as [|n IH]; intros i; [constructor|]. rewrite seqZ_cons by lia.
  replace (Z.pred (Z.of_nat (S n))) with (Z.of_nat n) by lia. constructor; [apply IH|].
  apply Forall_forall. intros x Hx%elem_of_seqZ. lia.
Qed.

(** The sequence numbers pass the check exactly when they are 1, ..., n. *)
Lemma sequences_contiguous (legs : list LegDefinition) :
  first_gap 1 (sorted_sequences legs) = None <-> sequences legs ≡ₚ seqZ 1 (Z.of_nat (length legs)).
Proof.
  assert (Hp : sorted_sequences legs ≡ₚ sequences legs) by apply js_sort_perm.
  assert (Hl : length (sorted_sequences legs) = length legs).
  { rewrite Hp. unfold sequences. apply length_map. }
  rewrite first_gap_none, Hl. split; [intros E; by rewrite <- Hp, E|]. intros Hs.
  apply (StronglySorted_unique Z.le); [|apply seqZ_sorted|by rewrite Hp].
  assert (Ho : in_order (fun a b => a - b <? 0) (sorted_sequences legs)).
  { apply js_sort_in_order; intros *; rewrite ?Z.ltb_lt, ?Z.ltb_ge; lia. }
  clear Hp Hl. induction Ho as [|x l _ IH Hx]; [constructor|]. constructor; [done|].
  eapply Forall_impl; [exact Hx|]. cbn. intros y Hy. apply Z.ltb_ge in Hy. lia.
Qed.

Lemma seqZ_NoDup_perm l n : l ≡ₚ seqZ 1 n -> NoDup l.
Proof. intros ->. apply NoDup_seqZ. Qed.

Lemma computeExecutionOrder_spec (legs : list LegDefinition) :
  NoDup (sequences legs) ->
  (computeExecutionOrder legs = [] /\ exists a, tc (depends legs) a a) \/
  (computeExecutionOrder legs ≡ₚ sequences legs /\ respects legs (computeExecutionOrder legs)).
Proof.
  intros Hn. unfold computeExecutionOrder.
  pose proof (visit_all_spec legs Hn legs _ (search_start legs) eq_refl (fun l H => H)) as H.
  destruct (visit_all _ _ _ _) as [s| |]; [right|left|done].
  - destruct H as (Hs & _ & Hall). split; [|apply Hs]. apply NoDup_Permutation; [apply Hs|done|].
    intros x. split; [apply Hs|]. unfold sequences. intros (l & -> & Hl)%list_elem_of_fmap. by apply Hall.
  - done.
Qed.

Lemma depends_sequences legs a b : depends legs a b -> a ∈ sequences legs.
Proof. intros (l & _ & Hl & <- & _). by apply list_elem_of_fmap_2. Qed.

Lemma respects_acyclic legs l : NoDup (sequences legs) -> l ≡ₚ sequences legs -> respects legs l -> acyclic legs.
Proof.
  intros Hn Hp Hr a Ha. assert (Hl : NoDup l) by by rewrite Hp.
  destruct (respects_tc legs l Hr) with (a := a) (b := a) as (l1 & l2 & -> & Hin); [|done|done|].
  - intros x y Hxy. rewrite Hp. by eapply depends_sequences.
  - apply NoDup_app in Hl as (_ & Hl & _). by apply (Hl a Hin); left.
Qed.

(** ** Properties *)

(** A plan is created exactly for at least one leg, sequence numbers
    1, ..., n in any order, and dependencies without a circle; the search never
    runs out of fuel.  The execution order of a created plan contains every leg
    once, each after the leg it depends on; all legs start as pending. *)
Theorem plan_created_exactly (now ms : Z) (input : MultiLegPlanInput) :
  let legs := mi_legs input in
  ((exists plan, createMultiLegPlan now ms input = Ok plan) <->
     legs <> [] /\ sequences legs ≡ₚ seqZ 1 (Z.of_nat (length legs)) /\ acyclic legs) /\
  forall plan, createMultiLegPlan now ms input = Ok plan ->
    mp_executionOrder plan ≡ₚ sequences legs /\ respects legs (mp_executionOrder plan) /\
    map le_legSequence (mp_legs plan) = sequences legs /\
    Forall (fun l => le_status l = ls_pending) (mp_legs plan) /\ updatePlanStatus plan = pl_pending.
Proof.
  cbn zeta. unfold createMultiLegPlan. set (legs := mi_legs input). destruct (is_empty legs) eqn:He.
  { apply is_empty_nil in He. split; [|done]. split; [by intros []|by intros [? _]]. }
  assert (Hne : legs <> []) by (intros E; by rewrite E in He).
  pose proof (sequences_contiguous legs) as Hseq. destruct (first_gap 1 (sorted_sequences legs)) as [i|].
  { split; [|done]. split; [by intros []|]. intros (_ & H%Hseq & _). done. }
  pose proof (proj1 Hseq eq_refl) as Hp. pose proof (seqZ_NoDup_perm _ _ Hp) as Hn.
  destruct (computeExecutionOrder_spec legs Hn) as [[E (a & Ha)]|[E Hr]].
  { rewrite E. cbn [length]. destruct legs as [|l legs']; [done|]. cbn [length].
    rewrite (proj2 (Z.eqb_neq _ _)) by lia. cbn [negb]. split; [|done]. split; [by intros []|].
    intros (_ & _ & Hc). by destruct (Hc a). }
  assert (length (computeExecutionOrder legs) = length legs) as -> by (rewrite E; apply length_map).
  rewrite Z.eqb_refl. cbn [negb]. split.
  - split; [|by eexists]. intros _. split_and!; [done|done|by eapply respects_acyclic].
  - intros plan [= <-]. cbn. rewrite map_map. split_and!; [done|done|done|by apply Forall_map, Forall_true|].
    unfold updatePlanStatus, every_status, some_status. cbn. destruct legs as [|l legs']; [done|]. cbn.
    assert (forall s, s <> ls_pending ->
      existsb (fun x => bool_decide (le_status x = s)) (map (create_leg ("plan_" +:+ z_str ms) (mi_carryActionId input) now) legs') = false) as Hs.
    { intros s Hs. induction legs' as [|x xs IH] in |- *; [done|]. cbn. rewrite bool_decide_false by done. apply IH. }
    rewrite !Hs by done. done.
Qed.

Lemma index_of_elem x l : x ∈ l -> exists l1 l2, l = l1 ++ x :: l2 /\ x ∉ l1 /\ index_of x l = Z.of_nat (length l1).
Proof.
  induction l as [|y l IH]; [by intros ?%elem_of_nil|]. cbn [index_of]. destruct (Z.eqb_spec x y) as [->|Hne].
  - intros _. exists [], l. split_and!; [done|by intros ?%elem_of_nil|done].
  - intros [?|Hx]%elem_of_cons; [done|]. destruct (IH Hx) as (l1 & l2 & -> & Hn & ->). exists (y :: l1), l2.
    split_and!; [done|by intros [?|?]%elem_of_cons|]. rewrite (proj2 (Z.ltb_ge _ _)) by lia. cbn [length]. lia.
Qed.

(** C36. Rolling back after a failed leg of the plan undoes exactly the legs
    executed before it; none of them depends on the failed leg, directly or
    through others, and they contain everything the failed leg depends on. *)
Theorem rollback_undoes_executed_legs (now ms : Z) (input : MultiLegPlanInput) (plan : MultiLegPlan) (failedLeg : Z)
    (config : PartialFailureHandling)
    (Hplan : createMultiLegPlan now ms input = Ok plan) (Hin : failedLeg ∈ mp_executionOrder plan)
    (Hact : pf_action config = fa_rollback) :
  exists undone rest, determinePartialFailureAction plan failedLeg config = MkFailureHandling fa_rollback None (Some undone) /\
    mp_executionOrder plan = undone ++ failedLeg :: rest /\
    (forall a, a ∈ undone -> a <> failedLeg /\ ~ tc (depends (mi_legs input)) a failedLeg) /\
    (forall b, tc (depends (mi_legs input)) failedLeg b -> b ∈ undone).
Proof.
  assert (Hplan' : mp_executionOrder plan ≡ₚ sequences (mi_legs input) /\
    respects (mi_legs input) (mp_executionOrder plan) /\ NoDup (sequences (mi_legs input))).
  { revert Hplan. unfold createMultiLegPlan. destruct (is_empty (mi_legs input)) eqn:He; [done|].
    pose proof (sequences_contiguous (mi_legs input)) as Hseq. destruct (first_gap _ _); [done|].
    pose proof (seqZ_NoDup_perm _ _ (proj1 Hseq eq_refl)) as Hn.
    destruct (computeExecutionOrder_spec _ Hn) as [[E _]|[E Hr]].
    - rewrite E. destruct (mi_legs input) as [|y ys]; [done|]. cbn [length]. by rewrite (proj2 (Z.eqb_neq _ _)) by lia.
    - destruct (negb _); [done|]. by intros [= <-]. }
  destruct Hplan' as (Hp & Hr & Hn).
  destruct (index_of_elem failedLeg _ Hin) as (l1 & l2 & E & Hnot & Ei).
  assert (Hl : NoDup (mp_executionOrder plan)) by by rewrite Hp.
  assert (Hbefore := respects_tc (mi_legs input) _ Hr (fun a b Hab => proj2 (elem_of_Permutation_proper _ _ _ Hp) (depends_sequences _ a b Hab)) Hl).
  exists l1, l2. unfold determinePartialFailureAction. rewrite Hact, Ei. unfold slice_to.
  rewrite (proj2 (Z.ltb_ge _ _)) by lia. rewrite Nat2Z.id, E, take_app_length. split_and!; [done|done| |].
  - intros a Ha. split; [by intros ->|]. intros Hdep. destruct (Hbefore _ _ Hdep) as (m1 & m2 & Em & Hm).
    apply list_elem_of_split in Hm as (n1 & n2 & ->). rewrite <- app_assoc in Em. cbn in Em.
    destruct (NoDup_split_unique n1 l1 failedLeg (n2 ++ a :: m2) l2) as [-> <-]; [by rewrite <- Em|congruence|].
    rewrite E in Hl. apply NoDup_app in Hl as (_ & Hl & _). apply (Hl a Ha). right. apply elem_of_app. right. by left.
  - intros b Hb. destruct (Hbefore _ _ Hb) as (m1 & m2 & Em & Hm).
    destruct (NoDup_split_unique m1 l1 failedLeg m2 l2) as [<- _]; [by rewrite <- Em|congruence|done].
Qed.
End Plans.

Section Hedge.
Context `{DL : DecimalLib} `{LW : !DecimalLaws}.

(** [d] is a size of [x] hundredths. *)
Definition size_of (d : dec) (x : Z) : Prop := units d (100 * x) /\ 0 <= x <= money_bound.

Lemma hedge_deviation_gt (spotLeg perpLeg : LegExecution) s p t k :
  size_of (executed_or_zero spotLeg) s -> size_of (executed_or_zero perpLeg) p ->
  size_of (le_targetSize spotLeg) t -> 0 <= k <= 100 ->
  d_gt (hedge_deviation spotLeg perpLeg) (dec_of_Z k) = (0 <? t) && (k * t <? 100 * Z.abs (s - p)).
Proof.
  intros [Us Bs] [Up Bp] [Ut Bt] Hk. unfold hedge_deviation. unfold money_bound in *.
  rewrite (units_gt _ _ _ _ Ut units_zero). replace (0 <? 100 * t) with (0 <? t) by lia.
  destruct (Z.ltb_spec 0 t); cbn [andb].
  - apply units_share; try (unfold money_bound; lia); [|done].
    replace (100 * Z.abs (s - p)) with (Z.abs (100 * s - 100 * p)) by lia. apply units_abs, units_minus; [done|done|lia].
  - rewrite (d_gt_fin _ _ _ _ d_zero_fin (d_of_int k ltac:(lia))). apply Qltb_false. unfold Qle, inject_Z; cbn. lia.
Qed.

(** The hedge state: with a live spot and a live perp leg the sizes are
    compared exactly against the allowed deviation; the plan is balanced when
    both legs are completed within it, imbalanced when both are completed
    beyond it, and pending otherwise; a breach names the heavier leg. *)
Theorem hedge_state_exact (now : Z) (plan : MultiLegPlan) (spotLeg perpLeg : LegExecution) (s p t k : Z)
    (Hspot : active_leg lt_spot plan = Some spotLeg) (Hperp : active_leg lt_perp plan = Some perpLeg)
    (Hs : size_of (executed_or_zero spotLeg) s) (Hp : size_of (executed_or_zero perpLeg) p)
    (Ht : size_of (le_targetSize spotLeg) t) (Hmax : mp_maxHedgeDeviationPct plan = dec_of_Z k) (Hk : 0 <= k <= 100) :
  let exceeded := 0 < t /\ k * t < 100 * Z.abs (s - p) in
  let finished := le_status spotLeg = ls_completed /\ le_status perpLeg = ls_completed in
  exists h, calculateHedgeState now plan = Ok h /\
    (hg_imbalanceThresholdBreached h = true <-> exceeded) /\
    (hg_status h = hs_balanced <-> finished /\ ~ exceeded) /\
    (hg_status h = hs_imbalanced <-> finished /\ exceeded) /\
    (hg_status h = hs_pending <-> ~ finished) /\
    (hg_imbalanceDirection h = Some spot_heavy <-> exceeded /\ p < s) /\
    (hg_imbalanceDirection h = Some perp_heavy <-> exceeded /\ s <= p) /\
    (le_status (hg_spotLeg h) <> ls_failed /\ le_status (hg_perpLeg h) <> ls_failed).
Proof.
  cbn zeta. unfold calculateHedgeState. rewrite Hspot, Hperp, Hmax, (hedge_deviation_gt _ _ s p t k) by done.
  destruct Hs as [Us _], Hp as [Up _]. rewrite (units_gt _ _ _ _ Us Up). eexists. split; [done|]. cbn.
  assert (Hf : le_status spotLeg <> ls_failed /\ le_status perpLeg <> ls_failed).
  { unfold active_leg in Hspot, Hperp.
    apply List.find_some in Hspot as [_ [_ H1%negb_true_iff]%andb_true_iff].
    apply List.find_some in Hperp as [_ [_ H2%negb_true_iff]%andb_true_iff].
    by apply bool_decide_eq_false in H1, H2. }
  assert (He : (0 < t /\ k * t < 100 * Z.abs (s - p)) <-> (0 <? t) && (k * t <? 100 * Z.abs (s - p)) = true)
    by (by rewrite andb_true_iff, !Z.ltb_lt).
  assert (Hc : (le_status spotLeg = ls_completed /\ le_status perpLeg = ls_completed) <->
    bool_decide (le_status spotLeg = ls_completed) && bool_decide (le_status perpLeg = ls_completed) = true)
    by (by rewrite andb_true_iff, !bool_decide_eq_true).
  assert (Hd : p < s <-> (100 * p <? 100 * s) = true) by lia.
  assert (Hd' : s <= p <-> (100 * p <? 100 * s) = false) by lia.
  rewrite He, Hc, Hd, Hd'. clear -Hf.
  set (e := (0 <? t) && _). set (c := bool_decide (le_status spotLeg = ls_completed) && _). clearbody e c.
  destruct e, c, (100 * p <? 100 * s); cbn; rewrite ?bool_decide_true, ?bool_decide_false by done; split_and!;
    try (by apply Hf); intuition congruence.
Qed.
End Hedge.

(** ** Concrete inputs *)

Definition sample_leg (seq : Z) (t : LegType) (side : LegSide) (dep : option Z) : LegDefinition :=
  MkLegDefinition seq t side "sim" "BTC" None (DFin 2) (DFin 1000) dep.
Definition sample_coordination : SpotPerpCoordinationConfig := DEFAULT_SPOT_PERP_COORDINATION_CONFIG.
Definition sample_plan_input (legs : list LegDefinition) : MultiLegPlanInput :=
  MkPlanInput "action-1" None "BTC" (DFin 1000) legs sample_coordination (dec_of_Z 1).

(** The spot leg waits for the perp leg, a third leg for both. *)
Definition sample_legs : list LegDefinition :=
  [sample_leg 3 lt_futures sd_long (Some 1); sample_leg 1 lt_spot sd_long (Some 2); sample_leg 2 lt_perp sd_short None].

Definition order_of (r : Result MultiLegPlan JsError) : list Z + string :=
  match r with Ok p => inl (mp_executionOrder p) | Err e => inr (err_message e) end.

Example sample_orders :
  order_of (createMultiLegPlan 0 7 (sample_plan_input sample_legs)) = inl [2; 1; 3] /\
  order_of (createMultiLegPlan 0 7 (sample_plan_input [sample_leg 1 lt_spot sd_long (Some 2); sample_leg 2 lt_perp sd_short (Some 1)]))
    = inr "Circular dependency detected in leg dependencies" /\
  order_of (createMultiLegPlan 0 7 (sample_plan_input [sample_leg 1 lt_spot sd_long None; sample_leg 3 lt_perp sd_short None]))
    = inr "Leg sequences must be contiguous starting from 1. Missing: 2".
Proof. vm_compute. done. Qed.

(** A dependency on a leg outside the plan is ignored. *)
Example missing_dependency_ignored :
  order_of (createMultiLegPlan 0 7 (sample_plan_input [sample_leg 1 lt_spot sd_long (Some 9)])) = inl [1].
Proof. vm_compute. done. Qed.

Definition empty_plan : MultiLegPlan :=
  MkPlan "" "" None custom "" (DFin 0) 0 [] [] pl_pending sample_coordination (DFin 0) None 0 0.
Definition plan_or_empty (r : Result MultiLegPlan JsError) : MultiLegPlan := match r with Ok p => p | Err _ => empty_plan end.
Lemma plan_or_empty_ok r : isOk r = true -> r = Ok (plan_or_empty r).
Proof. by destruct r. Defined.

Definition sample_plan : MultiLegPlan := plan_or_empty (createMultiLegPlan 0 7 (sample_plan_input sample_legs)).

(** Rolling back for a leg that is not in the plan names all legs but the last. *)
Example unknown_failed_leg :
  pf_rollbackLegs (determinePartialFailureAction sample_plan 8 (MkFailureHandling fa_rollback None None)) = Some [2; 1].
Proof. vm_compute. done. Qed.

Lemma rollback_undoes_executed_legs_witness :
  exists undone rest, determinePartialFailureAction sample_plan 1 (MkFailureHandling fa_rollback None None)
      = MkFailureHandling fa_rollback None (Some undone) /\
    mp_executionOrder sample_plan = undone ++ 1 :: rest /\
    (forall a, a ∈ undone -> a <> 1 /\ ~ tc (depends sample_legs) a 1) /\
    (forall b, tc (depends sample_legs) 1 b -> b ∈ undone).
Proof.
  apply (rollback_undoes_executed_legs 0 7 (sample_plan_input sample_legs) sample_plan 1
    (MkFailureHandling fa_rollback None None)).
  - apply plan_or_empty_ok. vm_compute. reflexivity.
  - vm_compute. right. left.
  - reflexivity.
Defined.

(** A leg that executed [x] dollars' worth of size. *)
Definition executed_leg (t : LegType) (x : Q) : LegExecution :=
  MkLegExecution "l" "p" "a" 1 None t sd_long "sim" "BTC" None (DFin 100) (DFin 1000) (Some (DFin x)) None ls_completed
    lm_dry_run true None None None 0 3 None 0 0.
Definition sample_hedged_plan : MultiLegPlan :=
  MkPlan "p" "a" None delta_neutral_carry "BTC" (DFin 1000) 2 [executed_leg lt_spot 100; executed_leg lt_perp 98] [1; 2]
    pl_completed sample_coordination (dec_of_Z 1) None 0 0.

Lemma hedge_state_exact_witness :
  let exceeded := 0 < 10000 /\ 1 * 10000 < 100 * Z.abs (10000 - 9800) in
  let finished := ls_completed = ls_completed /\ ls_completed = ls_completed in
  exists h, calculateHedgeState 5 sample_hedged_plan = Ok h /\
    (hg_imbalanceThresholdBreached h = true <-> exceeded) /\
    (hg_status h = hs_balanced <-> finished /\ ~ exceeded) /\
    (hg_status h = hs_imbalanced <-> finished /\ exceeded) /\
    (hg_status h = hs_pending <-> ~ finished) /\
    (hg_imbalanceDirection h = Some spot_heavy <-> exceeded /\ 9800 < 10000) /\
    (hg_imbalanceDirection h = Some perp_heavy <-> exceeded /\ 10000 <= 9800) /\
    (le_status (hg_spotLeg h) <> ls_failed /\ le_status (hg_perpLeg h) <> ls_failed).
Proof.
  apply (hedge_state_exact 5 sample_hedged_plan (executed_leg lt_spot 100) (executed_leg lt_perp 98) 10000 9800 10000 1);
    try reflexivity; try lia; split; (reflexivity || (unfold money_bound; lia)).
Defined.
