(* ===== verification/MismatchLifecycle.v ===== *)
(** * The mismatch lifecycle (packages/runtime/src/mismatch-lifecycle.ts)

    A reconciliation mismatch is acknowledged, recovered, resolved, verified
    and possibly reopened.  Each [...NextStatus] function gives the next status
    or throws a [RuntimeMismatchLifecycleError]; its constant status code 409
    is not part of [JsError].  [run] is a history of requests: one that throws
    leaves the mismatch as it is, since the control plane computes the next
    status before it writes. *)
From Stdlib Require Import Ascii.
From S2P Require Import Prelude JsNumber JsValue.
Open Scope Z_scope.

Inductive RuntimeMismatchStatus := ms_open | ms_acknowledged | ms_recovering | ms_resolved | ms_verified | ms_reopened.
#[export] Instance RuntimeMismatchStatus_eq_dec : EqDecision RuntimeMismatchStatus.
Proof. solve_decision. Defined.
Definition mismatch_status_str (s : RuntimeMismatchStatus) : string :=
  match s with
  | ms_open => "open" | ms_acknowledged => "acknowledged" | ms_recovering => "recovering"
  | ms_resolved => "resolved" | ms_verified => "verified" | ms_reopened => "reopened"
  end.

Inductive RuntimeVerificationOutcome := vo_verified | vo_failed.
#[export] Instance RuntimeVerificationOutcome_eq_dec : EqDecision RuntimeVerificationOutcome.
Proof. solve_decision. Defined.

Inductive RuntimeMismatchAction :=
| ac_acknowledge | ac_start_recovery | ac_remediation_failed | ac_resolve | ac_verify | ac_reopen.
Definition action_str (a : RuntimeMismatchAction) : string :=
  match a with
  | ac_acknowledge => "acknowledge" | ac_start_recovery => "start_recovery"
  | ac_remediation_failed => "remediation_failed" | ac_resolve => "resolve" | ac_verify => "verify"
  | ac_reopen => "reopen"
  end.

Definition RuntimeMismatchLifecycleError (m : string) : JsError := MkError "RuntimeMismatchLifecycleError" m.
Definition RuntimeMismatchNotFoundError (m : string) : JsError := MkError "RuntimeMismatchNotFoundError" m.

(** [s.replace('_', ' ')]: the first underscore only. *)
Fixpoint replace_underscore (s : string) : string :=
  match s with
  | EmptyString => EmptyString
  | String c s' => if Ascii.eqb c "_"%char then String " "%char s' else String c (replace_underscore s')
  end.

Definition formatStatuses (l : list RuntimeMismatchStatus) : string := String.concat ", " (map mismatch_status_str l).

Definition assertAllowed (currentStatus : RuntimeMismatchStatus) (action : RuntimeMismatchAction)
    (allowed : list RuntimeMismatchStatus) : exn unit :=
  if bool_decide (currentStatus ∈ allowed) then Ret tt
  else Throw (RuntimeMismatchLifecycleError
    ("Cannot " +:+ replace_underscore (action_str action) +:+ " mismatch from status "
     +:+ quoted (mismatch_status_str currentStatus) +:+ ". Allowed statuses: " +:+ formatStatuses allowed +:+ ".")).

Definition acknowledgeNextStatus (s : RuntimeMismatchStatus) : exn RuntimeMismatchStatus :=
  if bool_decide (s = ms_acknowledged) then Ret s
  else _ ← assertAllowed s ac_acknowledge [ms_open; ms_reopened; ms_acknowledged]; Ret ms_acknowledged.

Definition recoveryNextStatus (s : RuntimeMismatchStatus) : exn RuntimeMismatchStatus :=
  if bool_decide (s = ms_recovering) then Ret s
  else _ ← assertAllowed s ac_start_recovery [ms_open; ms_acknowledged; ms_reopened; ms_recovering]; Ret ms_recovering.

Definition resolveNextStatus (s : RuntimeMismatchStatus) : exn RuntimeMismatchStatus :=
  if bool_decide (s = ms_resolved) then Ret s
  else _ ← assertAllowed s ac_resolve [ms_open; ms_acknowledged; ms_recovering; ms_reopened; ms_resolved]; Ret ms_resolved.

Definition remediationFailureNextStatus (s : RuntimeMismatchStatus) : exn RuntimeMismatchStatus :=
  if bool_decide (s = ms_reopened) then Ret s
  else _ ← assertAllowed s ac_remediation_failed [ms_recovering; ms_reopened]; Ret ms_reopened.

Definition verifyNextStatus (s : RuntimeMismatchStatus) (outcome : RuntimeVerificationOutcome) : exn RuntimeMismatchStatus :=
  if bool_decide (outcome = vo_verified) then
    if bool_decide (s = ms_verified) then Ret s
    else _ ← assertAllowed s ac_verify [ms_resolved; ms_verified]; Ret ms_verified
  else if bool_decide (s = ms_reopened) then Ret s
  else _ ← assertAllowed s ac_verify [ms_resolved; ms_reopened]; Ret ms_reopened.

Definition reopenNextStatus (s : RuntimeMismatchStatus) : exn RuntimeMismatchStatus :=
  if bool_decide (s = ms_reopened) then Ret s
  else _ ← assertAllowed s ac_reopen [ms_resolved; ms_verified; ms_reopened]; Ret ms_reopened.

Definition isActiveMismatchStatus (s : RuntimeMismatchStatus) : bool := negb (bool_decide (s = ms_verified)).

(** ** Histories *)

Inductive Request := Acknowledge | StartRecovery | RemediationFailed | Resolve | Verify (o : RuntimeVerificationOutcome) | Reopen.

Definition next_status (r : Request) (s : RuntimeMismatchStatus) : exn RuntimeMismatchStatus :=
  match r with
  | Acknowledge => acknowledgeNextStatus s
  | StartRecovery => recoveryNextStatus s
  | RemediationFailed => remediationFailureNextStatus s
  | Resolve => resolveNextStatus s
  | Verify o => verifyNextStatus s o
  | Reopen => reopenNextStatus s
  end.

Definition apply_request (s : RuntimeMismatchStatus) (r : Request) : RuntimeMismatchStatus :=
  match next_status r s with Ret s' => s' | Throw _ => s end.
Definition run (s : RuntimeMismatchStatus) (rs : list Request) : RuntimeMismatchStatus := fold_left apply_request rs s.

Inductive lifecycle_step : RuntimeMismatchStatus -> Request -> RuntimeMismatchStatus -> Prop :=
| st_ack s : s ∈ [ms_open; ms_reopened; ms_acknowledged] -> lifecycle_step s Acknowledge ms_acknowledged
| st_recover s : s ∈ [ms_open; ms_acknowledged; ms_reopened; ms_recovering] -> lifecycle_step s StartRecovery ms_recovering
| st_resolve s : s <> ms_verified -> lifecycle_step s Resolve ms_resolved
| st_remediation s : s ∈ [ms_recovering; ms_reopened] -> lifecycle_step s RemediationFailed ms_reopened
| st_verified s : s ∈ [ms_resolved; ms_verified] -> lifecycle_step s (Verify vo_verified) ms_verified
| st_rejected s : s ∈ [ms_resolved; ms_reopened] -> lifecycle_step s (Verify vo_failed) ms_reopened
| st_reopen s : s ∈ [ms_resolved; ms_verified; ms_reopened] -> lifecycle_step s Reopen ms_reopened.

(** The functions implement the step relation, and refuse everything else. *)
Lemma next_status_step r s s' : next_status r s = Ret s' <-> lifecycle_step s r s'.
Proof.
  split.
  - destruct r as [| | | |[]|], s; cbn; intros H; try discriminate H; injection H as <-; constructor;
      by (discriminate || (apply (bool_decide_unpack _); vm_compute)).
  - destruct 1 as [s H|s H|s H|s H|s H|s H|s H]; destruct s; try done;
      exfalso; apply (bool_decide_pack _) in H; by vm_compute in H.
Qed.

Lemma apply_request_cases s r : apply_request s r = s \/ lifecycle_step s r (apply_request s r).
Proof.
  unfold apply_request. destruct (next_status r s) as [s'|] eqn:E; [right; by apply next_status_step|by left].
Qed.

Lemma run_app s a b : run s (a ++ b) = run (run s a) b.
Proof. apply fold_left_app. Qed.

(** ** Properties *)

(** A mismatch is closed only by evidence: if a history ends in [verified]
    from another status, then at some point of it the mismatch was resolved, the
    next effective request was a successful verification, and nothing reopened
    it afterwards; a verified mismatch changes only by being reopened; the
    active statuses are the others, and each of them can still be closed. *)
Theorem closed_only_by_verification (s : RuntimeMismatchStatus) (rs : list Request)
    (Hs : s <> ms_verified) (Hrun : run s rs = ms_verified) :
  (exists before after, rs = before ++ Verify vo_verified :: after /\ run s before = ms_resolved /\
     forall p q, after = p ++ q -> run ms_verified p = ms_verified) /\
  (forall r s', next_status r ms_verified = Ret s' -> s' = ms_verified \/ (r = Reopen /\ s' = ms_reopened)) /\
  (forall s0, isActiveMismatchStatus s0 = true <-> s0 <> ms_verified) /\
  (forall s0, exists closing, run s0 closing = ms_verified).
Proof.
  assert (Hreopen : forall r s', next_status r ms_verified = Ret s' -> s' = ms_verified \/ (r = Reopen /\ s' = ms_reopened)).
  { intros r s' Hr%next_status_step. inversion Hr; subst; try (by left); try (by right); exfalso;
      match goal with H : _ ∈ _ |- _ => apply (bool_decide_pack _) in H; by vm_compute in H | H : _ <> _ |- _ => by apply H end. }
  split_and!; [|done| |].
  - induction rs as [|r rs IH] using rev_ind; [done|]. rewrite run_app in Hrun. cbn in Hrun.
    destruct (decide (run s rs = ms_verified)) as [E|E].
    + destruct (IH E) as (before & after & -> & Hb & Ha). exists before, (after ++ [r]). split_and!; [by rewrite <- app_assoc|done|].
      assert (Hall : run ms_verified after = ms_verified) by (by apply (Ha after []); rewrite app_nil_r).
      intros p q Hpq. destruct q as [|x q] using rev_ind.
      * rewrite app_nil_r in Hpq. rewrite <- Hpq, run_app, Hall. cbn. by rewrite E in Hrun.
      * rewrite app_assoc in Hpq. apply app_inj_tail in Hpq as [Hpq _]. by eapply Ha.
    + destruct (apply_request_cases (run s rs) r) as [Hc|Hc]; [congruence|]. rewrite Hrun in Hc.
      inversion Hc as [| | | |s0 Hin| |]; subst. exists rs, []. split_and!; [done| |].
      * rewrite !elem_of_cons, elem_of_nil in Hin. destruct Hin as [?|[?|[]]]; congruence.
      * intros p q Hpq. symmetry in Hpq. by apply app_eq_nil in Hpq as [-> _].
  - intros s0. unfold isActiveMismatchStatus. rewrite negb_true_iff. by rewrite bool_decide_eq_false.
  - intros s0. exists [Resolve; Verify vo_verified]. by destruct s0.
Qed.

Lemma closed_only_by_verification_witness :
  let rs := [Acknowledge; StartRecovery; Verify vo_verified; Resolve; Verify vo_verified] in
  (exists before after, rs = before ++ Verify vo_verified :: after /\ run ms_open before = ms_resolved /\
     forall p q, after = p ++ q -> run ms_verified p = ms_verified) /\
  (forall r s', next_status r ms_verified = Ret s' -> s' = ms_verified \/ (r = Reopen /\ s' = ms_reopened)) /\
  (forall s0, isActiveMismatchStatus s0 = true <-> s0 <> ms_verified) /\
  (forall s0, exists closing, run s0 closing = ms_verified).
Proof.
  apply (closed_only_by_verification ms_open [Acknowledge; StartRecovery; Verify vo_verified; Resolve; Verify vo_verified]);
    [discriminate|vm_compute; reflexivity].
Defined.

(** The message of a refused request. *)
Example refused_message :
  next_status StartRecovery ms_resolved = Throw (RuntimeMismatchLifecycleError
    ("Cannot start recovery mismatch from status " +:+ quoted "resolved"
     +:+ ". Allowed statuses: open, acknowledged, reopened, recovering.")).
Proof. vm_compute. done. Qed.
