(* ===== verification/MismatchStore.v ===== *)
(** * The mismatch records of the runtime (packages/runtime: store.ts, mismatch records and recovery events)

    The functions of the runtime store that record, reopen and resolve
    mismatches.  The database is reached through a query builder: its table is
    the class [MismatchDb] with the documented behaviour of its statements, each
    of which may fail and then changes nothing.  A date of a view is kept as its
    instant.  The file shows what an upsert does, and that the store moves a
    mismatch only along the lifecycle of [MismatchLifecycle]. *)
From S2P Require Import Prelude JsNumber JsValue MismatchLifecycle.
Open Scope Z_scope.

(** ** Rows *)

Inductive RuntimeMismatchSourceKind := sk_workflow | sk_reconciliation.
#[export] Instance RuntimeMismatchSourceKind_eq_dec : EqDecision RuntimeMismatchSourceKind.
Proof. solve_decision. Defined.

(** The kinds and statuses of the commands that the worker executes. *)
Inductive RuntimeCommandType :=
| rct_run_cycle | rct_run_carry_evaluation | rct_rebuild_projections | rct_run_reconciliation | rct_run_treasury_evaluation
| rct_run_allocator_evaluation | rct_execute_carry_action | rct_execute_treasury_action | rct_execute_rebalance_proposal.
Inductive RuntimeCommandStatus := rcs_pending | rcs_running | rcs_completed | rcs_failed.
#[export] Instance RuntimeCommandStatus_eq_dec : EqDecision RuntimeCommandStatus.
Proof. solve_decision. Defined.
#[export] Instance RuntimeCommandType_eq_dec : EqDecision RuntimeCommandType.
Proof. solve_decision. Defined.

Record RuntimeMismatchView := MkMismatch {
  mm_id : string;
  mm_dedupeKey : string;
  mm_category : string;
  mm_severity : string;
  mm_sourceKind : RuntimeMismatchSourceKind;
  mm_sourceComponent : string;
  mm_entityType : option string;
  mm_entityId : option string;
  mm_summary : string;
  mm_details : record_;
  mm_status : RuntimeMismatchStatus;
  mm_firstDetectedAt : Z;
  mm_lastDetectedAt : Z;
  mm_occurrenceCount : Z;
  mm_acknowledgedAt : option Z;
  mm_acknowledgedBy : option string;
  mm_recoveryStartedAt : option Z;
  mm_recoveryStartedBy : option string;
  mm_recoverySummary : option string;
  mm_linkedCommandId : option string;
  mm_linkedRecoveryEventId : option string;
  mm_resolvedAt : option Z;
  mm_resolvedBy : option string;
  mm_resolutionSummary : option string;
  mm_verifiedAt : option Z;
  mm_verifiedBy : option string;
  mm_verificationSummary : option string;
  mm_verificationOutcome : option RuntimeVerificationOutcome;
  mm_reopenedAt : option Z;
  mm_reopenedBy : option string;
  mm_reopenSummary : option string;
  mm_lastStatusChangeAt : Z;
  mm_updatedAt : Z;
}.

Record RecoveryEvent := MkRecoveryEvent {
  re_mismatchId : option string;
  re_commandId : option string;
  re_runId : option string;
  re_eventType : string;
  re_status : string;
  re_sourceComponent : string;
  re_actorId : option string;
  re_message : string;
  re_details : record_;
  re_occurredAt : option Z;
  (** given by the database *)
  re_id : option string;
}.

(** ** The database *)

Class MismatchDb := {
  Db : Type;
  (** [select().from(runtimeMismatches).where(eq(dedupeKey, key)).limit(1)], and by id *)
  db_select : string -> eff Db (option RuntimeMismatchView);
  db_select_id : string -> eff Db (option RuntimeMismatchView);
  (** [insert(runtimeMismatches).values(row)], the database giving the id *)
  db_insert : (string -> RuntimeMismatchView) -> eff Db unit;
  (** [update(runtimeMismatches).set(patch).where(eq(dedupeKey, key))], and by id *)
  db_update : string -> (RuntimeMismatchView -> RuntimeMismatchView) -> eff Db unit;
  db_update_id : string -> (RuntimeMismatchView -> RuntimeMismatchView) -> eff Db unit;
  (** the rows of a source kind, latest detected first, at most [limit] *)
  db_list : Z -> RuntimeMismatchSourceKind -> eff Db (list RuntimeMismatchView);
  (** [insert(runtimeRecoveryEvents).values(event).returning()] *)
  db_insert_event : RecoveryEvent -> eff Db (option RecoveryEvent);
  (** [new Date()] *)
  db_now : eff Db Z;
}.

(** What the statements do to the rows, seen by their key.  A failing statement
    leaves the rows as they were. *)
Class MismatchDbLaws `{MD : MismatchDb} := {
  row_of : Db -> string -> option RuntimeMismatchView;
  row_key : forall d k r, row_of d k = Some r -> mm_dedupeKey r = k;
  db_select_law : forall k d r d', db_select k d = (r, d') ->
    (forall k', row_of d' k' = row_of d k') /\ (forall o, r = Ret o -> o = row_of d k);
  db_select_id_law : forall i d r d', db_select_id i d = (r, d') -> forall k', row_of d' k' = row_of d k';
  db_insert_law : forall mk k d r d', db_insert mk d = (r, d') -> (forall i, mm_dedupeKey (mk i) = k) -> row_of d k = None ->
    (is_ret r = true /\ exists i, forall k', row_of d' k' = if decide (k' = k) then Some (mk i) else row_of d k') \/
    (is_ret r = false /\ forall k', row_of d' k' = row_of d k');
  db_update_law : forall k f d r d', db_update k f d = (r, d') -> (forall m, mm_dedupeKey (f m) = mm_dedupeKey m) ->
    (is_ret r = true /\ forall k', row_of d' k' = if decide (k' = k) then f <$> row_of d k else row_of d k') \/
    (is_ret r = false /\ forall k', row_of d' k' = row_of d k');
  db_update_id_law : forall i f d r d', db_update_id i f d = (r, d') -> (forall m, mm_dedupeKey (f m) = mm_dedupeKey m) ->
    (forall k', row_of d' k' = (m ← row_of d k'; Some (if decide (mm_id m = i) then f m else m))) \/
    (forall k', row_of d' k' = row_of d k');
  db_list_law : forall n sk d r d', db_list n sk d = (r, d') ->
    (forall k', row_of d' k' = row_of d k') /\
    (forall l, r = Ret l -> Forall (fun m => row_of d (mm_dedupeKey m) = Some m) l);
  db_insert_event_law : forall e d r d', db_insert_event e d = (r, d') -> forall k', row_of d' k' = row_of d k';
  db_now_law : forall d r d', db_now d = (r, d') -> forall k', row_of d' k' = row_of d k';
}.

(** ** Store functions *)

Record MismatchInput := MkMismatchInput {
  mi_dedupeKey : string;
  mi_category : string;
  mi_severity : string;
  mi_sourceKind : option RuntimeMismatchSourceKind;
  mi_sourceComponent : string;
  mi_entityType : option string;
  mi_entityId : option string;
  mi_summary : string;
  mi_details : record_;
  mi_detectedAt : Z;
}.
Inductive UpsertOutcome := opened | redetected | reopened_.
#[export] Instance UpsertOutcome_eq_dec : EqDecision UpsertOutcome.
Proof. solve_decision. Defined.

Section Store.
Context `{MD : MismatchDb}.

Definition getMismatchByDedupeKey (key : string) : eff Db (option RuntimeMismatchView) := db_select key.
Definition getMismatchById (id : string) : eff Db (option RuntimeMismatchView) := db_select_id id.

(** The row of a new mismatch. *)
Definition new_row (input : MismatchInput) (now : Z) (id : string) : RuntimeMismatchView := {|
  mm_id := id; mm_dedupeKey := mi_dedupeKey input; mm_category := mi_category input; mm_severity := mi_severity input;
  mm_sourceKind := or_else (mi_sourceKind input) sk_workflow; mm_sourceComponent := mi_sourceComponent input;
  mm_entityType := mi_entityType input; mm_entityId := mi_entityId input; mm_summary := mi_summary input;
  mm_details := mi_details input; mm_status := ms_open; mm_firstDetectedAt := mi_detectedAt input;
  mm_lastDetectedAt := mi_detectedAt input; mm_occurrenceCount := 1; mm_acknowledgedAt := None; mm_acknowledgedBy := None;
  mm_recoveryStartedAt := None; mm_recoveryStartedBy := None; mm_recoverySummary := None; mm_linkedCommandId := None;
  mm_linkedRecoveryEventId := None; mm_resolvedAt := None; mm_resolvedBy := None; mm_resolutionSummary := None;
  mm_verifiedAt := None; mm_verifiedBy := None; mm_verificationSummary := None; mm_verificationOutcome := None;
  mm_reopenedAt := None; mm_reopenedBy := None; mm_reopenSummary := None; mm_lastStatusChangeAt := mi_detectedAt input;
  mm_updatedAt := now |}.

Definition should_reopen (s : RuntimeMismatchStatus) : bool := bool_decide (s = ms_resolved) || bool_decide (s = ms_verified).

(** The patch of a mismatch detected again; [existing] is the row that was read. *)
Definition redetect_patch (input : MismatchInput) (existing : RuntimeMismatchView) (now : Z) (m : RuntimeMismatchView)
    : RuntimeMismatchView :=
  let again := should_reopen (mm_status existing) in
  {| mm_id := mm_id m; mm_dedupeKey := mm_dedupeKey m; mm_category := mi_category input; mm_severity := mi_severity input;
     mm_sourceKind := or_else (mi_sourceKind input) (mm_sourceKind existing); mm_sourceComponent := mi_sourceComponent input;
     mm_entityType := mi_entityType input; mm_entityId := mi_entityId input; mm_summary := mi_summary input;
     mm_details := mi_details input; mm_status := if again then ms_reopened else mm_status existing;
     mm_firstDetectedAt := mm_firstDetectedAt m; mm_lastDetectedAt := mi_detectedAt input;
     mm_occurrenceCount := mm_occurrenceCount existing + 1; mm_acknowledgedAt := mm_acknowledgedAt m;
     mm_acknowledgedBy := mm_acknowledgedBy m;
     mm_recoveryStartedAt := if again then None else mm_recoveryStartedAt m;
     mm_recoveryStartedBy := if again then None else mm_recoveryStartedBy m;
     mm_recoverySummary := if again then None else mm_recoverySummary m;
     mm_linkedCommandId := if again then None else mm_linkedCommandId m;
     mm_linkedRecoveryEventId := if again then None else mm_linkedRecoveryEventId m;
     mm_resolvedAt := mm_resolvedAt m; mm_resolvedBy := mm_resolvedBy m; mm_resolutionSummary := mm_resolutionSummary m;
     mm_verifiedAt := mm_verifiedAt m; mm_verifiedBy := mm_verifiedBy m; mm_verificationSummary := mm_verificationSummary m;
     mm_verificationOutcome := mm_verificationOutcome m;
     mm_reopenedAt := if again then Some (mi_detectedAt input) else mm_reopenedAt m;
     mm_reopenedBy := if again then Some (mi_sourceComponent input) else mm_reopenedBy m;
     mm_reopenSummary := if again then Some (mi_summary input) else mm_reopenSummary m;
     mm_lastStatusChangeAt := if again then mi_detectedAt input else mm_lastStatusChangeAt m; mm_updatedAt := now |}.

Definition not_persisted (key : string) : JsError :=
  Error_ ("RuntimeStore.upsertMismatch: mismatch " +:+ quoted key +:+ " was not persisted").

Definition upsertMismatch (input : MismatchInput) : eff Db (RuntimeMismatchView * UpsertOutcome) :=
  existing ← db_select (mi_dedupeKey input);
  now ← db_now;
  _ ← (match existing with
       | None => db_insert (new_row input now)
       | Some e => db_update (mi_dedupeKey input) (redetect_patch input e now)
       end);
  mismatch ← getMismatchByDedupeKey (mi_dedupeKey input);
  match mismatch with
  | None => throw_eff (not_persisted (mi_dedupeKey input))
  | Some m => mret (m, match existing with
                       | None => opened
                       | Some e => if should_reopen (mm_status e) then reopened_ else redetected
                       end)
  end.

(** [{ ...patch, updatedAt: new Date() }]. *)
Definition touch (now : Z) (m : RuntimeMismatchView) : RuntimeMismatchView :=
  MkMismatch (mm_id m) (mm_dedupeKey m) (mm_category m) (mm_severity m) (mm_sourceKind m) (mm_sourceComponent m)
    (mm_entityType m) (mm_entityId m) (mm_summary m) (mm_details m) (mm_status m) (mm_firstDetectedAt m) (mm_lastDetectedAt m)
    (mm_occurrenceCount m) (mm_acknowledgedAt m) (mm_acknowledgedBy m) (mm_recoveryStartedAt m) (mm_recoveryStartedBy m)
    (mm_recoverySummary m) (mm_linkedCommandId m) (mm_linkedRecoveryEventId m) (mm_resolvedAt m) (mm_resolvedBy m)
    (mm_resolutionSummary m) (mm_verifiedAt m) (mm_verifiedBy m) (mm_verificationSummary m) (mm_verificationOutcome m)
    (mm_reopenedAt m) (mm_reopenedBy m) (mm_reopenSummary m) (mm_lastStatusChangeAt m) now.

Definition updateMismatchByDedupeKey (key : string) (patch : RuntimeMismatchView -> RuntimeMismatchView)
    : eff Db (option RuntimeMismatchView) :=
  now ← db_now;
  _ ← db_update key (fun m => touch now (patch m));
  getMismatchByDedupeKey key.

Definition updateMismatchById (id : string) (patch : RuntimeMismatchView -> RuntimeMismatchView)
    : eff Db (option RuntimeMismatchView) :=
  now ← db_now;
  _ ← db_update_id id (fun m => touch now (patch m));
  getMismatchById id.

(** The patch [{ status: 'resolved', resolvedAt, resolvedBy, resolutionSummary,
    lastStatusChangeAt }]. *)
Definition resolved_patch (resolvedAt : Z) (resolvedBy resolutionSummary : string) (changedAt : Z) (m : RuntimeMismatchView)
    : RuntimeMismatchView :=
  MkMismatch (mm_id m) (mm_dedupeKey m) (mm_category m) (mm_severity m) (mm_sourceKind m) (mm_sourceComponent m)
    (mm_entityType m) (mm_entityId m) (mm_summary m) (mm_details m) ms_resolved (mm_firstDetectedAt m) (mm_lastDetectedAt m)
    (mm_occurrenceCount m) (mm_acknowledgedAt m) (mm_acknowledgedBy m) (mm_recoveryStartedAt m) (mm_recoveryStartedBy m)
    (mm_recoverySummary m) (mm_linkedCommandId m) (mm_linkedRecoveryEventId m) (Some resolvedAt) (Some resolvedBy)
    (Some resolutionSummary) (mm_verifiedAt m) (mm_verifiedBy m) (mm_verificationSummary m) (mm_verificationOutcome m)
    (mm_reopenedAt m) (mm_reopenedBy m) (mm_reopenSummary m) changedAt (mm_updatedAt m).

Definition recordRecoveryEvent (event : RecoveryEvent) : eff Db RecoveryEvent :=
  inserted ← db_insert_event event;
  match inserted with
  | None => throw_eff (Error_ ("RuntimeStore.recordRecoveryEvent: event " +:+ quoted (re_eventType event) +:+ " was not persisted"))
  | Some e => mret e
  end.
End Store.

(** * What the statements do to a mismatch *)

(** A status change the runtime makes by itself: a [Resolve] or a [Reopen] that
    the lifecycle allows. *)
Definition auto_step (s s' : RuntimeMismatchStatus) : Prop :=
  next_status Resolve s = Ret s' \/ next_status Reopen s = Ret s'.

(** No mismatch disappears, and its status moves by such changes. *)
Definition row_moves (o o' : option RuntimeMismatchView) : Prop :=
  match o, o' with
  | None, None => True
  | None, Some m' => rtc auto_step ms_open (mm_status m')
  | Some m, Some m' => rtc auto_step (mm_status m) (mm_status m') /\ mm_id m' = mm_id m
  | Some _, None => False
  end.

#[export] Instance row_moves_preorder : PreOrder row_moves.
Proof.
  split.
  - intros [m|]; cbn; [split; [reflexivity|done]|done].
  - intros [m|] [m'|] [m''|]; cbn; try done.
    + intros [H1 E1] [H2 E2]. split; [by etrans|congruence].
    + intros H1 [H2 _]. by etrans.
Qed.

Lemma auto_resolve s : s <> ms_verified -> auto_step s ms_resolved.
Proof. intros H. left. by destruct s. Qed.
Lemma auto_reopen s : should_reopen s = true -> auto_step s ms_reopened.
Proof. intros H. right. by destruct s. Qed.

(** An automatic change never verifies, acknowledges or starts a recovery. *)
Lemma auto_step_target s s' : rtc auto_step s s' -> s' = s \/ s' = ms_resolved \/ s' = ms_reopened.
Proof.
  induction 1 as [s|s s1 s2 H _ IH]; [by left|].
  assert (s1 = ms_resolved \/ s1 = ms_reopened) as Hs1 by (destruct H as [H|H]; destruct s; cbn in H; (discriminate H || injection H as <-; tauto)).
  destruct IH as [->|[->| ->]]; tauto.
Qed.

Section Laws.
Context `{MD : MismatchDb} `{ML : !MismatchDbLaws}.

(** The rows of [d'] are those of [d]. *)
Definition same_rows (d d' : Db) : Prop := forall k, row_of d' k = row_of d k.
#[export] Instance same_rows_preorder : PreOrder same_rows.
Proof. split; [done|]. intros a b c H1 H2 k. by rewrite H2, H1. Qed.

Definition rows_move (d d' : Db) : Prop := forall k, row_moves (row_of d k) (row_of d' k).
#[export] Instance rows_move_preorder : PreOrder rows_move.
Proof. split; [intros d k; reflexivity|]. intros a b c H1 H2 k. etrans; [apply H1|apply H2]. Qed.

Lemma same_rows_move d d' : same_rows d d' -> rows_move d d'.
Proof. intros H k. by rewrite H. Qed.

Lemma keeps_weaken {A} (R R' : Db -> Db -> Prop) (m : eff Db A) : (forall d d', R d d' -> R' d d') -> keeps R m -> keeps R' m.
Proof. intros HR Hm d r d' H. by eapply HR, Hm. Qed.

Lemma select_same k : keeps same_rows (db_select k).
Proof. intros d r d' H. exact (proj1 (db_select_law _ _ _ _ H)). Qed.
Lemma select_id_same i : keeps same_rows (db_select_id i).
Proof. intros d r d' H. exact (db_select_id_law _ _ _ _ H). Qed.
Lemma event_same e : keeps same_rows (recordRecoveryEvent e).
Proof.
  apply keeps_bind; [typeclasses eauto|intros d r d' H; exact (db_insert_event_law _ _ _ _ H)|].
  intros [x|]; [apply keeps_ret|apply keeps_throw]; typeclasses eauto.
Qed.
Lemma now_same : keeps same_rows db_now.
Proof. intros d r d' H. exact (db_now_law _ _ _ H). Qed.
Lemma list_same n sk : keeps same_rows (db_list n sk).
Proof. intros d r d' H. exact (proj1 (db_list_law _ _ _ _ _ H)). Qed.

(** ** Upserts *)

(** The mismatch after it was detected again, or for the first time. *)
Definition detected (input : MismatchInput) (o : option RuntimeMismatchView) (m : RuntimeMismatchView) : Prop :=
  mm_dedupeKey m = mi_dedupeKey input /\ mm_category m = mi_category input /\ mm_severity m = mi_severity input /\
  mm_summary m = mi_summary input /\ mm_lastDetectedAt m = mi_detectedAt input /\
  match o with
  | None => mm_status m = ms_open /\ mm_occurrenceCount m = 1 /\ mm_firstDetectedAt m = mi_detectedAt input
  | Some e => mm_status m = (if should_reopen (mm_status e) then ms_reopened else mm_status e) /\
      mm_occurrenceCount m = mm_occurrenceCount e + 1 /\ mm_firstDetectedAt m = mm_firstDetectedAt e /\ mm_id m = mm_id e
  end.
Definition upsert_outcome (o : option RuntimeMismatchView) : UpsertOutcome :=
  match o with None => opened | Some e => if should_reopen (mm_status e) then reopened_ else redetected end.

Lemma detected_moves input o m : detected input o m -> row_moves o (Some m).
Proof.
  intros (_ & _ & _ & _ & _ & H). destruct o as [e|]; cbn.
  - destruct H as (Hs & _ & _ & Hi). split; [|done]. rewrite Hs. destruct (should_reopen (mm_status e)) eqn:E; [|reflexivity].
    apply rtc_once. by apply auto_reopen.
  - destruct H as [-> _]. reflexivity.
Qed.

Lemma upsert_spec input d r d' : upsertMismatch input d = (r, d') ->
  (forall k, k <> mi_dedupeKey input -> row_of d' k = row_of d k) /\
  (is_ret r = false /\ row_of d' (mi_dedupeKey input) = row_of d (mi_dedupeKey input) \/
   exists m, row_of d' (mi_dedupeKey input) = Some m /\ detected input (row_of d (mi_dedupeKey input)) m /\
     forall x, r = Ret x -> x = (m, upsert_outcome (row_of d (mi_dedupeKey input)))).
Proof.
  set (k := mi_dedupeKey input). unfold upsertMismatch. intros H.
  eff_inv H as existing d1 E1.
  { apply db_select_law in E1 as [E1 _]. split; [by intros|]. left. by rewrite H, E1. }
  apply db_select_law in E1 as [S1 V1]. specialize (V1 _ eq_refl). subst existing.
  eff_inv H as now d2 E2.
  { apply now_same in E2. split; [intros; by rewrite E2, S1|]. left. by rewrite H, E2, S1. }
  apply now_same in E2.
  assert (W : forall u d3, (match row_of d k with
      | None => db_insert (new_row input now) | Some e => db_update k (redetect_patch input e now) end) d2 = (u, d3) ->
    (is_ret u = false /\ same_rows d d3) \/
    (is_ret u = true /\ exists m, detected input (row_of d k) m /\ forall k', row_of d3 k' = if decide (k' = k) then Some m else row_of d k')).
  { intros u d3 Hw. destruct (row_of d k) as [e|] eqn:Ek.
    - apply db_update_law in Hw as [[Hu Hw]|[Hu Hw]]; [right|left|done].
      + split; [done|]. exists (redetect_patch input e now e). split; [|intros k'; rewrite Hw, !E2, !S1, Ek; done].
        pose proof (row_key _ _ _ Ek). by repeat split.
      + split; [done|]. intros k'. by rewrite Hw, E2, S1.
    - apply (db_insert_law _ k) in Hw as [[Hu (i & Hw)]|[Hu Hw]]; [right|left|done|by rewrite E2, S1].
      + split; [done|]. exists (new_row input now i). split; [by repeat split|]. intros k'. by rewrite Hw, E2, S1.
      + split; [done|]. intros k'. by rewrite Hw, E2, S1. }
  eff_inv H as u d3 E3.
  { destruct (W _ _ E3) as [[_ Hs]|[Hu _]]; [|done]. split; [by intros|]. left. by rewrite H, Hs. }
  destruct (W _ _ E3) as [[Hu _]|(_ & m & Hm & Hd3)]; [done|].
  assert (Fin : forall d4, same_rows d3 d4 -> (forall k', k' <> k -> row_of d4 k' = row_of d k') /\ row_of d4 k = Some m).
  { intros d4 Hs. split; [intros k' Hk|]; by rewrite Hs, Hd3, ?decide_False, ?decide_True by done. }
  eff_inv H as o d4 E4.
  { apply db_select_law in E4 as [S4 _]. destruct (Fin _ S4) as [F1 F2]. split; [done|]. right. exists m. split_and!; [done|done|].
    by rewrite H. }
  apply db_select_law in E4 as [S4 V4]. specialize (V4 _ eq_refl).
  assert (o = Some m) as -> by (rewrite V4, Hd3; by rewrite decide_True).
  injection H as <- <-. destruct (Fin _ S4) as [F1 F2]. split; [done|]. right. exists m. split_and!; [done|done|].
  intros x [= <-]. unfold upsert_outcome. fold k. by destruct (row_of d k).
Qed.

(** ** Updates by key *)

Lemma update_spec k f d r d' : (forall m, mm_dedupeKey (f m) = mm_dedupeKey m) -> updateMismatchByDedupeKey k f d = (r, d') ->
  (forall k', k' <> k -> row_of d' k' = row_of d k') /\
  (is_ret r = false /\ row_of d' k = row_of d k \/
   exists now, row_of d' k = (touch now ∘ f) <$> row_of d k /\ forall o, r = Ret o -> o = row_of d' k).
Proof.
  intros Hf H. unfold updateMismatchByDedupeKey in H. eff_inv H as now d1 E1.
  { apply now_same in E1. split; [by intros|]. left. by rewrite H, E1. }
  apply now_same in E1. eff_inv H as u d2 E2.
  { apply db_update_law in E2 as [[? _]|[_ E2]]; [done| |done]. split; [by intros; rewrite E2|]. left. by rewrite H, E2. }
  apply db_update_law in E2 as [[_ E2]|[? _]]; [|done|done].
  apply db_select_law in H as [S3 V3]. split.
  - intros k' Hk. by rewrite S3, E2, decide_False.
  - right. exists now. split; [by rewrite S3, E2, decide_True by done; rewrite E1|]. intros o Ho. by rewrite (V3 _ Ho), S3.
Qed.

(** Resolving a mismatch that is not verified is a lifecycle step. *)
Lemma resolve_moves k at_ by_ why changed d r d' :
  updateMismatchByDedupeKey k (resolved_patch at_ by_ why changed) d = (r, d') ->
  (forall m, row_of d k = Some m -> mm_status m <> ms_verified) -> rows_move d d'.
Proof.
  intros H Hv k'. apply update_spec in H as [Ho Hk]; [|done]. destruct (decide (k' = k)) as [->|Hne]; [|by rewrite Ho].
  destruct Hk as [[_ ->]|(now & -> & _)]; [reflexivity|]. destruct (row_of d k) as [m|] eqn:E; [|done]. cbn.
  split; [|done]. by apply rtc_once, auto_resolve, Hv.
Qed.

Lemma upsert_moves input : keeps rows_move (upsertMismatch input).
Proof.
  intros d r d' H k. apply upsert_spec in H as [Ho Hk]. destruct (decide (k = mi_dedupeKey input)) as [->|Hne]; [|by rewrite Ho].
  destruct Hk as [[_ ->]|(m & -> & Hm & _)]; [reflexivity|]. by eapply detected_moves.
Qed.
End Laws.
#[export] Hint Resolve select_same select_id_same event_same now_same list_same upsert_moves : keeps.

(** * A database in memory *)

(** The rows and events of a table kept as lists, ids by count, a clock that
    ticks; a key that is already present is refused. *)
Record MemoryDb := MkMemoryDb { md_rows : list RuntimeMismatchView; md_events : list RecoveryEvent; md_clock : Z }.

#[export] Instance memory_db : MismatchDb := {|
  Db := MemoryDb;
  db_select k := fun d => (Ret (find_key mm_dedupeKey k (md_rows d)), d);
  db_select_id i := fun d => (Ret (List.find (fun m => String.eqb (mm_id m) i) (md_rows d)), d);
  db_insert mk := fun d =>
    let m := mk ("mismatch-" +:+ z_str (Z.of_nat (length (md_rows d)))) in
    match find_key mm_dedupeKey (mm_dedupeKey m) (md_rows d) with
    | Some _ => (Throw (Error_ "duplicate key value violates unique constraint"), d)
    | None => (Ret tt, MkMemoryDb (md_rows d ++ [m]) (md_events d) (md_clock d))
    end;
  db_update k f := fun d =>
    (Ret tt, MkMemoryDb (map (fun m => if String.eqb (mm_dedupeKey m) k then f m else m) (md_rows d)) (md_events d) (md_clock d));
  db_update_id i f := fun d =>
    (Ret tt, MkMemoryDb (map (fun m => if decide (mm_id m = i) then f m else m) (md_rows d)) (md_events d) (md_clock d));
  db_list n sk := fun d =>
    (Ret (firstn (Z.to_nat n) (List.filter (fun m => bool_decide (mm_sourceKind m = sk))
      (omap (fun k => find_key mm_dedupeKey k (md_rows d)) (js_unique (map mm_dedupeKey (md_rows d)))))), d);
  db_insert_event e := fun d =>
    let row := MkRecoveryEvent (re_mismatchId e) (re_commandId e) (re_runId e) (re_eventType e) (re_status e) (re_sourceComponent e)
                 (re_actorId e) (re_message e) (re_details e) (re_occurredAt e) (Some ("event-" +:+ z_str (Z.of_nat (length (md_events d))))) in
    (Ret (Some row), MkMemoryDb (md_rows d) (md_events d ++ [row]) (md_clock d));
  db_now := fun d => (Ret (md_clock d), MkMemoryDb (md_rows d) (md_events d) (md_clock d + 1));
|}.

#[export] Program Instance memory_db_laws : MismatchDbLaws (MD := memory_db) := {|
  row_of := fun (d : @Db memory_db) k => find_key mm_dedupeKey k (md_rows d)
|}.
Next Obligation. intros d k r. apply find_key_key. Qed.
Next Obligation. intros k d r d' [= <- <-]. split; [done|]. by intros o [= <-]. Qed.
Next Obligation. by intros i d r d' [= <- <-]. Qed.
Next Obligation.
  intros mk k d r d' H Hk Hn. cbn in H. rewrite Hk in H. cbn in Hn. rewrite Hn in H. injection H as <- <-. left. split; [done|].
  eexists. intros k'. cbn [md_rows]. rewrite find_key_app, Hk. destruct (find_key mm_dedupeKey k' (md_rows d)) as [x|] eqn:E.
  - rewrite decide_False; [done|]. intros ->. congruence.
  - destruct (decide (k = k')) as [->|]; [by rewrite decide_True|by rewrite decide_False].
Qed.
Next Obligation.
  intros k f d r d' [= <- <-] Hf. left. split; [done|]. intros k'. cbn [md_rows]. rewrite find_key_map.
  - destruct (decide (k' = k)) as [->|Hne].
    + destruct (find_key mm_dedupeKey k (md_rows d)) as [m|] eqn:E; [|done]. cbn [fmap option_fmap option_map]. by rewrite (find_key_key _ _ _ _ E), String.eqb_refl.
    + destruct (find_key mm_dedupeKey k' (md_rows d)) as [m|] eqn:E; [|done]. cbn [fmap option_fmap option_map]. rewrite (find_key_key _ _ _ _ E).
      by rewrite (proj2 (String.eqb_neq _ _) Hne).
  - intros m. by destruct (String.eqb (mm_dedupeKey m) k).
Qed.
Next Obligation.
  intros i f d r d' [= <- <-] Hf. left. intros k'. cbn [md_rows]. rewrite find_key_map.
  - by destruct (find_key mm_dedupeKey k' (md_rows d)).
  - intros m. by destruct (decide (mm_id m = i)).
Qed.
Next Obligation.
  intros n sk d r d' [= <- <-]. split; [done|]. intros l [= <-]. apply Forall_forall. intros m Hm.
  apply list_elem_of_In in Hm. assert (Hin : In m (omap (fun k => find_key mm_dedupeKey k (md_rows d)) (js_unique (map mm_dedupeKey (md_rows d))))).
  { eapply filter_In. rewrite <- (firstn_skipn (Z.to_nat n) (List.filter _ _)). apply in_or_app. left. exact Hm. }
  apply list_elem_of_In, list_elem_of_omap in Hin as (k & _ & Hk). by rewrite (find_key_key _ _ _ _ Hk).
Qed.
Next Obligation. by intros e d r d' [= <- <-]. Qed.
Next Obligation. by intros d r d' [= <- <-]. Qed.
