(* ===== verification/HealthMonitor.v ===== *)
(** * The runtime health monitor (packages/runtime: health-monitor.ts)

    The monitor compares what the runtime recorded with what it should have
    recorded and keeps a mismatch for every difference.  The counts and the
    projection sources it reads are queries of the store.  The file shows that
    after a check the mismatch is open exactly when the difference exists, and
    that the monitor never leaves the lifecycle of a mismatch. *)
From S2P Require Import Prelude JsNumber JsValue MismatchLifecycle MismatchStore.
Open Scope Z_scope.

Inductive ProjectionStatus := pj_fresh | pj_stale | pj_rebuilding.
#[export] Instance ProjectionStatus_eq_dec : EqDecision ProjectionStatus.
Proof. solve_decision. Defined.
Definition ProjectionStatus_str (s : ProjectionStatus) : string :=
  match s with pj_fresh => "fresh" | pj_stale => "stale" | pj_rebuilding => "rebuilding" end.

Record ProjectionSources := MkSources {
  psr_latestSuccessfulRunId : option string;
  psr_runtimeProjectionSourceRunId : option string;
  psr_riskCurrentSourceRunId : option string;
  psr_portfolioCurrentSourceRunId : option string;
  psr_projectionStatus : ProjectionStatus;
}.

(** The queries behind the functions of the store that the monitor reads: what
    [rows[0]] is, each of which may fail. *)
Class MonitorQueries `{MD : MismatchDb} := {
  (** [select count(x) ... where run = id], of approved intents and of orders *)
  db_count_approved_intents : string -> eff Db (option Z);
  db_count_orders : string -> eff Db (option Z);
  (** the row of [runtimeState], its projection status and source run *)
  db_runtime_state : eff Db (option (ProjectionStatus * option string));
  (** the source runs of [riskCurrent] and [portfolioCurrent] *)
  db_risk_current : eff Db (option (option string));
  db_portfolio_current : eff Db (option (option string));
  (** the id of the latest run with status completed *)
  db_latest_completed_run : eff Db (option string);
}.
Class MonitorQueriesLaws `{MQ : MonitorQueries} `{ML : !MismatchDbLaws} := {
  approved_same : forall id, keeps same_rows (db_count_approved_intents id);
  orders_same : forall id, keeps same_rows (db_count_orders id);
  runtime_state_same : keeps same_rows db_runtime_state;
  risk_current_same : keeps same_rows db_risk_current;
  portfolio_current_same : keeps same_rows db_portfolio_current;
  latest_completed_same : keeps same_rows db_latest_completed_run;
}.
#[export] Hint Resolve approved_same orders_same runtime_state_same risk_current_same portfolio_current_same
  latest_completed_same : keeps.

Section Monitor.
Context `{MQ : MonitorQueries}.

Definition countApprovedIntentsForRun (runId : string) : eff Db Z :=
  count ← db_count_approved_intents runId; mret (or_else count 0).
Definition countOrdersForRun (runId : string) : eff Db Z :=
  count ← db_count_orders runId; mret (or_else count 0).

Definition getProjectionSources : eff Db ProjectionSources :=
  runtimeRow ← db_runtime_state;
  riskRow ← db_risk_current;
  portfolioRow ← db_portfolio_current;
  latest ← db_latest_completed_run;
  mret {| psr_latestSuccessfulRunId := latest;
          psr_runtimeProjectionSourceRunId := (runtimeRow ≫= snd);
          psr_riskCurrentSourceRunId := (riskRow ≫= id);
          psr_portfolioCurrentSourceRunId := (portfolioRow ≫= id);
          psr_projectionStatus := from_option fst pj_stale runtimeRow |}.

Definition event (mismatchId : string) (runId : option string) (eventType status sourceComponent message : string) (details : record_)
    : RecoveryEvent :=
  MkRecoveryEvent (Some mismatchId) None runId eventType status sourceComponent None message details None None.

(** A mismatch is detected: it is recorded, with an event. *)
Definition detect (input : MismatchInput) (runId : option string) (detected_type reopened_type : string) (message : option string)
    (details : option record_) : eff Db unit :=
  res ← upsertMismatch input;
  let m := res.1 in
  _ ← recordRecoveryEvent (event (mm_id m) runId (if bool_decide (res.2 = reopened_) then reopened_type else detected_type)
        (mismatch_status_str (mm_status m)) (mi_sourceComponent input) (or_else message (mm_summary m))
        (or_else details (mm_details m)));
  mret tt.

Definition resolveMismatchByDedupeKey (dedupeKey sourceComponent resolutionSummary : string)
    : eff Db (option RuntimeMismatchView) :=
  existing ← getMismatchByDedupeKey dedupeKey;
  match existing with
  | None => mret None
  | Some e =>
      if bool_decide (mm_status e = ms_verified) then mret None
      else
        resolvedAt ← db_now;
        changedAt ← db_now;
        updateMismatchByDedupeKey dedupeKey (resolved_patch resolvedAt sourceComponent resolutionSummary changedAt)
  end.

(** The difference is gone: the mismatch is resolved, with an event. *)
Definition settle_key (dedupeKey sourceComponent resolutionSummary : string) (runId : option string)
    (eventType default_message : string) (details : record_) : eff Db unit :=
  resolved ← resolveMismatchByDedupeKey dedupeKey sourceComponent resolutionSummary;
  match resolved with
  | None => mret tt
  | Some m =>
      _ ← recordRecoveryEvent (event (mm_id m) runId eventType "resolved" sourceComponent
            (or_else (mm_resolutionSummary m) default_message) details);
      mret tt
  end.

Definition reconcileExecutionConsistency (runId sourceComponent : string) : eff Db unit :=
  approvedIntentCount ← countApprovedIntentsForRun runId;
  orderCount ← countOrdersForRun runId;
  let dedupeKey := "execution_state_mismatch:" +:+ runId in
  let details := [("runId", JStr runId); ("approvedIntentCount", JInt approvedIntentCount); ("persistedOrderCount", JInt orderCount)] in
  if orderCount <? approvedIntentCount then
    now ← db_now;
    detect {| mi_dedupeKey := dedupeKey; mi_category := "execution_state_mismatch"; mi_severity := "high"; mi_sourceKind := None;
              mi_sourceComponent := sourceComponent; mi_entityType := Some "strategy_run"; mi_entityId := Some runId;
              mi_summary := "Approved intents exceeded persisted orders for run " +:+ runId +:+ "."; mi_details := details;
              mi_detectedAt := now |}
      (Some runId) "execution_mismatch_detected" "execution_mismatch_reopened" None None
  else
    settle_key dedupeKey sourceComponent ("Execution records are consistent for run " +:+ runId +:+ ".") (Some runId)
      "execution_mismatch_resolved" "Execution mismatch resolved." details.

Record ProjectionCheck := MkProjectionCheck {
  pc_dedupeKey : string;
  pc_entityType : string;
  pc_expectedRunId : option string;
  pc_actualRunId : option string;
  pc_projectionStatus : ProjectionStatus;
  pc_summary : string;
}.

(** The projection shows the latest successful run, or there is none. *)
Definition projection_aligned (c : ProjectionCheck) : bool :=
  bool_decide (pc_expectedRunId c = None)
  || (bool_decide (pc_actualRunId c = pc_expectedRunId c) && bool_decide (pc_projectionStatus c = pj_fresh)).

Definition handleProjectionMismatch (sourceComponent : string) (c : ProjectionCheck) : eff Db unit :=
  let runs := [("expectedRunId", JStrNull (pc_expectedRunId c)); ("actualRunId", JStrNull (pc_actualRunId c))] in
  if projection_aligned c then
    settle_key (pc_dedupeKey c) sourceComponent
      ("Projection " +:+ pc_entityType c +:+ " is aligned with the latest successful run.") None
      "projection_mismatch_resolved" "Projection mismatch resolved."
      ([("entityType", JStr (pc_entityType c)); ("entityId", JStr "primary")] ++ runs)
  else
    now ← db_now;
    detect {| mi_dedupeKey := pc_dedupeKey c; mi_category := "projection_mismatch"; mi_severity := "medium"; mi_sourceKind := None;
              mi_sourceComponent := sourceComponent; mi_entityType := Some (pc_entityType c); mi_entityId := Some "primary";
              mi_summary := pc_summary c;
              mi_details := runs ++ [("projectionStatus", JStr (ProjectionStatus_str (pc_projectionStatus c)))];
              mi_detectedAt := now |}
      None "projection_mismatch_detected" "projection_mismatch_reopened" None None.

Definition projection_checks (s : ProjectionSources) : list ProjectionCheck :=
  let check key entity actual summary :=
    MkProjectionCheck key entity (psr_latestSuccessfulRunId s) actual (psr_projectionStatus s) summary in
  [check "projection_mismatch:runtime_state" "runtime_state" (psr_runtimeProjectionSourceRunId s)
     "Runtime projection source run is stale or missing.";
   check "projection_mismatch:risk_current" "risk_current" (psr_riskCurrentSourceRunId s)
     "Risk current projection does not match the latest successful run.";
   check "projection_mismatch:portfolio_current" "portfolio_current" (psr_portfolioCurrentSourceRunId s)
     "Portfolio current projection does not match the latest successful run."].

Definition reconcileProjectionConsistency (sourceComponent : string) : eff Db unit :=
  snapshot ← getProjectionSources;
  each_eff (handleProjectionMismatch sourceComponent) (projection_checks snapshot).

Definition recordRuntimeFailure (sourceComponent : string) (runId : option string) (message : string) : eff Db unit :=
  now ← db_now;
  detect {| mi_dedupeKey := "runtime_failure:primary"; mi_category := "runtime_failure"; mi_severity := "high";
            mi_sourceKind := None; mi_sourceComponent := sourceComponent; mi_entityType := Some "runtime_state";
            mi_entityId := Some "primary"; mi_summary := message; mi_details := [("runId", JStrNull runId)];
            mi_detectedAt := now |}
    runId "runtime_failure_detected" "runtime_failure_reopened" (Some message) (Some [("runId", JStrNull runId)]).

Definition resolveRuntimeFailure (sourceComponent : string) (runId : option string) : eff Db unit :=
  settle_key "runtime_failure:primary" sourceComponent "Runtime recovered and completed a healthy execution path." runId
    "runtime_failure_resolved" "Runtime failure resolved." [("runId", JStrNull runId)].
End Monitor.

(** * A mismatch is open exactly when its difference exists *)

Section Exact.
Context `{MQ : MonitorQueries} `{ML : !MismatchDbLaws} `{QL : !MonitorQueriesLaws}.

(** A mismatch with this key needs attention; or it does not. *)
Definition unsettled (o : option RuntimeMismatchView) : bool :=
  match o with Some m => negb (bool_decide (mm_status m = ms_resolved)) && negb (bool_decide (mm_status m = ms_verified)) | None => false end.
Definition recorded (d : Db) (k : string) : bool := unsettled (row_of d k).

Lemma detected_unsettled input o m : detected input o m -> unsettled (Some m) = true.
Proof.
  intros (_ & _ & _ & _ & _ & H). unfold unsettled. destruct o as [e|].
  - destruct H as [-> _]. unfold should_reopen. by destruct (mm_status e).
  - by destruct H as [-> _].
Qed.

(** Only the row of the key changes. *)
Definition only_row (k : string) (d d' : Db) : Prop := forall k', k' <> k -> row_of d' k' = row_of d k'.
Lemma same_only_row k d d' : same_rows d d' -> only_row k d d'.
Proof. intros H k' _. apply H. Qed.

Lemma detect_spec input runId t1 t2 msg det d r d' : detect input runId t1 t2 msg det d = (r, d') ->
  only_row (mi_dedupeKey input) d d' /\ (r = Ret tt -> recorded d' (mi_dedupeKey input) = true) /\ rows_move d d'.
Proof.
  intros H. unfold detect in H. assert (M : rows_move d d').
  { assert (K : keeps rows_move (detect input runId t1 t2 msg det)); [|by eapply K].
    unfold detect. apply keeps_bind; [typeclasses eauto|apply upsert_moves|]. intros a.
    apply keeps_bind; [typeclasses eauto|eapply keeps_weaken; [apply same_rows_move|apply event_same]|].
    intros. apply keeps_ret. typeclasses eauto. }
  eff_inv H as res d1 E1.
  { apply upsert_spec in E1 as [Ho _]. split_and!; [exact Ho|by rewrite H|exact M]. }
  apply upsert_spec in E1 as [Ho [[? _]|(m & Hm & Hd & Hx)]]; [done|]. specialize (Hx _ eq_refl). subst res.
  eff_inv H as ev d2 E2.
  - apply event_same in E2. split_and!; [intros k' Hk; rewrite E2; by apply Ho|by rewrite H|exact M].
  - apply event_same in E2. injection H as <- <-. split_and!; [intros k' Hk; rewrite E2; by apply Ho| |exact M].
    intros _. unfold recorded. rewrite E2, Hm. by eapply detected_unsettled.
Qed.

Lemma resolve_spec k by_ why d r d' : resolveMismatchByDedupeKey k by_ why d = (r, d') ->
  only_row k d d' /\ (is_ret r = true -> recorded d' k = false) /\ rows_move d d'.
Proof.
  intros H. unfold resolveMismatchByDedupeKey in H.
  assert (Same : forall d2, same_rows d d2 -> only_row k d d2 /\ rows_move d d2).
  { intros d2 Hs. split; [by apply same_only_row|by apply same_rows_move]. }
  eff_inv H as o d1 E1.
  { apply (select_same k) in E1. destruct (Same _ E1). split_and!; [done|by rewrite H|done]. }
  apply (db_select_law k) in E1 as [S1 V1]. specialize (V1 _ eq_refl). subst o.
  destruct (row_of d k) as [e|] eqn:Ek.
  2: { injection H as <- <-. destruct (Same _ S1). split_and!; [done|intros _; unfold recorded; by rewrite S1, Ek|done]. }
  case_bool_decide as Hv.
  { injection H as <- <-. destruct (Same _ S1). split_and!; [done| |done].
    intros _. unfold recorded, unsettled. rewrite S1, Ek, Hv. done. }
  eff_inv H as t1 d2 E2; apply now_same in E2.
  { destruct (Same d') as [? ?]; [by etrans|]. split_and!; [done|by rewrite H|done]. }
  eff_inv H as t2 d3 E3; apply now_same in E3.
  { destruct (Same d') as [? ?]; [etrans; [exact S1|]; by etrans|]. split_and!; [done|by rewrite H|done]. }
  assert (S3 : same_rows d d3) by (etrans; [exact S1|]; by etrans).
  pose proof (resolve_moves _ _ _ _ _ _ _ _ H) as Hmv. apply update_spec in H as [Ho Hk]; [|done].
  split_and!.
  - intros k' Hne. by rewrite Ho, S3.
  - intros Hr. destruct Hk as [[? _]|(now & Hk & _)]; [congruence|]. unfold recorded, unsettled. rewrite Hk, S3, Ek. done.
  - etrans; [by apply same_rows_move|]. apply Hmv. intros m. rewrite S3, Ek. by intros [= <-].
Qed.

Lemma settle_spec k by_ why runId t msg det d r d' : settle_key k by_ why runId t msg det d = (r, d') ->
  only_row k d d' /\ (r = Ret tt -> recorded d' k = false) /\ rows_move d d'.
Proof.
  intros H. unfold settle_key in H. eff_inv H as o d1 E1.
  { apply resolve_spec in E1 as (H1 & _ & H3). split_and!; [done|by rewrite H|done]. }
  apply resolve_spec in E1 as (H1 & H2 & H3). specialize (H2 eq_refl).
  destruct o as [m|]; [|injection H as <- <-; by split_and!].
  eff_inv H as ev d2 E2; apply event_same in E2.
  - split_and!; [intros k' Hk; rewrite E2; by apply H1|by rewrite H|etrans; [exact H3|by apply same_rows_move]].
  - injection H as <- <-. split_and!; [intros k' Hk; rewrite E2; by apply H1| |etrans; [exact H3|by apply same_rows_move]].
    intros _. unfold recorded. by rewrite E2.
Qed.
End Exact.

(** ** Every operation keeps the lifecycle *)

Section Moves.
Context `{MQ : MonitorQueries} `{ML : !MismatchDbLaws} `{QL : !MonitorQueriesLaws}.

Lemma keeps_move {A} (m : eff Db A) : keeps same_rows m -> keeps rows_move m.
Proof. apply keeps_weaken. apply same_rows_move. Qed.

Lemma detect_moves input runId t1 t2 msg det : keeps rows_move (detect input runId t1 t2 msg det).
Proof. intros d r d' H. exact (proj2 (proj2 (detect_spec _ _ _ _ _ _ _ _ _ H))). Qed.
Lemma settle_moves k by_ why runId t msg det : keeps rows_move (settle_key k by_ why runId t msg det).
Proof. intros d r d' H. exact (proj2 (proj2 (settle_spec _ _ _ _ _ _ _ _ _ _ H))). Qed.
Lemma now_moves : keeps rows_move db_now.
Proof. apply keeps_move, now_same. Qed.
Hint Resolve keeps_move detect_moves settle_moves now_moves : keeps.

Lemma counts_same id : keeps same_rows (countApprovedIntentsForRun id) /\ keeps same_rows (countOrdersForRun id).
Proof. split; keeps_tac. Qed.
Lemma sources_same : keeps same_rows getProjectionSources.
Proof. unfold getProjectionSources. keeps_tac. Qed.
Lemma projection_moves c chk : keeps rows_move (handleProjectionMismatch c chk).
Proof. unfold handleProjectionMismatch. keeps_tac. Qed.

(** The operations of the monitor. *)
Inductive MonitorCall :=
| CheckExecution (runId sourceComponent : string)
| CheckProjection (sourceComponent : string)
| RecordFailure (sourceComponent : string) (runId : option string) (message : string)
| ResolveFailure (sourceComponent : string) (runId : option string).
Definition monitor_call (c : MonitorCall) : eff Db unit :=
  match c with
  | CheckExecution r s => reconcileExecutionConsistency r s
  | CheckProjection s => reconcileProjectionConsistency s
  | RecordFailure s r m => recordRuntimeFailure s r m
  | ResolveFailure s r => resolveRuntimeFailure s r
  end.
(** The calls one after the other, whatever fails. *)
Definition monitor_calls (cs : list MonitorCall) (d : Db) : Db := fold_left (fun d c => (monitor_call c d).2) cs d.

Lemma call_moves c : keeps rows_move (monitor_call c).
Proof.
  destruct c as [r s|s|s r m|s r]; cbn [monitor_call].
  - unfold reconcileExecutionConsistency. destruct (counts_same r). keeps_tac.
  - unfold reconcileProjectionConsistency, each_eff. apply keeps_bind; [typeclasses eauto|apply keeps_move, sources_same|].
    intros src. apply keeps_fold; [typeclasses eauto|]. intros _ chk. apply projection_moves.
  - unfold recordRuntimeFailure. keeps_tac.
  - apply settle_moves.
Qed.

Lemma calls_move cs : forall d, rows_move d (monitor_calls cs d).
Proof.
  induction cs as [|c cs IH]; intros d; [reflexivity|]. cbn [monitor_calls fold_left]. etrans; [|apply IH].
  destruct (monitor_call c d) as [r d'] eqn:E. by eapply call_moves.
Qed.
End Moves.

(** ** A responsive database *)

(** [m] returns in every state. *)
Definition returns {S A} (m : eff S A) : Prop := forall d, is_ret (m d).1 = true.

Lemma returns_bind {S A B} (m : eff S A) (f : A -> eff S B) : returns m -> (forall a, returns (f a)) -> returns (m ≫= f).
Proof.
  intros Hm Hf d. specialize (Hm d). destruct (m d) as [[a|e] d1] eqn:E; [|done]. rewrite (eff_bind_ret _ _ _ _ _ E). apply Hf.
Qed.
Lemma returns_ret {S A} (a : A) : returns (mret a : eff S A).
Proof. by intros d. Qed.
Lemma returns_run {S A} (m : eff S A) d : returns m -> exists a d', m d = (Ret a, d').
Proof. intros H. specialize (H d). destruct (m d) as [[a|e] d'] eqn:E; [by exists a, d'|done]. Qed.

(** Every statement succeeds. *)
Class Responsive `{MQ : MonitorQueries} := {
  select_returns : forall k, returns (db_select k);
  insert_returns : forall mk k d, (forall i, mm_dedupeKey (mk i) = k) -> (db_select k d).1 = Ret None ->
    is_ret (db_insert mk d).1 = true;
  update_returns : forall k f, returns (db_update k f);
  event_returns : forall e d, exists e' d', db_insert_event e d = (Ret (Some e'), d');
  now_returns : returns db_now;
  queries_return : forall id, returns (db_count_approved_intents id) /\ returns (db_count_orders id) /\
    returns db_runtime_state /\ returns db_risk_current /\ returns db_portfolio_current /\ returns db_latest_completed_run;
}.

Section Total.
Context `{MQ : MonitorQueries} `{ML : !MismatchDbLaws} `{QL : !MonitorQueriesLaws} `{RD : !Responsive}.

Lemma record_returns e : returns (recordRecoveryEvent e).
Proof.
  intros d. destruct (event_returns e d) as (e' & d' & E). unfold recordRecoveryEvent. rewrite (eff_bind_ret _ _ _ _ _ E). done.
Qed.

Lemma upsert_returns input : returns (upsertMismatch input).
Proof.
  intros d. set (k := mi_dedupeKey input). unfold upsertMismatch.
  destruct (returns_run (db_select k) d) as (o & d1 & E1); [apply select_returns|]. fold k. eff_step E1.
  apply db_select_law in E1 as [S1 V1]. specialize (V1 _ eq_refl). subst o.
  destruct (returns_run db_now d1) as (now & d2 & E2); [apply now_returns|]. eff_step E2. apply now_same in E2.
  assert (W : exists d3, (match row_of d k with
      | None => db_insert (new_row input now) | Some e => db_update k (redetect_patch input e now) end) d2 = (Ret tt, d3) /\
      row_of d3 k <> None).
  { destruct (row_of d k) as [e|] eqn:Ek.
    - destruct (returns_run (db_update k (redetect_patch input e now)) d2) as ([] & d3 & E3); [apply update_returns|].
      exists d3. split; [exact E3|]. apply db_update_law in E3 as [[_ Hw]|[? _]]; [|done|done].
      rewrite Hw, decide_True, E2, S1, Ek by done. done.
    - assert (Hi : is_ret (db_insert (new_row input now) d2).1 = true).
      { apply (insert_returns _ k); [done|]. destruct (returns_run (db_select k) d2) as (o & d3 & E3); [apply select_returns|].
        rewrite E3. apply db_select_law in E3 as [_ V3]. cbn. by rewrite (V3 _ eq_refl), E2, S1, Ek. }
      destruct (db_insert (new_row input now) d2) as [[[]|e] d3] eqn:E3; [|done]. exists d3. split; [done|].
      apply (db_insert_law _ k) in E3 as [[_ (i & Hw)]|[? _]]; [|done|done|by rewrite E2, S1].
      by rewrite Hw, decide_True. }
  destruct W as (d3 & E3 & Hn). eff_step E3.
  destruct (returns_run (db_select k) d3) as (o & d4 & E4); [apply select_returns|].
  unfold getMismatchByDedupeKey. fold k. eff_step E4. apply db_select_law in E4 as [_ V4]. rewrite (V4 _ eq_refl).
  by destruct (row_of d3 k).
Qed.

Lemma detect_returns input runId t1 t2 msg det : returns (detect input runId t1 t2 msg det).
Proof.
  apply returns_bind; [apply upsert_returns|]. intros res. apply returns_bind; [apply record_returns|]. intros _. apply returns_ret.
Qed.
Lemma settle_returns k by_ why runId t msg det : returns (settle_key k by_ why runId t msg det).
Proof.
  apply returns_bind.
  - apply returns_bind; [apply select_returns|]. intros [e|]; [|apply returns_ret]. case_bool_decide; [apply returns_ret|].
    do 2 (apply returns_bind; [apply now_returns|]; intros ?). apply returns_bind; [apply now_returns|]. intros ?.
    apply returns_bind; [apply update_returns|]. intros _. apply select_returns.
  - intros [m|]; [|apply returns_ret]. apply returns_bind; [apply record_returns|]. intros _. apply returns_ret.
Qed.

(** What a check is to reach: the mismatch [k] is open exactly if [bad]. *)
Definition settles (k : string) (bad : bool) (d d' : Db) : Prop := recorded d' k = bad /\ only_row k d d'.

Lemma detect_settles input runId t1 t2 msg det d :
  exists d', detect input runId t1 t2 msg det d = (Ret tt, d') /\ settles (mi_dedupeKey input) true d d'.
Proof.
  destruct (returns_run _ d (detect_returns input runId t1 t2 msg det)) as ([] & d' & E). exists d'. split; [done|].
  apply detect_spec in E as (Ho & Hr & _). split; [by apply Hr|done].
Qed.
Lemma settle_settles k by_ why runId t msg det d :
  exists d', settle_key k by_ why runId t msg det d = (Ret tt, d') /\ settles k false d d'.
Proof.
  destruct (returns_run _ d (settle_returns k by_ why runId t msg det)) as ([] & d' & E). exists d'. split; [done|].
  apply settle_spec in E as (Ho & Hr & _). split; [by apply Hr|done].
Qed.

Lemma settles_same k b d d1 d2 : same_rows d d1 -> settles k b d1 d2 -> settles k b d d2.
Proof. intros Hs [H1 H2]. split; [done|]. intros k' Hk. by rewrite H2, Hs. Qed.

Lemma count_runs id d : exists n m d1 d2, countApprovedIntentsForRun id d = (Ret n, d1) /\ countOrdersForRun id d1 = (Ret m, d2).
Proof.
  destruct (queries_return id) as (Q1 & Q2 & _).
  destruct (returns_run (countApprovedIntentsForRun id) d) as (n & d1 & E1); [by apply returns_bind; [|intros; apply returns_ret]|].
  destruct (returns_run (countOrdersForRun id) d1) as (m & d2 & E2); [by apply returns_bind; [|intros; apply returns_ret]|].
  by exists n, m, d1, d2.
Qed.
Lemma sources_run d : exists s d1, getProjectionSources d = (Ret s, d1).
Proof.
  destruct (queries_return "") as (_ & _ & Q1 & Q2 & Q3 & Q4).
  apply returns_run. repeat (apply returns_bind; [done|]; intros ?). apply returns_ret.
Qed.

Lemma projection_settles c chk d :
  exists d', handleProjectionMismatch c chk d = (Ret tt, d') /\ settles (pc_dedupeKey chk) (negb (projection_aligned chk)) d d'.
Proof.
  unfold handleProjectionMismatch. destruct (projection_aligned chk); cbn [negb]; [apply settle_settles|].
  destruct (returns_run db_now d now_returns) as (now & d1 & E). eff_step E. apply now_same in E.
  match goal with |- exists d', detect ?i ?r ?t1 ?t2 ?m ?x d1 = _ /\ _ =>
    destruct (detect_settles i r t1 t2 m x d1) as (d' & E' & H) end.
  exists d'. split; [exact E'|]. by eapply settles_same.
Qed.

(** ** The theorems *)

(** An execution check of a run returns, and afterwards the mismatch of the
    run is unsettled exactly if fewer orders than approved intents were
    counted; no other mismatch changes. *)
Theorem execution_check_exact runId sourceComponent d :
  exists approved ordered d1 d2 d',
    countApprovedIntentsForRun runId d = (Ret approved, d1) /\ countOrdersForRun runId d1 = (Ret ordered, d2) /\
    reconcileExecutionConsistency runId sourceComponent d = (Ret tt, d') /\
    recorded d' ("execution_state_mismatch:" +:+ runId) = (ordered <? approved) /\
    only_row ("execution_state_mismatch:" +:+ runId) d d'.
Proof.
  destruct (count_runs runId d) as (n & m & d1 & d2 & E1 & E2). exists n, m, d1, d2.
  assert (S2 : same_rows d d2).
  { etrans; [eapply (proj1 (counts_same runId)), E1|eapply (proj2 (counts_same runId)), E2]. }
  unfold reconcileExecutionConsistency. eff_step E1. eff_step E2. destruct (m <? n).
  - destruct (returns_run db_now d2 now_returns) as (now & d3 & E). eff_step E. apply now_same in E.
    match goal with |- context [detect ?i ?r ?t1 ?t2 ?m ?x d3] => destruct (detect_settles i r t1 t2 m x d3) as (d' & E' & H) end.
    exists d'. eapply settles_same in H; [|etrans; [exact S2|exact E]]. destruct H. by split_and!.
  - match goal with |- context [settle_key ?k ?b ?w ?r ?t ?m ?x d2] => destruct (settle_settles k b w r t m x d2) as (d' & E' & H) end.
    exists d'. eapply settles_same in H; [|exact S2]. destruct H. by split_and!.
Qed.

Lemma each_settles c chks : NoDup (map pc_dedupeKey chks) -> forall d,
  exists d', each_eff (handleProjectionMismatch c) chks d = (Ret tt, d') /\
    Forall (fun chk => recorded d' (pc_dedupeKey chk) = negb (projection_aligned chk)) chks /\
    forall k, k ∉ map pc_dedupeKey chks -> row_of d' k = row_of d k.
Proof.
  unfold each_eff. induction chks as [|chk chks IH]; intros Hn d; cbn [fold_eff map] in *; [by exists d|].
  apply NoDup_cons in Hn as [Hk Hn]. destruct (projection_settles c chk d) as (d1 & E & R & O). eff_step E.
  destruct (IH Hn d1) as (d' & E' & R' & O'). exists d'. split_and!; [exact E'| |].
  - constructor; [|exact R']. unfold recorded. rewrite O' by done. exact R.
  - intros k Hnk. apply not_elem_of_cons in Hnk as [? ?]. rewrite O' by done. by apply O.
Qed.

(** No run completed, or the projection freshly shows the latest such run. *)
Definition shows_latest (s : ProjectionSources) (actual : option string) : bool :=
  bool_decide (psr_latestSuccessfulRunId s = None)
  || (bool_decide (actual = psr_latestSuccessfulRunId s) && bool_decide (psr_projectionStatus s = pj_fresh)).

(** A projection check returns, and afterwards the mismatch of each of the
    three projections is unsettled exactly if there is a latest successful run
    and the projection does not freshly show it; no other mismatch changes. *)
Theorem projection_check_exact sourceComponent d :
  exists s d1 d', getProjectionSources d = (Ret s, d1) /\ reconcileProjectionConsistency sourceComponent d = (Ret tt, d') /\
    recorded d' "projection_mismatch:runtime_state" = negb (shows_latest s (psr_runtimeProjectionSourceRunId s)) /\
    recorded d' "projection_mismatch:risk_current" = negb (shows_latest s (psr_riskCurrentSourceRunId s)) /\
    recorded d' "projection_mismatch:portfolio_current" = negb (shows_latest s (psr_portfolioCurrentSourceRunId s)) /\
    (forall k, ~ In k ["projection_mismatch:runtime_state"; "projection_mismatch:risk_current";
                       "projection_mismatch:portfolio_current"]%list -> row_of d' k = row_of d k).
Proof.
  destruct (sources_run d) as (s & d1 & E). unfold reconcileProjectionConsistency. eff_step E.
  assert (S : same_rows d d1) by (by eapply sources_same).
  destruct (each_settles sourceComponent (projection_checks s)) with (d := d1) as (d' & E' & R & O).
  { apply (bool_decide_unpack _). by vm_compute. }
  exists s, d1, d'. cbn [projection_checks] in R. apply List.Forall_cons_iff in R as [R1 R].
  apply List.Forall_cons_iff in R as [R2 R]. apply List.Forall_cons_iff in R as [R3 _].
  split_and!; [done|exact E'|exact R1|exact R2|exact R3|]. intros k Hk. rewrite O, S; [done|]. intros Hin. apply Hk. by apply list_elem_of_In in Hin.
Qed.

(** Whatever calls are made of the monitor and whatever fails in them, no
    mismatch disappears and every mismatch keeps its id and its status, or is
    moved by lifecycle steps to resolved or reopened: the monitor never
    verifies, acknowledges or recovers a mismatch. *)
Theorem monitor_keeps_lifecycle cs d k m : row_of d k = Some m ->
  exists m', row_of (monitor_calls cs d) k = Some m' /\ mm_id m' = mm_id m /\
    rtc auto_step (mm_status m) (mm_status m') /\
    (mm_status m' = mm_status m \/ mm_status m' = ms_resolved \/ mm_status m' = ms_reopened).
Proof.
  intros Hm. pose proof (calls_move cs d k) as H. rewrite Hm in H. cbn in H.
  destruct (row_of (monitor_calls cs d) k) as [m'|]; [|done]. destruct H as [H Hi]. exists m'. split_and!; [done..|].
  by apply auto_step_target.
Qed.
End Total.

(** ** The monitor on the database in memory *)

(** One run with two approved intents and one order; the portfolio still shows
    an earlier run. *)
#[export] Instance sample_queries : MonitorQueries (MD := memory_db) := {|
  db_count_approved_intents id := fun d => (Ret (Some (if String.eqb id "run-2" then 2 else 0)), d);
  db_count_orders id := fun d => (Ret (Some (if String.eqb id "run-2" then 1 else 0)), d);
  db_runtime_state := fun d => (Ret (Some (pj_fresh, Some "run-2")), d);
  db_risk_current := fun d => (Ret (Some (Some "run-2")), d);
  db_portfolio_current := fun d => (Ret (Some (Some "run-1")), d);
  db_latest_completed_run := fun d => (Ret (Some "run-2"), d);
|}.
#[export] Instance sample_queries_laws : MonitorQueriesLaws (MQ := sample_queries).
Proof. split; repeat intros ?; cbn in *; congruence. Qed.
#[export] Instance sample_responsive : Responsive (MQ := sample_queries).
Proof.
  split; try done.
  - intros mk k d Hk H. cbn in *. injection H as H. by rewrite Hk, H.
  - intros e d. by eexists _, _.
Qed.
Definition empty_db : @Db memory_db := MkMemoryDb [] [] 1000.

(** A missing order is recorded, a projection behind the latest run as well. *)
Lemma execution_check_exact_witness :
  exists d', reconcileExecutionConsistency "run-2" "worker" empty_db = (Ret tt, d') /\
    recorded d' "execution_state_mismatch:run-2" = true.
Proof.
  destruct (execution_check_exact "run-2" "worker" empty_db) as (n & m & d1 & d2 & d' & E1 & E2 & E & R & _).
  injection E1 as <- <-. injection E2 as <- <-. exact (ex_intro _ d' (conj E R)).
Defined.

Lemma projection_check_exact_witness :
  exists d', reconcileProjectionConsistency "worker" empty_db = (Ret tt, d') /\
    recorded d' "projection_mismatch:portfolio_current" = true /\ recorded d' "projection_mismatch:risk_current" = false.
Proof.
  destruct (projection_check_exact "worker" empty_db) as (s & d1 & d' & E1 & E & _ & R2 & R3 & _).
  injection E1 as <- <-.
  exact (ex_intro _ d' (conj E (conj R3 R2))).
Defined.

(** A failure recorded and recovered from twice. *)
Definition sample_calls : list MonitorCall :=
  [CheckExecution "run-2" "worker"; RecordFailure "worker" None "boom"; ResolveFailure "worker" None;
   RecordFailure "worker" None "boom"; CheckProjection "worker"].
Definition after_failure_db : @Db memory_db := (recordRuntimeFailure "worker" None "boom" empty_db).2.

Lemma monitor_keeps_lifecycle_witness :
  exists m', row_of (monitor_calls sample_calls after_failure_db) "runtime_failure:primary" = Some m' /\ mm_status m' = ms_reopened.
Proof.
  destruct (row_of after_failure_db "runtime_failure:primary") as [m|] eqn:E; [|discriminate].
  destruct (monitor_keeps_lifecycle sample_calls after_failure_db "runtime_failure:primary" m E) as (m' & H & _).
  assert (B : (mm_status <$> row_of (monitor_calls sample_calls after_failure_db) "runtime_failure:primary") = Some ms_reopened)
    by (vm_compute; reflexivity).
  rewrite H in B. injection B as B. exact (ex_intro _ m' (conj H B)).
Defined.

(** A check of a settled mismatch resolves it again: the second healthy check
    records a second event and a new time of resolution. *)
Definition healthy_twice : @Db memory_db :=
  monitor_calls [RecordFailure "worker" None "boom"; ResolveFailure "worker" None; ResolveFailure "worker" None] empty_db.
Example resolved_again :
  map re_eventType (md_events healthy_twice) =
    ["runtime_failure_detected"; "runtime_failure_resolved"; "runtime_failure_resolved"]%list.
Proof. vm_compute. reflexivity. Qed.
