(* ===== verification/ReconcileStore.v ===== *)
(** * The reconciliation records of the runtime (packages/runtime: types.ts, store.ts)

    Reconciliation runs and findings, and the functions of the runtime store
    that create, complete and fail a run, record its findings and summarize the
    latest run.  The tables are reached through statements of the class
    [ReconDb], each of which may fail; none of them touches a mismatch. *)
From S2P Require Import Prelude JsNumber JsValue Executor MismatchLifecycle MismatchStore.
Open Scope Z_scope.

(** ** Types *)

Inductive RuntimeReconciliationFindingSeverity := fs_low | fs_medium | fs_high | fs_critical.
#[export] Instance RuntimeReconciliationFindingSeverity_eq_dec : EqDecision RuntimeReconciliationFindingSeverity.
Proof. solve_decision. Defined.
Definition severity_str (s : RuntimeReconciliationFindingSeverity) : string :=
  match s with fs_low => "low" | fs_medium => "medium" | fs_high => "high" | fs_critical => "critical" end.

Inductive RuntimeReconciliationFindingStatus := fd_active | fd_resolved.
#[export] Instance RuntimeReconciliationFindingStatus_eq_dec : EqDecision RuntimeReconciliationFindingStatus.
Proof. solve_decision. Defined.

Inductive RuntimeReconciliationFindingType :=
| order_state_mismatch | position_exposure_mismatch | projection_state_mismatch | stale_projection_state
| command_outcome_mismatch | missing_venue_truth_snapshot | stale_venue_truth_snapshot | venue_truth_unavailable
| venue_truth_partial_coverage | venue_execution_reference_mismatch | drift_position_mismatch
| drift_order_inventory_mismatch | drift_subaccount_identity_mismatch | drift_health_state_mismatch
| drift_market_identity_mismatch | drift_position_identity_gap | drift_partial_health_comparison
| drift_partial_market_identity_comparison | drift_truth_comparison_gap | stale_internal_derivative_state.
#[export] Instance RuntimeReconciliationFindingType_eq_dec : EqDecision RuntimeReconciliationFindingType.
Proof. solve_decision. Defined.
Definition finding_type_str (t : RuntimeReconciliationFindingType) : string :=
  match t with
  | order_state_mismatch => "order_state_mismatch"
  | position_exposure_mismatch => "position_exposure_mismatch"
  | projection_state_mismatch => "projection_state_mismatch"
  | stale_projection_state => "stale_projection_state"
  | command_outcome_mismatch => "command_outcome_mismatch"
  | missing_venue_truth_snapshot => "missing_venue_truth_snapshot"
  | stale_venue_truth_snapshot => "stale_venue_truth_snapshot"
  | venue_truth_unavailable => "venue_truth_unavailable"
  | venue_truth_partial_coverage => "venue_truth_partial_coverage"
  | venue_execution_reference_mismatch => "venue_execution_reference_mismatch"
  | drift_position_mismatch => "drift_position_mismatch"
  | drift_order_inventory_mismatch => "drift_order_inventory_mismatch"
  | drift_subaccount_identity_mismatch => "drift_subaccount_identity_mismatch"
  | drift_health_state_mismatch => "drift_health_state_mismatch"
  | drift_market_identity_mismatch => "drift_market_identity_mismatch"
  | drift_position_identity_gap => "drift_position_identity_gap"
  | drift_partial_health_comparison => "drift_partial_health_comparison"
  | drift_partial_market_identity_comparison => "drift_partial_market_identity_comparison"
  | drift_truth_comparison_gap => "drift_truth_comparison_gap"
  | stale_internal_derivative_state => "stale_internal_derivative_state"
  end.

Inductive RuntimeReconciliationRunStatus := rn_running | rn_completed | rn_failed.
#[export] Instance RuntimeReconciliationRunStatus_eq_dec : EqDecision RuntimeReconciliationRunStatus.
Proof. solve_decision. Defined.
Definition run_status_str (s : RuntimeReconciliationRunStatus) : string :=
  match s with rn_running => "running" | rn_completed => "completed" | rn_failed => "failed" end.

Record ReconciliationRun := MkRun {
  rr_id : string;
  rr_runType : string;
  rr_trigger : string;
  rr_triggerReference : option string;
  rr_sourceComponent : string;
  rr_triggeredBy : option string;
  rr_status : RuntimeReconciliationRunStatus;
  rr_findingCount : Z;
  rr_linkedMismatchCount : Z;
  rr_summary : record_;
  rr_errorMessage : option string;
  rr_startedAt : Z;
  rr_completedAt : option Z;
  rr_createdAt : Z;
  rr_updatedAt : Z;
}.

Record ReconciliationFinding := MkFinding {
  rf_id : string;
  rf_reconciliationRunId : string;
  rf_dedupeKey : string;
  rf_findingType : RuntimeReconciliationFindingType;
  rf_severity : RuntimeReconciliationFindingSeverity;
  rf_status : RuntimeReconciliationFindingStatus;
  rf_sourceComponent : string;
  rf_subsystem : string;
  rf_venueId : option string;
  rf_entityType : option string;
  rf_entityId : option string;
  rf_mismatchId : option string;
  rf_summary : string;
  rf_expectedState : record_;
  rf_actualState : record_;
  rf_delta : record_;
  rf_details : record_;
  rf_detectedAt : Z;
  rf_createdAt : Z;
}.

Record ReconciliationSummary := MkSummary {
  rs_latestRun : option ReconciliationRun;
  rs_latestCompletedRun : option ReconciliationRun;
  rs_latestFindingCount : Z;
  rs_latestLinkedMismatchCount : Z;
  rs_latestStatusCounts : RuntimeReconciliationFindingStatus -> Z;
  rs_latestSeverityCounts : RuntimeReconciliationFindingSeverity -> Z;
  rs_latestTypeCounts : RuntimeReconciliationFindingType -> Z;
}.

(** ** The tables *)

Class ReconDb `{MD : MismatchDb} := {
  (** [insert(runs).values(row).returning()], the database giving id and creation time *)
  db_insert_run : (string -> Z -> ReconciliationRun) -> eff Db (option ReconciliationRun);
  db_select_run : string -> eff Db (option ReconciliationRun);
  db_update_run : string -> (ReconciliationRun -> ReconciliationRun) -> eff Db unit;
  (** the latest run, and the latest completed one *)
  db_latest_run : eff Db (option ReconciliationRun);
  db_latest_completed_reconciliation : eff Db (option ReconciliationRun);
  db_insert_finding : (string -> Z -> ReconciliationFinding) -> eff Db (option ReconciliationFinding);
  (** the findings of a run, latest first, at most so many *)
  db_list_findings : Z -> string -> eff Db (list ReconciliationFinding);
  (** the audit writer and [createId] *)
  db_audit : AuditEvent -> eff Db unit;
  db_create_id : eff Db string;
}.

Class ReconDbLaws `{RD : ReconDb} `{ML : !MismatchDbLaws} := {
  insert_run_same : forall mk, keeps same_rows (db_insert_run mk);
  select_run_same : forall i, keeps same_rows (db_select_run i);
  update_run_same : forall i f, keeps same_rows (db_update_run i f);
  latest_run_same : keeps same_rows db_latest_run;
  latest_done_same : keeps same_rows db_latest_completed_reconciliation;
  insert_finding_same : forall mk, keeps same_rows (db_insert_finding mk);
  list_findings_same : forall n i, keeps same_rows (db_list_findings n i);
  audit_same : forall e, keeps same_rows (db_audit e);
  create_id_same : keeps same_rows db_create_id;
}.
#[export] Hint Resolve insert_run_same select_run_same update_run_same latest_run_same latest_done_same
  insert_finding_same list_findings_same audit_same create_id_same : keeps.

(** ** Functions of the store *)

Section ReconStore.
Context `{RD : ReconDb}.

Definition new_run (trigger : string) (triggerReference : option string) (sourceComponent : string) (triggeredBy : option string)
    (startedAt updatedAt : Z) (id : string) (createdAt : Z) : ReconciliationRun := {|
  rr_id := id; rr_runType := "runtime_reconciliation"; rr_trigger := trigger; rr_triggerReference := triggerReference;
  rr_sourceComponent := sourceComponent; rr_triggeredBy := triggeredBy; rr_status := rn_running; rr_findingCount := 0;
  rr_linkedMismatchCount := 0; rr_summary := []; rr_errorMessage := None; rr_startedAt := startedAt; rr_completedAt := None;
  rr_createdAt := createdAt; rr_updatedAt := updatedAt |}.

Definition createReconciliationRun (trigger : string) (triggerReference : option string) (sourceComponent : string)
    (triggeredBy : option string) : eff Db ReconciliationRun :=
  startedAt ← db_now;
  updatedAt ← db_now;
  inserted ← db_insert_run (new_run trigger triggerReference sourceComponent triggeredBy startedAt updatedAt);
  match inserted with
  | None => throw_eff (Error_ "RuntimeStore.createReconciliationRun: run was not persisted")
  | Some run => mret run
  end.

Definition getReconciliationRun (reconciliationRunId : string) : eff Db (option ReconciliationRun) :=
  db_select_run reconciliationRunId.

Definition completed_run (findingCount linkedMismatchCount : Z) (summary : record_) (completedAt updatedAt : Z)
    (r : ReconciliationRun) : ReconciliationRun :=
  MkRun (rr_id r) (rr_runType r) (rr_trigger r) (rr_triggerReference r) (rr_sourceComponent r) (rr_triggeredBy r) rn_completed
    findingCount linkedMismatchCount summary None (rr_startedAt r) (Some completedAt) (rr_createdAt r) updatedAt.

Definition completeReconciliationRun (reconciliationRunId : string) (findingCount linkedMismatchCount : Z) (summary : record_)
    : eff Db (option ReconciliationRun) :=
  completedAt ← db_now;
  updatedAt ← db_now;
  _ ← db_update_run reconciliationRunId (completed_run findingCount linkedMismatchCount summary completedAt updatedAt);
  getReconciliationRun reconciliationRunId.

Definition failed_run (errorMessage : string) (summary : record_) (completedAt updatedAt : Z) (r : ReconciliationRun)
    : ReconciliationRun :=
  MkRun (rr_id r) (rr_runType r) (rr_trigger r) (rr_triggerReference r) (rr_sourceComponent r) (rr_triggeredBy r) rn_failed
    (rr_findingCount r) (rr_linkedMismatchCount r) summary (Some errorMessage) (rr_startedAt r) (Some completedAt)
    (rr_createdAt r) updatedAt.

Definition failReconciliationRun (reconciliationRunId errorMessage : string) (summary : record_)
    : eff Db (option ReconciliationRun) :=
  completedAt ← db_now;
  updatedAt ← db_now;
  _ ← db_update_run reconciliationRunId (failed_run errorMessage summary completedAt updatedAt);
  getReconciliationRun reconciliationRunId.

Definition recordReconciliationFinding (mk : string -> Z -> ReconciliationFinding) (dedupeKey : string)
    : eff Db ReconciliationFinding :=
  inserted ← db_insert_finding mk;
  match inserted with
  | None => throw_eff (Error_ ("RuntimeStore.recordReconciliationFinding: finding " +:+ quoted dedupeKey +:+ " was not persisted"))
  | Some f => mret f
  end.

(** [counts[finding.x] += 1] over the findings, from zero. *)
Definition counts_by {K} `{EqDecision K} (key : ReconciliationFinding -> K) (findings : list ReconciliationFinding) : K -> Z :=
  fold_left (fun counts f k => if bool_decide (k = key f) then counts k + 1 else counts k) findings (fun _ => 0).

Definition summarizeLatestReconciliation : eff Db (option ReconciliationSummary) :=
  latestRun ← db_latest_run;
  latestCompletedRun ← db_latest_completed_reconciliation;
  match latestRun with
  | None => mret None
  | Some run =>
      findings ← db_list_findings 500 (rr_id run);
      mret (Some {|
        rs_latestRun := Some run;
        rs_latestCompletedRun := latestCompletedRun;
        rs_latestFindingCount := Z.of_nat (length findings);
        rs_latestLinkedMismatchCount := Z.of_nat (length (List.filter (fun f => negb (bool_decide (rf_mismatchId f = None))) findings));
        rs_latestStatusCounts := counts_by rf_status findings;
        rs_latestSeverityCounts := counts_by rf_severity findings;
        rs_latestTypeCounts := counts_by rf_findingType findings |})
  end.
End ReconStore.

(** ** None of them changes a mismatch *)

Section Quiet.
Context `{RD : ReconDb} `{ML : !MismatchDbLaws} `{RL : !ReconDbLaws}.

Lemma create_run_same t ref src by_ : keeps same_rows (createReconciliationRun t ref src by_).
Proof. unfold createReconciliationRun. keeps_tac. Qed.
Lemma complete_run_same i n l s : keeps same_rows (completeReconciliationRun i n l s).
Proof. unfold completeReconciliationRun. keeps_tac. Qed.
Lemma fail_run_same i m s : keeps same_rows (failReconciliationRun i m s).
Proof. unfold failReconciliationRun. keeps_tac. Qed.
Lemma record_finding_same mk k : keeps same_rows (recordReconciliationFinding mk k).
Proof. unfold recordReconciliationFinding. keeps_tac. Qed.
Lemma summarize_same : keeps same_rows summarizeLatestReconciliation.
Proof. unfold summarizeLatestReconciliation. keeps_tac. Qed.
End Quiet.
#[export] Hint Resolve create_run_same complete_run_same fail_run_same record_finding_same summarize_same : keeps.
