(* ===== verification/ReconcileFindings.v ===== *)
(** * Candidate findings (packages/runtime: reconciliation-engine.ts)

    What the reconciliation engine compares, and the finding it makes of a
    comparison: [isOrderMismatch], [isPositionMismatch],
    [classifyPositionSeverity], [toCandidateFinding].  The file shows when a
    finding is made, which orders count as mismatched and, in integers, which
    positions do. *)
From Stdlib Require Import Qround Qabs.
From S2P Require Import Prelude JsNumber JsValue DecimalLib DecimalExact Money Executor Reconciler MismatchLifecycle MismatchStore HealthMonitor ReconcileStore.
Open Scope Z_scope.

(** ** Views *)

(** The fields of an order row and of a position row that the engine reads. *)
Record OrderView := MkOrderView {
  ov_clientOrderId : string;
  ov_venueOrderId : option string;
  ov_filledSize : string;
  ov_averageFillPrice : option string;
  ov_status : string;
}.

Record PositionView := MkPositionView {
  pv_venueId : string;
  pv_asset : string;
  pv_side : string;
  pv_size : string;
  pv_entryPrice : string;
  pv_markPrice : string;
  pv_unrealizedPnl : string;
  pv_updatedAt : Z;
}.

Definition mismatchDedupeKey (findingDedupeKey : string) : string := "reconciliation:" +:+ findingDedupeKey.

(** [JSON.stringify]: strings escaped, absent fields left out. *)
Definition json_char (c : Ascii.ascii) : string :=
  let n := Z.of_nat (Ascii.nat_of_ascii c) in
  let hex d := String (Ascii.ascii_of_nat (Z.to_nat (if d <? 10 then 48 + d else 87 + d))) EmptyString in
  if n =? 34 then String (Ascii.ascii_of_nat 92) dq
  else if n =? 92 then String (Ascii.ascii_of_nat 92) (String (Ascii.ascii_of_nat 92) EmptyString)
  else if n =? 8 then String (Ascii.ascii_of_nat 92) "b"
  else if n =? 9 then String (Ascii.ascii_of_nat 92) "t"
  else if n =? 10 then String (Ascii.ascii_of_nat 92) "n"
  else if n =? 12 then String (Ascii.ascii_of_nat 92) "f"
  else if n =? 13 then String (Ascii.ascii_of_nat 92) "r"
  else if n <? 32 then String (Ascii.ascii_of_nat 92) ("u00" +:+ hex (n / 16) +:+ hex (n mod 16))
  else String c EmptyString.
Fixpoint json_chars (s : string) : string :=
  match s with EmptyString => EmptyString | String c s' => json_char c +:+ json_chars s' end.
Definition json_string (s : string) : string := dq +:+ json_chars s +:+ dq.

Fixpoint json_text (v : jsval) : string :=
  match v with
  | JUndefined | JNull => "null"
  | JBool b => if b then "true" else "false"
  | JNum n => if n_isFinite n then n_str n else "null"
  | JStr s => json_string s
  | JDate ms => json_string (toISOString ms)
  | JArr l => "[" +:+ String.concat "," (map json_text l) +:+ "]"
  | JObj fields =>
      let member (m : jsval * string) := match m.1 with JUndefined => None | _ => Some m.2 end in
      "{" +:+ String.concat "," (omap member (map (fun kv => (kv.2, json_string kv.1 +:+ ":" +:+ json_text kv.2)) fields)) +:+ "}"
  end.
Definition formatJson (fields : record_) : string := json_text (JObj fields).

#[export] Instance VenueOrderStatus_eq_dec : EqDecision VenueOrderStatus.
Proof. solve_decision. Defined.

Section Findings.
Context `{DL : DecimalLib}.

Definition positionViewToVenuePosition (p : PositionView) : VenuePosition := {|
  vp_venueId := pv_venueId p; vp_asset := pv_asset p;
  vp_side := if bool_decide (pv_side p = "short") then short else long;
  vp_size := pv_size p; vp_entryPrice := pv_entryPrice p; vp_markPrice := pv_markPrice p;
  vp_unrealizedPnl := pv_unrealizedPnl p; vp_marginUsed := "0"; vp_liquidationPrice := None;
  vp_updatedAt := pv_updatedAt p |}.

(** [a || b] on strings. *)
Definition str_or (a b : string) : string := if bool_decide (a = "") then b else a.

Definition classifyPositionSeverity (localPosition actualPosition : VenuePosition)
    : exn RuntimeReconciliationFindingSeverity :=
  if negb (bool_decide (vp_side localPosition = vp_side actualPosition)) then Ret fs_critical
  else
    localSize ← dec_of_string (vp_size localPosition);
    actualSize ← dec_of_string (vp_size actualPosition);
    tol ← POSITION_SIZE_TOLERANCE;
    let diff := d_abs (d_minus localSize actualSize) in
    if d_lte diff tol then Ret fs_low
    else
      referencePrice ← dec_of_string (str_or (vp_entryPrice actualPosition) (str_or (vp_markPrice actualPosition) "0"));
      let notionalDiff := d_times diff referencePrice in
      hundred ← dec_of_string "100";
      if d_lt notionalDiff hundred then Ret fs_medium
      else
        tenthousand ← dec_of_string "10000";
        if d_lt notionalDiff tenthousand then Ret fs_high else Ret fs_critical.

Definition isOrderMismatch (localOrder : OrderView) (actualOrder : option PlaceOrderResult) : bool :=
  let local_is s := bool_decide (ov_status localOrder = s) in
  match actualOrder with
  | None => negb (local_is "failed") && negb (local_is "cancelled")
  | Some actual =>
      let actual_is s := bool_decide (pr_status actual = s) in
      if local_is "filled" then negb (actual_is vo_filled)
      else if local_is "failed" || local_is "cancelled" then actual_is vo_filled || actual_is vo_partially_filled
      else negb (actual_is vo_submitted) && negb (actual_is vo_partially_filled)
  end.

Definition isPositionMismatch (localPosition actualPosition : option VenuePosition) : exn bool :=
  match localPosition, actualPosition with
  | None, None => Ret false
  | None, Some _ | Some _, None => Ret true
  | Some l, Some a =>
      if negb (bool_decide (vp_side l = vp_side a)) then Ret true
      else
        localSize ← dec_of_string (vp_size l);
        actualSize ← dec_of_string (vp_size a);
        let diff := d_abs (d_minus localSize actualSize) in
        let reference := d_max [localSize; actualSize] in
        zero ← dec_of_string "0";
        let relativeDiff := if d_isZero reference then zero else d_div diff reference in
        tol ← POSITION_SIZE_TOLERANCE;
        rel ← POSITION_RELATIVE_TOLERANCE;
        Ret (d_gt diff tol && d_gt relativeDiff rel)
  end.
End Findings.

(** ** Candidates *)

Record CandidateInput := MkCandidate {
  ci_dedupeKey : string;
  ci_findingType : RuntimeReconciliationFindingType;
  ci_active : bool;
  ci_severity : RuntimeReconciliationFindingSeverity;
  ci_sourceComponent : string;
  ci_subsystem : string;
  ci_venueId : option string;
  ci_entityType : option string;
  ci_entityId : option string;
  ci_summaryActive : string;
  ci_summaryResolved : string;
  ci_expectedState : record_;
  ci_actualState : record_;
  ci_delta : record_;
  ci_details : record_;
  ci_detectedAt : Z;
}.

Record ReconciliationCandidateFinding := MkCandidateFinding {
  cf_dedupeKey : string;
  cf_findingType : RuntimeReconciliationFindingType;
  cf_severity : RuntimeReconciliationFindingSeverity;
  cf_status : RuntimeReconciliationFindingStatus;
  cf_sourceComponent : string;
  cf_subsystem : string;
  cf_venueId : option string;
  cf_entityType : option string;
  cf_entityId : option string;
  cf_summary : string;
  cf_expectedState : record_;
  cf_actualState : record_;
  cf_delta : record_;
  cf_details : record_;
  cf_detectedAt : Z;
}.

(** The finding of a comparison, given the mismatch recorded under its key. *)
Definition candidate_finding (mismatch : option RuntimeMismatchView) (input : CandidateInput)
    : option ReconciliationCandidateFinding :=
  let shouldEmitResolution := negb (ci_active input)
    && match mismatch with Some m => negb (bool_decide (mm_status m = ms_verified)) | None => false end in
  if negb (ci_active input) && negb shouldEmitResolution then None
  else Some {|
    cf_dedupeKey := ci_dedupeKey input;
    cf_findingType := ci_findingType input;
    cf_severity := ci_severity input;
    cf_status := if ci_active input then fd_active else fd_resolved;
    cf_sourceComponent := ci_sourceComponent input;
    cf_subsystem := ci_subsystem input;
    cf_venueId := ci_venueId input;
    cf_entityType := ci_entityType input;
    cf_entityId := ci_entityId input;
    cf_summary := if ci_active input || negb shouldEmitResolution then ci_summaryActive input else ci_summaryResolved input;
    cf_expectedState := ci_expectedState input;
    cf_actualState := ci_actualState input;
    cf_delta := ci_delta input;
    cf_details := ci_details input;
    cf_detectedAt := ci_detectedAt input |}.

Definition toCandidateFinding `{MD : MismatchDb} (input : CandidateInput) : eff Db (option ReconciliationCandidateFinding) :=
  mismatch ← getMismatchByDedupeKey (mismatchDedupeKey (ci_dedupeKey input));
  mret (candidate_finding mismatch input).

(** A comparison with its finding, or none: what a detector goes through. *)
Definition Checked : Type := CandidateInput * option ReconciliationCandidateFinding.
Definition check_candidate `{MD : MismatchDb} (input : CandidateInput) : eff Db Checked :=
  finding ← toCandidateFinding input; mret (input, finding).
Definition findings_of (cs : list Checked) : list ReconciliationCandidateFinding := omap snd cs.

(** * Positions in integers *)

(** Sizes are exact numbers of eight decimals, below ten million. *)
Definition size_scale : Z := 8.
Definition size_bound : Z := 10 ^ 15.
Definition size_units (p : VenuePosition) : option Z := units_in size_scale (vp_size p).

Section PositionMismatch.
Context `{DL : DecimalLib} `{DW : !DecimalLaws}.

Lemma size_gt k a b x y : 0 <= k -> scaled k a x -> scaled k b y -> d_gt a b = (y <? x).
Proof. intros Hk Ha Hb. rewrite d_gt_val, <- d_lt_val. by apply (scaled_lt k). Qed.
Lemma scaled_abs k a x : scaled k a x -> scaled k (d_abs a) (Z.abs x).
Proof.
  intros Ha%d_abs_fin. eapply scaled_proper; [exact Ha|]. unfold Qeq, Qabs. cbn. by destruct x.
Qed.

(** The relative difference, rounded, is compared as if it were exact: the
    quotients of such amounts stay away from the tolerance. *)
Lemma relative_gt a b rel x y : scaled size_scale a x -> scaled size_scale b y -> 0 < y < size_bound -> 0 <= x ->
  dec_of_string "0.001" = Ret rel -> d_gt (d_div a b) rel = (y <? 1000 * x).
Proof.
  intros Ha Hb Hy Hx Hrel. unfold size_bound, size_scale in *.
  destruct (d_of_literal "0.001" _ eq_refl) as (rel' & Hr & Fr). rewrite Hrel in Hr. injection Hr as <-.
  assert (Fd : dv_equiv (dval (d_div a b)) (d_rnd (x # Z.to_pos y))).
  { rewrite (d_div_fin _ _ _ _ Ha Hb); [|unfold Qeq; cbn; lia]. apply d_rnd_proper. unfold Qeq, Qdiv, Qmult, Qinv. cbn.
    destruct y as [|y|y]; [lia| |lia]. cbn. lia. }
  rewrite d_gt_val, Fr, Fd. destruct (Z.ltb_spec y (1000 * x)) as [Hlt|Hge].
  - eapply dv_lt_le_trans; [|apply (d_rnd_mono (Qmake (10 ^ 15 + 1) (Z.to_pos (10 ^ 18))))].
    + rewrite (d_rnd_exact _ 18) by lia. by vm_compute.
    + unfold Qle. cbn [Qnum Qden]. rewrite Z2Pos.id by lia. change (Zpos (Z.to_pos (10 ^ 18))) with (10 ^ 18). nia.
  - apply dv_le_not_lt. eapply dv_le_trans; [apply (d_rnd_mono _ (Qmake 1 (Z.to_pos (10 ^ 3))))|].
    + unfold Qle. cbn [Qnum Qden]. rewrite Z2Pos.id by lia. change (Zpos (Z.to_pos (10 ^ 3))) with 1000. lia.
    + rewrite (d_rnd_exact _ 3) by lia. by vm_compute.
Qed.

(** Two positions of an asset count as mismatched exactly if their sides
    differ, or their sizes differ by more than a millionth and by more than a
    thousandth of the larger one: computed exactly, in units of eight decimals. *)
Theorem position_mismatch_exact l a x y :
  size_units l = Some x -> size_units a = Some y -> 0 <= x < size_bound -> 0 <= y < size_bound ->
  isPositionMismatch (Some l) (Some a) =
  Ret (negb (bool_decide (vp_side l = vp_side a))
       || ((100 <? Z.abs (x - y)) && (Z.max x y <? 1000 * Z.abs (x - y)))).
Proof.
  intros Hl Ha Bx By. unfold isPositionMismatch. destruct (bool_decide (vp_side l = vp_side a)); cbn [negb orb]; [|done].
  apply units_in_parses in Hl as (dl & El & Sl). apply units_in_parses in Ha as (da & Ea & Sa).
  exn_step El. exn_step Ea.
  destruct (amount_zero size_scale) as (zero & Ez & Sz). exn_step Ez.
  destruct (units_in_parses size_scale "0.000001" 100 eq_refl) as (tol & Et & St). unfold POSITION_SIZE_TOLERANCE. exn_step Et.
  destruct (units_in_parses size_scale "0.001" 100000 eq_refl) as (rel & Er & Sr). unfold POSITION_RELATIVE_TOLERANCE. exn_step Er.
  unfold size_bound in *.
  assert (Sd : scaled size_scale (d_abs (d_minus dl da)) (Z.abs (x - y))).
  { apply scaled_abs, scaled_minus; [unfold size_scale; lia|done|done|lia]. }
  pose proof (scaled_max2 size_scale _ _ _ _ ltac:(unfold size_scale; lia) Sl Sa) as Sm.
  rewrite (scaled_isZero _ _ _ Sm), (size_gt size_scale _ _ _ _ ltac:(unfold size_scale; lia) Sd St).
  destruct (Z.ltb_spec 100 (Z.abs (x - y))) as [Hd|]; [|done]. cbn [andb].
  destruct (Z.eqb_spec (Z.max x y) 0) as [|Hm]; [lia|].
  by rewrite (relative_gt _ _ _ _ (Z.max x y) Sd Sm) by (done || unfold size_bound; lia).
Qed.
End PositionMismatch.

Definition sample_size (sz : string) : VenuePosition := MkVenuePosition "venue-a" "BTC" long sz "50000" "50000" "0" "0" None 0.

Lemma position_mismatch_exact_witness :
  isPositionMismatch (DL := exact_decimal) (Some (sample_size "1.00000000")) (Some (sample_size "1.00100101")) = Ret true.
Proof.
  exact (position_mismatch_exact (DL := exact_decimal) (sample_size "1.00000000") (sample_size "1.00100101") 100000000 100100101
    eq_refl eq_refl ltac:(done) ltac:(done)).
Defined.

(** A cancelled order that its venue still works is no mismatch. *)
Example live_cancelled_order_unnoticed :
  isOrderMismatch (MkOrderView "o-1" (Some "v-1") "0" None "cancelled")
    (Some (MkPlaceOrderResult "v-1" "o-1" vo_submitted "0" None None 0 None None None)) = false.
Proof. reflexivity. Qed.

(** Nor is an expired one, while one the venue no longer knows is. *)
Example expired_order_reported :
  isOrderMismatch (MkOrderView "o-1" (Some "v-1") "0" None "expired") None = true /\
  isOrderMismatch (MkOrderView "o-1" (Some "v-1") "0" None "expired")
    (Some (MkPlaceOrderResult "v-1" "o-1" vo_submitted "0" None None 0 None None None)) = false.
Proof. by split. Qed.
