(* ===== verification/ReconcileDetect.v ===== *)
(** * The detectors of the reconciliation engine (packages/runtime: reconciliation-engine.ts)

    The engine compares the projections, the outcomes of completed commands, the
    orders and the positions with what the runtime and the venues report.  A
    detector returns every comparison it made with the finding that came of it,
    or none.  Reads that the program starts together are made in their order. *)
From S2P Require Import Prelude JsNumber JsValue DecimalLib Executor Reconciler MismatchLifecycle MismatchStore HealthMonitor ReconcileStore ReconcileFindings.
Open Scope Z_scope.

(** ** What is read *)

Record RuntimeStatus := MkRuntimeStatus {
  rt_projectionStatus : ProjectionStatus;
  rt_lastProjectionSourceRunId : option string;
}.

Record PortfolioRow := MkPortfolioRow {
  po_sourceRunId : option string;
  po_totalNav : string;
  po_grossExposure : string;
  po_netExposure : string;
  po_liquidityReserve : string;
}.

Record RiskRow := MkRiskRow {
  ri_sourceRunId : option string;
  ri_approvedIntentCount : Z;
  ri_rejectedIntentCount : Z;
  ri_summary : jsval;
}.

Record RuntimeCommandView := MkCommand {
  cmd_id : string;
  cmd_type : RuntimeCommandType;
  cmd_status : RuntimeCommandStatus;
  cmd_result : record_;
}.

(** The queries of the store and the methods of a venue adapter that the
    detectors use.  [va_orderState] is the status of the order coverage of the
    venue's truth snapshot, when the adapter has one. *)
Class ReconQueries `{MQ : MonitorQueries} := {
  getRuntimeStatus : eff Db RuntimeStatus;
  getLatestPortfolioSnapshotRow : eff Db (option PortfolioRow);
  getLatestRiskSnapshotRow : eff Db (option RiskRow);
  getPortfolioCurrentRow : eff Db (option PortfolioRow);
  getRiskCurrentRow : eff Db (option RiskRow);
  listRuntimeCommands : Z -> eff Db (list RuntimeCommandView);
  (** the status of a strategy run *)
  getStrategyRun : string -> eff Db (option string);
  listOrdersByVenue : string -> eff Db (list OrderView);
  listPositionsByVenue : string -> eff Db (list PositionView);
}.
Record VenueAdapter `{MD : MismatchDb} := MkAdapter {
  (** venue id, and whether the truth mode is real *)
  va_capability : option (eff Db (string * bool));
  va_orderState : option (eff Db string);
  va_getOrder : string -> eff Db (option PlaceOrderResult);
  va_getPositions : eff Db (list VenuePosition);
}.

(** Reading touches no mismatch. *)
Definition quiet_adapter `{ML : MismatchDbLaws} (a : VenueAdapter) : Prop :=
  (forall m, va_capability a = Some m -> keeps same_rows m) /\ (forall m, va_orderState a = Some m -> keeps same_rows m) /\
  (forall i, keeps same_rows (va_getOrder a i)) /\ keeps same_rows (va_getPositions a).
Class ReconQueriesLaws `{RQ : ReconQueries} `{ML : !MismatchDbLaws} := {
  runtime_status_same : keeps same_rows getRuntimeStatus;
  portfolio_snapshot_same : keeps same_rows getLatestPortfolioSnapshotRow;
  risk_snapshot_same : keeps same_rows getLatestRiskSnapshotRow;
  portfolio_row_same : keeps same_rows getPortfolioCurrentRow;
  risk_row_same : keeps same_rows getRiskCurrentRow;
  commands_same : forall n, keeps same_rows (listRuntimeCommands n);
  strategy_run_same : forall i, keeps same_rows (getStrategyRun i);
  orders_by_venue_same : forall v, keeps same_rows (listOrdersByVenue v);
  positions_by_venue_same : forall v, keeps same_rows (listPositionsByVenue v);
}.
#[export] Hint Resolve runtime_status_same portfolio_snapshot_same risk_snapshot_same portfolio_row_same risk_row_same
  commands_same strategy_run_same orders_by_venue_same positions_by_venue_same : keeps.

(** [typeof r[key] === 'string' ? r[key] : null]. *)
Definition string_field (r : record_) (key : string) : option string :=
  match rec_get r key with JStr s => Some s | _ => None end.

Section Detect.
Context `{DL : DecimalLib} `{RQ : ReconQueries} `{RD : !ReconDb}.
Context (sourceComponent : string) (detectedAt : Z).

(** ** Projections *)

Definition portfolio_state (p : PortfolioRow) : record_ :=
  [("sourceRunId", JStrNull (po_sourceRunId p)); ("totalNav", JStr (po_totalNav p)); ("grossExposure", JStr (po_grossExposure p));
   ("netExposure", JStr (po_netExposure p)); ("liquidityReserve", JStr (po_liquidityReserve p))].
Definition risk_state (r : RiskRow) : record_ :=
  [("sourceRunId", JStrNull (ri_sourceRunId r)); ("approvedIntentCount", JInt (ri_approvedIntentCount r));
   ("rejectedIntentCount", JInt (ri_rejectedIntentCount r)); ("summary", ri_summary r)].

Definition stale_check (status : RuntimeStatus) (sources : ProjectionSources) : CandidateInput :=
  let latest := psr_latestSuccessfulRunId sources in
  let last := rt_lastProjectionSourceRunId status in {|
  ci_dedupeKey := "stale_projection_state:runtime_state:primary"; ci_findingType := stale_projection_state;
  ci_active := negb (bool_decide (rt_projectionStatus status = pj_fresh))
               || (negb (bool_decide (latest = None)) && negb (bool_decide (last = latest)));
  ci_severity := fs_medium; ci_sourceComponent := sourceComponent; ci_subsystem := "runtime_projection"; ci_venueId := None;
  ci_entityType := Some "runtime_state"; ci_entityId := Some "primary";
  ci_summaryActive := "Runtime projection metadata is stale or not aligned with the latest successful run.";
  ci_summaryResolved := "Runtime projection metadata is aligned and fresh.";
  ci_expectedState := [("projectionStatus", JStr "fresh"); ("lastProjectionSourceRunId", JStrNull latest)];
  ci_actualState := [("projectionStatus", JStr (ProjectionStatus_str (rt_projectionStatus status)));
                     ("lastProjectionSourceRunId", JStrNull last)];
  ci_delta := [("latestSuccessfulRunId", JStrNull latest)]; ci_details := []; ci_detectedAt := detectedAt |}.

Definition projection_check (key subsystem entity summaryActive summaryResolved : string) (expected : record_)
    (actual : option record_) (expectedRun actualRun : option string) : CandidateInput := {|
  ci_dedupeKey := key; ci_findingType := projection_state_mismatch;
  ci_active := match actual with None => true | Some a => negb (bool_decide (formatJson expected = formatJson a)) end;
  ci_severity := fs_high; ci_sourceComponent := sourceComponent; ci_subsystem := subsystem; ci_venueId := None;
  ci_entityType := Some entity; ci_entityId := Some "primary"; ci_summaryActive := summaryActive;
  ci_summaryResolved := summaryResolved; ci_expectedState := expected; ci_actualState := or_else actual [];
  ci_delta := [("expectedSourceRunId", JStrNull expectedRun); ("actualSourceRunId", JStrNull actualRun)];
  ci_details := []; ci_detectedAt := detectedAt |}.

Definition portfolio_check (latest : PortfolioRow) (current : option PortfolioRow) : CandidateInput :=
  projection_check "projection_state_mismatch:portfolio_current:primary" "portfolio_projection" "portfolio_current"
    "Portfolio current projection does not match the latest durable portfolio snapshot."
    "Portfolio current projection matches the latest durable portfolio snapshot."
    (portfolio_state latest) (portfolio_state <$> current) (po_sourceRunId latest) (current ≫= po_sourceRunId).
Definition risk_check (latest : RiskRow) (current : option RiskRow) : CandidateInput :=
  projection_check "projection_state_mismatch:risk_current:primary" "risk_projection" "risk_current"
    "Risk current projection does not match the latest durable risk snapshot."
    "Risk current projection matches the latest durable risk snapshot."
    (risk_state latest) (risk_state <$> current) (ri_sourceRunId latest) (current ≫= ri_sourceRunId).

Definition detectProjectionStateFindings : eff Db (list Checked) :=
  runtimeStatus ← getRuntimeStatus;
  sources ← getProjectionSources;
  latestPortfolioSnapshot ← getLatestPortfolioSnapshotRow;
  latestRiskSnapshot ← getLatestRiskSnapshotRow;
  portfolioCurrent ← getPortfolioCurrentRow;
  riskCurrent ← getRiskCurrentRow;
  stale ← check_candidate (stale_check runtimeStatus sources);
  portfolio ← (match latestPortfolioSnapshot with
               | None => mret []
               | Some latest => c ← check_candidate (portfolio_check latest portfolioCurrent); mret [c]
               end);
  risk ← (match latestRiskSnapshot with
          | None => mret []
          | Some latest => c ← check_candidate (risk_check latest riskCurrent); mret [c]
          end);
  mret (stale :: portfolio ++ risk).

(** ** Command outcomes *)

Definition command_check (command : RuntimeCommandView) (active : bool) (severity : RuntimeReconciliationFindingSeverity)
    (summaryActive summaryResolved : string) (expected actual : record_) : CandidateInput := {|
  ci_dedupeKey := "command_outcome_mismatch:" +:+ cmd_id command; ci_findingType := command_outcome_mismatch;
  ci_active := active; ci_severity := severity; ci_sourceComponent := sourceComponent; ci_subsystem := "runtime_commands";
  ci_venueId := None; ci_entityType := Some "runtime_command"; ci_entityId := Some (cmd_id command);
  ci_summaryActive := summaryActive; ci_summaryResolved := summaryResolved; ci_expectedState := expected;
  ci_actualState := actual; ci_delta := [("commandId", JStr (cmd_id command))]; ci_details := [];
  ci_detectedAt := detectedAt |}.

Definition run_cycle_check (command : RuntimeCommandView) (runId status : option string) : CandidateInput :=
  command_check command (negb (bool_decide (status = Some "completed"))) fs_high
    ("Completed run_cycle command " +:+ cmd_id command +:+ " does not link to a completed strategy run outcome.")
    ("Completed run_cycle command " +:+ cmd_id command +:+ " links to a completed strategy run outcome.")
    [("commandType", JStr "run_cycle"); ("strategyRunStatus", JStr "completed")]
    [("resultRunId", JStrNull runId); ("strategyRunStatus", JStrNull status)].

Definition rebuild_check (runtimeStatus : RuntimeStatus) (command : RuntimeCommandView) : CandidateInput :=
  let resultStatus := string_field (cmd_result command) "projectionStatus" in
  let resultRun := string_field (cmd_result command) "lastProjectionSourceRunId" in
  let current := ProjectionStatus_str (rt_projectionStatus runtimeStatus) in
  command_check command
    (negb (bool_decide (rt_projectionStatus runtimeStatus = pj_fresh))
     || (negb (bool_decide (resultStatus = None)) && negb (bool_decide (resultStatus = Some current)))
     || negb (bool_decide (resultRun = rt_lastProjectionSourceRunId runtimeStatus))) fs_medium
    ("Completed rebuild_projections command " +:+ cmd_id command +:+ " does not match the current runtime projection state.")
    ("Completed rebuild_projections command " +:+ cmd_id command +:+ " matches the current runtime projection state.")
    [("projectionStatus", JStr (or_else resultStatus "fresh")); ("lastProjectionSourceRunId", JStrNull resultRun)]
    [("projectionStatus", JStr current); ("lastProjectionSourceRunId", JStrNull (rt_lastProjectionSourceRunId runtimeStatus))].

Definition reconciliation_check (command : RuntimeCommandView) (runId : option string) (run : option ReconciliationRun)
    : CandidateInput :=
  command_check command (negb (bool_decide (rr_status <$> run = Some rn_completed))) fs_medium
    ("Completed run_reconciliation command " +:+ cmd_id command +:+ " does not link to a completed reconciliation run.")
    ("Completed run_reconciliation command " +:+ cmd_id command +:+ " links to a completed reconciliation run.")
    [("reconciliationRunStatus", JStr "completed")]
    [("reconciliationRunId", JStrNull runId); ("reconciliationRunStatus", JStrNull ((fun r => run_status_str (rr_status r)) <$> run))].

Definition detect_command (runtimeStatus : RuntimeStatus) (command : RuntimeCommandView) : eff Db (list Checked) :=
  if negb (bool_decide (cmd_status command = rcs_completed)) then mret []
  else
    match cmd_type command with
    | rct_run_cycle =>
        let runId := string_field (cmd_result command) "runId" in
        strategyRun ← (match runId with None => mret None | Some id => getStrategyRun id end);
        c ← check_candidate (run_cycle_check command runId strategyRun);
        mret [c]
    | rct_rebuild_projections =>
        c ← check_candidate (rebuild_check runtimeStatus command);
        mret [c]
    | rct_run_reconciliation =>
        let runId := string_field (cmd_result command) "reconciliationRunId" in
        run ← (match runId with None => mret None | Some id => getReconciliationRun id end);
        c ← check_candidate (reconciliation_check command runId run);
        mret [c]
    | _ => mret []
    end.

Definition detectCommandOutcomeFindings : eff Db (list Checked) :=
  commands ← listRuntimeCommands 100;
  runtimeStatus ← getRuntimeStatus;
  collect (detect_command runtimeStatus) commands.

(** ** Orders *)

Definition order_check (venueId : string) (order : OrderView) (venueOrderId : string) (actualOrder : option PlaceOrderResult)
    : CandidateInput :=
  let named text := "Persisted order " +:+ ov_clientOrderId order +:+ text +:+ venueId +:+ "." in {|
  ci_dedupeKey := "order_state_mismatch:" +:+ venueId +:+ ":" +:+ ov_clientOrderId order;
  ci_findingType := order_state_mismatch; ci_active := isOrderMismatch order actualOrder;
  ci_severity := match actualOrder with None => fs_high | Some _ => fs_medium end;
  ci_sourceComponent := sourceComponent; ci_subsystem := "execution_orders"; ci_venueId := Some venueId;
  ci_entityType := Some "order"; ci_entityId := Some (ov_clientOrderId order);
  ci_summaryActive := match actualOrder with
                      | None => named " is missing from venue state for "
                      | Some _ => named " does not match venue state for "
                      end;
  ci_summaryResolved := named " matches venue state for ";
  ci_expectedState := [("status", JStr (ov_status order)); ("venueOrderId", JStr venueOrderId);
                       ("filledSize", JStr (ov_filledSize order)); ("averageFillPrice", JStrNull (ov_averageFillPrice order))];
  ci_actualState := match actualOrder with
                    | None => [("venueOrderId", JStr venueOrderId); ("status", JNull)]
                    | Some a => [("venueOrderId", JStr (pr_venueOrderId a)); ("status", JStr (venue_status_str (pr_status a)));
                                 ("filledSize", JStr (pr_filledSize a)); ("averageFillPrice", JStrNull (pr_averageFillPrice a))]
                    end;
  ci_delta := [("localStatus", JStr (ov_status order)); ("actualStatus", JStrNull ((fun a => venue_status_str (pr_status a)) <$> actualOrder))];
  ci_details := [("localOrderId", JStr (ov_clientOrderId order)); ("venueOrderId", JStr venueOrderId)];
  ci_detectedAt := detectedAt |}.

Definition detect_order (venueId : string) (adapter : VenueAdapter) (order : OrderView) : eff Db (list Checked) :=
  match ov_venueOrderId order with
  | None => mret []
  | Some venueOrderId =>
      actualOrder ← va_getOrder adapter venueOrderId;
      c ← check_candidate (order_check venueId order venueOrderId actualOrder);
      mret [c]
  end.

(** Without a truth snapshot the coverage is undefined, which is not
    "unsupported". *)
Definition order_support (adapter : VenueAdapter) : eff Db bool :=
  match va_orderState adapter with
  | None => mret true
  | Some snapshot => status ← snapshot; mret (negb (bool_decide (status = "unsupported")))
  end.

Definition detectOrderStateFindings (adapters : list (string * VenueAdapter)) : eff Db (list Checked) :=
  venueOrderSupport ← collect (fun va => ok ← order_support va.2; mret [(va.1, ok)]) adapters;
  collect (fun va =>
    if negb (or_else (jm_get va.1 (jm_of_list venueOrderSupport)) false) then mret []
    else
      localOrders ← listOrdersByVenue va.1;
      collect (detect_order va.1 va.2) localOrders) adapters.

(** ** Positions *)

Definition position_state (p : option VenuePosition) : record_ :=
  match p with
  | None => []
  | Some v => [("side", JStr (PositionSide_str (vp_side v))); ("size", JStr (vp_size v)); ("entryPrice", JStr (vp_entryPrice v))]
  end.

Definition position_check (venueId asset : string) (localPosition actualPosition : option VenuePosition) (active : bool)
    (severity : RuntimeReconciliationFindingSeverity) : CandidateInput := {|
  ci_dedupeKey := "position_exposure_mismatch:" +:+ venueId +:+ ":" +:+ asset;
  ci_findingType := position_exposure_mismatch; ci_active := active; ci_severity := severity;
  ci_sourceComponent := sourceComponent; ci_subsystem := "position_projection"; ci_venueId := Some venueId;
  ci_entityType := Some "position"; ci_entityId := Some asset;
  ci_summaryActive := "Projected position state for " +:+ asset +:+ " on " +:+ venueId
                      +:+ " does not match venue-reconciled position state.";
  ci_summaryResolved := "Projected position state for " +:+ asset +:+ " on " +:+ venueId
                        +:+ " matches venue-reconciled position state.";
  ci_expectedState := position_state localPosition; ci_actualState := position_state actualPosition;
  ci_delta := [("localPresent", JBool (bool_decide (localPosition <> None)));
               ("actualPresent", JBool (bool_decide (actualPosition <> None)))];
  ci_details := [("asset", JStr asset); ("venueId", JStr venueId)]; ci_detectedAt := detectedAt |}.

Definition position_severity (localPosition actualPosition : option VenuePosition) : exn RuntimeReconciliationFindingSeverity :=
  match localPosition, actualPosition with
  | Some l, Some a => classifyPositionSeverity l a
  | _, _ => Ret fs_high
  end.

Definition detect_position (venueId : string) (localByAsset actualByAsset : list (string * VenuePosition)) (asset : string)
    : eff Db (list Checked) :=
  let localPosition := jm_get asset localByAsset in
  let actualPosition := jm_get asset actualByAsset in
  active ← lift_exn (isPositionMismatch localPosition actualPosition);
  severity ← lift_exn (position_severity localPosition actualPosition);
  c ← check_candidate (position_check venueId asset localPosition actualPosition active severity);
  mret [c].

Definition local_by_asset (ps : list PositionView) : list (string * VenuePosition) :=
  jm_of_list ((fun p => (pv_asset p, positionViewToVenuePosition p)) <$> ps).

Definition detectPositionExposureFindings (adapters : list (string * VenueAdapter)) : eff Db (list Checked) :=
  collect (fun va =>
    localPositions ← listPositionsByVenue va.1;
    actualPositions ← va_getPositions va.2;
    let localByAsset := local_by_asset localPositions in
    let actualByAsset := by_asset actualPositions in
    collect (detect_position va.1 localByAsset actualByAsset)
      (js_unique (jm_keys localByAsset ++ jm_keys actualByAsset))) adapters.
End Detect.

(** Positions are compared by asset: of two rows of one asset, such as a spot
    and a perpetual one, only the last is compared. *)
Example one_position_per_asset :
  map (fun e => (e.1, vp_side e.2, vp_size e.2)) (local_by_asset
    [MkPositionView "venue-a" "BTC" "long" "1" "50000" "50000" "0" 0; MkPositionView "venue-a" "BTC" "short" "2" "50000" "50000" "0" 0]) =
  [("BTC", short, "2")]%list.
Proof. reflexivity. Qed.
