(* ===== verification/ReconcileVenues.v ===== *)
(** * Venue truth and derivative comparison findings (packages/runtime: reconciliation-engine.ts)

    The two detectors that judge the venue inventory: whether a real venue has
    a fresh, available and complete truth snapshot that shows the execution
    references of the runtime, and whether its derivative comparison with the
    internal state has gaps or differences.  The inventory and the comparison
    are views that the store computes.  Instants are compared where the program
    compares their ISO texts. *)
From S2P Require Import Prelude JsNumber JsValue DecimalLib Executor Reconciler MismatchLifecycle MismatchStore HealthMonitor ReconcileStore ReconcileFindings ReconcileDetect.
Open Scope Z_scope.

(** ** Views *)

Inductive VenueTruthMode := tm_simulated | tm_real.
Inductive VenueTruthCoverageStatus := cv_available | cv_partial | cv_unsupported.
Inductive InternalDerivativeComparisonStatus := dc_matched | dc_mismatched | dc_internal_only | dc_external_only | dc_not_comparable.
#[export] Instance VenueTruthMode_eq_dec : EqDecision VenueTruthMode.
Proof. solve_decision. Defined.
#[export] Instance VenueTruthCoverageStatus_eq_dec : EqDecision VenueTruthCoverageStatus.
Proof. solve_decision. Defined.
#[export] Instance InternalDerivativeComparisonStatus_eq_dec : EqDecision InternalDerivativeComparisonStatus.
Proof. solve_decision. Defined.
Definition truth_mode_str (m : VenueTruthMode) : string := match m with tm_simulated => "simulated" | tm_real => "real" end.
Definition coverage_str (c : VenueTruthCoverageStatus) : string :=
  match c with cv_available => "available" | cv_partial => "partial" | cv_unsupported => "unsupported" end.
Definition comparison_str (c : InternalDerivativeComparisonStatus) : string :=
  match c with
  | dc_matched => "matched" | dc_mismatched => "mismatched" | dc_internal_only => "internal_only"
  | dc_external_only => "external_only" | dc_not_comparable => "not_comparable"
  end.

Record CoverageItem := MkCoverageItem { cov_status : VenueTruthCoverageStatus; cov_reason : option string; cov_limitations : list string }.
Record VenueTruthCoverage := MkTruthCoverage {
  tc_accountState : CoverageItem;
  tc_balanceState : CoverageItem;
  tc_capacityState : CoverageItem;
  tc_exposureState : CoverageItem;
  tc_derivativeAccountState : CoverageItem;
  tc_derivativePositionState : CoverageItem;
  tc_derivativeHealthState : CoverageItem;
  tc_orderState : CoverageItem;
  tc_executionReferences : CoverageItem;
}.

(** The fields of an inventory item that the detectors read. *)
Record VenueInventoryItem := MkVenue {
  vi_venueId : string;
  vi_venueName : string;
  vi_connectorType : string;
  vi_truthMode : VenueTruthMode;
  vi_onboardingState : string;
  vi_missingPrerequisites : list string;
  vi_healthState : string;
  vi_degradedReason : option string;
  vi_truthProfile : string;
  vi_latestSnapshotType : string;
  vi_latestSnapshotSummary : string;
  vi_latestErrorMessage : option string;
  vi_snapshotFreshness : string;
  vi_snapshotCompleteness : string;
  vi_lastSnapshotAt : string;
  vi_lastSuccessfulSnapshotAt : option string;
  vi_truthCoverage : VenueTruthCoverage;
  vi_comparisonCoverage : record_;
  vi_sourceMetadata : record_;
}.

Record VenueCapability := MkCapability {
  vc_venueId : string;
  vc_venueName : string;
  vc_connectorType : string;
  vc_truthMode : VenueTruthMode;
  vc_onboardingState : string;
  vc_missingPrerequisites : list string;
  vc_authRequirementsSummary : list string;
}.

(** What is read of the latest snapshot of a venue. *)
Record VenueSnapshot := MkVenueSnapshot {
  vs_references : option (list string);
  vs_referenceMode : option string;
  vs_orderCoverage : CoverageItem;
}.

Record ComparisonItem := MkComparisonItem { cmp_status : VenueTruthCoverageStatus; cmp_reason : option string }.
Record ComparisonSummary := MkComparisonSummary {
  cs_internalSnapshotAt : option Z;
  cs_externalSnapshotAt : option Z;
  cs_subaccountIdentity : ComparisonItem;
  cs_positionInventory : ComparisonItem;
  cs_marketIdentity : ComparisonItem;
  cs_healthState : ComparisonItem;
  cs_orderInventory : ComparisonItem;
  cs_healthComparisonMode : string;
  cs_exactPositionIdentityCount : Z;
  cs_partialPositionIdentityCount : Z;
  cs_positionIdentityGapCount : Z;
  cs_matchedPositionCount : Z;
  cs_mismatchedPositionCount : Z;
  cs_matchedOrderCount : Z;
  cs_mismatchedOrderCount : Z;
  cs_activeFindingCount : Z;
  cs_activeMismatchCount : Z;
  cs_notes : list string;
}.
Record IdentityComparison := MkIdentityComparison {
  ic_status : InternalDerivativeComparisonStatus;
  ic_comparisonMode : string;
  ic_internalIdentity : option record_;
  ic_externalIdentity : option record_;
  ic_normalizedIdentity : option record_;
  ic_notes : list string;
}.
(** A position or an order comparison; [en_delta] is the quantity or the
    remaining size by which the sides differ. *)
Record EntryComparison := MkEntryComparison {
  en_comparisonKey : string;
  en_status : InternalDerivativeComparisonStatus;
  en_delta : option string;
  en_internal : option record_;
  en_external : option record_;
  en_identity : IdentityComparison;
  en_notes : list string;
}.
Record AccountComparison := MkAccountComparison {
  ac_comparable : bool;
  ac_status : InternalDerivativeComparisonStatus;
  ac_internalState : option record_;
  ac_externalState : option record_;
  ac_notes : list string;
}.
Record HealthField := MkHealthField {
  hf_field : string;
  hf_comparable : bool;
  hf_status : InternalDerivativeComparisonStatus;
  hf_internalValue : jsval;
  hf_externalValue : jsval;
  hf_reason : option string;
}.
Record HealthComparison := MkHealthComparison {
  hc_status : InternalDerivativeComparisonStatus;
  hc_comparisonMode : string;
  hc_internalState : option record_;
  hc_externalState : option record_;
  hc_fields : list HealthField;
  hc_notes : list string;
}.
Record ComparisonDetail := MkComparisonDetail {
  cd_summary : ComparisonSummary;
  cd_accountComparison : AccountComparison;
  cd_positionComparisons : list EntryComparison;
  cd_orderComparisons : list EntryComparison;
  cd_healthComparison : HealthComparison;
}.

Class VenueQueries `{RQ : ReconQueries} := {
  listVenues : Z -> eff Db (list VenueInventoryItem);
  listExpectedVenueExecutionReferences : string -> Z -> eff Db (list string);
  listVenueSnapshots : string -> Z -> eff Db (list VenueSnapshot);
  getVenueComparisonDetail : string -> eff Db (option ComparisonDetail);
  getInternalDerivativeSourceWatermark : string -> eff Db (option Z);
}.
Class VenueQueriesLaws `{VQ : VenueQueries} `{ML : !MismatchDbLaws} := {
  venues_same : forall n, keeps same_rows (listVenues n);
  references_same : forall v n, keeps same_rows (listExpectedVenueExecutionReferences v n);
  snapshots_same : forall v n, keeps same_rows (listVenueSnapshots v n);
  comparison_same : forall v, keeps same_rows (getVenueComparisonDetail v);
  watermark_same : forall v, keeps same_rows (getInternalDerivativeSourceWatermark v);
}.
#[export] Hint Resolve venues_same references_same snapshots_same comparison_same watermark_same : keeps.

(** ** Views as data *)

Definition JStrs (l : list string) : jsval := JArr (map JStr l).
Definition JTime (t : option Z) : jsval := match t with Some ms => JStr (toISOString ms) | None => JNull end.
Definition JObjNull (o : option record_) : jsval := match o with Some r => JObj r | None => JNull end.
Definition coverage_json (c : CoverageItem) : jsval :=
  JObj [("status", JStr (coverage_str (cov_status c))); ("reason", JStrNull (cov_reason c)); ("limitations", JStrs (cov_limitations c))].
Definition truth_coverage_json (t : VenueTruthCoverage) : jsval :=
  JObj [("accountState", coverage_json (tc_accountState t)); ("balanceState", coverage_json (tc_balanceState t));
        ("capacityState", coverage_json (tc_capacityState t)); ("exposureState", coverage_json (tc_exposureState t));
        ("derivativeAccountState", coverage_json (tc_derivativeAccountState t));
        ("derivativePositionState", coverage_json (tc_derivativePositionState t));
        ("derivativeHealthState", coverage_json (tc_derivativeHealthState t)); ("orderState", coverage_json (tc_orderState t));
        ("executionReferences", coverage_json (tc_executionReferences t))].
Definition comparison_item_json (c : ComparisonItem) : jsval :=
  JObj [("status", JStr (coverage_str (cmp_status c))); ("reason", JStrNull (cmp_reason c))].
Definition summary_json (s : ComparisonSummary) : jsval :=
  JObj [("internalSnapshotAt", JTime (cs_internalSnapshotAt s)); ("externalSnapshotAt", JTime (cs_externalSnapshotAt s));
        ("subaccountIdentity", comparison_item_json (cs_subaccountIdentity s));
        ("positionInventory", comparison_item_json (cs_positionInventory s));
        ("marketIdentity", comparison_item_json (cs_marketIdentity s)); ("healthState", comparison_item_json (cs_healthState s));
        ("orderInventory", comparison_item_json (cs_orderInventory s));
        ("healthComparisonMode", JStr (cs_healthComparisonMode s));
        ("exactPositionIdentityCount", JInt (cs_exactPositionIdentityCount s));
        ("partialPositionIdentityCount", JInt (cs_partialPositionIdentityCount s));
        ("positionIdentityGapCount", JInt (cs_positionIdentityGapCount s));
        ("matchedPositionCount", JInt (cs_matchedPositionCount s)); ("mismatchedPositionCount", JInt (cs_mismatchedPositionCount s));
        ("matchedOrderCount", JInt (cs_matchedOrderCount s)); ("mismatchedOrderCount", JInt (cs_mismatchedOrderCount s));
        ("activeFindingCount", JInt (cs_activeFindingCount s)); ("activeMismatchCount", JInt (cs_activeMismatchCount s));
        ("notes", JStrs (cs_notes s))].
Definition health_field_json (f : HealthField) : jsval :=
  JObj [("field", JStr (hf_field f)); ("comparable", JBool (hf_comparable f)); ("status", JStr (comparison_str (hf_status f)));
        ("internalValue", hf_internalValue f); ("externalValue", hf_externalValue f); ("reason", JStrNull (hf_reason f))].

Section Detect.
Context `{DL : DecimalLib} `{VQ : VenueQueries} `{RD : !ReconDb}.
Context (sourceComponent : string) (detectedAt : Z).

(** ** Venue truth *)

(** A comparison about a venue. *)
Definition venue_check (venueId keyed : string) (type : RuntimeReconciliationFindingType) (active : bool)
    (severity : RuntimeReconciliationFindingSeverity) (subsystem entityType entityId summaryActive summaryResolved : string)
    (expected actual delta details : record_) : CandidateInput := {|
  ci_dedupeKey := finding_type_str type +:+ ":" +:+ keyed; ci_findingType := type; ci_active := active; ci_severity := severity;
  ci_sourceComponent := sourceComponent; ci_subsystem := subsystem; ci_venueId := Some venueId;
  ci_entityType := Some entityType; ci_entityId := Some entityId; ci_summaryActive := summaryActive;
  ci_summaryResolved := summaryResolved; ci_expectedState := expected; ci_actualState := actual; ci_delta := delta;
  ci_details := details; ci_detectedAt := detectedAt |}.

Definition inventory_check (venueId : string) (type : RuntimeReconciliationFindingType) (active : bool)
    (severity : RuntimeReconciliationFindingSeverity) (summaryActive summaryResolved : string)
    (expected actual delta details : record_) : CandidateInput :=
  venue_check venueId venueId type active severity "venue_truth_inventory" "venue_connector" venueId
    summaryActive summaryResolved expected actual delta details.

Definition missing_snapshot_check (capability : VenueCapability) (venue : option VenueInventoryItem) : CandidateInput :=
  let id := vc_venueId capability in
  inventory_check id missing_venue_truth_snapshot
    (match venue with None => true | Some v => bool_decide (vi_lastSuccessfulSnapshotAt v = None) end) fs_high
    ("Configured real connector " +:+ id +:+ " has no successful persisted venue truth snapshot yet.")
    ("Configured real connector " +:+ id +:+ " now has a successful persisted venue truth snapshot.")
    [("truthMode", JStr "real"); ("connectorType", JStr (vc_connectorType capability)); ("lastSuccessfulSnapshotAt", JStr "present")]
    (match venue with
     | None => [("snapshotFreshness", JStr "missing"); ("lastSuccessfulSnapshotAt", JNull)]
     | Some v => [("truthMode", JStr (truth_mode_str (vi_truthMode v))); ("connectorType", JStr (vi_connectorType v));
                  ("snapshotFreshness", JStr (vi_snapshotFreshness v)); ("lastSnapshotAt", JStr (vi_lastSnapshotAt v));
                  ("lastSuccessfulSnapshotAt", JStrNull (vi_lastSuccessfulSnapshotAt v)); ("healthState", JStr (vi_healthState v))]
     end)
    [("onboardingState", JStr (vc_onboardingState capability)); ("missingPrerequisites", JStrs (vc_missingPrerequisites capability))]
    [("venueName", JStr (vc_venueName capability)); ("authRequirementsSummary", JStrs (vc_authRequirementsSummary capability))].

Definition connector_depth (v : VenueInventoryItem) : jsval := nullish (rec_get (vi_sourceMetadata v) "connectorDepth") JNull.
Definition inventory_details (v : VenueInventoryItem) : record_ :=
  [("venueName", JStr (vi_venueName v)); ("latestSnapshotSummary", JStr (vi_latestSnapshotSummary v));
   ("comparisonCoverage", JObj (vi_comparisonCoverage v))].

Definition stale_snapshot_check (v : VenueInventoryItem) : CandidateInput :=
  let id := vi_venueId v in
  inventory_check id stale_venue_truth_snapshot (bool_decide (vi_snapshotFreshness v = "stale")) fs_medium
    ("Latest real venue truth snapshot for " +:+ id +:+ " is stale.")
    ("Latest real venue truth snapshot for " +:+ id +:+ " is fresh.")
    [("snapshotFreshness", JStr "fresh"); ("healthState", JStr "healthy")]
    [("snapshotFreshness", JStr (vi_snapshotFreshness v)); ("healthState", JStr (vi_healthState v));
     ("truthProfile", JStr (vi_truthProfile v)); ("connectorDepth", connector_depth v);
     ("lastSnapshotAt", JStr (vi_lastSnapshotAt v)); ("lastSuccessfulSnapshotAt", JStrNull (vi_lastSuccessfulSnapshotAt v))]
    [("latestSnapshotType", JStr (vi_latestSnapshotType v))] (inventory_details v).

Definition unavailable_check (v : VenueInventoryItem) : CandidateInput :=
  let id := vi_venueId v in
  inventory_check id venue_truth_unavailable (bool_decide (vi_healthState v = "unavailable")) fs_high
    ("Real venue truth for " +:+ id +:+ " is currently unavailable.")
    ("Real venue truth for " +:+ id +:+ " is available again.")
    [("healthState", JStr "healthy"); ("snapshotSuccessful", JBool true)]
    [("healthState", JStr (vi_healthState v)); ("truthProfile", JStr (vi_truthProfile v)); ("connectorDepth", connector_depth v);
     ("latestSnapshotType", JStr (vi_latestSnapshotType v)); ("latestErrorMessage", JStrNull (vi_latestErrorMessage v));
     ("lastSnapshotAt", JStr (vi_lastSnapshotAt v))]
    [("degradedReason", JStrNull (vi_degradedReason v))] (inventory_details v).

Definition partial_item (c : CoverageItem) : bool := bool_decide (cov_status c = cv_partial).
Definition partial_coverage_check (v : VenueInventoryItem) : CandidateInput :=
  let id := vi_venueId v in
  let cover := vi_truthCoverage v in
  let supported := JStr "available_or_unsupported" in
  inventory_check id venue_truth_partial_coverage
    (negb (bool_decide (vi_snapshotCompleteness v = "complete")) || partial_item (tc_derivativeAccountState cover)
     || partial_item (tc_derivativePositionState cover) || partial_item (tc_derivativeHealthState cover)
     || partial_item (tc_orderState cover)) fs_low
    ("Real venue truth for " +:+ id +:+ " is only " +:+ vi_snapshotCompleteness v +:+ ".")
    ("Real venue truth for " +:+ id +:+ " now covers its supported depth completely.")
    [("snapshotCompleteness", JStr "complete"); ("derivativeAccountState", supported); ("derivativePositionState", supported);
     ("derivativeHealthState", supported); ("orderState", supported)]
    [("truthProfile", JStr (vi_truthProfile v)); ("snapshotCompleteness", JStr (vi_snapshotCompleteness v));
     ("connectorDepth", connector_depth v); ("truthCoverage", truth_coverage_json cover);
     ("comparisonCoverage", JObj (vi_comparisonCoverage v)); ("lastSnapshotAt", JStr (vi_lastSnapshotAt v))]
    [("onboardingState", JStr (vi_onboardingState v)); ("missingPrerequisites", JStrs (vi_missingPrerequisites v))]
    [("venueName", JStr (vi_venueName v)); ("latestSnapshotSummary", JStr (vi_latestSnapshotSummary v));
     ("sourceMetadata", JObj (vi_sourceMetadata v)); ("comparisonCoverage", JObj (vi_comparisonCoverage v));
     ("derivativeCoverage", JObj [("derivativeAccountState", coverage_json (tc_derivativeAccountState cover));
                                  ("derivativePositionState", coverage_json (tc_derivativePositionState cover));
                                  ("derivativeHealthState", coverage_json (tc_derivativeHealthState cover));
                                  ("orderState", coverage_json (tc_orderState cover))])].

Definition missing_references (expected observed : list string) : list string :=
  List.filter (fun r => negb (js_has r observed)) expected.
Definition reference_check (v : VenueInventoryItem) (expected : list string) (latest : option VenueSnapshot) : CandidateInput :=
  let id := vi_venueId v in
  let observed := js_unique (or_else (latest ≫= vs_references) []) in
  let missing := missing_references expected observed in
  inventory_check id venue_execution_reference_mismatch (negb (is_empty missing)) fs_medium
    ("Real venue truth for " +:+ id +:+ " is missing " +:+ z_str (Z.of_nat (length missing)) +:+ " internal execution references.")
    ("Real venue truth for " +:+ id +:+ " now includes the internal execution references currently persisted.")
    [("executionReferences", JStrs expected)]
    [("observedExecutionReferences", JStrs observed); ("truthProfile", JStr (vi_truthProfile v));
     ("snapshotCompleteness", JStr (vi_snapshotCompleteness v)); ("lastSnapshotAt", JStr (vi_lastSnapshotAt v))]
    [("missingExecutionReferences", JStrs missing)]
    [("venueName", JStr (vi_venueName v)); ("latestSnapshotSummary", JStr (vi_latestSnapshotSummary v));
     ("orderReferenceMode", JStr (or_else (latest ≫= vs_referenceMode) "none"));
     ("orderCoverage", match latest with Some s => coverage_json (vs_orderCoverage s) | None => JNull end);
     ("connectorDepth", connector_depth v); ("comparisonCoverage", JObj (vi_comparisonCoverage v))].

(** The venues of the inventory that the active runtime knows. *)
Definition in_scope (activeRealVenueIds : list string) (v : VenueInventoryItem) : bool :=
  is_empty activeRealVenueIds || js_has (vi_venueId v) activeRealVenueIds.

Definition detect_connector (venueById : list (string * VenueInventoryItem)) (adapter : string * eff Db VenueCapability)
    : eff Db (list Checked) :=
  capability ← adapter.2;
  if negb (bool_decide (vc_truthMode capability = tm_real)) then mret []
  else
    c ← check_candidate (missing_snapshot_check capability (jm_get (vc_venueId capability) venueById));
    mret [c].

Definition detect_venue (v : VenueInventoryItem) : eff Db (list Checked) :=
  if negb (bool_decide (vi_truthMode v = tm_real)) then mret []
  else
    stale ← check_candidate (stale_snapshot_check v);
    unavailable ← check_candidate (unavailable_check v);
    partial ← check_candidate (partial_coverage_check v);
    references ←
      (if negb (bool_decide (cov_status (tc_executionReferences (vi_truthCoverage v)) = cv_available)) then mret []
       else
         expected ← listExpectedVenueExecutionReferences (vi_venueId v) 100;
         snapshots ← listVenueSnapshots (vi_venueId v) 1;
         if is_empty expected then mret []
         else c ← check_candidate (reference_check v expected (head snapshots)); mret [c]);
    mret ([stale; unavailable; partial] ++ references).

Definition detectVenueTruthFindings (truthAdapters : list (string * eff Db VenueCapability)) (activeRealVenueIds : list string)
    : eff Db (list Checked) :=
  inventory ← listVenues 500;
  let venues := List.filter (in_scope activeRealVenueIds) inventory in
  let venueById := jm_of_list ((fun v => (vi_venueId v, v)) <$> venues) in
  connectors ← collect (detect_connector venueById) truthAdapters;
  rest ← collect detect_venue venues;
  mret (connectors ++ rest).

(** ** Derivative comparison *)

Definition derivative_check (v : VenueInventoryItem) (keyed : string) (type : RuntimeReconciliationFindingType) (active : bool)
    (severity : RuntimeReconciliationFindingSeverity) (entityType entityId summaryActive summaryResolved : string)
    (expected actual delta details : record_) : CandidateInput :=
  venue_check (vi_venueId v) keyed type active severity "derivative_truth_comparison" entityType entityId
    summaryActive summaryResolved expected actual delta details.

Definition stale_internal_check (v : VenueInventoryItem) (summary : ComparisonSummary) (sourceWatermark : option Z) : CandidateInput :=
  let id := vi_venueId v in
  let internal := cs_internalSnapshotAt summary in
  venue_check id id stale_internal_derivative_state
    (match sourceWatermark with
     | None => false
     | Some w => match internal with None => true | Some i => i <? w end
     end) fs_medium "internal_derivative_state" "venue_connector" id
    ("Internal derivative state for " +:+ id +:+ " is stale relative to persisted internal order or fill facts.")
    ("Internal derivative state for " +:+ id +:+ " is current against persisted internal order and fill facts.")
    [("internalSnapshotAt", JTime (match sourceWatermark with Some w => Some w | None => internal end))]
    [("internalSnapshotAt", JTime internal); ("sourceWatermark", JTime sourceWatermark)]
    [("venueName", JStr (vi_venueName v))] [("comparisonSummary", summary_json summary)].

Definition available_item (c : CoverageItem) : bool := bool_decide (cov_status c = cv_available).
Definition gap_section_candidates (cover : VenueTruthCoverage) (s : ComparisonSummary) : list (string * ComparisonItem * bool) :=
  [("subaccountIdentity", cs_subaccountIdentity s, available_item (tc_derivativeAccountState cover));
   ("positionInventory", cs_positionInventory s, available_item (tc_derivativePositionState cover));
   ("marketIdentity", cs_marketIdentity s, available_item (tc_derivativePositionState cover));
   ("healthState", cs_healthState s, available_item (tc_derivativeHealthState cover));
   ("orderInventory", cs_orderInventory s, available_item (tc_orderState cover))]%list.
Definition gap_sections (cover : VenueTruthCoverage) (s : ComparisonSummary) : list (string * ComparisonItem) :=
  map fst (List.filter (fun c => c.2 && negb (bool_decide (cmp_status c.1.2 = cv_available))) (gap_section_candidates cover s)).

Definition gap_check (v : VenueInventoryItem) (summary : ComparisonSummary) : CandidateInput :=
  let id := vi_venueId v in
  let gaps := gap_sections (vi_truthCoverage v) summary in
  let supported := JStr "available_or_external_unsupported" in
  derivative_check v id drift_truth_comparison_gap (negb (is_empty gaps)) fs_low "venue_connector" id
    ("Derivative truth comparison for " +:+ id +:+ " remains partial or unsupported for " +:+ z_str (Z.of_nat (length gaps))
     +:+ " section(s).")
    ("Derivative truth comparison for " +:+ id +:+ " now covers every externally supported internal section.")
    [("subaccountIdentity", supported); ("positionInventory", supported); ("marketIdentity", supported);
     ("healthState", supported); ("orderInventory", supported)]
    [("comparisonSummary", summary_json summary)]
    [("gapSections", JArr (map (fun g => JObj [("section", JStr g.1); ("status", JStr (coverage_str (cmp_status g.2)));
                                               ("reason", JStrNull (cmp_reason g.2))]) gaps))]
    [("venueName", JStr (vi_venueName v)); ("comparisonSummary", summary_json summary)].

Definition subaccount_check (v : VenueInventoryItem) (a : AccountComparison) : CandidateInput :=
  let id := vi_venueId v in
  derivative_check v id drift_subaccount_identity_mismatch (ac_comparable a && bool_decide (ac_status a = dc_mismatched)) fs_high
    "derivative_account" id
    ("Internal derivative account identity for " +:+ id +:+ " does not match external venue-native account truth.")
    ("Internal derivative account identity for " +:+ id +:+ " matches external venue-native account truth.")
    (or_else (ac_internalState a) []) (or_else (ac_externalState a) []) [("notes", JStrs (ac_notes a))]
    [("venueName", JStr (vi_venueName v))].

Definition partial_health_check (v : VenueInventoryItem) (s : ComparisonSummary) (h : HealthComparison) : CandidateInput :=
  let id := vi_venueId v in
  derivative_check v id drift_partial_health_comparison (bool_decide (cmp_status (cs_healthState s) = cv_partial)) fs_low
    "derivative_health" id
    ("Internal-vs-external health comparison for " +:+ id +:+ " remains partial.")
    ("Internal-vs-external health comparison for " +:+ id +:+ " is no longer partial.")
    [("healthComparison", JStr "available_or_external_unsupported")]
    [("comparisonMode", JStr (hc_comparisonMode h)); ("fields", JArr (map health_field_json (hc_fields h)))]
    [("comparableFields", JStrs (map hf_field (List.filter hf_comparable (hc_fields h))))] [("notes", JStrs (hc_notes h))].

Definition partial_identity_check (v : VenueInventoryItem) (s : ComparisonSummary) : CandidateInput :=
  let id := vi_venueId v in
  derivative_check v id drift_partial_market_identity_comparison (bool_decide (cmp_status (cs_marketIdentity s) = cv_partial)) fs_low
    "derivative_market_identity" id
    ("Market identity comparison for " +:+ id +:+ " still depends on derived or partial internal keys.")
    ("Market identity comparison for " +:+ id +:+ " no longer depends on derived or partial internal keys.")
    [("marketIdentityComparison", JStr "available_or_external_unsupported")] [("summary", summary_json s)]
    [("exactPositionIdentityCount", JInt (cs_exactPositionIdentityCount s));
     ("partialPositionIdentityCount", JInt (cs_partialPositionIdentityCount s));
     ("positionIdentityGapCount", JInt (cs_positionIdentityGapCount s))] [("venueName", JStr (vi_venueName v))].

Definition health_check (v : VenueInventoryItem) (s : ComparisonSummary) (h : HealthComparison) : CandidateInput :=
  let id := vi_venueId v in
  derivative_check v id drift_health_state_mismatch
    (bool_decide (cmp_status (cs_healthState s) = cv_available) && bool_decide (hc_status h = dc_mismatched)) fs_medium
    "derivative_health" id
    ("Internal health state for " +:+ id +:+ " does not match external venue-native truth.")
    ("Internal health state for " +:+ id +:+ " matches external venue-native truth.")
    (or_else (hc_internalState h) []) (or_else (hc_externalState h) [])
    [("fields", JArr (map health_field_json (hc_fields h)))] [("notes", JStrs (hc_notes h))].

Definition identity_gap_check (v : VenueInventoryItem) (c : EntryComparison) : CandidateInput :=
  let id := vi_venueId v in
  let key := en_comparisonKey c in
  derivative_check v (id +:+ ":" +:+ key) drift_position_identity_gap (bool_decide (en_status c = dc_not_comparable)) fs_low
    "derivative_position" key
    ("Derivative position " +:+ key +:+ " on " +:+ id +:+ " could not be truthfully aligned by market identity.")
    ("Derivative position " +:+ key +:+ " on " +:+ id +:+ " can now be truthfully aligned by market identity.")
    [("marketIdentity", JStr "truthfully_comparable")]
    [("internalIdentity", JObjNull (ic_internalIdentity (en_identity c))); ("externalIdentity", JObjNull (ic_externalIdentity (en_identity c)))]
    [("notes", JStrs (ic_notes (en_identity c)))] [("comparisonStatus", JStr (comparison_str (en_status c)))].

(** [kind] is "position" or "order", [named] how the entry is called. *)
Definition identity_check (v : VenueInventoryItem) (kind named : string) (c : EntryComparison) : CandidateInput :=
  let id := vi_venueId v in
  let key := en_comparisonKey c in
  let identity := en_identity c in
  derivative_check v (id +:+ ":" +:+ kind +:+ ":" +:+ key) drift_market_identity_mismatch
    (bool_decide (ic_status identity = dc_mismatched) && bool_decide (ic_comparisonMode identity = "exact")) fs_high
    "derivative_market_identity" key
    ("Exact market identity for " +:+ named +:+ " " +:+ key +:+ " on " +:+ id +:+ " does not match external venue truth.")
    ("Exact market identity for " +:+ named +:+ " " +:+ key +:+ " on " +:+ id +:+ " matches external venue truth.")
    (or_else (ic_internalIdentity identity) []) (or_else (ic_externalIdentity identity) [])
    [("normalizedIdentity", JObjNull (ic_normalizedIdentity identity))] [("notes", JStrs (ic_notes identity))].

Definition differs (s : InternalDerivativeComparisonStatus) : bool :=
  bool_decide (s = dc_mismatched) || bool_decide (s = dc_internal_only) || bool_decide (s = dc_external_only).

Definition derivative_position_check (v : VenueInventoryItem) (c : EntryComparison) : CandidateInput :=
  let id := vi_venueId v in
  let key := en_comparisonKey c in
  derivative_check v (id +:+ ":" +:+ key) drift_position_mismatch (differs (en_status c))
    (match en_status c with dc_matched => fs_low | dc_mismatched => fs_high | _ => fs_medium end) "derivative_position" key
    ("Internal derivative position " +:+ key +:+ " on " +:+ id +:+ " does not match external venue-native truth.")
    ("Internal derivative position " +:+ key +:+ " on " +:+ id +:+ " matches external venue-native truth.")
    (or_else (en_internal c) []) (or_else (en_external c) [])
    [("quantityDelta", JStrNull (en_delta c)); ("status", JStr (comparison_str (en_status c)))] [("notes", JStrs (en_notes c))].

Definition derivative_order_check (v : VenueInventoryItem) (c : EntryComparison) : CandidateInput :=
  let id := vi_venueId v in
  let key := en_comparisonKey c in
  derivative_check v (id +:+ ":" +:+ key) drift_order_inventory_mismatch (differs (en_status c))
    (match en_status c with dc_matched => fs_low | _ => fs_medium end) "derivative_order" key
    ("Internal open-order inventory for " +:+ key +:+ " on " +:+ id +:+ " does not match external venue-native truth.")
    ("Internal open-order inventory for " +:+ key +:+ " on " +:+ id +:+ " matches external venue-native truth.")
    (or_else (en_internal c) []) (or_else (en_external c) [])
    [("remainingSizeDelta", JStrNull (en_delta c)); ("status", JStr (comparison_str (en_status c)))] [("notes", JStrs (en_notes c))].

(** The comparisons made of a venue's comparison detail, in order. *)
Definition detail_checks (v : VenueInventoryItem) (detail : ComparisonDetail) (sourceWatermark : option Z) : list CandidateInput :=
  let summary := cd_summary detail in
  let health := cd_healthComparison detail in
  [stale_internal_check v summary sourceWatermark; gap_check v summary; subaccount_check v (cd_accountComparison detail);
   partial_health_check v summary health; partial_identity_check v summary; health_check v summary health]
  ++ flat_map (fun c => [identity_gap_check v c; identity_check v "position" "derivative position" c; derivative_position_check v c])
       (cd_positionComparisons detail)
  ++ flat_map (fun c => [identity_check v "order" "open order" c; derivative_order_check v c]) (cd_orderComparisons detail).

Definition detect_derivative (v : VenueInventoryItem) : eff Db (list Checked) :=
  if negb (bool_decide (vi_truthMode v = tm_real)) || negb (bool_decide (vi_truthProfile v = "derivative_aware")) then mret []
  else
    comparisonDetail ← getVenueComparisonDetail (vi_venueId v);
    sourceWatermark ← getInternalDerivativeSourceWatermark (vi_venueId v);
    match comparisonDetail with
    | None => mret []
    | Some detail => collect (fun input => c ← check_candidate input; mret [c]) (detail_checks v detail sourceWatermark)
    end.

Definition detectDerivativeComparisonFindings (activeRealVenueIds : list string) : eff Db (list Checked) :=
  inventory ← listVenues 500;
  collect detect_derivative (List.filter (in_scope activeRealVenueIds) inventory).
End Detect.
