(* ===== verification/DerivativeState.v ===== *)
(** * The internal derivative state (packages/runtime: internal-derivative-state.ts)

    What the runtime knows of its positions and open orders at a venue: market
    identities, the account, open orders, the positions reconstructed from the
    fills, and the health posture.  The file shows that the reconstruction loses
    no fill: the position of a group is the sum of its signed fills, and every
    fill is in one group.  [localeCompare] is an order of the host; instants
    stand for ISO texts. *)
From S2P Require Import Prelude JsNumber JsValue JsText DecimalLib DecimalExact Money Domain MarketIdentity CircuitBreakers RiskEngine MismatchStore ReconcileFindings ReconcileVenues.
Open Scope Z_scope.

(** [a.localeCompare(b) < 0]. *)
Class Collation := { locale_lt : string -> string -> bool }.
(** [d.isPositive()]: the sign of a value that is not zero. *)
Class DecimalSign `{DL : DecimalLib} := { d_isPositive : dec -> bool }.
Class DecimalSignLaws `{DS : DecimalSign} `{LW : !DecimalLaws} := {
  d_isPositive_val : forall a q, is_fin a q -> ~ (q == 0)%Q -> d_isPositive a = Qltb 0 q;
}.
#[export] Instance exact_sign : DecimalSign (DL := exact_decimal) := { d_isPositive := fun a : @dec exact_decimal => negb (dv_lt a (DFin 0)) }.
#[export] Instance exact_sign_laws : DecimalSignLaws (DL := exact_decimal).
Proof.
  split. intros a q Ha Hq. unfold is_fin in Ha. cbn in *. rewrite Ha. cbn. apply eq_true_iff_eq. rewrite negb_true_iff, Qltb_false, Qltb_spec.
  split; intros; [|lra]. destruct (Qlt_le_dec 0 q); [done|]. exfalso. apply Hq. lra.
Qed.

(** ** Views *)

Inductive InternalDerivativeDataClassification := cl_canonical | cl_derived | cl_estimated | cl_unsupported.
Record DataProvenance := MkProvenance {
  dp_classification : InternalDerivativeDataClassification;
  dp_source : string;
  dp_notes : list string;
}.
Record InternalMarketIdentity := MkInternalIdentity {
  ni_asset : option string;
  ni_marketType : CanonicalMarketType;
  ni_marketIndex : option num;
  ni_marketKey : option string;
  ni_marketSymbol : option string;
  ni_normalizedKey : option string;
  ni_normalizedKeyType : CanonicalMarketIdentityKeyType;
  ni_confidence : CanonicalMarketIdentityConfidence;
  ni_notes : list string;
  ni_provenance : DataProvenance;
}.

Inductive PositionSide_ := ps_long | ps_short | ps_flat.
Record PositionEntry := MkPositionEntry {
  pe_positionKey : string;
  pe_asset : string;
  pe_marketType : CanonicalMarketType;
  pe_side : PositionSide_;
  pe_netQuantity : string;
  pe_averageEntryPrice : option string;
  pe_executedBuyQuantity : string;
  pe_executedSellQuantity : string;
  pe_fillCount : Z;
  pe_sourceOrderCount : Z;
  pe_firstFilledAt : option Z;
  pe_lastFilledAt : option Z;
  pe_marketIdentity : option InternalMarketIdentity;
  pe_metadata : record_;
  pe_provenance : DataProvenance;
}.
Record PositionState := MkPositionState {
  pt_positions : list PositionEntry;
  pt_openPositionCount : Z;
  pt_methodology : string;
  pt_notes : list string;
  pt_provenance : DataProvenance;
}.
Record OrderEntry := MkOrderEntry {
  oe_orderKey : string;
  oe_clientOrderId : string;
  oe_venueOrderId : option string;
  oe_asset : string;
  oe_marketType : CanonicalMarketType;
  oe_side : OrderSide;
  oe_status : string;
  oe_requestedSize : string;
  oe_filledSize : string;
  oe_remainingSize : string;
  oe_requestedPrice : option string;
  oe_reduceOnly : bool;
  oe_executionMode : string;
  oe_comparableByVenueOrderId : bool;
  oe_submittedAt : option string;
  oe_completedAt : option string;
  oe_updatedAt : string;
  oe_marketIdentity : option InternalMarketIdentity;
  oe_metadata : record_;
  oe_provenance : DataProvenance;
}.
Record OrderState := MkOrderState {
  ot_openOrderCount : Z;
  ot_comparableOpenOrderCount : Z;
  ot_nonComparableOpenOrderCount : Z;
  ot_openOrders : list OrderEntry;
  ot_methodology : string;
  ot_notes : list string;
  ot_provenance : DataProvenance;
}.
Inductive AccountLocatorMode := user_account_address | authority_subaccount | unconfigured.
#[export] Instance AccountLocatorMode_eq_dec : EqDecision AccountLocatorMode.
Proof. solve_decision. Defined.
Record AccountState := MkAccountState {
  as_venueId : string;
  as_venueName : string;
  as_configured : bool;
  as_accountLocatorMode : AccountLocatorMode;
  as_accountAddress : option string;
  as_authorityAddress : option string;
  as_subaccountId : option Z;
  as_accountLabel : option string;
  as_methodology : string;
  as_notes : list string;
  as_provenance : DataProvenance;
}.
Inductive HealthStatus := hs_healthy | hs_degraded | hs_liquidation_risk | hs_unknown.
#[export] Instance HealthStatus_eq_dec : EqDecision HealthStatus.
Proof. solve_decision. Defined.
Inductive HealthComparisonMode := hm_status_band_only | hm_unsupported.
#[export] Instance HealthComparisonMode_eq_dec : EqDecision HealthComparisonMode.
Proof. solve_decision. Defined.
Record HealthState := MkHealthState {
  ht_healthStatus : HealthStatus;
  ht_modelType : string;
  ht_comparisonMode : HealthComparisonMode;
  ht_riskPosture : option RiskLevel;
  ht_collateralLikeUsd : option string;
  ht_liquidityReserveUsd : option string;
  ht_grossExposureUsd : option string;
  ht_netExposureUsd : option string;
  ht_venueExposureUsd : option string;
  ht_exposureToNavRatio : option string;
  ht_liquidityReservePct : option num;
  ht_leverage : option string;
  ht_openPositionCount : option Z;
  ht_openOrderCount : option Z;
  ht_openCircuitBreakers : list CircuitBreakerName;
  ht_unsupportedReasons : list string;
  ht_methodology : string;
  ht_notes : list string;
  ht_provenance : DataProvenance;
}.
Record InternalSnapshot := MkInternalSnapshot {
  is_venueId : string;
  is_venueName : string;
  is_sourceComponent : string;
  is_sourceRunId : option string;
  is_sourceReference : option string;
  is_capturedAt : Z;
  is_accountCoverage : CoverageItem;
  is_positionCoverage : CoverageItem;
  is_healthCoverage : CoverageItem;
  is_orderCoverage : CoverageItem;
  is_accountState : option AccountState;
  is_positionState : option PositionState;
  is_healthState : option HealthState;
  is_orderState : option OrderState;
  is_metadata : record_;
}.

(** ** Inputs *)

Record TrackedVenue := MkTrackedVenue {
  tv_venueId : string;
  tv_venueName : string;
  tv_accountAddress : option string;
  tv_authorityAddress : option string;
  tv_subaccountId : option Z;
  tv_accountLabel : option string;
}.
Record OrderRow := MkOrderRow {
  ow_clientOrderId : string;
  ow_venueOrderId : option string;
  ow_asset : string;
  ow_side : string;
  ow_status : string;
  ow_requestedSize : string;
  ow_filledSize : string;
  ow_requestedPrice : option string;
  ow_reduceOnly : bool;
  ow_executionMode : string;
  ow_marketIdentity : option CanonicalMarketIdentity;
  ow_metadata : record_;
  ow_submittedAt : option string;
  ow_completedAt : option string;
  ow_updatedAt : string;
}.
Record FillRecord := MkFillRecord {
  fr_clientOrderId : string;
  fr_asset : string;
  fr_side : OrderSide;
  fr_size : string;
  fr_price : string;
  fr_filledAt : Z;
  fr_marketIdentity : option CanonicalMarketIdentity;
}.
Record PortfolioSummaryView := MkPortfolioSummary {
  sv_totalNav : string;
  sv_grossExposure : string;
  sv_netExposure : string;
  sv_liquidityReserve : string;
  sv_venueExposures : list (string * string);
}.
Record SnapshotInput := MkSnapshotInput {
  si_venue : TrackedVenue;
  si_orders : list OrderRow;
  si_fills : list FillRecord;
  si_portfolioSummary : option PortfolioSummaryView;
  si_riskSummary : option RiskSummary;
  si_capturedAt : Z;
  si_sourceComponent : string;
  si_sourceRunId : option string;
  si_sourceReference : option string;
}.

(** ** Decimals and keys *)

Definition isTerminalOrderStatus (status : string) : bool :=
  bool_decide (status = "filled") || bool_decide (status = "cancelled") || bool_decide (status = "expired")
  || bool_decide (status = "failed").

Definition orderMarketType (metadata : record_) : CanonicalMarketType :=
  let instrumentType := rec_get metadata "instrumentType" in
  if is_str instrumentType "perpetual" then mt_perp else if is_str instrumentType "spot" then mt_spot else mt_unknown.

(** [x !== null]. *)
Definition present {A} (o : option A) : bool := match o with Some _ => true | None => false end.
Definition nonempty (s : option string) : bool := match s with Some t => negb (bool_decide (t = "")) | None => false end.

Definition extractLocatorMode (venue : TrackedVenue) : AccountLocatorMode :=
  if nonempty (tv_accountAddress venue) then user_account_address
  else if nonempty (tv_authorityAddress venue) then authority_subaccount else unconfigured.

Definition marketSymbolFromAssetAndType (asset : option string) (t : CanonicalMarketType) : option string :=
  match asset with
  | Some a => if bool_decide (a = "") || is_unknown t then None
              else Some (if bool_decide (t = mt_perp) then a +:+ "-PERP" else a)
  | None => None
  end.
Definition assetFromMarketSymbol (marketSymbol : option string) (t : CanonicalMarketType) : option string :=
  match marketSymbol with
  | Some s => if bool_decide (s = "") then None
              else if bool_decide (t = mt_perp) && endsWith "-PERP" s then Some (String.substring 0 (String.length s - 5) s)
              else Some s
  | None => None
  end.
Definition typed_key (t : CanonicalMarketType) (part : string) : string := market_type_str t +:+ ":" +:+ part.
Definition assetTypeKey (t : CanonicalMarketType) (asset : option string) : option string :=
  match asset with
  | Some a => if is_unknown t || bool_decide (a = "") then None else Some (typed_key t a)
  | None => None
  end.
Definition marketIndexKey (t : CanonicalMarketType) (marketIndex : option num) : option string :=
  match marketIndex with Some n => if is_unknown t then None else Some (typed_key t (n_str n)) | None => None end.
Definition marketSymbolKey (t : CanonicalMarketType) (marketSymbol : option string) : option string :=
  match marketSymbol with
  | Some s => if is_unknown t || bool_decide (s = "") then None else Some (typed_key t s)
  | None => None
  end.

(** ** Internal identities *)

Definition canonicalIdentityToInternalView (identity : CanonicalMarketIdentity) (exactNotes derivedNotes : list string)
    : InternalMarketIdentity :=
  let notes := if negb (is_empty (mi_notes identity)) then mi_notes identity
               else if bool_decide (mi_confidence identity = exact) then exactNotes else derivedNotes in
  let classification := if bool_decide (mi_provenance identity = prov_unsupported) then cl_unsupported
                        else if bool_decide (mi_confidence identity = exact) then cl_canonical else cl_derived in
  {| ni_asset := mi_asset identity; ni_marketType := mi_marketType identity; ni_marketIndex := mi_marketIndex identity;
     ni_marketKey := mi_marketKey identity; ni_marketSymbol := mi_marketSymbol identity;
     ni_normalizedKey := mi_normalizedKey identity; ni_normalizedKeyType := mi_normalizedKeyType identity;
     ni_confidence := mi_confidence identity; ni_notes := notes;
     ni_provenance := MkProvenance classification (mi_source identity) notes |}.

Definition buildInternalMarketIdentity (asset : option string) (t : CanonicalMarketType) (metadata : record_) (source : string)
    (exactNotes derivedNotes : list string) : InternalMarketIdentity :=
  let canonicalIdentity :=
    or_else (readCanonicalMarketIdentityFromMetadata metadata {|
      md_venueId := None; md_asset := asset;
      md_marketType := nullish (rec_get metadata "instrumentType") (JStr (market_type_str t));
      md_provenance := Some derived; md_capturedAtStage := internal_snapshot; md_source := source; md_notes := Some derivedNotes |})
    (createCanonicalMarketIdentity {|
      ii_venueId := None; ii_asset := asset; ii_marketType := JStr (market_type_str t); ii_marketIndex := JUndefined;
      ii_marketKey := None; ii_marketSymbol := None; ii_marketName := None; ii_aliases := None;
      ii_provenance := Some (if is_unknown t then prov_unsupported else derived);
      ii_capturedAtStage := internal_snapshot; ii_source := source;
      ii_notes := Some (if is_unknown t
        then ["Internal market identity is unsupported because the runtime could not infer a market type from current metadata."]
        else derivedNotes) |}) in
  canonicalIdentityToInternalView canonicalIdentity exactNotes derivedNotes.

Definition mergePositionMarketIdentity (asset : string) (t : CanonicalMarketType) (identities : list InternalMarketIdentity)
    : option InternalMarketIdentity :=
  match identities with
  | [] =>
      Some (buildInternalMarketIdentity (Some asset) t [] "runtime_fill_ledger"
        ["No exact market identity was persisted on source orders for this internal position row."]
        ["Internal market identity is reconstructed from the position asset and market type only."])
  | first :: _ =>
      if (length (js_unique (omap ni_normalizedKey identities)) <=? 1)%nat then Some first
      else Some {|
        ni_asset := Some asset; ni_marketType := t; ni_marketIndex := None; ni_marketKey := None;
        ni_marketSymbol := marketSymbolFromAssetAndType (Some asset) t;
        ni_normalizedKey := assetTypeKey t (Some asset);
        ni_normalizedKeyType := if is_unknown t then key_unsupported else asset_market_type;
        ni_confidence := if is_unknown t then conf_unsupported else partial;
        ni_notes :=
          ["Multiple internal market identity candidates contributed to this aggregated position row.";
           "The runtime falls back to asset plus market type for comparison and keeps exact market-index parity unsupported for this row."];
        ni_provenance := MkProvenance (if is_unknown t then cl_unsupported else cl_derived) "runtime_fill_ledger"
          ["Aggregated internal position identity was reduced to the coarsest stable comparable key."] |}
  end.

(** ** Account *)

Definition coverage (status : VenueTruthCoverageStatus) (reason : option string) (limitations : list string) : CoverageItem :=
  MkCoverageItem status reason limitations.

Definition buildAccountState (venue : TrackedVenue) : CoverageItem * option AccountState :=
  let locatorMode := extractLocatorMode venue in
  if bool_decide (locatorMode = unconfigured) then
    (coverage cv_unsupported (Some "No internal account locator is configured for this venue.")
       ["Configure the tracked venue account address to enable canonical internal account identity."], None)
  else
    (coverage cv_available None [],
     Some {| as_venueId := tv_venueId venue; as_venueName := tv_venueName venue; as_configured := true;
             as_accountLocatorMode := locatorMode; as_accountAddress := tv_accountAddress venue;
             as_authorityAddress := tv_authorityAddress venue; as_subaccountId := tv_subaccountId venue;
             as_accountLabel := tv_accountLabel venue; as_methodology := "runtime_operator_config";
             as_notes := if bool_decide (locatorMode = authority_subaccount) && bool_decide (tv_accountAddress venue = None)
               then ["The runtime tracks authority plus subaccount identity and does not derive the program account address internally."]
               else ["The runtime tracks this venue account directly from configured operator input."];
             as_provenance := MkProvenance cl_canonical "runtime_derivative_tracking_config"
               ["Internal account identity comes from Sentinel Apex runtime configuration rather than external venue decode."] |}).

Section State.
Context `{DL : DecimalLib} `{DS : !DecimalSign} `{CO : Collation}.

Definition normaliseDecimal (value : dec) : string := strip_zeros (d_toFixedN 8 value).
Definition normaliseNumber (value : num) (precision : Z) : string := normaliseDecimal (d_toDP precision (dec_of_num value)).

Definition signedQuantity (sz : string) (side : OrderSide) : exn dec :=
  amount ← dec_of_string sz;
  Ret (match side with buy => amount | sell => d_neg amount end).

Definition positionSide (quantity : dec) : PositionSide_ :=
  if d_gt quantity (dec_of_Z 0) then ps_long else if d_lt quantity (dec_of_Z 0) then ps_short else ps_flat.

Definition remainingOrderSize (requestedSize filledSize : string) : exn string :=
  requested ← dec_of_string requestedSize;
  filled ← dec_of_string filledSize;
  Ret (normaliseDecimal (d_max [d_minus requested filled; dec_of_Z 0])).

(** ** Open orders *)

Definition order_exact_notes : list string := ["Internal order market identity is sourced from persisted order metadata."].
Definition order_derived_notes : list string := ["Internal order market identity is derived from order asset plus instrument type."].

Definition order_entry (order : OrderRow) : exn OrderEntry :=
  let t := orderMarketType (ow_metadata order) in
  remaining ← remainingOrderSize (ow_requestedSize order) (ow_filledSize order);
  Ret {|
    oe_orderKey := or_else (ow_venueOrderId order) (ow_clientOrderId order);
    oe_clientOrderId := ow_clientOrderId order; oe_venueOrderId := ow_venueOrderId order; oe_asset := ow_asset order;
    oe_marketType := t; oe_side := if bool_decide (ow_side order = "sell") then sell else buy; oe_status := ow_status order;
    oe_requestedSize := ow_requestedSize order; oe_filledSize := ow_filledSize order; oe_remainingSize := remaining;
    oe_requestedPrice := ow_requestedPrice order; oe_reduceOnly := ow_reduceOnly order;
    oe_executionMode := ow_executionMode order;
    oe_comparableByVenueOrderId := negb (bool_decide (ow_venueOrderId order = None));
    oe_submittedAt := ow_submittedAt order; oe_completedAt := ow_completedAt order; oe_updatedAt := ow_updatedAt order;
    oe_marketIdentity := Some (match ow_marketIdentity order with
      | None => buildInternalMarketIdentity (Some (ow_asset order)) t (ow_metadata order) "runtime_orders_table"
                  order_exact_notes order_derived_notes
      | Some identity => canonicalIdentityToInternalView identity order_exact_notes order_derived_notes
      end);
    oe_metadata := ow_metadata order;
    oe_provenance := MkProvenance cl_canonical "runtime_orders_table"
      ["Internal order inventory is read from persisted runtime order records."] |}.

Definition plural_s (n : Z) : string := if n =? 1 then "" else "s".

Definition buildOrderState (orders : list OrderRow) : exn (CoverageItem * OrderState) :=
  entries ← map_exn order_entry (List.filter (fun o => negb (isTerminalOrderStatus (ow_status o))) orders);
  let openOrders := js_sort (fun x y => locale_lt (oe_updatedAt y) (oe_updatedAt x)) entries in
  let total := Z.of_nat (length openOrders) in
  let nonComparable := Z.of_nat (length (List.filter (fun o => negb (oe_comparableByVenueOrderId o)) openOrders)) in
  let some_ := 0 <? nonComparable in
  Ret (coverage (if some_ then cv_partial else cv_available)
         (if some_ then Some (z_str nonComparable +:+ " open internal order" +:+ plural_s nonComparable
            +:+ " do not yet have a venue order id for direct comparison.") else None)
         (if some_ then ["Orders without a venue order id remain internally canonical but only partially comparable to external open-order inventory."]
          else []),
       {| ot_openOrderCount := total; ot_comparableOpenOrderCount := total - nonComparable;
          ot_nonComparableOpenOrderCount := nonComparable; ot_openOrders := openOrders; ot_methodology := "runtime_orders_table";
          ot_notes := if some_ then ["Some internal open orders are still awaiting venue-native order ids."]
                      else ["Open internal order inventory comes directly from persisted runtime order records."];
          ot_provenance := MkProvenance cl_canonical "runtime_orders_table"
            ["Open-order inventory is based on Sentinel Apex persisted order lifecycle state."] |}).

(** ** Positions from fills *)

Record PositionAccumulator := MkAccumulator {
  pa_asset : string;
  pa_marketType : CanonicalMarketType;
  pa_executedBuyQuantity : dec;
  pa_executedSellQuantity : dec;
  pa_fillCount : Z;
  pa_orderIds : list string;
  pa_firstFilledAt : option Z;
  pa_lastFilledAt : option Z;
  pa_netQuantity : dec;
  pa_averageEntryPrice : option dec;
  pa_marketIdentities : list InternalMarketIdentity;
}.

Definition new_accumulator (asset : string) (t : CanonicalMarketType) : PositionAccumulator :=
  MkAccumulator asset t (dec_of_Z 0) (dec_of_Z 0) 0 [] None None (dec_of_Z 0) None [].

(** The net quantity and the average entry price after a signed fill. *)
Definition next_position (net : dec) (average : option dec) (signed price : dec) : dec * option dec :=
  let existingAbs := d_abs net in
  let incomingAbs := d_abs signed in
  let net' := d_plus net signed in
  let zero := dec_of_Z 0 in
  if d_eq net zero || Bool.eqb (d_isPositive net) (d_isPositive signed) then
    let notional := d_plus (d_times (or_else average zero) existingAbs) (d_times price incomingAbs) in
    (net', if d_eq net' zero then None else Some (d_div notional (d_plus existingAbs incomingAbs)))
  else if d_lt incomingAbs existingAbs then (net', average)
  else (net', if d_eq net' zero then None else Some price).

Definition applyFillToAccumulator (a : PositionAccumulator) (fill : FillRecord) : exn PositionAccumulator :=
  sz ← dec_of_string (fr_size fill);
  price ← dec_of_string (fr_price fill);
  signed ← signedQuantity (fr_size fill) (fr_side fill);
  let at_ := fr_filledAt fill in
  let '(net, average) := next_position (pa_netQuantity a) (pa_averageEntryPrice a) signed price in
  Ret {|
    pa_asset := pa_asset a; pa_marketType := pa_marketType a;
    pa_executedBuyQuantity := match fr_side fill with
                              | buy => d_plus (pa_executedBuyQuantity a) sz | sell => pa_executedBuyQuantity a end;
    pa_executedSellQuantity := match fr_side fill with
                               | buy => pa_executedSellQuantity a | sell => d_plus (pa_executedSellQuantity a) sz end;
    pa_fillCount := pa_fillCount a + 1; pa_orderIds := pa_orderIds a;
    pa_firstFilledAt := Some (match pa_firstFilledAt a with None => at_ | Some t => if at_ <? t then at_ else t end);
    pa_lastFilledAt := Some (match pa_lastFilledAt a with None => at_ | Some t => if t <? at_ then at_ else t end);
    pa_netQuantity := net; pa_averageEntryPrice := average; pa_marketIdentities := pa_marketIdentities a |}.

Definition source_order_exact : list string :=
  ["Internal position identity inherited exact market metadata from a source order."].
Definition source_order_derived : list string :=
  ["Internal position identity was derived from source order asset plus market type."].

Definition fill_market_type (order : option OrderRow) : CanonicalMarketType :=
  match order with None => mt_unknown | Some o => orderMarketType (ow_metadata o) end.

Definition fill_identity (fill : FillRecord) (order : option OrderRow) : option InternalMarketIdentity :=
  match fr_marketIdentity fill with
  | Some identity =>
      Some (canonicalIdentityToInternalView identity
        ["Internal position identity inherited exact market metadata from a persisted fill."]
        ["Internal position identity was derived from persisted fill metadata."])
  | None =>
      match order with
      | None => None
      | Some o =>
          Some (match ow_marketIdentity o with
                | Some identity => canonicalIdentityToInternalView identity source_order_exact source_order_derived
                | None => buildInternalMarketIdentity (Some (ow_asset o)) (fill_market_type order) (ow_metadata o) "runtime_fill_ledger"
                            source_order_exact source_order_derived
                end)
      end
  end.

Definition fill_key (fill : FillRecord) (order : option OrderRow) : string :=
  let derived_key := typed_key (fill_market_type order) (fr_asset fill) in
  match fill_identity fill order with
  | Some i => if bool_decide (ni_confidence i = exact) then or_else (ni_normalizedKey i) derived_key else derived_key
  | None => derived_key
  end.

(** The order id and the identity of a fill are noted before it is applied. *)
Definition note_fill (a : PositionAccumulator) (fill : FillRecord) (identity : option InternalMarketIdentity) : PositionAccumulator :=
  MkAccumulator (pa_asset a) (pa_marketType a) (pa_executedBuyQuantity a) (pa_executedSellQuantity a) (pa_fillCount a)
    (js_add (pa_orderIds a) (fr_clientOrderId fill)) (pa_firstFilledAt a) (pa_lastFilledAt a) (pa_netQuantity a)
    (pa_averageEntryPrice a) (pa_marketIdentities a ++ from_option (fun i => [i]) [] identity).

Definition group_fill (ordersByClientId : list (string * OrderRow)) (grouped : list (string * PositionAccumulator)) (fill : FillRecord)
    : exn (list (string * PositionAccumulator)) :=
  let order := jm_get (fr_clientOrderId fill) ordersByClientId in
  let key := fill_key fill order in
  let accumulator := or_else (jm_get key grouped) (new_accumulator (fr_asset fill) (fill_market_type order)) in
  a ← applyFillToAccumulator (note_fill accumulator fill (fill_identity fill order)) fill;
  Ret (jm_set key a grouped).

Fixpoint group_fills (ordersByClientId : list (string * OrderRow)) (grouped : list (string * PositionAccumulator))
    (fills : list FillRecord) : exn (list (string * PositionAccumulator)) :=
  match fills with
  | [] => Ret grouped
  | f :: fills' => g ← group_fill ordersByClientId grouped f; group_fills ordersByClientId g fills'
  end.

Definition position_entry (entry : string * PositionAccumulator) : PositionEntry :=
  let a := entry.2 in
  let marketIdentity := mergePositionMarketIdentity (pa_asset a) (pa_marketType a) (pa_marketIdentities a) in {|
  pe_positionKey := or_else (marketIdentity ≫= ni_normalizedKey) entry.1; pe_asset := pa_asset a; pe_marketType := pa_marketType a;
  pe_side := positionSide (pa_netQuantity a); pe_netQuantity := normaliseDecimal (pa_netQuantity a);
  pe_averageEntryPrice := normaliseDecimal <$> pa_averageEntryPrice a;
  pe_executedBuyQuantity := normaliseDecimal (pa_executedBuyQuantity a);
  pe_executedSellQuantity := normaliseDecimal (pa_executedSellQuantity a);
  pe_fillCount := pa_fillCount a; pe_sourceOrderCount := Z.of_nat (length (pa_orderIds a));
  pe_firstFilledAt := pa_firstFilledAt a; pe_lastFilledAt := pa_lastFilledAt a; pe_marketIdentity := marketIdentity;
  pe_metadata := []; pe_provenance := MkProvenance cl_derived "runtime_fill_ledger"
    ["Internal derivative positions are derived from persisted fills joined to canonical runtime orders."] |}.

Definition ordersByClientId (orders : list OrderRow) : list (string * OrderRow) :=
  jm_of_list ((fun o => (ow_clientOrderId o, o)) <$> orders).
Definition chronological (fills : list FillRecord) : list FillRecord := js_sort (fun x y => fr_filledAt x <? fr_filledAt y) fills.
Definition open_groups (grouped : list (string * PositionAccumulator)) : list (string * PositionAccumulator) :=
  List.filter (fun e => negb (d_eq (pa_netQuantity e.2) (dec_of_Z 0))) grouped.

Definition buildPositionState (orders : list OrderRow) (fills : list FillRecord) : exn (CoverageItem * PositionState) :=
  grouped ← group_fills (ordersByClientId orders) [] (chronological fills);
  let positions := js_sort (fun x y => locale_lt (pe_positionKey x) (pe_positionKey y)) (map position_entry (open_groups grouped)) in
  let unknown := Z.of_nat (length (List.filter (fun p => is_unknown (pe_marketType p)) positions)) in
  let some_ := 0 <? unknown in
  Ret (coverage (if some_ then cv_partial else cv_available)
         (if some_ then Some (z_str unknown +:+ " internal position" +:+ plural_s unknown
            +:+ " cannot be mapped to a known market type from current order metadata.") else None)
         (if some_ then ["Unknown market-type rows remain internally tracked but only partially comparable to external venue positions."]
          else []),
       {| pt_positions := positions; pt_openPositionCount := Z.of_nat (length positions); pt_methodology := "runtime_fill_ledger";
          pt_notes := if is_empty positions then ["No internally executed derivative inventory is currently open for this venue."]
                      else ["Positions are reconstructed from persisted fills rather than external venue state."];
          pt_provenance := MkProvenance cl_derived "runtime_fill_ledger"
            ["Position inventory is derived from internal fill history and preserves the runtime/execution boundary explicitly."] |}).

(** ** Health and the snapshot *)

Definition unsupportedHealthState (reason : string) (notes : list string) : CoverageItem * HealthState :=
  (coverage cv_unsupported (Some reason) ["Allocator and risk summaries are not treated as exact venue-native margin state."],
   {| ht_healthStatus := hs_unknown; ht_modelType := "unsupported"; ht_comparisonMode := hm_unsupported; ht_riskPosture := None;
      ht_collateralLikeUsd := None; ht_liquidityReserveUsd := None; ht_grossExposureUsd := None; ht_netExposureUsd := None;
      ht_venueExposureUsd := None; ht_exposureToNavRatio := None; ht_liquidityReservePct := None; ht_leverage := None;
      ht_openPositionCount := None; ht_openOrderCount := None; ht_openCircuitBreakers := []; ht_unsupportedReasons := [reason];
      ht_methodology := "unsupported_internal_health_model"; ht_notes := notes;
      ht_provenance := MkProvenance cl_unsupported "unsupported_internal_health_model"
        ["Internal health remains unsupported until sufficient internal portfolio and risk projections exist."] |}).

Definition buildHealthState (venueId : string) (portfolioSummary : option PortfolioSummaryView) (riskSummary : option RiskSummary)
    (positionState : PositionState) (orderState : OrderState) : exn (CoverageItem * HealthState) :=
  match portfolioSummary, riskSummary with
  | None, _ =>
      Ret (unsupportedHealthState
        "No internal portfolio summary is currently persisted, so internal health posture cannot be derived."
        ["Run a runtime cycle or projection rebuild to populate portfolio current state before deriving internal health posture."])
  | Some _, None =>
      Ret (unsupportedHealthState
        "No internal risk summary is currently persisted, so internal health posture cannot be derived."
        ["Run a runtime cycle or projection rebuild to populate risk current state before deriving internal health posture."])
  | Some p, Some r =>
      totalNav ← dec_of_string (str_or (sv_totalNav p) "0");
      venueExposure ← dec_of_string (or_else (jm_get venueId (sv_venueExposures p)) "0");
      let summary := rs_partial r in
      let degraded := bool_decide (rs_riskLevel r = high) || bool_decide (rs_riskLevel r = critical) in
      Ret (coverage cv_available None
             ["Internal health posture is derived from internal portfolio and risk projections, not from venue-native margin math.";
              "Only band-level health comparison is currently truthful; exact margin fields remain external-only."],
           {| ht_healthStatus := if degraded then hs_degraded else hs_healthy; ht_modelType := "internal_risk_posture";
              ht_comparisonMode := hm_status_band_only; ht_riskPosture := Some (rs_riskLevel r);
              ht_collateralLikeUsd := Some (sv_liquidityReserve p); ht_liquidityReserveUsd := Some (sv_liquidityReserve p);
              ht_grossExposureUsd := Some (sv_grossExposure p); ht_netExposureUsd := Some (sv_netExposure p);
              ht_venueExposureUsd := Some (normaliseDecimal venueExposure);
              ht_exposureToNavRatio := if d_lte totalNav (dec_of_Z 0) then None else Some (normaliseDecimal (d_div venueExposure totalNav));
              ht_liquidityReservePct := Some (rs_liquidityReservePct summary); ht_leverage := Some (normaliseNumber (rs_leverage summary) 4);
              ht_openPositionCount := Some (pt_openPositionCount positionState);
              ht_openOrderCount := Some (ot_openOrderCount orderState); ht_openCircuitBreakers := rs_openCircuitBreakers summary;
              ht_unsupportedReasons := ["Exact venue collateral, free collateral, margin ratio, and requirement fields remain external-only."];
              ht_methodology := "portfolio_current_plus_risk_current";
              ht_notes := ["Internal health posture is derived from persisted portfolio and risk read models.";
                "Collateral-like posture maps to internal liquidity reserve rather than exact venue collateral accounting.";
                "This view is suitable for operator comparison and audit, but it is not a canonical venue-native margin engine."];
              ht_provenance := MkProvenance cl_derived "portfolio_current_plus_risk_current"
                ["Internal health posture is derived from internal runtime projections rather than external venue truth."] |})
  end.

Definition buildInternalDerivativeSnapshot (input : SnapshotInput) : exn InternalSnapshot :=
  let account := buildAccountState (si_venue input) in
  orderState ← buildOrderState (si_orders input);
  positionState ← buildPositionState (si_orders input) (si_fills input);
  healthState ← buildHealthState (tv_venueId (si_venue input)) (si_portfolioSummary input) (si_riskSummary input)
                  positionState.2 orderState.2;
  Ret {|
    is_venueId := tv_venueId (si_venue input); is_venueName := tv_venueName (si_venue input);
    is_sourceComponent := si_sourceComponent input; is_sourceRunId := si_sourceRunId input;
    is_sourceReference := si_sourceReference input; is_capturedAt := si_capturedAt input;
    is_accountCoverage := account.1; is_positionCoverage := positionState.1; is_healthCoverage := healthState.1;
    is_orderCoverage := orderState.1; is_accountState := account.2; is_positionState := Some positionState.2;
    is_healthState := Some healthState.2; is_orderState := Some orderState.2;
    is_metadata :=
      [("sourceCounts", JObj [("totalOrders", JInt (Z.of_nat (length (si_orders input)))); ("totalFills", JInt (Z.of_nat (length (si_fills input))));
                              ("openOrders", JInt (ot_openOrderCount orderState.2)); ("openPositions", JInt (pt_openPositionCount positionState.2))]);
       ("healthInputs", JObj [("portfolioSummaryAvailable", JBool (present (si_portfolioSummary input)));
                              ("riskSummaryAvailable", JBool (present (si_riskSummary input)))])] |}.
End State.

(** ** Nothing is lost between fills and positions *)

Section Positions.
Context `{DL : DecimalLib} `{LW : !DecimalLaws} `{DS : !DecimalSign}.

(** The sign of a scaled amount. *)
Lemma scaled_positive `{SL : !DecimalSignLaws} k d x : 0 <= k -> scaled k d x -> x <> 0 -> d_isPositive d = (0 <? x).
Proof.
  intros Hk Hd Hx. rewrite (d_isPositive_val _ _ Hd) by (unfold Qeq; cbn; lia).
  apply eq_true_iff_eq. rewrite Qltb_spec, Z.ltb_lt. unfold Qlt. cbn. lia.
Qed.

Lemma scaled_eq k a b x y : 0 <= k -> scaled k a x -> scaled k b y -> d_eq a b = (x =? y).
Proof.
  intros Hk Ha Hb. rewrite (d_eq_fin _ _ _ _ Ha Hb). apply eq_true_iff_eq. rewrite Qeq_bool_iff, Z.eqb_eq. unfold Qeq. cbn.
  split; intros H; [|by rewrite H]. apply Z.mul_cancel_r in H; [done|]. lia.
Qed.

(** The average entry price after a fill: a fill that adds to the position
    weighs in, one that reduces it keeps the price, one that closes it clears
    the price and one that flips it starts from its own price. *)
Lemma average_after_fill `{SL : !DecimalSignLaws} net signed n s average price : scaled 8 net n -> scaled 8 signed s -> s <> 0 ->
  Z.abs (n + s) < 10 ^ 20 ->
  (next_position net average signed price).2 =
  if (n =? 0) || Bool.eqb (0 <? n) (0 <? s) then
    Some (d_div (d_plus (d_times (or_else average (dec_of_Z 0)) (d_abs net)) (d_times price (d_abs signed)))
                (d_plus (d_abs net) (d_abs signed)))
  else if n + s =? 0 then None
  else if Z.abs s <? Z.abs n then average else Some price.
Proof.
  intros Sn Ss Hs Hb. assert (Hsum : scaled 8 (d_plus net signed) (n + s)) by (apply scaled_plus; auto; lia).
  pose proof (scaled_zero 8) as S0. unfold next_position.
  rewrite (scaled_eq 8 net _ n 0), (scaled_eq 8 (d_plus net signed) _ (n + s) 0), (scaled_positive 8 signed s) by (done || lia).
  rewrite (scaled_lt 8 (d_abs signed) (d_abs net) (Z.abs s) (Z.abs n)) by (lia || by apply scaled_abs).
  destruct (n =? 0) eqn:En.
  - cbn [orb]. destruct (n + s =? 0) eqn:E; [lia|done].
  - rewrite (scaled_positive 8 net n) by (done || lia). cbn [orb]. destruct (Bool.eqb _ _) eqn:Eb.
    + apply eqb_prop in Eb. destruct (n + s =? 0) eqn:E; [|done]. destruct (0 <? n) eqn:?, (0 <? s) eqn:?; lia.
    + destruct (n + s =? 0) eqn:E; [|by destruct (Z.abs s <? Z.abs n)]. destruct (Z.abs s <? Z.abs n) eqn:?; [lia|done].
Qed.

Context (zs : FillRecord -> Z).

(** The fills of the ledger, their sizes in units of [10^-8]. *)
Definition fill_read (f : FillRecord) : Prop := amount 8 (fr_size f) (zs f) /\ 0 <= zs f /\ exists p, dec_of_string (fr_price f) = Ret p.
Definition bought (f : FillRecord) : Z := match fr_side f with buy => zs f | sell => 0 end.
Definition sold (f : FillRecord) : Z := match fr_side f with buy => 0 | sell => zs f end.
Definition total_of (g : FillRecord -> Z) (l : list FillRecord) : Z := zsum (map g l).

Lemma total_snoc g l f : total_of g (l ++ [f]) = total_of g l + g f.
Proof. unfold total_of. rewrite map_app, zsum_app. cbn. lia. Qed.

(** The accumulator of a group holds the totals of its fills. *)
Definition holds (l : list FillRecord) (a : PositionAccumulator) : Prop :=
  scaled 8 (pa_executedBuyQuantity a) (total_of bought l) /\ scaled 8 (pa_executedSellQuantity a) (total_of sold l)
  /\ scaled 8 (pa_netQuantity a) (total_of bought l - total_of sold l) /\ pa_fillCount a = Z.of_nat (length l).

Lemma new_holds asset t : holds [] (new_accumulator asset t).
Proof. split_and!; try apply scaled_zero; done. Qed.

Lemma next_net net average signed price : (next_position net average signed price).1 = d_plus net signed.
Proof. unfold next_position. by repeat case_match. Qed.

Lemma totals_bound l : Forall fill_read l -> 0 <= total_of bought l /\ 0 <= total_of sold l /\ total_of bought l + total_of sold l = total_of zs l.
Proof.
  induction 1 as [|f l (_ & Hz & _) _ IH]; [done|]. unfold total_of in *. cbn [map]. rewrite !zsum_cons.
  unfold bought at 1 3, sold at 1 3. destruct (fr_side f); lia.
Qed.

(** Applying a fill adds it to the totals. *)
Lemma apply_fill_holds l a f : holds l a -> Forall fill_read (l ++ [f]) -> total_of zs (l ++ [f]) < 10 ^ 20 ->
  exists a', applyFillToAccumulator a f = Ret a' /\ holds (l ++ [f]) a'.
Proof.
  intros (Hb & Hs & Hn & Hc) Hf Hlt. pose proof (totals_bound _ Hf) as (B1 & B2 & B3).
  apply List.Forall_app in Hf as [Hl Hf]. apply Forall_cons_1 in Hf as [((d & Ed & Sd) & Hz & p & Ep) _].
  pose proof (totals_bound _ Hl) as (C1 & C2 & C3). rewrite !total_snoc in *.
  unfold applyFillToAccumulator, signedQuantity. exn_step Ed. exn_step Ep. exn_step Ed.
  pose proof (next_net (pa_netQuantity a) (pa_averageEntryPrice a)
    (match fr_side f with buy => d | sell => d_neg d end) p) as En.
  rewrite (exn_bind_step (Ret _) _ _ eq_refl). cbv beta.
  destruct (next_position _ _ _ _) as [net average]. cbn in En. subst net. eexists. split; [done|].
  unfold holds. rewrite !total_snoc, length_app. cbn [pa_executedBuyQuantity pa_executedSellQuantity pa_netQuantity pa_fillCount length].
  pose proof (scaled_neg 8 _ _ Sd) as Nd.
  assert (Ef : match fr_side f with buy => bought f = zs f /\ sold f = 0 | sell => bought f = 0 /\ sold f = zs f end).
  { unfold bought, sold. by destruct (fr_side f). }
  destruct (fr_side f); destruct Ef as [-> ->]; rewrite ?Z.add_0_r, ?Z.sub_0_r in *; split_and!; try done; try lia.
  - apply scaled_plus; auto; lia.
  - replace (_ - _) with (total_of bought l - total_of sold l + zs f) by lia. apply scaled_plus; auto; lia.
  - apply scaled_plus; auto; lia.
  - replace (_ - _) with (total_of bought l - total_of sold l + - zs f) by lia. apply scaled_plus; auto; lia.
Qed.

Lemma holds_same l a a' : pa_executedBuyQuantity a' = pa_executedBuyQuantity a -> pa_executedSellQuantity a' = pa_executedSellQuantity a ->
  pa_netQuantity a' = pa_netQuantity a -> pa_fillCount a' = pa_fillCount a -> holds l a -> holds l a'.
Proof. unfold holds. by intros -> -> -> ->. Qed.

Lemma total_perm g l l' : l ≡ₚ l' -> total_of g l = total_of g l'.
Proof. unfold total_of. induction 1; cbn [map]; rewrite ?zsum_cons; lia. Qed.

Lemma holds_perm l l' a : l ≡ₚ l' -> holds l a -> holds l' a.
Proof. intros P. unfold holds. by rewrite (total_perm bought _ _ P), (total_perm sold _ _ P), (Permutation_length P). Qed.

(** The fills of a group. *)
Definition key_of (orders : list OrderRow) (f : FillRecord) : string := fill_key f (jm_get (fr_clientOrderId f) (ordersByClientId orders)).
Definition of_key (orders : list OrderRow) (k : string) (l : list FillRecord) : list FillRecord :=
  List.filter (fun f => bool_decide (key_of orders f = k)) l.

Lemma of_key_snoc orders k l f : of_key orders k (l ++ [f]) = of_key orders k l ++ (if bool_decide (key_of orders f = k) then [f] else []).
Proof. unfold of_key. by rewrite List.filter_app. Qed.

Lemma of_key_read orders k l : Forall fill_read l -> Forall fill_read (of_key orders k l) /\ total_of zs (of_key orders k l) <= total_of zs l.
Proof.
  induction 1 as [|f l Hf Hl [IH1 IH2]]; [done|]. unfold of_key, total_of in *. cbn [List.filter map].
  destruct (bool_decide _); cbn [map]; rewrite ?zsum_cons; (split; [auto|]); destruct Hf as (_ & Hz & _); lia.
Qed.

Lemma of_key_perm orders k l l' : l ≡ₚ l' -> of_key orders k l ≡ₚ of_key orders k l'.
Proof. unfold of_key. by intros ->. Qed.

(** The groups after the fills [l]: one for each key, which holds its fills. *)
Definition groups_hold (orders : list OrderRow) (l : list FillRecord) (G : list (string * PositionAccumulator)) : Prop :=
  NoDup (jm_keys G) /\ (forall k, k ∈ jm_keys G <-> k ∈ map (key_of orders) l)
  /\ forall k a, jm_get k G = Some a -> holds (of_key orders k l) a.

Lemma group_fill_holds orders l G f : groups_hold orders l G -> Forall fill_read (l ++ [f]) -> total_of zs (l ++ [f]) < 10 ^ 20 ->
  exists G', group_fill (ordersByClientId orders) G f = Ret G' /\ groups_hold orders (l ++ [f]) G'.
Proof.
  intros (Hnd & Hk & Hh) Hf Hlt. unfold group_fill. set (order := jm_get _ _). set (key := fill_key f order).
  assert (Ek : key_of orders f = key) by done.
  set (a0 := or_else (jm_get key G) (new_accumulator (fr_asset f) (fill_market_type order))).
  assert (H0 : holds (of_key orders key l) (note_fill a0 f (fill_identity f order))).
  { apply (holds_same _ a0); [done..|]. unfold a0. destruct (jm_get key G) as [a|] eqn:E; [by apply Hh|].
    replace (of_key orders key l) with (@nil FillRecord); [apply new_holds|]. destruct (of_key orders key l) as [|g r] eqn:El; [done|].
    assert (Hg : In g (of_key orders key l)) by (rewrite El; by left). apply filter_In in Hg as [Hg Eg%bool_decide_eq_true].
    assert (Hin : key ∈ jm_keys G) by (apply Hk; rewrite <- Eg; by apply list_elem_of_fmap_2, list_elem_of_In).
    apply jm_get_keys in Hin as [? ?]. congruence. }
  pose proof (of_key_read orders key _ Hf) as [Hr Hle]. rewrite of_key_snoc, bool_decide_eq_true_2 in Hr, Hle by done.
  destruct (apply_fill_holds _ _ f H0 Hr) as (a' & Ea & Ha'); [lia|]. exn_step Ea. eexists. split; [done|]. split_and!.
  - by apply jm_set_NoDup.
  - intros k. rewrite jm_keys_set, Hk, map_app, elem_of_app. cbn [map]. rewrite list_elem_of_singleton, Ek. tauto.
  - intros k a. rewrite jm_get_set, of_key_snoc, Ek. case_decide as E; intros Ga.
    + injection Ga as <-. subst k. by rewrite bool_decide_eq_true_2.
    + rewrite bool_decide_eq_false_2 by congruence. rewrite app_nil_r. by apply Hh.
Qed.

Lemma group_fills_hold orders r : forall l G, groups_hold orders l G -> Forall fill_read (l ++ r) -> total_of zs (l ++ r) < 10 ^ 20 ->
  exists G', group_fills (ordersByClientId orders) G r = Ret G' /\ groups_hold orders (l ++ r) G'.
Proof.
  induction r as [|f r IH]; intros l G HG Hf Hlt; cbn [group_fills]; [rewrite app_nil_r; eauto|].
  replace (l ++ f :: r) with ((l ++ [f]) ++ r) in * by by rewrite <- app_assoc.
  assert (Hle : total_of zs (l ++ [f]) <= total_of zs ((l ++ [f]) ++ r)).
  { unfold total_of. rewrite (map_app _ (l ++ [f])), zsum_app. apply List.Forall_app in Hf as [_ Hr]. 
    enough (0 <= zsum (map zs r)) by lia. apply zsum_nonneg, Forall_map. eapply Forall_impl; [exact Hr|]. by intros g (_ & Hz & _). }
  destruct (group_fill_holds orders l G f HG) as (G1 & E1 & H1); [by apply List.Forall_app in Hf as [? _]|lia|].
  exn_step E1. by apply IH.
Qed.

(** ** The reconstruction *)

Context `{CO : Collation}.

(** The net size of a group of fills. *)
Definition net_of_key (orders : list OrderRow) (fills : list FillRecord) (k : string) : Z :=
  total_of bought (of_key orders k fills) - total_of sold (of_key orders k fills).

(** C23. The reconstruction loses no fill and invents none.  Let the sizes of the
    fills be amounts in units of [10^-8] whose total stays below the precision,
    and their prices parse: the reconstruction succeeds, there is exactly one
    group per key of a fill, each group holds the bought, sold and net quantity
    and the number of its fills, and the positions are those of the groups that
    are not flat. *)
Theorem positions_rebuild_fills (orders : list OrderRow) (fills : list FillRecord) :
  Forall fill_read fills -> total_of zs fills < 10 ^ 20 ->
  exists cov st G, buildPositionState orders fills = Ret (cov, st)
    /\ NoDup (jm_keys G) /\ (forall k, k ∈ jm_keys G <-> exists f, f ∈ fills /\ key_of orders f = k)
    /\ (forall k a, (k, a) ∈ G -> holds (of_key orders k fills) a)
    /\ pt_positions st ≡ₚ map position_entry (List.filter (fun e => negb (net_of_key orders fills e.1 =? 0)) G).
Proof.
  intros Hf Hlt. assert (P : chronological fills ≡ₚ fills) by apply js_sort_perm.
  destruct (group_fills_hold orders (chronological fills) [] []) as (G & EG & Hnd & Hk & Hh).
  - split_and!; [constructor|done|done].
  - cbn. by rewrite P.
  - cbn [app]. by rewrite (total_perm zs _ _ P).
  - cbn [app] in *. assert (HG : forall k a, (k, a) ∈ G -> holds (of_key orders k fills) a).
    { intros k a Hin. eapply holds_perm; [by apply of_key_perm, P|]. apply Hh. by apply jm_In_get. }
    unfold buildPositionState. exn_step EG. do 2 eexists. exists G. split; [done|]. split_and!; [done| |done|].
    + intros k. rewrite Hk, list_elem_of_fmap. setoid_rewrite P. split; intros (f & H1 & H2); exists f; by split.
    + cbn [pt_positions]. rewrite js_sort_perm. unfold open_groups. erewrite filter_ext_in; [done|]. cbv beta. intros [k a] Hin%list_elem_of_In. f_equal. destruct (HG _ _ Hin) as (_ & _ & Hn & _).
      by apply (scaled_eq 8 _ _ _ 0); [|exact Hn|apply scaled_zero].
Qed.
End Positions.

(** ** Samples *)

Section Samples.
#[local] Existing Instances exact_decimal exact_decimal_laws.
#[local] Instance ascii_collation : Collation := { locale_lt := fun a b => match String.compare a b with Lt => true | _ => false end }.

Definition sample_order (id : string) : OrderRow := {|
  ow_clientOrderId := id; ow_venueOrderId := None; ow_asset := "BTC"; ow_side := "buy"; ow_status := "filled"; ow_requestedSize := "1";
  ow_filledSize := "1"; ow_requestedPrice := None; ow_reduceOnly := false; ow_executionMode := "live"; ow_marketIdentity := None;
  ow_metadata := [("instrumentType", JStr "perpetual")]; ow_submittedAt := None; ow_completedAt := None; ow_updatedAt := "" |}.
Definition sample_identity : CanonicalMarketIdentity := createCanonicalMarketIdentity {|
  ii_venueId := Some "drift"; ii_asset := Some "BTC"; ii_marketType := JStr "perp"; ii_marketIndex := JUndefined; ii_marketKey := None;
  ii_marketSymbol := Some "BTC-PERP"; ii_marketName := None; ii_aliases := None; ii_provenance := Some venue_native;
  ii_capturedAtStage := execution_result; ii_source := "venue"; ii_notes := None |}.
Definition sample_fill (id : string) (side : OrderSide) (sz price : string) (t : Z) (identity : option CanonicalMarketIdentity) : FillRecord :=
  MkFillRecord id "BTC" side sz price t identity.
Definition sample_units (f : FillRecord) : Z := or_else (units_in 8 (fr_size f)) 0.
Definition sample_orders : list OrderRow := [sample_order "a"; sample_order "b"].
Definition sample_fills : list FillRecord :=
  [sample_fill "b" sell "0.5" "110" 2 None; sample_fill "a" buy "1.5" "100" 1 None].

Lemma positions_rebuild_fills_witness :
  exists cov st G, buildPositionState sample_orders sample_fills = Ret (cov, st)
    /\ NoDup (jm_keys G) /\ (forall k, k ∈ jm_keys G <-> exists f, f ∈ sample_fills /\ key_of sample_orders f = k)
    /\ (forall k a, (k, a) ∈ G -> holds sample_units (of_key sample_orders k sample_fills) a)
    /\ pt_positions st ≡ₚ map position_entry (List.filter (fun e => negb (net_of_key sample_units sample_orders sample_fills e.1 =? 0)) G).
Proof.
  apply (positions_rebuild_fills (DL := exact_decimal)); [|vm_compute; reflexivity].
  repeat constructor; cbn [fr_size fr_price]; try (by apply units_in_parses; vm_compute); try (vm_compute; discriminate);
    eexists; vm_compute; reflexivity.
Defined.

(** A position of which only one side carries a venue identity is not netted:
    it is reported as a long and a short position, and both have the same key. *)
Example identity_splits_position :
  match buildPositionState sample_orders
          [sample_fill "a" buy "1" "100" 1 (Some sample_identity); sample_fill "b" sell "1" "110" 2 None] with
  | Ret (_, st) => map (fun p => (pe_positionKey p, pe_netQuantity p)) (pt_positions st) = [("perp:BTC-PERP", "1"); ("perp:BTC-PERP", "-1")]
  | Throw _ => False
  end.
Proof. vm_compute. reflexivity. Qed.
End Samples.
