(* ===== verification/DerivativeCompare.v ===== *)
(** * The derivative comparison (packages/runtime: internal-derivative-state.ts)

    How the internal derivative state of a venue is set against the venue's own
    snapshot: market identities by their best shared key, the account, the
    positions (each internal one with the unique free external one that shares
    a key), the open orders by venue order id and the health band; and the
    summary of what could be compared.  The file shows that no position is lost
    or counted twice, what the order comparison reports, that paired positions
    agree on their market, and that the health section is never fully
    available. *)
From S2P Require Import Prelude JsNumber JsValue JsText DecimalLib DecimalExact Money Domain MarketIdentity CircuitBreakers RiskEngine MismatchStore ReconcileStore ReconcileFindings ReconcileVenues DerivativeState.
Open Scope Z_scope.

(** [a < b] by code units, the order of [Array.prototype.sort] without comparator. *)
Definition code_lt (a b : string) : bool := match String.compare a b with Lt => true | _ => false end.

(** ** External truth *)

(** The fields of the venue snapshots that the comparison reads. *)
Record ExternalPosition := MkExternalPosition {
  xp_marketIndex : option num;
  xp_marketKey : option string;
  xp_marketSymbol : option string;
  xp_positionType : CanonicalMarketType;
  xp_side : string;
  xp_baseAssetAmount : option string;
  xp_provenance : option record_;
}.
Record ExternalOrder := MkExternalOrder {
  xo_marketIndex : option num;
  xo_venueOrderId : option string;
  xo_marketKey : option string;
  xo_marketSymbol : option string;
  xo_marketType : option CanonicalMarketType;
  xo_side : string;
  xo_quantity : option string;
  xo_reduceOnly : option bool;
  xo_provenance : option record_;
}.
Record ExternalAccount := MkExternalAccount {
  xa_accountAddress : option string;
  xa_authorityAddress : option string;
  xa_subaccountId : option Z;
}.
Record ExternalHealth := MkExternalHealth {
  xh_healthStatus : HealthStatus;
  xh_collateralUsd : option string;
  xh_marginRatio : option string;
  xh_leverage : option string;
  xh_maintenanceMarginRequirementUsd : option string;
  xh_initialMarginRequirementUsd : option string;
  xh_freeCollateralUsd : option string;
}.
Record ExternalSnapshot := MkExternalSnapshot {
  xs_capturedAt : Z;
  xs_truthCoverage : VenueTruthCoverage;
  xs_accountState : option ExternalAccount;
  xs_positions : option (list ExternalPosition);
  xs_healthState : option ExternalHealth;
  xs_openOrders : option (list ExternalOrder);
}.

(** ** Market identities *)

Record ExternalIdentity := MkExternalIdentity {
  ei_asset : option string;
  ei_marketType : CanonicalMarketType;
  ei_marketIndex : option num;
  ei_marketKey : option string;
  ei_marketSymbol : option string;
  ei_normalizedKey : option string;
  ei_normalizedKeyType : CanonicalMarketIdentityKeyType;
  ei_confidence : CanonicalMarketIdentityConfidence;
  ei_notes : list string;
  ei_provenance : option record_;
}.

Definition external_identity (t : CanonicalMarketType) (marketIndex : option num) (marketKey marketSymbol : option string)
    (provenance : option record_) (missing : string) : ExternalIdentity :=
  let asset := assetFromMarketSymbol marketSymbol t in
  match marketIndex, marketKey, marketSymbol with
  | Some i, _, _ => MkExternalIdentity asset t (Some i) marketKey marketSymbol (marketIndexKey t (Some i)) market_index exact [] provenance
  | None, Some k, _ =>
      MkExternalIdentity asset t (parseMarketIndexFromKey (Some k)) (Some k) marketSymbol (Some k) market_key exact [] provenance
  | None, None, Some s =>
      MkExternalIdentity asset t None None (Some s) (marketSymbolKey t (Some s)) market_symbol exact [] provenance
  | None, None, None => MkExternalIdentity None t None None None None key_unsupported conf_unsupported [missing] provenance
  end.
Definition buildExternalPositionMarketIdentity (p : ExternalPosition) : ExternalIdentity :=
  external_identity (xp_positionType p) (xp_marketIndex p) (xp_marketKey p) (xp_marketSymbol p) (xp_provenance p)
    "External position did not expose a normalized market identity.".
Definition buildExternalOrderMarketIdentity (o : ExternalOrder) : ExternalIdentity :=
  external_identity (or_else (xo_marketType o) mt_unknown) (xo_marketIndex o) (xo_marketKey o) (xo_marketSymbol o) (xo_provenance o)
    "External open order did not expose a normalized market identity.".

Definition MARKET_IDENTITY_KEY_PRIORITY : list CanonicalMarketIdentityKeyType := [market_index; market_key; market_symbol; asset_market_type].

Record IdentityCandidate := MkCandidate {
  id_kind : CanonicalMarketIdentityKeyType;
  id_key : string;
  id_exact : bool;
}.
Definition candidate_tag (kind : CanonicalMarketIdentityKeyType) (key : string) : string := key_type_str kind +:+ ":" +:+ key.
(** [push] of the candidate builders: the tags seen are those of the candidates. *)
Definition push_candidate (kind : CanonicalMarketIdentityKeyType) (key : option string) (exact_ : bool) (candidates : list IdentityCandidate)
    : list IdentityCandidate :=
  match key with
  | None => candidates
  | Some k => if js_has (candidate_tag kind k) (map (fun c => candidate_tag (id_kind c) (id_key c)) candidates) then candidates
              else candidates ++ [MkCandidate kind k exact_]
  end.

Definition internalIdentityCandidates (identity : option InternalMarketIdentity) : list IdentityCandidate :=
  match identity with
  | None => []
  | Some i =>
      let c1 := push_candidate market_index (marketIndexKey (ni_marketType i) (ni_marketIndex i)) true [] in
      let c2 := push_candidate market_key (ni_marketKey i) true c1 in
      let c3 := push_candidate market_symbol (marketSymbolKey (ni_marketType i) (ni_marketSymbol i))
                  (bool_decide (ni_confidence i = exact)) c2 in
      push_candidate asset_market_type (assetTypeKey (ni_marketType i) (ni_asset i)) false c3
  end.
Definition externalIdentityCandidates (identity : option ExternalIdentity) : list IdentityCandidate :=
  match identity with
  | None => []
  | Some e =>
      let c1 := push_candidate market_index (marketIndexKey (ei_marketType e) (ei_marketIndex e)) true [] in
      let c2 := push_candidate market_key (ei_marketKey e) true c1 in
      let c3 := push_candidate market_symbol (marketSymbolKey (ei_marketType e) (ei_marketSymbol e)) true c2 in
      push_candidate asset_market_type (assetTypeKey (ei_marketType e) (ei_asset e)) true c3
  end.

Inductive ComparisonMode := cm_exact | cm_partial | cm_unsupported.
#[export] Instance ComparisonMode_eq_dec : EqDecision ComparisonMode.
Proof. solve_decision. Defined.
#[export] Instance KeyType_eq_dec : EqDecision CanonicalMarketIdentityKeyType.
Proof. solve_decision. Defined.
Record NormalizedIdentity := MkNormalizedIdentity {
  nz_key : option string;
  nz_keyType : CanonicalMarketIdentityKeyType;
  nz_comparisonMode : ComparisonMode;
  nz_notes : list string;
}.
Record MarketIdentityComparison := MkMarketIdentityComparison {
  mc_comparable : bool;
  mc_status : InternalDerivativeComparisonStatus;
  mc_comparisonMode : ComparisonMode;
  mc_internalIdentity : option InternalMarketIdentity;
  mc_externalIdentity : option ExternalIdentity;
  mc_normalizedIdentity : option NormalizedIdentity;
  mc_notes : list string;
}.

(** What no comparison could be made of. *)
Definition not_compared (i : option InternalMarketIdentity) (e : option ExternalIdentity) (notes : list string) : MarketIdentityComparison :=
  MkMarketIdentityComparison false dc_not_comparable cm_unsupported i e None notes.

Definition mismatchIdentityComparison (mode : ComparisonMode) (notes : list string) (i : option InternalMarketIdentity)
    (e : option ExternalIdentity) (normalized : option NormalizedIdentity) : MarketIdentityComparison :=
  MkMarketIdentityComparison (negb (bool_decide (mode = cm_unsupported)))
    (if bool_decide (mode = cm_unsupported) then dc_not_comparable else dc_mismatched) mode i e normalized notes.

Definition of_kind (kind : CanonicalMarketIdentityKeyType) (candidates : list IdentityCandidate) : list IdentityCandidate :=
  List.filter (fun c => bool_decide (id_kind c = kind)) candidates.
Definition same_candidate (kind : CanonicalMarketIdentityKeyType) (key : string) (c : IdentityCandidate) : bool :=
  bool_decide (id_kind c = kind) && bool_decide (id_key c = key).

(** The loop over the kinds and the candidates of each: the first one shared. *)
Fixpoint shared_candidate (kinds : list CanonicalMarketIdentityKeyType) (internal external : list IdentityCandidate)
    : option (CanonicalMarketIdentityKeyType * IdentityCandidate) :=
  match kinds with
  | [] => None
  | kind :: kinds' =>
      match List.find (fun c => existsb (same_candidate kind (id_key c)) external) (of_kind kind internal) with
      | Some c => Some (kind, c)
      | None => shared_candidate kinds' internal external
      end
  end.

Definition shared_mode (kind : CanonicalMarketIdentityKeyType) (c : IdentityCandidate) : ComparisonMode :=
  if bool_decide (kind = market_index) || bool_decide (kind = market_key) || bool_decide (kind = market_symbol) && id_exact c
  then cm_exact else cm_partial.
Definition matched_identity (i : InternalMarketIdentity) (e : ExternalIdentity) (kind : CanonicalMarketIdentityKeyType) (c : IdentityCandidate)
    : MarketIdentityComparison :=
  let mode := shared_mode kind c in
  let partial_ := bool_decide (mode = cm_partial) in
  MkMarketIdentityComparison true dc_matched mode (Some i) (Some e)
    (Some (MkNormalizedIdentity (Some (id_key c)) kind mode
      (if partial_ then ["Market identity aligned through a derived internal key rather than a venue-native exact key."] else [])))
    (if partial_ then ["Internal market identity aligned to external venue truth through a partial or derived key."] else []).

Definition compareMarketIdentity (internalIdentity : option InternalMarketIdentity) (externalIdentity : option ExternalIdentity)
    : MarketIdentityComparison :=
  match internalIdentity, externalIdentity with
  | Some i, Some e =>
      match shared_candidate MARKET_IDENTITY_KEY_PRIORITY (internalIdentityCandidates (Some i)) (externalIdentityCandidates (Some e)) with
      | Some (kind, c) => matched_identity i e kind c
      | None =>
          let same_type := bool_decide (ni_marketType i = ei_marketType e) in
          if same_type && present (ni_marketIndex i) && present (ei_marketIndex e) then
            mismatchIdentityComparison cm_exact ["Internal and external market indexes disagree for the same market type."] (Some i) (Some e)
              (Some (MkNormalizedIdentity (marketIndexKey (ni_marketType i) (ni_marketIndex i)) market_index cm_exact
                 ["Exact market-index comparison detected a mismatch."]))
          else if same_type && present (ni_marketKey i) && present (ei_marketKey e) then
            mismatchIdentityComparison cm_exact ["Internal and external market keys disagree for the same market type."] (Some i) (Some e)
              (Some (MkNormalizedIdentity (ni_marketKey i) market_key cm_exact ["Exact market-key comparison detected a mismatch."]))
          else
            not_compared (Some i) (Some e)
              ["The runtime could not find a truthful normalized market identity shared by the internal and external rows."]
      end
  | _, _ => not_compared internalIdentity externalIdentity
              ["Both internal and external market identity are required for direct market comparison."]
  end.

(** ** Account *)

Record DerivativeAccountComparison := MkDerivativeAccount {
  da_comparable : bool;
  da_status : InternalDerivativeComparisonStatus;
  da_internalState : option AccountState;
  da_externalState : option ExternalAccount;
  da_notes : list string;
}.

(** Two values that are present and different. *)
Definition both_differ {A} `{EqDecision A} (a b : option A) : bool :=
  match a, b with Some x, Some y => negb (bool_decide (x = y)) | _, _ => false end.

Definition compareAccountState (internalState : option InternalSnapshot) (externalSnapshot : option ExternalSnapshot)
    : DerivativeAccountComparison :=
  let internalAccount := internalState ≫= is_accountState in
  let externalAccount := externalSnapshot ≫= xs_accountState in
  match internalAccount, externalAccount with
  | Some i, Some e =>
      let mismatched := both_differ (as_accountAddress i) (xa_accountAddress e)
        || both_differ (as_authorityAddress i) (xa_authorityAddress e) || both_differ (as_subaccountId i) (xa_subaccountId e) in
      MkDerivativeAccount true (if mismatched then dc_mismatched else dc_matched) (Some i) (Some e)
        (if bool_decide (as_accountAddress i = None) && bool_decide (as_accountLocatorMode i = authority_subaccount)
         then ["Internal account identity is compared through configured authority and subaccount rather than a derived user account address."]
         else [])
  | _, _ => MkDerivativeAccount false dc_not_comparable internalAccount externalAccount
              ["Both internal and external account identity must be present for direct subaccount comparison."]
  end.

(** ** Comparisons *)

Record PositionComparison := MkPositionComparison {
  pc_comparisonKey : string;
  pc_asset : string;
  pc_marketType : CanonicalMarketType;
  pc_comparable : bool;
  pc_status : InternalDerivativeComparisonStatus;
  pc_quantityDelta : option string;
  pc_internalPosition : option PositionEntry;
  pc_externalPosition : option ExternalPosition;
  pc_marketIdentityComparison : MarketIdentityComparison;
  pc_notes : list string;
}.
Record ExternalComparable := MkExternalComparable {
  ec_entry : ExternalPosition;
  ec_identity : ExternalIdentity;
  ec_matched : bool;
}.
Record PositionsCompared := MkPositionsCompared {
  co_comparisons : list PositionComparison;
  co_externalEntries : list ExternalComparable;
  co_matchedCount : Z;
  co_mismatchedCount : Z;
  co_exactIdentityCount : Z;
  co_partialIdentityCount : Z;
  co_identityGapCount : Z;
}.

Definition push_comparison (c : PositionComparison) (s : PositionsCompared) : PositionsCompared :=
  MkPositionsCompared (co_comparisons s ++ [c]) (co_externalEntries s) (co_matchedCount s) (co_mismatchedCount s)
    (co_exactIdentityCount s) (co_partialIdentityCount s) (co_identityGapCount s).
Definition bump (matched mismatched exact_ partial_ gaps : Z) (s : PositionsCompared) : PositionsCompared :=
  MkPositionsCompared (co_comparisons s) (co_externalEntries s) (co_matchedCount s + matched) (co_mismatchedCount s + mismatched)
    (co_exactIdentityCount s + exact_) (co_partialIdentityCount s + partial_) (co_identityGapCount s + gaps).
Definition set_entries (entries : list ExternalComparable) (s : PositionsCompared) : PositionsCompared :=
  MkPositionsCompared (co_comparisons s) entries (co_matchedCount s) (co_mismatchedCount s) (co_exactIdentityCount s)
    (co_partialIdentityCount s) (co_identityGapCount s).
Definition flag (e : ExternalComparable) : ExternalComparable := MkExternalComparable (ec_entry e) (ec_identity e) true.

Inductive Pairing := Unpaired | Ambiguous | Paired (i : nat).

(** The indexes of the free external entries that share a candidate of a kind. *)
Definition matches_of (kind : CanonicalMarketIdentityKeyType) (candidates : list IdentityCandidate) (entries : list ExternalComparable)
    : list nat :=
  map fst (List.filter (fun ie => negb (ec_matched ie.2) &&
    existsb (fun c => existsb (same_candidate kind (id_key c)) (externalIdentityCandidates (Some (ec_identity ie.2)))) candidates)
    (imap pair entries)).

Fixpoint find_external (kinds : list CanonicalMarketIdentityKeyType) (candidates : list IdentityCandidate) (entries : list ExternalComparable)
    : Pairing :=
  match kinds with
  | [] => Unpaired
  | kind :: kinds' =>
      let sameKindCandidates := of_kind kind candidates in
      if is_empty sameKindCandidates then find_external kinds' candidates entries
      else match matches_of kind sameKindCandidates entries with
           | [i] => Paired i
           | [] => find_external kinds' candidates entries
           | _ => Ambiguous
           end
  end.
Definition pair_position (p : PositionEntry) (entries : list ExternalComparable) : Pairing :=
  match pe_marketIdentity p with
  | None => Unpaired
  | Some i => find_external MARKET_IDENTITY_KEY_PRIORITY (internalIdentityCandidates (Some i)) entries
  end.

Definition internal_key (p : PositionEntry) : string := or_else (pe_marketIdentity p ≫= ni_normalizedKey) (pe_positionKey p).

(** The comparison of an internal position without a pair. *)
Definition unpaired_comparison (p : PositionEntry) (status : InternalDerivativeComparisonStatus) (identityNotes notes : list string)
    : PositionComparison := {|
  pc_comparisonKey := internal_key p; pc_asset := pe_asset p; pc_marketType := pe_marketType p; pc_comparable := false;
  pc_status := status; pc_quantityDelta := None; pc_internalPosition := Some p; pc_externalPosition := None;
  pc_marketIdentityComparison := not_compared (pe_marketIdentity p) None identityNotes; pc_notes := notes |}.

Definition push_ambiguous (p : PositionEntry) (s : PositionsCompared) : PositionsCompared :=
  push_comparison
    (unpaired_comparison p dc_not_comparable
       ["Multiple external positions matched the same internal normalized identity, so exact pairing is intentionally withheld."]
       ["Internal position could not be paired to a unique external position row."])
    (bump 0 0 0 0 1 s).

Definition externalHasAssetTypeSibling (entries : list ExternalComparable) (asset : string) (t : CanonicalMarketType) : bool :=
  existsb (fun e => negb (ec_matched e) && bool_decide (ei_asset (ec_identity e) = Some asset)
                    && bool_decide (ei_marketType (ec_identity e) = t)) entries.

(** No pair: unless a comparison has the same position key already. *)
Definition compare_unpaired (p : PositionEntry) (s : PositionsCompared) : PositionsCompared :=
  if existsb (fun c => match pc_internalPosition c with
                       | Some q => bool_decide (pe_positionKey q = pe_positionKey p) | None => false end) (co_comparisons s) then s
  else
    let hasSibling := externalHasAssetTypeSibling (co_externalEntries s) (pe_asset p) (pe_marketType p) in
    let notes := if hasSibling
      then ["External inventory exists for the same asset and market type, but market identity could not be aligned truthfully."]
      else ["No external position row matched this internal position identity."] in
    push_comparison (unpaired_comparison p (if hasSibling then dc_not_comparable else dc_internal_only) notes notes)
      (if hasSibling then bump 0 0 0 0 1 s else bump 0 1 0 0 0 s).

Section Compare.
Context `{DL : DecimalLib} `{CO : Collation}.

Definition externalPositionQuantity (p : ExternalPosition) : exn (option dec) :=
  match xp_baseAssetAmount p with
  | None => Ret None
  | Some amount =>
      quantity ← dec_of_string amount;
      Ret (Some (if bool_decide (xp_side p = "short") then d_neg (d_abs quantity)
                 else if bool_decide (xp_side p = "long") then d_abs quantity else quantity))
  end.

(** [quantityDelta === null ? true : new Decimal(quantityDelta).abs().lte(POSITION_TOLERANCE)]. *)
Definition within_tolerance (delta : option string) : exn bool :=
  match delta with
  | None => Ret true
  | Some s => tolerance ← dec_of_string "0.000001"; d ← dec_of_string s; Ret (d_lte (d_abs d) tolerance)
  end.

Definition quantity_delta (netQuantity : string) (externalQuantity : option dec) : exn (option string) :=
  match externalQuantity with
  | None => Ret None
  | Some e => n ← dec_of_string netQuantity; Ret (Some (normaliseDecimal (d_minus n e)))
  end.

Definition compare_paired (p : PositionEntry) (i : nat) (e : ExternalComparable) (s : PositionsCompared) : exn PositionsCompared :=
  let comparison := compareMarketIdentity (pe_marketIdentity p) (Some (ec_identity e)) in
  externalQuantity ← externalPositionQuantity (ec_entry e);
  quantityDelta ← quantity_delta (pe_netQuantity p) externalQuantity;
  deltaWithinTolerance ← within_tolerance quantityDelta;
  let status := if bool_decide (mc_status comparison = dc_mismatched) then dc_mismatched
                else if deltaWithinTolerance : bool then dc_matched else dc_mismatched in
  let matched := bool_decide (status = dc_matched) in
  let mode := mc_comparisonMode comparison in
  Ret (push_comparison {|
      pc_comparisonKey := or_else (mc_normalizedIdentity comparison ≫= nz_key)
        (or_else (pe_marketIdentity p ≫= ni_normalizedKey) (or_else (ei_normalizedKey (ec_identity e)) (pe_positionKey p)));
      pc_asset := pe_asset p; pc_marketType := pe_marketType p; pc_comparable := true; pc_status := status;
      pc_quantityDelta := quantityDelta; pc_internalPosition := Some p; pc_externalPosition := Some (ec_entry e);
      pc_marketIdentityComparison := comparison;
      pc_notes := if bool_decide (mode = cm_partial)
        then ["Position inventory was aligned through partial market identity normalization."] else [] |}
    (bump (if matched then 1 else 0) (if matched then 0 else 1) (if bool_decide (mode = cm_exact) then 1 else 0)
       (if bool_decide (mode = cm_partial) then 1 else 0) 0
       (set_entries (alter flag i (co_externalEntries s)) s))).

Definition compare_position (p : PositionEntry) (s : PositionsCompared) : exn PositionsCompared :=
  match pair_position p (co_externalEntries s) with
  | Unpaired => Ret (compare_unpaired p s)
  | Ambiguous => Ret (compare_unpaired p (push_ambiguous p s))
  | Paired i =>
      match co_externalEntries s !! i with
      | None => Ret s
      | Some e => compare_paired p i e s
      end
  end.

Fixpoint compare_positions_from (ps : list PositionEntry) (s : PositionsCompared) : exn PositionsCompared :=
  match ps with
  | [] => Ret s
  | p :: ps' => s' ← compare_position p s; compare_positions_from ps' s'
  end.

Definition external_only_comparison (e : ExternalComparable) : PositionComparison := {|
  pc_comparisonKey := or_else (ei_normalizedKey (ec_identity e))
    (or_else (xp_marketKey (ec_entry e)) (or_else (xp_marketSymbol (ec_entry e)) "external-only"));
  pc_asset := or_else (ei_asset (ec_identity e)) "unknown"; pc_marketType := ei_marketType (ec_identity e); pc_comparable := false;
  pc_status := dc_external_only; pc_quantityDelta := None; pc_internalPosition := None; pc_externalPosition := Some (ec_entry e);
  pc_marketIdentityComparison := not_compared None (Some (ec_identity e)) ["No internal position row matched this external position identity."];
  pc_notes := [] |}.
Definition compare_external_only (s : PositionsCompared) : PositionsCompared :=
  fold_left (fun s e => push_comparison (external_only_comparison e) (bump 0 1 0 0 0 s))
    (List.filter (fun e => negb (ec_matched e)) (co_externalEntries s)) s.

Record PositionComparisons := MkPositionComparisons {
  ps_comparisons : list PositionComparison;
  ps_matchedCount : Z;
  ps_mismatchedCount : Z;
  ps_skippedInternalCount : Z;
  ps_skippedExternalCount : Z;
  ps_exactIdentityCount : Z;
  ps_partialIdentityCount : Z;
  ps_identityGapCount : Z;
}.

Definition internal_positions (internalState : option InternalSnapshot) : list PositionEntry :=
  or_else (pt_positions <$> (internalState ≫= is_positionState)) [].
Definition external_positions (externalSnapshot : option ExternalSnapshot) : list ExternalPosition :=
  or_else (externalSnapshot ≫= xs_positions) [].
Definition external_entries (positions : list ExternalPosition) : list ExternalComparable :=
  List.filter (fun e => negb (is_unknown (xp_positionType (ec_entry e))))
    (map (fun p => MkExternalComparable p (buildExternalPositionMarketIdentity p) false) positions).

Definition comparePositions (internalState : option InternalSnapshot) (externalSnapshot : option ExternalSnapshot) : exn PositionComparisons :=
  let internalPositions := internal_positions internalState in
  let externals := external_positions externalSnapshot in
  s ← compare_positions_from internalPositions (MkPositionsCompared [] (external_entries externals) 0 0 0 0 0);
  let s' := compare_external_only s in
  Ret {|
    ps_comparisons := js_sort (fun l r => locale_lt (pc_comparisonKey l) (pc_comparisonKey r)) (co_comparisons s');
    ps_matchedCount := co_matchedCount s'; ps_mismatchedCount := co_mismatchedCount s';
    ps_skippedInternalCount := Z.of_nat (length (List.filter (fun p => is_unknown (pe_marketType p)) internalPositions));
    ps_skippedExternalCount := Z.of_nat (length (List.filter (fun p => is_unknown (xp_positionType p)) externals));
    ps_exactIdentityCount := co_exactIdentityCount s'; ps_partialIdentityCount := co_partialIdentityCount s';
    ps_identityGapCount := co_identityGapCount s' |}.

(** ** Open orders *)

Record OrderComparison := MkOrderComparison {
  oc_comparisonKey : string;
  oc_comparable : bool;
  oc_status : InternalDerivativeComparisonStatus;
  oc_remainingSizeDelta : option string;
  oc_internalOrder : option OrderEntry;
  oc_externalOrder : option ExternalOrder;
  oc_marketIdentityComparison : MarketIdentityComparison;
  oc_notes : list string;
}.

Definition remaining_delta (remainingSize : string) (quantity : option string) : exn (option string) :=
  match quantity with
  | None => Ret None
  | Some q => r ← dec_of_string remainingSize; x ← dec_of_string q; Ret (Some (normaliseDecimal (d_minus r x)))
  end.

(** The status and the delta of an order present on both sides. *)
Definition compare_both (i : OrderEntry) (e : ExternalOrder) (comparison : MarketIdentityComparison)
    : exn (InternalDerivativeComparisonStatus * option string) :=
  remainingSizeDelta ← remaining_delta (oe_remainingSize i) (xo_quantity e);
  let sameSide := bool_decide (OrderSide_str (oe_side i) = xo_side e) in
  let sameReduceOnly := Bool.eqb (oe_reduceOnly i) (or_else (xo_reduceOnly e) false) in
  sameRemaining ← within_tolerance remainingSizeDelta;
  let sameIdentity := negb (bool_decide (mc_status comparison = dc_mismatched)) in
  Ret (if sameSide && sameReduceOnly && sameRemaining && sameIdentity then dc_matched else dc_mismatched, remainingSizeDelta).

Definition compare_order (internal : list (string * OrderEntry)) (external : list (string * ExternalOrder)) (key : string)
    : exn OrderComparison :=
  let internalOrder := jm_get key internal in
  let externalOrder := jm_get key external in
  let comparison := compareMarketIdentity (internalOrder ≫= oe_marketIdentity) (buildExternalOrderMarketIdentity <$> externalOrder) in
  outcome ← match internalOrder, externalOrder with
            | None, _ => Ret (dc_external_only, None)
            | Some _, None => Ret (dc_internal_only, None)
            | Some i, Some e => compare_both i e comparison
            end;
  Ret {| oc_comparisonKey := key; oc_comparable := true; oc_status := outcome.1; oc_remainingSizeDelta := outcome.2;
         oc_internalOrder := internalOrder; oc_externalOrder := externalOrder; oc_marketIdentityComparison := comparison;
         oc_notes := if bool_decide (mc_comparisonMode comparison = cm_partial)
           then ["Order market identity aligned through a partial normalized key."] else [] |}.

Record OrderComparisons := MkOrderComparisons {
  os_comparisons : list OrderComparison;
  os_matchedCount : Z;
  os_mismatchedCount : Z;
  os_skippedInternalCount : Z;
}.

Definition internal_orders (internalState : option InternalSnapshot) : list OrderEntry :=
  or_else (ot_openOrders <$> (internalState ≫= is_orderState)) [].
Definition external_orders (externalSnapshot : option ExternalSnapshot) : list ExternalOrder :=
  or_else (externalSnapshot ≫= xs_openOrders) [].
Definition hasVenueOrderId (o : OrderEntry) : bool := nonempty (oe_venueOrderId o).
Definition internal_comparable (orders : list OrderEntry) : list (string * OrderEntry) :=
  jm_of_list (map (fun o => (or_else (oe_venueOrderId o) "", o)) (List.filter hasVenueOrderId orders)).
Definition external_comparable (orders : list ExternalOrder) : list (string * ExternalOrder) :=
  jm_of_list (map (fun o => (or_else (xo_venueOrderId o) "", o)) (List.filter (fun o => present (xo_venueOrderId o)) orders)).
Definition order_keys (internal : list (string * OrderEntry)) (external : list (string * ExternalOrder)) : list string :=
  js_sort code_lt (js_unique (jm_keys internal ++ jm_keys external)).

(** The two counters of the loop: what is not matched is mismatched. *)
Definition count_status (matched : bool) (comparisons : list OrderComparison) : Z :=
  Z.of_nat (length (List.filter (fun c => Bool.eqb (bool_decide (oc_status c = dc_matched)) matched) comparisons)).

Definition compareOrders (internalState : option InternalSnapshot) (externalSnapshot : option ExternalSnapshot) : exn OrderComparisons :=
  let internalOpenOrders := internal_orders internalState in
  let internalComparable := internal_comparable internalOpenOrders in
  let externalComparable := external_comparable (external_orders externalSnapshot) in
  comparisons ← map_exn (compare_order internalComparable externalComparable) (order_keys internalComparable externalComparable);
  Ret {| os_comparisons := comparisons; os_matchedCount := count_status true comparisons; os_mismatchedCount := count_status false comparisons;
         os_skippedInternalCount := Z.of_nat (length (List.filter (fun o => negb (present (oe_venueOrderId o))) internalOpenOrders)) |}.

(** ** Health *)

Record DerivativeHealthComparison := MkDerivativeHealth {
  dh_comparable : bool;
  dh_status : InternalDerivativeComparisonStatus;
  dh_comparisonMode : HealthComparisonMode;
  dh_internalState : option HealthState;
  dh_externalState : option ExternalHealth;
  dh_fields : list HealthField;
  dh_notes : list string;
}.

Definition health_str (h : HealthStatus) : string :=
  match h with hs_healthy => "healthy" | hs_degraded => "degraded" | hs_liquidation_risk => "liquidation_risk" | hs_unknown => "unknown" end.
Definition unsupported_field (field : string) (internal external : option string) (reason : string) : HealthField :=
  MkHealthField field false dc_not_comparable (JStrNull internal) (JStrNull external) (Some reason).

Definition health_status_field (i : HealthState) (e : ExternalHealth) : HealthField :=
  let unknown := bool_decide (ht_healthStatus i = hs_unknown) || bool_decide (xh_healthStatus e = hs_unknown) in
  MkHealthField "healthStatus" (negb unknown)
    (if unknown then dc_not_comparable else if bool_decide (ht_healthStatus i = xh_healthStatus e) then dc_matched else dc_mismatched)
    (JStr (health_str (ht_healthStatus i))) (JStr (health_str (xh_healthStatus e)))
    (if unknown then Some "Health status band comparison requires both internal and external status values." else None).

Definition healthComparison (internalState : option InternalSnapshot) (externalSnapshot : option ExternalSnapshot)
    : DerivativeHealthComparison :=
  let internalHealth := internalState ≫= is_healthState in
  let externalHealth := externalSnapshot ≫= xs_healthState in
  match internalHealth, externalHealth with
  | Some i, Some e =>
      if bool_decide (ht_comparisonMode i = hm_unsupported) then
        MkDerivativeHealth false dc_not_comparable hm_unsupported (Some i) (Some e) []
          ["The runtime does not yet maintain a truthfully comparable internal health posture for this venue."]
      else
        let field := health_status_field i e in
        MkDerivativeHealth (hf_comparable field) (hf_status field) hm_status_band_only (Some i) (Some e)
          [field;
           unsupported_field "collateralLikeUsd" (ht_collateralLikeUsd i) (xh_collateralUsd e)
             "Internal collateral-like posture maps to liquidity reserve, not exact venue collateral.";
           unsupported_field "freeCollateralUsd" (ht_liquidityReserveUsd i) (xh_freeCollateralUsd e)
             "Internal liquidity reserve is not equivalent to venue free collateral.";
           unsupported_field "initialMarginRequirementUsd" None (xh_initialMarginRequirementUsd e)
             "The runtime does not yet maintain an internal initial-margin model.";
           unsupported_field "maintenanceMarginRequirementUsd" None (xh_maintenanceMarginRequirementUsd e)
             "The runtime does not yet maintain an internal maintenance-margin model.";
           unsupported_field "marginRatio" (ht_exposureToNavRatio i) (xh_marginRatio e)
             "Exposure-to-NAV ratio is not the same metric as venue margin ratio.";
           unsupported_field "leverage" (ht_leverage i) (xh_leverage e)
             "Internal leverage is portfolio-level and not directly equivalent to venue subaccount leverage."]
          ["Only band-level health-status comparison is currently truthful.";
           "Exact venue collateral and margin metrics remain external-only until the runtime owns an equivalent internal model."]
  | _, _ => MkDerivativeHealth false dc_not_comparable hm_unsupported internalHealth externalHealth []
              ["Both internal and external health sections must be present for comparison."]
  end.

(** ** The comparison of a venue *)

Record VenueComparison := MkVenueComparison {
  vd_venueId : string;
  vd_venueName : string;
  vd_internalState : option InternalSnapshot;
  vd_externalSnapshot : option ExternalSnapshot;
  vd_summary : ComparisonSummary;
  vd_accountComparison : DerivativeAccountComparison;
  vd_positionComparisons : list PositionComparison;
  vd_orderComparisons : list OrderComparison;
  vd_healthComparison : DerivativeHealthComparison;
  vd_activeFindings : list ReconciliationFinding;
}.

Definition comparisonCoverage (status : VenueTruthCoverageStatus) (reason : option string) : ComparisonItem := MkComparisonItem status reason.
Definition countUniqueMismatchIds (findings : list ReconciliationFinding) : Z := Z.of_nat (length (js_unique (omap rf_mismatchId findings))).

(** [externalSnapshot?.truthCoverage.section.status !== 'available']. *)
Definition not_available (section : VenueTruthCoverage -> CoverageItem) (externalSnapshot : option ExternalSnapshot) : bool :=
  match externalSnapshot with
  | None => true
  | Some x => negb (bool_decide (cov_status (section (xs_truthCoverage x)) = cv_available))
  end.

Definition subaccount_coverage (externalSnapshot : option ExternalSnapshot) (a : DerivativeAccountComparison) : ComparisonItem :=
  if not_available tc_derivativeAccountState externalSnapshot then
    comparisonCoverage cv_unsupported (Some "External derivative-account truth is not available for comparison.")
  else if da_comparable a then comparisonCoverage cv_available None
  else comparisonCoverage cv_unsupported (Some "No internal canonical account locator is available for direct comparison.").

Definition no_internal_snapshot : string := "No internal derivative state snapshot is currently persisted for this venue.".

(** The three sections that are available but for some partial reason. *)
Definition section_coverage (unavailable : bool) (internalState : option InternalSnapshot) (partial_ : bool)
    (unavailableReason partialReason : string) : ComparisonItem :=
  if unavailable then comparisonCoverage cv_unsupported (Some unavailableReason)
  else match internalState with
       | None => comparisonCoverage cv_unsupported (Some no_internal_snapshot)
       | Some _ => if partial_ then comparisonCoverage cv_partial (Some partialReason) else comparisonCoverage cv_available None
       end.

Definition health_coverage (externalSnapshot : option ExternalSnapshot) (h : DerivativeHealthComparison) : ComparisonItem :=
  if not_available tc_derivativeHealthState externalSnapshot then
    comparisonCoverage cv_unsupported (Some "External health truth is not available for comparison.")
  else if bool_decide (dh_comparisonMode h = hm_status_band_only) then
    comparisonCoverage cv_partial (Some "Only band-level internal-vs-external health comparison is currently supported.")
  else
    comparisonCoverage (if dh_comparable h then cv_available else cv_unsupported)
      (if dh_comparable h then None else Some (or_else (head (dh_notes h)) "Internal health comparison is not supported.")).

Definition health_mode_str (m : HealthComparisonMode) : string :=
  match m with hm_status_band_only => "status_band_only" | hm_unsupported => "unsupported" end.

Definition buildVenueDerivativeComparisonDetail (venueId venueName : string) (internalState : option InternalSnapshot)
    (externalSnapshot : option ExternalSnapshot) (activeFindings : list ReconciliationFinding) : exn VenueComparison :=
  let account := compareAccountState internalState externalSnapshot in
  positions ← comparePositions internalState externalSnapshot;
  orders ← compareOrders internalState externalSnapshot;
  let health := healthComparison internalState externalSnapshot in
  let positionsUnavailable := not_available tc_derivativePositionState externalSnapshot in
  let gaps := 0 <? ps_identityGapCount positions in
  let summary := {|
    cs_internalSnapshotAt := is_capturedAt <$> internalState; cs_externalSnapshotAt := xs_capturedAt <$> externalSnapshot;
    cs_subaccountIdentity := subaccount_coverage externalSnapshot account;
    cs_positionInventory := section_coverage positionsUnavailable internalState
      ((0 <? ps_skippedInternalCount positions) || (0 <? ps_skippedExternalCount positions) || gaps)
      "External position truth is not available for comparison."
      "Position comparison is available only for the subset that can be aligned truthfully.";
    cs_marketIdentity := section_coverage positionsUnavailable internalState ((0 <? ps_partialIdentityCount positions) || gaps)
      "External position truth is not available for market identity comparison."
      "Some position comparisons rely on derived market identity or remain identity-gapped.";
    cs_healthState := health_coverage externalSnapshot health;
    cs_orderInventory := section_coverage (not_available tc_orderState externalSnapshot) internalState (0 <? os_skippedInternalCount orders)
      "External open-order truth is not available for comparison."
      "Some internal open orders do not yet have venue-native order ids for exact comparison.";
    cs_healthComparisonMode := health_mode_str (dh_comparisonMode health);
    cs_exactPositionIdentityCount := ps_exactIdentityCount positions;
    cs_partialPositionIdentityCount := ps_partialIdentityCount positions;
    cs_positionIdentityGapCount := ps_identityGapCount positions;
    cs_matchedPositionCount := ps_matchedCount positions; cs_mismatchedPositionCount := ps_mismatchedCount positions;
    cs_matchedOrderCount := os_matchedCount orders; cs_mismatchedOrderCount := os_mismatchedCount orders;
    cs_activeFindingCount := Z.of_nat (length activeFindings); cs_activeMismatchCount := countUniqueMismatchIds activeFindings;
    cs_notes :=
      ["Internal positions are still derived from Sentinel Apex fills, but market identity is now normalized through exact or derived keys when available.";
       "Exact market-index comparison only occurs when the internal side truly has exact venue-native identity in persisted metadata.";
       "Health comparison is now band-level only; exact venue collateral and margin fields remain external-only.";
       "Internal open-order comparison still uses venue order ids for row matching, with market identity carried as additional audit detail."] |} in
  Ret {| vd_venueId := venueId; vd_venueName := venueName; vd_internalState := internalState; vd_externalSnapshot := externalSnapshot;
         vd_summary := summary; vd_accountComparison := account; vd_positionComparisons := ps_comparisons positions;
         vd_orderComparisons := os_comparisons orders; vd_healthComparison := health; vd_activeFindings := activeFindings |}.
End Compare.

(** ** Paired positions agree on their market *)

Lemma matches_spec kind candidates entries i : i ∈ matches_of kind candidates entries <->
  exists e, entries !! i = Some e /\ ec_matched e = false
    /\ exists c, c ∈ candidates /\ existsb (same_candidate kind (id_key c)) (externalIdentityCandidates (Some (ec_identity e))) = true.
Proof.
  unfold matches_of. rewrite list_elem_of_fmap. split.
  - intros ([j e] & -> & Hin). cbn. apply list_elem_of_In, filter_In in Hin as [Hin H]. apply list_elem_of_In, elem_of_lookup_imap in Hin.
    destruct Hin as (j' & e' & [= <- <-] & He). cbn in H. apply andb_true_iff in H as [Hm (c & Hc & Hs)%existsb_exists].
    exists e. split; [done|]. split; [by apply negb_true_iff|]. exists c. split; [by apply list_elem_of_In|done].
  - intros (e & He & Hm & c & Hc & Hs). exists (i, e). split; [done|]. apply list_elem_of_In, filter_In. split.
    + apply list_elem_of_In, elem_of_lookup_imap. by exists i, e.
    + cbn. rewrite Hm. cbn. apply existsb_exists. exists c. split; [by apply list_elem_of_In|done].
Qed.

Lemma shared_candidate_found kinds kind c internal external : kind ∈ kinds -> c ∈ of_kind kind internal ->
  existsb (same_candidate kind (id_key c)) external = true -> exists r, shared_candidate kinds internal external = Some r.
Proof.
  intros Hk Hc Hs. induction kinds as [|k kinds IH]; [by apply elem_of_nil in Hk|]. cbn [shared_candidate].
  destruct (List.find _ _) as [c'|] eqn:E; [eauto|]. apply elem_of_cons in Hk as [->|Hk]; [|by apply IH].
  exfalso. pose proof (find_none _ _ E c) as H. cbv beta in H. rewrite H in Hs; [done|by apply list_elem_of_In].
Qed.

Lemma find_external_paired kinds candidates entries i : find_external kinds candidates entries = Paired i ->
  exists kind, kind ∈ kinds /\ i ∈ matches_of kind (of_kind kind candidates) entries.
Proof.
  induction kinds as [|kind kinds IH]; [done|]. cbn [find_external]. intros H.
  assert (Hnext : find_external kinds candidates entries = Paired i -> exists k, k ∈ kind :: kinds /\ i ∈ matches_of k (of_kind k candidates) entries).
  { intros (k & Hk & Hm)%IH. exists k. split; [by right|done]. }
  destruct (is_empty _); [by apply Hnext|]. destruct (matches_of _ _ _) as [|j [|j' r]] eqn:E; [by apply Hnext| |done].
  injection H as ->. exists kind. split; [by left|]. rewrite E. by left.
Qed.

Lemma matched_identity_matched i e kind c : mc_status (matched_identity i e kind c) = dc_matched.
Proof. done. Qed.

Lemma paired_identity p entries i : pair_position p entries = Paired i ->
  exists e, entries !! i = Some e /\ ec_matched e = false
    /\ mc_status (compareMarketIdentity (pe_marketIdentity p) (Some (ec_identity e))) = dc_matched.
Proof.
  unfold pair_position. destruct (pe_marketIdentity p) as [identity|]; [|done].
  intros (kind & Hk & (e & He & Hm & c & Hc & Hs)%matches_spec)%find_external_paired. exists e. split; [done|]. split; [done|].
  unfold compareMarketIdentity. by destruct (shared_candidate_found _ _ _ _ _ Hk Hc Hs) as ([kind' c'] & ->).
Qed.

(** ** No position is lost or counted twice *)

Section Partition.
Context `{DL : DecimalLib} `{CO : Collation}.

Definition count_of (P : InternalDerivativeComparisonStatus -> bool) (l : list PositionComparison) : Z :=
  Z.of_nat (length (List.filter (fun c => P (pc_status c)) l)).
Definition is_matched (s : InternalDerivativeComparisonStatus) : bool := bool_decide (s = dc_matched).
Definition is_gap (s : InternalDerivativeComparisonStatus) : bool := bool_decide (s = dc_not_comparable).

(** The counters of the state are those of its comparisons, the flagged
    external entries are the compared ones, and no comparison disagrees on the
    market. *)
Record compared_ok (E : list ExternalPosition) (s : PositionsCompared) : Prop := {
  ok_entries : map ec_entry (co_externalEntries s) = E;
  ok_external : omap pc_externalPosition (co_comparisons s) ≡ₚ map ec_entry (List.filter ec_matched (co_externalEntries s));
  ok_matched : co_matchedCount s = count_of is_matched (co_comparisons s);
  ok_mismatched : co_mismatchedCount s = count_of differs (co_comparisons s);
  ok_gaps : co_identityGapCount s = count_of is_gap (co_comparisons s);
  ok_identity : Forall (fun c => mc_status (pc_marketIdentityComparison c) <> dc_mismatched) (co_comparisons s);
}.

Lemma count_of_snoc P l c : count_of P (l ++ [c]) = count_of P l + (if P (pc_status c) then 1 else 0).
Proof. unfold count_of. rewrite List.filter_app, length_app. cbn. destruct (P _); cbn; lia. Qed.

Lemma omap_snoc {A B} (f : A -> option B) l x : omap f (l ++ [x]) = omap f l ++ from_option (fun y => [y]) [] (f x).
Proof. rewrite omap_app. cbn. by destruct (f x). Qed.

(** A comparison without external position is added with its counters. *)
Lemma push_ok E s c : compared_ok E s -> pc_externalPosition c = None -> mc_status (pc_marketIdentityComparison c) <> dc_mismatched ->
  forall m n x y g, m = (if is_matched (pc_status c) then 1 else 0) -> n = (if differs (pc_status c) then 1 else 0) ->
  g = (if is_gap (pc_status c) then 1 else 0) -> compared_ok E (push_comparison c (bump m n x y g s)).
Proof.
  intros [H1 H2 H3 H4 H5 H6] Hx Hi m n x y g -> -> ->.
  split; cbn [push_comparison bump co_externalEntries co_comparisons co_matchedCount co_mismatchedCount co_identityGapCount];
    rewrite ?count_of_snoc; try congruence.
  - rewrite omap_snoc, Hx. cbn. by rewrite app_nil_r.
  - apply List.Forall_app. split; [done|]. by constructor.
Qed.

Lemma compare_unpaired_ok E p s : compared_ok E s -> compared_ok E (compare_unpaired p s).
Proof.
  intros H. unfold compare_unpaired. destruct (existsb _ _); [done|]. destruct (externalHasAssetTypeSibling _ _ _); by apply push_ok.
Qed.

(** Flagging an unmatched entry adds it to the matched ones. *)
Lemma flag_matched (l : list ExternalComparable) i e : l !! i = Some e -> ec_matched e = false ->
  map ec_entry (alter flag i l) = map ec_entry l
  /\ map ec_entry (List.filter ec_matched (alter flag i l)) ≡ₚ map ec_entry (List.filter ec_matched l) ++ [ec_entry e].
Proof.
  revert i. induction l as [|x l IH]; intros i Hi Hm; [done|]. destruct i as [|i]; cbn in Hi |- *.
  - injection Hi as ->. rewrite Hm. cbn. split; [done|]. apply Permutation_cons_append.
  - destruct (IH i Hi Hm) as [E P]. split; [by f_equal|]. destruct (ec_matched x); cbn; [by apply Permutation_skip|done].
Qed.

Lemma compare_paired_ok E p i e s s' : compared_ok E s -> co_externalEntries s !! i = Some e -> ec_matched e = false ->
  mc_status (compareMarketIdentity (pe_marketIdentity p) (Some (ec_identity e))) = dc_matched -> compare_paired p i e s = Ret s' ->
  compared_ok E s' /\ exists c, co_comparisons s' = co_comparisons s ++ [c] /\ pc_internalPosition c = Some p.
Proof.
  intros [H1 H2 H3 H4 H5 H6] He Hm Hi H. unfold compare_paired in H. exn_inv H as q Eq. exn_inv H as d Ed. exn_inv H as t Et.
  injection H as <-. destruct (flag_matched _ _ _ He Hm) as [F1 F2]. rewrite Hi. rewrite bool_decide_eq_false_2 by done.
  split; [|eexists; split; [reflexivity|done]].
  split; cbn [push_comparison bump set_entries co_externalEntries co_comparisons co_matchedCount co_mismatchedCount co_identityGapCount];
    rewrite ?count_of_snoc; cbn [pc_status]; rewrite ?H3, ?H4, ?H5; try (by destruct t).
  - by rewrite F1.
  - rewrite omap_snoc, F2, H2. done.
  - apply List.Forall_app. split; [done|]. constructor; [|done]. cbn. by rewrite Hi.
Qed.

Lemma compare_position_ok E p s s' : compared_ok E s -> compare_position p s = Ret s' -> compared_ok E s'.
Proof.
  intros H. unfold compare_position. destruct (pair_position p _) as [| |i] eqn:Ep.
  - intros [= <-]. by apply compare_unpaired_ok.
  - intros [= <-]. apply compare_unpaired_ok. by apply push_ok.
  - destruct (paired_identity _ _ _ Ep) as (e & He & Hm & Hi). rewrite He. intros Hc. by eapply compare_paired_ok.
Qed.

Lemma compare_positions_ok E ps : forall s s', compared_ok E s -> compare_positions_from ps s = Ret s' -> compared_ok E s'.
Proof.
  induction ps as [|p ps IH]; intros s s' H; cbn [compare_positions_from]; [by intros [= <-]|].
  intros Hc. exn_inv Hc as s1 E1. eapply IH; [|exact Hc]. by eapply compare_position_ok.
Qed.

(** The external entries that stay free are pushed as such. *)
Lemma external_only_ok l : forall s, let s' := fold_left (fun s e => push_comparison (external_only_comparison e) (bump 0 1 0 0 0 s)) l s in
  co_comparisons s' = co_comparisons s ++ map external_only_comparison l /\ co_externalEntries s' = co_externalEntries s
  /\ co_matchedCount s' = co_matchedCount s /\ co_mismatchedCount s' = co_mismatchedCount s + Z.of_nat (length l)
  /\ co_identityGapCount s' = co_identityGapCount s.
Proof.
  induction l as [|e l IH]; intros s; cbn [fold_left map length]; [rewrite app_nil_r; split_and!; lia || done|].
  destruct (IH (push_comparison (external_only_comparison e) (bump 0 1 0 0 0 s))) as (E1 & E2 & E3 & E4 & E5).
  cbv zeta. rewrite E1, E2, E3, E4, E5. cbn [push_comparison bump co_externalEntries co_comparisons co_matchedCount co_mismatchedCount co_identityGapCount].
  rewrite <- app_assoc. split_and!; try done; lia.
Qed.

Lemma count_external_only P l : count_of P (map external_only_comparison l) = if P dc_external_only then Z.of_nat (length l) else 0.
Proof.
  unfold count_of. induction l as [|e l IH]; cbn [map List.filter pc_status external_only_comparison]; [by destruct (P _)|].
  destruct (P dc_external_only); cbn [length]; lia.
Qed.

Lemma count_of_app P l l' : count_of P (l ++ l') = count_of P l + count_of P l'.
Proof. unfold count_of. rewrite List.filter_app, length_app. lia. Qed.

Lemma external_only_positions l : omap pc_externalPosition (map external_only_comparison l) = map ec_entry l
  /\ omap pc_internalPosition (map external_only_comparison l) = [].
Proof. induction l as [|e l [IH1 IH2]]; [done|]. split; [|done]. cbn. f_equal. exact IH1. Qed.

(** After the last loop every external position is in one comparison. *)
Lemma compare_external_only_ok E s : compared_ok E s -> let s' := compare_external_only s in
  omap pc_externalPosition (co_comparisons s') ≡ₚ E /\ omap pc_internalPosition (co_comparisons s') = omap pc_internalPosition (co_comparisons s)
  /\ co_matchedCount s' = count_of is_matched (co_comparisons s') /\ co_mismatchedCount s' = count_of differs (co_comparisons s')
  /\ co_identityGapCount s' = count_of is_gap (co_comparisons s')
  /\ Forall (fun c => mc_status (pc_marketIdentityComparison c) <> dc_mismatched) (co_comparisons s').
Proof.
  intros [H1 H2 H3 H4 H5 H6]. unfold compare_external_only. set (l := List.filter _ _).
  destruct (external_only_ok l s) as (E1 & E2 & E3 & E4 & E5). cbv zeta in *. rewrite E1, E3, E4, E5.
  rewrite !count_of_app, !count_external_only, !omap_app.
  change (is_matched dc_external_only) with false. change (differs dc_external_only) with true. change (is_gap dc_external_only) with false. cbv iota.
  destruct (external_only_positions l) as [-> ->]. rewrite H2, app_nil_r. split_and!; [|done|lia..|].
  - rewrite <- H1, <- map_app. apply Permutation_map', filter_split.
  - apply List.Forall_app. split; [done|]. apply Forall_map, Forall_true. done.
Qed.

(** *** Internal positions *)

(** The internal positions compared so far, in order. *)
Definition compared_internal (s : PositionsCompared) : list PositionEntry := omap pc_internalPosition (co_comparisons s).

Lemma key_seen p s : existsb (fun c => match pc_internalPosition c with
    | Some q => bool_decide (pe_positionKey q = pe_positionKey p) | None => false end) (co_comparisons s) = true
  <-> pe_positionKey p ∈ map pe_positionKey (compared_internal s).
Proof.
  rewrite existsb_exists, list_elem_of_fmap. unfold compared_internal. setoid_rewrite list_elem_of_omap. split.
  - intros (c & Hc & H). destruct (pc_internalPosition c) as [q|] eqn:E; [|done]. apply bool_decide_eq_true in H.
    exists q. split; [done|]. exists c. split; [by apply list_elem_of_In|done].
  - intros (q & Hq & c & Hc & E). exists c. split; [by apply list_elem_of_In|]. rewrite E. by apply bool_decide_eq_true.
Qed.

Lemma compare_unpaired_internal p s : ~ pe_positionKey p ∈ map pe_positionKey (compared_internal s) ->
  compared_internal (compare_unpaired p s) = compared_internal s ++ [p].
Proof.
  intros H. unfold compare_unpaired. destruct (existsb _ _) eqn:E; [by apply key_seen in E|].
  unfold compared_internal. cbv zeta. by destruct (externalHasAssetTypeSibling _ _ _); cbn [push_comparison bump co_comparisons]; rewrite omap_snoc.
Qed.

Lemma compare_position_internal p s s' : ~ pe_positionKey p ∈ map pe_positionKey (compared_internal s) ->
  compare_position p s = Ret s' -> compared_internal s' = compared_internal s ++ [p].
Proof.
  intros Hp. unfold compare_position. destruct (pair_position p _) as [| |i] eqn:Ep.
  - intros [= <-]. by apply compare_unpaired_internal.
  - intros [= <-]. assert (Ha : compared_internal (push_ambiguous p s) = compared_internal s ++ [p]) by (unfold compared_internal; cbn; by rewrite omap_snoc).
    unfold compare_unpaired. destruct (existsb _ _) eqn:E; [done|]. exfalso. rewrite <- not_true_iff_false, key_seen, Ha in E. apply E.
    rewrite map_app. apply elem_of_app. right. by left.
  - destruct (paired_identity _ _ _ Ep) as (e & He & _). rewrite He. unfold compare_paired. intros H.
    exn_inv H as q Eq. exn_inv H as d Ed. exn_inv H as t Et. injection H as <-. unfold compared_internal.
    cbn [push_comparison bump set_entries co_comparisons]. by rewrite omap_snoc.
Qed.

Lemma compare_positions_internal ps : forall s s', NoDup (map pe_positionKey (compared_internal s ++ ps)) ->
  compare_positions_from ps s = Ret s' -> compared_internal s' = compared_internal s ++ ps.
Proof.
  induction ps as [|p ps IH]; intros s s' Hnd; cbn [compare_positions_from]; [intros [= <-]; by rewrite app_nil_r|].
  intros Hc. exn_inv Hc as s1 E1. assert (Hp : compared_internal s1 = compared_internal s ++ [p]).
  { apply compare_position_internal; [|done]. rewrite map_app in Hnd. apply NoDup_app in Hnd as (_ & Hd & _). intros Hin.
    eapply Hd; [exact Hin|]. by left. }
  rewrite (IH _ _ ltac:(rewrite Hp, <- app_assoc; exact Hnd) Hc), Hp, <- app_assoc. done.
Qed.

(** *** The comparison *)

Definition known_positions (x : option ExternalSnapshot) : list ExternalPosition :=
  List.filter (fun p => negb (is_unknown (xp_positionType p))) (external_positions x).

Lemma external_entries_map ps : map ec_entry (external_entries ps) = List.filter (fun p => negb (is_unknown (xp_positionType p))) ps
  /\ List.filter ec_matched (external_entries ps) = [].
Proof.
  unfold external_entries. induction ps as [|p ps [IH1 IH2]]; [done|]. cbn. destruct (is_unknown _); cbn; [done|]. by rewrite IH1, IH2.
Qed.

Lemma count_of_perm P l l' : l ≡ₚ l' -> count_of P l = count_of P l'.
Proof. intros H. unfold count_of. f_equal. apply Permutation_length. by rewrite H. Qed.

Lemma comparePositions_ok (i : option InternalSnapshot) (x : option ExternalSnapshot) r : comparePositions i x = Ret r ->
  exists s, compare_positions_from (internal_positions i) (MkPositionsCompared [] (external_entries (external_positions x)) 0 0 0 0 0) = Ret s
    /\ compared_ok (known_positions x) s /\ ps_comparisons r ≡ₚ co_comparisons (compare_external_only s)
    /\ ps_matchedCount r = co_matchedCount (compare_external_only s) /\ ps_mismatchedCount r = co_mismatchedCount (compare_external_only s)
    /\ ps_identityGapCount r = co_identityGapCount (compare_external_only s).
Proof.
  unfold comparePositions. intros H. exn_inv H as s Es. injection H as <-. exists s. split; [done|].
  cbn [ps_comparisons ps_matchedCount ps_mismatchedCount ps_identityGapCount]. split_and!; [|apply js_sort_perm|done..].
  destruct (external_entries_map (external_positions x)) as [X1 X2]. eapply compare_positions_ok; [|exact Es].
  split; cbn [co_externalEntries co_comparisons]; try done. by rewrite X2.
Qed.

Lemma compared_identities i x r : comparePositions i x = Ret r ->
  Forall (fun c => mc_status (pc_marketIdentityComparison c) <> dc_mismatched) (ps_comparisons r).
Proof.
  intros (s & _ & Hok & Hs & _)%comparePositions_ok. rewrite Hs. by destruct (compare_external_only_ok _ _ Hok) as (_ & _ & _ & _ & _ & H).
Qed.

(** C22. Whatever the pairing does, every external position of a known market
    type is in exactly one comparison, and so is every internal position when
    the position keys differ; the counters are those of the comparisons by
    status. *)
Theorem positions_compared_once (i : option InternalSnapshot) (x : option ExternalSnapshot) (r : PositionComparisons) :
  comparePositions i x = Ret r ->
  omap pc_externalPosition (ps_comparisons r) ≡ₚ known_positions x
  /\ (NoDup (map pe_positionKey (internal_positions i)) -> omap pc_internalPosition (ps_comparisons r) ≡ₚ internal_positions i)
  /\ ps_matchedCount r = count_of is_matched (ps_comparisons r) /\ ps_mismatchedCount r = count_of differs (ps_comparisons r)
  /\ ps_identityGapCount r = count_of is_gap (ps_comparisons r).
Proof.
  intros (s & Es & Hok & Hs & -> & -> & ->)%comparePositions_ok.
  destruct (compare_external_only_ok _ _ Hok) as (P1 & P2 & P3 & P4 & P5 & _). cbv zeta in *.
  rewrite !(count_of_perm _ _ _ Hs), Hs. split_and!; try done. intros Hnd. rewrite P2. fold (compared_internal s).
  by pose proof (compare_positions_internal _ (MkPositionsCompared [] (external_entries (external_positions x)) 0 0 0 0 0) _ Hnd Es) as ->.
Qed.
End Partition.

(** ** Open orders are compared by venue order id *)

Section Orders.
Context `{DL : DecimalLib} `{CO : Collation}.

Lemma jm_of_list_keys {V} (l : list (string * V)) k : k ∈ jm_keys (jm_of_list l) <-> k ∈ map fst l.
Proof.
  induction l as [|[k0 v0] l IH] using rev_ind; [done|].
  rewrite jm_of_list_app, jm_keys_set, IH, map_app, elem_of_app. cbn. rewrite list_elem_of_singleton. tauto.
Qed.

Lemma jm_of_list_value {V} (l : list (string * V)) k v : jm_get k (jm_of_list l) = Some v -> (k, v) ∈ l.
Proof.
  induction l as [|[k0 v0] l IH] using rev_ind; [done|]. rewrite jm_of_list_app, jm_get_set. cbn.
  case_decide as E; intros H; apply elem_of_app; [right; injection H as ->; subst; by left|left; by apply IH].
Qed.

(** What the status of an order comparison says. *)
Definition order_status_ok (c : OrderComparison) : Prop :=
  match oc_status c with
  | dc_external_only => oc_internalOrder c = None
  | dc_internal_only => is_Some (oc_internalOrder c) /\ oc_externalOrder c = None
  | dc_matched =>
      exists i e delta, oc_internalOrder c = Some i /\ oc_externalOrder c = Some e /\ OrderSide_str (oe_side i) = xo_side e
      /\ oe_reduceOnly i = or_else (xo_reduceOnly e) false /\ remaining_delta (oe_remainingSize i) (xo_quantity e) = Ret delta
      /\ within_tolerance delta = Ret true /\ mc_status (oc_marketIdentityComparison c) <> dc_mismatched
  | dc_mismatched => is_Some (oc_internalOrder c) /\ is_Some (oc_externalOrder c)
  | dc_not_comparable => False
  end.

Lemma compare_both_status i e comparison r : compare_both i e comparison = Ret r ->
  (r.1 = dc_matched /\ OrderSide_str (oe_side i) = xo_side e /\ oe_reduceOnly i = or_else (xo_reduceOnly e) false
   /\ remaining_delta (oe_remainingSize i) (xo_quantity e) = Ret r.2 /\ within_tolerance r.2 = Ret true /\ mc_status comparison <> dc_mismatched)
  \/ r.1 = dc_mismatched.
Proof.
  unfold compare_both. intros H. exn_inv H as d Ed. exn_inv H as t Et. injection H as <-. cbn [fst snd].
  destruct (_ && _ && _ && _)%bool eqn:E; [left|by right]. apply andb_true_iff in E as [E E4%negb_true_iff%bool_decide_eq_false].
  apply andb_true_iff in E as [E ->]. apply andb_true_iff in E as [E1%bool_decide_eq_true E2%eqb_prop]. done.
Qed.

Lemma compare_order_status internal external key c : compare_order internal external key = Ret c ->
  order_status_ok c /\ oc_comparisonKey c = key /\ oc_internalOrder c = jm_get key internal /\ oc_externalOrder c = jm_get key external.
Proof.
  unfold compare_order. intros H. exn_inv H as r Er. injection H as <-. split; [|done]. unfold order_status_ok.
  cbn [oc_status oc_internalOrder oc_externalOrder oc_marketIdentityComparison].
  destruct (jm_get key internal) as [i|]; [destruct (jm_get key external) as [e|]|]; [|by injection Er as <-..].
  apply compare_both_status in Er as [(E & H)| ->]; [|done]. rewrite E. exists i, e, r.2. naive_solver.
Qed.

Lemma counts_partition l : count_status true l + count_status false l = Z.of_nat (length l).
Proof.
  unfold count_status. induction l as [|c l IH]; [done|]. cbn [List.filter length]. destruct (bool_decide _); cbn [Bool.eqb length]; lia.
Qed.

Lemma internal_value orders key o : jm_get key (internal_comparable orders) = Some o -> o ∈ orders /\ oe_venueOrderId o = Some key.
Proof.
  intros H%jm_of_list_value%list_elem_of_fmap. destruct H as (o' & [= E1 E2] & [Hin Hv]%list_elem_of_In%filter_In). subst o' key.
  split; [by apply list_elem_of_In|]. unfold hasVenueOrderId in Hv. by destruct (oe_venueOrderId o).
Qed.

Lemma external_value orders key o : jm_get key (external_comparable orders) = Some o -> o ∈ orders /\ xo_venueOrderId o = Some key.
Proof.
  intros H%jm_of_list_value%list_elem_of_fmap. destruct H as (o' & [= E1 E2] & [Hin Hv]%list_elem_of_In%filter_In). subst o' key.
  split; [by apply list_elem_of_In|]. by destruct (xo_venueOrderId o).
Qed.

Lemma internal_keys orders key : key ∈ jm_keys (internal_comparable orders) <->
  exists o, o ∈ orders /\ oe_venueOrderId o = Some key /\ key <> "".
Proof.
  unfold internal_comparable. rewrite jm_of_list_keys, map_map, list_elem_of_fmap. cbn [fst]. split.
  - intros (o & -> & [Hin Hv]%list_elem_of_In%filter_In). exists o. split; [by apply list_elem_of_In|].
    unfold hasVenueOrderId in Hv. destruct (oe_venueOrderId o) as [id|]; [|done]. cbn. split; [done|].
    by apply negb_true_iff, bool_decide_eq_false in Hv.
  - intros (o & Hin & E & Hne). exists o. rewrite E. split; [done|]. apply list_elem_of_In, filter_In. split; [by apply list_elem_of_In|].
    unfold hasVenueOrderId. rewrite E. cbn. by rewrite bool_decide_eq_false_2.
Qed.

Lemma external_keys orders key : key ∈ jm_keys (external_comparable orders) <-> exists o, o ∈ orders /\ xo_venueOrderId o = Some key.
Proof.
  unfold external_comparable. rewrite jm_of_list_keys, map_map, list_elem_of_fmap. cbn [fst]. split.
  - intros (o & -> & [Hin Hv]%list_elem_of_In%filter_In). exists o. split; [by apply list_elem_of_In|]. by destruct (xo_venueOrderId o).
  - intros (o & Hin & E). exists o. rewrite E. split; [done|]. apply list_elem_of_In, filter_In. split; [by apply list_elem_of_In|]. by rewrite E.
Qed.

(** Each non-empty venue order id of an open internal order and each one
    of an external order is compared exactly once.  The status says which side
    lacks the order; a matched order has the same side and reduce-only flag, a
    remaining size within the tolerance and no contradicting market. *)
Theorem orders_compared_once (i : option InternalSnapshot) (x : option ExternalSnapshot) r : compareOrders i x = Ret r ->
  NoDup (map oc_comparisonKey (os_comparisons r))
  /\ (forall key, key ∈ map oc_comparisonKey (os_comparisons r) <->
        (exists o, o ∈ internal_orders i /\ oe_venueOrderId o = Some key /\ key <> "")
        \/ (exists o, o ∈ external_orders x /\ xo_venueOrderId o = Some key))
  /\ (forall c, c ∈ os_comparisons r -> order_status_ok c
        /\ (forall o, oc_internalOrder c = Some o -> o ∈ internal_orders i /\ oe_venueOrderId o = Some (oc_comparisonKey c))
        /\ (forall o, oc_externalOrder c = Some o -> o ∈ external_orders x /\ xo_venueOrderId o = Some (oc_comparisonKey c)))
  /\ os_matchedCount r + os_mismatchedCount r = Z.of_nat (length (os_comparisons r)).
Proof.
  unfold compareOrders. intros H. set (I := internal_comparable _) in *. set (X := external_comparable _) in *. exn_inv H as cs Ecs.
  injection H as <-. cbn [os_comparisons os_matchedCount os_mismatchedCount]. apply map_exn_Forall2 in Ecs.
  assert (Hkeys : map oc_comparisonKey cs = order_keys I X).
  { clear -Ecs. induction Ecs as [|key c ks cs Hc _ IH]; [done|]. cbn. f_equal; [|done]. by apply compare_order_status in Hc as (_ & ? & _). }
  destruct (js_unique_spec (jm_keys I ++ jm_keys X)) as [Hnd Hin]. rewrite Hkeys. split_and!.
  - unfold order_keys. by rewrite js_sort_perm.
  - intros key. unfold order_keys. rewrite js_sort_perm, Hin, elem_of_app. unfold I, X.
    by rewrite internal_keys, external_keys.
  - intros c Hc. apply list_elem_of_lookup in Hc as (n & Hn). destruct (Forall2_lookup_r _ _ _ _ _ Ecs Hn) as (key & _ & E).
    apply compare_order_status in E as (Hs & -> & -> & ->). split; [done|]. split; intros o Ho.
    + by apply internal_value.
    + by apply external_value.
  - apply counts_partition.
Qed.
End Orders.

(** ** Findings that no comparison can raise *)

Section Findings.
Context `{DL : DecimalLib} `{CO : Collation}.

Lemma health_coverage_never_available i x : cmp_status (health_coverage x (healthComparison i x)) <> cv_available.
Proof.
  unfold health_coverage, healthComparison. destruct (not_available _ _); [done|].
  destruct (i ≫= is_healthState) as [h|]; [|done]. destruct (x ≫= xs_healthState) as [e|]; [|done].
  by destruct (bool_decide (ht_comparisonMode h = hm_unsupported)).
Qed.

(** Two findings of the reconciliation cannot be reported.  The health
    section of a comparison is never available, so its health mismatch is never
    active; and a position is only paired by a key both sides share, so that no
    position comparison contradicts the market and its market identity mismatch
    is never active. *)
Theorem unreachable_findings (venueId venueName : string) (i : option InternalSnapshot) (x : option ExternalSnapshot)
    (findings : list ReconciliationFinding) (d : VenueComparison) :
  buildVenueDerivativeComparisonDetail venueId venueName i x findings = Ret d ->
  forall (sourceComponent : string) (detectedAt : Z) (v : VenueInventoryItem),
  (forall health, ci_active (health_check sourceComponent detectedAt v (vd_summary d) health) = false)
  /\ (forall c entry, c ∈ vd_positionComparisons d -> ic_status (en_identity entry) = mc_status (pc_marketIdentityComparison c) ->
        ci_active (identity_check sourceComponent detectedAt v "position" "derivative position" entry) = false).
Proof.
  unfold buildVenueDerivativeComparisonDetail. intros H sc at_ v. exn_inv H as ps Eps. exn_inv H as os Eos. injection H as <-.
  cbn [vd_summary vd_positionComparisons]. split.
  - intros health. unfold health_check, derivative_check, venue_check. cbn [ci_active cs_healthState].
    by rewrite bool_decide_eq_false_2 by apply health_coverage_never_available.
  - intros c entry Hc E. apply compared_identities in Eps. unfold identity_check, derivative_check, venue_check. cbn [ci_active].
    rewrite List.Forall_forall in Eps. rewrite E, bool_decide_eq_false_2; [done|]. by apply Eps, list_elem_of_In.
Qed.
End Findings.

(** ** Samples *)

Section Samples.
#[local] Existing Instances exact_decimal exact_decimal_laws.
#[local] Instance code_collation : Collation := { locale_lt := code_lt }.

Definition tracked_venue : TrackedVenue := MkTrackedVenue "drift" "Drift" (Some "acct") None None None.
Definition sample_snapshot (orders : list OrderRow) (fills : list FillRecord) : exn InternalSnapshot :=
  buildInternalDerivativeSnapshot {|
    si_venue := tracked_venue; si_orders := orders; si_fills := fills; si_portfolioSummary := None; si_riskSummary := None;
    si_capturedAt := 5; si_sourceComponent := "sample"; si_sourceRunId := None; si_sourceReference := None |}.
Definition available_coverage : CoverageItem := MkCoverageItem cv_available None [].
Definition all_available : VenueTruthCoverage :=
  let c := available_coverage in MkTruthCoverage c c c c c c c c c.
Definition external_position (symbol side sz : string) : ExternalPosition :=
  MkExternalPosition None None (Some symbol) mt_perp side (Some sz) None.
Definition external_snapshot (positions : list ExternalPosition) (orders : list ExternalOrder) : ExternalSnapshot :=
  MkExternalSnapshot 6 all_available None (Some positions) None (Some orders).
Definition ok_or {A} (d : A) (m : exn A) : A := match m with Ret a => a | Throw _ => d end.
Definition position_view (c : PositionComparison) := (pc_comparisonKey c, pc_status c, pc_quantityDelta c).

(** The sample fills leave one BTC; the venue shows it, and a SOL position of its own. *)
Definition sample_internal : option InternalSnapshot :=
  match sample_snapshot sample_orders sample_fills with Ret s => Some s | Throw _ => None end.
Definition sample_external : option ExternalSnapshot :=
  Some (external_snapshot [external_position "SOL-PERP" "short" "3"; external_position "BTC-PERP" "long" "1.0000005"] []).

Example sample_compared : match comparePositions sample_internal sample_external with
  | Ret r => map position_view (ps_comparisons r) =
      [("perp:BTC-PERP", dc_matched, Some "-0.0000005"); ("perp:SOL-PERP", dc_external_only, None)]
  | Throw _ => False end.
Proof. vm_compute. reflexivity. Qed.

Definition returns_ok {A} (m : exn A) : bool := match m with Ret _ => true | Throw _ => false end.

Lemma positions_compared_once_witness : NoDup (map pe_positionKey (internal_positions sample_internal)) /\
  match comparePositions sample_internal sample_external with
  | Ret r => omap pc_externalPosition (ps_comparisons r) ≡ₚ known_positions sample_external
      /\ omap pc_internalPosition (ps_comparisons r) ≡ₚ internal_positions sample_internal
      /\ ps_matchedCount r = count_of is_matched (ps_comparisons r) /\ ps_mismatchedCount r = count_of differs (ps_comparisons r)
      /\ ps_identityGapCount r = count_of is_gap (ps_comparisons r)
  | Throw _ => False
  end.
Proof.
  assert (N : NoDup (map pe_positionKey (internal_positions sample_internal))).
  { eapply bool_decide_eq_true_1. vm_compute. reflexivity. }
  assert (B : returns_ok (comparePositions sample_internal sample_external) = true) by (vm_compute; reflexivity).
  split; [exact N|]. destruct (comparePositions sample_internal sample_external) as [r|e] eqn:E; [|discriminate B].
  destruct (positions_compared_once sample_internal sample_external r E) as (H1 & H2 & H3). exact (conj H1 (conj (H2 N) H3)).
Defined.

(** Two positions of one key: the second is in no comparison, though it is short
    where the venue holds nothing, and the count of differences misses it. *)
Definition split_internal : option InternalSnapshot :=
  match sample_snapshot sample_orders
          [sample_fill "a" buy "1" "100" 1 (Some sample_identity); sample_fill "b" sell "3" "110" 2 None] with
  | Ret s => Some s | Throw _ => None end.
Example second_position_dropped : match comparePositions split_internal (Some (external_snapshot [] [])) with
  | Ret r => length (internal_positions split_internal) = 2%nat
      /\ map (fun c => (pc_comparisonKey c, pe_netQuantity <$> pc_internalPosition c)) (ps_comparisons r) = [("perp:BTC-PERP", Some "1")]
      /\ ps_mismatchedCount r = 1
  | Throw _ => False end.
Proof. vm_compute. done. Qed.

(** A position of unknown market type is counted as skipped, and compared. *)
Definition untyped_internal : option InternalSnapshot :=
  match sample_snapshot [] [sample_fill "a" buy "1" "100" 1 None] with Ret s => Some s | Throw _ => None end.
Example skipped_position_compared : match comparePositions untyped_internal (Some (external_snapshot [] [])) with
  | Ret r => ps_skippedInternalCount r = 1 /\ ps_mismatchedCount r = 1 /\ map pc_status (ps_comparisons r) = [dc_internal_only]
  | Throw _ => False end.
Proof. vm_compute. done. Qed.

(** *** Orders *)

Definition open_order (id : string) (venueOrderId : option string) : OrderRow := {|
  ow_clientOrderId := id; ow_venueOrderId := venueOrderId; ow_asset := "BTC"; ow_side := "buy"; ow_status := "submitted";
  ow_requestedSize := "2"; ow_filledSize := "0.5"; ow_requestedPrice := None; ow_reduceOnly := false; ow_executionMode := "live";
  ow_marketIdentity := None; ow_metadata := [("instrumentType", JStr "perpetual")]; ow_submittedAt := None; ow_completedAt := None;
  ow_updatedAt := "" |}.
Definition external_order (id symbol quantity : string) : ExternalOrder :=
  MkExternalOrder None (Some id) None (Some symbol) (Some mt_perp) "buy" (Some quantity) None None.
Definition ordered_internal : option InternalSnapshot :=
  match sample_snapshot [open_order "c1" (Some "v1"); open_order "c2" (Some "v2"); open_order "c3" None] [] with
  | Ret s => Some s | Throw _ => None end.
Definition ordered_external : option ExternalSnapshot :=
  Some (external_snapshot [] [external_order "v3" "BTC-PERP" "1"; external_order "v1" "BTC-PERP" "1.5"]).

Example sample_orders_compared : match compareOrders ordered_internal ordered_external with
  | Ret r => map (fun c => (oc_comparisonKey c, oc_status c)) (os_comparisons r) =
      [("v1", dc_matched); ("v2", dc_internal_only); ("v3", dc_external_only)] /\ os_skippedInternalCount r = 1
  | Throw _ => False end.
Proof. vm_compute. done. Qed.

Lemma orders_compared_once_witness : match compareOrders ordered_internal ordered_external with
  | Ret r => NoDup (map oc_comparisonKey (os_comparisons r))
      /\ (forall key, key ∈ map oc_comparisonKey (os_comparisons r) <->
            (exists o, o ∈ internal_orders ordered_internal /\ oe_venueOrderId o = Some key /\ key <> "")
            \/ (exists o, o ∈ external_orders ordered_external /\ xo_venueOrderId o = Some key))
      /\ (forall c, c ∈ os_comparisons r -> order_status_ok c
            /\ (forall o, oc_internalOrder c = Some o -> o ∈ internal_orders ordered_internal /\ oe_venueOrderId o = Some (oc_comparisonKey c))
            /\ (forall o, oc_externalOrder c = Some o -> o ∈ external_orders ordered_external /\ xo_venueOrderId o = Some (oc_comparisonKey c)))
      /\ os_matchedCount r + os_mismatchedCount r = Z.of_nat (length (os_comparisons r))
  | Throw _ => False
  end.
Proof.
  assert (B : returns_ok (compareOrders ordered_internal ordered_external) = true) by (vm_compute; reflexivity).
  destruct (compareOrders ordered_internal ordered_external) as [r|e] eqn:E; [|discriminate B].
  exact (orders_compared_once ordered_internal ordered_external r E).
Defined.

(** *** Health *)

Definition calm_risk : RiskSummary :=
  let z := num_of_Z 0 in MkRiskSummary (MkPartialSummary z z z z z z z []) normal.
Definition healthy_internal : option InternalSnapshot :=
  match buildInternalDerivativeSnapshot {|
    si_venue := tracked_venue; si_orders := sample_orders; si_fills := sample_fills;
    si_portfolioSummary := Some (MkPortfolioSummary "100" "0" "0" "100" []); si_riskSummary := Some calm_risk;
    si_capturedAt := 5; si_sourceComponent := "sample"; si_sourceRunId := None; si_sourceReference := None |} with
  | Ret s => Some s | Throw _ => None end.
Definition liquidating : option ExternalSnapshot :=
  Some (MkExternalSnapshot 6 all_available None (Some [external_position "BTC-PERP" "long" "1"])
    (Some (MkExternalHealth hs_liquidation_risk None None None None None None)) (Some [])).

(** The venue is being liquidated, the internal band is healthy, and yet the
    section counts as partial only. *)
Example bands_differ :
  match buildVenueDerivativeComparisonDetail "drift" "Drift" healthy_internal liquidating [] with
  | Ret d => dh_status (vd_healthComparison d) = dc_mismatched /\ cmp_status (cs_healthState (vd_summary d)) = cv_partial
      /\ map position_view (vd_positionComparisons d) = [("perp:BTC-PERP", dc_matched, Some "0")]
  | Throw _ => False end.
Proof. vm_compute. done. Qed.

Definition drift_inventory : VenueInventoryItem :=
  MkVenue "drift" "Drift" "drift_native_readonly" tm_real "ready" [] "healthy" None "derivative_aware" "derivative" "ok" None "fresh" "complete"
    "6" (Some "6") all_available [] [].

Lemma unreachable_findings_witness : let v := drift_inventory in
  match buildVenueDerivativeComparisonDetail "drift" "Drift" healthy_internal liquidating [] with
  | Ret d => (forall health, ci_active (health_check "engine" 7 v (vd_summary d) health) = false)
      /\ (forall c entry, c ∈ vd_positionComparisons d -> ic_status (en_identity entry) = mc_status (pc_marketIdentityComparison c) ->
            ci_active (identity_check "engine" 7 v "position" "derivative position" entry) = false)
  | Throw _ => False
  end.
Proof.
  assert (B : returns_ok (buildVenueDerivativeComparisonDetail "drift" "Drift" healthy_internal liquidating []) = true) by (vm_compute; reflexivity).
  destruct (buildVenueDerivativeComparisonDetail "drift" "Drift" healthy_internal liquidating []) as [d|e] eqn:E; [|discriminate B].
  exact (unreachable_findings _ _ _ _ _ d E "engine" 7 drift_inventory).
Defined.
End Samples.
