(* ===== verification/VaultLedger.v ===== *)
(** * The vault ledger (packages/runtime: store.ts, vault accounting)

    The calculations of the vault over rows that were read: lock expiry in
    calendar months, net asset value per share, the availability of a
    depositor's lots and the plan of a redemption.  The file shows that a lock
    lasts between 28 and 31 days per month, and that the pending redemptions of
    a depositor never exceed the shares of the lots, whatever the rounding of
    the requested amount.  A date of a row or a view is its instant. *)
From Stdlib Require Import Qround.
From S2P Require Import Prelude JsNumber JsValue JsText DecimalLib DecimalExact Money DerivativeState.
Open Scope Z_scope.

(** [d.isFinite()]. *)
Class DecimalFinite `{DL : DecimalLib} := { d_isFinite : dec -> bool }.
Class DecimalFiniteLaws `{DF : DecimalFinite} `{LW : !DecimalLaws} := {
  d_isFinite_val : forall a, d_isFinite a = match dval a with DFin _ => true | _ => false end;
}.
#[export] Instance exact_finite : DecimalFinite (DL := exact_decimal) :=
  { d_isFinite := fun a : @dec exact_decimal => match a with DFin _ => true | _ => false end }.
#[export] Instance exact_finite_laws : DecimalFiniteLaws (DL := exact_decimal).
Proof. by split. Qed.

(** ** Rows and views *)

Inductive VaultDepositLotStatus := lot_active | lot_redeeming | lot_redeemed.
#[export] Instance VaultDepositLotStatus_eq_dec : EqDecision VaultDepositLotStatus.
Proof. solve_decision. Defined.
Inductive VaultRedemptionRequestStatus := rq_pending_lock | rq_queued | rq_fulfilled | rq_cancelled | rq_rejected.
#[export] Instance VaultRedemptionRequestStatus_eq_dec : EqDecision VaultRedemptionRequestStatus.
Proof. solve_decision. Defined.
Inductive VaultExecutionEnvironment := ve_simulation | ve_devnet | ve_mainnet | ve_backtest | ve_unknown.

Record VaultRow := MkVaultRow {
  va_id : string;
  va_vaultName : string;
  va_strategyId : string;
  va_strategyName : string;
  va_managerName : option string;
  va_managerWalletAddress : option string;
  va_baseAsset : string;
  va_baseAssetMint : option string;
  va_baseAssetDecimals : option num;
  va_lockPeriodMonths : Z;
  va_rolling : bool;
  va_reassessmentCadenceMonths : Z;
  va_targetApyFloorPct : string;
  va_metadata : record_;
  va_createdAt : Z;
  va_updatedAt : Z;
}.
Record DepositorRow := MkDepositor {
  dr_id : string;
  dr_investorId : string;
  dr_displayName : string;
  dr_walletAddress : string;
  dr_status : string;
  dr_metadata : record_;
  dr_createdAt : Z;
  dr_updatedAt : Z;
}.
Record LotRow := MkLot {
  lr_id : string;
  lr_vaultId : string;
  lr_depositorId : string;
  lr_asset : string;
  lr_depositedAmount : string;
  lr_mintedShares : string;
  lr_sharePrice : string;
  lr_depositedAt : Z;
  lr_lockExpiresAt : Z;
  lr_redeemedAt : option Z;
  lr_status : VaultDepositLotStatus;
  lr_note : option string;
  lr_metadata : record_;
  lr_createdAt : Z;
  lr_updatedAt : Z;
}.
Record RequestRow := MkRequest {
  rr_id : string;
  rr_vaultId : string;
  rr_depositorId : string;
  rr_requestedShares : string;
  rr_estimatedAssets : string;
  rr_sharePrice : string;
  rr_requestedAt : Z;
  rr_eligibleAt : Z;
  rr_fulfilledAt : option Z;
  rr_status : VaultRedemptionRequestStatus;
  rr_note : option string;
  rr_metadata : record_;
  rr_createdAt : Z;
  rr_updatedAt : Z;
}.
Record VaultSummary := MkVaultSummary {
  vm_vault : VaultRow;
  vm_projectedApyPct : option string;
  vm_realizedApyPct : option string;
  vm_navPerShare : string;
  vm_totalAssetsUsd : string;
  vm_availableLiquidityUsd : string;
  vm_totalSharesOutstanding : string;
  vm_totalDepositors : Z;
  vm_activeDepositLots : Z;
  vm_lockedShares : string;
  vm_unlockedShares : string;
  vm_pendingRedemptionShares : string;
  vm_executionEnvironment : VaultExecutionEnvironment;
  vm_supportedScope : list string;
  vm_blockedScope : list string;
}.
Record VaultDepositorView := MkDepositorView {
  dv_depositor : DepositorRow;
  dv_totalDepositedUsdc : string;
  dv_activeShares : string;
  dv_lockedShares : string;
  dv_unlockedShares : string;
  dv_pendingRedemptionShares : string;
  dv_lastDepositAt : option Z;
}.
(** A view of a row with what it takes from the depositor. *)
Record VaultDepositLotView := MkLotView {
  lv_row : LotRow;
  lv_investorId : string;
  lv_displayName : string;
  lv_walletAddress : string;
  lv_locked : bool;
}.
Record VaultRedemptionRequestView := MkRequestView {
  rv_row : RequestRow;
  rv_investorId : string;
  rv_displayName : string;
  rv_walletAddress : string;
}.
(** What the summary reads of the strategy profile. *)
Record StrategyProfileView := MkProfileView {
  sp_projectedApyPct : option string;
  sp_realizedApyPct : option string;
  sp_environment : option string;
  sp_supportedScope : list string;
  sp_blockedScope : list string;
}.

Definition live_lot (l : LotRow) : bool := bool_decide (lr_status l = lot_active) || bool_decide (lr_status l = lot_redeeming).
Definition pending_request (r : RequestRow) : bool :=
  bool_decide (rr_status r = rq_pending_lock) || bool_decide (rr_status r = rq_queued).

(** ** The lock *)

Definition day_millis : Z := 86400000.
(** The day number of the first day of a month, counted from January of the
    year 0: months are counted from March, the leap day being the last. *)
Definition first_of_month (k : Z) : Z :=
  let j := k - 2 in
  let y := j / 12 in
  365 * y + y / 4 - y / 100 + y / 400 + (153 * (j mod 12) + 2) / 5 - 719468.
(** [setUTCMonth(getUTCMonth() + months)]: a day the month has not counts on. *)
Definition addMonths (value months : Z) : Z :=
  let '(y, m, d) := civil_from_days (value / day_millis) in
  (first_of_month (12 * y + (m - 1) + months) + d - 1) * day_millis + value mod day_millis.

Definition mapStrategyEnvironmentToVaultExecutionEnvironment (environment : option string) : VaultExecutionEnvironment :=
  match environment with
  | Some e => if bool_decide (e = "live") then ve_mainnet else if bool_decide (e = "devnet") then ve_devnet
              else if bool_decide (e = "backtest") then ve_backtest else if bool_decide (e = "simulation") then ve_simulation
              else ve_unknown
  | None => ve_unknown
  end.

Definition mapVaultDepositLotRow (row : LotRow) (depositor : option DepositorRow) (now : Z) : VaultDepositLotView := {|
  lv_row := row; lv_investorId := or_else (dr_investorId <$> depositor) "unknown";
  lv_displayName := or_else (dr_displayName <$> depositor) "Unknown depositor";
  lv_walletAddress := or_else (dr_walletAddress <$> depositor) "unknown";
  lv_locked := negb (bool_decide (lr_status row = lot_redeemed)) && (now <? lr_lockExpiresAt row) |}.
Definition mapVaultRedemptionRequestRow (row : RequestRow) (depositor : option DepositorRow) : VaultRedemptionRequestView := {|
  rv_row := row; rv_investorId := or_else (dr_investorId <$> depositor) "unknown";
  rv_displayName := or_else (dr_displayName <$> depositor) "Unknown depositor";
  rv_walletAddress := or_else (dr_walletAddress <$> depositor) "unknown" |}.

Section Ledger.
Context `{DL : DecimalLib} `{DF : !DecimalFinite}.

Definition formatDecimal (value : dec) : string := d_toFixedN 8 value.
Definition formatMoney (value : dec) : string := d_toFixedN 2 value.

(** [rows.reduce((sum, row) => sum.plus(text), new Decimal(0))]. *)
Definition sum_texts (texts : list string) : exn dec :=
  fold_exn (fun sum text => d ← dec_of_string text; Ret (d_plus sum d)) (dec_of_Z 0) texts.
Definition locked_lots (now : Z) (lots : list LotRow) : list LotRow := List.filter (fun l => now <? lr_lockExpiresAt l) lots.

(** ** Summaries *)

Definition nav_per_share (totalAssetsUsd totalShares : dec) : dec :=
  if d_gt totalShares (dec_of_Z 0) then d_div totalAssetsUsd totalShares else dec_of_Z 1.

Definition vault_summary (vaultRecord : VaultRow) (portfolio : option PortfolioSummaryView) (strategyProfile : StrategyProfileView)
    (depositRows : list LotRow) (redemptionRows : list RequestRow) (depositors now : Z) : exn VaultSummary :=
  totalSharesOutstanding ← sum_texts (map lr_mintedShares depositRows);
  lockedShares ← sum_texts (map lr_mintedShares (locked_lots now depositRows));
  pendingRedemptionShares ← sum_texts (map rr_requestedShares redemptionRows);
  totalAssetsUsd ← match portfolio with
                   | None => sum_texts (map lr_depositedAmount depositRows)
                   | Some p => dec_of_string (sv_totalNav p)
                   end;
  availableLiquidityUsd ← match portfolio with None => Ret (dec_of_Z 0) | Some p => dec_of_string (sv_liquidityReserve p) end;
  Ret {|
    vm_vault := vaultRecord; vm_projectedApyPct := sp_projectedApyPct strategyProfile; vm_realizedApyPct := sp_realizedApyPct strategyProfile;
    vm_navPerShare := formatDecimal (nav_per_share totalAssetsUsd totalSharesOutstanding);
    vm_totalAssetsUsd := formatMoney totalAssetsUsd; vm_availableLiquidityUsd := formatMoney availableLiquidityUsd;
    vm_totalSharesOutstanding := formatDecimal totalSharesOutstanding; vm_totalDepositors := depositors;
    vm_activeDepositLots := Z.of_nat (length depositRows); vm_lockedShares := formatDecimal lockedShares;
    vm_unlockedShares := formatDecimal (d_max [d_minus totalSharesOutstanding lockedShares; dec_of_Z 0]);
    vm_pendingRedemptionShares := formatDecimal pendingRedemptionShares;
    vm_executionEnvironment := mapStrategyEnvironmentToVaultExecutionEnvironment (sp_environment strategyProfile);
    vm_supportedScope := sp_supportedScope strategyProfile; vm_blockedScope := sp_blockedScope strategyProfile |}.

Definition latest_deposit (lots : list LotRow) : option Z :=
  fold_left (fun latest l => match latest with
                             | None => Some (lr_depositedAt l)
                             | Some t => if t <? lr_depositedAt l then Some (lr_depositedAt l) else Some t
                             end) lots None.
Definition depositor_view (now : Z) (depositRows : list LotRow) (redemptionRows : list RequestRow) (depositor : DepositorRow)
    : exn VaultDepositorView :=
  let lots := List.filter (fun l => bool_decide (lr_depositorId l = dr_id depositor)) depositRows in
  let redemptions := List.filter (fun r => bool_decide (rr_depositorId r = dr_id depositor)) redemptionRows in
  totalDepositedUsdc ← sum_texts (map lr_depositedAmount lots);
  activeShares ← sum_texts (map lr_mintedShares lots);
  lockedShares ← sum_texts (map lr_mintedShares (locked_lots now lots));
  pendingRedemptionShares ← sum_texts (map rr_requestedShares redemptions);
  Ret {| dv_depositor := depositor; dv_totalDepositedUsdc := formatMoney totalDepositedUsdc; dv_activeShares := formatDecimal activeShares;
         dv_lockedShares := formatDecimal lockedShares;
         dv_unlockedShares := formatDecimal (d_max [d_minus activeShares lockedShares; dec_of_Z 0]);
         dv_pendingRedemptionShares := formatDecimal pendingRedemptionShares; dv_lastDepositAt := latest_deposit lots |}.

(** ** Redemptions *)

Record LotAvailability := MkAvailability { la_row : LotRow; la_availableShares : dec }.
Record Allocation := MkAllocation { al_lotId : string; al_allocatedShares : string; al_eligibleAt : Z }.
Record RedemptionPlan := MkPlan { rp_allocations : list Allocation; rp_eligibleAt : Z }.

Definition exceeds_shares : JsError := Error_ "Requested redemption exceeds available depositor shares.".
Definition take_from (taken : dec) (lot : LotAvailability) : LotAvailability :=
  MkAvailability (la_row lot) (d_minus (la_availableShares lot) taken).

(** The loop of [reserveShares]: the lots after it, and what remains. *)
Fixpoint reserve_loop (lots : list LotAvailability) (remaining : dec) : list LotAvailability * dec :=
  match lots with
  | [] => ([], remaining)
  | lot :: rest =>
      if d_lte remaining (dec_of_Z 0) then (lots, remaining)
      else if d_lte (la_availableShares lot) (dec_of_Z 0) then
        let '(rest', r) := reserve_loop rest remaining in (lot :: rest', r)
      else
        let taken := d_min [la_availableShares lot; remaining] in
        let '(rest', r) := reserve_loop rest (d_minus remaining taken) in (take_from taken lot :: rest', r)
  end.
Definition reserveShares (lots : list LotAvailability) (sharesToReserve : dec) : exn (list LotAvailability) :=
  let '(lots', remaining) := reserve_loop lots sharesToReserve in
  if d_gt remaining (dec_of_Z 0) then Throw exceeds_shares else Ret lots'.

(** The loop over the lots that serve the request. *)
Fixpoint allocate_loop (requestedAt : Z) (lots : list LotAvailability) (remaining : dec) (allocations : list Allocation) (eligibleAt : Z)
    : list Allocation * Z * dec :=
  match lots with
  | [] => (allocations, eligibleAt, remaining)
  | lot :: rest =>
      if d_lte remaining (dec_of_Z 0) then (allocations, eligibleAt, remaining)
      else if d_lte (la_availableShares lot) (dec_of_Z 0) then allocate_loop requestedAt rest remaining allocations eligibleAt
      else
        let taken := d_min [la_availableShares lot; remaining] in
        let lock := lr_lockExpiresAt (la_row lot) in
        let lotEligibleAt := if requestedAt <? lock then lock else requestedAt in
        allocate_loop requestedAt rest (d_minus remaining taken)
          (allocations ++ [MkAllocation (lr_id (la_row lot)) (formatDecimal taken) lotEligibleAt])
          (if eligibleAt <? lotEligibleAt then lotEligibleAt else eligibleAt)
  end.

Definition plan_redemption (depositRows : list LotRow) (existingRequests : list RequestRow) (requestedShares : dec) (requestedAt : Z)
    : exn RedemptionPlan :=
  lotAvailability ← map_exn (fun row => d ← dec_of_string (lr_mintedShares row); Ret (MkAvailability row d)) depositRows;
  free ← fold_exn (fun lots request => shares ← dec_of_string (rr_requestedShares request); reserveShares lots shares)
           lotAvailability existingRequests;
  let '(allocations, eligibleAt, remaining) := allocate_loop requestedAt free requestedShares [] requestedAt in
  if d_gt remaining (dec_of_Z 0) then Throw exceeds_shares else Ret (MkPlan allocations eligibleAt).

Definition allocation_json (a : Allocation) : jsval :=
  JObj [("lotId", JStr (al_lotId a)); ("allocatedShares", JStr (al_allocatedShares a)); ("eligibleAt", JStr (toISOString (al_eligibleAt a)))].

(** [navPerShare.gt(0) ? navPerShare : new Decimal(1)]. *)
Definition effective_price (navPerShare : string) : exn dec :=
  p ← dec_of_string navPerShare; Ret (if d_gt p (dec_of_Z 0) then p else dec_of_Z 1).
End Ledger.

(** ** The calendar *)

Lemma doy_range doe : 0 <= doe <= 146096 ->
  let yoe := (doe - doe / 1460 + doe / 36524 - doe / 146096) / 365 in
  let doy := doe - (365 * yoe + yoe / 4 - yoe / 100) in 0 <= yoe <= 399 /\ 0 <= doy <= 365.
Proof.
  intros H. cbv zeta. set (yoe := (_ / 365)).
  assert (0 <= yoe <= 399) by (subst yoe; Z.div_mod_to_equations; lia). split; [done|]. subst yoe.
  assert (Hc : doe / 146096 = 0 \/ doe = 146096) by (Z.div_mod_to_equations; lia).
  destruct Hc as [Hc|Hc]; [|subst; vm_compute; split; discriminate].
  assert (Hb : doe / 36524 = 0 \/ doe / 36524 = 1 \/ doe / 36524 = 2 \/ doe / 36524 = 3) by (Z.div_mod_to_equations; lia).
  destruct Hb as [Hb|[Hb|[Hb|Hb]]]; rewrite Hb, Hc; (split; Z.div_mod_to_equations; lia).
Qed.

(** The date of a day leads back to it. *)
Lemma civil_first_of_month days : let '(y, m, d) := civil_from_days days in first_of_month (12 * y + (m - 1)) + d - 1 = days.
Proof.
  unfold civil_from_days. set (z := days + 719468). set (era := z / 146097). set (doe := z - era * 146097).
  assert (Hd : 0 <= doe <= 146096) by (subst doe era; Z.div_mod_to_equations; lia).
  destruct (doy_range doe Hd) as [Hy Hr]. cbv zeta in Hr. set (yoe := (_ / 365)) in *. set (doy := doe - (365 * yoe + yoe / 4 - yoe / 100)) in *.
  assert (Hm : 0 <= (5 * doy + 2) / 153 <= 11) by (Z.div_mod_to_equations; lia).
  set (mp := (5 * doy + 2) / 153) in *. assert (E : days = era * 146097 + doe - 719468) by (subst doe; lia).
  assert (Ey : forall y m, 12 * y + (m - 1) - 2 = 12 * (yoe + era * 400) + mp -> (12 * y + (m - 1) - 2) / 12 = yoe + era * 400
    /\ (12 * y + (m - 1) - 2) mod 12 = mp).
  { intros y m ->. Z.div_mod_to_equations; lia. }
  unfold first_of_month. destruct (mp <? 10) eqn:Em; [destruct (mp + 3 <=? 2) eqn:E2; [lia|]|destruct (mp - 9 <=? 2) eqn:E2; [|lia]];
    (match goal with |- context [12 * ?y + (?m - 1) - 2] => destruct (Ey y m) as [-> ->]; [lia|] end); subst doy; rewrite E; clear -Hy Hd;
    assert (H4 : (yoe + era * 400) / 4 = yoe / 4 + era * 100) by (Z.div_mod_to_equations; lia);
    assert (H100 : (yoe + era * 400) / 100 = yoe / 100 + era * 4) by (Z.div_mod_to_equations; lia);
    assert (H400 : (yoe + era * 400) / 400 = era) by (Z.div_mod_to_equations; lia);
    rewrite H4, H100, H400; lia.
Qed.

Lemma month_length k : 28 <= first_of_month (k + 1) - first_of_month k <= 31.
Proof.
  unfold first_of_month. set (j := k - 2). replace (k + 1 - 2) with (j + 1) by lia. clearbody j.
  assert (H : (j mod 12 < 11 /\ (j + 1) / 12 = j / 12 /\ (j + 1) mod 12 = j mod 12 + 1)
              \/ (j mod 12 = 11 /\ (j + 1) / 12 = j / 12 + 1 /\ (j + 1) mod 12 = 0)) by (Z.div_mod_to_equations; lia).
  set (y := j / 12) in *. set (mp := j mod 12) in *. assert (0 <= mp) by (subst mp; Z.div_mod_to_equations; lia).
  clearbody y mp. destruct H as [(? & -> & ->)|(-> & -> & ->)]; Z.div_mod_to_equations; lia.
Qed.

Lemma months_length k n : 28 * Z.of_nat n <= first_of_month (k + Z.of_nat n) - first_of_month k <= 31 * Z.of_nat n.
Proof.
  induction n as [|n IH]; [rewrite Z.add_0_r; lia|]. pose proof (month_length (k + Z.of_nat n)).
  replace (k + Z.of_nat (S n)) with (k + Z.of_nat n + 1) by lia. lia.
Qed.

(** A lock of [n] calendar months lasts at least 28 and at most 31 days per
    month, whatever the day of the deposit, and it expires at the time of day of
    the deposit. *)
Theorem lock_expiry_bounds (depositedAt n : Z) : 0 <= n ->
  28 * n * day_millis <= addMonths depositedAt n - depositedAt <= 31 * n * day_millis
  /\ addMonths depositedAt n mod day_millis = depositedAt mod day_millis.
Proof.
  intros Hn. unfold addMonths. pose proof (civil_first_of_month (depositedAt / day_millis)) as Hc.
  destruct (civil_from_days _) as [[y m] d]. set (k := 12 * y + (m - 1)) in *.
  pose proof (months_length k (Z.to_nat n)) as Hl. rewrite Z2Nat.id in Hl by done.
  set (f := first_of_month (k + n)) in *. set (f0 := first_of_month k) in *.
  pose proof (Z.div_mod depositedAt day_millis ltac:(done)) as Hdm. rewrite <- Hc in Hdm.
  split; [unfold day_millis in *; nia|]. rewrite Z.add_comm, Z_mod_plus_full. by rewrite Zmod_mod.
Qed.

Lemma lock_expiry_bounds_witness : 0 <= 3 /\
  (28 * 3 * day_millis <= addMonths 1706659200000 3 - 1706659200000 <= 31 * 3 * day_millis
   /\ addMonths 1706659200000 3 mod day_millis = 1706659200000 mod day_millis).
Proof. split; [lia|apply (lock_expiry_bounds 1706659200000 3); lia]. Defined.

(** A month later than 31 January is 2 March in a leap year. *)
Example month_overflow : (toISOString (addMonths 1706659200000 1), toISOString (addMonths 1706659200000 3)) =
  ("2024-03-02T00:00:00.000Z", "2024-05-01T00:00:00.000Z").
Proof. vm_compute. reflexivity. Qed.

(** ** A redemption takes what is free *)

Section Redemption.
Context `{DL : DecimalLib} `{LW : !DecimalLaws}.

Definition units_of (lots : list LotAvailability) (zs : list Z) : Prop := Forall2 (fun lot z => scaled 8 (la_availableShares lot) z) lots zs.

(** Reserving an amount takes it from the lots, up to what remains. *)
Lemma reserve_loop_exact lots : forall zs r x, units_of lots zs -> Forall (Z.le 0) zs -> zsum zs < 10 ^ 20 -> scaled 8 r x -> 0 <= x < 10 ^ 20 ->
  exists zs' x', units_of (reserve_loop lots r).1 zs' /\ Forall (Z.le 0) zs' /\ scaled 8 (reserve_loop lots r).2 x' /\ 0 <= x'
    /\ zsum zs' = zsum zs - (x - x').
Proof.
  induction lots as [|lot lots IH]; intros zs r x Hz Hn Hb Hr Hx; cbn [reserve_loop].
  - inversion Hz. subst. exists [], x. split_and!; [constructor|constructor|done|lia|lia].
  - inversion Hz as [|? z ? zs0 Hl Hz0]. subst. apply Forall_cons_1 in Hn as [Hz1 Hn]. rewrite zsum_cons in *.
    pose proof (zsum_nonneg _ Hn) as Hs.
    rewrite (scaled_lte 8 r _ x 0 Hr (scaled_zero 8)), (scaled_lte 8 _ _ z 0 Hl (scaled_zero 8)).
    destruct (Z.leb_spec x 0) as [Hx0|Hx0].
    { exists (z :: zs0), x. split_and!; [done|by constructor|done|lia|rewrite zsum_cons; lia]. }
    destruct (Z.leb_spec z 0) as [Hz2|Hz2].
    { destruct (IH zs0 r x Hz0 Hn ltac:(lia) Hr Hx) as (zs' & x' & H1 & H2 & H3 & H4 & H5). destruct (reserve_loop lots r) as [rest rem].
      exists (z :: zs'), x'. split_and!; [by constructor|by constructor|done|lia|rewrite zsum_cons; lia]. }
    pose proof (scaled_min2 8 _ _ _ _ ltac:(lia) Hl Hr) as Hm. set (t := d_min _) in *.
    assert (Hr' : scaled 8 (d_minus r t) (x - Z.min z x)) by (apply scaled_minus; [lia|done|done|lia]).
    assert (Hl' : scaled 8 (d_minus (la_availableShares lot) t) (z - Z.min z x)) by (apply scaled_minus; [lia|done|done|lia]).
    destruct (IH zs0 _ _ Hz0 Hn ltac:(lia) Hr' ltac:(lia)) as (zs' & x' & H1 & H2 & H3 & H4 & H5).
    destruct (reserve_loop lots (d_minus r t)) as [rest rem].
    exists ((z - Z.min z x) :: zs'), x'. split_and!; [by constructor|constructor; [lia|done]|done|lia|rewrite zsum_cons; lia].
Qed.

Lemma reserveShares_exact lots lots' zs s x : units_of lots zs -> Forall (Z.le 0) zs -> zsum zs < 10 ^ 20 -> scaled 8 s x -> 0 <= x < 10 ^ 20 ->
  reserveShares lots s = Ret lots' ->
  exists zs', units_of lots' zs' /\ Forall (Z.le 0) zs' /\ zsum zs' = zsum zs - x.
Proof.
  intros Hz Hn Hb Hs Hx. unfold reserveShares. destruct (reserve_loop_exact lots zs s x Hz Hn Hb Hs Hx) as (zs' & x' & H1 & H2 & H3 & H4 & H5).
  destruct (reserve_loop lots s) as [l r]. cbn [fst snd] in *. rewrite d_gt_val, <- d_lt_val, (scaled_lt 8 _ _ 0 x' ltac:(lia) (scaled_zero 8) H3).
  destruct (0 <? x') eqn:E; [done|]. intros [= <-]. exists zs'. split_and!; [done|done|lia].
Qed.

(** [r] is at least half a unit below [R] units: it rounds to [R] or more. *)
Definition at_least (r : dec) (R : Z) : Prop := dv_le (DFin (Qmake (10 * R - 5) (Z.to_pos (10 ^ 9)))) (dval r) = true.

Lemma at_least_le r R x : at_least r R -> dv_le (dval r) (DFin (Qmake x (Z.to_pos (10 ^ 8)))) = true -> R <= x.
Proof.
  unfold at_least. intros H1 H2. pose proof (dv_le_trans _ _ _ H1 H2) as H. dv_simpl. unfold Qle in H. cbn in H. lia.
Qed.

Lemma at_least_minus r a t R z : at_least r R -> is_fin a (Qmake z (Z.to_pos (10 ^ 8))) -> dv_equiv (dval t) (dval a) -> 0 <= z <= 10 ^ 18 ->
  Z.abs R <= 10 ^ 18 -> dv_le (dval a) (dval r) = true -> dv_le (dval r) (DFin (Qmake (10 ^ 18) (Z.to_pos (10 ^ 8)))) = true ->
  at_least (d_minus r t) (R - z) /\ dv_le (dval (d_minus r t)) (DFin (Qmake (10 ^ 18) (Z.to_pos (10 ^ 8)))) = true.
Proof.
  intros HR Ha Ht Hz HRb Hle Hub. assert (Ft : is_fin t (Qmake z (Z.to_pos (10 ^ 8)))) by (unfold is_fin in *; by rewrite Ht).
  unfold is_fin in Ha. rewrite Ha in Hle. destruct (between_fin _ _ _ Hle Hub) as (q & Fq & Lq & Uq).
  pose proof (d_minus_fin _ _ _ _ Fq Ft) as Hm. unfold at_least in *. rewrite Hm. unfold is_fin in Fq. rewrite Fq in HR. split.
  - rewrite <- (d_rnd_exact (10 * (R - z) - 5) 9) by lia. apply d_rnd_mono. dv_simpl. unfold Qle, Qminus, Qplus, Qopp in *. cbn in *. lia.
  - rewrite <- (d_rnd_exact (10 ^ 18) 8) by lia. apply d_rnd_mono. unfold Qle, Qminus, Qplus, Qopp in *. cbn in *. lia.
Qed.

Lemma dv_antisym x y : dv_le x y = true -> dv_le y x = true -> dv_equiv x y.
Proof. destruct x, y; intros; try done; dv_simpl; try done. cbn. lra. Qed.

Lemma d_min_smaller a r : dv_isNaN (dval a) = false -> dv_isNaN (dval r) = false -> dv_le (dval a) (dval r) = true ->
  dv_equiv (dval (d_min [a; r])) (dval a).
Proof.
  intros Na Nr Hle. destruct (d_min_in [a; r]) as (m & Hm & E & Hall); [done|by repeat constructor|].
  rewrite !Forall_cons in Hall. destruct Hall as (H1 & H2 & _). rewrite !elem_of_cons in Hm.
  destruct Hm as [->|[->|Hm]]; [done| |by apply elem_of_nil in Hm]. rewrite E in H1. rewrite E. by apply dv_antisym.
Qed.

Definition share_cap : dvalue := DFin (Qmake (10 ^ 18) (Z.to_pos (10 ^ 8))).

Lemma not_positive r R : at_least r R -> dv_le (dval r) (DFin 0) = true -> R <= 0.
Proof.
  intros HR H. apply (at_least_le r R 0 HR). by assert (dv_equiv (DFin (0 # Z.to_pos (10 ^ 8))) (DFin 0)) as -> by done.
Qed.

Lemma d_lte_zero r : d_lte r (dec_of_Z 0) = dv_le (dval r) (DFin 0).
Proof. rewrite d_lte_val. apply dv_le_proper; [done|apply d_zero_fin]. Qed.

(** Whatever is asked for, once nothing remains the lots covered it. *)
Lemma allocate_covers requestedAt lots : forall zs r R al el, units_of lots zs -> Forall (Z.le 0) zs -> zsum zs <= 10 ^ 18 ->
  at_least r R -> zsum zs - 10 ^ 18 <= R <= 10 ^ 18 -> dv_le (dval r) share_cap = true ->
  d_gt (allocate_loop requestedAt lots r al el).2 (dec_of_Z 0) = false -> R <= zsum zs.
Proof.
  induction lots as [|lot lots IH]; intros zs r R al el Hz Hn Hb HR HRb Hub; cbn [allocate_loop].
  - inversion Hz. subst. cbn [snd zsum foldr]. intros Hgt. apply (not_positive _ _ HR). rewrite d_gt_val in Hgt.
    rewrite <- d_lte_zero, d_lte_val. apply dv_not_lt_le; [apply (is_fin_not_nan _ _ d_zero_fin)|by eapply dv_le_nan_r|done].
  - inversion Hz as [|? z ? zs0 Hl Hz0]. subst. apply Forall_cons_1 in Hn as [Hz1 Hn]. rewrite zsum_cons in *.
    pose proof (zsum_nonneg _ Hn) as Hs. rewrite d_lte_zero, (scaled_lte 8 _ _ z 0 Hl (scaled_zero 8)).
    destruct (dv_le (dval r) (DFin 0)) eqn:Er; [intros _; pose proof (not_positive _ _ HR Er); lia|].
    destruct (Z.leb_spec z 0) as [Hz2|Hz2]; [intros H; specialize (IH _ _ _ _ _ Hz0 Hn ltac:(lia) HR ltac:(lia) Hub H); lia|].
    set (t := d_min _). intros H. pose proof (dv_le_nan_r _ _ HR) as Nr. pose proof (is_fin_not_nan _ _ Hl) as Na.
    destruct (dv_lt (dval r) (dval (la_availableShares lot))) eqn:Elt.
    + apply dv_lt_le in Elt. unfold scaled, is_fin in Hl. rewrite Hl in Elt. pose proof (at_least_le _ _ _ HR Elt). lia.
    + apply dv_not_lt_le in Elt; [|done..].
      destruct (at_least_minus r (la_availableShares lot) t R z HR Hl) as [H1 H2]; [by apply d_min_smaller|lia|lia|done|done|].
      specialize (IH _ _ (R - z) _ _ Hz0 Hn ltac:(lia) H1 ltac:(lia) H2 H). lia.
Qed.

(** The amount as the request stores it. *)
Lemma stored_amount d q : is_fin d q -> (0 <= q)%Q -> exists X, amount 8 (formatDecimal d) X /\ at_least d X /\ 0 <= X.
Proof.
  intros (q' & Eq & E)%is_fin_dval Hq. destruct (d_toFixedN_parse 8 d q' ltac:(lia) Eq) as (b & Eb & Fb).
  assert (Hq' : (0 <= q')%Q) by lra. set (X := Qfloor (q' * inject_Z (10 ^ 8) + (1 # 2))). exists X. split_and!.
  - exists b. split; [done|]. unfold scaled, is_fin. rewrite Fb. unfold round_half_up. rewrite (proj2 (Qltb_false _ _) Hq').
    unfold X. cbn -[Qfloor Z.pow]. rewrite (Qabs.Qabs_pos _ Hq'). done.
  - unfold at_least. rewrite Eq. dv_simpl. pose proof (Qfloor_le (q' * inject_Z (10 ^ 8) + (1 # 2))) as H. fold X in H.
    assert (E2 : (Qmake (10 * X - 5) (Z.to_pos (10 ^ 9)) == (inject_Z X - (1 # 2)) * (1 # Z.to_pos (10 ^ 8)))%Q).
    { unfold Qeq. cbn. lia. }
    rewrite E2. apply (Qmult_le_r _ _ (inject_Z (10 ^ 8))); [done|]. rewrite <- Qmult_assoc.
    assert (E3 : ((1 # Z.to_pos (10 ^ 8)) * inject_Z (10 ^ 8) == 1)%Q) by done. rewrite E3. lra.
  - apply (Qfloor_resp_le 0). apply Qle_trans with (q' * inject_Z (10 ^ 8))%Q; [|lra]. apply Qmult_le_0_compat; done.
Qed.

Definition minted (row : LotRow) (z : Z) : Prop := amount 8 (lr_mintedShares row) z.
Definition requested (row : RequestRow) (z : Z) : Prop := amount 8 (rr_requestedShares row) z.

Lemma read_lots rows zs : Forall2 minted rows zs ->
  exists lots, map_exn (fun row => d ← dec_of_string (lr_mintedShares row); Ret (MkAvailability row d)) rows = Ret lots /\ units_of lots zs.
Proof.
  induction 1 as [|row z rows zs (d & Ed & Sd) _ (lots & E & H)]; [exists []; split; [done|constructor]|]. exists (MkAvailability row d :: lots).
  cbn [map_exn]. rewrite Ed. cbn. rewrite E. split; [done|]. constructor; [exact Sd|exact H].
Qed.

Lemma reserve_all reqs : forall qs lots lots' zs, Forall2 requested reqs qs -> Forall (Z.le 0) qs -> units_of lots zs -> Forall (Z.le 0) zs ->
  zsum zs < 10 ^ 20 -> zsum qs < 10 ^ 20 ->
  fold_exn (fun lots request => shares ← dec_of_string (rr_requestedShares request); reserveShares lots shares) lots reqs = Ret lots' ->
  exists zs', units_of lots' zs' /\ Forall (Z.le 0) zs' /\ zsum zs' = zsum zs - zsum qs.
Proof.
  induction reqs as [|req reqs IH]; intros qs lots lots' zs Hq Hqn Hz Hn Hb Hqb H; inversion Hq as [|? x ? qs0 (d & Ed & Sd) Hq0]; subst.
  - injection H as <-. exists zs. cbn. split_and!; [done|done|lia].
  - apply Forall_cons_1 in Hqn as [Hx Hqn]. rewrite zsum_cons in *. pose proof (zsum_nonneg _ Hqn). cbn [fold_exn] in H. exn_inv H as l1 E1.
    rewrite (exn_bind_step _ _ _ Ed) in E1.
    destruct (reserveShares_exact _ _ _ _ _ Hz Hn Hb Sd ltac:(lia) E1) as (zs1 & H1 & H2 & H3).
    pose proof (zsum_nonneg _ H2). destruct (IH _ _ _ _ Hq0 Hqn H1 H2 ltac:(lia) ltac:(lia) H) as (zs' & G1 & G2 & G3).
    exists zs'. split_and!; [done|done|lia].
Qed.

(** An accepted redemption is covered.  Let the shares of a depositor's lots and
    of the pending requests be amounts in units of [10^-8], the requests within
    the lots and the lots within ten billion shares: if the plan of a request
    for some positive number of shares succeeds, then the amount that is stored
    for it, rounded to eight places, and the pending requests together are still
    within the lots. *)
Lemma redeemed_within (rows : list LotRow) (reqs : list RequestRow) (ls qs : list Z) (shares : dec) (q : Q) (requestedAt : Z)
    (p : RedemptionPlan) :
  Forall2 minted rows ls -> Forall (Z.le 0) ls -> zsum ls <= 10 ^ 18 -> Forall2 requested reqs qs -> Forall (Z.le 0) qs -> zsum qs <= zsum ls ->
  is_fin shares q -> (0 <= q)%Q -> (q <= inject_Z (10 ^ 10))%Q -> plan_redemption rows reqs shares requestedAt = Ret p ->
  exists X, amount 8 (formatDecimal shares) X /\ 0 <= X /\ zsum qs + X <= zsum ls.
Proof.
  intros Hl Hln Hlb Hq Hqn Hqb Fq Hq0 Hq1 H. unfold plan_redemption in H. destruct (read_lots _ _ Hl) as (lots & El & Hlots).
  rewrite (exn_bind_step _ _ _ El) in H. exn_inv H as free Ef.
  destruct (reserve_all _ _ _ _ _ Hq Hqn Hlots Hln ltac:(lia) ltac:(lia) Ef) as (zs & Hz & Hzn & Ez).
  destruct (stored_amount _ _ Fq Hq0) as (X & HX & HXl & HX0). exists X. split; [done|]. split; [done|].
  assert (Hcap : dv_le (dval shares) share_cap = true).
  { unfold is_fin in Fq. rewrite Fq. unfold share_cap. dv_simpl. eapply Qle_trans; [exact Hq1|]. done. }
  pose proof (at_least_le _ _ _ HXl Hcap) as HXb. pose proof (zsum_nonneg _ Hzn). pose proof (zsum_nonneg _ Hqn).
  pose proof (allocate_covers requestedAt free zs shares X [] requestedAt Hz Hzn ltac:(lia) HXl ltac:(lia) Hcap) as Hc.
  destruct (allocate_loop _ _ _ _ _) as [[al el] rem]. cbn [snd] in Hc. destruct (d_gt rem _); [done|]. specialize (Hc eq_refl). lia.
Qed.
End Redemption.

(** ** When a redemption becomes eligible *)

Lemma allocate_eligible `{DL : DecimalLib} requestedAt lots : forall r al el, requestedAt <= el -> Forall (fun a => al_eligibleAt a <= el) al ->
  let '(al', el', _) := allocate_loop requestedAt lots r al el in
  el <= el' /\ Forall (fun a => al_eligibleAt a <= el') al' /\ (el' = el \/ exists a, a ∈ al' /\ al_eligibleAt a = el')
  /\ (forall a, a ∈ al' -> a ∈ al \/ exists lot, lot ∈ lots /\ al_lotId a = lr_id (la_row lot)
        /\ al_eligibleAt a = Z.max requestedAt (lr_lockExpiresAt (la_row lot)))
  /\ (forall a, a ∈ al -> a ∈ al').
Proof.
  induction lots as [|lot lots IH]; intros r al el Hr Hal; cbn [allocate_loop]; [split_and!; [lia|done|by left|by left|done]|].
  destruct (d_lte r _); [split_and!; [lia|done|by left|by left|done]|]. destruct (d_lte (la_availableShares lot) _).
  { specialize (IH r al el Hr Hal). destruct (allocate_loop _ _ _ _ _) as [[al' el'] rem]. destruct IH as (H1 & H2 & H3 & H4 & H5).
    split_and!; [done|done|done| |done]. intros a Ha. destruct (H4 a Ha) as [|(l & Hl & E)]; [by left|]. right. exists l. split; [by right|done]. }
  set (lock := lr_lockExpiresAt (la_row lot)). set (at_ := if requestedAt <? lock then lock else requestedAt).
  assert (Ea : at_ = Z.max requestedAt lock) by (unfold at_; destruct (Z.ltb_spec requestedAt lock); lia). set (el1 := if el <? at_ then at_ else el).
  assert (El : el1 = Z.max el at_) by (unfold el1; destruct (Z.ltb_spec el at_); lia). clearbody el1 at_. set (a1 := MkAllocation _ _ _).
  specialize (IH (d_minus r (d_min [la_availableShares lot; r])) (al ++ [a1]) el1 ltac:(lia)).
  destruct (allocate_loop _ _ _ _ _) as [[al' el'] rem]. destruct IH as (H1 & H2 & H3 & H4 & H5).
  { apply List.Forall_app. split; [eapply Forall_impl; [exact Hal|]; cbv beta; intros; lia|]. constructor; [cbn; lia|done]. }
  split_and!; [lia|done| | |intros a Ha; apply H5, elem_of_app; by left].
  - destruct H3 as [->|?]; [|by right]. destruct (Z.le_ge_cases at_ el); [left; lia|]. right. exists a1. split; [|cbn; lia].
    apply H5, elem_of_app. right. by left.
  - intros a Ha. destruct (H4 a Ha) as [Hin|(l & Hl & E)]; [|right; exists l; split; [by right|done]].
    apply elem_of_app in Hin as [?| ->%list_elem_of_singleton]; [by left|]. right. exists lot. split; [by left|]. split; [done|]. cbn. lia.
Qed.

(** A planned redemption becomes eligible exactly when the last lot it takes from
    does: not before the request, and not before the lock of any of them. *)
Lemma redemption_eligibility `{DL : DecimalLib} rows reqs shares requestedAt p : plan_redemption rows reqs shares requestedAt = Ret p ->
  requestedAt <= rp_eligibleAt p /\ Forall (fun a => requestedAt <= al_eligibleAt a <= rp_eligibleAt p) (rp_allocations p)
  /\ (rp_eligibleAt p = requestedAt \/ exists a, a ∈ rp_allocations p /\ al_eligibleAt a = rp_eligibleAt p).
Proof.
  unfold plan_redemption. intros H. exn_inv H as lots El. exn_inv H as free Ef.
  pose proof (allocate_eligible requestedAt free shares [] requestedAt ltac:(lia) ltac:(constructor)) as Ha.
  destruct (allocate_loop _ _ _ _ _) as [[al el] rem]. destruct (d_gt rem _); [done|]. injection H as <-. cbn [rp_eligibleAt rp_allocations].
  destruct Ha as (H1 & H2 & H3 & H4 & _). split_and!; [done| |done]. rewrite List.Forall_forall in *. intros a Hin.
  split; [|by apply H2]. apply list_elem_of_In in Hin. destruct (H4 a Hin) as [Hn|(l & _ & _ & ->)]; [by apply elem_of_nil in Hn|lia].
Qed.
