(* ===== verification/Vault.v ===== *)
(** * The vault (packages/runtime: store.ts, deposits and redemptions)

    [recordVaultDeposit] and [requestVaultRedemption] of the runtime store over
    the vault tables.  The database is reached through a query builder: its
    statements are the class [VaultDb] with their documented behaviour, each of
    which may fail and then changes nothing.  The file shows that in every
    history of deposits and redemptions, whatever fails in between, no depositor
    has more pending redemption shares than shares. *)
From Stdlib Require Import Qround.
From S2P Require Import Prelude JsNumber JsValue JsText DecimalLib DecimalExact Money DerivativeState VaultLedger.
Open Scope Z_scope.

(** ** The database *)

Class VaultDb := {
  Vdb : Type;
  vdb_now : eff Vdb Z;
  (** [insert(vaultCurrent).values(row).onConflictDoUpdate(...).returning()], and the first row *)
  vdb_upsert_vault : VaultRow -> (VaultRow -> VaultRow) -> eff Vdb (option VaultRow);
  vdb_vault : eff Vdb (option VaultRow);
  vdb_touch_vault : string -> Z -> eff Vdb unit;
  (** the depositors, by wallet address, and by last update *)
  vdb_all_depositors : eff Vdb (list DepositorRow);
  vdb_recent_depositors : Z -> eff Vdb (list DepositorRow);
  vdb_depositors_by_id : list string -> eff Vdb (list DepositorRow);
  vdb_depositor_by_wallet : string -> eff Vdb (option DepositorRow);
  vdb_insert_depositor : (string -> DepositorRow) -> eff Vdb (option DepositorRow);
  vdb_update_depositor : string -> (DepositorRow -> DepositorRow) -> eff Vdb unit;
  (** the lots in status active or redeeming; those of a depositor by lock expiry and deposit; the latest *)
  vdb_live_lots : eff Vdb (list LotRow);
  vdb_depositor_lots : string -> eff Vdb (list LotRow);
  vdb_recent_lots : Z -> eff Vdb (list LotRow);
  vdb_insert_lot : (string -> LotRow) -> eff Vdb (option LotRow);
  (** the requests in status pending_lock or queued; those of a depositor by request time; the latest *)
  vdb_pending_requests : eff Vdb (list RequestRow);
  vdb_depositor_requests : string -> eff Vdb (list RequestRow);
  vdb_recent_requests : Z -> eff Vdb (list RequestRow);
  vdb_insert_request : (string -> RequestRow) -> eff Vdb (option RequestRow);
  (** [getPortfolioSummary] and [getCarryStrategyProfile] of the store *)
  getPortfolioSummary : eff Vdb (option PortfolioSummaryView);
  getCarryStrategyProfile : eff Vdb StrategyProfileView;
  (** [buildDefaultVaultConfig()], from the environment and the strategy policy, without timestamps *)
  buildDefaultVaultConfig : exn VaultRow;
}.

Definition lots_by (id : string) (lots : list LotRow) : list LotRow :=
  List.filter (fun l => bool_decide (lr_depositorId l = id) && live_lot l) lots.
Definition requests_by (id : string) (requests : list RequestRow) : list RequestRow :=
  List.filter (fun r => bool_decide (rr_depositorId r = id) && pending_request r) requests.

(** The tables of lots and requests; other statements leave them alone. *)
Class VaultDbLaws `{VD : VaultDb} := {
  lots_of : Vdb -> list LotRow;
  requests_of : Vdb -> list RequestRow;
  same_tables (d d' : Vdb) : Prop := lots_of d' = lots_of d /\ requests_of d' = requests_of d;
  vdb_now_law : keeps same_tables vdb_now;
  vdb_upsert_vault_law : forall r f, keeps same_tables (vdb_upsert_vault r f);
  vdb_vault_law : keeps same_tables vdb_vault;
  vdb_touch_vault_law : forall id t, keeps same_tables (vdb_touch_vault id t);
  vdb_all_depositors_law : keeps same_tables vdb_all_depositors;
  vdb_depositor_by_wallet_law : forall w, keeps same_tables (vdb_depositor_by_wallet w);
  vdb_insert_depositor_law : forall mk, keeps same_tables (vdb_insert_depositor mk);
  vdb_update_depositor_law : forall id f, keeps same_tables (vdb_update_depositor id f);
  vdb_live_lots_law : keeps same_tables vdb_live_lots;
  vdb_pending_requests_law : keeps same_tables vdb_pending_requests;
  portfolio_law : keeps same_tables getPortfolioSummary;
  profile_law : keeps same_tables getCarryStrategyProfile;
  vdb_depositor_lots_law : forall id, keeps same_tables (vdb_depositor_lots id);
  vdb_depositor_requests_law : forall id, keeps same_tables (vdb_depositor_requests id);
  (** what the selects of lots and requests return *)
  vdb_live_lots_rows : forall d l d', vdb_live_lots d = (Ret l, d') -> l ≡ₚ List.filter live_lot (lots_of d);
  vdb_depositor_lots_rows : forall id d l d', vdb_depositor_lots id d = (Ret l, d') -> l ≡ₚ lots_by id (lots_of d);
  vdb_depositor_requests_rows : forall id d l d', vdb_depositor_requests id d = (Ret l, d') -> l ≡ₚ requests_by id (requests_of d);
  (** an insert adds its row, or fails *)
  vdb_insert_lot_law : forall mk d r d', vdb_insert_lot mk d = (r, d') ->
    requests_of d' = requests_of d /\ (lots_of d' = lots_of d \/ exists id, lots_of d' ≡ₚ mk id :: lots_of d);
  vdb_insert_request_law : forall mk d r d', vdb_insert_request mk d = (r, d') ->
    lots_of d' = lots_of d /\ (requests_of d' = requests_of d \/ exists id, requests_of d' ≡ₚ mk id :: requests_of d);
}.
#[export] Hint Resolve vdb_now_law vdb_upsert_vault_law vdb_vault_law vdb_touch_vault_law vdb_all_depositors_law vdb_depositor_by_wallet_law
  vdb_insert_depositor_law vdb_update_depositor_law vdb_live_lots_law vdb_pending_requests_law portfolio_law profile_law
  vdb_depositor_lots_law vdb_depositor_requests_law : keeps.

Record RecordVaultDepositInput := MkDepositInput {
  di_investorId : string;
  di_displayName : string;
  di_walletAddress : string;
  di_amountUsdc : string;
  di_depositedAt : option string;
  di_note : option string;
  di_metadata : option record_;
}.
Record RequestVaultRedemptionInput := MkRedemptionInput {
  ri_walletAddress : string;
  ri_requestedShares : string;
  ri_requestedAt : option string;
  ri_note : option string;
  ri_metadata : option record_;
}.

Section Vault.
Context `{DL : DecimalLib} `{DF : !DecimalFinite} `{VD : VaultDb} `{DH : DateHost}.

(** ** The vault record *)

(** The fields an existing vault takes from the defaults. *)
Definition refresh_vault (defaults : VaultRow) (now : Z) (row : VaultRow) : VaultRow :=
  MkVaultRow (va_id row) (va_vaultName defaults) (va_strategyId defaults) (va_strategyName defaults) (va_managerName row)
    (va_managerWalletAddress row) (va_baseAsset defaults) (va_baseAssetMint defaults) (va_baseAssetDecimals defaults)
    (va_lockPeriodMonths defaults) (va_rolling defaults) (va_reassessmentCadenceMonths defaults) (va_targetApyFloorPct defaults)
    (va_metadata row) (va_createdAt row) now.
Definition stamped_vault (created updated : Z) (row : VaultRow) : VaultRow :=
  MkVaultRow (va_id row) (va_vaultName row) (va_strategyId row) (va_strategyName row) (va_managerName row)
    (va_managerWalletAddress row) (va_baseAsset row) (va_baseAssetMint row) (va_baseAssetDecimals row) (va_lockPeriodMonths row)
    (va_rolling row) (va_reassessmentCadenceMonths row) (va_targetApyFloorPct row) (va_metadata row) created updated.

(** The timestamps of one insert are one reading of the clock. *)
Definition ensureVaultCurrentRecord : eff Vdb VaultRow :=
  defaults ← lift_exn buildDefaultVaultConfig;
  now ← vdb_now;
  row ← vdb_upsert_vault (stamped_vault now now defaults) (refresh_vault defaults now);
  match row with
  | None => throw_eff (Error_ "RuntimeStore.ensureVaultCurrentRecord: vault state was not persisted")
  | Some r => mret r
  end.
Definition buildDefaultVaultCurrentRecord : exn VaultRow := defaults ← buildDefaultVaultConfig; Ret (stamped_vault 0 0 defaults).
Definition getVaultCurrentRecord : eff Vdb VaultRow :=
  row ← vdb_vault;
  match row with Some r => mret r | None => lift_exn buildDefaultVaultCurrentRecord end.

Definition getVaultSummary : eff Vdb VaultSummary :=
  now ← vdb_now;
  vaultRecord ← getVaultCurrentRecord;
  portfolio ← getPortfolioSummary;
  strategyProfile ← getCarryStrategyProfile;
  depositRows ← vdb_live_lots;
  redemptionRows ← vdb_pending_requests;
  depositorRows ← vdb_all_depositors;
  lift_exn (vault_summary vaultRecord portfolio strategyProfile depositRows redemptionRows (Z.of_nat (length depositorRows)) now).

(** ** Lists *)

Definition getVaultDepositorRecordsById (depositorIds : list string) : eff Vdb (list (string * DepositorRow)) :=
  if is_empty depositorIds then mret []
  else rows ← vdb_depositors_by_id depositorIds; mret (jm_of_list (map (fun r => (dr_id r, r)) rows)).
Definition listVaultDepositors (limit : Z) : eff Vdb (list VaultDepositorView) :=
  now ← vdb_now;
  depositorRows ← vdb_recent_depositors limit;
  depositRows ← vdb_live_lots;
  redemptionRows ← vdb_pending_requests;
  lift_exn (map_exn (depositor_view now depositRows redemptionRows) depositorRows).
Definition listVaultDepositLots (limit : Z) : eff Vdb (list VaultDepositLotView) :=
  now ← vdb_now;
  rows ← vdb_recent_lots limit;
  depositorMap ← getVaultDepositorRecordsById (map lr_depositorId rows);
  mret (map (fun row => mapVaultDepositLotRow row (jm_get (lr_depositorId row) depositorMap) now) rows).
Definition listVaultRedemptionRequests (limit : Z) : eff Vdb (list VaultRedemptionRequestView) :=
  rows ← vdb_recent_requests limit;
  depositorMap ← getVaultDepositorRecordsById (map rr_depositorId rows);
  mret (map (fun row => mapVaultRedemptionRequestRow row (jm_get (rr_depositorId row) depositorMap)) rows).

(** ** Deposits *)

(** [input === undefined ? new Date() : new Date(input)], checked. *)
Definition instant_or_now (text : option string) (invalid : string) : eff Vdb Z :=
  match text with
  | None => vdb_now
  | Some t => match date_parse t with None => throw_eff (Error_ invalid) | Some ms => mret ms end
  end.

(** A decimal that must be positive and finite. *)
Definition positive_amount (text message : string) : exn dec :=
  d ← dec_of_string text;
  if negb (d_isFinite d) || d_lte d (dec_of_Z 0) then Throw (Error_ message) else Ret d.

Definition new_depositor (input : RecordVaultDepositInput) (now : Z) (id : string) : DepositorRow :=
  MkDepositor id (di_investorId input) (di_displayName input) (di_walletAddress input) "active" (or_else (di_metadata input) []) now now.
Definition refreshed_depositor (input : RecordVaultDepositInput) (now : Z) (d : DepositorRow) : DepositorRow :=
  MkDepositor (dr_id d) (di_investorId input) (di_displayName input) (dr_walletAddress d) "active"
    (or_else (di_metadata input) (dr_metadata d)) (dr_createdAt d) now.

Definition ensure_depositor (input : RecordVaultDepositInput) : eff Vdb DepositorRow :=
  found ← vdb_depositor_by_wallet (di_walletAddress input);
  now ← vdb_now;
  match found with
  | None =>
      created ← vdb_insert_depositor (new_depositor input now);
      match created with
      | None => throw_eff (Error_ "RuntimeStore.recordVaultDeposit: depositor was not persisted")
      | Some d => mret d
      end
  | Some d =>
      _ ← vdb_update_depositor (dr_id d) (refreshed_depositor input now);
      mret (refreshed_depositor input now d)
  end.

Definition new_lot (vaultRecord : VaultRow) (depositor : DepositorRow) (input : RecordVaultDepositInput) (amountUsdc mintedShares price : dec)
    (depositedAt now : Z) (id : string) : LotRow := {|
  lr_id := id; lr_vaultId := va_id vaultRecord; lr_depositorId := dr_id depositor; lr_asset := va_baseAsset vaultRecord;
  lr_depositedAmount := formatMoney amountUsdc; lr_mintedShares := formatDecimal mintedShares; lr_sharePrice := formatDecimal price;
  lr_depositedAt := depositedAt; lr_lockExpiresAt := addMonths depositedAt (va_lockPeriodMonths vaultRecord); lr_redeemedAt := None;
  lr_status := lot_active; lr_note := di_note input; lr_metadata := or_else (di_metadata input) []; lr_createdAt := now; lr_updatedAt := now |}.

Definition recordVaultDeposit (input : RecordVaultDepositInput) : eff Vdb VaultDepositLotView :=
  depositedAt ← instant_or_now (di_depositedAt input) "Vault deposit requires a valid depositedAt timestamp when provided.";
  amountUsdc ← lift_exn (positive_amount (di_amountUsdc input) "Vault deposit amount must be greater than zero.");
  vaultRecord ← ensureVaultCurrentRecord;
  summary ← getVaultSummary;
  effectiveSharePrice ← lift_exn (effective_price (vm_navPerShare summary));
  depositor ← ensure_depositor input;
  now ← vdb_now;
  depositLot ← vdb_insert_lot (new_lot vaultRecord depositor input amountUsdc (d_div amountUsdc effectiveSharePrice) effectiveSharePrice
                                 depositedAt now);
  match depositLot with
  | None => throw_eff (Error_ "RuntimeStore.recordVaultDeposit: deposit lot was not persisted")
  | Some lot =>
      _ ← vdb_touch_vault (va_id vaultRecord) now;
      mret (mapVaultDepositLotRow lot (Some depositor) now)
  end.

(** ** Redemptions *)

Definition new_request (vaultRecord : VaultRow) (depositor : DepositorRow) (input : RequestVaultRedemptionInput) (shares price : dec)
    (plan : RedemptionPlan) (requestedAt now : Z) (id : string) : RequestRow := {|
  rr_id := id; rr_vaultId := va_id vaultRecord; rr_depositorId := dr_id depositor; rr_requestedShares := formatDecimal shares;
  rr_estimatedAssets := formatMoney (d_times shares price); rr_sharePrice := formatDecimal price; rr_requestedAt := requestedAt;
  rr_eligibleAt := rp_eligibleAt plan; rr_fulfilledAt := None;
  rr_status := if requestedAt <? rp_eligibleAt plan then rq_pending_lock else rq_queued; rr_note := ri_note input;
  rr_metadata := jm_set "allocations" (JArr (map allocation_json (rp_allocations plan))) (or_else (ri_metadata input) []);
  rr_createdAt := now; rr_updatedAt := now |}.

Definition requestVaultRedemption (input : RequestVaultRedemptionInput) : eff Vdb VaultRedemptionRequestView :=
  requestedAt ← instant_or_now (ri_requestedAt input) "Vault redemption requires a valid requestedAt timestamp when provided.";
  requestedShares ← lift_exn (positive_amount (ri_requestedShares input) "Vault redemption shares must be greater than zero.");
  vaultRecord ← ensureVaultCurrentRecord;
  found ← vdb_depositor_by_wallet (ri_walletAddress input);
  match found with
  | None => throw_eff (Error_ ("Vault depositor '" +:+ ri_walletAddress input +:+ "' was not found."))
  | Some depositor =>
      depositRows ← vdb_depositor_lots (dr_id depositor);
      existingRequests ← vdb_depositor_requests (dr_id depositor);
      summary ← getVaultSummary;
      plan ← lift_exn (plan_redemption depositRows existingRequests requestedShares requestedAt);
      price ← lift_exn (effective_price (vm_navPerShare summary));
      now ← vdb_now;
      requestRow ← vdb_insert_request (new_request vaultRecord depositor input requestedShares price plan requestedAt now);
      match requestRow with
      | None => throw_eff (Error_ "RuntimeStore.requestVaultRedemption: redemption request was not persisted")
      | Some row =>
          _ ← vdb_touch_vault (va_id vaultRecord) now;
          mret (mapVaultRedemptionRequestRow row (Some depositor))
      end
  end.
End Vault.

(** ** No depositor redeems more than the shares held *)

Section Covered.
Context `{DL : DecimalLib} `{LW : !DecimalLaws} `{DF : !DecimalFinite} `{FL : !DecimalFiniteLaws} `{VL : VaultDbLaws} `{DH : DateHost}.

(** An amount text in units of [10^-8]. *)
Definition share_units (text : string) : Z :=
  match dec_of_string text with
  | Ret d => match dval d with DFin q => Qfloor (q * inject_Z (10 ^ 8)) | _ => 0 end
  | Throw _ => 0
  end.

Lemma share_units_amount text m : amount 8 text m -> share_units text = m.
Proof.
  intros (d & Ed & Sd). unfold share_units. rewrite Ed. apply is_fin_dval in Sd as (q & -> & E).
  rewrite E. assert (E1 : ((m # Z.to_pos (10 ^ 8)) * inject_Z (10 ^ 8) == inject_Z m)%Q) by (unfold Qeq; cbn; lia).
  rewrite E1. apply Qfloor_Z.
Qed.

Definition held (id : string) (d : Vdb) : Z := zsum (map (fun l => share_units (lr_mintedShares l)) (lots_by id (lots_of d))).
Definition pending (id : string) (d : Vdb) : Z := zsum (map (fun r => share_units (rr_requestedShares r)) (requests_by id (requests_of d))).

Definition lot_ok (l : LotRow) : Prop := exists m c, amount 8 (lr_mintedShares l) m /\ 0 <= m /\ amount 2 (lr_depositedAmount l) c /\ 0 <= c.
Definition request_ok (r : RequestRow) : Prop := exists m, amount 8 (rr_requestedShares r) m /\ 0 <= m.

(** The invariant: the amounts are readable, and every depositor's pending
    redemptions are covered by the shares of the live lots. *)
Record vault_ok (d : Vdb) : Prop := {
  ok_lots : Forall lot_ok (List.filter live_lot (lots_of d));
  ok_requests : Forall request_ok (List.filter pending_request (requests_of d));
  ok_covered : forall id, pending id d <= held id d;
}.

(** At most ten billion shares and a hundred billion dollars deposited. *)
Definition vault_bounded (d : Vdb) : Prop :=
  zsum (map (fun l => share_units (lr_mintedShares l)) (List.filter live_lot (lots_of d))) <= 10 ^ 18
  /\ forall cs, Forall2 (fun l c => amount 2 (lr_depositedAmount l) c) (List.filter live_lot (lots_of d)) cs -> zsum cs <= 10 ^ 13.

#[local] Instance same_tables_preorder : PreOrder same_tables.
Proof. split; [done|]. intros a b c [H1 H2] [H3 H4]. split; congruence. Qed.

Lemma same_ok d d' : same_tables d d' -> vault_ok d -> vault_ok d'.
Proof. intros [E1 E2] [H1 H2 H3]. split; [by rewrite E1|by rewrite E2|]. intros id. unfold pending, held. rewrite E1, E2. apply H3. Qed.
Lemma same_bounded d d' : same_tables d d' -> vault_bounded d -> vault_bounded d'.
Proof. intros [E1 _]. unfold vault_bounded. by rewrite E1. Qed.

(** *** Statements that leave the tables alone *)

Lemma ensure_vault_same : keeps same_tables ensureVaultCurrentRecord.
Proof. unfold ensureVaultCurrentRecord. keeps_tac. Qed.
Lemma vault_record_same : keeps same_tables getVaultCurrentRecord.
Proof. unfold getVaultCurrentRecord. keeps_tac. Qed.
#[local] Hint Resolve ensure_vault_same vault_record_same : keeps.
Lemma summary_same : keeps same_tables getVaultSummary.
Proof. unfold getVaultSummary. keeps_tac. Qed.
Lemma instant_same t e : keeps same_tables (instant_or_now t e).
Proof. unfold instant_or_now. keeps_tac. Qed.
Lemma ensure_depositor_same input : keeps same_tables (ensure_depositor input).
Proof. unfold ensure_depositor. keeps_tac. Qed.
#[local] Hint Resolve summary_same instant_same ensure_depositor_same : keeps.

(** *** The price *)

Lemma sum_texts_from k texts zs : 0 <= k <= 1000 -> Forall2 (amount k) texts zs -> Forall (Z.le 0) zs ->
  forall s x, scaled k s x -> 0 <= x -> x + zsum zs < 10 ^ 20 ->
  exists d, fold_exn (fun sum text => d ← dec_of_string text; Ret (d_plus sum d)) s texts = Ret d /\ scaled k d (x + zsum zs).
Proof.
  intros Hk H. induction H as [|t z texts zs (d & Ed & Sd) _ IH]; intros Hn s x Hs Hx Hb; cbn [fold_exn].
  - exists s. by rewrite Z.add_0_r.
  - apply Forall_cons_1 in Hn as [Hz Hn]. rewrite zsum_cons in *. pose proof (zsum_nonneg _ Hn). rewrite Ed. cbn.
    replace (x + (z + zsum zs)) with ((x + z) + zsum zs) by lia. apply IH; [done|apply scaled_plus; auto; lia|lia|lia].
Qed.
Lemma sum_texts_exact k texts zs : 0 <= k <= 1000 -> Forall2 (amount k) texts zs -> Forall (Z.le 0) zs -> zsum zs < 10 ^ 20 ->
  exists d, sum_texts texts = Ret d /\ scaled k d (zsum zs).
Proof. intros Hk H Hn Hb. by destruct (sum_texts_from k texts zs Hk H Hn _ _ (scaled_zero k) ltac:(lia) Hb) as (d & E & S); exists d. Qed.

Lemma lots_amounts lots : Forall lot_ok lots -> exists ms cs, Forall2 minted lots ms /\ Forall (Z.le 0) ms
  /\ Forall2 (fun l c => amount 2 (lr_depositedAmount l) c) lots cs /\ Forall (Z.le 0) cs
  /\ ms = map (fun l => share_units (lr_mintedShares l)) lots.
Proof.
  induction 1 as [|l lots (m & c & Hm & Hm0 & Hc & Hc0) _ (ms & cs & H1 & H2 & H3 & H4 & H5)]; [exists [], []; by split_and!|].
  exists (m :: ms), (c :: cs). split_and!; try by constructor. cbn. by rewrite (share_units_amount _ _ Hm), H5.
Qed.

Lemma requests_amounts reqs : Forall request_ok reqs -> exists qs, Forall2 requested reqs qs /\ Forall (Z.le 0) qs
  /\ qs = map (fun r => share_units (rr_requestedShares r)) reqs.
Proof.
  induction 1 as [|r reqs (m & Hm & Hm0) _ (qs & H1 & H2 & H3)]; [exists []; by split_and!|].
  exists (m :: qs). split_and!; try by constructor. cbn. by rewrite (share_units_amount _ _ Hm), H3.
Qed.

(** The persisted net asset value is a readable amount. *)
Context (nav_readable : forall d p d', getPortfolioSummary d = (Ret (Some p), d') ->
  exists dn q, dec_of_string (sv_totalNav p) = Ret dn /\ is_fin dn q /\ (0 <= q)%Q /\ (q <= inject_Z (10 ^ 11))%Q).

Lemma nav_finite ta q tot z : is_fin ta q -> (0 <= q)%Q -> (q <= inject_Z (10 ^ 11))%Q -> scaled 8 tot z ->
  exists x, is_fin (nav_per_share ta tot) x /\ (0 <= x)%Q.
Proof.
  intros Fq H0 H1 St. unfold nav_per_share. rewrite d_gt_val, <- d_lt_val, (scaled_lt 8 _ _ 0 z ltac:(lia) (scaled_zero 8) St).
  destruct (Z.ltb_spec 0 z) as [Hz|]; [|exists 1%Q; split; [by apply (d_of_int 1)|done]].
  assert (Hnz : ~ ((z # Z.to_pos (10 ^ 8)) == 0)%Q) by (unfold Qeq; cbn; lia). pose proof (d_div_fin _ _ _ _ Fq St Hnz) as E.
  assert (Hpos : (0 < z # Z.to_pos (10 ^ 8))%Q) by (unfold Qlt; cbn; lia).
  assert (L : dv_le (DFin 0) (dval (d_div ta tot)) = true) by (rewrite E; apply d_rnd_nonneg, Qle_shift_div_l; [done|lra]).
  assert (U : dv_le (dval (d_div ta tot)) (DFin (Qmake (10 ^ 19) (Z.to_pos (10 ^ 0)))) = true).
  { rewrite E, <- (d_rnd_exact (10 ^ 19) 0) by lia. apply d_rnd_mono, Qle_shift_div_r; [done|]. eapply Qle_trans; [exact H1|].
    unfold Qle. cbn. lia. }
  destruct (between_fin _ _ _ L U) as (x & Fx & Lx & _). by exists x.
Qed.

(** The price at which shares are minted is at least one unit. *)
Lemma effective_price_positive nav x p : is_fin nav x -> (0 <= x)%Q -> effective_price (formatDecimal nav) = Ret p ->
  exists y, is_fin p y /\ (1 # Z.to_pos (10 ^ 8) <= y)%Q.
Proof.
  intros Fx Hx H. destruct (stored_amount _ _ Fx Hx) as (X & (b & Eb & Sb) & _ & HX). unfold effective_price in H.
  rewrite (exn_bind_step _ _ _ Eb) in H. injection H as <-. rewrite d_gt_val, <- d_lt_val, (scaled_lt 8 _ _ 0 X ltac:(lia) (scaled_zero 8) Sb).
  destruct (Z.ltb_spec 0 X); [exists (X # Z.to_pos (10 ^ 8)); split; [done|unfold Qle; cbn; lia]|].
  exists 1%Q. split; [by apply (d_of_int 1)|done].
Qed.

Lemma summary_price d s d' p : vault_ok d -> vault_bounded d -> getVaultSummary d = (Ret s, d') -> effective_price (vm_navPerShare s) = Ret p ->
  exists y, is_fin p y /\ (1 # Z.to_pos (10 ^ 8) <= y)%Q.
Proof.
  intros Hok Hb H Hp. unfold getVaultSummary in H.
  eff_inv H as now d1 E1; [done|]. eff_inv H as va d2 E2; [done|]. eff_inv H as pf d3 E3; [done|]. eff_inv H as pr d4 E4; [done|].
  eff_inv H as lots d5 E5; [done|]. eff_inv H as reqs d6 E6; [done|]. eff_inv H as deps d7 E7; [done|].
  assert (S4 : same_tables d d4).
  { etrans; [by eapply vdb_now_law|]. etrans; [by eapply vault_record_same|]. etrans; [by eapply portfolio_law|by eapply profile_law]. }
  pose proof (vdb_live_lots_rows _ _ _ E5) as Pl. rewrite (proj1 S4) in Pl.
  destruct Hok as [Hl _ _]. destruct Hb as [Hb1 Hb2]. assert (Hl' : Forall lot_ok lots) by (by rewrite Pl).
  destruct (lots_amounts _ Hl') as (ms & cs & M1 & M2 & C1 & C2 & Em).
  assert (Bm : zsum ms <= 10 ^ 18) by (subst ms; by rewrite (zsum_perm _ _ (Permutation_map' _ Pl))).
  assert (Bc : zsum cs <= 10 ^ 13).
  { destruct (Permutation_Forall2 Pl C1) as (cs' & Pc & C'). rewrite (zsum_perm _ _ Pc). by apply Hb2. }
  unfold lift_exn in H. injection H as Hv _. unfold vault_summary in Hv. exn_inv Hv as tot Et. exn_inv Hv as lk El. exn_inv Hv as pn En.
  exn_inv Hv as ta Ea. exn_inv Hv as al Eal. injection Hv as <-. cbn [vm_navPerShare] in Hp.
  destruct (sum_texts_exact 8 (map lr_mintedShares lots) ms ltac:(lia)) as (t & Et' & St); [by apply Forall2_fmap_l|done|lia|].
  rewrite Et in Et'. injection Et' as <-.
  assert (Ha : exists q, is_fin ta q /\ (0 <= q)%Q /\ (q <= inject_Z (10 ^ 11))%Q).
  { destruct pf as [p0|].
    - destruct (nav_readable _ _ _ E3) as (dn & q & Ed & Fq & H0 & H1). rewrite Ed in Ea. injection Ea as <-. by exists q.
    - destruct (sum_texts_exact 2 (map lr_depositedAmount lots) cs ltac:(lia)) as (t2 & Et2 & St2); [by apply Forall2_fmap_l|done|lia|].
      rewrite Ea in Et2. injection Et2 as <-. pose proof (zsum_nonneg _ C2). exists (zsum cs # Z.to_pos (10 ^ 2)).
      split; [done|]. unfold Qle. cbn. lia. }
  destruct Ha as (q & Fq & H0 & H1). destruct (nav_finite _ _ _ _ Fq H0 H1 St) as (x & Fx & Hx).
  by eapply effective_price_positive.
Qed.

(** *** Deposits *)

Lemma minted_amount a q p y : is_fin a q -> (0 <= q)%Q -> (q <= inject_Z (10 ^ 10))%Q -> is_fin p y -> (1 # Z.to_pos (10 ^ 8) <= y)%Q ->
  exists m, amount 8 (formatDecimal (d_div a p)) m /\ 0 <= m.
Proof.
  intros Fa H0 H1 Fp Hy. assert (Hp : (0 < y)%Q) by (eapply Qlt_le_trans; [|exact Hy]; done).
  pose proof (d_div_fin _ _ _ _ Fa Fp ltac:(lra)) as E.
  assert (L : dv_le (DFin 0) (dval (d_div a p)) = true) by (rewrite E; apply d_rnd_nonneg, Qle_shift_div_l; [done|lra]).
  assert (U : dv_le (dval (d_div a p)) (DFin (Qmake (10 ^ 18) (Z.to_pos (10 ^ 0)))) = true).
  { rewrite E, <- (d_rnd_exact (10 ^ 18) 0) by lia. apply d_rnd_mono, Qle_shift_div_r; [done|]. eapply Qle_trans; [exact H1|].
    apply Qle_trans with ((10 ^ 18 # Z.to_pos (10 ^ 0)) * (1 # Z.to_pos (10 ^ 8)))%Q; [unfold Qle; cbn; lia|].
    rewrite !(Qmult_comm (10 ^ 18 # _)). by apply Qmult_le_compat_r. }
  destruct (between_fin _ _ _ L U) as (x & Fx & Lx & _). destruct (stored_amount _ _ Fx Lx) as (m & Hm & _ & Hm0). by exists m.
Qed.

Lemma money_amount a q : is_fin a q -> (0 <= q)%Q -> exists c, amount 2 (formatMoney a) c /\ 0 <= c.
Proof.
  intros (q' & Eq & E)%is_fin_dval Hq. destruct (d_toFixedN_parse 2 a q' ltac:(lia) Eq) as (b & Eb & Fb).
  assert (Hq' : (0 <= q')%Q) by lra. exists (Qfloor (q' * inject_Z (10 ^ 2) + (1 # 2))). split.
  - exists b. split; [done|]. unfold scaled, is_fin. rewrite Fb. unfold round_half_up. rewrite (proj2 (Qltb_false _ _) Hq').
    cbn -[Qfloor Z.pow]. rewrite (Qabs.Qabs_pos _ Hq'). done.
  - apply (Qfloor_resp_le 0). apply Qle_trans with (q' * inject_Z (10 ^ 2))%Q; [|lra]. apply Qmult_le_0_compat; done.
Qed.

Lemma positive_amount_finite text e a : positive_amount text e = Ret a -> dec_of_string text = Ret a /\ exists q, is_fin a q /\ (0 < q)%Q.
Proof.
  unfold positive_amount. intros H. exn_inv H as d Ed. destruct (negb (d_isFinite d) || _)%bool eqn:E; [done|]. injection H as <-.
  split; [done|]. apply orb_false_iff in E as [E1%negb_false_iff E2]. rewrite d_isFinite_val in E1. rewrite d_lte_zero in E2.
  destruct (dval d) as [| |q|] eqn:Eq; try done. exists q. split; [unfold is_fin; by rewrite Eq|]. dv_simpl. done.
Qed.

Lemma lots_by_perm id l l' : l ≡ₚ l' -> lots_by id l ≡ₚ lots_by id l'.
Proof. unfold lots_by. by intros ->. Qed.

(** Adding a lot of readable amounts keeps the invariant. *)
Lemma add_lot_ok d d' l : vault_ok d -> requests_of d' = requests_of d -> lots_of d' ≡ₚ l :: lots_of d -> live_lot l = true -> lot_ok l -> vault_ok d'.
Proof.
  intros [H1 H2 H3] Er El Hl Hlo. split.
  - rewrite El. cbn [List.filter]. rewrite Hl. by constructor.
  - by rewrite Er.
  - intros id. unfold pending, held in *. rewrite Er. etrans; [apply H3|].
    rewrite (zsum_perm _ _ (Permutation_map' _ (lots_by_perm id _ _ El))). unfold lots_by at 2. cbn [List.filter].
    destruct (bool_decide (lr_depositorId l = id) && live_lot l); [|done]. cbn [map]. rewrite zsum_cons.
    destruct Hlo as (m & c & Hm & Hm0 & _). rewrite (share_units_amount _ _ Hm). unfold lots_by. lia.
Qed.

(** Adding a covered request keeps it. *)
Lemma add_request_ok d d' r m : vault_ok d -> lots_of d' = lots_of d -> requests_of d' ≡ₚ r :: requests_of d -> amount 8 (rr_requestedShares r) m ->
  0 <= m -> pending (rr_depositorId r) d + m <= held (rr_depositorId r) d -> vault_ok d'.
Proof.
  intros [H1 H2 H3] El Er Hm Hm0 Hc. split.
  - by rewrite El.
  - rewrite Er. cbn [List.filter]. destruct (pending_request r); [|done]. constructor; [by exists m|done].
  - intros id. unfold held. rewrite El. fold (held id d). unfold pending.
    assert (P : requests_by id (requests_of d') ≡ₚ requests_by id (r :: requests_of d)) by (unfold requests_by; by rewrite Er).
    rewrite (zsum_perm _ _ (Permutation_map' _ P)). unfold requests_by. cbn [List.filter]. specialize (H3 id). unfold pending, requests_by in H3, Hc.
    destruct (bool_decide (rr_depositorId r = id)) eqn:Eid; cbn [andb]; [|done]. apply bool_decide_eq_true in Eid. subst id.
    destruct (pending_request r); [|done]. cbn [map]. rewrite zsum_cons, (share_units_amount _ _ Hm). lia.
Qed.

(** An input's amount is at most ten billion. *)
Definition within_cap (text : string) : Prop := forall a q, dec_of_string text = Ret a -> is_fin a q -> (q <= inject_Z (10 ^ 10))%Q.

Lemma deposit_keeps_ok input d r d' : within_cap (di_amountUsdc input) -> vault_ok d -> vault_bounded d -> recordVaultDeposit input d = (r, d') ->
  vault_ok d'.
Proof.
  intros Hcap Hok Hb H. unfold recordVaultDeposit in H.
  eff_inv H as at_ d1 E1; [eapply same_ok; [by eapply instant_same|done]|]. apply instant_same in E1.
  eff_inv H as a d2 E2; [injection E2 as _ <-; by eapply same_ok|]. injection E2 as E2 <-.
  eff_inv H as va d3 E3; [eapply same_ok; [etrans; [exact E1|by eapply ensure_vault_same]|done]|]. apply ensure_vault_same in E3.
  assert (S3 : same_tables d d3) by by etrans.
  eff_inv H as s d4 E4; [eapply same_ok; [etrans; [exact S3|by eapply summary_same]|done]|].
  pose proof (summary_same _ _ _ E4) as S4. assert (S04 : same_tables d d4) by by etrans.
  eff_inv H as p d5 E5; [injection E5 as _ <-; by eapply same_ok|]. injection E5 as E5 <-.
  destruct (summary_price d3 s d4 p (same_ok _ _ S3 Hok) (same_bounded _ _ S3 Hb) E4 E5) as (y & Fp & Hy).
  destruct (positive_amount_finite _ _ _ E2) as (Ea & q & Fa & Hq). pose proof (Hcap a q Ea Fa) as Hq1.
  eff_inv H as dep d6 E6; [eapply same_ok; [etrans; [exact S04|by eapply ensure_depositor_same]|done]|]. apply ensure_depositor_same in E6.
  eff_inv H as now d7 E7; [eapply same_ok; [etrans; [exact S04|]; etrans; [exact E6|by eapply vdb_now_law]|done]|]. apply vdb_now_law in E7.
  assert (S7 : same_tables d d7) by (etrans; [exact S04|]; by etrans). pose proof (same_ok _ _ S7 Hok) as Hok7.
  set (mk := new_lot va dep input a (d_div a p) p at_ now) in *.
  assert (Hins : forall r8 d8, vdb_insert_lot mk d7 = (r8, d8) -> vault_ok d8).
  { intros r8 d8 E8. apply vdb_insert_lot_law in E8 as [Er [El|[id El]]]; [eapply same_ok; [by split|exact Hok7]|].
    eapply add_lot_ok; [exact Hok7|done|exact El|done|]. destruct (minted_amount a q p y) as (m & Hm & Hm0); [done|lra|done|done|done|].
    destruct (money_amount a q) as (c & Hc & Hc0); [done|lra|]. by exists m, c. }
  eff_inv H as row d8 E8; [by eapply Hins|]. apply Hins in E8. destruct row as [lot|]; [|by injection H as _ <-].
  eff_inv H as u d9 E9; [eapply same_ok; [by eapply vdb_touch_vault_law|done]|]. injection H as _ <-.
  eapply same_ok; [by eapply vdb_touch_vault_law|done].
Qed.

(** *** Redemptions *)

Lemma sublist_sum {A} (f : A -> Z) (P : A -> bool) l : Forall (fun x => 0 <= f x) l -> zsum (map f (List.filter P l)) <= zsum (map f l).
Proof.
  induction 1 as [|x l Hx _ IH]; [done|]. cbn [List.filter map]. destruct (P x); cbn [map]; rewrite ?zsum_cons; lia.
Qed.

Lemma lots_by_live id l : lots_by id l = List.filter (fun x => bool_decide (lr_depositorId x = id)) (List.filter live_lot l).
Proof. unfold lots_by. induction l as [|x l IH]; [done|]. cbn. destruct (live_lot x); cbn; rewrite ?andb_true_r, ?andb_false_r, IH; done. Qed.
Lemma requests_by_pending id l :
  requests_by id l = List.filter (fun x => bool_decide (rr_depositorId x = id)) (List.filter pending_request l).
Proof. unfold requests_by. induction l as [|x l IH]; [done|]. cbn. destruct (pending_request x); cbn; rewrite ?andb_true_r, ?andb_false_r, IH; done. Qed.

Lemma held_bounded d id : vault_ok d -> vault_bounded d -> held id d <= 10 ^ 18.
Proof.
  intros [H1 _ _] [Hb _]. unfold held. rewrite lots_by_live. etrans; [|exact Hb]. apply sublist_sum. eapply Forall_impl; [exact H1|].
  intros l (m & c & Hm & Hm0 & _). by rewrite (share_units_amount _ _ Hm).
Qed.

(** What the plan of a redemption guarantees about the tables it read. *)
Lemma plan_covered d id rows reqs a q at_ p : vault_ok d -> vault_bounded d -> rows ≡ₚ lots_by id (lots_of d) -> reqs ≡ₚ requests_by id (requests_of d) ->
  is_fin a q -> (0 < q)%Q -> (q <= inject_Z (10 ^ 10))%Q -> plan_redemption rows reqs a at_ = Ret p ->
  exists m, amount 8 (formatDecimal a) m /\ 0 <= m /\ pending id d + m <= held id d.
Proof.
  intros Hok Hb Pl Pr Fa H0 H1 Hp. destruct Hok as [L R C] eqn:EO. clear EO.
  assert (Hl : Forall lot_ok rows). { rewrite Pl, lots_by_live. apply List.Forall_forall. intros l [Hl _]%filter_In. by apply (proj1 (List.Forall_forall _ _) L). }
  assert (Hr : Forall request_ok reqs). { rewrite Pr, requests_by_pending. apply List.Forall_forall. intros r [Hr _]%filter_In. by apply (proj1 (List.Forall_forall _ _) R). }
  destruct (lots_amounts _ Hl) as (ms & cs & M1 & M2 & _ & _ & Em). destruct (requests_amounts _ Hr) as (qs & Q1 & Q2 & Eq).
  assert (Es : zsum ms = held id d) by (subst ms; unfold held; by rewrite (zsum_perm _ _ (Permutation_map' _ Pl))).
  assert (Er : zsum qs = pending id d) by (subst qs; unfold pending; by rewrite (zsum_perm _ _ (Permutation_map' _ Pr))).
  pose proof (held_bounded d id (Build_vault_ok _ L R C) Hb) as Hh.
  destruct (redeemed_within rows reqs ms qs a q at_ p M1 M2 ltac:(lia) Q1 Q2 ltac:(rewrite Es, Er; apply C) Fa ltac:(lra) H1 Hp) as (m & Hm & Hm0 & Hc).
  exists m. split_and!; [done|done|]. lia.
Qed.

Lemma redemption_keeps_ok input d r d' : within_cap (ri_requestedShares input) -> vault_ok d -> vault_bounded d ->
  requestVaultRedemption input d = (r, d') -> vault_ok d'.
Proof.
  intros Hcap Hok Hb H. unfold requestVaultRedemption in H.
  eff_inv H as at_ d1 E1; [eapply same_ok; [by eapply instant_same|done]|]. apply instant_same in E1.
  eff_inv H as a d2 E2; [injection E2 as _ <-; by eapply same_ok|]. injection E2 as E2 <-.
  eff_inv H as va d3 E3; [eapply same_ok; [etrans; [exact E1|by eapply ensure_vault_same]|done]|]. apply ensure_vault_same in E3.
  assert (S3 : same_tables d d3) by by etrans.
  eff_inv H as found d4 E4; [eapply same_ok; [etrans; [exact S3|by eapply vdb_depositor_by_wallet_law]|done]|].
  apply vdb_depositor_by_wallet_law in E4. assert (S4 : same_tables d d4) by by etrans.
  destruct found as [dep|]; [|injection H as _ <-; by eapply same_ok].
  eff_inv H as rows d5 E5; [eapply same_ok; [etrans; [exact S4|by eapply vdb_depositor_lots_law]|done]|].
  pose proof (vdb_depositor_lots_rows _ _ _ _ E5) as Pl. apply vdb_depositor_lots_law in E5. assert (S5 : same_tables d d5) by by etrans.
  eff_inv H as reqs d6 E6; [eapply same_ok; [etrans; [exact S5|by eapply vdb_depositor_requests_law]|done]|].
  pose proof (vdb_depositor_requests_rows _ _ _ _ E6) as Pr. apply vdb_depositor_requests_law in E6. assert (S6 : same_tables d d6) by by etrans.
  eff_inv H as s d7 E7; [eapply same_ok; [etrans; [exact S6|by eapply summary_same]|done]|]. apply summary_same in E7.
  assert (S7 : same_tables d d7) by by etrans.
  eff_inv H as plan d8 E8; [injection E8 as _ <-; by eapply same_ok|]. injection E8 as E8 <-.
  eff_inv H as price d9 E9; [injection E9 as _ <-; by eapply same_ok|]. injection E9 as _ <-.
  eff_inv H as now d10 E10; [eapply same_ok; [etrans; [exact S7|by eapply vdb_now_law]|done]|]. apply vdb_now_law in E10.
  assert (S10 : same_tables d d10) by by etrans. pose proof (same_ok _ _ S10 Hok) as Hok10.
  rewrite (proj1 S4) in Pl. rewrite (proj2 S5) in Pr. destruct (positive_amount_finite _ _ _ E2) as (Ea & q & Fa & Hq).
  destruct (plan_covered d (dr_id dep) _ _ _ _ _ _ Hok Hb Pl Pr Fa Hq (Hcap a q Ea Fa) E8) as (m & Hm & Hm0 & Hc).
  assert (Hins : forall r11 d11, vdb_insert_request (new_request va dep input a price plan at_ now) d10 = (r11, d11) -> vault_ok d11).
  { intros r11 d11 E11. apply vdb_insert_request_law in E11 as [El [Er|[id Er]]]; [eapply same_ok; [by split|exact Hok10]|].
    eapply add_request_ok; [exact Hok10|done|exact Er|exact Hm|done|]. cbn [rr_depositorId new_request].
    unfold pending, held in *. by rewrite (proj1 S10), (proj2 S10). }
  eff_inv H as row d11 E11; [by eapply Hins|]. apply Hins in E11. destruct row as [rq|]; [|by injection H as _ <-].
  eff_inv H as u d12 E12; [eapply same_ok; [by eapply vdb_touch_vault_law|done]|]. injection H as _ <-.
  eapply same_ok; [by eapply vdb_touch_vault_law|done].
Qed.

(** *** Histories *)

Inductive vault_op := Deposit (input : RecordVaultDepositInput) | Redeem (input : RequestVaultRedemptionInput).
Definition op_step (op : vault_op) (d : Vdb) : Vdb :=
  match op with Deposit i => (recordVaultDeposit i d).2 | Redeem i => (requestVaultRedemption i d).2 end.
Definition op_capped (op : vault_op) : Prop :=
  match op with Deposit i => within_cap (di_amountUsdc i) | Redeem i => within_cap (ri_requestedShares i) end.
Definition op_run (ops : list vault_op) (d : Vdb) : Vdb := fold_left (fun d op => op_step op d) ops d.
(** The vault stays within its bounds before every operation. *)
Fixpoint run_bounded (ops : list vault_op) (d : Vdb) : Prop :=
  match ops with [] => True | op :: ops' => vault_bounded d /\ run_bounded ops' (op_step op d) end.

(** C9. In every history of deposits and redemption requests, whether they
    succeed, are refused or fail anywhere in between, the amounts stay readable
    and no depositor's pending redemptions exceed the shares of the live lots:
    as long as the vault stays below ten billion shares and a hundred billion
    dollars, no single amount exceeds ten billion, and the persisted net asset
    value is a readable amount. *)
Theorem vault_always_covered (ops : list vault_op) (d : Vdb) : vault_ok d -> Forall op_capped ops -> run_bounded ops d -> vault_ok (op_run ops d).
Proof.
  revert d. induction ops as [|op ops IH]; intros d Hok Hc Hb; [done|]. apply Forall_cons_1 in Hc as [Hop Hc]. destruct Hb as [Hb Hr].
  cbn [op_run fold_left]. apply IH; [|done|done]. destruct op as [i|i]; cbn [op_step].
  - destruct (recordVaultDeposit i d) as [r d'] eqn:E. by eapply deposit_keeps_ok.
  - destruct (requestVaultRedemption i d) as [r d'] eqn:E. by eapply redemption_keeps_ok.
Qed.
End Covered.

(** ** A vault in memory *)

Record MemoryVault := MkMemoryVault {
  mv_clock : Z;
  mv_next : nat;
  mv_vault : option VaultRow;
  mv_depositors : list DepositorRow;
  mv_lots : list LotRow;
  mv_requests : list RequestRow;
}.
Definition with_vault (v : option VaultRow) (d : MemoryVault) : MemoryVault :=
  MkMemoryVault (mv_clock d) (mv_next d) v (mv_depositors d) (mv_lots d) (mv_requests d).
Definition with_depositors (l : list DepositorRow) (d : MemoryVault) : MemoryVault :=
  MkMemoryVault (mv_clock d) (S (mv_next d)) (mv_vault d) l (mv_lots d) (mv_requests d).
Definition fresh_id (d : MemoryVault) : string := "row-" +:+ String.concat "" (repeat "i" (mv_next d)).

Definition by_lock (a b : LotRow) : bool :=
  (lr_lockExpiresAt a <? lr_lockExpiresAt b)
  || ((lr_lockExpiresAt a =? lr_lockExpiresAt b) && (lr_depositedAt a <? lr_depositedAt b)).
Definition by_request (a b : RequestRow) : bool := rr_requestedAt a <? rr_requestedAt b.

Definition memory_vault (defaults : exn VaultRow) (profile : StrategyProfileView) (portfolio : option PortfolioSummaryView) : VaultDb := {|
  Vdb := MemoryVault;
  vdb_now := fun d => (Ret (mv_clock d), d);
  vdb_upsert_vault row upd := fun d =>
    let v := match mv_vault d with None => row | Some r => upd r end in (Ret (Some v), with_vault (Some v) d);
  vdb_vault := fun d => (Ret (mv_vault d), d);
  vdb_touch_vault id t := fun d => (Ret tt, with_vault ((fun r => stamped_vault (va_createdAt r) t r) <$> mv_vault d) d);
  vdb_all_depositors := fun d => (Ret (mv_depositors d), d);
  vdb_recent_depositors n := fun d => (Ret (firstn (Z.to_nat n) (mv_depositors d)), d);
  vdb_depositors_by_id ids := fun d => (Ret (List.filter (fun r => bool_decide (dr_id r ∈ ids)) (mv_depositors d)), d);
  vdb_depositor_by_wallet w := fun d => (Ret (find (fun r => String.eqb (dr_walletAddress r) w) (mv_depositors d)), d);
  vdb_insert_depositor mk := fun d =>
    let r := mk (fresh_id d) in (Ret (Some r), with_depositors (mv_depositors d ++ [r]) d);
  vdb_update_depositor id upd := fun d =>
    (Ret tt, with_depositors (map (fun r => if decide (dr_id r = id) then upd r else r) (mv_depositors d)) d);
  vdb_live_lots := fun d => (Ret (List.filter live_lot (mv_lots d)), d);
  vdb_depositor_lots id := fun d => (Ret (js_sort by_lock (lots_by id (mv_lots d))), d);
  vdb_recent_lots n := fun d => (Ret (firstn (Z.to_nat n) (mv_lots d)), d);
  vdb_insert_lot mk := fun d =>
    let r := mk (fresh_id d) in
    (Ret (Some r), MkMemoryVault (mv_clock d) (S (mv_next d)) (mv_vault d) (mv_depositors d) (mv_lots d ++ [r]) (mv_requests d));
  vdb_pending_requests := fun d => (Ret (List.filter pending_request (mv_requests d)), d);
  vdb_depositor_requests id := fun d => (Ret (js_sort by_request (requests_by id (mv_requests d))), d);
  vdb_recent_requests n := fun d => (Ret (firstn (Z.to_nat n) (mv_requests d)), d);
  vdb_insert_request mk := fun d =>
    let r := mk (fresh_id d) in
    (Ret (Some r), MkMemoryVault (mv_clock d) (S (mv_next d)) (mv_vault d) (mv_depositors d) (mv_lots d) (mv_requests d ++ [r]));
  getPortfolioSummary := fun d => (Ret portfolio, d);
  getCarryStrategyProfile := fun d => (Ret profile, d);
  buildDefaultVaultConfig := defaults;
|}.

Program Definition memory_vault_laws (defaults : exn VaultRow) (profile : StrategyProfileView) (portfolio : option PortfolioSummaryView) :
  VaultDbLaws (VD := memory_vault defaults profile portfolio) := {|
  lots_of := mv_lots;
  requests_of := mv_requests
|}.
Solve All Obligations with (unfold keeps; cbn; intros; simplify_eq; split; done).
Next Obligation. by intros defaults profile portfolio d l d' [= <- <-]. Qed.
Next Obligation. intros defaults profile portfolio id d l d' [= <- <-]. apply js_sort_perm. Qed.
Next Obligation. intros defaults profile portfolio id d l d' [= <- <-]. apply js_sort_perm. Qed.
Next Obligation.
  intros defaults profile portfolio mk d r d' [= <- <-]. split; [done|]. right. exists (fresh_id d). cbn. by rewrite Permutation_app_comm.
Qed.
Next Obligation.
  intros defaults profile portfolio mk d r d' [= <- <-]. split; [done|]. right. exists (fresh_id d). cbn. by rewrite Permutation_app_comm.
Qed.

(** *** Sample histories *)

Section Samples.
#[local] Existing Instances exact_decimal exact_decimal_laws.
Definition jan_31 : Z := 1706659200000.
Definition feb_10 : Z := 1707523200000.
Definition jan_1 : Z := 1704067200000.
#[local] Instance winter_dates : DateHost := {|
  date_parse s := if String.eqb s "2024-01-31" then Some jan_31
                  else if String.eqb s "2024-02-10" then Some feb_10
                  else if String.eqb s "2024-01-01" then Some jan_1 else None
|}.
Definition sample_config : VaultRow := {|
  va_id := "vault"; va_vaultName := "Vault"; va_strategyId := "carry"; va_strategyName := "Carry"; va_managerName := None;
  va_managerWalletAddress := None; va_baseAsset := "USDC"; va_baseAssetMint := None; va_baseAssetDecimals := None;
  va_lockPeriodMonths := 3; va_rolling := true; va_reassessmentCadenceMonths := 3; va_targetApyFloorPct := "10.00"; va_metadata := [];
  va_createdAt := 0; va_updatedAt := 0 |}.
Definition sample_portfolio : PortfolioSummaryView := MkPortfolioSummary "1000.00" "0" "0" "0" [].
Definition no_profile : StrategyProfileView := MkProfileView None None None [] [].
#[local] Instance sample_vault : VaultDb := memory_vault (Ret sample_config) no_profile (Some sample_portfolio).
#[local] Instance sample_vault_laws : VaultDbLaws := memory_vault_laws (Ret sample_config) no_profile (Some sample_portfolio).
Definition empty_vault : MemoryVault := MkMemoryVault feb_10 0 None [] [] [].
Definition deposit_of (wallet amount_ : string) (on : string) : vault_op := Deposit (MkDepositInput "inv" "Investor" wallet amount_ (Some on) None None).
Definition redeem_of (wallet shares : string) (on : string) : vault_op := Redeem (MkRedemptionInput wallet shares (Some on) None None).
Definition shares_after (ops : list vault_op) : list string :=
  map lr_mintedShares (mv_lots (op_run ops empty_vault)).
Definition requests_after (ops : list vault_op)
    : list (string * VaultRedemptionRequestStatus * option jsval) :=
  map (fun r => (rr_requestedShares r, rr_status r, jm_get "allocations" (rr_metadata r)))
    (mv_requests (op_run ops empty_vault)).

(** A deposit, a redemption, a second one that the shares do not cover. *)
Definition sample_history : list vault_op :=
  [deposit_of "w1" "1000" "2024-01-31"; redeem_of "w1" "400" "2024-02-10"; redeem_of "w1" "700" "2024-02-10"].

Example second_redemption_refused :
  requests_after sample_history =
  [("400.00000000", rq_pending_lock,
    Some (JArr [JObj [("lotId", JStr "row-i"); ("allocatedShares", JStr "400.00000000"); ("eligibleAt", JStr "2024-05-01T00:00:00.000Z")]]))].
Proof. vm_compute. reflexivity. Qed.

(** The price takes the net asset value of the last portfolio snapshot, which
    deposits do not change: the third of three equal deposits gets twice the
    shares of the others. *)
Example stale_price_mints_more :
  shares_after [deposit_of "w1" "1000" "2024-01-31"; deposit_of "w2" "1000" "2024-01-31";
                                          deposit_of "w3" "1000" "2024-01-31"] = ["1000.00000000"; "1000.00000000"; "2000.00000000"].
Proof. vm_compute. reflexivity. Qed.

(** A deposit dated before an earlier request changes the order in which the
    lots are reserved: both requests are recorded against all of the first lot,
    and neither against the second. *)
Definition lots_named (r : RequestRow) : list (option jsval) :=
  match jm_get "allocations" (rr_metadata r) with
  | Some (JArr l) => map (fun a => match a with JObj o => jm_get "lotId" o | _ => None end) l
  | _ => []
  end.
Example backdated_deposit_overlaps :
  let d := op_run [deposit_of "w1" "1000" "2024-01-31"; redeem_of "w1" "1000" "2024-02-10"; deposit_of "w1" "1000" "2024-01-01";
                   redeem_of "w1" "1000" "2024-02-10"] empty_vault in
  map (fun r => (lots_named r, rr_requestedShares r)) (mv_requests d) = [([Some (JStr "row-i")], "1000.00000000"); ([Some (JStr "row-i")], "1000.00000000")]
  /\ map (fun l => (lr_id l, lr_mintedShares l)) (mv_lots d) = [("row-i", "1000.00000000"); ("row-iiii", "1000.00000000")].
Proof. vm_compute. done. Qed.

(** A positive request below half of the last place is accepted and stored as zero. *)
Example dust_stored_as_zero :
  map rr_requestedShares (mv_requests (op_run [deposit_of "w1" "100" "2024-01-31"; redeem_of "w1" "0.000000001" "2024-02-10"] empty_vault))
  = ["0.00000000"].
Proof. vm_compute. reflexivity. Qed.

Lemma within_cap_units text x : amount 8 text x -> x <= 10 ^ 18 -> within_cap text.
Proof.
  intros (d & Ed & Sd) Hx a q Ea Fq. rewrite Ed in Ea. injection Ea as <-. unfold scaled, is_fin in *. rewrite Fq in Sd. cbn in Sd. rewrite Sd.
  unfold Qle. cbn. lia.
Qed.

Lemma amounts_sum {A} (f : A -> string) l cs ds : Forall2 (fun x c => amount 2 (f x) c) l cs -> Forall2 (fun x c => amount 2 (f x) c) l ds -> zsum cs = zsum ds.
Proof.
  intros H. revert ds. induction H as [|x c l cs (a & Ea & Sa) _ IH]; intros ds Hd; inversion Hd as [|? d ? ds0 (b & Eb & Sb) Hd0]; [done|]. subst.
  rewrite !zsum_cons, (IH ds0 Hd0). rewrite Ea in Eb. injection Eb as <-. by rewrite (scaled_inj 2 a c d ltac:(lia) Sa Sb).
Qed.

Lemma empty_ok : vault_ok empty_vault.
Proof. split; [constructor|constructor|by intros id]. Qed.

(** The bounds of a state whose lots are computed. *)
Lemma bounded_by (d : MemoryVault) (l : list LotRow) (cs : list Z) : List.filter live_lot (mv_lots d) = l ->
  zsum (map (fun l => share_units (lr_mintedShares l)) l) <= 10 ^ 18 -> Forall2 (fun l c => amount 2 (lr_depositedAmount l) c) l cs ->
  zsum cs <= 10 ^ 13 -> vault_bounded d.
Proof.
  intros El Hs Hc Hb. split; cbn -[Z.pow]; rewrite El; [done|]. intros ds Hd. by rewrite (amounts_sum lr_depositedAmount _ _ _ Hd Hc).
Qed.

Lemma sample_bounded : run_bounded sample_history empty_vault.
Proof.
  split; [by apply (bounded_by _ [] [])|]. assert (H : exists l, List.filter live_lot (mv_lots (op_step (deposit_of "w1" "1000" "2024-01-31") empty_vault)) = [l]
    /\ lr_mintedShares l = "1000.00000000" /\ lr_depositedAmount l = "1000.00").
  { eexists. split_and!; [vm_compute; reflexivity|reflexivity|reflexivity]. }
  destruct H as (l & E & Em & Ea). set (d1 := op_step _ _) in *. assert (H1 : forall d, mv_lots d = mv_lots d1 -> vault_bounded d).
  { intros d Ed. apply (bounded_by d [l] [100000]); [by rewrite Ed| | |done].
    - cbn [map]. rewrite Em. vm_compute. discriminate.
    - constructor; [rewrite Ea; by apply units_in_parses|done]. }
  split; [by apply H1|]. split; [|done]. apply H1. vm_compute. reflexivity.
Qed.

Lemma sample_portfolio_readable : exists dn q, dec_of_string (sv_totalNav sample_portfolio) = Ret dn /\ is_fin dn q /\ (0 <= q)%Q
  /\ (q <= inject_Z (10 ^ 11))%Q.
Proof.
  assert (A : amount 2 (sv_totalNav sample_portfolio) 100000) by (apply units_in_parses; reflexivity). destruct A as (dn & Ed & Sd).
  exists dn, (100000 # Z.to_pos (10 ^ 2)). split_and!; [exact Ed|exact Sd|discriminate|discriminate].
Qed.

Lemma vault_always_covered_witness : vault_ok empty_vault /\ vault_ok (op_run sample_history empty_vault).
Proof.
  split; [apply empty_ok|]. apply vault_always_covered.
  - intros d p d' H. injection H as <- _. apply sample_portfolio_readable.
  - apply empty_ok.
  - constructor; [|constructor; [|constructor; [|constructor]]]; unfold op_capped, deposit_of, redeem_of; cbn [di_amountUsdc ri_requestedShares].
    + apply (within_cap_units _ 100000000000); [apply units_in_parses; reflexivity|lia].
    + apply (within_cap_units _ 40000000000); [apply units_in_parses; reflexivity|lia].
    + apply (within_cap_units _ 70000000000); [apply units_in_parses; reflexivity|lia].
  - apply sample_bounded.
Defined.
End Samples.
