(* ===== verification/RuntimeOrders.v ===== *)
(** * Runtime orders (packages/runtime: store.ts and runtime.ts, packages/db: orders.ts)

    [RuntimeOrderStore], the order store of the running system, over the tables
    of orders and fills, with [persistFill] of the runtime store and
    [persistExecutionRecord] of the runtime, which follow every submission of the
    executor.  The statements of the query builder are the class [OrderDb].  The
    file shows what a saved order reads back as, that the store does not meet the
    contract [OrderStoreLaws] the executor relies on, and what a submission leaves
    in the table of fills.  Text columns that only ever hold the constants of a
    union type have that type, and a metadata column returns the object it got. *)
From S2P Require Import Prelude JsNumber JsValue JsText Domain MarketIdentity OrderStore Executor.
Open Scope Z_scope.

(** ** Rows *)

(** The row of [orders], keyed by [clientOrderId]. *)
Record OrdersRow := MkOrdersRow {
  ord_id : string;
  ord_clientOrderId : string;
  ord_strategyRunId : option string;
  ord_sleeveId : string;
  ord_opportunityId : string;
  ord_venueId : string;
  ord_venueOrderId : option string;
  ord_asset : string;
  ord_side : OrderSide;
  ord_orderType : OrderType;
  ord_executionMode : string;
  ord_reduceOnly : bool;
  ord_requestedSize : string;
  ord_requestedPrice : option string;
  ord_filledSize : string;
  ord_averageFillPrice : option string;
  ord_status : OrderStatus;
  ord_attemptCount : Z;
  ord_lastError : option string;
  ord_metadata : record_;
  ord_submittedAt : option Z;
  ord_completedAt : option Z;
  ord_createdAt : Z;
  ord_updatedAt : Z;
}.
Record FillsRow := MkFillsRow {
  fil_id : string;
  fil_orderId : string;
  fil_clientOrderId : string;
  fil_venueOrderId : string;
  fil_fillId : option string;
  fil_size : string;
  fil_price : string;
  fil_fee : string;
  fil_side : OrderSide;
  fil_feeAsset : option string;
  fil_filledAt : Z;
  fil_metadata : record_;
}.

(** ** The database *)

Class OrderDb := {
  Odb : Type;
  odb_now : eff Odb Z;
  (** [insert(orders).values(...).onConflictDoUpdate(...)]: the row to insert,
      given the generated id and creation time, or the update of the row there *)
  odb_upsert_order : (string -> Z -> OrdersRow) -> (OrdersRow -> OrdersRow) -> eff Odb unit;
  odb_order : string -> eff Odb (option OrdersRow);
  (** the fills of a client order id, the latest first *)
  odb_fills : string -> eff Odb (list FillsRow);
  odb_ids_by_status : OrderStatus -> eff Odb (list string);
  (** [insert(fills).values(...).onConflictDoNothing(...)], given the generated id *)
  odb_insert_fill : (string -> FillsRow) -> eff Odb unit;
}.

(** The documented behaviour of the statements; each of them may fail, and then
    changes nothing. *)
Class OrderDbLaws `{OD : OrderDb} := {
  order_of : Odb -> string -> option OrdersRow;
  fills_of : Odb -> string -> list FillsRow;
  same_orders (d d' : Odb) : Prop := (forall id, order_of d' id = order_of d id) /\ (forall id, fills_of d' id ≡ₚ fills_of d id);
  order_key : forall d id row, order_of d id = Some row -> ord_clientOrderId row = id;
  odb_now_law : keeps same_orders odb_now;
  odb_order_law : forall id d r d', odb_order id d = (r, d') -> same_orders d d' /\ forall o, r = Ret o -> o = order_of d id;
  odb_fills_law : forall id d r d', odb_fills id d = (r, d') -> same_orders d d' /\ forall l, r = Ret l -> l ≡ₚ fills_of d id;
  odb_ids_law : forall st d r d', odb_ids_by_status st d = (r, d') -> same_orders d d' /\
    forall l, r = Ret l -> forall id, id ∈ l <-> exists row, order_of d id = Some row /\ ord_status row = st;
  odb_upsert_law : forall mk upd k d r d', (forall id t, ord_clientOrderId (mk id t) = k) ->
    (forall row, ord_clientOrderId row = k -> ord_clientOrderId (upd row) = k) -> odb_upsert_order mk upd d = (r, d') ->
    (forall id, fills_of d' id ≡ₚ fills_of d id) /\
    ((exists e, r = Throw e /\ forall id, order_of d' id = order_of d id) \/
     (r = Ret tt /\ exists gid t, forall id, order_of d' id =
       if decide (id = k) then Some (match order_of d k with Some row => upd row | None => mk gid t end) else order_of d id));
  odb_insert_fill_law : forall mk k d r d', (forall id, fil_clientOrderId (mk id) = k) -> odb_insert_fill mk d = (r, d') ->
    (forall id, order_of d' id = order_of d id) /\
    ((exists e, r = Throw e /\ forall id, fills_of d' id ≡ₚ fills_of d id) \/
     (r = Ret tt /\ exists gid, forall id, fills_of d' id ≡ₚ (if decide (id = k) then mk gid :: fills_of d k else fills_of d id)));
}.

(** ** RuntimeOrderStore *)

Definition extractSleeveId (intent : OrderIntent) : exn string :=
  match rec_get (oi_metadata intent) "sleeveId" with
  | JStr s => if bool_decide (s = "") then Throw (Error_ ("Order intent " +:+ quoted (oi_intentId intent) +:+ " is missing metadata.sleeveId"))
              else Ret s
  | _ => Throw (Error_ ("Order intent " +:+ quoted (oi_intentId intent) +:+ " is missing metadata.sleeveId"))
  end.

(** [persistedMarketIdentity]: the one of the metadata, or a derived one. *)
Definition saved_identity (intent : OrderIntent) : CanonicalMarketIdentity :=
  or_else
    (readCanonicalMarketIdentityFromMetadata (oi_metadata intent) {|
       md_venueId := Some (oi_venueId intent);
       md_asset := Some (oi_asset intent);
       md_marketType := rec_get (oi_metadata intent) "instrumentType";
       md_provenance := Some derived;
       md_capturedAtStage := runtime_order;
       md_source := "runtime_order_store_save";
       md_notes := Some ["Runtime orders persist the best available market identity from intent creation or execution-time promotion."] |})
    (createCanonicalMarketIdentity {|
       ii_venueId := Some (oi_venueId intent);
       ii_asset := Some (oi_asset intent);
       ii_marketType := rec_get (oi_metadata intent) "instrumentType";
       ii_marketIndex := JUndefined; ii_marketKey := None; ii_marketSymbol := None; ii_marketName := None;
       ii_aliases := None;
       ii_provenance := Some derived;
       ii_capturedAtStage := runtime_order;
       ii_source := "runtime_order_store_save";
       ii_notes := Some ["Runtime orders derived market identity from asset and instrument type because no richer metadata was present."] |}).
Definition saved_metadata (intent : OrderIntent) : record_ :=
  attachCanonicalMarketIdentityToMetadata (oi_metadata intent) (Some (saved_identity intent)).

Definition text_or (v : jsval) (default : string) : string := match v with JStr s => s | _ => default end.

(** The values that [save] writes, on insert and on conflict alike. *)
Definition order_values (record : OrderRecord) (sleeveId : string) (gid : string) (createdAt now : Z) : OrdersRow :=
  let intent := or_intent record in
  let metadata := saved_metadata intent in {|
  ord_id := gid; ord_clientOrderId := oi_intentId intent;
  ord_strategyRunId := match rec_get metadata "runId" with JStr s => Some s | _ => None end;
  ord_sleeveId := sleeveId; ord_opportunityId := oi_opportunityId intent; ord_venueId := oi_venueId intent;
  ord_venueOrderId := or_venueOrderId record; ord_asset := oi_asset intent; ord_side := oi_side intent; ord_orderType := oi_type intent;
  ord_executionMode := text_or (rec_get metadata "executionMode") "dry-run"; ord_reduceOnly := oi_reduceOnly intent;
  ord_requestedSize := oi_size intent; ord_requestedPrice := oi_limitPrice intent; ord_filledSize := or_filledSize record;
  ord_averageFillPrice := or_averageFillPrice record; ord_status := or_status record; ord_attemptCount := or_attemptCount record;
  ord_lastError := or_lastError record; ord_metadata := metadata; ord_submittedAt := or_submittedAt record;
  ord_completedAt := or_completedAt record; ord_createdAt := createdAt; ord_updatedAt := now |}.

(** The record a row and its fills are read as. *)
Definition read_fill (row : OrdersRow) (f : FillsRow) : OrderFill := {|
  of_fillId := or_else (fil_fillId f) (fil_id f); of_orderId := ord_clientOrderId row; of_filledSize := fil_size f;
  of_fillPrice := fil_price f; of_fee := fil_fee f; of_feeAsset := or_else (fil_feeAsset f) (ord_asset row); of_filledAt := fil_filledAt f |}.
Definition read_order (row : OrdersRow) (fillRows : list FillsRow) : OrderRecord := {|
  or_intent := {|
    oi_intentId := ord_clientOrderId row; oi_venueId := ord_venueId row; oi_asset := ord_asset row; oi_side := ord_side row;
    oi_type := ord_orderType row; oi_size := ord_requestedSize row; oi_limitPrice := ord_requestedPrice row;
    oi_opportunityId := ord_opportunityId row; oi_reduceOnly := ord_reduceOnly row; oi_createdAt := ord_createdAt row;
    oi_metadata := ord_metadata row |};
  or_status := ord_status row; or_venueOrderId := ord_venueOrderId row; or_filledSize := ord_filledSize row;
  or_averageFillPrice := ord_averageFillPrice row; or_feesPaid := fil_fee <$> head fillRows; or_fills := map (read_fill row) fillRows;
  or_submittedAt := ord_submittedAt row; or_completedAt := ord_completedAt row; or_lastError := ord_lastError row;
  or_attemptCount := ord_attemptCount row |}.

Section RuntimeOrderStore.
Context `{OD : OrderDb}.

Definition rt_save (record : OrderRecord) : eff Odb unit :=
  sleeveId ← lift_exn (extractSleeveId (or_intent record));
  now ← odb_now;
  odb_upsert_order (fun gid createdAt => order_values record sleeveId gid createdAt now)
    (fun row => order_values record sleeveId (ord_id row) (ord_createdAt row) now).

Definition rt_getByClientId (clientOrderId : string) : eff Odb (option OrderRecord) :=
  row ← odb_order clientOrderId;
  match row with
  | None => mret None
  | Some r => fillRows ← odb_fills clientOrderId; mret (Some (read_order r fillRows))
  end.

Definition rt_updateStatus (clientOrderId : string) (status : OrderStatus) (updates : OrderUpdate) : eff Odb unit :=
  existing ← rt_getByClientId clientOrderId;
  match existing with
  | None => throw_eff (Error_ ("RuntimeOrderStore.updateStatus: unknown order " +:+ quoted clientOrderId))
  | Some record => rt_save (merge_record record status updates)
  end.

Definition rt_listByStatus (status : OrderStatus) : eff Odb (list OrderRecord) :=
  ids ← odb_ids_by_status status;
  fold_eff (fun result id =>
    record ← rt_getByClientId id;
    mret (match record with Some r => result ++ [r] | None => result end)) [] ids.

#[export] Instance runtime_order_store : OrderStore Odb := {|
  os_save := rt_save; os_getByClientId := rt_getByClientId; os_updateStatus := rt_updateStatus; os_listByStatus := rt_listByStatus |}.

(** ** Fills *)

Definition fill_metadata (row : OrdersRow) (fill_ : OrderFill) : record_ :=
  attachCanonicalMarketIdentityToMetadata
    [("fillId", JStr (of_fillId fill_)); ("orderId", JStr (of_orderId fill_)); ("filledSize", JStr (of_filledSize fill_));
     ("fillPrice", JStr (of_fillPrice fill_)); ("fee", JStr (of_fee fill_)); ("feeAsset", JStr (of_feeAsset fill_));
     ("filledAt", JStr (toISOString (of_filledAt fill_)))]
    (readCanonicalMarketIdentityFromMetadata (ord_metadata row) {|
       md_venueId := Some (ord_venueId row); md_asset := Some (ord_asset row);
       md_marketType := rec_get (ord_metadata row) "instrumentType"; md_provenance := Some derived; md_capturedAtStage := fill;
       md_source := "runtime_fill_persistence";
       md_notes := Some ["Persisted fills inherit market identity from their source runtime orders."] |}).
Definition new_fill_row (row : OrdersRow) (venueOrderId : string) (fill_ : OrderFill) (gid : string) : FillsRow := {|
  fil_id := gid; fil_orderId := ord_id row; fil_clientOrderId := ord_clientOrderId row; fil_venueOrderId := venueOrderId;
  fil_fillId := Some (of_fillId fill_); fil_size := of_filledSize fill_; fil_price := of_fillPrice fill_; fil_fee := of_fee fill_;
  fil_side := ord_side row; fil_feeAsset := Some (of_feeAsset fill_); fil_filledAt := of_filledAt fill_;
  fil_metadata := fill_metadata row fill_ |}.

Definition persistFill (orderId : string) (fill_ : OrderFill) : eff Odb unit :=
  row ← odb_order orderId;
  match row with
  | None => mret tt
  | Some r =>
      match ord_venueOrderId r with
      | None => mret tt
      | Some venueOrderId => odb_insert_fill (new_fill_row r venueOrderId fill_)
      end
  end.

(** The fill that [persistExecutionRecord] makes of a record; the execution
    event it records first goes to a table of its own, written by [event]. *)
Definition execution_fill (record : OrderRecord) (now : Z) : OrderFill := {|
  of_fillId := oi_intentId (or_intent record) +:+ "-fill-1"; of_orderId := oi_intentId (or_intent record);
  of_filledSize := or_filledSize record; of_fillPrice := or_else (or_averageFillPrice record) "";
  of_fee := or_else (or_feesPaid record) "0"; of_feeAsset := oi_asset (or_intent record);
  of_filledAt := or_else (or_completedAt record) (or_else (or_submittedAt record) now) |}.
Definition persistExecutionRecord (event : OrderRecord -> eff Odb unit) (record : OrderRecord) : eff Odb unit :=
  _ ← event record;
  if bool_decide (or_averageFillPrice record = None) || bool_decide (or_filledSize record = "0") then mret tt
  else now ← odb_now; persistFill (oi_intentId (or_intent record)) (execution_fill record now).

(** One approved intent of a cycle: no retries, then the record of what happened. *)
Definition cycle_executor : ExecutorConfig := {| maxRetries := 0; retryDelayMs := 0; orderTimeoutMs := 1000 |}.
Definition execute_approved {W : Type} `{EE : ExecutionEnv W} (event : OrderRecord -> eff Odb unit) (intent : OrderIntent)
    : eff (Odb * W) unit :=
  record ← submitIntent cycle_executor intent;
  on_store (persistExecutionRecord event record).
End RuntimeOrderStore.

(** ** What a saved order reads back as *)

Lemma jm_set_id {K V} `{EqDecision K} (k : K) (v : V) m : jm_get k m = Some v -> jm_set k v m = m.
Proof.
  induction m as [|[k' v'] m IH]; [done|]. cbn. destruct (decide (k = k')) as [->|]; [by intros [= ->]|]. intros H. by rewrite IH.
Qed.

Lemma set_some_id key v cond r : (cond = true -> jm_get key r = Some v) -> set_some key v cond r = r.
Proof. unfold set_some. destruct cond; [|done]. intros H. by apply jm_set_id, H. Qed.
Lemma jm_get_set_some k k' v b r : k <> k' -> jm_get k (set_some k' v b r) = jm_get k r.
Proof. intros Hne. unfold set_some. destruct b; [by apply jm_get_set_ne|done]. Qed.
Lemma jm_get_set_some_eq k v b r : b = true -> jm_get k (set_some k v b r) = Some v.
Proof. intros ->. apply jm_get_set_eq. Qed.

Lemma attach_again md i : attachCanonicalMarketIdentityToMetadata (attachCanonicalMarketIdentityToMetadata md (Some i)) (Some i)
  = attachCanonicalMarketIdentityToMetadata md (Some i).
Proof.
  set (m := attachCanonicalMarketIdentityToMetadata md (Some i)).
  assert (H0 : jm_get MARKET_IDENTITY_METADATA_KEY m = Some (JObj (identity_record i))).
  { unfold m, attachCanonicalMarketIdentityToMetadata. rewrite !jm_get_set_some by done. apply jm_get_set_eq. }
  assert (H1 : bool_decide (is_Some (mi_marketIndex i)) = true -> jm_get "marketIndex" m = Some (JNumOpt (mi_marketIndex i))).
  { intros H. unfold m, attachCanonicalMarketIdentityToMetadata. rewrite 4!jm_get_set_some by done. by apply jm_get_set_some_eq. }
  assert (H2 : bool_decide (is_Some (mi_marketKey i)) = true -> jm_get "marketKey" m = Some (JStrNull (mi_marketKey i))).
  { intros H. unfold m, attachCanonicalMarketIdentityToMetadata. rewrite 3!jm_get_set_some by done. by apply jm_get_set_some_eq. }
  assert (H3 : bool_decide (is_Some (mi_marketSymbol i)) = true -> jm_get "marketSymbol" m = Some (JStrNull (mi_marketSymbol i))).
  { intros H. unfold m, attachCanonicalMarketIdentityToMetadata. rewrite 2!jm_get_set_some by done. by apply jm_get_set_some_eq. }
  assert (H4 : bool_decide (is_Some (mi_marketName i)) = true -> jm_get "marketName" m = Some (JStrNull (mi_marketName i))).
  { intros H. unfold m, attachCanonicalMarketIdentityToMetadata. rewrite jm_get_set_some by done. by apply jm_get_set_some_eq. }
  assert (H5 : negb (is_unknown (mi_marketType i)) = true -> jm_get "marketType" m = Some (JStr (market_type_str (mi_marketType i)))).
  { intros H. unfold m, attachCanonicalMarketIdentityToMetadata. by apply jm_get_set_some_eq. }
  clearbody m. unfold attachCanonicalMarketIdentityToMetadata. rewrite (jm_set_id _ _ _ H0). by rewrite (set_some_id _ _ _ _ H1), (set_some_id _ _ _ _ H2), (set_some_id _ _ _ _ H3), (set_some_id _ _ _ _ H4), (set_some_id _ _ _ _ H5).
Qed.

(** The market index of the identity, if any, is a finite integer. *)
Definition index_integral (intent : OrderIntent) : Prop :=
  forall n, mi_marketIndex (saved_identity intent) = Some n -> n_isFinite n = true /\ n_trunc n = n.

Lemma created_fields input : let i := createCanonicalMarketIdentity input in
  mi_venueId i = opt_string (ii_venueId input) /\ mi_asset i = opt_string (ii_asset input) /\ mi_source i = ii_source input.
Proof. unfold createCanonicalMarketIdentity. by destruct (normalizeConfidence _ _ _ _ _ _) as [[c k] t]. Qed.

Lemma opt_string_default o d : opt_string (opt_or (stringValue o) d) = None -> opt_string d = None.
Proof.
  destruct o as [| | | |s| | |]; cbn [stringValue opt_or]; try done. destruct (nonempty_trim s) as [t|] eqn:E; cbn [opt_or]; [|done].
  rewrite clean_opt_string; [done|]. intros u [= <-]. by apply (nonempty_trim_clean s).
Qed.

Lemma source_clean o (d : string) : trimmed d -> d <> "" -> trimmed (or_else (stringValue o) d) /\ or_else (stringValue o) d <> "".
Proof.
  intros Hd Hn. destruct o as [| | | |s| | |]; cbn [stringValue or_else]; try done. destruct (nonempty_trim s) as [t|] eqn:E; [|done].
  by apply (nonempty_trim_clean s).
Qed.

(** The identity is built from a source and from the venue and asset of the
    intent or better ones. *)
Lemma saved_identity_created intent : exists input, saved_identity intent = createCanonicalMarketIdentity input
  /\ trimmed (ii_source input) /\ ii_source input <> ""
  /\ (opt_string (ii_venueId input) = None -> opt_string (Some (oi_venueId intent)) = None)
  /\ (opt_string (ii_asset input) = None -> opt_string (Some (oi_asset intent)) = None).
Proof.
  unfold saved_identity, readCanonicalMarketIdentityFromMetadata. assert (Ht : trimmed "runtime_order_store_save") by done.
  destruct (asRecord (rec_get (oi_metadata intent) MARKET_IDENTITY_METADATA_KEY)) as [st|]; cbn [or_else].
  { destruct (source_clean (rec_get st "source") "runtime_order_store_save") as [S1 S2]; [done|done|].
    eexists. split; [reflexivity|]. split_and!; [exact S1|exact S2|apply opt_string_default|apply opt_string_default]. }
  destruct (metadataInteger _ _) as [?|], (metadataString _ MARKET_KEY_METADATA_KEYS) as [?|], (metadataString _ MARKET_SYMBOL_METADATA_KEYS) as [?|];
    (eexists; split; [reflexivity|]; split_and!; [exact Ht|done|done|done]).
Qed.

(** Saving again what was saved finds the same identity. *)
Lemma saved_identity_again intent j : index_integral intent ->
  oi_venueId j = oi_venueId intent -> oi_asset j = oi_asset intent -> oi_metadata j = saved_metadata intent ->
  saved_identity j = saved_identity intent.
Proof.
  intros Hi Ev Ea Em. unfold saved_identity at 1. rewrite Ev, Ea, Em. unfold saved_metadata, index_integral in *.
  destruct (saved_identity_created intent) as (input & E & S1 & S2 & S3 & S4). rewrite E in *.
  destruct (created_fields input) as (C1 & C2 & C3).
  rewrite identity_metadata_roundtrip; [done|exact Hi|by rewrite C3|by rewrite C3|rewrite C1; exact S3|rewrite C2; exact S4].
Qed.

Section Orders.
Context `{OL : OrderDbLaws}.

#[local] Instance same_orders_preorder : PreOrder same_orders.
Proof. split; [by split|]. intros a b c [H1 H2] [H3 H4]. split; intros id; [by rewrite H3|by rewrite H4]. Qed.

Lemma save_law record d r d' : rt_save record d = (r, d') ->
  let id := oi_intentId (or_intent record) in
  (forall k, fills_of d' k ≡ₚ fills_of d k) /\
  ((exists e, r = Throw e /\ forall k, order_of d' k = order_of d k) \/
   (r = Ret tt /\ exists s gid c t, (forall k, order_of d' k = if decide (k = id) then Some (order_values record s gid c t) else order_of d k)
      /\ extractSleeveId (or_intent record) = Ret s
      /\ forall row, order_of d id = Some row -> c = ord_createdAt row /\ gid = ord_id row)).
Proof.
  intros H id. unfold rt_save in H. eff_inv H as s d1 E1; [injection E1 as E1 <-; subst r; split; [done|left; by eexists]|].
  injection E1 as E1 <-. eff_inv H as t d2 E2.
  { apply odb_now_law in E2 as [S1 S2]. subst r. split; [done|left; by eexists]. }
  apply odb_now_law in E2 as [S1 S2].
  pose proof (fun h1 h2 => odb_upsert_law _ _ id _ _ _ h1 h2 H) as HU.
  destruct (HU (fun _ _ => eq_refl) (fun _ _ => eq_refl)) as [F [(e & -> & O)|(-> & gid & c & O)]].
  - split; [intros k; by rewrite F|]. left. exists e. split; [done|]. intros k. by rewrite O, S1.
  - split; [intros k; by rewrite F|]. right. split; [done|]. rewrite S1 in O. destruct (order_of d id) as [row|] eqn:Er.
    + exists s, (ord_id row), (ord_createdAt row), t. split_and!; [intros k; by rewrite O, S1|done|by intros row' [= <-]].
    + exists s, gid, c, t. split_and!; [intros k; by rewrite O, S1|done|done].
Qed.

Lemma get_law id d r d' : rt_getByClientId id d = (r, d') ->
  same_orders d d' /\ forall o, r = Ret o -> match order_of d id with
    | None => o = None
    | Some row => exists fl, fl ≡ₚ fills_of d id /\ o = Some (read_order row fl)
    end.
Proof.
  unfold rt_getByClientId. intros H. eff_inv H as row d1 E1; [apply odb_order_law in E1 as [S _]; subst r; split; [done|by intros ?]|].
  apply odb_order_law in E1 as [S1 E1]. specialize (E1 _ eq_refl). destruct row as [row|]; [|injection H as <- <-; rewrite <- E1; split; [done|by intros o [= <-]]].
  rewrite <- E1. eff_inv H as fl d2 E2; [apply odb_fills_law in E2 as [S2 _]; subst r; split; [by etrans|by intros ?]|].
  apply odb_fills_law in E2 as [S2 E2]. specialize (E2 _ eq_refl). injection H as <- <-. split; [by etrans|]. intros o [= <-]. exists fl.
  split; [by rewrite E2, (proj2 S1)|done].
Qed.

(** The record with what the table does not keep replaced by what it has. *)
Definition read_back (record : OrderRecord) (createdAt : Z) (fillRows : list FillsRow) : OrderRecord :=
  let i := or_intent record in {|
  or_intent := MkOrderIntent (oi_intentId i) (oi_venueId i) (oi_asset i) (oi_side i) (oi_type i) (oi_size i) (oi_limitPrice i)
                 (oi_opportunityId i) (oi_reduceOnly i) createdAt (saved_metadata i);
  or_status := or_status record; or_venueOrderId := or_venueOrderId record; or_filledSize := or_filledSize record;
  or_averageFillPrice := or_averageFillPrice record; or_feesPaid := fil_fee <$> head fillRows;
  or_fills := map (fun f => MkOrderFill (or_else (fil_fillId f) (fil_id f)) (oi_intentId i) (fil_size f) (fil_price f) (fil_fee f)
                              (or_else (fil_feeAsset f) (oi_asset i)) (fil_filledAt f)) fillRows;
  or_submittedAt := or_submittedAt record; or_completedAt := or_completedAt record; or_lastError := or_lastError record;
  or_attemptCount := or_attemptCount record |}.
Definition touched_order (t : Z) (row : OrdersRow) : OrdersRow :=
  MkOrdersRow (ord_id row) (ord_clientOrderId row) (ord_strategyRunId row) (ord_sleeveId row) (ord_opportunityId row) (ord_venueId row)
    (ord_venueOrderId row) (ord_asset row) (ord_side row) (ord_orderType row) (ord_executionMode row) (ord_reduceOnly row)
    (ord_requestedSize row) (ord_requestedPrice row) (ord_filledSize row) (ord_averageFillPrice row) (ord_status row)
    (ord_attemptCount row) (ord_lastError row) (ord_metadata row) (ord_submittedAt row) (ord_completedAt row) (ord_createdAt row) t.

Lemma saved_metadata_again record c fl : index_integral (or_intent record) ->
  saved_metadata (or_intent (read_back record c fl)) = saved_metadata (or_intent record).
Proof.
  intros Hi. unfold saved_metadata at 1. rewrite (saved_identity_again (or_intent record)) by done. cbn [or_intent read_back oi_metadata].
  apply attach_again.
Qed.

Lemma values_again record s g c t fl s' t' : index_integral (or_intent record) -> s' = s ->
  order_values (read_back record c fl) s' g c t' = touched_order t' (order_values record s g c t).
Proof. intros Hi ->. unfold order_values. rewrite saved_metadata_again by done. done. Qed.

Lemma sleeve_saved intent s j : extractSleeveId intent = Ret s -> oi_metadata j = saved_metadata intent -> extractSleeveId j = Ret s.
Proof.
  unfold extractSleeveId. intros H ->. unfold saved_metadata, attachCanonicalMarketIdentityToMetadata.
  rewrite !rec_get_set_some by done. rewrite (rec_get_jm (jm_set _ _ _)), jm_get_set_ne, <- rec_get_jm by done.
  destruct (rec_get (oi_metadata intent) "sleeveId"); try done. case_bool_decide; [done|exact H].
Qed.

(** C19. What the order table keeps.  A saved order reads back as the record that was
    saved, except for four things: its metadata carry the market identity, its
    intent has the creation time of the row, which later saves keep, and its fills
    and the fees paid are those of the table of fills.  And what was read is a
    fixed point: saving it again changes nothing in the row but the update time. *)
Theorem saved_order_reads_back (record : OrderRecord) (d d1 d2 : Odb) (o : option OrderRecord) :
  let id := oi_intentId (or_intent record) in
  rt_save record d = (Ret tt, d1) -> rt_getByClientId id d1 = (Ret o, d2) ->
  exists c fl, fl ≡ₚ fills_of d id /\ o = Some (read_back record c fl) /\ (forall row, order_of d id = Some row -> c = ord_createdAt row) /\
    forall d3, index_integral (or_intent record) -> rt_save (read_back record c fl) d2 = (Ret tt, d3) ->
      exists t row, order_of d1 id = Some row /\ order_of d3 id = Some (touched_order t row).
Proof.
  intros id H1 H2. apply save_law in H1 as [F1 [(e & ? & _)|(_ & s & g & c & t & O1 & Es & Hc)]]; [done|].
  apply get_law in H2 as [S2 H2]. specialize (H2 _ eq_refl). fold id in O1, Hc. rewrite O1, decide_True in H2 by done.
  destruct H2 as (fl & Pf & ->). exists c, fl. split_and!; [by rewrite Pf, F1|done|intros row Hr; by apply Hc|].
  intros d3 Hi H3. apply save_law in H3 as [_ [(e & ? & _)|(_ & s' & g' & c' & t' & O3 & Es' & Hc')]]; [done|].
  cbn [or_intent read_back oi_intentId] in O3, Hc'. fold id in O3, Hc'. rewrite (sleeve_saved _ _ _ Es) in Es' by done. injection Es' as <-.
  destruct (Hc' (order_values record s g c t)) as [-> ->]; [rewrite (proj1 S2), O1; by rewrite decide_True|].
  exists t', (order_values record s g c t). rewrite O1, O3, !decide_True by done. split; [done|]. f_equal. by apply values_again.
Qed.

(** ** The contract of order stores *)

(** The order store of the running system does not meet the contract the
    executor relies on: in a database with an order in a final status that an
    update to a status outside the life cycle does not fail on, no laws of an
    order store hold, because [updateStatus] never asks whether the transition is
    valid. *)
Theorem runtime_store_breaks_contract (d d' d'' : Odb) (id : string) (row : OrdersRow) (o : option OrderRecord) (status : OrderStatus) :
  order_of d id = Some row -> isValidStatusTransition (ord_status row) status = false ->
  rt_getByClientId id d = (Ret o, d') -> rt_updateStatus id status no_update d = (Ret tt, d'') -> ~ inhabited (OrderStoreLaws Odb).
Proof.
  intros Hr Hv Hg Hu [L]. pose proof (os_get_spec id d) as Eg. change (rt_getByClientId id d = (Ret (os_lookup id d), d)) in Eg.
  apply get_law in Eg as [_ Eg]. specialize (Eg _ eq_refl). rewrite Hr in Eg. destruct Eg as (fl & _ & Eo).
  pose proof (os_update_spec id status no_update d) as Hs. rewrite Eo in Hs. cbn [or_status read_order] in Hs. rewrite Hv in Hs.
  destruct Hs as (e & Hs). change (rt_updateStatus id status no_update d = (Throw e, d)) in Hs. congruence.
Qed.

(** ** What a submission leaves in the table of fills *)

Section Submission.
Context {W : Type} `{EE : ExecutionEnv W}.

(** The fills of [id] stay as they are. *)
Definition fills_kept (id : string) (sw sw' : Odb * W) : Prop := fills_of sw'.1 id ≡ₚ fills_of sw.1 id.
#[local] Instance fills_kept_preorder id : PreOrder (fills_kept id).
Proof. unfold fills_kept. split; [intros a; reflexivity|]. intros a b c H1 H2. by rewrite H2. Qed.

Lemma kept_on_store {A} id (m : eff Odb A) : (forall d r d', m d = (r, d') -> fills_of d' id ≡ₚ fills_of d id) -> keeps (fills_kept id) (on_store (W := W) m).
Proof. intros Hm [d w] r [d' w'] H. unfold on_store in H. cbn in H. destruct (m d) as [r1 d1] eqn:E. injection H as <- <- <-. by eapply Hm. Qed.
Lemma kept_on_world {A} id (m : eff W A) : keeps (fills_kept id) (on_world (S := Odb) m).
Proof. intros [d w] r [d' w'] H. unfold on_world in H. cbn in H. destruct (m w) as [r1 w1]. unfold fills_kept. by injection H as <- <- <-. Qed.
Lemma kept_pure_world {A} id (m : W -> A * W) : keeps (fills_kept id) (pure_world (S := Odb) m).
Proof. intros [d w] r [d' w'] H. unfold pure_world in H. cbn in H. destruct (m w) as [r1 w1]. unfold fills_kept. by injection H as <- <- <-. Qed.

Lemma kept_get id k : keeps (fills_kept id) (on_store (W := W) (os_getByClientId k)).
Proof. apply kept_on_store. intros d r d' H. by apply get_law in H as [[_ S] _]. Qed.
Lemma kept_save id record : keeps (fills_kept id) (on_store (W := W) (os_save record)).
Proof. apply kept_on_store. intros d r d' H. by apply save_law in H as [S _]. Qed.
Lemma kept_update id k st u : keeps (fills_kept id) (on_store (W := W) (os_updateStatus k st u)).
Proof.
  apply kept_on_store. intros d r d' H. change (rt_updateStatus k st u d = (r, d')) in H. unfold rt_updateStatus in H.
  eff_inv H as o d1 E; apply get_law in E as [[_ S] _]; [done|]. destruct o as [record|]; [|by injection H as _ <-].
  apply save_law in H as [S' _]. by rewrite S', S.
Qed.
#[local] Hint Resolve kept_on_world kept_pure_world kept_get kept_save kept_update : keeps.

Lemma kept_audit id t a l : keeps (fills_kept id) (audit (S := Odb) t a l).
Proof. unfold audit, createId, now_. keeps_tac. Qed.
Lemma kept_now id : keeps (fills_kept id) (now_ (S := Odb) (W := W)).
Proof. unfold now_. keeps_tac. Qed.
Lemma kept_sleep id ms : keeps (fills_kept id) (sleep (S := Odb) (W := W) ms).
Proof. unfold sleep. keeps_tac. Qed.
#[local] Hint Resolve kept_audit kept_now kept_sleep : keeps.
Lemma kept_attempt id intent record i t n : keeps (fills_kept id) (submit_attempt (W := W) intent record i t n).
Proof. unfold submit_attempt, completion_time, get_or. keeps_tac. Qed.
Lemma kept_failure id config intent e n : keeps (fills_kept id) (after_failure (W := W) config intent e n).
Proof. unfold after_failure. keeps_tac. Qed.
Lemma kept_loop id n config intent record i t : forall attempt, keeps (fills_kept id) (submit_loop (W := W) n config intent record i t attempt).
Proof.
  induction n as [|n IH]; intros attempt; cbn [submit_loop]; [apply keeps_ret; typeclasses eauto|]. intros sw r sw' H.
  destruct (submit_attempt intent record i t attempt sw) as [[x|e] sw1] eqn:E; apply (kept_attempt id) in E; [by injection H as _ <-|].
  etrans; [exact E|]. eapply keeps_bind; [typeclasses eauto|apply kept_failure|intros; apply IH|exact H].
Qed.
#[local] Hint Resolve kept_loop : keeps.

Lemma kept_submit id config intent : keeps (fills_kept id) (submitIntent (W := W) config intent).
Proof. unfold submitIntent, submit_record, get_or. keeps_tac. Qed.

(** A record read while the fills of its order carry no fee carries none. *)
Definition free (d : Odb) (id : string) : Prop := Forall (fun f => fil_fee f = "0") (fills_of d id).
Definition plain (id : string) (record : OrderRecord) : Prop := or_else (or_feesPaid record) "0" = "0" /\ oi_intentId (or_intent record) = id.

Lemma get_plain id (sw sw' : Odb * W) o : free sw.1 id -> on_store (os_getByClientId id) sw = (Ret o, sw') -> forall record, o = Some record -> plain id record.
Proof.
  intros Hf H record ->. destruct sw as [d w]. unfold on_store in H. cbn in H. destruct (rt_getByClientId id d) as [r1 d1] eqn:E.
  injection H as -> <-. apply get_law in E as [_ E]. specialize (E _ eq_refl). cbn in Hf. destruct (order_of d id) as [row|] eqn:Er; [|done].
  destruct E as (fl & Pf & E). injection E as ->. split; [|by apply order_key in Er]. cbn [or_feesPaid read_order].
  unfold free in Hf. rewrite <- Pf in Hf. by destruct Hf as [|f l Hz Hl].
Qed.

Lemma get_or_plain id record (sw sw' : Odb * W) r : free sw.1 id -> plain id record -> get_or id record sw = (Ret r, sw') -> plain id r.
Proof.
  intros Hf Hp H. unfold get_or in H. eff_inv H as o sw1 E; [done|]. injection H as <- _. destruct o as [r1|]; cbn [or_else]; [|done].
  by eapply get_plain.
Qed.

Lemma kept_free id sw sw' : fills_kept id sw sw' -> free sw.1 id -> free sw'.1 id.
Proof. unfold fills_kept, free. intros H E. by rewrite H. Qed.

Lemma attempt_plain intent record i t n (sw sw' : Odb * W) r : free sw.1 (oi_intentId intent) -> plain (oi_intentId intent) record ->
  submit_attempt intent record i t n sw = (Ret r, sw') -> plain (oi_intentId intent) r.
Proof.
  intros Hf Hp H. set (id := oi_intentId intent) in *. unfold submit_attempt in H.
  eff_inv H as t1 s1 E1; [done|]. apply (kept_now id) in E1. eff_inv H as u1 s2 E2; [done|]. apply (kept_update id) in E2.
  eff_inv H as p s3 E3; [done|]. apply (kept_on_world id) in E3. eff_inv H as t2 s4 E4; [done|]. apply (kept_now id) in E4.
  eff_inv H as c s5 E5; [done|]. assert (K5 : fills_kept id s4 s5) by (eapply (ltac:(unfold completion_time; keeps_tac) : keeps (fills_kept id) (completion_time _)); exact E5).
  eff_inv H as u2 s6 E6; [done|]. apply (kept_update id) in E6. eff_inv H as u3 s7 E7; [done|]. apply (kept_audit id) in E7.
  eapply get_or_plain; [|exact Hp|exact H]. eapply kept_free; [|exact Hf].
  etrans; [exact E1|]. etrans; [exact E2|]. etrans; [exact E3|]. etrans; [exact E4|]. etrans; [exact K5|]. etrans; [exact E6|exact E7].
Qed.

Lemma loop_plain n config intent record i t : forall attempt (sw : Odb * W) o (sw' : Odb * W), free sw.1 (oi_intentId intent) -> plain (oi_intentId intent) record ->
  submit_loop n config intent record i t attempt sw = (Ret o, sw') -> forall r, o = Some r -> plain (oi_intentId intent) r.
Proof.
  induction n as [|n IH]; intros attempt sw o sw' Hf Hp H r ->; cbn [submit_loop] in H; [done|].
  destruct (submit_attempt intent record i t attempt sw) as [[x|e] sw1] eqn:E.
  - injection H as <- _. by eapply attempt_plain.
  - apply (kept_attempt (oi_intentId intent)) in E. eff_inv H as u s2 E2; [done|]. apply (kept_failure (oi_intentId intent)) in E2.
    eapply IH; [|exact Hp|exact H|done]. eapply kept_free; [|exact Hf]. by etrans.
Qed.

Lemma submit_plain config intent (sw sw' : Odb * W) r : free sw.1 (oi_intentId intent) -> submitIntent config intent sw = (Ret r, sw') ->
  plain (oi_intentId intent) r.
Proof.
  intros Hf H. set (id := oi_intentId intent) in *. unfold submitIntent in H. eff_inv H as o s1 E1; [done|].
  pose proof (get_plain _ _ _ _ Hf E1) as Hg. apply (kept_get id) in E1. pose proof (kept_free _ _ _ E1 Hf) as Hf1.
  assert (Hrec : forall record (s s' : Odb * W) r, free s.1 id -> plain id record -> submit_record config intent record s = (Ret r, s') -> plain id r).
  { clear. intros record s s' r Hf Hp H. unfold submit_record in H. eff_inv H as u s1 E1; [done|]. apply (kept_save id) in E1.
    eff_inv H as t s2 E2; [done|]. apply (kept_now id) in E2. assert (Hf2 : free s2.1 id) by (eapply kept_free; [|exact Hf]; by etrans).
    eff_inv H as o s3 E3; [done|]. pose proof (loop_plain _ _ _ _ _ _ _ _ _ _ Hf2 Hp E3) as Hl. apply (kept_loop id) in E3.
    pose proof (kept_free _ _ _ E3 Hf2) as Hf3. destruct o as [x|]; [injection H as <- <-; by apply Hl|]. by eapply get_or_plain. }
  destruct o as [x|]; [|by eapply Hrec; [exact Hf1| |exact H]].
  destruct (resubmittable (or_status x)); [by eapply Hrec; [exact Hf1|apply Hg|exact H]|].
  injection H as <- <-. by apply Hg.
Qed.

(** ** What the executions leave in the table of fills *)

(** At most one fill more of the order [k], without a fee; none of the others. *)
Definition adds_one (k : string) (d d' : Odb) : Prop := forall id, exists new, fills_of d' id ≡ₚ new ++ fills_of d id /\
  Forall (fun f => fil_fee f = "0") new /\ (length new <= if decide (id = k) then 1 else 0)%nat.
Lemma adds_none k d d' : (forall id, fills_of d' id ≡ₚ fills_of d id) -> adds_one k d d'.
Proof. intros H id. exists []. split_and!; [apply H|done|cbn; lia]. Qed.
Lemma adds_after k d d1 d' : (forall id, fills_of d1 id ≡ₚ fills_of d id) -> adds_one k d1 d' -> adds_one k d d'.
Proof. intros H H1 id. destruct (H1 id) as (new & Hp & Hn). exists new. split; [|exact Hn]. by rewrite Hp, H. Qed.

Lemma persist_adds (event : OrderRecord -> eff Odb unit) id record d r d' : (forall x, keeps same_orders (event x)) -> plain id record ->
  persistExecutionRecord event record d = (r, d') -> adds_one id d d'.
Proof.
  intros Hev [Hfee Hid] H. unfold persistExecutionRecord in H. eff_inv H as u d1 E1; apply Hev in E1 as [_ S1]; [by apply adds_none|].
  eapply adds_after; [exact S1|]. destruct (_ || _)%bool; [injection H as _ <-; by apply adds_none|].
  eff_inv H as now d2 E2; apply odb_now_law in E2 as [_ S2]; [by apply adds_none|]. eapply adds_after; [exact S2|].
  unfold persistFill in H. rewrite Hid in H. eff_inv H as row d3 E3; apply odb_order_law in E3 as [[_ S3] Er]; [by apply adds_none|].
  eapply adds_after; [exact S3|]. specialize (Er _ eq_refl). destruct row as [row|]; [|injection H as _ <-; by apply adds_none].
  symmetry in Er. apply order_key in Er. destruct (ord_venueOrderId row) as [vid|]; [|injection H as _ <-; by apply adds_none].
  destruct (fun h => odb_insert_fill_law _ id _ _ _ h H) as [_ [(e & _ & S4)|(_ & gid & S4)]]; [done|by apply adds_none|].
  intros k. specialize (S4 k). case_decide as Hk; [subst k|by exists []; rewrite S4].
  eexists [_]. split; [exact S4|]. split; [|done]. constructor; [|done]. exact Hfee.
Qed.

Lemma execution_adds (event : OrderRecord -> eff Odb unit) intent (sw : Odb * W) : (forall x, keeps same_orders (event x)) ->
  free sw.1 (oi_intentId intent) -> adds_one (oi_intentId intent) sw.1 (execute_approved event intent sw).2.1.
Proof.
  intros Hev Hf. destruct (execute_approved event intent sw) as [r sw'] eqn:H. unfold execute_approved in H.
  assert (K : forall r1 sw1, submitIntent cycle_executor intent sw = (r1, sw1) -> forall id, fills_of sw1.1 id ≡ₚ fills_of sw.1 id).
  { intros r1 sw1 E id. by apply (kept_submit id) in E. }
  eff_inv H as record sw1 E1; [apply adds_none; by eapply K|]. eapply adds_after; [by eapply K|]. apply submit_plain in E1; [|exact Hf].
  destruct sw1 as [d1 w1]. unfold on_store in H. cbn in H. destruct (persistExecutionRecord event record d1) as [r2 d2] eqn:E2. injection H as _ <-.
  by eapply persist_adds.
Qed.
End Submission.

(** Approved intents executed one after the other, each on a venue of its own
    behaviour, whether the execution returns or throws. *)
Record Execution {W : Type} := MkExecution {
  ex_env : ExecutionEnv W;
  ex_event : OrderRecord -> eff Odb unit;
  ex_intent : OrderIntent;
}.
Arguments Execution : clear implicits.
Definition after_execution {W} (sw : Odb * W) (x : Execution W) : Odb * W :=
  (execute_approved (EE := ex_env x) (ex_event x) (ex_intent x) sw).2.
Definition executions_of {W} (id : string) (xs : list (Execution W)) : nat :=
  length (List.filter (fun x => String.eqb (oi_intentId (ex_intent x)) id) xs).

(** C18. The running system never records a fee.  Approved intents are submitted by
    the executor over the runtime's order store, and what became of each is
    persisted.  Whatever intents are executed, again or for the first time, whatever
    the venues charge and report, and whatever fails: from a table of fills without
    fees, an empty one in particular, the fee of every fill in the table is zero
    afterwards, and every order has gained at most one fill for each execution of
    an intent of its id. *)
Theorem execution_fee_lost {W : Type} (xs : list (Execution W)) (d : Odb) (w : W) :
  (forall x, x ∈ xs -> forall record, keeps same_orders (ex_event x record)) ->
  (forall id f, f ∈ fills_of d id -> fil_fee f = "0") ->
  let d' := (foldl after_execution (d, w) xs).1 in
  (forall id f, f ∈ fills_of d' id -> fil_fee f = "0") /\
  (forall id, length (fills_of d' id) <= length (fills_of d id) + executions_of id xs)%nat.
Proof.
  cbv zeta. revert d w. induction xs as [|x xs IH]; intros d w Hev Hf; [split; [exact Hf|intros id; cbn; lia]|]. cbn [foldl].
  assert (A : adds_one (oi_intentId (ex_intent x)) d (after_execution (d, w) x).1).
  { apply (execution_adds (EE := ex_env x)); [by apply Hev; left|]. apply Forall_forall, Hf. }
  destruct (after_execution (d, w) x) as [d1 w1]. cbn in A. destruct (IH d1 w1) as [IH1 IH2].
  - intros y Hy. apply Hev. by right.
  - intros id f Hin. destruct (A id) as (new & Hp & Hn & _). rewrite Hp in Hin. apply elem_of_app in Hin as [Hin|Hin]; [|by eapply Hf].
    by apply (proj1 (Forall_forall _ _) Hn).
  - split; [exact IH1|]. intros id. specialize (IH2 id). destruct (A id) as (new & Hp & _ & Hl). rewrite Hp, length_app in IH2.
    unfold executions_of in *. cbn [List.filter]. destruct (String.eqb_spec (oi_intentId (ex_intent x)) id) as [He|Hne]; cbn [length].
    + rewrite decide_True in Hl by done. lia.
    + rewrite decide_False in Hl by done. lia.
Qed.
End Orders.

(** ** Tables in memory *)

Record MemoryOrders := MkMemoryOrders {
  mo_clock : Z;
  mo_next : nat;
  mo_orders : list OrdersRow;
  mo_fills : list FillsRow;
}.
Definition mem_order (d : MemoryOrders) (id : string) : option OrdersRow := find_key ord_clientOrderId id (mo_orders d).
Definition mem_fills (d : MemoryOrders) (id : string) : list FillsRow := List.filter (fun f => String.eqb (fil_clientOrderId f) id) (mo_fills d).
Definition gen_id (d : MemoryOrders) : string := String.concat "" (repeat "i" (S (mo_next d))).

#[export] Instance memory_orders : OrderDb := {|
  Odb := MemoryOrders;
  odb_now := fun d => (Ret (mo_clock d), d);
  odb_upsert_order mk upd := fun d =>
    let row := mk (gen_id d) (mo_clock d) in
    (Ret tt, MkMemoryOrders (mo_clock d) (S (mo_next d))
      (match mem_order d (ord_clientOrderId row) with
       | Some _ => map (fun r => if decide (ord_clientOrderId r = ord_clientOrderId row) then upd r else r) (mo_orders d)
       | None => mo_orders d ++ [row]
       end) (mo_fills d));
  odb_order id := fun d => (Ret (mem_order d id), d);
  odb_fills id := fun d => (Ret (js_sort (fun a b => fil_filledAt b <? fil_filledAt a) (mem_fills d id)), d);
  odb_ids_by_status st := fun d =>
    (Ret (map ord_clientOrderId (List.filter (fun r => bool_decide (ord_status r = st))
      (omap (mem_order d) (js_unique (map ord_clientOrderId (mo_orders d)))))), d);
  odb_insert_fill mk := fun d =>
    (Ret tt, MkMemoryOrders (mo_clock d) (S (mo_next d)) (mo_orders d) (mo_fills d ++ [mk (gen_id d)]));
|}.

#[export] Program Instance memory_orders_laws : OrderDbLaws (OD := memory_orders) := {|
  order_of := mem_order : @Odb memory_orders -> _;
  fills_of := mem_fills : @Odb memory_orders -> _
|}.
Next Obligation. intros d id row. apply find_key_key. Qed.
Next Obligation. by intros d r d' [= _ <-]. Qed.
Next Obligation. intros id d r d' [= <- <-]. split; [done|]. by intros o [= <-]. Qed.
Next Obligation. intros id d r d' [= <- <-]. split; [done|]. intros l [= <-]. apply js_sort_perm. Qed.
Next Obligation.
  intros st d r d' [= <- <-]. split; [done|]. intros l [= <-] id. rewrite list_elem_of_fmap. setoid_rewrite list_elem_of_In at 1.
  setoid_rewrite filter_In. setoid_rewrite <- list_elem_of_In. setoid_rewrite list_elem_of_omap. split.
  - intros (row & -> & (k & _ & Hk) & Hs%bool_decide_eq_true). exists row. split; [|done]. unfold mem_order in *. by rewrite (find_key_key _ _ _ _ Hk).
  - intros (row & Hr & Hs). pose proof (find_key_key _ _ _ _ Hr) as <-. exists row. split; [done|]. split; [|by apply bool_decide_eq_true].
    exists (ord_clientOrderId row). split; [|exact Hr]. apply js_unique_spec. apply find_some in Hr as [Hin _].
    apply list_elem_of_fmap. exists row. split; [done|by apply list_elem_of_In].
Qed.
Next Obligation.
  intros mk upd k d r d' Hmk Hupd [= <- <-]. split; [done|]. right. split; [done|]. exists (gen_id d), (mo_clock d). intros id.
  rewrite Hmk. unfold mem_order. cbn [mo_orders]. destruct (find_key ord_clientOrderId k (mo_orders d)) as [row|] eqn:E.
  - rewrite find_key_map by (intros x; case_decide as Hx; [by rewrite Hx; apply Hupd|done]). destruct (decide (id = k)) as [->|Hne].
    + rewrite E. cbn. by rewrite decide_True by by apply (find_key_key _ _ _ _ E).
    + destruct (find_key ord_clientOrderId id (mo_orders d)) as [x|] eqn:Ex; [|done]. cbn.
      by rewrite decide_False by (rewrite (find_key_key _ _ _ _ Ex); done).
  - rewrite find_key_app, Hmk. destruct (decide (id = k)) as [->|Hne]; [by rewrite E, decide_True|].
    destruct (find_key ord_clientOrderId id (mo_orders d)); [done|]. by rewrite decide_False.
Qed.
Next Obligation.
  intros mk k d r d' Hmk [= <- <-]. split; [done|]. right. split; [done|]. exists (gen_id d). intros id. unfold mem_fills. cbn [mo_fills].
  rewrite List.filter_app. cbn [List.filter]. rewrite Hmk. destruct (decide (id = k)) as [->|Hne].
  - rewrite String.eqb_refl. by rewrite Permutation_app_comm.
  - rewrite (proj2 (String.eqb_neq k id)) by done. by rewrite app_nil_r.
Qed.

(** *** Sample runs *)

Definition no_event (record : OrderRecord) : eff MemoryOrders unit := mret tt.
Definition no_orders : MemoryOrders := MkMemoryOrders 5 0 [] [].
Definition cycle_intent : OrderIntent :=
  MkOrderIntent "i1" "sim" "BTC" buy market "1" None "opp" false 3 [("sleeveId", JStr "carry"); ("runId", JStr "r1")].
(** The venue fills at once and charges 0.1. *)
Definition filling : ExecutionEnv unit := scripted_env (Ret (sample_result vo_filled)) (Ret tt).
Definition filling_unaudited : ExecutionEnv unit := scripted_env (Ret (sample_result vo_filled)) (Throw (Error_ "db")).
Definition execute_in (EE : ExecutionEnv unit) (d : MemoryOrders) : MemoryOrders :=
  (execute_approved (OD := memory_orders) (EE := EE) no_event cycle_intent (d, tt)).2.1.

Example fee_lost : map fil_fee (mo_fills (execute_in filling no_orders)) = ["0"].
Proof. vm_compute. reflexivity. Qed.

(** An intent that is executed again returns the order that is there, and its
    fill is recorded a second time under the same fill id. *)
Example fill_recorded_twice :
  map (fun f => (fil_id f, fil_fillId f, fil_size f)) (mo_fills (execute_in filling (execute_in filling no_orders)))
  = [("iiii", Some "i1-fill-1", "1"); ("iiiii", Some "i1-fill-1", "1")].
Proof. vm_compute. reflexivity. Qed.

(** With a failing audit trail an order that the venue has filled is marked failed
    and placed again; the in-memory store refuses that transition, and the
    executor places once. *)
Example filled_order_placed_again :
  let run := submitIntent (OS := runtime_order_store (OD := memory_orders)) (EE := counting filling_unaudited) sample_config cycle_intent
               (no_orders, (tt, O)) in
  let run_in_memory := submitIntent (EE := counting filling_unaudited) sample_config cycle_intent (empty_store, (tt, O)) in
  (run.2.2.2, map ord_status (mo_orders run.2.1), run_in_memory.2.2.2) = (3%nat, [failed], 1%nat).
Proof. vm_compute. reflexivity. Qed.

(** A fill reported to the executor is not saved with the order: two halves of an
    order leave it partially filled, without any fill. *)
Example reported_fills_lost :
  let half := fun id => MkOrderFill id "i1" "0.5" "100" "0" "USD" 5 in
  let working := execute_in (scripted_env (Ret (MkPlaceOrderResult "v1" "i1" vo_submitted "0" None None 0 None None None)) (Ret tt)) no_orders in
  let d := (processFill (OS := runtime_order_store (OD := memory_orders)) (EE := filling) "i1" (half "f2")
             (processFill (OS := runtime_order_store (OD := memory_orders)) (EE := filling) "i1" (half "f1") (working, tt)).2).2.1 in
  (map ord_status (mo_orders d), map fil_fillId (mo_fills d)) = ([partially_filled], []).
Proof. vm_compute. reflexivity. Qed.

Lemma saved_order_reads_back_witness :
  let record := new_record cycle_intent in
  exists d1, rt_save (OD := memory_orders) record no_orders = (Ret tt, d1) /\
  exists o d2, rt_getByClientId (OD := memory_orders) "i1" d1 = (Ret o, d2) /\
  exists c fl, fl ≡ₚ mem_fills no_orders "i1" /\ o = Some (read_back record c fl) /\
    (forall row, mem_order no_orders "i1" = Some row -> c = ord_createdAt row) /\
    forall d3, index_integral cycle_intent -> rt_save (OD := memory_orders) (read_back record c fl) d2 = (Ret tt, d3) ->
      exists t row, mem_order d1 "i1" = Some row /\ mem_order d3 "i1" = Some (touched_order t row).
Proof.
  eexists. split; [reflexivity|]. do 2 eexists. split; [reflexivity|].
  eapply (saved_order_reads_back (OL := memory_orders_laws) (new_record cycle_intent)); reflexivity.
Defined.

Lemma runtime_store_breaks_contract_witness : ~ inhabited (OrderStoreLaws (H := runtime_order_store (OD := memory_orders)) MemoryOrders).
Proof.
  eapply (runtime_store_breaks_contract (OL := memory_orders_laws) (execute_in filling no_orders) _ _ "i1" _ _ failed);
    [cbn [order_of memory_orders_laws]; vm_compute; reflexivity|vm_compute; reflexivity|vm_compute; reflexivity|vm_compute; reflexivity].
Defined.

(** The same intent executed twice on a venue that charges. *)
Definition charged_twice : list (@Execution memory_orders unit) :=
  let x := @MkExecution memory_orders unit filling no_event cycle_intent in [x; x].
Lemma execution_fee_lost_witness :
  let d' := (foldl after_execution (no_orders, tt) charged_twice).1 in
  map fil_fee (mem_fills d' "i1") = ["0"; "0"] /\
  (forall id f, f ∈ fills_of (OD := memory_orders) d' id -> fil_fee f = "0") /\
  (forall id, length (fills_of (OD := memory_orders) d' id) <=
     length (fills_of (OD := memory_orders) no_orders id) + executions_of id charged_twice)%nat.
Proof.
  split; [vm_compute; reflexivity|]. apply (execution_fee_lost (OL := memory_orders_laws) charged_twice no_orders tt).
  - intros x Hx record. assert (E : ex_event x = no_event).
    { apply elem_of_cons in Hx as [->|Hx]; [reflexivity|]. apply elem_of_cons in Hx as [->|Hx]; [reflexivity|]. by apply elem_of_nil in Hx. }
    rewrite E. intros d r d' H. injection H as _ <-. split; intros; reflexivity.
  - intros id f Hf. change (f ∈ @nil FillsRow) in Hf. by apply elem_of_nil in Hf.
Defined.
