(* ===== verification/ConnectorEvidence.v ===== *)
(** * Connector readiness (packages/runtime: store.ts)

    The readiness of a venue connector for live use: the inventory of venues from
    their snapshots, the evidence with its blockers, and the promotion summary of
    a venue.  The file shows when exactly a connector is eligible.  Text columns
    that only ever hold the constants of a union type have that type; a persisted
    object is read at the fields the readiness uses. *)
From Stdlib Require Import Ascii.
From S2P Require Import Prelude JsNumber JsValue JsText MarketIdentity DerivativeState ReconcileVenues.
Open Scope Z_scope.

(** ** Data *)

Inductive VenueTruthSnapshotCompleteness := sc_complete | sc_partial | sc_minimal.
Inductive VenueHealthState := vh_healthy | vh_degraded | vh_unavailable.
Inductive VenueSnapshotFreshness := sf_fresh | sf_stale | sf_missing.
Inductive ConnectorCapabilityClass := cc_simulated_only | cc_real_readonly | cc_execution_capable.
Inductive ConnectorReadOnlyValidationState := ro_not_applicable | ro_complete | ro_partial | ro_insufficient.
Inductive ConnectorPromotionStatus := ps_not_requested | ps_pending_review | ps_approved | ps_rejected | ps_suspended.
Inductive ConnectorEffectivePosture :=
  ep_simulated_only | ep_real_readonly | ep_execution_capable_unapproved | ep_promotion_pending | ep_approved_for_live | ep_rejected | ep_suspended.
#[export] Instance Completeness_eq_dec : EqDecision VenueTruthSnapshotCompleteness.
Proof. solve_decision. Defined.
#[export] Instance VenueHealth_eq_dec : EqDecision VenueHealthState.
Proof. solve_decision. Defined.
#[export] Instance Freshness_eq_dec : EqDecision VenueSnapshotFreshness.
Proof. solve_decision. Defined.
#[export] Instance Capability_eq_dec : EqDecision ConnectorCapabilityClass.
Proof. solve_decision. Defined.
#[export] Instance Validation_eq_dec : EqDecision ConnectorReadOnlyValidationState.
Proof. solve_decision. Defined.
#[export] Instance PromotionStatus_eq_dec : EqDecision ConnectorPromotionStatus.
Proof. solve_decision. Defined.
#[export] Instance Posture_eq_dec : EqDecision ConnectorEffectivePosture.
Proof. solve_decision. Defined.

Definition completeness_str (c : VenueTruthSnapshotCompleteness) : string :=
  match c with sc_complete => "complete" | sc_partial => "partial" | sc_minimal => "minimal" end.
Definition venue_health_str (h : VenueHealthState) : string :=
  match h with vh_healthy => "healthy" | vh_degraded => "degraded" | vh_unavailable => "unavailable" end.
Definition validation_str (v : ConnectorReadOnlyValidationState) : string :=
  match v with ro_not_applicable => "not_applicable" | ro_complete => "complete" | ro_partial => "partial" | ro_insufficient => "insufficient" end.
Definition promotion_status_str (s : ConnectorPromotionStatus) : string :=
  match s with
  | ps_not_requested => "not_requested" | ps_pending_review => "pending_review" | ps_approved => "approved" | ps_rejected => "rejected"
  | ps_suspended => "suspended"
  end.

(** A row of [venue_connector_snapshots], without what only displays show. *)
Record VenueSnapshotRow := MkVenueSnapshotRow {
  vs_venueId : string;
  vs_venueName : string;
  vs_connectorType : string;
  vs_sleeveApplicability : jsval;
  vs_truthMode : VenueTruthMode;
  vs_readOnlySupport : bool;
  vs_executionSupport : bool;
  vs_missingPrerequisites : jsval;
  vs_healthy : bool;
  vs_healthState : VenueHealthState;
  vs_degradedReason : option string;
  vs_snapshotSuccessful : bool;
  vs_snapshotPayload : jsval;
  vs_metadata : record_;
  vs_capturedAt : Z;
}.
(** [ConnectorPostTradeConfirmationEvidenceView], at the fields that decide. *)
Record PostTradeConfirmation := MkPostTrade { pt_status : string; pt_blockingReasons : list string }.
Record VenueInventoryCore := MkVenueInventory {
  vi_venueId : string;
  vi_venueName : string;
  vi_connectorType : string;
  vi_sleeveApplicability : list string;
  vi_truthMode : VenueTruthMode;
  vi_readOnlySupport : bool;
  vi_executionSupport : bool;
  vi_missingPrerequisites : list string;
  vi_healthy : bool;
  vi_healthState : VenueHealthState;
  vi_degradedReason : option string;
  vi_snapshotFreshness : VenueSnapshotFreshness;
  vi_snapshotCompleteness : VenueTruthSnapshotCompleteness;
  vi_lastSnapshotAt : Z;
  vi_lastSuccessfulSnapshotAt : option Z;
  vi_truthCoverage : record_;
  vi_executionConfirmationState : option PostTradeConfirmation;
  vi_metadata : record_;
}.
Record ConnectorConfigReadinessMarker := MkMarker { cm_key : string; cm_ready : bool; cm_summary : string }.
Record ConnectorReadinessEvidence := MkEvidence {
  ce_venueId : string;
  ce_venueName : string;
  ce_connectorType : string;
  ce_sleeveApplicability : list string;
  ce_truthMode : VenueTruthMode;
  ce_capabilityClass : ConnectorCapabilityClass;
  ce_executionSupport : bool;
  ce_readOnlySupport : bool;
  ce_snapshotFreshness : VenueSnapshotFreshness;
  ce_snapshotCompleteness : VenueTruthSnapshotCompleteness;
  ce_healthy : bool;
  ce_healthState : VenueHealthState;
  ce_degradedReason : option string;
  ce_lastSnapshotAt : Z;
  ce_lastSuccessfulSnapshotAt : option Z;
  ce_truthCoverageAvailableCount : Z;
  ce_truthCoveragePartialCount : Z;
  ce_truthCoverageUnsupportedCount : Z;
  ce_readOnlyValidationState : ConnectorReadOnlyValidationState;
  ce_configReadiness : list ConnectorConfigReadinessMarker;
  ce_missingPrerequisites : list string;
  ce_blockingReasons : list string;
  ce_eligibleForPromotion : bool;
  ce_postTradeConfirmation : PostTradeConfirmation;
}.

(** ** The inventory *)

Definition VENUE_SNAPSHOT_STALE_AFTER_MS : Z := 15 * 60 * 1000.
Definition classifyVenueSnapshotFreshness (now capturedAt : Z) : VenueSnapshotFreshness :=
  if VENUE_SNAPSHOT_STALE_AFTER_MS <? now - capturedAt then sf_stale else sf_fresh.

Definition asJsonObject (v : jsval) : record_ := or_else (asRecord v) [].
Definition asStringArray (v : jsval) : list string :=
  match v with
  | JArr l => omap (fun x => match x with JStr s => nonempty_trim s | _ => None end) l
  | _ => []
  end.
Definition is_undefined (v : jsval) : bool := match v with JUndefined => true | _ => false end.

Definition empty_coverage : record_ :=
  map (fun k => (k, JObj [("status", JStr "unsupported")]))
    ["accountState"; "balanceState"; "capacityState"; "exposureState"; "derivativeAccountState"; "derivativePositionState";
     "derivativeHealthState"; "orderState"; "executionReferences"].

Definition default_confirmation : PostTradeConfirmation := MkPostTrade "not_required" [].
Definition asConnectorPostTradeConfirmationEvidence (v : jsval) : PostTradeConfirmation :=
  let candidate := asJsonObject v in
  match rec_get candidate "status", rec_get candidate "entries" with
  | JStr s, JArr _ => MkPostTrade s (or_else (string_array (rec_get candidate "blockingReasons")) [])
  | _, _ => default_confirmation
  end.

Definition payload_completeness (payload : record_) : VenueTruthSnapshotCompleteness :=
  match rec_get payload "snapshotCompleteness" with
  | JStr s => if bool_decide (s = "complete") then sc_complete else if bool_decide (s = "partial") then sc_partial else sc_minimal
  | _ => sc_minimal
  end.
Definition payload_coverage (payload : record_) : record_ :=
  let coverage := asJsonObject (rec_get payload "truthCoverage") in
  if is_undefined (rec_get coverage "accountState") then empty_coverage else coverage.
Definition payload_confirmation (payload : record_) : option PostTradeConfirmation :=
  let state := rec_get payload "executionConfirmationState" in
  if is_undefined (rec_get (asJsonObject state) "status") then None else Some (asConnectorPostTradeConfirmationEvidence state).

Definition mapVenueInventoryItem (now : Z) (latest : VenueSnapshotRow) (lastSuccessfulSnapshotAt : option Z) : VenueInventoryCore :=
  let payload := asJsonObject (vs_snapshotPayload latest) in {|
  vi_venueId := vs_venueId latest; vi_venueName := vs_venueName latest; vi_connectorType := vs_connectorType latest;
  vi_sleeveApplicability := asStringArray (vs_sleeveApplicability latest);
  vi_truthMode := vs_truthMode latest; vi_readOnlySupport := vs_readOnlySupport latest; vi_executionSupport := vs_executionSupport latest;
  vi_missingPrerequisites := asStringArray (vs_missingPrerequisites latest); vi_healthy := vs_healthy latest;
  vi_healthState := vs_healthState latest; vi_degradedReason := vs_degradedReason latest;
  vi_snapshotFreshness := classifyVenueSnapshotFreshness now (vs_capturedAt latest); vi_snapshotCompleteness := payload_completeness payload;
  vi_lastSnapshotAt := vs_capturedAt latest; vi_lastSuccessfulSnapshotAt := lastSuccessfulSnapshotAt;
  vi_truthCoverage := payload_coverage payload; vi_executionConfirmationState := payload_confirmation payload;
  vi_metadata := vs_metadata latest |}.

(** The first row of every venue, and the time of its first successful one. *)
Definition inventory_step (maps : list (string * VenueSnapshotRow) * list (string * Z)) (row : VenueSnapshotRow)
    : list (string * VenueSnapshotRow) * list (string * Z) :=
  let '(latestByVenue, lastSuccessfulByVenue) := maps in
  (if jm_has (vs_venueId row) latestByVenue then latestByVenue else jm_set (vs_venueId row) row latestByVenue,
   if vs_snapshotSuccessful row && negb (jm_has (vs_venueId row) lastSuccessfulByVenue)
   then jm_set (vs_venueId row) (vs_capturedAt row) lastSuccessfulByVenue else lastSuccessfulByVenue).
Definition inventory_of (now limit : Z) (rows : list VenueSnapshotRow) : list VenueInventoryCore :=
  let '(latestByVenue, lastSuccessfulByVenue) := fold_left inventory_step rows ([], []) in
  map (fun row => mapVenueInventoryItem now row (jm_get (vs_venueId row) lastSuccessfulByVenue))
    (firstn (Z.to_nat limit) (jm_values latestByVenue)).

(** ** The evidence *)

Definition is_lower_digit (c : ascii) : bool :=
  let n := Ascii.nat_of_ascii c in ((97 <=? n)%nat && (n <=? 122)%nat) || ((48 <=? n)%nat && (n <=? 57)%nat).
Definition is_upper_letter (c : ascii) : bool := let n := Ascii.nat_of_ascii c in (65 <=? n)%nat && (n <=? 90)%nat.
Definition is_separator (c : ascii) : bool := Ascii.eqb c "_"%char || Ascii.eqb c "-"%char.
(** [.replace(/([a-z0-9])([A-Z])/g, '$1 $2')] *)
Fixpoint split_camel (s : string) : string :=
  match s with
  | String a ((String b _) as s') => if is_lower_digit a && is_upper_letter b then String a (String " "%char (split_camel s')) else String a (split_camel s')
  | _ => s
  end.
(** [.replace(/[_-]+/g, ' ')] *)
Fixpoint join_separators (inside : bool) (s : string) : string :=
  match s with
  | EmptyString => EmptyString
  | String c s' => if is_separator c then (if inside then join_separators true s' else String " "%char (join_separators true s'))
                   else String c (join_separators false s')
  end.
Definition toSentenceCase (value : string) : string := toLowerCase (join_separators false (split_camel value)).
Definition summariseBooleanKey (key : string) : string := toSentenceCase key +:+ " marker".

Definition coverage_count (status : string) (coverage : record_) : Z :=
  Z.of_nat (length (List.filter (fun kv => is_str (rec_get (asJsonObject kv.2) "status") status) coverage)).

Definition inferConnectorCapabilityClass (truthMode : VenueTruthMode) (executionSupport : bool) : ConnectorCapabilityClass :=
  match truthMode with
  | tm_simulated => cc_simulated_only
  | tm_real => if executionSupport then cc_execution_capable else cc_real_readonly
  end.

Definition inferReadOnlyValidationState (truthMode : VenueTruthMode) (snapshotFreshness : VenueSnapshotFreshness)
    (snapshotCompleteness : VenueTruthSnapshotCompleteness) (healthState : VenueHealthState) : ConnectorReadOnlyValidationState :=
  match truthMode with
  | tm_simulated => ro_not_applicable
  | tm_real =>
      if bool_decide (snapshotFreshness = sf_fresh) && bool_decide (healthState = vh_healthy) && bool_decide (snapshotCompleteness = sc_complete)
      then ro_complete
      else if bool_decide (snapshotFreshness = sf_fresh) && negb (bool_decide (healthState = vh_unavailable))
              && negb (bool_decide (snapshotCompleteness = sc_minimal)) then ro_partial
      else ro_insufficient
  end.

Definition config_key (key : string) : bool := endsWith "Configured" key || endsWith "Enabled" key.
Definition collectConnectorConfigReadinessMarkers `{CO : Collation} (metadata : record_) : list ConnectorConfigReadinessMarker :=
  map (fun kv => MkMarker kv.1 (match kv.2 with JBool b => b | _ => false end) (summariseBooleanKey kv.1))
    (js_sort (fun a b => locale_lt a.1 b.1)
      (List.filter (fun kv => match kv.2 with JBool _ => config_key kv.1 | _ => false end) metadata)).

Definition uniqueStrings (values : list string) : list string :=
  js_unique (List.filter (fun v => negb (bool_decide (js_trim v = ""))) values).

(** The arguments of [buildConnectorEligibilityBlockers]. *)
Record BlockerInput := MkBlockerInput {
  bi_capabilityClass : ConnectorCapabilityClass;
  bi_truthMode : VenueTruthMode;
  bi_snapshotFreshness : VenueSnapshotFreshness;
  bi_snapshotCompleteness : VenueTruthSnapshotCompleteness;
  bi_healthState : VenueHealthState;
  bi_healthy : bool;
  bi_lastSuccessfulSnapshotAt : option Z;
  bi_missingPrerequisites : list string;
  bi_readOnlyValidationState : ConnectorReadOnlyValidationState;
  bi_configReadiness : list ConnectorConfigReadinessMarker;
  bi_postTradeConfirmation : PostTradeConfirmation;
}.
Definition eligibility_blockers (input : BlockerInput) : list string :=
  bi_missingPrerequisites input
  ++ match bi_capabilityClass input with
     | cc_simulated_only => ["Connector is simulated only and cannot be promoted for live use."]
     | cc_real_readonly => ["Connector remains read-only and does not provide execution capability."]
     | cc_execution_capable => []
     end
  ++ push_if (negb (bool_decide (bi_truthMode input = tm_real))) "Connector does not currently expose real venue truth."
  ++ push_if (bool_decide (bi_lastSuccessfulSnapshotAt input = None)) "No successful venue-truth snapshot has been recorded."
  ++ push_if (negb (bool_decide (bi_snapshotFreshness input = sf_fresh))) "Latest venue-truth snapshot is stale."
  ++ push_if (negb (bi_healthy input) || negb (bool_decide (bi_healthState input = vh_healthy)))
       ("Connector health is " +:+ venue_health_str (bi_healthState input) +:+ ".")
  ++ push_if (negb (bool_decide (bi_snapshotCompleteness input = sc_complete)))
       ("Latest venue-truth snapshot completeness is " +:+ completeness_str (bi_snapshotCompleteness input) +:+ ".")
  ++ push_if (negb (bool_decide (bi_readOnlyValidationState input = ro_complete)))
       ("Read-only validation is " +:+ validation_str (bi_readOnlyValidationState input) +:+ ".")
  ++ concat (map (fun marker => push_if (negb (cm_ready marker)) (cm_summary marker +:+ " is not ready.")) (bi_configReadiness input))
  ++ (if bool_decide (bi_capabilityClass input = cc_execution_capable)
         && bool_decide (pt_status (bi_postTradeConfirmation input) = "blocked")
      then pt_blockingReasons (bi_postTradeConfirmation input) else []).
Definition buildConnectorEligibilityBlockers (input : BlockerInput) : list string := uniqueStrings (eligibility_blockers input).

Definition blocker_input `{CO : Collation} (venue : VenueInventoryCore) : BlockerInput := {|
  bi_capabilityClass := inferConnectorCapabilityClass (vi_truthMode venue) (vi_executionSupport venue);
  bi_truthMode := vi_truthMode venue; bi_snapshotFreshness := vi_snapshotFreshness venue;
  bi_snapshotCompleteness := vi_snapshotCompleteness venue; bi_healthState := vi_healthState venue; bi_healthy := vi_healthy venue;
  bi_lastSuccessfulSnapshotAt := vi_lastSuccessfulSnapshotAt venue; bi_missingPrerequisites := vi_missingPrerequisites venue;
  bi_readOnlyValidationState :=
    inferReadOnlyValidationState (vi_truthMode venue) (vi_snapshotFreshness venue) (vi_snapshotCompleteness venue) (vi_healthState venue);
  bi_configReadiness := collectConnectorConfigReadinessMarkers (vi_metadata venue);
  bi_postTradeConfirmation := or_else (vi_executionConfirmationState venue) default_confirmation |}.

Definition buildConnectorReadinessEvidence `{CO : Collation} (venue : VenueInventoryCore) : ConnectorReadinessEvidence :=
  let input := blocker_input venue in
  let blockingReasons := buildConnectorEligibilityBlockers input in {|
  ce_venueId := vi_venueId venue; ce_venueName := vi_venueName venue; ce_connectorType := vi_connectorType venue;
  ce_sleeveApplicability := vi_sleeveApplicability venue;
  ce_truthMode := vi_truthMode venue; ce_capabilityClass := bi_capabilityClass input; ce_executionSupport := vi_executionSupport venue;
  ce_readOnlySupport := vi_readOnlySupport venue; ce_snapshotFreshness := vi_snapshotFreshness venue;
  ce_snapshotCompleteness := vi_snapshotCompleteness venue; ce_healthy := vi_healthy venue; ce_healthState := vi_healthState venue;
  ce_degradedReason := vi_degradedReason venue; ce_lastSnapshotAt := vi_lastSnapshotAt venue;
  ce_lastSuccessfulSnapshotAt := vi_lastSuccessfulSnapshotAt venue;
  ce_truthCoverageAvailableCount := coverage_count "available" (vi_truthCoverage venue);
  ce_truthCoveragePartialCount := coverage_count "partial" (vi_truthCoverage venue);
  ce_truthCoverageUnsupportedCount := coverage_count "unsupported" (vi_truthCoverage venue);
  ce_readOnlyValidationState := bi_readOnlyValidationState input; ce_configReadiness := bi_configReadiness input;
  ce_missingPrerequisites := vi_missingPrerequisites venue; ce_blockingReasons := blockingReasons;
  ce_eligibleForPromotion := bool_decide (bi_capabilityClass input = cc_execution_capable) && is_empty blockingReasons;
  ce_postTradeConfirmation := bi_postTradeConfirmation input |}.

(** ** Promotion summaries *)

Definition deriveEffectivePosture (capabilityClass : ConnectorCapabilityClass) (promotionStatus : ConnectorPromotionStatus)
    : ConnectorEffectivePosture :=
  if bool_decide (promotionStatus = ps_suspended) then ep_suspended
  else match capabilityClass with
       | cc_simulated_only => ep_simulated_only
       | cc_real_readonly => ep_real_readonly
       | cc_execution_capable =>
           match promotionStatus with
           | ps_approved => ep_approved_for_live
           | ps_pending_review => ep_promotion_pending
           | ps_rejected => ep_rejected
           | _ => ep_execution_capable_unapproved
           end
       end.

Record ConnectorPromotionSummary := MkPromotionSummary {
  cp_promotionId : option string;
  cp_requestedTargetPosture : option string;
  cp_capabilityClass : ConnectorCapabilityClass;
  cp_promotionStatus : ConnectorPromotionStatus;
  cp_effectivePosture : ConnectorEffectivePosture;
  cp_approvedForLiveUse : bool;
  cp_sensitiveExecutionEligible : bool;
  cp_requestedBy : option string;
  cp_requestedAt : option Z;
  cp_reviewedBy : option string;
  cp_reviewedAt : option Z;
  cp_approvedBy : option string;
  cp_approvedAt : option Z;
  cp_rejectedBy : option string;
  cp_rejectedAt : option Z;
  cp_suspendedBy : option string;
  cp_suspendedAt : option Z;
  cp_latestNote : option string;
  cp_blockers : list string;
}.
Definition buildDefaultPromotionSummary (evidence : ConnectorReadinessEvidence) : ConnectorPromotionSummary :=
  MkPromotionSummary None None (ce_capabilityClass evidence) ps_not_requested (deriveEffectivePosture (ce_capabilityClass evidence) ps_not_requested)
    false false None None None None None None None None None None None (ce_blockingReasons evidence).

(** A row of [venue_connector_promotions]; the columns that repeat parts of the
    evidence are left out. *)
Record PromotionRow := MkPromotionRow {
  pm_id : string;
  pm_venueId : string;
  pm_venueName : string;
  pm_connectorType : string;
  pm_requestedTargetPosture : string;
  pm_capabilityClass : ConnectorCapabilityClass;
  pm_promotionStatus : ConnectorPromotionStatus;
  pm_effectivePosture : ConnectorEffectivePosture;
  pm_approvedForLiveUse : bool;
  pm_sensitiveExecutionEligible : bool;
  pm_readinessEvidence : ConnectorReadinessEvidence;
  pm_requestedBy : string;
  pm_requestedAt : Z;
  pm_reviewedBy : option string;
  pm_reviewedAt : option Z;
  pm_approvedBy : option string;
  pm_approvedAt : option Z;
  pm_rejectedBy : option string;
  pm_rejectedAt : option Z;
  pm_suspendedBy : option string;
  pm_suspendedAt : option Z;
  pm_decisionNote : option string;
  pm_createdAt : Z;
  pm_updatedAt : Z;
}.
Definition buildPromotionSummaryFromRow (row : PromotionRow) (evidence : ConnectorReadinessEvidence) : ConnectorPromotionSummary :=
  let promotionStatus := pm_promotionStatus row in
  let effectivePosture := deriveEffectivePosture (ce_capabilityClass evidence) promotionStatus in
  let approvedForLiveUse := bool_decide (promotionStatus = ps_approved) in
  MkPromotionSummary (Some (pm_id row)) (Some (pm_requestedTargetPosture row)) (ce_capabilityClass evidence) promotionStatus effectivePosture approvedForLiveUse
    (approvedForLiveUse && bool_decide (effectivePosture = ep_approved_for_live) && ce_eligibleForPromotion evidence)
    (Some (pm_requestedBy row)) (Some (pm_requestedAt row)) (pm_reviewedBy row) (pm_reviewedAt row) (pm_approvedBy row) (pm_approvedAt row)
    (pm_rejectedBy row) (pm_rejectedAt row) (pm_suspendedBy row) (pm_suspendedAt row) (pm_decisionNote row) (ce_blockingReasons evidence).
Definition promotion_summary (row : option PromotionRow) (evidence : ConnectorReadinessEvidence) : ConnectorPromotionSummary :=
  match row with None => buildDefaultPromotionSummary evidence | Some r => buildPromotionSummaryFromRow r evidence end.

(** The evidence for a venue without any snapshot. *)
Definition buildFallbackConnectorReadinessEvidence (venueId venueName connectorType : string) (sleeveApplicability : list string)
    (truthMode : VenueTruthMode) (executionSupport readOnlySupport healthy : bool) (healthState : VenueHealthState)
    (degradedReason : option string) (lastSnapshotAt : Z) (missingPrerequisites : list string) : ConnectorReadinessEvidence :=
  let input := {|
    bi_capabilityClass := inferConnectorCapabilityClass truthMode executionSupport; bi_truthMode := truthMode;
    bi_snapshotFreshness := sf_missing; bi_snapshotCompleteness := sc_minimal; bi_healthState := healthState; bi_healthy := healthy;
    bi_lastSuccessfulSnapshotAt := None;
    bi_missingPrerequisites := missingPrerequisites ++ ["No generic venue-truth inventory snapshot is available for this connector."];
    bi_readOnlyValidationState := inferReadOnlyValidationState truthMode sf_missing sc_minimal healthState;
    bi_configReadiness := []; bi_postTradeConfirmation := default_confirmation |} in {|
  ce_venueId := venueId; ce_venueName := venueName; ce_connectorType := connectorType; ce_sleeveApplicability := sleeveApplicability;
  ce_truthMode := truthMode; ce_capabilityClass := bi_capabilityClass input; ce_executionSupport := executionSupport;
  ce_readOnlySupport := readOnlySupport; ce_snapshotFreshness := sf_missing; ce_snapshotCompleteness := sc_minimal; ce_healthy := healthy;
  ce_healthState := healthState; ce_degradedReason := degradedReason; ce_lastSnapshotAt := lastSnapshotAt;
  ce_lastSuccessfulSnapshotAt := None; ce_truthCoverageAvailableCount := 0; ce_truthCoveragePartialCount := 0;
  ce_truthCoverageUnsupportedCount := 0; ce_readOnlyValidationState := bi_readOnlyValidationState input; ce_configReadiness := [];
  ce_missingPrerequisites := missingPrerequisites; ce_blockingReasons := buildConnectorEligibilityBlockers input;
  ce_eligibleForPromotion := false; ce_postTradeConfirmation := default_confirmation |}.

(** ** When a connector is eligible *)

Definition blank (s : string) : Prop := js_trim s = "".

Lemma trim_end_empty s : trim_end s = "" <-> str_all (fun c => is_space c = true) s.
Proof.
  induction s as [|c s IH]; [split; [constructor|done]|]. cbn. unfold str_all in *. cbn. rewrite List.Forall_cons_iff, <- IH.
  destruct (bool_decide (trim_end s = "") && is_space c) eqn:E.
  - apply andb_true_iff in E as [E%bool_decide_eq_true ->]. by rewrite E.
  - split; [done|]. intros [Hc Hs]. rewrite Hs, Hc in E. done.
Qed.
Lemma blank_spaces s : blank s <-> str_all (fun c => is_space c = true) s.
Proof.
  unfold blank, js_trim. rewrite trim_end_empty. unfold str_all. induction s as [|c s IH]; [done|]. cbn [trim_start].
  destruct (is_space c) eqn:E; [|done]. rewrite IH. cbn. rewrite List.Forall_cons_iff. by rewrite E; intuition.
Qed.
Lemma app_not_blank s t : ~ blank t -> ~ blank (s +:+ t).
Proof.
  rewrite !blank_spaces. unfold str_all. intros Ht H. apply Ht. induction s as [|c s IH]; [exact H|]. apply IH.
  change (String c s +:+ t) with (String c (s +:+ t)) in H. by apply List.Forall_inv_tail in H.
Qed.

Lemma uniqueStrings_empty l : is_empty (uniqueStrings l) = true <-> Forall blank l.
Proof.
  rewrite is_empty_nil. unfold uniqueStrings. set (f := List.filter _ l).
  assert (E : js_unique f = [] <-> f = []).
  { split; [|by intros ->]. intros H. destruct f as [|x f']; [done|]. pose proof (proj2 (js_unique_spec (x :: f')) x) as Hx.
    rewrite H in Hx. exfalso. eapply elem_of_nil, Hx. by left. }
  rewrite E. clear E. subst f. induction l as [|x l IH]; [split; [constructor|done]|]. cbn. unfold blank in *. case_bool_decide; cbn.
  - rewrite IH. split; [by constructor|]. by intros [_ ?]%Forall_cons_1.
  - split; [done|]. by intros [? _]%Forall_cons_1.
Qed.

Lemma head_not_blank c s : is_space c = false -> ~ blank (String c s).
Proof. intros Hc. rewrite blank_spaces. unfold str_all. cbn. intros [H _]%Forall_cons_1. by rewrite Hc in H. Qed.

Lemma blank_push c s : ~ blank s -> Forall blank (push_if c s) <-> c = false.
Proof. intros Hs. destruct c; cbn; [|by split; [|constructor]]. split; [|done]. by intros [? _]%Forall_cons_1. Qed.

Section Eligible.
Context `{CO : Collation}.

Lemma markers_ready metadata : Forall blank (concat (map (fun marker => push_if (negb (cm_ready marker)) (cm_summary marker +:+ " is not ready."))
    (collectConnectorConfigReadinessMarkers metadata)))
  <-> forall key b, (key, JBool b) ∈ metadata -> config_key key = true -> b = true.
Proof.
  unfold collectConnectorConfigReadinessMarkers. set (l := js_sort _ _).
  assert (Hl : forall kv, kv ∈ l <-> kv ∈ metadata /\ match kv.2 with JBool _ => config_key kv.1 | _ => false end = true).
  { intros kv. subst l. rewrite (js_sort_perm _ _). rewrite !list_elem_of_In, filter_In. done. }
  clearbody l. rewrite map_map. cbn [cm_ready cm_summary]. split.
  - intros H key b Hin Hk. assert (Hkv : (key, JBool b) ∈ l) by by apply Hl. destruct b; [done|].
    rewrite List.Forall_concat in H. exfalso.
    apply list_elem_of_In in Hkv. apply (in_map (fun kv => push_if (negb match kv.2 with JBool b => b | _ => false end) (summariseBooleanKey kv.1 +:+ " is not ready."))) in Hkv.
    rewrite List.Forall_forall in H. specialize (H _ Hkv). cbn in H. apply Forall_cons_1 in H as [H _]. revert H. by apply app_not_blank.
  - intros H. rewrite List.Forall_concat, List.Forall_map, List.Forall_forall. intros [key v] Hin. cbn.
    apply blank_push; [by apply app_not_blank|]. apply list_elem_of_In, Hl in Hin as [Hin Hk]. cbn in Hk.
    destruct v; try done. by rewrite (H _ _ Hin Hk).
Qed.

#[local] Opaque blank.
(** C21. When a connector is eligible for live use.  Exactly if it exposes real
    venue truth and can execute, its latest snapshot is complete and at most
    fifteen minutes old, its health is good, some snapshot succeeded, no
    prerequisite is missing, every configuration flag of its metadata is set, and
    its recent executions are not blocked for a stated reason. *)
Theorem eligible_exact (venue : VenueInventoryCore) :
  ce_eligibleForPromotion (buildConnectorReadinessEvidence venue) = true <->
  (vi_truthMode venue = tm_real /\ vi_executionSupport venue = true) /\
  (vi_snapshotFreshness venue = sf_fresh /\ vi_snapshotCompleteness venue = sc_complete) /\
  (vi_healthy venue = true /\ vi_healthState venue = vh_healthy) /\
  is_Some (vi_lastSuccessfulSnapshotAt venue) /\ Forall blank (vi_missingPrerequisites venue) /\
  (forall key b, (key, JBool b) ∈ vi_metadata venue -> config_key key = true -> b = true) /\
  (forall c, vi_executionConfirmationState venue = Some c -> pt_status c = "blocked" -> Forall blank (pt_blockingReasons c)).
Proof.
  cbn [ce_eligibleForPromotion buildConnectorReadinessEvidence]. rewrite andb_true_iff, bool_decide_eq_true. unfold buildConnectorEligibilityBlockers.
  rewrite uniqueStrings_empty. unfold eligibility_blockers.
  cbn [blocker_input bi_capabilityClass bi_truthMode bi_snapshotFreshness bi_snapshotCompleteness bi_healthState bi_healthy
       bi_lastSuccessfulSnapshotAt bi_missingPrerequisites bi_readOnlyValidationState bi_configReadiness bi_postTradeConfirmation].
  rewrite !List.Forall_app, markers_ready.
  rewrite !blank_push by (first [apply (head_not_blank "C"%char) | apply (head_not_blank "L"%char) | apply (head_not_blank "N"%char) | apply (head_not_blank "R"%char)]; reflexivity).
  destruct venue as [? ? ? ? tm ? es missing hy hs ? fr co ? ok ? conf md].
  cbn [vi_truthMode vi_executionSupport vi_snapshotFreshness vi_snapshotCompleteness vi_healthy vi_healthState vi_lastSuccessfulSnapshotAt
       vi_missingPrerequisites vi_metadata vi_executionConfirmationState].
  split.
  - intros (Hc & Hm & _ & H1 & H2 & H3 & H4 & H5 & _ & Hk & Hp). destruct tm, es; try done. cbn [inferConnectorCapabilityClass] in Hp.
    apply orb_false_iff in H4 as [H4 H6]. destruct hy; [|done]. rewrite negb_false_iff, bool_decide_eq_true in H3, H5, H6.
    rewrite bool_decide_eq_false in H2. assert (is_Some ok) by (destruct ok; [by eexists|done]). split_and!; try done.
    intros c -> Hb. cbn [or_else] in Hp. rewrite !bool_decide_true in Hp by done. exact Hp.
  - intros ([-> ->] & [-> ->] & [-> ->] & [t ->] & Hm & Hk & Hp). cbn [inferConnectorCapabilityClass]. split_and!; try done.
    rewrite bool_decide_true by done. destruct conf as [c|]; cbn [or_else andb].
    + case_bool_decide; [by apply Hp|constructor].
    + rewrite bool_decide_false by done. constructor.
Qed.
End Eligible.
