(* ===== verification/ConnectorPromotion.v ===== *)
(** * Connector promotion (packages/runtime: store.ts and control-plane.ts)

    The workflow that approves a venue connector for live use: an operator
    requests a review, an administrator approves or rejects it, and may suspend an
    approved connector.  The control plane guards the transitions that the store
    writes.  The statements of the database are the class [PromotionDb].  The file
    shows that no connector is open to sensitive execution unless an operator
    requested and an administrator approved it, on evidence that made it eligible,
    and that evidence still does.  Calls are run one after the other; the rows and
    the clock may change between them. *)
From Stdlib Require Import Ascii.
From S2P Require Import Prelude JsNumber JsValue JsText DerivativeState ReconcileVenues ConnectorEvidence.
Open Scope Z_scope.

Inductive ConnectorPromotionEventType := ev_requested | ev_approved | ev_rejected | ev_suspended.
Inductive ActorRole := role_viewer | role_operator | role_admin.
#[export] Instance ActorRole_eq_dec : EqDecision ActorRole.
Proof. solve_decision. Defined.

(** A row of [venue_connector_promotion_events]. *)
Record PromotionEvent := MkPromotionEvent {
  pe_id : string;
  pe_promotionId : string;
  pe_venueId : string;
  pe_eventType : ConnectorPromotionEventType;
  pe_fromStatus : option ConnectorPromotionStatus;
  pe_toStatus : ConnectorPromotionStatus;
  pe_effectivePosture : ConnectorEffectivePosture;
  pe_requestedTargetPosture : string;
  pe_actorId : string;
  pe_note : option string;
  pe_evidence : ConnectorReadinessEvidence;
  pe_occurredAt : Z;
}.
Record ConnectorPromotionDetail := MkPromotionDetail {
  pd_venueId : string;
  pd_venueName : string;
  pd_connectorType : string;
  pd_sleeveApplicability : list string;
  pd_current : ConnectorPromotionSummary;
  pd_evidence : ConnectorReadinessEvidence;
  pd_history : list PromotionEvent;
}.
Record ConnectorPromotionOverview := MkPromotionOverview {
  po_totalVenues : Z;
  po_candidates : Z;
  po_pendingReview : Z;
  po_approved : Z;
  po_approvedAndEligible : Z;
  po_rejected : Z;
  po_suspended : Z;
  po_blockedByEvidence : Z;
}.
(** The audit event of a transition: its type, actor and data. *)
Record PromotionAudit := MkPromotionAudit { pa_eventType : string; pa_actorId : string; pa_data : record_ }.

(** ** The database *)

Class PromotionDb := {
  Pdb : Type;
  pdb_now : eff Pdb Z;
  (** the snapshots of all venues, the latest first *)
  pdb_snapshots : eff Pdb (list VenueSnapshotRow);
  (** the promotions of some venues, or of all for the empty list, the last updated first *)
  pdb_promotions : list string -> eff Pdb (list PromotionRow);
  pdb_events : string -> eff Pdb (list PromotionEvent);
  pdb_insert_promotion : (string -> PromotionRow) -> eff Pdb (option PromotionRow);
  pdb_update_promotion : string -> (PromotionRow -> PromotionRow) -> eff Pdb unit;
  pdb_insert_event : (string -> PromotionEvent) -> eff Pdb unit;
  (** [auditWriter.write] *)
  pdb_audit : PromotionAudit -> eff Pdb unit;
}.

Definition update_row (id : string) (upd : PromotionRow -> PromotionRow) (rows : list PromotionRow) : list PromotionRow :=
  map (fun r => if decide (pm_id r = id) then upd r else r) rows.

(** The documented behaviour; a statement may fail, changing what it was to change
    or nothing, and does what it says when it returns. *)
Class PromotionDbLaws `{PD : PromotionDb} := {
  rows_of : Pdb -> list PromotionRow;
  snapshots_of : Pdb -> list VenueSnapshotRow;
  (** the order of the query over promotions *)
  latest_first : list PromotionRow -> list PromotionRow;
  latest_first_perm : forall l, latest_first l ≡ₚ l;
  same_promotions (d d' : Pdb) : Prop := rows_of d' = rows_of d /\ snapshots_of d' = snapshots_of d;
  pdb_now_law : keeps same_promotions pdb_now;
  pdb_events_law : forall v, keeps same_promotions (pdb_events v);
  pdb_insert_event_law : forall mk, keeps same_promotions (pdb_insert_event mk);
  pdb_audit_law : forall e, keeps same_promotions (pdb_audit e);
  pdb_snapshots_law : forall d r d', pdb_snapshots d = (r, d') -> same_promotions d d' /\ forall l, r = Ret l -> l = snapshots_of d;
  pdb_promotions_law : forall vs d r d', pdb_promotions vs d = (r, d') -> same_promotions d d' /\
    forall l, r = Ret l -> l = latest_first (List.filter (fun row => is_empty vs || bool_decide (pm_venueId row ∈ vs)) (rows_of d));
  pdb_insert_law : forall mk d r d', pdb_insert_promotion mk d = (r, d') -> snapshots_of d' = snapshots_of d /\
    ((rows_of d' = rows_of d /\ forall row, r <> Ret (Some row)) \/
     exists id, id ∉ map pm_id (rows_of d) /\ rows_of d' = rows_of d ++ [mk id] /\ forall row, r = Ret (Some row) -> row = mk id);
  pdb_update_law : forall id upd d r d', pdb_update_promotion id upd d = (r, d') -> snapshots_of d' = snapshots_of d /\
    ((rows_of d' = rows_of d /\ r <> Ret tt) \/ rows_of d' = update_row id upd (rows_of d));
}.

Section Promotion.
Context `{PD : PromotionDb} `{CO : Collation}.

(** ** The store *)

Definition listVenueInventoryCore (limit : Z) : eff Pdb (list VenueInventoryCore) :=
  rows ← pdb_snapshots;
  now ← pdb_now;
  mret (inventory_of now limit rows).
Definition find_venue (venueId : string) (inventory : list VenueInventoryCore) : option VenueInventoryCore :=
  find_key vi_venueId venueId inventory.

(** The first row of every venue. *)
Definition first_rows (rows : list PromotionRow) : list (string * PromotionRow) :=
  fold_left (fun latestByVenue row =>
    if jm_has (pm_venueId row) latestByVenue then latestByVenue else jm_set (pm_venueId row) row latestByVenue) rows [].
Definition getLatestVenuePromotionRows (venueIds : list string) : eff Pdb (list (string * PromotionRow)) :=
  rows ← pdb_promotions venueIds;
  mret (first_rows rows).
Definition getLatestVenuePromotionRow (venueId : string) : eff Pdb (option PromotionRow) :=
  promotions ← getLatestVenuePromotionRows [venueId];
  mret (jm_get venueId promotions).

Definition buildConnectorPromotionDetailForVenue (venue : VenueInventoryCore) : eff Pdb ConnectorPromotionDetail :=
  let evidence := buildConnectorReadinessEvidence venue in
  latestPromotionRows ← getLatestVenuePromotionRows [vi_venueId venue];
  historyRows ← pdb_events (vi_venueId venue);
  mret {| pd_venueId := vi_venueId venue; pd_venueName := vi_venueName venue; pd_connectorType := vi_connectorType venue;
          pd_sleeveApplicability := vi_sleeveApplicability venue;
          pd_current := promotion_summary (jm_get (vi_venueId venue) latestPromotionRows) evidence;
          pd_evidence := evidence; pd_history := historyRows |}.

Definition getConnectorPromotion (venueId : string) : eff Pdb (option ConnectorPromotionDetail) :=
  inventory ← listVenueInventoryCore 500;
  match find_venue venueId inventory with
  | None => mret None
  | Some venue => detail ← buildConnectorPromotionDetailForVenue venue; mret (Some detail)
  end.
Definition listConnectorPromotionHistory (venueId : string) : eff Pdb (list PromotionEvent) := pdb_events venueId.
Definition getConnectorPromotionEligibility (venueId : string) : eff Pdb (option ConnectorReadinessEvidence) :=
  inventory ← listVenueInventoryCore 500;
  mret (buildConnectorReadinessEvidence <$> find_venue venueId inventory).

Definition buildPromotionSummaryMap (venues : list VenueInventoryCore) : eff Pdb (list (string * ConnectorPromotionSummary)) :=
  latestPromotions ← getLatestVenuePromotionRows (map vi_venueId venues);
  mret (jm_of_list (map (fun venue => (vi_venueId venue,
    promotion_summary (jm_get (vi_venueId venue) latestPromotions) (buildConnectorReadinessEvidence venue))) venues)).
Definition count_summaries (f : ConnectorPromotionSummary -> bool) (l : list ConnectorPromotionSummary) : Z := Z.of_nat (length (List.filter f l)).
(** [listVenues] gives every venue the summary of the map. *)
Definition getConnectorPromotionOverview : eff Pdb ConnectorPromotionOverview :=
  venues ← listVenueInventoryCore 500;
  summaries ← buildPromotionSummaryMap venues;
  let rows := map (fun venue => or_else (jm_get (vi_venueId venue) summaries)
                                  (buildDefaultPromotionSummary (buildConnectorReadinessEvidence venue))) venues in
  let with_status := fun s => count_summaries (fun p => bool_decide (cp_promotionStatus p = s)) rows in
  let capable := fun p => bool_decide (cp_capabilityClass p = cc_execution_capable) in
  mret {| po_totalVenues := Z.of_nat (length rows); po_candidates := count_summaries capable rows; po_pendingReview := with_status ps_pending_review;
          po_approved := with_status ps_approved; po_approvedAndEligible := count_summaries cp_sensitiveExecutionEligible rows;
          po_rejected := with_status ps_rejected; po_suspended := with_status ps_suspended;
          po_blockedByEvidence :=
            count_summaries (fun p => capable p && negb (cp_sensitiveExecutionEligible p) && negb (is_empty (cp_blockers p))) rows |}.

Definition CONNECTOR_PROMOTION_TARGET_POSTURE : string := "approved_for_live".
Definition insertConnectorPromotionEvent (promotionId venueId : string) (eventType : ConnectorPromotionEventType)
    (fromStatus : option ConnectorPromotionStatus) (toStatus : ConnectorPromotionStatus) (effectivePosture : ConnectorEffectivePosture)
    (actorId : string) (note : option string) (evidence : ConnectorReadinessEvidence) : eff Pdb unit :=
  now ← pdb_now;
  pdb_insert_event (fun id => MkPromotionEvent id promotionId venueId eventType fromStatus toStatus effectivePosture
                                CONNECTOR_PROMOTION_TARGET_POSTURE actorId note evidence now).

Definition new_promotion (venue : VenueInventoryCore) (evidence : ConnectorReadinessEvidence) (actorId : string) (note : option string)
    (now : Z) (id : string) : PromotionRow := {|
  pm_id := id; pm_venueId := vi_venueId venue; pm_venueName := vi_venueName venue; pm_connectorType := vi_connectorType venue;
  pm_requestedTargetPosture := CONNECTOR_PROMOTION_TARGET_POSTURE; pm_capabilityClass := ce_capabilityClass evidence;
  pm_promotionStatus := ps_pending_review; pm_effectivePosture := deriveEffectivePosture (ce_capabilityClass evidence) ps_pending_review;
  pm_approvedForLiveUse := false; pm_sensitiveExecutionEligible := false; pm_readinessEvidence := evidence; pm_requestedBy := actorId;
  pm_requestedAt := now; pm_reviewedBy := None; pm_reviewedAt := None; pm_approvedBy := None; pm_approvedAt := None; pm_rejectedBy := None;
  pm_rejectedAt := None; pm_suspendedBy := None; pm_suspendedAt := None; pm_decisionNote := note; pm_createdAt := now; pm_updatedAt := now |}.

Definition store_requestConnectorPromotion (venueId actorId : string) (note : option string) : eff Pdb (option ConnectorPromotionDetail) :=
  inventory ← listVenueInventoryCore 500;
  match find_venue venueId inventory with
  | None => mret None
  | Some venue =>
      let evidence := buildConnectorReadinessEvidence venue in
      now ← pdb_now;
      row ← pdb_insert_promotion (new_promotion venue evidence actorId note now);
      match row with
      | None => mret None
      | Some r =>
          _ ← insertConnectorPromotionEvent (pm_id r) (pm_venueId r) ev_requested None ps_pending_review
                (deriveEffectivePosture (ce_capabilityClass evidence) ps_pending_review) actorId note evidence;
          getConnectorPromotion venueId
      end
  end.

(** What approval, rejection and suspension set, with the fields of the decision. *)
Inductive Decision := Approval | Rejection | Suspension.
Definition decided_status (c : Decision) : ConnectorPromotionStatus :=
  match c with Approval => ps_approved | Rejection => ps_rejected | Suspension => ps_suspended end.
Definition decision_event (c : Decision) : ConnectorPromotionEventType :=
  match c with Approval => ev_approved | Rejection => ev_rejected | Suspension => ev_suspended end.
Definition when_decision {A} (c c' : Decision) (new old : A) : A :=
  match c, c' with Approval, Approval | Rejection, Rejection | Suspension, Suspension => new | _, _ => old end.
Definition decided_row (c : Decision) (venue : VenueInventoryCore) (evidence : ConnectorReadinessEvidence) (actorId : string)
    (note : option string) (now : Z) (row : PromotionRow) : PromotionRow := {|
  pm_id := pm_id row; pm_venueId := pm_venueId row; pm_venueName := vi_venueName venue; pm_connectorType := vi_connectorType venue;
  pm_requestedTargetPosture := pm_requestedTargetPosture row; pm_capabilityClass := ce_capabilityClass evidence;
  pm_promotionStatus := decided_status c; pm_effectivePosture := deriveEffectivePosture (ce_capabilityClass evidence) (decided_status c);
  pm_approvedForLiveUse := when_decision c Approval true false;
  pm_sensitiveExecutionEligible := when_decision c Approval (ce_eligibleForPromotion evidence) false; pm_readinessEvidence := evidence;
  pm_requestedBy := pm_requestedBy row; pm_requestedAt := pm_requestedAt row;
  pm_reviewedBy := when_decision c Suspension (pm_reviewedBy row) (Some actorId);
  pm_reviewedAt := when_decision c Suspension (pm_reviewedAt row) (Some now);
  pm_approvedBy := when_decision c Approval (Some actorId) (pm_approvedBy row);
  pm_approvedAt := when_decision c Approval (Some now) (pm_approvedAt row);
  pm_rejectedBy := when_decision c Rejection (Some actorId) (pm_rejectedBy row);
  pm_rejectedAt := when_decision c Rejection (Some now) (pm_rejectedAt row);
  pm_suspendedBy := when_decision c Suspension (Some actorId) (pm_suspendedBy row);
  pm_suspendedAt := when_decision c Suspension (Some now) (pm_suspendedAt row);
  pm_decisionNote := note; pm_createdAt := pm_createdAt row; pm_updatedAt := now |}.

(** [approveConnectorPromotion], [rejectConnectorPromotion] and
    [suspendConnectorPromotion] of the store. *)
Definition store_decide (c : Decision) (venueId actorId : string) (note : option string) : eff Pdb (option ConnectorPromotionDetail) :=
  inventory ← listVenueInventoryCore 500;
  match find_venue venueId inventory with
  | None => mret None
  | Some venue =>
      current ← getLatestVenuePromotionRow venueId;
      match current with
      | None => mret None
      | Some row =>
          let evidence := buildConnectorReadinessEvidence venue in
          now ← pdb_now;
          _ ← pdb_update_promotion (pm_id row) (decided_row c venue evidence actorId note now);
          _ ← insertConnectorPromotionEvent (pm_id row) venueId (decision_event c) (Some (pm_promotionStatus row)) (decided_status c)
                (deriveEffectivePosture (ce_capabilityClass evidence) (decided_status c)) actorId note evidence;
          getConnectorPromotion venueId
      end
  end.

(** ** The control plane *)

Definition canSatisfyApprovalRequirement (actorRole requiredRole : ActorRole) : bool :=
  match requiredRole with
  | role_operator => bool_decide (actorRole = role_operator) || bool_decide (actorRole = role_admin)
  | _ => bool_decide (actorRole = role_admin)
  end.

Definition audited (updated : option ConnectorPromotionDetail) (event : PromotionAudit) : eff Pdb (option ConnectorPromotionDetail) :=
  _ ← (match updated with Some _ => pdb_audit event | None => mret tt end);
  mret updated.
Definition note_json (note : option string) : jsval := JStrNull note.
Definition blockers_json (detail : ConnectorPromotionDetail) : jsval := JArr (map JStr (ce_blockingReasons (pd_evidence detail))).
Definition capability_str (c : ConnectorCapabilityClass) : string :=
  match c with cc_simulated_only => "simulated_only" | cc_real_readonly => "real_readonly" | cc_execution_capable => "execution_capable" end.

Definition requestConnectorPromotion (venueId actorId : string) (actorRole : ActorRole) (note : option string)
    : eff Pdb (option ConnectorPromotionDetail) :=
  if negb (canSatisfyApprovalRequirement actorRole role_operator) then
    throw_eff (Error_ "Connector promotion requests require operator access.")
  else
    found ← getConnectorPromotion venueId;
    match found with
    | None => mret None
    | Some detail =>
        if negb (bool_decide (ce_capabilityClass (pd_evidence detail) = cc_execution_capable)) then
          throw_eff (Error_ "Only execution-capable connectors can enter promotion review.")
        else if bool_decide (cp_promotionStatus (pd_current detail) = ps_pending_review) then
          throw_eff (Error_ "Connector already has a pending promotion review.")
        else if bool_decide (cp_promotionStatus (pd_current detail) = ps_approved) then
          throw_eff (Error_ "Connector is already approved for live use.")
        else
          updated ← store_requestConnectorPromotion venueId actorId note;
          audited updated (MkPromotionAudit "connector.promotion_requested" actorId
            [("venueId", JStr venueId); ("capabilityClass", JStr (capability_str (ce_capabilityClass (pd_evidence detail))));
             ("blockers", blockers_json detail); ("note", note_json note)])
    end.

Definition wrong_status (verb : string) (s : ConnectorPromotionStatus) : JsError :=
  Error_ ("Connector promotion cannot be " +:+ verb +:+ " from status " +:+ quoted (promotion_status_str s) +:+ ".").

Definition approveConnectorPromotion (venueId actorId : string) (actorRole : ActorRole) (note : option string)
    : eff Pdb (option ConnectorPromotionDetail) :=
  if negb (canSatisfyApprovalRequirement actorRole role_admin) then
    throw_eff (Error_ "Connector promotion approval requires admin access.")
  else
    found ← getConnectorPromotion venueId;
    match found with
    | None => mret None
    | Some detail =>
        if negb (bool_decide (cp_promotionStatus (pd_current detail) = ps_pending_review)) then
          throw_eff (wrong_status "approved" (cp_promotionStatus (pd_current detail)))
        else if negb (ce_eligibleForPromotion (pd_evidence detail)) then
          throw_eff (Error_ (js_join "; " (ce_blockingReasons (pd_evidence detail))))
        else
          updated ← store_decide Approval venueId actorId note;
          audited updated (MkPromotionAudit "connector.promotion_approved" actorId
            [("venueId", JStr venueId); ("blockers", blockers_json detail); ("note", note_json note)])
    end.

Definition rejectConnectorPromotion (venueId actorId : string) (actorRole : ActorRole) (note : string)
    : eff Pdb (option ConnectorPromotionDetail) :=
  if negb (canSatisfyApprovalRequirement actorRole role_admin) then
    throw_eff (Error_ "Connector promotion rejection requires admin access.")
  else
    found ← getConnectorPromotion venueId;
    match found with
    | None => mret None
    | Some detail =>
        if negb (bool_decide (cp_promotionStatus (pd_current detail) = ps_pending_review)) then
          throw_eff (wrong_status "rejected" (cp_promotionStatus (pd_current detail)))
        else
          updated ← store_decide Rejection venueId actorId (Some note);
          audited updated (MkPromotionAudit "connector.promotion_rejected" actorId [("venueId", JStr venueId); ("note", JStr note)])
    end.

Definition suspendConnectorPromotion (venueId actorId : string) (actorRole : ActorRole) (note : string)
    : eff Pdb (option ConnectorPromotionDetail) :=
  if negb (canSatisfyApprovalRequirement actorRole role_admin) then
    throw_eff (Error_ "Connector promotion suspension requires admin access.")
  else
    found ← getConnectorPromotion venueId;
    match found with
    | None => mret None
    | Some detail =>
        if negb (bool_decide (cp_promotionStatus (pd_current detail) = ps_approved)) then
          throw_eff (wrong_status "suspended" (cp_promotionStatus (pd_current detail)))
        else
          updated ← store_decide Suspension venueId actorId (Some note);
          audited updated (MkPromotionAudit "connector.promotion_suspended" actorId [("venueId", JStr venueId); ("note", JStr note)])
    end.
End Promotion.

Lemma NoDup_key_eq {A} (f : A -> string) l x y : NoDup (map f l) -> x ∈ l -> y ∈ l -> f x = f y -> x = y.
Proof.
  induction l as [|z l IH]; [by intros _ ?%elem_of_nil|]. cbn. intros [Hz Hn]%NoDup_cons [->|Hx]%elem_of_cons [->|Hy]%elem_of_cons E; [done| | |by apply IH].
  - exfalso. apply Hz. rewrite E. by apply list_elem_of_fmap_2.
  - exfalso. apply Hz. rewrite <- E. by apply list_elem_of_fmap_2.
Qed.

(** ** The workflow *)

Section Workflow.
Context `{PL : PromotionDbLaws} `{CO : Collation}.

#[local] Instance same_promotions_preorder : PreOrder same_promotions.
Proof. split; [done|]. intros a b c [H1 H2] [H3 H4]. split; congruence. Qed.
#[local] Hint Resolve pdb_now_law pdb_events_law pdb_insert_event_law pdb_audit_law : keeps.

Lemma keeps_snapshots : keeps same_promotions pdb_snapshots.
Proof. intros d r d' H. by apply pdb_snapshots_law in H as [? _]. Qed.
Lemma keeps_promotions vs : keeps same_promotions (pdb_promotions vs).
Proof. intros d r d' H. by apply pdb_promotions_law in H as [? _]. Qed.
#[local] Hint Resolve keeps_snapshots keeps_promotions : keeps.
Lemma keeps_inventory limit : keeps same_promotions (listVenueInventoryCore limit).
Proof. unfold listVenueInventoryCore. keeps_tac. Qed.
Lemma keeps_latest v : keeps same_promotions (getLatestVenuePromotionRow v).
Proof. unfold getLatestVenuePromotionRow, getLatestVenuePromotionRows. keeps_tac. Qed.
#[local] Hint Resolve keeps_inventory keeps_latest : keeps.
Lemma keeps_get v : keeps same_promotions (getConnectorPromotion v).
Proof. unfold getConnectorPromotion, buildConnectorPromotionDetailForVenue, getLatestVenuePromotionRows. keeps_tac. Qed.
Lemma keeps_event a b c e f g h i j : keeps same_promotions (insertConnectorPromotionEvent a b c e f g h i j).
Proof. unfold insertConnectorPromotionEvent. keeps_tac. Qed.
Lemma keeps_audited u e : keeps same_promotions (audited u e).
Proof. unfold audited. keeps_tac. Qed.
#[local] Hint Resolve keeps_get keeps_event keeps_audited : keeps.

(** *** What is read *)

(** The last updated promotion of a venue, and the evidence of a venue at a time. *)
Definition latest_row (venueId : string) (d : Pdb) : option PromotionRow :=
  jm_get venueId (first_rows (latest_first (List.filter (fun row => is_empty [venueId] || bool_decide (pm_venueId row ∈ [venueId])) (rows_of d)))).
Definition evidence_at (venueId : string) (now : Z) (d : Pdb) : option ConnectorReadinessEvidence :=
  buildConnectorReadinessEvidence <$> find_venue venueId (inventory_of now 500 (snapshots_of d)).

Lemma same_latest v d d' : same_promotions d d' -> latest_row v d' = latest_row v d.
Proof. intros [E _]. unfold latest_row. by rewrite E. Qed.

Lemma first_rows_spec l v row : jm_get v (first_rows l) = Some row -> row ∈ l /\ pm_venueId row = v.
Proof.
  unfold first_rows. cut (forall acc, (forall v row, jm_get v acc = Some row -> pm_venueId row = v) ->
    jm_get v (fold_left (fun m r => if jm_has (pm_venueId r) m then m else jm_set (pm_venueId r) r m) l acc) = Some row ->
    (row ∈ l \/ jm_get v acc = Some row) /\ pm_venueId row = v).
  { intros H E. destruct (H [] ltac:(done) E) as [[?|?] ?]; done. }
  induction l as [|x l IH]; intros acc Hacc H; cbn [fold_left] in H; [split; [by right|by apply Hacc]|].
  destruct (jm_has (pm_venueId x) acc); [destruct (IH _ Hacc H) as [[?|?] ?]; (split; [|done]); [left; by right|by right]|].
  apply IH in H as [[H|H] Hv].
  - split; [left; by right|done].
  - split; [|done]. rewrite jm_get_set in H. destruct (decide (v = pm_venueId x)) as [->|]; [injection H as ->; left; by left|by right].
  - intros v0 row0 H0. rewrite jm_get_set in H0. destruct (decide (v0 = pm_venueId x)) as [->|]; [by injection H0 as ->|by apply Hacc].
Qed.

Lemma latest_row_spec v d row : latest_row v d = Some row -> row ∈ rows_of d /\ pm_venueId row = v.
Proof.
  unfold latest_row. intros [H1 H2]%first_rows_spec. split; [|done]. rewrite latest_first_perm in H1.
  by apply list_elem_of_In, filter_In in H1 as [H1%list_elem_of_In _].
Qed.

Lemma latest_law v d o d' : getLatestVenuePromotionRow v d = (Ret o, d') -> o = latest_row v d.
Proof.
  unfold getLatestVenuePromotionRow, getLatestVenuePromotionRows. intros H. eff_inv H as m d1 E; [done|]. injection H as <- _.
  eff_inv E as l d2 E2; [done|]. injection E as <- _. apply pdb_promotions_law in E2 as [_ E2]. by rewrite (E2 _ eq_refl).
Qed.

Lemma find_venue_id v l venue : find_venue v l = Some venue -> vi_venueId venue = v.
Proof. apply find_key_key. Qed.

Lemma promotion_read_law v d detail d' : getConnectorPromotion v d = (Ret (Some detail), d') ->
  exists now, evidence_at v now d = Some (pd_evidence detail) /\ pd_current detail = promotion_summary (latest_row v d) (pd_evidence detail).
Proof.
  unfold getConnectorPromotion. intros H. eff_inv H as inv d1 E1; [done|]. unfold listVenueInventoryCore in E1.
  eff_inv E1 as rows d0 E0; [done|]. apply pdb_snapshots_law in E0 as [S0 E0]. specialize (E0 _ eq_refl). subst rows.
  eff_inv E1 as now d2 E2; [done|]. injection E1 as <- <-. apply pdb_now_law in E2.
  destruct (find_venue v _) as [venue|] eqn:Ev; [|done]. eff_inv H as dt d3 E3; [done|]. injection H as <- _.
  unfold buildConnectorPromotionDetailForVenue in E3. eff_inv E3 as m d4 E4; [done|]. eff_inv E3 as hs d5 E5; [done|]. injection E3 as <- _.
  unfold getLatestVenuePromotionRows in E4. eff_inv E4 as l d6 E6; [done|]. injection E4 as <- _.
  apply pdb_promotions_law in E6 as [_ E6]. rewrite (E6 _ eq_refl). exists now. unfold evidence_at. rewrite Ev. split; [done|].
  cbn [pd_current pd_evidence]. apply find_venue_id in Ev. rewrite Ev. f_equal. unfold latest_row.
  by rewrite (proj1 E2), (proj1 S0).
Qed.

(** *** What is written *)

(** A call that answers [r] found nothing to report and changed no row. *)
Definition nothing_done (r : exn (option ConnectorPromotionDetail)) (d d' : Pdb) : Prop :=
  rows_of d' = rows_of d /\ forall detail, r <> Ret (Some detail).

Lemma nothing_thrown e d d' : rows_of d' = rows_of d -> nothing_done (Throw e) d d'.
Proof. by split. Qed.
Lemma nothing_found d d' : rows_of d' = rows_of d -> nothing_done (Ret None) d d'.
Proof. by split. Qed.
#[local] Hint Resolve nothing_thrown nothing_found : core.

(** The rows after a request or a decision. *)
Definition requested_row (v actor : string) (note : option string) (r : exn (option ConnectorPromotionDetail)) (d d' : Pdb) : Prop :=
  nothing_done r d d' \/ exists venue e now id, vi_venueId venue = v /\ id ∉ map pm_id (rows_of d) /\
    rows_of d' = rows_of d ++ [new_promotion venue e actor note now id].
Definition decided_rows (c : Decision) (v actor : string) (r : exn (option ConnectorPromotionDetail)) (d d' : Pdb) : Prop :=
  nothing_done r d d' \/ exists row venue e note now, latest_row v d = Some row /\
    rows_of d' = update_row (pm_id row) (decided_row c venue e actor note now) (rows_of d).

Lemma store_request_law v actor note d r d' : store_requestConnectorPromotion v actor note d = (r, d') -> requested_row v actor note r d d'.
Proof.
  unfold store_requestConnectorPromotion. intros H. eff_inv H as inv d1 E1; apply keeps_inventory in E1 as [E1 _]; [subst r; left; auto|].
  destruct (find_venue v inv) as [venue|] eqn:Ev; [|injection H as <- <-; left; auto]. apply find_venue_id in Ev.
  eff_inv H as now d2 E2; apply pdb_now_law in E2 as [E2 _]; rewrite E1 in E2; [subst r; left; auto|].
  eff_inv H as row d3 E3; apply pdb_insert_law in E3 as [_ E3]; rewrite E2 in E3.
  { subst r. destruct E3 as [[? _]|(id & ? & ? & _)]; [left; auto|right; by eexists venue, _, now, id]. }
  assert (E4 : rows_of d' = rows_of d3 /\ (row = None -> r = Ret None)).
  { destruct row as [x|]; [|by injection H as <- <-]. split; [|done]. eff_inv H as u d4 E4; apply keeps_event in E4 as [E4 _]; [done|].
    apply keeps_get in H as [H _]. by rewrite H. }
  unfold requested_row, nothing_done. destruct E4 as [-> Er].
  destruct E3 as [[E3 Hn]|(id & Hid & E3 & _)]; [|right; by eexists venue, _, now, id]. left. split; [done|].
  destruct row as [x|]; [by destruct (Hn x)|by rewrite Er].
Qed.

Lemma store_decide_law c v actor note d r d' : store_decide c v actor note d = (r, d') -> decided_rows c v actor r d d'.
Proof.
  unfold store_decide. intros H. eff_inv H as inv d1 E1; apply keeps_inventory in E1; [subst r; left; apply nothing_thrown, E1|].
  destruct (find_venue v inv) as [venue|] eqn:Ev; [|injection H as <- <-; left; apply nothing_found, E1].
  eff_inv H as cur d2 E2; [subst r; apply keeps_latest in E2; left; apply nothing_thrown; by rewrite (proj1 E2), (proj1 E1)|].
  pose proof (latest_law _ _ _ _ E2) as Hc. apply keeps_latest in E2. rewrite (same_latest _ _ _ E1) in Hc.
  assert (S2 : same_promotions d d2) by by etrans. destruct cur as [row|]; [|injection H as <- <-; left; apply nothing_found, S2].
  eff_inv H as now d3 E3; apply pdb_now_law in E3; [subst r; left; apply nothing_thrown; by rewrite (proj1 E3), (proj1 S2)|].
  assert (S3 : same_promotions d d3) by by etrans.
  eff_inv H as u d4 E4; apply pdb_update_law in E4 as [_ E4]; rewrite (proj1 S3) in E4.
  { destruct E4 as [[? _]|E4]; [subst r; left; auto|]. right. by eexists row, venue, _, note, now. }
  destruct u as []. destruct E4 as [[_ E4]|E4]; [done|]. right. eexists row, venue, _, note, now. split; [done|].
  eff_inv H as u2 d5 E5; apply keeps_event in E5 as [E5 _]; [by rewrite E5|]. apply keeps_get in H as [H _]. by rewrite H, E5.
Qed.

(** *** One call *)

Inductive promotion_call :=
  | Request (venueId actorId : string) (role : ActorRole) (note : option string)
  | Approve (venueId actorId : string) (role : ActorRole) (note : option string)
  | Reject (venueId actorId : string) (role : ActorRole) (note : string)
  | Suspend (venueId actorId : string) (role : ActorRole) (note : string).
Definition run_call (c : promotion_call) : eff Pdb (option ConnectorPromotionDetail) :=
  match c with
  | Request v a role note => requestConnectorPromotion v a role note
  | Approve v a role note => approveConnectorPromotion v a role note
  | Reject v a role note => rejectConnectorPromotion v a role note
  | Suspend v a role note => suspendConnectorPromotion v a role note
  end.

(** The status of the latest promotion that a decision needs, and the status it gives. *)
Definition decision_from (c : Decision) : ConnectorPromotionStatus := match c with Suspension => ps_approved | _ => ps_pending_review end.
(** The evidence that a call on [d] reads makes the venue eligible. *)
Definition was_eligible (v : string) (d : Pdb) : Prop :=
  exists detail d1, getConnectorPromotion v d = (Ret (Some detail), d1) /\ ce_eligibleForPromotion (pd_evidence detail) = true.
Definition decision_step (c : Decision) (v actor : string) (d d' : Pdb) : Prop :=
  exists row venue e note now, latest_row v d = Some row /\ pm_promotionStatus row = decision_from c /\
    (c = Approval -> was_eligible v d) /\ rows_of d' = update_row (pm_id row) (decided_row c venue e actor note now) (rows_of d).
Definition call_step (c : promotion_call) (d d' : Pdb) : Prop :=
  match c with
  | Request v a role note => canSatisfyApprovalRequirement role role_operator = true /\
      exists venue e now id, vi_venueId venue = v /\ id ∉ map pm_id (rows_of d) /\ rows_of d' = rows_of d ++ [new_promotion venue e a note now id]
  | Approve v a role _ => role = role_admin /\ decision_step Approval v a d d'
  | Reject v a role _ => role = role_admin /\ decision_step Rejection v a d d'
  | Suspend v a role _ => role = role_admin /\ decision_step Suspension v a d d'
  end.

Lemma audited_rows (P : exn (option ConnectorPromotionDetail) -> Pdb -> Prop) (m : eff Pdb (option ConnectorPromotionDetail)) e d r d' :
  (forall r' d1 d2, P r' d1 -> rows_of d2 = rows_of d1 -> P r' d2) -> (forall r' d1 e', P r' d1 -> P (Throw e') d1) ->
  (forall r' d1, m d = (r', d1) -> P r' d1) -> (updated ← m; audited updated e) d = (r, d') -> P r d'.
Proof.
  intros Hrows Hthrow Hm H. eff_inv H as u d1 E1; [subst r; by apply Hm|]. apply Hm in E1. unfold audited in H.
  eff_inv H as x d2 E2; cycle 1.
  { injection H as <- <-. eapply Hrows; [exact E1|]. destruct u as [u|]; [by apply pdb_audit_law in E2 as [? _]|by injection E2 as _ <-]. }
  subst r. eapply Hthrow, Hrows; [exact E1|]. destruct u as [u|]; [by apply pdb_audit_law in E2 as [? _]|discriminate E2].
Qed.

Lemma audited_decision c v actor note e d r d' :
  (updated ← store_decide c v actor note; audited updated e) d = (r, d') -> decided_rows c v actor r d d'.
Proof.
  apply (audited_rows (fun r d' => decided_rows c v actor r d d')); unfold decided_rows, nothing_done.
  - intros r' d1 d2 H ->. exact H.
  - intros r' d1 e' [[? _]|H]; [by left|by right].
  - intros r' d1. apply store_decide_law.
Qed.

Lemma audited_request v actor note e d r d' :
  (updated ← store_requestConnectorPromotion v actor note; audited updated e) d = (r, d') -> requested_row v actor note r d d'.
Proof.
  apply (audited_rows (fun r d' => requested_row v actor note r d d')); unfold requested_row, nothing_done.
  - intros r' d1 d2 H ->. exact H.
  - intros r' d1 e' [[? _]|H]; [by left|by right].
  - intros r' d1. apply store_request_law.
Qed.

Lemma guarded_decision c v actor note e d d1 detail r d' : getConnectorPromotion v d = (Ret (Some detail), d1) ->
  cp_promotionStatus (pd_current detail) = decision_from c -> (c = Approval -> ce_eligibleForPromotion (pd_evidence detail) = true) ->
  (updated ← store_decide c v actor note; audited updated e) d1 = (r, d') -> nothing_done r d d' \/ decision_step c v actor d d'.
Proof.
  intros G Hs He H. pose proof (promotion_read_law _ _ _ _ G) as (now & Ev & Ec). pose proof G as G'. apply keeps_get in G. apply audited_decision in H.
  unfold nothing_done. rewrite <- (proj1 G). destruct H as [H|(row & venue & ev & nt & t & L & H)]; [by left|]. right. exists row, venue, ev, nt, t.
  rewrite (same_latest _ _ _ G) in L. rewrite L in Ec. rewrite Ec in Hs. split_and!; [done|exact Hs| |by rewrite H, (proj1 G)].
  intros Ha. exists detail, d1. split; [done|by apply He].
Qed.

(** Whatever a call answers, the table of promotions moved one step, or it is as
    before and the call reports no promotion. *)
Lemma promotion_call_moves c d r d' : run_call c d = (r, d') -> nothing_done r d d' \/ call_step c d d'.
Proof.
  assert (Hadm : forall role, negb (canSatisfyApprovalRequirement role role_admin) = false -> role = role_admin) by (by intros []).
  destruct c as [v a role note|v a role note|v a role note|v a role note]; cbn [run_call call_step]; intros H.
  - unfold requestConnectorPromotion in H. destruct (negb _) eqn:Er; [injection H as <- <-; left; auto|]. apply negb_false_iff in Er.
    eff_inv H as o d1 E1; [subst r; apply keeps_get in E1 as [E1 _]; left; auto|]. apply keeps_get in E1 as [E1 _].
    destruct o as [detail|]; [|injection H as <- <-; left; auto]. destruct (negb _); [injection H as <- <-; left; auto|].
    case_bool_decide; [injection H as <- <-; left; auto|]. case_bool_decide; [injection H as <- <-; left; auto|].
    apply audited_request in H. unfold nothing_done. unfold requested_row, nothing_done in H. rewrite E1 in H. destruct H; [by left|by right].
  - unfold approveConnectorPromotion in H. destruct (negb _) eqn:Er; [injection H as <- <-; left; auto|]. apply Hadm in Er.
    eff_inv H as o d1 E1; [subst r; apply keeps_get in E1 as [E1 _]; left; auto|]. pose proof E1 as G. apply keeps_get in E1 as [E1 _].
    destruct o as [detail|]; [|injection H as <- <-; left; auto]. case_bool_decide as Hs; cbn [negb] in H; [|injection H as <- <-; left; auto].
    destruct (ce_eligibleForPromotion _) eqn:He; cbn [negb] in H; [|injection H as <- <-; left; auto].
    destruct (guarded_decision Approval _ _ _ _ _ _ _ _ _ G Hs (fun _ => He) H); [by left|by right].
  - unfold rejectConnectorPromotion in H. destruct (negb _) eqn:Er; [injection H as <- <-; left; auto|]. apply Hadm in Er.
    eff_inv H as o d1 E1; [subst r; apply keeps_get in E1 as [E1 _]; left; auto|]. pose proof E1 as G. apply keeps_get in E1 as [E1 _].
    destruct o as [detail|]; [|injection H as <- <-; left; auto]. case_bool_decide as Hs; cbn [negb] in H; [|injection H as <- <-; left; auto].
    destruct (guarded_decision Rejection _ _ _ _ _ _ _ _ _ G Hs ltac:(done) H); [by left|by right].
  - unfold suspendConnectorPromotion in H. destruct (negb _) eqn:Er; [injection H as <- <-; left; auto|]. apply Hadm in Er.
    eff_inv H as o d1 E1; [subst r; apply keeps_get in E1 as [E1 _]; left; auto|]. pose proof E1 as G. apply keeps_get in E1 as [E1 _].
    destruct o as [detail|]; [|injection H as <- <-; left; auto]. case_bool_decide as Hs; cbn [negb] in H; [|injection H as <- <-; left; auto].
    destruct (guarded_decision Suspension _ _ _ _ _ _ _ _ _ G Hs ltac:(done) H); [by left|by right].
Qed.

(** *** Histories *)

(** The calls so far, each with the state it was made in; snapshots are recorded
    in between. *)
Inductive history : list (Pdb * promotion_call) -> Pdb -> Prop :=
  | history_start d : rows_of d = [] -> history [] d
  | history_call h d c r d' : history h d -> run_call c d = (r, d') -> history (h ++ [(d, c)]) d'
  | history_other h d d' : history h d -> rows_of d' = rows_of d -> history h d'.

Lemma history_run h d c : history h d -> history (h ++ [(d, c)]) (run_call c d).2.
Proof. intros H. by eapply history_call; [exact H|apply surjective_pairing]. Qed.

Abbreviation calls := (list (Pdb * promotion_call)).
Definition requested_in (h : calls) (v actor : string) : Prop :=
  exists d role note, (d, Request v actor role note) ∈ h /\ (role = role_operator \/ role = role_admin).

(** The promotion that a decision is about: the latest of its venue. *)
Definition decides_on (c : promotion_call) (d : Pdb) : option string :=
  match c with
  | Request _ _ _ _ => None
  | Approve v _ _ _ | Reject v _ _ _ | Suspend v _ _ _ => pm_id <$> latest_row v d
  end.
(** The call changed the table, or reported a promotion to its caller. *)
Definition took_effect (c : promotion_call) (d : Pdb) : Prop :=
  rows_of (run_call c d).2 <> rows_of d \/ exists detail, (run_call c d).1 = Ret (Some detail).
Definition undecided_since (id : string) (h : calls) : Prop :=
  forall d c, (d, c) ∈ h -> decides_on c d = Some id -> ~ took_effect c d.

(** The promotion was requested, later approved by an administrator while it was
    the latest of its venue and the venue eligible, and no decision on it took
    effect after that. *)
Definition approved_in (h : calls) (row : PromotionRow) : Prop :=
  exists h1 d a note h2, h = h1 ++ (d, Approve (pm_venueId row) a role_admin note) :: h2 /\
    pm_approvedBy row = Some a /\ was_eligible (pm_venueId row) d /\ pm_id <$> latest_row (pm_venueId row) d = Some (pm_id row) /\
    requested_in h1 (pm_venueId row) (pm_requestedBy row) /\ undecided_since (pm_id row) h2.
Definition row_ok (h : calls) (row : PromotionRow) : Prop :=
  requested_in h (pm_venueId row) (pm_requestedBy row) /\ (pm_promotionStatus row = ps_approved -> approved_in h row).
Definition rows_ok (h : calls) (rows : list PromotionRow) : Prop := NoDup (map pm_id rows) /\ Forall (row_ok h) rows.

Lemma row_ok_mono h d c row : row_ok h row -> (decides_on c d = Some (pm_id row) -> ~ took_effect c d) -> row_ok (h ++ [(d, c)]) row.
Proof.
  intros [(d0 & role & note & H1 & H2) H3] Hc. split; [exists d0, role, note; split; [apply elem_of_app; by left|done]|].
  intros H%H3. destruct H as (h1 & d1 & a & nt & h2 & -> & Ha & He & Hl & Hr & Hu).
  exists h1, d1, a, nt, (h2 ++ [(d, c)]). split_and!; [by rewrite <- app_assoc|done|done|done|done|].
  intros d2 c2 [Hin|[= -> ->]%list_elem_of_singleton]%elem_of_app; [by apply Hu|done].
Qed.

Lemma update_row_ids id f rows : (forall r, pm_id (f r) = pm_id r) -> map pm_id (update_row id f rows) = map pm_id rows.
Proof. intros Hf. unfold update_row. rewrite map_map. apply map_ext. intros r. by case_decide. Qed.

Lemma decided_ok h call c v actor d d' : rows_ok h (rows_of d) -> decision_step c v actor d d' ->
  decides_on call d = pm_id <$> latest_row v d -> (c = Approval -> exists note, call = Approve v actor role_admin note) ->
  rows_ok (h ++ [(d, call)]) (rows_of d').
Proof.
  intros [Hn Hr] (row & venue & e & note & now & L & Hs & He & ->) Hd Hh. rewrite L in Hd. pose proof (latest_row_spec _ _ _ L) as [Hin Hv].
  split; [by rewrite update_row_ids|]. unfold update_row. apply List.Forall_map, List.Forall_forall. intros x Hx. cbv beta.
  pose proof (proj1 (List.Forall_forall _ _) Hr x Hx) as Hok.
  case_decide as Hid; [|apply row_ok_mono; [done|]; rewrite Hd; by intros [= E]; destruct Hid].
  assert (x = row) as -> by (eapply (NoDup_key_eq pm_id); [exact Hn|by apply list_elem_of_In|exact Hin|exact Hid]).
  destruct Hok as [Hreq _]. split; cbn [decided_row pm_promotionStatus pm_venueId pm_requestedBy].
  - destruct Hreq as (d0 & role & nt & H1 & H2). exists d0, role, nt. split; [apply elem_of_app; by left|done].
  - destruct c; try done. intros _. destruct (Hh eq_refl) as (nt & ->). exists h, d, actor, nt, []. cbn. rewrite Hv in *. rewrite L.
    split_and!; [done|done|by apply He|done|done|by intros ? ? ?%elem_of_nil].
Qed.

Lemma history_ok h d : history h d -> rows_ok h (rows_of d).
Proof.
  induction 1 as [d E|h d c r d' _ IH H|h d d' _ IH E]; [rewrite E; split; constructor| |by rewrite E].
  destruct (promotion_call_moves _ _ _ _ H) as [[E Hr]|Hs].
  { rewrite E. destruct IH as [Hn Hok]. split; [done|]. eapply Forall_impl; [exact Hok|]. intros row Hrow. apply row_ok_mono; [done|].
    intros _ [Hc|(detail & Hc)]; rewrite H in Hc; [by apply Hc|by apply (Hr detail)]. }
  destruct c as [v a role note|v a role note|v a role note|v a role note]; cbn [call_step] in Hs.
  - destruct Hs as (Hrole & venue & e & now & id & Hv & Hid & ->). destruct IH as [Hn Hok]. split.
    + rewrite map_app. cbn. apply NoDup_app. split_and!; [done| |apply NoDup_singleton]. intros x Hx ->%list_elem_of_singleton. done.
    + apply List.Forall_app. split; [eapply Forall_impl; [exact Hok|]; intros row Hrow; by apply row_ok_mono|].
      constructor; [|done]. split; [|done]. cbn [pm_venueId pm_requestedBy new_promotion]. rewrite Hv.
      exists d, role, note. split; [apply elem_of_app; right; by left|].
      apply orb_true_iff in Hrole. by destruct Hrole as [?%bool_decide_eq_true|?%bool_decide_eq_true]; [left|right].
  - destruct Hs as [-> Hs]. eapply decided_ok; [exact IH|exact Hs|done|]. intros _. by exists note.
  - destruct Hs as [-> Hs]. eapply decided_ok; [exact IH|exact Hs|done|]. done.
  - destruct Hs as [-> Hs]. eapply decided_ok; [exact IH|exact Hs|done|]. done.
Qed.

(** C10. Live use needs a review.  In every history of calls to the control plane,
    whoever makes them in whatever role, whether they succeed, are refused or fail
    anywhere in between, and whatever snapshots are recorded: if the promotion of
    a venue says that it is open to sensitive execution, then the evidence read
    with it makes the venue eligible, and its latest promotion is approved.  That
    promotion was requested by an operator or administrator, and approved after
    that by an administrator while it was the latest of the venue and the
    evidence that the approval read made the venue eligible.  Every later
    decision on that promotion, a suspension in particular, had no effect: it
    changed no promotion and reported none. *)
Theorem live_use_needs_review (h : calls) (d d' : Pdb) (venueId : string) (detail : ConnectorPromotionDetail) :
  history h d -> getConnectorPromotion venueId d = (Ret (Some detail), d') -> cp_sensitiveExecutionEligible (pd_current detail) = true ->
  ce_eligibleForPromotion (pd_evidence detail) = true /\
  exists row h1 d0 admin note h2, latest_row venueId d = Some row /\ pm_promotionStatus row = ps_approved /\
    h = h1 ++ (d0, Approve venueId admin role_admin note) :: h2 /\ pm_approvedBy row = Some admin /\
    pm_id <$> latest_row venueId d0 = Some (pm_id row) /\ was_eligible venueId d0 /\
    requested_in h1 venueId (pm_requestedBy row) /\ undecided_since (pm_id row) h2.
Proof.
  intros Hh G Hs. apply history_ok in Hh as [_ Hok]. apply promotion_read_law in G as (now & Ev & Ec). rewrite Ec in Hs.
  destruct (latest_row venueId d) as [row|] eqn:L; [|done]. apply latest_row_spec in L as [Hin Hv]. cbn in Hs.
  apply andb_true_iff in Hs as [[Ha%bool_decide_eq_true _]%andb_true_iff He]. split; [done|].
  pose proof (proj1 (List.Forall_forall _ _) Hok row ltac:(by apply list_elem_of_In)) as [_ Hp]. rewrite <- Hv.
  destruct (Hp Ha) as (h1 & d0 & a & note & h2 & ? & ? & ? & ? & ? & ?). by exists row, h1, d0, a, note, h2.
Qed.
End Workflow.

(** ** Tables in memory *)

Record MemoryPromotions := MkMemoryPromotions {
  mp_clock : Z;
  mp_next : nat;
  mp_snapshots : list VenueSnapshotRow;
  mp_rows : list PromotionRow;
  mp_events : list PromotionEvent;
  mp_audit : list PromotionAudit;
}.
Definition updated_before (a b : PromotionRow) : bool :=
  (pm_updatedAt b <? pm_updatedAt a) || ((pm_updatedAt a =? pm_updatedAt b) && (pm_requestedAt b <? pm_requestedAt a)).
Fixpoint row_id (n : nat) : string := match n with O => EmptyString | S n' => String "i"%char (row_id n') end.
(** An id longer than every id of the table. *)
Definition free_id (rows : list PromotionRow) : string := row_id (S (fold_right Nat.max 0%nat (map (fun r => String.length (pm_id r)) rows))).

Lemma row_id_length n : String.length (row_id n) = n.
Proof. induction n as [|n IH]; [done|]. cbn. by rewrite IH. Qed.
Lemma free_id_fresh rows : free_id rows ∉ map pm_id rows.
Proof.
  intros H. apply list_elem_of_In, in_map_iff in H as (r & E & Hin). unfold free_id in E. set (m := fold_right _ _ _) in E.
  assert (Hle : (String.length (pm_id r) <= m)%nat).
  { subst m. clear E. induction rows as [|x rows IH]; [done|]. cbn. destruct Hin as [->|Hin]; [lia|]. specialize (IH Hin). lia. }
  rewrite E, row_id_length in Hle. lia.
Qed.

#[export] Instance memory_promotions : PromotionDb := {|
  Pdb := MemoryPromotions;
  pdb_now := fun d => (Ret (mp_clock d), MkMemoryPromotions (mp_clock d + 1) (mp_next d) (mp_snapshots d) (mp_rows d) (mp_events d) (mp_audit d));
  pdb_snapshots := fun d => (Ret (js_sort (fun a b => vs_capturedAt b <? vs_capturedAt a) (mp_snapshots d)), d);
  pdb_promotions vs := fun d =>
    (Ret (js_sort updated_before (List.filter (fun row => is_empty vs || bool_decide (pm_venueId row ∈ vs)) (mp_rows d))), d);
  pdb_events v := fun d => (Ret (List.filter (fun e => String.eqb (pe_venueId e) v) (mp_events d)), d);
  pdb_insert_promotion mk := fun d =>
    let row := mk (free_id (mp_rows d)) in
    (Ret (Some row), MkMemoryPromotions (mp_clock d) (mp_next d) (mp_snapshots d) (mp_rows d ++ [row]) (mp_events d) (mp_audit d));
  pdb_update_promotion id upd := fun d =>
    (Ret tt, MkMemoryPromotions (mp_clock d) (mp_next d) (mp_snapshots d) (update_row id upd (mp_rows d)) (mp_events d) (mp_audit d));
  pdb_insert_event mk := fun d =>
    (Ret tt, MkMemoryPromotions (mp_clock d) (S (mp_next d)) (mp_snapshots d) (mp_rows d) (mp_events d ++ [mk (row_id (mp_next d))]) (mp_audit d));
  pdb_audit e := fun d => (Ret tt, MkMemoryPromotions (mp_clock d) (mp_next d) (mp_snapshots d) (mp_rows d) (mp_events d) (mp_audit d ++ [e]));
|}.

#[export] Program Instance memory_promotions_laws : PromotionDbLaws (PD := memory_promotions) := {|
  rows_of := mp_rows : @Pdb memory_promotions -> _;
  snapshots_of := (fun d => js_sort (fun a b => vs_capturedAt b <? vs_capturedAt a) (mp_snapshots d)) : @Pdb memory_promotions -> _;
  latest_first := js_sort updated_before
|}.
Next Obligation. intros l. apply js_sort_perm. Qed.
Next Obligation. by intros d r d' [= _ <-]. Qed.
Next Obligation. by intros v d r d' [= _ <-]. Qed.
Next Obligation. by intros mk d r d' [= _ <-]. Qed.
Next Obligation. by intros e d r d' [= _ <-]. Qed.
Next Obligation. intros d r d' [= <- <-]. split; [done|]. by intros l [= <-]. Qed.
Next Obligation. intros vs d r d' [= <- <-]. split; [done|]. by intros l [= <-]. Qed.
Next Obligation.
  intros mk d r d' [= <- <-]. split; [done|]. right. exists (free_id (mp_rows d)). split_and!; [apply free_id_fresh|done|by intros row [= <-]].
Qed.
Next Obligation. intros id upd d r d' [= <- <-]. split; [done|]. by right. Qed.

(** *** A review *)

#[local] Instance plain_collation : Collation := { locale_lt := fun a b => match String.compare a b with Lt => true | _ => false end }.
Definition ready_snapshot : VenueSnapshotRow := {|
  vs_venueId := "drift"; vs_venueName := "Drift"; vs_connectorType := "drift_native"; vs_sleeveApplicability := JArr [JStr "carry"];
  vs_truthMode := tm_real; vs_readOnlySupport := true; vs_executionSupport := true; vs_missingPrerequisites := JArr [];
  vs_healthy := true; vs_healthState := vh_healthy; vs_degradedReason := None; vs_snapshotSuccessful := true;
  vs_snapshotPayload := JObj [("snapshotCompleteness", JStr "complete")]; vs_metadata := [("rpcEndpointConfigured", JBool true)];
  vs_capturedAt := 1000 |}.
Definition unconfigured_snapshot : VenueSnapshotRow :=
  let s := ready_snapshot in
  MkVenueSnapshotRow (vs_venueId s) (vs_venueName s) (vs_connectorType s) (vs_sleeveApplicability s) (vs_truthMode s) (vs_readOnlySupport s)
    (vs_executionSupport s) (vs_missingPrerequisites s) (vs_healthy s) (vs_healthState s) (vs_degradedReason s) (vs_snapshotSuccessful s)
    (vs_snapshotPayload s) [("rpcEndpointConfigured", JBool false)] 2000.
Definition with_snapshots (l : list VenueSnapshotRow) : MemoryPromotions := MkMemoryPromotions 2000 1 l [] [] [].
Definition after_call (d : MemoryPromotions) (c : promotion_call) : MemoryPromotions := (run_call c d).2.
Definition refused (d : MemoryPromotions) (c : promotion_call) : option string :=
  match (run_call c d).1 with Throw e => Some (err_message e) | Ret _ => None end.
Definition request_call : promotion_call := Request "drift" "olga" role_operator None.
Definition approve_call : promotion_call := Approve "drift" "ada" role_admin None.
Definition under_review : MemoryPromotions := after_call (with_snapshots [ready_snapshot]) request_call.
Definition reviewed : MemoryPromotions := after_call under_review approve_call.
Definition eligible_now (d : MemoryPromotions) : option (ConnectorPromotionStatus * bool) :=
  match (getConnectorPromotion (PD := memory_promotions) "drift" d).1 with
  | Ret (Some detail) => Some (cp_promotionStatus (pd_current detail), cp_sensitiveExecutionEligible (pd_current detail))
  | _ => None
  end.

Example review_opens : eligible_now reviewed = Some (ps_approved, true).
Proof. vm_compute. reflexivity. Qed.
Example operator_cannot_approve :
  refused under_review (Approve "drift" "olga" role_operator None)
  = Some "Connector promotion approval requires admin access.".
Proof. vm_compute. reflexivity. Qed.
(** A new snapshot with a flag unset closes the connector again, without changing
    its approval. *)
Example stale_flag_closes :
  eligible_now (MkMemoryPromotions (mp_clock reviewed) (mp_next reviewed) [ready_snapshot; unconfigured_snapshot] (mp_rows reviewed)
                  (mp_events reviewed) (mp_audit reviewed)) = Some (ps_approved, false)
  /\ map (fun m => cm_summary m) (collectConnectorConfigReadinessMarkers (vs_metadata unconfigured_snapshot)) = ["rpc endpoint configured marker"].
Proof. vm_compute. done. Qed.

Lemma history_after h (d : MemoryPromotions) c : history (PD := memory_promotions) (PL := memory_promotions_laws) h d ->
  history (PD := memory_promotions) (PL := memory_promotions_laws) (h ++ [(d, c)]) (after_call d c).
Proof. intros H. exact (history_run (PD := memory_promotions) (PL := memory_promotions_laws) h d c H). Qed.

Lemma live_use_needs_review_witness : exists detail d',
  getConnectorPromotion (PD := memory_promotions) "drift" reviewed = (Ret (Some detail), d') /\ ce_eligibleForPromotion (pd_evidence detail) = true /\
  exists row, latest_row (PL := memory_promotions_laws) "drift" reviewed = Some row /\ pm_promotionStatus row = ps_approved.
Proof.
  destruct (getConnectorPromotion (PD := memory_promotions) "drift" reviewed) as [[[detail|]|] d'] eqn:E;
    [|vm_compute in E; discriminate|vm_compute in E; discriminate].
  exists detail, d'. split; [reflexivity|].
  assert (Hd : cp_sensitiveExecutionEligible (pd_current detail) = true).
  { assert (H : eligible_now reviewed = Some (ps_approved, true)) by (vm_compute; reflexivity). unfold eligible_now in H. rewrite E in H. by injection H as _ ->. }
  pose proof (history_after _ _ approve_call (history_after _ _ request_call (history_start (with_snapshots [ready_snapshot]) eq_refl))) as Hh.
  match type of Hh with history _ ?x => replace x with reviewed in Hh by (unfold reviewed, under_review; reflexivity) end.
  destruct (live_use_needs_review (PD := memory_promotions) (PL := memory_promotions_laws) _ reviewed d' "drift" detail Hh E Hd)
    as (H1 & row & h1 & d0 & a & note & h2 & H2 & H3 & _). exact (conj H1 (ex_intro _ row (conj H2 H3))).
Defined.
