(* ===== verification/Reconciliation.v ===== *)
(** * The reconciliation engine (packages/runtime: reconciliation-engine.ts)

    [run]: a reconciliation run resolves the mismatches of venues that are no
    longer active, makes every comparison of the detectors, opens, reopens or
    resolves the mismatch of every finding, and records the findings.  The file
    shows that afterwards the mismatch of a comparison is unsettled exactly if
    the comparison found a difference, and that mismatches move only along
    their lifecycle, whatever fails.  Calls of the logger are left out. *)
From S2P Require Import Prelude JsNumber JsValue DecimalLib DecimalExact Money Domain Executor Reconciler MismatchLifecycle MismatchStore HealthMonitor ReconcileStore ReconcileFindings ReconcileDetect ReconcileVenues.
Open Scope Z_scope.

Record RunInput := MkRunInput {
  in_trigger : string;
  in_sourceComponent : string;
  in_triggerReference : option string;
  in_triggeredBy : option string;
}.
Record RunResult := MkRunResult { res_run : ReconciliationRun; res_summary : option ReconciliationSummary }.

Section Engine.
Context `{DL : DecimalLib} `{VQ : VenueQueries} `{RD : !ReconDb}.
Context (adapters : list (string * VenueAdapter)) (truthAdapters : list (string * eff Db VenueCapability)).

(** ** Active venues *)

Definition active_of (adapter : string * VenueAdapter) : eff Db (list string) :=
  match va_capability adapter.2 with
  | None => mret []
  | Some getVenueCapabilitySnapshot =>
      capability ← getVenueCapabilitySnapshot;
      mret (if capability.2 : bool then [capability.1] else [])
  end.
Definition active_truth_of (adapter : string * eff Db VenueCapability) : eff Db (list string) :=
  capability ← adapter.2;
  mret (if bool_decide (vc_truthMode capability = tm_real) then [vc_venueId capability] else []).

Definition getActiveRealVenueIds : eff Db (list string) :=
  ids ← collect active_of adapters;
  truthIds ← collect active_truth_of truthAdapters;
  mret (js_unique (ids ++ truthIds)).

Definition resolve_inactive (activeRealVenueIds : list string) (sourceComponent : string) (detectedAt : Z)
    (mismatch : RuntimeMismatchView) : eff Db unit :=
  if bool_decide (mm_status mismatch = ms_verified) || bool_decide (mm_status mismatch = ms_resolved) then mret tt
  else
    match rec_get (mm_details mismatch) "venueId" with
    | JStr venueId =>
        if js_has venueId activeRealVenueIds then mret tt
        else
          _ ← updateMismatchById (mm_id mismatch) (resolved_patch detectedAt sourceComponent
                ("Inactive historical venue mismatch for " +:+ venueId
                 +:+ " was auto-resolved because the venue is no longer configured in the active runtime.") detectedAt);
          mret tt
    | _ => mret tt
    end.

Definition resolveInactiveVenueMismatches (activeRealVenueIds : list string) (sourceComponent : string) (detectedAt : Z)
    : eff Db unit :=
  if is_empty activeRealVenueIds then mret tt
  else
    mismatches ← db_list 500 sk_reconciliation;
    each_eff (resolve_inactive activeRealVenueIds sourceComponent detectedAt) mismatches.

(** ** Findings and mismatches *)

(** [{ ...base, ...more }]. *)
Definition spread (base more : record_) : record_ := foldl (fun r kv => jm_set kv.1 kv.2 r) base more.

Definition mismatch_of_finding (reconciliationRunId : string) (f : ReconciliationCandidateFinding) : MismatchInput := {|
  mi_dedupeKey := mismatchDedupeKey (cf_dedupeKey f); mi_category := finding_type_str (cf_findingType f);
  mi_severity := severity_str (cf_severity f); mi_sourceKind := Some sk_reconciliation;
  mi_sourceComponent := cf_sourceComponent f; mi_entityType := cf_entityType f; mi_entityId := cf_entityId f;
  mi_summary := cf_summary f;
  mi_details := spread [("reconciliationRunId", JStr reconciliationRunId); ("subsystem", JStr (cf_subsystem f));
                        ("venueId", JStrNull (cf_venueId f)); ("expectedState", JObj (cf_expectedState f));
                        ("actualState", JObj (cf_actualState f)); ("delta", JObj (cf_delta f))] (cf_details f);
  mi_detectedAt := cf_detectedAt f |}.

Definition finding_event (reconciliationRunId mismatchId eventType status : string) (f : ReconciliationCandidateFinding)
    : RecoveryEvent :=
  MkRecoveryEvent (Some mismatchId) None None eventType status (cf_sourceComponent f) (Some (cf_sourceComponent f)) (cf_summary f)
    [("reconciliationRunId", JStr reconciliationRunId); ("findingType", JStr (finding_type_str (cf_findingType f)));
     ("findingDedupeKey", JStr (cf_dedupeKey f))] None None.

Definition applyFindingToMismatch (reconciliationRunId : string) (f : ReconciliationCandidateFinding)
    : eff Db (option RuntimeMismatchView) :=
  let dedupeKey := mismatchDedupeKey (cf_dedupeKey f) in
  match cf_status f with
  | fd_active =>
      res ← upsertMismatch (mismatch_of_finding reconciliationRunId f);
      _ ← recordRecoveryEvent (finding_event reconciliationRunId (mm_id res.1)
            (if bool_decide (res.2 = reopened_) then "reconciliation_mismatch_reopened" else "reconciliation_mismatch_detected")
            (mismatch_status_str (mm_status res.1)) f);
      mret (Some res.1)
  | fd_resolved =>
      existing ← getMismatchByDedupeKey dedupeKey;
      match existing with
      | None => mret None
      | Some e =>
          if bool_decide (mm_status e = ms_verified) then mret (Some e)
          else
            resolved ← updateMismatchByDedupeKey dedupeKey
              (resolved_patch (cf_detectedAt f) (cf_sourceComponent f) (cf_summary f) (cf_detectedAt f));
            match resolved with
            | None => mret None
            | Some m =>
                _ ← recordRecoveryEvent (finding_event reconciliationRunId (mm_id m) "reconciliation_mismatch_resolved" "resolved" f);
                mret (Some m)
            end
      end
  end.

Definition finding_row (reconciliationRunId : string) (mismatchId : option string) (f : ReconciliationCandidateFinding)
    (id : string) (createdAt : Z) : ReconciliationFinding := {|
  rf_id := id; rf_reconciliationRunId := reconciliationRunId; rf_dedupeKey := cf_dedupeKey f;
  rf_findingType := cf_findingType f; rf_severity := cf_severity f; rf_status := cf_status f;
  rf_sourceComponent := cf_sourceComponent f; rf_subsystem := cf_subsystem f; rf_venueId := cf_venueId f;
  rf_entityType := cf_entityType f; rf_entityId := cf_entityId f; rf_mismatchId := mismatchId; rf_summary := cf_summary f;
  rf_expectedState := cf_expectedState f; rf_actualState := cf_actualState f; rf_delta := cf_delta f;
  rf_details := cf_details f; rf_detectedAt := cf_detectedAt f; rf_createdAt := createdAt |}.

(** One candidate of a run: its mismatch, its record; the ids of the linked
    mismatches are kept as a set. *)
Definition process_finding (reconciliationRunId : string) (linked : list string) (f : ReconciliationCandidateFinding)
    : eff Db (list string) :=
  mismatch ← applyFindingToMismatch reconciliationRunId f;
  _ ← recordReconciliationFinding (finding_row reconciliationRunId (mm_id <$> mismatch) f) (cf_dedupeKey f);
  mret (match mismatch with Some m => js_add linked (mm_id m) | None => linked end).

(** ** A run *)

Definition detect_all (sourceComponent : string) (detectedAt : Z) (activeRealVenueIds : list string) : eff Db (list Checked) :=
  projections ← detectProjectionStateFindings sourceComponent detectedAt;
  commands ← detectCommandOutcomeFindings sourceComponent detectedAt;
  orders ← detectOrderStateFindings sourceComponent detectedAt adapters;
  positions ← detectPositionExposureFindings sourceComponent detectedAt adapters;
  venues ← detectVenueTruthFindings sourceComponent detectedAt truthAdapters activeRealVenueIds;
  derivatives ← detectDerivativeComparisonFindings sourceComponent detectedAt activeRealVenueIds;
  mret (projections ++ commands ++ orders ++ positions ++ venues ++ derivatives).

(** From the findings of a run to its result. *)
Definition finish_run (run : ReconciliationRun) (input : RunInput) (candidates : list ReconciliationCandidateFinding)
    : eff Db RunResult :=
  let id := rr_id run in
  linked ← fold_eff (process_finding id) [] candidates;
  let count := Z.of_nat (length candidates) in
  let linkedCount := Z.of_nat (length linked) in
  _ ← completeReconciliationRun id count linkedCount
        [("trigger", JStr (in_trigger input)); ("sourceComponent", JStr (in_sourceComponent input))];
  eventId ← db_create_id;
  occurredAt ← db_now;
  _ ← db_audit (MkAuditEvent eventId "runtime.reconciliation_completed" (toISOString occurredAt) (in_sourceComponent input)
        [("reconciliationRunId", JStr id); ("trigger", JStr (in_trigger input)); ("findingCount", JInt count);
         ("linkedMismatchCount", JInt linkedCount)]);
  completedRun ← getReconciliationRun id;
  match completedRun with
  | None => throw_eff (Error_ ("Reconciliation run " +:+ quoted id +:+ " disappeared after completion"))
  | Some completed =>
      summary ← summarizeLatestReconciliation;
      mret {| res_run := completed; res_summary := summary |}
  end.

Definition run_body (run : ReconciliationRun) (input : RunInput) : eff Db RunResult :=
  detectedAt ← db_now;
  activeRealVenueIds ← getActiveRealVenueIds;
  _ ← resolveInactiveVenueMismatches activeRealVenueIds (in_sourceComponent input) detectedAt;
  checks ← detect_all (in_sourceComponent input) detectedAt activeRealVenueIds;
  finish_run run input (findings_of checks).

Definition run (input : RunInput) : eff Db RunResult :=
  run ← createReconciliationRun (in_trigger input) (in_triggerReference input) (in_sourceComponent input) (in_triggeredBy input);
  catch_eff (run_body run input)
    (fun error =>
      _ ← failReconciliationRun (rr_id run) (err_message error)
            [("trigger", JStr (in_trigger input)); ("sourceComponent", JStr (in_sourceComponent input))];
      throw_eff error).
End Engine.

(** * Detection changes no mismatch *)

(** The results of the steps of a loop keep what the steps keep. *)
Lemma keeps_collect {S A B} (R : S -> S -> Prop) `{!PreOrder R} (f : A -> eff S (list B)) l :
  (forall a, a ∈ l -> keeps R (f a)) -> keeps R (collect f l).
Proof.
  induction l as [|a l IH]; intros Hf; [by apply keeps_ret|]. cbn [collect].
  apply keeps_bind; [done|apply Hf; by left|]. intros x.
  apply keeps_bind; [done|apply IH; intros b Hb; apply Hf; by right|]. intros y. by apply keeps_ret.
Qed.

Section Emits.
Context `{MD : MismatchDb} `{ML : !MismatchDbLaws}.

(** The findings are those of the mismatches of [d0]. *)
Definition found_in (d0 : Db) (cs : list Checked) : Prop :=
  Forall (fun c => c.2 = candidate_finding (row_of d0 (mismatchDedupeKey (ci_dedupeKey c.1))) c.1) cs.

(** Started with the mismatches of [d0], [m] keeps them, and the comparisons
    [P] of its result found what they say. *)
Definition emits {A} (P : A -> list Checked) (d0 : Db) (m : eff Db A) : Prop := forall d r d',
  same_rows d0 d -> m d = (r, d') -> same_rows d0 d' /\ forall a, r = Ret a -> found_in d0 (P a).

Lemma emits_bind {A B} (P : A -> list Checked) (Q : B -> list Checked) d0 (m : eff Db A) (f : A -> eff Db B) :
  emits P d0 m -> (forall a, found_in d0 (P a) -> emits Q d0 (f a)) -> emits Q d0 (m ≫= f).
Proof.
  intros Hm Hf d r d' Hs H. eff_inv H as a d1 E.
  - apply Hm in E as [S _]; [|done]. split; [exact S|by rewrite H].
  - apply Hm in E as [S F]; [|done]. apply Hf in H; [done|by apply F|done].
Qed.
Lemma emits_read {A B} (Q : B -> list Checked) d0 (m : eff Db A) (f : A -> eff Db B) :
  keeps same_rows m -> (forall a, emits Q d0 (f a)) -> emits Q d0 (m ≫= f).
Proof.
  intros Hm Hf. apply emits_bind with (P := fun _ => []); [|by intros]. intros d r d' Hs H. apply Hm in H.
  split; [by etrans|]. intros. by constructor.
Qed.
Lemma emits_ret {A} (P : A -> list Checked) d0 a : found_in d0 (P a) -> emits P d0 (mret a).
Proof. intros H d r d' Hs [= <- <-]. split; [done|]. by intros ? [= <-]. Qed.

Lemma emits_check d0 input : emits (fun c => [c]) d0 (check_candidate input).
Proof.
  unfold check_candidate, toCandidateFinding, getMismatchByDedupeKey. intros d r d' Hs H. eff_inv H as f d1 E.
  - eff_inv E as m d2 E2; [|done]. apply db_select_law in E2 as [S _]. split; [etrans; [exact Hs|exact S]|by rewrite H].
  - eff_inv E as m d2 E2; [done|]. apply db_select_law in E2 as [S V]. specialize (V _ eq_refl). subst m.
    injection E as <- <-. injection H as <- <-. split; [etrans; [exact Hs|exact S]|].
    intros c [= <-]. repeat constructor. cbn. by rewrite Hs.
Qed.
Lemma emits_one d0 input : emits id d0 (c ← check_candidate input; mret [c]).
Proof. eapply emits_bind; [apply emits_check|]. intros c Hc. by apply emits_ret. Qed.

Lemma emits_collect {A} d0 (f : A -> eff Db (list Checked)) l :
  (forall a, a ∈ l -> emits id d0 (f a)) -> emits id d0 (collect f l).
Proof.
  induction l as [|a l IH]; intros Hf; [by apply emits_ret; constructor|]. cbn [collect].
  apply emits_bind with (P := id); [apply Hf; by left|]. intros x Hx.
  apply emits_bind with (P := id); [apply IH; intros b Hb; apply Hf; by right|]. intros y Hy.
  apply emits_ret. by apply List.Forall_app.
Qed.
End Emits.

Lemma found_cons `{ML : MismatchDbLaws} d0 c cs : found_in d0 [c] -> found_in d0 cs -> found_in d0 (c :: cs).
Proof. intros H1 H2. by apply (List.Forall_app _ [c] cs). Qed.
Lemma found_app `{ML : MismatchDbLaws} d0 cs cs' : found_in d0 cs -> found_in d0 cs' -> found_in d0 (cs ++ cs').
Proof. intros. by apply List.Forall_app. Qed.
Lemma found_nil `{ML : MismatchDbLaws} d0 : found_in d0 [].
Proof. constructor. Qed.

(** Goes through a detector: reads, checks and loops. *)
Ltac found_tac := repeat first [apply found_nil | assumption | apply found_app | apply found_cons].
Ltac emits_tac :=
  repeat first [progress intros | progress cbn zeta
               | apply emits_one
               | apply emits_collect
               | apply emits_ret; solve [found_tac]
               | eapply emits_bind; [apply emits_check|]
               | apply emits_bind with (P := id); [solve [apply emits_one | apply emits_ret, found_nil]|]
               | apply emits_read; [solve [eauto with keeps | apply keeps_lift; typeclasses eauto]|]
               | apply emits_bind with (P := id); [|intros ? ?; apply emits_ret; solve [found_tac]]
               | case_match].

Section Quiet.
Context `{DL : DecimalLib} `{VQ : VenueQueries} `{RD : !ReconDb}.
Context `{ML : !MismatchDbLaws} `{QL : !MonitorQueriesLaws} `{RL : !ReconDbLaws} `{RQL : !ReconQueriesLaws} `{VL : !VenueQueriesLaws}.
Context (adapters : list (string * VenueAdapter)) (truthAdapters : list (string * eff Db VenueCapability)).
Hypothesis adapters_quiet : forall va, va ∈ adapters -> quiet_adapter va.2.
Hypothesis truth_quiet : forall va, va ∈ truthAdapters -> keeps same_rows va.2.
Context (src : string) (at_ : Z) (d0 : Db).

Lemma sources_read : keeps same_rows getProjectionSources.
Proof. apply sources_same. Qed.
Hint Resolve sources_read : keeps.

Lemma projections_emit : emits id d0 (detectProjectionStateFindings src at_).
Proof.
  unfold detectProjectionStateFindings. emits_tac.
Qed.

Lemma commands_emit : emits id d0 (detectCommandOutcomeFindings src at_).
Proof.
  unfold detectCommandOutcomeFindings, detect_command. emits_tac.
Qed.

Lemma orders_emit : emits id d0 (detectOrderStateFindings src at_ adapters).
Proof.
  unfold detectOrderStateFindings, order_support, detect_order. apply emits_read.
  - apply keeps_collect; [typeclasses eauto|]. intros va Hva. destruct (adapters_quiet _ Hva) as (_ & Q & _ & _). keeps_tac.
  - intros support. apply emits_collect. intros va Hva. destruct (adapters_quiet _ Hva) as (_ & _ & Q & _). emits_tac.
Qed.

Lemma positions_emit : emits id d0 (detectPositionExposureFindings src at_ adapters).
Proof.
  unfold detectPositionExposureFindings, detect_position. apply emits_collect. intros va Hva.
  destruct (adapters_quiet _ Hva) as (_ & _ & _ & Q). emits_tac.
Qed.

Lemma truth_emit ids : emits id d0 (detectVenueTruthFindings src at_ truthAdapters ids).
Proof.
  unfold detectVenueTruthFindings, detect_connector, detect_venue. apply emits_read; [eauto with keeps|]. intros inventory.
  apply emits_bind with (P := id).
  - apply emits_collect. intros va Hva. pose proof (truth_quiet _ Hva). emits_tac.
  - intros cs Hcs. apply emits_bind with (P := id); [|intros; apply emits_ret; by apply found_app]. emits_tac.
Qed.

Lemma derivatives_emit ids : emits id d0 (detectDerivativeComparisonFindings src at_ ids).
Proof.
  unfold detectDerivativeComparisonFindings, detect_derivative. emits_tac.
Qed.

Lemma detect_emits ids : emits id d0 (detect_all adapters truthAdapters src at_ ids).
Proof.
  unfold detect_all.
  apply emits_bind with (P := id); [apply projections_emit|intros c1 H1].
  apply emits_bind with (P := id); [apply commands_emit|intros c2 H2].
  apply emits_bind with (P := id); [apply orders_emit|intros c3 H3].
  apply emits_bind with (P := id); [apply positions_emit|intros c4 H4].
  apply emits_bind with (P := id); [apply truth_emit|intros c5 H5].
  apply emits_bind with (P := id); [apply derivatives_emit|intros c6 H6]. apply emits_ret. found_tac.
Qed.
End Quiet.

(** * What a run does to the mismatches *)

Section Settle.
Context `{DL : DecimalLib} `{VQ : VenueQueries} `{RD : !ReconDb}.
Context `{ML : !MismatchDbLaws} `{QL : !MonitorQueriesLaws} `{RL : !ReconDbLaws} `{RQL : !ReconQueriesLaws} `{VL : !VenueQueriesLaws}.

Definition is_active (f : ReconciliationCandidateFinding) : bool := bool_decide (cf_status f = fd_active).

(** A finding opens, reopens or resolves the mismatch of its key. *)
Definition settled_by (f : ReconciliationCandidateFinding) {A} (d : Db) (r : exn A) (d' : Db) : Prop :=
  let k := mismatchDedupeKey (cf_dedupeKey f) in
  only_row k d d' /\ (is_ret r = true -> recorded d' k = is_active f) /\ rows_move d d'.

Lemma settled_same {A B} f d (r : exn A) d1 (r' : exn B) d' : settled_by f d r d1 -> is_ret r = true -> same_rows d1 d' -> settled_by f d r' d'.
Proof.
  intros (H1 & H2 & H3) Hr S. split_and!.
  - intros k Hk. rewrite S. by apply H1.
  - intros _. unfold recorded. rewrite S. by apply H2.
  - etrans; [exact H3|by apply same_rows_move].
Qed.

Lemma active_settles rid f d r d' : cf_status f = fd_active -> upsertMismatch (mismatch_of_finding rid f) d = (r, d') -> settled_by f d r d'.
Proof.
  intros Ha H. pose proof (upsert_moves _ _ _ _ H) as M. apply upsert_spec in H as [Ho H]. split_and!; [exact Ho| |exact M].
  intros Hr. destruct H as [[? _]|(m & Hm & Hd & _)]; [congruence|]. unfold recorded, is_active.
  change (mi_dedupeKey (mismatch_of_finding rid f)) with (mismatchDedupeKey (cf_dedupeKey f)) in *.
  rewrite Hm, Ha. by eapply detected_unsettled.
Qed.

Lemma resolved_settles f at_ by_ why d e r d' : let k := mismatchDedupeKey (cf_dedupeKey f) in
  cf_status f = fd_resolved -> row_of d k = Some e -> mm_status e <> ms_verified ->
  updateMismatchByDedupeKey k (resolved_patch at_ by_ why at_) d = (r, d') -> settled_by f d r d'.
Proof.
  intros k Ha Hk Hv H. pose proof (resolve_moves _ _ _ _ _ _ _ _ H) as M. apply update_spec in H as [Ho H]; [|done].
  split_and!; [exact Ho| |apply M; intros m; rewrite Hk; by intros [= <-]].
  intros Hr. destruct H as [[? _]|(now & H & _)]; [congruence|]. unfold recorded, is_active. fold k. by rewrite H, Hk, Ha.
Qed.

Lemma apply_settles rid f d r d' : applyFindingToMismatch rid f d = (r, d') -> settled_by f d r d'.
Proof.
  intros H. unfold applyFindingToMismatch in H. destruct (cf_status f) eqn:Ha.
  - eff_inv H as res d1 E; [subst r; by apply active_settles in E|]. apply active_settles in E; [|done].
    eff_inv H as ev d2 E2; apply event_same in E2.
    + by eapply settled_same.
    + injection H as <- <-. by eapply settled_same.
  - unfold getMismatchByDedupeKey in H. eff_inv H as o d1 E.
    { apply db_select_law in E as [S _]. subst r. split_and!; [by apply same_only_row|done|by apply same_rows_move]. }
    apply db_select_law in E as [S V]. specialize (V _ eq_refl). subst o.
    assert (Done : forall b : option RuntimeMismatchView, recorded d1 (mismatchDedupeKey (cf_dedupeKey f)) = false ->
      settled_by f d (Ret b) d1).
    { intros b Hb. split_and!; [by apply same_only_row| |by apply same_rows_move]. intros _. unfold is_active. by rewrite Hb, Ha. }
    destruct (row_of d (mismatchDedupeKey (cf_dedupeKey f))) as [e|] eqn:Ek.
    2: { injection H as <- <-. apply Done. unfold recorded. by rewrite S, Ek. }
    case_bool_decide as Hv.
    { injection H as <- <-. apply Done. unfold recorded, unsettled. rewrite S, Ek, Hv. done. }
    assert (Pre : forall A (r1 : exn A) d2, settled_by f d1 r1 d2 -> settled_by f d r1 d2).
    { intros A r1 d2 (H1 & H2 & H3). split_and!; [intros k Hk; rewrite H1 by done; apply S|done|].
      etrans; [by apply same_rows_move|exact H3]. }
    eff_inv H as res d2 E2; eapply resolved_settles in E2; [|done|by rewrite S|done| |done|by rewrite S|done].
    { subst r. by apply Pre. }
    destruct res as [m|]; [|injection H as <- <-; by apply Pre].
    eff_inv H as ev d3 E3; apply event_same in E3; [|injection H as <- <-]; eapply settled_same; (by apply Pre) || done.
Qed.

Lemma process_settles rid linked f d r d' : process_finding rid linked f d = (r, d') -> settled_by f d r d'.
Proof.
  intros H. unfold process_finding in H. eff_inv H as m d1 E; apply apply_settles in E; [by subst r|].
  eff_inv H as x d2 E2; apply record_finding_same in E2; [|injection H as <- <-]; by eapply settled_same.
Qed.

Definition key_of (f : ReconciliationCandidateFinding) : string := mismatchDedupeKey (cf_dedupeKey f).

(** The findings after each other: a mismatch all of whose findings agree ends
    as they say. *)
Lemma findings_settle rid fs : forall linked d r d', fold_eff (process_finding rid) linked fs d = (r, d') ->
  rows_move d d' /\ (forall k, k ∉ map key_of fs -> row_of d' k = row_of d k) /\
  (is_ret r = true -> forall k b, (exists f, f ∈ fs /\ key_of f = k) -> (forall f, f ∈ fs -> key_of f = k -> is_active f = b) ->
   recorded d' k = b).
Proof.
  induction fs as [|f fs IH]; intros linked d r d' H.
  { injection H as <- <-. split_and!; [reflexivity|done|]. intros _ k b (f & Hf & _). by apply not_elem_of_nil in Hf. }
  cbn [fold_eff] in H. eff_inv H as l1 d1 E; apply process_settles in E as (Ho & Hr & Hm).
  { subst r. split_and!; [done| |done]. intros k Hk. apply Ho. cbn in Hk. apply not_elem_of_cons in Hk as [? _]. done. }
  destruct (IH _ _ _ _ H) as (M & O & R). split_and!; [by etrans| |].
  - intros k Hk. cbn in Hk. apply not_elem_of_cons in Hk as [? ?]. rewrite O by done. by apply Ho.
  - intros Hret k b (f0 & Hf0 & Hk0) Hb. destruct (decide (k ∈ map key_of fs)) as [Hin|Hout].
    + apply list_elem_of_fmap in Hin as (f1 & -> & Hf1). apply R; [done|by exists f1|]. intros g Hg Hgk. apply Hb; [by right|done].
    + unfold recorded. rewrite O by done. assert (f0 = f) as ->.
      { apply elem_of_cons in Hf0 as [|Hf0]; [done|]. destruct Hout. rewrite <- Hk0. by apply list_elem_of_fmap_2. }
      rewrite <- Hk0. etrans; [by apply Hr|]. apply Hb; [by left|done].
Qed.

(** From the comparisons to the recorded mismatches. *)
Lemma checks_settle rid checks d0 linked d r d' : found_in d0 checks -> same_rows d0 d ->
  fold_eff (process_finding rid) linked (findings_of checks) d = (r, d') -> is_ret r = true ->
  (forall k, k ∉ map (fun c => mismatchDedupeKey (ci_dedupeKey c.1)) checks -> row_of d' k = row_of d0 k) /\
  (forall c, c ∈ checks -> (forall c', c' ∈ checks -> ci_dedupeKey c'.1 = ci_dedupeKey c.1 -> ci_active c'.1 = ci_active c.1) ->
   recorded d' (mismatchDedupeKey (ci_dedupeKey c.1)) = ci_active c.1).
Proof.
  unfold found_in. intros F S H Hret. apply findings_settle in H as (_ & O & R). specialize (R Hret).
  assert (Fin : forall f, f ∈ findings_of checks -> exists c, c ∈ checks /\ key_of f = mismatchDedupeKey (ci_dedupeKey c.1) /\
    is_active f = ci_active c.1).
  { intros f Hf. apply list_elem_of_omap in Hf as (c & Hc & Hcf). exists c. split; [done|].
    rewrite Forall_forall in F. rewrite (F _ Hc) in Hcf. unfold candidate_finding in Hcf. unfold is_active, key_of.
    case_match; [done|]. injection Hcf as <-. cbn. split; [done|]. by destruct (ci_active c.1). }
  split.
  - intros k Hk. rewrite O; [by rewrite S|]. intros Hin. apply Hk. apply list_elem_of_fmap in Hin as (f & -> & Hf).
    destruct (Fin _ Hf) as (c & Hc & -> & _). by apply (list_elem_of_fmap_2 (fun c => mismatchDedupeKey (ci_dedupeKey c.1))).
  - intros c Hc Hagree. set (k := mismatchDedupeKey (ci_dedupeKey c.1)).
    assert (Act : forall f, f ∈ findings_of checks -> key_of f = k -> is_active f = ci_active c.1).
    { intros f Hf Hk. destruct (Fin _ Hf) as (c' & Hc' & Hk' & ->). apply Hagree; [done|].
      rewrite Hk' in Hk. unfold k, mismatchDedupeKey in Hk. by apply (inj (String.append "reconciliation:")) in Hk. }
    destruct (decide (k ∈ map key_of (findings_of checks))) as [Hin|Hout].
    + apply list_elem_of_fmap in Hin as (f & Hk & Hf). apply R; [by exists f|done].
    + unfold recorded. rewrite O by done. rewrite S. rewrite Forall_forall in F. pose proof (F _ Hc) as Hf. fold k in Hf.
      destruct (c.2) as [f|] eqn:Ef.
      { exfalso. apply Hout. assert (Hin : f ∈ findings_of checks) by (apply list_elem_of_omap; by exists c).
        assert (Kf : key_of f = k) by (unfold candidate_finding in Hf; case_match; [done|]; by injection Hf as ->).
        rewrite <- Kf. by apply list_elem_of_fmap_2. }
      unfold candidate_finding in Hf. destruct (ci_active c.1); [done|]. unfold unsettled.
      destruct (row_of d0 k) as [m|]; [|done]. destruct (bool_decide (mm_status m = ms_verified)) eqn:Ev; [|done].
      by rewrite andb_false_r.
Qed.

(** ** Mismatches of inactive venues *)

(** Ids are a primary key. *)
Definition ids_unique (d : Db) : Prop := forall k k' m m', row_of d k = Some m -> row_of d k' = Some m' -> mm_id m = mm_id m' -> k = k'.

(** The row is kept, or was unsettled, at a venue that is not active, and is resolved. *)
Definition retired (ids : list string) (o o' : option RuntimeMismatchView) : Prop :=
  o' = o \/ exists m m' v, o = Some m /\ o' = Some m' /\ unsettled (Some m) = true /\ rec_get (mm_details m) "venueId" = JStr v /\
    js_has v ids = false /\ mm_status m' = ms_resolved /\ mm_id m' = mm_id m.
Definition rows_retired (ids : list string) (d d' : Db) : Prop := forall k, retired ids (row_of d k) (row_of d' k).

Lemma retired_moves ids d d' : rows_retired ids d d' -> rows_move d d'.
Proof.
  intros H k. destruct (H k) as [->|(m & m' & v & -> & -> & Hu & _ & _ & Hs & Hi)]; [reflexivity|]. split; [|done].
  rewrite Hs. apply rtc_once, auto_resolve. intros Hv. cbn in Hu. rewrite Hv in Hu. done.
Qed.
Lemma retired_same ids d d1 d2 : rows_retired ids d d1 -> same_rows d1 d2 -> rows_retired ids d d2.
Proof. intros H S k. rewrite S. apply H. Qed.

Lemma retire_step ids src at_ m d d1 r d2 : ids_unique d -> row_of d (mm_dedupeKey m) = Some m -> rows_retired ids d d1 ->
  resolve_inactive ids src at_ m d1 = (r, d2) -> rows_retired ids d d2.
Proof.
  intros U Hm H1 H. unfold resolve_inactive in H. destruct (bool_decide (mm_status m = ms_verified)) eqn:E1; [by injection H as <- <-|].
  destruct (bool_decide (mm_status m = ms_resolved)) eqn:E2; [by injection H as <- <-|].
  assert (Hu : unsettled (Some m) = true) by (cbn; by rewrite E1, E2).
  destruct (rec_get (mm_details m) "venueId") as [| | | |v| | |] eqn:Ev; try (by injection H as <- <-).
  destruct (js_has v ids) eqn:Ej; [by injection H as <- <-|].
  assert (Upd : exists x d3, updateMismatchById (mm_id m) (resolved_patch at_ src
                ("Inactive historical venue mismatch for " +:+ v
                 +:+ " was auto-resolved because the venue is no longer configured in the active runtime.") at_) d1 = (x, d3) /\ d2 = d3).
  { eff_inv H as x d3 E; [by exists (Throw x), d2|]. injection H as <- <-. by exists (Ret x), d3. }
  destruct Upd as (x & d3 & E & ->). unfold updateMismatchById in E. eff_inv E as now d4 En; apply now_same in En.
  { by eapply retired_same. }
  assert (Done : forall u d5 d6, db_update_id (mm_id m) (fun m1 => touch now (resolved_patch at_ src
      ("Inactive historical venue mismatch for " +:+ v
       +:+ " was auto-resolved because the venue is no longer configured in the active runtime.") at_ m1)) d4 = (u, d5) ->
    same_rows d5 d6 -> rows_retired ids d d6).
  { intros u d5 d6 Eu S. apply db_update_id_law in Eu; [|done].
    destruct Eu as [Eu|Eu]; [|eapply retired_same; [exact H1|]; intros k; by rewrite S, Eu, En].
    intros k. rewrite S, Eu, En. specialize (H1 k). destruct (row_of d1 k) as [m1|] eqn:Ek; cbn.
    2: { destruct H1 as [H1|(? & ? & ? & _ & ? & _)]; [|done]. by left. }
    destruct (decide (mm_id m1 = mm_id m)) as [Hi|]; [|done]. right.
    destruct H1 as [H1|(m0 & m2 & v' & Ho & [= <-] & Hx & Hv' & Hj & _ & Hi')].
    - pose proof (U _ _ _ _ (eq_sym H1) Hm Hi) as ->. rewrite Hm in H1. injection H1 as ->. eexists m, _, v. by split_and!.
    - eexists m0, _, v'. by split_and!. }
  eff_inv E as u d5 Eu; [by eapply Done|]. apply (select_id_same (mm_id m)) in E. by eapply Done.
Qed.

Lemma retire_all ids src at_ ms d : ids_unique d -> Forall (fun m => row_of d (mm_dedupeKey m) = Some m) ms -> forall d1 r d2,
  rows_retired ids d d1 -> each_eff (resolve_inactive ids src at_) ms d1 = (r, d2) -> rows_retired ids d d2.
Proof.
  intros U. unfold each_eff. induction 1 as [|m ms Hm _ IH]; intros d1 r d2 H1 H; [by injection H as <- <-|].
  cbn [fold_eff] in H. eff_inv H as u d3 E; [by eapply retire_step|]. destruct u. eapply IH; [|exact H]. by eapply retire_step.
Qed.

Lemma inactive_spec ids src at_ d0 d r d' : ids_unique d0 -> same_rows d0 d ->
  resolveInactiveVenueMismatches ids src at_ d = (r, d') -> rows_retired ids d0 d'.
Proof.
  intros U S H. assert (R0 : rows_retired ids d0 d) by (intros k; left; by rewrite S).
  unfold resolveInactiveVenueMismatches in H. case_match; [by injection H as <- <-|].
  eff_inv H as ms d1 E; apply db_list_law in E as [S1 V1]; [by eapply retired_same|].
  eapply retire_all; [exact U| |by eapply retired_same|exact H].
  eapply Forall_impl; [exact (V1 _ eq_refl)|]. intros m <-. by rewrite S.
Qed.

(** ** A run *)

Context (adapters : list (string * VenueAdapter)) (truthAdapters : list (string * eff Db VenueCapability)).
Hypothesis adapters_quiet : forall va, va ∈ adapters -> quiet_adapter va.2.
Hypothesis truth_quiet : forall va, va ∈ truthAdapters -> keeps same_rows va.2.

Lemma active_ids_same : keeps same_rows (getActiveRealVenueIds adapters truthAdapters).
Proof.
  unfold getActiveRealVenueIds. apply keeps_bind; [typeclasses eauto| |intros ids; apply keeps_bind; [typeclasses eauto| |intros; apply keeps_ret; typeclasses eauto]].
  - apply keeps_collect; [typeclasses eauto|]. intros va Hva. destruct (adapters_quiet _ Hva) as (Q & _). unfold active_of. keeps_tac.
  - apply keeps_collect; [typeclasses eauto|]. intros va Hva. pose proof (truth_quiet _ Hva). unfold active_truth_of. keeps_tac.
Qed.

Lemma finish_spec rn input fs d r d' : finish_run rn input fs d = (r, d') ->
  exists linked d1, fold_eff (process_finding (rr_id rn)) [] fs d = (linked, d1) /\ same_rows d1 d' /\ (is_ret r = true -> is_ret linked = true).
Proof.
  intros H. unfold finish_run in H. eff_inv H as linked d1 E; [by exists (Throw linked), d'; subst r|].
  exists (Ret linked), d1. split_and!; [exact E| |done]. revert H. generalize d1 as d2. clear E.
  match goal with |- forall d2, ?m d2 = _ -> _ => assert (K : keeps same_rows m) by keeps_tac end.
  intros d2 H. by eapply K.
Qed.

Lemma body_spec rn input d0 d r d' : ids_unique d0 -> same_rows d0 d -> run_body adapters truthAdapters rn input d = (r, d') ->
  rows_move d0 d' /\
  (is_ret r = true -> exists ids at_ dA dB d1 checks d2,
     getActiveRealVenueIds adapters truthAdapters dA = (Ret ids, dB) /\ rows_retired ids d0 d1 /\
     detect_all adapters truthAdapters (in_sourceComponent input) at_ ids d1 = (Ret checks, d2) /\
     (forall k, k ∉ map (fun c => mismatchDedupeKey (ci_dedupeKey c.1)) checks -> row_of d' k = row_of d1 k) /\
     (forall c, c ∈ checks -> (forall c', c' ∈ checks -> ci_dedupeKey c'.1 = ci_dedupeKey c.1 -> ci_active c'.1 = ci_active c.1) ->
      recorded d' (mismatchDedupeKey (ci_dedupeKey c.1)) = ci_active c.1)).
Proof.
  intros U S H. unfold run_body in H.
  eff_inv H as at_ da Ea; apply now_same in Ea.
  { subst r. split; [|done]. apply same_rows_move. by etrans. }
  eff_inv H as ids db Ei; pose proof (active_ids_same _ _ _ Ei) as Si.
  { subst r. split; [|done]. apply same_rows_move. etrans; [exact S|]. by etrans. }
  assert (Sb : same_rows d0 db) by (etrans; [exact S|]; by etrans).
  eff_inv H as u d1 Er; eapply inactive_spec in Er; [|exact U|exact Sb| |exact U|exact Sb].
  { subst r. split; [|done]. by eapply retired_moves. }
  eff_inv H as checks d2 Ed; pose proof Ed as Ed';
    apply (detect_emits adapters truthAdapters adapters_quiet truth_quiet (in_sourceComponent input) at_ d1) in Ed as [Sd Fd];
    [|done| |done].
  { subst r. split; [|done]. etrans; [by eapply retired_moves|by apply same_rows_move]. }
  specialize (Fd _ eq_refl). apply finish_spec in H as (linked & d3 & E & S3 & Hl).
  pose proof (findings_settle _ _ _ _ _ _ E) as (M & _ & _). split.
  { etrans; [by eapply retired_moves|]. etrans; [by apply same_rows_move|]. etrans; [exact M|]. by apply same_rows_move. }
  intros Hr. specialize (Hl Hr). destruct (checks_settle _ _ _ _ _ _ _ Fd Sd E Hl) as [H1 H2].
  exists ids, at_, da, db, d1, checks, d2. split_and!; [exact Ei|exact Er|exact Ed'| |].
  - intros k Hk. rewrite S3. by apply H1.
  - intros c Hc Hagree. unfold recorded. rewrite S3. by apply H2.
Qed.

Lemma run_spec input d r d' : run adapters truthAdapters input d = (r, d') ->
  is_ret r = false /\ same_rows d d' \/ exists rn d1 r1 d2, same_rows d d1 /\ run_body adapters truthAdapters rn input d1 = (r1, d2) /\ same_rows d2 d' /\
    (is_ret r = true -> r1 = r).
Proof.
  intros H. unfold run in H. eff_inv H as rn d1 E; apply create_run_same in E; [left; by subst r|]. right. exists rn, d1.
  unfold catch_eff in H. destruct (run_body adapters truthAdapters rn input d1) as [[a|e] d2] eqn:Eb.
  - injection H as <- <-. by exists (Ret a), d2.
  - exists (Throw e), d2. split_and!; [done|done| |].
    + assert (K : keeps same_rows (_ ← failReconciliationRun (rr_id rn) (err_message e)
        [("trigger", JStr (in_trigger input)); ("sourceComponent", JStr (in_sourceComponent input))]; throw_eff (A := RunResult) e))
        by keeps_tac. by eapply K.
    + intros Hr. eff_inv H as x d3 E3; [by subst r|]. by injection H as <- <-.
Qed.


Lemma run_moves input d r d' : ids_unique d -> run adapters truthAdapters input d = (r, d') -> rows_move d d'.
Proof.
  intros U H. apply run_spec in H as [[_ S]|(rn & d0 & r1 & d3 & S & E & S' & _)]; [by apply same_rows_move|].
  apply (body_spec _ _ _ _ _ _ U S) in E as [E _]. etrans; [exact E|by apply same_rows_move].
Qed.

(** C7. After a reconciliation run that returns, the mismatch of every
    comparison it made is unsettled exactly if the comparison found a
    difference (comparisons of one key agreeing), and no other mismatch changed
    but those of venues that are not active, which were resolved first. *)
Theorem reconciliation_exact input d res d' : ids_unique d -> run adapters truthAdapters input d = (Ret res, d') ->
  exists ids at_ dA dB d1 checks d2,
    getActiveRealVenueIds adapters truthAdapters dA = (Ret ids, dB) /\ rows_retired ids d d1 /\
    detect_all adapters truthAdapters (in_sourceComponent input) at_ ids d1 = (Ret checks, d2) /\
    (forall k, k ∉ map (fun c => mismatchDedupeKey (ci_dedupeKey c.1)) checks -> row_of d' k = row_of d1 k) /\
    (forall c, c ∈ checks -> (forall c', c' ∈ checks -> ci_dedupeKey c'.1 = ci_dedupeKey c.1 -> ci_active c'.1 = ci_active c.1) ->
     recorded d' (mismatchDedupeKey (ci_dedupeKey c.1)) = ci_active c.1).
Proof.
  intros U H. apply run_spec in H as [[? _]|(rn & d0 & r1 & d3 & S & E & S' & Hr)]; [done|]. rewrite (Hr eq_refl) in E.
  apply (body_spec _ _ _ _ _ _ U S) in E as [_ E]. destruct (E eq_refl) as (ids & at_ & dA & dB & d1 & checks & d2 & E1 & E2 & E3 & O & R).
  exists ids, at_, dA, dB, d1, checks, d2. split_and!; [exact E1|exact E2|exact E3| |].
  - intros k Hk. rewrite S'. by apply O.
  - intros c Hc Hagree. unfold recorded. rewrite S'. by apply R.
Qed.

(** C29. Whatever fails in a reconciliation run, no mismatch disappears, and the
    status of every mismatch is kept or moved by lifecycle steps to resolved or
    reopened: a run never verifies, acknowledges or recovers a mismatch. *)
Theorem reconciliation_keeps_lifecycle input d r d' k m : ids_unique d -> run adapters truthAdapters input d = (r, d') ->
  row_of d k = Some m ->
  exists m', row_of d' k = Some m' /\ mm_id m' = mm_id m /\ rtc auto_step (mm_status m) (mm_status m') /\
    (mm_status m' = mm_status m \/ mm_status m' = ms_resolved \/ mm_status m' = ms_reopened).
Proof.
  intros U H Hm. pose proof (run_moves _ _ _ _ U H k) as M.
  rewrite Hm in M. cbn in M. destruct (row_of d' k) as [m'|]; [|done]. destruct M as [M Hi].
  exists m'. split_and!; [done..|]. by apply auto_step_target.
Qed.
End Settle.

(** * The orders and positions that are compared *)

Section Orders.
Context `{MQ : MonitorQueries} `{RQ : !ReconQueries} `{ML : !MismatchDbLaws}.
Context (adapters : list (string * VenueAdapter)) (src : string) (at_ : Z).
Context (orders : string -> list OrderView) (reports : string -> string -> option PlaceOrderResult) (coverage : string -> string).

(** The queries succeed and always report the same. *)
Hypothesis keys_unique : NoDup (jm_keys adapters).
Hypothesis select_succeeds : forall k, returns (db_select k).
Hypothesis orders_listed : forall v, answers (listOrdersByVenue v) (orders v).
Hypothesis orders_reported : forall va i, va ∈ adapters -> answers (va_getOrder va.2 i) (reports va.1 i).
Hypothesis coverage_reported : forall va m, va ∈ adapters -> va_orderState va.2 = Some m -> answers m (coverage va.1).

Definition supported (va : string * VenueAdapter) : bool :=
  match va_orderState va.2 with None => true | Some _ => negb (bool_decide (coverage va.1 = "unsupported")) end.
Definition order_checks (va : string * VenueAdapter) : list CandidateInput :=
  omap (fun o => venueOrderId ← ov_venueOrderId o; Some (order_check src at_ va.1 o venueOrderId (reports va.1 venueOrderId))) (orders va.1).

(** A detection makes just these comparisons. *)
Definition compares (m : eff Db (list Checked)) (inputs : list CandidateInput) : Prop :=
  forall d, exists cs d', m d = (Ret cs, d') /\ map fst cs = inputs.

Lemma compares_check input : compares (c ← check_candidate input; mret [c]) [input].
Proof.
  intros d. destruct (returns_run (db_select (mismatchDedupeKey (ci_dedupeKey input))) d) as (o & d1 & E); [apply select_succeeds|].
  exists [(input, candidate_finding o input)], d1. split; [|done]. unfold check_candidate, toCandidateFinding, getMismatchByDedupeKey.
  erewrite eff_bind_ret; [|erewrite eff_bind_ret; [done|erewrite eff_bind_ret; [done|exact E]]]. done.
Qed.

Lemma compares_collect {A} (f : A -> eff Db (list Checked)) (g : A -> list CandidateInput) l :
  (forall a, a ∈ l -> compares (f a) (g a)) -> compares (collect f l) (flat_map g l).
Proof.
  induction l as [|a l IH]; intros Hf d; [by exists [], d|]. cbn [collect flat_map].
  destruct (Hf a (list_elem_of_here _ _) d) as (c1 & d1 & E1 & H1). eff_step E1.
  destruct (IH (fun b Hb => Hf b (list_elem_of_further _ _ _ Hb)) d1) as (c2 & d2 & E2 & H2). eff_step E2.
  exists (c1 ++ c2), d2. split; [done|]. rewrite <- H1, <- H2. apply List.map_app.
Qed.

Lemma compares_order va o : va ∈ adapters ->
  compares (detect_order src at_ va.1 va.2 o)
    (from_option (fun i => [order_check src at_ va.1 o i (reports va.1 i)]) [] (ov_venueOrderId o)).
Proof.
  intros Hva d. unfold detect_order. destruct (ov_venueOrderId o) as [i|]; [|by exists [], d].
  destruct (orders_reported va i Hva d) as (d1 & E). eff_step E. apply compares_check.
Qed.

Lemma supports_found l : (forall va, va ∈ l -> va ∈ adapters) -> forall d, exists d',
  collect (fun va => ok ← order_support va.2; mret [(va.1, ok)]) l d = (Ret (map (fun va => (va.1, supported va)) l), d').
Proof.
  induction l as [|va l IH]; intros Hl d; [by exists d|]. cbn [collect map].
  assert (E : exists d1, order_support va.2 d = (Ret (supported va), d1)).
  { unfold order_support, supported. destruct (va_orderState va.2) as [m|] eqn:Em; [|by exists d].
    destruct (coverage_reported va m (Hl _ (list_elem_of_here _ _)) Em d) as (d1 & E). exists d1. by eff_step E. }
  destruct E as (d1 & E). destruct (IH (fun x Hx => Hl x (list_elem_of_further _ _ _ Hx)) d1) as (d2 & E2). exists d2.
  erewrite eff_bind_ret; [|erewrite eff_bind_ret; [done|exact E]]. by eff_step E2.
Qed.

(** The engine compares every order of a venue that the runtime knows by a
    venue order id with what the venue reports of it, exactly for the venues
    whose truth snapshot does not exclude orders. *)
Theorem order_checks_exact d : exists cs d',
  detectOrderStateFindings src at_ adapters d = (Ret cs, d') /\
  map fst cs = flat_map (fun va => if supported va then order_checks va else []) adapters.
Proof.
  unfold detectOrderStateFindings. destruct (supports_found adapters (fun _ H => H) d) as (d1 & E). eff_step E.
  apply compares_collect. intros va Hva.
  assert (Hs : jm_get va.1 (jm_of_list (map (fun va => (va.1, supported va)) adapters)) = Some (supported va)).
  { apply jm_get_spec; [apply jm_of_list_NoDup|]. apply jm_of_list_elem; [|by apply (list_elem_of_fmap_2 (fun va => (va.1, supported va)))].
    intros k v v' H1 H2. apply list_elem_of_fmap in H1 as ([k1 a1] & [= -> ->] & H1), H2 as ([k2 a2] & [= -> ->] & H2).
    apply jm_In_get in H1, H2; [|done..]. congruence. }
  intros d2. rewrite Hs. cbn [or_else]. destruct (supported va); cbn [negb]; [|by exists [], d2].
  destruct (orders_listed va.1 d2) as (d3 & E3). eff_step E3.
  replace (order_checks va) with (flat_map (fun o => from_option (fun i => [order_check src at_ va.1 o i (reports va.1 i)]) []
    (ov_venueOrderId o)) (orders va.1)).
  - apply compares_collect. intros o _. by apply compares_order.
  - clear E3. unfold order_checks. induction (orders va.1) as [|o l IH]; [done|]. cbn. rewrite IH. by destruct (ov_venueOrderId o).
Qed.
End Orders.

(** * A reconciliation on the database in memory *)

(** One run, completed when it is read; findings are not kept. *)
#[export] Instance sample_recon : ReconDb (MD := memory_db) := {|
  db_insert_run mk := fun d => (Ret (Some (mk "run-1" 0)), d);
  db_select_run i := fun d => (Ret (Some (completed_run 0 0 [] 0 0 (new_run "manual" None "worker" None 0 0 i 0))), d);
  db_update_run i f := fun d => (Ret tt, d);
  db_latest_run := fun d => (Ret None, d);
  db_latest_completed_reconciliation := fun d => (Ret None, d);
  db_insert_finding mk := fun d => (Ret (Some (mk "finding-1" 0)), d);
  db_list_findings n i := fun d => (Ret [], d);
  db_audit e := fun d => (Ret tt, d);
  db_create_id := fun d => (Ret "id-1", d);
|}.
#[export] Instance sample_recon_laws : ReconDbLaws (RD := sample_recon).
Proof. split; repeat intros ?; cbn in *; congruence. Qed.

(** A fresh projection; venue-a filled an order that the runtime holds open,
    and holds a position of the size the runtime knows. *)
Definition sample_order : OrderView := MkOrderView "o-1" (Some "v-1") "0" None "submitted".
Definition sample_view : PositionView := MkPositionView "venue-a" "BTC" "long" "1.5" "50000" "50000" "0" 0.
Definition sample_report : PlaceOrderResult := MkPlaceOrderResult "v-1" "o-1" vo_filled "1" None None 0 None None None.
#[export] Instance sample_recon_queries : ReconQueries (MQ := sample_queries) := {|
  getRuntimeStatus := fun d => (Ret (MkRuntimeStatus pj_fresh (Some "run-2")), d);
  getLatestPortfolioSnapshotRow := fun d => (Ret None, d);
  getLatestRiskSnapshotRow := fun d => (Ret None, d);
  getPortfolioCurrentRow := fun d => (Ret None, d);
  getRiskCurrentRow := fun d => (Ret None, d);
  listRuntimeCommands n := fun d => (Ret [MkCommand "c-1" rct_run_cycle rcs_completed []], d);
  getStrategyRun i := fun d => (Ret None, d);
  listOrdersByVenue v := fun d => (Ret [sample_order], d);
  listPositionsByVenue v := fun d => (Ret [sample_view], d);
|}.
#[export] Instance sample_recon_queries_laws : ReconQueriesLaws (RQ := sample_recon_queries).
Proof. split; repeat intros ?; cbn in *; congruence. Qed.
#[export] Instance sample_venue_queries : VenueQueries (RQ := sample_recon_queries) := {|
  listVenues n := fun d => (Ret [], d);
  listExpectedVenueExecutionReferences v n := fun d => (Ret [], d);
  listVenueSnapshots v n := fun d => (Ret [], d);
  getVenueComparisonDetail v := fun d => (Ret None, d);
  getInternalDerivativeSourceWatermark v := fun d => (Ret None, d);
|}.
#[export] Instance sample_venue_queries_laws : VenueQueriesLaws (VQ := sample_venue_queries).
Proof. split; repeat intros ?; cbn in *; congruence. Qed.

Definition sample_adapter : VenueAdapter (MD := memory_db) :=
  MkAdapter _ (Some (fun d => (Ret ("venue-a", true), d))) None (fun i d => (Ret (Some sample_report), d))
    (fun d => (Ret [sample_size "1.5"], d)).
Definition sample_adapters : list (string * VenueAdapter (MD := memory_db)) := [("venue-a", sample_adapter)].
Definition sample_input : RunInput := MkRunInput "manual" "worker" None None.
Lemma sample_adapters_quiet va : va ∈ sample_adapters -> quiet_adapter va.2.
Proof.
  intros ->%list_elem_of_singleton. split_and!; cbn; try (intros m [= <-]); repeat intros ?; cbn in *; congruence.
Qed.

(** Before the run: the position was mismatched, a venue has gone. *)
Definition before_run : @Db memory_db :=
  let record d key venue := (upsertMismatch (MkMismatchInput key "position_exposure_mismatch" "high" (Some sk_reconciliation)
    "worker" None None "" [("venueId", JStr venue)] 0) d).2 in
  record (record empty_db "reconciliation:position_exposure_mismatch:venue-a:BTC" "venue-a")
    "reconciliation:position_exposure_mismatch:venue-z:BTC" "venue-z".
Definition sample_run := run (DL := exact_decimal) sample_adapters [] sample_input before_run.

Lemma before_run_unique : ids_unique before_run.
Proof.
  intros k k' m m' H H' Hi. cbn in H, H'.
  assert (Hm : forall x k0, find_key mm_dedupeKey k0 (md_rows before_run) = Some x -> In x (md_rows before_run) /\ mm_dedupeKey x = k0).
  { intros x k0 Hx. split; [by apply find_some in Hx as [? _]|by eapply find_key_key]. }
  apply Hm in H as [I1 <-], H' as [I2 <-].
  assert (B : forallb (fun x => forallb (fun y => negb (String.eqb (mm_id x) (mm_id y)) || String.eqb (mm_dedupeKey x) (mm_dedupeKey y))
    (md_rows before_run)) (md_rows before_run) = true) by (vm_compute; reflexivity).
  rewrite forallb_forall in B. specialize (B _ I1). rewrite forallb_forall in B. specialize (B _ I2).
  rewrite Hi, String.eqb_refl in B. by apply String.eqb_eq in B.
Qed.

(** The run returns; it opens the mismatch of the order, resolves the one of
    the position and the one of the gone venue. *)
Lemma reconciliation_exact_witness : exists res d',
  sample_run = (Ret res, d') /\
  exists ids at_ dA dB d1 checks d2, getActiveRealVenueIds sample_adapters [] dA = (Ret ids, dB) /\ rows_retired ids before_run d1 /\
    detect_all (DL := exact_decimal) sample_adapters [] "worker" at_ ids d1 = (Ret checks, d2).
Proof.
  assert (B : is_ret sample_run.1 = true) by (vm_compute; reflexivity).
  destruct sample_run as [[res|e] d'] eqn:E; [|discriminate B].
  destruct (reconciliation_exact (DL := exact_decimal) sample_adapters [] sample_adapters_quiet
    (fun va H => match not_elem_of_nil va H with end) sample_input before_run res d' before_run_unique E)
    as (ids & at_ & dA & dB & d1 & checks & d2 & E1 & E2 & E3 & _).
  exact (ex_intro _ res (ex_intro _ d' (conj eq_refl
    (ex_intro _ ids (ex_intro _ at_ (ex_intro _ dA (ex_intro _ dB (ex_intro _ d1 (ex_intro _ checks (ex_intro _ d2
      (conj E1 (conj E2 E3)))))))))))).
Defined.

Example sample_run_settles :
  map (fun m => (mm_dedupeKey m, mismatch_status_str (mm_status m))) (md_rows sample_run.2) =
  [("reconciliation:position_exposure_mismatch:venue-a:BTC", "resolved");
   ("reconciliation:position_exposure_mismatch:venue-z:BTC", "resolved");
   ("reconciliation:command_outcome_mismatch:c-1", "open");
   ("reconciliation:order_state_mismatch:venue-a:o-1", "open")]%list.
Proof. vm_compute. reflexivity. Qed.

Lemma reconciliation_keeps_lifecycle_witness :
  exists m', row_of sample_run.2 "reconciliation:position_exposure_mismatch:venue-z:BTC" = Some m' /\ mm_status m' = ms_resolved.
Proof.
  destruct (row_of before_run "reconciliation:position_exposure_mismatch:venue-z:BTC") as [m|] eqn:E; [|discriminate E].
  destruct sample_run as [r d'] eqn:Er.
  destruct (reconciliation_keeps_lifecycle (DL := exact_decimal) sample_adapters [] sample_adapters_quiet
    (fun va H => match not_elem_of_nil va H with end) sample_input before_run r d' _ m before_run_unique Er E) as (m' & H & _).
  assert (B : (mm_status <$> row_of sample_run.2 "reconciliation:position_exposure_mismatch:venue-z:BTC") = Some ms_resolved)
    by (vm_compute; reflexivity).
  rewrite Er in B. cbn [snd] in B |- *. rewrite H in B. injection B as B. exact (ex_intro _ m' (conj H B)).
Defined.

Lemma order_checks_exact_witness : exists cs d',
  detectOrderStateFindings "worker" 0 sample_adapters before_run = (Ret cs, d') /\
  map fst cs = [order_check "worker" 0 "venue-a" sample_order "v-1" (Some sample_report)].
Proof.
  refine (order_checks_exact sample_adapters "worker" 0 (fun _ => [sample_order]) (fun _ _ => Some sample_report) (fun _ => "")
    _ _ _ _ _ before_run).
  - repeat constructor. apply not_elem_of_nil.
  - by intros k d.
  - by intros v d; exists d.
  - intros va i Hva d. apply list_elem_of_singleton in Hva as ->. by exists d.
  - intros va m Hva. by apply list_elem_of_singleton in Hva as ->.
Defined.
