(* ===== verification/SimVenue.v ===== *)
(** * The simulated venue (packages/venue-adapters/src/simulation/simulated-venue-adapter.ts, price-feed.ts)

    [SimulatedVenueAdapter] keeps orders, balances and positions in memory and
    fills against a price feed (class [PriceFeed]; [StaticPriceFeed] is an
    instance, and the choice the constructor makes another).  A method is a
    computation over the pair of the adapter's state and the feed's; a throw
    keeps the effects made before it.  Clock readings are arguments; logger and
    metric calls are not modelled.  [new Decimal] of the literals '0' and '1'
    is [dec_of_Z].  The file shows the invariant of every reachable state, and
    a stronger one of those that no replay of a used id and no overflow of the
    order numbers led to; that a placed client order id fills at most once; and
    that a refused order changes nothing.  [SimBook] shows what the position book
    computes. *)
From Stdlib Require Import SpecFloat Ascii.
From S2P Require Import Prelude JsNumber JsValue DecimalLib DecimalExact Domain MarketIdentity OrderStore Executor.
Open Scope Z_scope.

(** ** Price feeds *)

(** [PriceFeed]: the price of an asset, and its funding rate with the time of
    the next payment (the clock reading is an argument). *)
Class PriceFeed (F : Type) := {
  pf_getPrice : string -> eff F string;
  pf_getFundingRate : string -> Z -> eff F (string * Z);
}.

Record StaticPriceFeed := MkStaticPriceFeed {
  spf_prices : list (string * string);
  spf_fundingRates : list (string * string);
}.

Definition static_getPrice (asset : string) : eff StaticPriceFeed string := fun f =>
  match jm_get asset (spf_prices f) with
  | None => (Throw (Error_ ("StaticPriceFeed: no price for asset " +:+ quoted asset)), f)
  | Some price => (Ret price, f)
  end.

Definition static_getFundingRate (asset : string) (now : Z) : eff StaticPriceFeed (string * Z) := fun f =>
  (Ret (or_else (jm_get asset (spf_fundingRates f)) "0.0001", now + 8 * 60 * 60 * 1000), f).

#[export] Instance static_price_feed : PriceFeed StaticPriceFeed := {|
  pf_getPrice := static_getPrice;
  pf_getFundingRate := static_getFundingRate;
|}.

(** The feed of an adapter: the one built from fixed prices, or the given one. *)
#[export] Instance chosen_feed {F} `{PriceFeed F} : PriceFeed (StaticPriceFeed + F) := {|
  pf_getPrice := fun a f => match f with
    | inl s => let '(r, s') := pf_getPrice a s in (r, inl s')
    | inr g => let '(r, g') := pf_getPrice a g in (r, inr g') end;
  pf_getFundingRate := fun a t f => match f with
    | inl s => let '(r, s') := pf_getFundingRate a t s in (r, inl s')
    | inr g => let '(r, g') := pf_getFundingRate a t g in (r, inr g') end;
|}.

(** ** Data *)

Inductive SimVenueType := dex | cex.

Record SimulatedVenueConfig := MkSimConfig {
  sc_venueId : string;
  sc_venueType : SimVenueType;
  sc_makerFeePct : string;
  sc_takerFeePct : string;
  sc_slippagePct : string;
  sc_initialBalances : list (string * string);
  sc_deterministicPrices : option (list (string * string));
  sc_deterministicFundingRates : option (list (string * string));
}.

Record ReplayFillParams := MkReplayFill {
  rp_venueOrderId : string;
  rp_clientOrderId : string;
  rp_asset : string;
  rp_side : OrderSide;
  rp_size : string;
  rp_fillPrice : string;
  rp_fee : string;
  rp_reduceOnly : bool;
  rp_submittedAt : Z;
  rp_marketIdentity : option CanonicalMarketIdentity;
}.

Record InternalOrder := MkInternalOrder {
  io_params : PlaceOrderParams;
  io_result : PlaceOrderResult;
  io_open : bool;
}.

Record MarketData := MkMarketData {
  md_venue : string;
  md_asset_ : string;
  md_bid : string;
  md_ask : string;
  md_mid : string;
  md_markPrice : string;
  md_indexPrice : string;
  md_fundingRate : string;
  md_nextFundingTime : Z;
  md_openInterest : string;
  md_volume24h : string;
  md_marketIdentity : option CanonicalMarketIdentity;
  md_updatedAt : Z;
}.

Record AccountBalance := MkAccountBalance {
  ab_venueId : string;
  ab_asset : string;
  ab_available : string;
  ab_locked : string;
  ab_total : string;
  ab_updatedAt : Z;
}.

Section SimData.
Context `{DL : DecimalLib}.

Record InternalPosition := MkInternalPosition {
  ip_asset : string;
  ip_side : PositionSide;
  ip_size : dec;
  ip_entryPrice : dec;
  ip_realizedPnl : dec;
}.

(** The private fields of the adapter that change. *)
Record SimState := MkSimState {
  sv_connected : bool;
  sv_orderCounter : Z;
  sv_orders : list (string * InternalOrder);
  sv_clientIdIndex : list (string * string);
  sv_balances : list (string * dec);
  sv_positions : list (string * InternalPosition);
}.

Definition set_connected (b : bool) (s : SimState) : SimState :=
  MkSimState b (sv_orderCounter s) (sv_orders s) (sv_clientIdIndex s) (sv_balances s) (sv_positions s).
Definition set_counter (n : Z) (s : SimState) : SimState :=
  MkSimState (sv_connected s) n (sv_orders s) (sv_clientIdIndex s) (sv_balances s) (sv_positions s).
Definition set_balances (b : list (string * dec)) (s : SimState) : SimState :=
  MkSimState (sv_connected s) (sv_orderCounter s) (sv_orders s) (sv_clientIdIndex s) b (sv_positions s).
Definition set_positions (p : list (string * InternalPosition)) (s : SimState) : SimState :=
  MkSimState (sv_connected s) (sv_orderCounter s) (sv_orders s) (sv_clientIdIndex s) (sv_balances s) p.

(** [this.orders.set(id, o)] followed by [this.clientIdIndex.set(clientId, id)]. *)
Definition record_order (id : string) (o : InternalOrder) (s : SimState) : SimState :=
  MkSimState (sv_connected s) (sv_orderCounter s) (jm_set id o (sv_orders s))
    (jm_set (pp_clientOrderId (io_params o)) id (sv_clientIdIndex s)) (sv_balances s) (sv_positions s).

(** A change of the order object stored under [id]. *)
Definition set_order (id : string) (o : InternalOrder) (s : SimState) : SimState :=
  MkSimState (sv_connected s) (sv_orderCounter s) (jm_set id o (sv_orders s)) (sv_clientIdIndex s)
    (sv_balances s) (sv_positions s).
End SimData.
Arguments InternalPosition : clear implicits.
Arguments InternalPosition {DL}.
Arguments SimState : clear implicits.
Arguments SimState {DL}.

(** ** Order ids *)

(** An integer as the nearest [number], and its text. *)
Definition int_round (z : Z) : Z :=
  if Z.abs z <=? 2 ^ 53 then z
  else match num_of_Z z with
       | S754_finite s m e => if 0 <=? e then (if s then - (Zpos m * 2 ^ e) else Zpos m * 2 ^ e) else z
       | _ => z
       end.
Definition int_str (z : Z) : string := if Z.abs z <=? 2 ^ 53 then z_str z else n_str (num_of_Z z).

Fixpoint has_char (c : ascii) (s : string) : bool :=
  match s with EmptyString => false | String d s' => bool_decide (c = d) || has_char c s' end.

(** [s.split('-').pop()]: the text after the last dash. *)
Fixpoint last_segment (s : string) : string :=
  match s with
  | EmptyString => EmptyString
  | String c s' => if has_char "-" s' then last_segment s' else if bool_decide (c = "-"%char) then s' else s
  end.

(** [Number.parseInt(s, 10)] when it is a finite number: integers from
    [2^1024 - 2^970] on round to an infinity. *)
Definition parse_int_finite (s : string) : option Z :=
  let '(neg, s1) := take_sign (trim_start s) in
  let '(v, cnt, _) := take_digits 0 0 s1 in
  if (cnt =? 0) || (2 ^ 1024 - 2 ^ 970 <=? v) then None
  else Some (int_round (if neg : bool then - v else v)).

Definition extractSequence (venueOrderId : string) : Z := or_else (parse_int_finite (last_segment venueOrderId)) 0.

Definition sim_order_id (venueId : string) (n : Z) : string := venueId +:+ "-sim-" +:+ int_str n.

(** ** Fills *)

Section SimFills.
Context `{DL : DecimalLib}.

Definition adjustBalance (asset : string) (delta : dec) (s : SimState) : SimState :=
  let current := or_else (jm_get asset (sv_balances s)) (dec_of_Z 0) in
  set_balances (jm_set asset (d_plus current delta) (sv_balances s)) s.

Definition resolveQuoteAsset (baseAsset : string) : string := "USDC".

(** The profit of closing [size] of a position at [fillPrice]. *)
Definition realized_pnl (p : InternalPosition) (fillPrice size : dec) : dec :=
  match ip_side p with
  | long => d_times (d_minus fillPrice (ip_entryPrice p)) size
  | short => d_times (d_minus (ip_entryPrice p) fillPrice) size
  end.

Definition updatePosition (asset : string) (incomingSide : PositionSide) (size fillPrice : dec)
    (reduceOnly : bool) (s : SimState) : SimState :=
  match jm_get asset (sv_positions s) with
  | None =>
      if reduceOnly then s
      else set_positions (jm_set asset (MkInternalPosition asset incomingSide size fillPrice (dec_of_Z 0))
                           (sv_positions s)) s
  | Some existing =>
      if bool_decide (ip_side existing = incomingSide) then
        let totalSize := d_plus (ip_size existing) size in
        let newEntryPrice := d_div (d_plus (d_times (ip_entryPrice existing) (ip_size existing))
                                           (d_times fillPrice size)) totalSize in
        set_positions (jm_set asset (MkInternalPosition (ip_asset existing) (ip_side existing) totalSize
                         newEntryPrice (ip_realizedPnl existing)) (sv_positions s)) s
      else if d_lte size (ip_size existing) then
        let left_ := d_minus (ip_size existing) size in
        if d_isZero left_ then set_positions (jm_delete asset (sv_positions s)) s
        else set_positions (jm_set asset (MkInternalPosition (ip_asset existing) (ip_side existing) left_
               (ip_entryPrice existing) (d_plus (ip_realizedPnl existing) (realized_pnl existing fillPrice size)))
               (sv_positions s)) s
      else if negb reduceOnly then
        let closingSize := ip_size existing in
        set_positions (jm_set asset (MkInternalPosition asset incomingSide (d_minus size closingSize) fillPrice
          (realized_pnl existing fillPrice closingSize)) (sv_positions s)) s
      else set_positions (jm_delete asset (sv_positions s)) s
  end.

Definition applyFill (params : PlaceOrderParams) (fillPrice size fee : dec) (s : SimState) : SimState :=
  let quoteAsset := resolveQuoteAsset (pp_asset params) in
  match pp_side params with
  | buy =>
      let cost := d_plus (d_times fillPrice size) fee in
      let s1 := adjustBalance quoteAsset (d_neg cost) s in
      let s2 := adjustBalance (pp_asset params) size s1 in
      updatePosition (pp_asset params) long size fillPrice (pp_reduceOnly params) s2
  | sell =>
      let s1 := adjustBalance (pp_asset params) (d_neg size) s in
      let proceeds := d_minus (d_times fillPrice size) fee in
      let s2 := adjustBalance quoteAsset proceeds s1 in
      updatePosition (pp_asset params) short size fillPrice (pp_reduceOnly params) s2
  end.
End SimFills.

(** ** The adapter *)

Section Adapter.
Context `{DL : DecimalLib} {F : Type} `{PF : PriceFeed F}.

Definition on_sim {A} (f : SimState -> A * SimState) : eff (SimState * F) A :=
  fun sf => let '(a, s') := f sf.1 in (Ret a, (s', sf.2)).
Definition modify_sim (f : SimState -> SimState) : eff (SimState * F) unit :=
  fun sf => (Ret tt, (f sf.1, sf.2)).
Definition read_sim {A} (f : SimState -> A) : eff (SimState * F) A := fun sf => (Ret (f sf.1), sf).
Definition on_feed {A} (m : eff F A) : eff (SimState * F) A :=
  fun sf => let '(r, f') := m sf.2 in (r, (sf.1, f')).
Definition parse_ (t : string) : eff (SimState * F) dec := lift_exn (dec_of_string t).

(** The entries of [initialBalances], set one after the other. *)
Fixpoint seed_balances (entries : list (string * string)) (b : list (string * dec)) : exn (list (string * dec)) :=
  match entries with
  | [] => Ret b
  | (asset, amount) :: rest => d ← dec_of_string amount; seed_balances rest (jm_set asset d b)
  end.

Definition empty_sim : SimState := MkSimState false 0 [] [] [] [].

(** The constructor: the initial state and the feed. *)
Definition newSimulatedVenueAdapter (config : SimulatedVenueConfig) (priceFeed : option F)
    : exn (SimState * (StaticPriceFeed + F)) :=
  feed ← match sc_deterministicPrices config with
         | Some prices => Ret (inl (MkStaticPriceFeed prices (or_else (sc_deterministicFundingRates config) [])))
         | None => match priceFeed with
                   | Some f => Ret (inr f)
                   | None => Throw (Error_ "SimulatedVenueAdapter: provide either deterministicPrices or a PriceFeed instance")
                   end
         end;
  b ← seed_balances (sc_initialBalances config) [];
  Ret (set_balances b empty_sim, feed).

Definition connect : eff (SimState * F) unit := modify_sim (set_connected true).
Definition disconnect : eff (SimState * F) unit := modify_sim (set_connected false).
Definition isConnected (s : SimState) : bool := sv_connected s.

(** The entries are set one by one: a throw keeps those before it. *)
Fixpoint reseed (entries : list (string * string)) : eff (SimState * F) unit :=
  match entries with
  | [] => mret tt
  | (asset, amount) :: rest =>
      d ← parse_ amount;
      _ ← modify_sim (fun s => set_balances (jm_set asset d (sv_balances s)) s);
      reseed rest
  end.

Definition resetSimulationState (config : SimulatedVenueConfig) : eff (SimState * F) unit :=
  _ ← modify_sim (fun s => set_connected (sv_connected s) empty_sim);
  reseed (sc_initialBalances config).

(** *** Market data *)

(** A spot identity derived from the asset symbol. *)
Definition derived_spot (config : SimulatedVenueConfig) (asset : string) (stage : CanonicalMarketIdentityCaptureStage)
    (source note : string) : CanonicalMarketIdentity :=
  createCanonicalMarketIdentity {|
    ii_venueId := Some (sc_venueId config); ii_asset := Some asset; ii_marketType := JStr "spot";
    ii_marketIndex := JUndefined; ii_marketKey := None; ii_marketSymbol := Some asset; ii_marketName := None;
    ii_aliases := None; ii_provenance := Some derived; ii_capturedAtStage := stage; ii_source := source;
    ii_notes := Some [note] |}.

(** The identity of a result: captured from the order, or derived. *)
Definition result_identity (config : SimulatedVenueConfig) (given : option CanonicalMarketIdentity)
    (asset source note : string) : CanonicalMarketIdentity :=
  match given with
  | None => derived_spot config asset execution_result source note
  | Some i => captureCanonicalMarketIdentity i execution_result (Some source) None
  end.

Definition getFundingRate (asset : string) (now : Z) : eff (SimState * F) (string * Z) :=
  on_feed (pf_getFundingRate asset now).

Definition getMarketData (config : SimulatedVenueConfig) (asset : string) (now : Z) : eff (SimState * F) MarketData :=
  mid ← on_feed (pf_getPrice asset);
  midD ← parse_ mid;
  spread ← parse_ "0.0002";
  let halfSpread := d_times midD spread in
  let bid := d_toFixedN 8 (d_minus midD halfSpread) in
  let ask := d_toFixedN 8 (d_plus midD halfSpread) in
  funding ← on_feed (pf_getFundingRate asset now);
  mret (MkMarketData (sc_venueId config) asset bid ask mid mid mid funding.1 funding.2 "0" "0"
    (Some (derived_spot config asset market_data "simulated_price_feed"
      "Simulated venues derive spot market identity from configured asset symbols rather than venue-native market registries."))
    now).

(** *** Account *)

(** The balance an open order locks, added to [locked]. *)
Definition lock_step (asset : string) (locked : dec) (o : InternalOrder) : exn dec :=
  if io_open o && bool_decide (pp_asset (io_params o) = asset) then
    match pp_side (io_params o), pp_price (io_params o) with
    | buy, Some price =>
        size ← dec_of_string (pp_size (io_params o));
        p ← dec_of_string price;
        Ret (d_plus locked (d_times size p))
    | buy, None => Ret locked
    | sell, _ => size ← dec_of_string (pp_size (io_params o)); Ret (d_plus locked size)
    end
  else Ret locked.

Definition balance_row (config : SimulatedVenueConfig) (now : Z) (s : SimState) (kv : string * dec) : exn AccountBalance :=
  locked ← fold_exn (lock_step kv.1) (dec_of_Z 0) (jm_values (sv_orders s));
  let available := d_max [d_minus kv.2 locked; dec_of_Z 0] in
  Ret (MkAccountBalance (sc_venueId config) kv.1 (d_toFixed available) (d_toFixed locked) (d_toFixed kv.2) now).

Definition getBalances (config : SimulatedVenueConfig) (now : Z) (s : SimState) : exn (list AccountBalance) :=
  map_exn (balance_row config now s) (sv_balances s).

(** The price of an open position: its entry price when the feed fails. *)
Definition price_or (asset : string) (fallback : string) : eff (SimState * F) string :=
  catch_eff (on_feed (pf_getPrice asset)) (fun _ => mret fallback).

Definition position_row (config : SimulatedVenueConfig) (now : Z) (asset : string) (pos : InternalPosition)
    : eff (SimState * F) VenuePosition :=
  currentPrice ← price_or asset (d_toFixed (ip_entryPrice pos));
  markPriceD ← parse_ currentPrice;
  let unrealizedPnl := realized_pnl pos markPriceD (ip_size pos) in
  tenth ← parse_ "0.1";
  let marginUsed := d_times (d_times (ip_entryPrice pos) (ip_size pos)) tenth in
  factor ← parse_ (match ip_side pos with long => "0.9" | short => "1.1" end);
  mret (MkVenuePosition (sc_venueId config) asset (ip_side pos) (d_toFixed (ip_size pos))
    (d_toFixed (ip_entryPrice pos)) currentPrice (d_toFixed unrealizedPnl) (d_toFixed marginUsed)
    (Some (d_toFixed (d_times (ip_entryPrice pos) factor))) now).

Fixpoint position_rows (config : SimulatedVenueConfig) (now : Z) (l : list (string * InternalPosition))
    : eff (SimState * F) (list VenuePosition) :=
  match l with
  | [] => mret []
  | (asset, pos) :: rest =>
      if d_isZero (ip_size pos) then position_rows config now rest
      else row ← position_row config now asset pos;
           rows ← position_rows config now rest;
           mret (row :: rows)
  end.

Definition getPositions (config : SimulatedVenueConfig) (now : Z) : eff (SimState * F) (list VenuePosition) :=
  positions ← read_sim sv_positions;
  position_rows config now positions.

(** *** Orders *)

(** The result of a fill. *)
Definition filled_result (venueOrderId clientOrderId size : string) (fillPrice fee : dec) (submittedAt : Z)
    (identity : CanonicalMarketIdentity) : PlaceOrderResult :=
  MkPlaceOrderResult venueOrderId clientOrderId vo_filled size (Some (d_toFixedN 8 fillPrice))
    (Some (d_toFixedN 8 fee)) submittedAt (Some (Some venueOrderId)) (Some simulated) (Some identity).

Definition replay_params (params : ReplayFillParams) : PlaceOrderParams := {|
  pp_clientOrderId := rp_clientOrderId params; pp_asset := rp_asset params; pp_side := rp_side params;
  pp_type := market; pp_size := rp_size params; pp_price := None; pp_reduceOnly := rp_reduceOnly params;
  pp_postOnly := false;
  pp_marketIdentity := match rp_marketIdentity params with
    | None => None
    | Some i => Some (captureCanonicalMarketIdentity i runtime_order (Some "simulated_replay_fill") None)
    end |}.

Definition replayFilledOrder (config : SimulatedVenueConfig) (params : ReplayFillParams) : eff (SimState * F) unit :=
  fillPrice ← parse_ (rp_fillPrice params);
  size ← parse_ (rp_size params);
  fee ← parse_ (rp_fee params);
  let orderParams := replay_params params in
  _ ← modify_sim (applyFill orderParams fillPrice size fee);
  let result := filled_result (rp_venueOrderId params) (rp_clientOrderId params) (rp_size params) fillPrice fee
    (rp_submittedAt params) (result_identity config (rp_marketIdentity params) (rp_asset params)
      "simulated_replay_fill" "Replayed simulated fills retain derived spot identity only.") in
  _ ← modify_sim (record_order (rp_venueOrderId params) (MkInternalOrder orderParams result false));
  modify_sim (fun s => set_counter (Z.max (sv_orderCounter s) (extractSequence (rp_venueOrderId params))) s).

Definition nextOrderId (config : SimulatedVenueConfig) : eff (SimState * F) string :=
  on_sim (fun s => let n := int_round (sv_orderCounter s + 1) in (sim_order_id (sc_venueId config) n, set_counter n s)).

Definition fillMarketOrder (config : SimulatedVenueConfig) (params : PlaceOrderParams) (venueOrderId : string)
    (submittedAt : Z) : eff (SimState * F) PlaceOrderResult :=
  mid ← on_feed (pf_getPrice (pp_asset params));
  midD ← parse_ mid;
  slippage ← parse_ (sc_slippagePct config);
  let fillPrice := match pp_side params with
    | buy => d_times midD (d_plus (dec_of_Z 1) slippage)
    | sell => d_times midD (d_minus (dec_of_Z 1) slippage)
    end in
  sizeD ← parse_ (pp_size params);
  let notional := d_times fillPrice sizeD in
  feePct ← parse_ (sc_takerFeePct config);
  let fee := d_times notional feePct in
  _ ← modify_sim (applyFill params fillPrice sizeD fee);
  mret (filled_result venueOrderId (pp_clientOrderId params) (pp_size params) fillPrice fee submittedAt
    (result_identity config (pp_marketIdentity params) (pp_asset params) "simulated_market_fill"
      "Simulated market fills only expose derived spot identity.")).

(** The stored result of a client order id. *)
Definition cached_result (clientOrderId : string) (s : SimState) : option PlaceOrderResult :=
  match jm_get clientOrderId (sv_clientIdIndex s) with
  | None => None
  | Some existingVenueId => io_result <$> jm_get existingVenueId (sv_orders s)
  end.

Definition OrderType_str (t : OrderType) : string :=
  match t with market => "market" | limit => "limit" | post_only => "post_only" end.

Definition open_result (config : SimulatedVenueConfig) (params : PlaceOrderParams) (venueOrderId : string)
    (submittedAt : Z) : PlaceOrderResult :=
  MkPlaceOrderResult venueOrderId (pp_clientOrderId params) vo_submitted "0" None (Some "0") submittedAt
    (Some (Some venueOrderId)) (Some simulated)
    (Some (result_identity config (pp_marketIdentity params) (pp_asset params) "simulated_open_order"
      "Simulated open orders only expose derived spot identity.")).

Definition placeOrder (config : SimulatedVenueConfig) (now : Z) (params : PlaceOrderParams)
    : eff (SimState * F) PlaceOrderResult :=
  cached ← read_sim (cached_result (pp_clientOrderId params));
  match cached with
  | Some result => mret result
  | None =>
      connected ← read_sim sv_connected;
      if negb connected then throw_eff (Error_ "SimulatedVenueAdapter: not connected")
      else
        venueOrderId ← nextOrderId config;
        match pp_type params with
        | market =>
            result ← fillMarketOrder config params venueOrderId now;
            _ ← modify_sim (record_order venueOrderId (MkInternalOrder params result false));
            mret result
        | t =>
            match pp_price params with
            | None => throw_eff (Error_ ("placeOrder: price is required for " +:+ OrderType_str t +:+ " orders"))
            | Some _ =>
                let result := open_result config params venueOrderId now in
                _ ← modify_sim (record_order venueOrderId (MkInternalOrder params result true));
                mret result
            end
        end
  end.

Definition with_status (st : VenueOrderStatus) (r : PlaceOrderResult) : PlaceOrderResult :=
  MkPlaceOrderResult (pr_venueOrderId r) (pr_clientOrderId r) st (pr_filledSize r) (pr_averageFillPrice r)
    (pr_fees r) (pr_submittedAt r) (pr_executionReference r) (pr_executionMode r) (pr_marketIdentity r).

Definition cancelOrder (venueOrderId : string) : eff (SimState * F) CancelOrderResult :=
  order ← read_sim (fun s => jm_get venueOrderId (sv_orders s));
  match order with
  | None => mret (MkCancelOrderResult venueOrderId false (Some "order not found"))
  | Some o =>
      if negb (io_open o) then
        mret (MkCancelOrderResult venueOrderId false
          (Some ("order is already in status " +:+ quoted (venue_status_str (pr_status (io_result o))))))
      else
        _ ← modify_sim (set_order venueOrderId
              (MkInternalOrder (io_params o) (with_status vo_rejected (io_result o)) false));
        mret (MkCancelOrderResult venueOrderId true None)
  end.

(** Whether the market price crosses the limit of an order. *)
Definition crosses (side : OrderSide) (marketPrice limitPrice : dec) : bool :=
  match side with buy => d_lte marketPrice limitPrice | sell => d_gte marketPrice limitPrice end.

Definition limit_fill_result (r : PlaceOrderResult) (size : string) (price fee : dec) : PlaceOrderResult :=
  MkPlaceOrderResult (pr_venueOrderId r) (pr_clientOrderId r) vo_filled size (Some (d_toFixedN 8 price))
    (Some (d_toFixedN 8 fee)) (pr_submittedAt r) (pr_executionReference r) (pr_executionMode r) (pr_marketIdentity r).

(** The price lookup that gives up silently. *)
Definition try_price (asset : string) : eff (SimState * F) (option string) :=
  catch_eff (p ← on_feed (pf_getPrice asset); mret (Some p)) (fun _ => mret None).

Definition tryFillLimitOrder (config : SimulatedVenueConfig) (venueOrderId : string) (order : InternalOrder)
    : eff (SimState * F) unit :=
  match pp_price (io_params order) with
  | None => mret tt
  | Some price =>
      currentPrice ← try_price (pp_asset (io_params order));
      match currentPrice with
      | None => mret tt
      | Some p =>
          marketPriceD ← parse_ p;
          limitPriceD ← parse_ price;
          if negb (crosses (pp_side (io_params order)) marketPriceD limitPriceD) then mret tt
          else
            sizeD ← parse_ (pp_size (io_params order));
            let notional := d_times limitPriceD sizeD in
            feePct ← parse_ (sc_makerFeePct config);
            let fee := d_times notional feePct in
            _ ← modify_sim (applyFill (io_params order) limitPriceD sizeD fee);
            modify_sim (set_order venueOrderId (MkInternalOrder (io_params order)
              (limit_fill_result (io_result order) (pp_size (io_params order)) limitPriceD fee) false))
      end
  end.

Definition has_price (p : PlaceOrderParams) : bool := match pp_price p with Some _ => true | None => false end.

Definition getOrder (config : SimulatedVenueConfig) (venueOrderId : string)
    : eff (SimState * F) (option PlaceOrderResult) :=
  order ← read_sim (fun s => jm_get venueOrderId (sv_orders s));
  match order with
  | None => mret None
  | Some o =>
      _ ← (if io_open o && has_price (io_params o) then tryFillLimitOrder config venueOrderId o else mret tt);
      after ← read_sim (fun s => jm_get venueOrderId (sv_orders s));
      mret (io_result <$> after)
  end.

(** *** Calls *)

(** A call of the adapter that can change its state. *)
Inductive sim_op :=
| SConnect
| SDisconnect
| SReset
| SReplay (params : ReplayFillParams)
| SPlace (now : Z) (params : PlaceOrderParams)
| SCancel (venueOrderId : string)
| SGetOrder (venueOrderId : string).

(** The state a call leaves, whether it returns or throws. *)
Definition run_sim (config : SimulatedVenueConfig) (sf : SimState * F) (op : sim_op) : SimState * F :=
  match op with
  | SConnect => (connect sf).2
  | SDisconnect => (disconnect sf).2
  | SReset => (resetSimulationState config sf).2
  | SReplay params => (replayFilledOrder config params sf).2
  | SPlace now params => (placeOrder config now params sf).2
  | SCancel id => (cancelOrder id sf).2
  | SGetOrder id => (getOrder config id sf).2
  end.
End Adapter.

(** ** The adapter as a transition system

    A step may execute one fill.  [sim_step] lists what a call other than a
    reset can do to the state; [run_sim_step] shows that every call is such a
    step. *)

Section Steps.
Context `{DL : DecimalLib}.

(** A fill: the order, and the price, size and fee it executed with. *)
Record Fill := MkFill { fl_params : PlaceOrderParams; fl_price : dec; fl_size : dec; fl_fee : dec }.
Definition fill_client (f : Fill) : string := pp_clientOrderId (fl_params f).
Definition apply_fill (s : SimState) (f : Fill) : SimState :=
  applyFill (fl_params f) (fl_price f) (fl_size f) (fl_fee f) s.

(** The same orders, balances and positions. *)
Definition same_book (s s' : SimState) : Prop :=
  sv_orders s' = sv_orders s /\ sv_clientIdIndex s' = sv_clientIdIndex s /\
  sv_balances s' = sv_balances s /\ sv_positions s' = sv_positions s.

Definition next_counter (s : SimState) : Z := int_round (sv_orderCounter s + 1).

(** The calls considered: fewer than 2^53 orders were numbered before a
    placement, and a replayed fill has new order ids. *)
Definition unused_ids (venueOrderId clientOrderId : string) (s : SimState) : Prop :=
  jm_get venueOrderId (sv_orders s) = None /\ jm_get clientOrderId (sv_clientIdIndex s) = None.
Definition op_ok (s : SimState) (op : sim_op) : Prop :=
  match op with
  | SPlace _ _ => sv_orderCounter s < 2 ^ 53
  | SReplay params => unused_ids (rp_venueOrderId params) (rp_clientOrderId params) s
  | _ => True
  end.

(** What a call other than a reset does: a fill at most.  Where [ok], the call
    is one of those considered above. *)
Inductive sim_step (config : SimulatedVenueConfig) (ok : bool) : sim_op -> SimState -> option Fill -> SimState -> Prop :=
| st_quiet op s s' : same_book s s' -> sv_orderCounter s' = sv_orderCounter s -> sim_step config ok op s None s'
| st_refused now p s :
    (ok = true -> sv_orderCounter s < 2 ^ 53) -> sv_connected s = true ->
    sim_step config ok (SPlace now p) s None (set_counter (next_counter s) s)
| st_market now s fl r :
    (ok = true -> sv_orderCounter s < 2 ^ 53) -> sv_connected s = true -> cached_result (fill_client fl) s = None ->
    pr_venueOrderId r = sim_order_id (sc_venueId config) (next_counter s) ->
    pr_clientOrderId r = fill_client fl -> pr_status r = vo_filled ->
    dec_of_string (pp_size (fl_params fl)) = Ret (fl_size fl) -> pr_filledSize r = pp_size (fl_params fl) ->
    sim_step config ok (SPlace now (fl_params fl)) s (Some fl)
      (record_order (pr_venueOrderId r) (MkInternalOrder (fl_params fl) r false)
        (apply_fill (set_counter (next_counter s) s) fl))
| st_open now s p r :
    (ok = true -> sv_orderCounter s < 2 ^ 53) -> sv_connected s = true -> cached_result (pp_clientOrderId p) s = None ->
    pr_venueOrderId r = sim_order_id (sc_venueId config) (next_counter s) ->
    pr_clientOrderId r = pp_clientOrderId p -> pr_status r = vo_submitted -> pr_filledSize r = "0" -> has_price p = true ->
    sim_step config ok (SPlace now p) s None
      (record_order (pr_venueOrderId r) (MkInternalOrder p r true) (set_counter (next_counter s) s))
| st_cancel s id o :
    jm_get id (sv_orders s) = Some o -> io_open o = true ->
    sim_step config ok (SCancel id) s None
      (set_order id (MkInternalOrder (io_params o) (with_status vo_rejected (io_result o)) false) s)
| st_limit s id o fl r :
    jm_get id (sv_orders s) = Some o -> io_open o = true -> fl_params fl = io_params o ->
    pr_venueOrderId r = pr_venueOrderId (io_result o) -> pr_clientOrderId r = pr_clientOrderId (io_result o) ->
    pr_status r = vo_filled ->
    dec_of_string (pp_size (fl_params fl)) = Ret (fl_size fl) -> pr_filledSize r = pp_size (fl_params fl) ->
    sim_step config ok (SGetOrder id) s (Some fl) (set_order id (MkInternalOrder (io_params o) r false) (apply_fill s fl))
| st_replay s params fl r :
    fl_params fl = replay_params params ->
    (ok = true -> unused_ids (rp_venueOrderId params) (fill_client fl) s) ->
    pr_venueOrderId r = rp_venueOrderId params -> pr_clientOrderId r = fill_client fl -> pr_status r = vo_filled ->
    dec_of_string (pp_size (fl_params fl)) = Ret (fl_size fl) -> pr_filledSize r = pp_size (fl_params fl) ->
    sim_step config ok (SReplay params) s (Some fl)
      (set_counter (Z.max (sv_orderCounter s) (extractSequence (rp_venueOrderId params)))
        (record_order (rp_venueOrderId params) (MkInternalOrder (fl_params fl) r false) (apply_fill s fl))).
End Steps.

Section Outcomes.
Context `{DL : DecimalLib} {F : Type} `{PF : PriceFeed F}.
Abbreviation St := (SimState * F)%type.

Lemma parse_outcome t (s : SimState) (f : F) r s' f' :
  parse_ t (s, f) = (r, (s', f')) -> s' = s /\ f' = f /\ dec_of_string t = r.
Proof. unfold parse_, lift_exn. by intros [= <- <- <-]. Qed.

Lemma feed_outcome {A} (m : eff F A) (s : SimState) (f : F) r s' f' :
  on_feed m (s, f) = (r, (s', f')) -> s' = s /\ m f = (r, f').
Proof. unfold on_feed. cbn. destruct (m f). by intros [= <- <- <-]. Qed.

Lemma read_outcome {A} (g : SimState -> A) (s : SimState) (f : F) r s' f' :
  read_sim g (s, f) = (r, (s', f')) -> s' = s /\ f' = f /\ r = Ret (g s).
Proof. unfold read_sim. by intros [= <- <- <-]. Qed.

Lemma modify_outcome g (s : SimState) (f : F) r s' f' :
  modify_sim g (s, f) = (r, (s', f')) -> r = Ret tt /\ s' = g s /\ f' = f.
Proof. unfold modify_sim. by intros [= <- <- <-]. Qed.

Lemma try_price_outcome asset (s : SimState) (f : F) r s' f' :
  try_price asset (s, f) = (r, (s', f')) -> s' = s /\ exists o, r = Ret o.
Proof.
  unfold try_price, catch_eff, on_feed, mbind, eff_bind, mret, eff_ret. cbn.
  destruct (pf_getPrice asset f) as [[a|e] g]; intros [= <- <- <-]; eauto.
Qed.

(** [eff_go H] runs [H : m s = (r, s')] backwards through the binds of [m] made of
    the primitive operations, one case per computation that throws. *)
Ltac eff_prim E :=
  first [ apply parse_outcome in E as (? & ? & E)
        | apply feed_outcome in E as (? & E)
        | apply read_outcome in E as (? & ? & E)
        | apply modify_outcome in E as (E & ? & ?)
        | let xo := fresh "xo" in apply try_price_outcome in E as (? & xo & E) ].
Ltac eff_go H :=
  let x := fresh "x" in let s := fresh "s" in let E := fresh "E" in
  eff_inv H as x s E; [|destruct s as [? ?]]; eff_prim E; simplify_eq.

(** A market fill throws before anything changed, or applies one fill. *)
Lemma market_outcome config params id now (s : SimState) (f : F) r s' f' :
  fillMarketOrder config params id now (s, f) = (r, (s', f')) ->
  (s' = s /\ exists e, r = Throw e) \/
  exists price size fee res, r = Ret res /\ s' = applyFill params price size fee s /\
    dec_of_string (pp_size params) = Ret size /\
    exists ident, res = filled_result id (pp_clientOrderId params) (pp_size params) price fee now ident.
Proof.
  unfold fillMarketOrder. intros H. do 5 (eff_go H; [left; eauto|]). eff_go H.
  right. unfold mret, eff_ret in H. simplify_eq. eauto 12.
Qed.

(** A limit order that is polled stays, throws unchanged, or executes one fill. *)
Lemma limit_outcome config id o (s : SimState) (f : F) r s' f' :
  tryFillLimitOrder config id o (s, f) = (r, (s', f')) ->
  s' = s \/
  exists price size fee, r = Ret tt /\ dec_of_string (pp_size (io_params o)) = Ret size /\
    s' = set_order id (MkInternalOrder (io_params o)
           (limit_fill_result (io_result o) (pp_size (io_params o)) price fee) false)
           (applyFill (io_params o) price size fee s).
Proof.
  unfold tryFillLimitOrder. destruct (pp_price (io_params o)) as [price|]; [|intros [= <- <- <-]; by left].
  intros H. eff_go H. destruct xo as [p|]; [|by left; injection H].
  do 2 (eff_go H; [by left|]). destruct (negb _); [by left; injection H|].
  do 2 (eff_go H; [by left|]). eff_go H. apply modify_outcome in H as (-> & -> & _). right. eauto 10.
Qed.

(** A replayed fill throws before anything changed, or is applied. *)
Lemma replay_outcome config params (s : SimState) (f : F) r s' f' :
  replayFilledOrder config params (s, f) = (r, (s', f')) ->
  (s' = s /\ exists e, r = Throw e) \/
  exists price size fee ident, r = Ret tt /\ dec_of_string (rp_size params) = Ret size /\
    s' = set_counter (Z.max (sv_orderCounter s) (extractSequence (rp_venueOrderId params)))
          (record_order (rp_venueOrderId params) (MkInternalOrder (replay_params params)
             (filled_result (rp_venueOrderId params) (rp_clientOrderId params) (rp_size params) price fee
               (rp_submittedAt params) ident) false)
            (applyFill (replay_params params) price size fee s)).
Proof.
  unfold replayFilledOrder. intros H. do 3 (eff_go H; [left; eauto|]). do 2 eff_go H.
  apply modify_outcome in H as (-> & -> & _). right. do 4 eexists. split_and!; [done|done|].
  f_equal. f_equal. cbn. unfold applyFill, adjustBalance, updatePosition.
  repeat case_match; reflexivity.
Qed.

(** What a placement can do. *)
Lemma place_outcome config now params (s : SimState) (f : F) r s' f' :
  placeOrder config now params (s, f) = (r, (s', f')) ->
  let s1 := set_counter (next_counter s) s in
  let id := sim_order_id (sc_venueId config) (next_counter s) in
  (exists res, cached_result (pp_clientOrderId params) s = Some res /\ r = Ret res /\ s' = s /\ f' = f) \/
  (cached_result (pp_clientOrderId params) s = None /\ (exists e, r = Throw e) /\
    (s' = s \/ sv_connected s = true /\ s' = s1)) \/
  (cached_result (pp_clientOrderId params) s = None /\ sv_connected s = true /\ pp_type params = market /\
    exists price size fee res ident, r = Ret res /\ dec_of_string (pp_size params) = Ret size /\
      res = filled_result id (pp_clientOrderId params) (pp_size params) price fee now ident /\
      s' = record_order id (MkInternalOrder params res false) (applyFill params price size fee s1)) \/
  (cached_result (pp_clientOrderId params) s = None /\ sv_connected s = true /\ pp_type params <> market /\
    has_price params = true /\ r = Ret (open_result config params id now) /\
    s' = record_order id (MkInternalOrder params (open_result config params id now) true) s1).
Proof.
  cbv zeta. unfold placeOrder. intros H. eff_go H. destruct (cached_result _ _) as [res|] eqn:Ec.
  { injection H as <- <- <-. left. eauto. }
  right. eff_go H. destruct (sv_connected s) eqn:Ecn; [|injection H as <- <- <-; left; eauto].
  cbn [negb] in H. apply eff_bind_inv in H as [(e & E & _)|(x & sf & E & H)]; [done|]. injection E as <- <-.
  change (int_round (sv_orderCounter s + 1)) with (next_counter s) in H. cbn [fst snd] in H.
  remember (set_counter (next_counter s) s) as s1 eqn:Es1.
  remember (sim_order_id (sc_venueId config) (next_counter s)) as id eqn:Eid. clear Es1 Eid.
  assert (Hopen : pp_type params <> market ->
    match pp_price params with
    | None => throw_eff (Error_ ("placeOrder: price is required for " +:+ OrderType_str (pp_type params) +:+ " orders"))
    | Some _ =>
        _ ← modify_sim (record_order id (MkInternalOrder params (open_result config params id now) true));
        mret (open_result config params id now)
    end (s1, f) = (r, (s', f')) ->
    (exists e, r = Throw e) /\ s' = s1 \/
    has_price params = true /\ r = Ret (open_result config params id now) /\
    s' = record_order id (MkInternalOrder params (open_result config params id now) true) s1).
  { intros _ Ho. unfold has_price. destruct (pp_price params); [|injection Ho as <- <- <-; left; eauto].
    eff_go Ho. injection Ho as <- <- <-. by right. }
  destruct (pp_type params) eqn:Et.
  - apply eff_bind_inv in H as [(e & E & ->)|(x & [sa fa] & E & H)].
    + apply market_outcome in E as [[-> _]|(? & ? & ? & ? & ? & _)]; [left; split_and!; eauto|done].
    + apply market_outcome in E as [[_ [? ?]]|(price & size & fee & res & E1 & -> & Hs & ident & E2)]; [done|].
      simplify_eq. eff_go H. injection H as <- <- <-. right; left. split_and!; [done..|]. do 5 eexists. split_and!; done.
  - destruct (Hopen ltac:(done) H) as [[? ->]|(? & ? & ?)]; [left; split_and!; eauto|by right; right].
  - destruct (Hopen ltac:(done) H) as [[? ->]|(? & ? & ?)]; [left; split_and!; eauto|by right; right].
Qed.

Lemma cancel_outcome id (s : SimState) (f : F) r s' f' :
  cancelOrder id (s, f) = (r, (s', f')) ->
  s' = s \/ exists o, jm_get id (sv_orders s) = Some o /\ io_open o = true /\
    r = Ret (MkCancelOrderResult id true None) /\
    s' = set_order id (MkInternalOrder (io_params o) (with_status vo_rejected (io_result o)) false) s.
Proof.
  unfold cancelOrder. intros H. eff_go H. destruct (jm_get _ _) as [o|] eqn:Eo; [|by left; injection H].
  destruct (io_open o) eqn:Ho; cbn [negb] in H; [|by left; injection H].
  eff_go H. injection H as <- <- <-. right. eauto.
Qed.

Lemma getOrder_outcome config id (s : SimState) (f : F) r s' f' :
  getOrder config id (s, f) = (r, (s', f')) ->
  s' = s \/ exists o price size fee, jm_get id (sv_orders s) = Some o /\ io_open o = true /\
    dec_of_string (pp_size (io_params o)) = Ret size /\
    s' = set_order id (MkInternalOrder (io_params o)
           (limit_fill_result (io_result o) (pp_size (io_params o)) price fee) false)
           (applyFill (io_params o) price size fee s).
Proof.
  unfold getOrder. intros H. eff_go H. destruct (jm_get _ _) as [o|] eqn:Eo; [|by left; injection H].
  destruct (io_open o && has_price (io_params o)) eqn:Ho.
  2: { apply eff_bind_inv in H as [(e & E & _)|(x & [sa fa] & E & H)]; [done|].
       injection E as <- <- <-. eff_go H. injection H as <- <- <-. by left. }
  apply andb_true_iff in Ho as [Ho _].
  apply eff_bind_inv in H as [(e & E & _)|(x & [sa fa] & E & H)].
  - apply limit_outcome in E as [->|(? & ? & ? & ? & _)]; [by left|done].
  - eff_go H. injection H as <- <- <-.
    apply limit_outcome in E as [->|(price & size & fee & _ & ? & ->)]; [by left|right; eauto 10].
Qed.

(** Every call but a reset is a step of the transition system. *)
Lemma run_sim_outcome config ok (sf : St) op :
  (ok = true -> op_ok sf.1 op) -> op <> SReset -> exists ev, sim_step config ok op sf.1 ev (run_sim config sf op).1.
Proof.
  destruct sf as [s f]. intros Hok Hop. assert (Hq : sim_step config ok op s None s) by by apply st_quiet.
  destruct op as [| | |params|now params|id|id]; cbn [run_sim fst] in *; try done.
  1,2: eexists; by apply st_quiet.
  - destruct (replayFilledOrder _ _ _) as [r [s' f']] eqn:E.
    apply replay_outcome in E as [[-> _]|(price & size & fee & ident & _ & Hs & ->)]; [eauto|].
    eexists. by apply (st_replay config ok s params (MkFill (replay_params params) price size fee)).
  - destruct (placeOrder _ _ _ _) as [r [s' f']] eqn:E. cbn [fst snd].
    apply place_outcome in E as [(res & _ & _ & -> & _)|[(_ & _ & [->|[Hc ->]])|
      [(Hn & Hc & _ & price & size & fee & res & ident & _ & Hs & Er & ->)|(Hn & Hc & _ & Hp & _ & ->)]]]; eauto.
    + eexists. by apply st_refused.
    + subst res. eexists.
      by apply (st_market config ok now s (MkFill params price size fee) (filled_result _ _ _ _ _ _ _)).
    + eexists. by apply (st_open config ok now s params (open_result _ _ _ _)).
  - destruct (cancelOrder _ _) as [r [s' f']] eqn:E.
    apply cancel_outcome in E as [->|(o & Ho & Hop' & _ & ->)]; [eauto|]. eexists. by apply st_cancel.
  - destruct (getOrder _ _ _) as [r [s' f']] eqn:E.
    apply getOrder_outcome in E as [->|(o & price & size & fee & Ho & Hop' & Hs & ->)]; [eauto|].
    eexists. by apply (st_limit config ok s id o (MkFill (io_params o) price size fee)).
Qed.

Lemma run_sim_step config (sf : St) op :
  op_ok sf.1 op -> op <> SReset -> exists ev, sim_step config true op sf.1 ev (run_sim config sf op).1.
Proof. intros Hok. by apply run_sim_outcome. Qed.
End Outcomes.

(** ** Order ids are fresh *)

Lemma has_char_app c s t : has_char c (s +:+ t) = has_char c s || has_char c t.
Proof.
  induction s as [|d s IH]; [done|]. change (String d s +:+ t) with (String d (s +:+ t)). cbn [has_char].
  by rewrite IH, orb_assoc.
Qed.

Lemma last_segment_after s t : has_char "-" t = false -> last_segment (s +:+ "-" +:+ t) = t.
Proof.
  intros Ht. induction s as [|c s IH].
  - change (EmptyString +:+ "-" +:+ t) with (String "-" t). cbn [last_segment]. by rewrite Ht.
  - change (String c s +:+ "-" +:+ t) with (String c (s +:+ "-" +:+ t)). cbn [last_segment].
    rewrite !has_char_app. change (has_char "-" "-") with true. by rewrite orb_true_r.
Qed.

Lemma z_str_no_dash n : 0 <= n -> has_char "-" (z_str n) = false.
Proof.
  intros Hn. assert (H : str_all (fun c => c <> "-"%char) (z_str n)).
  { destruct n as [|p|p]; [by repeat constructor| |lia].
    apply (str_all_pretty_N (fun c => c <> "-"%char) (Npos p)). intros y. unfold pretty_N_char. by repeat case_match. }
  induction (z_str n) as [|c s IH]; [done|]. apply Forall_cons in H as [Hc H]. cbn.
  rewrite bool_decide_false by congruence. by apply IH.
Qed.

Lemma int_round_small n : Z.abs n <= 2 ^ 53 -> int_round n = n.
Proof. intros H. unfold int_round. by rewrite (proj2 (Z.leb_le _ _) H). Qed.

Lemma extract_order_id v n : 0 <= n <= 2 ^ 53 -> extractSequence (sim_order_id v n) = n.
Proof.
  intros Hn. unfold extractSequence, sim_order_id, int_str. rewrite (proj2 (Z.leb_le _ _)) by lia.
  change ("-sim-" +:+ z_str n) with ("-sim" +:+ ("-" +:+ z_str n)).
  assert (Ha : v +:+ "-sim" +:+ "-" +:+ z_str n = (v +:+ "-sim") +:+ "-" +:+ z_str n).
  { apply list_ascii_inj. by rewrite !list_ascii_app, <- !app_assoc. }
  rewrite Ha, last_segment_after by (apply z_str_no_dash; lia). unfold parse_int_finite.
  assert (Ht : trim_start (z_str n) = z_str n).
  { apply (proj1 (trimmed_start _ (no_space_trimmed _ (num_chars_no_space _ (z_str_num_chars n))))). }
  destruct (take_digits_z_str n) as (len & Hlen & Hd); [lia|]. pose proof (z_str_no_sign n "" ltac:(lia)) as Hs.
  specialize (Hd 0 0 ""). assert (Hz : z_str n +:+ "" = z_str n).
  { apply list_ascii_inj. by rewrite list_ascii_app, app_nil_r. }
  rewrite Hz in *. rewrite Ht, Hs, Hd. cbn [take_digits].
  rewrite (proj2 (Z.eqb_neq _ _)) by lia.
  rewrite (proj2 (Z.leb_gt _ _)) by (assert (2 ^ 53 < 2 ^ 1024 - 2 ^ 970) by done; lia).
  cbn [orb or_else]. rewrite int_round_small; lia.
Qed.

Lemma sim_order_id_inj v n m : 0 <= n <= 2 ^ 53 -> 0 <= m <= 2 ^ 53 -> sim_order_id v n = sim_order_id v m -> n = m.
Proof. intros Hn Hm H. by rewrite <- (extract_order_id v n Hn), H, extract_order_id. Qed.

(** ** The invariant *)

Section Invariant.
Context `{DL : DecimalLib} (config : SimulatedVenueConfig).

(** An open order is submitted, unfilled and has a limit price; a closed one is
    filled in full or was cancelled unfilled. *)
Definition order_ok (id : string) (o : InternalOrder) : Prop :=
  let r := io_result o in
  pr_venueOrderId r = id /\ pr_clientOrderId r = pp_clientOrderId (io_params o) /\
  (if io_open o then pr_status r = vo_submitted /\ pr_filledSize r = "0" /\ has_price (io_params o) = true
   else pr_status r = vo_filled /\ pr_filledSize r = pp_size (io_params o) \/
        pr_status r = vo_rejected /\ pr_filledSize r = "0").

Record sim_wf (s : SimState) : Prop := {
  wf_indexed : forall id o, jm_get id (sv_orders s) = Some o ->
    jm_get (pp_clientOrderId (io_params o)) (sv_clientIdIndex s) = Some id;
  wf_stored : forall c id, jm_get c (sv_clientIdIndex s) = Some id ->
    exists o, jm_get id (sv_orders s) = Some o /\ pp_clientOrderId (io_params o) = c;
  wf_result : forall id o, jm_get id (sv_orders s) = Some o -> order_ok id o;
  wf_fresh : forall n, sv_orderCounter s < n <= 2 ^ 53 ->
    jm_get (sim_order_id (sc_venueId config) n) (sv_orders s) = None;
  wf_counter : 0 <= sv_orderCounter s;
  wf_assets : forall a p, jm_get a (sv_positions s) = Some p -> ip_asset p = a;
  wf_keys : NoDup (jm_keys (sv_orders s)) /\ NoDup (jm_keys (sv_clientIdIndex s)) /\
    NoDup (jm_keys (sv_balances s)) /\ NoDup (jm_keys (sv_positions s));
}.

(** What a fill leaves alone, and what it keeps. *)
Lemma adjust_frame a d s : exists b, adjustBalance a d s = set_balances b s /\
  (NoDup (jm_keys (sv_balances s)) -> NoDup (jm_keys b)).
Proof. eexists. split; [done|]. apply jm_set_NoDup. Qed.

Definition assets_ok (p : list (string * InternalPosition)) : Prop :=
  NoDup (jm_keys p) /\ forall a q, jm_get a p = Some q -> ip_asset q = a.

Lemma assets_set a q p : ip_asset q = a -> assets_ok p -> assets_ok (jm_set a q p).
Proof.
  intros Hq [Hn Ha]. split; [by apply jm_set_NoDup|]. intros b r. rewrite jm_get_set.
  case_decide; [intros [= <-]; congruence|apply Ha].
Qed.

Lemma assets_delete a p : assets_ok p -> assets_ok (jm_delete a p).
Proof.
  intros [Hn Ha]. split; [by apply jm_delete_NoDup|]. intros b r. destruct (decide (b = a)) as [->|Hb].
  - by rewrite jm_get_delete_eq.
  - rewrite jm_get_delete_ne by done. apply Ha.
Qed.

Lemma position_frame a side size price ro s : exists p, updatePosition a side size price ro s = set_positions p s /\
  (assets_ok (sv_positions s) -> assets_ok p).
Proof.
  assert (Hs : s = set_positions (sv_positions s) s) by by destruct s.
  unfold updatePosition. destruct (jm_get a (sv_positions s)) as [q|] eqn:E; repeat case_match; eexists.
  all: (split; [first [exact Hs|done]|]).
  all: try done; try apply assets_delete.
  all: intros Ha; apply assets_set; [|done]; cbn; try done; by apply (proj2 Ha).
Qed.

Lemma fill_frame f s : exists b p, apply_fill s f = set_positions p (set_balances b s) /\
  (NoDup (jm_keys (sv_balances s)) -> NoDup (jm_keys b)) /\ (assets_ok (sv_positions s) -> assets_ok p).
Proof.
  unfold apply_fill, applyFill. set (ro := pp_reduceOnly (fl_params f)).
  set (a := pp_asset (fl_params f)). set (q := resolveQuoteAsset a).
  assert (H : forall a1 d1 a2 d2 side, exists b p,
    updatePosition a side (fl_size f) (fl_price f) ro (adjustBalance a2 d2 (adjustBalance a1 d1 s)) =
      set_positions p (set_balances b s) /\
    (NoDup (jm_keys (sv_balances s)) -> NoDup (jm_keys b)) /\ (assets_ok (sv_positions s) -> assets_ok p)).
  { intros. destruct (adjust_frame a1 d1 s) as (b1 & -> & H1).
    destruct (adjust_frame a2 d2 (set_balances b1 s)) as (b2 & -> & H2).
    destruct (position_frame a side (fl_size f) (fl_price f) ro (set_balances b2 (set_balances b1 s))) as (p & -> & H3).
    exists b2, p. split_and!; [done|auto|done]. }
  destruct (pp_side (fl_params f)); apply H.
Qed.

Lemma next_counter_small s : sim_wf s -> sv_orderCounter s < 2 ^ 53 -> next_counter s = sv_orderCounter s + 1.
Proof. intros Hw Hc. pose proof (wf_counter s Hw). unfold next_counter. apply int_round_small. lia. Qed.

Lemma next_id_fresh s : sim_wf s -> sv_orderCounter s < 2 ^ 53 ->
  jm_get (sim_order_id (sc_venueId config) (next_counter s)) (sv_orders s) = None.
Proof. intros Hw Hc. rewrite next_counter_small by done. apply (wf_fresh s Hw). lia. Qed.

Lemma cached_none_index c s : sim_wf s -> cached_result c s = None -> jm_get c (sv_clientIdIndex s) = None.
Proof.
  unfold cached_result. intros Hw. destruct (jm_get c (sv_clientIdIndex s)) as [id|] eqn:E; [|done].
  by destruct (wf_stored s Hw c id E) as (o & -> & _).
Qed.

(** A new order keeps the invariant. *)
Lemma record_wf s id o n :
  sim_wf s -> unused_ids id (pp_clientOrderId (io_params o)) s -> order_ok id o -> sv_orderCounter s <= n ->
  (forall m, 0 <= m <= 2 ^ 53 -> n < m -> sim_order_id (sc_venueId config) m <> id) ->
  sim_wf (set_counter n (record_order id o s)).
Proof.
  intros Hw [Hid Hc] Ho Hn Hf. pose proof (wf_counter s Hw) as H0. destruct (wf_keys s Hw) as (K1 & K2 & K3 & K4).
  split; cbn.
  - intros i p. rewrite !jm_get_set. case_decide as E; [intros [= <-]; subst; by rewrite decide_True|].
    intros Hp. pose proof (wf_indexed s Hw i p Hp) as Hi. case_decide; [congruence|done].
  - intros c i. rewrite jm_get_set. case_decide as E; [intros [= <-]; subst; rewrite jm_get_set_eq; eauto|].
    intros (p & Hp & <-)%(wf_stored s Hw). exists p. rewrite jm_get_set_ne by congruence. done.
  - intros i p. rewrite jm_get_set. case_decide; [intros [= <-]; by subst|apply (wf_result s Hw)].
  - intros m Hm. rewrite jm_get_set_ne by (apply Hf; lia). apply (wf_fresh s Hw). lia.
  - lia.
  - apply (wf_assets s Hw).
  - split_and!; try done; by apply jm_set_NoDup.
Qed.

(** A change of a stored order keeps the invariant. *)
Lemma set_order_wf s id o o' :
  sim_wf s -> jm_get id (sv_orders s) = Some o -> io_params o' = io_params o -> order_ok id o' ->
  sim_wf (set_order id o' s).
Proof.
  intros Hw Hid Hp Ho. destruct (wf_keys s Hw) as (K1 & K2 & K3 & K4). split; cbn.
  - intros i p. rewrite jm_get_set. case_decide; [intros [= <-]; subst; rewrite Hp|]; apply (wf_indexed s Hw); done.
  - intros c i (p & Hi & <-)%(wf_stored s Hw). rewrite jm_get_set. case_decide; [|by eauto].
    subst. simplify_eq. eexists. by rewrite Hp.
  - intros i p. rewrite jm_get_set. case_decide; [intros [= <-]; by subst|apply (wf_result s Hw)].
  - intros m Hm. rewrite jm_get_set. case_decide; [|by apply (wf_fresh s Hw)].
    subst. by rewrite (wf_fresh s Hw) in Hid.
  - apply (wf_counter s Hw).
  - apply (wf_assets s Hw).
  - split_and!; try done; by apply jm_set_NoDup.
Qed.

Lemma fill_wf s f : sim_wf s -> sim_wf (apply_fill s f).
Proof.
  intros Hw. destruct (fill_frame f s) as (b & p & -> & Hb & Hp). destruct (wf_keys s Hw) as (K1 & K2 & K3 & K4).
  destruct Hp as [Hp1 Hp2]; [split; [done|apply (wf_assets s Hw)]|].
  split; cbn; try done; try apply Hw. split_and!; auto.
Qed.

Lemma fill_keeps s f : sv_orders (apply_fill s f) = sv_orders s /\ sv_clientIdIndex (apply_fill s f) = sv_clientIdIndex s /\
  sv_orderCounter (apply_fill s f) = sv_orderCounter s.
Proof. by destruct (fill_frame f s) as (b & p & -> & _). Qed.

Lemma counter_wf s n : sim_wf s -> sv_orderCounter s <= n -> sim_wf (set_counter n s).
Proof.
  intros Hw Hn. pose proof (wf_counter s Hw). split; cbn; try apply Hw; [|lia].
  intros m Hm. apply (wf_fresh s Hw). lia.
Qed.

Lemma counter_self s n id o : sv_orderCounter s = n -> set_counter n (record_order id o s) = record_order id o s.
Proof. by intros <-. Qed.

(** Every step keeps the invariant. *)
Lemma step_wf op s ev s' : sim_step config true op s ev s' -> sim_wf s -> sim_wf s'.
Proof.
  assert (Hnew : forall s m, sim_wf s -> sv_orderCounter s < 2 ^ 53 -> 0 <= m <= 2 ^ 53 -> next_counter s < m ->
    sim_order_id (sc_venueId config) m <> sim_order_id (sc_venueId config) (next_counter s)).
  { intros t m Ht Hc Hm Hlt E. pose proof (wf_counter t Ht). rewrite (next_counter_small t) in * by done.
    apply sim_order_id_inj in E; lia. }
  intros Hs Hw. destruct Hs as [op s s' (E1 & E2 & E3 & E4) Ec|now p s Hc Hn|now s fl r Hc Hn Hu Hid Hcl Hst Hsz Hfs
    |now s p r Hc Hn Hu Hid Hcl Hst Hfs Hp|s id o Ho Hop|s id o fl r Ho Hop Hp Hid Hcl Hst Hsz Hfs|s params fl r Hpar Hu Hid Hcl Hst Hsz Hfs].
  all: try specialize (Hc eq_refl); try specialize (Hu eq_refl).
  - split; rewrite ?E1, ?E2, ?E3, ?E4, ?Ec; apply Hw.
  - apply counter_wf; [done|]. rewrite next_counter_small by done. lia.
  - assert (Hw1 : sim_wf (apply_fill (set_counter (next_counter s) s) fl)).
    { apply fill_wf, counter_wf; [done|]. rewrite next_counter_small by done. lia. }
    destruct (fill_keeps (set_counter (next_counter s) s) fl) as (F1 & F2 & F3).
    set (s1 := apply_fill _ _) in *. rewrite Hid, <- (counter_self _ (next_counter s)) by done.
    apply record_wf; [done| | | |].
    + split; rewrite ?F1, ?F2; [exact (next_id_fresh s Hw Hc)|exact (cached_none_index _ s Hw Hu)].
    + split_and!; [done|done|]. by left.
    + by rewrite F3; cbn.
    + intros m Hm Hlt. by apply Hnew.
  - rewrite Hid. change (record_order ?i ?o (set_counter ?n ?t)) with (set_counter n (record_order i o t)).
    apply record_wf; [done| | | |].
    + split; [exact (next_id_fresh s Hw Hc)|exact (cached_none_index _ s Hw Hu)].
    + by split_and!.
    + rewrite next_counter_small by done. lia.
    + intros m Hm Hlt. by apply Hnew.
  - destruct (wf_result s Hw id o Ho) as (R1 & R2 & R3). rewrite Hop in R3. destruct R3 as (R3 & R4 & R5).
    eapply set_order_wf; [done|exact Ho|done|]. split_and!; [done|done|]. by right.
  - destruct (wf_result s Hw id o Ho) as (R1 & R2 & R3).
    destruct (fill_keeps s fl) as (F1 & _). eapply set_order_wf; [by apply fill_wf|by rewrite F1|done|].
    split_and!; cbn; [congruence|congruence|]. left. by rewrite <- Hp.
  - destruct (fill_keeps s fl) as (F1 & F2 & F3). apply record_wf; [by apply fill_wf| | | |].
    + destruct Hu. split; by rewrite ?F1, ?F2.
    + split_and!; [done|done|]. by left.
    + rewrite F3. lia.
    + intros m Hm Hlt E. rewrite <- E, extract_order_id in Hlt; lia.
Qed.
End Invariant.

(** ** Runs *)

Section Runs.
Context `{DL : DecimalLib} {F : Type} `{PF : PriceFeed F} (config : SimulatedVenueConfig).
Abbreviation St := (SimState * F)%type.

Fixpoint ok_run (sf : St) (ops : list sim_op) : Prop :=
  match ops with
  | [] => True
  | op :: ops' => op_ok sf.1 op /\ ok_run (run_sim config sf op) ops'
  end.

Definition no_reset (ops : list sim_op) : Prop := Forall (fun op => op <> SReset) ops.

(** The steps of a run, and the fills it executes with the calls that execute
    them, in order. *)
Definition step_fill (op : sim_op) (ev : option Fill) : list (sim_op * Fill) :=
  match ev with Some fl => [(op, fl)] | None => [] end.
Inductive sim_steps (ok : bool) : list sim_op -> SimState -> list (sim_op * Fill) -> SimState -> Prop :=
| ss_nil s : sim_steps ok [] s [] s
| ss_step op ops s ev s1 L s2 : sim_step config ok op s ev s1 -> sim_steps ok ops s1 L s2 ->
    sim_steps ok (op :: ops) s ((step_fill op ev) ++ L) s2.

Lemma run_sim_outcomes ops : forall sf, no_reset ops -> exists L, sim_steps false ops sf.1 L (foldl (run_sim config) sf ops).1.
Proof.
  induction ops as [|op ops IH]; intros sf Hnr; [eexists; constructor|]. apply Forall_cons in Hnr as [Hr Hnr].
  destruct (run_sim_outcome config false sf op ltac:(done) Hr) as [ev Hev]. destruct (IH (run_sim config sf op) Hnr) as [L HL].
  eexists. by eapply ss_step.
Qed.

Lemma run_sim_steps ops : forall sf, ok_run sf ops -> no_reset ops ->
  exists L, sim_steps true ops sf.1 L (foldl (run_sim config) sf ops).1.
Proof.
  induction ops as [|op ops IH]; intros sf Hok Hnr; [eexists; constructor|].
  destruct Hok as [Hop Hok]. apply Forall_cons in Hnr as [Hr Hnr].
  destruct (run_sim_step config sf op Hop Hr) as [ev Hev]. destruct (IH _ Hok Hnr) as [L HL].
  eexists. by eapply ss_step.
Qed.

Lemma steps_any ops s L s' : sim_steps true ops s L s' -> sim_steps false ops s L s'.
Proof. induction 1 as [|? ? ? ? ? ? ? Hs _ IH]; econstructor; [|exact IH]. destruct Hs; by econstructor. Qed.

#[export] Instance op_ok_dec s op : Decision (op_ok s op).
Proof. destruct op; cbn; unfold unused_ids; apply _. Defined.
#[export] Instance ok_run_dec ops : forall sf, Decision (ok_run sf ops).
Proof. induction ops as [|op ops IH]; intros sf; cbn; [apply _|]. apply and_dec; [apply _|apply IH]. Defined.

(** The balances and positions; a fill acts on them alone. *)
Definition account (s : SimState) : list (string * dec) * list (string * InternalPosition) :=
  (sv_balances s, sv_positions s).

Lemma account_set_positions s t p : account s = account t -> account (set_positions p s) = account (set_positions p t).
Proof. intros [= H1 _]. unfold account. cbn. by rewrite H1. Qed.

Lemma account_adjust s t a d : account s = account t -> account (adjustBalance a d s) = account (adjustBalance a d t).
Proof. intros [= H1 H2]. unfold account, adjustBalance. cbn. by rewrite H1, H2. Qed.

Lemma account_position s t a sd z p ro :
  account s = account t -> account (updatePosition a sd z p ro s) = account (updatePosition a sd z p ro t).
Proof.
  intros H. pose proof H as [= H1 H2]. unfold updatePosition. rewrite H2.
  destruct (jm_get a (sv_positions t)); repeat case_match; try done; by apply account_set_positions.
Qed.

Lemma account_fill s t f : account s = account t -> account (apply_fill s f) = account (apply_fill t f).
Proof.
  intros H. unfold apply_fill, applyFill.
  destruct (pp_side (fl_params f)); by apply account_position, account_adjust, account_adjust.
Qed.

Lemma account_fills L : forall s t, account s = account t -> account (foldl apply_fill s L) = account (foldl apply_fill t L).
Proof. induction L as [|f L IH]; intros s t H; [done|]. cbn. by apply IH, account_fill. Qed.

(** A step changes the account by its fill. *)
Lemma step_account ok op s ev s' : sim_step config ok op s ev s' ->
  account s' = account (foldl apply_fill s (option_list ev)).
Proof.
  destruct 1 as [op s s' (E1 & E2 & E3 & E4) Ec|now p s Hc Hn|now s fl r Hc Hn Hu Hid Hcl Hst Hsz Hfs
    |now s p r Hc Hn Hu Hid Hcl Hst Hfs Hp|s id o Ho Hop|s id o fl r Ho Hop Hp Hid Hcl Hst Hsz Hfs|s params fl r Hpar Hu Hid Hcl Hst Hsz Hfs].
  all: try done.
  - unfold account. cbn. by rewrite E3, E4.
  - change (account (record_order ?i ?o ?t)) with (account t). by apply account_fill.
Qed.

(** The client id has a filled order. *)
Definition filled_client (c : string) (s : SimState) : Prop :=
  exists r, cached_result c s = Some r /\ pr_status r = vo_filled.

Lemma cached_record c id o s : pp_clientOrderId (io_params o) = c ->
  cached_result c (record_order id o s) = Some (io_result o).
Proof. intros <-. unfold cached_result. cbn. by rewrite !jm_get_set_eq. Qed.

Lemma cached_record_ne c id o s : pp_clientOrderId (io_params o) <> c -> jm_get id (sv_orders s) = None ->
  sim_wf config s -> cached_result c (record_order id o s) = cached_result c s.
Proof.
  intros Hc Hid Hw. unfold cached_result. cbn. rewrite jm_get_set_ne by done.
  destruct (jm_get c (sv_clientIdIndex s)) as [i|] eqn:E; [|done].
  rewrite jm_get_set_ne; [done|]. intros ->. destruct (wf_stored config s Hw c id E) as (? & ? & _). congruence.
Qed.

Lemma cached_result_ext c s t : sv_orders s = sv_orders t -> sv_clientIdIndex s = sv_clientIdIndex t ->
  cached_result c s = cached_result c t.
Proof. unfold cached_result. by intros -> ->. Qed.

Lemma cached_set_order c id o o' s :
  sim_wf config s -> jm_get id (sv_orders s) = Some o ->
  cached_result c (set_order id o' s) =
    if decide (pp_clientOrderId (io_params o) = c) then Some (io_result o') else cached_result c s.
Proof.
  intros Hw Ho. unfold cached_result. cbn. case_decide as Hc.
  - rewrite <- Hc, (wf_indexed config s Hw id o Ho). by rewrite jm_get_set_eq.
  - destruct (jm_get c (sv_clientIdIndex s)) as [i|] eqn:E; [|done]. rewrite jm_get_set_ne; [done|].
    intros ->. destruct (wf_stored config s Hw c id E) as (? & ? & ?). congruence.
Qed.

Lemma cached_wf c s id o : sim_wf config s -> jm_get id (sv_orders s) = Some o ->
  pp_clientOrderId (io_params o) = c -> cached_result c s = Some (io_result o).
Proof. intros Hw Ho <-. unfold cached_result. by rewrite (wf_indexed config s Hw id o Ho), Ho. Qed.

(** A step keeps the venue order id of every client id, and its filled status;
    it fills only what was not filled. *)
Lemma step_client op s ev s' c r : sim_step config true op s ev s' -> sim_wf config s -> cached_result c s = Some r ->
  exists r', cached_result c s' = Some r' /\ pr_venueOrderId r' = pr_venueOrderId r /\
    (pr_status r = vo_filled -> pr_status r' = vo_filled).
Proof.
  intros Hs Hw Hr. destruct Hs as [op s s' (E1 & E2 & E3 & E4) Ec|now p s Hc Hn|now s fl r' Hc Hn Hu Hid Hcl Hst Hsz Hfs
    |now s p r' Hc Hn Hu Hid Hcl Hst Hfs Hp|s id o Ho Hop|s id o fl r' Ho Hop Hp Hid Hcl Hst Hsz Hfs|s params fl r' Hpar Hu Hid Hcl Hst Hsz Hfs].
  all: try specialize (Hc eq_refl); try specialize (Hu eq_refl).
  - exists r. by rewrite (cached_result_ext c s' s).
  - by exists r.
  - exists r. split; [|done]. rewrite <- Hr.
    destruct (fill_keeps (set_counter (next_counter s) s) fl) as (F1 & F2 & F3).
    assert (Hw1 : sim_wf config (apply_fill (set_counter (next_counter s) s) fl)).
    { apply fill_wf, counter_wf; [done|]. rewrite (next_counter_small config) by done. lia. }
    rewrite cached_record_ne; [|intros <-; cbn in *; unfold fill_client in Hu; congruence| |done].
    + by apply cached_result_ext.
    + rewrite F1, Hid. exact (next_id_fresh config s Hw Hc).
  - exists r. split; [|done]. rewrite <- Hr. assert (Hw1 : sim_wf config (set_counter (next_counter s) s)).
    { apply counter_wf; [done|]. rewrite (next_counter_small config) by done. lia. }
    rewrite cached_record_ne; [done|intros <-; cbn in *; congruence| |done].
    rewrite Hid. exact (next_id_fresh config s Hw Hc).
  - rewrite (cached_set_order c id o) by done. case_decide as Hd; [|by exists r]. eexists. split; [done|]. cbn.
    rewrite (cached_wf c s id o) in Hr by done. simplify_eq. destruct (wf_result config s Hw id o Ho) as (R1 & R2 & R3).
    rewrite Hop in R3. destruct R3 as (R3 & _). rewrite R3. done.
  - destruct (fill_keeps s fl) as (F1 & F2 & F3).
    rewrite (cached_set_order c id o) by (first [by apply fill_wf|by rewrite F1]).
    case_decide as Hd; [|exists r; split; [rewrite <- Hr; by apply cached_result_ext|done]].
    eexists. split; [done|]. rewrite (cached_wf c s id o) in Hr by done. by simplify_eq.
  - exists r. split; [|done]. rewrite <- Hr. destruct (fill_keeps s fl) as (F1 & F2 & F3). destruct Hu as [Hu1 Hu2].
    assert (Hw1 : sim_wf config (apply_fill s fl)) by by apply fill_wf.
    transitivity (cached_result c (record_order (rp_venueOrderId params) (MkInternalOrder (fl_params fl) r' false) (apply_fill s fl))); [done|].
    rewrite cached_record_ne; [by apply cached_result_ext| |by rewrite F1|done].
    intros <-. cbn in *. unfold fill_client in Hu2. unfold cached_result in Hr. by rewrite Hu2 in Hr.
Qed.

Lemma step_fills_new op s fl s' : sim_step config true op s (Some fl) s' -> sim_wf config s ->
  ~ filled_client (fill_client fl) s /\ filled_client (fill_client fl) s'.
Proof.
  intros Hs Hw. remember (Some fl) as ev eqn:Ev. revert Ev. destruct Hs as [op s s' (E1 & E2 & E3 & E4) Ec|now p s Hc Hn
    |now s fl' r' Hc Hn Hu Hid Hcl Hst Hsz Hfs|now s p r' Hc Hn Hu Hid Hcl Hst Hfs Hp|s id o Ho Hop
    |s id o fl' r' Ho Hop Hp Hid Hcl Hst Hsz Hfs|s params fl' r' Hpar Hu Hid Hcl Hst Hsz Hfs]; intros [= <-].
  all: try specialize (Hc eq_refl); try specialize (Hu eq_refl).
  - split; [intros (? & ? & _); congruence|]. exists r'. split; [by rewrite cached_record|done].
  - assert (Hcl' : fill_client fl' = pp_clientOrderId (io_params o)) by (unfold fill_client; by rewrite Hp).
    destruct (fill_keeps s fl') as (F1 & F2 & F3). split.
    + intros (r & Hr & Hf). rewrite (cached_wf _ s id o) in Hr by done. simplify_eq.
      destruct (wf_result config s Hw id o Ho) as (R1 & R2 & R3). rewrite Hop in R3. destruct R3. congruence.
    + exists r'. split; [|done]. rewrite (cached_set_order _ id o) by (first [by apply fill_wf|by rewrite F1]).
      by rewrite decide_True.
  - destruct Hu as [_ Hu]. split; [intros (r & Hr & _); unfold cached_result in Hr; by rewrite Hu in Hr|].
    exists r'. split; [|done].
    exact (cached_record _ (rp_venueOrderId params) (MkInternalOrder (fl_params fl') r' false) (apply_fill s fl') eq_refl).
Qed.

(** Over a run the account moves by the fills, in order. *)
Lemma steps_account ok ops s L s' : sim_steps ok ops s L s' -> account s' = account (foldl apply_fill s L.*2).
Proof.
  induction 1 as [s|op ops s ev s1 L s2 Hs _ IH]; [done|]. rewrite IH, fmap_app, foldl_app. apply account_fills.
  rewrite (step_account _ _ _ _ _ Hs). by destruct ev.
Qed.

(** Over a run of calls considered, the fills have distinct client ids, none
    filled before and all filled after. *)
Lemma steps_fills ops s L s' : sim_steps true ops s L s' -> sim_wf config s ->
  sim_wf config s' /\ NoDup (fill_client <$> L.*2) /\
  (forall c, c ∈ fill_client <$> L.*2 -> ~ filled_client c s /\ filled_client c s') /\
  (forall c r, cached_result c s = Some r -> exists r', cached_result c s' = Some r' /\
    pr_venueOrderId r' = pr_venueOrderId r /\ (pr_status r = vo_filled -> pr_status r' = vo_filled)).
Proof.
  induction 1 as [s|op ops s ev s1 L s2 Hs _ IH]; intros Hw.
  { split_and!; [done|constructor|intros c Hc; inversion Hc|eauto]. }
  destruct (IH (step_wf config op s ev s1 Hs Hw)) as (Hw2 & Hn & Hf & Hk). clear IH.
  assert (Hback : forall c, ~ filled_client c s1 -> ~ filled_client c s).
  { intros c Hc (r & Hr & Hst). apply Hc. destruct (step_client op s ev s1 c r Hs Hw Hr) as (r' & ? & _ & ?). exists r'. auto. }
  assert (El : ((step_fill op ev) ++ L).*2 = option_list ev ++ L.*2) by by destruct ev.
  rewrite El. split_and!; [done| | |].
  - rewrite fmap_app. destruct ev as [fl|]; [|done]. cbn. apply NoDup_cons. split; [|done].
    intros Hin. destruct (step_fills_new op s fl s1 Hs Hw) as [_ H1]. by apply (proj1 (Hf _ Hin)).
  - intros c. rewrite fmap_app, elem_of_app. intros [Hc|Hc]; [|split; [by apply Hback, Hf|by apply Hf]].
    destruct ev as [fl|]; [|inversion Hc]. apply list_elem_of_singleton in Hc as ->.
    destruct (step_fills_new op s fl s1 Hs Hw) as [H0 (r & Hr & Hst)]. split; [done|].
    destruct (Hk _ _ Hr) as (r' & ? & _ & ?). exists r'. auto.
  - intros c r Hr. destruct (step_client op s ev s1 c r Hs Hw Hr) as (r1 & H1 & E1 & S1).
    destruct (Hk _ _ H1) as (r2 & H2 & E2 & S2). exists r2. split_and!; [done|congruence|auto].
Qed.

(** Construction and resets. *)
Lemma empty_wf b c : NoDup (jm_keys b) -> sim_wf config (set_balances b (set_connected c empty_sim)).
Proof. intros Hb. split; cbn; try done. split_and!; try done; constructor. Qed.

Lemma seed_NoDup entries : forall b b', seed_balances entries b = Ret b' -> NoDup (jm_keys b) -> NoDup (jm_keys b').
Proof.
  induction entries as [|[a t] rest IH]; intros b b' H Hb; [by injection H as <-|].
  cbn [seed_balances] in H. exn_inv H as d E. eapply IH; [exact H|]. by apply jm_set_NoDup.
Qed.

Lemma reseed_wf entries : forall sf : St, sim_wf config sf.1 -> sim_wf config ((reseed entries sf).2).1.
Proof.
  induction entries as [|[a t] rest IH]; intros [s f] Hw; [done|].
  cbn [reseed]. unfold parse_, lift_exn, mbind, eff_bind, modify_sim. destruct (dec_of_string t) as [d|e]; [|done].
  apply IH. destruct (wf_keys config s Hw) as (K1 & K2 & K3 & K4). split; cbn; try apply Hw.
  split_and!; try done. by apply jm_set_NoDup.
Qed.

Lemma reset_wf (sf : St) : sim_wf config (run_sim config sf SReset).1.
Proof.
  cbn. unfold resetSimulationState, modify_sim, mbind, eff_bind. cbn. apply reseed_wf. cbn.
  apply (empty_wf [] (sv_connected sf.1)). constructor.
Qed.

Lemma run_wf ops : forall sf, ok_run sf ops -> sim_wf config sf.1 -> sim_wf config (foldl (run_sim config) sf ops).1.
Proof.
  induction ops as [|op ops IH]; intros sf Hok Hw; [done|]. destruct Hok as [Hop Hok]. cbn [foldl]. apply IH; [done|].
  assert (op = SReset \/ op <> SReset) as [->|Hr] by (destruct op; (by left) || by right); [apply reset_wf|].
  destruct (run_sim_step config sf op Hop Hr) as [ev Hev]. by eapply step_wf.
Qed.

Lemma ok_run_app ops1 ops2 : forall sf, ok_run sf (ops1 ++ ops2) <->
  ok_run sf ops1 /\ ok_run (foldl (run_sim config) sf ops1) ops2.
Proof. induction ops1 as [|op ops IH]; intros sf; cbn; [tauto|]. rewrite IH. tauto. Qed.
End Runs.

(** ** Any calls at all

    Replays of ids that are in use, and order numbers beyond 2^53, let orders
    overwrite each other.  What remains true then. *)

Section AnyCalls.
Context `{DL : DecimalLib} (config : SimulatedVenueConfig).

Record sim_sound (s : SimState) : Prop := {
  sd_found : forall c id, jm_get c (sv_clientIdIndex s) = Some id -> is_Some (jm_get id (sv_orders s));
  sd_known : forall id o, jm_get id (sv_orders s) = Some o -> is_Some (jm_get (pp_clientOrderId (io_params o)) (sv_clientIdIndex s));
  sd_result : forall id o, jm_get id (sv_orders s) = Some o -> order_ok id o;
  sd_single : forall id id' o o', jm_get id (sv_orders s) = Some o -> jm_get id' (sv_orders s) = Some o' ->
    io_open o = true -> io_open o' = true -> pp_clientOrderId (io_params o) = pp_clientOrderId (io_params o') -> id = id';
  sd_assets : forall a p, jm_get a (sv_positions s) = Some p -> ip_asset p = a;
  sd_keys : NoDup (jm_keys (sv_orders s)) /\ NoDup (jm_keys (sv_clientIdIndex s)) /\
    NoDup (jm_keys (sv_balances s)) /\ NoDup (jm_keys (sv_positions s));
}.

Lemma wf_sound s : sim_wf config s -> sim_sound s.
Proof.
  intros Hw. split.
  - intros c id (o & Ho & _)%(wf_stored config s Hw). by exists o.
  - intros id o Ho%(wf_indexed config s Hw). by exists id.
  - apply (wf_result config s Hw).
  - intros id id' o o' H1%(wf_indexed config s Hw) H2%(wf_indexed config s Hw) _ _ E. rewrite E in H1. congruence.
  - apply (wf_assets config s Hw).
  - apply (wf_keys config s Hw).
Qed.

Lemma sound_counter s n : sim_sound s -> sim_sound (set_counter n s).
Proof. intros Hs. split; cbn; apply Hs. Qed.

Lemma sound_fill s f : sim_sound s -> sim_sound (apply_fill s f).
Proof.
  intros Hs. destruct (fill_frame f s) as (b & p & -> & Hb & Hp). destruct (sd_keys s Hs) as (K1 & K2 & K3 & K4).
  destruct Hp as [Hp1 Hp2]; [split; [done|apply (sd_assets s Hs)]|]. split; cbn; try done; try apply Hs. split_and!; auto.
Qed.

Lemma not_cached c s : sim_sound s -> cached_result c s = None -> jm_get c (sv_clientIdIndex s) = None.
Proof.
  unfold cached_result. intros Hs. destruct (jm_get c (sv_clientIdIndex s)) as [id|] eqn:E; [|done].
  by destruct (sd_found s Hs c id E) as (o & ->).
Qed.

Lemma not_cached_order c s id o : sim_sound s -> jm_get c (sv_clientIdIndex s) = None -> jm_get id (sv_orders s) = Some o ->
  pp_clientOrderId (io_params o) <> c.
Proof. intros Hs Hc Ho <-. destruct (sd_known s Hs id o Ho) as [i Hi]. congruence. Qed.

Lemma sound_record s id o : sim_sound s -> order_ok id o ->
  (io_open o = true -> jm_get (pp_clientOrderId (io_params o)) (sv_clientIdIndex s) = None) -> sim_sound (record_order id o s).
Proof.
  intros Hs Ho Hopen. destruct (sd_keys s Hs) as (K1 & K2 & K3 & K4). split; cbn.
  - intros c i. rewrite !jm_get_set. case_decide; [intros [= <-]; case_decide; [by eexists|done]|].
    intros Hi%(sd_found s Hs). by case_decide; [eexists|].
  - intros i p. rewrite !jm_get_set. case_decide; [intros [= <-]; rewrite decide_True by done; by eexists|].
    intros Hi%(sd_known s Hs). by case_decide; [eexists|].
  - intros i p. rewrite jm_get_set. case_decide; [intros [= <-]; by subst|apply (sd_result s Hs)].
  - intros i i' p p' H1 H2 Ho1 Ho2 E. rewrite jm_get_set in H1, H2.
    destruct (decide (i = id)) as [D1|D1], (decide (i' = id)) as [D2|D2];
      [congruence|injection H1 as <-|injection H2 as <-|by apply (sd_single s Hs i i' p p')].
    + by destruct (not_cached_order _ s i' p' Hs (Hopen Ho1) H2).
    + by destruct (not_cached_order _ s i p Hs (Hopen Ho2) H1).
  - apply (sd_assets s Hs).
  - split_and!; try done; by apply jm_set_NoDup.
Qed.

Lemma sound_close s id o o' : sim_sound s -> jm_get id (sv_orders s) = Some o -> io_params o' = io_params o ->
  order_ok id o' -> io_open o' = false -> sim_sound (set_order id o' s).
Proof.
  intros Hs Hid Hp Ho Hc. destruct (sd_keys s Hs) as (K1 & K2 & K3 & K4). split; cbn.
  - intros c i Hi%(sd_found s Hs). rewrite jm_get_set. by case_decide; [eexists|].
  - intros i p. rewrite jm_get_set. case_decide; [intros [= <-]; rewrite Hp; by apply (sd_known s Hs id)|apply (sd_known s Hs)].
  - intros i p. rewrite jm_get_set. case_decide; [intros [= <-]; by subst|apply (sd_result s Hs)].
  - intros i i' p p' H1 H2 Ho1 Ho2 E. rewrite jm_get_set in H1, H2.
    destruct (decide (i = id)) as [D1|D1], (decide (i' = id)) as [D2|D2]; [congruence..|by apply (sd_single s Hs i i' p p')].
  - apply (sd_assets s Hs).
  - split_and!; try done; by apply jm_set_NoDup.
Qed.

(** Every call keeps what is sound. *)
Lemma step_sound op s ev s' : sim_step config false op s ev s' -> sim_sound s -> sim_sound s'.
Proof.
  intros Hs Hw. destruct Hs as [op s s' (E1 & E2 & E3 & E4) Ec|now p s Hc Hn|now s fl r Hc Hn Hu Hid Hcl Hst Hsz Hfs
    |now s p r Hc Hn Hu Hid Hcl Hst Hfs Hp|s id o Ho Hop|s id o fl r Ho Hop Hp Hid Hcl Hst Hsz Hfs
    |s params fl r Hpar Hu Hid Hcl Hst Hsz Hfs].
  - split; rewrite ?E1, ?E2, ?E3, ?E4; apply Hw.
  - by apply sound_counter.
  - apply sound_record; [by apply sound_fill, sound_counter| |done]. split_and!; [done|done|by left].
  - apply sound_record; [by apply sound_counter|by split_and!|]. intros _. by apply (not_cached _ s).
  - destruct (sd_result s Hw id o Ho) as (R1 & R2 & R3). rewrite Hop in R3. destruct R3 as (R3 & R4 & R5).
    eapply sound_close; [done|exact Ho|done| |done]. split_and!; [done|done|]. by right.
  - destruct (sd_result s Hw id o Ho) as (R1 & R2 & R3). destruct (fill_keeps s fl) as (F1 & _).
    eapply sound_close; [by apply sound_fill|by rewrite F1|done| |done].
    split_and!; cbn; [congruence|congruence|]. left. by rewrite <- Hp.
  - apply sound_counter, sound_record; [by apply sound_fill| |done]. split_and!; [done|done|by left].
Qed.

(** The placements a call asks for, and the client ids that a step fills without
    a replay. *)
Definition asked_by (op : sim_op) : list PlaceOrderParams := match op with SPlace _ p => [p] | _ => [] end.
Definition is_replay (op : sim_op) : bool := match op with SReplay _ => true | _ => false end.
Definition placed_fills (L : list (sim_op * Fill)) : list Fill := flat_map (fun x => if is_replay x.1 then [] else [x.2]) L.
Definition replayed_fills (L : list (sim_op * Fill)) : list Fill := flat_map (fun x => if is_replay x.1 then [x.2] else []) L.
Definition replays (ops : list sim_op) : list ReplayFillParams :=
  flat_map (fun op => match op with SReplay params => [params] | _ => [] end) ops.

(** An open order was asked for, and its client id not filled but by replays;
    the client ids filled so are known. *)
Record accounted (asked : list PlaceOrderParams) (filled : list string) (s : SimState) : Prop := {
  ac_open : forall id o, jm_get id (sv_orders s) = Some o -> io_open o = true ->
    io_params o ∈ asked /\ pp_clientOrderId (io_params o) ∉ filled;
  ac_filled : forall c, c ∈ filled -> is_Some (jm_get c (sv_clientIdIndex s));
}.

Lemma accounted_book asked more filled s s' : sv_orders s' = sv_orders s -> sv_clientIdIndex s' = sv_clientIdIndex s ->
  accounted asked filled s -> accounted (more ++ asked) filled s'.
Proof.
  intros E1 E2 [H1 H2]. split; rewrite ?E1, ?E2; [|done]. intros id o Ho Hop. destruct (H1 id o Ho Hop).
  split; [|done]. apply elem_of_app. by right.
Qed.

Lemma step_accounted op s ev s' asked filled : sim_step config false op s ev s' -> sim_sound s -> accounted asked filled s ->
  accounted (asked_by op ++ asked) ((fill_client <$> placed_fills (step_fill op ev)) ++ filled) s' /\
  forall fl, ev = Some fl -> dec_of_string (pp_size (fl_params fl)) = Ret (fl_size fl) /\
    if is_replay op then [fl_params fl] = replay_params <$> replays [op]
    else fl_params fl ∈ asked_by op ++ asked /\ fill_client fl ∉ filled.
Proof.
  intros Hs Hw Ha. pose proof Ha as [Ho1 Hf1].
  destruct Hs as [op s s' (E1 & E2 & E3 & E4) Ec|now p s Hc Hn|now s fl r Hc Hn Hu Hid Hcl Hst Hsz Hfs
    |now s p r Hc Hn Hu Hid Hcl Hst Hfs Hp|s id o Ho Hop|s id o fl r Ho Hop Hp Hid Hcl Hst Hsz Hfs
    |s params fl r Hpar Hu Hid Hcl Hst Hsz Hfs]; cbn [step_fill list_fmap fmap placed_fills flat_map is_replay fst snd app asked_by].
  - split; [|done]. by eapply accounted_book.
  - split; [|done]. by eapply (accounted_book asked [p]).
  - apply (not_cached _ _ Hw) in Hu. destruct (fill_keeps (set_counter (next_counter s) s) fl) as (F1 & F2 & _).
    assert (Hnf : fill_client fl ∉ filled) by (intros [i Hi]%Hf1; congruence). split.
    + split; cbn; rewrite ?F1, ?F2; cbn.
      * intros i q. rewrite jm_get_set. case_decide; [by intros [= <-]|]. intros Hq Hqo. destruct (Ho1 i q Hq Hqo) as [A1 A2].
        split; [by right|]. intros [E|]%elem_of_cons; [|done]. by destruct (not_cached_order _ _ _ _ Hw Hu Hq).
      * intros c Hcc. rewrite jm_get_set. case_decide as Hd; [by eexists|].
        apply elem_of_cons in Hcc as [->|Hcc]; [by destruct Hd|by apply Hf1].
    + intros fl' [= <-]. split_and!; [done|by left|done].
  - apply (not_cached _ _ Hw) in Hu. split; [|done]. split; cbn.
    + intros i q. rewrite jm_get_set. case_decide; [intros [= <-] _; cbn; split; [by left|intros [j Hj]%Hf1; congruence]|].
      intros Hq Hqo. destruct (Ho1 i q Hq Hqo). split; [by right|done].
    + intros c Hcc. rewrite jm_get_set. case_decide; [by eexists|by apply Hf1].
  - split; [|done]. split; cbn; [|done]. intros i q. rewrite jm_get_set. case_decide; [by intros [= <-]|apply Ho1].
  - destruct (Ho1 id o Ho Hop) as [A1 A2]. destruct (fill_keeps s fl) as (F1 & F2 & _).
    assert (Ecl : fill_client fl = pp_clientOrderId (io_params o)) by (unfold fill_client; by rewrite Hp). split.
    + split; cbn; rewrite ?F1, ?F2.
      * intros i q. rewrite jm_get_set. case_decide as Hd; [by intros [= <-]|]. intros Hq Hqo. destruct (Ho1 i q Hq Hqo) as [B1 B2].
        split; [done|]. intros [E|]%elem_of_cons; [|done]. rewrite Ecl in E. by destruct Hd, (sd_single s Hw i id q o).
      * intros c [->|Hcc]%elem_of_cons; [|by apply Hf1]. rewrite Ecl. by apply (sd_known s Hw id).
    + intros fl' [= <-]. rewrite Ecl, Hp. split_and!; [by rewrite <- Hp|done|done].
  - destruct (fill_keeps s fl) as (F1 & F2 & _). split; [|intros fl' [= <-]; cbn; by rewrite Hpar in *].
    split; cbn; rewrite ?F1, ?F2.
    + intros i q. rewrite jm_get_set. case_decide; [by intros [= <-]|apply Ho1].
    + intros c Hcc. rewrite jm_get_set. case_decide; [by eexists|by apply Hf1].
Qed.

(** The placements asked for in a run. *)
Definition asked_in (ops : list sim_op) : list PlaceOrderParams := flat_map asked_by ops.

Lemma steps_accounted ops s L s' : sim_steps config false ops s L s' -> forall asked filled, sim_sound s -> accounted asked filled s ->
  sim_sound s' /\ NoDup (fill_client <$> placed_fills L) /\
  (forall f, f ∈ placed_fills L -> (fl_params f ∈ asked_in ops \/ fl_params f ∈ asked) /\ fill_client f ∉ filled) /\
  (fl_params <$> replayed_fills L) `sublist_of` (replay_params <$> replays ops) /\
  Forall (fun f => dec_of_string (pp_size (fl_params f)) = Ret (fl_size f)) L.*2.
Proof.
  induction 1 as [s|op ops s ev s1 L s2 Hs _ IH]; intros asked filled Hw Ha.
  { split_and!; [done|constructor|intros f Hf; inversion Hf|constructor|constructor]. }
  destruct (step_accounted op s ev s1 asked filled Hs Hw Ha) as [Ha1 Hev].
  destruct (IH _ _ (step_sound op s ev s1 Hs Hw) Ha1) as (Hw2 & Hn & Hf & Hr & Hz). clear IH.
  unfold placed_fills, replayed_fills, replays, asked_in in *. cbn [flat_map].
  assert (Hmore : forall f, f ∈ flat_map (fun x => if is_replay x.1 then [] else [x.2]) L ->
    (fl_params f ∈ asked_by op ++ flat_map asked_by ops \/ fl_params f ∈ asked) /\ fill_client f ∉ filled).
  { intros f Hin. destruct (Hf f Hin) as [Hp Hnf]. rewrite !elem_of_app in *. tauto. }
  destruct ev as [fl|]; cbn [step_fill fmap list_fmap app flat_map fst snd] in *.
  2: { split_and!; [done..| |done]. rewrite fmap_app. by apply sublist_inserts_l. }
  destruct (Hev fl eq_refl) as [Hsz Hk]. destruct (is_replay op) eqn:Ei; cbn [app fmap list_fmap] in *.
  - rewrite app_nil_r in Hk. split_and!; [done|done|done| |by constructor].
    rewrite fmap_app, <- Hk. by apply sublist_skip.
  - destruct Hk as [Hk1 Hk2]. split_and!; [done| | | |by constructor].
    + apply NoDup_cons. split; [|done]. intros (f & E & Hin)%list_elem_of_fmap.
      destruct (Hf f Hin) as [_ Hnf]. apply Hnf. rewrite <- E. by left.
    + intros f [->|Hin]%elem_of_cons; [|by apply Hmore]. split; [|done]. rewrite !elem_of_app in *. tauto.
    + rewrite fmap_app. by apply sublist_inserts_l.
Qed.
End AnyCalls.

Section AnyRuns.
Context `{DL : DecimalLib} {F : Type} `{PF : PriceFeed F} (config : SimulatedVenueConfig).
Abbreviation St := (SimState * F)%type.

Lemma run_sound ops : forall sf : St, sim_sound sf.1 -> sim_sound (foldl (run_sim config) sf ops).1.
Proof.
  induction ops as [|op ops IH]; intros sf Hs; [done|]. cbn [foldl]. apply IH.
  assert (op = SReset \/ op <> SReset) as [->|Hr] by (destruct op; (by left) || by right);
    [apply (wf_sound config), reset_wf|].
  destruct (run_sim_outcome config false sf op ltac:(done) Hr) as [ev Hev]. by eapply step_sound.
Qed.

(** Without replays a call numbers one order at most. *)
Lemma step_counter op s ev s' : sim_step config true op s ev s' -> sim_wf config s -> is_replay op = false ->
  sv_orderCounter s' <= sv_orderCounter s + 1.
Proof.
  intros Hs Hw Hr. destruct Hs as [op s s' (E1 & E2 & E3 & E4) Ec|now p s Hc Hn|now s fl r Hc Hn Hu Hid Hcl Hst Hsz Hfs
    |now s p r Hc Hn Hu Hid Hcl Hst Hfs Hp|s id o Ho Hop|s id o fl r Ho Hop Hp Hid Hcl Hst Hsz Hfs
    |s params fl r Hpar Hu Hid Hcl Hst Hsz Hfs]; try done; cbn;
    try (destruct (fill_keeps (set_counter (next_counter s) s) fl) as (_ & _ & ->)); try (destruct (fill_keeps s fl) as (_ & _ & ->));
    cbn; rewrite ?(next_counter_small config) by auto; lia.
Qed.

Lemma reset_counter (sf : St) : sv_orderCounter (run_sim config sf SReset).1 = 0.
Proof.
  cbn. unfold resetSimulationState, modify_sim, mbind, eff_bind. cbn.
  generalize (sc_initialBalances config) as entries. generalize (sf.2) as f. set (t := set_connected _ _).
  assert (H : sv_orderCounter t = 0) by done. revert H. generalize t. clear t. intros t H f entries. revert t H.
  induction entries as [|[a v] entries IH]; intros t H; [done|]. cbn [reseed]. unfold parse_, lift_exn, mbind, eff_bind, modify_sim.
  destruct (dec_of_string v); [by apply IH|done].
Qed.

(** Fewer than 2^53 calls without replays are calls considered. *)
Lemma counted_ok ops : forall sf : St, Forall (fun op => is_replay op = false) ops -> sim_wf config sf.1 ->
  sv_orderCounter sf.1 + Z.of_nat (length ops) < 2 ^ 53 -> ok_run config sf ops.
Proof.
  induction ops as [|op ops IH]; intros sf Hx Hw Hc; [done|].
  apply Forall_cons in Hx as [Ho Hx]. cbn [length] in Hc. rewrite Nat2Z.inj_succ in Hc.
  assert (Hok : op_ok sf.1 op) by (destruct op; try done; cbn; lia). split; [done|].
  assert (op = SReset \/ op <> SReset) as [->|Hr] by (destruct op; (by left) || by right).
  - pose proof (wf_counter config _ Hw). apply IH; [done|apply reset_wf|rewrite reset_counter; lia].
  - destruct (run_sim_step config sf op Hok Hr) as [ev Hev]. pose proof (step_counter op _ _ _ Hev Hw Ho).
    apply IH; [done|by eapply step_wf|lia].
Qed.

(** A venue as constructed, or just reset, has no orders. *)
Definition no_orders (s : SimState) : Prop := sv_orders s = [] /\ sv_clientIdIndex s = [].

Lemma reset_empty (sf : St) : no_orders (run_sim config sf SReset).1.
Proof.
  cbn. unfold resetSimulationState, modify_sim, mbind, eff_bind. cbn.
  generalize (sc_initialBalances config) as entries. generalize (sf.2) as f. set (t := set_connected _ _).
  assert (H : no_orders t) by done. revert H. generalize t. clear t. intros t H f entries. revert t H.
  induction entries as [|[a v] entries IH]; intros t H; [done|]. cbn [reseed]. unfold parse_, lift_exn, mbind, eff_bind, modify_sim.
  destruct (dec_of_string v); [by apply IH|done].
Qed.
End AnyRuns.

Lemma new_venue `{DL : DecimalLib} {F : Type} (config : SimulatedVenueConfig) (priceFeed : option F) sf :
  newSimulatedVenueAdapter config priceFeed = Ret sf -> sim_wf config sf.1 /\ no_orders sf.1 /\ sv_orderCounter sf.1 = 0.
Proof.
  intros Hnew. unfold newSimulatedVenueAdapter in Hnew. exn_inv Hnew as feed E1. exn_inv Hnew as b E2.
  injection Hnew as <-. split_and!; [|done..]. apply (empty_wf config b false). eapply seed_NoDup; [exact E2|constructor].
Qed.

(** ** Properties *)

Section SimProperties.
Context `{DL : DecimalLib} {F : Type} `{PF : PriceFeed F}.
Abbreviation St := (SimState * F)%type.

(** C30. The states of a simulated venue.  After any calls of its methods from
    its construction, replays of ids already in use included: a client id leads
    to a stored order and every order is known by its client id; an order is
    stored under its venue id, carries its own ids and is open (submitted,
    unfilled, with a limit price) or closed (filled in full, or cancelled
    unfilled); no client id has two open orders; positions are stored under
    their asset; no key occurs twice.  When moreover each replay used new ids and
    fewer than 2^53 orders were numbered before each placement (as in every
    sequence of fewer than 2^53 calls without replays), orders and client ids
    index each other and unused order numbers are unused. *)
Theorem venue_state_invariant (config : SimulatedVenueConfig) (priceFeed : option F)
    (ops : list sim_op) (sf : SimState * (StaticPriceFeed + F))
    (Hnew : newSimulatedVenueAdapter config priceFeed = Ret sf) :
  let final := (foldl (run_sim config) sf ops).1 in
  sim_sound final /\
  (ok_run config sf ops -> sim_wf config final) /\
  (Forall (fun op => is_replay op = false) ops -> Z.of_nat (length ops) < 2 ^ 53 -> ok_run config sf ops).
Proof.
  cbn zeta. destruct (new_venue config priceFeed sf Hnew) as (Hw & _ & Hc). split_and!.
  - by apply run_sound, (wf_sound config).
  - intros Hok. by apply run_wf.
  - intros Hr Hl. apply counted_ok; [done|done|by rewrite Hc].
Qed.

(** C26. The same client order id never fills twice.  Over any calls from the
    construction of a venue or a reset of it, up to the next reset: the balances
    and positions move by a list of fills, each of the size its order asked
    for.  The fills of orders have distinct client order ids and were asked for
    by a placement; the others are fills replayed from the store, each of them
    by a replay of its own and in their order.  When moreover each replay used
    new ids and fewer than 2^53 orders were numbered before each placement, no
    client order id occurs twice in the whole list, and each is reported as
    filled after. *)
Theorem client_order_fills_once (config : SimulatedVenueConfig) (priceFeed : option F) (ops : list sim_op)
    (sf : SimState * (StaticPriceFeed + F))
    (Hstart : newSimulatedVenueAdapter config priceFeed = Ret sf \/ exists sf0, sf = run_sim config sf0 SReset)
    (Hnr : no_reset ops) :
  let final := (foldl (run_sim config) sf ops).1 in
  exists L : list (sim_op * Fill), account final = account (foldl apply_fill sf.1 L.*2) /\
    Forall (fun f => dec_of_string (pp_size (fl_params f)) = Ret (fl_size f)) L.*2 /\
    NoDup (fill_client <$> placed_fills L) /\
    (forall f, f ∈ placed_fills L -> exists now, SPlace now (fl_params f) ∈ ops) /\
    (fl_params <$> replayed_fills L) `sublist_of` (replay_params <$> replays ops) /\
    (ok_run config sf ops -> NoDup (fill_client <$> L.*2) /\ forall c, c ∈ fill_client <$> L.*2 -> filled_client c final).
Proof.
  cbn zeta. assert (Hs : sim_wf config sf.1 /\ no_orders sf.1).
  { destruct Hstart as [Hnew|[sf0 ->]]; [by destruct (new_venue config priceFeed sf Hnew) as (? & ? & _)|].
    split; [apply reset_wf|apply reset_empty]. }
  destruct Hs as [Hw [He1 He2]]. assert (HL : exists L, sim_steps config false ops sf.1 L (foldl (run_sim config) sf ops).1 /\
    (ok_run config sf ops -> sim_steps config true ops sf.1 L (foldl (run_sim config) sf ops).1)).
  { destruct (decide (ok_run config sf ops)) as [Hok|Hok].
    - destruct (run_sim_steps config ops sf Hok Hnr) as [L HL]. exists L. split; [by apply steps_any|done].
    - destruct (run_sim_outcomes config ops sf Hnr) as [L HL]. by exists L. }
  destruct HL as (L & HL & Hok). exists L.
  destruct (steps_accounted config _ _ _ _ HL [] []) as (_ & Hn & Hp & Hr & Hz); [by apply (wf_sound config)| |].
  { split; rewrite ?He1, ?He2; [done|intros c Hc; inversion Hc]. }
  split_and!; [by eapply steps_account|done|done| |done|].
  - intros f [[Ha|Ha] _]%Hp; [|inversion Ha]. apply list_elem_of_In, in_flat_map in Ha as (op & Hop & Hf).
    destruct op as [| | | |now p| |]; try done. destruct Hf as [<-|[]]. exists now. by apply list_elem_of_In.
  - intros H. destruct (steps_fills config _ _ _ _ (Hok H) Hw) as (_ & Hd & Hf & _). split; [done|]. intros c Hc. by apply Hf.
Qed.

(** A placement that returned is remembered under its client order id, and
    later placements under it return what is remembered. *)
Lemma placed_is_cached (config : SimulatedVenueConfig) (now : Z) (p : PlaceOrderParams) (sf sf1 : St) (r : PlaceOrderResult) :
  placeOrder config now p sf = (Ret r, sf1) -> cached_result (pp_clientOrderId p) sf1.1 = Some r.
Proof.
  destruct sf as [s f], sf1 as [s1 f1]. intros Hp. apply place_outcome in Hp as [(res & Hr & [= ->] & -> & ->)|[(_ & [e ?] & _)|
    [(_ & _ & _ & price & size & fee & res & ident & [= ->] & _ & _ & ->)|(_ & _ & _ & _ & [= ->] & ->)]]];
    [done|done| |]; by apply cached_record.
Qed.

Lemma cached_placement (config : SimulatedVenueConfig) (now : Z) (p : PlaceOrderParams) (sf : St) (r : PlaceOrderResult) :
  cached_result (pp_clientOrderId p) sf.1 = Some r -> placeOrder config now p sf = (Ret r, sf).
Proof. intros H. unfold placeOrder, read_sim, mbind, eff_bind. by rewrite H. Qed.

(** Placing is idempotent per client order id, whatever happened since:
    once a placement returned, any later placement with the same client order
    id returns the same venue order, filled if it was filled, and changes
    nothing, even when the adapter is disconnected. *)
Theorem placement_idempotent (config : SimulatedVenueConfig) (now now' : Z) (p p' : PlaceOrderParams)
    (ops : list sim_op) (sf sf1 : St) (r : PlaceOrderResult)
    (Hw : sim_wf config sf.1) (Hn : sv_orderCounter sf.1 < 2 ^ 53) (Hp : placeOrder config now p sf = (Ret r, sf1))
    (Hok : ok_run config sf1 ops) (Hnr : no_reset ops) (Hid : pp_clientOrderId p' = pp_clientOrderId p) :
  let sf2 := foldl (run_sim config) sf1 ops in
  exists r', placeOrder config now' p' sf2 = (Ret r', sf2) /\ pr_venueOrderId r' = pr_venueOrderId r /\
    (pr_status r = vo_filled -> pr_status r' = vo_filled).
Proof.
  intros sf2. assert (Hw1 : sim_wf config sf1.1).
  { destruct (run_sim_step config sf (SPlace now p) Hn) as [ev Hev]; [done|]. cbn in Hev. rewrite Hp in Hev. by eapply step_wf. }
  pose proof (placed_is_cached _ _ _ _ _ _ Hp) as Hc.
  destruct (run_sim_steps config ops sf1 Hok Hnr) as [L HL].
  destruct (steps_fills config _ _ _ _ HL Hw1) as (_ & _ & _ & Hk). destruct (Hk _ _ Hc) as (r' & Hr' & E & S).
  exists r'. split_and!; [|done|done]. apply cached_placement. by rewrite Hid.
Qed.

(** A placement that throws changes no order, balance or position; while
    the adapter is disconnected it changes nothing at all. *)
Theorem refused_placement_changes_nothing (config : SimulatedVenueConfig) (now : Z) (p : PlaceOrderParams)
    (s s' : SimState) (f f' : F) (e : JsError) (Hp : placeOrder config now p (s, f) = (Throw e, (s', f'))) :
  cached_result (pp_clientOrderId p) s = None /\ same_book s s' /\ sv_connected s' = sv_connected s /\
  (sv_connected s = false -> s' = s).
Proof.
  apply place_outcome in Hp as [(res & _ & ? & _)|[(Hn & _ & [->|[Hc ->]])|
    [(_ & _ & _ & price & size & fee & res & ident & ? & _)|(_ & _ & _ & _ & ? & _)]]]; try done.
  split_and!; try done. by rewrite Hc.
Qed.

(** Reduce-only is not enforced: a reduce-only market order on the side of
    the position increases it like any other order, and one larger than an
    opposite position closes the position but is reported, and settled in the
    balance of its asset, as filled in its full size. *)
Theorem reduce_only_not_enforced (config : SimulatedVenueConfig) (now : Z) (p : PlaceOrderParams)
    (s s' : SimState) (f f' : F) (r : PlaceOrderResult) (pos : InternalPosition) (size : dec)
    (Hp : placeOrder config now p (s, f) = (Ret r, (s', f'))) (Hnew : cached_result (pp_clientOrderId p) s = None)
    (Hm : pp_type p = market) (Hr : pp_reduceOnly p = true) (Hq : pp_asset p <> "USDC")
    (Hpos : jm_get (pp_asset p) (sv_positions s) = Some pos) (Hs : dec_of_string (pp_size p) = Ret size) :
  let side := match pp_side p with buy => long | sell => short end in
  pr_status r = vo_filled /\ pr_filledSize r = pp_size p /\
  (ip_side pos = side -> exists pos', jm_get (pp_asset p) (sv_positions s') = Some pos' /\
     ip_side pos' = side /\ ip_size pos' = d_plus (ip_size pos) size) /\
  (ip_side pos <> side -> d_lte size (ip_size pos) = false ->
     jm_get (pp_asset p) (sv_positions s') = None /\
     jm_get (pp_asset p) (sv_balances s') =
       Some (d_plus (or_else (jm_get (pp_asset p) (sv_balances s)) (dec_of_Z 0))
               (match pp_side p with buy => size | sell => d_neg size end))).
Proof.
  intros side. apply place_outcome in Hp as [(res & ? & _)|[(_ & [? ?] & _)|
    [(_ & _ & _ & price & z & fee & res & ident & [= ->] & Hz & -> & ->)|(_ & _ & ? & _)]]]; try congruence; try done.
  assert (z = size) as -> by congruence. split_and!; [done|done| |]; intros Hside.
  - unfold applyFill, updatePosition. fold side. destruct (pp_side p); cbn; rewrite Hpos; cbn;
      rewrite bool_decide_true by done; cbn; eexists; (split; [apply jm_get_set_eq|done]).
  - intros Hl. unfold applyFill, updatePosition. rewrite Hr. destruct (pp_side p); cbn; rewrite Hpos; cbn;
      rewrite bool_decide_false, Hl by done; cbn; (split; [apply jm_get_delete_eq|]).
    + rewrite jm_get_set_eq. by rewrite jm_get_set_ne.
    + rewrite jm_get_set_ne by done. by rewrite jm_get_set_eq.
Qed.

(** Polling an open limit order fills it exactly when the market price
    crosses its limit, at its limit price and in full, and only then changes the
    account. *)
Theorem polled_limit_order_exact (config : SimulatedVenueConfig) (id : string) (o : InternalOrder)
    (s : SimState) (f f' : F) (price mark : string) (limitPrice markPrice size feePct : dec)
    (Ho : jm_get id (sv_orders s) = Some o) (Hopen : io_open o = true) (Hprice : pp_price (io_params o) = Some price)
    (Hmark : pf_getPrice (pp_asset (io_params o)) f = (Ret mark, f'))
    (Hm : dec_of_string mark = Ret markPrice) (Hl : dec_of_string price = Ret limitPrice)
    (Hs : dec_of_string (pp_size (io_params o)) = Ret size) (Hf : dec_of_string (sc_makerFeePct config) = Ret feePct) :
  if crosses (pp_side (io_params o)) markPrice limitPrice then
    exists r s', getOrder config id (s, f) = (Ret (Some r), (s', f')) /\
      pr_status r = vo_filled /\ pr_filledSize r = pp_size (io_params o) /\
      pr_averageFillPrice r = Some (d_toFixedN 8 limitPrice) /\
      account s' = account (apply_fill s (MkFill (io_params o) limitPrice size
        (d_times (d_times limitPrice size) feePct))) /\
      exists o', jm_get id (sv_orders s') = Some o' /\ io_open o' = false /\ io_result o' = r
  else getOrder config id (s, f) = (Ret (Some (io_result o)), (s, f')).
Proof.
  assert (Hg : getOrder config id (s, f) = (_ ← tryFillLimitOrder config id o; after ← read_sim (fun s => jm_get id (sv_orders s));
    mret (io_result <$> after)) (s, f)).
  { unfold getOrder. erewrite eff_bind_ret by done. cbn [fst]. rewrite Ho. unfold has_price. by rewrite Hopen, Hprice. }
  assert (Hb : tryFillLimitOrder config id o (s, f) =
    if crosses (pp_side (io_params o)) markPrice limitPrice then
      (_ ← modify_sim (applyFill (io_params o) limitPrice size (d_times (d_times limitPrice size) feePct));
       modify_sim (set_order id (MkInternalOrder (io_params o)
         (limit_fill_result (io_result o) (pp_size (io_params o)) limitPrice (d_times (d_times limitPrice size) feePct)) false))) (s, f')
    else (Ret tt, (s, f'))).
  { unfold tryFillLimitOrder. rewrite Hprice. erewrite eff_bind_ret.
    2: { unfold try_price, catch_eff. erewrite eff_bind_ret; [done|]. unfold on_feed. cbn. by rewrite Hmark. }
    unfold parse_, lift_exn, mbind, eff_bind. rewrite Hm, Hl. destruct (crosses _ _ _); [|done]. cbn. by rewrite Hs, Hf. }
  rewrite Hg. destruct (crosses _ _ _).
  - eexists _, _. erewrite eff_bind_ret by (rewrite Hb; reflexivity). erewrite eff_bind_ret by reflexivity. cbn [fst snd sv_orders set_order].
    rewrite jm_get_set_eq. split_and!; [reflexivity|done..|]. eexists. split_and!; [apply jm_get_set_eq|done..].
  - erewrite eff_bind_ret by exact Hb. erewrite eff_bind_ret by reflexivity. cbn [fst]. by rewrite Ho.
Qed.
End SimProperties.

(** ** Witnesses *)

Definition sim_config : SimulatedVenueConfig :=
  MkSimConfig "sim" dex "0.001" "0.002" "0.0005" [("USDC", "100000")] (Some [("BTC", "100")]) None.
Definition sim_feed : StaticPriceFeed + StaticPriceFeed := inl (MkStaticPriceFeed [("BTC", "100")] []).
Definition sim_start (connected : bool) : SimState (DL := exact_decimal) * (StaticPriceFeed + StaticPriceFeed) :=
  (set_balances (DL := exact_decimal) [("USDC", DFin 100000)] (set_connected connected empty_sim), sim_feed).
Definition sim_order (id : string) (side : OrderSide) (t : OrderType) (size : string) (price : option string) (ro : bool)
    : PlaceOrderParams := MkPlaceOrderParams id "BTC" side t size price ro false None.

Lemma sim_start_wf c : sim_wf sim_config (sim_start c).1.
Proof. apply (empty_wf (DL := exact_decimal) sim_config [("USDC", DFin 100000)] c). apply NoDup_singleton. Qed.

(** A stored fill of the order [c], replayed as the venue order [v]. *)
Definition sim_replay (v c : string) : ReplayFillParams := MkReplayFill v c "BTC" buy "1" "100" "0.1" false 5 None.
Definition sim_calls : list sim_op :=
  [SConnect; SPlace 0 (sim_order "a" buy market "1" None false); SPlace 1 (sim_order "b" sell limit "1" (Some "120") false);
   SCancel "sim-sim-2"; SReplay (sim_replay "sim-sim-7" "a"); SReplay (sim_replay "sim-sim-7" "a"); SGetOrder "sim-sim-2"].

Lemma venue_state_invariant_witness :
  let final := (foldl (run_sim sim_config) (sim_start false) sim_calls).1 in
  sim_sound final /\ ~ sim_wf sim_config final /\ sim_wf sim_config (foldl (run_sim sim_config) (sim_start false) (take 4 sim_calls)).1.
Proof.
  cbv zeta. split_and!.
  - by apply (venue_state_invariant (F := StaticPriceFeed) sim_config None sim_calls).
  - intros Hw. assert (H : exists o, jm_get "sim-sim-1" (sv_orders (foldl (run_sim sim_config) (sim_start false) sim_calls).1) = Some o /\
      pp_clientOrderId (io_params o) = "a") by (vm_compute; eexists; split; reflexivity).
    destruct H as (o & Ho & Ec). pose proof (wf_indexed sim_config _ Hw _ _ Ho) as H. rewrite Ec in H. vm_compute in H. discriminate H.
  - destruct (venue_state_invariant (F := StaticPriceFeed) sim_config None (take 4 sim_calls) (sim_start false)) as (_ & H & Hok);
      [reflexivity|]. apply H, Hok; [repeat constructor|vm_compute; reflexivity].
Defined.

(** A restored venue that replayed one fill twice: two replayed fills, and a
    placement fills the other order once. *)
Lemma client_order_fills_once_witness :
  let ops := [SReplay (sim_replay "sim-sim-7" "a"); SReplay (sim_replay "sim-sim-7" "a"); SConnect;
    SPlace 0 (sim_order "a" buy market "1" None false); SPlace 0 (sim_order "b" buy market "1" None false);
    SPlace 1 (sim_order "b" buy market "1" None false)] in
  (exists L : list (sim_op * Fill), account (foldl (run_sim sim_config) (sim_start false) ops).1
    = account (foldl apply_fill (sim_start false).1 L.*2) /\ NoDup (fill_client <$> placed_fills L)) /\
  exists L : list (sim_op * Fill), account (foldl (run_sim sim_config) (sim_start false) (drop 2 ops)).1
    = account (foldl apply_fill (sim_start false).1 L.*2) /\ NoDup (fill_client <$> L.*2).
Proof.
  cbv zeta. split.
  - destruct (client_order_fills_once (F := StaticPriceFeed) sim_config None
      [SReplay (sim_replay "sim-sim-7" "a"); SReplay (sim_replay "sim-sim-7" "a"); SConnect;
       SPlace 0 (sim_order "a" buy market "1" None false); SPlace 0 (sim_order "b" buy market "1" None false);
       SPlace 1 (sim_order "b" buy market "1" None false)] (sim_start false)) as (L & H1 & _ & H2 & _).
    + left. reflexivity.
    + repeat constructor; discriminate.
    + exists L. split; [exact H1|exact H2].
  - destruct (client_order_fills_once (F := StaticPriceFeed) sim_config None
      [SConnect; SPlace 0 (sim_order "a" buy market "1" None false); SPlace 0 (sim_order "b" buy market "1" None false);
       SPlace 1 (sim_order "b" buy market "1" None false)] (sim_start false)) as (L & H1 & _ & _ & _ & _ & H2).
    + left. reflexivity.
    + repeat constructor; discriminate.
    + destruct H2 as [H2 _]; [repeat (split; [vm_compute; done|]); exact I|]. exists L. split; [exact H1|exact H2].
Defined.

(** The value a computation returned. *)
Definition ret_or {A} (d : A) (m : exn A) : A := match m with Ret a => a | Throw _ => d end.
Lemma ret_of {A S T} (d : A) (m : exn A * (S * T)) : is_ret m.1 = true -> m = (Ret (ret_or d m.1), (m.2.1, m.2.2)).
Proof. destruct m as [[a|e] [s t]]; done. Qed.

Definition sim_sf1 : SimState (DL := exact_decimal) * (StaticPriceFeed + StaticPriceFeed) :=
  (placeOrder sim_config 0 (sim_order "a" buy market "1" None false) (sim_start true)).2.
Definition sim_r1 : PlaceOrderResult :=
  ret_or (sample_result vo_rejected) (placeOrder sim_config 0 (sim_order "a" buy market "1" None false) (sim_start true)).1.

Lemma sim_placed : placeOrder sim_config 0 (sim_order "a" buy market "1" None false) (sim_start true) = (Ret sim_r1, sim_sf1).
Proof. reflexivity. Qed.

Lemma placement_idempotent_witness :
  exists r', placeOrder sim_config 9 (sim_order "a" buy market "1" None false)
      (foldl (run_sim sim_config) sim_sf1 [SDisconnect]) = (Ret r', foldl (run_sim sim_config) sim_sf1 [SDisconnect]) /\
    pr_venueOrderId r' = pr_venueOrderId sim_r1 /\ (pr_status sim_r1 = vo_filled -> pr_status r' = vo_filled).
Proof.
  apply (placement_idempotent sim_config 0 9 (sim_order "a" buy market "1" None false)
    (sim_order "a" buy market "1" None false) [SDisconnect] (sim_start true) sim_sf1 sim_r1).
  - apply sim_start_wf.
  - reflexivity.
  - exact sim_placed.
  - repeat split.
  - repeat constructor; discriminate.
  - reflexivity.
Defined.

Lemma refused_placement_changes_nothing_witness :
  cached_result "a" (sim_start false).1 = None /\ same_book (sim_start false).1 (sim_start false).1 /\
  sv_connected (sim_start false).1 = sv_connected (sim_start false).1 /\
  (sv_connected (sim_start false).1 = false -> (sim_start false).1 = (sim_start false).1).
Proof.
  apply (refused_placement_changes_nothing sim_config 0 (sim_order "a" buy market "1" None false) _ _ sim_feed sim_feed
    (Error_ "SimulatedVenueAdapter: not connected")). reflexivity.
Defined.

(** A long position of one coin, then a reduce-only buy of one more. *)
Definition sim_reduce : PlaceOrderParams := sim_order "b" buy market "1" None true.
Definition sim_r2 : PlaceOrderResult :=
  ret_or (sample_result vo_rejected) (placeOrder sim_config 1 sim_reduce sim_sf1).1.
Definition sim_pos1 : InternalPosition (DL := exact_decimal) :=
  or_else (jm_get "BTC" (sv_positions sim_sf1.1)) (MkInternalPosition (DL := exact_decimal) "" long (DFin 0) (DFin 0) (DFin 0)).

Lemma reduce_only_not_enforced_witness :
  pr_status sim_r2 = vo_filled /\ pr_filledSize sim_r2 = "1" /\
  exists pos', jm_get "BTC" (sv_positions (placeOrder sim_config 1 sim_reduce sim_sf1).2.1) = Some pos' /\
    ip_side pos' = long /\ ip_size pos' = d_plus (DecimalLib := exact_decimal) (ip_size sim_pos1) (DFin 1).
Proof.
  destruct (reduce_only_not_enforced (DL := exact_decimal) sim_config 1 sim_reduce sim_sf1.1 (placeOrder sim_config 1 sim_reduce sim_sf1).2.1
    sim_sf1.2 (placeOrder sim_config 1 sim_reduce sim_sf1).2.2 sim_r2 sim_pos1 (DFin 1)) as (H1 & H2 & H3 & _).
  - apply (ret_of (sample_result vo_rejected)). vm_compute. reflexivity.
  - reflexivity.
  - reflexivity.
  - reflexivity.
  - discriminate.
  - reflexivity.
  - reflexivity.
  - split; [exact H1|]. split; [exact H2|]. apply H3. reflexivity.
Defined.

(** An open order to buy one coin at 120, with the market at 100. *)
Definition sim_sf2 : SimState (DL := exact_decimal) * (StaticPriceFeed + StaticPriceFeed) :=
  (placeOrder sim_config 0 (sim_order "l" buy limit "1" (Some "120") false) (sim_start true)).2.
Definition sim_open : InternalOrder :=
  MkInternalOrder (sim_order "l" buy limit "1" (Some "120") false)
    (open_result sim_config (sim_order "l" buy limit "1" (Some "120") false) "sim-sim-1" 0) true.

Lemma polled_limit_order_exact_witness :
  exists r s', getOrder sim_config "sim-sim-1" (sim_sf2.1, sim_feed) = (Ret (Some r), (s', sim_feed)) /\
    pr_status r = vo_filled /\ pr_filledSize r = "1".
Proof.
  destruct (polled_limit_order_exact (DL := exact_decimal) sim_config "sim-sim-1" sim_open sim_sf2.1 sim_feed sim_feed "120" "100"
    (DFin 120) (DFin 100) (DFin 1) (DFin (1 # 1000))) as (r & s' & H1 & H2 & H3 & _).
  - reflexivity.
  - reflexivity.
  - reflexivity.
  - reflexivity.
  - reflexivity.
  - reflexivity.
  - reflexivity.
  - reflexivity.
  - exists r, s'. split; [exact H1|]. split; [exact H2|exact H3].
Defined.
