(* ===== verification/SimBook.v ===== *)
(** * The position book of the simulated venue refines signed quantities

    The abstract side of [SimVenue]: an account as a signed quantity per asset
    (its net position, and what it holds), the effect of a fill on it, and the
    refinement of the abstract book by [_applyFill] and [_updatePosition]. *)
From Stdlib Require Import SpecFloat Ascii.
From S2P Require Import Prelude JsNumber JsValue DecimalLib DecimalExact Money Domain OrderStore Executor SimVenue.
Open Scope Z_scope.

(** ** The position book refines signed quantities

    Abstractly an account has a signed quantity per asset: its net position and
    what it holds, in units of [10^-8].  Fills of positive exact sizes move the
    concrete positions and balances as they move these integers. *)

(** A quantity per asset. *)
Definition quantities := string -> Z.
Definition fill_delta (side : OrderSide) (q : Z) : Z := match side with buy => q | sell => - q end.

(** The net position after a fill of [d]: a reduce-only fill against the
    position stops at zero, and opens none. *)
Definition net_after (net d : Z) (reduceOnly : bool) : Z :=
  if negb reduceOnly then net + d
  else if 0 <? net then (if d <? 0 then Z.max 0 (net + d) else net + d)
  else if net <? 0 then (if 0 <? d then Z.min 0 (net + d) else net + d)
  else 0.

(** The side of a signed quantity. *)
Definition side_of (z : Z) : PositionSide := if 0 <? z then long else short.

Definition set_quantity (b : quantities) (a : string) (z : Z) : quantities :=
  fun a' => if decide (a' = a) then z else b a'.

(** Three ways a fill meets a position: on its side, against it within its
    size, and beyond it. *)
Ltac cmp_solve :=
  repeat match goal with
  | |- context [?x <? ?y] => destruct (Z.ltb_spec x y)
  | H : context [?x <? ?y] |- _ => destruct (Z.ltb_spec x y)
  end; try done; split_and?; try done; lia.
Lemma net_same z d ro : z <> 0 -> d <> 0 -> side_of z = side_of d ->
  net_after z d ro = z + d /\ Z.abs (z + d) = Z.abs z + Z.abs d /\ z + d <> 0 /\ side_of (z + d) = side_of z.
Proof. unfold side_of, net_after. intros. destruct ro; cbn [negb]; cmp_solve. Qed.
Lemma net_within z d ro : side_of z <> side_of d -> d <> 0 -> Z.abs d <= Z.abs z ->
  net_after z d ro = z + d /\ Z.abs (z + d) = Z.abs z - Z.abs d /\ (z + d <> 0 -> side_of (z + d) = side_of z).
Proof. unfold side_of, net_after. intros. destruct ro; cbn [negb]; cmp_solve. Qed.
Lemma net_beyond z d : side_of z <> side_of d -> Z.abs z < Z.abs d ->
  net_after z d true = 0 /\ net_after z d false = z + d /\ z + d <> 0 /\
  Z.abs (z + d) = Z.abs d - Z.abs z /\ side_of (z + d) = side_of d.
Proof. unfold side_of, net_after. intros. cbn [negb]. cmp_solve. Qed.
Lemma net_after_bound z d ro : Z.abs (net_after z d ro) <= Z.abs z + Z.abs d.
Proof. unfold net_after. destruct ro; cbn [negb]; cmp_solve. Qed.

Section Book.
Context `{DL : DecimalLib} `{LW : !DecimalLaws}.

Definition book_step (b : quantities) (fq : Fill * Z) : quantities :=
  let p := fl_params fq.1 in
  set_quantity b (pp_asset p) (net_after (b (pp_asset p)) (fill_delta (pp_side p) fq.2) (pp_reduceOnly p)).
Definition held_step (h : quantities) (fq : Fill * Z) : quantities :=
  let p := fl_params fq.1 in set_quantity h (pp_asset p) (h (pp_asset p) + fill_delta (pp_side p) fq.2).

(** The positions are those of the book. *)
Definition has_book (b : quantities) (s : SimState) : Prop := forall a,
  match jm_get a (sv_positions s) with
  | None => b a = 0
  | Some p => b a <> 0 /\ ip_side p = side_of (b a) /\ scaled 8 (ip_size p) (Z.abs (b a))
  end.

(** The balances of the assets other than the quote currency. *)
Definition holds (h : quantities) (s : SimState) : Prop := forall a, a <> "USDC" ->
  scaled 8 (or_else (jm_get a (sv_balances s)) (dec_of_Z 0)) (h a).

Lemma book_ext b s t : sv_positions s = sv_positions t -> has_book b s -> has_book b t.
Proof. intros E H a. specialize (H a). by rewrite <- E. Qed.

(** A book whose entry for [a] changed. *)
Lemma book_set b s a z p :
  has_book b s -> z <> 0 -> ip_side p = side_of z -> scaled 8 (ip_size p) (Z.abs z) ->
  has_book (set_quantity b a z) (set_positions (jm_set a p (sv_positions s)) s).
Proof.
  intros H Hz Hp Hs a'. unfold set_quantity. cbn. rewrite jm_get_set. specialize (H a'). by case_decide.
Qed.

Lemma book_delete b s a : has_book b s -> has_book (set_quantity b a 0) (set_positions (jm_delete a (sv_positions s)) s).
Proof.
  intros H a'. unfold set_quantity. cbn. specialize (H a'). case_decide as E.
  - subst. by rewrite jm_get_delete_eq.
  - by rewrite jm_get_delete_ne.
Qed.

Lemma book_same b s a : has_book b s -> has_book (set_quantity b a (b a)) s.
Proof. intros H a'. specialize (H a'). unfold set_quantity. case_decide; by subst. Qed.

(** One fill moves the position of its asset as the book says. *)
Lemma position_refines b s a d size price ro :
  has_book b s -> scaled 8 size (Z.abs d) -> d <> 0 -> Z.abs (b a) + Z.abs d < 10 ^ 20 ->
  has_book (set_quantity b a (net_after (b a) d ro)) (updatePosition a (side_of d) size price ro s).
Proof.
  intros H Hs Hd Hb. pose proof (H a) as Ha. unfold updatePosition.
  destruct (jm_get a (sv_positions s)) as [p|] eqn:E.
  2: { destruct ro; unfold net_after; cbn [negb]; rewrite Ha; cbn.
       - rewrite <- Ha. by apply book_same.
       - by apply book_set. }
  destruct Ha as (Hn & Hside & Hsize). rewrite Hside. case_bool_decide as Hsame.
  { destruct (net_same (b a) d ro) as (-> & Ez & Hz & Hsd); [done..|].
    apply book_set; [done|done|by rewrite Hsd|]. cbn. rewrite Ez. apply scaled_plus; [lia|done|done|lia]. }
  rewrite (scaled_lte 8 _ _ _ _ Hs Hsize). destruct (Z.leb_spec (Z.abs d) (Z.abs (b a))) as [Hle|Hlt].
  - destruct (net_within (b a) d ro) as (-> & Ez & Hsd); [done..|].
    assert (Hl : scaled 8 (d_minus (ip_size p) size) (Z.abs (b a + d))).
    { rewrite Ez. apply scaled_minus; [lia|done|done|lia]. }
    rewrite (scaled_isZero 8 _ _ Hl). destruct (Z.eqb_spec (Z.abs (b a + d)) 0).
    + replace (b a + d) with 0 by lia. by apply book_delete.
    + apply book_set; [done|lia| |done]. cbn. rewrite Hsd; [done|lia].
  - destruct (net_beyond (b a) d) as (E1 & E2 & Hz & Ez & Hsd); [done..|]. destruct ro; cbn [negb].
    + rewrite E1. by apply book_delete.
    + rewrite E2. apply book_set; [done|done|by rewrite Hsd|]. cbn. rewrite Ez. apply scaled_minus; [lia|done|done|lia].
Qed.

(** Changing two balances changes the holdings of the assets other than the
    quote currency as it should. *)
Lemma holds_adjust h s a d z : holds h s -> (a <> "USDC" -> scaled 8 d z /\ Z.abs (h a + z) < 10 ^ 20) ->
  holds (set_quantity h a (h a + z)) (adjustBalance a d s).
Proof.
  intros H Hd a' Ha'. unfold set_quantity. cbn. rewrite jm_get_set. case_decide as E; [|by apply H].
  subst. destruct (Hd Ha') as [Hs Hb]. cbn. apply scaled_plus; [lia|by apply H|done|done].
Qed.

Lemma holds_quote h s d : holds h s -> holds h (adjustBalance "USDC" d s).
Proof. intros H a Ha. cbn. rewrite jm_get_set_ne by done. by apply H. Qed.

Lemma fill_delta_abs side q : 0 < q -> Z.abs (fill_delta side q) = q /\ fill_delta side q <> 0.
Proof. destruct side; cbn; lia. Qed.

Lemma fill_refines b h s f q :
  has_book b s -> holds h s -> scaled 8 (fl_size f) q -> 0 < q ->
  (forall a, Z.abs (b a) + q < 10 ^ 20 /\ Z.abs (h a) + q < 10 ^ 20) ->
  has_book (book_step b (f, q)) (apply_fill s f) /\ holds (held_step h (f, q)) (apply_fill s f).
Proof.
  intros Hb Hh Hs Hq Hlim. destruct (fill_delta_abs (pp_side (fl_params f)) q Hq) as [Eq Hne].
  set (a := pp_asset (fl_params f)). destruct (Hlim a) as [L1 L2].
  unfold apply_fill, applyFill, book_step, held_step. cbn [fst snd]. fold a. change (resolveQuoteAsset a) with "USDC".
  destruct (pp_side (fl_params f)) eqn:Eside; cbn [fill_delta] in *.
  - split.
    + replace long with (side_of q) by (unfold side_of; by rewrite (proj2 (Z.ltb_lt _ _)) by lia).
      apply (position_refines b _ a q); [by eapply book_ext|by rewrite Eq|done|by rewrite Eq].
    + assert (Hx : forall s1, holds h s1 -> holds (set_quantity h a (h a + q)) (adjustBalance a (fl_size f) s1)).
      { intros s1 H1. apply holds_adjust; [done|]. intros _. split; [done|lia]. }
      destruct (position_frame a long (fl_size f) (fl_price f) (pp_reduceOnly (fl_params f))
        (adjustBalance a (fl_size f) (adjustBalance "USDC" (d_neg (d_plus (d_times (fl_price f) (fl_size f)) (fl_fee f))) s)))
        as (p & -> & _). apply Hx. by apply holds_quote.
  - split.
    + replace short with (side_of (- q)) by (unfold side_of; by rewrite (proj2 (Z.ltb_ge _ _)) by lia).
      apply (position_refines b _ a (- q)); [by eapply book_ext|by rewrite Eq|done|by rewrite Eq].
    + destruct (position_frame a short (fl_size f) (fl_price f) (pp_reduceOnly (fl_params f))
        (adjustBalance "USDC" (d_minus (d_times (fl_price f) (fl_size f)) (fl_fee f)) (adjustBalance a (d_neg (fl_size f)) s)))
        as (p & -> & _). apply holds_quote, holds_adjust; [done|]. intros _. split; [by apply scaled_neg|lia].
Qed.

(** Without reduce-only fills the position moves as the balance does. *)
Lemma book_moves_held b h f q : pp_reduceOnly (fl_params f) = false -> forall a,
  book_step b (f, q) a - b a = held_step h (f, q) a - h a.
Proof.
  intros Hr a. unfold book_step, held_step, set_quantity, net_after. cbn [fst snd]. rewrite Hr. cbn [negb].
  case_decide; [subst|]; lia.
Qed.
End Book.

Section Refinement.
Context `{DL : DecimalLib} `{LW : !DecimalLaws}.

(** The position book refines signed quantities: as long as the sizes are
    positive multiples of [10^-8] and their sum stays below the precision, any
    sequence of fills leaves for every asset exactly the position whose signed
    quantity the book computes, and every asset other than the quote currency
    is held in exactly the quantity bought less the quantity sold; without
    reduce-only fills positions and holdings move together. *)
Theorem position_book_refined (L : list (Fill * Z)) (s : SimState) (b h : quantities)
    (Hb : has_book b s) (Hh : holds h s) (Hs : Forall (fun fq => scaled 8 (fl_size fq.1) fq.2 /\ 0 < fq.2) L)
    (Hlim : forall a, Z.abs (b a) + zsum L.*2 < 10 ^ 20 /\ Z.abs (h a) + zsum L.*2 < 10 ^ 20) :
  has_book (foldl book_step b L) (foldl apply_fill s L.*1) /\
  holds (foldl held_step h L) (foldl apply_fill s L.*1) /\
  (Forall (fun fq => pp_reduceOnly (fl_params fq.1) = false) L ->
   forall a, foldl book_step b L a - b a = foldl held_step h L a - h a).
Proof.
  revert s b h Hb Hh Hlim. induction Hs as [|[f q] L [Hf Hq] HL IH]; intros s b h Hb Hh Hlim.
  { split_and!; [done|done|]. intros _ a. cbn. lia. }
  cbn [fmap list_fmap fst snd] in *. assert (H0 : 0 <= zsum L.*2).
  { apply zsum_nonneg, Forall_fmap. eapply Forall_impl; [exact HL|]. intros x [_ Hx]. cbn. lia. }
  destruct (fill_refines b h s f q Hb Hh Hf Hq) as [Hb' Hh'].
  { intros a. destruct (Hlim a) as [L1 L2]. rewrite zsum_cons in *. lia. }
  destruct (IH (apply_fill s f) (book_step b (f, q)) (held_step h (f, q)) Hb' Hh') as (I1 & I2 & I3).
  { intros a. destruct (Hlim a) as [L1 L2]. rewrite zsum_cons in *.
    assert (Z.abs (held_step h (f, q) a) <= Z.abs (h a) + q).
    { unfold held_step, set_quantity. cbn. case_decide; [subst; destruct (pp_side (fl_params f)); cbn|]; lia. }
    assert (Z.abs (book_step b (f, q) a) <= Z.abs (b a) + q); [|lia].
    unfold book_step, set_quantity. cbn [fst snd]. case_decide; [|lia]. subst.
    pose proof (net_after_bound (b (pp_asset (fl_params f))) (fill_delta (pp_side (fl_params f)) q) (pp_reduceOnly (fl_params f))).
    destruct (fill_delta_abs (pp_side (fl_params f)) q Hq). lia. }
  split_and!; [done|done|]. intros [Hr HR]%Forall_cons a. cbn [foldl].
  pose proof (I3 HR a). pose proof (book_moves_held b h f q Hr a). lia.
Qed.
End Refinement.

(** ** Witness *)

(** Buying two coins, then selling five with a reduce-only order. *)
Definition sim_fills : list (Fill (DL := exact_decimal) * Z) :=
  [(MkFill (DL := exact_decimal) (sim_order "a" buy market "2" None false) (DFin 100) (DFin 2) (DFin 0), 2 * 10 ^ 8);
   (MkFill (DL := exact_decimal) (sim_order "b" sell market "5" None true) (DFin 100) (DFin 5) (DFin 0), 5 * 10 ^ 8)].

Lemma position_book_refined_witness :
  has_book (foldl book_step (fun _ => 0) sim_fills) (foldl apply_fill (sim_start true).1 sim_fills.*1) /\
  foldl book_step (fun _ => 0) sim_fills "BTC" = 0 /\ foldl held_step (fun _ => 0) sim_fills "BTC" = -3 * 10 ^ 8.
Proof.
  destruct (position_book_refined sim_fills (sim_start true).1 (fun _ => 0) (fun _ => 0)) as (H1 & _ & _).
  - intros a. reflexivity.
  - intros a Ha. assert (E : jm_get a (sv_balances (sim_start true).1) = None) by (cbn; by rewrite decide_False).
    rewrite E. apply scaled_zero.
  - repeat constructor.
  - intros a. split; reflexivity.
  - split; [exact H1|]. split; reflexivity.
Defined.
