(* ===== verification/SimExecution.v ===== *)
(** * The executor over the simulated venue

    Composition of [Executor] and [SimVenue]: the simulated adapter as the
    executor's venue ([sim_env], over a host that supplies the clock, ids, waits
    and the audit trail).  Every executor call drives the adapter through a
    sequence of its own calls ([drives]), so what holds of the adapter's runs
    holds end to end, whatever the order store and the audit trail do. *)
From Stdlib Require Import SpecFloat Ascii.
From S2P Require Import Prelude JsNumber JsValue DecimalLib DecimalExact Domain MarketIdentity OrderStore Executor SimVenue.
Open Scope Z_scope.

(** What the executor takes from its host. *)
Record Host (H : Type) := MkHost {
  ho_now : H -> Z * H;
  ho_createId : H -> string * H;
  ho_sleep : Z -> H -> H;
  ho_audit : AuditEvent -> eff H unit;
}.
Arguments ho_now {H}.
Arguments ho_createId {H}.
Arguments ho_sleep {H}.
Arguments ho_audit {H}.
Arguments MkHost {H}.

Section Env.
Context `{DL : DecimalLib} {F H : Type} `{PF : PriceFeed F} (config : SimulatedVenueConfig) (host : Host H).
Abbreviation World := ((SimState * F) * H)%type.

Definition at_venue {A} (m : Z -> eff (SimState * F) A) : eff World A := fun w =>
  let '(t, h) := ho_now host w.2 in let '(r, sf) := m t w.1 in (r, (sf, h)).

(** The adapter reads the clock where it builds a date. *)
#[export] Instance sim_env : ExecutionEnv World := {|
  env_venueId := sc_venueId config;
  env_placeOrder := fun p => at_venue (fun t => placeOrder config t p);
  env_cancelOrder := fun id w => let '(r, sf) := SimVenue.cancelOrder id w.1 in (r, (sf, w.2));
  env_getOrder := fun id w => let '(r, sf) := getOrder config id w.1 in (r, (sf, w.2));
  env_getPositions := at_venue (getPositions config);
  env_audit := fun ev w => let '(r, h) := ho_audit host ev w.2 in (r, (w.1, h));
  env_now := fun w => let '(t, h) := ho_now host w.2 in (t, (w.1, h));
  env_createId := fun w => let '(i, h) := ho_createId host w.2 in (i, (w.1, h));
  env_sleep := fun ms w => (w.1, ho_sleep host ms w.2);
|}.
End Env.

(** ** Executor calls are runs of the adapter *)

Section Drives.
Context `{DL : DecimalLib} {F H S : Type} `{PF : PriceFeed F} `{OS : OrderStore S}.
Context (config : SimulatedVenueConfig) (host : Host H).
Abbreviation St := (S * ((SimState * F) * H))%type.
#[local] Instance the_env : ExecutionEnv ((SimState * F) * H) := sim_env config host.

(** The calls an executor makes of the adapter. *)
Definition executor_op (op : sim_op) : Prop :=
  match op with SPlace _ _ | SCancel _ | SGetOrder _ => True | _ => False end.

(** [m] makes at most [n] calls of the adapter that change its state. *)
Definition drives {A} (n : nat) (m : eff St A) : Prop := forall sw, exists ops,
  (m sw).2.2.1 = foldl (run_sim config) sw.2.1 ops /\ Forall executor_op ops /\ (length ops <= n)%nat.

Lemma drives_quiet {A} n (m : eff St A) : (forall sw, (m sw).2.2.1 = sw.2.1) -> drives n m.
Proof. intros Hm sw. exists []. split_and!; [by rewrite Hm|constructor|cbn; lia]. Qed.

Lemma drives_op {A} (m : eff St A) : (forall sw, exists op, executor_op op /\ (m sw).2.2.1 = run_sim config sw.2.1 op) ->
  drives 1 m.
Proof. intros Hm sw. destruct (Hm sw) as (op & Ho & E). exists [op]. split_and!; [done|by constructor|done]. Qed.

Lemma drives_bind {A B} n1 n2 (m : eff St A) (f : A -> eff St B) :
  drives n1 m -> (forall a, drives n2 (f a)) -> drives (n1 + n2) (m ≫= f).
Proof.
  intros Hm Hf sw. destruct (Hm sw) as (ops1 & E1 & F1 & L1). unfold mbind, eff_bind.
  destruct (m sw) as [[a|e] sw1]; cbn in E1.
  - destruct (Hf a sw1) as (ops2 & E2 & F2 & L2). exists (ops1 ++ ops2).
    split_and!; [by rewrite E2, E1, foldl_app|by apply Forall_app|rewrite length_app; lia].
  - exists ops1. split_and!; [done|done|lia].
Qed.

Lemma drives_bind0 {A B} n (m : eff St A) (f : A -> eff St B) :
  drives 0 m -> (forall a, drives n (f a)) -> drives n (m ≫= f).
Proof. apply (drives_bind 0). Qed.

Lemma drives_weaken {A} n n' (m : eff St A) : (n <= n')%nat -> drives n m -> drives n' m.
Proof. intros Hn Hm sw. destruct (Hm sw) as (ops & ? & ? & ?). exists ops. split_and!; [done|done|lia]. Qed.

Lemma drives_ret {A} n (a : A) : drives n (mret a).
Proof. by apply drives_quiet. Qed.

Lemma drives_throw {A} n e : drives n (throw_eff (A := A) e).
Proof. by apply drives_quiet. Qed.

Lemma drives_store {A} n (m : eff S A) : drives n (on_store m).
Proof. apply drives_quiet. intros [s w]. unfold on_store. cbn. by destruct (m s). Qed.

Lemma drives_now n : drives n now_.
Proof. apply drives_quiet. intros [s [sf h]]. unfold now_, pure_world. cbn. by destruct (ho_now host h). Qed.

Lemma drives_id n : drives n createId.
Proof. apply drives_quiet. intros [s [sf h]]. unfold createId, pure_world. cbn. by destruct (ho_createId host h). Qed.

Lemma drives_sleep n ms : drives n (sleep ms).
Proof. by apply drives_quiet. Qed.

Lemma drives_env_audit n ev : drives n (on_world (env_audit ev)).
Proof. apply drives_quiet. intros [s [sf h]]. unfold on_world. cbn. by destruct (ho_audit host ev h). Qed.

Lemma drives_place p : drives 1 (on_world (env_placeOrder p)).
Proof.
  apply drives_op. intros [s [sf h]]. unfold on_world. cbn. unfold at_venue. cbn.
  destruct (ho_now host h) as [t h']. exists (SPlace t p). split; [done|]. cbn. by destruct (placeOrder config t p sf).
Qed.

Lemma drives_cancel id : drives 1 (on_world (env_cancelOrder id)).
Proof.
  apply drives_op. intros [s [sf h]]. unfold on_world. cbn. exists (SCancel id). split; [done|]. cbn.
  by destruct (SimVenue.cancelOrder id sf).
Qed.

Lemma drives_getOrder id : drives 1 (on_world (env_getOrder id)).
Proof.
  apply drives_op. intros [s [sf h]]. unfold on_world. cbn. exists (SGetOrder id). split; [done|]. cbn.
  by destruct (getOrder config id sf).
Qed.

#[local] Hint Resolve drives_ret drives_throw drives_store drives_now drives_id drives_sleep drives_env_audit : core.

(** Binds of computations that do not call the adapter. *)
Ltac drive := repeat first [ solve [auto] | apply drives_bind0; [solve [auto]|intros ?] ].

Lemma drives_audit n t a d : drives n (audit t a d).
Proof. unfold audit. drive. Qed.

Lemma drives_get_or n id r : drives n (get_or id r).
Proof. unfold get_or. drive. Qed.

Lemma drives_completion n st : drives n (completion_time st).
Proof. unfold completion_time. destruct (is_complete st); drive. Qed.

#[local] Hint Resolve drives_audit drives_get_or drives_completion : core.

Lemma drives_attempt intent record identity startMs attempt :
  drives 1 (submit_attempt intent record identity startMs attempt).
Proof.
  unfold submit_attempt. do 2 (apply drives_bind0; [auto|intros ?]).
  apply (drives_bind 1 0); [apply drives_place|]. intros result. drive.
Qed.

Lemma drives_failure n xc intent e attempt : drives n (after_failure xc intent e attempt).
Proof. unfold after_failure. do 2 (apply drives_bind0; [auto|intros ?]). destruct (_ <=? _); auto. Qed.

Lemma drives_loop xc intent record identity startMs n : forall attempt,
  drives n (submit_loop n xc intent record identity startMs attempt).
Proof.
  induction n as [|n IH]; intros attempt; cbn [submit_loop]; [auto|]. intros sw.
  destruct (drives_attempt intent record identity startMs attempt sw) as (ops1 & E1 & F1 & L1).
  destruct (submit_attempt intent record identity startMs attempt sw) as [[r|e] sw1]; cbn in E1.
  - exists ops1. split_and!; [done|done|lia].
  - destruct (drives_bind0 n _ _ (drives_failure 0 xc intent e attempt) (fun _ => IH (attempt + 1)) sw1)
      as (ops2 & E2 & F2 & L2).
    exists (ops1 ++ ops2). split_and!; [by rewrite E2, E1, foldl_app|by apply Forall_app|rewrite length_app; lia].
Qed.

Lemma drives_submit xc intent : drives (Z.to_nat (maxRetries xc + 1)) (submitIntent xc intent).
Proof.
  set (n := Z.to_nat (maxRetries xc + 1)).
  assert (Hr : forall record, drives n (submit_record xc intent record)).
  { intros record. unfold submit_record. do 2 (apply drives_bind0; [auto|intros ?]).
    apply (drives_weaken (n + 0)); [lia|]. apply drives_bind; [apply drives_loop|]. intros [r|]; auto. }
  unfold submitIntent. apply drives_bind0; [auto|]. intros [r|]; [|apply Hr]. destruct (resubmittable _); auto.
Qed.

Lemma drives_poll id : drives 1 (pollOrderStatus id).
Proof.
  unfold pollOrderStatus. apply drives_bind0; [auto|]. intros [r|]; [|auto].
  destruct (or_venueOrderId r); [|auto]. apply (drives_bind 1 0); [apply drives_getOrder|]. intros [v|]; drive.
Qed.

Lemma drives_xcancel id : drives 1 (Executor.cancelOrder id).
Proof.
  unfold Executor.cancelOrder. apply drives_bind0; [auto|]. intros [r|]; [|auto].
  destruct (or_venueOrderId r); [|drive]. apply (drives_bind 1 0); [apply drives_cancel|]. intros c.
  destruct (cr_cancelled c); drive.
  apply drives_bind0; [|auto]. drive.
Qed.

Lemma drives_fill id f : drives 0 (processFill id f).
Proof.
  unfold processFill. apply drives_bind0; [auto|]. intros [r|]; [|auto].
  destruct (ignores_fills _); [auto|]. destruct (has_fill _ _); [auto|].
  destruct (fills_complete _ _); drive. apply drives_bind0; [drive|]. intros ?. drive.
Qed.

(** The most calls of the adapter an executor call makes. *)
Definition xop_budget (op : xop) : nat :=
  match op with
  | XSubmit xc _ => Z.to_nat (maxRetries xc + 1)
  | XPoll _ | XCancel _ => 1
  | XFill _ _ => 0
  end.
Definition run_budget (xops : list xop) : nat := foldr (fun op n => (xop_budget op + n)%nat) 0%nat xops.

Lemma run_xop_drives sw op : exists ops,
  (run_xop sw op).2.1 = foldl (run_sim config) sw.2.1 ops /\ Forall executor_op ops /\ (length ops <= xop_budget op)%nat.
Proof.
  destruct op as [xc i|id|id|id f]; cbn [run_xop xop_budget].
  - apply drives_submit.
  - apply drives_poll.
  - apply drives_xcancel.
  - apply drives_fill.
Qed.

(** A sequence of executor calls is a run of the adapter. *)
Lemma run_xops_drives xops : forall sw, exists ops,
  (foldl run_xop sw xops).2.1 = foldl (run_sim config) sw.2.1 ops /\ Forall executor_op ops /\
  (length ops <= run_budget xops)%nat.
Proof.
  induction xops as [|op xops IH]; intros sw; [by exists []|]. cbn [foldl].
  destruct (run_xop_drives sw op) as (ops1 & E1 & F1 & L1). destruct (IH (run_xop sw op)) as (ops2 & E2 & F2 & L2).
  exists (ops1 ++ ops2). split_and!; [by rewrite E2, E1, foldl_app|by apply Forall_app|].
  rewrite length_app. cbn. fold (run_budget xops). lia.
Qed.

(** With numbers to spare, a run of such calls is one [SimVenue] considers. *)
Lemma executor_run_ok ops : forall sf : SimState * F, Forall executor_op ops -> sim_wf config sf.1 ->
  sv_orderCounter sf.1 + Z.of_nat (length ops) < 2 ^ 53 -> ok_run config sf ops /\ no_reset ops.
Proof.
  induction ops as [|op ops IH]; intros sf Hx Hw Hc; [split; [done|constructor]|].
  apply Forall_cons in Hx as [Ho Hx]. cbn [length] in Hc. rewrite Nat2Z.inj_succ in Hc.
  assert (Hok : op_ok sf.1 op) by (destruct op; try done; cbn; lia).
  assert (Hr : op <> SReset) by (by intros ->).
  destruct (run_sim_step config sf op Hok Hr) as [ev Hev].
  pose proof (step_counter config op _ _ _ Hev Hw ltac:(by destruct op)) as Hcnt.
  destruct (IH (run_sim config sf op) Hx) as [I1 I2]; [by eapply step_wf|lia|].
  split; [done|by constructor].
Qed.
End Drives.

(** ** Properties *)

Section Composition.
Context `{DL : DecimalLib} {F H S : Type} `{PF : PriceFeed F} `{OS : OrderStore S}.
Context (config : SimulatedVenueConfig) (host : Host H).
Abbreviation St := (S * ((SimState * F) * H))%type.
#[local] Existing Instance the_env.

(** C2. End to end every order id fills at most once: over any sequence of
    executor calls on a simulated venue, whatever the order store loses or
    refuses, however often the audit trail fails and a submission is retried,
    the venue's balances and positions move by fills with distinct client order
    ids, none of which was filled before, as long as fewer than 2^53 orders are
    numbered. *)
Theorem executor_fills_once (xops : list xop) (sw : St) (Hw : sim_wf config sw.2.1.1)
    (Hn : sv_orderCounter sw.2.1.1 + Z.of_nat (run_budget xops) < 2 ^ 53) :
  let final := (foldl (run_xop (EE := sim_env config host)) sw xops).2.1.1 in
  exists L, account final = account (foldl apply_fill sw.2.1.1 L) /\ NoDup (fill_client <$> L) /\
    forall c, c ∈ fill_client <$> L -> ~ filled_client c sw.2.1.1 /\ filled_client c final.
Proof.
  intros final. destruct (run_xops_drives config host xops sw) as (ops & E & Hx & Hl).
  destruct (executor_run_ok config ops sw.2.1 Hx Hw) as [Hok Hnr]; [lia|].
  destruct (run_sim_steps config ops sw.2.1 Hok Hnr) as [L HL].
  destruct (steps_fills config _ _ _ _ HL Hw) as (_ & Hd & Hf & _). pose proof (steps_account config _ _ _ _ _ HL) as Ha.
  exists (L.*2).
  assert (Ef : final = (foldl (run_sim config) sw.2.1 ops).1) by (unfold final; by rewrite <- E).
  by rewrite Ef.
Qed.
End Composition.

Section Poll.
Context {S W : Type} `{OS : OrderStore S} `{OL : !OrderStoreLaws S} (EE : ExecutionEnv W).

(** Polling loses the fill: when the venue reports a working order as
    filled, the executor marks the record filled but keeps its old filled size,
    average price and fees, whatever the venue reported. *)
Theorem poll_drops_fill_details (id venueOrderId : string) (s : S) (w w' : W) (r : OrderRecord) (v : PlaceOrderResult)
    (Hr : os_lookup id s = Some r) (Hst : or_status r = submitted \/ or_status r = partially_filled)
    (Hv : or_venueOrderId r = Some venueOrderId) (Hg : env_getOrder venueOrderId w = (Ret (Some v), w'))
    (Hf : pr_status v = vo_filled) :
  exists r' s' w2, pollOrderStatus id (s, w) = (Ret r', (s', w2)) /\ os_lookup id s' = Some r' /\
    or_status r' = filled /\ or_filledSize r' = or_filledSize r /\
    or_averageFillPrice r' = or_averageFillPrice r /\ or_feesPaid r' = or_feesPaid r.
Proof.
  unfold pollOrderStatus. erewrite eff_bind_ret by (unfold on_store; cbn; by rewrite os_get_spec). rewrite Hr, Hv.
  erewrite eff_bind_ret by (unfold on_world; cbn; by rewrite Hg). cbv beta iota zeta. rewrite Hf. cbn [poll_status].
  unfold completion_time. cbn [is_complete bool_decide]. destruct (env_now w') as [t w2] eqn:En.
  erewrite eff_bind_ret.
  2: { change (is_complete filled) with true. cbv beta iota. erewrite eff_bind_ret; [reflexivity|].
       unfold now_, pure_world. cbn. by rewrite En. }
  pose proof (os_update_spec id filled (completed_opt (Some (Some t))) s) as Hu. rewrite Hr in Hu.
  assert (Hvalid : isValidStatusTransition (or_status r) filled = true) by by destruct Hst as [-> | ->].
  rewrite Hvalid in Hu. destruct Hu as (s' & Hu & Hl).
  erewrite eff_bind_ret by (unfold on_store; cbn; by rewrite Hu).
  assert (Hr' : os_lookup id s' = Some (merge_record r filled (completed_opt (Some (Some t)))))
    by by rewrite Hl, decide_True.
  eexists _, s', w2. unfold get_or. erewrite eff_bind_ret by (unfold on_store; cbn; by rewrite os_get_spec, Hr').
  by split_and!.
Qed.
End Poll.

(** ** Witnesses *)

(** A host whose audit trail is down. *)
Definition failing_host : Host unit := MkHost (fun h => (0, h)) (fun h => ("id", h)) (fun _ h => h)
  (fun _ h => (Throw (Error_ "audit down"), h)).

Definition sample_world (connected : bool) : InMemoryOrderStore * ((SimState (DL := exact_decimal) * (StaticPriceFeed + StaticPriceFeed)) * unit) :=
  (empty_store, (sim_start connected, tt)).

Lemma executor_fills_once_witness :
  exists L, account (foldl (run_xop (EE := sim_env sim_config failing_host)) (sample_world true)
      [XSubmit sample_config sample_intent; XSubmit sample_config sample_intent]).2.1.1
    = account (foldl apply_fill (sim_start true).1 L) /\ NoDup (fill_client <$> L).
Proof.
  destruct (executor_fills_once sim_config failing_host [XSubmit sample_config sample_intent; XSubmit sample_config sample_intent]
    (sample_world true)) as (L & H1 & H2 & _).
  - apply sim_start_wf.
  - reflexivity.
  - exists L. split; [exact H1|exact H2].
Defined.

Definition working_record : OrderRecord :=
  MkOrderRecord (MkOrderIntent "l" "sim" "BTC" buy limit "1" (Some "120") "opp" false 0 []) submitted
    (Some "sim-sim-1") "0" None (Some "0") [] None None None 1.

Lemma poll_drops_fill_details_witness :
  exists r' s' w2, pollOrderStatus (EE := sim_env sim_config failing_host) "l"
      (store_with working_record, (sim_sf2, tt)) = (Ret r', (s', w2)) /\
    os_lookup "l" s' = Some r' /\ or_status r' = filled /\ or_filledSize r' = "0" /\
    or_averageFillPrice r' = None /\ or_feesPaid r' = Some "0".
Proof.
  set (v := match (getOrder sim_config "sim-sim-1" sim_sf2).1 with Ret (Some r) => r | _ => sample_result vo_rejected end).
  apply (poll_drops_fill_details (sim_env sim_config failing_host) "l" "sim-sim-1" (store_with working_record)
    (sim_sf2, tt) ((getOrder sim_config "sim-sim-1" sim_sf2).2, tt) working_record v).
  - reflexivity.
  - by left.
  - reflexivity.
  - reflexivity.
  - vm_compute. reflexivity.
Defined.
