(* ===== verification/CsvParser.v ===== *)
(** * Trade history files (packages/cex-verification/src/csv-parser.ts)

    [parseCexCsv] and its helpers, one definition per function of the file.  A
    row is an object from header to value; text is ASCII.  What
    [new Date(text)] makes of a text is the host's ([DateHost]); a [Date] is its
    time in milliseconds.  The file shows that quoted fields are read back as
    written, and that every line of a file is accounted for. *)
From Stdlib Require Import SpecFloat Ascii.
From S2P Require Import Prelude JsNumber JsValue JsText.
Open Scope Z_scope.

Inductive CexPlatform := binance | okx | bybit | coinbase.
Definition CexPlatform_str (p : CexPlatform) : string :=
  match p with binance => "binance" | okx => "okx" | bybit => "bybit" | coinbase => "coinbase" end.

Definition csv_row : Type := list (string * string).

(** The side is any text: a coinbase row is cast without a check. *)
Record ParsedTrade := MkParsedTrade {
  pt_tradeId : string;
  pt_orderId : option string;
  pt_symbol : string;
  pt_asset : string;
  pt_quoteAsset : option string;
  pt_side : string;
  pt_type : option string;
  pt_quantity : string;
  pt_price : string;
  pt_quoteQuantity : option string;
  pt_fee : option string;
  pt_feeAsset : option string;
  pt_realizedPnl : option string;
  pt_tradeTime : Z;
  pt_raw : csv_row;
}.

Record ParseError := MkParseError { pe_row : Z; pe_raw : csv_row; pe_message : string }.

Record ParseStats := MkParseStats {
  st_totalRows : Z;
  st_parsedTrades : Z;
  st_skippedRows : Z;
  st_errors : Z;
  st_dateRange : option (Z * Z);
}.

Record ParseResult := MkParseResult {
  pr_trades : list ParsedTrade;
  pr_errors : list ParseError;
  pr_stats : ParseStats;
}.

Record CsvParserOptions := MkCsvOptions {
  co_platform : CexPlatform;
  co_skipInvalidRows : bool;
  co_validateSymbol : option (string -> bool);
  co_minTradeTime : option Z;
  co_maxTradeTime : option Z;
}.

(** ** Lines and rows *)

(** [parseCsvLine] from the field [current], read so far, on. *)
Fixpoint csv_fields (current : string) (inQuotes : bool) (line : string) : list string :=
  match line with
  | EmptyString => [js_trim current]
  | String char line' =>
      if bool_decide (char = dquote) then csv_fields current (negb inQuotes) line'
      else if bool_decide (char = ","%char) && negb inQuotes then js_trim current :: csv_fields "" inQuotes line'
      else csv_fields (current +:+ chr char) inQuotes line'
  end.
Definition parseCsvLine (line : string) : list string := csv_fields "" false line.

(** [result[header.trim()] = values[i] ?? ''] for every header, in order. *)
Fixpoint array_to_object (headers values : list string) (result : csv_row) : csv_row :=
  match headers with
  | [] => result
  | header :: headers' =>
      array_to_object headers' (List.tl values) (jm_set (js_trim header) (List.hd "" values) result)
  end.
Definition arrayToObject (headers values : list string) : csv_row := array_to_object headers values [].

(** [row[k1] || row[k2] || ... || d]. *)
Fixpoint first_field (row : csv_row) (keys : list string) : option string :=
  match keys with
  | [] => None
  | key :: keys' =>
      match jm_get key row with
      | Some v => if bool_decide (v = "") then first_field row keys' else Some v
      | None => first_field row keys'
      end
  end.
Definition field (row : csv_row) (keys : list string) : string := or_else (first_field row keys) "".

(** [row[k1] || row[k2]], whose value may be absent or empty. *)
Definition field2 (row : csv_row) (k1 k2 : string) : option string :=
  match first_field row [k1] with Some v => Some v | None => jm_get k2 row end.

(** ** Numbers and dates *)

(** The removed characters: commas, white space and the dollar sign (the other
    currency signs are not ASCII). *)
Definition number_char (c : ascii) : bool :=
  negb (bool_decide (c = ","%char) || is_space c || bool_decide (c = "$"%char)).

Definition to_fixed8 (n : num) : string := strip_zeros (n_toFixed 8 n).

Definition normalizeNumber (value : string) : string :=
  let n := js_Number (keep_chars number_char value) in
  if n_isNaN n then "0" else to_fixed8 n.

Definition calculateQuoteQuantity (quantity price : string) : string :=
  to_fixed8 (n_mul (js_Number (normalizeNumber quantity)) (js_Number (normalizeNumber price))).

(** The shapes of a regular expression of fixed length: a digit, white space or
    a [T], or a given character. *)
Inductive shape := sh_digit | sh_space_or_T | sh_char (c : ascii).
Definition shape_ok (p : shape) (c : ascii) : bool :=
  match p with
  | sh_digit => match digit_val c with Some _ => true | None => false end
  | sh_space_or_T => is_space c || bool_decide (c = "T"%char)
  | sh_char d => bool_decide (c = d)
  end.
Fixpoint matches (ps : list shape) (s : string) : bool :=
  match ps, s with
  | [], _ => true
  | p :: ps', String c s' => shape_ok p c && matches ps' s'
  | _, EmptyString => false
  end.
Definition date_shape : list shape :=
  let d := sh_digit in let dash := sh_char "-" in [d; d; d; d; dash; d; d; dash; d; d].
Definition time_shape : list shape :=
  let d := sh_digit in let colon := sh_char ":" in [d; d; colon; d; d; colon; d; d].

(** The time of [new Date(n)]: the number truncated, if within the range of dates. *)
Definition date_of_num (n : num) : option Z :=
  if n_isFinite n && (Z.abs (Z_of_num n) <=? 8640000000000000) then Some (Z_of_num n) else None.

Section Parser.
Context `{DH : DateHost}.

(** The four formats, in the order they are tried. *)
Definition date_formats : list (string -> option Z) :=
  [ date_parse;
    (fun s => if matches (date_shape ++ [sh_space_or_T] ++ time_shape) s
              then date_parse (str_take 10 s +:+ "T" +:+ str_take 8 (str_drop 11 s) +:+ "Z") else None);
    (fun s => let ts := js_Number s in
              if negb (n_isNaN ts) && n_gt ts (num_of_Z 1000000000000) then date_of_num ts else None);
    (fun s => let ts := js_Number s in
              if negb (n_isNaN ts) && n_gt ts (num_of_Z 1000000000) && n_lt ts (num_of_Z 10000000000)
              then date_of_num (n_mul ts (num_of_Z 1000)) else None) ].

Fixpoint first_date (formats : list (string -> option Z)) (s : string) : option Z :=
  match formats with
  | [] => None
  | fmt :: rest => match fmt s with Some t => Some t | None => first_date rest s end
  end.

Definition parseDate (dateStr : string) : exn Z :=
  match first_date date_formats dateStr with
  | Some t => Ret t
  | None => Throw (Error_ ("Unable to parse date: " +:+ dateStr))
  end.
Definition parseOkxDate (dateStr : string) : exn Z := parseDate dateStr.

(** ** Symbols *)

(** The suffixes of perpetual and dated contracts, in upper case. *)
Definition contract_suffix (s : string) : bool :=
  bool_decide (s = "PERP") || bool_decide (s = "PERPETUAL") ||
  (String.length s =? 6)%nat && (String.prefix "2506" s || String.prefix "2509" s) &&
    matches [sh_digit; sh_digit; sh_digit; sh_digit; sh_digit; sh_digit] s.

(** [symbol.replace(/[_-](PERP|2506\d{2}|2509\d{2}|PERPETUAL)$/i, '')]. *)
Fixpoint strip_contract (s : string) : string :=
  match s with
  | EmptyString => EmptyString
  | String c s' =>
      if (bool_decide (c = "_"%char) || bool_decide (c = "-"%char)) && contract_suffix (toUpperCase s') then EmptyString
      else String c (strip_contract s')
  end.

Definition QUOTE_ASSETS : list string := ["USDT"; "USDC"; "USD"; "BUSD"; "BTC"; "ETH"].

(** The first quote asset that ends the symbol and leaves an asset. *)
Fixpoint split_quote (quotes : list string) (clean : string) : option (string * string) :=
  match quotes with
  | [] => None
  | quote :: rest =>
      let asset := str_take (String.length clean - String.length quote) clean in
      if endsWith quote clean && negb (bool_decide (asset = "")) then Some (asset, quote) else split_quote rest clean
  end.

Definition extractAssetsFromSymbol (symbol : string) : string * string :=
  let clean := strip_contract symbol in
  match split_quote QUOTE_ASSETS clean with
  | Some aq => aq
  | None => if (6 <=? String.length clean)%nat then (str_take 3 clean, str_drop 3 clean) else (clean, "UNKNOWN")
  end.

Definition extractAssetsFromOkxSymbol (symbol : string) : string * string :=
  match js_split "-" symbol with
  | a :: b :: _ => if negb (bool_decide (a = "")) && negb (bool_decide (b = "")) then (a, b)
                   else extractAssetsFromSymbol symbol
  | _ => extractAssetsFromSymbol symbol
  end.

(** ** The formats *)

Definition any_empty (l : list string) : bool := existsb (fun s => bool_decide (s = "")) l.
Definition check_side (side : string) : exn unit :=
  if negb (bool_decide (side = "buy")) && negb (bool_decide (side = "sell"))
  then Throw (Error_ ("Invalid side: " +:+ side)) else Ret tt.
Definition missing_fields : JsError := Error_ "Missing required fields".

(** The fields common to the formats once they are extracted. *)
Definition build_trade (row : csv_row) (tradeId : string) (orderId : option string) (symbol : string)
    (assets : string * string) (side : string) (type : option string) (quantity price : string)
    (quoteQuantity fee feeAsset realizedPnl : option string) (tradeTime : Z) : ParsedTrade :=
  MkParsedTrade tradeId orderId symbol assets.1 (Some assets.2) side type (normalizeNumber quantity)
    (normalizeNumber price) quoteQuantity (normalizeNumber <$> fee) feeAsset (normalizeNumber <$> realizedPnl)
    tradeTime row.

Definition parseBinanceRow (row : csv_row) : exn ParsedTrade :=
  let tradeId := field row ["Trade ID"; "tradeId"; "OrderNo"; "OrderId"] in
  let orderId := field row ["Order ID"; "orderId"] in
  let symbol := field row ["Symbol"; "symbol"; "Pair"] in
  let side := toLowerCase (field row ["Side"; "side"]) in
  let price := field row ["Price"; "price"; "Average Price"] in
  let quantity := field row ["Quantity"; "Executed"; "Amount"; "quantity"] in
  let quoteQty := first_field row ["QuoteQuantity"; "Quote Quantity"; "Amount"] in
  let fee := first_field row ["Fee"; "fee"; "Trading Fee"; "Commission"; "commission"] in
  let feeAsset := first_field row ["FeeAsset"; "Fee Asset"; "Commission Asset"] in
  let realizedPnl := first_field row ["Realized Profit"; "realizedPnl"] in
  let timeStr := field row ["Time(UTC)"; "Time"; "Date(UTC)"; "date"; "Date"] in
  if any_empty [tradeId; symbol; side; price; quantity] then
    Throw (Error_ ("Missing required fields: tradeId=" +:+ tradeId +:+ ", symbol=" +:+ symbol +:+ ", side=" +:+ side))
  else
    _ ← check_side side;
    tradeTime ← parseDate timeStr;
    Ret (build_trade row tradeId (Some orderId) symbol (extractAssetsFromSymbol symbol) side (field2 row "Type" "type")
      quantity price (normalizeNumber <$> quoteQty) fee feeAsset realizedPnl tradeTime).

Definition parseOkxRow (row : csv_row) : exn ParsedTrade :=
  let tradeId := field row ["tradeId"; "Trade ID"; "ordId"] in
  let orderId := field row ["orderId"; "Order ID"] in
  let symbol := field row ["instId"; "Instrument"; "symbol"] in
  let side := toLowerCase (field row ["side"; "Side"]) in
  let price := field row ["fillPx"; "Price"; "price"] in
  let quantity := field row ["fillSz"; "Size"; "quantity"] in
  let fee := first_field row ["fee"; "Fee"] in
  let feeAsset := first_field row ["feeCcy"; "Fee Currency"] in
  let pnl := first_field row ["pnl"; "Realized PnL"] in
  let timeStr := field row ["fillTime"; "Timestamp"; "time"] in
  if any_empty [tradeId; symbol; side; price; quantity] then Throw missing_fields
  else
    _ ← check_side side;
    tradeTime ← parseOkxDate timeStr;
    Ret (build_trade row tradeId (Some orderId) symbol (extractAssetsFromOkxSymbol symbol) side (field2 row "ordType" "Type")
      quantity price (Some (calculateQuoteQuantity quantity price)) fee feeAsset pnl tradeTime).

Definition parseBybitRow (row : csv_row) : exn ParsedTrade :=
  let tradeId := field row ["Trade ID"; "tradeId"; "execId"] in
  let orderId := field row ["Order ID"; "orderId"] in
  let symbol := field row ["Symbol"; "symbol"] in
  let side := toLowerCase (field row ["Side"; "side"]) in
  let price := field row ["Price"; "execPrice"; "price"] in
  let quantity := field row ["Qty"; "Size"; "execQty"] in
  let fee := first_field row ["Trading Fee"; "fee"; "execFee"] in
  let feeAsset := first_field row ["Fee Token"; "feeCurrency"] in
  let pnl := first_field row ["Realized P&L"; "closedPnl"] in
  let timeStr := field row ["Transaction Time"; "Time"; "execTime"] in
  if any_empty [tradeId; symbol; side; price; quantity] then Throw missing_fields
  else
    _ ← check_side side;
    tradeTime ← parseDate timeStr;
    Ret (build_trade row tradeId (Some orderId) symbol (extractAssetsFromSymbol symbol) side (field2 row "Type" "orderType")
      quantity price (Some (calculateQuoteQuantity quantity price)) fee feeAsset pnl tradeTime).

Definition parseCoinbaseRow (row : csv_row) : exn ParsedTrade :=
  let tradeId := field row ["trade id"; "trade_id"] in
  let product := field row ["product"; "product_id"] in
  let side := toLowerCase (field row ["side"]) in
  let price := field row ["price"] in
  let quantity := field row ["size"; "amount"] in
  let fee := first_field row ["fee"] in
  let timeStr := field row ["time"; "created at"] in
  if any_empty [tradeId; product; side; price; quantity] then Throw missing_fields
  else
    tradeTime ← parseDate timeStr;
    let symbol := remove_first "-" product in
    let assets := extractAssetsFromSymbol symbol in
    Ret (build_trade row tradeId None symbol assets side (first_field row ["type"]) quantity price
      (Some (calculateQuoteQuantity quantity price)) fee (Some assets.2) None tradeTime).

Definition parseTradeRow (row : csv_row) (platform : CexPlatform) : exn ParsedTrade :=
  match platform with
  | binance => parseBinanceRow row
  | okx => parseOkxRow row
  | bybit => parseBybitRow row
  | coinbase => parseCoinbaseRow row
  end.

(** ** Files *)

(** What the loop has gathered. *)
Record csv_acc := MkCsvAcc { ca_trades : list ParsedTrade; ca_errors : list ParseError; ca_skipped : Z }.

(** A parsed trade that the filters of the options leave out. *)
Definition filtered_out (options : CsvParserOptions) (trade : ParsedTrade) : bool :=
  match co_validateSymbol options with Some f => negb (f (pt_symbol trade)) | None => false end
  || match co_minTradeTime options with Some t => pt_tradeTime trade <? t | None => false end
  || match co_maxTradeTime options with Some t => t <? pt_tradeTime trade | None => false end.

(** The [for] loop from line [i] on; an error ends it unless invalid rows are skipped. *)
Fixpoint csv_loop (options : CsvParserOptions) (headers : list string) (i : Z) (lines : list string) (acc : csv_acc)
    : csv_acc :=
  match lines with
  | [] => acc
  | line :: lines' =>
      if bool_decide (line = "") || bool_decide (js_trim line = "") then
        csv_loop options headers (i + 1) lines' (MkCsvAcc (ca_trades acc) (ca_errors acc) (ca_skipped acc + 1))
      else
        let rowData := arrayToObject headers (parseCsvLine line) in
        match parseTradeRow rowData (co_platform options) with
        | Ret trade =>
            if filtered_out options trade then
              csv_loop options headers (i + 1) lines' (MkCsvAcc (ca_trades acc) (ca_errors acc) (ca_skipped acc + 1))
            else
              csv_loop options headers (i + 1) lines' (MkCsvAcc (ca_trades acc ++ [trade]) (ca_errors acc) (ca_skipped acc))
        | Throw e =>
            let acc' := MkCsvAcc (ca_trades acc) (ca_errors acc ++ [MkParseError (i + 1) rowData (err_message e)])
                          (ca_skipped acc) in
            if negb (co_skipInvalidRows options) then acc' else csv_loop options headers (i + 1) lines' acc'
        end
  end.

Definition date_range (trades : list ParsedTrade) : option (Z * Z) :=
  match js_sort Z.ltb (pt_tradeTime <$> trades) with
  | [] => None
  | from :: rest => Some (from, List.last rest from)
  end.

Definition no_rows (message : string) : ParseResult :=
  MkParseResult [] [MkParseError 0 [] message] (MkParseStats 0 0 0 1 None).

Definition zlen {A} (l : list A) : Z := Z.of_nat (length l).

Definition parseCexCsv (csvContent : string) (options : CsvParserOptions) : ParseResult :=
  let lines := js_split newline (js_trim csvContent) in
  match lines with
  | firstLine :: ((_ :: _) as rows) =>
      if bool_decide (firstLine = "") then no_rows "CSV has no header row"
      else
        let headers := parseCsvLine firstLine in
        let acc := csv_loop options headers 1 rows (MkCsvAcc [] [] 0) in
        MkParseResult (ca_trades acc) (ca_errors acc)
          (MkParseStats (zlen lines - 1) (zlen (ca_trades acc)) (ca_skipped acc) (zlen (ca_errors acc))
             (date_range (ca_trades acc)))
  | _ => no_rows "CSV has no data rows"
  end.
End Parser.

(** ** Platforms and validation *)

Definition detectPlatform (csvContent : string) : option CexPlatform :=
  let firstLine := toLowerCase (List.hd "" (js_split newline csvContent)) in
  let has s := includes s firstLine in
  if (has "trade id" || has "orderno") && (has "symbol" || has "pair") &&
     (has "commission" || has "fee" || has "trading fee") then Some binance
  else if has "instid" || (has "fillpx" && has "fillsz") then Some okx
  else if has "execid" || has "execid" || (has "execprice" && has "closedpnl") then Some bybit
  else if has "portfolio" && has "trade id" then Some coinbase
  else None.

Definition required_fields (platform : CexPlatform) : list string :=
  match platform with
  | binance => ["trade id"; "symbol"; "side"; "price"]
  | okx => ["instid"; "side"; "fillpx"; "fillsz"]
  | bybit => ["symbol"; "side"; "price"; "qty"]
  | coinbase => ["trade id"; "product"; "side"; "price"]
  end.

(** [None] when valid, else the error. *)
Definition validateCsvFormat (csvContent : string) (platform : CexPlatform) : option string :=
  match js_split newline (js_trim csvContent) with
  | firstLine :: _ :: _ =>
      if bool_decide (firstLine = "") then Some "CSV has no header row"
      else
        let header := toLowerCase firstLine in
        let missing := List.filter (fun f => negb (includes f header)) (required_fields platform) in
        if is_empty missing then None
        else Some ("Missing required fields for " +:+ CexPlatform_str platform +:+ ": " +:+ js_join ", " missing)
  | _ => Some "CSV must have at least a header and one data row"
  end.

(** ** Quoted fields are read back *)

(** A field as it is written: between double quotes, or bare. *)
Definition print_field (f : bool * string) : string :=
  if f.1 then chr dquote +:+ f.2 +:+ chr dquote else f.2.
Definition print_csv_line (fields : list (bool * string)) : string := js_join "," (print_field <$> fields).

(** What can be written that way: trimmed text without double quotes, and
    without commas when bare. *)
Definition printable (f : bool * string) : Prop :=
  trimmed f.2 /\ str_all (fun c => c <> dquote) f.2 /\ (f.1 = false -> str_all (fun c => c <> ","%char) f.2).

Lemma csv_quoted f : forall cur rest, str_all (fun c => c <> dquote) f ->
  csv_fields cur true (f +:+ rest) = csv_fields (cur +:+ f) true rest.
Proof.
  induction f as [|c f IH]; intros cur rest Hf; [by rewrite str_app_nil|].
  apply Forall_cons in Hf as [Hc Hf]. change (String c f +:+ rest) with (String c (f +:+ rest)). cbn [csv_fields].
  rewrite bool_decide_false by done. cbn [negb]. rewrite andb_false_r, IH by done.
  by rewrite str_app_assoc.
Qed.

Lemma csv_bare f : forall cur rest, str_all (fun c => c <> dquote) f -> str_all (fun c => c <> ","%char) f ->
  csv_fields cur false (f +:+ rest) = csv_fields (cur +:+ f) false rest.
Proof.
  induction f as [|c f IH]; intros cur rest Hf Hg; [by rewrite str_app_nil|].
  apply Forall_cons in Hf as [Hc Hf]. apply Forall_cons in Hg as [Hd Hg].
  change (String c f +:+ rest) with (String c (f +:+ rest)). cbn [csv_fields].
  rewrite !bool_decide_false by done. cbn [andb]. rewrite IH by done. by rewrite str_app_assoc.
Qed.

Lemma csv_print_field f cur rest : printable f ->
  csv_fields cur false (print_field f +:+ rest) = csv_fields (cur +:+ f.2) false rest.
Proof.
  destruct f as [[] f]; intros (Ht & Hq & Hc); cbn [fst snd] in *; unfold print_field; cbn [fst snd].
  - rewrite !str_app_assoc. change (chr dquote +:+ ?x) with (String dquote x). cbn [csv_fields].
    rewrite bool_decide_true by done. cbn [negb]. rewrite csv_quoted by done.
    change (chr dquote +:+ rest) with (String dquote rest). cbn [csv_fields]. by rewrite bool_decide_true.
  - apply csv_bare; auto.
Qed.

(** ** Every line is accounted for *)

Section Accounting.
Context `{DH : DateHost}.

Definition side_ok (platform : CexPlatform) (trade : ParsedTrade) : Prop :=
  platform <> coinbase -> pt_side trade = "buy" \/ pt_side trade = "sell".

Lemma check_side_ok side u : check_side side = Ret u -> side = "buy" \/ side = "sell".
Proof.
  unfold check_side. destruct (bool_decide (side = "buy")) eqn:E1; [left; by apply bool_decide_eq_true in E1|].
  destruct (bool_decide (side = "sell")) eqn:E2; [right; by apply bool_decide_eq_true in E2|done].
Qed.

Lemma parsed_side row platform trade : parseTradeRow row platform = Ret trade -> side_ok platform trade.
Proof.
  intros H Hc. destruct platform; cbn [parseTradeRow] in H; [..|done];
    unfold parseBinanceRow, parseOkxRow, parseBybitRow in H;
    match type of H with (if ?b then _ else _) = _ => destruct b; [done|] end;
    exn_inv H as u E; exn_inv H as t Et; injection H as <-; by apply check_side_ok in E.
Qed.

(** What the loop adds to its accumulator, over [n] lines. *)
Record loop_result (options : CsvParserOptions) (n : Z) (acc acc' : csv_acc) : Prop := {
  lr_trades : exists new, ca_trades acc' = ca_trades acc ++ new /\
    Forall (fun t => filtered_out options t = false /\ side_ok (co_platform options) t) new;
  lr_errors : exists new, ca_errors acc' = ca_errors acc ++ new /\
    (co_skipInvalidRows options = false -> (length new <= 1)%nat);
  lr_all : co_skipInvalidRows options = true \/ ca_errors acc' = ca_errors acc ->
    zlen (ca_trades acc') + zlen (ca_errors acc') + ca_skipped acc' =
    zlen (ca_trades acc) + zlen (ca_errors acc) + ca_skipped acc + n;
  lr_bound : zlen (ca_trades acc') + zlen (ca_errors acc') + ca_skipped acc' <=
    zlen (ca_trades acc) + zlen (ca_errors acc) + ca_skipped acc + n;
}.

Lemma zlen_app {A} (l1 l2 : list A) : zlen (l1 ++ l2) = zlen l1 + zlen l2.
Proof. unfold zlen. rewrite length_app. lia. Qed.

(** One more line before a loop that counted the rest. *)
Lemma loop_result_cons options n acc acc1 acc' :
  (exists t, ca_trades acc1 = ca_trades acc ++ t /\
    Forall (fun t => filtered_out options t = false /\ side_ok (co_platform options) t) t) ->
  ca_errors acc1 = ca_errors acc \/ co_skipInvalidRows options = true /\ (exists e, ca_errors acc1 = ca_errors acc ++ [e]) ->
  zlen (ca_trades acc1) + zlen (ca_errors acc1) + ca_skipped acc1 =
    zlen (ca_trades acc) + zlen (ca_errors acc) + ca_skipped acc + 1 ->
  loop_result options n acc1 acc' -> loop_result options (n + 1) acc acc'.
Proof.
  intros (t & Et & Ft) He Hn [(new & En & Fn) (errs & Ee & Le) Ha Hb]. split.
  - exists (t ++ new). split; [by rewrite En, Et, app_assoc|by apply Forall_app].
  - destruct He as [He|(Hs & e & He)].
    + exists errs. split; [by rewrite Ee, He|done].
    + exists ([e] ++ errs). split; [by rewrite Ee, He, app_assoc|congruence].
  - intros H. rewrite Ha; [lia|]. destruct H as [H|H]; [by left|]. destruct He as [He|(Hs & _)]; [right; congruence|by left].
  - lia.
Qed.

Lemma loop_accounts options headers lines : forall i acc,
  loop_result options (zlen lines) acc (csv_loop options headers i lines acc).
Proof.
  induction lines as [|line lines IH]; intros i acc.
  { cbn [csv_loop]. change (zlen (@nil string)) with 0. split; [exists []; by rewrite app_nil_r| |lia|lia].
    exists []. rewrite app_nil_r. split; [done|cbn; lia]. }
  replace (zlen (line :: lines)) with (zlen lines + 1) by (unfold zlen; cbn; lia). cbn [csv_loop].
  assert (Hnil : exists t, ca_trades acc = ca_trades acc ++ t /\
    Forall (fun t => filtered_out options t = false /\ side_ok (co_platform options) t) t) by (exists []; by rewrite app_nil_r).
  destruct (_ || _).
  { eapply loop_result_cons; cycle 3; [apply IH|exact Hnil|by left|cbn [ca_trades ca_errors ca_skipped]; lia]. }
  destruct (parseTradeRow _ _) as [trade|e] eqn:Et.
  - destruct (filtered_out options trade) eqn:Ef.
    + eapply loop_result_cons; cycle 3; [apply IH|exact Hnil|by left|cbn [ca_trades ca_errors ca_skipped]; lia].
    + eapply loop_result_cons; cycle 3; [apply IH| |by left|].
      * exists [trade]. split; [done|]. apply Forall_singleton. split; [done|by eapply parsed_side].
      * cbn [ca_trades ca_errors ca_skipped]. rewrite zlen_app. change (zlen [?x]) with 1. lia.
  - destruct (co_skipInvalidRows options) eqn:Es; cbn [negb].
    + eapply loop_result_cons; cycle 3; [apply IH|exact Hnil|right; split; [done|by eexists]|].
      cbn [ca_trades ca_errors ca_skipped]. rewrite zlen_app. change (zlen [?x]) with 1. lia.
    + split; cbn [ca_trades ca_errors ca_skipped].
      * exists []. by rewrite app_nil_r.
      * eexists. split; [done|]. cbn. lia.
      * intros [?|E]; [congruence|]. apply (f_equal length) in E. rewrite length_app in E. cbn in E. lia.
      * rewrite zlen_app. unfold zlen. cbn. lia.
Qed.
End Accounting.

(** ** Properties *)

(** C39. A line of fields, each quoted or bare, parses back to the fields: every
    trimmed text without double quotes can be written, with commas when quoted. *)
Theorem csv_line_roundtrip (fields : list (bool * string)) (Hne : fields <> []) (Hp : Forall printable fields) :
  parseCsvLine (print_csv_line fields) = fields.*2.
Proof.
  unfold parseCsvLine, print_csv_line. destruct fields as [|f fields]; [done|]. clear Hne.
  revert f Hp. induction fields as [|g fields IH]; intros f [Hf Hfs]%Forall_cons; cbn [fmap list_fmap js_join].
  - rewrite <- (str_app_nil (print_field f)), csv_print_field by done. cbn [csv_fields]. f_equal. apply (proj1 Hf).
  - rewrite csv_print_field by done. change ("," +:+ ?x) with (String ","%char x). cbn [csv_fields].
    rewrite bool_decide_false, bool_decide_true by done. cbn [andb negb]. f_equal; [apply (proj1 Hf)|]. by apply IH.
Qed.

(** Every line of a trade file is accounted for: with invalid rows skipped,
    or without an error, the rows are the trades, the skipped lines and the
    errors together; otherwise the first error ends the parse.  Every trade
    passed the symbol and time filters, and outside coinbase files is a buy or
    a sell. *)
Theorem every_line_accounted `{DH : DateHost} (csvContent : string) (options : CsvParserOptions)
    (Hrows : (2 <= length (js_split newline (js_trim csvContent)))%nat)
    (Hhead : List.hd "" (js_split newline (js_trim csvContent)) <> "") :
  let r := parseCexCsv csvContent options in
  let st := pr_stats r in
  st_totalRows st = zlen (js_split newline (js_trim csvContent)) - 1 /\
  st_parsedTrades st = zlen (pr_trades r) /\ st_errors st = zlen (pr_errors r) /\
  (co_skipInvalidRows options = true \/ pr_errors r = [] ->
     st_parsedTrades st + st_skippedRows st + st_errors st = st_totalRows st) /\
  (co_skipInvalidRows options = false -> st_errors st <= 1) /\
  Forall (fun t => filtered_out options t = false /\ side_ok (co_platform options) t) (pr_trades r).
Proof.
  unfold parseCexCsv. destruct (js_split newline (js_trim csvContent)) as [|first [|second rest]] eqn:El; cbn in Hrows; [lia..|].
  cbn in Hhead. rewrite bool_decide_false by done. cbv zeta. cbn [pr_stats pr_trades pr_errors st_totalRows st_parsedTrades st_skippedRows st_errors].
  destruct (loop_accounts options (parseCsvLine first) (second :: rest) 1 (MkCsvAcc [] [] 0))
    as [(new & En & Fn) (errs & Ee & Le) Ha Hb].
  set (acc := csv_loop _ _ _ _ _) in *. cbn [ca_trades ca_errors ca_skipped app] in *.
  split_and!; [done|done|done| | |].
  - intros H. rewrite <- (Z.add_comm (ca_skipped acc)), Z.add_assoc in *. specialize (Ha H). unfold zlen in *. cbn in *. lia.
  - intros Hs. specialize (Le Hs). rewrite Ee. unfold zlen. lia.
  - by rewrite En.
Qed.

(** ** Witnesses *)

(** A host that dates every text it is given at the epoch. *)
Definition epoch_host : DateHost := {| date_parse := fun _ => Some 0 |}.

Lemma csv_line_roundtrip_witness :
  parseCsvLine (print_csv_line [(true, "1,000.50"); (false, "BTC-USD"); (true, "")]) = ["1,000.50"; "BTC-USD"; ""].
Proof.
  apply csv_line_roundtrip; [discriminate|].
  repeat constructor; try (intros E; discriminate E); cbn; try discriminate.
Defined.

Definition sample_csv : string :=
  "tradeId,instId,side,fillPx,fillSz,fillTime" +:+ chr newline +:+ "t1,BTC-USDT,buy,100,1,now" +:+ chr newline +:+
  "t2,BTC-USDT,hold,100,1,now".

Lemma every_line_accounted_witness :
  let r := parseCexCsv (DH := epoch_host) sample_csv (MkCsvOptions okx true None None None) in
  st_parsedTrades (pr_stats r) + st_skippedRows (pr_stats r) + st_errors (pr_stats r) = 2 /\ zlen (pr_trades r) = 1.
Proof.
  intros r. destruct (every_line_accounted (DH := epoch_host) sample_csv (MkCsvOptions okx true None None None))
    as (H1 & H2 & H3 & H4 & _).
  - vm_compute. lia.
  - vm_compute. discriminate.
  - split; [exact (eq_trans (H4 (or_introl eq_refl)) eq_refl)|vm_compute; reflexivity].
Defined.
