(* ===== verification/CexPnl.v ===== *)
(** * Profit and loss of imported trades (packages/cex-verification/src/pnl-calculator.ts)

    [calculateAssetPnl] with its three methods, the summaries, the portfolio and
    the submission record.  Amounts are the language's numbers, computed in the
    order of the source.  The loops that match a sell with the queue of buys run
    with fuel; [fifo_matching_terminates] shows that the fuel given is enough. *)
From Stdlib Require Import SpecFloat Ascii Qround.
From S2P Require Import Prelude JsNumber JsValue JsText CsvParser.
Open Scope Z_scope.

(** ** Data *)

Inductive PnlCalculationMethod := fifo | lifo | avg.

Record PnlCalculationOptions := MkPnlOptions { po_method : PnlCalculationMethod; po_includeFees : bool }.

(** A trade with the fields the calculation adds; its [realizedPnl] hides the
    one of the file. *)
Record TradeWithPnl := MkTradeWithPnl {
  tw_trade : ParsedTrade;
  tw_costBasis : option string;
  tw_realizedPnl : option string;
  tw_accumulatedPosition : option string;
  tw_averageEntryPrice : option string;
}.

Record AssetPnlSummary := MkAssetSummary {
  as_totalTrades : Z;
  as_buyTrades : Z;
  as_sellTrades : Z;
  as_totalBuyVolume : string;
  as_totalSellVolume : string;
  as_totalBuyValue : string;
  as_totalSellValue : string;
  as_realizedPnl : string;
  as_totalFees : string;
  as_netPnl : string;
  as_openPosition : string;
  as_averageEntryPrice : string;
  as_positionValue : string;
  as_winningTrades : Z;
  as_losingTrades : Z;
  as_winRatePct : string;
  as_avgWinAmount : string;
  as_avgLossAmount : string;
  as_largestWin : string;
  as_largestLoss : string;
}.

Record AssetPnlResult := MkAssetResult {
  ar_asset : string;
  ar_trades : list TradeWithPnl;
  ar_summary : AssetPnlSummary;
}.

Record PortfolioPnlSummary := MkPortfolioSummary {
  ps_totalTrades : Z;
  ps_uniqueAssets : Z;
  ps_totalRealizedPnl : string;
  ps_totalFees : string;
  ps_netPnl : string;
  ps_firstTradeAt : Z;
  ps_lastTradeAt : Z;
  ps_tradingDays : num;
  ps_winningAssets : Z;
  ps_losingAssets : Z;
  ps_avgTradesPerAsset : num;
}.

Record PortfolioPnlResult := MkPortfolioResult {
  pf_assets : list AssetPnlResult;
  pf_summary : PortfolioPnlSummary;
}.

(** ** Numbers *)

(** [Number(s) || 0]. *)
Definition toNum (s : string) : num :=
  let n := js_Number s in if n_isNaN n || n_eq n n_zero then n_zero else n.
Definition toStr (n : num) : string := strip_zeros (n_toFixed 8 n).
Definition toStr2 (n : num) : string := n_toFixed 2 n.

(** [toNum(s || '0')]. *)
Definition toNum_opt (s : option string) : num :=
  match s with Some t => if bool_decide (t = "") then toNum "0" else toNum t | None => toNum "0" end.

(** [l.reduce((sum, x) => sum + f(x), 0)]. *)
Definition n_sum {A} (f : A -> num) (l : list A) : num := foldl (fun sum x => n_add sum (f x)) n_zero l.

(** [l.reduce((a, b) => a + b, 0) / l.length], or 0 for no element. *)
Definition n_mean (l : list num) : num :=
  if is_empty l then n_zero else n_div (n_sum id l) (num_of_Z (zlen l)).

(** [Math.max(...l)], or 0 for no element. *)
Definition n_max_list (l : list num) : num :=
  if is_empty l then n_zero else foldl n_max (S754_infinity true) l.

(** The literal 0.00000001. *)
Definition DUST : num := num_of_dec 1 (-8).

(** ** Matching sells with buys *)

Record BuyQueueEntry := MkBuy { be_quantity : num; be_price : num; be_time : Z }.

(** The body of the loop on the buy [b]: the sell quantity left, the cost so
    far, and the buy if some of it is left. *)
Definition match_buy (remaining cost : num) (b : BuyQueueEntry) : num * num * option BuyQueueEntry :=
  let matchedQty := n_min remaining (be_quantity b) in
  let q := n_sub (be_quantity b) matchedQty in
  (n_sub remaining matchedQty, n_add cost (n_mul matchedQty (be_price b)),
   if n_le q DUST then None else Some (MkBuy q (be_price b) (be_time b))).

(** The [while] loop of the first-in-first-out method: it takes the first buy. *)
Fixpoint match_fifo (fuel : nat) (remaining cost : num) (queue : list BuyQueueEntry)
    : option (num * num * list BuyQueueEntry) :=
  match fuel with
  | O => None
  | S f =>
      if n_gt remaining DUST then
        match queue with
        | [] => Some (remaining, cost, queue)
        | b :: rest =>
            let '(r, c, b') := match_buy remaining cost b in
            match_fifo f r c (match b' with Some b' => b' :: rest | None => rest end)
        end
      else Some (remaining, cost, queue)
  end.

(** The last element and those before it. *)
Fixpoint unsnoc {A} (l : list A) : option (list A * A) :=
  match l with
  | [] => None
  | x :: l' => match unsnoc l' with Some (init, y) => Some (x :: init, y) | None => Some ([], x) end
  end.

(** The loop of the last-in-first-out method: it takes the last buy. *)
Fixpoint match_lifo (fuel : nat) (remaining cost : num) (queue : list BuyQueueEntry)
    : option (num * num * list BuyQueueEntry) :=
  match fuel with
  | O => None
  | S f =>
      if n_gt remaining DUST then
        match unsnoc queue with
        | None => Some (remaining, cost, queue)
        | Some (init, b) =>
            let '(r, c, b') := match_buy remaining cost b in
            match_lifo f r c (match b' with Some b' => init ++ [b'] | None => init end)
        end
      else Some (remaining, cost, queue)
  end.

Definition match_fuel (queue : list BuyQueueEntry) : nat := length queue + 3.

Definition queue_position (queue : list BuyQueueEntry) : string := toStr (n_sum be_quantity queue).

(** One trade of the FIFO or LIFO method, by its matching loop. *)
Definition queue_step (matching : nat -> num -> num -> list BuyQueueEntry -> option (num * num * list BuyQueueEntry))
    (queue : list BuyQueueEntry) (trade : ParsedTrade) : list BuyQueueEntry * TradeWithPnl :=
  let quantity := toNum (pt_quantity trade) in
  let price := toNum (pt_price trade) in
  if bool_decide (pt_side trade = "buy") then
    let queue' := queue ++ [MkBuy quantity price (pt_tradeTime trade)] in
    (queue', MkTradeWithPnl trade (Some (toStr (n_mul price quantity))) None (Some (queue_position queue')) None)
  else
    let '(_, totalCostBasis, queue') := or_else (matching (match_fuel queue) quantity n_zero queue) (quantity, n_zero, queue) in
    let proceeds := n_mul quantity price in
    let pnl := n_sub proceeds totalCostBasis in
    (queue', MkTradeWithPnl trade (Some (toStr totalCostBasis)) (Some (toStr pnl)) (Some (queue_position queue')) None).

(** The trades with their results, in order. *)
Fixpoint queue_pnl (matching : nat -> num -> num -> list BuyQueueEntry -> option (num * num * list BuyQueueEntry))
    (queue : list BuyQueueEntry) (trades : list ParsedTrade) : list TradeWithPnl :=
  match trades with
  | [] => []
  | trade :: trades' =>
      let '(queue', t) := queue_step matching queue trade in t :: queue_pnl matching queue' trades'
  end.

Definition calculateFifoPnl (trades : list ParsedTrade) : list TradeWithPnl := queue_pnl match_fifo [] trades.
Definition calculateLifoPnl (trades : list ParsedTrade) : list TradeWithPnl := queue_pnl match_lifo [] trades.

Definition average_price (totalQuantity totalCost : num) : num :=
  if n_gt totalQuantity n_zero then n_div totalCost totalQuantity else n_zero.

(** One trade of the average cost method: the new quantity and cost. *)
Definition average_step (totalQuantity totalCost : num) (trade : ParsedTrade) : num * num * TradeWithPnl :=
  let quantity := toNum (pt_quantity trade) in
  let price := toNum (pt_price trade) in
  if bool_decide (pt_side trade = "buy") then
    let newCost := n_mul quantity price in
    let totalCost' := n_add totalCost newCost in
    let totalQuantity' := n_add totalQuantity quantity in
    (totalQuantity', totalCost', MkTradeWithPnl trade (Some (toStr newCost)) None (Some (toStr totalQuantity'))
       (Some (toStr (average_price totalQuantity' totalCost'))))
  else
    let avgPrice := average_price totalQuantity totalCost in
    let costBasis := n_mul quantity avgPrice in
    let proceeds := n_mul quantity price in
    let pnl := n_sub proceeds costBasis in
    let totalQuantity' := n_sub totalQuantity quantity in
    (totalQuantity', n_sub totalCost costBasis, MkTradeWithPnl trade (Some (toStr costBasis)) (Some (toStr pnl))
       (Some (toStr totalQuantity')) (Some (toStr avgPrice))).

Fixpoint average_pnl (totalQuantity totalCost : num) (trades : list ParsedTrade) : list TradeWithPnl :=
  match trades with
  | [] => []
  | trade :: trades' =>
      let '(q, c, t) := average_step totalQuantity totalCost trade in t :: average_pnl q c trades'
  end.
Definition calculateAveragePnl (trades : list ParsedTrade) : list TradeWithPnl := average_pnl n_zero n_zero trades.

(** ** Summaries *)

Definition has_side (side : string) (t : TradeWithPnl) : bool := bool_decide (pt_side (tw_trade t) = side).
Definition trade_quantity (t : TradeWithPnl) : num := toNum (pt_quantity (tw_trade t)).
Definition trade_price (t : TradeWithPnl) : num := toNum (pt_price (tw_trade t)).
Definition trade_value (t : TradeWithPnl) : num := n_mul (trade_quantity t) (trade_price t).
Definition trade_pnl (t : TradeWithPnl) : num := toNum_opt (tw_realizedPnl t).

Definition generateAssetSummary (trades : list TradeWithPnl) (includeFees : bool) : AssetPnlSummary :=
  let buyTrades := List.filter (has_side "buy") trades in
  let sellTrades := List.filter (has_side "sell") trades in
  let totalBuyVolume := n_sum trade_quantity buyTrades in
  let totalSellVolume := n_sum trade_quantity sellTrades in
  let totalBuyValue := n_sum trade_value buyTrades in
  let totalSellValue := n_sum trade_value sellTrades in
  let totalFees := n_sum (fun t => toNum_opt (pt_fee (tw_trade t))) trades in
  let realizedPnl := if includeFees then n_sub (n_sum trade_pnl sellTrades) totalFees else n_sum trade_pnl sellTrades in
  let profitableTrades := List.filter (fun t => n_gt (trade_pnl t) n_zero) sellTrades in
  let losingTrades := List.filter (fun t => n_lt (trade_pnl t) n_zero) sellTrades in
  let winRate := if 0 <? zlen sellTrades
    then n_mul (n_div (num_of_Z (zlen profitableTrades)) (num_of_Z (zlen sellTrades))) (num_of_Z 100) else n_zero in
  let wins := map trade_pnl profitableTrades in
  let losses := map (fun t => n_abs (trade_pnl t)) losingTrades in
  let openPosition := n_sub totalBuyVolume totalSellVolume in
  let lastPrice := match unsnoc trades with Some (_, t) => trade_price t | None => n_zero end in
  let positionValue := n_mul openPosition lastPrice in
  {| as_totalTrades := zlen trades;
     as_buyTrades := zlen buyTrades;
     as_sellTrades := zlen sellTrades;
     as_totalBuyVolume := toStr totalBuyVolume;
     as_totalSellVolume := toStr totalSellVolume;
     as_totalBuyValue := toStr2 totalBuyValue;
     as_totalSellValue := toStr2 totalSellValue;
     as_realizedPnl := toStr2 realizedPnl;
     as_totalFees := toStr2 totalFees;
     as_netPnl := toStr2 realizedPnl;
     as_openPosition := toStr openPosition;
     as_averageEntryPrice := if n_gt totalBuyVolume n_zero then toStr2 (n_div totalBuyValue totalBuyVolume) else "0";
     as_positionValue := toStr2 positionValue;
     as_winningTrades := zlen profitableTrades;
     as_losingTrades := zlen losingTrades;
     as_winRatePct := n_toFixed 2 winRate;
     as_avgWinAmount := toStr2 (n_mean wins);
     as_avgLossAmount := toStr2 (n_mean losses);
     as_largestWin := toStr2 (n_max_list wins);
     as_largestLoss := toStr2 (SFopp (n_max_list losses)) |}.

Definition by_time (trades : list ParsedTrade) : list ParsedTrade :=
  js_sort (fun a b => pt_tradeTime a <? pt_tradeTime b) trades.

Definition calculateAssetPnl (trades : list ParsedTrade) (options : PnlCalculationOptions) : exn AssetPnlResult :=
  match trades with
  | [] => Throw (Error_ "No trades provided")
  | firstTrade :: _ =>
      let sortedTrades := by_time trades in
      let tradesWithPnl := match po_method options with
        | fifo => calculateFifoPnl sortedTrades
        | lifo => calculateLifoPnl sortedTrades
        | avg => calculateAveragePnl sortedTrades
        end in
      Ret (MkAssetResult (pt_asset firstTrade) tradesWithPnl (generateAssetSummary tradesWithPnl (po_includeFees options)))
  end.

(** ** The portfolio *)

Definition groupTradesByAsset (trades : list ParsedTrade) : list (string * list ParsedTrade) :=
  foldl (fun grouped trade =>
    jm_set (pt_asset trade) (or_else (jm_get (pt_asset trade) grouped) [] ++ [trade]) grouped) [] trades.

(** What the loop over the assets has gathered. *)
Record portfolio_acc := MkPortfolioAcc {
  pa_assets : list AssetPnlResult;
  pa_totalPnl : num;
  pa_totalFees : num;
  pa_totalTrades : Z;
  pa_firstTradeAt : option Z;
  pa_lastTradeAt : option Z;
  pa_winning : Z;
  pa_losing : Z;
}.

Definition earliest (d : option Z) (trade : ParsedTrade) : option Z :=
  match d with None => Some (pt_tradeTime trade) | Some t => if pt_tradeTime trade <? t then Some (pt_tradeTime trade) else d end.
Definition latest (d : option Z) (trade : ParsedTrade) : option Z :=
  match d with None => Some (pt_tradeTime trade) | Some t => if t <? pt_tradeTime trade then Some (pt_tradeTime trade) else d end.

Definition portfolio_step (options : PnlCalculationOptions) (acc : portfolio_acc) (group : string * list ParsedTrade)
    : exn portfolio_acc :=
  result ← calculateAssetPnl group.2 options;
  let pnl := toNum (as_realizedPnl (ar_summary result)) in
  Ret (MkPortfolioAcc (pa_assets acc ++ [result]) (n_add (pa_totalPnl acc) pnl)
    (n_add (pa_totalFees acc) (toNum (as_totalFees (ar_summary result))))
    (pa_totalTrades acc + as_totalTrades (ar_summary result))
    (foldl earliest (pa_firstTradeAt acc) group.2) (foldl latest (pa_lastTradeAt acc) group.2)
    (if n_gt pnl n_zero then pa_winning acc + 1 else pa_winning acc)
    (if n_gt pnl n_zero then pa_losing acc else if n_lt pnl n_zero then pa_losing acc + 1 else pa_losing acc)).

Definition trading_days (first last : option Z) : num :=
  match first, last with
  | Some f, Some l => n_ceil (n_div (num_of_Z (l - f)) (num_of_Z (1000 * 60 * 60 * 24)))
  | _, _ => n_zero
  end.

Definition calculatePortfolioPnl (tradesByAsset : list (string * list ParsedTrade)) (options : PnlCalculationOptions)
    (now : Z) : exn PortfolioPnlResult :=
  acc ← fold_exn (portfolio_step options) (MkPortfolioAcc [] n_zero n_zero 0 None None 0 0) tradesByAsset;
  let assets := pa_assets acc in
  Ret (MkPortfolioResult assets {|
    ps_totalTrades := pa_totalTrades acc;
    ps_uniqueAssets := zlen assets;
    ps_totalRealizedPnl := toStr2 (pa_totalPnl acc);
    ps_totalFees := toStr2 (pa_totalFees acc);
    ps_netPnl := toStr2 (pa_totalPnl acc);
    ps_firstTradeAt := or_else (pa_firstTradeAt acc) now;
    ps_lastTradeAt := or_else (pa_lastTradeAt acc) now;
    ps_tradingDays := trading_days (pa_firstTradeAt acc) (pa_lastTradeAt acc);
    ps_winningAssets := pa_winning acc;
    ps_losingAssets := pa_losing acc;
    ps_avgTradesPerAsset := if 0 <? zlen assets
      then n_round (n_div (num_of_Z (pa_totalTrades acc)) (num_of_Z (zlen assets))) else n_zero |}).

Definition calculateAnnualizedReturn (netPnl initialCapital : string) (tradingDays : num) : string :=
  if n_le tradingDays n_zero || n_le (toNum initialCapital) n_zero then "0"
  else
    let totalReturn := n_div (toNum netPnl) (toNum initialCapital) in
    let periods := n_div (num_of_Z 365) tradingDays in
    n_toFixed 2 (n_mul (n_mul totalReturn periods) (num_of_Z 100)).

(** ** The submission *)

Inductive VerificationStatus := self_reported | cex_verified | third_party_audited.

Record HackathonSubmissionPnl := MkSubmission {
  hs_sleeveId : string;
  hs_strategyId : string;
  hs_from : Z;
  hs_to : Z;
  hs_assets : list (string * string * Z);
  hs_totalRealizedPnlUsd : string;
  hs_totalFeesUsd : string;
  hs_netPnlUsd : string;
  hs_annualizedReturnPct : string;
  hs_tradeCount : Z;
  hs_winRatePct : string;
  hs_tradeHistoryHash : string;
  hs_calculationMethod : PnlCalculationMethod;
  hs_verificationStatus : VerificationStatus;
}.

(** The integers added left to right. *)
Definition z_total {A} (f : A -> Z) (l : list A) : Z := foldl (fun sum x => sum + f x) 0 l.

Definition generateHackathonSubmission (result : PortfolioPnlResult) (sleeveId strategyId initialCapital : string)
    (verificationStatus : VerificationStatus) : HackathonSubmissionPnl :=
  let allTrades := flat_map ar_trades (pf_assets result) in
  let tradeHistoryHash := str_take 64 (js_join ","
    (js_sort String.ltb (map (fun t => pt_tradeId (tw_trade t)) allTrades))) in
  let summary := pf_summary result in
  {| hs_sleeveId := sleeveId;
     hs_strategyId := strategyId;
     hs_from := ps_firstTradeAt summary;
     hs_to := ps_lastTradeAt summary;
     hs_assets := map (fun a => (ar_asset a, as_realizedPnl (ar_summary a), as_totalTrades (ar_summary a))) (pf_assets result);
     hs_totalRealizedPnlUsd := ps_totalRealizedPnl summary;
     hs_totalFeesUsd := ps_totalFees summary;
     hs_netPnlUsd := ps_netPnl summary;
     hs_annualizedReturnPct := calculateAnnualizedReturn (ps_netPnl summary) initialCapital (ps_tradingDays summary);
     hs_tradeCount := ps_totalTrades summary;
     hs_winRatePct :=
       if 0 <? zlen (pf_assets result) then
         n_toFixed 2 (n_mul (n_div (num_of_Z (z_total (fun a => as_winningTrades (ar_summary a)) (pf_assets result)))
           (num_of_Z (Z.max (z_total (fun a => as_sellTrades (ar_summary a)) (pf_assets result)) 1))) (num_of_Z 100))
       else "0";
     hs_tradeHistoryHash := tradeHistoryHash;
     hs_calculationMethod := fifo;
     hs_verificationStatus := verificationStatus |}.

(** ** The matching loops end *)

Lemma n_sub_diag x : n_isFinite x = true -> n_sub x x = S754_zero false.
Proof.
  destruct x as [s|s| |s m e]; try done; intros _; [by destruct s|].
  unfold n_sub, SFsub. rewrite Z.min_id.
  generalize (cond_Zopp s (Z.pos (shl_align m e e).1)). intros z. by rewrite Z.sub_diag.
Qed.

Lemma dust_zero : n_le (S754_zero false) DUST = true /\ n_gt (S754_zero false) DUST = false.
Proof. split; reflexivity. Qed.

Lemma n_gt_nan_l x : n_gt S754_nan x = false.
Proof. unfold n_gt, n_lt, SFltb. by destruct x. Qed.

(** A body that leaves some of the buy used up the sell, or met an infinity. *)
Lemma match_buy_left r c b r' c' b' : n_gt r DUST = true -> match_buy r c b = (r', c', Some b') ->
  n_gt r' DUST = false \/ be_quantity b' = S754_nan.
Proof.
  intros Hr. unfold match_buy. destruct (n_le _ DUST) eqn:Hq; [done|]. intros [= <- _ <-]. cbn [be_quantity].
  set (q := be_quantity b) in *. destruct (n_isNaN q) eqn:Hn; [right; by destruct q|].
  assert (Hrn : n_isNaN r = false) by (destruct r; try done; by rewrite n_gt_nan_l in Hr).
  destruct (n_min_cases r q Hrn Hn) as [E|E]; rewrite E in *.
  - left. destruct (n_isFinite r) eqn:Hf; [rewrite n_sub_diag by done; apply dust_zero|].
    destruct r as [|[]| |]; try done; apply n_gt_nan_l.
  - destruct (n_isFinite q) eqn:Hf; [rewrite n_sub_diag, (proj1 dust_zero) in Hq by done; done|].
    right. by destruct q as [|[]| |].
Qed.

Lemma match_buy_nan r c b r' c' o : be_quantity b = S754_nan -> match_buy r c b = (r', c', o) -> n_gt r' DUST = false.
Proof.
  intros Hb. unfold match_buy. rewrite Hb. intros [= <- _ _].
  assert (n_min r S754_nan = S754_nan) as -> by (unfold n_min; cbn; by rewrite orb_true_r).
  assert (n_sub r S754_nan = S754_nan) as -> by by destruct r. apply n_gt_nan_l.
Qed.

(** What is left of a queue whose first buys were used: a later part of it,
    where some of the first buy may have been used as well. *)
Definition consumed (queue queue' : list BuyQueueEntry) : Prop := exists k,
  queue' = drop k queue \/
  exists b b' rest, drop k queue = b :: rest /\ queue' = b' :: rest /\
    be_price b' = be_price b /\ be_time b' = be_time b.

Lemma consumed_tail b queue queue' : consumed queue queue' -> consumed (b :: queue) queue'.
Proof. intros (k & Hk). exists (Datatypes.S k). exact Hk. Qed.

Lemma consumed_head b b1 queue queue' : be_price b1 = be_price b -> be_time b1 = be_time b ->
  consumed (b1 :: queue) queue' -> consumed (b :: queue) queue'.
Proof.
  intros Hp Ht ([|k] & Hk); [|by exists (Datatypes.S k)]. exists O. right. cbn in *.
  destruct Hk as [->|(x & x' & rest & [= <- <-] & -> & E1 & E2)]; eexists _, _, _; split_and!; try done; congruence.
Qed.

Lemma consumed_refl queue : consumed queue queue.
Proof. exists O. by left. Qed.

Lemma match_buy_kept r c b r' c' b' : match_buy r c b = (r', c', Some b') ->
  be_price b' = be_price b /\ be_time b' = be_time b.
Proof. unfold match_buy. destruct (n_le _ DUST); [done|]. by intros [= _ _ <-]. Qed.

Lemma match_fifo_stop fuel r c queue : n_gt r DUST = false -> match_fifo (Datatypes.S fuel) r c queue = Some (r, c, queue).
Proof. intros H. cbn [match_fifo]. by rewrite H. Qed.

Lemma match_fifo_total queue : forall r c fuel, (length queue + 3 <= fuel)%nat ->
  exists r' c' queue', match_fifo fuel r c queue = Some (r', c', queue') /\ consumed queue queue' /\
    (n_gt r' DUST = false \/ queue' = []).
Proof.
  induction queue as [|b rest IH]; intros r c [|f] Hf; try (cbn in Hf; lia); cbn [match_fifo].
  { destruct (n_gt r DUST) eqn:Hr; eexists _, _, _; (split; [done|]); split; try apply consumed_refl; auto. }
  destruct (n_gt r DUST) eqn:Hr; [|eexists _, _, _; split_and!; [done|apply consumed_refl|by left]].
  cbn [length] in Hf. destruct (match_buy r c b) as [[r1 c1] [b1|]] eqn:E1.
  2: { destruct (IH r1 c1 f) as (r' & c' & q' & E & Hc & Hs); [lia|]. eexists _, _, _. split_and!; [exact E|by apply consumed_tail|done]. }
  destruct (match_buy_kept _ _ _ _ _ _ E1) as [Kp Kt].
  destruct f as [|[|f]]; [lia|lia|].
  destruct (match_buy_left _ _ _ _ _ _ Hr E1) as [Hr1|Hn].
  { rewrite match_fifo_stop by done. eexists _, _, _. split_and!; [done| |by left]. eapply consumed_head; [exact Kp|exact Kt|apply consumed_refl]. }
  cbn [match_fifo]. destruct (n_gt r1 DUST) eqn:Hr1.
  - destruct (match_buy r1 c1 b1) as [[r2 c2] o] eqn:E2. pose proof (match_buy_nan _ _ _ _ _ _ Hn E2) as Hr2.
    rewrite Hr2. eexists _, _, _. split_and!; [done| |by left]. destruct o as [b2|].
    + destruct (match_buy_kept _ _ _ _ _ _ E2) as [Kp2 Kt2].
      eapply consumed_head; [|..|apply consumed_refl]; congruence.
    + apply consumed_tail, consumed_refl.
  - eexists _, _, _. split_and!; [done| |by left]. eapply consumed_head; [exact Kp|exact Kt|apply consumed_refl].
Qed.

Lemma unsnoc_snoc {A} (l : list A) x : unsnoc (l ++ [x]) = Some (l, x).
Proof. induction l as [|y l IH]; [done|]. cbn. by rewrite IH. Qed.

Lemma match_lifo_mirror fuel : forall r c queue,
  match_lifo fuel r c (rev queue) =
  match match_fifo fuel r c queue with Some (r', c', queue') => Some (r', c', rev queue') | None => None end.
Proof.
  induction fuel as [|f IH]; intros r c queue; [done|]. cbn [match_lifo match_fifo].
  destruct (n_gt r DUST); [|done]. destruct queue as [|b rest]; [done|]. cbn [rev]. rewrite unsnoc_snoc.
  destruct (match_buy r c b) as [[r1 c1] [b1|]]; [|apply IH]. change (rev rest ++ [b1]) with (rev (b1 :: rest)). apply IH.
Qed.

(** ** The results carry the trades *)

Lemma queue_pnl_trades m : forall trades queue, map tw_trade (queue_pnl m queue trades) = trades.
Proof.
  induction trades as [|t trades IH]; intros queue; [done|]. cbn [queue_pnl].
  assert (H : tw_trade (queue_step m queue t).2 = t).
  { unfold queue_step. destruct (bool_decide _); [done|]. by destruct (or_else _ _) as [[? ?] ?]. }
  destruct (queue_step m queue t) as [queue' tw]. cbn in *. by rewrite H, IH.
Qed.

Lemma average_pnl_trades : forall trades q c, map tw_trade (average_pnl q c trades) = trades.
Proof.
  induction trades as [|t trades IH]; intros q c; [done|]. cbn [average_pnl].
  assert (H : tw_trade (average_step q c t).2 = t) by (unfold average_step; by destruct (bool_decide _)).
  destruct (average_step q c t) as [[q' c'] tw]. cbn in *. by rewrite H, IH.
Qed.

Lemma asset_pnl_result t trades options : exists r, calculateAssetPnl (t :: trades) options = Ret r /\
  ar_asset r = pt_asset t /\ map tw_trade (ar_trades r) ≡ₚ t :: trades /\
  as_totalTrades (ar_summary r) = zlen (t :: trades).
Proof.
  eexists. split; [done|]. cbn [ar_asset ar_trades ar_summary]. split; [done|].
  set (l := match po_method options with fifo => _ | lifo => _ | avg => _ end).
  assert (E : map tw_trade l = by_time (t :: trades)).
  { unfold l, calculateFifoPnl, calculateLifoPnl, calculateAveragePnl. destruct (po_method options);
      [apply queue_pnl_trades|apply queue_pnl_trades|apply average_pnl_trades]. }
  assert (P : map tw_trade l ≡ₚ t :: trades) by (rewrite E; apply js_sort_perm).
  split; [done|]. unfold generateAssetSummary, zlen. cbn [as_totalTrades].
  rewrite <- (length_map tw_trade l). by rewrite P.
Qed.

(** ** Grouping *)

Definition asset_is (a : string) (t : ParsedTrade) : bool := bool_decide (pt_asset t = a).

(** The groups hold the trades of each asset, in order. *)
Definition grouped_ok (trades : list ParsedTrade) (g : list (string * list ParsedTrade)) : Prop :=
  NoDup (jm_keys g) /\
  (forall a l, jm_get a g = Some l -> l = List.filter (asset_is a) trades /\ l <> []) /\
  (forall a, a ∈ jm_keys g <-> a ∈ map pt_asset trades).

Lemma group_step_ok trades g t : grouped_ok trades g ->
  grouped_ok (trades ++ [t]) (jm_set (pt_asset t) (or_else (jm_get (pt_asset t) g) [] ++ [t]) g).
Proof.
  intros (Hn & Hg & Hk). split_and!.
  - by apply jm_set_NoDup.
  - intros a l. rewrite jm_get_set, List.filter_app. cbn [List.filter]. unfold asset_is at 2. case_decide as Ha.
    + subst a. rewrite bool_decide_true by done. intros [= <-]. split; [|by destruct (or_else _ _)]. f_equal.
      destruct (jm_get (pt_asset t) g) as [l'|] eqn:E; [by apply Hg in E as [-> _]|]. cbn. symmetry.
      destruct (List.filter (asset_is (pt_asset t)) trades) as [|t' l'] eqn:Ef; [done|exfalso].
      assert (Hin : In t' (List.filter (asset_is (pt_asset t)) trades)) by (rewrite Ef; by left).
      apply filter_In in Hin as [Hin Ht']. apply bool_decide_eq_true in Ht'.
      assert (Hka : pt_asset t ∈ jm_keys g).
      { apply Hk. rewrite <- Ht'. apply list_elem_of_In, in_map, Hin. }
      apply jm_get_keys in Hka as [? ?]. congruence.
    + rewrite bool_decide_false by congruence. rewrite app_nil_r. apply Hg.
  - intros a. rewrite jm_keys_set, Hk, map_app, elem_of_app. cbn. rewrite list_elem_of_singleton. tauto.
Qed.

Lemma group_ok trades : grouped_ok trades (groupTradesByAsset trades).
Proof.
  unfold groupTradesByAsset. induction trades as [|t trades IH] using rev_ind.
  - split_and!; [constructor|done|]. intros a. cbn. by rewrite elem_of_nil.
  - rewrite foldl_app. cbn [foldl]. by apply group_step_ok.
Qed.

(** Setting a key moves the total by the change of its value. *)
Lemma total_set (w : list ParsedTrade -> Z) (k : string) v g :
  foldr Z.add 0 (map w (jm_values (jm_set k v g))) =
  foldr Z.add 0 (map w (jm_values g)) + w v - match jm_get k g with Some v' => w v' | None => 0 end.
Proof.
  unfold jm_values. induction g as [|[k' v'] g IH]; cbn; [lia|]. case_decide; cbn; [lia|]. rewrite IH. lia.
Qed.

Lemma group_total trades : foldr Z.add 0 (map zlen (jm_values (groupTradesByAsset trades))) = zlen trades.
Proof.
  unfold groupTradesByAsset. induction trades as [|t trades IH] using rev_ind; [done|].
  rewrite foldl_app. cbn [foldl]. rewrite total_set, IH, !zlen_app. change (zlen [t]) with 1.
  destruct (jm_get _ _); cbn [or_else]; [lia|]. change (zlen (@nil ParsedTrade)) with 0. lia.
Qed.

(** ** The portfolio loop *)

(** The result of a group: its asset and its trades. *)
Definition result_of (group : string * list ParsedTrade) (r : AssetPnlResult) : Prop :=
  ar_asset r = group.1 /\ map tw_trade (ar_trades r) ≡ₚ group.2 /\ as_totalTrades (ar_summary r) = zlen group.2.

Lemma portfolio_loop options groups : forall acc,
  Forall (fun g => g.2 <> [] /\ Forall (fun t => pt_asset t = g.1) g.2) groups ->
  exists acc' rs, fold_exn (portfolio_step options) acc groups = Ret acc' /\
    pa_assets acc' = pa_assets acc ++ rs /\ Forall2 result_of groups rs /\
    pa_totalTrades acc' = pa_totalTrades acc + foldr Z.add 0 (map zlen (groups.*2)).
Proof.
  induction groups as [|[a l] groups IH]; intros acc Hg.
  { exists acc, []. rewrite app_nil_r. split_and!; [done|done|constructor|cbn; lia]. }
  apply Forall_cons in Hg as [[Hne Ha] Hg]. cbn [fst snd] in *. destruct l as [|t l]; [done|].
  destruct (asset_pnl_result t l options) as (r & E & E1 & E2 & E3).
  assert (exists acc1, portfolio_step options acc (a, t :: l) = Ret acc1 /\ pa_assets acc1 = pa_assets acc ++ [r] /\
    pa_totalTrades acc1 = pa_totalTrades acc + zlen (t :: l)) as (acc1 & S1 & S2 & S3).
  { unfold portfolio_step. cbn [snd]. exn_step E. eexists. split_and!; [done|done|]. cbn [pa_totalTrades]. by rewrite E3. }
  cbn [fold_exn]. exn_step S1. destruct (IH acc1 Hg) as (acc' & rs & H1 & H2 & H3 & H4). exists acc', (r :: rs).
  split_and!.
  - exact H1.
  - by rewrite H2, S2, <- app_assoc.
  - constructor; [|done]. split_and!; [|done|done]. apply Forall_cons in Ha as [Ha _]. cbn. congruence.
  - rewrite H4, S3. cbn [fmap list_fmap map foldr fst snd]. lia.
Qed.

(** ** Properties *)

(** C38. Matching a sell with the queued buys ends within three more iterations
    than there are buys, whatever the amounts (infinities included): the sell
    is used up or no buy is left, and what is left of the queue is a later part
    of it, in order, of whose first buy some may be used. *)
Theorem fifo_matching_terminates (quantity : num) (queue : list BuyQueueEntry) :
  exists remaining cost queue', match_fifo (match_fuel queue) quantity n_zero queue = Some (remaining, cost, queue') /\
    consumed queue queue' /\ (n_gt remaining DUST = false \/ queue' = []).
Proof. by apply match_fifo_total. Qed.

(** C37. The last-in-first-out method is the first-in-first-out method from the
    other end of the queue: on a queue read backwards it leaves the same amount,
    computes the same cost basis and leaves the same buys, read backwards. *)
Theorem lifo_is_reversed_fifo (quantity : num) (queue : list BuyQueueEntry) :
  exists remaining cost queue',
    match_fifo (match_fuel (rev queue)) quantity n_zero (rev queue) = Some (remaining, cost, queue') /\
    match_lifo (match_fuel queue) quantity n_zero queue = Some (remaining, cost, rev queue') /\
    consumed (rev queue) queue'.
Proof.
  destruct (match_fifo_total (rev queue) quantity n_zero (match_fuel (rev queue))) as (r & c & q & E & Hc & _); [done|].
  exists r, c, q. split_and!; [done| |done]. rewrite <- (rev_involutive queue), match_lifo_mirror.
  unfold match_fuel in *. rewrite !length_rev in *. by rewrite E.
Qed.

(** The portfolio calculation never fails on grouped trades and loses none:
    it has one result per traded asset, no asset twice, each with exactly the
    trades of its asset, and its trade count is the number of trades. *)
Theorem portfolio_counts_every_trade (trades : list ParsedTrade) (options : PnlCalculationOptions) (now : Z) :
  exists r, calculatePortfolioPnl (groupTradesByAsset trades) options now = Ret r /\
    ps_totalTrades (pf_summary r) = zlen trades /\ ps_uniqueAssets (pf_summary r) = zlen (pf_assets r) /\
    NoDup (map ar_asset (pf_assets r)) /\
    (forall a, a ∈ map ar_asset (pf_assets r) <-> a ∈ map pt_asset trades) /\
    Forall (fun x => map tw_trade (ar_trades x) ≡ₚ List.filter (asset_is (ar_asset x)) trades) (pf_assets r).
Proof.
  destruct (group_ok trades) as (Hn & Hg & Hk). pose proof (group_total trades) as Ht.
  set (g := groupTradesByAsset trades) in *.
  assert (Hgroups : Forall (fun x => x.2 = List.filter (asset_is x.1) trades /\ x.2 <> []) g).
  { apply Forall_forall. intros [a l] Hin. apply (jm_get_spec g a l Hn) in Hin. by apply Hg in Hin. }
  destruct (portfolio_loop options g (MkPortfolioAcc [] n_zero n_zero 0 None None 0 0)) as (acc & rs & E1 & E2 & E3 & E4).
  { eapply Forall_impl; [exact Hgroups|]. intros [a l] [-> Hne]. split; [done|]. cbn [fst snd]. apply Forall_forall.
    intros t Hin%list_elem_of_In. apply filter_In in Hin as [_ Hin]. by apply bool_decide_eq_true in Hin. }
  unfold calculatePortfolioPnl. exn_step E1. eexists. split; [done|]. cbn [pf_summary pf_assets ps_totalTrades ps_uniqueAssets].
  cbn in E2, E4. rewrite E2, E4. unfold jm_values in Ht.
  assert (Hassets : map ar_asset rs = jm_keys g).
  { clear -E3. unfold jm_keys. induction E3 as [|x r g rs [H _] _ IH]; [done|]. cbn. by rewrite H, IH. }
  rewrite Hassets. split_and!; [lia|done|done|done|].
  clear -E3 Hgroups. induction E3 as [|x r g rs (E & P & _) _ IH]; [constructor|].
  apply Forall_cons in Hgroups as [[Hx _] Hgroups]. constructor; [|by apply IH]. by rewrite P, E, Hx.
Qed.
