(* ===== verification/StrategyPolicy.v ===== *)
(** * Eligibility of the carry strategy (packages/carry: strategy-policy.ts)

    [buildCarryStrategyProfile] describes the carry strategy and decides, by
    six rules, whether its metadata satisfies the product policy.  The file
    shows what the eligibility amounts to, with the rounding the code applies
    to percentages before it compares them. *)
From S2P Require Import Prelude JsNumber JsValue JsText DecimalLib DecimalExact Money.
Open Scope Z_scope.

(** ** Data *)

Inductive BuildABearYieldSourceCategory :=
| delta_neutral_carry | funding_basis | yield_bearing_stable_circular | junior_tranche | insurance_pool
| dex_lp | leverage_looping | other_yield_source.
#[export] Instance yield_source_eq_dec : EqDecision BuildABearYieldSourceCategory.
Proof. solve_decision. Defined.
Definition yield_source_str (c : BuildABearYieldSourceCategory) : string :=
  match c with
  | delta_neutral_carry => "delta_neutral_carry" | funding_basis => "funding_basis"
  | yield_bearing_stable_circular => "yield_bearing_stable_circular" | junior_tranche => "junior_tranche"
  | insurance_pool => "insurance_pool" | dex_lp => "dex_lp" | leverage_looping => "leverage_looping"
  | other_yield_source => "other"
  end.

Inductive BuildABearLeverageModel := unlevered | perp_basis_hedged | looping | other_leveraged.
#[export] Instance leverage_model_eq_dec : EqDecision BuildABearLeverageModel.
Proof. solve_decision. Defined.
Definition leverage_model_str (m : BuildABearLeverageModel) : string :=
  match m with
  | unlevered => "unlevered" | perp_basis_hedged => "perp_basis_hedged" | looping => "looping"
  | other_leveraged => "other_leveraged"
  end.

Inductive BuildABearOracleDependencyClass :=
| hardcoded | market_oracle_non_hardcoded | external_oracle_non_hardcoded.
#[export] Instance oracle_class_eq_dec : EqDecision BuildABearOracleDependencyClass.
Proof. solve_decision. Defined.
Definition oracle_class_str (c : BuildABearOracleDependencyClass) : string :=
  match c with
  | hardcoded => "hardcoded" | market_oracle_non_hardcoded => "market_oracle_non_hardcoded"
  | external_oracle_non_hardcoded => "external_oracle_non_hardcoded"
  end.

Inductive CarryStrategyApyEvidenceKind := ek_projected | ek_backtested | ek_devnet | ek_live_verified | ek_unavailable.
Inductive CarryStrategyEvidenceScope := sc_devnet | sc_backtest | sc_live | sc_simulation | sc_unknown.
Inductive CarryStrategyLatestEvidenceSource :=
| es_none | es_projected | es_backtest | es_devnet_execution | es_live_execution.
#[export] Instance evidence_source_eq_dec : EqDecision CarryStrategyLatestEvidenceSource.
Proof. solve_decision. Defined.

Inductive CarryStrategyEligibilityStatus := eligible | ineligible.
#[export] Instance eligibility_status_eq_dec : EqDecision CarryStrategyEligibilityStatus.
Proof. solve_decision. Defined.

Inductive CarryStrategyRuleKey :=
| base_asset_usdc | tenor_three_month_rolling | target_apy_floor | allowed_yield_source
| leverage_health_metadata | unsafe_looping_leverage.
#[export] Instance rule_key_eq_dec : EqDecision CarryStrategyRuleKey.
Proof. solve_decision. Defined.

Record BuildABearStrategyPolicy := MkStrategyPolicy {
  sp_baseAsset : string;
  sp_lockPeriodMonths : num;
  sp_rolling : bool;
  sp_reassessmentCadenceMonths : num;
  sp_minimumTargetApyPct : string;
  sp_minimumLoopHealthRate : string;
}.

(** [passes]: the status is pass. *)
Record CarryStrategyRuleResult := MkRuleResult {
  rr_ruleKey : CarryStrategyRuleKey;
  rr_passes : bool;
  rr_summary : string;
  rr_blockedReason : option string;
  rr_details : record_;
}.

Record CarryStrategyApyModel := MkApyModel {
  am_targetFloorPct : string;
  am_targetApyPct : string;
  am_projectedApyPct : option string;
  am_projectedApySource : CarryStrategyApyEvidenceKind;
  am_realizedApyPct : option string;
  am_realizedApySource : CarryStrategyApyEvidenceKind;
  am_realizedApyUpdatedAt : option string;
  am_summary : string;
}.

Record CarryStrategyTenorModel := MkTenorModel {
  tm_lockPeriodMonths : num;
  tm_rolling : bool;
  tm_reassessmentCadenceMonths : num;
  tm_summary : string;
}.

Inductive CarryStrategyRiskLimitKey := max_drawdown_pct | min_health_threshold | max_single_action_notional_usd.
Record CarryStrategyRiskLimit := MkRiskLimit {
  rl_key : CarryStrategyRiskLimitKey;
  rl_value : string;
  rl_summary : string;
}.

Record CarryStrategyEvidenceSummary := MkEvidence {
  ev_environment : CarryStrategyEvidenceScope;
  ev_supportLabel : string;
  ev_supportedScope : list string;
  ev_blockedScope : list string;
  ev_latestExecutionId : option string;
  ev_latestExecutionReference : option string;
  ev_latestConfirmationStatus : option string;
  ev_latestEvidenceSource : CarryStrategyLatestEvidenceSource;
  ev_summary : string;
}.

(** [Partial<CarryStrategyEvidenceSummary>]. *)
Record EvidenceInput := MkEvidenceInput {
  ei_environment : option CarryStrategyEvidenceScope;
  ei_supportLabel : option string;
  ei_supportedScope : option (list string);
  ei_blockedScope : option (list string);
  ei_latestExecutionId : option string;
  ei_latestExecutionReference : option string;
  ei_latestConfirmationStatus : option string;
  ei_latestEvidenceSource : option CarryStrategyLatestEvidenceSource;
  ei_summary : option string;
}.

Record CarryStrategyEligibility := MkEligibility {
  el_status : CarryStrategyEligibilityStatus;
  el_summary : string;
  el_blockedReasons : list string;
  el_ruleResults : list CarryStrategyRuleResult;
}.

(** The literal fields [strategyId], [sleeveId], [strategyFamily] and
    [lockReassessmentPolicy] are constants of the type. *)
Record CarryStrategyProfile := MkProfile {
  cp_strategyName : string;
  cp_vaultBaseAsset : string;
  cp_yieldSourceCategory : BuildABearYieldSourceCategory;
  cp_leverageModel : BuildABearLeverageModel;
  cp_leverageHealthThreshold : option string;
  cp_oracleDependencyClass : BuildABearOracleDependencyClass;
  cp_thesis : string;
  cp_riskProfile : string;
  cp_disallowedYieldSources : list BuildABearYieldSourceCategory;
  cp_apy : CarryStrategyApyModel;
  cp_tenor : CarryStrategyTenorModel;
  cp_riskLimits : list CarryStrategyRiskLimit;
  cp_evidence : CarryStrategyEvidenceSummary;
  cp_eligibility : CarryStrategyEligibility;
}.

(** A field that is absent or [null] is [None]: the code treats both alike. *)
Record CarryStrategyProfileInput := MkProfileInput {
  pi_strategyName : option string;
  pi_vaultBaseAsset : option string;
  pi_yieldSourceCategory : option BuildABearYieldSourceCategory;
  pi_leverageModel : option BuildABearLeverageModel;
  pi_leverageHealthThreshold : option string;
  pi_oracleDependencyClass : option BuildABearOracleDependencyClass;
  pi_targetApyPct : option string;
  pi_projectedApyPct : option string;
  pi_projectedApySource : option CarryStrategyApyEvidenceKind;
  pi_realizedApyPct : option string;
  pi_realizedApySource : option CarryStrategyApyEvidenceKind;
  pi_realizedApyUpdatedAt : option string;
  pi_lockPeriodMonths : option num;
  pi_rolling : option bool;
  pi_reassessmentCadenceMonths : option num;
  pi_thesis : option string;
  pi_riskProfile : option string;
  pi_riskLimits : option (list CarryStrategyRiskLimit);
  pi_evidence : option EvidenceInput;
}.

Definition DEFAULT_BUILD_A_BEAR_STRATEGY_POLICY : BuildABearStrategyPolicy :=
  MkStrategyPolicy "USDC" (num_of_Z 3) true (num_of_Z 3) "10.00" "1.05".

Definition DISALLOWED_BUILD_A_BEAR_YIELD_SOURCES : list BuildABearYieldSourceCategory :=
  [yield_bearing_stable_circular; junior_tranche; insurance_pool; dex_lp].

(** ** The evidence and the risk limits *)

Definition buildDefaultRiskLimits (healthThreshold : option string) : list CarryStrategyRiskLimit := [
  MkRiskLimit max_drawdown_pct "12.00" "Strategy-level drawdown limit for hackathon-facing vault metadata.";
  MkRiskLimit min_health_threshold (or_else healthThreshold "unknown")
    "Explicit leverage health threshold metadata is required whenever leverage is present.";
  MkRiskLimit max_single_action_notional_usd "25000.00"
    "Carry action notional stays bounded while live execution remains limited to the current approved devnet lane."].

Definition ev_field {A} (input : option EvidenceInput) (f : EvidenceInput -> option A) : option A := input ≫= f.

Definition buildEvidenceSummary (input : option EvidenceInput) : CarryStrategyEvidenceSummary :=
  let latestEvidenceSource := or_else (ev_field input ei_latestEvidenceSource) es_none in
  {| ev_environment := or_else (ev_field input ei_environment) sc_devnet;
     ev_supportLabel := or_else (ev_field input ei_supportLabel) "jupiter_perps_devnet";
     ev_supportedScope := or_else (ev_field input ei_supportedScope)
       ["USDC-denominated carry strategy metadata and policy enforcement.";
        "Jupiter Perpetuals devnet execution for BTC-PERP, ETH-PERP, SOL-PERP.";
        "Backtesting framework for strategy validation.";
        "Multi-leg carry orchestration framework."];
     ev_blockedScope := or_else (ev_field input ei_blockedScope)
       ["Mainnet execution remains blocked (devnet only for hackathon).";
        "No legacy execution venue support outside Jupiter Perps.";
        "New markets, non-USDC base assets, and DEX LP / junior tranche / insurance pool / circular-yield strategies remain blocked.";
        "CEX execution adapters not implemented."];
     ev_latestExecutionId := ev_field input ei_latestExecutionId;
     ev_latestExecutionReference := ev_field input ei_latestExecutionReference;
     ev_latestConfirmationStatus := ev_field input ei_latestConfirmationStatus;
     ev_latestEvidenceSource := latestEvidenceSource;
     ev_summary := or_else (ev_field input ei_summary)
       (if bool_decide (latestEvidenceSource = es_devnet_execution)
        then "The strategy has Jupiter Perpetuals devnet execution evidence."
        else "The strategy policy is configured for Jupiter Perpetuals devnet execution.") |}.

(** ** The rules *)

(** A rule that passes has no blocked reason. *)
Definition buildRuleResult (ruleKey : CarryStrategyRuleKey) (passes : bool) (pass_summary fail_summary blockedReason : string)
    (details : record_) : CarryStrategyRuleResult :=
  MkRuleResult ruleKey passes (if passes then pass_summary else fail_summary)
    (if passes then None else Some blockedReason) details.

Definition base_asset_rule (policy : BuildABearStrategyPolicy) (baseAsset : string) : CarryStrategyRuleResult :=
  buildRuleResult base_asset_usdc (bool_decide (baseAsset = sp_baseAsset policy))
    "Vault base asset is USDC as required."
    ("Vault base asset " +:+ baseAsset +:+ " is not eligible; Build-A-Bear requires USDC.")
    "vault_base_asset_must_be_usdc"
    [("expectedBaseAsset", JStr (sp_baseAsset policy)); ("observedBaseAsset", JStr baseAsset)].

Definition tenor_valid (policy : BuildABearStrategyPolicy) (tenor : CarryStrategyTenorModel) : bool :=
  n_eq (tm_lockPeriodMonths tenor) (sp_lockPeriodMonths policy)
  && bool_decide (tm_rolling tenor = sp_rolling policy)
  && n_eq (tm_reassessmentCadenceMonths tenor) (sp_reassessmentCadenceMonths policy).
Definition tenor_rule (policy : BuildABearStrategyPolicy) (tenor : CarryStrategyTenorModel) : CarryStrategyRuleResult :=
  buildRuleResult tenor_three_month_rolling (tenor_valid policy tenor)
    "Tenor is a 3-month rolling lock with 3-month reassessment cadence."
    "Tenor is not the required 3-month rolling lock with 3-month reassessment cadence."
    "vault_tenor_must_be_three_month_rolling"
    [("expectedLockPeriodMonths", JNum (sp_lockPeriodMonths policy)); ("expectedRolling", JBool (sp_rolling policy));
     ("expectedReassessmentCadenceMonths", JNum (sp_reassessmentCadenceMonths policy));
     ("observedLockPeriodMonths", JNum (tm_lockPeriodMonths tenor)); ("observedRolling", JBool (tm_rolling tenor));
     ("observedReassessmentCadenceMonths", JNum (tm_reassessmentCadenceMonths tenor))].

Definition source_allowed (c : BuildABearYieldSourceCategory) : bool :=
  negb (bool_decide (c ∈ DISALLOWED_BUILD_A_BEAR_YIELD_SOURCES)).
Definition yield_source_rule (c : BuildABearYieldSourceCategory) : CarryStrategyRuleResult :=
  buildRuleResult allowed_yield_source (source_allowed c)
    ("Yield source category " +:+ yield_source_str c +:+ " is allowed for Build-A-Bear.")
    ("Yield source category " +:+ yield_source_str c +:+ " is explicitly disallowed for Build-A-Bear.")
    "yield_source_category_disallowed"
    [("yieldSourceCategory", JStr (yield_source_str c));
     ("disallowedYieldSources", JArr (map (fun s => JStr (yield_source_str s)) DISALLOWED_BUILD_A_BEAR_YIELD_SOURCES))].

Definition leverage_rule (leverageModel : BuildABearLeverageModel) (threshold : option string) : CarryStrategyRuleResult :=
  buildRuleResult leverage_health_metadata
    (bool_decide (leverageModel = unlevered) || bool_decide (is_Some threshold))
    "Leverage metadata is explicit and includes a health threshold."
    "Leverage metadata is incomplete because no health-threshold floor was provided."
    "leverage_health_threshold_required"
    [("leverageModel", JStr (leverage_model_str leverageModel)); ("leverageHealthThreshold", JStrNull threshold)].

Section Profile.
Context `{DL : DecimalLib}.

(** Two decimals, or [null] for what is absent, blank or not a number. *)
Definition normalizeDecimalString (value : option string) : option string :=
  s ← value;
  if bool_decide (js_trim s = "") then None
  else match dec_of_string s with Ret d => Some (d_toFixedN 2 d) | Throw _ => None end.

Definition apy_rule (policy : BuildABearStrategyPolicy) (targetApyPct : string) : exn CarryStrategyRuleResult :=
  target ← dec_of_string targetApyPct;
  minimum ← dec_of_string (sp_minimumTargetApyPct policy);
  Ret (buildRuleResult target_apy_floor (d_gte target minimum)
    ("Target APY floor is " +:+ targetApyPct +:+ "% and meets the " +:+ sp_minimumTargetApyPct policy +:+ "% minimum.")
    ("Target APY floor " +:+ targetApyPct +:+ "% is below the " +:+ sp_minimumTargetApyPct policy +:+ "% minimum.")
    "target_apy_floor_below_minimum"
    [("minimumTargetApyPct", JStr (sp_minimumTargetApyPct policy)); ("observedTargetApyPct", JStr targetApyPct)]).

(** The conditions are evaluated from left to right, stopping at the first
    that is false. *)
Definition unsafe_looping (policy : BuildABearStrategyPolicy) (leverageModel : BuildABearLeverageModel)
    (oracle : BuildABearOracleDependencyClass) (threshold : option string) : exn bool :=
  if bool_decide (leverageModel = looping) && negb (bool_decide (oracle = hardcoded)) then
    match threshold with
    | None => Ret true
    | Some t =>
        health ← dec_of_string t;
        minimum ← dec_of_string (sp_minimumLoopHealthRate policy);
        Ret (d_lt health minimum)
    end
  else Ret false.
Definition looping_rule (policy : BuildABearStrategyPolicy) (leverageModel : BuildABearLeverageModel)
    (oracle : BuildABearOracleDependencyClass) (threshold : option string) : exn CarryStrategyRuleResult :=
  unsafe ← unsafe_looping policy leverageModel oracle threshold;
  Ret (buildRuleResult unsafe_looping_leverage (negb unsafe)
    "No disqualifying unsafe looping leverage condition is present."
    ("Looping strategy health threshold " +:+ or_else threshold "unknown" +:+ " is below " +:+
     sp_minimumLoopHealthRate policy +:+ " on a non-hardcoded oracle dependency.")
    "unsafe_looping_leverage_disallowed"
    [("leverageModel", JStr (leverage_model_str leverageModel)); ("leverageHealthThreshold", JStrNull threshold);
     ("oracleDependencyClass", JStr (oracle_class_str oracle));
     ("minimumLoopHealthRate", JStr (sp_minimumLoopHealthRate policy))]).

Definition profile_tenor (input : CarryStrategyProfileInput) (policy : BuildABearStrategyPolicy) : CarryStrategyTenorModel :=
  let lock := or_else (pi_lockPeriodMonths input) (sp_lockPeriodMonths policy) in
  let cadence := or_else (pi_reassessmentCadenceMonths input) (sp_reassessmentCadenceMonths policy) in
  MkTenorModel lock (or_else (pi_rolling input) (sp_rolling policy)) cadence
    ("Lock period is " +:+ n_str lock +:+ " months and reassessment occurs every " +:+ n_str cadence +:+
     " months on a rolling basis.").

Definition profile_apy (input : CarryStrategyProfileInput) (policy : BuildABearStrategyPolicy) : CarryStrategyApyModel :=
  let projected := normalizeDecimalString (pi_projectedApyPct input) in
  let realized := normalizeDecimalString (pi_realizedApyPct input) in
  {| am_targetFloorPct := sp_minimumTargetApyPct policy;
     am_targetApyPct := or_else (normalizeDecimalString (pi_targetApyPct input)) (sp_minimumTargetApyPct policy);
     am_projectedApyPct := projected;
     am_projectedApySource := or_else (pi_projectedApySource input)
       (match projected with None => ek_unavailable | Some _ => ek_projected end);
     am_realizedApyPct := realized;
     am_realizedApySource := or_else (pi_realizedApySource input)
       (match realized with None => ek_unavailable | Some _ => ek_devnet end);
     am_realizedApyUpdatedAt := pi_realizedApyUpdatedAt input;
     am_summary := match realized with
       | None => "Realized APY is currently unavailable or unverified; only target and projected APY are surfaced."
       | Some _ => "Realized APY is surfaced with explicit evidence labeling and is not conflated with projected APY."
       end |}.

(** The health threshold defaults to 1.10 only when no leverage model is given. *)
Definition health_threshold (input : CarryStrategyProfileInput) : option string :=
  normalizeDecimalString
    (match pi_leverageHealthThreshold input with
     | Some t => Some t
     | None => match pi_leverageModel input with None => Some "1.10" | Some _ => None end
     end).

Definition eligibility_of (ruleResults : list CarryStrategyRuleResult) : CarryStrategyEligibility :=
  let blockedReasons := omap (fun r => if rr_passes r then None else rr_blockedReason r) ruleResults in
  {| el_status := if is_empty blockedReasons then eligible else ineligible;
     el_summary := if is_empty blockedReasons
       then "Strategy metadata satisfies the Build-A-Bear product-policy rules, but execution scope remains narrow and devnet-only."
       else "Strategy metadata does not currently satisfy all Build-A-Bear product-policy rules and remains blocked.";
     el_blockedReasons := blockedReasons;
     el_ruleResults := ruleResults |}.

Definition buildCarryStrategyProfile (input : CarryStrategyProfileInput) (policy : BuildABearStrategyPolicy)
    : exn CarryStrategyProfile :=
  let threshold := health_threshold input in
  let tenor := profile_tenor input policy in
  let apy := profile_apy input policy in
  let baseAsset := or_else (pi_vaultBaseAsset input) (sp_baseAsset policy) in
  let yieldSource := or_else (pi_yieldSourceCategory input) delta_neutral_carry in
  let leverageModel := or_else (pi_leverageModel input) perp_basis_hedged in
  let oracle := or_else (pi_oracleDependencyClass input) market_oracle_non_hardcoded in
  target_rule ← apy_rule policy (am_targetApyPct apy);
  loop_rule ← looping_rule policy leverageModel oracle threshold;
  Ret {|
    cp_strategyName := or_else (pi_strategyName input) "Apex USDC Delta-Neutral Carry";
    cp_vaultBaseAsset := baseAsset; cp_yieldSourceCategory := yieldSource; cp_leverageModel := leverageModel;
    cp_leverageHealthThreshold := threshold; cp_oracleDependencyClass := oracle;
    cp_thesis := or_else (pi_thesis input)
      "Capture delta-neutral carry in a USDC-denominated sleeve without DEX LP, junior tranche, insurance-pool, or circular stable yield exposure.";
    cp_riskProfile := or_else (pi_riskProfile input)
      "Constrained, operator-supervised carry strategy with explicit tenor, APY target floor, and venue-scope gating.";
    cp_disallowedYieldSources := DISALLOWED_BUILD_A_BEAR_YIELD_SOURCES;
    cp_apy := apy; cp_tenor := tenor;
    cp_riskLimits := or_else (pi_riskLimits input) (buildDefaultRiskLimits threshold);
    cp_evidence := buildEvidenceSummary (pi_evidence input);
    cp_eligibility := eligibility_of [base_asset_rule policy baseAsset; tenor_rule policy tenor; target_rule;
      yield_source_rule yieldSource; leverage_rule leverageModel threshold; loop_rule];
  |}.
End Profile.

(** ** What eligibility amounts to *)

Section Eligible.
Context `{DL : DecimalLib} `{LW : !DecimalLaws}.

(** An optional percentage, in hundredths after the rounding to two decimals;
    absent, blank and unreadable text count as nothing. *)
Definition reads_as (o : option string) (v : option Z) : Prop :=
  match o with
  | None => v = None
  | Some s =>
      if bool_decide (js_trim s = "") then v = None
      else (v = None /\ exists e, dec_of_string s = Throw e) \/
           (exists x, v = Some (half_up 2 x) /\ 0 <= x /\ amount 4 s x)
  end.

Lemma normalize_reads o v : reads_as o v ->
  match v with
  | None => normalizeDecimalString o = None
  | Some x => exists t, normalizeDecimalString o = Some t /\ amount 2 t x
  end.
Proof.
  unfold reads_as, normalizeDecimalString. destruct o as [s|]; [|by intros ->]. cbn [mbind option_bind].
  case_bool_decide; [by intros ->|]. intros [(-> & e & ->)|(x & -> & Hx & d & -> & Sd)]; [done|].
  exists (d_toFixedN 2 d). split; [done|]. by apply (scaled_fixed 2 2).
Qed.

(** The threshold text the profile reads. *)
Definition threshold_input (input : CarryStrategyProfileInput) : option string :=
  match pi_leverageHealthThreshold input with
  | Some t => Some t
  | None => match pi_leverageModel input with None => Some "1.10" | Some _ => None end
  end.

(** What the policy asks of the metadata: [target] and [health] are the
    rounded target yield and health threshold, [floor] and [min_health] the
    policy's. *)
Record satisfies_policy (input : CarryStrategyProfileInput) (policy : BuildABearStrategyPolicy)
    (target health : option Z) (floor min_health : Z) : Prop := {
  sat_asset : or_else (pi_vaultBaseAsset input) (sp_baseAsset policy) = sp_baseAsset policy;
  sat_tenor : tenor_valid policy (profile_tenor input policy) = true;
  sat_target : floor <= or_else target floor;
  sat_source : or_else (pi_yieldSourceCategory input) delta_neutral_carry ∉ DISALLOWED_BUILD_A_BEAR_YIELD_SOURCES;
  sat_threshold : or_else (pi_leverageModel input) perp_basis_hedged <> unlevered -> health <> None;
  sat_looping : pi_leverageModel input = Some looping ->
    or_else (pi_oracleDependencyClass input) market_oracle_non_hardcoded <> hardcoded ->
    exists h, health = Some h /\ min_health <= h;
}.

Lemma looping_rule_reads policy model oracle threshold health H :
  amount 2 (sp_minimumLoopHealthRate policy) H ->
  match health with None => threshold = None | Some x => exists t, threshold = Some t /\ amount 2 t x end ->
  exists unsafe, unsafe_looping policy model oracle threshold = Ret unsafe /\
    (unsafe = false <-> (model = looping -> oracle <> hardcoded -> exists h, health = Some h /\ H <= h)).
Proof.
  intros (dh & Eh & Sh) Ht. unfold unsafe_looping.
  destruct (bool_decide (model = looping)) eqn:Em; [apply bool_decide_eq_true in Em|apply bool_decide_eq_false in Em; eexists; split; [done|tauto]].
  destruct (bool_decide (oracle = hardcoded)) eqn:Eo; [apply bool_decide_eq_true in Eo; eexists; split; [done|tauto]|].
  apply bool_decide_eq_false in Eo. cbn [andb negb]. destruct health as [h|].
  - destruct Ht as (t & -> & d & Ed & Sd). exn_step Ed. exn_step Eh. eexists. split; [done|].
    rewrite (scaled_lt 2 _ _ _ _ ltac:(lia) Sd Sh), Z.ltb_ge. split; [eauto|]. intros Hp. by destruct (Hp Em Eo) as (h' & [= <-] & ?).
  - rewrite Ht. eexists. split; [done|]. split; [done|]. intros Hp. by destruct (Hp Em Eo) as (h' & ? & _).
Qed.

Lemma omap_reasons_empty rules :
  Forall (fun r => rr_passes r = false -> is_Some (rr_blockedReason r)) rules ->
  is_empty (omap (fun r => if rr_passes r then None else rr_blockedReason r) rules) = forallb rr_passes rules.
Proof.
  induction 1 as [|r rules Hr _ IH]; [done|]. cbn [omap list_omap forallb]. destruct (rr_passes r) eqn:E; [exact IH|].
  by destruct (Hr eq_refl) as [x ->].
Qed.

Lemma rule_gives_reason key b s1 s2 reason d :
  rr_passes (buildRuleResult key b s1 s2 reason d) = false -> is_Some (rr_blockedReason (buildRuleResult key b s1 s2 reason d)).
Proof. cbn. intros ->. by eexists. Qed.

(** Every failing rule gives its reason, so eligibility is that all rules pass. *)
Lemma eligibility_spec rules : Forall (fun r => rr_passes r = false -> is_Some (rr_blockedReason r)) rules ->
  (el_status (eligibility_of rules) = eligible <-> forallb rr_passes rules = true) /\
  (el_status (eligibility_of rules) = eligible <-> el_blockedReasons (eligibility_of rules) = []).
Proof.
  intros H. unfold eligibility_of. cbn [el_status el_blockedReasons]. rewrite <- is_empty_nil, <- (omap_reasons_empty _ H).
  by destruct (is_empty _).
Qed.

(** The eligibility of a profile is that of its rules. *)
Lemma profile_eligibility input policy p : buildCarryStrategyProfile input policy = Ret p ->
  el_status (cp_eligibility p) = eligible <-> forallb rr_passes (el_ruleResults (cp_eligibility p)) = true.
Proof.
  unfold buildCarryStrategyProfile, apy_rule, looping_rule. cbv zeta. intros H.
  exn_inv H as r1 E1. exn_inv H as r2 E2. injection H as <-. cbn [cp_eligibility el_ruleResults].
  exn_inv E1 as d1 F1. exn_inv E1 as d2 F2. injection E1 as <-. exn_inv E2 as u F3. injection E2 as <-.
  match goal with |- context [eligibility_of ?l] =>
    destruct (eligibility_spec l) as [E _]; [repeat constructor; apply rule_gives_reason|] end.
  exact E.
Qed.

(** The strategy profile is built for every input whose percentages can be
    read or count as nothing, and the strategy is eligible exactly when its
    metadata satisfies the policy, the percentages being compared after they
    were rounded half up to two decimals: a target yield of 9.995% meets a
    floor of 10%, and so does one that cannot be read. *)
Theorem carry_profile_eligible_exact (input : CarryStrategyProfileInput) (policy : BuildABearStrategyPolicy)
    (target health : option Z) (floor min_health : Z)
    (Hfloor : amount 2 (sp_minimumTargetApyPct policy) floor)
    (Hmin : amount 2 (sp_minimumLoopHealthRate policy) min_health)
    (Htarget : reads_as (pi_targetApyPct input) target) (Hhealth : reads_as (threshold_input input) health) :
  exists p, buildCarryStrategyProfile input policy = Ret p /\
    (el_status (cp_eligibility p) = eligible <-> satisfies_policy input policy target health floor min_health) /\
    (el_status (cp_eligibility p) = eligible <-> el_blockedReasons (cp_eligibility p) = []).
Proof.
  pose proof (normalize_reads _ _ Htarget) as Nt. pose proof (normalize_reads _ _ Hhealth) as Nh.
  assert (Ht : amount 2 (am_targetApyPct (profile_apy input policy)) (or_else target floor)).
  { cbn [profile_apy am_targetApyPct]. destruct target as [x|]; [|by rewrite Nt]. by destruct Nt as (t & -> & ?). }
  destruct Ht as (dt & Et & St). destruct Hfloor as (df & Ef & Sf).
  destruct (looping_rule_reads policy (or_else (pi_leverageModel input) perp_basis_hedged)
    (or_else (pi_oracleDependencyClass input) market_oracle_non_hardcoded) (health_threshold input) health min_health Hmin Nh)
    as (unsafe & Eu & Su).
  unfold buildCarryStrategyProfile, apy_rule, looping_rule. exn_step Et. exn_step Ef. exn_step Eu.
  eexists. split; [reflexivity|]. cbn [cp_eligibility].
  match goal with |- context [eligibility_of ?l] =>
    destruct (eligibility_spec l) as [E1 E2]; [repeat constructor; apply rule_gives_reason|] end.
  split; [|exact E2]. rewrite E1. cbn [forallb rr_passes buildRuleResult base_asset_rule tenor_rule yield_source_rule leverage_rule].
  rewrite !andb_true_iff, (scaled_gte 2 _ _ _ _ St Sf), Z.leb_le, bool_decide_eq_true, negb_true_iff, Su, orb_true_iff, !bool_decide_eq_true.
  unfold source_allowed. rewrite negb_true_iff, bool_decide_eq_false.
  assert (Hth : is_Some (health_threshold input) <-> health <> None).
  { unfold health_threshold, threshold_input in *. destruct health as [h|]; [destruct Nh as (t & -> & _)|rewrite Nh]; naive_solver. }
  rewrite Hth. split.
  - intros (H1 & H2 & H3 & H4 & H5 & H6 & _). constructor; try done.
    + intros Hne. by destruct H5.
    + intros El. rewrite El in H6. by apply H6.
  - intros [H1 H2 H3 H4 H5 H6]. split_and!; try done.
    + destruct (decide (or_else (pi_leverageModel input) perp_basis_hedged = unlevered)); [by left|right; by apply H5].
    + intros El. apply H6. by destruct (pi_leverageModel input); cbn in El; simplify_eq.
Qed.
End Eligible.

(** ** A strategy just below the limits *)

Definition almost_input : CarryStrategyProfileInput := {|
  pi_strategyName := None; pi_vaultBaseAsset := None; pi_yieldSourceCategory := None; pi_leverageModel := Some looping;
  pi_leverageHealthThreshold := Some "1.045"; pi_oracleDependencyClass := None; pi_targetApyPct := Some "9.995";
  pi_projectedApyPct := None; pi_projectedApySource := None; pi_realizedApyPct := None; pi_realizedApySource := None;
  pi_realizedApyUpdatedAt := None; pi_lockPeriodMonths := None; pi_rolling := None; pi_reassessmentCadenceMonths := None;
  pi_thesis := None; pi_riskProfile := None; pi_riskLimits := None; pi_evidence := None |}.

Lemma carry_profile_eligible_exact_witness :
  exists p, buildCarryStrategyProfile (DL := exact_decimal) almost_input DEFAULT_BUILD_A_BEAR_STRATEGY_POLICY = Ret p /\
    el_status (cp_eligibility p) = eligible.
Proof.
  destruct (carry_profile_eligible_exact (DL := exact_decimal) almost_input DEFAULT_BUILD_A_BEAR_STRATEGY_POLICY
    (Some 1000) (Some 105) 1000 105) as (p & Ep & Sp & _).
  - apply units_in_parses. reflexivity.
  - apply units_in_parses. reflexivity.
  - right. exists 99950. split_and!; [reflexivity|lia|]. apply units_in_parses. reflexivity.
  - right. exists 10450. split_and!; [reflexivity|lia|]. apply units_in_parses. reflexivity.
  - exists p. split; [exact Ep|]. apply Sp. constructor; try done.
    + vm_compute. intros H. repeat (apply elem_of_cons in H as [H|H]; [discriminate H|]). inversion H.
    + intros _ _. by exists 105.
Defined.

(** A target that cannot be read counts as the floor. *)
Example unreadable_target_is_floor :
  (match buildCarryStrategyProfile (DL := exact_decimal)
     (MkProfileInput None None None None None None (Some "ten percent") None None None None None None None None None None None None)
     DEFAULT_BUILD_A_BEAR_STRATEGY_POLICY with
   | Ret p => Some (am_targetApyPct (cp_apy p), el_status (cp_eligibility p))
   | Throw _ => None
   end) = Some ("10.00", eligible).
Proof. vm_compute. reflexivity. Qed.
