(* ===== verification/CarryExecution.v ===== *)
(** * Controlled carry execution (packages/carry: types.ts, controlled-execution.ts)

    [CarryControlledExecutionPlanner] turns recommendations into execution
    intents with the reasons that block them, and [buildCarryReductionIntents]
    plans the orders that reduce open positions by a notional.  The file shows
    exactly when an intent is executable, and that a reduction plan reduces the
    requested notional as far as the positions allow. *)
From Stdlib Require Import Sorting.Sorted.
From S2P Require Import Prelude JsNumber JsValue JsText DecimalLib DecimalExact Money Domain Executor StrategyPolicy.
Open Scope Z_scope.

(** ** types.ts *)

Inductive CarryActionType := increase_carry_exposure | reduce_carry_exposure | restore_carry_budget.
#[export] Instance CarryActionType_eq_dec : EqDecision CarryActionType.
Proof. solve_decision. Defined.
Definition CarryActionType_str (a : CarryActionType) : string :=
  match a with
  | increase_carry_exposure => "increase_carry_exposure" | reduce_carry_exposure => "reduce_carry_exposure"
  | restore_carry_budget => "restore_carry_budget"
  end.

Inductive CarryExecutionMode := cm_dry_run | cm_live.
#[export] Instance CarryExecutionMode_eq_dec : EqDecision CarryExecutionMode.
Proof. solve_decision. Defined.
Definition CarryExecutionMode_str (m : CarryExecutionMode) : string :=
  match m with cm_dry_run => "dry-run" | cm_live => "live" end.

Inductive CarryApprovalRequirement := ca_operator | ca_admin.
Inductive CarryActionReadiness := actionable | blocked_.
Inductive CarryRecommendationSourceKind := from_opportunity | from_rebalance.

Inductive CarryOperationalBlockedReasonCode :=
| below_minimum_action_size | runtime_not_ready | critical_mismatch_pressure | carry_throttle_active
| carry_budget_exceeded | venue_execution_unsupported | venue_live_unapproved | venue_live_ineligible
| live_execution_disabled | simulated_execution_only | unsupported_strategy_base_asset | unsupported_strategy_tenor
| strategy_target_apy_below_floor | disallowed_yield_source | missing_leverage_health_threshold
| unsafe_leverage_looping | opportunity_confidence_below_threshold | opportunity_expired | no_open_positions
| insufficient_position_reduction_capacity.
#[export] Instance CarryBlockedCode_eq_dec : EqDecision CarryOperationalBlockedReasonCode.
Proof. solve_decision. Defined.

Inductive CarryOperationalBlockedReasonCategory :=
| cat_action_size | cat_runtime | cat_risk | cat_budget | cat_venue_capability | cat_execution_mode
| cat_strategy_policy | cat_opportunity | cat_exposure.

Record CarryOperationalPolicy := MkCarryPolicy {
  co_minimumActionableUsd : string;
  co_minimumConfidenceScore : num;
}.

(** [Partial<CarryOperationalPolicy>] and [Partial<BuildABearStrategyPolicy>]. *)
Record CarryPolicyOverrides := MkCarryOverrides {
  cv_minimumActionableUsd : option string;
  cv_minimumConfidenceScore : option num;
}.
Record StrategyPolicyOverrides := MkStrategyOverrides {
  so_baseAsset : option string;
  so_lockPeriodMonths : option num;
  so_rolling : option bool;
  so_reassessmentCadenceMonths : option num;
  so_minimumTargetApyPct : option string;
  so_minimumLoopHealthRate : option string;
}.

Record CarryPositionSnapshot := MkCarryPosition {
  cs_positionId : string;
  cs_venueId : string;
  cs_asset : string;
  cs_side : PositionSide;
  cs_size : string;
  cs_markPrice : string;
  cs_updatedAt : string;
}.

Record CarryExecutionRecommendation := MkCarryRecommendation {
  cr_actionType : CarryActionType;
  cr_sourceKind : CarryRecommendationSourceKind;
  cr_sourceReference : option string;
  cr_opportunityId : option string;
  cr_asset : option string;
  cr_summary : string;
  cr_notionalUsd : string;
  cr_details : record_;
  cr_plannedOrders : list OrderIntent;
}.

Record CarryOperationalBlockedReason := MkCarryBlocked {
  cb_code : CarryOperationalBlockedReasonCode;
  cb_category : CarryOperationalBlockedReasonCategory;
  cb_message : string;
  cb_operatorAction : string;
  cb_details : record_;
}.

Record CarryExecutionEffects := MkCarryEffects {
  ce_currentCarryAllocationUsd : string;
  ce_projectedCarryAllocationUsd : string;
  ce_projectedCarryAllocationPct : option num;
  ce_approvedCarryBudgetUsd : option string;
  ce_projectedRemainingBudgetUsd : option string;
  ce_openPositionCount : Z;
}.

Record CarryExecutionIntent := MkCarryIntent {
  ci_actionType : CarryActionType;
  ci_sourceKind : CarryRecommendationSourceKind;
  ci_sourceReference : option string;
  ci_opportunityId : option string;
  ci_asset : option string;
  ci_summary : string;
  ci_notionalUsd : string;
  ci_details : record_;
  ci_readiness : CarryActionReadiness;
  ci_blockedReasons : list CarryOperationalBlockedReason;
  ci_executable : bool;
  ci_approvalRequirement : CarryApprovalRequirement;
  ci_executionMode : CarryExecutionMode;
  ci_simulated : bool;
  ci_plannedOrders : list OrderIntent;
  ci_effects : CarryExecutionEffects;
  ci_strategyProfile : CarryStrategyProfile;
}.

Inductive CarryVenueMode := mode_simulated | mode_live.
#[export] Instance CarryVenueMode_eq_dec : EqDecision CarryVenueMode.
Proof. solve_decision. Defined.
Inductive CarryPromotionStatus := not_requested | pending_review | promotion_approved | promotion_rejected | suspended.
Definition CarryPromotionStatus_str (s : CarryPromotionStatus) : string :=
  match s with
  | not_requested => "not_requested" | pending_review => "pending_review" | promotion_approved => "approved"
  | promotion_rejected => "rejected" | suspended => "suspended"
  end.

(** The fields that the planner does not read ([healthy], [onboardingState],
    [missingPrerequisites], [metadata]) are left out. *)
Record CarryVenueCapabilities := MkCarryCapabilities {
  vk_venueId : string;
  vk_venueMode : CarryVenueMode;
  vk_executionSupported : bool;
  vk_supportsIncreaseExposure : bool;
  vk_supportsReduceExposure : bool;
  vk_readOnly : bool;
  vk_approvedForLiveUse : bool;
  vk_sensitiveExecutionEligible : bool;
  vk_promotionStatus : CarryPromotionStatus;
  vk_promotionBlockedReasons : list string;
}.

Inductive RuntimeLifecycleState := rl_ready | rl_paused | rl_degraded | rl_stopped | rl_starting.
#[export] Instance RuntimeLifecycleState_eq_dec : EqDecision RuntimeLifecycleState.
Proof. solve_decision. Defined.
Definition RuntimeLifecycleState_str (s : RuntimeLifecycleState) : string :=
  match s with
  | rl_ready => "ready" | rl_paused => "paused" | rl_degraded => "degraded" | rl_stopped => "stopped"
  | rl_starting => "starting"
  end.

Inductive CarryThrottleState := th_normal | th_throttled | th_de_risk | th_blocked.
#[export] Instance CarryThrottleState_eq_dec : EqDecision CarryThrottleState.
Proof. solve_decision. Defined.
Definition CarryThrottleState_str (s : CarryThrottleState) : string :=
  match s with th_normal => "normal" | th_throttled => "throttled" | th_de_risk => "de_risk" | th_blocked => "blocked" end.

Record CarryControlledExecutionPlanningInput := MkCarryPlanning {
  cx_recommendations : list CarryExecutionRecommendation;
  cx_policy : CarryPolicyOverrides;
  cx_strategyPolicy : StrategyPolicyOverrides;
  cx_strategyProfile : CarryStrategyProfileInput;
  cx_currentCarryAllocationUsd : string;
  cx_approvedCarryBudgetUsd : option string;
  cx_totalCapitalUsd : option string;
  cx_runtimeLifecycleState : RuntimeLifecycleState;
  cx_runtimeHalted : bool;
  cx_criticalMismatchCount : Z;
  cx_carryThrottleState : CarryThrottleState;
  cx_executionMode : CarryExecutionMode;
  cx_liveExecutionEnabled : bool;
  cx_venueCapabilities : list CarryVenueCapabilities;
  cx_openPositions : list CarryPositionSnapshot;
  cx_now : Z;
}.

(** ** controlled-execution.ts *)

Definition DEFAULT_CARRY_OPERATIONAL_POLICY : CarryOperationalPolicy := MkCarryPolicy "250" (num_of_dec 6 (-1)).

(** [{ ...defaults, ...overrides }]. *)
Definition merged_policy (o : CarryPolicyOverrides) : CarryOperationalPolicy :=
  MkCarryPolicy (or_else (cv_minimumActionableUsd o) (co_minimumActionableUsd DEFAULT_CARRY_OPERATIONAL_POLICY))
    (or_else (cv_minimumConfidenceScore o) (co_minimumConfidenceScore DEFAULT_CARRY_OPERATIONAL_POLICY)).
Definition merged_strategy_policy (o : StrategyPolicyOverrides) : BuildABearStrategyPolicy :=
  let d := DEFAULT_BUILD_A_BEAR_STRATEGY_POLICY in
  MkStrategyPolicy (or_else (so_baseAsset o) (sp_baseAsset d)) (or_else (so_lockPeriodMonths o) (sp_lockPeriodMonths d))
    (or_else (so_rolling o) (sp_rolling d)) (or_else (so_reassessmentCadenceMonths o) (sp_reassessmentCadenceMonths d))
    (or_else (so_minimumTargetApyPct o) (sp_minimumTargetApyPct d))
    (or_else (so_minimumLoopHealthRate o) (sp_minimumLoopHealthRate d)).

(** A non-blank string, or a finite number as text. *)
Definition normalizeDecimalString (value : jsval) : option string :=
  match value with
  | JStr s => if bool_decide (js_trim s = "") then None else Some s
  | JNum n => if n_isFinite n then Some (n_str n) else None
  | _ => None
  end.

Definition buildBlockedReason (code : CarryOperationalBlockedReasonCode) (category : CarryOperationalBlockedReasonCategory)
    (message operatorAction : string) (details : record_) : CarryOperationalBlockedReason :=
  MkCarryBlocked code category message operatorAction details.

Definition findCarryVenueCapabilities (capabilities : list CarryVenueCapabilities) (venueId : string)
    : option CarryVenueCapabilities := List.find (fun c => bool_decide (vk_venueId c = venueId)) capabilities.

(** The blocked reason of a rule that failed. *)
Definition rule_blocked_reason (rule : CarryStrategyRuleResult) : CarryOperationalBlockedReason :=
  let blocked code action := buildBlockedReason code cat_strategy_policy (rr_summary rule) action (rr_details rule) in
  match rr_ruleKey rule with
  | base_asset_usdc => blocked unsupported_strategy_base_asset
      "Use a USDC-denominated vault profile before approving or executing this carry action."
  | tenor_three_month_rolling => blocked unsupported_strategy_tenor
      "Keep the strategy on a 3-month rolling lock with reassessment every 3 months."
  | target_apy_floor => blocked strategy_target_apy_below_floor
      "Raise the configured target APY floor to at least 10% before using this strategy profile."
  | allowed_yield_source => blocked disallowed_yield_source
      "Remove disallowed yield sources such as DEX LP, junior tranche, insurance pool, or circular stable yield."
  | leverage_health_metadata => blocked missing_leverage_health_threshold
      "Attach explicit leverage health-threshold metadata or remove leverage from the strategy profile."
  | unsafe_looping_leverage => blocked unsafe_leverage_looping
      "Do not use looping leverage below the 1.05 health threshold on non-hardcoded oracle assets."
  end.
Definition buildStrategyPolicyBlockedReasons (strategyProfile : CarryStrategyProfile) : list CarryOperationalBlockedReason :=
  map rule_blocked_reason (List.filter (fun r => negb (rr_passes r)) (el_ruleResults (cp_eligibility strategyProfile))).

(** The profile input with the yield of the recommendation. *)
Definition strategy_profile_input (details : record_) (base : CarryStrategyProfileInput) : CarryStrategyProfileInput :=
  let projectedApyPct := normalizeDecimalString
    (nullish (rec_get details "netYieldPct") (rec_get details "expectedAnnualYieldPct")) in
  {| pi_strategyName := pi_strategyName base; pi_vaultBaseAsset := pi_vaultBaseAsset base;
     pi_yieldSourceCategory := pi_yieldSourceCategory base; pi_leverageModel := pi_leverageModel base;
     pi_leverageHealthThreshold := pi_leverageHealthThreshold base;
     pi_oracleDependencyClass := pi_oracleDependencyClass base; pi_targetApyPct := pi_targetApyPct base;
     pi_projectedApyPct := match projectedApyPct with Some p => Some p | None => pi_projectedApyPct base end;
     pi_projectedApySource := match projectedApyPct with Some _ => Some ek_projected | None => pi_projectedApySource base end;
     pi_realizedApyPct := pi_realizedApyPct base; pi_realizedApySource := pi_realizedApySource base;
     pi_realizedApyUpdatedAt := pi_realizedApyUpdatedAt base; pi_lockPeriodMonths := pi_lockPeriodMonths base;
     pi_rolling := pi_rolling base; pi_reassessmentCadenceMonths := pi_reassessmentCadenceMonths base;
     pi_thesis := pi_thesis base; pi_riskProfile := pi_riskProfile base; pi_riskLimits := pi_riskLimits base;
     pi_evidence := pi_evidence base |}.

Definition is_reduction (r : CarryExecutionRecommendation) : bool := bool_decide (cr_actionType r = reduce_carry_exposure).

Section Planner.
Context `{DL : DecimalLib} `{DH : DateHost}.

Definition notionalOfPosition (position : CarryPositionSnapshot) : exn dec :=
  size ← dec_of_string (cs_size position);
  markPrice ← dec_of_string (cs_markPrice position);
  Ret (d_times size markPrice).

(** The comparator is negative when the right notional is the smaller. *)
Definition larger_notional (left right : CarryPositionSnapshot) : bool :=
  match notionalOfPosition right, notionalOfPosition left with
  | Ret r, Ret l => bool_decide (d_cmp r l = Some Lt)
  | _, _ => false
  end.

(** The sort compares, and so reads, every position when there are two. *)
Definition by_notional (positions : list CarryPositionSnapshot) : exn (list CarryPositionSnapshot) :=
  if (length positions <? 2)%nat then Ret positions
  else _ ← map_exn notionalOfPosition positions; Ret (js_sort larger_notional positions).

Definition reducing_side (position : CarryPositionSnapshot) : OrderSide :=
  match cs_side position with long => sell | short => buy end.

(** The order that reduces a position by [reducingUsd], the [index]-th of the plan. *)
Definition reduction_intent (sourceReference : string) (createdAt : Z) (opportunityId : string)
    (position : CarryPositionSnapshot) (reducingUsd markPrice : dec) (index : Z) : OrderIntent := {|
  oi_intentId := cs_asset position +:+ "-carry-reduce-" +:+ OrderSide_str (reducing_side position) +:+ "-" +:+
    z_str createdAt +:+ "-" +:+ z_str index;
  oi_venueId := cs_venueId position; oi_asset := cs_asset position; oi_side := reducing_side position; oi_type := market;
  oi_size := d_toFixedN 8 (d_div reducingUsd markPrice); oi_limitPrice := None; oi_opportunityId := opportunityId;
  oi_reduceOnly := true; oi_createdAt := createdAt;
  oi_metadata := [("actionType", JStr "reduce_carry_exposure"); ("sourceReference", JStr sourceReference);
    ("positionId", JStr (cs_positionId position)); ("plannedReductionUsd", JStr (d_toFixedN 2 reducingUsd))];
|}.

(** The loop over the sorted positions; [index] is [intents.length + 1]. *)
Fixpoint reduction_loop (sourceReference : string) (createdAt : Z) (opportunityId : string) (remaining : dec) (index : Z)
    (positions : list CarryPositionSnapshot) : exn (list OrderIntent) :=
  match positions with
  | [] => Ret []
  | position :: rest =>
      if d_lte remaining (dec_of_Z 0) then Ret []
      else
        markPrice ← dec_of_string (cs_markPrice position);
        if d_lte markPrice (dec_of_Z 0) then reduction_loop sourceReference createdAt opportunityId remaining index rest
        else
          maxReducibleUsd ← notionalOfPosition position;
          let reducingUsd := d_min [maxReducibleUsd; remaining] in
          intents ← reduction_loop sourceReference createdAt opportunityId (d_minus remaining reducingUsd) (index + 1) rest;
          Ret (reduction_intent sourceReference createdAt opportunityId position reducingUsd markPrice index :: intents)
  end.

Definition buildCarryReductionIntents (positions : list CarryPositionSnapshot) (notionalReductionUsd sourceReference : string)
    (createdAt : Z) : exn (list OrderIntent) :=
  sorted ← by_notional positions;
  remaining ← dec_of_string notionalReductionUsd;
  reduction_loop sourceReference createdAt ("carry-reduction-" +:+ sourceReference +:+ "-" +:+ z_str createdAt) remaining 1 sorted.

(** [o === null ? null : new Decimal(o)]. *)
Definition parse_opt (o : option string) : exn (option dec) :=
  match o with None => Ret None | Some s => d ← dec_of_string s; Ret (Some d) end.

Definition buildEffects (recommendation : CarryExecutionRecommendation) (input : CarryControlledExecutionPlanningInput)
    : exn CarryExecutionEffects :=
  current ← dec_of_string (cx_currentCarryAllocationUsd input);
  recommended ← dec_of_string (cr_notionalUsd recommendation);
  let projected := if is_reduction recommendation then d_max [d_minus current recommended; dec_of_Z 0]
                   else d_plus current recommended in
  total ← parse_opt (cx_totalCapitalUsd input);
  approved ← parse_opt (cx_approvedCarryBudgetUsd input);
  Ret {|
    ce_currentCarryAllocationUsd := d_toFixedN 2 current;
    ce_projectedCarryAllocationUsd := d_toFixedN 2 projected;
    ce_projectedCarryAllocationPct := match total with
      | None => None
      | Some t => if d_lte t (dec_of_Z 0) then None
                  else Some (js_Number (d_toFixedN 4 (d_times (d_div projected t) (dec_of_Z 100))))
      end;
    ce_approvedCarryBudgetUsd := d_toFixedN 2 <$> approved;
    ce_projectedRemainingBudgetUsd := (fun a => d_toFixedN 2 (d_max [d_minus a projected; dec_of_Z 0])) <$> approved;
    ce_openPositionCount := Z.of_nat (length (cx_openPositions input));
  |}.

(** ** The guards of an intent *)

Definition size_reason (policy : CarryOperationalPolicy) (amountUsd : dec) : exn (list CarryOperationalBlockedReason) :=
  minimum ← dec_of_string (co_minimumActionableUsd policy);
  Ret (push_if (d_lt amountUsd minimum)
    (buildBlockedReason below_minimum_action_size cat_action_size
       ("Carry action " +:+ d_toFixedN 2 amountUsd +:+ " USD is below the minimum actionable threshold.")
       "Increase the target notional or wait for a larger budget/exposure change."
       [("amountUsd", JStr (d_toFixedN 2 amountUsd)); ("minimumActionableUsd", JStr (co_minimumActionableUsd policy))])).

Definition runtime_blocked (input : CarryControlledExecutionPlanningInput) : bool :=
  cx_runtimeHalted input
  || bool_decide (cx_runtimeLifecycleState input = rl_paused) || bool_decide (cx_runtimeLifecycleState input = rl_stopped)
  || bool_decide (cx_runtimeLifecycleState input = rl_starting) || bool_decide (cx_runtimeLifecycleState input = rl_degraded).
Definition runtime_reasons (input : CarryControlledExecutionPlanningInput) : list CarryOperationalBlockedReason :=
  push_if (runtime_blocked input)
    (buildBlockedReason runtime_not_ready cat_runtime "Runtime is not in a state that permits carry execution."
       "Return runtime to ready state before approving or executing carry actions."
       [("runtimeLifecycleState", JStr (RuntimeLifecycleState_str (cx_runtimeLifecycleState input)));
        ("runtimeHalted", JBool (cx_runtimeHalted input))]) ++
  push_if (0 <? cx_criticalMismatchCount input)
    (buildBlockedReason critical_mismatch_pressure cat_risk "Critical mismatch pressure blocks carry execution."
       "Resolve or verify critical mismatches before executing carry actions."
       [("criticalMismatchCount", JInt (cx_criticalMismatchCount input))]).

Definition throttled (input : CarryControlledExecutionPlanningInput) : bool :=
  bool_decide (cx_carryThrottleState input = th_throttled) || bool_decide (cx_carryThrottleState input = th_de_risk)
  || bool_decide (cx_carryThrottleState input = th_blocked).
Definition throttle_reason (input : CarryControlledExecutionPlanningInput) (r : CarryExecutionRecommendation)
    : list CarryOperationalBlockedReason :=
  push_if (negb (is_reduction r) && throttled input)
    (buildBlockedReason carry_throttle_active cat_risk "Carry sleeve throttle state blocks new carry deployment."
       "Wait for carry throttle state to return to normal before increasing exposure."
       [("carryThrottleState", JStr (CarryThrottleState_str (cx_carryThrottleState input)))]).

Definition budget_reason (input : CarryControlledExecutionPlanningInput) (r : CarryExecutionRecommendation) (amountUsd : dec)
    : exn (list CarryOperationalBlockedReason) :=
  match cx_approvedCarryBudgetUsd input with
  | Some budget =>
      if is_reduction r then Ret []
      else
        current ← dec_of_string (cx_currentCarryAllocationUsd input);
        approved ← dec_of_string budget;
        Ret (push_if (d_gt (d_plus current amountUsd) approved)
          (buildBlockedReason carry_budget_exceeded cat_budget
             "Carry action would exceed the currently approved carry budget."
             "Approve more carry budget or reduce the planned carry action size."
             [("currentCarryAllocationUsd", JStr (cx_currentCarryAllocationUsd input));
              ("approvedCarryBudgetUsd", JStr budget); ("actionNotionalUsd", JStr (d_toFixedN 2 amountUsd))]))
  | None => Ret []
  end.

Definition low_confidence (policy : CarryOperationalPolicy) (details : record_) : bool :=
  match rec_get details "confidenceScore" with JNum n => n_lt n (co_minimumConfidenceScore policy) | _ => false end.
Definition expired (now : Z) (details : record_) : option Z :=
  match rec_get details "expiresAt" with
  | JStr s => t ← date_parse s; if t <=? now then Some t else None
  | _ => None
  end.
Definition opportunity_reasons (policy : CarryOperationalPolicy) (now : Z) (r : CarryExecutionRecommendation)
    : list CarryOperationalBlockedReason :=
  push_if (low_confidence policy (cr_details r))
    (buildBlockedReason opportunity_confidence_below_threshold cat_opportunity
       "Carry opportunity confidence is below the execution threshold."
       "Wait for stronger carry conditions before executing this action."
       [("confidenceScore", rec_get (cr_details r) "confidenceScore");
        ("minimumConfidenceScore", JNum (co_minimumConfidenceScore policy))]) ++
  match expired now (cr_details r) with
  | Some t => [buildBlockedReason opportunity_expired cat_opportunity
      "Carry opportunity has expired and should not be executed."
      "Re-run carry evaluation and use a currently actionable opportunity." [("expiresAt", JStr (toISOString t))]]
  | None => []
  end.

Definition reduction_reasons (r : CarryExecutionRecommendation) (amountUsd : dec) : exn (list CarryOperationalBlockedReason) :=
  if is_reduction r then
    uncovered ← (match rec_get (cr_details r) "coveredNotionalUsd" with
                 | JStr s => covered ← dec_of_string s; Ret (d_lt covered amountUsd)
                 | _ => Ret false
                 end);
    Ret (push_if (is_empty (cr_plannedOrders r))
           (buildBlockedReason no_open_positions cat_exposure "No open carry positions were available to reduce."
              "Refresh carry positions before attempting a reduction action." []) ++
         push_if uncovered
           (buildBlockedReason insufficient_position_reduction_capacity cat_exposure
              "Planned reduction exceeds currently reducible carry exposure."
              "Lower the reduction amount or wait for more carry exposure to become reducible."
              [("coveredNotionalUsd", rec_get (cr_details r) "coveredNotionalUsd");
               ("requestedNotionalUsd", JStr (d_toFixedN 2 amountUsd))]))
  else Ret [].

(** The reasons of one venue that supports execution. *)
Definition supports_action (r : CarryExecutionRecommendation) (c : CarryVenueCapabilities) : bool :=
  if is_reduction r then vk_supportsReduceExposure c else vk_supportsIncreaseExposure c.
Definition is_live (c : CarryVenueCapabilities) : bool := bool_decide (vk_venueMode c = mode_live).
Definition live_disabled (input : CarryControlledExecutionPlanningInput) : bool :=
  negb (cx_liveExecutionEnabled input) || negb (bool_decide (cx_executionMode input = cm_live)).
Definition supported_venue_reasons (input : CarryControlledExecutionPlanningInput) (r : CarryExecutionRecommendation)
    (venueId : string) (c : CarryVenueCapabilities) : list CarryOperationalBlockedReason :=
  push_if (vk_readOnly c)
    (buildBlockedReason venue_execution_unsupported cat_venue_capability
       ("Carry venue " +:+ venueId +:+ " is read-only for execution.")
       "Promote the connector out of read-only mode before executing carry actions." [("venueId", JStr venueId)]) ++
  push_if (negb (supports_action r c))
    (buildBlockedReason venue_execution_unsupported cat_venue_capability
       ("Carry venue " +:+ venueId +:+ " does not support " +:+ CarryActionType_str (cr_actionType r) +:+ ".")
       "Use a venue with explicit support for this carry action type."
       [("venueId", JStr venueId); ("actionType", JStr (CarryActionType_str (cr_actionType r)))]) ++
  push_if (is_live c && negb (vk_approvedForLiveUse c))
    (buildBlockedReason venue_live_unapproved cat_venue_capability
       ("Carry venue " +:+ venueId +:+ " is not approved for live use.")
       "Complete onboarding and live-enable review before using live carry execution."
       [("venueId", JStr venueId); ("promotionStatus", JStr (CarryPromotionStatus_str (vk_promotionStatus c)))]) ++
  push_if (is_live c && vk_approvedForLiveUse c && negb (vk_sensitiveExecutionEligible c))
    (buildBlockedReason venue_live_ineligible cat_venue_capability
       ("Carry venue " +:+ venueId +:+ " is approved for live use but currently ineligible for sensitive execution.")
       "Restore connector truth freshness and health, then re-run carry evaluation before executing."
       [("venueId", JStr venueId); ("promotionStatus", JStr (CarryPromotionStatus_str (vk_promotionStatus c)));
        ("blockers", JArr (map JStr (vk_promotionBlockedReasons c)))]) ++
  push_if (is_live c && live_disabled input)
    (buildBlockedReason live_execution_disabled cat_execution_mode "Live carry execution is disabled for this runtime."
       "Keep carry execution simulated or explicitly enable live mode after approval."
       [("executionMode", JStr (CarryExecutionMode_str (cx_executionMode input)));
        ("liveExecutionEnabled", JBool (cx_liveExecutionEnabled input))]) ++
  push_if (bool_decide (vk_venueMode c = mode_simulated) && bool_decide (cx_executionMode input = cm_live))
    (buildBlockedReason simulated_execution_only cat_execution_mode
       ("Carry venue " +:+ venueId +:+ " only supports simulated execution.")
       "Use dry-run/simulated carry execution until a real live connector is available and approved."
       [("venueId", JStr venueId)]).

(** The local variables the loop over the venues changes. *)
Record VenueReview := MkVenueReview {
  vw_reasons : list CarryOperationalBlockedReason;
  vw_simulated : bool;
  vw_admin : bool;
}.
Definition review_venue (input : CarryControlledExecutionPlanningInput) (r : CarryExecutionRecommendation)
    (s : VenueReview) (venueId : string) : VenueReview :=
  let unsupported := buildBlockedReason venue_execution_unsupported cat_venue_capability
    ("Carry venue " +:+ venueId +:+ " does not support controlled carry execution.")
    "Keep the action in simulated/read-only mode until connector support is implemented." [("venueId", JStr venueId)] in
  match findCarryVenueCapabilities (cx_venueCapabilities input) venueId with
  | None => MkVenueReview (vw_reasons s ++ [unsupported]) (vw_simulated s) (vw_admin s)
  | Some c =>
      if negb (vk_executionSupported c) then MkVenueReview (vw_reasons s ++ [unsupported]) (vw_simulated s) (vw_admin s)
      else MkVenueReview (vw_reasons s ++ supported_venue_reasons input r venueId c)
             (vw_simulated s && negb (is_live c)) (vw_admin s || is_live c)
  end.
Definition touched_venues (r : CarryExecutionRecommendation) : list string := js_unique (map oi_venueId (cr_plannedOrders r)).
Definition review_venues (input : CarryControlledExecutionPlanningInput) (r : CarryExecutionRecommendation) : VenueReview :=
  foldl (review_venue input r) (MkVenueReview [] true false) (touched_venues r).

(** One recommendation. *)
Definition createExecutionIntent (input : CarryControlledExecutionPlanningInput) (policy : CarryOperationalPolicy)
    (r : CarryExecutionRecommendation) : exn CarryExecutionIntent :=
  amountUsd ← dec_of_string (cr_notionalUsd r);
  effects ← buildEffects r input;
  strategyProfile ← buildCarryStrategyProfile (strategy_profile_input (cr_details r) (cx_strategyProfile input))
                      (merged_strategy_policy (cx_strategyPolicy input));
  size ← size_reason policy amountUsd;
  budget ← budget_reason input r amountUsd;
  reduction ← reduction_reasons r amountUsd;
  let review := review_venues input r in
  let blockedReasons := buildStrategyPolicyBlockedReasons strategyProfile ++ size ++ runtime_reasons input
    ++ throttle_reason input r ++ budget ++ opportunity_reasons policy (cx_now input) r ++ reduction ++ vw_reasons review in
  Ret {|
    ci_actionType := cr_actionType r; ci_sourceKind := cr_sourceKind r; ci_sourceReference := cr_sourceReference r;
    ci_opportunityId := cr_opportunityId r; ci_asset := cr_asset r; ci_summary := cr_summary r;
    ci_notionalUsd := d_toFixedN 2 amountUsd; ci_details := cr_details r;
    ci_readiness := if is_empty blockedReasons then actionable else blocked_;
    ci_blockedReasons := blockedReasons; ci_executable := is_empty blockedReasons;
    ci_approvalRequirement := if vw_admin review then ca_admin else ca_operator;
    ci_executionMode := cx_executionMode input; ci_simulated := vw_simulated review;
    ci_plannedOrders := cr_plannedOrders r; ci_effects := effects; ci_strategyProfile := strategyProfile;
  |}.

Definition createExecutionIntents (input : CarryControlledExecutionPlanningInput) : exn (list CarryExecutionIntent) :=
  map_exn (createExecutionIntent input (merged_policy (cx_policy input))) (cx_recommendations input).
End Planner.

(** ** When an intent is executable *)

Section Permitted.
Context `{DL : DecimalLib} `{LW : !DecimalLaws} `{DH : DateHost}.

(** A venue may execute the action. *)
Record venue_permits (input : CarryControlledExecutionPlanningInput) (r : CarryExecutionRecommendation) (venueId : string)
    (c : CarryVenueCapabilities) : Prop := {
  vp_found : findCarryVenueCapabilities (cx_venueCapabilities input) venueId = Some c;
  vp_supported : vk_executionSupported c = true;
  vp_writable : vk_readOnly c = false;
  vp_action : supports_action r c = true;
  vp_live : vk_venueMode c = mode_live -> vk_approvedForLiveUse c = true /\ vk_sensitiveExecutionEligible c = true /\
    cx_liveExecutionEnabled input = true /\ cx_executionMode input = cm_live;
  vp_simulated : vk_venueMode c = mode_simulated -> cx_executionMode input = cm_dry_run;
}.

(** What an executable intent needs; [a], [minimum], [current], [budget] and
    [covered] are amounts in cents. *)
Record carry_permitted (input : CarryControlledExecutionPlanningInput) (policy : CarryOperationalPolicy)
    (r : CarryExecutionRecommendation) (profile : CarryStrategyProfile) (a minimum current : Z) (budget covered : option Z)
    : Prop := {
  cp_eligible : el_status (cp_eligibility profile) = eligible;
  cp_size : minimum <= a;
  cp_runtime : cx_runtimeHalted input = false /\ cx_runtimeLifecycleState input = rl_ready;
  cp_mismatches : cx_criticalMismatchCount input <= 0;
  cp_throttle : cr_actionType r <> reduce_carry_exposure -> cx_carryThrottleState input = th_normal;
  cp_budget : cr_actionType r <> reduce_carry_exposure -> forall b, budget = Some b -> current + a <= b;
  cp_confidence : low_confidence policy (cr_details r) = false;
  cp_fresh : expired (cx_now input) (cr_details r) = None;
  cp_reduction : cr_actionType r = reduce_carry_exposure ->
    cr_plannedOrders r <> [] /\ forall c, covered = Some c -> a <= c;
  cp_venues : forall o, o ∈ cr_plannedOrders r -> exists c, venue_permits input r (oi_venueId o) c;
}.

Lemma runtime_empty input : is_empty (runtime_reasons input) = true <->
  (cx_runtimeHalted input = false /\ cx_runtimeLifecycleState input = rl_ready) /\ cx_criticalMismatchCount input <= 0.
Proof.
  unfold runtime_reasons, runtime_blocked. autorewrite with pushes. rewrite andb_true_iff, !negb_true_iff, Z.ltb_ge.
  rewrite !orb_false_iff, !bool_decide_eq_false. destruct (cx_runtimeLifecycleState input); naive_solver.
Qed.

Lemma throttle_empty input r : is_empty (throttle_reason input r) = true <->
  (cr_actionType r <> reduce_carry_exposure -> cx_carryThrottleState input = th_normal).
Proof.
  unfold throttle_reason, throttled, is_reduction. autorewrite with pushes. case_bool_decide; [naive_solver|].
  cbn [negb andb]. rewrite negb_true_iff, !orb_false_iff, !bool_decide_eq_false. destruct (cx_carryThrottleState input); naive_solver.
Qed.

Lemma opportunity_empty policy now r : is_empty (opportunity_reasons policy now r) = true <->
  low_confidence policy (cr_details r) = false /\ expired now (cr_details r) = None.
Proof.
  unfold opportunity_reasons. rewrite is_empty_app, is_empty_push_if, andb_true_iff, negb_true_iff.
  destruct (expired now (cr_details r)); cbn; naive_solver.
Qed.

Lemma strategy_empty input policy p : buildCarryStrategyProfile input policy = Ret p ->
  is_empty (buildStrategyPolicyBlockedReasons p) = true <-> el_status (cp_eligibility p) = eligible.
Proof.
  intros Hp. rewrite (profile_eligibility _ _ _ Hp). unfold buildStrategyPolicyBlockedReasons.
  induction (el_ruleResults (cp_eligibility p)) as [|rule rules IH]; [done|]. cbn [List.filter forallb].
  destruct (rr_passes rule); [exact IH|done].
Qed.

(** ** The review of the venues *)

Definition venue_passes (input : CarryControlledExecutionPlanningInput) (r : CarryExecutionRecommendation) (venueId : string) : bool :=
  match findCarryVenueCapabilities (cx_venueCapabilities input) venueId with
  | None => false
  | Some c => vk_executionSupported c && is_empty (supported_venue_reasons input r venueId c)
  end.

Lemma review_empty input r l : forall s,
  is_empty (vw_reasons (foldl (review_venue input r) s l)) = is_empty (vw_reasons s) && forallb (venue_passes input r) l.
Proof.
  induction l as [|v l IH]; intros s; cbn [foldl forallb]; [by rewrite andb_true_r|].
  rewrite IH, andb_assoc. f_equal. unfold review_venue, venue_passes.
  destruct (findCarryVenueCapabilities _ v) as [c|]; [destruct (vk_executionSupported c)|]; cbn [negb andb vw_reasons];
    by rewrite is_empty_app.
Qed.

Lemma supported_empty input r v c : is_empty (supported_venue_reasons input r v c) = true <->
  vk_readOnly c = false /\ supports_action r c = true /\
  (vk_venueMode c = mode_live -> vk_approvedForLiveUse c = true /\ vk_sensitiveExecutionEligible c = true /\
    cx_liveExecutionEnabled input = true /\ cx_executionMode input = cm_live) /\
  (vk_venueMode c = mode_simulated -> cx_executionMode input = cm_dry_run).
Proof.
  unfold supported_venue_reasons, is_live, live_disabled. rewrite !is_empty_app, !is_empty_push_if, !andb_true_iff.
  rewrite !negb_true_iff, negb_false_iff. destruct (vk_venueMode c); cbn [bool_decide decide_rel].
  - rewrite !(bool_decide_eq_false_2 (mode_simulated = mode_live)), (bool_decide_eq_true_2 (mode_simulated = mode_simulated)) by done.
    cbn [andb]. rewrite bool_decide_eq_false. destruct (cx_executionMode input); naive_solver.
  - rewrite !(bool_decide_eq_true_2 (mode_live = mode_live)), (bool_decide_eq_false_2 (mode_live = mode_simulated)) by done.
    cbn [andb]. rewrite orb_false_iff, !negb_false_iff, bool_decide_eq_true.
    destruct (vk_approvedForLiveUse c), (vk_sensitiveExecutionEligible c); naive_solver.
Qed.

Lemma venue_passes_spec input r v : venue_passes input r v = true <-> exists c, venue_permits input r v c.
Proof.
  unfold venue_passes. destruct (findCarryVenueCapabilities _ v) as [c|] eqn:E.
  - rewrite andb_true_iff, supported_empty. split.
    + intros (H1 & H2 & H3 & H4 & H5). exists c. by constructor.
    + intros (c' & [E' H1 H2 H3 H4 H5]). rewrite E in E'. injection E' as <-. done.
  - split; [done|]. intros (c & [E' _ _ _ _ _]). by rewrite E in E'.
Qed.

Lemma review_venues_empty input r : is_empty (vw_reasons (review_venues input r)) = true <->
  forall o, o ∈ cr_plannedOrders r -> exists c, venue_permits input r (oi_venueId o) c.
Proof.
  unfold review_venues. rewrite review_empty. cbn [vw_reasons is_empty andb]. rewrite forallb_forall.
  destruct (js_unique_spec (map oi_venueId (cr_plannedOrders r))) as [_ Hu]. unfold touched_venues.
  setoid_rewrite <- list_elem_of_In. setoid_rewrite Hu. setoid_rewrite venue_passes_spec. split.
  - intros H o Ho. apply H. apply list_elem_of_In, in_map, list_elem_of_In. exact Ho.
  - intros H v Hv. apply list_elem_of_In, in_map_iff in Hv as (o & <- & Ho). by apply H, list_elem_of_In.
Qed.
(** An optional amount in cents. *)
Definition cents_opt (o : option string) (v : option Z) : Prop :=
  match o with None => v = None | Some s => exists x, v = Some x /\ amount 2 s x end.

(** The amounts of an input and a recommendation, in cents. *)
Record carry_amounts (input : CarryControlledExecutionPlanningInput) (policy : CarryOperationalPolicy)
    (r : CarryExecutionRecommendation) (a minimum current : Z) (budget covered : option Z) : Prop := {
  am_notional : amount 2 (cr_notionalUsd r) a;
  am_minimum : amount 2 (co_minimumActionableUsd policy) minimum;
  am_current : amount 2 (cx_currentCarryAllocationUsd input) current;
  am_total : exists total, cents_opt (cx_totalCapitalUsd input) total;
  am_budget : cents_opt (cx_approvedCarryBudgetUsd input) budget;
  am_covered : cents_opt (match rec_get (cr_details r) "coveredNotionalUsd" with JStr s => Some s | _ => None end) covered;
  am_bound : Z.abs (current + a) < 10 ^ 20;
}.

Lemma effects_built input policy r a minimum current budget covered :
  carry_amounts input policy r a minimum current budget covered -> exists e, buildEffects r input = Ret e.
Proof.
  intros [(d1 & E1 & _) _ (d2 & E2 & _) (total & Ht) Hb _ _]. unfold buildEffects. exn_step E2. exn_step E1.
  unfold parse_opt, cents_opt in *. destruct (cx_totalCapitalUsd input) as [t|].
  - destruct Ht as (x & _ & d3 & E3 & _). rewrite E3. cbn [mbind exn_bind].
    destruct (cx_approvedCarryBudgetUsd input) as [b|]; [|by eexists]. destruct Hb as (y & _ & d4 & E4 & _). rewrite E4. by eexists.
  - cbn [mbind exn_bind]. destruct (cx_approvedCarryBudgetUsd input) as [b|]; [|by eexists].
    destruct Hb as (y & _ & d4 & E4 & _). rewrite E4. by eexists.
Qed.

Lemma budget_empty input r d a current budget :
  scaled 2 d a -> amount 2 (cx_currentCarryAllocationUsd input) current -> cents_opt (cx_approvedCarryBudgetUsd input) budget ->
  Z.abs (current + a) < 10 ^ 20 ->
  exists l, budget_reason input r d = Ret l /\
    (is_empty l = true <-> (cr_actionType r <> reduce_carry_exposure -> forall b, budget = Some b -> current + a <= b)).
Proof.
  intros Sa (dc & Ec & Sc) Hb Hbound. unfold budget_reason, cents_opt, is_reduction in *.
  destruct (cx_approvedCarryBudgetUsd input) as [s|]; [|subst; eexists; split; [done|naive_solver]].
  destruct Hb as (b & -> & db & Eb & Sb).
  case_bool_decide; [eexists; split; [done|naive_solver]|]. exn_step Ec. exn_step Eb. eexists. split; [done|].
  rewrite is_empty_push_if, negb_true_iff.
  assert (Ss : scaled 2 (d_plus dc d) (current + a)) by (apply scaled_plus; [lia|done..]).
  rewrite (d_gt_fin _ _ _ _ Ss Sb), Qltb_false. unfold Qle. cbn [Qnum Qden]. rewrite pow10_pos by lia. split.
  - intros Hle _ b' [= <-]. lia.
  - intros Hle. specialize (Hle ltac:(done) b eq_refl). lia.
Qed.

Lemma reduction_empty r d a covered :
  scaled 2 d a ->
  cents_opt (match rec_get (cr_details r) "coveredNotionalUsd" with JStr s => Some s | _ => None end) covered ->
  exists l, reduction_reasons r d = Ret l /\
    (is_empty l = true <-> (cr_actionType r = reduce_carry_exposure -> cr_plannedOrders r <> [] /\ forall c, covered = Some c -> a <= c)).
Proof.
  intros Sa Hc. unfold reduction_reasons, is_reduction. case_bool_decide as Hr; [|eexists; split; [done|naive_solver]].
  assert (Hu : exists u, (match rec_get (cr_details r) "coveredNotionalUsd" with
      | JStr s => covered ← dec_of_string s; Ret (d_lt covered d) | _ => Ret false end) = Ret u /\
      (u = false <-> forall c, covered = Some c -> a <= c)).
  { unfold cents_opt in Hc. destruct (rec_get (cr_details r) "coveredNotionalUsd"); try (eexists; split; [done|naive_solver]).
    destruct Hc as (c & -> & dc & Ec & Sc). exn_step Ec. eexists. split; [done|].
    rewrite (scaled_lt 2 _ _ _ _ ltac:(lia) Sc Sa), Z.ltb_ge. naive_solver. }
  destruct Hu as (u & Eu & Su). rewrite Eu. cbn [mbind exn_bind]. eexists. split; [done|].
  rewrite is_empty_app, !is_empty_push_if, andb_true_iff, !negb_true_iff, Su. destruct (cr_plannedOrders r); naive_solver.
Qed.

(** C6. A controlled execution intent is executable exactly when the action is
    permitted: the strategy is eligible, the action large enough, the runtime
    ready and free of critical mismatches; an increase needs an open throttle
    and room in the approved budget, a reduction planned orders that cover it;
    the opportunity is confident and not expired; and every venue of the
    planned orders supports the action in the mode of the runtime. *)
Theorem carry_intent_exact (input : CarryControlledExecutionPlanningInput) (policy : CarryOperationalPolicy)
    (r : CarryExecutionRecommendation) (profile : CarryStrategyProfile) (a minimum current : Z) (budget covered : option Z)
    (Hprofile : buildCarryStrategyProfile (strategy_profile_input (cr_details r) (cx_strategyProfile input))
                  (merged_strategy_policy (cx_strategyPolicy input)) = Ret profile)
    (Ham : carry_amounts input policy r a minimum current budget covered) :
  exists i, createExecutionIntent input policy r = Ret i /\
    (ci_executable i = true <-> carry_permitted input policy r profile a minimum current budget covered) /\
    (ci_executable i = true <-> ci_blockedReasons i = []) /\ ci_plannedOrders i = cr_plannedOrders r.
Proof.
  destruct (effects_built _ _ _ _ _ _ _ _ Ham) as (e & Ee).
  destruct Ham as [(d & Ed & Sd) (dm & Em & Sm) Hcur _ Hbud Hcov Hbound].
  destruct (budget_empty input r d a current budget Sd Hcur Hbud Hbound) as (lb & Elb & Slb).
  destruct (reduction_empty r d a covered Sd Hcov) as (lr & Elr & Slr).
  unfold createExecutionIntent, size_reason. exn_step Ed. exn_step Ee. exn_step Hprofile. exn_step Em.
  cbn [mbind exn_bind]. exn_step Elb. exn_step Elr. cbv zeta. eexists. split; [reflexivity|].
  cbn [ci_executable ci_blockedReasons ci_plannedOrders]. split_and!; [|apply is_empty_nil|done].
  rewrite !is_empty_app, is_empty_push_if, !andb_true_iff, (strategy_empty _ _ _ Hprofile), runtime_empty, throttle_empty,
    opportunity_empty, review_venues_empty, Slb, Slr, negb_true_iff, (scaled_lt 2 _ _ _ _ ltac:(lia) Sd Sm), Z.ltb_ge.
  split.
  - intros (H1 & H2 & [H3 H4] & H5 & H6 & [H7 H8] & H9 & H10). by constructor.
  - intros [H1 H2 [H3 H3'] H4 H5 H6 H7 H8 H9 H10]. by split_and!.
Qed.
End Permitted.

(** ** What a reduction plan reduces *)

(** Sizes have at most eight decimals and prices two, so a notional is a whole
    number of [10^-10] dollars. *)
Definition worth (p : CarryPositionSnapshot) : Z :=
  or_else (units_in 8 (cs_size p)) 0 * or_else (units_in 2 (cs_markPrice p)) 0.
Definition price_of (p : CarryPositionSnapshot) : Z := or_else (units_in 2 (cs_markPrice p)) 0.
Definition readable (p : CarryPositionSnapshot) : bool :=
  match units_in 8 (cs_size p), units_in 2 (cs_markPrice p) with
  | Some x, Some y => (0 <=? x) && (0 <? y) && (x * y <? 10 ^ 20)
  | _, _ => false
  end.

(** The amounts taken from positions of these notionals, in order. *)
Fixpoint takes (remaining : Z) (notionals : list Z) : list Z :=
  match notionals with
  | [] => []
  | n :: rest => if remaining <=? 0 then [] else Z.min n remaining :: takes (remaining - Z.min n remaining) rest
  end.

Lemma takes_sum notionals : forall remaining, 0 <= remaining -> Forall (fun n => 0 <= n) notionals ->
  zsum (takes remaining notionals) = Z.min remaining (zsum notionals).
Proof.
  induction notionals as [|n rest IH]; intros remaining Hr Hn; cbn [takes].
  - unfold zsum. cbn. lia.
  - inversion Hn; subst. pose proof (zsum_nonneg _ H2). rewrite zsum_cons. destruct (Z.leb_spec remaining 0).
    + unfold zsum at 1. cbn. lia.
    + rewrite zsum_cons, IH by (try done; lia). lia.
Qed.

Section Reduction.
Context `{DL : DecimalLib} `{LW : !DecimalLaws}.

(** The order [i] of a plan, of a size of [z] units of the eighth decimal, that
    takes the amount [t] from position [p].  The size is the amount over the mark
    price as [toFixed(8)] prints it: one of the two numbers of units next to that
    quotient, and the quotient itself when it is a whole number of units. *)
Record takes_from (sourceReference : string) (createdAt : Z) (p : CarryPositionSnapshot) (t z : Z) (i : OrderIntent) : Prop := {
  tk_venue : oi_venueId i = cs_venueId p;
  tk_asset : oi_asset i = cs_asset p;
  tk_side : oi_side i = match cs_side p with long => sell | short => buy end;
  tk_market : oi_type i = market /\ oi_limitPrice i = None;
  tk_reduces : oi_reduceOnly i = true;
  tk_created : oi_createdAt i = createdAt;
  tk_amount : 0 < t <= worth p \/ t = 0 /\ worth p = 0;
  tk_size : exists d dy, scaled 10 d t /\ dec_of_string (cs_markPrice p) = Ret dy /\ oi_size i = d_toFixedN 8 (d_div d dy) /\
    oi_metadata i = [("actionType", JStr "reduce_carry_exposure"); ("sourceReference", JStr sourceReference);
      ("positionId", JStr (cs_positionId p)); ("plannedReductionUsd", JStr (d_toFixedN 2 d))];
  tk_units : amount 8 (oi_size i) z;
  tk_rounded : t / price_of p <= z <= - (- t / price_of p);
}.

Lemma readable_notional p : readable p = true -> exists x y dy d,
  units_in 8 (cs_size p) = Some x /\ units_in 2 (cs_markPrice p) = Some y /\ 0 <= x /\ 0 < y /\ worth p = x * y /\ x * y < 10 ^ 20 /\
  dec_of_string (cs_markPrice p) = Ret dy /\ scaled 2 dy y /\ notionalOfPosition p = Ret d /\ scaled 10 d (x * y).
Proof.
  unfold readable, worth, notionalOfPosition. destruct (units_in 8 (cs_size p)) as [x|] eqn:Ex; [|done].
  destruct (units_in 2 (cs_markPrice p)) as [y|] eqn:Ey; [|done]. rewrite !andb_true_iff, Z.leb_le, !Z.ltb_lt. intros [[Hx Hy] Hxy].
  destruct (units_in_parses _ _ _ Ex) as (dx & Edx & Sx). destruct (units_in_parses _ _ _ Ey) as (dy & Edy & Sy).
  exists x, y, dy, (d_times dx dy). split_and!; try done.
  - exn_step Edx. by exn_step Edy.
  - apply (scaled_times 8 2); [lia..|done|done|lia].
Qed.

(** The size of a reduction lies between the two units next to the quotient. *)
Lemma reducing_size d dy t x y : scaled 10 d t -> scaled 2 dy y -> 0 <= x < 10 ^ 20 -> 0 < y -> 0 <= t <= x * y ->
  exists z, amount 8 (d_toFixedN 8 (d_div d dy)) z /\ t / y <= z <= - (- t / y).
Proof.
  intros Sd Sy Hx Hy Ht. set (e := d_div d dy).
  assert (Hq : dv_equiv (dval e) (d_rnd (Qmake t (Z.to_pos (10 ^ 8 * y))))).
  { unfold e. rewrite (d_div_fin _ _ _ _ Sd Sy); [|intros E; unfold Qeq in E; cbn in E; lia]. apply d_rnd_proper.
    unfold Qdiv, Qinv, Qmult, Qeq. destruct y as [|y|y]; try lia. cbn [Qnum Qden]. rewrite !Pos2Z.inj_mul. cbn. lia. }
  assert (Hlo : 0 <= t / y <= x) by (split; [apply Z.div_pos; lia|apply Z.div_le_upper_bound; lia]).
  assert (Hhi : 0 <= - (- t / y) <= x).
  { split; [|enough (- x <= - t / y) by lia; apply Z.div_le_lower_bound; lia].
    enough (- t / y <= 0) by lia. apply Z.div_le_upper_bound; lia. }
  pose proof (Z.mul_div_le t y ltac:(lia)) as Flo. pose proof (Z.mul_div_le (- t) y ltac:(lia)) as Fhi.
  assert (L : dv_le (DFin ((t / y) # Z.to_pos (10 ^ 8))) (dval e) = true).
  { rewrite Hq, <- (d_rnd_exact (t / y) 8) by lia. apply d_rnd_mono. unfold Qle. cbn [Qnum Qden]. rewrite !Z2Pos.id by lia. nia. }
  assert (U : dv_le (dval e) (DFin ((- (- t / y)) # Z.to_pos (10 ^ 8))) = true).
  { rewrite Hq, <- (d_rnd_exact (- (- t / y)) 8) by lia. apply d_rnd_mono. unfold Qle. cbn [Qnum Qden].
    rewrite !Z2Pos.id by lia. nia. }
  destruct (between_fin _ _ _ L U) as (q & Fq & Lq & Uq).
  assert (Hh : forall z, half_up 0 z = z).
  { intros z. unfold half_up. symmetry. apply (Z.div_unique _ _ _ 1); [left|]; rewrite Z.pow_0_r; lia. }
  destruct (between_fixed 8 0 e q (t / y) (- (- t / y))) as (b & c & Eb & Sc & Hc); [lia..|done|exact Lq|exact Uq|].
  rewrite !Hh in Hc. exists c. by split; [exists b|].
Qed.

Lemma reduction_loop_takes src createdAt opp positions : Forall (fun p => readable p = true) positions ->
  forall d R index, scaled 10 d R -> 0 <= R < 10 ^ 20 ->
  exists orders, reduction_loop src createdAt opp d index positions = Ret (map snd orders) /\
    Forall2 (fun pt zi => takes_from src createdAt pt.1 pt.2 zi.1 zi.2) (zip positions (takes R (map worth positions))) orders.
Proof.
  induction 1 as [|p positions Hp _ IH]; intros d R index Sd HR; cbn [reduction_loop map takes].
  { exists []. by split; [|constructor]. }
  rewrite (scaled_lte 10 _ _ _ _ Sd (scaled_zero 10)). destruct (Z.leb_spec R 0); [exists []; by split; [|constructor]|].
  destruct (readable_notional p Hp) as (x & y & dy & dn & Ex & Ey & Hx & Hy & Ew & Hxy & Edy & Sy & Edn & Sn).
  exn_step Edy. rewrite (scaled_lte 2 _ _ _ _ Sy (scaled_zero 2)). destruct (Z.leb_spec y 0); [lia|].
  exn_step Edn. cbv zeta. pose proof (scaled_min2 10 _ _ _ _ ltac:(lia) Sn Sd) as Sm. rewrite <- Ew in Sm.
  destruct (IH (d_minus d (d_min [dn; d])) (R - Z.min (worth p) R) (index + 1)) as (orders & E & H2);
    [apply scaled_minus; [lia|done|done|lia]|lia|].
  destruct (reducing_size _ dy (Z.min (worth p) R) x y Sm Sy) as (z & Az & Hz); [nia|lia|nia|].
  exn_step E. exists ((z, reduction_intent src createdAt opp p (d_min [dn; d]) dy index) :: orders). split; [reflexivity|].
  cbn [zip zip_with]. constructor; [|exact H2]. cbn [fst snd]. constructor; try done; cbn.
  - nia.
  - by exists (d_min [dn; d]), dy.
  - unfold price_of. by rewrite Ey.
Qed.

Lemma by_notional_sorted positions : Forall (fun p => readable p = true) positions ->
  exists sorted, by_notional positions = Ret sorted /\ sorted ≡ₚ positions /\
    StronglySorted (fun p q => worth q <= worth p) sorted.
Proof.
  intros Hp. unfold by_notional. destruct (length positions <? 2)%nat eqn:E.
  { exists positions. split_and!; [done|done|]. destruct positions as [|p [|q l]]; [constructor|repeat constructor|].
    apply Nat.ltb_lt in E. cbn in E. lia. }
  assert (Hm : exists ns, map_exn notionalOfPosition positions = Ret ns).
  { clear E. induction Hp as [|p l Hp _ [ns IH]]; [by eexists|]. destruct (readable_notional p Hp) as (x & y & dy & dn & Hn).
    exists (dn :: ns). cbn [map_exn]. destruct Hn as (_ & _ & _ & _ & _ & _ & _ & _ & En & _). exn_step En. by exn_step IH. }
  destruct Hm as [ns Hm]. exn_step Hm.
  rewrite (js_sort_ext larger_notional (fun l r => worth r <? worth l)).
  - eexists. split_and!; [done|apply js_sort_perm|].
    assert (Ho : in_order (fun l r => worth r <? worth l) (js_sort (fun l r => worth r <? worth l) positions)).
    { apply js_sort_in_order; intros *; rewrite ?Z.ltb_lt, ?Z.ltb_ge; lia. }
    induction Ho as [|p l _ IH Hl]; [constructor|]. constructor; [exact IH|].
    eapply Forall_impl; [exact Hl|]. cbn. intros q Hq. by apply Z.ltb_ge.
  - intros l r Hl Hr. rewrite Forall_forall in Hp. unfold larger_notional.
    destruct (readable_notional l (Hp l Hl)) as (xl & yl & dyl & dl & _ & _ & _ & _ & Wl & _ & _ & _ & El & Sl).
    destruct (readable_notional r (Hp r Hr)) as (xr & yr & dyr & dr & _ & _ & _ & _ & Wr & _ & _ & _ & Er & Sr).
    rewrite Er, El, Wl, Wr. by apply (scaled_cmp_lt 10).
Qed.

Lemma readable_worths positions : Forall (fun p => readable p = true) positions -> Forall (fun n => 0 <= n) (map worth positions).
Proof.
  intros Hp. apply Forall_map. eapply Forall_impl; [exact Hp|]. cbn. intros p Hr.
  destruct (readable_notional p Hr) as (x & y & _ & _ & _ & _ & Hx & Hy & -> & _). nia.
Qed.

(** What the orders are worth at the prices of their positions differs from the
    amounts taken by a unit of size each at most. *)
Lemma orders_within src createdAt sorted : Forall (fun p => readable p = true) sorted -> forall R orders,
  Forall2 (fun pt zi => takes_from src createdAt pt.1 pt.2 zi.1 zi.2) (zip sorted (takes R (map worth sorted))) orders ->
  Z.abs (zsum (zip_with (fun zi p => zi.1 * price_of p) orders sorted) - zsum (takes R (map worth sorted))) <=
    zsum (map price_of (take (length orders) sorted)).
Proof.
  induction 1 as [|p sorted Hp _ IH]; intros R orders H2; [by inversion H2|]. cbn [map takes] in *.
  destruct (Z.leb_spec R 0); [by inversion H2|]. cbn [zip zip_with] in H2.
  inversion H2 as [|? zi ? orders' Ht H2' E1 E2]; subst. specialize (IH _ _ H2').
  cbn [zip_with length firstn map]. rewrite !zsum_cons.
  destruct (readable_notional _ Hp) as (x & y & _ & _ & _ & Ey & _ & Hy & _). pose proof (tk_rounded _ _ _ _ _ _ Ht) as Hz.
  cbn [fst snd] in Hz. assert (E : price_of p = y) by (unfold price_of; by rewrite Ey). rewrite E in *.
  pose proof (Z.mul_succ_div_gt (Z.min (worth p) R) y Hy). pose proof (Z.mul_succ_div_gt (- Z.min (worth p) R) y Hy). nia.
Qed.

(** C24. A reduction plan over readable positions (sizes of eight decimals,
    positive prices of two) takes from them in order of decreasing notional:
    from each the rest of the request or its whole notional, whichever is less,
    until the request is met.  There is one order for each amount taken,
    reduce-only, at the market, at the venue of the position and on the other
    side; its size is the amount over the mark price at eight decimals, so a
    position taken in full is closed exactly.  Together the orders are worth the
    requested notional, or everything there is when that is less, up to one
    unit of the eighth decimal of size for each order. *)
Theorem reduction_plan_exact (positions : list CarryPositionSnapshot) (notionalReductionUsd sourceReference : string)
    (createdAt R : Z)
    (Hp : Forall (fun p => readable p = true) positions)
    (HR : units_in 10 notionalReductionUsd = Some R) (Hbound : 0 <= R < 10 ^ 20) :
  exists orders sorted,
    buildCarryReductionIntents positions notionalReductionUsd sourceReference createdAt = Ret (map snd orders) /\
    sorted ≡ₚ positions /\ StronglySorted (fun p q => worth q <= worth p) sorted /\
    Forall2 (fun pt zi => takes_from sourceReference createdAt pt.1 pt.2 zi.1 zi.2)
      (zip sorted (takes R (map worth sorted))) orders /\
    Z.abs (zsum (zip_with (fun zi p => zi.1 * price_of p) orders sorted) - Z.min R (zsum (map worth positions))) <=
      zsum (map price_of (take (length orders) sorted)).
Proof.
  destruct (by_notional_sorted positions Hp) as (sorted & Es & Perm & Hs).
  destruct (units_in_parses _ _ _ HR) as (d & Ed & Sd).
  assert (Hps : Forall (fun p => readable p = true) sorted) by by rewrite Perm.
  destruct (reduction_loop_takes sourceReference createdAt ("carry-reduction-" +:+ sourceReference +:+ "-" +:+ z_str createdAt)
    sorted Hps d R 1 Sd Hbound) as (orders & E & H2).
  exists orders, sorted. unfold buildCarryReductionIntents. exn_step Es. exn_step Ed. split_and!; [done..|].
  rewrite <- (zsum_perm _ _ (Permutation_map worth Perm)), <- (takes_sum (map worth sorted) R); [|lia|by apply readable_worths].
  by apply (orders_within sourceReference createdAt).
Qed.
End Reduction.

(** ** A recommendation and a reduction *)

#[local] Instance no_dates : DateHost := {| date_parse _ := None |}.

Definition empty_profile_input : CarryStrategyProfileInput :=
  MkProfileInput None None None None None None None None None None None None None None None None None None None.
Definition carry_order : OrderIntent :=
  MkOrderIntent "i1" "sim" "BTC" buy market "0.01" None "opp" false 0 [].
Definition sample_recommendation (action : CarryActionType) (amount : string) : CarryExecutionRecommendation := {|
  cr_actionType := action; cr_sourceKind := from_opportunity; cr_sourceReference := None; cr_opportunityId := Some "opp";
  cr_asset := Some "BTC"; cr_summary := "deploy"; cr_notionalUsd := amount;
  cr_details := [("netYieldPct", JStr "12.5"); ("confidenceScore", JNum (num_of_dec 9 (-1)))];
  cr_plannedOrders := [carry_order] |}.
Definition carry_input (state : RuntimeLifecycleState) (recommendations : list CarryExecutionRecommendation)
    : CarryControlledExecutionPlanningInput := {|
  cx_recommendations := recommendations; cx_policy := MkCarryOverrides None None;
  cx_strategyPolicy := MkStrategyOverrides None None None None None None; cx_strategyProfile := empty_profile_input;
  cx_currentCarryAllocationUsd := "1000"; cx_approvedCarryBudgetUsd := Some "5000"; cx_totalCapitalUsd := Some "20000";
  cx_runtimeLifecycleState := state; cx_runtimeHalted := false; cx_criticalMismatchCount := 0;
  cx_carryThrottleState := th_normal; cx_executionMode := cm_dry_run; cx_liveExecutionEnabled := false;
  cx_venueCapabilities := [MkCarryCapabilities "sim" mode_simulated true true true false false false not_requested []];
  cx_openPositions := []; cx_now := 0 |}.

Definition intent_codes (m : exn (list CarryExecutionIntent)) : list (string * list CarryOperationalBlockedReasonCode) :=
  match m with Ret l => map (fun i => (ci_notionalUsd i, map cb_code (ci_blockedReasons i))) l | Throw _ => [] end.
Example planned_carry_intents :
  intent_codes (createExecutionIntents (DL := exact_decimal) (carry_input rl_ready
    [sample_recommendation increase_carry_exposure "4000"; sample_recommendation increase_carry_exposure "4000.01";
     sample_recommendation reduce_carry_exposure "249.99"])) =
  [("4000.00", []); ("4000.01", [carry_budget_exceeded]); ("249.99", [below_minimum_action_size])] /\
  intent_codes (createExecutionIntents (DL := exact_decimal) (carry_input rl_degraded
    [sample_recommendation increase_carry_exposure "4000"])) = [("4000.00", [runtime_not_ready])].
Proof. split; vm_compute; reflexivity. Qed.

Definition sample_profile (r : CarryExecutionRecommendation) (input : CarryControlledExecutionPlanningInput)
    : exn CarryStrategyProfile :=
  buildCarryStrategyProfile (DL := exact_decimal) (strategy_profile_input (cr_details r) (cx_strategyProfile input))
    (merged_strategy_policy (cx_strategyPolicy input)).

Lemma carry_intent_exact_witness :
  let r := sample_recommendation increase_carry_exposure "4000" in
  let input := carry_input rl_ready [r] in
  exists profile i, createExecutionIntent (DL := exact_decimal) input DEFAULT_CARRY_OPERATIONAL_POLICY r = Ret i /\
    (ci_executable i = true <-> carry_permitted input DEFAULT_CARRY_OPERATIONAL_POLICY r profile 400000 25000 100000 (Some 500000) None).
Proof.
  cbv zeta. set (r := sample_recommendation increase_carry_exposure "4000"). set (input := carry_input rl_ready [r]).
  destruct (sample_profile r input) as [profile|e] eqn:Hp; [|vm_compute in Hp; discriminate].
  destruct (carry_intent_exact (DL := exact_decimal) input DEFAULT_CARRY_OPERATIONAL_POLICY r profile 400000 25000 100000
    (Some 500000) None Hp) as (i & Ei & Si & _).
  - constructor; try (apply units_in_parses; reflexivity); try done.
    + exists (Some 2000000). exists 2000000. split; [done|]. apply units_in_parses. reflexivity.
    + exists 500000. split; [done|]. apply units_in_parses. reflexivity.
  - exists profile, i. split; [exact Ei|exact Si].
Defined.

Definition carry_position (asset : string) (side : PositionSide) (size price : string) : CarryPositionSnapshot :=
  MkCarryPosition (asset +:+ "-1") "sim" asset side size price "".
Definition sample_positions : list CarryPositionSnapshot :=
  [carry_position "ETH" short "2" "2500.50"; carry_position "BTC" long "0.5" "41000.25"; carry_position "SOL" long "10" "150"].

Example planned_reduction :
  (match buildCarryReductionIntents (DL := exact_decimal) sample_positions "21000" "ref" 0 with
   | Ret l => map (fun i => (oi_asset i, oi_side i, oi_size i)) l
   | Throw _ => [] end) = [("BTC", sell, "0.50000000"); ("ETH", buy, "0.19991002")].
Proof. vm_compute. reflexivity. Qed.

Lemma reduction_plan_exact_witness : exists orders sorted,
  buildCarryReductionIntents (DL := exact_decimal) sample_positions "21000" "ref" 0 = Ret (map snd orders) /\
  sorted ≡ₚ sample_positions /\ StronglySorted (fun p q => worth q <= worth p) sorted /\
  Forall2 (fun pt zi => takes_from (DL := exact_decimal) "ref" 0 pt.1 pt.2 zi.1 zi.2)
    (zip sorted (takes (21000 * 10 ^ 10) (map worth sorted))) orders /\
  Z.abs (zsum (zip_with (fun zi p => zi.1 * price_of p) orders sorted) -
    Z.min (21000 * 10 ^ 10) (zsum (map worth sample_positions))) <= zsum (map price_of (take (length orders) sorted)).
Proof.
  apply (reduction_plan_exact (DL := exact_decimal) sample_positions "21000" "ref" 0 (21000 * 10 ^ 10));
    [repeat constructor|reflexivity|lia].
Defined.
