(* ===== verification/RealizedApy.v ===== *)
(** * Realized yield (packages/carry: realized-apy.ts)

    The profit of closed trades, daily snapshots with their running totals, and
    the annualised yields reported from them.  A [Date] is its time in
    milliseconds; what [new Date(text)] and the local calendar make of a day is
    the host's.  The file shows that a chain of daily snapshots books every
    confirmed trade once for each day window that holds its closing, how its parts
    add up, and which trades the reported yields leave out or count although they
    are not confirmed. *)
From Stdlib Require Import SpecFloat.
From S2P Require Import Prelude JsNumber JsValue DecimalLib DecimalExact Money Executor.
Open Scope Z_scope.

(** The local calendar: [d.setDate(d.getDate() + 1)], and the last second of
    the local day of an instant. *)
Class LocalCalendar := {
  next_local_day : Z -> Z;
  end_of_local_day : Z -> Z;
}.

(** ** Types *)

Inductive TradeInstrument := spot_trade | perpetual_trade.

Record RealizedTrade := MkRealizedTrade {
  rt_tradeId : string;
  rt_positionId : option string;
  rt_sleeveId : string;
  rt_venueId : string;
  rt_asset : string;
  rt_side : PositionSide;
  rt_instrumentType : TradeInstrument;
  rt_entryPrice : string;
  rt_exitPrice : string;
  rt_size : string;
  rt_notionalUsd : string;
  rt_fundingPnl : string;
  rt_feeCost : string;
  rt_openedAt : Z;
  rt_closedAt : Z;
  rt_executionReference : option string;
  rt_confirmed : bool;
}.

(** The result of [computeTradePnl]; [RealizedTradePnl] extends the trade with it. *)
Record TradePnl := MkTradePnl {
  tp_grossPnl : string;
  tp_netPnl : string;
  tp_holdingPeriodDays : num;
  tp_returnPct : string;
}.
Record RealizedTradePnl := MkRealizedTradePnl {
  rp_trade : RealizedTrade;
  rp_pnl : TradePnl;
}.
Definition confirmed (t : RealizedTradePnl) : bool := rt_confirmed (rp_trade t).
Definition closedAt (t : RealizedTradePnl) : Z := rt_closedAt (rp_trade t).
Definition openedAt (t : RealizedTradePnl) : Z := rt_openedAt (rp_trade t).
Definition netPnl (t : RealizedTradePnl) : string := tp_netPnl (rp_pnl t).
Definition grossPnl (t : RealizedTradePnl) : string := tp_grossPnl (rp_pnl t).
Definition fundingPnl (t : RealizedTradePnl) : string := rt_fundingPnl (rp_trade t).
Definition feeCost (t : RealizedTradePnl) : string := rt_feeCost (rp_trade t).

Record DailySnapshot := MkDailySnapshot {
  ds_date : string;
  ds_sleeveId : string;
  ds_strategyId : string;
  ds_totalCapitalUsd : string;
  ds_deployedCapitalUsd : string;
  ds_idleCapitalUsd : string;
  ds_dailyPnlUsd : string;
  ds_dailyReturnPct : string;
  ds_cumulativePnlUsd : string;
  ds_cumulativeReturnPct : string;
  ds_tradesClosed : Z;
  ds_tradesWinning : Z;
  ds_tradesLosing : Z;
  ds_fundingPnlUsd : string;
  ds_pricePnlUsd : string;
  ds_feeCostUsd : string;
  ds_realizedApy7d : option string;
  ds_realizedApy30d : option string;
  ds_realizedApyLifetime : option string;
  ds_avgTradePnlUsd : option string;
  ds_avgHoldingPeriodDays : option string;
}.

Inductive CalculationBasis := live_trades | projected_basis | insufficient_data.

Record ApyCurrent := MkApyCurrent {
  ac_sleeveId : string;
  ac_strategyId : string;
  ac_realizedApy7d : option string;
  ac_realizedApy30d : option string;
  ac_realizedApyLifetime : option string;
  ac_targetApyPct : string;
  ac_projectedApyPct : option string;
  ac_targetMet : option bool;
  ac_targetGapPct : option string;
  ac_totalTradesClosed : Z;
  ac_totalPnlUsd : string;
  ac_totalFundingPnlUsd : string;
  ac_totalFeesUsd : string;
  ac_avgTradePnlUsd : option string;
  ac_winRatePct : option string;
  ac_firstTradeAt : option Z;
  ac_calculationBasis : CalculationBasis;
}.

Record PerformancePeriod := MkPeriod {
  pp_pnlUsd : string;
  pp_returnPct : string;
  pp_apy : option string;
  pp_tradeCount : Z;
  pp_winCount : Z;
  pp_lossCount : Z;
}.

Inductive TargetStatus := target_met | target_below | target_unknown.

Record StrategyPerformance := MkPerformance {
  pf_strategyId : string;
  pf_sleeveId : string;
  pf_currentApy : option string;
  pf_targetApy : string;
  pf_targetStatus : TargetStatus;
  pf_period1d : PerformancePeriod;
  pf_period7d : PerformancePeriod;
  pf_period30d : PerformancePeriod;
  pf_period90d : PerformancePeriod;
  pf_lifetime : PerformancePeriod;
  pf_lastUpdatedAt : Z;
  pf_lastTradeAt : option Z;
}.

Record ComputeTradePnlParams := MkTradePnlParams {
  tq_entryPrice : string;
  tq_exitPrice : string;
  tq_size : string;
  tq_side : PositionSide;
  tq_fundingPnl : string;
  tq_feeCost : string;
  tq_openedAt : Z;
  tq_closedAt : Z;
}.

Record CalculateDailySnapshotParams := MkSnapshotParams {
  sq_date : string;
  sq_sleeveId : string;
  sq_strategyId : string;
  sq_trades : list RealizedTradePnl;
  sq_previousSnapshot : option DailySnapshot;
  sq_totalCapitalUsd : string;
  sq_deployedCapitalUsd : string;
  sq_idleCapitalUsd : string;
}.

(** The element of a non-empty list that no later one beats: [list.reduce]
    without an initial value. *)
Definition reduce_by {A} (better : A -> A -> bool) (a : A) (l : list A) : A :=
  foldl (fun best t => if better t best then t else best) a l.

Definition day_ms : Z := 24 * 60 * 60 * 1000.

Section Calculations.
Context `{DL : DecimalLib}.

(** [list.reduce((sum, t) => sum.plus(new Decimal(f(t))), new Decimal(0))]. *)
Definition sum_decimals {A} (f : A -> string) (l : list A) : exn dec :=
  fold_exn (fun sum t => d ← dec_of_string (f t); Ret (d_plus sum d)) (dec_of_Z 0) l.

(** [list.filter(t => p(new Decimal(f(t))))], as a count. *)
Definition count_decimals {A} (f : A -> string) (p : dec -> bool) (l : list A) : exn Z :=
  ds ← map_exn (fun t => dec_of_string (f t)) l; Ret (Z.of_nat (length (List.filter p ds))).

(** ** Trades *)

Definition trade_days (openedAt closedAt : Z) : num :=
  n_max (n_div (num_of_Z (closedAt - openedAt)) (num_of_Z (1000 * 60 * 60 * 24))) (n_div (num_of_Z 1) (num_of_Z 1440)).

Definition computeTradePnl (params : ComputeTradePnlParams) : exn TradePnl :=
  entryPrice ← dec_of_string (tq_entryPrice params);
  exitPrice ← dec_of_string (tq_exitPrice params);
  size ← dec_of_string (tq_size params);
  funding ← dec_of_string (tq_fundingPnl params);
  fee ← dec_of_string (tq_feeCost params);
  let priceDiff := if bool_decide (tq_side params = long) then d_minus exitPrice entryPrice
                   else d_minus entryPrice exitPrice in
  let gross := d_times priceDiff size in
  let net := d_minus (d_plus gross funding) fee in
  let avgPrice := d_div (d_plus entryPrice exitPrice) (dec_of_Z 2) in
  let notional := d_times avgPrice size in
  let returnPct := if d_isZero notional then dec_of_Z 0 else d_times (d_div net notional) (dec_of_Z 100) in
  Ret {| tp_grossPnl := d_toFixed gross; tp_netPnl := d_toFixed net;
         tp_holdingPeriodDays := trade_days (tq_openedAt params) (tq_closedAt params);
         tp_returnPct := d_toFixedN 4 returnPct |}.

Definition calculateRealizedTradePnl (trade : RealizedTrade) : exn RealizedTradePnl :=
  pnl ← computeTradePnl (MkTradePnlParams (rt_entryPrice trade) (rt_exitPrice trade) (rt_size trade) (rt_side trade)
          (rt_fundingPnl trade) (rt_feeCost trade) (rt_openedAt trade) (rt_closedAt trade));
  Ret (MkRealizedTradePnl trade pnl).

(** ** Returns *)

Definition calculateTimeWeightedReturn (dailyReturns : list string) : exn string :=
  if is_empty dailyReturns then Ret "0"
  else
    product ← fold_exn (fun acc dailyReturn =>
      d ← dec_of_string dailyReturn; Ret (d_times acc (d_plus (dec_of_Z 1) (d_div d (dec_of_Z 100))))) (dec_of_Z 1) dailyReturns;
    Ret (d_toFixedN 4 (d_times (d_minus product (dec_of_Z 1)) (dec_of_Z 100))).

Definition annualizeReturn (returnPct : string) (days : num) : exn string :=
  if n_le days n_zero then Ret "0"
  else
    r ← dec_of_string returnPct;
    Ret (d_toFixedN 4 (d_times (d_minus (d_pow (d_plus (dec_of_Z 1) (d_div r (dec_of_Z 100))) (n_div (num_of_Z 365) days))
      (dec_of_Z 1)) (dec_of_Z 100))).

Definition calculateSimpleApy (pnlUsd capitalUsd : string) (days : num) : exn string :=
  if n_le days n_zero then Ret "0"
  else
    capital ← dec_of_string capitalUsd;
    if d_isZero capital then Ret "0"
    else
      pnl ← dec_of_string pnlUsd;
      Ret (d_toFixedN 4 (d_times (d_times (d_div pnl capital) (dec_of_num (n_div (num_of_Z 365) days))) (dec_of_Z 100))).

(** ** Rolling yields; a window is a whole number of days. *)

Definition in_window (windowDays endDate : Z) (t : RealizedTradePnl) : bool :=
  (endDate - windowDays * day_ms <=? closedAt t) && (closedAt t <=? endDate) && confirmed t.

Definition calculateRollingApy (trades : list RealizedTradePnl) (capitalUsd : string) (windowDays endDate : Z)
    : exn (option string) :=
  let windowTrades := List.filter (in_window windowDays endDate) trades in
  if is_empty windowTrades then Ret None
  else
    totalPnl ← sum_decimals netPnl windowTrades;
    apy ← calculateSimpleApy (d_toFixed totalPnl) capitalUsd (num_of_Z windowDays);
    Ret (Some apy).

Definition calculateApy7d (trades : list RealizedTradePnl) (capitalUsd : string) (endDate : Z) : exn (option string) :=
  calculateRollingApy trades capitalUsd 7 endDate.
Definition calculateApy30d (trades : list RealizedTradePnl) (capitalUsd : string) (endDate : Z) : exn (option string) :=
  calculateRollingApy trades capitalUsd 30 endDate.

Definition calculateApyLifetime (trades : list RealizedTradePnl) (capitalUsd : string) : exn (option string) :=
  match trades with
  | [] => Ret None
  | t :: rest =>
      let firstTrade := reduce_by (fun a b => openedAt a <? openedAt b) t rest in
      let lastTrade := reduce_by (fun a b => closedAt b <? closedAt a) t rest in
      let days := n_max (n_div (num_of_Z (closedAt lastTrade - openedAt firstTrade)) (num_of_Z (1000 * 60 * 60 * 24)))
                        (num_of_Z 1) in
      totalPnl ← sum_decimals netPnl trades;
      apy ← calculateSimpleApy (d_toFixed totalPnl) capitalUsd days;
      Ret (Some apy)
  end.

(** ** Daily snapshots *)

Context `{DH : DateHost} `{LC : LocalCalendar}.

(** The trades of a day; no trade when the date is invalid. *)
Definition on_day (date : string) (t : RealizedTradePnl) : bool :=
  match date_parse date with
  | Some start => (start <=? closedAt t) && (closedAt t <? next_local_day start) && confirmed t
  | None => false
  end.

(** A yield up to an invalid date has no trades. *)
Definition rolling_at (date : string) (f : Z -> exn (option string)) : exn (option string) :=
  match date_parse date with Some endDate => f endDate | None => Ret None end.

Definition pct_of (d capital : dec) : dec :=
  if d_isZero capital then dec_of_Z 0 else d_times (d_div d capital) (dec_of_Z 100).

Definition calculateDailySnapshot (params : CalculateDailySnapshotParams) : exn DailySnapshot :=
  let date := sq_date params in
  let trades := sq_trades params in
  let dailyTrades := List.filter (on_day date) trades in
  dailyPnlUsd ← sum_decimals netPnl dailyTrades;
  capital ← dec_of_string (sq_totalCapitalUsd params);
  previous ← (match sq_previousSnapshot params with
              | Some p => dec_of_string (ds_cumulativePnlUsd p)
              | None => Ret (dec_of_Z 0)
              end);
  let cumulativePnlUsd := d_plus previous dailyPnlUsd in
  let tradesClosed := Z.of_nat (length dailyTrades) in
  winning ← count_decimals netPnl (fun d => d_gt d (dec_of_Z 0)) dailyTrades;
  losing ← count_decimals netPnl (fun d => d_lt d (dec_of_Z 0)) dailyTrades;
  fundingPnlUsd ← sum_decimals fundingPnl dailyTrades;
  pricePnlUsd ← sum_decimals grossPnl dailyTrades;
  feeCostUsd ← sum_decimals feeCost dailyTrades;
  apy7d ← rolling_at date (calculateApy7d trades (sq_totalCapitalUsd params));
  apy30d ← rolling_at date (calculateApy30d trades (sq_totalCapitalUsd params));
  apyLifetime ← calculateApyLifetime trades (sq_totalCapitalUsd params);
  let daysTotal := foldl (fun sum t => n_add sum (tp_holdingPeriodDays (rp_pnl t))) n_zero dailyTrades in
  Ret {|
    ds_date := date; ds_sleeveId := sq_sleeveId params; ds_strategyId := sq_strategyId params;
    ds_totalCapitalUsd := sq_totalCapitalUsd params; ds_deployedCapitalUsd := sq_deployedCapitalUsd params;
    ds_idleCapitalUsd := sq_idleCapitalUsd params;
    ds_dailyPnlUsd := d_toFixed dailyPnlUsd; ds_dailyReturnPct := d_toFixedN 4 (pct_of dailyPnlUsd capital);
    ds_cumulativePnlUsd := d_toFixed cumulativePnlUsd;
    ds_cumulativeReturnPct := d_toFixedN 4 (pct_of cumulativePnlUsd capital);
    ds_tradesClosed := tradesClosed; ds_tradesWinning := winning; ds_tradesLosing := losing;
    ds_fundingPnlUsd := d_toFixed fundingPnlUsd; ds_pricePnlUsd := d_toFixed pricePnlUsd;
    ds_feeCostUsd := d_toFixed feeCostUsd;
    ds_realizedApy7d := apy7d; ds_realizedApy30d := apy30d; ds_realizedApyLifetime := apyLifetime;
    ds_avgTradePnlUsd := if is_empty dailyTrades then None else Some (d_toFixed (d_div dailyPnlUsd (dec_of_Z tradesClosed)));
    ds_avgHoldingPeriodDays := if is_empty dailyTrades then None
      else Some (n_toFixed 2 (n_div daysTotal (num_of_Z tradesClosed)));
  |}.

(** ** The current yield *)

Definition calculateApyCurrent (sleeveId strategyId targetApyPct : string) (latestSnapshot : option DailySnapshot)
    (allTrades : list RealizedTradePnl) : exn ApyCurrent :=
  match List.filter confirmed allTrades with
  | [] => Ret (MkApyCurrent sleeveId strategyId None None None targetApyPct None None None 0 "0" "0" "0" None None None
                 insufficient_data)
  | (t :: rest) as confirmedTrades =>
      let totalTradesClosed := Z.of_nat (length confirmedTrades) in
      totalPnl ← sum_decimals netPnl confirmedTrades;
      totalFundingPnl ← sum_decimals fundingPnl confirmedTrades;
      totalFees ← sum_decimals feeCost confirmedTrades;
      winning ← count_decimals netPnl (fun d => d_gt d (dec_of_Z 0)) confirmedTrades;
      let winRate := d_times (d_div (dec_of_Z winning) (dec_of_Z totalTradesClosed)) (dec_of_Z 100) in
      let firstTrade := reduce_by (fun a b => openedAt a <? openedAt b) t rest in
      let apy7d := latestSnapshot ≫= ds_realizedApy7d in
      let apy30d := latestSnapshot ≫= ds_realizedApy30d in
      let lifetime := latestSnapshot ≫= ds_realizedApyLifetime in
      let currentApy := match apy30d, apy7d with Some a, _ => Some a | None, Some a => Some a | None, None => lifetime end in
      status ← (match currentApy with
                | None => Ret (None, None)
                | Some c =>
                    current ← dec_of_string c;
                    target ← dec_of_string targetApyPct;
                    Ret (Some (d_gte current target), Some (d_toFixedN 4 (d_minus current target)))
                end);
      Ret {|
        ac_sleeveId := sleeveId; ac_strategyId := strategyId; ac_realizedApy7d := apy7d; ac_realizedApy30d := apy30d;
        ac_realizedApyLifetime := lifetime; ac_targetApyPct := targetApyPct; ac_projectedApyPct := currentApy;
        ac_targetMet := status.1; ac_targetGapPct := status.2; ac_totalTradesClosed := totalTradesClosed;
        ac_totalPnlUsd := d_toFixed totalPnl; ac_totalFundingPnlUsd := d_toFixed totalFundingPnl;
        ac_totalFeesUsd := d_toFixed totalFees;
        ac_avgTradePnlUsd := Some (d_toFixed (d_div totalPnl (dec_of_Z totalTradesClosed)));
        ac_winRatePct := Some (d_toFixedN 2 winRate); ac_firstTradeAt := Some (openedAt firstTrade);
        ac_calculationBasis := live_trades;
      |}
  end.

(** ** Performance *)

Definition in_period (periodDays endDate : Z) (s : DailySnapshot) : bool :=
  match date_parse (ds_date s) with
  | Some d => (endDate - periodDays * day_ms <=? d) && (d <=? endDate)
  | None => false
  end.
Definition z_sum_of {A} (f : A -> Z) (l : list A) : Z := foldl (fun sum s => sum + f s) 0 l.

(** The value at the start of the snapshots, and their return. *)
Definition start_value (first : DailySnapshot) : exn dec :=
  capital ← dec_of_string (ds_totalCapitalUsd first);
  cumulative ← dec_of_string (ds_cumulativePnlUsd first);
  Ret (d_minus capital cumulative).
Definition period_return (startValue endValue : dec) : dec :=
  if d_isZero startValue then dec_of_Z 0
  else d_times (d_div (d_minus endValue startValue) startValue) (dec_of_Z 100).

Definition calculatePerformancePeriod (snapshots : list DailySnapshot) (periodDays endDate : Z) : exn PerformancePeriod :=
  match List.filter (in_period periodDays endDate) snapshots with
  | [] => Ret (MkPeriod "0" "0" None 0 0 0)
  | (firstSnapshot :: rest) as periodSnapshots =>
      pnlUsd ← sum_decimals ds_dailyPnlUsd periodSnapshots;
      startValue ← start_value firstSnapshot;
      endValue ← dec_of_string (ds_totalCapitalUsd (List.last rest firstSnapshot));
      apy ← calculateSimpleApy (d_toFixed pnlUsd) (d_toFixed startValue) (num_of_Z periodDays);
      Ret {| pp_pnlUsd := d_toFixed pnlUsd; pp_returnPct := d_toFixedN 4 (period_return startValue endValue);
             pp_apy := Some apy; pp_tradeCount := z_sum_of ds_tradesClosed periodSnapshots;
             pp_winCount := z_sum_of ds_tradesWinning periodSnapshots;
             pp_lossCount := z_sum_of ds_tradesLosing periodSnapshots |}
  end.

(** The days between two dates, at least one; an invalid date gives NaN. *)
Definition days_between (first last : string) : num :=
  n_max (match date_parse first, date_parse last with
         | Some a, Some b => n_div (num_of_Z (b - a)) (num_of_Z (1000 * 60 * 60 * 24))
         | _, _ => S754_nan
         end) (num_of_Z 1).

(** The return and the yield over all snapshots. *)
Definition lifetime_yield (dailySnapshots : list DailySnapshot) (lifetimePnl : dec) : exn (dec * option string) :=
  match dailySnapshots with
  | [] => Ret (dec_of_Z 0, None)
  | firstSnapshot :: rest =>
      let lastSnapshot := List.last rest firstSnapshot in
      startValue ← start_value firstSnapshot;
      endValue ← dec_of_string (ds_totalCapitalUsd lastSnapshot);
      if d_isZero startValue then Ret (dec_of_Z 0, None)
      else
        apy ← calculateSimpleApy (d_toFixed lifetimePnl) (d_toFixed startValue)
                (days_between (ds_date firstSnapshot) (ds_date lastSnapshot));
        Ret (period_return startValue endValue, Some apy)
  end.

Definition calculateStrategyPerformance (now : Z) (strategyId sleeveId targetApy : string) (dailySnapshots : list DailySnapshot)
    (trades : list RealizedTradePnl) : exn StrategyPerformance :=
  let endOfToday := end_of_local_day now in
  period1d ← calculatePerformancePeriod dailySnapshots 1 endOfToday;
  period7d ← calculatePerformancePeriod dailySnapshots 7 endOfToday;
  period30d ← calculatePerformancePeriod dailySnapshots 30 endOfToday;
  period90d ← calculatePerformancePeriod dailySnapshots 90 endOfToday;
  lifetimePnl ← sum_decimals ds_dailyPnlUsd dailySnapshots;
  let lifetimeTrades := List.filter confirmed trades in
  wins ← count_decimals netPnl (fun d => d_gt d (dec_of_Z 0)) lifetimeTrades;
  losses ← count_decimals netPnl (fun d => d_lt d (dec_of_Z 0)) lifetimeTrades;
  yield_ ← lifetime_yield dailySnapshots lifetimePnl;
  let periodLifetime := {| pp_pnlUsd := d_toFixed lifetimePnl; pp_returnPct := d_toFixedN 4 yield_.1; pp_apy := yield_.2;
    pp_tradeCount := Z.of_nat (length lifetimeTrades); pp_winCount := wins; pp_lossCount := losses |} in
  let currentApy := match pp_apy period30d, pp_apy period7d with
    | Some a, _ => Some a | None, Some a => Some a | None, None => pp_apy periodLifetime end in
  targetStatus ← (match currentApy with
    | None => Ret target_unknown
    | Some c =>
        current ← dec_of_string c;
        target ← dec_of_string targetApy;
        Ret (if d_gte current target then target_met else target_below)
    end);
  Ret {| pf_strategyId := strategyId; pf_sleeveId := sleeveId; pf_currentApy := currentApy; pf_targetApy := targetApy;
         pf_targetStatus := targetStatus; pf_period1d := period1d; pf_period7d := period7d; pf_period30d := period30d;
         pf_period90d := period90d; pf_lifetime := periodLifetime; pf_lastUpdatedAt := now;
         pf_lastTradeAt := match trades with
           | [] => None
           | t :: rest => Some (closedAt (reduce_by (fun a b => closedAt b <? closedAt a) t rest))
           end |}.
End Calculations.

(** * Exactness of the ledger *)

(** What a trade is worth, in units of a power of ten. *)
Record Entry := MkEntry { e_net : Z; e_gross : Z; e_funding : Z; e_fee : Z }.
Definition e_size (e : Entry) : Z := Z.abs (e_net e) + Z.abs (e_gross e) + Z.abs (e_funding e) + Z.abs (e_fee e).

(** The confirmed trades closed from [s] on and before [e]. *)
Definition closed_in (s e : Z) (t : RealizedTradePnl) : bool := (s <=? closedAt t) && (closedAt t <? e) && confirmed t.
Definition total {A} (f : A -> Z) (l : list A) : Z := zsum (map f l).

Lemma total_one {A} (l : list A) : total (fun _ => 1) l = Z.of_nat (length l).
Proof. unfold total. induction l as [|a l IH]; [done|]. cbn [map]. rewrite zsum_cons, IH. cbn [length]. lia. Qed.

Lemma closed_in_split s m e t : s <= m <= e -> closed_in s e t = closed_in s m t || closed_in m e t.
Proof.
  intros H. unfold closed_in. destruct (confirmed t); rewrite ?andb_true_r, ?andb_false_r; [|done].
  destruct (Z.leb_spec s (closedAt t)), (Z.ltb_spec (closedAt t) e), (Z.ltb_spec (closedAt t) m), (Z.leb_spec m (closedAt t)); cbn; lia.
Qed.

Lemma closed_in_disjoint s m e t : closed_in s m t = true -> closed_in m e t = false.
Proof.
  unfold closed_in. intros [[H1 H2]%andb_true_iff _]%andb_true_iff. apply Z.ltb_lt in H2.
  by rewrite (proj2 (Z.leb_gt _ _) H2).
Qed.

Lemma total_abs {A} (f g : A -> Z) (p : A -> bool) l : (forall a, Z.abs (f a) <= g a) -> 
  Z.abs (total f (List.filter p l)) <= total g l.
Proof.
  intros H. unfold total. induction l as [|a l IH]; [done|]. cbn [List.filter map]. rewrite zsum_cons.
  specialize (H a). destruct (p a); cbn [map]; rewrite ?zsum_cons; lia.
Qed.

Section Exact.
Context `{DL : DecimalLib} `{LW : !DecimalLaws}.

Lemma sum_from k (f : RealizedTradePnl -> string) (a : RealizedTradePnl -> Z) l d z : 0 <= k <= 20 ->
  Forall (fun t => amount k (f t) (a t)) l -> scaled k d z -> Z.abs z + total (fun t => Z.abs (a t)) l < 10 ^ 20 ->
  exists r, fold_exn (fun sum t => d ← dec_of_string (f t); Ret (d_plus sum d)) d l = Ret r /\ scaled k r (z + total a l).
Proof.
  intros Hk Hl. revert d z. induction Hl as [|t l (x & Hx & Sx) _ IH]; intros d z Hd Hb.
  - exists d. split; [done|]. unfold total. cbn [map zsum foldr]. by rewrite Z.add_0_r.
  - unfold total in *. cbn [map] in *. rewrite zsum_cons in *. cbn [fold_exn]. rewrite (exn_bind_step _ _ _ Hx).
    assert (0 <= zsum (map (fun t => Z.abs (a t)) l)) by (apply zsum_nonneg, Forall_map, Forall_forall; intros; lia).
    destruct (IH (d_plus d x) (z + a t)) as (r & Hr & Sr); [apply scaled_plus; auto; lia|lia|].
    exists r. split; [exact Hr|]. by rewrite Z.add_assoc.
Qed.

Lemma sum_exact k (f : RealizedTradePnl -> string) (a : RealizedTradePnl -> Z) l : 0 <= k <= 20 ->
  Forall (fun t => amount k (f t) (a t)) l -> total (fun t => Z.abs (a t)) l < 10 ^ 20 ->
  exists r, sum_decimals f l = Ret r /\ scaled k r (total a l).
Proof.
  intros Hk Hl Hb. destruct (sum_from k f a l (dec_of_Z 0) 0) as (r & Hr & Sr); auto using scaled_zero.
  by exists r.
Qed.

Lemma count_total k (f : RealizedTradePnl -> string) (a : RealizedTradePnl -> Z) p l :
  Forall (fun t => amount k (f t) (a t)) l -> exists n, count_decimals f p l = Ret n.
Proof.
  intros Hl. unfold count_decimals.
  assert (exists ds, map_exn (fun t => dec_of_string (f t)) l = Ret ds) as (ds & E).
  { induction Hl as [|t l (x & Hx & _) _ (ds & IH)]; [by exists []|].
    exists (x :: ds). cbn [map_exn]. rewrite (exn_bind_step _ _ _ Hx). by rewrite (exn_bind_step _ _ _ IH). }
  rewrite (exn_bind_step _ _ _ E). by eexists.
Qed.

(** ** A trade *)

(** The profit of a trade at exact prices is exact: the price difference in
    the direction of the trade, plus funding, less the fee. *)
Definition trade_entry (side : PositionSide) (entry exit size funding fee : Z) : Entry :=
  let gross := (if bool_decide (side = long) then exit - entry else entry - exit) * size in
  {| e_net := gross + funding - fee; e_gross := gross; e_funding := funding; e_fee := fee |}.

(** The amounts of a trade, in units of [10^-k]. *)
Definition booked (k : Z) (t : RealizedTradePnl) (e : Entry) : Prop :=
  amount k (netPnl t) (e_net e) /\ amount k (grossPnl t) (e_gross e) /\
  amount k (fundingPnl t) (e_funding e) /\ amount k (feeCost t) (e_fee e) /\
  e_net e = e_gross e + e_funding e - e_fee e.

Lemma trade_booked j k t en ex sz fu fe : 0 <= j -> 0 <= k -> j + k <= 20 ->
  amount j (rt_entryPrice t) en -> amount j (rt_exitPrice t) ex -> amount k (rt_size t) sz ->
  amount (j + k) (rt_fundingPnl t) fu -> amount (j + k) (rt_feeCost t) fe ->
  Z.abs (ex - en) + e_size (trade_entry (rt_side t) en ex sz fu fe) < 10 ^ 20 ->
  exists r, calculateRealizedTradePnl t = Ret r /\ rp_trade r = t /\ booked (j + k) r (trade_entry (rt_side t) en ex sz fu fe).
Proof.
  intros Hj Hk Hjk (den & Pen & Sen) (dex & Pex & Sex) (dsz & Psz & Ssz) (dfu & Pfu & Sfu) (dfe & Pfe & Sfe) Hb.
  unfold calculateRealizedTradePnl, computeTradePnl. cbn [tq_entryPrice tq_exitPrice tq_size tq_side tq_fundingPnl tq_feeCost].
  rewrite Pen, Pex, Psz, Pfu, Pfe. cbn [mbind exn_bind].
  set (gross := d_times _ dsz).
  eexists. split; [reflexivity|]. split; [done|].
  unfold e_size, trade_entry in *. cbn [e_net e_gross e_funding e_fee] in *.
  assert (scaled (j + k) gross ((if bool_decide (rt_side t = long) then ex - en else en - ex) * sz)) as Sg.
  { apply scaled_times; try lia; [|done]. destruct (bool_decide (rt_side t = long)); apply scaled_minus; auto; lia. }
  set (g := (if bool_decide (rt_side t = long) then ex - en else en - ex) * sz) in *.
  repeat split; cbn [netPnl grossPnl fundingPnl feeCost rp_trade rp_pnl tp_netPnl tp_grossPnl e_net e_gross e_funding e_fee].
  - apply amount_print; [lia|]. apply scaled_minus; [lia| |done|lia]. apply scaled_plus; auto; lia.
  - apply amount_print; [lia|done].
  - by exists dfu.
  - by exists dfe.
Qed.
End Exact.

Section Snapshots.
Context `{DL : DecimalLib} `{LW : !DecimalLaws} `{DH : DateHost} `{LC : LocalCalendar}.

Lemma simple_apy_returns k pnl cap p c days : amount k pnl p -> amount k cap c ->
  exists r, calculateSimpleApy pnl cap days = Ret r.
Proof.
  intros (dp & Pp & _) (dc & Pc & _). unfold calculateSimpleApy. destruct (n_le days n_zero); [by eexists|].
  exn_step Pc. destruct (d_isZero dc); [by eexists|]. exn_step Pp. by eexists.
Qed.

Lemma booked_amounts k (L : RealizedTradePnl -> Entry) l : Forall (fun t => booked k t (L t)) l ->
  Forall (fun t => amount k (netPnl t) (e_net (L t))) l /\ Forall (fun t => amount k (grossPnl t) (e_gross (L t))) l /\
  Forall (fun t => amount k (fundingPnl t) (e_funding (L t))) l /\ Forall (fun t => amount k (feeCost t) (e_fee (L t))) l.
Proof. intros H. repeat split; (eapply Forall_impl; [exact H|]); cbn; intros t Ht; apply Ht. Qed.

Lemma filter_booked k (L : RealizedTradePnl -> Entry) (p : RealizedTradePnl -> bool) l :
  Forall (fun t => booked k t (L t)) l -> Forall (fun t => booked k t (L t)) (List.filter p l).
Proof. rewrite !List.Forall_forall. intros H t [Ht _]%filter_In. auto. Qed.

(** The sums of part of the trades stay below the precision. *)
Lemma part_bound (L : RealizedTradePnl -> Entry) (f : RealizedTradePnl -> Z) p l :
  (forall t, Z.abs (f t) <= e_size (L t)) -> total (fun t => Z.abs (f t)) (List.filter p l) <= total (fun t => e_size (L t)) l.
Proof.
  intros H. apply Z.abs_le, total_abs. intros t. by rewrite Z.abs_involutive.
Qed.

Lemma rolling_returns k L l cap c w e : 0 <= k <= 20 -> Forall (fun t => booked k t (L t)) l ->
  total (fun t => e_size (L t)) l < 10 ^ 20 -> amount k cap c -> exists r, calculateRollingApy l cap w e = Ret r.
Proof.
  intros Hk Hl Hb Hc. unfold calculateRollingApy. case_match; [by eexists|].
  destruct (sum_exact k netPnl (fun t => e_net (L t)) (List.filter (in_window w e) l)) as (r & Er & Sr); [done| | |].
  - by apply booked_amounts, filter_booked.
  - eapply Z.le_lt_trans; [apply (part_bound L)|exact Hb]. intros t. unfold e_size. lia.
  - exn_step Er. destruct (simple_apy_returns k (d_toFixed r) cap _ c (num_of_Z w) (amount_print k r _ Hk Sr) Hc) as (a & Ea).
    exn_step Ea. by eexists.
Qed.

Lemma filter_true {A} (l : list A) : List.filter (fun _ => true) l = l.
Proof. induction l as [|a l IH]; [done|]. cbn. by rewrite IH. Qed.

Lemma lifetime_returns k L l cap c : 0 <= k <= 20 -> Forall (fun t => booked k t (L t)) l ->
  total (fun t => e_size (L t)) l < 10 ^ 20 -> amount k cap c -> exists r, calculateApyLifetime l cap = Ret r.
Proof.
  intros Hk Hl Hb Hc. unfold calculateApyLifetime. destruct l as [|t l]; [by eexists|].
  destruct (sum_exact k netPnl (fun t => e_net (L t)) (t :: l)) as (r & Er & Sr); [done| | |].
  - by apply booked_amounts.
  - rewrite <- (filter_true (t :: l)). eapply Z.le_lt_trans; [apply (part_bound L)|exact Hb]. intros t'. unfold e_size. lia.
  - exn_step Er. destruct (simple_apy_returns k (d_toFixed r) cap _ c
      (n_max (n_div (num_of_Z (closedAt (reduce_by (fun a b => closedAt b <? closedAt a) t l) - openedAt (reduce_by (fun a b => openedAt a <? openedAt b) t l))) (num_of_Z (1000 * 60 * 60 * 24))) (num_of_Z 1))
      (amount_print k r _ Hk Sr) Hc) as (a & Ea).
    exn_step Ea. by eexists.
Qed.

(** What a snapshot books. *)
Definition books_day (k : Z) (L : RealizedTradePnl -> Entry) (trades : list RealizedTradePnl) (s : Z) (p : Z)
    (snap : DailySnapshot) : Prop :=
  let day := List.filter (closed_in s (next_local_day s)) trades in
  amount k (ds_dailyPnlUsd snap) (total (fun t => e_net (L t)) day) /\
  amount k (ds_cumulativePnlUsd snap) (p + total (fun t => e_net (L t)) day) /\
  amount k (ds_pricePnlUsd snap) (total (fun t => e_gross (L t)) day) /\
  amount k (ds_fundingPnlUsd snap) (total (fun t => e_funding (L t)) day) /\
  amount k (ds_feeCostUsd snap) (total (fun t => e_fee (L t)) day) /\
  ds_tradesClosed snap = Z.of_nat (length day).

(** The cumulative profit before a day. *)
Definition previous_pnl (k : Z) (prev : option DailySnapshot) (p : Z) : Prop :=
  match prev with Some snap => amount k (ds_cumulativePnlUsd snap) p | None => p = 0 end.

Lemma snapshot_exact k L params s p c : 0 <= k <= 20 ->
  Forall (fun t => booked k t (L t)) (sq_trades params) ->
  total (fun t => e_size (L t)) (sq_trades params) < 10 ^ 20 ->
  Z.abs (p + total (fun t => e_net (L t)) (List.filter (closed_in s (next_local_day s)) (sq_trades params))) < 10 ^ 20 ->
  previous_pnl k (sq_previousSnapshot params) p -> amount k (sq_totalCapitalUsd params) c ->
  date_parse (sq_date params) = Some s ->
  exists snap, calculateDailySnapshot params = Ret snap /\ books_day k L (sq_trades params) s p snap.
Proof.
  intros Hk Hl Hb Hb2 Hp Hc Hs. unfold books_day. cbn zeta.
  assert (forall t, on_day (sq_date params) t = closed_in s (next_local_day s) t) as Eday by (intros t; unfold on_day; by rewrite Hs).
  unfold calculateDailySnapshot. cbn zeta. rewrite (List.filter_ext _ _ Eday).
  set (day := List.filter (closed_in s (next_local_day s)) (sq_trades params)).
  destruct (booked_amounts k L day (filter_booked k L _ _ Hl)) as (An & Ag & Af & Ae).
  assert (forall f, (forall t, Z.abs (f t) <= e_size (L t)) -> total (fun t => Z.abs (f t)) day < 10 ^ 20) as B.
  { intros f Hf. eapply Z.le_lt_trans; [by apply (part_bound L)|]. lia. }
  destruct (sum_exact k netPnl (fun t => e_net (L t)) day Hk An) as (rn & En & Sn); [apply B; intros; unfold e_size; lia|].
  destruct (sum_exact k fundingPnl (fun t => e_funding (L t)) day Hk Af) as (rf & Ef & Sf); [apply B; intros; unfold e_size; lia|].
  destruct (sum_exact k grossPnl (fun t => e_gross (L t)) day Hk Ag) as (rg & Eg & Sg); [apply B; intros; unfold e_size; lia|].
  destruct (sum_exact k feeCost (fun t => e_fee (L t)) day Hk Ae) as (re & Ee & Se); [apply B; intros; unfold e_size; lia|].
  exn_step En. destruct Hc as (dc & Pc & Sc). exn_step Pc.
  assert (exists dp, match sq_previousSnapshot params with
    | Some p => dec_of_string (ds_cumulativePnlUsd p) | None => Ret (dec_of_Z 0) end = Ret dp /\ scaled k dp p) as (dp & Ep & Sp).
  { destruct (sq_previousSnapshot params) as [snap|]; [exact Hp|]. cbn in Hp. subst p. eauto using scaled_zero. }
  exn_step Ep.
  destruct (count_total k netPnl (fun t => e_net (L t)) (fun d => d_gt d (dec_of_Z 0)) day An) as (n1 & E1). exn_step E1.
  destruct (count_total k netPnl (fun t => e_net (L t)) (fun d => d_lt d (dec_of_Z 0)) day An) as (n2 & E2). exn_step E2.
  exn_step Ef. exn_step Eg. exn_step Ee.
  assert (amount k (sq_totalCapitalUsd params) c) as Hc by (by exists dc).
  unfold rolling_at. rewrite Hs. unfold calculateApy7d, calculateApy30d.
  destruct (rolling_returns k L _ _ c 7 s Hk Hl Hb Hc) as (a7 & E7). exn_step E7.
  destruct (rolling_returns k L _ _ c 30 s Hk Hl Hb Hc) as (a30 & E30). exn_step E30.
  destruct (lifetime_returns k L _ _ c Hk Hl Hb Hc) as (al & Elf). exn_step Elf.
  eexists. split; [reflexivity|].
  cbn [ds_dailyPnlUsd ds_cumulativePnlUsd ds_pricePnlUsd ds_fundingPnlUsd ds_feeCostUsd ds_tradesClosed].
  repeat split; try (by apply amount_print).
  apply amount_print; [done|]. apply scaled_plus; [lia|done|done|done].
Qed.

(** ** A run of days *)

Record DayInput := MkDayInput { di_date : string; di_total : string; di_deployed : string; di_idle : string }.

(** The snapshots of a run of days, each from the one before. *)
Fixpoint daily_snapshots (sleeveId strategyId : string) (trades : list RealizedTradePnl) (prev : option DailySnapshot)
    (days : list DayInput) : exn (list DailySnapshot) :=
  match days with
  | [] => Ret []
  | d :: rest =>
      snap ← calculateDailySnapshot (MkSnapshotParams (di_date d) sleeveId strategyId trades prev (di_total d)
               (di_deployed d) (di_idle d));
      snaps ← daily_snapshots sleeveId strategyId trades (Some snap) rest;
      Ret (snap :: snaps)
  end.

(** The window of the day that starts at [s], and how many of the windows that
    start at [starts] hold the closing of a trade. *)
Definition window (s : Z) : RealizedTradePnl -> bool := closed_in s (next_local_day s).
Definition times_booked (starts : list Z) (t : RealizedTradePnl) : Z :=
  Z.of_nat (length (List.filter (fun s => window s t) starts)).

(** The windows come in order and do not overlap. *)
Fixpoint apart (starts : list Z) : Prop :=
  match starts with
  | s :: rest => Forall (fun s' => next_local_day s <= s') rest /\ apart rest
  | [] => True
  end.

(** Every window starts where the one before ended; the last one ends at [e]. *)
Fixpoint joined (starts : list Z) (e : Z) : Prop :=
  match starts with
  | [] => False
  | [s] => next_local_day s = e
  | s :: ((s' :: _) as rest) => next_local_day s = s' /\ s <= s' /\ joined rest e
  end.

Lemma times_booked_cons s starts t : times_booked (s :: starts) t = (if window s t then 1 else 0) + times_booked starts t.
Proof. unfold times_booked. cbn [List.filter]. destruct (window s t); cbn [length]; lia. Qed.

Lemma times_booked_total (f : RealizedTradePnl -> Z) s starts trades :
  total (fun t => times_booked (s :: starts) t * f t) (List.filter confirmed trades) =
  total f (List.filter (window s) trades) + total (fun t => times_booked starts t * f t) (List.filter confirmed trades).
Proof.
  unfold total. induction trades as [|t l IH]; [done|]. cbn [List.filter].
  assert (Hw : window s t = true -> confirmed t = true) by by intros [_ ?]%andb_true_iff.
  destruct (confirmed t) eqn:Ec; [|destruct (window s t); [by specialize (Hw eq_refl)|exact IH]].
  cbn [map]. rewrite zsum_cons, IH, times_booked_cons. destruct (window s t); cbn [map]; rewrite !zsum_cons; lia.
Qed.

Lemma apart_once starts t : apart starts -> times_booked starts t <= 1.
Proof.
  induction starts as [|s l IH]; [done|]. cbn [apart]. intros [Hs Hl]. rewrite times_booked_cons. destruct (window s t) eqn:E; [|by apply IH].
  assert (times_booked l t = 0) as ->; [|lia]. unfold times_booked.
  apply andb_true_iff in E as [[_ E]%andb_true_iff _]. apply Z.ltb_lt in E. clear IH Hl.
  induction Hs as [|s' l Hs' _ IH]; [done|]. cbn [List.filter]. unfold window, closed_in at 1.
  rewrite (proj2 (Z.leb_gt s' (closedAt t))) by lia. exact IH.
Qed.

Lemma joined_le starts e : joined starts e -> Forall (fun s => s <= next_local_day s) starts ->
  Forall (fun s => List.hd 0 starts <= s /\ next_local_day s <= e) starts /\ List.hd 0 starts <= e.
Proof.
  induction starts as [|s [|s' l] IH]; [done| |]; cbn [joined List.hd].
  - intros <- [Hs _]%Forall_cons. split; [by repeat constructor; lia|done].
  - intros (E & Hle & Hj) [Hs Hl]%Forall_cons. destruct (IH Hj Hl) as [H1 H2]. cbn [List.hd] in *. split; [|lia]. constructor; [lia|].
    eapply Forall_impl; [exact H1|]. intros x [? ?]. lia.
Qed.

Lemma joined_once starts e t : joined starts e -> Forall (fun s => s <= next_local_day s) starts ->
  times_booked starts t = if closed_in (List.hd 0 starts) e t then 1 else 0.
Proof.
  induction starts as [|s [|s' l] IH]; [done| |]; cbn [joined List.hd]; rewrite times_booked_cons.
  - intros <- _. change (times_booked [] t) with 0. unfold window. destruct (closed_in _ _ t); lia.
  - intros (E & Hle & Hj) [Hs Hl]%Forall_cons. rewrite (IH Hj Hl). cbn [List.hd].
    destruct (joined_le (s' :: l) e Hj Hl) as [_ He]. cbn [List.hd] in He.
    unfold window. rewrite E, (closed_in_split s s' e) by lia.
    pose proof (closed_in_disjoint s s' e t). destruct (closed_in s s' t); [by rewrite H|done].
Qed.

(** The running total books every trade once for each window that holds it. *)
Lemma snapshots_ledger k L sleeve strategy trades days starts : 0 <= k <= 20 ->
  Forall (fun t => booked k t (L t)) trades -> Forall (fun d => exists c, amount k (di_total d) c) days ->
  Forall2 (fun d s => date_parse (di_date d) = Some s) days starts ->
  forall prev p, Z.abs p + (Z.of_nat (length days) + 1) * total (fun t => e_size (L t)) trades < 10 ^ 20 ->
  previous_pnl k prev p ->
  exists snaps, daily_snapshots sleeve strategy trades prev days = Ret snaps /\
    previous_pnl k (List.last (map Some snaps) prev)
      (p + total (fun t => times_booked starts t * e_net (L t)) (List.filter confirmed trades)) /\
    zsum (map ds_tradesClosed snaps) = total (fun t => times_booked starts t * 1) (List.filter confirmed trades).
Proof.
  intros Hk Hl Hc Hd. assert (HT : 0 <= total (fun t => e_size (L t)) trades).
  { unfold total. apply zsum_nonneg, Forall_map, Forall_forall. intros t _. unfold e_size. lia. }
  assert (HL : forall a, Z.abs (e_net (L a)) <= e_size (L a)) by (intros; unfold e_size; lia).
  assert (Hnil : forall f, total (fun t => times_booked [] t * f t) (List.filter confirmed trades) = 0).
  { intros f. unfold total. induction (List.filter confirmed trades) as [|t l IH]; [done|]. cbn [map]. by rewrite zsum_cons, IH. }
  induction Hd as [|d s days starts Hs Hd IH]; intros prev p Hb Hp.
  - exists []. rewrite !Hnil, Z.add_0_r. done.
  - apply Forall_cons in Hc as [[c Hc1] Hc2]. cbn [length] in Hb.
    pose proof (total_abs (fun t => e_net (L t)) (fun t => e_size (L t)) (window s) trades HL) as Hw.
    destruct (snapshot_exact k L (MkSnapshotParams (di_date d) sleeve strategy trades prev (di_total d) (di_deployed d) (di_idle d))
      s p c Hk Hl) as (snap & Esnap & Bsnap); cbn [sq_trades sq_previousSnapshot sq_totalCapitalUsd sq_date]; [nia| |exact Hp|done|done|].
    { unfold window in Hw. nia. }
    unfold books_day in Bsnap. cbn zeta in Bsnap. cbn [sq_trades] in Bsnap. destruct Bsnap as (_ & Bc & _ & _ & _ & Bn).
    destruct (IH Hc2 (Some snap) (p + total (fun t => e_net (L t)) (List.filter (window s) trades))) as (snaps & Es & Hlast & Hn); [nia|exact Bc|].
    exists (snap :: snaps). cbn [daily_snapshots]. exn_step Esnap. exn_step Es. split; [done|]. rewrite !times_booked_total, Z.add_assoc. split.
    + cbn [map]. rewrite last_default. exact Hlast.
    + cbn [map]. rewrite zsum_cons, Hn, Bn, total_one. done.
Qed.

(** C8. Daily snapshots are a ledger.  Whatever days are snapshotted, in
    whatever order and calendar, the run never fails, its last cumulative
    profit is the profit before it plus the net profit of every confirmed
    trade once for each day whose window (from the date to the next local
    day after it) holds the closing of the trade, and the trades counted add
    up to the same bookings.  When the windows do not overlap no trade is booked
    twice; when each starts where the one before ended, a trade is booked
    exactly if it closed between the first start and the last end.  Where a
    window ends before the next date begins, as on a day of 23 local hours,
    a trade that closed between them is booked on no day. *)
Theorem cumulative_pnl_is_ledger k L sleeve strategy trades prev p days starts :
  0 <= k <= 20 ->
  Forall (fun t => booked k t (L t)) trades ->
  Z.abs p + (Z.of_nat (length days) + 1) * total (fun t => e_size (L t)) trades < 10 ^ 20 ->
  Forall (fun d => exists c, amount k (di_total d) c) days ->
  Forall2 (fun d s => date_parse (di_date d) = Some s) days starts -> previous_pnl k prev p ->
  (exists snaps, daily_snapshots sleeve strategy trades prev days = Ret snaps /\
    previous_pnl k (List.last (map Some snaps) prev)
      (p + total (fun t => times_booked starts t * e_net (L t)) (List.filter confirmed trades)) /\
    zsum (map ds_tradesClosed snaps) = total (times_booked starts) (List.filter confirmed trades)) /\
  (apart starts -> forall t, times_booked starts t <= 1) /\
  (forall e, joined starts e -> Forall (fun s => s <= next_local_day s) starts ->
    forall t, times_booked starts t = if closed_in (List.hd 0 starts) e t then 1 else 0).
Proof.
  intros Hk Hl Hb Hc Hd Hp. split_and!; [|intros; by apply apart_once|intros; by apply joined_once].
  destruct (snapshots_ledger k L sleeve strategy trades days starts Hk Hl Hc Hd prev p Hb Hp) as (snaps & E & H1 & H2).
  exists snaps. split_and!; [done|done|]. rewrite H2. unfold total. f_equal. apply map_ext. intros t. lia.
Qed.

End Snapshots.

(** * Concrete runs *)

(** Two days of May 2024 in a calendar without summer time, and the last days
    of March 2024 in one where the clock is put forward on the 31st. *)
Definition may_1 : Z := 1714521600000.
Definition may_2 : Z := 1714608000000.
Definition march_31 : Z := 1711843200000.
Definition april_1 : Z := 1711929600000.
#[local] Instance some_dates : DateHost := {|
  date_parse s := if String.eqb s "2024-05-01" then Some may_1
                  else if String.eqb s "2024-05-02" then Some may_2
                  else if String.eqb s "2024-03-31" then Some march_31
                  else if String.eqb s "2024-04-01" then Some april_1 else None
|}.
Definition utc_calendar : LocalCalendar := {| next_local_day s := s + day_ms; end_of_local_day s := s + day_ms - 1000 |}.
Definition summer_time : LocalCalendar :=
  {| next_local_day s := if s =? march_31 then s + 23 * 3600000 else s + day_ms; end_of_local_day s := s + day_ms - 1000 |}.

Definition sample_trade (closed : Z) (conf : bool) : RealizedTradePnl := {|
  rp_trade := {| rt_tradeId := "t"; rt_positionId := None; rt_sleeveId := "carry"; rt_venueId := "v"; rt_asset := "BTC";
    rt_side := long; rt_instrumentType := perpetual_trade; rt_entryPrice := "100"; rt_exitPrice := "110"; rt_size := "1.5";
    rt_notionalUsd := "150"; rt_fundingPnl := "2.5"; rt_feeCost := "0.5"; rt_openedAt := may_1 - 30 * day_ms; rt_closedAt := closed;
    rt_executionReference := None; rt_confirmed := conf |};
  rp_pnl := {| tp_grossPnl := "15"; tp_netPnl := "17"; tp_holdingPeriodDays := num_of_Z 1; tp_returnPct := "10.7937" |} |}.
Definition sample_entry (t : RealizedTradePnl) : Entry := trade_entry long 100 110 15 25 5.
Definition sample_trades : list RealizedTradePnl :=
  [sample_trade (may_1 + 1000) true; sample_trade (may_2 + 5000) false; sample_trade (may_2 + day_ms - 1) true].
Definition sample_days : list DayInput := [MkDayInput "2024-05-01" "10000" "5000" "5000"; MkDayInput "2024-05-02" "10017" "0" "10017"].

(** One trade closes in the hour between the windows of the two days. *)
Definition march_trades : list RealizedTradePnl := [sample_trade (april_1 - 1000) true; sample_trade (april_1 + 1000) true].
Definition march_days : list DayInput := [MkDayInput "2024-03-31" "10000" "5000" "5000"; MkDayInput "2024-04-01" "10000" "5000" "5000"].

Lemma cumulative_pnl_is_ledger_witness :
  (exists snaps, daily_snapshots (DL := exact_decimal) (LC := utc_calendar) "carry" "s" sample_trades None sample_days = Ret snaps /\
    previous_pnl (DL := exact_decimal) 1 (List.last (map Some snaps) None) 340 /\
    zsum (map ds_tradesClosed snaps) = 2) /\
  (exists snaps, daily_snapshots (DL := exact_decimal) (LC := summer_time) "carry" "s" march_trades None march_days = Ret snaps /\
    previous_pnl (DL := exact_decimal) 1 (List.last (map Some snaps) None) 170 /\
    zsum (map ds_tradesClosed snaps) = 1).
Proof.
  split.
  - refine (proj1 (cumulative_pnl_is_ledger (DL := exact_decimal) (LC := utc_calendar) 1 sample_entry "carry" "s" sample_trades None 0
      sample_days [may_1; may_2] _ _ _ _ _ _)); [lia|repeat constructor; apply units_in_parses; reflexivity|reflexivity| |repeat constructor|reflexivity].
    constructor; [exists 100000|constructor; [exists 100170|constructor]]; apply units_in_parses; reflexivity.
  - refine (proj1 (cumulative_pnl_is_ledger (DL := exact_decimal) (LC := summer_time) 1 sample_entry "carry" "s" march_trades None 0
      march_days [march_31; april_1] _ _ _ _ _ _)); [lia|repeat constructor; apply units_in_parses; reflexivity|reflexivity| |repeat constructor|reflexivity].
    constructor; [exists 100000|constructor; [exists 100000|constructor]]; apply units_in_parses; reflexivity.
Defined.

Definition sample_snapshot (LC : LocalCalendar) (date : string) (trades : list RealizedTradePnl) : exn DailySnapshot :=
  calculateDailySnapshot (DL := exact_decimal) (MkSnapshotParams date "carry" "s" trades None "10000" "5000" "5000").

(** The trades of a day are in the day's profit and not in the seven and thirty
    day yields of the same snapshot, which end with the first instant of the day. *)
Example own_day_not_in_yield :
  (s ← sample_snapshot utc_calendar "2024-05-01" [sample_trade (may_1 + 1000) true];
   Ret (ds_tradesClosed s, ds_dailyPnlUsd s, ds_realizedApy7d s, ds_realizedApy30d s)) = Ret (1, "17", None, None).
Proof. vm_compute. reflexivity. Qed.

(** A trade that is not confirmed is in no profit, but in the lifetime yield. *)
Example unconfirmed_in_lifetime_yield :
  (s ← sample_snapshot utc_calendar "2024-05-01" [sample_trade (may_1 + 1000) false];
   Ret (ds_tradesClosed s, ds_dailyPnlUsd s, bool_decide (ds_realizedApyLifetime s = None))) = Ret (0, "0", false).
Proof. vm_compute. reflexivity. Qed.

(** Where the clock is put forward a local day has 23 hours, and a trade closed
    in the last hour is in the snapshot of neither day. *)
Example summer_time_loses_trades :
  (a ← sample_snapshot summer_time "2024-03-31" [sample_trade (april_1 - 1000) true];
   b ← sample_snapshot summer_time "2024-04-01" [sample_trade (april_1 - 1000) true];
   Ret (ds_tradesClosed a, ds_tradesClosed b)) = Ret (0, 0).
Proof. vm_compute. reflexivity. Qed.
