(* ===== verification/CarrySizing.v ===== *)
(** * Sizing, hedge state and profit of carry positions (packages/carry)

    [src/packages/carry/src/config.ts], [position-sizer.ts], [hedge-state.ts]
    and [pnl.ts].  Counts of positions and opportunities are integers, a [Date]
    is its time in milliseconds.  The file shows between which amounts a
    computed size lies, when a pair counts as hedged, and that a hedged pair
    earns its funding less its fees. *)
From Stdlib Require Import SpecFloat Qabs Qround.
From S2P Require Import Prelude JsNumber JsValue DecimalLib DecimalExact Money.
Open Scope Z_scope.

(** ** config.ts *)

Record CarryConfig := MkCarryConfig {
  cc_sleeveId : string;
  cc_minAnnualYieldPct : string;
  cc_minConfidenceScore : num;
  cc_maxOpportunityAgeSec : num;
  cc_defaultPositionSizePct : string;
  cc_maxPositionSizePct : string;
  cc_kellyCriterionFraction : string;
  cc_estimatedTakerFeePct : string;
  cc_estimatedMakerFeePct : string;
  cc_approvedVenues : list string;
  cc_approvedAssets : list string;
  cc_maxConcurrentOpportunities : Z;
  cc_maxOpportunitiesPerAsset : Z;
  cc_maxOpportunitiesPerVenue : Z;
  cc_maxAssetExposurePct : string;
  cc_maxVenueExposurePct : string;
  cc_minFundingRateAnnualized : string;
  cc_minBasisPct : string;
  cc_minCrossVenueSpreadPct : string;
}.

Definition DEFAULT_CARRY_CONFIG : CarryConfig := {|
  cc_sleeveId := "carry";
  cc_minAnnualYieldPct := "5.0";
  cc_minConfidenceScore := num_of_dec 6 (-1);
  cc_maxOpportunityAgeSec := num_of_Z 300;
  cc_defaultPositionSizePct := "5";
  cc_maxPositionSizePct := "20";
  cc_kellyCriterionFraction := "0.25";
  cc_estimatedTakerFeePct := "0.05";
  cc_estimatedMakerFeePct := "0.02";
  cc_approvedVenues := [];
  cc_approvedAssets := ["BTC"; "ETH"; "SOL"];
  cc_maxConcurrentOpportunities := 5;
  cc_maxOpportunitiesPerAsset := 2;
  cc_maxOpportunitiesPerVenue := 3;
  cc_maxAssetExposurePct := "10";
  cc_maxVenueExposurePct := "15";
  cc_minFundingRateAnnualized := "3.0";
  cc_minBasisPct := "0.5";
  cc_minCrossVenueSpreadPct := "0.3";
|}.

(** ** hedge-state.ts *)

Inductive HedgeState := unhedged | partially_hedged | fully_hedged | over_hedged.
#[export] Instance HedgeState_eq_dec : EqDecision HedgeState.
Proof. solve_decision. Defined.

Definition HEDGE_TOLERANCE_PCT : string := "5".

Record HedgeLegSizes := MkHedgeLegSizes { hs_longSizeUsd : string; hs_shortSizeUsd : string }.

(** ** position-sizer.ts *)

Record ComputePositionSizeParams := MkSizeParams {
  ps_sleeveNav : string;
  ps_expectedYieldPct : string;
  ps_confidenceScore : num;
  ps_config : CarryConfig;
  ps_currentExposurePct : string;
}.

Record ComputeMaxAllowedSizeParams := MkMaxSizeParams {
  ms_sleeveNav : string;
  ms_currentPositions : Z;
  ms_config : CarryConfig;
}.

(** ** pnl.ts *)

Record PositionPnl := MkPositionPnl {
  pp_realizedPnl : string;
  pp_unrealizedPnl : string;
  pp_fundingPnl : string;
  pp_feeCost : string;
  pp_netPnl : string;
  pp_netAnnualizedYieldPct : string;
  pp_holdingPeriodDays : num;
}.

Record ComputeCarryPnlParams := MkCarryPnlParams {
  cp_longEntryPrice : string;
  cp_longCurrentPrice : string;
  cp_longSize : string;
  cp_shortEntryPrice : string;
  cp_shortCurrentPrice : string;
  cp_shortSize : string;
  cp_fundingReceived : string;
  cp_totalFeesPaid : string;
  cp_openedAt : Z;
  cp_now : Z;
}.

Section Sizing.
Context `{DL : DecimalLib}.

Definition computeHedgeState (legs : HedgeLegSizes) : exn HedgeState :=
  longSize ← dec_of_string (hs_longSizeUsd legs);
  shortSize ← dec_of_string (hs_shortSizeUsd legs);
  let longIsZero := d_isZero longSize in
  let shortIsZero := d_isZero shortSize in
  if longIsZero && shortIsZero then Ret unhedged
  else if longIsZero || shortIsZero then Ret unhedged
  else
    let imbalancePct := d_times (d_div (d_abs (d_minus longSize shortSize)) longSize) (dec_of_Z 100) in
    tolerance ← dec_of_string HEDGE_TOLERANCE_PCT;
    if d_lte imbalancePct tolerance then Ret fully_hedged
    else if d_gt shortSize longSize then
      let overHedgePct := d_times (d_div (d_minus shortSize longSize) longSize) (dec_of_Z 100) in
      if d_gt overHedgePct tolerance then Ret over_hedged else Ret partially_hedged
    else Ret partially_hedged.

(** The Kelly percentage of the net asset value. *)
Definition kelly_pct (expectedYield : dec) (confidence : num) (kellyCriterionFraction : dec) : dec :=
  let expectedYieldFraction := d_div expectedYield (dec_of_Z 100) in
  let rawKellyFraction := d_times expectedYieldFraction (dec_of_num confidence) in
  d_times (d_times rawKellyFraction kellyCriterionFraction) (dec_of_Z 100).

Definition computePositionSize (params : ComputePositionSizeParams) : exn string :=
  let config := ps_config params in
  navD ← dec_of_string (ps_sleeveNav params);
  if d_isZero navD then Ret "0"
  else
    maxPositionSizePct ← dec_of_string (cc_maxPositionSizePct config);
    kellyCriterionFraction ← dec_of_string (cc_kellyCriterionFraction config);
    defaultSizePct ← dec_of_string (cc_defaultPositionSizePct config);
    currentExposure ← dec_of_string (ps_currentExposurePct params);
    let remainingCapacityPct := d_minus maxPositionSizePct currentExposure in
    if d_lte remainingCapacityPct (dec_of_Z 0) then Ret "0"
    else
      expectedYield ← dec_of_string (ps_expectedYieldPct params);
      let scaledSizePct := kelly_pct expectedYield (ps_confidenceScore params) kellyCriterionFraction in
      let sizePct := d_min [d_max [scaledSizePct; defaultSizePct]; maxPositionSizePct; remainingCapacityPct] in
      let sizeUsd := d_div (d_times navD sizePct) (dec_of_Z 100) in
      Ret (d_toFixedN 2 sizeUsd).

Definition computeMaxAllowedSize (params : ComputeMaxAllowedSizeParams) : exn string :=
  let config := ms_config params in
  navD ← dec_of_string (ms_sleeveNav params);
  if d_isZero navD then Ret "0"
  else if cc_maxConcurrentOpportunities config <=? ms_currentPositions params then Ret "0"
  else
    maxPct ← dec_of_string (cc_maxPositionSizePct config);
    let maxTotalExposureUsd := d_div (d_times navD maxPct) (dec_of_Z 100) in
    let remainingSlots := cc_maxConcurrentOpportunities config - ms_currentPositions params in
    let perPositionMax := d_div maxTotalExposureUsd (dec_of_Z remainingSlots) in
    defaultPct ← dec_of_string (cc_defaultPositionSizePct config);
    let defaultSizeUsd := d_div (d_times navD defaultPct) (dec_of_Z 100) in
    Ret (d_toFixedN 2 (d_min [perPositionMax; defaultSizeUsd])).

(** At least one minute, in days. *)
Definition holding_days (openedAt now : Z) : num :=
  n_max (n_div (num_of_Z (now - openedAt)) (num_of_Z (1000 * 60 * 60 * 24))) (n_div (num_of_Z 1) (num_of_Z 1440)).

Definition computeCarryPnl (params : ComputeCarryPnlParams) : exn PositionPnl :=
  longEntry ← dec_of_string (cp_longEntryPrice params);
  longCurrent ← dec_of_string (cp_longCurrentPrice params);
  longSizeD ← dec_of_string (cp_longSize params);
  shortEntry ← dec_of_string (cp_shortEntryPrice params);
  shortCurrent ← dec_of_string (cp_shortCurrentPrice params);
  shortSizeD ← dec_of_string (cp_shortSize params);
  fundingD ← dec_of_string (cp_fundingReceived params);
  feesD ← dec_of_string (cp_totalFeesPaid params);
  let longUnrealized := d_times (d_minus longCurrent longEntry) longSizeD in
  let shortUnrealized := d_times (d_minus shortEntry shortCurrent) shortSizeD in
  let unrealizedPnl := d_plus longUnrealized shortUnrealized in
  let realizedPnl := dec_of_Z 0 in
  let netPnl := d_minus (d_plus (d_plus realizedPnl unrealizedPnl) fundingD) feesD in
  let holdingPeriodDays := holding_days (cp_openedAt params) (cp_now params) in
  let avgLongNotional := d_times (d_div (d_plus longEntry longCurrent) (dec_of_Z 2)) longSizeD in
  let avgShortNotional := d_times (d_div (d_plus shortEntry shortCurrent) (dec_of_Z 2)) shortSizeD in
  let avgNotional := d_div (d_plus avgLongNotional avgShortNotional) (dec_of_Z 2) in
  let netAnnualizedYieldPct :=
    if d_isZero avgNotional then "0"
    else d_toFixedN 4 (d_times (d_times (d_div netPnl avgNotional)
           (dec_of_num (n_div (num_of_Z 365) holdingPeriodDays))) (dec_of_Z 100)) in
  Ret {|
    pp_realizedPnl := d_toFixed realizedPnl;
    pp_unrealizedPnl := d_toFixed unrealizedPnl;
    pp_fundingPnl := d_toFixed fundingD;
    pp_feeCost := d_toFixed feesD;
    pp_netPnl := d_toFixed netPnl;
    pp_netAnnualizedYieldPct := netAnnualizedYieldPct;
    pp_holdingPeriodDays := holdingPeriodDays;
  |}.
End Sizing.

Example hedge_state_samples :
  map (fun '(l, s) => computeHedgeState (DL := exact_decimal) (MkHedgeLegSizes l s))
    [("0", "0"); ("100", "0"); ("100", "105"); ("100", "106"); ("100", "94.99"); ("100", "x")] =
  [Ret unhedged; Ret unhedged; Ret fully_hedged; Ret over_hedged; Ret partially_hedged;
   Throw (MkError "Error" "[DecimalError] Invalid argument: x")].
Proof. vm_compute. reflexivity. Qed.
Example position_size_samples :
  map (fun '(y, e) => computePositionSize (DL := exact_decimal)
      (MkSizeParams "10000" y (num_of_Z 1) DEFAULT_CARRY_CONFIG e))
    [("8", "0"); ("40", "0"); ("400", "0"); ("400", "15"); ("8", "20")] =
  [Ret "500.00"; Ret "1000.00"; Ret "2000.00"; Ret "500.00"; Ret "0"].
Proof. vm_compute. reflexivity. Qed.
Example max_size_samples :
  map (fun n => computeMaxAllowedSize (DL := exact_decimal) (MkMaxSizeParams "10000" n DEFAULT_CARRY_CONFIG))
    [0; 4; 5] = [Ret "400.00"; Ret "500.00"; Ret "0"].
Proof. vm_compute. reflexivity. Qed.

(** ** Hedge state *)

Section HedgeFacts.
Context `{DL : DecimalLib} `{LW : !DecimalLaws}.

(** The hedge state of a pair of amounts in cents. *)
Definition hedge_state_of (l s : Z) : HedgeState :=
  if (l =? 0) || (s =? 0) then unhedged
  else if 100 * Z.abs (l - s) <=? 5 * l then fully_hedged
  else if l <? s then over_hedged else partially_hedged.

Lemma tolerance_parses : exists d, dec_of_string HEDGE_TOLERANCE_PCT = Ret d /\ is_fin d (inject_Z 5).
Proof. destruct (literal_parses HEDGE_TOLERANCE_PCT (inject_Z 5) eq_refl) as (d & ? & ?). by exists d. Qed.

Lemma units_isZero a x : units a (100 * x) -> d_isZero a = (x =? 0).
Proof. intros H. rewrite (scaled_isZero _ _ _ H). apply eq_true_iff_eq. rewrite !Z.eqb_eq. lia. Qed.

(** The hedge state of a pair of dollar amounts is decided exactly: no
    hedge while a leg is empty, fully hedged within five percent of the long
    leg, over-hedged when the short leg exceeds the long one by more, and
    partially hedged when it falls short by more. *)
Theorem pair_hedge_state_exact (legs : HedgeLegSizes)
    (Hl : money (hs_longSizeUsd legs) = true) (Hs : money (hs_shortSizeUsd legs) = true) :
  computeHedgeState legs = Ret (hedge_state_of (cents_of (hs_longSizeUsd legs)) (cents_of (hs_shortSizeUsd legs))).
Proof.
  destruct (money_parses _ Hl) as (dl & El & Ul & Bl), (money_parses _ Hs) as (ds & Es & Us & Bs).
  destruct tolerance_parses as (dt & Et & Ft).
  set (l := cents_of (hs_longSizeUsd legs)) in *. set (s := cents_of (hs_shortSizeUsd legs)) in *.
  unfold computeHedgeState. exn_step El. exn_step Es. cbn zeta.
  rewrite (units_isZero _ _ Ul), (units_isZero _ _ Us). unfold hedge_state_of, money_bound in *.
  destruct (Z.eqb_spec l 0), (Z.eqb_spec s 0); try done. cbn [andb orb]. exn_step Et.
  assert (Ud : forall a b x y, units a (100 * x) -> units b (100 * y) -> Z.abs (x - y) < 10 ^ 16 ->
    units (d_minus a b) (100 * (x - y))).
  { intros a b x y Ha Hb Hxy. rewrite Z.mul_sub_distr_l. apply units_minus; [done|done|]. lia. }
  pose proof (units_abs _ _ (Ud _ _ _ _ Ul Us ltac:(lia))) as Ua. rewrite Z.abs_mul in Ua.
  rewrite (units_share_lte _ _ dt (Z.abs (l - s)) l 5); [|done|done|done|unfold money_bound; lia..].
  destruct (Z.leb_spec (100 * Z.abs (l - s)) (5 * l)); [done|].
  rewrite (units_gt _ _ _ _ Us Ul).
  destruct (Z.ltb_spec l s), (Z.ltb_spec (100 * l) (100 * s)); try lia; [|done].
  rewrite (units_share_of _ _ dt (s - l) l 5); [|apply Ud; [done|done|lia]|done|done|unfold money_bound; lia..].
  destruct (Z.ltb_spec (5 * l) (100 * (s - l))); [done|lia].
Qed.
End HedgeFacts.

Lemma pair_hedge_state_exact_witness :
  computeHedgeState (DL := exact_decimal) (MkHedgeLegSizes "100.00" "105.01") = Ret over_hedged.
Proof. apply (pair_hedge_state_exact (DL := exact_decimal) (MkHedgeLegSizes "100.00" "105.01")); vm_compute; reflexivity. Defined.

(** ** Position sizes *)

Section SizeFacts.
Context `{DL : DecimalLib} `{LW : !DecimalLaws}.

(** [nav * pct / 100] printed in cents, for a percentage between two exact ones. *)
Lemma share_fixed (nav pct : dec) N lo hi p :
  scaled 2 nav N -> 0 <= N -> 0 <= lo -> N * hi < 10 ^ 20 -> is_fin pct p ->
  (lo # 10000 <= p)%Q -> (p <= hi # 10000)%Q ->
  exists b c, dec_of_string (d_toFixedN 2 (d_div (d_times nav pct) (dec_of_Z 100))) = Ret b /\
    scaled 2 b c /\ half_up 6 (N * lo) <= c <= half_up 6 (N * hi).
Proof.
  intros HN Hn Hlo Hhi Hp L U.
  assert (Hpos : 0 <= lo <= hi). { split; [done|]. assert (lo # 10000 <= hi # 10000)%Q as Hq by lra. unfold Qle in Hq; cbn in Hq. lia. }
  assert (L1 : (N * lo # Z.to_pos (10 ^ 6) <= (N # Z.to_pos (10 ^ 2)) * p)%Q).
  { apply Qle_trans with ((N # Z.to_pos (10 ^ 2)) * (lo # 10000))%Q; [by unfold Qle; cbn; lia|].
    rewrite !(Qmult_comm (N # _)). apply Qmult_le_compat_r; [done|]. by unfold Qle; cbn; lia. }
  assert (U1 : ((N # Z.to_pos (10 ^ 2)) * p <= N * hi # Z.to_pos (10 ^ 6))%Q).
  { apply Qle_trans with ((N # Z.to_pos (10 ^ 2)) * (hi # 10000))%Q; [|by unfold Qle; cbn; lia].
    rewrite !(Qmult_comm (N # _)). apply Qmult_le_compat_r; [done|]. by unfold Qle; cbn; lia. }
  destruct (between_fin (d_times nav pct) (N * lo # Z.to_pos (10 ^ 6)) (N * hi # Z.to_pos (10 ^ 6))) as (x & Fx & L2 & U2).
  { rewrite (d_times_fin _ _ _ _ HN Hp), <- (d_rnd_exact (N * lo) 6) by nia. by apply d_rnd_mono. }
  { rewrite (d_times_fin _ _ _ _ HN Hp), <- (d_rnd_exact (N * hi) 6) by nia. by apply d_rnd_mono. }
  destruct (between_fin (d_div (d_times nav pct) (dec_of_Z 100)) (N * lo # Z.to_pos (10 ^ 8)) (N * hi # Z.to_pos (10 ^ 8)))
    as (y & Fy & L3 & U3).
  { rewrite (d_div_fin _ _ _ _ Fx (d_of_int 100 ltac:(lia))) by by intros ?.
    rewrite <- (d_rnd_exact (N * lo) 8) by nia. apply d_rnd_mono. apply Qle_shift_div_l; [done|].
    eapply Qle_trans; [|exact L2]. unfold Qle; cbn; lia. }
  { rewrite (d_div_fin _ _ _ _ Fx (d_of_int 100 ltac:(lia))) by by intros ?.
    rewrite <- (d_rnd_exact (N * hi) 8) by nia. apply d_rnd_mono. apply Qle_shift_div_r; [done|].
    eapply Qle_trans; [exact U2|]. unfold Qle; cbn; lia. }
  apply (between_fixed 2 6 _ y); try done; lia.
Qed.

(** The percentage that sizes a position lies between the default share and the
    room that is left. *)
Lemma size_pct_bounds kelly default maxPct room D M R :
  dv_isNaN (dval kelly) = false -> scaled 4 default D -> scaled 4 maxPct M -> scaled 4 room R ->
  exists p, is_fin (d_min [d_max [kelly; default]; maxPct; room]) p /\
    (Z.min D (Z.min M R) # 10000 <= p)%Q /\ (p <= Z.min M R # 10000)%Q.
Proof.
  intros Hk HD HM HR.
  pose proof (is_fin_not_nan _ _ HD) as ND. pose proof (is_fin_not_nan _ _ HM) as NM. pose proof (is_fin_not_nan _ _ HR) as NR.
  destruct (d_max2_ge kelly default Hk ND) as [_ Hge].
  assert (Nm : dv_isNaN (dval (d_max [kelly; default])) = false) by eauto with dec.
  destruct (d_min_in [d_max [kelly; default]; maxPct; room]) as (a & Ha & Ea & Hall); [done|by repeat constructor|].
  rewrite !Forall_cons in Hall. destruct Hall as (H1 & H2 & H3 & _).
  unfold scaled, is_fin in HD, HM, HR. rewrite HD in Hge. rewrite HM in H2. rewrite HR in H3.
  apply between_fin.
  - rewrite Ea. rewrite !elem_of_cons, elem_of_nil in Ha. destruct Ha as [-> |[-> |[-> |[]]]].
    + eapply dv_le_trans; [|exact Hge]. dv_simpl. unfold Qle; cbn; lia.
    + rewrite HM. dv_simpl. unfold Qle; cbn; lia.
    + rewrite HR. dv_simpl. unfold Qle; cbn; lia.
  - destruct (Z.min_spec M R) as [[_ ->]|[_ ->]]; done.
Qed.

(** No room left, or no value: nothing. *)
Lemma zero_amount k : amount k "0" 0.
Proof. apply units_in_parses. reflexivity. Qed.

Lemma computePositionSize_bounds (params : ComputePositionSizeParams) (N M D C : Z) (y k : dec)
    (HN : amount 2 (ps_sleeveNav params) N) (HN0 : 0 < N)
    (HM : amount 4 (cc_maxPositionSizePct (ps_config params)) M) (HNM : N * M < 10 ^ 20)
    (HD : amount 4 (cc_defaultPositionSizePct (ps_config params)) D) (HD0 : 0 <= D)
    (HC : amount 4 (ps_currentExposurePct params) C) (HC0 : 0 <= C < M)
    (Hy : dec_of_string (ps_expectedYieldPct params) = Ret y)
    (Hk : dec_of_string (cc_kellyCriterionFraction (ps_config params)) = Ret k)
    (Hkelly : dv_isNaN (dval (kelly_pct y (ps_confidenceScore params) k)) = false) :
  exists s c, computePositionSize params = Ret s /\ amount 2 s c /\
    half_up 6 (N * Z.min D (M - C)) <= c <= half_up 6 (N * (M - C)).
Proof.
  destruct HN as (dn & En & Fn), HM as (dm & Em & Fm), HD as (dd & Ed & Fd), HC as (dc & Ec & Fc).
  assert (HMN : M <= N * M) by nia.
  assert (Fr : scaled 4 (d_minus dm dc) (M - C)) by (apply scaled_minus; [lia|done|done|lia]).
  destruct (size_pct_bounds _ _ _ _ D M (M - C) Hkelly Fd Fm Fr) as (p & Fp & L & U).
  replace (Z.min M (M - C)) with (M - C) in * by lia.
  set (sizePct := d_min _) in Fp.
  destruct (share_fixed dn sizePct N (Z.min D (M - C)) (M - C) p Fn) as (b & c & Hb & Sb & Bc); [lia|lia|nia|exact Fp|exact L|exact U|].
  eexists _, c. split; [|split; [exists b; split; [exact Hb|done]|done]].
  unfold computePositionSize. exn_step En. rewrite (scaled_isZero _ _ _ Fn).
  destruct (Z.eqb_spec N 0); [lia|]. exn_step Em. exn_step Hk. exn_step Ed. exn_step Ec. cbn zeta.
  rewrite (scaled_lte _ _ _ _ _ Fr (scaled_zero 4)). destruct (Z.leb_spec (M - C) 0); [lia|].
  by exn_step Hy.
Qed.

(** Above the maximum share nothing is added. *)
Lemma computePositionSize_full (params : ComputePositionSizeParams) (N M C : Z)
    (HN : amount 2 (ps_sleeveNav params) N) (HM : amount 4 (cc_maxPositionSizePct (ps_config params)) M)
    (HC : amount 4 (ps_currentExposurePct params) C) (HMC : M <= C) (HC0 : Z.abs (M - C) < 10 ^ 20)
    (Hd : is_ret (dec_of_string (cc_defaultPositionSizePct (ps_config params))) = true)
    (Hk : is_ret (dec_of_string (cc_kellyCriterionFraction (ps_config params))) = true) :
  computePositionSize params = Ret "0".
Proof.
  destruct HN as (dn & En & Fn), HM as (dm & Em & Fm), HC as (dc & Ec & Fc).
  assert (Fr : scaled 4 (d_minus dm dc) (M - C)) by (apply scaled_minus; [lia|done|done|lia]).
  unfold computePositionSize. exn_step En. destruct (d_isZero dn); [done|]. exn_step Em.
  destruct (dec_of_string (cc_kellyCriterionFraction _)); [|done].
  destruct (dec_of_string (cc_defaultPositionSizePct _)); [|done]. cbn [mbind exn_bind]. exn_step Ec. cbn zeta.
  rewrite (scaled_lte _ _ _ _ _ Fr (scaled_zero 4)). by destruct (Z.leb_spec (M - C) 0); [|lia].
Qed.

(** The size of a new position, for a sleeve worth [N] cents: it never
    exceeds the smaller of the maximum share and the capacity the sleeve's
    current exposure leaves, and it is never below the default share within
    that room, however small the expected yield and the confidence are. *)
Theorem position_size_bounds (params : ComputePositionSizeParams) (N M D C : Z) (y k : dec)
    (HN : units_in 2 (ps_sleeveNav params) = Some N) (HN0 : 0 < N)
    (HM : units_in 4 (cc_maxPositionSizePct (ps_config params)) = Some M) (HNM : N * M < 10 ^ 20)
    (HD : units_in 4 (cc_defaultPositionSizePct (ps_config params)) = Some D) (HD0 : 0 <= D)
    (HC : units_in 4 (ps_currentExposurePct params) = Some C) (HC0 : 0 <= C < M)
    (Hy : dec_of_string (ps_expectedYieldPct params) = Ret y)
    (Hk : dec_of_string (cc_kellyCriterionFraction (ps_config params)) = Ret k)
    (Hkelly : dv_isNaN (dval (kelly_pct y (ps_confidenceScore params) k)) = false) :
  exists s c, computePositionSize params = Ret s /\ amount 2 s c /\
    half_up 6 (N * Z.min D (M - C)) <= c <= half_up 6 (N * (M - C)).
Proof. apply (computePositionSize_bounds params N M D C y k); auto using units_in_parses. Qed.

(** A size offered for a slot is never negative and never above the default share. *)
Lemma max_size_bounds (params : ComputeMaxAllowedSizeParams) (N M D : Z)
    (HN : amount 2 (ms_sleeveNav params) N) (HN0 : 0 < N)
    (HM : amount 4 (cc_maxPositionSizePct (ms_config params)) M) (HM0 : 0 <= M) (HNM : N * M < 10 ^ 20)
    (HD : amount 4 (cc_defaultPositionSizePct (ms_config params)) D) (HD0 : 0 <= D) (HND : N * D < 10 ^ 20)
    (Hs : cc_maxConcurrentOpportunities (ms_config params) < 2 ^ 53)
    (Hp : 0 <= ms_currentPositions params) :
  exists s c, computeMaxAllowedSize params = Ret s /\ amount 2 s c /\ 0 <= c <= half_up 6 (N * D).
Proof.
  destruct HN as (dn & En & Fn), HM as (dm & Em & Fm), HD as (dd & Ed & Fd).
  destruct (Z.leb_spec (cc_maxConcurrentOpportunities (ms_config params)) (ms_currentPositions params)) as [Hfull|Hfree].
  { exists "0", 0. split; [|split; [apply zero_amount|]].
    - unfold computeMaxAllowedSize. exn_step En. destruct (d_isZero dn); [done|]. cbn zeta.
      by rewrite (proj2 (Z.leb_le _ _) Hfull).
    - split; [done|]. unfold half_up. apply Z.div_pos; lia. }
  set (slots := cc_maxConcurrentOpportunities (ms_config params) - ms_currentPositions params).
  assert (Hpct : forall pct k, scaled 4 pct k -> 0 <= k -> N * k < 10 ^ 20 ->
    scaled 8 (d_div (d_times dn pct) (dec_of_Z 100)) (N * k)).
  { intros pct k Hpk Hk Hb. apply (scaled_div100 6); [lia|lia| |nia]. apply (scaled_times 2 4); first [done|lia]. }
  pose proof (Hpct _ _ Fm HM0 HNM) as Ft. pose proof (Hpct _ _ Fd HD0 HND) as Fs.
  set (total := d_div (d_times dn dm) (dec_of_Z 100)) in *. set (share := d_div (d_times dn dd) (dec_of_Z 100)) in *.
  assert (exists x, is_fin (d_div total (dec_of_Z slots)) x /\ (0 <= x)%Q) as (x & Fx & Hx).
  { assert (Fslots : is_fin (dec_of_Z slots) (inject_Z slots)) by (apply d_of_int; lia).
    destruct (between_fin (d_div total (dec_of_Z slots)) 0 (N * M # Z.to_pos (10 ^ 8))) as (x & Fx & L & _);
      [| |by exists x].
    - rewrite (d_div_fin _ _ _ _ Ft Fslots) by (unfold Qeq; cbn; lia). apply d_rnd_nonneg.
      apply Qle_shift_div_l; [by unfold Qlt; cbn; lia|]. by unfold Qle; cbn; nia.
    - rewrite (d_div_fin _ _ _ _ Ft Fslots) by (unfold Qeq; cbn; lia).
      rewrite <- (d_rnd_exact (N * M) 8) by nia. apply d_rnd_mono.
      apply Qle_shift_div_r; [by unfold Qlt; cbn; lia|].
      unfold Qle, Qmult, inject_Z. cbn [Qnum Qden]. rewrite Pos2Z.inj_mul. nia. }
  destruct (d_min_in [d_div total (dec_of_Z slots); share]) as (a & Ha & Ea & Hall).
  { done. } { repeat constructor; by eapply is_fin_not_nan. }
  rewrite !Forall_cons in Hall. destruct Hall as (_ & H2 & _). unfold scaled, is_fin in Fs, Fx. rewrite Fs in H2.
  destruct (between_fin (d_min [d_div total (dec_of_Z slots); share]) 0 (N * D # Z.to_pos (10 ^ 8))) as (y & Fy & L & U).
  { rewrite Ea. rewrite !elem_of_cons, elem_of_nil in Ha. destruct Ha as [-> |[-> |[]]].
    - rewrite Fx. dv_simpl. done.
    - rewrite Fs. dv_simpl. unfold Qle; cbn; nia. }
  { done. }
  destruct (between_fixed 2 6 _ y 0 (N * D) ltac:(lia) ltac:(lia) ltac:(lia) Fy) as (b & c & Hb & Sb & Bc); [|done|].
  { eapply Qle_trans; [|exact L]. by unfold Qle. }
  eexists _, c. split; [|split; [exists b; split; [exact Hb|done]|by split; apply Bc]].
  unfold computeMaxAllowedSize. exn_step En. rewrite (scaled_isZero _ _ _ Fn).
  destruct (Z.eqb_spec N 0); [lia|]. cbn zeta. rewrite (proj2 (Z.leb_gt _ _) Hfree).
  exn_step Em. by exn_step Ed.
Qed.
End SizeFacts.

Lemma position_size_bounds_witness :
  exists s c, computePositionSize (DL := exact_decimal)
      (MkSizeParams "10000" "8" (num_of_Z 1) DEFAULT_CARRY_CONFIG "16.5") = Ret s /\
    amount (DL := exact_decimal) 2 s c /\
    half_up 6 (1000000 * Z.min 50000 35000) <= c <= half_up 6 (1000000 * 35000).
Proof.
  apply (position_size_bounds (DL := exact_decimal) (MkSizeParams "10000" "8" (num_of_Z 1) DEFAULT_CARRY_CONFIG "16.5")
    1000000 200000 50000 165000 (DFin 8) (DFin (25 # 100))); first [by vm_compute | lia].
Defined.

(** ** Profit *)

Section PnlFacts.
Context `{DL : DecimalLib} `{LW : !DecimalLaws}.

(** The profit of a pair of legs whose prices are in cents and whose sizes have
    at most eight places: the price moves of the two legs, plus the funding,
    less the fees.  Legs of equal size that entered and stand at equal prices
    earn the funding less the fees, whatever the price did. *)
Lemma carry_pnl_exact (p : ComputeCarryPnlParams) (le lc ls se sc ss f c : Z)
    (Hle : units_in 2 (cp_longEntryPrice p) = Some le) (Hlc : units_in 2 (cp_longCurrentPrice p) = Some lc)
    (Hls : units_in 8 (cp_longSize p) = Some ls) (Hse : units_in 2 (cp_shortEntryPrice p) = Some se)
    (Hsc : units_in 2 (cp_shortCurrentPrice p) = Some sc) (Hss : units_in 8 (cp_shortSize p) = Some ss)
    (Hf : units_in 2 (cp_fundingReceived p) = Some f) (Hc : units_in 2 (cp_totalFeesPaid p) = Some c)
    (Hlb : Z.abs (lc - le) < 10 ^ 9) (Hsb : Z.abs (se - sc) < 10 ^ 9)
    (Hlz : Z.abs ls < 10 ^ 10) (Hsz : Z.abs ss < 10 ^ 10) (Hfb : Z.abs f < 10 ^ 11) (Hcb : Z.abs c < 10 ^ 11) :
  exists r u d, computeCarryPnl p = Ret r /\
    pp_unrealizedPnl r = d_toFixed u /\ scaled 10 u ((lc - le) * ls + (se - sc) * ss) /\
    pp_netPnl r = d_toFixed d /\ scaled 10 d ((lc - le) * ls + (se - sc) * ss + (f - c) * 10 ^ 8).
Proof.
  destruct (units_in_parses _ _ _ Hle) as (d1 & E1 & F1), (units_in_parses _ _ _ Hlc) as (d2 & E2 & F2),
    (units_in_parses _ _ _ Hls) as (d3 & E3 & F3), (units_in_parses _ _ _ Hse) as (d4 & E4 & F4),
    (units_in_parses _ _ _ Hsc) as (d5 & E5 & F5), (units_in_parses _ _ _ Hss) as (d6 & E6 & F6),
    (units_in_parses _ _ _ Hf) as (d7 & E7 & F7), (units_in_parses _ _ _ Hc) as (d8 & E8 & F8).
  assert (B1 : Z.abs ((lc - le) * ls) < 10 ^ 19) by nia. assert (B2 : Z.abs ((se - sc) * ss) < 10 ^ 19) by nia.
  assert (FU : scaled 10 (d_plus (d_times (d_minus d2 d1) d3) (d_times (d_minus d4 d5) d6)) ((lc - le) * ls + (se - sc) * ss)).
  { apply scaled_plus; [lia| | |lia];
      (apply (scaled_times 2 8); [lia|lia|lia| |done|lia]; apply scaled_minus; [lia|done|done|lia]). }
  eexists _, _, _. split_and!.
  - unfold computeCarryPnl. exn_step E1. exn_step E2. exn_step E3. exn_step E4. exn_step E5. exn_step E6.
    exn_step E7. exn_step E8. reflexivity.
  - reflexivity.
  - exact FU.
  - reflexivity.
  - assert (FN := scaled_plus 10 _ _ _ _ ltac:(lia) (scaled_zero 10) FU ltac:(lia)).
    assert (FP := scaled_plus 10 _ _ _ _ ltac:(lia) FN (scaled_finer 2 8 _ _ ltac:(lia) ltac:(lia) F7) ltac:(lia)).
    assert (FM := scaled_minus 10 _ _ _ _ ltac:(lia) FP (scaled_finer 2 8 _ _ ltac:(lia) ltac:(lia) F8) ltac:(lia)).
    replace ((lc - le) * ls + (se - sc) * ss + (f - c) * 10 ^ 8) with
      (0 + ((lc - le) * ls + (se - sc) * ss) + f * 10 ^ 8 - c * 10 ^ 8) by ring. exact FM.
Qed.
End PnlFacts.
