(* ===== verification/Opportunities.v ===== *)
(** * Opportunity detection (packages/carry/src/opportunity-detector.ts)

    The three detectors, each a loop over snapshots with one definition for the
    body of the loop, which yields a candidate or nothing.  The reading of the
    clock a detector starts with is an argument.  The file shows what every
    detected candidate satisfies. *)
From Stdlib Require Import SpecFloat.
From S2P Require Import Prelude JsNumber JsValue JsText DecimalLib DecimalExact MarketIdentity Executor SimVenue CarrySizing.
Open Scope Z_scope.

(** ** Data *)

Record FundingRateSnapshot := MkFundingSnapshot {
  fs_venueId : string;
  fs_asset : string;
  fs_rate8h : string;
  fs_annualizedRate : string;
  fs_markPrice : string;
  fs_nextFundingTime : Z;
  fs_timestamp : Z;
  fs_perpMarketIdentity : option CanonicalMarketIdentity;
  fs_spotMarketIdentity : option CanonicalMarketIdentity;
}.

Record BasisSnapshot := MkBasisSnapshot {
  bs_asset : string;
  bs_spotVenueId : string;
  bs_spotPrice : string;
  bs_perpVenueId : string;
  bs_perpPrice : string;
  bs_basis : string;
  bs_basisPct : string;
  bs_annualizedBasis : string;
  bs_timestamp : Z;
  bs_spotMarketIdentity : option CanonicalMarketIdentity;
  bs_perpMarketIdentity : option CanonicalMarketIdentity;
}.

Inductive InstrumentType := spot | perpetual | future.
#[export] Instance InstrumentType_eq_dec : EqDecision InstrumentType.
Proof. solve_decision. Defined.
Definition InstrumentType_str (t : InstrumentType) : string :=
  match t with spot => "spot" | perpetual => "perpetual" | future => "future" end.

Record OpportunityLeg := MkLeg {
  ol_venueId : string;
  ol_asset : string;
  ol_side : PositionSide;
  ol_instrumentType : InstrumentType;
  ol_estimatedSize : string;
  ol_estimatedPrice : string;
  ol_estimatedFee : string;
  ol_marketIdentity : option CanonicalMarketIdentity;
}.

Inductive OpportunityType := funding_rate_arb | basis_trade | cross_venue_spread.
#[export] Instance OpportunityType_eq_dec : EqDecision OpportunityType.
Proof. solve_decision. Defined.
Definition OpportunityType_str (t : OpportunityType) : string :=
  match t with
  | funding_rate_arb => "funding_rate_arb" | basis_trade => "basis_trade" | cross_venue_spread => "cross_venue_spread"
  end.

Record CarryOpportunityCandidate := MkCandidate {
  co_type : OpportunityType;
  co_asset : string;
  co_legs : list OpportunityLeg;
  co_expectedAnnualYieldPct : string;
  co_estimatedFeeCostPct : string;
  co_netYieldPct : string;
  co_confidenceScore : num;
  co_detectedAt : Z;
  co_expiresAt : Z;
  co_metadata : list (string * string);
}.

(** ** Helpers *)

Definition computeConfidenceFromAge (timestamp now : Z) (maxAgeSec : num) : num :=
  let ageSec := n_div (num_of_Z (now - timestamp)) (num_of_Z 1000) in
  if n_le ageSec (num_of_Z 0) then num_of_Z 1
  else if n_ge ageSec maxAgeSec then num_of_Z 0
  else n_max (num_of_Z 0) (n_sub (num_of_Z 1) (n_div ageSec maxAgeSec)).

(** [new Date(now.getTime() + maxOpportunityAgeSec * 1_000)] of a finite setting. *)
Definition expiry (now : Z) (maxAgeSec : num) : Z :=
  Z_of_num (n_add (num_of_Z now) (n_mul maxAgeSec (num_of_Z 1000))).

(** [config.approvedX.length > 0 && !config.approvedX.includes(x)], negated. *)
Definition approved_in (approved : list string) (x : string) : bool :=
  is_empty approved || bool_decide (x ∈ approved).

(** The market identity of a leg: what the venue gave, or one derived from the
    asset and the instrument. *)
Definition leg_identity (venueId asset : string) (marketType note source : string)
    (given : option CanonicalMarketIdentity) : option CanonicalMarketIdentity :=
  Some match given with
  | None => createCanonicalMarketIdentity {|
      ii_venueId := Some venueId; ii_asset := Some asset; ii_marketType := JStr marketType;
      ii_marketIndex := JUndefined; ii_marketKey := None; ii_marketSymbol := None; ii_marketName := None;
      ii_aliases := None; ii_provenance := Some derived; ii_capturedAtStage := opportunity_leg;
      ii_source := source; ii_notes := Some [note] |}
  | Some identity => captureCanonicalMarketIdentity identity opportunity_leg (Some source) None
  end.

Section Detectors.
Context `{DL : DecimalLib}.

Definition estimateRoundTripFeePct (config : CarryConfig) : exn string :=
  takerFee ← dec_of_string (cc_estimatedTakerFeePct config);
  makerFee ← dec_of_string (cc_estimatedMakerFeePct config);
  Ret (d_toFixed (d_plus (d_times takerFee (dec_of_Z 2)) (d_times makerFee (dec_of_Z 2)))).

(** ** Funding rates *)

Definition funding_leg (config : CarryConfig) (snap : FundingRateSnapshot) (side : PositionSide)
    (instrument : InstrumentType) (fee marketType note : string) (given : option CanonicalMarketIdentity) : OpportunityLeg := {|
  ol_venueId := fs_venueId snap; ol_asset := fs_asset snap; ol_side := side; ol_instrumentType := instrument;
  ol_estimatedSize := "1"; ol_estimatedPrice := fs_markPrice snap; ol_estimatedFee := fee;
  ol_marketIdentity := leg_identity (fs_venueId snap) (fs_asset snap) marketType note "carry_funding_rate_detector" given;
|}.

(** One iteration of the loop; [None] is [continue]. *)
Definition funding_candidate (config : CarryConfig) (now : Z) (minYield : dec) (feeCostPct : string)
    (snap : FundingRateSnapshot) : exn (option CarryOpportunityCandidate) :=
  if negb (approved_in (cc_approvedVenues config) (fs_venueId snap)) then Ret None
  else if negb (approved_in (cc_approvedAssets config) (fs_asset snap)) then Ret None
  else
    annualizedRate ← dec_of_string (fs_annualizedRate snap);
    let absRate := d_abs annualizedRate in
    feeCost ← dec_of_string feeCostPct;
    let netYield := d_minus absRate feeCost in
    minFunding ← dec_of_string (cc_minFundingRateAnnualized config);
    if d_lt absRate minFunding || d_lt netYield minYield then Ret None
    else
      let confidence := computeConfidenceFromAge (fs_timestamp snap) now (cc_maxOpportunityAgeSec config) in
      if n_lt confidence (cc_minConfidenceScore config) then Ret None
      else
        let perpSide := if d_gt annualizedRate (dec_of_Z 0) then short else long in
        let spotSide := if decide (perpSide = short) then long else short in
        takerFee ← dec_of_string (cc_estimatedTakerFeePct config);
        let estimatedFee := d_toFixed takerFee in
        let perpLeg := funding_leg config snap perpSide perpetual estimatedFee "perp"
          "Funding-rate opportunities derive perpetual market identity from asset plus instrument type when venue-native market metadata is unavailable."
          (fs_perpMarketIdentity snap) in
        let spotLeg := funding_leg config snap spotSide spot estimatedFee "spot"
          "Spot-leg market identity is derived because the funding snapshot only guarantees perpetual venue metadata."
          (fs_spotMarketIdentity snap) in
        Ret (Some {|
          co_type := funding_rate_arb; co_asset := fs_asset snap; co_legs := [perpLeg; spotLeg];
          co_expectedAnnualYieldPct := d_toFixed absRate; co_estimatedFeeCostPct := feeCostPct;
          co_netYieldPct := d_toFixed netYield; co_confidenceScore := confidence; co_detectedAt := now;
          co_expiresAt := expiry now (cc_maxOpportunityAgeSec config);
          co_metadata := [("venueId", fs_venueId snap); ("rate8h", fs_rate8h snap);
            ("annualizedRate", fs_annualizedRate snap); ("nextFundingTime", toISOString (fs_nextFundingTime snap))];
        |}).

Definition detectFundingRateOpportunities (now : Z) (snapshots : list FundingRateSnapshot) (config : CarryConfig)
    : exn (list CarryOpportunityCandidate) :=
  minYield ← dec_of_string (cc_minAnnualYieldPct config);
  feeCostPct ← estimateRoundTripFeePct config;
  omap_exn (funding_candidate config now minYield feeCostPct) snapshots.

(** ** Basis *)

Definition basis_leg (venueId asset : string) (side : PositionSide) (instrument : InstrumentType)
    (price fee marketType note : string) (given : option CanonicalMarketIdentity) : OpportunityLeg := {|
  ol_venueId := venueId; ol_asset := asset; ol_side := side; ol_instrumentType := instrument;
  ol_estimatedSize := "1"; ol_estimatedPrice := price; ol_estimatedFee := fee;
  ol_marketIdentity := leg_identity venueId asset marketType note "carry_basis_detector" given;
|}.

Definition basis_candidate (config : CarryConfig) (now : Z) (minBasisPct : dec) (feeCostPct : string)
    (snap : BasisSnapshot) : exn (option CarryOpportunityCandidate) :=
  if negb (approved_in (cc_approvedVenues config) (bs_spotVenueId snap) &&
           approved_in (cc_approvedVenues config) (bs_perpVenueId snap)) then Ret None
  else if negb (approved_in (cc_approvedAssets config) (bs_asset snap)) then Ret None
  else
    basisPct ← dec_of_string (bs_basisPct snap);
    let absBasisPct := d_abs basisPct in
    if d_lt absBasisPct minBasisPct then Ret None
    else
      annualized ← dec_of_string (bs_annualizedBasis snap);
      let annualizedBasis := d_abs annualized in
      feeCost ← dec_of_string feeCostPct;
      let netYield := d_minus annualizedBasis feeCost in
      minYield ← dec_of_string (cc_minAnnualYieldPct config);
      if d_lt netYield minYield then Ret None
      else
        let confidence := computeConfidenceFromAge (bs_timestamp snap) now (cc_maxOpportunityAgeSec config) in
        if n_lt confidence (cc_minConfidenceScore config) then Ret None
        else
          let basisPositive := d_gt basisPct (dec_of_Z 0) in
          let perpSide := if basisPositive then short else long in
          let spotSide := if basisPositive then long else short in
          takerFee ← dec_of_string (cc_estimatedTakerFeePct config);
          let estimatedFee := d_toFixed takerFee in
          let perpLeg := basis_leg (bs_perpVenueId snap) (bs_asset snap) perpSide perpetual (bs_perpPrice snap) estimatedFee "perp"
            "Basis-trade perpetual identity is derived when the snapshot does not carry venue-native market metadata."
            (bs_perpMarketIdentity snap) in
          let spotLeg := basis_leg (bs_spotVenueId snap) (bs_asset snap) spotSide spot (bs_spotPrice snap) estimatedFee "spot"
            "Basis-trade spot identity is derived when the snapshot does not carry venue-native market metadata."
            (bs_spotMarketIdentity snap) in
          Ret (Some {|
            co_type := basis_trade; co_asset := bs_asset snap; co_legs := [perpLeg; spotLeg];
            co_expectedAnnualYieldPct := d_toFixed annualizedBasis; co_estimatedFeeCostPct := feeCostPct;
            co_netYieldPct := d_toFixed netYield; co_confidenceScore := confidence; co_detectedAt := now;
            co_expiresAt := expiry now (cc_maxOpportunityAgeSec config);
            co_metadata := [("spotVenueId", bs_spotVenueId snap); ("perpVenueId", bs_perpVenueId snap);
              ("spotPrice", bs_spotPrice snap); ("perpPrice", bs_perpPrice snap);
              ("basisPct", bs_basisPct snap); ("annualizedBasis", bs_annualizedBasis snap)];
          |}).

Definition detectBasisOpportunities (now : Z) (bases : list BasisSnapshot) (config : CarryConfig)
    : exn (list CarryOpportunityCandidate) :=
  minBasisPct ← dec_of_string (cc_minBasisPct config);
  feeCostPct ← estimateRoundTripFeePct config;
  omap_exn (basis_candidate config now minBasisPct feeCostPct) bases.

(** ** Spreads between venues *)

Definition spread_leg (asset : string) (venue : MarketData) (side : PositionSide) (price fee note : string)
    : OpportunityLeg := {|
  ol_venueId := md_venue venue; ol_asset := asset; ol_side := side; ol_instrumentType := spot;
  ol_estimatedSize := "1"; ol_estimatedPrice := price; ol_estimatedFee := fee;
  ol_marketIdentity := leg_identity (md_venue venue) asset "spot" note "carry_cross_venue_detector" (md_marketIdentity venue);
|}.

(** One pair of venues quoting [asset]. *)
Definition spread_candidate (config : CarryConfig) (now : Z) (minSpreadPct : dec) (feeCostPct asset : string)
    (venueA venueB : MarketData) : exn (option CarryOpportunityCandidate) :=
  midA ← dec_of_string (md_mid venueA);
  midB ← dec_of_string (md_mid venueB);
  if d_isZero midA || d_isZero midB then Ret None
  else
    let a_cheaper := d_lt midA midB in
    let longVenue := if a_cheaper then venueA else venueB in
    let shortVenue := if a_cheaper then venueB else venueA in
    let longPrice := if a_cheaper then midA else midB in
    let shortPrice := if a_cheaper then midB else midA in
    let spread := d_minus shortPrice longPrice in
    let spreadPct := d_times (d_div spread longPrice) (dec_of_Z 100) in
    if d_lt spreadPct minSpreadPct then Ret None
    else
      feeCost ← dec_of_string feeCostPct;
      let estimatedPnlPct := d_minus spreadPct feeCost in
      if d_lt estimatedPnlPct (dec_of_Z 0) then Ret None
      else
        let olderTimestamp := if md_updatedAt longVenue <? md_updatedAt shortVenue
          then md_updatedAt longVenue else md_updatedAt shortVenue in
        let confidence := computeConfidenceFromAge olderTimestamp now (cc_maxOpportunityAgeSec config) in
        if n_lt confidence (cc_minConfidenceScore config) then Ret None
        else
          takerFee ← dec_of_string (cc_estimatedTakerFeePct config);
          let estimatedFee := d_toFixed takerFee in
          let longLeg := spread_leg asset longVenue long (d_toFixed longPrice) estimatedFee
            "Cross-venue long-leg identity is derived because the market-data snapshot did not provide venue-native market metadata." in
          let shortLeg := spread_leg asset shortVenue short (d_toFixed shortPrice) estimatedFee
            "Cross-venue short-leg identity is derived because the market-data snapshot did not provide venue-native market metadata." in
          Ret (Some {|
            co_type := cross_venue_spread; co_asset := asset; co_legs := [longLeg; shortLeg];
            co_expectedAnnualYieldPct := d_toFixed (d_times spreadPct (dec_of_Z 365));
            co_estimatedFeeCostPct := feeCostPct;
            co_netYieldPct := d_toFixed (d_times estimatedPnlPct (dec_of_Z 365));
            co_confidenceScore := confidence; co_detectedAt := now;
            co_expiresAt := expiry now (cc_maxOpportunityAgeSec config);
            co_metadata := [("longVenueId", md_venue longVenue); ("shortVenueId", md_venue shortVenue);
              ("longPrice", d_toFixed longPrice); ("shortPrice", d_toFixed shortPrice);
              ("spreadPct", d_toFixed spreadPct); ("estimatedPnlPct", d_toFixed estimatedPnlPct)];
          |}).

(** Every pair [i < j] of the venues, in order. *)
Fixpoint spread_pairs (config : CarryConfig) (now : Z) (minSpreadPct : dec) (feeCostPct asset : string)
    (venues : list MarketData) : exn (list CarryOpportunityCandidate) :=
  match venues with
  | [] => Ret []
  | venueA :: rest =>
      found ← omap_exn (spread_candidate config now minSpreadPct feeCostPct asset venueA) rest;
      more ← spread_pairs config now minSpreadPct feeCostPct asset rest;
      Ret (found ++ more)
  end.

Fixpoint spread_assets (config : CarryConfig) (now : Z) (minSpreadPct : dec) (feeCostPct : string)
    (marketData : list (string * list MarketData)) : exn (list CarryOpportunityCandidate) :=
  match marketData with
  | [] => Ret []
  | (asset, venues) :: rest =>
      found ← (if negb (approved_in (cc_approvedAssets config) asset) then Ret []
               else
                 let filteredVenues := if is_empty (cc_approvedVenues config) then venues
                   else List.filter (fun v => bool_decide (md_venue v ∈ cc_approvedVenues config)) venues in
                 if (length filteredVenues <? 2)%nat then Ret []
                 else spread_pairs config now minSpreadPct feeCostPct asset filteredVenues);
      more ← spread_assets config now minSpreadPct feeCostPct rest;
      Ret (found ++ more)
  end.

Definition detectCrossVenueOpportunities (now : Z) (marketData : list (string * list MarketData)) (config : CarryConfig)
    : exn (list CarryOpportunityCandidate) :=
  minSpreadPct ← dec_of_string (cc_minCrossVenueSpreadPct config);
  feeCostPct ← estimateRoundTripFeePct config;
  spread_assets config now minSpreadPct feeCostPct marketData.
End Detectors.

(** ** What a detected candidate satisfies *)

Section Soundness.
Context `{DL : DecimalLib}.

(** Two legs of the asset on opposite sides, on approved venues, with enough
    confidence, detected now and expiring after the configured age. *)
Record candidate_sound (config : CarryConfig) (now : Z) (c : CarryOpportunityCandidate) : Prop := {
  cs_legs : exists a b, co_legs c = [a; b] /\ ol_side a <> ol_side b /\
    ol_asset a = co_asset c /\ ol_asset b = co_asset c /\
    approved_in (cc_approvedVenues config) (ol_venueId a) = true /\
    approved_in (cc_approvedVenues config) (ol_venueId b) = true;
  cs_asset : approved_in (cc_approvedAssets config) (co_asset c) = true;
  cs_confidence : n_lt (co_confidenceScore c) (cc_minConfidenceScore config) = false;
  cs_detected : co_detectedAt c = now;
  cs_expires : co_expiresAt c = expiry now (cc_maxOpportunityAgeSec config);
}.

(** The net yield of a candidate is printed from a value not below the minimum. *)
Definition yields_enough (config : CarryConfig) (c : CarryOpportunityCandidate) : Prop :=
  exists net minYield, dec_of_string (cc_minAnnualYieldPct config) = Ret minYield /\
    co_netYieldPct c = d_toFixed net /\ d_lt net minYield = false.

(** Takes the guards of a loop body apart. *)
Ltac guards H :=
  repeat match type of H with
  | Ret None = Ret (Some _) => discriminate H
  | (if negb ?b then _ else _) = _ => destruct b eqn:?; cbn [negb] in H; [|discriminate H]
  | (if ?b then Ret None else _) = _ => destruct b eqn:?; [discriminate H|]
  | (_ ≫= _) = Ret _ => let x := fresh "x" in let E := fresh "E" in exn_inv H as x E
  end.

Lemma funding_candidate_sound config now minYield fee snap c :
  dec_of_string (cc_minAnnualYieldPct config) = Ret minYield ->
  funding_candidate config now minYield fee snap = Ret (Some c) ->
  candidate_sound config now c /\ yields_enough config c /\
  exists rate leg, dec_of_string (fs_annualizedRate snap) = Ret rate /\ leg ∈ co_legs c /\
    ol_instrumentType leg = perpetual /\ ol_side leg = (if d_gt rate (dec_of_Z 0) then short else long).
Proof.
  intros Hmin H. unfold funding_candidate in H. guards H.
  match goal with E : _ || _ = false |- _ => apply orb_false_iff in E as [_ Hnet] end.
  injection H as <-. split_and!.
  - split; cbn; try done. eexists _, _. split_and!; [reflexivity| |done..]. cbn. by destruct (d_gt x (dec_of_Z 0)).
  - eexists _, _. split_and!; [exact Hmin|reflexivity|exact Hnet].
  - eexists x, _. split_and!; [done|by left|done|done].
Qed.

Lemma basis_candidate_sound config now minBasis fee snap c :
  basis_candidate config now minBasis fee snap = Ret (Some c) ->
  candidate_sound config now c /\ yields_enough config c.
Proof.
  intros H. unfold basis_candidate in H. guards H.
  match goal with E : _ && _ = true |- _ => apply andb_true_iff in E as [? ?] end.
  injection H as <-. split_and!.
  - split; cbn; try done. eexists _, _. split_and!; [reflexivity| |done..]. cbn. by destruct (d_gt x (dec_of_Z 0)).
  - eexists _, _. split_and!; [eassumption|reflexivity|eassumption].
Qed.

Lemma spread_candidate_sound config now minSpread fee asset a b c :
  approved_in (cc_approvedAssets config) asset = true ->
  approved_in (cc_approvedVenues config) (md_venue a) = true ->
  approved_in (cc_approvedVenues config) (md_venue b) = true ->
  spread_candidate config now minSpread fee asset a b = Ret (Some c) ->
  candidate_sound config now c /\
  exists pnl, co_netYieldPct c = d_toFixed (d_times pnl (dec_of_Z 365)) /\ d_lt pnl (dec_of_Z 0) = false.
Proof.
  intros Hasset Ha Hb H. unfold spread_candidate in H. guards H. injection H as <-. split.
  - split; cbn; try done. eexists _, _. split_and!; try reflexivity; cbn; [done|by destruct (d_lt x x0)..].
  - eexists. split; [reflexivity|eassumption].
Qed.

Lemma spread_pairs_elem config now m fee asset venues l c :
  spread_pairs config now m fee asset venues = Ret l -> c ∈ l ->
  exists a b, a ∈ venues /\ b ∈ venues /\ spread_candidate config now m fee asset a b = Ret (Some c).
Proof.
  revert l. induction venues as [|a rest IH]; intros l H Hc; [injection H as <-; inversion Hc|].
  cbn [spread_pairs] in H. exn_inv H as found E1. exn_inv H as more E2. injection H as <-.
  apply elem_of_app in Hc as [Hc|Hc].
  - destruct (omap_exn_elem _ _ _ _ E1 Hc) as (b & Hb & E). exists a, b. split_and!; [by left|by right|done].
  - destruct (IH _ E2 Hc) as (a' & b & Ha & Hb & E). exists a', b. split_and!; [by right|by right|done].
Qed.

Lemma spread_assets_elem config now m fee md l c :
  spread_assets config now m fee md = Ret l -> c ∈ l ->
  exists asset a b, approved_in (cc_approvedAssets config) asset = true /\
    approved_in (cc_approvedVenues config) (md_venue a) = true /\
    approved_in (cc_approvedVenues config) (md_venue b) = true /\
    spread_candidate config now m fee asset a b = Ret (Some c).
Proof.
  revert l. induction md as [|[asset venues] rest IH]; intros l H Hc; [injection H as <-; inversion Hc|].
  cbn [spread_assets] in H. exn_inv H as found E1. exn_inv H as more E2. injection H as <-.
  apply elem_of_app in Hc as [Hc|Hc]; [|by apply (IH _ E2)].
  destruct (approved_in (cc_approvedAssets config) asset) eqn:Hasset; cbn [negb] in E1; [|injection E1 as <-; inversion Hc].
  cbn zeta in E1. case_match; [injection E1 as <-; inversion Hc|].
  destruct (spread_pairs_elem _ _ _ _ _ _ _ _ E1 Hc) as (a & b & Ha & Hb & E). exists asset, a, b.
  assert (Hv : forall v, v ∈ (if is_empty (cc_approvedVenues config) then venues
      else List.filter (fun v => bool_decide (md_venue v ∈ cc_approvedVenues config)) venues) ->
    approved_in (cc_approvedVenues config) (md_venue v) = true).
  { intros v Hv. unfold approved_in. destruct (is_empty (cc_approvedVenues config)); [done|].
    by apply list_elem_of_In, filter_In in Hv as [_ Hv]. }
  split_and!; auto.
Qed.

Lemma detect_funding_sound config now snapshots l c : detectFundingRateOpportunities now snapshots config = Ret l -> c ∈ l ->
  candidate_sound config now c /\ yields_enough config c /\
  exists snap rate leg, snap ∈ snapshots /\ dec_of_string (fs_annualizedRate snap) = Ret rate /\
    leg ∈ co_legs c /\ ol_instrumentType leg = perpetual /\ ol_side leg = (if d_gt rate (dec_of_Z 0) then short else long).
Proof.
  intros H Hc. unfold detectFundingRateOpportunities in H. exn_inv H as m Em. exn_inv H as fee Ef.
  destruct (omap_exn_elem _ _ _ _ H Hc) as (snap & Hs & E).
  destruct (funding_candidate_sound _ _ _ _ _ _ Em E) as (H1 & H2 & rate & leg & H3).
  split_and!; [done|done|]. by exists snap, rate, leg.
Qed.

Lemma detect_spread_sound config now md l c : detectCrossVenueOpportunities now md config = Ret l -> c ∈ l ->
  candidate_sound config now c /\
  exists pnl, co_netYieldPct c = d_toFixed (d_times pnl (dec_of_Z 365)) /\ d_lt pnl (dec_of_Z 0) = false.
Proof.
  intros H Hc. unfold detectCrossVenueOpportunities in H. exn_inv H as m Em. exn_inv H as fee Ef.
  destruct (spread_assets_elem _ _ _ _ _ _ _ H Hc) as (asset & a & b & Hasset & Ha & Hb & E).
  exact (spread_candidate_sound _ _ _ _ _ _ _ _ Hasset Ha Hb E).
Qed.

(** Every candidate a detector yields is a hedged pair the configuration
    permits: two legs of the same asset on opposite sides, on approved venues,
    confident enough, and expiring after the configured age.  Funding and basis
    candidates reach the minimum net yield, and the perpetual leg of a funding
    candidate is on the side that receives the funding; a spread between venues
    covers the estimated fees. *)
Theorem detected_candidates_sound (config : CarryConfig) (now : Z) :
  (forall snapshots l c, detectFundingRateOpportunities now snapshots config = Ret l -> c ∈ l ->
     candidate_sound config now c /\ yields_enough config c /\
     exists snap rate leg, snap ∈ snapshots /\ dec_of_string (fs_annualizedRate snap) = Ret rate /\
       leg ∈ co_legs c /\ ol_instrumentType leg = perpetual /\
       ol_side leg = (if d_gt rate (dec_of_Z 0) then short else long)) /\
  (forall bases l c, detectBasisOpportunities now bases config = Ret l -> c ∈ l ->
     candidate_sound config now c /\ yields_enough config c) /\
  (forall marketData l c, detectCrossVenueOpportunities now marketData config = Ret l -> c ∈ l ->
     candidate_sound config now c /\
     exists pnl, co_netYieldPct c = d_toFixed (d_times pnl (dec_of_Z 365)) /\ d_lt pnl (dec_of_Z 0) = false).
Proof.
  split_and!; [apply detect_funding_sound| |apply detect_spread_sound].
  intros bases l c H Hc. unfold detectBasisOpportunities in H. exn_inv H as m Em. exn_inv H as fee Ef.
  destruct (omap_exn_elem _ _ _ _ H Hc) as (snap & _ & E). by apply basis_candidate_sound in E.
Qed.
End Soundness.

Example detected_sample :
  exists c, detectFundingRateOpportunities (DL := exact_decimal) 1000
      [MkFundingSnapshot "drift" "BTC" "0.0001" "10.95" "50000" 5000 1000 None None;
       MkFundingSnapshot "drift" "DOGE" "0.0001" "10.95" "0.1" 5000 1000 None None;
       MkFundingSnapshot "drift" "ETH" "0.00001" "1.09" "3000" 5000 1000 None None] DEFAULT_CARRY_CONFIG = Ret [c] /\
    co_netYieldPct c = "10.81" /\ map ol_side (co_legs c) = [short; long] /\ co_expiresAt c = 301000.
Proof. eexists. vm_compute. split_and!; reflexivity. Qed.
