(* ===== verification/Optimizer.v ===== *)
(** * The carry portfolio optimizer (packages/carry/src/portfolio-optimizer.ts)

    [optimizeCarryPortfolio] ranks the opportunities greedily by a score that
    rewards diversification, and then sizes the selected ones within the
    limits per sleeve, asset and venue.  The selection loop takes one
    opportunity off the list per iteration, so it runs on the number of
    opportunities as fuel ([select_loop_done]).  Scores are the language's
    numbers.  The file shows what the selection counts, and that the sizes
    respect the caps per asset and venue. *)
From Stdlib Require Import SpecFloat.
From S2P Require Import Prelude JsNumber JsValue JsText DecimalLib DecimalExact Money MarketIdentity Executor CarrySizing Opportunities.
Open Scope Z_scope.

(** ** Data *)

Record OpportunityScoreBreakdown := MkScore {
  os_yieldScore : num;
  os_confidenceScore : num;
  os_venueBreadthScore : num;
  os_diversificationScore : num;
  os_totalScore : num;
}.

Record OpportunitySelectionDecision := MkSelectionDecision {
  sd_opportunity : CarryOpportunityCandidate;
  sd_score : OpportunityScoreBreakdown;
  sd_rationale : list string;
}.

Record OpportunityRejectionDecision := MkRejection {
  rd_opportunity : CarryOpportunityCandidate;
  rd_reason : string;
}.

Record PortfolioCapitalAllocation := MkAllocation {
  pa_opportunity : CarryOpportunityCandidate;
  pa_positionSizeUsd : string;
  pa_score : OpportunityScoreBreakdown;
  pa_rationale : list string;
}.

Record PortfolioOptimizationResult := MkOptimization {
  por_selected : list PortfolioCapitalAllocation;
  por_rejected : list OpportunityRejectionDecision;
}.

(** An absent exposure map is the empty one. *)
Record PortfolioOptimizationInput := MkOptimizationInput {
  poi_opportunities : list CarryOpportunityCandidate;
  poi_sleeveNav : string;
  poi_currentGrossExposureUsd : string;
  poi_currentOpenPositions : Z;
  poi_currentAssetExposureUsd : list (string * string);
  poi_currentVenueExposureUsd : list (string * string);
  poi_config : CarryConfig;
}.

(** ** Scores *)

(** [clamp(value)], between 0 and 1. *)
Definition clamp (value : num) : num := n_max (num_of_Z 0) (n_min value (num_of_Z 1)).

Definition getCandidateVenueIds (o : CarryOpportunityCandidate) : list string :=
  js_unique (map ol_venueId (co_legs o)).

(** [Number(x.toFixed(4))]. *)
Definition rounded4 (x : num) : num := js_Number (n_toFixed 4 x).
Definition num_len {A} (l : list A) : num := num_of_Z (Z.of_nat (length l)).

Definition scoreOpportunity (o : CarryOpportunityCandidate) (selectedAssets selectedVenues : list string)
    : OpportunityScoreBreakdown :=
  let yieldScore := clamp (n_div (js_Number (co_netYieldPct o)) (num_of_Z 20)) in
  let confidenceScore := clamp (co_confidenceScore o) in
  let venueBreadthScore := clamp (n_div (num_len (getCandidateVenueIds o)) (n_max (num_len (co_legs o)) (num_of_Z 1))) in
  let fresh := if js_has (co_asset o) selectedAssets then num_of_Z 0 else n_add (num_of_Z 0) (num_of_dec 65 (-2)) in
  let newVenueCount := num_len (List.filter (fun v => negb (js_has v selectedVenues)) (getCandidateVenueIds o)) in
  let diversificationScore :=
    clamp (n_add fresh (n_min (num_of_dec 35 (-2)) (n_mul newVenueCount (num_of_dec 15 (-2))))) in
  let totalScore := rounded4
    (n_add (n_add (n_add (n_mul yieldScore (num_of_dec 5 (-1))) (n_mul confidenceScore (num_of_dec 25 (-2))))
                  (n_mul venueBreadthScore (num_of_dec 1 (-1))))
           (n_mul diversificationScore (num_of_dec 15 (-2)))) in
  {| os_yieldScore := rounded4 yieldScore; os_confidenceScore := rounded4 confidenceScore;
     os_venueBreadthScore := rounded4 venueBreadthScore; os_diversificationScore := rounded4 diversificationScore;
     os_totalScore := totalScore |}.

(** ** Selection *)

(** A count of a [Map], absent being zero. *)
Definition count_of (k : string) (m : list (string * Z)) : Z := or_else (jm_get k m) 0.
Definition count_up (m : list (string * Z)) (k : string) : list (string * Z) := jm_set k (count_of k m + 1) m.

Definition canSelectOpportunity (o : CarryOpportunityCandidate) (selectedAssetCounts selectedVenueCounts : list (string * Z))
    (config : CarryConfig) : option string :=
  if cc_maxOpportunitiesPerAsset config <=? count_of (co_asset o) selectedAssetCounts then
    Some ("asset limit reached for " +:+ co_asset o)
  else
    match List.find (fun v => cc_maxOpportunitiesPerVenue config <=? count_of v selectedVenueCounts) (getCandidateVenueIds o) with
    | Some v => Some ("venue limit reached for " +:+ v)
    | None => None
    end.

(** The local variables of [selectOpportunityCandidates]. *)
Record Selection := MkSelection {
  sl_remaining : list CarryOpportunityCandidate;
  sl_selected : list OpportunitySelectionDecision;
  sl_rejected : list OpportunityRejectionDecision;
  sl_assetCounts : list (string * Z);
  sl_venueCounts : list (string * Z);
  sl_assets : list string;
  sl_venues : list string;
}.

(** The comparator of the sort is negative when the left score is the larger. *)
Definition ranks_before (assets venues : list string) (l r : CarryOpportunityCandidate) : bool :=
  n_lt (n_sub (os_totalScore (scoreOpportunity r assets venues)) (os_totalScore (scoreOpportunity l assets venues))) (num_of_Z 0).

Definition selection_rationale (s : Selection) (next : CarryOpportunityCandidate) (score : OpportunityScoreBreakdown)
    : list string :=
  ["ranked by portfolio score " +:+ n_toFixed 4 (os_totalScore score);
   "net yield score " +:+ n_toFixed 4 (os_yieldScore score);
   "confidence score " +:+ n_toFixed 4 (os_confidenceScore score)] ++
  push_if (negb (js_has (co_asset next) (sl_assets s))) ("diversifies asset exposure via " +:+ co_asset next) ++
  push_if (existsb (fun v => negb (js_has v (sl_venues s))) (getCandidateVenueIds next)) "adds venue diversification".

(** The body of the loop after [remaining.shift()]. *)
Definition select_step (config : CarryConfig) (s : Selection) (next : CarryOpportunityCandidate)
    (remaining : list CarryOpportunityCandidate) : Selection :=
  match canSelectOpportunity next (sl_assetCounts s) (sl_venueCounts s) config with
  | Some reason =>
      MkSelection remaining (sl_selected s) (sl_rejected s ++ [MkRejection next reason])
        (sl_assetCounts s) (sl_venueCounts s) (sl_assets s) (sl_venues s)
  | None =>
      let score := scoreOpportunity next (sl_assets s) (sl_venues s) in
      MkSelection remaining
        (sl_selected s ++ [MkSelectionDecision next score (selection_rationale s next score)]) (sl_rejected s)
        (count_up (sl_assetCounts s) (co_asset next))
        (foldl count_up (sl_venueCounts s) (getCandidateVenueIds next))
        (js_add (sl_assets s) (co_asset next))
        (foldl js_add (sl_venues s) (getCandidateVenueIds next))
  end.

Fixpoint select_loop (fuel : nat) (config : CarryConfig) (s : Selection) : Selection :=
  match fuel with
  | O => s
  | Datatypes.S fuel' =>
      if negb (is_empty (sl_remaining s)) &&
         (Z.of_nat (length (sl_selected s)) <? cc_maxConcurrentOpportunities config) then
        match js_sort (ranks_before (sl_assets s) (sl_venues s)) (sl_remaining s) with
        | [] => s
        | next :: remaining => select_loop fuel' config (select_step config s next remaining)
        end
      else s
  end.

Definition budget_exhausted : string := "portfolio selection budget exhausted".

Definition selectOpportunityCandidates (opportunities : list CarryOpportunityCandidate) (config : CarryConfig)
    : list OpportunitySelectionDecision * list OpportunityRejectionDecision :=
  let s := select_loop (length opportunities) config (MkSelection opportunities [] [] [] [] [] []) in
  (sl_selected s, sl_rejected s ++ map (fun o => MkRejection o budget_exhausted) (sl_remaining s)).

(** ** Allocation *)

Section Allocation.
Context `{DL : DecimalLib}.

Definition d_get (k : string) (m : list (string * dec)) : dec := or_else (jm_get k m) (dec_of_Z 0).

(** [values.reduce((m, v) => Decimal.min(m, v))] of a first value and the others. *)
Definition decimalMin (v : dec) (vs : list dec) : dec := foldl (fun m x => d_min [m; x]) v vs.

Definition buildVenueWeights (o : CarryOpportunityCandidate) : list (string * dec) :=
  let totalLegs := dec_of_Z (Z.of_nat (length (co_legs o))) in
  let counts := foldl (fun m leg => jm_set (ol_venueId leg) (d_plus (d_get (ol_venueId leg) m) (dec_of_Z 1)) m) [] (co_legs o) in
  foldl (fun m '(venueId, count) => jm_set venueId (d_div count totalLegs) m) [] counts.

(** The local variables of [optimizeCarryPortfolio] that the loop changes. *)
Record Planned := MkPlanned {
  pl_selected : list PortfolioCapitalAllocation;
  pl_rejected : list OpportunityRejectionDecision;
  pl_assetExposure : list (string * dec);
  pl_venueExposure : list (string * dec);
  pl_grossExposure : dec;
  pl_openPositions : Z;
}.

(** The capacity left on each venue, as a notional of the opportunity. *)
Definition venue_rooms (venueCapUsd : dec) (venueExposure weights : list (string * dec)) : list dec :=
  map (fun '(venueId, weight) =>
         let remaining := d_minus venueCapUsd (d_get venueId venueExposure) in
         if d_lte weight (dec_of_Z 0) then remaining else d_div remaining weight) weights.

Definition allocate_step (input : PortfolioOptimizationInput) (navUsd assetCapUsd venueCapUsd : dec) (p : Planned)
    (decision : OpportunitySelectionDecision) : exn Planned :=
  let o := sd_opportunity decision in
  let config := poi_config input in
  let currentExposurePct := d_toFixedN 4 (d_times (d_div (pl_grossExposure p) navUsd) (dec_of_Z 100)) in
  target ← computePositionSize (MkSizeParams (poi_sleeveNav input) (co_expectedAnnualYieldPct o)
             (co_confidenceScore o) config currentExposurePct);
  targetSizeUsd ← dec_of_string target;
  maxAllowed ← computeMaxAllowedSize (MkMaxSizeParams (poi_sleeveNav input) (pl_openPositions p) config);
  maxAllowedSizeUsd ← dec_of_string maxAllowed;
  let assetRemainingUsd := d_minus assetCapUsd (d_get (co_asset o) (pl_assetExposure p)) in
  let venueWeights := buildVenueWeights o in
  let positionSizeUsd := decimalMin targetSizeUsd
    ([maxAllowedSizeUsd; assetRemainingUsd] ++ venue_rooms venueCapUsd (pl_venueExposure p) venueWeights) in
  Ret (if d_lte positionSizeUsd (dec_of_Z 0) then
    MkPlanned (pl_selected p)
      (pl_rejected p ++ [MkRejection o "no portfolio capacity remains after concentration limits"])
      (pl_assetExposure p) (pl_venueExposure p) (pl_grossExposure p) (pl_openPositions p)
  else
    let normalized := d_toDP_down 2 positionSizeUsd in
    MkPlanned
      (pl_selected p ++ [MkAllocation o (d_toFixedN 2 normalized) (sd_score decision)
         (sd_rationale decision ++
          ["position sized at " +:+ d_toFixedN 2 normalized +:+ " USD within asset and venue concentration limits"])])
      (pl_rejected p)
      (jm_set (co_asset o) (d_plus (d_get (co_asset o) (pl_assetExposure p)) normalized) (pl_assetExposure p))
      (foldl (fun m '(venueId, weight) => jm_set venueId (d_plus (d_get venueId m) (d_times normalized weight)) m)
         (pl_venueExposure p) venueWeights)
      (d_plus (pl_grossExposure p) normalized)
      (pl_openPositions p + 1)).

Definition parse_exposures (m : list (string * string)) : exn (list (string * dec)) :=
  entries ← map_exn (fun '(k, e) => d ← dec_of_string e; Ret (k, d)) m; Ret (jm_of_list entries).

Definition optimizeCarryPortfolio (input : PortfolioOptimizationInput) : exn PortfolioOptimizationResult :=
  let config := poi_config input in
  navUsd ← dec_of_string (poi_sleeveNav input);
  if d_lte navUsd (dec_of_Z 0) then
    Ret (MkOptimization [] (map (fun o => MkRejection o "sleeve NAV is zero") (poi_opportunities input)))
  else
    let '(selection, rejected) := selectOpportunityCandidates (poi_opportunities input) config in
    assetExposureUsd ← parse_exposures (poi_currentAssetExposureUsd input);
    venueExposureUsd ← parse_exposures (poi_currentVenueExposureUsd input);
    gross ← dec_of_string (poi_currentGrossExposureUsd input);
    assetPct ← dec_of_string (cc_maxAssetExposurePct config);
    venuePct ← dec_of_string (cc_maxVenueExposurePct config);
    let assetCapUsd := d_div (d_times navUsd assetPct) (dec_of_Z 100) in
    let venueCapUsd := d_div (d_times navUsd venuePct) (dec_of_Z 100) in
    p ← fold_exn (allocate_step input navUsd assetCapUsd venueCapUsd)
          (MkPlanned [] rejected assetExposureUsd venueExposureUsd gross (poi_currentOpenPositions input)) selection;
    Ret (MkOptimization (pl_selected p) (pl_rejected p)).
End Allocation.

Definition sample_candidate (asset yield : string) (v1 v2 : string) : CarryOpportunityCandidate := {|
  co_type := funding_rate_arb; co_asset := asset;
  co_legs := [MkLeg v1 asset short perpetual "1" "100" "0.05" None; MkLeg v2 asset long spot "1" "100" "0.05" None];
  co_expectedAnnualYieldPct := yield; co_estimatedFeeCostPct := "0.14"; co_netYieldPct := yield;
  co_confidenceScore := num_of_dec 9 (-1); co_detectedAt := 0; co_expiresAt := 300000; co_metadata := [];
|}.
Definition sample_input : PortfolioOptimizationInput := {|
  poi_opportunities := [sample_candidate "BTC" "8" "drift" "drift"; sample_candidate "BTC" "12" "drift" "drift";
    sample_candidate "ETH" "12" "drift" "zeta"; sample_candidate "BTC" "9" "drift" "drift"];
  poi_sleeveNav := "10000"; poi_currentGrossExposureUsd := "0"; poi_currentOpenPositions := 0;
  poi_currentAssetExposureUsd := [("BTC", "700")]; poi_currentVenueExposureUsd := [("drift", "1200")];
  poi_config := DEFAULT_CARRY_CONFIG;
|}.
Example optimize_sample :
  match optimizeCarryPortfolio (DL := exact_decimal) sample_input with
  | Ret r => map (fun a => (co_asset (pa_opportunity a), co_netYieldPct (pa_opportunity a), pa_positionSizeUsd a)) (por_selected r) =
               [("ETH", "12", "400.00"); ("BTC", "12", "100.00")] /\
             map (fun a => (co_netYieldPct (rd_opportunity a), rd_reason a)) (por_rejected r) =
               [("8", "asset limit reached for BTC");
                ("9", "no portfolio capacity remains after concentration limits")]
  | Throw _ => False
  end.
Proof. vm_compute. split; reflexivity. Qed.

(** ** What the selection counts *)

(** How many selected opportunities satisfy [f]. *)
Definition selected_count (f : CarryOpportunityCandidate -> bool) (l : list OpportunitySelectionDecision) : Z :=
  Z.of_nat (length (List.filter (fun d => f (sd_opportunity d)) l)).
Definition on_asset (a : string) (o : CarryOpportunityCandidate) : bool := bool_decide (co_asset o = a).
Definition on_venue (v : string) (o : CarryOpportunityCandidate) : bool := bool_decide (v ∈ getCandidateVenueIds o).

Lemma selected_count_app f l d : selected_count f (l ++ [d]) = selected_count f l + (if f (sd_opportunity d) then 1 else 0).
Proof. unfold selected_count. rewrite List.filter_app, length_app. cbn. destruct (f (sd_opportunity d)); cbn; lia. Qed.

Lemma count_of_up m k k' : count_of k' (count_up m k) = count_of k' m + (if decide (k' = k) then 1 else 0).
Proof. unfold count_up, count_of. rewrite jm_get_set. case_decide; subst; cbn; lia. Qed.

Lemma count_of_ups vs : NoDup vs -> forall m v,
  count_of v (foldl count_up m vs) = count_of v m + (if decide (v ∈ vs) then 1 else 0).
Proof.
  induction 1 as [|x vs Hx _ IH]; intros m v; cbn [foldl]; [case_decide as H; [inversion H|lia]|].
  rewrite IH, count_of_up. destruct (decide (v = x)) as [->|Hne].
  - rewrite !decide_False, decide_True by (done || by left). lia.
  - destruct (decide (v ∈ vs)); [rewrite decide_True by by right|rewrite decide_False by by intros [?|?]%elem_of_cons]; lia.
Qed.

Lemma find_false {A} (f : A -> bool) l : List.find f l = None -> forall x, x ∈ l -> f x = false.
Proof. intros H x Hx. apply (List.find_none _ _ H). by apply list_elem_of_In. Qed.

(** The counters agree with the selected opportunities, which respect the limits. *)
Record selection_ok (config : CarryConfig) (opps : list CarryOpportunityCandidate) (s : Selection) : Prop := {
  so_perm : map sd_opportunity (sl_selected s) ++ map rd_opportunity (sl_rejected s) ++ sl_remaining s ≡ₚ opps;
  so_asset : forall a, count_of a (sl_assetCounts s) = selected_count (on_asset a) (sl_selected s);
  so_venue : forall v, count_of v (sl_venueCounts s) = selected_count (on_venue v) (sl_selected s);
  so_total : Z.of_nat (length (sl_selected s)) <= Z.max 0 (cc_maxConcurrentOpportunities config);
  so_asset_limit : forall a, selected_count (on_asset a) (sl_selected s) <= Z.max 0 (cc_maxOpportunitiesPerAsset config);
  so_venue_limit : forall v, selected_count (on_venue v) (sl_selected s) <= Z.max 0 (cc_maxOpportunitiesPerVenue config);
  so_reasons : forall r, r ∈ sl_rejected s ->
    rd_reason r = "asset limit reached for " +:+ co_asset (rd_opportunity r) \/
    exists v, v ∈ getCandidateVenueIds (rd_opportunity r) /\ rd_reason r = "venue limit reached for " +:+ v;
}.

Lemma select_step_ok config opps s next remaining :
  selection_ok config opps s -> next :: remaining ≡ₚ sl_remaining s ->
  Z.of_nat (length (sl_selected s)) < cc_maxConcurrentOpportunities config ->
  selection_ok config opps (select_step config s next remaining).
Proof.
  intros [Hp Ha Hv Ht Hla Hlv Hr] Hrem Hlt. unfold select_step, canSelectOpportunity.
  destruct (Z.leb_spec (cc_maxOpportunitiesPerAsset config) (count_of (co_asset next) (sl_assetCounts s))) as [|Hca];
    [|destruct (List.find _ _) as [v|] eqn:Hf].
  - split; cbn; try done.
    + rewrite map_app. cbn. rewrite <- Hp, <- Hrem. by rewrite <- !app_assoc.
    + intros r [Hr1| ->%list_elem_of_singleton]%elem_of_app; [by apply Hr|]. by left.
  - split; cbn; try done.
    + rewrite map_app. cbn. rewrite <- Hp, <- Hrem. by rewrite <- !app_assoc.
    + intros r [Hr1| ->%list_elem_of_singleton]%elem_of_app; [by apply Hr|]. right.
      exists v. split; [|done]. by apply List.find_some in Hf as [?%list_elem_of_In _].
  - pose proof (find_false _ _ Hf) as Hcv. destruct (js_unique_spec (map ol_venueId (co_legs next))) as [Hnd _].
    split; cbn [sl_selected sl_rejected sl_remaining sl_assetCounts sl_venueCounts]; try done.
    + rewrite map_app. cbn. rewrite <- Hp, <- Hrem. rewrite <- !app_assoc. cbn.
      apply Permutation_app_head. by rewrite Permutation_middle.
    + intros a. rewrite count_of_up, selected_count_app, Ha. cbn [sd_opportunity]. change (on_asset a next) with (bool_decide (co_asset next = a)).
      case_decide; case_bool_decide; congruence || lia.
    + intros v. rewrite (count_of_ups _ Hnd), selected_count_app, Hv. cbn [sd_opportunity]. change (on_venue v next) with (bool_decide (v ∈ getCandidateVenueIds next)).
      fold (getCandidateVenueIds next). case_decide; case_bool_decide; done || lia.
    + rewrite length_app. cbn. lia.
    + intros a. rewrite selected_count_app. specialize (Hla a). rewrite Ha in Hca. cbn [sd_opportunity]. change (on_asset a next) with (bool_decide (co_asset next = a)).
      case_bool_decide; [subst a; lia|lia].
    + intros v. rewrite selected_count_app. specialize (Hlv v). cbn [sd_opportunity]. change (on_venue v next) with (bool_decide (v ∈ getCandidateVenueIds next)).
      case_bool_decide as Hin; [|lia]. specialize (Hcv v Hin). cbn in Hcv. rewrite Hv in Hcv. apply Z.leb_gt in Hcv. lia.
Qed.

(** The loop keeps the invariant and stops for want of opportunities or of room. *)
Lemma select_loop_ok config opps fuel : forall s, selection_ok config opps s ->
  (length (sl_remaining s) <= fuel)%nat ->
  let s' := select_loop fuel config s in
  selection_ok config opps s' /\
  (sl_remaining s' = [] \/ cc_maxConcurrentOpportunities config <= Z.of_nat (length (sl_selected s'))).
Proof.
  induction fuel as [|fuel IH]; intros s Hs Hf; cbn [select_loop].
  - split; [done|]. left. by destruct (sl_remaining s); [|cbn in Hf; lia].
  - destruct (is_empty (sl_remaining s)) eqn:He; cbn [negb andb].
    { split; [done|]. left. by apply is_empty_nil. }
    destruct (Z.ltb_spec (Z.of_nat (length (sl_selected s))) (cc_maxConcurrentOpportunities config)) as [Hlt|Hge];
      [|by split; [|right]].
    pose proof (js_sort_perm (ranks_before (sl_assets s) (sl_venues s)) (sl_remaining s)) as Hperm.
    destruct (js_sort _ _) as [|next remaining]; [apply Permutation_nil_l in Hperm; by rewrite <- Hperm in He|].
    apply IH; [by apply select_step_ok|].
    assert (length (sl_remaining (select_step config s next remaining)) = length remaining) as ->
      by (unfold select_step; by case_match).
    apply Permutation_length in Hperm. cbn in Hperm. lia.
Qed.

Lemma selection_facts (opps : list CarryOpportunityCandidate) (config : CarryConfig) :
  let '(selected, rejected) := selectOpportunityCandidates opps config in
  map sd_opportunity selected ++ map rd_opportunity rejected ≡ₚ opps /\
  Z.of_nat (length selected) <= Z.max 0 (cc_maxConcurrentOpportunities config) /\
  (forall a, selected_count (on_asset a) selected <= Z.max 0 (cc_maxOpportunitiesPerAsset config)) /\
  (forall v, selected_count (on_venue v) selected <= Z.max 0 (cc_maxOpportunitiesPerVenue config)) /\
  (forall r, r ∈ rejected ->
     rd_reason r = "asset limit reached for " +:+ co_asset (rd_opportunity r) \/
     (exists v, v ∈ getCandidateVenueIds (rd_opportunity r) /\ rd_reason r = "venue limit reached for " +:+ v) \/
     (rd_reason r = budget_exhausted /\ cc_maxConcurrentOpportunities config <= Z.of_nat (length selected))).
Proof.
  unfold selectOpportunityCandidates. cbn zeta.
  destruct (select_loop_ok config opps (length opps) (MkSelection opps [] [] [] [] [] [])) as [[Hp Ha Hv Ht Hla Hlv Hr] Hend].
  { split; cbn; try done; intros; unfold selected_count; cbn; lia || set_solver. }
  { done. }
  set (s := select_loop _ _ _) in *. split_and!; try done.
  - rewrite map_app, map_map. cbn. by rewrite map_id.
  - intros r [Hr1|Hr1]%elem_of_app; [destruct (Hr r Hr1); auto|]. right. right.
    apply list_elem_of_fmap in Hr1 as (o & -> & Ho). split; [done|].
    destruct Hend as [He|He]; [rewrite He in Ho; inversion Ho|done].
Qed.

(** The greedy selection accounts for every opportunity once, as selected
    or as rejected; it selects no more than the configured number of
    opportunities in all, per asset and per venue; and an opportunity is turned
    down because the asset or one of its venues is full, or, with the budget
    message, because the full number has been selected. *)
Theorem selection_respects_limits (opps : list CarryOpportunityCandidate) (config : CarryConfig) :
  let '(selected, rejected) := selectOpportunityCandidates opps config in
  map sd_opportunity selected ++ map rd_opportunity rejected ≡ₚ opps /\
  Z.of_nat (length selected) <= Z.max 0 (cc_maxConcurrentOpportunities config) /\
  (forall a, selected_count (on_asset a) selected <= Z.max 0 (cc_maxOpportunitiesPerAsset config)) /\
  (forall v, selected_count (on_venue v) selected <= Z.max 0 (cc_maxOpportunitiesPerVenue config)) /\
  (forall r, r ∈ rejected ->
     rd_reason r = "asset limit reached for " +:+ co_asset (rd_opportunity r) \/
     (exists v, v ∈ getCandidateVenueIds (rd_opportunity r) /\ rd_reason r = "venue limit reached for " +:+ v) \/
     (rd_reason r = budget_exhausted /\ cc_maxConcurrentOpportunities config <= Z.of_nat (length selected))).
Proof. apply selection_facts. Qed.

(** Every opportunity is selected or rejected, once. *)
Lemma allocate_step_perm `{DL : DecimalLib} input nav capA capV p d p' : allocate_step input nav capA capV p d = Ret p' ->
  map pa_opportunity (pl_selected p') ++ map rd_opportunity (pl_rejected p') ≡ₚ
  sd_opportunity d :: map pa_opportunity (pl_selected p) ++ map rd_opportunity (pl_rejected p).
Proof.
  intros H. unfold allocate_step in H. exn_inv H as s1 E1. exn_inv H as d1 E2. exn_inv H as s2 E3. exn_inv H as d2 E4.
  injection H as <-. destruct (d_lte _ _); cbn [pl_selected pl_rejected]; rewrite map_app; cbn.
  - by rewrite app_assoc, <- Permutation_cons_append.
  - rewrite <- app_assoc. cbn. by rewrite <- Permutation_middle.
Qed.

Lemma optimize_accounts `{DL : DecimalLib} input r : optimizeCarryPortfolio input = Ret r ->
  map pa_opportunity (por_selected r) ++ map rd_opportunity (por_rejected r) ≡ₚ poi_opportunities input.
Proof.
  intros H. unfold optimizeCarryPortfolio in H. exn_inv H as nav E1. destruct (d_lte nav _).
  { injection H as <-. cbn. rewrite map_map. cbn. by rewrite map_id. }
  pose proof (selection_facts (poi_opportunities input) (poi_config input)) as Hsel.
  destruct (selectOpportunityCandidates _ _) as [selection rejected]. destruct Hsel as [Hperm _].
  do 5 (let x := fresh "x" in let E := fresh "E" in exn_inv H as x E). exn_inv H as p Ep. injection H as <-. cbn.
  rewrite <- Hperm. clear -Ep. revert Ep.
  match goal with |- fold_exn _ ?q _ = _ -> _ => set (p0 := q) end.
  change rejected with (pl_rejected p0). change (map sd_opportunity selection ++ _) with
    (map sd_opportunity selection ++ map pa_opportunity (pl_selected p0) ++ map rd_opportunity (pl_rejected p0)).
  generalize p0. clear p0. induction selection as [|d selection IH]; intros q H; cbn [fold_exn] in H; [by injection H as <-|].
  exn_inv H as q' Eq. rewrite (IH _ H). apply allocate_step_perm in Eq. cbn [map app]. rewrite Eq. symmetry. apply Permutation_middle.
Qed.

(** ** The caps per asset and venue *)

(** The cents of an exposure, absent being none. *)
Definition exposure_cents (m : list (string * string)) (k : string) : Z :=
  match jm_get k m with Some s => or_else (units_in 2 s) 0 | None => 0 end.
Definition cents_string (s : string) : bool :=
  match units_in 2 s with Some e => (0 <=? e) && (e <=? 8 * 10 ^ 12) | None => false end.

(** What a list of sizes puts on the opportunities, weighted. *)
Definition allocated (weight : CarryOpportunityCandidate -> Z) (selected : list PortfolioCapitalAllocation) (sizes : list Z) : Z :=
  zsum (zip_with (fun a c => weight (pa_opportunity a) * c) selected sizes).
Definition asset_weight (a : string) (o : CarryOpportunityCandidate) : Z := if on_asset a o then 1 else 0.
(** The number of legs on a venue: of two legs, each carries half of the size. *)
Definition venue_weight (v : string) (o : CarryOpportunityCandidate) : Z :=
  Z.of_nat (length (List.filter (fun leg => bool_decide (ol_venueId leg = v)) (co_legs o))).

Lemma allocated_snoc w sel sizes a c : length sel = length sizes ->
  allocated w (sel ++ [a]) (sizes ++ [c]) = allocated w sel sizes + w (pa_opportunity a) * c.
Proof. intros H. unfold allocated. rewrite zip_with_app, zsum_app by done. cbn. lia. Qed.

Section Caps.
Context `{DL : DecimalLib} `{LW : !DecimalLaws}.

Lemma decimalMin_scaled k v vs z zs : 0 <= k -> scaled k v z -> Forall2 (scaled k) vs zs ->
  scaled k (decimalMin v vs) (foldl Z.min z zs).
Proof.
  intros Hk Hv Hvs. revert v z Hv. induction Hvs as [|d x vs zs Hd _ IH]; intros v z Hv; cbn [decimalMin foldl]; [done|].
  apply IH. by apply scaled_min2.
Qed.

Lemma foldl_min_le z zs : foldl Z.min z zs <= z /\ Forall (fun x => foldl Z.min z zs <= x) zs.
Proof.
  revert z. induction zs as [|x zs IH]; intros z; cbn [foldl]; [split; [lia|done]|].
  destruct (IH (Z.min z x)) as [H1 H2]. split; [lia|]. constructor; [lia|done].
Qed.

Lemma foldl_min_ge z zs m : m <= z -> Forall (Z.le m) zs -> m <= foldl Z.min z zs.
Proof.
  intros Hz Hzs. revert z Hz. induction Hzs as [|x zs Hx _ IH]; intros z Hz; cbn [foldl]; [done|]. apply IH. lia.
Qed.

(** The weights of the venues of a pair of legs, in tenths. *)
Lemma weight_one : scaled 1 (d_div (d_plus (d_plus (dec_of_Z 0) (dec_of_Z 1)) (dec_of_Z 1)) (dec_of_Z 2)) 10.
Proof.
  assert (F2 : scaled 0 (d_plus (d_plus (dec_of_Z 0) (dec_of_Z 1)) (dec_of_Z 1)) 2).
  { assert (F1 : scaled 0 (dec_of_Z 1) 1) by (apply (d_of_int 1); lia).
    apply (scaled_plus 0 _ _ 1 1); [lia| |exact F1|lia]. apply (scaled_plus 0 _ _ 0 1); [lia|apply scaled_zero|exact F1|lia]. }
  unfold scaled, is_fin. rewrite (d_div_fin _ _ _ _ F2 (d_of_int 2 ltac:(lia))) by by intros ?.
  etrans; [apply d_rnd_proper|apply (d_rnd_exact 10 1); lia]. done.
Qed.

Lemma weight_half : scaled 1 (d_div (d_plus (dec_of_Z 0) (dec_of_Z 1)) (dec_of_Z 2)) 5.
Proof.
  assert (F1 : scaled 0 (d_plus (dec_of_Z 0) (dec_of_Z 1)) 1).
  { apply (scaled_plus 0 _ _ 0 1); [lia|apply scaled_zero|apply (d_of_int 1); lia|lia]. }
  unfold scaled, is_fin. rewrite (d_div_fin _ _ _ _ F1 (d_of_int 2 ltac:(lia))) by by intros ?.
  etrans; [apply d_rnd_proper|apply (d_rnd_exact 5 1); lia]. done.
Qed.

(** Either one venue carries it all, or two venues half each. *)
Lemma venue_weights_pair o a b : co_legs o = [a; b] ->
  (ol_venueId a = ol_venueId b /\ exists w, buildVenueWeights o = [(ol_venueId a, w)] /\ scaled 1 w 10) \/
  (ol_venueId a <> ol_venueId b /\ exists w, buildVenueWeights o = [(ol_venueId a, w); (ol_venueId b, w)] /\ scaled 1 w 5).
Proof.
  intros Hl. unfold buildVenueWeights. rewrite Hl. cbn [foldl length]. change (d_get (ol_venueId a) []) with (dec_of_Z 0).
  change (Z.of_nat 2) with 2. destruct (decide (ol_venueId b = ol_venueId a)) as [E|Hne].
  - left. split; [done|]. eexists. split; [|exact weight_one]. rewrite E. cbn [jm_set]. unfold d_get at 1. cbn [jm_get].
    rewrite !decide_True by done. cbn [or_else foldl jm_set]. done.
  - right. split; [done|]. eexists. split; [|exact weight_half]. cbn [jm_set]. unfold d_get. cbn [jm_get].
    rewrite !decide_False by done. cbn [or_else foldl jm_set]. by rewrite !decide_False by done.
Qed.

(** The room of a venue as a notional. *)
Lemma room_of_weight r w R W k : scaled 8 r R -> scaled 1 w W -> 0 < W -> k * W = 10 -> Z.abs (k * R) < 10 ^ 20 ->
  scaled 8 (if d_lte w (dec_of_Z 0) then r else d_div r w) (k * R).
Proof.
  intros Hr Hw HW Hk HR. rewrite (scaled_lte _ _ _ _ _ Hw (scaled_zero 1)). destruct (Z.leb_spec W 0); [lia|].
  unfold scaled, is_fin. rewrite (d_div_fin _ _ _ _ Hr Hw) by (unfold Qeq; cbn; lia).
  transitivity (d_rnd (Qmake (k * R) (Z.to_pos (10 ^ 8)))); [|by apply d_rnd_exact].
  apply d_rnd_proper. apply Qmult_inj_r with (W # 10)%Q; [unfold Qeq; cbn; lia|].
  change (Z.to_pos (10 ^ 1)) with 10%positive. unfold Qdiv. rewrite <- Qmult_assoc, (Qmult_comm (/ _)), Qmult_inv_r by (unfold Qeq; cbn; lia).
  rewrite Qmult_1_r. unfold Qeq, Qmult. cbn [Qnum Qden]. rewrite Pos2Z.inj_mul. nia.
Qed.

(** The exposure share of the net asset value, printed with four places. *)
Lemma gross_pct_amount gross nav g N : scaled 2 gross g -> scaled 2 nav N -> 0 <= g <= 10 ^ 15 + 10 ^ 13 -> 200 <= N ->
  exists C, amount 4 (d_toFixedN 4 (d_times (d_div gross nav) (dec_of_Z 100))) C /\ 0 <= C <= 10 ^ 19.
Proof.
  intros Hg Hn Hb HN.
  destruct (between_fin (d_div gross nav) 0 (inject_Z (10 ^ 13))) as (q & Fq & L & U).
  { rewrite (d_div_fin _ _ _ _ Hg Hn) by (unfold Qeq; cbn; lia). apply d_rnd_nonneg.
    apply Qle_shift_div_l; unfold Qlt, Qle; cbn; lia. }
  { rewrite (d_div_fin _ _ _ _ Hg Hn) by (unfold Qeq; cbn; lia).
    change (inject_Z (10 ^ 13)) with (Qmake (10 ^ 13) (Z.to_pos (10 ^ 0))). rewrite <- (d_rnd_exact (10 ^ 13) 0) by lia.
    apply d_rnd_mono. apply Qle_shift_div_r; unfold Qlt, Qle; cbn; lia. }
  destruct (between_fin (d_times (d_div gross nav) (dec_of_Z 100)) 0 (inject_Z (10 ^ 15))) as (x & Fx & L2 & U2).
  { rewrite (d_times_fin _ _ _ _ Fq (d_of_int 100 ltac:(lia))). apply d_rnd_nonneg. apply Qmult_le_0_compat; [done|]. by unfold Qle. }
  { rewrite (d_times_fin _ _ _ _ Fq (d_of_int 100 ltac:(lia))).
    change (inject_Z (10 ^ 15)) with (Qmake (10 ^ 15) (Z.to_pos (10 ^ 0))). rewrite <- (d_rnd_exact (10 ^ 15) 0) by lia.
    apply d_rnd_mono. apply Qle_trans with (inject_Z (10 ^ 13) * inject_Z 100)%Q; [|by unfold Qle].
    apply Qmult_le_compat_r; [done|]. by unfold Qle. }
  destruct (between_fixed 4 0 _ x 0 (10 ^ 19) ltac:(lia) ltac:(lia) ltac:(lia) Fx) as (b & C & Hp & Sb & Bc).
  { eapply Qle_trans; [|exact L2]. by unfold Qle. }
  { eapply Qle_trans; [exact U2|]. by unfold Qle. }
  exists C. split; [by exists b|]. change (half_up 0 0) with 0 in Bc. change (half_up 0 (10 ^ 19)) with (10 ^ 19) in Bc. exact Bc.
Qed.

(** What the caps need of an input: amounts in cents of a sleeve of one dollar
    to ten billion, percentages with at most four places, opportunities of two
    legs whose Kelly percentage is a number. *)
Record caps_input (input : PortfolioOptimizationInput) (N A V M D G : Z) (k : dec) : Prop := {
  ci_nav : units_in 2 (poi_sleeveNav input) = Some N /\ 200 <= N <= 10 ^ 12;
  ci_asset : units_in 4 (cc_maxAssetExposurePct (poi_config input)) = Some A /\ 0 <= A <= 10 ^ 6;
  ci_venue : units_in 4 (cc_maxVenueExposurePct (poi_config input)) = Some V /\ 0 <= V <= 10 ^ 6;
  ci_max : units_in 4 (cc_maxPositionSizePct (poi_config input)) = Some M /\ 0 <= M <= 10 ^ 6;
  ci_default : units_in 4 (cc_defaultPositionSizePct (poi_config input)) = Some D /\ 0 <= D <= 10 ^ 6;
  ci_kelly : dec_of_string (cc_kellyCriterionFraction (poi_config input)) = Ret k;
  ci_gross : units_in 2 (poi_currentGrossExposureUsd input) = Some G /\ 0 <= G <= 10 ^ 13;
  ci_counts : cc_maxConcurrentOpportunities (poi_config input) < 2 ^ 53 /\ 0 <= poi_currentOpenPositions input;
  ci_assets : NoDup (jm_keys (poi_currentAssetExposureUsd input)) /\
    Forall (fun kv => cents_string kv.2 = true) (poi_currentAssetExposureUsd input);
  ci_venues : NoDup (jm_keys (poi_currentVenueExposureUsd input)) /\
    Forall (fun kv => cents_string kv.2 = true) (poi_currentVenueExposureUsd input);
  ci_length : (length (poi_opportunities input) <= 1000)%nat;
  ci_opportunities : forall o, o ∈ poi_opportunities input ->
    (exists a b, co_legs o = [a; b]) /\
    exists y, dec_of_string (co_expectedAnnualYieldPct o) = Ret y /\
      dv_isNaN (dval (kelly_pct y (co_confidenceScore o) k)) = false;
}.

(** The sizes so far, and the exposures they lead to, in [10^-8] dollars. *)
Record plan_ok (E F : string -> Z) (capA capV : Z) (p : Planned) (sizes : list Z) : Prop := {
  po_sizes : Forall2 (fun a c => amount 2 (pa_positionSizeUsd a) c /\ 0 <= c) (pl_selected p) sizes;
  po_asset : forall a, scaled 8 (d_get a (pl_assetExposure p))
    (E a + 10 ^ 6 * allocated (asset_weight a) (pl_selected p) sizes);
  po_asset_cap : forall a, E a + 10 ^ 6 * allocated (asset_weight a) (pl_selected p) sizes <= Z.max (E a) capA;
  po_venue : forall v, scaled 8 (d_get v (pl_venueExposure p))
    (F v + 5 * 10 ^ 5 * allocated (venue_weight v) (pl_selected p) sizes);
  po_venue_cap : forall v, F v + 5 * 10 ^ 5 * allocated (venue_weight v) (pl_selected p) sizes <= Z.max (F v) capV;
  po_gross : exists g, scaled 2 (pl_grossExposure p) g /\
    0 <= g <= 10 ^ 13 + 10 ^ 12 * Z.of_nat (length (pl_selected p));
  po_open : 0 <= pl_openPositions p;
}.

Lemma allocated_nonneg w sel sizes : (forall o, 0 <= w o) -> Forall (Z.le 0) sizes -> 0 <= allocated w sel sizes.
Proof.
  intros Hw Hs. apply zsum_nonneg. revert sel. induction Hs as [|c sizes Hc _ IH]; intros [|a sel]; cbn; constructor; [|apply IH].
  specialize (Hw (pa_opportunity a)). nia.
Qed.

Lemma d_get_set k k' v (m : list (string * dec)) :
  d_get k (jm_set k' v m) = if decide (k = k') then v else d_get k m.
Proof. unfold d_get. rewrite jm_get_set. by case_decide. Qed.

Lemma venue_weight_pair v o a b : co_legs o = [a; b] ->
  venue_weight v o = (if decide (ol_venueId a = v) then 1 else 0) + (if decide (ol_venueId b = v) then 1 else 0).
Proof. intros Hl. unfold venue_weight. rewrite Hl. cbn. repeat case_bool_decide; repeat case_decide; done. Qed.

(** The rooms of the venues bound the shares of a size, and the update adds them. *)
Lemma venue_update o a b capV x exp (Y : string -> Z) : co_legs o = [a; b] ->
  scaled 8 capV x -> (forall v, scaled 8 (d_get v exp) (Y v)) ->
  (forall v, Z.abs (x - Y v) < 10 ^ 19) -> (forall v, Z.abs (Y v) < 10 ^ 19) ->
  exists rs, Forall2 (scaled 8) (venue_rooms capV exp (buildVenueWeights o)) rs /\ forall c, 0 <= c -> c * 10 ^ 6 < 10 ^ 19 ->
    (forall n, scaled 2 n c -> forall v, scaled 8
       (d_get v (foldl (fun m '(venueId, weight) => jm_set venueId (d_plus (d_get venueId m) (d_times n weight)) m)
         exp (buildVenueWeights o))) (Y v + 5 * 10 ^ 5 * (venue_weight v o * c))) /\
    (Forall (fun r => 10 ^ 6 * c <= r) rs -> forall v, venue_weight v o <> 0 ->
       Y v + 5 * 10 ^ 5 * (venue_weight v o * c) <= x).
Proof.
  intros Hl Hx HY Hb1 Hb2.
  assert (Hr : forall v, scaled 8 (d_minus capV (d_get v exp)) (x - Y v)).
  { intros v. apply scaled_minus; [lia|done|done|]. specialize (Hb1 v). lia. }
  assert (Hadd : forall c n w W d y, 0 <= c -> c * 10 ^ 6 < 10 ^ 19 -> scaled 2 n c -> scaled 1 w W -> 0 <= W <= 10 -> scaled 8 d y -> Z.abs y < 10 ^ 19 ->
    scaled 8 (d_plus d (d_times n w)) (y + c * W * 10 ^ 5)).
  { intros c n w W d y Hc Hc2 Hn Hw HW Hd Hy. apply scaled_plus; [lia|done| |nia].
    apply (scaled_finer 3 5); [lia|lia|]. apply (scaled_times 2 1); first [done|nia]. }
  destruct (venue_weights_pair o a b Hl) as [(E & w & -> & Hw)|(E & w & -> & Hw)].
  - exists [1 * (x - Y (ol_venueId a))]. split; [|intros c Hc Hc2; split].
    + repeat constructor. eapply room_of_weight; [apply Hr|exact Hw|lia|lia|]. specialize (Hb1 (ol_venueId a)). lia.
    + intros n Hn v. cbn [foldl]. rewrite d_get_set, (venue_weight_pair v o a b Hl). case_decide as Hv.
      * subst v. rewrite !decide_True by done. replace (Y _ + 5 * 10 ^ 5 * ((1 + 1) * c)) with (Y (ol_venueId a) + c * 10 * 10 ^ 5) by ring.
        by apply Hadd.
      * rewrite !decide_False by congruence. replace (Y v + _) with (Y v) by ring. apply HY.
    + intros [H _]%Forall_cons v Hv. rewrite (venue_weight_pair v o a b Hl) in *.
      destruct (decide (ol_venueId a = v)) as [<-|]; [rewrite decide_True by done; lia|].
      by rewrite decide_False in Hv by congruence.
  - exists [2 * (x - Y (ol_venueId a)); 2 * (x - Y (ol_venueId b))]. split; [|intros c Hc Hc2; split].
    + repeat constructor; (eapply room_of_weight; [apply Hr|exact Hw|lia|lia|]);
        [specialize (Hb1 (ol_venueId a))|specialize (Hb1 (ol_venueId b))]; lia.
    + intros n Hn v. cbn [foldl]. rewrite d_get_set, (venue_weight_pair v o a b Hl). case_decide as Hv.
      * subst v. rewrite d_get_set, (decide_False (P := ol_venueId b = ol_venueId a)) by congruence.
        rewrite (decide_False (P := ol_venueId a = ol_venueId b)), decide_True by congruence.
        replace (Y _ + 5 * 10 ^ 5 * ((0 + 1) * c)) with (Y (ol_venueId b) + c * 5 * 10 ^ 5) by ring. by apply Hadd.
      * rewrite d_get_set. rewrite (decide_False (P := ol_venueId b = v)) by congruence. case_decide as Hv2.
        -- subst v. rewrite decide_True by done.
           replace (Y _ + 5 * 10 ^ 5 * ((1 + 0) * c)) with (Y (ol_venueId a) + c * 5 * 10 ^ 5) by ring. by apply Hadd.
        -- rewrite decide_False by congruence. replace (Y v + _) with (Y v) by ring. apply HY.
    + intros [Ha [Hb _]%Forall_cons]%Forall_cons v Hv. rewrite (venue_weight_pair v o a b Hl) in *.
      destruct (decide (ol_venueId a = v)) as [<-|]; [rewrite decide_False by congruence; lia|].
      destruct (decide (ol_venueId b = v)) as [<-|]; [lia|done].
Qed.

(** What the sizers offer an opportunity. *)
Lemma offered_sizes input N A V M D G k o pct C : caps_input input N A V M D G k -> o ∈ poi_opportunities input ->
  amount 4 pct C -> 0 <= C < 10 ^ 20 - 10 ^ 6 ->
  exists s c, computePositionSize (MkSizeParams (poi_sleeveNav input) (co_expectedAnnualYieldPct o) (co_confidenceScore o)
      (poi_config input) pct) = Ret s /\ amount 2 s c /\ 0 <= c <= 10 ^ 12.
Proof.
  intros [[Hn Bn] _ _ [Hm Bm] [Hd Bd] Hk _ _ _ _ _ Ho] Hin Hpct BC.
  destruct (Ho o Hin) as [_ (y & Hy & Hkelly)].
  destruct (Z.lt_ge_cases C M) as [HC|HC].
  - destruct (computePositionSize_bounds (MkSizeParams (poi_sleeveNav input) (co_expectedAnnualYieldPct o)
      (co_confidenceScore o) (poi_config input) pct) N M D C y k) as (s & c & E & Hs & Bc);
      cbn; eauto using units_in_parses; try lia; try nia.
    exists s, c. split_and!; [done|done| |].
    + etrans; [|apply Bc]. unfold half_up. apply Z.div_pos; [|lia]. nia.
    + etrans; [apply Bc|]. change (10 ^ 12) with (half_up 6 (10 ^ 18)). apply half_up_mono; [lia|nia].
  - exists "0", 0. split; [|split; [apply zero_amount|lia]].
    destruct (units_in_parses _ _ _ Hd) as (dd & Ed & _).
    apply (computePositionSize_full _ N M C); cbn; eauto using units_in_parses; [lia| |].
    + by rewrite Ed.
    + by rewrite Hk.
Qed.

Lemma offered_max input N A V M D G k positions : caps_input input N A V M D G k -> 0 <= positions ->
  exists s c, computeMaxAllowedSize (MkMaxSizeParams (poi_sleeveNav input) positions (poi_config input)) = Ret s /\
    amount 2 s c /\ 0 <= c <= 10 ^ 12.
Proof.
  intros [[Hn Bn] _ _ [Hm Bm] [Hd Bd] _ _ [Hc _] _ _ _ _] Hp.
  destruct (max_size_bounds (MkMaxSizeParams (poi_sleeveNav input) positions (poi_config input)) N M D) as (s & c & E & Hs & Bc);
    cbn; eauto using units_in_parses; try lia; try nia.
  exists s, c. split_and!; [done|done|lia|]. etrans; [apply Bc|]. change (10 ^ 12) with (half_up 6 (10 ^ 18)). apply half_up_mono; [lia|nia].
Qed.

Lemma fixed2_amount d c : scaled 2 d c -> 0 <= c -> amount 2 (d_toFixedN 2 d) c.
Proof.
  intros Hd Hc. destruct (scaled_fixed 2 0 d c) as (b & Hb & Sb); [lia|lia|done|done|].
  exists b. split; [done|]. replace c with (half_up 0 c); [done|].
  unfold half_up. rewrite Z.pow_0_r, Z.mul_1_r, Z.add_comm, Z.mul_comm, Z.div_add by lia. done.
Qed.

Lemma allocate_step_ok input N A V M D G k nav capA capV E F p sizes decision :
  caps_input input N A V M D G k -> sd_opportunity decision ∈ poi_opportunities input ->
  scaled 2 nav N -> scaled 8 capA (N * A) -> scaled 8 capV (N * V) ->
  (forall a, 0 <= E a <= 8 * 10 ^ 18) -> (forall v, 0 <= F v <= 8 * 10 ^ 18) ->
  (length (pl_selected p) < 1000)%nat ->
  plan_ok E F (N * A) (N * V) p sizes ->
  exists p' sizes', allocate_step input nav capA capV p decision = Ret p' /\ plan_ok E F (N * A) (N * V) p' sizes' /\
    (length (pl_selected p') <= Datatypes.S (length (pl_selected p)))%nat.
Proof.
  intros Hin Ho Hnav HcapA HcapV HE HF Hlen [Psz Pa Pac Pv Pvc (g & Hg & Bg) Popen].
  destruct (ci_nav _ _ _ _ _ _ _ _ Hin) as [En BN]. pose proof (proj2 (ci_asset _ _ _ _ _ _ _ _ Hin)) as BA.
  pose proof (proj2 (ci_venue _ _ _ _ _ _ _ _ Hin)) as BV. set (o := sd_opportunity decision) in *.
  destruct (proj1 (ci_opportunities _ _ _ _ _ _ _ _ Hin o Ho)) as (la & lb & Hlegs).
  assert (Hs0 : Forall (Z.le 0) sizes) by (clear -Psz; induction Psz as [|? ? ? ? [? ?]]; constructor; auto).
  assert (Hw1 : forall a o, 0 <= asset_weight a o) by (intros a o'; unfold asset_weight; by destruct (on_asset a o')).
  assert (Hw2 : forall v o, 0 <= venue_weight v o) by (intros v o'; unfold venue_weight; lia).
  set (Xa := fun a => E a + 10 ^ 6 * allocated (asset_weight a) (pl_selected p) sizes) in *.
  set (Yv := fun v => F v + 5 * 10 ^ 5 * allocated (venue_weight v) (pl_selected p) sizes) in *.
  assert (HNA : 0 <= N * A <= 10 ^ 18) by nia. assert (HNV : 0 <= N * V <= 10 ^ 18) by nia.
  assert (HX : forall a, 0 <= Xa a <= 10 ^ 18 + 10 ^ 18 * 8).
  { intros a. pose proof (allocated_nonneg (asset_weight a) (pl_selected p) sizes (Hw1 a) Hs0).
    specialize (HE a). specialize (Pac a). unfold Xa. lia. }
  assert (HY : forall v, 0 <= Yv v <= 10 ^ 18 + 10 ^ 18 * 8).
  { intros v. pose proof (allocated_nonneg (venue_weight v) (pl_selected p) sizes (Hw2 v) Hs0).
    specialize (HF v). specialize (Pvc v). unfold Yv. lia. }
  destruct (gross_pct_amount _ _ g N Hg Hnav) as (C & HC & BC); [lia|lia|].
  destruct (offered_sizes _ _ _ _ _ _ _ _ _ _ C Hin Ho HC ltac:(lia)) as (st & t & Et & (dt & Edt & Ht) & Bt).
  destruct (offered_max _ _ _ _ _ _ _ _ (pl_openPositions p) Hin Popen) as (sm & m & Em & (dm & Edm & Hm) & Bm).
  destruct (venue_update o la lb capV (N * V) (pl_venueExposure p) Yv Hlegs HcapV Pv) as (rs & Hrs & Hupd);
    [intros v; specialize (HY v); lia|intros v; specialize (HY v); lia|].
  assert (Hra : scaled 8 (d_minus capA (d_get (co_asset o) (pl_assetExposure p))) (N * A - Xa (co_asset o))).
  { apply scaled_minus; [lia|done|apply Pa|]. specialize (HX (co_asset o)). lia. }
  set (P := foldl Z.min (t * 10 ^ 6) ([m * 10 ^ 6; N * A - Xa (co_asset o)] ++ rs)).
  assert (HP : scaled 8 (decimalMin dt ([dm; d_minus capA (d_get (co_asset o) (pl_assetExposure p))] ++
      venue_rooms capV (pl_venueExposure p) (buildVenueWeights o))) P).
  { apply decimalMin_scaled; [lia|by apply (scaled_finer 2 6)|].
    apply Forall2_app; [|done]. repeat constructor; [by apply (scaled_finer 2 6)|done]. }
  destruct (foldl_min_le (t * 10 ^ 6) ([m * 10 ^ 6; N * A - Xa (co_asset o)] ++ rs)) as [HPt HPl]. fold P in HPt, HPl.
  apply Forall_app in HPl as [[_ [HPa _]%Forall_cons]%Forall_cons HPr].
  unfold allocate_step. fold o. cbn zeta. exn_step Et. exn_step Edt. exn_step Em. exn_step Edm.
  rewrite (scaled_lte _ _ _ _ _ HP (scaled_zero 8)). destruct (Z.leb_spec P 0) as [HP0|HP0].
  { eexists _, sizes. split_and!; [reflexivity| |cbn; lia]. split; cbn; try done. by exists g. }
  set (c := P / 10 ^ 6). assert (Hc : 0 <= c) by (apply Z.div_pos; lia).
  assert (HcP : 10 ^ 6 * c <= P) by (apply Z.mul_div_le; lia).
  assert (Hn : scaled 2 (d_toDP_down 2 (decimalMin dt ([dm; d_minus capA (d_get (co_asset o) (pl_assetExposure p))] ++
      venue_rooms capV (pl_venueExposure p) (buildVenueWeights o)))) c) by (apply (scaled_down 2 6); first [done|lia]).
  destruct (Hupd c Hc ltac:(lia)) as [Hadd Hcap].
  eexists _, (sizes ++ [c]). split_and!; [reflexivity| |cbn [pl_selected]; rewrite length_app; cbn; lia].
  pose proof (Forall2_length _ _ _ Psz) as Hlen2.
  split; cbn [pl_selected pl_assetExposure pl_venueExposure pl_grossExposure pl_openPositions].
  - apply Forall2_app; [done|]. repeat constructor; [by apply fixed2_amount|done].
  - intros a. rewrite d_get_set, allocated_snoc by done. cbn [pa_opportunity]. unfold asset_weight at 2, on_asset.
    case_decide as Ha.
    + subst a. rewrite bool_decide_true by done.
      replace (E _ + _) with (Xa (co_asset o) + c * 10 ^ 6) by (unfold Xa; ring).
      apply scaled_plus; [lia|apply Pa|by apply (scaled_finer 2 6)|]. specialize (HX (co_asset o)). lia.
    + rewrite bool_decide_false by congruence. replace (E a + _) with (Xa a) by (unfold Xa; ring). apply Pa.
  - intros a. rewrite allocated_snoc by done. cbn [pa_opportunity]. unfold asset_weight at 2, on_asset.
    case_bool_decide as Ha; [subst a|specialize (Pac a); lia]. unfold Xa in HPa. lia.
  - intros v. rewrite allocated_snoc by done. cbn [pa_opportunity].
    replace (F v + _) with (Yv v + 5 * 10 ^ 5 * (venue_weight v o * c)) by (unfold Yv; ring). by apply Hadd.
  - intros v. rewrite allocated_snoc by done. cbn [pa_opportunity]. destruct (decide (venue_weight v o = 0)) as [->|Hv].
    { specialize (Pvc v). lia. }
    assert (Hall : Forall (fun r => 10 ^ 6 * c <= r) rs) by (eapply Forall_impl; [exact HPr|]; intros r Hr; cbn beta in *; lia).
    specialize (Hcap Hall v Hv). unfold Yv in Hcap. lia.
  - exists (g + c). split; [apply scaled_plus; [lia|done|done|lia]|]. rewrite length_app. cbn [length]. lia.
  - lia.
Qed.

Lemma allocate_all_ok input N A V M D G k nav capA capV E F decisions : caps_input input N A V M D G k ->
  (forall d, d ∈ decisions -> sd_opportunity d ∈ poi_opportunities input) ->
  scaled 2 nav N -> scaled 8 capA (N * A) -> scaled 8 capV (N * V) ->
  (forall a, 0 <= E a <= 8 * 10 ^ 18) -> (forall v, 0 <= F v <= 8 * 10 ^ 18) ->
  forall p sizes, (length (pl_selected p) + length decisions <= 1000)%nat -> plan_ok E F (N * A) (N * V) p sizes ->
  exists p' sizes', fold_exn (allocate_step input nav capA capV) p decisions = Ret p' /\ plan_ok E F (N * A) (N * V) p' sizes'.
Proof.
  intros Hin Hd Hn HA HV HE HF. induction decisions as [|d decisions IH]; intros p sizes Hl Hp; [by exists p, sizes|].
  cbn [length] in Hl. destruct (allocate_step_ok input N A V M D G k nav capA capV E F p sizes d)
    as (p' & sizes' & Es & Hp' & Hl'); try done; [apply Hd; left|lia|].
  cbn [fold_exn]. exn_step Es. apply (IH ltac:(intros d' ?; apply Hd; by right) p' sizes'); [lia|done].
Qed.

(** The exposures given, parsed. *)
Lemma parse_exposures_ok m : NoDup (jm_keys m) -> Forall (fun kv => cents_string kv.2 = true) m ->
  exists l, parse_exposures m = Ret l /\ forall k, scaled 8 (d_get k l) (10 ^ 6 * exposure_cents m k) /\
    0 <= 10 ^ 6 * exposure_cents m k <= 8 * 10 ^ 18.
Proof.
  intros Hnd Hm. unfold parse_exposures.
  assert (exists l, map_exn (fun '(k, e) => d ← dec_of_string e; Ret (k, d)) m = Ret l /\
    Forall2 (fun kv kd => kv.1 = kd.1 /\ exists e, units_in 2 kv.2 = Some e /\ 0 <= e <= 8 * 10 ^ 12 /\ scaled 2 kd.2 e) m l)
    as (l & El & Hl).
  { clear Hnd. induction Hm as [|[k s] m Hs _ IH]; [by exists []|]. destruct IH as (l & El & Hl). cbn in Hs.
    unfold cents_string in Hs. destruct (units_in 2 s) as [e|] eqn:Ee; [|done]. apply andb_true_iff in Hs as [H1%Z.leb_le H2%Z.leb_le].
    destruct (units_in_parses _ _ _ Ee) as (d & Ed & Fd). exists ((k, d) :: l). split.
    - cbn [map_exn]. rewrite Ed. cbn [mbind exn_bind]. by exn_step El.
    - constructor; [|done]. split; [done|]. by exists e. }
  exn_step El. eexists. split; [reflexivity|]. intros k.
  assert (Hkeys : jm_keys l = jm_keys m).
  { unfold jm_keys. clear -Hl. induction Hl as [|? ? ? ? [E _] _ IH]; [done|]. cbn. by rewrite E, IH. }
  assert (Hget : jm_get k (jm_of_list l) = jm_get k l).
  { apply option_eq. intros d. rewrite (jm_get_spec (jm_of_list l)) by apply jm_of_list_NoDup.
    rewrite (jm_get_spec l) by by rewrite Hkeys. apply jm_of_list_elem.
    intros k0 v v' H1 H2. apply (jm_In_get k0) in H1, H2; try by rewrite Hkeys. congruence. }
  unfold d_get, exposure_cents. rewrite Hget. clear -Hl LW.
  induction Hl as [|[k0 s] [k1 d] m l (E & e & Ee & Be & Sd) _ IH]; cbn [jm_get or_else].
  { split; [apply scaled_zero|lia]. }
  cbn in E, Ee, Sd. subst k1. case_decide; [|exact IH]. cbn [or_else]. rewrite Ee. cbn [or_else].
  split; [|lia]. rewrite Z.mul_comm. by apply (scaled_finer 2 6).
Qed.

(** C5. The optimizer keeps the concentration limits: for a sleeve worth [N]
    cents it returns, and for every asset and every venue the exposure held
    before and the sizes selected for it, each rounded down to cents, stay
    together within the cap, [A] (or [V]) millionths of the sleeve, or within
    what was held before when that is already more.  A venue carries one half
    of the size of an opportunity per leg. *)
Theorem optimizer_respects_caps (input : PortfolioOptimizationInput) (N A V M D G : Z) (k : dec)
    (Hin : caps_input input N A V M D G k) :
  exists r sizes, optimizeCarryPortfolio input = Ret r /\
    Forall2 (fun a c => amount 2 (pa_positionSizeUsd a) c /\ 0 <= c) (por_selected r) sizes /\
    (forall a, let held := exposure_cents (poi_currentAssetExposureUsd input) a in
       10 ^ 6 * (held + allocated (asset_weight a) (por_selected r) sizes) <= Z.max (10 ^ 6 * held) (N * A)) /\
    (forall v, let held := exposure_cents (poi_currentVenueExposureUsd input) v in
       10 ^ 6 * (2 * held + allocated (venue_weight v) (por_selected r) sizes) <= Z.max (10 ^ 6 * (2 * held)) (2 * (N * V))).
Proof.
  destruct (ci_nav _ _ _ _ _ _ _ _ Hin) as [En BN]. destruct (ci_asset _ _ _ _ _ _ _ _ Hin) as [EA BA].
  destruct (ci_venue _ _ _ _ _ _ _ _ Hin) as [EV BV]. destruct (ci_gross _ _ _ _ _ _ _ _ Hin) as [EG BG].
  destruct (ci_assets _ _ _ _ _ _ _ _ Hin) as [Da Fa]. destruct (ci_venues _ _ _ _ _ _ _ _ Hin) as [Dv Fv].
  destruct (units_in_parses _ _ _ En) as (dn & Hdn & Fn), (units_in_parses _ _ _ EA) as (da & Hda & FA),
    (units_in_parses _ _ _ EV) as (dv & Hdv & FV), (units_in_parses _ _ _ EG) as (dg & Hdg & FG).
  destruct (parse_exposures_ok _ Da Fa) as (la & Ela & Hla), (parse_exposures_ok _ Dv Fv) as (lv & Elv & Hlv).
  assert (Hpct : forall pct x, scaled 4 pct x -> 0 <= x <= 10 ^ 6 -> scaled 8 (d_div (d_times dn pct) (dec_of_Z 100)) (N * x)).
  { intros pct x Hx Bx. apply (scaled_div100 6); [lia|lia| |nia]. apply (scaled_times 2 4); first [done|nia]. }
  unfold optimizeCarryPortfolio. exn_step Hdn. rewrite (scaled_lte _ _ _ _ _ Fn (scaled_zero 2)).
  destruct (Z.leb_spec N 0); [lia|]. pose proof (selection_facts (poi_opportunities input) (poi_config input)) as Hsel.
  destruct (selectOpportunityCandidates _ _) as [selection rejected]. destruct Hsel as [Hperm _].
  exn_step Ela. exn_step Elv. exn_step Hdg. exn_step Hda. exn_step Hdv.
  destruct (allocate_all_ok input N A V M D G k dn (d_div (d_times dn da) (dec_of_Z 100)) (d_div (d_times dn dv) (dec_of_Z 100))
    (fun a => 10 ^ 6 * exposure_cents (poi_currentAssetExposureUsd input) a)
    (fun v => 10 ^ 6 * exposure_cents (poi_currentVenueExposureUsd input) v) selection) with
    (p := MkPlanned [] rejected la lv dg (poi_currentOpenPositions input)) (sizes := @nil Z)
    as (p' & sizes & Ep & [Psz _ Pac _ Pvc _ _]); try done.
  - intros d Hd. rewrite <- Hperm. apply elem_of_app. left. apply list_elem_of_fmap. by exists d.
  - by apply Hpct.
  - by apply Hpct.
  - intros a. apply Hla.
  - intros v. apply Hlv.
  - apply Permutation_length in Hperm. rewrite length_app, !length_map in Hperm.
    pose proof (ci_length _ _ _ _ _ _ _ _ Hin). cbn. lia.
  - split; cbn [pl_selected pl_assetExposure pl_venueExposure pl_grossExposure pl_openPositions]; try done.
    + intros a. replace (_ + _) with (10 ^ 6 * exposure_cents (poi_currentAssetExposureUsd input) a) by (cbn; lia). apply Hla.
    + intros a. unfold allocated. cbn. lia.
    + intros v. replace (_ + _) with (10 ^ 6 * exposure_cents (poi_currentVenueExposureUsd input) v) by (cbn; lia). apply Hlv.
    + intros v. unfold allocated. cbn. lia.
    + exists G. split; [done|]. cbn. lia.
    + apply (ci_counts _ _ _ _ _ _ _ _ Hin).
  - exn_step Ep. eexists _, sizes. split_and!; [reflexivity|exact Psz| |].
    + intros a. specialize (Pac a). cbn [por_selected] in *. cbn zeta. lia.
    + intros v. specialize (Pvc v). cbn [por_selected] in *. cbn zeta. lia.
Qed.
End Caps.

Lemma sample_input_caps : caps_input (DL := exact_decimal) sample_input 1000000 100000 150000 200000 50000 0 (DFin (25 # 100)).
Proof.
  constructor.
  1, 2, 3, 4, 5, 7: split; [vm_compute; reflexivity|lia].
  - vm_compute. reflexivity.
  - cbn. lia.
  - split; [apply NoDup_singleton|repeat constructor].
  - split; [apply NoDup_singleton|repeat constructor].
  - cbn. lia.
  - intros o Ho. cbn [sample_input poi_opportunities] in Ho. rewrite !elem_of_cons, elem_of_nil in Ho.
    destruct Ho as [-> |[-> |[-> |[-> |[]]]]]; (split; [by do 2 eexists|]); eexists; split; vm_compute; reflexivity.
Qed.

Lemma optimizer_respects_caps_witness :
  exists r sizes, optimizeCarryPortfolio (DL := exact_decimal) sample_input = Ret r /\
    Forall2 (fun a c => amount (DL := exact_decimal) 2 (pa_positionSizeUsd a) c /\ 0 <= c) (por_selected r) sizes /\
    (forall a, let held := exposure_cents (poi_currentAssetExposureUsd sample_input) a in
       10 ^ 6 * (held + allocated (asset_weight a) (por_selected r) sizes) <= Z.max (10 ^ 6 * held) (1000000 * 100000)) /\
    (forall v, let held := exposure_cents (poi_currentVenueExposureUsd sample_input) v in
       10 ^ 6 * (2 * held + allocated (venue_weight v) (por_selected r) sizes) <= Z.max (10 ^ 6 * (2 * held)) (2 * (1000000 * 150000))).
Proof. exact (optimizer_respects_caps (DL := exact_decimal) sample_input _ _ _ _ _ _ _ sample_input_caps). Defined.
