(* ===== verification/Pipeline.v ===== *)
(** * The strategy pipeline (packages/strategy-engine: intent-builder.ts, pipeline.ts)

    [StrategyPipeline] fetches market data from its venue adapters, detects and
    selects opportunities ([Opportunities], [Optimizer]), builds order intents,
    has each assessed by the risk engine ([RiskEngine]), and submits the
    approved ones.  The adapters, the audit writer, the clock and the id
    generator are the class [PipelineEnv], over an abstract world; one cycle
    runs at a time.  Logger and metric calls are not modelled.  The file shows
    that only assessed and approved intents reach a venue, that every detected
    opportunity is accounted for, and where intents are confused. *)
From Stdlib Require Import SpecFloat.
From S2P Require Import Prelude JsNumber JsValue JsText DecimalLib DecimalExact Domain RiskChecks CircuitBreakers RiskEngine MarketIdentity Executor SimVenue CarrySizing Opportunities Optimizer.
Open Scope Z_scope.

(** ** intent-builder.ts *)

Definition order_side (side : PositionSide) : OrderSide := match side with long => buy | short => sell end.

Definition buildIntentId (asset opportunityType : string) (side : PositionSide) (timestamp : Z) : string :=
  asset +:+ "-" +:+ opportunityType +:+ "-" +:+ OrderSide_str (order_side side) +:+ "-" +:+ z_str timestamp.

Section IntentBuilder.
Context `{DL : DecimalLib}.

Definition computeLegSizeUnits (leg : OpportunityLeg) (totalNotionalUsd : string) : exn string :=
  total ← dec_of_string totalNotionalUsd;
  let notionalPerLeg := d_div total (dec_of_Z 2) in
  estimatedPrice ← dec_of_string (ol_estimatedPrice leg);
  if d_isZero estimatedPrice then Ret "0"
  else Ret (d_toFixedN 8 (d_div notionalPerLeg estimatedPrice)).

Definition intent_identity (leg : OpportunityLeg) : CanonicalMarketIdentity :=
  match ol_marketIdentity leg with
  | None => createCanonicalMarketIdentity {|
      ii_venueId := Some (ol_venueId leg); ii_asset := Some (ol_asset leg);
      ii_marketType := JStr (InstrumentType_str (ol_instrumentType leg));
      ii_marketIndex := JUndefined; ii_marketKey := None; ii_marketSymbol := None; ii_marketName := None;
      ii_aliases := None; ii_provenance := Some derived; ii_capturedAtStage := strategy_intent;
      ii_source := "strategy_intent_builder";
      ii_notes := Some ["Intent market identity is derived because the source opportunity leg did not carry venue-native market metadata."] |}
  | Some identity => captureCanonicalMarketIdentity identity strategy_intent (Some "strategy_intent_builder") None
  end.

(** [toOpportunityId] brands a string. *)
Definition opportunity_id (o : CarryOpportunityCandidate) : string :=
  co_asset o +:+ "-" +:+ OpportunityType_str (co_type o) +:+ "-" +:+ z_str (co_detectedAt o).

Definition leg_intent (o : CarryOpportunityCandidate) (sleeveId positionSizeUsd : string) (timestamp : Z)
    (leg : OpportunityLeg) : exn OrderIntent :=
  sizeUnits ← computeLegSizeUnits leg positionSizeUsd;
  Ret {|
    oi_intentId := buildIntentId (co_asset o) (OpportunityType_str (co_type o)) (ol_side leg) timestamp;
    oi_venueId := ol_venueId leg; oi_asset := ol_asset leg; oi_side := order_side (ol_side leg);
    oi_type := market; oi_size := sizeUnits; oi_limitPrice := None; oi_opportunityId := opportunity_id o;
    oi_reduceOnly := false; oi_createdAt := timestamp;
    oi_metadata := attachCanonicalMarketIdentityToMetadata
      [("sleeveId", JStr sleeveId); ("opportunityType", JStr (OpportunityType_str (co_type o)));
       ("instrumentType", JStr (InstrumentType_str (ol_instrumentType leg)));
       ("legSide", JStr (PositionSide_str (ol_side leg))); ("estimatedPrice", JStr (ol_estimatedPrice leg));
       ("estimatedFee", JStr (ol_estimatedFee leg)); ("expectedAnnualYieldPct", JStr (co_expectedAnnualYieldPct o));
       ("netYieldPct", JStr (co_netYieldPct o)); ("positionSizeUsd", JStr positionSizeUsd)]
      (Some (intent_identity leg));
  |}.

(** [timestamp] is the reading of [Date.now()]. *)
Definition buildIntentsFromOpportunity (timestamp : Z) (o : CarryOpportunityCandidate)
    (sleeveId positionSizeUsd : string) : exn (list OrderIntent) :=
  map_exn (leg_intent o sleeveId positionSizeUsd timestamp) (co_legs o).
End IntentBuilder.

(** ** Types of pipeline.ts *)

Inductive PipelineMode := dry_run | live.
#[export] Instance PipelineMode_eq_dec : EqDecision PipelineMode.
Proof. solve_decision. Defined.

Record PipelineConfig := MkPipelineConfig {
  pc_mode : PipelineMode;
  pc_allowLiveExecution : option bool;
  pc_sleeveId : string;
  pc_scanIntervalMs : num;
  pc_maxIterations : option num;
}.

Inductive PipelineStage :=
| market_data_fetch | opportunity_detection | opportunity_evaluation | risk_assessment
| intent_generation | execution | reconciliation | reporting.
Definition PipelineStage_str (s : PipelineStage) : string :=
  match s with
  | market_data_fetch => "market_data_fetch" | opportunity_detection => "opportunity_detection"
  | opportunity_evaluation => "opportunity_evaluation" | risk_assessment => "risk_assessment"
  | intent_generation => "intent_generation" | execution => "execution"
  | reconciliation => "reconciliation" | reporting => "reporting"
  end.

Record PipelineResult := MkPipelineResult {
  pr_stage : PipelineStage;
  pr_success : bool;
  pr_opportunitiesDetected : Z;
  pr_opportunitiesApproved : Z;
  pr_intentsGenerated : Z;
  pr_intentsExecuted : Z;
  pr_errors : list string;
  pr_durationMs : Z;
  pr_timestamp : Z;
}.

Record PlannedIntentAssessment := MkAssessed {
  pia_intent : OrderIntent;
  pia_approved : bool;
  pia_assessment : RiskAssessment;
}.

Inductive EvaluationStage := threshold_filter | portfolio_optimizer.

Record OpportunityEvaluationRecord := MkEvaluation {
  oe_opportunity : CarryOpportunityCandidate;
  oe_approved : bool;
  oe_evaluationStage : EvaluationStage;
  oe_reason : string;
  oe_score : option OpportunityScoreBreakdown;
  oe_rationale : list string;
  oe_plannedNotionalUsd : option string;
}.

Record PlannedStrategyCycle := MkCycle {
  psc_opportunitiesDetected : list CarryOpportunityCandidate;
  psc_opportunitiesApproved : list CarryOpportunityCandidate;
  psc_opportunityEvaluations : list OpportunityEvaluationRecord;
  psc_intentsGenerated : list OrderIntent;
  psc_riskResults : list PlannedIntentAssessment;
  psc_approvedIntents : list OrderIntent;
  psc_rejectedIntents : list OrderIntent;
  psc_timestamp : Z;
}.

(** The adapters by venue, the audit writer (with the sleeve of the event), the
    clock and [crypto.randomUUID()]. *)
Class PipelineEnv (W : Type) := {
  pe_venues : list string;
  pe_isConnected : string -> W -> bool;
  pe_getMarketData : string -> string -> eff W MarketData;
  pe_placeOrder : string -> PlaceOrderParams -> eff W PlaceOrderResult;
  pe_audit : string -> AuditEvent -> eff W unit;
  pe_now : W -> Z * W;
  pe_uuid : W -> string * W;
}.

(** ** Pure stages *)

Section Stages.
Context `{DL : DecimalLib} `{Host : HostEnv}.
Context (config : PipelineConfig) (carryConfig : CarryConfig).

(** The funding snapshot of a venue's market data. *)
Definition funding_snapshot (md : MarketData) : FundingRateSnapshot :=
  let rate8h := parseFloat (md_fundingRate md) in
  let annualizedRate := n_toFixed 4 (n_mul (n_mul (n_mul rate8h (num_of_Z 3)) (num_of_Z 365)) (num_of_Z 100)) in
  {| fs_venueId := md_venue md; fs_asset := md_asset_ md; fs_rate8h := md_fundingRate md;
     fs_annualizedRate := annualizedRate; fs_markPrice := md_markPrice md;
     fs_nextFundingTime := md_nextFundingTime md; fs_timestamp := md_updatedAt md;
     fs_perpMarketIdentity := md_marketIdentity md; fs_spotMarketIdentity := None |}.

(** [t1] and [t2] are the clock readings of the two detectors. *)
Definition detectOpportunities (t1 t2 : Z) (marketData : list (string * list MarketData))
    : exn (list CarryOpportunityCandidate) :=
  let fundingSnapshots := map funding_snapshot (mjoin (jm_values marketData)) in
  fundingOpps ← detectFundingRateOpportunities t1 fundingSnapshots carryConfig;
  spreadOpps ← detectCrossVenueOpportunities t2 marketData carryConfig;
  Ret (fundingOpps ++ spreadOpps).

Definition rejected_evaluation (stage : EvaluationStage) (reason : string) (c : CarryOpportunityCandidate)
    : OpportunityEvaluationRecord := MkEvaluation c false stage reason None [] None.

(** The reason an opportunity is filtered out, if it is. *)
Definition filter_reason (now : Z) (c : CarryOpportunityCandidate) : option string :=
  if co_expiresAt c <=? now then Some "opportunity expired before portfolio evaluation"
  else if n_lt (co_confidenceScore c) (cc_minConfidenceScore carryConfig) then
    Some "confidence score below minimum threshold"
  else if n_lt (parseFloat (co_netYieldPct c)) (parseFloat (cc_minAnnualYieldPct carryConfig)) then
    Some "net yield below minimum threshold"
  else None.

Definition filter_evaluations (now : Z) (candidates : list CarryOpportunityCandidate) : list OpportunityEvaluationRecord :=
  omap (fun c => (fun reason => rejected_evaluation threshold_filter reason c) <$> filter_reason now c) candidates.
Definition filtered (now : Z) (candidates : list CarryOpportunityCandidate) : list CarryOpportunityCandidate :=
  List.filter (fun c => negb (bool_decide (is_Some (filter_reason now c)))) candidates.

(** The input of the optimizer; the entries of a map in some order. *)
Definition optimizer_input (portfolioState : PortfolioState) (opportunities : list CarryOpportunityCandidate)
    : PortfolioOptimizationInput := {|
  poi_opportunities := opportunities;
  poi_sleeveNav := or_else (sleeveNav portfolioState !! pc_sleeveId config) (totalNav portfolioState);
  poi_currentGrossExposureUsd := grossExposure portfolioState;
  poi_currentOpenPositions := Z_of_num (openPositionCount portfolioState);
  poi_currentAssetExposureUsd := map_to_list (assetExposures portfolioState);
  poi_currentVenueExposureUsd := map_to_list (venueExposures portfolioState);
  poi_config := carryConfig;
|}.

Definition selected_evaluation (a : PortfolioCapitalAllocation) : OpportunityEvaluationRecord :=
  MkEvaluation (pa_opportunity a) true portfolio_optimizer "selected by portfolio optimizer"
    (Some (pa_score a)) (pa_rationale a) (Some (pa_positionSizeUsd a)).

Definition evaluateOpportunities (now : Z) (candidates : list CarryOpportunityCandidate) (portfolioState : PortfolioState)
    : exn (list CarryOpportunityCandidate * list OpportunityEvaluationRecord * list PortfolioCapitalAllocation) :=
  optimized ← optimizeCarryPortfolio (optimizer_input portfolioState (filtered now candidates));
  let evaluations := filter_evaluations now candidates ++ map selected_evaluation (por_selected optimized) ++
    map (fun r => rejected_evaluation portfolio_optimizer (rd_reason r) (rd_opportunity r)) (por_rejected optimized) in
  Ret (map pa_opportunity (por_selected optimized), evaluations, por_selected optimized).

(** The context in which an intent is assessed; [t] reads the clock. *)
Definition intent_context (t : Z) (intent : OrderIntent) : OrderIntentContext :=
  let positionSizeUsd := js_String (nullish (rec_get (oi_metadata intent) "positionSizeUsd") (JStr "1000")) in
  {| ctx_intent := intent; ctx_venueId := oi_venueId intent; ctx_assetSymbol := oi_asset intent;
     ctx_positionSizeUsd := positionSizeUsd;
     ctx_deltaUsd := if decide (oi_side intent = buy) then positionSizeUsd else "-" +:+ positionSizeUsd;
     ctx_requiredMarginUsd := positionSizeUsd; ctx_lastPriceUpdate := t |}.

(** The parameters of an order placed for an intent. *)
Definition place_params (intent : OrderIntent) : PlaceOrderParams := {|
  pp_clientOrderId := oi_intentId intent; pp_asset := oi_asset intent; pp_side := oi_side intent;
  pp_type := oi_type intent; pp_size := oi_size intent; pp_price := oi_limitPrice intent;
  pp_reduceOnly := oi_reduceOnly intent; pp_postOnly := false; pp_marketIdentity := None |}.
End Stages.

(** ** The cycle *)

Section Cycle.
Context `{DL : DecimalLib} `{Host : HostEnv} {W : Type} (PE : PipelineEnv W).
Context (config : PipelineConfig) (limits : RiskLimits) (circuitBreakers : Registry) (carryConfig : CarryConfig).

Definition clock : eff W Z := fun w => let '(t, w') := pe_now w in (Ret t, w').
Definition uuid : eff W string := fun w => let '(i, w') := pe_uuid w in (Ret i, w').

(** Adds the market data of an asset, or leaves it out when the adapter throws. *)
Definition fetch_asset (venueId : string) (result : list (string * list MarketData)) (asset : string)
    : eff W (list (string * list MarketData)) :=
  catch_eff (md ← pe_getMarketData venueId asset;
             mret (jm_set asset (or_else (jm_get asset result) [] ++ [md]) result))
            (fun _ => mret result).

Definition fetch_venue (result : list (string * list MarketData)) (venueId : string)
    : eff W (list (string * list MarketData)) :=
  w ← get_state;
  if negb (pe_isConnected venueId w) then mret result
  else fold_eff (fetch_asset venueId) result (cc_approvedAssets carryConfig).

Definition fetchMarketData : eff W (list (string * list MarketData)) := fold_eff fetch_venue [] pe_venues.

Definition generateIntents (allocations : list PortfolioCapitalAllocation) : eff W (list OrderIntent) :=
  fold_eff (fun intents allocation =>
    t ← clock;
    legIntents ← lift_exn (buildIntentsFromOpportunity t (pa_opportunity allocation) (pc_sleeveId config)
                             (pa_positionSizeUsd allocation));
    mret (intents ++ legIntents)) [] allocations.

(** One intent; the engine reads the clock of its own. *)
Definition assess_intent (portfolioState : PortfolioState) (intent : OrderIntent) : eff W PlannedIntentAssessment :=
  t ← clock;
  now ← clock;
  assessment ← lift_exn (assessOrderIntent limits circuitBreakers now (intent_context t intent) portfolioState);
  mret (MkAssessed intent (bool_decide (ra_overallStatus assessment <> failed_)) assessment).

Definition runRiskChecks (portfolioState : PortfolioState) (intents : list OrderIntent) : eff W (list PlannedIntentAssessment) :=
  fold_eff (fun results intent => r ← assess_intent portfolioState intent; mret (results ++ [r])) [] intents.

Definition planCycle (portfolioState : PortfolioState) : eff W PlannedStrategyCycle :=
  marketData ← fetchMarketData;
  t1 ← clock;
  t2 ← clock;
  candidates ← lift_exn (detectOpportunities carryConfig t1 t2 marketData);
  now ← clock;
  evaluated ← lift_exn (evaluateOpportunities config carryConfig now candidates portfolioState);
  let '(approved, evaluations, allocations) := evaluated in
  intents ← generateIntents allocations;
  riskResults ← runRiskChecks portfolioState intents;
  t ← clock;
  mret {|
    psc_opportunitiesDetected := candidates;
    psc_opportunitiesApproved := approved;
    psc_opportunityEvaluations := evaluations;
    psc_intentsGenerated := intents;
    psc_riskResults := riskResults;
    psc_approvedIntents := map pia_intent (List.filter pia_approved riskResults);
    psc_rejectedIntents := map pia_intent (List.filter (fun r => negb (pia_approved r)) riskResults);
    psc_timestamp := t;
  |}.

Definition write_event (eventType : string) (data : record_) : eff W unit :=
  id ← uuid;
  t ← clock;
  pe_audit (pc_sleeveId config) (MkAuditEvent id eventType (toISOString t) "strategy-pipeline" data).

Definition execute_intent (intent : OrderIntent) : eff W unit :=
  if decide (pc_mode config = dry_run) then
    write_event "pipeline.intent_dry_run"
      [("intentId", JStr (oi_intentId intent)); ("venueId", JStr (oi_venueId intent)); ("asset", JStr (oi_asset intent));
       ("side", JStr (OrderSide_str (oi_side intent))); ("size", JStr (oi_size intent));
       ("type", JStr (OrderType_str (oi_type intent))); ("opportunityId", JStr (oi_opportunityId intent))]
  else if negb (bool_decide (oi_venueId intent ∈ pe_venues)) then mret tt
  else
    catch_eff (orderResult ← pe_placeOrder (oi_venueId intent) (place_params intent);
               write_event "pipeline.order_submitted"
                 [("intentId", JStr (oi_intentId intent)); ("venueOrderId", JStr (pr_venueOrderId orderResult));
                  ("status", JStr (venue_status_str (Executor.pr_status orderResult)));
                  ("filledSize", JStr (pr_filledSize orderResult));
                  ("averageFillPrice", JStrNull (pr_averageFillPrice orderResult));
                  ("fees", JStrNull (pr_fees orderResult))])
              (fun _ => mret tt).

Definition executeIntents (approved : list OrderIntent) : eff W unit :=
  if bool_decide (pc_mode config = live) && negb (bool_decide (pc_allowLiveExecution config = Some true)) then
    throw_eff (Error_ ("StrategyPipeline.executeIntents: live execution is disabled. " +:+
      "Set allowLiveExecution=true to permit venue order submission."))
  else each_eff execute_intent approved.

(** The result of a cycle that failed in [stage] with [e]. *)
Definition cycle_failed (cycleStart : Z) (stage : PipelineStage) (detected approved generated : Z) (e : JsError)
    : eff W PipelineResult :=
  t ← clock;
  now ← clock;
  mret (MkPipelineResult stage false detected approved generated 0
    ["[" +:+ PipelineStage_str stage +:+ "] " +:+ err_message e] (t - cycleStart) now).

Definition zlen {A} (l : list A) : Z := Z.of_nat (length l).

(** What the cycle does after planning. *)
Definition finish_cycle (cycleStart : Z) (plannedCycle : PlannedStrategyCycle) : eff W PipelineResult :=
  let detected := zlen (psc_opportunitiesDetected plannedCycle) in
  let approved := zlen (psc_opportunitiesApproved plannedCycle) in
  let generated := zlen (psc_intentsGenerated plannedCycle) in
  let approvedIntents := psc_approvedIntents plannedCycle in
  settle (id ← uuid;
          t ← clock;
          t' ← clock;
          pe_audit (pc_sleeveId config) (MkAuditEvent id "pipeline.risk_assessment_complete" (toISOString t) "strategy-pipeline"
            [("cycleTimestamp", JStr (toISOString t')); ("totalIntents", JInt generated);
             ("approvedIntents", JInt (zlen approvedIntents)); ("rejectedIntents", JInt (generated - zlen approvedIntents))]))
    (fun r => match r with
      | Throw e => cycle_failed cycleStart market_data_fetch detected approved generated e
      | Ret _ =>
          settle (executeIntents approvedIntents) (fun r => match r with
            | Throw e => cycle_failed cycleStart execution detected approved generated e
            | Ret _ =>
                t ← clock;
                now ← clock;
                mret (MkPipelineResult reporting true detected approved generated (zlen approvedIntents) []
                        (t - cycleStart) now)
            end)
      end).

Definition runCycle (portfolioState : PortfolioState) : eff W PipelineResult :=
  cycleStart ← clock;
  settle (planCycle portfolioState) (fun r => match r with
    | Throw e => cycle_failed cycleStart market_data_fetch 0 0 0 e
    | Ret plannedCycle => finish_cycle cycleStart plannedCycle
    end).
End Cycle.

(** ** What a planned cycle contains *)

Section Planned.
Context `{DL : DecimalLib} `{Host : HostEnv} {W : Type} (PE : PipelineEnv W).
Context (config : PipelineConfig) (limits : RiskLimits) (circuitBreakers : Registry) (carryConfig : CarryConfig).

(** [r] is an assessment of its intent against [state], at some times. *)
Definition assessed (state : PortfolioState) (r : PlannedIntentAssessment) : Prop :=
  exists t now, assessOrderIntent limits circuitBreakers now (intent_context t (pia_intent r)) state = Ret (pia_assessment r) /\
    pia_approved r = bool_decide (ra_overallStatus (pia_assessment r) <> failed_).

Lemma lift_exn_ret {S A} (m : exn A) (a : A) (s s' : S) : lift_exn m s = (Ret a, s') -> m = Ret a /\ s' = s.
Proof. unfold lift_exn. by intros [= -> <-]. Qed.

(** [eff_ret H as x s E]: the value [x] of the first computation of a bind that returned. *)
Ltac eff_got H x s E := let e := fresh in apply eff_bind_inv in H; destruct H as [(e & _ & H)|(x & s & E & H)]; [discriminate H|].

Lemma assess_intent_ret state intent w r w' :
  assess_intent PE limits circuitBreakers state intent w = (Ret r, w') -> pia_intent r = intent /\ assessed state r.
Proof.
  intros H. unfold assess_intent in H. eff_got H t w1 E1. eff_got H now w2 E2. eff_got H a w3 E3. injection H as <- _.
  apply lift_exn_ret in E3 as [E3 _]. split; [done|]. by exists t, now.
Qed.

Lemma risk_checks_ret state intents w rs w' : runRiskChecks PE limits circuitBreakers state intents w = (Ret rs, w') ->
  map pia_intent rs = intents /\ Forall (assessed state) rs.
Proof.
  unfold runRiskChecks. cut (forall acc w, fold_eff (fun results intent =>
    r ← assess_intent PE limits circuitBreakers state intent; mret (results ++ [r])) acc intents w = (Ret rs, w') ->
    exists rs', rs = acc ++ rs' /\ map pia_intent rs' = intents /\ Forall (assessed state) rs').
  { intros Hc H. by destruct (Hc [] w H) as (rs' & -> & ? & ?). }
  induction intents as [|intent intents IH]; intros acc w0 H; cbn [fold_eff] in H.
  - injection H as <- _. exists []. by rewrite app_nil_r.
  - eff_got H acc' w1 E1. eff_got E1 r w2 E2. injection E1 as <- _.
    apply assess_intent_ret in E2 as [Ei Ha]. destruct (IH _ _ H) as (rs' & -> & Hm & Hf).
    exists (r :: rs'). rewrite <- app_assoc. split_and!; [done|cbn; by rewrite Ei, Hm|by constructor].
Qed.

(** The intents of a list of allocations are those of their legs. *)
Definition leg_of (allocations : list PortfolioCapitalAllocation) (intent : OrderIntent) : Prop :=
  exists a leg t, a ∈ allocations /\ leg ∈ co_legs (pa_opportunity a) /\
    leg_intent (pa_opportunity a) (pc_sleeveId config) (pa_positionSizeUsd a) t leg = Ret intent.

Lemma generate_ret allocations w intents w' : generateIntents PE config allocations w = (Ret intents, w') ->
  Forall (leg_of allocations) intents /\
  length intents = sum_list (map (fun a => length (co_legs (pa_opportunity a))) allocations).
Proof.
  unfold generateIntents. set (f := fun _ _ => _ ≫= _).
  cut (forall all acc w, (forall a, a ∈ allocations -> a ∈ all) -> fold_eff f acc allocations w = (Ret intents, w') ->
    exists new, intents = acc ++ new /\ Forall (leg_of all) new /\
      length new = sum_list (map (fun a => length (co_legs (pa_opportunity a))) allocations)).
  { intros Hc H. destruct (Hc allocations [] w (fun _ x => x) H) as (new & -> & ? & ?). done. }
  intros all. induction allocations as [|a allocations IH]; intros acc w0 Hall H; cbn [fold_eff] in H.
  - injection H as <- _. exists []. rewrite app_nil_r. split_and!; [done|constructor|done].
  - eff_got H acc' w1 E1. unfold f in E1. eff_got E1 t w2 E2. eff_got E1 legs w3 E3. injection E1 as <- _.
    apply lift_exn_ret in E3 as [E3 _]. apply map_exn_Forall2 in E3.
    destruct (IH (acc ++ legs) w1) as (new & -> & Hf & Hl); [intros a' ?; apply Hall; by right|exact H|].
    exists (legs ++ new). split_and!; [by rewrite app_assoc| |].
    + apply Forall_app. split; [|done]. apply Forall_forall. intros i Hi.
      apply list_elem_of_lookup in Hi as [n Hn]. destruct (Forall2_lookup_r _ _ _ _ _ E3 Hn) as (leg & Hleg & El).
      exists a, leg, t. split_and!; [apply Hall; by left|by eapply list_elem_of_lookup_2|done].
    + rewrite length_app, Hl, <- (Forall2_length _ _ _ E3). done.
Qed.

(** The parts of a planned cycle. *)
Lemma planCycle_ret state w c w' : planCycle PE config limits circuitBreakers carryConfig state w = (Ret c, w') ->
  exists md t1 t2 now allocations,
    detectOpportunities carryConfig t1 t2 md = Ret (psc_opportunitiesDetected c) /\
    evaluateOpportunities config carryConfig now (psc_opportunitiesDetected c) state =
      Ret (psc_opportunitiesApproved c, psc_opportunityEvaluations c, allocations) /\
    Forall (leg_of allocations) (psc_intentsGenerated c) /\
    length (psc_intentsGenerated c) = sum_list (map (fun a => length (co_legs (pa_opportunity a))) allocations) /\
    map pia_intent (psc_riskResults c) = psc_intentsGenerated c /\ Forall (assessed state) (psc_riskResults c) /\
    psc_approvedIntents c = map pia_intent (List.filter pia_approved (psc_riskResults c)) /\
    psc_rejectedIntents c = map pia_intent (List.filter (fun r => negb (pia_approved r)) (psc_riskResults c)).
Proof.
  intros H. unfold planCycle in H. eff_got H md w1 E1. eff_got H t1 w2 E2. eff_got H t2 w3 E3. eff_got H cands w4 E4.
  eff_got H now w5 E5. eff_got H ev w6 E6. destruct ev as [[approved evals] allocations].
  eff_got H intents w7 E7. eff_got H rs w8 E8. eff_got H t w9 E9. injection H as <- _. cbn.
  apply lift_exn_ret in E4 as [E4 _], E6 as [E6 _]. apply generate_ret in E7 as [? ?]. apply risk_checks_ret in E8 as [? ?].
  by exists md, t1, t2, now, allocations.
Qed.

Lemma detected_sound t1 t2 md l c : detectOpportunities carryConfig t1 t2 md = Ret l -> c ∈ l ->
  exists now, candidate_sound carryConfig now c.
Proof.
  intros H Hc. unfold detectOpportunities in H. exn_inv H as l1 E1. exn_inv H as l2 E2. injection H as <-.
  apply elem_of_app in Hc as [Hc|Hc].
  - destruct (detect_funding_sound _ _ _ _ _ E1 Hc) as [? _]. eauto.
  - destruct (detect_spread_sound _ _ _ _ _ E2 Hc) as [? _]. eauto.
Qed.

(** The evaluations: those filtered out, the selected and the rejected ones. *)
Lemma evaluations_account now cands state approved evals allocs :
  evaluateOpportunities config carryConfig now cands state = Ret (approved, evals, allocs) ->
  map oe_opportunity evals ≡ₚ cands /\ map oe_opportunity (List.filter oe_approved evals) = approved /\
  approved = map pa_opportunity allocs /\
  Forall (fun o => o ∈ cands /\ filter_reason carryConfig now o = None) approved.
Proof.
  intros H. unfold evaluateOpportunities in H. exn_inv H as r Er. injection H as <- <- <-.
  pose proof (optimize_accounts _ _ Er) as Hperm. cbn [poi_opportunities optimizer_input] in Hperm.
  assert (Hf : map oe_opportunity (filter_evaluations carryConfig now cands) ++ filtered carryConfig now cands ≡ₚ cands).
  { clear. unfold filter_evaluations, filtered. induction cands as [|c cands IH]; [done|]. cbn [omap list_omap List.filter].
    destruct (filter_reason carryConfig now c) as [reason|] eqn:E; cbn [fmap option_fmap option_map].
    - rewrite bool_decide_true by by eexists. cbn. by rewrite IH.
    - rewrite bool_decide_false by by intros [? ?]. cbn [negb]. by rewrite <- Permutation_middle, IH. }
  split_and!.
  - rewrite !map_app, !map_map. rewrite <- Hf at 2. by rewrite <- Hperm.
  - rewrite !List.filter_app, !map_app.
    assert (forall (A : Type) (f : A -> OpportunityEvaluationRecord) l, (forall a, oe_approved (f a) = false) ->
      List.filter oe_approved (map f l) = []) as Hno.
    { intros A f l Hf0. induction l as [|a l IH]; [done|]. cbn. by rewrite Hf0. }
    rewrite (Hno OpportunityRejectionDecision) by done. rewrite app_nil_r.
    assert (List.filter oe_approved (filter_evaluations carryConfig now cands) = []) as ->.
    { unfold filter_evaluations. clear. induction cands as [|c cands IH]; [done|]. cbn [omap list_omap].
      destruct (filter_reason carryConfig now c); exact IH. }
    cbn [map app]. clear. induction (por_selected r) as [|a l IH]; [done|]. cbn. by rewrite IH.
  - done.
  - apply Forall_forall. intros o Ho. assert (Hin : o ∈ filtered carryConfig now cands).
    { rewrite <- Hperm. apply elem_of_app. by left. }
    apply list_elem_of_In, filter_In in Hin as [Hin%list_elem_of_In Hr]. split; [done|].
    destruct (filter_reason carryConfig now o); [|done]. by rewrite bool_decide_true in Hr by by eexists.
Qed.

(** An approved assessment is one within every limit, with no breaker open. *)
Lemma assessed_within state res : assessed state res -> exists t now,
  assessOrderIntent limits circuitBreakers now (intent_context t (pia_intent res)) state = Ret (pia_assessment res) /\
  pia_approved res = bool_decide (ra_overallStatus (pia_assessment res) <> failed_) /\
  (pia_approved res = true -> isAnyOpen circuitBreakers = false /\
     within_limits limits now (intent_context t (pia_intent res)) state).
Proof.
  intros (t & now & Ea & Es). exists t, now. split; [done|]. split; [done|]. rewrite Es. intros Hok%bool_decide_eq_true.
  by destruct (assessment_within_limits _ _ _ _ _ _ Ea Hok) as (? & _ & ?).
Qed.

(** The intents come from the selected evaluations, at the planned notional. *)
Lemma leg_selected now cands state approved evals allocs intent :
  evaluateOpportunities config carryConfig now cands state = Ret (approved, evals, allocs) -> leg_of allocs intent ->
  exists e leg size t, e ∈ evals /\ oe_approved e = true /\ oe_opportunity e ∈ cands /\ oe_plannedNotionalUsd e = Some size /\
    leg ∈ co_legs (oe_opportunity e) /\ leg_intent (oe_opportunity e) (pc_sleeveId config) size t leg = Ret intent.
Proof.
  intros H (a & leg & t & Ha & Hleg & E). destruct (evaluations_account _ _ _ _ _ _ H) as (_ & _ & Happ & Hin).
  exists (selected_evaluation a), leg, (pa_positionSizeUsd a), t. split_and!; [|done| |done|done|done].
  - unfold evaluateOpportunities in H. exn_inv H as r Er. injection H as <- <- <-.
    rewrite !elem_of_app, !list_elem_of_fmap. right. left. by exists a.
  - apply (proj1 (Forall_forall _ _) Hin). rewrite Happ. apply list_elem_of_fmap. by exists a.
Qed.

(** A planned cycle accounts for everything it detected: every detected
    opportunity has one evaluation, the approved ones are those evaluated so,
    none of them expired, short of confidence or of yield at the time of the
    evaluation; and the intents are two per approved opportunity, each the
    market order of one of its legs, split into the approved and the rejected. *)
Theorem every_candidate_evaluated (state : PortfolioState) (w w' : W) (c : PlannedStrategyCycle)
    (H : planCycle PE config limits circuitBreakers carryConfig state w = (Ret c, w')) :
  map oe_opportunity (psc_opportunityEvaluations c) ≡ₚ psc_opportunitiesDetected c /\
  map oe_opportunity (List.filter oe_approved (psc_opportunityEvaluations c)) = psc_opportunitiesApproved c /\
  (exists now, Forall (fun o => filter_reason carryConfig now o = None) (psc_opportunitiesApproved c)) /\
  length (psc_intentsGenerated c) = (2 * length (psc_opportunitiesApproved c))%nat /\
  Forall (fun i => exists o leg, o ∈ psc_opportunitiesApproved c /\ leg ∈ co_legs o /\
    oi_venueId i = ol_venueId leg /\ oi_asset i = co_asset o /\ oi_side i = order_side (ol_side leg) /\
    oi_type i = market /\ oi_reduceOnly i = false /\ oi_opportunityId i = opportunity_id o) (psc_intentsGenerated c) /\
  psc_approvedIntents c ++ psc_rejectedIntents c ≡ₚ psc_intentsGenerated c.
Proof.
  apply planCycle_ret in H as (md & t1 & t2 & now & allocs & Hd & He & Hi & Hlen & Hr & _ & Ha & Hrej).
  destruct (evaluations_account _ _ _ _ _ _ He) as (H1 & H2 & H3 & H4).
  assert (Hsound : forall o, o ∈ psc_opportunitiesApproved c -> exists t, candidate_sound carryConfig t o).
  { intros o Ho. apply (detected_sound _ _ _ _ _ Hd). by apply (proj1 (Forall_forall _ _) H4 o Ho). }
  split_and!; [done|done| | | |].
  - exists now. eapply Forall_impl; [exact H4|]. by intros o [_ ?].
  - rewrite Hlen, H3 in *. clear -Hsound. induction allocs as [|a l IH]; [done|]. cbn [map sum_list length].
    destruct (Hsound (pa_opportunity a)) as (t & [(x & y & E & _) _ _ _ _]); [left|].
    cbn [sum_list_with] in *. rewrite IH by (intros o Ho; apply Hsound; by right). rewrite E. cbn. lia.
  - eapply Forall_impl; [exact Hi|]. intros i (a & leg & t & Hin & Hleg & El). unfold leg_intent in El. exn_inv El as s Es.
    injection El as <-. exists (pa_opportunity a), leg. cbn. assert (Hap : pa_opportunity a ∈ psc_opportunitiesApproved c).
    { rewrite H3. apply list_elem_of_fmap. by exists a. }
    split_and!; try done. destruct (Hsound _ Hap) as (t' & [(x & y & E & _ & A1 & A2 & _) _ _ _ _]).
    rewrite E, !elem_of_cons, elem_of_nil in Hleg. destruct Hleg as [-> |[-> |[]]]; done.
  - rewrite Ha, Hrej, <- map_app, filter_split. by rewrite Hr.
Qed.
End Planned.

(** ** Only assessed intents reach a venue *)

Section Orders.
Context `{DL : DecimalLib} `{Host : HostEnv} {W : Type} (PE : PipelineEnv W).
Context (config : PipelineConfig) (limits : RiskLimits) (circuitBreakers : Registry) (carryConfig : CarryConfig).
Abbreviation placed_order := (string * PlaceOrderParams)%type.
Abbreviation St := (W * list placed_order)%type.

Definition on_env {A} (m : eff W A) : eff St A := fun s => let '(r, w') := m s.1 in (r, (w', s.2)).

(** The environment, recording every order sent to an adapter. *)
#[local] Instance recording : PipelineEnv St := {|
  pe_venues := pe_venues;
  pe_isConnected := fun v s => pe_isConnected v s.1;
  pe_getMarketData := fun v a => on_env (pe_getMarketData v a);
  pe_placeOrder := fun v p s => let '(r, w') := pe_placeOrder v p s.1 in (r, (w', s.2 ++ [(v, p)]));
  pe_audit := fun sl ev => on_env (pe_audit sl ev);
  pe_now := fun s => let '(t, w') := pe_now s.1 in (t, (w', s.2));
  pe_uuid := fun s => let '(i, w') := pe_uuid s.1 in (i, (w', s.2));
|}.

(** [m] sends no order. *)
Definition quiet {A} (m : eff St A) : Prop := forall w log, exists r w', m (w, log) = (r, (w', log)).

Lemma quiet_ret {A} (a : A) : quiet (mret a).
Proof. intros w log. by eexists _, _. Qed.

Lemma quiet_lift {A} (m : exn A) : quiet (lift_exn m).
Proof. intros w log. by eexists _, _. Qed.

Lemma quiet_env {A} (m : eff W A) : quiet (on_env m).
Proof. intros w log. unfold on_env. cbn. destruct (m w) as [r w']. by eexists _, _. Qed.

Lemma quiet_bind {A B} (m : eff St A) (f : A -> eff St B) : quiet m -> (forall a, quiet (f a)) -> quiet (m ≫= f).
Proof.
  intros Hm Hf w log. destruct (Hm w log) as (r & w' & E). unfold mbind, eff_bind. rewrite E.
  destruct r as [a|e]; [apply Hf|by eexists _, _].
Qed.

Lemma quiet_catch {A} (m : eff St A) h : quiet m -> (forall e, quiet (h e)) -> quiet (catch_eff m h).
Proof.
  intros Hm Hh w log. destruct (Hm w log) as (r & w' & E). unfold catch_eff. rewrite E.
  destruct r as [a|e]; [by eexists _, _|apply Hh].
Qed.

Lemma quiet_fold {A B} (f : B -> A -> eff St B) : (forall b a, quiet (f b a)) -> forall l b, quiet (fold_eff f b l).
Proof.
  intros Hf l. induction l as [|a l IH]; intros b; cbn [fold_eff]; [apply quiet_ret|]. apply quiet_bind; auto.
Qed.

Lemma quiet_clock : quiet (clock recording).
Proof. intros w log. unfold clock. cbn. destruct (pe_now w) as [t w']. by eexists _, _. Qed.

Lemma quiet_uuid : quiet (uuid recording).
Proof. intros w log. unfold uuid. cbn. destruct (pe_uuid w) as [t w']. by eexists _, _. Qed.

#[local] Hint Resolve quiet_ret quiet_lift quiet_env quiet_clock quiet_uuid : quiet.
Ltac quiet := repeat first [ solve [eauto with quiet] | apply quiet_bind; [|intros ?] | apply quiet_catch; [|intros ?]
  | apply quiet_fold; intros ? ? | case_match ].

Lemma quiet_fetch : quiet (fetchMarketData recording carryConfig).
Proof.
  unfold fetchMarketData. apply quiet_fold. intros result v. unfold fetch_venue. apply quiet_bind.
  { intros w log. by eexists _, _. }
  intros s. case_match; [quiet|]. apply quiet_fold. intros res a. unfold fetch_asset. apply quiet_catch; [|quiet].
  apply quiet_bind; [exact (quiet_env _)|quiet].
Qed.

Lemma quiet_assess state intent : quiet (assess_intent recording limits circuitBreakers state intent).
Proof. unfold assess_intent. quiet. Qed.
#[local] Hint Resolve quiet_fetch quiet_assess : quiet.

Lemma quiet_plan state : quiet (planCycle recording config limits circuitBreakers carryConfig state).
Proof.
  unfold planCycle, generateIntents, runRiskChecks. quiet.
Qed.

Lemma quiet_event t d : quiet (write_event recording config t d).
Proof. unfold write_event. apply quiet_bind; [quiet|intros i]. apply quiet_bind; [quiet|intros t']. exact (quiet_env _). Qed.

Lemma failed_executes_nothing start stage a b c e w log : exists r w',
  cycle_failed recording start stage a b c e (w, log) = (Ret r, (w', log)) /\ pr_intentsExecuted r = 0.
Proof.
  unfold cycle_failed, clock, mbind, eff_bind. cbn. destruct (pe_now w) as [t w1]. cbn. destruct (pe_now w1) as [t' w2]. cbn. by eexists _, _.
Qed.

Definition sent (intent : OrderIntent) : placed_order := (oi_venueId intent, place_params intent).
Definition reachable_venue (intent : OrderIntent) : bool := bool_decide (oi_venueId intent ∈ pe_venues (PipelineEnv := PE)).

(** In live mode every approved intent of a known venue is sent once, in order. *)
Lemma execute_sends intents : pc_mode config = live -> forall w log, exists w',
  each_eff (execute_intent recording config) intents (w, log) =
    (Ret tt, (w', log ++ map sent (List.filter reachable_venue intents))).
Proof.
  intros Hm. unfold each_eff. induction intents as [|i intents IH]; intros w log; cbn [fold_eff List.filter].
  - exists w. by rewrite app_nil_r.
  - assert (exists w1, execute_intent recording config i (w, log) =
      (Ret tt, (w1, log ++ map sent (if reachable_venue i then [i] else [])))) as [w1 E].
    { unfold execute_intent. rewrite decide_False by by rewrite Hm. unfold reachable_venue. cbn [pe_venues recording].
      case_bool_decide; cbn [negb]; [|exists w; by rewrite app_nil_r].
      unfold catch_eff, mbind, eff_bind. cbn [pe_placeOrder recording fst snd].
      destruct (pe_placeOrder (oi_venueId i) (place_params i) w) as [[r|e] w1]; [|by exists w1].
      match goal with |- context [write_event _ _ ?a ?d] => destruct (quiet_event a d w1 (log ++ [sent i])) as ([[]|e] & w2 & Ee) end;
        unfold sent in *; rewrite Ee; by exists w2. }
    unfold mbind, eff_bind. rewrite E. destruct (IH w1 (log ++ map sent (if reachable_venue i then [i] else []))) as [w2 E2].
    exists w2. rewrite E2, <- app_assoc, <- map_app. by destruct (reachable_venue i).
Qed.

(** The orders of a finished cycle: none, or the approved intents in live mode. *)
Definition orders_of (cycle : PlannedStrategyCycle) (placed : list placed_order) : Prop :=
  placed = [] \/ (pc_mode config = live /\ pc_allowLiveExecution config = Some true /\
                  placed = map sent (List.filter reachable_venue (psc_approvedIntents cycle))).

Lemma quiet_dry_run intents : pc_mode config = dry_run -> quiet (each_eff (execute_intent recording config) intents).
Proof. intros Hm. apply quiet_fold. intros _ i. unfold execute_intent. rewrite decide_True by done. apply quiet_event. Qed.

Lemma finish_cycle_sends start cycle w log : exists r w' placed,
  finish_cycle recording config start cycle (w, log) = (Ret r, (w', log ++ placed)) /\
  orders_of cycle placed /\ Z.of_nat (length placed) <= pr_intentsExecuted r.
Proof.
  assert (Hfail : forall stage a b c e w1, exists r w' placed,
    cycle_failed recording start stage a b c e (w1, log) = (Ret r, (w', log ++ placed)) /\
    orders_of cycle placed /\ Z.of_nat (length placed) <= pr_intentsExecuted r).
  { intros. destruct (failed_executes_nothing start stage a b c e w1 log) as (r & w' & E & Hr).
    exists r, w', []. rewrite app_nil_r, Hr. split_and!; [done|by left|done]. }
  assert (Hok : forall a b c n placed log' w1, log' = log ++ placed -> orders_of cycle placed -> Z.of_nat (length placed) <= n -> exists r w' placed',
    (t ← clock recording; now ← clock recording; mret (MkPipelineResult reporting true a b c n [] (t - start) now))
      (w1, log') = (Ret r, (w', log ++ placed')) /\ orders_of cycle placed' /\ Z.of_nat (length placed') <= pr_intentsExecuted r).
  { intros a b c n placed log' w1 -> Ho Hn. unfold clock, mbind, eff_bind. cbn. destruct (pe_now w1) as [t w2]. cbn.
    destruct (pe_now w2) as [t' w3]. cbn. by eexists _, _, placed. }
  unfold finish_cycle. unfold settle at 1.
  match goal with |- context [let '(r, s') := ?m (w, log) in _] => assert (quiet m) as Hq end.
  { apply quiet_bind; [apply quiet_uuid|intros ?]. apply quiet_bind; [apply quiet_clock|intros ?].
    apply quiet_bind; [apply quiet_clock|intros ?]. exact (quiet_env _). }
  destruct (Hq w log) as (r1 & w1 & E1). rewrite E1. clear Hq E1. destruct r1 as [[]|e]; [|apply Hfail].
  unfold settle. unfold executeIntents. destruct (pc_mode config) eqn:Hm; cbn [bool_decide andb].
  - destruct (quiet_dry_run (psc_approvedIntents cycle) Hm w1 log) as (r2 & w2 & E2).
    rewrite (bool_decide_false (dry_run = live)) by done. cbn [andb]. rewrite E2.
    destruct r2 as [[]|e]; [|apply Hfail]. apply (Hok _ _ _ _ []); [by rewrite app_nil_r|by left|unfold zlen; cbn; lia].
  - rewrite (bool_decide_true (live = live)) by done. cbn [andb]. case_bool_decide as Ha; cbn [negb]; [|apply Hfail].
    destruct (execute_sends (psc_approvedIntents cycle) Hm w1 log) as (w2 & E2). rewrite E2.
    eapply Hok; [reflexivity|by right|]. rewrite length_map. unfold zlen. apply inj_le, List.filter_length_le.
Qed.

(** C4. Nothing reaches a venue unassessed: in whatever way the adapters, the
    audit trail and the clock answer, a cycle returns a result.  Its planning
    sends nothing, and when it throws the cycle sends nothing either.
    Otherwise the cycle sends nothing, or it is live with live execution
    allowed and sends, in their order and once each, the approved intents of
    this plan whose venue has an adapter.  The approved intents are those
    generated intents whose own assessment by the risk engine on the given
    portfolio did not fail, so that no circuit breaker is open and they are
    within every limit; and every generated intent is a leg of an opportunity
    detected in this cycle and selected, with the notional it was selected
    with.  The orders sent are no more than the result says were executed. *)
Theorem only_assessed_intents_placed (state : PortfolioState) (w : W) (log : list placed_order) :
  exists start w0 rp w1 r w' placed,
    clock recording (w, log) = (Ret start, (w0, log)) /\
    planCycle recording config limits circuitBreakers carryConfig state (w0, log) = (rp, (w1, log)) /\
    runCycle recording config limits circuitBreakers carryConfig state (w, log) = (Ret r, (w', log ++ placed)) /\
    Z.of_nat (length placed) <= pr_intentsExecuted r /\
    match rp with
    | Throw _ => placed = []
    | Ret cycle =>
        (placed = [] \/ pc_mode config = live /\ pc_allowLiveExecution config = Some true /\
           placed = map sent (List.filter reachable_venue (psc_approvedIntents cycle))) /\
        psc_approvedIntents cycle = map pia_intent (List.filter pia_approved (psc_riskResults cycle)) /\
        map pia_intent (psc_riskResults cycle) = psc_intentsGenerated cycle /\
        Forall (fun res => exists t now,
          assessOrderIntent limits circuitBreakers now (intent_context t (pia_intent res)) state = Ret (pia_assessment res) /\
          pia_approved res = bool_decide (ra_overallStatus (pia_assessment res) <> failed_) /\
          (pia_approved res = true -> isAnyOpen circuitBreakers = false /\
             within_limits limits now (intent_context t (pia_intent res)) state)) (psc_riskResults cycle) /\
        Forall (fun intent => exists e leg size t, e ∈ psc_opportunityEvaluations cycle /\ oe_approved e = true /\
          oe_opportunity e ∈ psc_opportunitiesDetected cycle /\ oe_plannedNotionalUsd e = Some size /\
          leg ∈ co_legs (oe_opportunity e) /\
          leg_intent (oe_opportunity e) (pc_sleeveId config) size t leg = Ret intent) (psc_intentsGenerated cycle)
    end.
Proof.
  unfold runCycle. unfold mbind at 1, eff_bind at 1. unfold clock at 1 2. cbn [pe_now recording fst snd].
  destruct (pe_now w) as [start w0]. unfold settle. destruct (quiet_plan state w0 log) as (rp & w1 & Ep). rewrite Ep.
  destruct rp as [cycle|e].
  - destruct (finish_cycle_sends start cycle w1 log) as (r & w' & placed & E & Ho & Hn).
    exists start, w0, (Ret cycle), w1, r, w', placed. split; [done|]. split; [done|]. split; [exact E|]. split; [done|]. split; [exact Ho|].
    apply planCycle_ret in Ep as (md & t1 & t2 & now & allocs & _ & Hev & Hleg & _ & Hgen & Hass & Happ & _).
    split; [done|]. split; [done|]. split.
    + eapply Forall_impl; [exact Hass|]. intros res Hr. exact (assessed_within _ _ _ _ Hr).
    + eapply Forall_impl; [exact Hleg|]. intros intent Hi. exact (leg_selected _ _ _ _ _ _ _ _ _ Hev Hi).
  - destruct (failed_executes_nothing start market_data_fetch 0 0 0 e w1 log) as (r & w' & E & Hr).
    exists start, w0, (Throw e), w1, r, w', []. rewrite app_nil_r, Hr. by split_and!.
Qed.
End Orders.

(** ** Where intents are confused, and what is reported *)

Section Confusion.
Context `{DL : DecimalLib}.

Lemma leg_intent_id o sleeve size t leg i : leg_intent o sleeve size t leg = Ret i ->
  oi_intentId i = buildIntentId (co_asset o) (OpportunityType_str (co_type o)) (ol_side leg) t.
Proof. intros H. unfold leg_intent in H. exn_inv H as s Es. by injection H as <-. Qed.

(** Intent ids do not tell the opportunities of a cycle apart: two
    opportunities of the same type on the same asset, built within the same
    millisecond, give their legs on the same side the same id, whatever their
    venues and sizes.  Where the two legs are on one venue (two spreads that buy
    on the same cheapest venue, say), a simulated venue answers the second order
    with the result of the first and never trades it. *)
Theorem colliding_intents_lost {F : Type} `{PF : PriceFeed F} (venue : SimulatedVenueConfig) (o1 o2 : CarryOpportunityCandidate)
    (leg1 leg2 : OpportunityLeg) (sleeve size1 size2 : string) (t now1 now2 : Z) (i1 i2 : OrderIntent)
    (sf sf1 : SimState * F) (r : PlaceOrderResult)
    (Hasset : co_asset o1 = co_asset o2) (Htype : co_type o1 = co_type o2) (Hside : ol_side leg1 = ol_side leg2)
    (H1 : leg_intent o1 sleeve size1 t leg1 = Ret i1) (H2 : leg_intent o2 sleeve size2 t leg2 = Ret i2)
    (Hp : placeOrder venue now1 (place_params i1) sf = (Ret r, sf1)) :
  oi_intentId i1 = oi_intentId i2 /\ placeOrder venue now2 (place_params i2) sf1 = (Ret r, sf1).
Proof.
  assert (Hid : oi_intentId i1 = oi_intentId i2).
  { apply leg_intent_id in H1, H2. by rewrite H1, H2, Hasset, Htype, Hside. }
  split; [done|]. apply placed_is_cached in Hp. apply cached_placement. cbn [place_params pp_clientOrderId] in *. by rewrite <- Hid.
Qed.
End Confusion.

Section Reported.
Context `{DL : DecimalLib} `{Host : HostEnv} {W : Type} (PE : PipelineEnv W).
Context (config : PipelineConfig) (limits : RiskLimits) (circuitBreakers : Registry) (carryConfig : CarryConfig).
Context (Haudit : forall sl ev w, is_ret (pe_audit sl ev w).1 = true).

Lemma audit_returns sl ev w : exists w', pe_audit sl ev w = (Ret tt, w').
Proof. specialize (Haudit sl ev w). destruct (pe_audit sl ev w) as [[[]|e] w']; [by exists w'|done]. Qed.

Lemma clock_returns w : exists t w', clock PE w = (Ret t, w').
Proof. unfold clock. destruct (pe_now w) as [t w']. by exists t, w'. Qed.

Lemma uuid_returns w : exists i w', uuid PE w = (Ret i, w').
Proof. unfold uuid. destruct (pe_uuid w) as [t w']. by exists t, w'. Qed.

Lemma eff_step {S A B} (m : eff S A) (f : A -> eff S B) s a s' : m s = (Ret a, s') -> (m ≫= f) s = f a s'.
Proof. intros E. unfold mbind, eff_bind. by rewrite E. Qed.

Lemma write_event_returns t d w : exists w', write_event PE config t d w = (Ret tt, w').
Proof.
  destruct (uuid_returns w) as (i & w1 & E1), (clock_returns w1) as (now & w2 & E2).
  destruct (audit_returns (pc_sleeveId config) (MkAuditEvent i t (toISOString now) "strategy-pipeline" d) w2) as (w3 & E3).
  exists w3. unfold write_event. rewrite (eff_step _ _ _ _ _ E1), (eff_step _ _ _ _ _ E2). exact E3.
Qed.

Lemma execute_intents_return intents : pc_mode config = live -> forall w, exists w',
  each_eff (execute_intent PE config) intents w = (Ret tt, w').
Proof.
  intros Hm. unfold each_eff. induction intents as [|i intents IH]; intros w; cbn [fold_eff]; [by exists w|].
  assert (exists w1, execute_intent PE config i w = (Ret tt, w1)) as [w1 E].
  { unfold execute_intent. rewrite decide_False by by rewrite Hm. destruct (negb _); [by exists w|].
    unfold catch_eff, mbind, eff_bind. destruct (pe_placeOrder _ _ w) as [[r|e] w1]; [|by exists w1].
    match goal with |- context [write_event _ _ ?a ?d] => destruct (write_event_returns a d w1) as (w2 & ->) end. by exists w2. }
  rewrite (eff_step _ _ _ _ _ E). apply IH.
Qed.

(** The report of a live cycle counts what was approved, not what was
    executed: when planning succeeds and the audit trail works, the cycle
    reports success and all approved intents as executed, with no error, even
    when every venue refuses every order or has no adapter. *)
Theorem executed_count_is_approved (state : PortfolioState) (w w0 w1 : W) (start : Z) (cycle : PlannedStrategyCycle)
    (Hm : pc_mode config = live) (Ha : pc_allowLiveExecution config = Some true)
    (Hs : clock PE w = (Ret start, w0))
    (Hp : planCycle PE config limits circuitBreakers carryConfig state w0 = (Ret cycle, w1)) :
  exists r w', runCycle PE config limits circuitBreakers carryConfig state w = (Ret r, w') /\
    pr_success r = true /\ pr_errors r = [] /\ pr_intentsExecuted r = zlen (psc_approvedIntents cycle).
Proof.
  unfold runCycle. rewrite (eff_step _ _ _ _ _ Hs). unfold settle at 1. rewrite Hp. unfold finish_cycle. unfold settle at 1.
  destruct (uuid_returns w1) as (i & w2 & E2), (clock_returns w2) as (t & w3 & E3), (clock_returns w3) as (t' & w4 & E4).
  rewrite (eff_step _ _ _ _ _ E2), (eff_step _ _ _ _ _ E3), (eff_step _ _ _ _ _ E4).
  match goal with |- context [pe_audit ?a ?b w4] => destruct (audit_returns a b w4) as (w5 & ->) end.
  unfold settle, executeIntents. rewrite Hm, Ha, !bool_decide_true by done. cbn [andb negb].
  destruct (execute_intents_return (psc_approvedIntents cycle) Hm w5) as (w6 & ->).
  destruct (clock_returns w6) as (t2 & w7 & E7), (clock_returns w7) as (t3 & w8 & E8).
  rewrite (eff_step _ _ _ _ _ E7), (eff_step _ _ _ _ _ E8). by eexists _, _.
Qed.
End Reported.

(** ** Sample cycle *)

Definition sample_market (venueId asset : string) (t : Z) : MarketData :=
  MkMarketData venueId asset "49990" "50010" "50000" "50000" "50000" "0.0001" (t + 3600000) "0" "0" None t.
(** Two venues quoting the same prices, one of them offline, that refuse every order. *)
#[local] Instance refusing_env : PipelineEnv Z := {|
  pe_venues := ["drift"; "zeta"; "offline"];
  pe_isConnected := fun v _ => bool_decide (v <> "offline");
  pe_getMarketData := fun v a t => if bool_decide (a = "BTC") then (Ret (sample_market v a t), t) else (Throw (Error_ "no market"), t);
  pe_placeOrder := fun _ _ t => (Throw (Error_ "insufficient margin"), t);
  pe_audit := fun _ _ t => (Ret tt, t);
  pe_now := fun t => (t, t);
  pe_uuid := fun t => ("id", t);
|}.
Definition live_config : PipelineConfig := MkPipelineConfig live (Some true) "carry" (num_of_Z 60000) None.
Definition open_limits : RiskLimits := {|
  maxGrossExposurePct := num_of_Z 200; maxNetExposurePct := num_of_Z 20; maxSingleVenuePct := num_of_Z 100;
  maxSingleAssetPct := num_of_Z 100; maxLeverage := num_of_Z 3; minLiquidityReservePct := num_of_Z 10;
  maxDailyDrawdownPct := num_of_Z 2; maxWeeklyDrawdownPct := num_of_Z 5; maxPortfolioDrawdownPct := num_of_Z 15;
  maxPriceAgeSec := num_of_Z 30; maxFundingRateAgeSec := num_of_Z 60; maxPositionSizePct := num_of_Z 20;
  maxOpportunityCount := num_of_Z 10 |}.
Definition fresh_portfolio : PortfolioState :=
  MkPortfolioState "10000" "0" "0" "10000" n_zero n_zero n_zero ∅ ∅ ∅ n_zero.
Definition sample_plan := planCycle (DL := exact_decimal) refusing_env live_config open_limits (new_CircuitBreakerRegistry open_limits)
  DEFAULT_CARRY_CONFIG fresh_portfolio.
Definition sample_cycle : PlannedStrategyCycle :=
  ret_or (MkCycle [] [] [] [] [] [] [] 0) (sample_plan 0).1.

Example sample_cycle_contents :
  length (psc_opportunitiesDetected sample_cycle) = 2%nat /\
  map (fun i => (oi_intentId i, oi_venueId i, oi_size i)) (psc_approvedIntents sample_cycle) =
    [("BTC-funding_rate_arb-sell-0", "drift", "0.00400000"); ("BTC-funding_rate_arb-buy-0", "drift", "0.00400000");
     ("BTC-funding_rate_arb-sell-0", "zeta", "0.00500000"); ("BTC-funding_rate_arb-buy-0", "zeta", "0.00500000")].
Proof. vm_compute. split; reflexivity. Qed.

Lemma sample_planned : sample_plan 0 = (Ret sample_cycle, 0).
Proof. vm_compute. reflexivity. Qed.

Lemma every_candidate_evaluated_witness :
  map oe_opportunity (psc_opportunityEvaluations sample_cycle) ≡ₚ psc_opportunitiesDetected sample_cycle /\
  map oe_opportunity (List.filter oe_approved (psc_opportunityEvaluations sample_cycle)) = psc_opportunitiesApproved sample_cycle /\
  (exists now, Forall (fun o => filter_reason DEFAULT_CARRY_CONFIG now o = None) (psc_opportunitiesApproved sample_cycle)) /\
  length (psc_intentsGenerated sample_cycle) = (2 * length (psc_opportunitiesApproved sample_cycle))%nat /\
  Forall (fun i => exists o leg, o ∈ psc_opportunitiesApproved sample_cycle /\ leg ∈ co_legs o /\
    oi_venueId i = ol_venueId leg /\ oi_asset i = co_asset o /\ oi_side i = order_side (ol_side leg) /\
    oi_type i = market /\ oi_reduceOnly i = false /\ oi_opportunityId i = opportunity_id o) (psc_intentsGenerated sample_cycle) /\
  psc_approvedIntents sample_cycle ++ psc_rejectedIntents sample_cycle ≡ₚ psc_intentsGenerated sample_cycle.
Proof. exact (every_candidate_evaluated (DL := exact_decimal) _ _ _ _ _ _ _ _ _ sample_planned). Defined.

Lemma executed_count_is_approved_witness :
  exists r w', runCycle (DL := exact_decimal) refusing_env live_config open_limits (new_CircuitBreakerRegistry open_limits)
      DEFAULT_CARRY_CONFIG fresh_portfolio 0 = (Ret r, w') /\
    pr_success r = true /\ pr_errors r = [] /\ pr_intentsExecuted r = zlen (psc_approvedIntents sample_cycle).
Proof.
  apply (executed_count_is_approved (DL := exact_decimal) refusing_env live_config open_limits (new_CircuitBreakerRegistry open_limits)
    DEFAULT_CARRY_CONFIG (fun _ _ _ => eq_refl) fresh_portfolio 0 0 0 0 sample_cycle).
  - reflexivity.
  - reflexivity.
  - reflexivity.
  - exact sample_planned.
Defined.

Definition sample_leg (venueId : string) : OpportunityLeg := MkLeg venueId "BTC" long spot "1" "50000" "0.05" None.
Definition sample_opportunity (venueId : string) : CarryOpportunityCandidate :=
  MkCandidate funding_rate_arb "BTC" [sample_leg venueId] "10" "0.14" "9.86" (num_of_Z 1) 0 300000 [].
Definition sample_leg_intent (venueId size : string) : OrderIntent :=
  ret_or (MkOrderIntent "" "" "" buy market "" None "" false 0 [])
    (leg_intent (DL := exact_decimal) (sample_opportunity venueId) "carry" size 7 (sample_leg venueId)).
Definition sample_sim : SimState (DL := exact_decimal) * (StaticPriceFeed + StaticPriceFeed) := sim_start true.
Definition sample_placed := placeOrder (DL := exact_decimal) sim_config 0 (place_params (sample_leg_intent "drift" "400")) sample_sim.
Definition sample_placed_result : PlaceOrderResult := ret_or (sample_result vo_rejected) sample_placed.1.

Lemma colliding_intents_lost_witness :
  oi_intentId (sample_leg_intent "drift" "400") = oi_intentId (sample_leg_intent "drift" "500") /\
  placeOrder (DL := exact_decimal) sim_config 9 (place_params (sample_leg_intent "drift" "500")) (sample_placed.2.1, sample_placed.2.2) =
    (Ret sample_placed_result, (sample_placed.2.1, sample_placed.2.2)).
Proof.
  apply (colliding_intents_lost (DL := exact_decimal) sim_config (sample_opportunity "drift") (sample_opportunity "drift")
    (sample_leg "drift") (sample_leg "drift") "carry" "400" "500" 7 0 9 (sample_leg_intent "drift" "400") (sample_leg_intent "drift" "500")
    sample_sim).
  - reflexivity.
  - reflexivity.
  - reflexivity.
  - vm_compute. reflexivity.
  - vm_compute. reflexivity.
  - apply ret_of. vm_compute. reflexivity.
Defined.
