(* ===== verification/PortfolioTracker.v ===== *)
(** * The portfolio state tracker (packages/strategy-engine: portfolio-state-tracker.ts)

    [PortfolioStateTracker] holds the [PortfolioState] the risk engine reads:
    [refresh] rebuilds it from the venue adapters, catching the failures of
    each venue, and [applyFill] moves it between refreshes.  The abstract state
    is a book of exposures, in integer units; [represents] relates the decimal
    strings of the concrete state to it, and the theorems show that each
    operation implements its abstract counterpart, failures included.  Logger
    calls are not modelled. *)
From S2P Require Import Prelude JsNumber JsValue DecimalLib DecimalExact Money Domain RiskEngine Executor SimVenue.
Open Scope Z_scope.

(** The account queries of the adapters, by venue. *)
Class TrackerEnv (W : Type) := {
  te_venues : list string;
  te_getBalances : string -> eff W (list AccountBalance);
  te_getPositions : string -> eff W (list VenuePosition);
  te_getMarketData : string -> string -> eff W MarketData;
}.

(** The local variables of [refresh] that the loop over the venues changes. *)
Section TallyData.
Context `{DL : DecimalLib}.

Record Tally := MkTally {
  ty_nav : dec;
  ty_gross : dec;
  ty_net : dec;
  ty_liquidity : dec;
  ty_count : Z;
  ty_venues : gmap string string;
  ty_assets : gmap string string;
}.
End TallyData.

Definition emptyState : PortfolioState :=
  MkPortfolioState "0" "0" "0" "0" n_zero n_zero n_zero ∅ ∅ ∅ n_zero.

(** [m.get(key) ?? '0']. *)
Definition exposure_at (m : gmap string string) (key : string) : string := default "0" (m !! key).

Definition stablecoins : list string := ["USDC"; "USDT"; "USD"].

Section Tracker.
Context `{DL : DecimalLib} {W : Type} `{TE : TrackerEnv W}.

Definition empty_tally : Tally :=
  MkTally (dec_of_Z 0) (dec_of_Z 0) (dec_of_Z 0) (dec_of_Z 0) 0 ∅ ∅.

Definition on_world {A} (m : eff W A) : eff (Tally * W) A :=
  fun s => let '(r, w) := m s.2 in (r, (s.1, w)).
Definition on_tally (f : Tally -> Tally) : eff (Tally * W) unit := modify_state (fun s => (f s.1, s.2)).

Definition add_liquidity (x : dec) (t : Tally) : Tally :=
  MkTally (ty_nav t) (ty_gross t) (ty_net t) (d_plus (ty_liquidity t) x) (ty_count t) (ty_venues t) (ty_assets t).
Definition add_nav (x : dec) (t : Tally) : Tally :=
  MkTally (d_plus (ty_nav t) x) (ty_gross t) (ty_net t) (ty_liquidity t) (ty_count t) (ty_venues t) (ty_assets t).
Definition add_exposure (x delta : dec) (t : Tally) : Tally :=
  MkTally (ty_nav t) (d_plus (ty_gross t) x) (d_plus (ty_net t) delta) (ty_liquidity t) (ty_count t)
    (ty_venues t) (ty_assets t).
Definition count_position (asset total : string) (t : Tally) : Tally :=
  MkTally (ty_nav t) (ty_gross t) (ty_net t) (ty_liquidity t) (ty_count t + 1) (ty_venues t)
    (<[asset := total]> (ty_assets t)).
Definition set_venue (venueId total : string) (t : Tally) : Tally :=
  MkTally (ty_nav t) (ty_gross t) (ty_net t) (ty_liquidity t) (ty_count t) (<[venueId := total]> (ty_venues t))
    (ty_assets t).

(** One balance; the result is the venue's balance so far. *)
Definition tally_balance (venueBalanceUsd : dec) (bal : AccountBalance) : eff (Tally * W) dec :=
  if bool_decide (ab_asset bal ∈ stablecoins) then
    total ← lift_exn (dec_of_string (ab_total bal));
    available ← lift_exn (dec_of_string (ab_available bal));
    _ ← on_tally (add_liquidity available);
    mret (d_plus venueBalanceUsd total)
  else mret venueBalanceUsd.

(** One position of a venue; the result is the venue's exposure so far. *)
Definition mark_price (venueId : string) (pos : VenuePosition) : eff (Tally * W) dec :=
  catch_eff (md ← on_world (te_getMarketData venueId (vp_asset pos)); lift_exn (dec_of_string (md_markPrice md)))
    (fun _ => lift_exn (dec_of_string (vp_markPrice pos))).
Definition tally_position (venueId : string) (venueExposureD : dec) (pos : VenuePosition) : eff (Tally * W) dec :=
  markPriceD ← mark_price venueId pos;
  size ← lift_exn (dec_of_string (vp_size pos));
  let notionalD := d_times size markPriceD in
  let deltaD := if bool_decide (vp_side pos = long) then notionalD else d_neg notionalD in
  _ ← on_tally (add_exposure notionalD deltaD);
  s ← get_state;
  currentAssetExposure ← lift_exn (dec_of_string (exposure_at (ty_assets s.1) (vp_asset pos)));
  _ ← on_tally (count_position (vp_asset pos) (d_toFixed (d_plus currentAssetExposure notionalD)));
  mret (d_plus venueExposureD notionalD).

(** The body of the loop over the venues, inside its [try]. *)
Definition tally_venue (venueId : string) : eff (Tally * W) unit :=
  balances ← on_world (te_getBalances venueId);
  venueBalanceUsd ← fold_eff tally_balance (dec_of_Z 0) balances;
  _ ← on_tally (add_nav venueBalanceUsd);
  positions ← on_world (te_getPositions venueId);
  s ← get_state;
  venueExposureD ← lift_exn (dec_of_string (exposure_at (ty_venues s.1) venueId));
  venueExposureD ← fold_eff (tally_position venueId) venueExposureD positions;
  on_tally (set_venue venueId (d_toFixed venueExposureD)).

Definition tally_venues : eff (Tally * W) unit :=
  each_eff (fun venueId => catch_eff (tally_venue venueId) (fun _ => mret tt)) te_venues.

(** The state built from the sums. *)
Definition tallied_state (sleeveId : string) (t : Tally) : PortfolioState :=
  let totalNavD := d_plus (ty_nav t) (ty_gross t) in
  {| totalNav := d_toFixed totalNavD; grossExposure := d_toFixed (ty_gross t);
     netExposure := d_toFixed (ty_net t); liquidityReserve := d_toFixed (ty_liquidity t);
     currentDailyDrawdownPct := n_zero; currentWeeklyDrawdownPct := n_zero; currentPortfolioDrawdownPct := n_zero;
     venueExposures := ty_venues t; assetExposures := ty_assets t;
     sleeveNav := {[ sleeveId := d_toFixed totalNavD ]}; openPositionCount := num_of_Z (ty_count t) |}.

(** [refresh]; the state of the tracker is its [currentState]. *)
Definition refresh (sleeveId : string) : eff (PortfolioState * W) PortfolioState := fun s =>
  let '(r, (t, w')) := tally_venues (empty_tally, s.2) in
  match r with
  | Ret _ => let newState := tallied_state sleeveId t in (Ret newState, (newState, w'))
  | Throw e => (Throw e, (s.1, w'))
  end.

(** [applyFill]: the new [currentState], or the old one and the error. *)
Definition filled_state (fill : OrderFill) (intent : OrderIntent) (current : PortfolioState) : exn PortfolioState :=
  fillPrice ← dec_of_string (of_fillPrice fill);
  fillSize ← dec_of_string (of_filledSize fill);
  let notionalUsd := d_times fillPrice fillSize in
  let isLong := bool_decide (oi_side intent = buy) in
  let deltaUsd := if isLong then notionalUsd else d_neg notionalUsd in
  gross ← dec_of_string (grossExposure current);
  net ← dec_of_string (netExposure current);
  liquidity ← dec_of_string (liquidityReserve current);
  let newLiquidity := d_minus liquidity notionalUsd in
  venueCurrentD ← dec_of_string (exposure_at (venueExposures current) (oi_venueId intent));
  assetCurrentD ← dec_of_string (exposure_at (assetExposures current) (oi_asset intent));
  Ret {| totalNav := totalNav current; grossExposure := d_toFixed (d_plus gross notionalUsd);
         netExposure := d_toFixed (d_plus net deltaUsd);
         liquidityReserve := d_toFixed (d_max [newLiquidity; dec_of_Z 0]);
         currentDailyDrawdownPct := currentDailyDrawdownPct current;
         currentWeeklyDrawdownPct := currentWeeklyDrawdownPct current;
         currentPortfolioDrawdownPct := currentPortfolioDrawdownPct current;
         venueExposures := <[oi_venueId intent := d_toFixed (d_plus venueCurrentD notionalUsd)]> (venueExposures current);
         assetExposures := <[oi_asset intent := d_toFixed (d_plus assetCurrentD notionalUsd)]> (assetExposures current);
         sleeveNav := sleeveNav current;
         openPositionCount := n_add (openPositionCount current) (num_of_Z 1) |}.
Definition applyFill (fill : OrderFill) (intent : OrderIntent) : eff (PortfolioState * W) unit := fun s =>
  match filled_state fill intent s.1 with
  | Ret newState => (Ret tt, (newState, s.2))
  | Throw e => (Throw e, s)
  end.
End Tracker.

(** ** The abstract state: a book of exposures *)

Record Exposure := MkExposure {
  ex_venue : string;
  ex_asset : string;
  ex_side : PositionSide;
  ex_notional : Z;
}.

Definition gross_of (book : list Exposure) : Z := zsum (map ex_notional book).
Definition signed (e : Exposure) : Z := if bool_decide (ex_side e = long) then ex_notional e else - ex_notional e.
Definition net_of (book : list Exposure) : Z := zsum (map signed book).
Definition at_venue (v : string) (book : list Exposure) : Z :=
  gross_of (List.filter (fun e => bool_decide (ex_venue e = v)) book).
Definition in_asset (a : string) (book : list Exposure) : Z :=
  gross_of (List.filter (fun e => bool_decide (ex_asset e = a)) book).

(** Notionals are not negative. *)
Definition sound (book : list Exposure) : Prop := Forall (fun e => 0 <= ex_notional e) book.

Lemma gross_of_app b1 b2 : gross_of (b1 ++ b2) = gross_of b1 + gross_of b2.
Proof. unfold gross_of. by rewrite map_app, zsum_app. Qed.

Lemma net_of_app b1 b2 : net_of (b1 ++ b2) = net_of b1 + net_of b2.
Proof. unfold net_of. by rewrite map_app, zsum_app. Qed.

Lemma gross_of_one e : gross_of [e] = ex_notional e.
Proof. unfold gross_of. cbn [map]. rewrite zsum_cons. unfold zsum. cbn. lia. Qed.

Lemma net_of_one e : net_of [e] = signed e.
Proof. unfold net_of. cbn [map]. rewrite zsum_cons. unfold zsum. cbn. lia. Qed.

Lemma gross_filter (p : Exposure -> bool) book : sound book -> 0 <= gross_of (List.filter p book) <= gross_of book.
Proof.
  induction 1 as [|e book He _ IH]; [done|]. cbn [List.filter]. unfold gross_of in *.
  destruct (p e); cbn [map]; rewrite ?zsum_cons; lia.
Qed.

Lemma net_bounds book : sound book -> Z.abs (net_of book) <= gross_of book.
Proof.
  induction 1 as [|e book He _ IH]; [done|]. unfold net_of, gross_of in *. cbn [map]. rewrite !zsum_cons.
  unfold signed at 1. case_bool_decide; lia.
Qed.

Lemma gross_nonneg book : sound book -> 0 <= gross_of book.
Proof. intros H%net_bounds. lia. Qed.

Lemma filter_snoc_gross (p : Exposure -> bool) book e :
  gross_of (List.filter p (book ++ [e])) = gross_of (List.filter p book) + (if p e then ex_notional e else 0).
Proof.
  rewrite List.filter_app, gross_of_app. cbn [List.filter]. destruct (p e); [by rewrite gross_of_one|done].
Qed.

(** ** What a venue's answers are worth *)

Section Refinement.
Context `{DL : DecimalLib} `{LW : !DecimalLaws} {W : Type} `{TE : TrackerEnv W}.
Context (k : Z) (Hk : 0 <= k <= 20).

(** The total and available cash of a balance. *)
Definition cash_read (bal : AccountBalance) (c : Z * Z) : Prop :=
  0 <= c.1 /\ 0 <= c.2 /\
  if bool_decide (ab_asset bal ∈ stablecoins) then amount k (ab_total bal) c.1 /\ amount k (ab_available bal) c.2
  else c = (0, 0).

(** The price of a position: the venue's mark price, or the position's own
    when there is no readable one. *)
Definition price_read (v : string) (p : VenuePosition) (j y : Z) : Prop :=
  (exists md, answers (te_getMarketData v (vp_asset p)) md /\ amount j (md_markPrice md) y) \/
  (fails (te_getMarketData v (vp_asset p)) /\ amount j (vp_markPrice p) y) \/
  (exists md e, answers (te_getMarketData v (vp_asset p)) md /\ dec_of_string (md_markPrice md) = Throw e /\
    amount j (vp_markPrice p) y).

Definition position_read (v : string) (p : VenuePosition) (e : Exposure) : Prop :=
  ex_venue e = v /\ ex_asset e = vp_asset p /\ ex_side e = vp_side p /\
  exists i j x y, 0 <= i /\ 0 <= j /\ i + j = k /\ amount i (vp_size p) x /\ price_read v p j y /\
    ex_notional e = x * y.

(** The cash, the liquidity and the exposures a venue contributes.  Without
    balances it contributes nothing; without positions, its balances only. *)
Inductive venue_read (v : string) : Z -> Z -> list Exposure -> Prop :=
| unreachable_venue : fails (te_getBalances v) -> venue_read v 0 0 []
| unread_positions bs cs : answers (te_getBalances v) bs -> Forall2 cash_read bs cs ->
    fails (te_getPositions v) -> venue_read v (zsum cs.*1) (zsum cs.*2) []
| answering_venue bs cs ps es : answers (te_getBalances v) bs -> Forall2 cash_read bs cs ->
    answers (te_getPositions v) ps -> Forall2 (position_read v) ps es ->
    venue_read v (zsum cs.*1) (zsum cs.*2) es.

(** The strings of [m] are the totals [f]; an absent key is zero. *)
Definition map_worth (m : gmap string string) (f : string -> Z) : Prop :=
  forall key, amount k (exposure_at m key) (f key).

Lemma map_worth_empty : map_worth ∅ (fun _ => 0).
Proof. intros key. unfold exposure_at. rewrite lookup_empty. apply amount_zero. Qed.

Lemma map_worth_insert m f g key s : map_worth m f -> amount k s (g key) ->
  (forall k', k' <> key -> g k' = f k') -> map_worth (<[key := s]> m) g.
Proof.
  intros Hm Hs Hg k'. unfold exposure_at. destruct (decide (k' = key)) as [->|Hne].
  - by rewrite lookup_insert_eq.
  - rewrite lookup_insert_ne, Hg by done. apply Hm.
Qed.

(** The concrete state stands for net asset value, liquidity and a book. *)
Record represents (s : PortfolioState) (nav liquid : Z) (book : list Exposure) : Prop := {
  rep_nav : amount k (totalNav s) nav;
  rep_gross : amount k (grossExposure s) (gross_of book);
  rep_net : amount k (netExposure s) (net_of book);
  rep_liquidity : amount k (liquidityReserve s) liquid;
  rep_venues : map_worth (venueExposures s) (fun v => at_venue v book);
  rep_assets : map_worth (assetExposures s) (fun a => in_asset a book);
}.

(** The sums of the loop; [seen] are the exposures of the venues finished. *)
Record tallied (t : Tally) (nav liquid : Z) (book seen : list Exposure) : Prop := {
  tl_nav : scaled k (ty_nav t) nav;
  tl_gross : scaled k (ty_gross t) (gross_of book);
  tl_net : scaled k (ty_net t) (net_of book);
  tl_liquidity : scaled k (ty_liquidity t) liquid;
  tl_count : ty_count t = Z.of_nat (length book);
  tl_venues : map_worth (ty_venues t) (fun v => at_venue v seen);
  tl_assets : map_worth (ty_assets t) (fun a => in_asset a book);
}.

Definition limit : Z := 10 ^ 20.

Lemma on_world_answers {A} (m : eff W A) a t w : answers m a -> exists w', on_world m (t, w) = (Ret a, (t, w')).
Proof. intros H. destruct (H w) as [w' E]. exists w'. unfold on_world. cbn. by rewrite E. Qed.

Lemma on_world_fails {A} (m : eff W A) t w : fails m -> exists e w', on_world m (t, w) = (Throw e, (t, w')).
Proof. intros H. destruct (H w) as (e & w' & E). exists e, w'. unfold on_world. cbn. by rewrite E. Qed.

Lemma zsum_fst_nonneg (bs : list AccountBalance) cs : Forall2 cash_read bs cs -> 0 <= zsum cs.*1 /\ 0 <= zsum cs.*2.
Proof.
  induction 1 as [|b c bs cs (H1 & H2 & _) _ IH]; [done|]. rewrite !fmap_cons, !zsum_cons. lia.
Qed.

(** The balances of a venue. *)
Lemma balances_tallied bs cs : Forall2 cash_read bs cs -> forall b c (t : Tally) (w : W) nav liquid book seen,
  scaled k b c -> 0 <= c -> c + zsum cs.*1 < limit -> 0 <= liquid -> liquid + zsum cs.*2 < limit ->
  tallied t nav liquid book seen ->
  exists b' t', fold_eff tally_balance b bs (t, w) = (Ret b', (t', w)) /\ scaled k b' (c + zsum cs.*1) /\
    tallied t' nav (liquid + zsum cs.*2) book seen.
Proof.
  induction 1 as [|bal [c1 c2] bs cs (H1 & H2 & Hbal) Hbs IH]; intros b c t w nav liquid book seen Hb Hc Lc Hl Ll Ht.
  { exists b, t. rewrite !fmap_nil, !Z.add_0_r. done. }
  pose proof (zsum_fst_nonneg _ _ Hbs) as [N1 N2]. rewrite !fmap_cons, !zsum_cons in *. cbn [fst snd] in *.
  cbn [fold_eff]. case_bool_decide as Hst.
  - destruct Hbal as [(x & Ex & Sx) (y & Ey & Sy)].
    destruct (IH (d_plus b x) (c + c1) (add_liquidity y t) w nav (liquid + c2) book seen) as (b' & t' & E & Sb & Tt).
    1: apply scaled_plus; [lia|done..|unfold limit in *; lia]. 1-4: lia.
    1: destruct Ht; constructor; try done; cbn; apply scaled_plus; [lia|done..|unfold limit in *; lia].
    exists b', t'. rewrite !Z.add_assoc. split; [|done]. rewrite <- E.
    rewrite (eff_bind_ret _ _ _ (d_plus b x) (add_liquidity y t, w)); [done|].
    unfold tally_balance. rewrite bool_decide_eq_true_2 by done. lift_step Ex. by lift_step Ey.
  - injection Hbal as -> ->. rewrite !Z.add_0_l in *.
    destruct (IH b c t w nav liquid book seen) as (b' & t' & E & Sb & Tt); [done..|].
    exists b', t'. split; [|done]. rewrite <- E.
    rewrite (eff_bind_ret _ _ _ b (t, w)); [done|]. unfold tally_balance. by rewrite bool_decide_eq_false_2.
Qed.

(** A position of a venue. *)
Lemma mark_price_read v p j y t w : price_read v p j y ->
  exists d w', mark_price v p (t, w) = (Ret d, (t, w')) /\ scaled j d y.
Proof.
  unfold mark_price, catch_eff. intros [(md & Ha & d & Ed & Sd)|[(Hf & d & Ed & Sd)|(md & e & Ha & Ee & d & Ed & Sd)]].
  - destruct (on_world_answers _ _ t w Ha) as [w' E]. exists d, w'. eff_step E. unfold lift_exn. by rewrite Ed.
  - destruct (on_world_fails _ t w Hf) as (e & w' & E). exists d, w'. rewrite (eff_bind_throw _ _ _ _ _ E).
    unfold lift_exn. by rewrite Ed.
  - destruct (on_world_answers _ _ t w Ha) as [w' E]. exists d, w'. eff_step E. unfold lift_exn. by rewrite Ee, Ed.
Qed.

Lemma scaled_signed d e : scaled k d (ex_notional e) ->
  scaled k (if bool_decide (ex_side e = long) then d else d_neg d) (signed e).
Proof. intros H. unfold signed. case_bool_decide; [done|by apply scaled_neg]. Qed.

Lemma position_tallied v p e ve c t w nav liquid book seen :
  position_read v p e -> 0 <= ex_notional e -> sound book -> gross_of book + ex_notional e < limit ->
  scaled k ve c -> 0 <= c <= gross_of book -> tallied t nav liquid book seen ->
  exists ve' t' w', tally_position v ve p (t, w) = (Ret ve', (t', w')) /\ scaled k ve' (c + ex_notional e) /\
    tallied t' nav liquid (book ++ [e]) seen.
Proof.
  intros (Ev & Ea & Es & i & j & x & y & Hi & Hj & Hij & (dx & Ex & Sx) & Hy & En) He Hbook Hlim Hve Hc Ht.
  destruct (mark_price_read v p j y t w Hy) as (dy & w' & Ey & Sy).
  pose proof (gross_nonneg _ Hbook) as Hg0. pose proof (net_bounds _ Hbook) as Hn0.
  assert (Sn : scaled k (d_times dx dy) (ex_notional e)).
  { rewrite En, <- Hij. apply scaled_times; [done|done|lia|done|done|]. unfold limit in *. lia. }
  destruct (tl_assets _ _ _ _ _ Ht (vp_asset p)) as (da & Eda & Sa).
  pose proof (gross_filter (fun e' => bool_decide (ex_asset e' = vp_asset p)) _ Hbook) as Ha0.
  eexists _, _, w'. split_and!.
  - unfold tally_position. eff_step Ey. lift_step Ex. cbv zeta.
    erewrite (eff_bind_ret (on_tally _)) by done. erewrite (eff_bind_ret get_state) by done.
    lift_step Eda. by erewrite (eff_bind_ret (on_tally _)) by done.
  - apply scaled_plus; [lia|done|done|]. unfold limit in *. lia.
  - rewrite <- Es. constructor; cbn; try apply Ht.
    + rewrite gross_of_app, gross_of_one. apply scaled_plus; [lia|apply Ht|done|unfold limit in *; lia].
    + rewrite net_of_app, net_of_one. apply scaled_plus; [lia|apply Ht|by apply scaled_signed|].
      unfold signed, limit in *. case_bool_decide; lia.
    + rewrite (tl_count _ _ _ _ _ Ht), length_app. cbn. lia.
    + eapply map_worth_insert; [apply Ht|apply amount_print; [done|]|].
      * unfold in_asset. rewrite filter_snoc_gross, bool_decide_eq_true_2 by done.
        apply scaled_plus; [lia|exact Sa|done|]. unfold limit in *. lia.
      * intros a Hne. unfold in_asset. rewrite filter_snoc_gross, bool_decide_eq_false_2 by congruence. lia.
Qed.
Lemma positions_tallied v ps es : Forall2 (position_read v) ps es -> sound es -> forall ve c t w nav liquid book seen,
  sound book -> gross_of book + gross_of es < limit -> scaled k ve c -> 0 <= c <= gross_of book ->
  tallied t nav liquid book seen ->
  exists ve' t' w', fold_eff (tally_position v) ve ps (t, w) = (Ret ve', (t', w')) /\ scaled k ve' (c + gross_of es) /\
    tallied t' nav liquid (book ++ es) seen.
Proof.
  induction 1 as [|p e ps es Hp _ IH]; intros Hes ve c t w nav liquid book seen Hbook Hlim Hve Hc Ht.
  { exists ve, t, w. unfold gross_of at 1. cbn [map]. rewrite Z.add_0_r, app_nil_r. done. }
  inversion Hes as [|? ? He Hes']; subst. change (e :: es) with ([e] ++ es) in *.
  rewrite gross_of_app, gross_of_one in *. pose proof (gross_nonneg _ Hes') as Hg.
  destruct (position_tallied v p e ve c t w nav liquid book seen) as (ve1 & t1 & w1 & E1 & S1 & T1); [done..|lia|done|lia|done|].
  destruct (IH Hes' ve1 (c + ex_notional e) t1 w1 nav liquid (book ++ [e]) seen) as (ve2 & t2 & w2 & E2 & S2 & T2);
    rewrite ?gross_of_app, ?gross_of_one; [apply Forall_app; by repeat constructor|lia|done|lia|done|].
  exists ve2, t2, w2. rewrite Z.add_assoc, app_assoc. split; [|done]. cbn [fold_eff app]. by eff_step E1.
Qed.

(** One turn of the loop over the venues. *)
Definition venue_turn (v : string) : eff (Tally * W) unit := catch_eff (tally_venue v) (fun _ => mret tt).

Lemma at_venue_app v b es : Forall (fun e => ex_venue e = v) es -> at_venue v (b ++ es) = at_venue v b + gross_of es.
Proof.
  intros H. unfold at_venue. rewrite List.filter_app, gross_of_app. f_equal.
  induction H as [|e es He _ IH]; [done|]. cbn [List.filter]. rewrite bool_decide_eq_true_2 by done.
  unfold gross_of in *. cbn [map]. rewrite !zsum_cons. lia.
Qed.

Lemma at_venue_other v v' b es : v' <> v -> Forall (fun e => ex_venue e = v) es -> at_venue v' (b ++ es) = at_venue v' b.
Proof.
  intros Hne H. unfold at_venue. rewrite List.filter_app, gross_of_app.
  replace (gross_of (List.filter _ es)) with 0; [lia|].
  induction H as [|e es He _ IH]; [done|]. cbn [List.filter]. by rewrite bool_decide_eq_false_2 by congruence.
Qed.

Lemma positions_venue v ps es : Forall2 (position_read v) ps es -> Forall (fun e => ex_venue e = v) es.
Proof. induction 1 as [|p e ps es (Hv & _) _ IH]; by constructor. Qed.

Lemma venue_tallied v cash liq es t w nav liquid book :
  venue_read v cash liq es -> sound es -> sound book -> gross_of book + gross_of es < limit ->
  0 <= nav -> nav + cash < limit -> 0 <= liquid -> liquid + liq < limit -> tallied t nav liquid book book ->
  exists t' w', venue_turn v (t, w) = (Ret tt, (t', w')) /\ tallied t' (nav + cash) (liquid + liq) (book ++ es) (book ++ es).
Proof.
  intros Hv Hes Hbook Hg Hn Ln Hl Ll Ht. unfold venue_turn, catch_eff, tally_venue.
  destruct Hv as [Hf|bs cs Hb Hcs Hf|bs cs ps es Hb Hcs Hp Hps].
  { destruct (on_world_fails _ t w Hf) as (e & w' & E). rewrite (eff_bind_throw _ _ _ _ _ E).
    exists t, w'. by rewrite !Z.add_0_r, app_nil_r. }
  all: destruct (on_world_answers _ _ t w Hb) as [w1 E1]; eff_step E1; pose proof (zsum_fst_nonneg _ _ Hcs) as [N1 N2].
  all: destruct (balances_tallied bs cs Hcs (dec_of_Z 0) 0 t w1 nav liquid book book) as (b & t1 & E2 & Sb & T1);
    [apply scaled_zero|lia|lia|done|lia|done|]; eff_step E2; rewrite Z.add_0_l in Sb.
  all: assert (T2 : tallied (add_nav b t1) (nav + zsum cs.*1) (liquid + zsum cs.*2) book book)
    by (destruct T1; constructor; try done; cbn; apply scaled_plus; [lia|done|done|unfold limit in *; lia]).
  all: erewrite (eff_bind_ret (on_tally _)) by done; cbn [fst snd].
  { destruct (on_world_fails _ (add_nav b t1) w1 Hf) as (e & w' & E). rewrite (eff_bind_throw _ _ _ _ _ E).
    exists (add_nav b t1), w'. by rewrite app_nil_r. }
  destruct (on_world_answers _ _ (add_nav b t1) w1 Hp) as [w2 E3]. eff_step E3.
  erewrite (eff_bind_ret get_state) by done. cbn [fst snd].
  destruct (tl_venues _ _ _ _ _ T2 v) as (ve & Eve & Sve). lift_step Eve.
  destruct (positions_tallied v ps es Hps Hes ve (at_venue v book) (add_nav b t1) w2 (nav + zsum cs.*1) (liquid + zsum cs.*2) book book
      Hbook Hg Sve) as (ve' & t3 & w3 & E4 & S4 & T4);
    [by apply gross_filter|done|].
  eff_step E4. exists (set_venue v (d_toFixed ve') t3), w3. split; [done|].
  pose proof (positions_venue _ _ _ Hps) as Hes'.
  destruct T4; constructor; try done. cbn. eapply map_worth_insert; [done| |].
  - rewrite at_venue_app by done. by apply amount_print.
  - intros v' Hne. by apply (at_venue_other v).
Qed.

(** What the venues contribute to a refresh. *)
Record VenueReading := MkReading {
  vr_cash : Z;
  vr_liquidity : Z;
  vr_book : list Exposure;
}.
Definition reads (v : string) (r : VenueReading) : Prop :=
  venue_read v (vr_cash r) (vr_liquidity r) (vr_book r) /\ sound (vr_book r).

Definition total_cash (rs : list VenueReading) : Z := zsum (map vr_cash rs).
Definition total_liquidity (rs : list VenueReading) : Z := zsum (map vr_liquidity rs).
Definition total_book (rs : list VenueReading) : list Exposure := mjoin (map vr_book rs).

Lemma reads_nonneg v r : reads v r -> 0 <= vr_cash r /\ 0 <= vr_liquidity r.
Proof. intros [H _]. destruct H; [done|by eapply zsum_fst_nonneg|by eapply zsum_fst_nonneg]. Qed.

Lemma totals_nonneg vs rs : Forall2 reads vs rs ->
  0 <= total_cash rs /\ 0 <= total_liquidity rs /\ sound (total_book rs).
Proof.
  induction 1 as [|v r vs rs Hr _ (I1 & I2 & I3)]; [by repeat constructor|]. pose proof (reads_nonneg _ _ Hr). destruct Hr as [_ Hr].
  unfold total_cash, total_liquidity, total_book in *. cbn [map mjoin list_join]. rewrite !zsum_cons.
  split_and!; [lia|lia|by apply Forall_app].
Qed.

Lemma venues_tallied vs rs : Forall2 reads vs rs -> forall t w nav liquid book,
  sound book -> gross_of book + gross_of (total_book rs) < limit ->
  0 <= nav -> nav + total_cash rs < limit -> 0 <= liquid -> liquid + total_liquidity rs < limit ->
  tallied t nav liquid book book ->
  exists t' w', each_eff venue_turn vs (t, w) = (Ret tt, (t', w')) /\
    tallied t' (nav + total_cash rs) (liquid + total_liquidity rs) (book ++ total_book rs) (book ++ total_book rs).
Proof.
  induction 1 as [|v r vs rs Hr Hrs IH]; intros t w nav liquid book Hbook Hg Hn Ln Hl Ll Ht.
  { exists t, w. unfold total_cash, total_liquidity, total_book. cbn. by rewrite !Z.add_0_r, app_nil_r. }
  destruct (totals_nonneg _ _ Hrs) as (N1 & N2 & N3). pose proof (gross_nonneg _ N3).
  destruct (reads_nonneg _ _ Hr) as [M1 M2]. destruct Hr as [Hv Hs]. pose proof (gross_nonneg _ Hs).
  assert (Ec : total_cash (r :: rs) = vr_cash r + total_cash rs) by done.
  assert (El : total_liquidity (r :: rs) = vr_liquidity r + total_liquidity rs) by done.
  assert (Eb : total_book (r :: rs) = vr_book r ++ total_book rs) by done.
  rewrite Ec, El, Eb, gross_of_app in *.
  destruct (venue_tallied v _ _ _ t w nav liquid book Hv) as (t1 & w1 & E1 & T1); [done..|lia|done|lia|done|lia|done|].
  destruct (IH t1 w1 (nav + vr_cash r) (liquid + vr_liquidity r) (book ++ vr_book r)) as (t2 & w2 & E2 & T2);
    rewrite ?gross_of_app; [by apply Forall_app|lia..|done|].
  exists t2, w2. rewrite !Z.add_assoc, app_assoc. split; [|done].
  unfold each_eff. cbn [fold_eff]. by eff_step E1.
Qed.

Lemma empty_tallied : tallied empty_tally 0 0 [] [].
Proof. constructor; try apply scaled_zero; try apply map_worth_empty. done. Qed.

(** The state of a new tracker stands for nothing. *)
Lemma empty_represents : represents emptyState 0 0 [].
Proof. constructor; try apply amount_zero; apply map_worth_empty. Qed.

(** C25. A refresh implements its abstract counterpart, whatever of the venues
    fails: for every venue that answers, that cannot say its balances, or that
    says its balances and not its positions, the new state stands for exactly
    the balances and the positions that were read; its net asset value is the
    stablecoin cash plus the gross exposure, and per venue and per asset the
    exposures are those of the book.  In particular the exposures of a venue
    whose positions cannot be read are missing from a state that counts its
    balances. *)
Theorem refresh_refines (sleeveId : string) (rs : list VenueReading) (s0 : PortfolioState) (w : W)
    (Hreads : Forall2 reads te_venues rs)
    (Hnav : total_cash rs + gross_of (total_book rs) < limit)
    (Hliquid : total_liquidity rs < limit) :
  exists s w', refresh sleeveId (s0, w) = (Ret s, (s, w')) /\
    represents s (total_cash rs + gross_of (total_book rs)) (total_liquidity rs) (total_book rs) /\
    sleeveNav s = {[ sleeveId := totalNav s ]} /\
    openPositionCount s = num_of_Z (Z.of_nat (length (total_book rs))).
Proof.
  destruct (totals_nonneg _ _ Hreads) as (N1 & N2 & N3). pose proof (gross_nonneg _ N3) as Hg.
  pose proof (net_bounds _ N3) as Hn.
  destruct (venues_tallied te_venues rs Hreads empty_tally w 0 0 []) as (t & w' & E & T);
    [constructor|change (gross_of []) with 0; lia|lia..|apply empty_tallied|].
  exists (tallied_state sleeveId t), w'. rewrite !Z.add_0_l in T. cbn [app] in T. destruct T as [Tn Tg Tt Tl Tc Tv Ta].
  split_and!; [|constructor; try done; cbn; apply amount_print; try done|done|by cbn; rewrite Tc].
  - unfold refresh. cbn [snd]. unfold tally_venues. fold venue_turn.
    change (fun v => catch_eff (tally_venue v) (fun _ => mret tt)) with venue_turn. by rewrite E.
  - apply scaled_plus; [lia|done|done|]. unfold limit in *. lia.
Qed.

(** A fill's notional. *)
Definition fill_worth (fill : OrderFill) (n : Z) : Prop :=
  exists i j x y, 0 <= i /\ 0 <= j /\ i + j = k /\ amount i (of_fillPrice fill) x /\ amount j (of_filledSize fill) y /\
    n = x * y.

(** The exposure a fill is booked as. *)
Definition booked (intent : OrderIntent) (n : Z) : Exposure :=
  MkExposure (oi_venueId intent) (oi_asset intent) (match oi_side intent with buy => long | sell => short end) n.

Lemma tracked_fill_refines fill intent n s (w : W) nav liquid book :
  represents s nav liquid book -> sound book -> fill_worth fill n -> 0 <= n -> gross_of book + n < limit ->
  0 <= liquid < limit ->
  exists s', applyFill fill intent (s, w) = (Ret tt, (s', w)) /\
    represents s' nav (Z.max (liquid - n) 0) (book ++ [booked intent n]).
Proof.
  intros [Rn (g & Eg & Sg) (t & Et & St) (l & El & Sl) Rv Ra] Hbook
    (i & j & x & y & Hi & Hj & Hij & (dp & Ep & Sp) & (dz & Ez & Sz) & En) Hn Hlim Hl.
  pose proof (gross_nonneg _ Hbook) as Hg0. pose proof (net_bounds _ Hbook) as Hn0.
  pose proof (gross_filter (fun e => bool_decide (ex_venue e = oi_venueId intent)) _ Hbook) as Hv0.
  pose proof (gross_filter (fun e => bool_decide (ex_asset e = oi_asset intent)) _ Hbook) as Ha0.
  destruct (Rv (oi_venueId intent)) as (v & Ev & Sv). destruct (Ra (oi_asset intent)) as (a & Ea & Sa).
  assert (Sn : scaled k (d_times dp dz) n).
  { rewrite En, <- Hij. apply scaled_times; [done|done|lia|done|done|]. unfold limit in *. lia. }
  unfold applyFill, filled_state. cbn [fst snd].
  exn_step Ep. exn_step Ez. exn_step Eg. exn_step Et. exn_step El. exn_step Ev. exn_step Ea.
  eexists. split; [reflexivity|]. constructor; cbn; try done.
  - apply amount_print; [done|]. rewrite gross_of_app, gross_of_one. apply scaled_plus; [lia|done|done|]. unfold limit in *. cbn [ex_notional booked]. lia.
  - apply amount_print; [done|]. rewrite net_of_app, net_of_one. assert (Hs : Z.abs (signed (booked intent n)) = n).
    { unfold signed. case_bool_decide; cbn [ex_notional booked]; lia. }
    apply scaled_plus; [lia|done| |unfold limit in *; lia]. unfold signed, booked.
    destruct (oi_side intent); cbn; [done|by apply scaled_neg].
  - apply amount_print; [done|]. apply scaled_max2; [lia| |apply scaled_zero]. apply scaled_minus; [lia|done|done|unfold limit in *; lia].
  - eapply map_worth_insert; [exact Rv|apply amount_print; [done|]|].
    + unfold at_venue. rewrite filter_snoc_gross. cbn. rewrite bool_decide_eq_true_2 by done.
      apply scaled_plus; [lia|done|done|unfold at_venue, limit in *; lia].
    + intros v' Hne. unfold at_venue. rewrite filter_snoc_gross. cbn. rewrite bool_decide_eq_false_2 by congruence. lia.
  - eapply map_worth_insert; [exact Ra|apply amount_print; [done|]|].
    + unfold in_asset. rewrite filter_snoc_gross. cbn. rewrite bool_decide_eq_true_2 by done.
      apply scaled_plus; [lia|done|done|unfold in_asset, limit in *; lia].
    + intros v' Hne. unfold in_asset. rewrite filter_snoc_gross. cbn. rewrite bool_decide_eq_false_2 by congruence. lia.
Qed.

(** Between refreshes, any sequence of fills leaves the state standing for
    the book extended by one exposure per fill, of the fill's whole notional,
    its net exposure signed by the order's side, and the liquidity reduced by
    each notional down to zero.  The exposure grows by the fill of an order
    that closes a position too: a reduce-only order is booked like any other. *)
Theorem fills_extend_book (fills : list (OrderFill * OrderIntent)) (ns : list Z) (s : PortfolioState) (w : W)
    (nav liquid : Z) (book : list Exposure)
    (Hs : represents s nav liquid book) (Hbook : sound book)
    (Hfills : Forall2 (fun fi n => fill_worth fi.1 n /\ 0 <= n) fills ns)
    (Hgross : gross_of book + zsum ns < limit) (Hliquid : 0 <= liquid < limit) :
  exists s', each_eff (fun fi => applyFill fi.1 fi.2) fills (s, w) = (Ret tt, (s', w)) /\
    represents s' nav (Z.max (liquid - zsum ns) 0) (book ++ zip_with (fun fi n => booked fi.2 n) fills ns).
Proof.
  revert s liquid book Hs Hbook Hgross Hliquid.
  induction Hfills as [|[f i] n fills ns [Hn Hn0] Hf IH]; intros s liquid book Hs Hbook Hgross Hliquid.
  { exists s. split; [done|]. rewrite app_nil_r. replace (Z.max _ _) with liquid; [done|]. unfold zsum. cbn. lia. }
  rewrite zsum_cons in *. assert (N : 0 <= zsum ns).
  { apply zsum_nonneg. clear -Hf. induction Hf as [|? ? ? ? [_ ?] _ IH]; by constructor. }
  destruct (tracked_fill_refines f i n s w nav liquid book) as (s1 & E1 & R1); [done..|lia|done|].
  destruct (IH s1 (Z.max (liquid - n) 0) (book ++ [booked i n])) as (s2 & E2 & R2);
    [done|apply Forall_app; by repeat constructor|rewrite gross_of_app, gross_of_one; cbn; lia|lia|].
  exists s2. split.
  - unfold each_eff. cbn [fold_eff fst snd]. by eff_step E1.
  - rewrite <- app_assoc in R2. cbn [zip_with fst snd].
    replace (Z.max (liquid - (n + zsum ns)) 0) with (Z.max (Z.max (liquid - n) 0 - zsum ns) 0) by lia. exact R2.
Qed.
End Refinement.

(** ** Two venues, one of which cannot say its positions *)

Definition tracker_position (asset : string) (side : PositionSide) (sz mark : string) : VenuePosition :=
  MkVenuePosition "sim" asset side sz mark mark "0" "0" None 0.
Definition tracker_market (price : string) : MarketData :=
  MkMarketData "sim" "BTC" price price price price price "0" 0 "0" "0" None 0.

#[local] Instance sample_venues : TrackerEnv unit := {|
  te_venues := ["sim"; "drift"];
  te_getBalances v := mret [MkAccountBalance v "USDC" "9000" "1000" "10000" 0; MkAccountBalance v "SOL" "3" "0" "3" 0];
  te_getPositions v :=
    if bool_decide (v = "sim") then mret [tracker_position "BTC" long "0.5" "40000"; tracker_position "ETH" short "2" "2500.5"]
    else throw_eff (Error_ "timeout");
  te_getMarketData v asset :=
    if bool_decide (asset = "BTC") then mret (tracker_market "41000.25") else throw_eff (Error_ "no market");
|}.

Definition sample_book : list Exposure :=
  [MkExposure "sim" "BTC" long (5000 * 410002500); MkExposure "sim" "ETH" short (20000 * 25005000)].
Definition sample_readings : list VenueReading :=
  [MkReading (10000 * 10 ^ 8) (9000 * 10 ^ 8) sample_book; MkReading (10000 * 10 ^ 8) (9000 * 10 ^ 8) []].

Example tracked : (match (refresh (DL := exact_decimal) "carry" (emptyState, tt)).1 with
  | Ret s => [totalNav s; grossExposure s; netExposure s; liquidityReserve s; exposure_at (venueExposures s) "sim";
              exposure_at (venueExposures s) "drift"; exposure_at (assetExposures s) "ETH"]
  | Throw _ => []
  end) = ["45501.125"; "25501.125"; "15499.125"; "18000"; "25501.125"; "0"; "5001"].
Proof. vm_compute. reflexivity. Qed.

Lemma amount_at (k : Z) (s : string) (m : Z) : units_in k s = Some m -> amount (DL := exact_decimal) k s m.
Proof. apply units_in_parses. Qed.

Lemma sample_cash (v : string) : Forall2 (cash_read (DL := exact_decimal) 8)
  [MkAccountBalance v "USDC" "9000" "1000" "10000" 0; MkAccountBalance v "SOL" "3" "0" "3" 0]
  [(10000 * 10 ^ 8, 9000 * 10 ^ 8); (0, 0)].
Proof.
  constructor; [|constructor; [|constructor]]; (split_and!; [done..|]); [|done].
  split; apply amount_at; reflexivity.
Qed.

Lemma sample_reads : Forall2 (reads (DL := exact_decimal) (W := unit) 8) te_venues sample_readings.
Proof.
  constructor; [|constructor; [|constructor]]; (split; [|by repeat constructor]).
  - apply (answering_venue 8 "sim" [MkAccountBalance "sim" "USDC" "9000" "1000" "10000" 0; MkAccountBalance "sim" "SOL" "3" "0" "3" 0]
      [(10000 * 10 ^ 8, 9000 * 10 ^ 8); (0, 0)]
      [tracker_position "BTC" long "0.5" "40000"; tracker_position "ETH" short "2" "2500.5"] sample_book);
      [by intros s; exists s|apply sample_cash|by intros s; exists s|].
    constructor; [|constructor; [|constructor]]; (split_and!; [done..|]); exists 4, 4.
    + exists 5000, 410002500. split_and!; try done; [by apply amount_at|].
      left. exists (tracker_market "41000.25"). split; [by intros s; exists s|by apply amount_at].
    + exists 20000, 25005000. split_and!; try done; [by apply amount_at|].
      right; left. split; [by intros s; exists (Error_ "no market"), s|by apply amount_at].
  - apply (unread_positions 8 "drift" [MkAccountBalance "drift" "USDC" "9000" "1000" "10000" 0; MkAccountBalance "drift" "SOL" "3" "0" "3" 0]
      [(10000 * 10 ^ 8, 9000 * 10 ^ 8); (0, 0)]);
      [by intros s; exists s|apply sample_cash|by intros s; exists (Error_ "timeout"), s].
Qed.

Lemma refresh_refines_witness : exists s w', refresh (DL := exact_decimal) "carry" (emptyState, tt) = (Ret s, (s, w')) /\
  represents (DL := exact_decimal) 8 s 4550112500000 1800000000000 sample_book /\
  sleeveNav s = {[ "carry" := totalNav s ]} /\ openPositionCount s = num_of_Z 2.
Proof.
  apply (refresh_refines (DL := exact_decimal) 8 ltac:(lia) "carry" sample_readings emptyState tt sample_reads);
    reflexivity.
Defined.

Definition sample_fill : OrderFill := MkOrderFill "f1" "o1" "0.25" "2000" "1" "USDC" 0.
Definition tracked_intent (side : OrderSide) (reduceOnly : bool) : OrderIntent :=
  MkOrderIntent "i1" "sim" "BTC" side market "0.25" None "opp" reduceOnly 0 [].

Lemma fills_extend_book_witness :
  exists s', each_eff (fun fi => applyFill (DL := exact_decimal) fi.1 fi.2)
      [(sample_fill, tracked_intent buy false); (sample_fill, tracked_intent sell true)] (emptyState, tt) = (Ret tt, (s', tt)) /\
    represents (DL := exact_decimal) 8 s' 0 0
      [MkExposure "sim" "BTC" long 50000000000; MkExposure "sim" "BTC" short 50000000000].
Proof.
  apply (fills_extend_book (DL := exact_decimal) 8 ltac:(lia)
    [(sample_fill, tracked_intent buy false); (sample_fill, tracked_intent sell true)] [50000000000; 50000000000]
    emptyState tt 0 0 []); try done; [apply empty_represents|constructor|].
  constructor; [|constructor; [|constructor]]; (split; [|done]); exists 4, 4, 20000000, 2500;
    split_and!; try done; by apply amount_at.
Defined.
