(* ===== verification/Backtest.v ===== *)
(** * Backtesting data and configuration (packages/backtest: types.ts, market-data.ts, utils.ts)

    The configuration of a backtest and its validation, the synthetic market
    data it runs on, and the funding payment of a position.  [Math.random],
    [Math.sin] and the local calendar are the host's.  The file shows when a
    configuration is valid and how many market data points a period has. *)
From Stdlib Require Import SpecFloat Sorting.Sorted.
From S2P Require Import Prelude JsNumber JsValue DecimalLib DecimalExact Money Executor.
Open Scope Z_scope.

(** ** Types *)

Inductive BacktestExecutionMode := historical_simulation | paper_trade.
Inductive BacktestSlippageModel := no_slippage | fixed_slippage | variable_slippage.
Inductive BacktestFeeModel := no_fees | fixed_fees | realistic_fees.
Inductive BacktestMarketType := spot_market | perp_market.
#[export] Instance BacktestSlippageModel_eq_dec : EqDecision BacktestSlippageModel.
Proof. solve_decision. Defined.
#[export] Instance BacktestMarketType_eq_dec : EqDecision BacktestMarketType.
Proof. solve_decision. Defined.
Definition market_str (m : BacktestMarketType) : string := match m with spot_market => "spot" | perp_market => "perp" end.

Record BacktestPeriod := MkBacktestPeriod { bp_startDate : Z; bp_endDate : Z }.

Record MarketDataPoint := MkDataPoint {
  md_timestamp : Z;
  md_asset : string;
  md_spotPrice : string;
  md_perpPrice : string;
  md_fundingRate : string;
  md_openInterest : option string;
  md_volume24h : option string;
}.

Record BacktestTrade := MkBacktestTrade {
  bt_tradeId : string;
  bt_timestamp : Z;
  bt_asset : string;
  bt_side : PositionSide;
  bt_marketType : BacktestMarketType;
  bt_size : string;
  bt_price : string;
  bt_notionalUsd : string;
  bt_fees : string;
  bt_fundingPaid : option string;
  bt_realizedPnl : option string;
}.

Record BacktestPosition := MkBacktestPosition {
  bo_asset : string;
  bo_side : PositionSide;
  bo_marketType : BacktestMarketType;
  bo_size : string;
  bo_avgEntryPrice : string;
  bo_notionalUsd : string;
  bo_unrealizedPnl : string;
  bo_realizedPnl : string;
  bo_fundingPaid : string;
  bo_openedAt : Z;
}.

Record BacktestStrategy := MkBacktestStrategy {
  bs_targetLeverage : string;
  bs_maxPositionSizeUsd : string;
  bs_minPositionSizeUsd : string;
  bs_hedgeDeviationTolerancePct : num;
  bs_rebalanceThresholdPct : num;
  bs_entryBasisThresholdPct : num;
  bs_exitBasisThresholdPct : num;
}.

Record BacktestSimulation := MkBacktestSimulation {
  bm_executionMode : BacktestExecutionMode;
  bm_slippageModel : BacktestSlippageModel;
  bm_slippageBps : option num;
  bm_feeModel : BacktestFeeModel;
  bm_makerFeeBps : option num;
  bm_takerFeeBps : option num;
  bm_useHistoricalFunding : bool;
  bm_useHistoricalBasis : bool;
}.

Record BacktestConfig := MkBacktestConfig {
  bc_backtestId : string;
  bc_name : string;
  bc_description : option string;
  bc_period : BacktestPeriod;
  bc_assets : list string;
  bc_strategy : BacktestStrategy;
  bc_simulation : BacktestSimulation;
  bc_initialCapitalUsd : string;
  bc_tags : option (list string);
  bc_createdBy : string;
}.

Record BacktestValidationResult := MkBacktestValidation {
  bv_valid : bool;
  bv_errors : list string;
  bv_warnings : list string;
}.

(** ** Validation *)

Definition day_msecs : Z := 1000 * 60 * 60 * 24.
(** The length of a period in days. *)
Definition period_days (p : BacktestPeriod) : num := n_div (num_of_Z (bp_endDate p - bp_startDate p)) (num_of_Z day_msecs).

(** [!n] of an optional number. *)
Definition no_number (o : option num) : bool :=
  match o with None => true | Some x => n_isNaN x || n_eq x n_zero end.

Section Validation.
Context `{DL : DecimalLib}.

Definition config_errors (config : BacktestConfig) (initialCapital minSize maxSize : dec) : list string :=
  push_if (bp_endDate (bc_period config) <=? bp_startDate (bc_period config)) "Start date must be before end date"
  ++ push_if (n_lt (period_days (bc_period config)) (num_of_Z 1)) "Backtest period must be at least 1 day"
  ++ push_if (is_empty (bc_assets config)) "At least one asset must be specified"
  ++ push_if (d_lte initialCapital (dec_of_Z 0)) "Initial capital must be positive"
  ++ push_if (d_gte minSize maxSize) "Min position size must be less than max position size"
  ++ push_if (n_le (bs_hedgeDeviationTolerancePct (bc_strategy config)) n_zero) "Hedge deviation tolerance must be positive"
  ++ push_if (n_le (bs_entryBasisThresholdPct (bc_strategy config)) n_zero) "Entry basis threshold must be positive"
  ++ push_if (bool_decide (bm_slippageModel (bc_simulation config) = fixed_slippage) && no_number (bm_slippageBps (bc_simulation config)))
       "Fixed slippage model requires slippageBps".

Definition config_warnings (config : BacktestConfig) (initialCapital maxSize : dec) : list string :=
  push_if (n_gt (period_days (bc_period config)) (num_of_Z 365)) "Backtest period exceeds 1 year; simulation may be slow"
  ++ push_if (d_gt maxSize initialCapital) "Max position size exceeds initial capital".

Definition validateBacktestConfig (config : BacktestConfig) : exn BacktestValidationResult :=
  initialCapital ← dec_of_string (bc_initialCapitalUsd config);
  minSize ← dec_of_string (bs_minPositionSizeUsd (bc_strategy config));
  maxSize ← dec_of_string (bs_maxPositionSizeUsd (bc_strategy config));
  let errors := config_errors config initialCapital minSize maxSize in
  Ret {| bv_valid := is_empty errors; bv_errors := errors; bv_warnings := config_warnings config initialCapital maxSize |}.
End Validation.

(** ** Synthetic market data *)

Definition default_spot (asset : string) : Z :=
  if String.eqb asset "BTC" then 50000 else if String.eqb asset "ETH" then 3000 else if String.eqb asset "SOL" then 100 else 1000.
Definition DEFAULT_VOLATILITY_PCT : num := num_of_Z 2.
Definition FUNDING_MIN : num := num_of_dec (-5) (-4).
Definition FUNDING_MAX : num := num_of_dec 1 (-3).
Definition BASIS_MIN : num := num_of_dec 5 (-2).
Definition BASIS_MAX : num := num_of_dec 5 (-1).
Definition Math_PI : num := num_of_dec 3141592653589793 (-15).
Definition half : num := num_of_dec 5 (-1).

(** [Math.sin], the [n]-th [Math.random()] and [new Date(d.getFullYear(), 0, 0)]. *)
Class MathHost := {
  math_sin : num -> num;
  math_random : Z -> num;
  local_year_start : Z -> Z;
}.

Definition eight_hours : Z := 8 * 60 * 60 * 1000.
(** [for (let time = startTime; time <= endTime; time += eightHours)]. *)
Definition funding_times (startTime endTime : Z) : list Z :=
  map (fun i => startTime + Z.of_nat i * eight_hours) (seq 0 (Z.to_nat ((endTime - startTime) / eight_hours + 1))).

Section MarketData.
Context `{MH : MathHost}.

(** [Math.random()]; the state counts the calls. *)
Definition next_random : eff Z num := fun n => (Ret (math_random n), n + 1).

Definition day_of_year (timestamp : Z) : num :=
  n_floor (n_div (num_of_Z (timestamp - local_year_start timestamp)) (num_of_Z day_msecs)).
Definition clamp_num (lo hi x : num) : num := n_max lo (n_min hi x).

(** [asset.charCodeAt(0) % 10]. *)
Definition asset_offset (asset : string) : num :=
  match asset with
  | EmptyString => S754_nan
  | String c _ => num_of_Z (Z.of_nat (Ascii.nat_of_ascii c) mod 10)
  end.

Definition generateHistoricalBasis (asset : string) (timestamp : Z) : eff Z num :=
  let cycle := n_mul (math_sin (n_mul (n_div (n_add (day_of_year timestamp) (asset_offset asset)) (num_of_Z 30)) Math_PI))
                     (num_of_dec 15 (-2)) in
  r ← next_random;
  let noise := n_mul (n_sub r half) (num_of_dec 1 (-1)) in
  mret (clamp_num BASIS_MIN BASIS_MAX (n_add (n_add (num_of_dec 25 (-2)) cycle) noise)).

Definition generateHistoricalFunding (timestamp : Z) : eff Z num :=
  let cycle := n_mul (math_sin (n_mul (n_div (day_of_year timestamp) (num_of_Z 7)) Math_PI)) (num_of_dec 2 (-4)) in
  r ← next_random;
  let noise := n_mul (n_sub r half) (num_of_dec 3 (-4)) in
  mret (clamp_num FUNDING_MIN FUNDING_MAX (n_add (n_add (num_of_dec 1 (-4)) cycle) noise)).

(** [min + Math.random() * (max - min)]. *)
Definition random_between (lo hi : num) : eff Z num := r ← next_random; mret (n_add lo (n_mul r (n_sub hi lo))).

Definition generate_point (period : BacktestPeriod) (useHistoricalFunding useHistoricalBasis : bool) (time : Z) (asset : string)
    : eff Z MarketDataPoint :=
  let dayProgress := n_div (num_of_Z (time - bp_startDate period)) (num_of_Z (bp_endDate period - bp_startDate period)) in
  let trend := n_mul (math_sin (n_mul (n_mul dayProgress Math_PI) (num_of_Z 4))) (num_of_dec 2 (-2)) in
  r ← next_random;
  let noise := n_mul (n_sub r half) (n_div DEFAULT_VOLATILITY_PCT (num_of_Z 100)) in
  let spotPrice := n_mul (num_of_Z (default_spot asset)) (n_add (n_add (num_of_Z 1) trend) noise) in
  basisPct ← (if useHistoricalBasis then generateHistoricalBasis asset time else random_between BASIS_MIN BASIS_MAX);
  let perpPrice := n_mul spotPrice (n_add (num_of_Z 1) (n_div basisPct (num_of_Z 100))) in
  fundingRate ← (if useHistoricalFunding then generateHistoricalFunding time else random_between FUNDING_MIN FUNDING_MAX);
  oi ← next_random;
  vol ← next_random;
  mret {| md_timestamp := time; md_asset := asset; md_spotPrice := n_toFixed 2 spotPrice; md_perpPrice := n_toFixed 2 perpPrice;
          md_fundingRate := n_toFixed 6 fundingRate; md_openInterest := Some (n_toFixed 0 (n_mul oi (num_of_Z 1000000)));
          md_volume24h := Some (n_toFixed 0 (n_mul vol (num_of_Z 500000000))) |}.

(** The body of two nested loops, each pushing its points. *)
Fixpoint map_eff {S A B} (f : A -> eff S B) (l : list A) : eff S (list B) :=
  match l with
  | [] => mret []
  | a :: l' => b ← f a; bs ← map_eff f l'; mret (b :: bs)
  end.

Definition earlier (a b : MarketDataPoint) : bool := md_timestamp a <? md_timestamp b.

Definition generateMarketData (period : BacktestPeriod) (assets : list string) (useHistoricalFunding useHistoricalBasis : bool)
    : eff Z (list MarketDataPoint) :=
  points ← map_eff (fun time => map_eff (generate_point period useHistoricalFunding useHistoricalBasis time) assets)
             (funding_times (bp_startDate period) (bp_endDate period));
  mret (js_sort earlier (List.concat points)).
End MarketData.

(** ** Funding *)

Section Funding.
Context `{DL : DecimalLib}.

Definition calculateFundingPayment (position : BacktestPosition) (fundingRate : string) : exn string :=
  notional ← dec_of_string (bo_notionalUsd position);
  rate ← dec_of_string fundingRate;
  Ret (match bo_marketType position, bo_side position with
       | perp_market, short => d_toFixed (d_times notional rate)
       | perp_market, long => d_toFixed (d_neg (d_times notional rate))
       | spot_market, _ => "0"
       end).

(** ** Validation of market data; a timestamp is always present. *)

(** [!price || new Decimal(price).lte(0)]. *)
Definition bad_price (price : string) : exn bool :=
  if String.eqb price "" then Ret true else p ← dec_of_string price; Ret (d_lte p (dec_of_Z 0)).

Definition point_errors (point : MarketDataPoint) : exn (list string) :=
  spot ← bad_price (md_spotPrice point);
  perp ← bad_price (md_perpPrice point);
  let at_ := md_asset point +:+ " at " +:+ toISOString (md_timestamp point) in
  Ret (push_if spot ("Invalid spot price for " +:+ at_) ++ push_if perp ("Invalid perp price for " +:+ at_)
       ++ push_if (String.eqb (md_fundingRate point) "") ("Missing funding rate for " +:+ at_)).

(** The neighbours out of order, counting from index [i]. *)
Fixpoint order_errors (i : Z) (previous : MarketDataPoint) (data : list MarketDataPoint) : list string :=
  match data with
  | [] => []
  | current :: rest =>
      push_if (md_timestamp current <? md_timestamp previous) ("Data out of order at index " +:+ z_str i)
      ++ order_errors (i + 1) current rest
  end.

Definition validateMarketData (data : list MarketDataPoint) : exn (bool * list string) :=
  match data with
  | [] => Ret (false, ["No market data points"])
  | first :: rest =>
      perPoint ← map_exn point_errors data;
      let errors := List.concat perPoint ++ order_errors 1 first rest in
      Ret (is_empty errors, errors)
  end.
End Funding.

(** * The data of a period *)

Lemma map_eff_returns {S A B} (f : A -> eff S B) (R : A -> B -> Prop) l :
  (forall a s, exists b s', f a s = (Ret b, s') /\ R a b) ->
  forall s, exists bs s', map_eff f l s = (Ret bs, s') /\ Forall2 R l bs.
Proof.
  intros Hf. induction l as [|a l IH]; intros s; [by exists [], s|]. cbn [map_eff].
  destruct (Hf a s) as (b & s1 & E1 & Hb). eff_step E1. destruct (IH s1) as (bs & s2 & E2 & Hbs). eff_step E2.
  exists (b :: bs), s2. split; [done|by constructor].
Qed.

(** The points in time are those every eight hours from the start to the end. *)
Lemma funding_times_spec s e t : t ∈ funding_times s e <-> s <= t <= e /\ (eight_hours | t - s).
Proof.
  unfold funding_times. rewrite list_elem_of_In, in_map_iff. unfold eight_hours. split.
  - intros (i & <- & Hi%in_seq). assert (Z.of_nat i < (e - s) / (8 * 60 * 60 * 1000) + 1) by lia.
    assert (Z.of_nat i * (8 * 60 * 60 * 1000) <= e - s); [|split; [lia|exists (Z.of_nat i); lia]].
    pose proof (Z.mul_div_le (e - s) (8 * 60 * 60 * 1000)). nia.
  - intros [H [q Hq]]. exists (Z.to_nat q). assert (0 <= q) by nia. split; [lia|]. apply in_seq.
    assert (q <= (e - s) / (8 * 60 * 60 * 1000)); [apply Z.div_le_lower_bound; lia|]. lia.
Qed.

Lemma funding_times_NoDup s e : NoDup (funding_times s e).
Proof. unfold funding_times. apply NoDup_fmap_2; [|apply NoDup_seq]. intros i j H. unfold eight_hours in H. lia. Qed.

Lemma NoDup_list_prod {A B} (l : list A) (l' : list B) : NoDup l -> NoDup l' -> NoDup (list_prod l l').
Proof.
  intros H H'. induction H as [|x l Hx _ IH]; cbn [list_prod]; [constructor|].
  apply NoDup_app. split_and!; [apply NoDup_fmap_2; [by intros ? ? [= ->]|done]| |done].
  intros [a b] [? [[= -> ->] _]]%list_elem_of_fmap Hin. apply list_elem_of_In, in_prod_iff in Hin as [Hin _].
  by apply Hx, list_elem_of_In.
Qed.

Section Complete.
Context `{MH : MathHost}.

Lemma random_between_returns lo hi s : exists x s', random_between lo hi s = (Ret x, s').
Proof. do 2 eexists. reflexivity. Qed.

(** Whatever the random numbers, a point is generated with its time and asset. *)
Lemma generate_point_returns period hf hb time asset s :
  exists p s', generate_point period hf hb time asset s = (Ret p, s') /\ (md_timestamp p, md_asset p) = (time, asset).
Proof.
  unfold generate_point. eff_step (eq_refl (next_random s)).
  assert (forall s, exists x s', (if hb then generateHistoricalBasis asset time else random_between BASIS_MIN BASIS_MAX) s = (Ret x, s'))
    as Hb by (intros; destruct hb; do 2 eexists; reflexivity).
  assert (forall s, exists x s', (if hf then generateHistoricalFunding time else random_between FUNDING_MIN FUNDING_MAX) s = (Ret x, s'))
    as Hf by (intros; destruct hf; do 2 eexists; reflexivity).
  destruct (Hb (s + 1)) as (b & s1 & Eb). eff_step Eb. destruct (Hf s1) as (f & s2 & Ef). eff_step Ef.
  do 2 eexists. split; [reflexivity|done].
Qed.

(** Generating data never fails. *)
Lemma market_data_complete_at period assets hf hb s :
  exists data s', generateMarketData period assets hf hb s = (Ret data, s') /\
    map (fun p => (md_timestamp p, md_asset p)) data ≡ₚ
      list_prod (funding_times (bp_startDate period) (bp_endDate period)) assets /\
    in_order earlier data.
Proof.
  unfold generateMarketData.
  destruct (map_eff_returns (fun time => map_eff (generate_point period hf hb time) assets)
    (fun time ps => map (fun p => (md_timestamp p, md_asset p)) ps = map (pair time) assets)
    (funding_times (bp_startDate period) (bp_endDate period))) with (s := s) as (points & s' & E & H).
  { intros time s0. destruct (map_eff_returns (generate_point period hf hb time)
      (fun a p => (md_timestamp p, md_asset p) = (time, a)) assets) with (s := s0) as (ps & s1 & E1 & H1).
    - intros a s1. apply generate_point_returns.
    - exists ps, s1. split; [done|]. clear E1. induction H1 as [|a p as' ps' Hp _ IH]; [done|]. cbn [map]. by rewrite Hp, IH. }
  eff_step E. do 2 eexists. split; [reflexivity|]. split.
  - rewrite (Permutation_map _ (js_sort_perm _ _)). clear E. induction H as [|t ps ts pss Hp _ IH]; [done|].
    cbn [List.concat list_prod]. rewrite map_app, Hp. by apply Permutation_app_head.
  - apply js_sort_in_order; unfold earlier; intros *; rewrite ?Z.ltb_lt, ?Z.ltb_ge; lia.
Qed.

(** Market data is complete: generating it never fails, gives every asset
    exactly one point at the start of the period and every eight hours up to its
    end, and the points are in order of time. *)
Theorem market_data_complete (period : BacktestPeriod) (assets : list string) (hf hb : bool) (s : Z) :
  exists data s', generateMarketData period assets hf hb s = (Ret data, s') /\
    (forall t a, (t, a) ∈ map (fun p => (md_timestamp p, md_asset p)) data <->
       a ∈ assets /\ bp_startDate period <= t <= bp_endDate period /\ (eight_hours | t - bp_startDate period)) /\
    (NoDup assets -> NoDup (map (fun p => (md_timestamp p, md_asset p)) data)) /\
    StronglySorted (fun p q => md_timestamp p <= md_timestamp q) data.
Proof.
  destruct (market_data_complete_at period assets hf hb s) as (data & s' & E & P & Ho). exists data, s'. split; [done|].
  split_and!.
  - intros t a. rewrite P, list_elem_of_In, in_prod_iff, <- !list_elem_of_In, funding_times_spec. tauto.
  - intros Ha. rewrite P. clear P. pose proof (funding_times_NoDup (bp_startDate period) (bp_endDate period)) as Ht.
    by apply NoDup_list_prod.
  - unfold in_order in Ho. clear -Ho. induction Ho as [|p l _ IH Hp]; constructor; [done|].
    eapply Forall_impl; [exact Hp|]. unfold earlier. intros q. rewrite Z.ltb_ge. lia.
Qed.
End Complete.
