(* ===== verification/BacktestEngine.v ===== *)
(** * The backtest simulation (packages/backtest: engine.ts)

    The simulation of a backtest day by day and its results.  The position
    objects of a simulation are shared: the positions map and the daily
    snapshots hold references into one heap.  The file shows what a simulation
    does not do: it never closes a position and no funding reaches the cash or
    a position; how the portfolio is valued, and what the drawdown is. *)
From Stdlib Require Import SpecFloat Ascii Sorting.Sorted Structures.OrdersEx.
From S2P Require Import Prelude JsNumber JsValue DecimalLib DecimalExact Money Executor Backtest.
Open Scope Z_scope.

(** ** Types *)

Record PriceEntry := MkPriceEntry { pe_spotPrice : string; pe_perpPrice : string; pe_fundingRate : string; pe_basis : string }.

(** A daily snapshot; [P] is how its positions are given: as references in a
    running simulation, as the objects in its results.  The date is [None] when
    the date text cannot be parsed. *)
Record BacktestDailySnapshot (P : Type) := MkDaySnapshot {
  bd_date : option Z;
  bd_portfolioValue : string;
  bd_cashBalance : string;
  bd_positions : list P;
  bd_unrealizedPnl : string;
  bd_realizedPnl : string;
  bd_fundingPaid : string;
  bd_totalFees : string;
  bd_trades : list BacktestTrade;
  bd_marketData : list (string * PriceEntry);
}.
Arguments MkDaySnapshot {P}. Arguments bd_date {P}. Arguments bd_portfolioValue {P}. Arguments bd_cashBalance {P}.
Arguments bd_positions {P}. Arguments bd_unrealizedPnl {P}. Arguments bd_realizedPnl {P}. Arguments bd_fundingPaid {P}.
Arguments bd_totalFees {P}. Arguments bd_trades {P}. Arguments bd_marketData {P}.

Record BacktestPerformance := MkBtPerformance {
  bf_totalReturnPct : string;
  bf_totalReturnUsd : string;
  bf_annualizedReturnPct : string;
  bf_maxDrawdownPct : string;
}.

Record BacktestTradeStats := MkBtTradeStats {
  bts_totalTrades : Z;
  bts_winningTrades : Z;
  bts_losingTrades : Z;
  bts_winRatePct : string;
  bts_avgWinUsd : string;
  bts_avgLossUsd : string;
  bts_profitFactor : string;
  bts_largestWinUsd : string;
  bts_largestLossUsd : string;
}.

Record BacktestResults := MkBacktestResults {
  br_backtestId : string;
  br_config : BacktestConfig;
  br_startDate : Z;
  br_endDate : Z;
  br_performance : BacktestPerformance;
  br_trades : BacktestTradeStats;
  br_totalPositions : Z;
  br_avgPositionSizeUsd : string;
  br_avgHoldingTimeHours : num;
  br_totalFundingPaid : string;
  br_totalFundingReceived : string;
  br_netFunding : string;
  br_avgDailyFundingRate : string;
  br_totalFees : string;
  br_tradingFees : string;
  br_fundingFees : string;
  br_dailySnapshots : list (BacktestDailySnapshot BacktestPosition);
  br_caveats : list string;
  br_generatedAt : Z;
  br_durationMs : Z;
}.

Inductive BacktestStatus := bt_pending | bt_running | bt_completed | bt_failed | bt_cancelled.
#[export] Instance BacktestStatus_eq_dec : EqDecision BacktestStatus.
Proof. solve_decision. Defined.

Record BacktestProgress := MkProgress {
  pg_currentDate : option Z;
  pg_totalDays : num;
  pg_processedDays : Z;
  pg_percentComplete : num;
}.

Record BacktestRun := MkRun {
  rn_runId : string;
  rn_backtestId : string;
  rn_status : BacktestStatus;
  rn_progress : BacktestProgress;
  rn_startedAt : option Z;
  rn_completedAt : option Z;
  rn_error : option string;
  rn_results : option BacktestResults;
}.

(** ** Days *)

Record DayData := MkDayData { dd_date : option Z; dd_points : list MarketDataPoint }.

(** [iso.split('T')[0]]. *)
Fixpoint before_T (s : string) : string :=
  match s with
  | EmptyString => EmptyString
  | String c s' => if bool_decide (c = "T"%char) then EmptyString else String c (before_T s')
  end.
Definition date_key (point : MarketDataPoint) : string := before_T (toISOString (md_timestamp point)).

Definition add_point (groups : list (string * list MarketDataPoint)) (point : MarketDataPoint)
    : list (string * list MarketDataPoint) :=
  let existing := match jm_get (date_key point) groups with Some l => l | None => [] end in
  jm_set (date_key point) (existing ++ [point]) groups.

(** [a.localeCompare(b) < 0]: on dates of the shape YYYY-MM-DD the order of
    their characters. *)
Definition key_before (a b : string * list MarketDataPoint) : bool := String.ltb a.1 b.1.

Section Days.
Context `{DH : DateHost}.

Definition groupDataByDay (data : list MarketDataPoint) : list DayData :=
  map (fun '(dateStr, dataPoints) => {| dd_date := date_parse dateStr; dd_points := js_sort earlier dataPoints |})
    (js_sort key_before (foldl add_point [] data)).
End Days.

(** ** Signals *)

Inductive BacktestSignal := sig_enter (asset : string) | sig_exit (asset positionId : string) | sig_hold.

Section Simulation.
Context `{DL : DecimalLib}.

(** [a || b] of an optional number and a literal; of an optional text. *)
Definition num_or (o : option num) (d : Z) : num :=
  match o with Some x => if n_isNaN x || n_eq x n_zero then num_of_Z d else x | None => num_of_Z d end.
Definition str_or (o : option string) (d : string) : string :=
  match o with Some s => if String.eqb s "" then d else s | None => d end.

Definition generateSignal (data : MarketDataPoint) (config : BacktestConfig) (positions : list BacktestPosition)
    : exn BacktestSignal :=
  perp ← dec_of_string (md_perpPrice data);
  spot ← dec_of_string (md_spotPrice data);
  let basisPct := d_times (d_div (d_minus perp spot) spot) (dec_of_Z 100) in
  match List.find (fun p => String.eqb (bo_asset p) (md_asset data)) positions with
  | Some existingPosition =>
      if d_lt basisPct (dec_of_num (bs_exitBasisThresholdPct (bc_strategy config)))
      then Ret (sig_exit (md_asset data) (bo_asset existingPosition)) else Ret sig_hold
  | None =>
      if d_gte basisPct (dec_of_num (bs_entryBasisThresholdPct (bc_strategy config)))
      then Ret (sig_enter (md_asset data)) else Ret sig_hold
  end.

(** ** Trades *)

(** What the engine takes from its host: fresh identifiers and the clock, each
    read counted. *)
Class EngineHost := {
  randomUUID : Z -> string;
  clock : Z -> Z;
}.
Record Reads := MkReads { rd_ids : Z; rd_clock : Z; rd_random : Z }.
Context `{EH : EngineHost}.

Definition createId : eff Reads string :=
  fun r => (Ret (randomUUID (rd_ids r)), MkReads (rd_ids r + 1) (rd_clock r) (rd_random r)).
Definition read_clock : eff Reads Z :=
  fun r => (Ret (clock (rd_clock r)), MkReads (rd_ids r) (rd_clock r + 1) (rd_random r)).

(** The rate of a number of basis points. *)
Definition bps (b : num) : num := n_div b (num_of_Z 10000).

Definition executeEntry (data : MarketDataPoint) (config : BacktestConfig) (availableCash : dec) (asset : string)
    : eff Reads (option (list BacktestTrade)) :=
  maxSize ← lift_exn (dec_of_string (bs_maxPositionSizeUsd (bc_strategy config)));
  let positionSize := d_min [maxSize; d_times availableCash (dec_of_num (num_of_dec 95 (-2)))] in
  minSize ← lift_exn (dec_of_string (bs_minPositionSizeUsd (bc_strategy config)));
  if d_lt positionSize minSize then mret None
  else
    spot ← lift_exn (dec_of_string (md_spotPrice data));
    perp ← lift_exn (dec_of_string (md_perpPrice data));
    let takerFeeBps := num_or (bm_takerFeeBps (bc_simulation config)) 5 in
    let slippageBps := num_or (bm_slippageBps (bc_simulation config)) 1 in
    let fees := d_toFixed (d_times positionSize (dec_of_num (bps takerFeeBps))) in
    spotId ← createId;
    let spotTrade := {| bt_tradeId := spotId; bt_timestamp := md_timestamp data; bt_asset := asset; bt_side := long;
      bt_marketType := spot_market; bt_size := d_toFixed (d_div positionSize spot);
      bt_price := d_toFixed (d_times spot (dec_of_num (n_add (num_of_Z 1) (bps slippageBps))));
      bt_notionalUsd := d_toFixed positionSize; bt_fees := fees; bt_fundingPaid := None; bt_realizedPnl := None |} in
    perpId ← createId;
    let perpTrade := {| bt_tradeId := perpId; bt_timestamp := md_timestamp data; bt_asset := asset; bt_side := short;
      bt_marketType := perp_market; bt_size := d_toFixed (d_div positionSize perp);
      bt_price := d_toFixed (d_times perp (dec_of_num (n_sub (num_of_Z 1) (bps slippageBps))));
      bt_notionalUsd := d_toFixed positionSize; bt_fees := fees; bt_fundingPaid := None; bt_realizedPnl := None |} in
    mret (Some [spotTrade; perpTrade]).

Definition executeExit (data : MarketDataPoint) (config : BacktestConfig) (position : option BacktestPosition)
    : eff Reads (option (list BacktestTrade)) :=
  match position with
  | None => mret None
  | Some position =>
      let takerFeeBps := num_or (bm_takerFeeBps (bc_simulation config)) 5 in
      let slippageBps := num_or (bm_slippageBps (bc_simulation config)) 1 in
      current ← lift_exn (dec_of_string (match bo_marketType position with
                                         | spot_market => md_spotPrice data | perp_market => md_perpPrice data end));
      let exitPrice := d_times current (dec_of_num (match bo_side position with
        | long => n_sub (num_of_Z 1) (bps slippageBps) | short => n_add (num_of_Z 1) (bps slippageBps) end)) in
      entryPrice ← lift_exn (dec_of_string (bo_avgEntryPrice position));
      size ← lift_exn (dec_of_string (bo_size position));
      let notional := d_times size exitPrice in
      let pnl := match bo_side position with
        | long => d_times (d_minus exitPrice entryPrice) size | short => d_times (d_minus entryPrice exitPrice) size end in
      id ← createId;
      mret (Some [{| bt_tradeId := id; bt_timestamp := md_timestamp data; bt_asset := bo_asset position;
        bt_side := match bo_side position with long => short | short => long end; bt_marketType := bo_marketType position;
        bt_size := bo_size position; bt_price := d_toFixed exitPrice; bt_notionalUsd := d_toFixed notional;
        bt_fees := d_toFixed (d_times notional (dec_of_num (bps takerFeeBps)));
        bt_fundingPaid := Some (bo_fundingPaid position); bt_realizedPnl := Some (d_toFixed pnl) |}])
  end.

(** ** The state of a simulation *)

(** [sm_heap] holds the position objects; the map [sm_positions] and the
    snapshots refer to them by their place. *)
Record SimState := MkSimState {
  sm_cash : dec;
  sm_heap : list BacktestPosition;
  sm_positions : list (string * nat);
  sm_trades : list BacktestTrade;
  sm_dayTrades : list BacktestTrade;
  sm_snapshots : list (BacktestDailySnapshot nat);
  sm_totalFees : dec;
  sm_fundingPaid : dec;
  sm_fundingReceived : dec;
}.

(** The objects of references, [Array.from(positions.values())]. *)
Definition deref (heap : list BacktestPosition) (refs : list nat) : list BacktestPosition := omap (fun r => heap !! r) refs.
Definition position_values (s : SimState) : list BacktestPosition := deref (sm_heap s) (jm_values (sm_positions s)).
Definition position_at (s : SimState) (key : string) : option BacktestPosition :=
  r ← jm_get key (sm_positions s); sm_heap s !! r.

Definition position_key (t : BacktestTrade) : string := bt_asset t +:+ "-" +:+ market_str (bt_marketType t).

Definition with_positions (s : SimState) (heap : list BacktestPosition) (positions : list (string * nat)) : SimState :=
  MkSimState (sm_cash s) heap positions (sm_trades s) (sm_dayTrades s) (sm_snapshots s) (sm_totalFees s) (sm_fundingPaid s)
    (sm_fundingReceived s).
Definition with_cash (s : SimState) (cash fees : dec) : SimState :=
  MkSimState cash (sm_heap s) (sm_positions s) (sm_trades s) (sm_dayTrades s) (sm_snapshots s) fees (sm_fundingPaid s)
    (sm_fundingReceived s).
Definition push_trade (s : SimState) (t : BacktestTrade) : SimState :=
  MkSimState (sm_cash s) (sm_heap s) (sm_positions s) (sm_trades s ++ [t]) (sm_dayTrades s ++ [t]) (sm_snapshots s)
    (sm_totalFees s) (sm_fundingPaid s) (sm_fundingReceived s).
Definition with_funding (s : SimState) (paid received : dec) : SimState :=
  MkSimState (sm_cash s) (sm_heap s) (sm_positions s) (sm_trades s) (sm_dayTrades s) (sm_snapshots s) (sm_totalFees s) paid
    received.
Definition new_day (s : SimState) : SimState :=
  MkSimState (sm_cash s) (sm_heap s) (sm_positions s) (sm_trades s) [] (sm_snapshots s) (sm_totalFees s) (sm_fundingPaid s)
    (sm_fundingReceived s).
Definition push_snapshot (s : SimState) (d : BacktestDailySnapshot nat) : SimState :=
  MkSimState (sm_cash s) (sm_heap s) (sm_positions s) (sm_trades s) (sm_dayTrades s) (sm_snapshots s ++ [d]) (sm_totalFees s)
    (sm_fundingPaid s) (sm_fundingReceived s).

(** Changes an existing object in place, or adds a new one. *)
Definition updatePositionFromTrade (s : SimState) (trade : BacktestTrade) : exn SimState :=
  match jm_get (position_key trade) (sm_positions s), position_at s (position_key trade) with
  | Some r, Some existing =>
      size ← dec_of_string (bo_size existing);
      added ← dec_of_string (bt_size trade);
      notional ← dec_of_string (bo_notionalUsd existing);
      addedNotional ← dec_of_string (bt_notionalUsd trade);
      let newSize := d_plus size added in
      let newNotional := d_plus notional addedNotional in
      let updated := {| bo_asset := bo_asset existing; bo_side := bo_side existing; bo_marketType := bo_marketType existing;
        bo_size := d_toFixed newSize; bo_avgEntryPrice := d_toFixed (d_div newNotional newSize);
        bo_notionalUsd := d_toFixed newNotional; bo_unrealizedPnl := bo_unrealizedPnl existing;
        bo_realizedPnl := bo_realizedPnl existing; bo_fundingPaid := bo_fundingPaid existing;
        bo_openedAt := bo_openedAt existing |} in
      Ret (with_positions s (<[r := updated]> (sm_heap s)) (sm_positions s))
  | _, _ =>
      let position := {| bo_asset := bt_asset trade; bo_side := bt_side trade; bo_marketType := bt_marketType trade;
        bo_size := bt_size trade; bo_avgEntryPrice := bt_price trade; bo_notionalUsd := bt_notionalUsd trade;
        bo_unrealizedPnl := "0"; bo_realizedPnl := "0"; bo_fundingPaid := "0"; bo_openedAt := bt_timestamp trade |} in
      Ret (with_positions s (sm_heap s ++ [position]) (jm_set (position_key trade) (length (sm_heap s)) (sm_positions s)))
  end.

(** ** Funding *)

(** The payments of the short perpetual positions, by the name of their asset. *)
Definition applyFundingPayments (data : MarketDataPoint) (positions : list BacktestPosition) : exn (list (string * string)) :=
  omap_exn (fun position =>
    if bool_decide (bo_marketType position = perp_market) && bool_decide (bo_side position = short) then
      payment ← calculateFundingPayment position (md_fundingRate data); Ret (Some (bo_asset position, payment))
    else Ret None) positions.

Definition book_payment (s : SimState) (payment : string * string) : exn SimState :=
  amount ← dec_of_string payment.2;
  let s1 := if d_gte amount (dec_of_Z 0) then with_funding s (sm_fundingPaid s) (d_plus (sm_fundingReceived s) amount)
            else with_funding s (d_plus (sm_fundingPaid s) amount) (sm_fundingReceived s) in
  match jm_get payment.1 (sm_positions s), position_at s payment.1 with
  | Some r, Some p =>
      paid ← dec_of_string (bo_fundingPaid p);
      let updated := {| bo_asset := bo_asset p; bo_side := bo_side p; bo_marketType := bo_marketType p; bo_size := bo_size p;
        bo_avgEntryPrice := bo_avgEntryPrice p; bo_notionalUsd := bo_notionalUsd p; bo_unrealizedPnl := bo_unrealizedPnl p;
        bo_realizedPnl := bo_realizedPnl p; bo_fundingPaid := d_toFixed (d_plus paid amount); bo_openedAt := bo_openedAt p |} in
      Ret (with_positions s1 (<[r := updated]> (sm_heap s1)) (sm_positions s1))
  | _, _ => Ret s1
  end.

(** ** A market data point *)

Definition book_entry (s : SimState) (trade : BacktestTrade) : exn SimState :=
  s1 ← updatePositionFromTrade (push_trade s trade) trade;
  notional ← dec_of_string (bt_notionalUsd trade);
  fees ← dec_of_string (bt_fees trade);
  Ret (with_cash s1 (d_minus (d_minus (sm_cash s1) notional) fees) (d_plus (sm_totalFees s1) fees)).

Definition book_exit (s : SimState) (trade : BacktestTrade) : exn SimState :=
  let s1 := push_trade s trade in
  notional ← dec_of_string (bt_notionalUsd trade);
  fees ← dec_of_string (bt_fees trade);
  pnl ← dec_of_string (str_or (bt_realizedPnl trade) "0");
  Ret (with_cash s1 (d_minus (d_plus (d_plus (sm_cash s1) notional) pnl) fees) (d_plus (sm_totalFees s1) fees)).

Definition trade_on_signal (config : BacktestConfig) (s : SimState) (data : MarketDataPoint) : eff Reads SimState :=
  sig ← lift_exn (generateSignal data config (position_values s));
  match sig with
  | sig_enter asset =>
      if String.eqb asset "" then mret s
      else
        entry ← executeEntry data config (sm_cash s) asset;
        match entry with Some trades => lift_exn (fold_exn book_entry s trades) | None => mret s end
  | sig_exit _ positionId =>
      if String.eqb positionId "" then mret s
      else
        exit_ ← executeExit data config (position_at s positionId);
        match exit_ with
        | Some trades =>
            s1 ← lift_exn (fold_exn book_exit s trades);
            mret (with_positions s1 (sm_heap s1) (jm_delete positionId (sm_positions s1)))
        | None => mret s
        end
  | sig_hold => mret s
  end.

Definition process_point (config : BacktestConfig) (s : SimState) (data : MarketDataPoint) : eff Reads SimState :=
  s1 ← trade_on_signal config s data;
  payments ← lift_exn (applyFundingPayments data (position_values s1));
  lift_exn (fold_exn book_payment s1 payments).

(** ** The end of a day *)

Definition getLatestPrices (dataPoints : list MarketDataPoint) : exn (list (string * PriceEntry)) :=
  fold_exn (fun prices data =>
    perp ← dec_of_string (md_perpPrice data);
    spot ← dec_of_string (md_spotPrice data);
    Ret (jm_set (md_asset data) (MkPriceEntry (md_spotPrice data) (md_perpPrice data) (md_fundingRate data)
           (d_toFixed (d_minus perp spot))) prices)) [] dataPoints.

(** The price of a position; none when there is no entry or it is empty. *)
Definition price_of (prices : list (string * PriceEntry)) (p : BacktestPosition) : option string :=
  e ← jm_get (bo_asset p) prices;
  let price := match bo_marketType p with spot_market => pe_spotPrice e | perp_market => pe_perpPrice e end in
  if String.eqb price "" then None else Some price.

Definition calculatePortfolioValue (cash : dec) (positions : list BacktestPosition) (prices : list (string * PriceEntry)) : exn dec :=
  fold_exn (fun value p =>
    match price_of prices p with
    | Some price =>
        size ← dec_of_string (bo_size p);
        price ← dec_of_string price;
        Ret (d_plus value (d_times size price))
    | None => Ret value
    end) cash positions.

Definition calculateUnrealizedPnl (positions : list BacktestPosition) (prices : list (string * PriceEntry)) : exn dec :=
  fold_exn (fun total p =>
    match price_of prices p with
    | Some price =>
        entryPrice ← dec_of_string (bo_avgEntryPrice p);
        size ← dec_of_string (bo_size p);
        current ← dec_of_string price;
        Ret (d_plus total (match bo_side p with
                           | long => d_times (d_minus current entryPrice) size
                           | short => d_times (d_minus entryPrice current) size
                           end))
    | None => Ret total
    end) (dec_of_Z 0) positions.

(** [trades.reduce((sum, t) => sum.plus(t.realizedPnl || '0'), new Decimal(0))]. *)
Definition sum_realized (trades : list BacktestTrade) : exn dec :=
  fold_exn (fun sum t => d ← dec_of_string (str_or (bt_realizedPnl t) "0"); Ret (d_plus sum d)) (dec_of_Z 0) trades.

Definition end_of_day (s : SimState) (day : DayData) : exn SimState :=
  currentPrices ← getLatestPrices (dd_points day);
  portfolioValue ← calculatePortfolioValue (sm_cash s) (position_values s) currentPrices;
  unrealizedPnl ← calculateUnrealizedPnl (position_values s) currentPrices;
  realizedPnl ← sum_realized (sm_trades s);
  Ret (push_snapshot s {| bd_date := dd_date day; bd_portfolioValue := d_toFixed portfolioValue;
    bd_cashBalance := d_toFixed (sm_cash s); bd_positions := jm_values (sm_positions s);
    bd_unrealizedPnl := d_toFixed unrealizedPnl; bd_realizedPnl := d_toFixed realizedPnl;
    bd_fundingPaid := d_toFixed (sm_fundingPaid s); bd_totalFees := d_toFixed (sm_totalFees s);
    bd_trades := sm_dayTrades s; bd_marketData := currentPrices |}).

(** A day of the simulation: its points in order, then the snapshot. *)
Definition simulate_day (config : BacktestConfig) (s : SimState) (day : DayData) : eff Reads SimState :=
  s1 ← fold_eff (process_point config) (new_day s) (dd_points day);
  lift_exn (end_of_day s1 day).

Definition initial_state (initialCapital : dec) : SimState :=
  MkSimState initialCapital [] [] [] [] [] (dec_of_Z 0) (dec_of_Z 0) (dec_of_Z 0).

(** ** Results *)

(** The largest fall from a peak, in percent of the peak. *)
Definition drawdown_step (acc : dec * dec) (value : dec) : dec * dec :=
  let '(maxDrawdownPct, peak0) := acc in
  let peak := if d_gt value peak0 then value else peak0 in
  let drawdown := if d_gt peak (dec_of_Z 0) then d_times (d_div (d_minus peak value) peak) (dec_of_Z 100) else dec_of_Z 0 in
  (if d_gt drawdown maxDrawdownPct then drawdown else maxDrawdownPct, peak).
Definition max_drawdown (values : list dec) : dec := (foldl drawdown_step (dec_of_Z 0, dec_of_Z 0) values).1.

(** The trades whose realized profit satisfies [p]. *)
Definition filter_realized (p : dec -> bool) (trades : list BacktestTrade) : exn (list BacktestTrade) :=
  omap_exn (fun t => d ← dec_of_string (str_or (bt_realizedPnl t) "0"); Ret (if p d then Some t else None)) trades.

Definition average_realized (trades : list BacktestTrade) : exn dec :=
  if is_empty trades then Ret (dec_of_Z 0)
  else sum ← sum_realized trades; Ret (d_div sum (dec_of_Z (Z.of_nat (length trades)))).
Definition extreme_realized (f : list dec -> dec) (trades : list BacktestTrade) : exn dec :=
  fold_exn (fun m t => d ← dec_of_string (str_or (bt_realizedPnl t) "0"); Ret (f [m; d])) (dec_of_Z 0) trades.

Definition trade_stats (trades : list BacktestTrade) : exn BacktestTradeStats :=
  winningTrades ← filter_realized (fun d => d_gt d (dec_of_Z 0)) trades;
  losingTrades ← filter_realized (fun d => d_lt d (dec_of_Z 0)) trades;
  avgWin ← average_realized winningTrades;
  avgLoss ← average_realized losingTrades;
  grossProfit ← sum_realized winningTrades;
  losses ← sum_realized losingTrades;
  let grossLoss := d_abs losses in
  let profitFactor := if d_gt grossLoss (dec_of_Z 0) then d_div grossProfit grossLoss else dec_of_Z 0 in
  largestWin ← extreme_realized d_max winningTrades;
  largestLoss ← extreme_realized d_min losingTrades;
  let n := Z.of_nat (length trades) in
  Ret {| bts_totalTrades := n; bts_winningTrades := Z.of_nat (length winningTrades);
         bts_losingTrades := Z.of_nat (length losingTrades);
         bts_winRatePct := if is_empty trades then "0"
           else d_toFixedN 2 (d_times (d_div (dec_of_Z (Z.of_nat (length winningTrades))) (dec_of_Z n)) (dec_of_Z 100));
         bts_avgWinUsd := d_toFixedN 2 avgWin; bts_avgLossUsd := d_toFixedN 2 avgLoss;
         bts_profitFactor := d_toFixedN 2 profitFactor; bts_largestWinUsd := d_toFixedN 2 largestWin;
         bts_largestLossUsd := d_toFixedN 2 largestLoss |}.

Definition performance (initialCapital finalValue : dec) (values : list dec) : BacktestPerformance :=
  let totalReturnUsd := d_minus finalValue initialCapital in
  let totalReturnPct := if d_gt initialCapital (dec_of_Z 0) then d_times (d_div totalReturnUsd initialCapital) (dec_of_Z 100)
                        else dec_of_Z 0 in
  let years := n_div (num_of_Z (Z.of_nat (length values))) (num_of_Z 365) in
  let annualizedReturn := if n_gt years n_zero then
      d_times (d_minus (d_pow (d_plus (d_div totalReturnUsd initialCapital) (dec_of_Z 1)) (n_div (num_of_Z 1) years)) (dec_of_Z 1))
        (dec_of_Z 100)
    else dec_of_Z 0 in
  {| bf_totalReturnPct := d_toFixedN 4 totalReturnPct; bf_totalReturnUsd := d_toFixedN 2 totalReturnUsd;
     bf_annualizedReturnPct := d_toFixedN 4 annualizedReturn; bf_maxDrawdownPct := d_toFixedN 4 (max_drawdown values) |}.

(** The hours since the entry trade of a position, when there is one. *)
Definition holding_hours (trades : list BacktestTrade) (p : BacktestPosition) : eff Reads (option num) :=
  match List.find (fun t => String.eqb (bt_asset t) (bo_asset p) && bool_decide (bt_marketType t = bo_marketType p)
                            && bool_decide (bt_side t = bo_side p)) trades with
  | Some t => now ← read_clock; mret (Some (n_div (num_of_Z (now - bt_timestamp t)) (num_of_Z (1000 * 60 * 60))))
  | None => mret None
  end.

Definition CAVEATS : list string :=
  ["Historical simulation uses synthesized market data unless external data provider is configured";
   "Slippage model is simplified; real execution may vary significantly";
   "Funding rates are approximated from 8-hour snapshots";
   "Market impact and liquidity constraints not modeled";
   "Results represent theoretical performance, not actual trading results"].

(** A snapshot with the objects its references lead to. *)
Definition show_snapshot (heap : list BacktestPosition) (s : BacktestDailySnapshot nat) : BacktestDailySnapshot BacktestPosition :=
  {| bd_date := bd_date s; bd_portfolioValue := bd_portfolioValue s; bd_cashBalance := bd_cashBalance s;
     bd_positions := deref heap (bd_positions s); bd_unrealizedPnl := bd_unrealizedPnl s; bd_realizedPnl := bd_realizedPnl s;
     bd_fundingPaid := bd_fundingPaid s; bd_totalFees := bd_totalFees s; bd_trades := bd_trades s; bd_marketData := bd_marketData s |}.

(** [snapshot?.date || fallback]; an invalid date is an object and truthy, but
    its time is none: the snapshots of generated data have dates. *)
Definition snapshot_date (s : option (BacktestDailySnapshot nat)) (fallback : Z) : Z := or_else (s ≫= bd_date) fallback.

Definition buildResults (config : BacktestConfig) (s : SimState) (durationMs : Z) : eff Reads BacktestResults :=
  initialCapital ← lift_exn (dec_of_string (bc_initialCapitalUsd config));
  values ← lift_exn (map_exn (fun d => dec_of_string (bd_portfolioValue d)) (sm_snapshots s));
  let finalValue := List.last values initialCapital in
  let days := Z.of_nat (length (sm_snapshots s)) in
  stats ← lift_exn (trade_stats (sm_trades s));
  let finalPositions := position_values s in
  hours ← fold_eff (fun acc p => h ← holding_hours (sm_trades s) p; mret (match h with Some x => acc ++ [x] | None => acc end))
            [] finalPositions;
  let avgHoldingTime := if is_empty hours then n_zero
                        else n_div (foldl n_add n_zero hours) (num_of_Z (Z.of_nat (length hours))) in
  notionals ← lift_exn (fold_exn (fun sum p => d ← dec_of_string (bo_notionalUsd p); Ret (d_plus sum d)) (dec_of_Z 0) finalPositions);
  let net := d_plus (sm_fundingReceived s) (sm_fundingPaid s) in
  now ← read_clock;
  mret {| br_backtestId := bc_backtestId config; br_config := config;
    br_startDate := snapshot_date (head (sm_snapshots s)) (bp_startDate (bc_period config));
    br_endDate := snapshot_date (last (sm_snapshots s)) (bp_endDate (bc_period config));
    br_performance := performance initialCapital finalValue values;
    br_trades := stats;
    br_totalPositions := Z.of_nat (length finalPositions);
    br_avgPositionSizeUsd := if is_empty finalPositions then "0"
      else d_toFixedN 2 (d_div notionals (dec_of_Z (Z.of_nat (length finalPositions))));
    br_avgHoldingTimeHours := n_round avgHoldingTime;
    br_totalFundingPaid := d_toFixedN 2 (sm_fundingPaid s); br_totalFundingReceived := d_toFixedN 2 (sm_fundingReceived s);
    br_netFunding := d_toFixedN 2 net;
    br_avgDailyFundingRate := if 0 <? days then d_toFixedN 4 (d_div net (dec_of_Z days)) else "0";
    br_totalFees := d_toFixedN 2 (sm_totalFees s); br_tradingFees := d_toFixedN 2 (sm_totalFees s); br_fundingFees := "0";
    br_dailySnapshots := map (show_snapshot (sm_heap s)) (sm_snapshots s);
    br_caveats := CAVEATS; br_generatedAt := now; br_durationMs := durationMs |}.
End Simulation.

(** * What a simulation does not do *)

Lemma str_length_app s t : String.length (s +:+ t) = (String.length s + String.length t)%nat.
Proof. induction s as [|c s IH]; [done|]. exact (f_equal S IH). Qed.

Lemma append_inj_len s1 s2 t1 t2 : String.length t1 = String.length t2 -> s1 +:+ t1 = s2 +:+ t2 -> s1 = s2 /\ t1 = t2.
Proof.
  intros Hlen. revert s2. induction s1 as [|c s1 IH]; intros [|c' s2] H; cbn in H.
  - done.
  - exfalso. apply (f_equal String.length) in H. rewrite ?str_length_app in H. cbn [String.length] in H. rewrite ?str_length_app in H. lia.
  - exfalso. apply (f_equal String.length) in H. rewrite ?str_length_app in H. cbn [String.length] in H. rewrite ?str_length_app in H. lia.
  - injection H as -> H. by destruct (IH _ H) as [-> ->].
Qed.

Definition key_of (asset : string) (m : BacktestMarketType) : string := asset +:+ "-" +:+ market_str m.
Lemma key_of_inj a b m n : key_of a m = key_of b n -> a = b /\ m = n.
Proof.
  intros H. apply append_inj_len in H as [-> H]; [|by destruct m, n]. split; [done|]. by destruct m, n.
Qed.

(** Asset names none of which is another with "-spot" or "-perp" appended. *)
Definition plain (names : list string) : Prop := forall a b m, a ∈ names -> b ∈ names -> a <> key_of b m.

Section Never.
Context `{DL : DecimalLib} `{EH : EngineHost} (names : list string) (c0 : dec).

(** The cash left after entries: each takes its notional and its fees. *)
Definition paid_out (c : dec) (trades : list BacktestTrade) : exn dec :=
  fold_exn (fun c t => n ← dec_of_string (bt_notionalUsd t); f ← dec_of_string (bt_fees t); Ret (d_minus (d_minus c n) f))
    c trades.

(** Every key of the map leads to an object of that asset and market; no object
    has received funding, no trade has realized a profit, and the cash is what
    the entries left of the initial capital. *)
Record sim_ok (s : SimState) : Prop := {
  so_tied : forall key r, jm_get key (sm_positions s) = Some r ->
    exists p, sm_heap s !! r = Some p /\ key = key_of (bo_asset p) (bo_marketType p);
  so_heap : Forall (fun p => bo_asset p ∈ names /\ bo_fundingPaid p = "0" /\ bo_realizedPnl p = "0") (sm_heap s);
  so_trades : Forall (fun t => bt_realizedPnl t = None /\ bt_fundingPaid t = None) (sm_trades s);
  so_cash : paid_out c0 (sm_trades s) = Ret (sm_cash s);
}.

(** Nothing that was there is removed or changed. *)
Definition extends (s s' : SimState) : Prop :=
  sm_heap s `prefix_of` sm_heap s' /\ sm_positions s `prefix_of` sm_positions s' /\ sm_trades s `prefix_of` sm_trades s'.

#[export] Instance extends_preorder : PreOrder extends.
Proof.
  split; [intros s; repeat split; reflexivity|].
  intros s1 s2 s3 (H1 & H2 & H3) (H4 & H5 & H6). repeat split; by etrans.
Qed.

Lemma jm_set_fresh {K V} `{EqDecision K} (k : K) (v : V) m : jm_get k m = None -> jm_set k v m = m ++ [(k, v)].
Proof.
  induction m as [|[k' v'] m IH]; [done|]. cbn [jm_get jm_set]. destruct (decide (k = k')); [done|]. intros H. by rewrite IH.
Qed.

Lemma position_value_of s key r p : jm_get key (sm_positions s) = Some r -> sm_heap s !! r = Some p -> p ∈ position_values s.
Proof.
  intros Hk Hr. unfold position_values, deref. apply list_elem_of_omap. exists r. split; [|done].
  apply jm_get_In in Hk. unfold jm_values. apply list_elem_of_fmap. by exists (key, r).
Qed.

Lemma position_value_heap s p : p ∈ position_values s -> p ∈ sm_heap s.
Proof. unfold position_values, deref. intros (r & _ & H)%list_elem_of_omap. by eapply list_elem_of_lookup_2. Qed.

(** An asset without a position has no key. *)
Lemma no_position_no_key s asset m : sim_ok s ->
  List.find (fun p => String.eqb (bo_asset p) asset) (position_values s) = None -> jm_get (key_of asset m) (sm_positions s) = None.
Proof.
  intros Hs Hf. destruct (jm_get _ _) as [r|] eqn:E; [|done]. exfalso.
  destruct (so_tied s Hs _ _ E) as (p & Hp & [Ha _]%key_of_inj).
  pose proof (position_value_of _ _ _ _ E Hp) as Hin. apply list_elem_of_In in Hin.
  pose proof (find_none _ _ Hf _ Hin) as H. cbn in H. by rewrite <- Ha, String.eqb_refl in H.
Qed.

(** A name is no key. *)
Lemma name_no_key s asset : plain names -> sim_ok s -> asset ∈ names -> jm_get asset (sm_positions s) = None.
Proof.
  intros Hpl Hs Ha. destruct (jm_get _ _) as [r|] eqn:E; [|done]. exfalso.
  destruct (so_tied s Hs _ _ E) as (p & Hp & Hk).
  pose proof (proj1 (List.Forall_forall _ _) (so_heap s Hs)) as H. apply list_elem_of_lookup_2 in Hp.
  apply list_elem_of_In in Hp. destruct (H _ Hp) as (Hn & _). by apply (Hpl asset (bo_asset p) (bo_marketType p)).
Qed.

(** Booking an entry whose key is fresh adds one object, one key, one trade. *)
Lemma book_entry_ok s t s' : sim_ok s -> bt_asset t ∈ names -> bt_realizedPnl t = None -> bt_fundingPaid t = None ->
  jm_get (position_key t) (sm_positions s) = None -> book_entry s t = Ret s' ->
  sim_ok s' /\ extends s s' /\ sm_snapshots s' = sm_snapshots s /\
  (forall k, k <> position_key t -> jm_get k (sm_positions s') = jm_get k (sm_positions s)) /\
  sm_fundingPaid s' = sm_fundingPaid s /\ sm_fundingReceived s' = sm_fundingReceived s.
Proof.
  intros [Ht Hh Htr Hc] Ha Hr Hf Hk H. unfold book_entry, updatePositionFromTrade in H. cbn [sm_positions push_trade] in H.
  rewrite Hk in H. cbn [mbind exn_bind] in H. exn_inv H as n En. exn_inv H as f Ef. injection H as <-.
  cbn [with_cash with_positions push_trade sm_positions sm_heap sm_trades sm_cash sm_snapshots sm_fundingPaid sm_fundingReceived].
  rewrite (jm_set_fresh _ _ _ Hk). split_and!.
  - constructor; cbn [with_cash with_positions push_trade sm_positions sm_heap sm_trades].
    + intros key r. rewrite <- (jm_set_fresh _ _ _ Hk), jm_get_set. case_decide as Hd.
      * intros [= <-]. eexists. split; [by apply list_lookup_middle|]. exact Hd.
      * intros E. destruct (Ht _ _ E) as (p & Hp & ->). exists p. split; [|done]. by apply lookup_app_l_Some.
    + apply Forall_app_2; [done|]. by constructor.
    + apply Forall_app_2; [done|]. by constructor.
    + unfold paid_out in *. rewrite fold_exn_app, Hc. cbn [mbind exn_bind fold_exn]. by rewrite En, Ef.
  - repeat split; cbn [with_cash with_positions push_trade sm_positions sm_heap sm_trades]; by eexists.
  - done.
  - intros k Hne. rewrite <- (jm_set_fresh _ _ _ Hk). by apply jm_get_set_ne.
  - done.
  - done.
Qed.

(** The trades of an entry: the asset bought in spot and sold in perp. *)
Lemma entry_trades data config cash asset r ts r' : executeEntry data config cash asset r = (Ret (Some ts), r') ->
  exists t1 t2, ts = [t1; t2] /\ bt_asset t1 = asset /\ bt_asset t2 = asset /\ bt_marketType t1 = spot_market /\
    bt_marketType t2 = perp_market /\ bt_realizedPnl t1 = None /\ bt_realizedPnl t2 = None /\
    bt_fundingPaid t1 = None /\ bt_fundingPaid t2 = None.
Proof.
  unfold executeEntry. intros H. eff_inv H as m r1 E1; [done|]. eff_inv H as mn r2 E2; [done|].
  destruct (d_lt _ mn); [done|]. eff_inv H as sp r3 E3; [done|]. eff_inv H as pp r4 E4; [done|].
  eff_inv H as i1 r5 E5; [done|]. eff_inv H as i2 r6 E6; [done|]. injection H as <- _. by do 2 eexists.
Qed.

Lemma trade_on_signal_ok config s data r s' r' : plain names -> sim_ok s -> md_asset data ∈ names ->
  trade_on_signal config s data r = (Ret s', r') ->
  sim_ok s' /\ extends s s' /\ sm_snapshots s' = sm_snapshots s.
Proof.
  intros Hpl Hs Ha. unfold trade_on_signal. intros H. eff_inv H as sig r1 E1; [done|].
  injection E1 as E1 _. unfold generateSignal in E1. exn_inv E1 as perp Ep. exn_inv E1 as spot Es.
  destruct (List.find _ _) as [p|] eqn:Hf; destruct (_ : bool) in E1; injection E1 as <-; try (injection H as <- _; split_and!; done).
  - (* an exit finds no position under the name of the asset *)
    apply find_some in Hf as [Hp Heq%String.eqb_eq]. rewrite Heq in H.
    destruct (String.eqb (md_asset data) ""); [injection H as <- _; split_and!; done|].
    unfold position_at in H. rewrite (name_no_key _ _ Hpl Hs Ha) in H. injection H as <- _. by split_and!.
  - destruct (String.eqb (md_asset data) ""); [injection H as <- _; split_and!; done|].
    eff_inv H as entry r2 E2; [done|]. destruct entry as [ts|]; [|injection H as <- _; split_and!; done].
    destruct (entry_trades _ _ _ _ _ _ _ E2) as (t1 & t2 & -> & A1 & A2 & M1 & M2 & P1 & P2 & F1 & F2).
    injection H as H _. cbn [fold_exn] in H. exn_inv H as s1 Eb1. exn_inv H as s2 Eb2. injection H as <-.
    assert (K1 : position_key t1 = key_of (md_asset data) spot_market) by (unfold position_key; by rewrite A1, M1).
    assert (K2 : position_key t2 = key_of (md_asset data) perp_market) by (unfold position_key; by rewrite A2, M2).
    destruct (book_entry_ok s t1 s1) as (Hs1 & X1 & S1 & O1 & _); try done; [by rewrite A1|by rewrite K1; apply no_position_no_key|].
    destruct (book_entry_ok s1 t2 s2) as (Hs2 & X2 & S2 & _); try done; [by rewrite A2| |].
    + rewrite O1; rewrite K2; [by apply no_position_no_key|]. rewrite K1. by intros [_ ?]%key_of_inj.
    + split_and!; [done|by etrans|by rewrite S2].
Qed.

(** A payment goes to the totals only. *)
Lemma book_payment_ok s pay s' : plain names -> sim_ok s -> pay.1 ∈ names -> book_payment s pay = Ret s' ->
  sim_ok s' /\ extends s s' /\ sm_snapshots s' = sm_snapshots s.
Proof.
  intros Hpl Hs Hn H. unfold book_payment in H. exn_inv H as a Ea. rewrite (name_no_key _ _ Hpl Hs Hn) in H.
  injection H as <-. destruct Hs as [H1 H2 H3 H4]. destruct (d_gte a _); (split_and!; [by constructor|by repeat split|done]).
Qed.

Lemma payments_named data s pays : sim_ok s -> applyFundingPayments data (position_values s) = Ret pays ->
  Forall (fun pay => pay.1 ∈ names) pays.
Proof.
  intros Hs H. apply Forall_forall. intros pay Hpay.
  destruct (omap_exn_elem _ _ _ _ H Hpay) as (p & Hp%position_value_heap & E).
  destruct (_ && _) in E; [|done]. exn_inv E as a Ea. injection E as <-. cbn [fst].
  pose proof (so_heap s Hs) as F. rewrite Forall_forall in F. by apply F.
Qed.

Lemma process_point_ok config s data r s' r' : plain names -> sim_ok s -> md_asset data ∈ names ->
  process_point config s data r = (Ret s', r') -> sim_ok s' /\ extends s s' /\ sm_snapshots s' = sm_snapshots s.
Proof.
  intros Hpl Hs Ha H. unfold process_point in H. eff_inv H as s1 r1 E1; [done|].
  destruct (trade_on_signal_ok _ _ _ _ _ _ Hpl Hs Ha E1) as (Hs1 & X1 & S1).
  eff_inv H as pays r2 E2; [done|]. injection E2 as E2 _. injection H as H _.
  pose proof (payments_named _ _ _ Hs1 E2) as Hn. clear E1 E2. revert s1 Hs1 X1 S1 H.
  induction Hn as [|pay pays Hp _ IH]; intros s1 Hs1 X1 S1 H; [injection H as <-; done|].
  cbn [fold_exn] in H. exn_inv H as s2 E. destruct (book_payment_ok _ _ _ Hpl Hs1 Hp E) as (Hs2 & X2 & S2).
  apply (IH s2); [done|by etrans|by rewrite S2|done].
Qed.
End Never.

Section Never_exits.
Context `{DL : DecimalLib} `{EH : EngineHost} (names : list string) (c0 : dec).

Definition named (day : DayData) : Prop := Forall (fun p => md_asset p ∈ names) (dd_points day).

(** A state after whole days: in order, and every snapshot shows positions that
    are still held. *)
Definition days_ok (s : SimState) : Prop :=
  sim_ok names c0 s /\ Forall (fun d => bd_positions d `prefix_of` jm_values (sm_positions s)) (sm_snapshots s).

Lemma points_ok config ps : plain names -> Forall (fun p => md_asset p ∈ names) ps -> forall s r s' r',
  sim_ok names c0 s -> fold_eff (process_point config) s ps r = (Ret s', r') ->
  sim_ok names c0 s' /\ extends s s' /\ sm_snapshots s' = sm_snapshots s.
Proof.
  intros Hpl Hps. induction Hps as [|p ps Hp _ IH]; intros s r s' r' Hs H; [injection H as <- _; split_and!; done|].
  cbn [fold_eff] in H. eff_inv H as s1 r1 E; [done|]. destruct (process_point_ok _ _ _ _ _ _ _ _ Hpl Hs Hp E) as (H1 & X1 & S1).
  destruct (IH _ _ _ _ H1 H) as (H2 & X2 & S2). split_and!; [done|by etrans|by rewrite S2].
Qed.

Lemma simulate_day_ok config s day r s' r' : plain names -> named day -> days_ok s ->
  simulate_day config s day r = (Ret s', r') -> days_ok s' /\ extends s s'.
Proof.
  intros Hpl Hd [Hs Hsn] H. unfold simulate_day in H. eff_inv H as s1 r1 E; [done|].
  assert (Hs0 : sim_ok names c0 (new_day s)) by (destruct Hs; by constructor).
  destruct (points_ok _ _ Hpl Hd _ _ _ _ Hs0 E) as (H1 & X1 & S1).
  injection H as H _. unfold end_of_day in H. exn_inv H as pr Ep. exn_inv H as pv Ev. exn_inv H as up Eu. exn_inv H as rp Er.
  injection H as <-. split; [split|].
  - destruct H1. by constructor.
  - cbn [push_snapshot sm_snapshots sm_positions]. rewrite S1. apply Forall_app. split.
    + eapply Forall_impl; [exact Hsn|]. cbn. intros d Hpre. etrans; [exact Hpre|].
      destruct X1 as (_ & [l ->] & _). unfold jm_values. cbn [sm_positions new_day]. rewrite fmap_app. by eexists.
    + constructor; [|constructor]. by cbn [bd_positions].
  - exact X1.
Qed.

Lemma days_never_exit config days : plain names -> Forall named days -> forall s r s' r', days_ok s ->
  fold_eff (simulate_day config) s days r = (Ret s', r') -> days_ok s' /\ extends s s'.
Proof.
  intros Hpl Hds. induction Hds as [|d days Hd _ IH]; intros s r s' r' Hs H; [injection H as <- _; done|].
  cbn [fold_eff] in H. eff_inv H as s1 r1 E; [done|]. destruct (simulate_day_ok _ _ _ _ _ _ Hpl Hd Hs E) as (H1 & X1).
  destruct (IH _ _ _ _ H1 H) as (H2 & X2). split; [done|by etrans].
Qed.

Lemma initial_days_ok : days_ok (initial_state c0).
Proof. repeat split; try constructor. intros key r H. done. Qed.

Context `{LW : !DecimalLaws}.

Lemma nothing_realized (p : dec -> bool) trades : (forall d, units d 0 -> p d = false) ->
  Forall (fun t => bt_realizedPnl t = None /\ bt_fundingPaid t = None) trades -> filter_realized p trades = Ret [].
Proof.
  intros Hp. induction 1 as [|t l [Ht _] _ IH]; [done|]. unfold filter_realized in *. cbn [omap_exn]. rewrite Ht.
  destruct (amount_zero 4) as (d & Ed & Sd). cbn [str_or]. rewrite Ed. cbn [mbind exn_bind]. rewrite (Hp d Sd), IH. done.
Qed.

(** C27. A backtest never closes a position.  When no asset is named like the key
    of another, whatever the market data, no simulated day ever books an exit:
    no trade realizes a profit, so the results count neither winners nor
    losers; the positions of every snapshot are held to the end; no funding
    reaches a position or the cash, which is the initial capital less the
    notionals and fees of the entries. *)
Theorem backtest_never_exits (config : BacktestConfig) (days : list DayData) (r r' : Reads) (s : SimState)
    (Hnames : plain names) (Hdays : Forall named days)
    (Hrun : fold_eff (simulate_day config) (initial_state c0) days r = (Ret s, r')) :
  Forall (fun t => bt_realizedPnl t = None) (sm_trades s) /\
  (exists st, trade_stats (sm_trades s) = Ret st /\ bts_winningTrades st = 0 /\ bts_losingTrades st = 0) /\
  Forall (fun d => bd_positions d `prefix_of` jm_values (sm_positions s)) (sm_snapshots s) /\
  Forall (fun p => bo_fundingPaid p = "0") (sm_heap s) /\
  paid_out c0 (sm_trades s) = Ret (sm_cash s).
Proof.
  destruct (days_never_exit config days Hnames Hdays _ _ _ _ initial_days_ok Hrun) as [[[_ Hh Ht Hc] Hsn] _].
  split_and!; try done.
  - eapply Forall_impl; [exact Ht|]. by intros t [].
  - unfold trade_stats.
    exn_step (nothing_realized (fun d => d_gt d (dec_of_Z 0)) _ (fun d Hd => units_gt _ _ _ _ Hd units_zero) Ht).
    exn_step (nothing_realized (fun d => d_lt d (dec_of_Z 0)) _ (fun d Hd => units_lt _ _ _ _ Hd units_zero) Ht).
    eexists. split; [reflexivity|done].
  - eapply Forall_impl; [exact Hh|]. by intros p (_ & ? & _).
Qed.
End Never_exits.

(** * Valuation and drawdown *)

Section Value.
Context `{DL : DecimalLib} `{LW : !DecimalLaws}.

(** A position with its price: size, entry price and current price in units. *)
Record Valued := MkValued { va_size : Z; va_entry : Z; va_price : Z }.
Definition valued (j k : Z) (prices : list (string * PriceEntry)) (p : BacktestPosition) (v : Valued) : Prop :=
  amount j (bo_size p) (va_size v) /\ amount k (bo_avgEntryPrice p) (va_entry v) /\
  exists price, price_of prices p = Some price /\ amount k price (va_price v).

(** What the portfolio value counts, and the profit of the position's side. *)
Definition counted (v : Valued) : Z := va_size v * va_price v.
Definition side_profit (side : PositionSide) (v : Valued) : Z :=
  match side with long => (va_price v - va_entry v) * va_size v | short => (va_entry v - va_price v) * va_size v end.
Definition profit_of (pv : BacktestPosition * Valued) : Z := side_profit (bo_side pv.1) pv.2.

Definition value_bound (vs : list Valued) : Z :=
  zsum (map (fun v => Z.abs (counted v) + Z.abs ((va_price v - va_entry v) * va_size v) + Z.abs (va_price v - va_entry v)) vs).

Lemma value_bound_cons v vs : value_bound (v :: vs) =
  Z.abs (counted v) + Z.abs ((va_price v - va_entry v) * va_size v) + Z.abs (va_price v - va_entry v) + value_bound vs.
Proof. unfold value_bound. cbn [map]. by rewrite zsum_cons. Qed.
Lemma value_bound_nonneg vs : 0 <= value_bound vs.
Proof. unfold value_bound. apply zsum_nonneg, Forall_map, Forall_forall. intros. cbn. lia. Qed.

Lemma side_profit_abs side v : Z.abs (side_profit side v) = Z.abs ((va_price v - va_entry v) * va_size v).
Proof.
  destruct side; [done|]. unfold side_profit.
  rewrite <- Z.abs_opp, <- Z.mul_opp_l, Z.opp_sub_distr, Z.add_comm, Z.add_opp_r. done.
Qed.

Lemma value_from j k prices positions vs : 0 <= j -> 0 <= k -> j + k <= 1000 ->
  Forall2 (valued j k prices) positions vs -> forall d c, scaled (j + k) d c -> Z.abs c + value_bound vs < 10 ^ 20 ->
  exists r, calculatePortfolioValue d positions prices = Ret r /\ scaled (j + k) r (c + zsum (map counted vs)).
Proof.
  intros Hj Hk Hjk H. induction H as [|p v ps vs ((sz & Es & Ss) & _ & price & Ep & pr & Er & Sr) _ IH]; intros d c Sd Hb.
  - exists d. split; [done|]. cbn. by rewrite Z.add_0_r.
  - rewrite value_bound_cons in Hb. pose proof (value_bound_nonneg vs). unfold counted in Hb.
    unfold calculatePortfolioValue in *. cbn [fold_exn]. rewrite Ep, Es. cbn [mbind exn_bind]. rewrite Er. cbn [mbind exn_bind].
    destruct (IH (d_plus d (d_times sz pr)) (c + counted v)) as (r & E & S).
    + apply scaled_plus; [lia|done|apply scaled_times; auto; lia|unfold counted; lia].
    + unfold counted. lia.
    + exists r. split; [exact E|]. cbn [map]. by rewrite zsum_cons, Z.add_assoc.
Qed.

Lemma unrealized_from j k prices positions vs : 0 <= j -> 0 <= k -> j + k <= 1000 ->
  Forall2 (valued j k prices) positions vs -> forall d c, scaled (j + k) d c -> Z.abs c + value_bound vs < 10 ^ 20 ->
  exists r, fold_exn (fun total p =>
    match price_of prices p with
    | Some price =>
        entryPrice ← dec_of_string (bo_avgEntryPrice p);
        size ← dec_of_string (bo_size p);
        current ← dec_of_string price;
        Ret (d_plus total (match bo_side p with
                           | long => d_times (d_minus current entryPrice) size
                           | short => d_times (d_minus entryPrice current) size
                           end))
    | None => Ret total
    end) d positions = Ret r /\ scaled (j + k) r (c + zsum (map profit_of (zip positions vs))).
Proof.
  intros Hj Hk Hjk H. induction H as [|p v ps vs ((sz & Es & Ss) & (en & Ee & Se) & price & Ep & pr & Er & Sr) _ IH]; intros d c Sd Hb.
  - exists d. split; [done|]. cbn. by rewrite Z.add_0_r.
  - rewrite value_bound_cons in Hb. pose proof (value_bound_nonneg vs).
    cbn [fold_exn]. rewrite Ep, Ee, Es, Er. cbn [mbind exn_bind].
    edestruct IH as (r & E & S); [..|exists r; split; [exact E|]].
    + apply scaled_plus; [lia|exact Sd| |].
      * instantiate (1 := side_profit (bo_side p) v). unfold side_profit.
        destruct (bo_side p); rewrite (Z.add_comm j k); apply scaled_times; try lia; auto; apply scaled_minus; auto; lia.
      * pose proof (side_profit_abs (bo_side p) v). lia.
    + pose proof (side_profit_abs (bo_side p) v). lia.
    + cbn [zip_with map]. by rewrite zsum_cons, Z.add_assoc.
Qed.

(** The portfolio value counts every position as bought.  It is the cash plus
    size times price over all positions, exactly and whatever their side, while
    the unrealized profit is that of each position's side: when a price rises,
    the value rises with it also for the short leg of a hedge. *)
Theorem portfolio_value_counts_shorts_as_long (j k : Z) (prices : list (string * PriceEntry)) (positions : list BacktestPosition)
    (vs : list Valued) (cash : dec) (c : Z)
    (Hscale : 0 <= j /\ 0 <= k /\ j + k <= 20) (Hpos : Forall2 (valued j k prices) positions vs)
    (Hcash : scaled (j + k) cash c) (Hbound : Z.abs c + value_bound vs < 10 ^ 20) :
  exists value pnl,
    calculatePortfolioValue cash positions prices = Ret value /\ scaled (j + k) value (c + zsum (map counted vs)) /\
    calculateUnrealizedPnl positions prices = Ret pnl /\ scaled (j + k) pnl (zsum (map profit_of (zip positions vs))).
Proof.
  destruct Hscale as (Hj & Hk & Hjk).
  destruct (value_from j k prices positions vs Hj Hk) with (d := cash) (c := c) as (value & E1 & S1); [lia|done..|].
  destruct (unrealized_from j k prices positions vs Hj Hk) with (d := dec_of_Z 0) (c := 0) as (pnl & E2 & S2);
    [lia|done|apply scaled_zero|lia|].
  exists value, pnl. by split_and!.
Qed.

(** The fall from [a] to [b] in percent of [a]. *)
Definition fall (a b : dec) : dec := d_times (d_div (d_minus a b) a) (dec_of_Z 100).

Lemma fall_percent k a b x y : 0 <= k <= 1000 -> scaled k a x -> scaled k b y -> 0 < x < 10 ^ 20 -> 0 <= y <= x ->
  exists u q, dv_equiv (d_rnd (Qmake (x - y) (Z.to_pos x))) (DFin u) /\ is_fin (fall a b) q /\ (0 <= q)%Q /\ (q <= 100)%Q /\
    dv_equiv (dval (fall a b)) (d_rnd (u * 100)).
Proof.
  intros Hk Ha Hb Hx Hy. pose proof (pow10_pos k ltac:(lia)) as Hp.
  assert (Hm : scaled k (d_minus a b) (x - y)) by (apply scaled_minus; auto; lia).
  assert (Hd : dv_equiv (dval (d_div (d_minus a b) a)) (d_rnd (Qmake (x - y) (Z.to_pos x)))).
  { rewrite (d_div_fin _ _ _ _ Hm Ha); [|unfold Qeq; cbn; lia].
    apply d_rnd_proper. unfold Qdiv, Qmult, Qinv, Qeq. destruct x as [|x|x]; try lia.
    cbn [Qnum Qden Z.to_pos]. rewrite !Pos2Z.inj_mul. ring. }
  destruct (rnd_bounded (Qmake (x - y) (Z.to_pos x)) 1) as (u & Eu & Hu0 & Hu1); [lia|unfold Qle; cbn [Qnum Qden]; lia| |].
  { unfold Qle, inject_Z. cbn [Qnum Qden]. rewrite Z2Pos.id by lia. lia. }
  rewrite Eu in Hd. assert (F100 : is_fin (dec_of_Z 100) (inject_Z 100)) by (apply d_of_int; lia).
  pose proof (d_times_fin _ _ _ _ Hd F100) as Ht. fold (fall a b) in Ht.
  destruct (rnd_bounded (u * inject_Z 100) 100) as (q & Eq & Hq0 & Hq1); [lia| | |].
  { apply Qmult_le_0_compat; [done|]. unfold Qle; cbn; lia. }
  { apply (Qmult_le_compat_r u (inject_Z 1) (inject_Z 100) Hu1). unfold Qle; cbn; lia. }
  exists u, q. split_and!; [done| |done|done|exact Ht]. unfold is_fin. by rewrite Ht.
Qed.

(** From a higher peak the fall to the same value is no smaller. *)
Lemma fall_mono k a a' b x x' y : 0 <= k <= 1000 -> scaled k a x -> scaled k a' x' -> scaled k b y ->
  0 < x <= x' -> x' < 10 ^ 20 -> 0 <= y <= x -> dv_le (dval (fall a b)) (dval (fall a' b)) = true.
Proof.
  intros Hk Ha Ha' Hb Hx Hx' Hy.
  destruct (fall_percent k a b x y) as (u & q & Eu & _ & _ & _ & Ef); auto; [lia|].
  destruct (fall_percent k a' b x' y) as (u' & q' & Eu' & _ & _ & _ & Ef'); auto; [lia..|].
  rewrite Ef, Ef'. apply d_rnd_mono. apply Qmult_le_compat_r; [|unfold Qle; cbn; lia].
  assert (dv_le (DFin u) (DFin u') = true) as Hle; [|by dv_simpl].
  rewrite <- Eu, <- Eu'. apply d_rnd_mono. unfold Qle. cbn [Qnum Qden]. rewrite !Z2Pos.id by lia. nia.
Qed.

(** What the loop knows after some values: the peak is the largest of them, and
    the drawdown the largest fall among them. *)
Record drawdown_of (k : Z) (values : list dec) (zs : list Z) (dd peak : dec) (P : Z) : Prop := {
  do_peak : scaled k peak P /\ 0 <= P < 10 ^ 20;
  do_top : Forall (fun z => z <= P) zs;
  do_is_value : P = 0 \/ exists i, values !! i = Some peak;
  do_range : exists q, is_fin dd q /\ (0 <= q)%Q /\ (q <= 100)%Q;
  do_falls : forall i j a b za zb, (i <= j)%nat -> values !! i = Some a -> values !! j = Some b ->
    zs !! i = Some za -> zs !! j = Some zb -> 0 < za -> zb <= za -> dv_le (dval (fall a b)) (dval dd) = true;
  do_attained : dd = dec_of_Z 0 \/
    exists i j a b, (i <= j)%nat /\ values !! i = Some a /\ values !! j = Some b /\ dd = fall a b;
}.

Lemma drawdown_zero_range : exists q, is_fin (dec_of_Z 0) q /\ (0 <= q)%Q /\ (q <= 100)%Q.
Proof. exists 0%Q. split_and!; [apply d_zero_fin|done|done]. Qed.

Lemma d_gt_le a b x y : is_fin a x -> is_fin b y -> d_gt a b = false -> dv_le (dval a) (dval b) = true.
Proof.
  intros Ha Hb H. rewrite d_gt_val in H. apply dv_not_lt_le; [by eapply is_fin_not_nan|by eapply is_fin_not_nan|done].
Qed.

Lemma scaled_gt k a b x y : 0 <= k -> scaled k a x -> scaled k b y -> d_gt a b = (y <? x).
Proof. intros Hk Ha Hb. rewrite d_gt_val, <- d_lt_val. by apply (scaled_lt k). Qed.

(** The larger of the old drawdown and the new fall. *)
Lemma drawdown_max dd f q p : is_fin dd q -> is_fin f p -> (0 <= q <= 100)%Q -> (0 <= p <= 100)%Q ->
  let dd' := if d_gt f dd then f else dd in
  (exists q', is_fin dd' q' /\ (0 <= q')%Q /\ (q' <= 100)%Q) /\ dv_le (dval dd) (dval dd') = true /\ dv_le (dval f) (dval dd') = true.
Proof.
  intros Hd Hf [? ?] [? ?]. cbn zeta. destruct (d_gt f dd) eqn:E.
  - split_and!; [by exists p| |apply dv_le_refl; by eapply is_fin_not_nan]. rewrite d_gt_val in E. by apply dv_lt_le.
  - split_and!; [by exists q|apply dv_le_refl; by eapply is_fin_not_nan|by eapply d_gt_le].
Qed.

Lemma lookup_snoc_inv {A} (l : list A) (x a : A) i : (l ++ [x]) !! i = Some a -> (i < length l)%nat /\ l !! i = Some a \/ i = length l /\ a = x.
Proof.
  intros H. destruct (decide (i < length l)%nat) as [Hi|Hi].
  - left. rewrite lookup_app_l in H by lia. done.
  - right. pose proof (lookup_lt_Some _ _ _ H) as Hlt. rewrite length_app in Hlt. cbn in Hlt.
    assert (i = length l) as -> by lia. split; [done|]. rewrite list_lookup_middle in H by done. congruence.
Qed.

Lemma drawdown_snoc k values zs dd peak P v z : 0 <= k <= 1000 -> Forall2 (scaled k) values zs -> scaled k v z -> 0 <= z < 10 ^ 20 ->
  drawdown_of k values zs dd peak P ->
  let '(dd', peak') := drawdown_step (dd, peak) v in drawdown_of k (values ++ [v]) (zs ++ [z]) dd' peak' (Z.max P z).
Proof.
  intros Hk H2 Hv Hz [[Hp HP] Ht Hi (q & Hq & Hq0 & Hq1) Hf Ha]. unfold drawdown_step.
  rewrite (scaled_gt k v peak z P) by (done || lia).
  set (peak' := if P <? z then v else peak). pose proof (Forall2_length _ _ _ H2) as Hlen.
  assert (Hp' : scaled k peak' (Z.max P z)).
  { unfold peak'. destruct (Z.ltb_spec P z); [by rewrite Z.max_r by lia|by rewrite Z.max_l by lia]. }
  assert (Hi' : Z.max P z = 0 \/ exists i, (values ++ [v]) !! i = Some peak').
  { unfold peak'. destruct (Z.ltb_spec P z); [right; exists (length values); by apply list_lookup_middle|].
    rewrite Z.max_l by lia. destruct Hi as [->|[i Hi]]; [by left|right]. exists i. by apply lookup_app_l_Some. }
  assert (Ht' : Forall (fun y => y <= Z.max P z) (zs ++ [z])).
  { apply Forall_app. split; [|constructor; [lia|constructor]]. eapply Forall_impl; [exact Ht|]. cbn. lia. }
  rewrite (scaled_gt k peak' _ _ 0) by (done || lia || apply scaled_zero).
  assert (Hc : forall i a za, (values ++ [v]) !! i = Some a -> (zs ++ [z]) !! i = Some za -> scaled k a za /\ za <= Z.max P z).
  { intros i a za E1 E2. split; [|rewrite Forall_forall in Ht'; apply Ht'; by eapply list_elem_of_lookup_2].
    assert (H2' : Forall2 (scaled k) (values ++ [v]) (zs ++ [z])) by (apply Forall2_app; [done|by repeat constructor]).
    by apply (Forall2_lookup_lr _ _ _ _ _ _ H2' E1 E2). }
  fold (fall peak' v).
  assert (G : exists p, is_fin (if 0 <? Z.max P z then fall peak' v else dec_of_Z 0) p /\ (0 <= p)%Q /\ (p <= 100)%Q /\
    (0 < Z.max P z -> forall a za, scaled k a za -> 0 < za <= Z.max P z -> z <= za ->
       dv_le (dval (fall a v)) (dval (if 0 <? Z.max P z then fall peak' v else dec_of_Z 0)) = true)).
  { destruct (Z.ltb_spec 0 (Z.max P z)).
    - destruct (fall_percent k peak' v (Z.max P z) z) as (u & p & _ & Fp & ? & ? & _); auto; [lia..|].
      exists p. split_and!; try done. intros _ a za Sa Hza Hzz. apply (fall_mono k _ _ _ za (Z.max P z) z); auto; lia.
    - exists 0%Q. split_and!; [apply d_zero_fin|done|done|lia]. }
  set (f := if 0 <? Z.max P z then fall peak' v else dec_of_Z 0) in *. destruct G as (p & Fp & Hp0 & Hp1 & Hnew).
  destruct (drawdown_max dd f q p Hq Fp) as (Hr & Hold & Hf'); [done..|]. cbn zeta in *.
  constructor; [split; [exact Hp'|lia]|exact Ht'|exact Hi'|exact Hr| |].
  - intros i j a b za zb Hij Ei Ej Ezi Ezj Hza Hzb.
    apply lookup_snoc_inv in Ej as [[Hj Ej]|[-> ->]].
    + apply lookup_snoc_inv in Ei as [[Hi1 Ei]|[-> _]]; [|lia].
      rewrite lookup_app_l in Ezi, Ezj by lia. eapply dv_le_trans; [by eapply (Hf i j)|exact Hold].
    + rewrite Hlen, list_lookup_middle in Ezj by done. injection Ezj as <-.
      destruct (Hc i a za Ei Ezi) as [Sa Hle]. eapply dv_le_trans; [apply (Hnew ltac:(lia) a za Sa); lia|exact Hf'].
  - destruct (d_gt f dd).
    + unfold f. destruct (Z.ltb_spec 0 (Z.max P z)); [right|by left].
      destruct Hi' as [?|[i Hi']]; [lia|]. exists i, (length values), peak', v.
      pose proof (lookup_lt_Some _ _ _ Hi') as Hlt. rewrite length_app in Hlt. cbn in Hlt.
      split_and!; [lia|done|by apply list_lookup_middle|done].
    + destruct Ha as [->|(i & j & a & b & Hij & Ei & Ej & ->)]; [by left|right].
      exists i, j, a, b. split_and!; [done|by apply lookup_app_l_Some|by apply lookup_app_l_Some|done].
Qed.

Lemma drawdown_loop k values zs : 0 <= k <= 1000 -> Forall2 (scaled k) values zs -> Forall (fun z => 0 <= z < 10 ^ 20) zs ->
  exists P, drawdown_of k values zs (foldl drawdown_step (dec_of_Z 0, dec_of_Z 0) values).1
              (foldl drawdown_step (dec_of_Z 0, dec_of_Z 0) values).2 P.
Proof.
  intros Hk. revert zs. induction values as [|v values IH] using rev_ind; intros zs H2 Hz.
  - apply Forall2_nil_inv_l in H2 as ->. exists 0. constructor; try done.
    + split; [apply scaled_zero|done].
    + by left.
    + apply drawdown_zero_range.
    + by left.
  - apply Forall2_app_inv_l in H2 as (zs1 & zs2 & H2 & Hl & ->). inversion Hl as [|? z ? zs3 Hv Hn]; subst.
    inversion Hn; subst. apply Forall_app in Hz as [Hz1 Hz2]. inversion Hz2; subst.
    destruct (IH _ H2 Hz1) as (P & HP). rewrite foldl_app. cbn [foldl].
    destruct (foldl drawdown_step _ values) as [dd peak]. exists (Z.max P z).
    pose proof (drawdown_snoc k values zs1 dd peak P v z Hk H2 Hv ltac:(done) HP) as H.
    by destruct (drawdown_step (dd, peak) v).
Qed.

(** The reported drawdown is the largest fall.  Over portfolio values of a
    common scale it lies between zero and one hundred percent, no fall from a
    value to a later one is larger, and it is zero or the fall between two of
    the values. *)
Theorem max_drawdown_exact (k : Z) (values : list dec) (zs : list Z) (Hk : 0 <= k <= 1000)
    (Hvalues : Forall2 (scaled k) values zs) (Hrange : Forall (fun z => 0 <= z < 10 ^ 20) zs) :
  (exists q, is_fin (max_drawdown values) q /\ (0 <= q)%Q /\ (q <= 100)%Q) /\
  (forall i j a b za zb, (i <= j)%nat -> values !! i = Some a -> values !! j = Some b -> zs !! i = Some za -> zs !! j = Some zb ->
     0 < za -> zb <= za -> dv_le (dval (fall a b)) (dval (max_drawdown values)) = true) /\
  (max_drawdown values = dec_of_Z 0 \/
   exists i j a b, (i <= j)%nat /\ values !! i = Some a /\ values !! j = Some b /\ max_drawdown values = fall a b).
Proof. destruct (drawdown_loop k values zs Hk Hvalues Hrange) as (P & [_ _ _ Hr Hf Ha]). by split_and!. Qed.
End Value.

(** * Days partition the data *)

Lemma ltb_lt a b : String.ltb a b = true <-> OrdersEx.String_as_OT.lt a b.
Proof.
  unfold OrdersEx.String_as_OT.lt, String.ltb.
  assert (String.compare a b = OrdersEx.String_as_OT.compare a b) as ->; [|by destruct (OrdersEx.String_as_OT.compare a b)].
  done.
Qed.
Lemma ltb_trans a b c : String.ltb a b = true -> String.ltb b c = true -> String.ltb a c = true.
Proof. rewrite !ltb_lt. apply StrictOrder_Transitive. Qed.
Lemma ltb_asym a b : String.ltb a b = true -> String.ltb b a = false.
Proof.
  intros H. apply not_true_iff_false. intros H'. pose proof (ltb_trans _ _ _ H H') as E. rewrite ltb_lt in E.
  by apply (StrictOrder_Irreflexive a).
Qed.
Lemma ltb_total a b : String.ltb a b = false -> a = b \/ String.ltb b a = true.
Proof.
  unfold String.ltb. rewrite String.compare_antisym. destruct (String.compare b a) eqn:E; cbn; try done; [|by right].
  left. symmetry. by apply String.compare_eq_iff.
Qed.

Section Groups.

(** The groups so far: distinct keys, each with its points. *)
Definition groups_of (data : list MarketDataPoint) (groups : list (string * list MarketDataPoint)) : Prop :=
  NoDup (jm_keys groups) /\ Forall (fun g => g.2 <> [] /\ Forall (fun p => date_key p = g.1) g.2) groups /\
  List.concat (map snd groups) ≡ₚ data.

Lemma concat_set_present k l p (m : list (string * list MarketDataPoint)) : jm_get k m = Some l ->
  List.concat (map snd (jm_set k (l ++ [p]) m)) ≡ₚ List.concat (map snd m) ++ [p].
Proof.
  induction m as [|[k' l'] m IH]; [done|]. cbn [jm_get jm_set]. destruct (decide (k = k')) as [->|].
  - intros [= ->]. cbn [map snd List.concat]. rewrite <- !app_assoc. by rewrite (Permutation_app_comm [p]).
  - intros H. cbn [map snd List.concat]. rewrite (IH H), app_assoc. done.
Qed.

Lemma add_point_ok data groups p : groups_of data groups -> groups_of (data ++ [p]) (add_point groups p).
Proof.
  intros (Hn & Hf & Hc). unfold add_point. destruct (jm_get (date_key p) groups) as [l|] eqn:E; split_and!.
  - by apply jm_set_NoDup.
  - apply Forall_forall. intros g Hg. rewrite Forall_forall in Hf. destruct g as [k l'].
    assert (Hnew : jm_get k (jm_set (date_key p) (l ++ [p]) groups) = Some l') by (apply jm_In_get; [by apply jm_set_NoDup|done]).
    rewrite jm_get_set in Hnew. case_decide as Hk; [|apply Hf; by apply jm_get_In].
    injection Hnew as <-. subst k. apply jm_get_In in E. destruct (Hf _ E) as [_ HF]. split; [by destruct l|].
    apply Forall_app_2; [exact HF|by repeat constructor].
  - rewrite (concat_set_present _ _ _ _ E). by rewrite Hc.
  - by apply jm_set_NoDup.
  - rewrite (jm_set_fresh _ _ _ E). apply Forall_app_2; [done|]. repeat constructor; done.
  - rewrite (jm_set_fresh _ _ _ E), map_app, concat_app. cbn [map snd List.concat]. rewrite app_nil_r. by rewrite Hc.
Qed.

Lemma grouped data : groups_of data (foldl add_point [] data).
Proof.
  induction data as [|p data IH] using rev_ind; [repeat split; constructor|].
  rewrite foldl_app. by apply add_point_ok.
Qed.

Context `{DH : DateHost}.

(** Grouping by day loses no point: the days of the market data are those of
    increasing, distinct dates, each day holds at least one point, exactly the
    points of its date, in order of time, and together they are the data. *)
Theorem groupDataByDay_partition (data : list MarketDataPoint) :
  exists keys, StronglySorted (fun a b => String.ltb a b = true) keys /\
    Forall2 (fun key day => dd_date day = date_parse key /\ dd_points day <> [] /\
               Forall (fun p => date_key p = key) (dd_points day) /\
               StronglySorted (fun p q => md_timestamp p <= md_timestamp q) (dd_points day)) keys (groupDataByDay data) /\
    List.concat (map dd_points (groupDataByDay data)) ≡ₚ data.
Proof.
  destruct (grouped data) as (Hn & Hf & Hc). unfold groupDataByDay.
  set (groups := foldl add_point [] data) in *. pose proof (js_sort_perm key_before groups) as Perm.
  exists (jm_keys (js_sort key_before groups)).
  assert (Hn' : NoDup (jm_keys (js_sort key_before groups))) by (unfold jm_keys in *; by rewrite Perm).
  assert (Hf' : Forall (fun g => g.2 <> [] /\ Forall (fun p => date_key p = g.1) g.2) (js_sort key_before groups)) by by rewrite Perm.
  split_and!.
  - assert (Ho : in_order key_before (js_sort key_before groups)).
    { apply js_sort_in_order; unfold key_before.
      - intros x y. apply ltb_asym.
      - intros x y z H1 H2. apply not_true_iff_false. intros H3.
        apply ltb_total in H1 as [H1|H1]; [rewrite <- H1 in H3; congruence|].
        pose proof (ltb_trans _ _ _ H3 H1). congruence. }
    unfold in_order in Ho. clear -Ho Hn'. induction Ho as [|g l _ IH Hg]; [constructor|]. cbn in Hn'.
    apply NoDup_cons in Hn' as [Hg' Hn']. cbn. constructor; [by apply IH|]. apply Forall_map.
    rewrite Forall_forall in *. intros h Hh. specialize (Hg h Hh). unfold key_before in Hg.
    apply ltb_total in Hg as [Hg|Hg]; [|done]. exfalso. apply Hg'. rewrite <- Hg. by apply list_elem_of_fmap_2.
  - clear Perm Hn'. induction Hf' as [|[k l] gs [Hl Hk] _ IH]; cbn; constructor; [|exact IH].
    cbn [dd_date dd_points fst snd] in *. pose proof (js_sort_perm earlier l) as Pl. split_and!; [done| | |].
    + intros E. rewrite E in Pl. by apply Permutation_nil in Pl.
    + by rewrite Pl.
    + assert (Ho : in_order earlier (js_sort earlier l)).
      { apply js_sort_in_order; unfold earlier; intros *; rewrite ?Z.ltb_lt, ?Z.ltb_ge; lia. }
      unfold in_order in Ho. clear -Ho. induction Ho as [|p l' _ IH Hp]; constructor; [done|].
      eapply Forall_impl; [exact Hp|]. unfold earlier. intros q. rewrite Z.ltb_ge. lia.
  - rewrite <- Hc. transitivity (List.concat (map snd (js_sort key_before groups))).
    + clear. induction (js_sort key_before groups) as [|[k l] gs IH]; [done|]. cbn. by rewrite IH, js_sort_perm.
    + clear -Perm. by rewrite (Permutation_map snd Perm).
Qed.
End Groups.

(** * Concrete runs *)

#[export] Instance counting_host : EngineHost := {| randomUUID n := "id-" +:+ z_str n; clock n := n |}.
#[export] Instance undated : DateHost := {| date_parse _ := None |}.

Definition sample_point (t : Z) (spot perp : string) : MarketDataPoint := MkDataPoint t "BTC" spot perp "0.001" None None.
Definition sample_config : BacktestConfig := {|
  bc_backtestId := "b"; bc_name := "sample"; bc_description := None; bc_period := MkBacktestPeriod 0 172800000; bc_assets := ["BTC"];
  bc_strategy := MkBacktestStrategy "1" "1000" "10" (num_of_Z 1) (num_of_Z 5) (num_of_dec 2 (-1)) (num_of_dec 5 (-2));
  bc_simulation := MkBacktestSimulation historical_simulation no_slippage None no_fees None None false false;
  bc_initialCapitalUsd := "1000"; bc_tags := None; bc_createdBy := "test" |}.

(** A premium of 25 percent, then a discount of 20: an entry and an exit signal. *)
Definition sample_days : list DayData :=
  [MkDayData None [sample_point 0 "100" "125"]; MkDayData None [sample_point 86400000 "100" "80"]].
Definition sample_run : exn SimState * Reads :=
  fold_eff (simulate_day (DL := exact_decimal) sample_config) (initial_state (DL := exact_decimal) (DFin 1000)) sample_days (MkReads 0 0 0).

Lemma sample_plain : plain ["BTC"].
Proof. intros a b m ->%list_elem_of_singleton ->%list_elem_of_singleton. by destruct m. Qed.

Lemma backtest_never_exits_witness :
  match sample_run with
  | (Ret s, _) => Forall (fun t => bt_realizedPnl t = None) (sm_trades s) /\ length (sm_trades s) = 2%nat
  | _ => False
  end.
Proof.
  assert (B : match sample_run with (Ret s, _) => Nat.eqb (length (sm_trades s)) 2 | _ => false end = true) by (vm_compute; reflexivity).
  destruct sample_run as [[s|e] r'] eqn:E; [|discriminate B]. apply Nat.eqb_eq in B. split; [|exact B].
  unfold sample_run in E. refine (proj1 (backtest_never_exits (DL := exact_decimal) (EH := counting_host) ["BTC"] (DFin 1000)
    sample_config sample_days (MkReads 0 0 0) r' s sample_plain _ E)). repeat constructor.
Defined.

(** The exit signal of the second day finds no position under the key "BTC":
    nothing is traded.  The first day pays both legs in cash, and the fees and
    slippage that the configuration excludes; the second day's value falls with
    the perpetual price although the perpetual leg is short. *)
Example sample_run_snapshots :
  match sample_run with
  | (Ret s, _) => map (fun d => (length (bd_trades d), bd_cashBalance d, bd_portfolioValue d, bd_realizedPnl d)) (sm_snapshots s)
                  = [(2%nat, "-900.94999999999991115752", "999.05000000000000002473", "0");
                     (0%nat, "-900.94999999999991115752", "657.05000000000001601188", "0")]
  | _ => False
  end.
Proof. vm_compute. reflexivity. Qed.

(** A long spot leg of 10 at 100 and a short perpetual leg of 8 at 125, bought at
    90 and sold at 130: the value counts 1000 and 1000, the profit 100 and 40. *)
Definition sample_position (m : BacktestMarketType) (side : PositionSide) (size entry : string) : BacktestPosition :=
  MkBacktestPosition "BTC" side m size entry "0" "0" "0" "0" 0.
Lemma portfolio_value_counts_shorts_as_long_witness :
  exists value pnl,
    calculatePortfolioValue (DL := exact_decimal) (DFin 500) [sample_position spot_market long "10" "90"; sample_position perp_market short "8" "130"]
      [("BTC", MkPriceEntry "100" "125" "0" "25")] = Ret value /\ scaled (DL := exact_decimal) 2 value 250000 /\
    calculateUnrealizedPnl (DL := exact_decimal) [sample_position spot_market long "10" "90"; sample_position perp_market short "8" "130"]
      [("BTC", MkPriceEntry "100" "125" "0" "25")] = Ret pnl /\ scaled (DL := exact_decimal) 2 pnl 14000.
Proof.
  refine (portfolio_value_counts_shorts_as_long (DL := exact_decimal) 1 1 _ _ [MkValued 100 900 1000; MkValued 80 1300 1250] (DFin 500) 50000 _ _ _ _).
  - lia.
  - constructor; [|constructor; [|constructor]]; (split; [|split]); try (apply units_in_parses; reflexivity);
      (eexists; split; [reflexivity|apply units_in_parses; reflexivity]).
  - reflexivity.
  - reflexivity.
Defined.

Lemma max_drawdown_exact_witness :
  (exists q, is_fin (max_drawdown (DL := exact_decimal) [DFin 100; DFin 80; DFin 120; DFin 90]) q /\ (0 <= q)%Q /\ (q <= 100)%Q) /\
  dv_equiv (max_drawdown (DL := exact_decimal) [DFin 100; DFin 80; DFin 120; DFin 90]) (DFin 25).
Proof.
  split; [|reflexivity].
  refine (proj1 (max_drawdown_exact (DL := exact_decimal) 0 [DFin 100; DFin 80; DFin 120; DFin 90] [100; 80; 120; 90] _ _ _)).
  - lia.
  - repeat (constructor; [reflexivity|]). constructor.
  - repeat (constructor; [lia|]). constructor.
Defined.
