(* ===== verification/BacktestRuns.v ===== *)
(** * The backtest engine (packages/backtest: engine.ts)

    The engine that runs simulations: a state machine in which a run is a task
    that gives control back after generating its data and after every tenth day,
    and the calls of the engine happen in between.  The file shows that every run
    ends, that every reachable engine is well formed, and how a cancelled run is
    reported. *)
From Stdlib Require Import SpecFloat.
From S2P Require Import Prelude JsNumber JsValue DecimalLib DecimalExact Money Executor Backtest BacktestEngine.
Open Scope Z_scope.

(** What is left of a run: everything after its data was generated, or the
    simulation from a day on. *)
Inductive BacktestTask `{DL : DecimalLib} :=
| after_generation (config : BacktestConfig) (startTime : Z) (marketData : list MarketDataPoint)
| at_day (config : BacktestConfig) (startTime total dayIndex : Z) (rest : list DayData) (sim : SimState).

Section Engine.
Context `{DL : DecimalLib} `{DH : DateHost} `{MH : MathHost} `{EH : EngineHost}.

Record BacktestEngine := MkEngine {
  en_runs : list (string * BacktestRun);
  en_abortControllers : list (string * bool);
  en_tasks : list (string * BacktestTask);
  en_reads : Reads;
}.
Definition new_engine (r : Reads) : BacktestEngine := MkEngine [] [] [] r.

(** The callbacks of the options; they do not call the engine. *)
Context (onProgress : BacktestRun -> exn unit) (onComplete : BacktestResults -> exn unit).

Definition set_status (run : BacktestRun) (st : BacktestStatus) : BacktestRun :=
  MkRun (rn_runId run) (rn_backtestId run) st (rn_progress run) (rn_startedAt run) (rn_completedAt run) (rn_error run) (rn_results run).
Definition set_progress (run : BacktestRun) (p : BacktestProgress) : BacktestRun :=
  MkRun (rn_runId run) (rn_backtestId run) (rn_status run) p (rn_startedAt run) (rn_completedAt run) (rn_error run) (rn_results run).
Definition set_started (run : BacktestRun) (now : Z) : BacktestRun :=
  MkRun (rn_runId run) (rn_backtestId run) bt_running (rn_progress run) (Some now) (rn_completedAt run) (rn_error run) (rn_results run).
(** The [catch] of [runSimulation]. *)
Definition fail_run (run : BacktestRun) (e : JsError) : BacktestRun :=
  MkRun (rn_runId run) (rn_backtestId run) bt_failed (rn_progress run) (rn_startedAt run) (rn_completedAt run)
    (Some (err_message e)) (rn_results run).
Definition complete_run (run : BacktestRun) (results : BacktestResults) (now : Z) : BacktestRun :=
  MkRun (rn_runId run) (rn_backtestId run) bt_completed (rn_progress run) (rn_startedAt run) (Some now) (rn_error run) (Some results).

Definition day_progress (p : BacktestProgress) (date : option Z) (dayIndex total : Z) : BacktestProgress :=
  MkProgress date (pg_totalDays p) (dayIndex + 1)
    (n_round (n_mul (n_div (num_of_Z (dayIndex + 1)) (num_of_Z total)) (num_of_Z 100))).

(** The loop over the days until it gives control back (the task that is left),
    or ends with the last state or an error. *)
Fixpoint run_days (aborted : bool) (config : BacktestConfig) (startTime total dayIndex : Z) (rest : list DayData) (sim : SimState)
    (run : BacktestRun) (r : Reads) : BacktestRun * Reads * (BacktestTask + exn SimState) :=
  match rest with
  | [] => (run, r, inr (Ret sim))
  | day :: rest' =>
      if aborted then (run, r, inr (Throw (Error_ "Backtest cancelled")))
      else
        let run1 := set_progress run (day_progress (rn_progress run) (dd_date day) dayIndex total) in
        match simulate_day config sim day r with
        | (Throw e, r1) => (run1, r1, inr (Throw e))
        | (Ret sim1, r1) =>
            match onProgress run1 with
            | Throw e => (run1, r1, inr (Throw e))
            | Ret _ =>
                if dayIndex mod 10 =? 0 then (run1, r1, inl (at_day config startTime total (dayIndex + 1) rest' sim1))
                else run_days aborted config startTime total (dayIndex + 1) rest' sim1 run1 r1
            end
        end
  end.

(** After the last day: the results, the status, the callback. *)
Definition finish_run (config : BacktestConfig) (startTime : Z) (sim : SimState) (run : BacktestRun) (r : Reads)
    : BacktestRun * Reads :=
  let (finished, r1) := (now ← read_clock; buildResults config sim (now - startTime)) r in
  match finished with
  | Throw e => (fail_run run e, r1)
  | Ret results =>
      let (now, r2) := read_clock r1 in
      let run1 := complete_run run results (match now with Ret n => n | Throw _ => 0 end) in
      (match onComplete results with Ret _ => run1 | Throw e => fail_run run1 e end, r2)
  end.

(** The task of a run until it gives control back or ends. *)
Definition resume_task (aborted : bool) (task : BacktestTask) (run : BacktestRun) (r : Reads)
    : BacktestRun * Reads * option BacktestTask :=
  let finish config startTime '(run1, r1, outcome) :=
    match outcome with
    | inl task' => (run1, r1, Some task')
    | inr (Throw e) => (fail_run run1 e, r1, None)
    | inr (Ret sim) => (finish_run config startTime sim run1 r1, None)
    end in
  match task with
  | after_generation config startTime marketData =>
      let run1 := set_progress run (MkProgress (pg_currentDate (rn_progress run)) (n_ceil (period_days (bc_period config)))
                                     (pg_processedDays (rn_progress run)) (pg_percentComplete (rn_progress run))) in
      match dec_of_string (bc_initialCapitalUsd config) with
      | Throw e => (fail_run run1 e, r, None)
      | Ret initialCapital =>
          let dataByDay := groupDataByDay marketData in
          finish config startTime
            (run_days aborted config startTime (Z.of_nat (length dataByDay)) 0 dataByDay (initial_state initialCapital) run1 r)
      end
  | at_day config startTime total dayIndex rest sim =>
      finish config startTime (run_days aborted config startTime total dayIndex rest sim run r)
  end.

(** The generated data; its random numbers are counted. *)
Definition market_data (config : BacktestConfig) : eff Reads (list MarketDataPoint) := fun r =>
  let (data, n) := generateMarketData (bc_period config) (bc_assets config) (bm_useHistoricalFunding (bc_simulation config))
                     (bm_useHistoricalBasis (bc_simulation config)) (rd_random r) in
  (data, MkReads (rd_ids r) (rd_clock r) n).

(** The first part of [runSimulation], up to the generated data. *)
Definition begin_simulation (config : BacktestConfig) (run : BacktestRun) : eff Reads (BacktestRun * BacktestTask) :=
  startTime ← read_clock;
  startedAt ← read_clock;
  data ← market_data config;
  mret (set_started run startedAt, after_generation config startTime data).

Definition invalid_config (errors : list string) : JsError := Error_ ("Invalid backtest config: " +:+ String.concat ", " errors).

Definition startBacktest (config : BacktestConfig) : eff BacktestEngine BacktestRun :=
  validation ← lift_exn (validateBacktestConfig config);
  if negb (bv_valid validation) then throw_eff (invalid_config (bv_errors validation))
  else fun e =>
    let (id, r1) := createId (en_reads e) in
    match id with
    | Throw err => (Throw err, e)
    | Ret runId =>
        let run := MkRun runId (bc_backtestId config) bt_pending
                     (MkProgress (Some (bp_startDate (bc_period config))) n_zero 0 n_zero) None None None None in
        let (begun, r2) := begin_simulation config run r1 in
        let aborts := jm_set runId false (en_abortControllers e) in
        match begun with
        | Throw err => (Ret (fail_run run err), MkEngine (jm_set runId (fail_run run err) (en_runs e)) aborts (en_tasks e) r2)
        | Ret (run1, task) => (Ret run1, MkEngine (jm_set runId run1 (en_runs e)) aborts (jm_set runId task (en_tasks e)) r2)
        end
    end.

Definition cancelBacktest (runId : string) : eff BacktestEngine bool := fun e =>
  match jm_get runId (en_abortControllers e) with
  | Some _ =>
      let runs := match jm_get runId (en_runs e) with
                  | Some run => jm_set runId (set_status run bt_cancelled) (en_runs e) | None => en_runs e end in
      (Ret true, MkEngine runs (jm_set runId true (en_abortControllers e)) (en_tasks e) (en_reads e))
  | None => (Ret false, e)
  end.

Definition getRun (runId : string) (e : BacktestEngine) : option BacktestRun := jm_get runId (en_runs e).
Definition getRunsForBacktest (backtestId : string) (e : BacktestEngine) : list BacktestRun :=
  List.filter (fun r => String.eqb (rn_backtestId r) backtestId) (jm_values (en_runs e)).

(** The event loop continues the task of a run, if it has one. *)
Definition resume (runId : string) (e : BacktestEngine) : BacktestEngine :=
  match jm_get runId (en_tasks e), jm_get runId (en_runs e) with
  | Some task, Some run =>
      let aborted := match jm_get runId (en_abortControllers e) with Some b => b | None => false end in
      let '(run1, r1, rest) := resume_task aborted task run (en_reads e) in
      MkEngine (jm_set runId run1 (en_runs e)) (en_abortControllers e)
        (match rest with Some t => jm_set runId t (en_tasks e) | None => jm_delete runId (en_tasks e) end) r1
  | _, _ => e
  end.

Inductive EngineEvent := start_event (config : BacktestConfig) | cancel_event (runId : string) | resume_event (runId : string).

Definition engine_step (e : BacktestEngine) (ev : EngineEvent) : BacktestEngine :=
  match ev with
  | start_event config => (startBacktest config e).2
  | cancel_event runId => (cancelBacktest runId e).2
  | resume_event runId => resume runId e
  end.
Definition engine_run (e : BacktestEngine) (evs : list EngineEvent) : BacktestEngine := foldl engine_step e evs.
End Engine.

(** * Every reachable engine *)

Section Runs.
Context `{DL : DecimalLib} `{DH : DateHost} `{MH : MathHost} `{EH : EngineHost}.
Context (onProgress : BacktestRun -> exn unit) (onComplete : BacktestResults -> exn unit).

(** A run with a task left is running, or cancelled when its controller is
    aborted, and has no results; one without is completed with results, failed
    with an error, or was cancelled after it ended. *)
Definition run_ok (aborted : bool) (task : option BacktestTask) (run : BacktestRun) : Prop :=
  is_Some (rn_startedAt run) /\
  match task with
  | Some _ => rn_status run = (if aborted then bt_cancelled else bt_running) /\ rn_results run = None /\
              rn_completedAt run = None /\ rn_error run = None
  | None =>
      match rn_status run with
      | bt_completed => is_Some (rn_results run) /\ is_Some (rn_completedAt run)
      | bt_failed => is_Some (rn_error run)
      | bt_cancelled => aborted = true /\ (is_Some (rn_results run) \/ is_Some (rn_error run))
      | bt_pending | bt_running => False
      end
  end.

Definition engine_ok (e : BacktestEngine) : Prop :=
  forall id, (is_Some (jm_get id (en_tasks e)) -> is_Some (jm_get id (en_runs e))) /\
    match jm_get id (en_runs e) with
    | Some run => rn_runId run = id /\
        exists aborted, jm_get id (en_abortControllers e) = Some aborted /\ run_ok aborted (jm_get id (en_tasks e)) run
    | None => True
    end.

(** Days change a run in its progress only. *)
Definition same_run (a b : BacktestRun) : Prop :=
  rn_runId a = rn_runId b /\ rn_status a = rn_status b /\ rn_startedAt a = rn_startedAt b /\ rn_results a = rn_results b /\
  rn_completedAt a = rn_completedAt b /\ rn_error a = rn_error b.

Lemma run_days_same aborted config startTime total rest : forall dayIndex sim run r run' r' o,
  run_days onProgress aborted config startTime total dayIndex rest sim run r = (run', r', o) -> same_run run run'.
Proof.
  induction rest as [|d rest IH]; intros dayIndex sim run r run' r' o H; cbn [run_days] in H.
  - injection H as <- _ _. by repeat split.
  - destruct aborted; [injection H as <- _ _; by repeat split|].
    destruct (simulate_day config sim d r) as [[sim1|e] r1]; [|injection H as <- _ _; by repeat split].
    destruct (onProgress _); [|injection H as <- _ _; by repeat split].
    destruct (dayIndex mod 10 =? 0); [injection H as <- _ _; by repeat split|].
    apply IH in H. exact H.
Qed.

(** What a resumed task makes of its run. *)
Lemma finish_run_ends config startTime sim run r : let run' := (finish_run onComplete config startTime sim run r).1 in
  rn_runId run' = rn_runId run /\ rn_startedAt run' = rn_startedAt run /\
  (rn_status run' = bt_completed /\ is_Some (rn_results run') /\ is_Some (rn_completedAt run') \/
   rn_status run' = bt_failed /\ is_Some (rn_error run')).
Proof.
  unfold finish_run. destruct ((now ← read_clock; _) r) as [[results|e] r1]; cbn [fst].
  - unfold read_clock. cbn [fst]. destruct (onComplete results); (split_and!; [done|done|]); [left|right]; cbn; eauto.
  - split_and!; [done|done|]. right. cbn. eauto.
Qed.

Lemma resume_task_ok aborted task run r run' r' task' : is_Some (rn_startedAt run) -> run_ok aborted (Some task) run ->
  resume_task onProgress onComplete aborted task run r = (run', r', task') ->
  rn_runId run' = rn_runId run /\ run_ok aborted task' run'.
Proof.
  intros Hst (_ & Hs & Hr & Hc & He) H.
  assert (G : forall config startTime run1 r1 o, same_run run run1 ->
    (match o : BacktestTask + exn SimState with
     | inl task' => (run1, r1, Some task')
     | inr (Throw e) => (fail_run run1 e, r1, None)
     | inr (Ret sim) => (finish_run onComplete config startTime sim run1 r1, None)
     end) = (run', r', task') -> rn_runId run' = rn_runId run /\ run_ok aborted task' run').
  { intros config startTime run1 r1 o (Si & Ss & Sst & Sr & Sc & Se) E. destruct o as [t|[sim|e]].
    - injection E as <- _ <-. unfold run_ok. rewrite <- Si, <- Ss, <- Sst, <- Sr, <- Sc, <- Se. by split_and!.
    - destruct (finish_run onComplete config startTime sim run1 r1) as [run2 r2] eqn:Ef. injection E as <- _ <-.
      pose proof (finish_run_ends config startTime sim run1 r1) as F. rewrite Ef in F. cbn [fst] in F.
      destruct F as (F1 & F2 & F3). unfold run_ok. rewrite F1, F2, <- Si, <- Sst. split_and!; [done|done|].
      by destruct F3 as [(-> & ? & ?)|(-> & ?)].
    - injection E as <- _ <-. unfold run_ok, fail_run. cbn. rewrite <- Si, <- Sst. split_and!; [done|done|eauto]. }
  unfold resume_task in H. destruct task as [config startTime data|config startTime total dayIndex rest sim].
  - destruct (dec_of_string _) as [ic|e].
    + destruct (run_days _ _ _ _ _ _ _ _ _ _) as [[run1 r1] o] eqn:E. apply run_days_same in E. by eapply G.
    + injection H as <- _ <-. unfold run_ok, fail_run. cbn. by split_and!; eauto.
  - destruct (run_days _ _ _ _ _ _ _ _ _ _) as [[run1 r1] o] eqn:E. apply run_days_same in E. by eapply G.
Qed.

Lemma resume_ok id e : engine_ok e -> engine_ok (resume onProgress onComplete id e).
Proof.
  intros He. unfold resume. destruct (jm_get id (en_tasks e)) as [task|] eqn:Et; [|done].
  destruct (jm_get id (en_runs e)) as [run|] eqn:Er; [|done].
  destruct (He id) as [_ Hid]. rewrite Er, Et in Hid. destruct Hid as (Hrid & aborted & Ea & Hok). rewrite Ea.
  destruct (resume_task onProgress onComplete aborted task run (en_reads e)) as [[run1 r1] rest] eqn:E.
  destruct (resume_task_ok _ _ _ _ _ _ _ (proj1 Hok) Hok E) as [H1 H2].
  intros id'. cbn [en_tasks en_runs en_abortControllers].
  destruct (decide (id' = id)) as [->|Hne].
  - rewrite jm_get_set_eq. split; [by eauto|]. split; [by rewrite H1|]. exists aborted. split; [done|].
    destruct rest; [by rewrite jm_get_set_eq|by rewrite jm_get_delete_eq].
  - rewrite jm_get_set_ne by congruence.
    assert (jm_get id' (match rest with Some t => jm_set id t (en_tasks e) | None => jm_delete id (en_tasks e) end) = jm_get id' (en_tasks e)) as ->.
    { destruct rest; [by rewrite jm_get_set_ne by congruence|by rewrite jm_get_delete_ne by congruence]. }
    apply He.
Qed.

Lemma cancel_ok id e : engine_ok e -> engine_ok (cancelBacktest id e).2.
Proof.
  intros He. unfold cancelBacktest. destruct (jm_get id (en_abortControllers e)) as [b|] eqn:Ea; [|done].
  intros id'. cbn [snd en_tasks en_runs en_abortControllers]. pose proof (He id') as [H1 H2].
  destruct (decide (id' = id)) as [->|Hne].
  - destruct (jm_get id (en_runs e)) as [run|] eqn:Er.
    + rewrite jm_get_set_eq. split; [by eauto|]. destruct H2 as (Hid & b' & _ & Hst & Hok). split; [done|].
      exists true. split; [by rewrite jm_get_set_eq|]. split; [done|]. destruct (jm_get id (en_tasks e)); cbn; [by destruct Hok as (_ & ? & ? & ?)|].
      split; [done|]. destruct (rn_status run); try done; [left; by destruct Hok|by right|by destruct Hok].
    + rewrite Er. split; [exact H1|done].
  - assert (jm_get id' (match jm_get id (en_runs e) with Some run => jm_set id (set_status run bt_cancelled) (en_runs e)
            | None => en_runs e end) = jm_get id' (en_runs e)) as ->.
    { destruct (jm_get id (en_runs e)); [by rewrite jm_get_set_ne by congruence|done]. }
    split; [exact H1|]. destruct (jm_get id' (en_runs e)); [|done]. destruct H2 as (Hid & b' & Hb & Hok).
    split; [done|]. exists b'. split; [by rewrite jm_get_set_ne by congruence|done].
Qed.

(** Beginning a simulation never fails: the data is always generated. *)
Lemma begin_simulation_returns config run r : exists now start data r',
  begin_simulation config run r = (Ret (set_started run now, after_generation config start data), r') /\
  rd_ids r' = rd_ids r.
Proof.
  unfold begin_simulation. eff_step (eq_refl (read_clock r)). eff_step (eq_refl (read_clock (MkReads (rd_ids r) (rd_clock r + 1) (rd_random r)))).
  match goal with |- context [(market_data config ≫= _) ?r0] => set (r2 := r0) end.
  destruct (market_data_complete_at (bc_period config) (bc_assets config) (bm_useHistoricalFunding (bc_simulation config))
    (bm_useHistoricalBasis (bc_simulation config)) (rd_random r2)) as (data & n & E & _).
  assert (Em : market_data config r2 = (Ret data, MkReads (rd_ids r2) (rd_clock r2) n)) by (unfold market_data; by rewrite E).
  eff_step Em. do 4 eexists. split; [reflexivity|done].
Qed.

(** A start either throws and changes nothing, or adds a fresh run with its task. *)
Lemma start_outcome config e :
  (exists err, startBacktest config e = (Throw err, e)) \/
  (exists run task r', let id := randomUUID (rd_ids (en_reads e)) in
    startBacktest config e = (Ret run, MkEngine (jm_set id run (en_runs e)) (jm_set id false (en_abortControllers e))
                                         (jm_set id task (en_tasks e)) r') /\
    rd_ids r' = rd_ids (en_reads e) + 1 /\ rn_runId run = id /\ run_ok false (Some task) run /\
    exists start data, task = after_generation config start data).
Proof.
  unfold startBacktest, mbind, eff_bind, lift_exn. destruct (validateBacktestConfig config) as [v|err]; [|left; eauto].
  destruct (negb (bv_valid v)); [left; by eexists|right]. cbn [createId].
  set (run0 := MkRun _ _ _ _ _ _ _ _). set (r1 := MkReads _ _ _).
  destruct (begin_simulation_returns config run0 r1) as (now & start & data & r2 & E & Eids). rewrite E.
  do 3 eexists. split; [reflexivity|]. split; [by rewrite Eids|]. split_and!; [done| |by eauto].
  unfold run_ok. cbn. by split_and!; eauto.
Qed.

Lemma start_ok config e : engine_ok e -> engine_ok (startBacktest config e).2.
Proof.
  intros He. destruct (start_outcome config e) as [[err ->]|(run & task & r' & -> & _ & Hid & Hok & _)]; [done|].
  intros id'. cbn [snd en_tasks en_runs en_abortControllers].
  destruct (decide (id' = randomUUID (rd_ids (en_reads e)))) as [->|Hne].
  - rewrite !jm_get_set_eq. split; [by eauto|]. split; [done|]. by exists false.
  - rewrite !jm_get_set_ne by congruence. apply He.
Qed.

Lemma reachable_engine_ok r0 evs : engine_ok (engine_run onProgress onComplete (new_engine r0) evs).
Proof.
  unfold engine_run. assert (H0 : engine_ok (new_engine r0)) by (intros i; split; [intros [? [=]]|done]).
  revert H0. generalize (new_engine r0) as e. induction evs as [|ev evs IH]; intros e He; [done|].
  apply IH. destruct ev; [by apply start_ok|by apply cancel_ok|by apply resume_ok].
Qed.

(** C28. Every reachable engine is well formed.  After any calls and
    continuations in any order, every run is registered under its id with its
    controller; a run whose task is left is running, or cancelled exactly when
    its controller is aborted, and has no results, completion time or error; a
    run without one is completed with results and a completion time, failed with
    an error, or was cancelled after it had ended. *)
Theorem backtest_runs_well_formed (r0 : Reads) (evs : list EngineEvent) (id : string) (run : BacktestRun) :
  let e := engine_run onProgress onComplete (new_engine r0) evs in
  jm_get id (en_runs e) = Some run ->
  rn_runId run = id /\
  exists aborted, jm_get id (en_abortControllers e) = Some aborted /\ run_ok aborted (jm_get id (en_tasks e)) run.
Proof.
  cbn zeta. pose proof (reachable_engine_ok r0 evs) as H.
  intros Hr. specialize (H id) as [_ H]. by rewrite Hr in H.
Qed.
End Runs.

(** * Runs end *)

Section Ends.
Context `{DL : DecimalLib} `{DH : DateHost} `{MH : MathHost} `{EH : EngineHost}.
Context (onProgress : BacktestRun -> exn unit) (onComplete : BacktestResults -> exn unit).

(** A computation never gives an identifier back. *)
Definition counts {A} (m : eff Reads A) : Prop := forall r x r', m r = (x, r') -> rd_ids r <= rd_ids r'.

Lemma counts_ret {A} (a : A) : counts (mret a).
Proof. intros r x r' [= _ <-]. lia. Qed.
Lemma counts_lift {A} (m : exn A) : counts (lift_exn m).
Proof. intros r x r' [= _ <-]. lia. Qed.
Lemma counts_bind {A B} (m : eff Reads A) (f : A -> eff Reads B) : counts m -> (forall a, counts (f a)) -> counts (m ≫= f).
Proof.
  intros Hm Hf r x r' H. eff_inv H as a r1 E; [by eapply Hm|]. apply Hm in E. apply Hf in H. lia.
Qed.
Lemma counts_id : counts createId.
Proof. intros r x r' [= _ <-]. cbn. lia. Qed.
Lemma counts_clock : counts read_clock.
Proof. intros r x r' [= _ <-]. cbn. lia. Qed.
Lemma counts_fold {A B} (f : B -> A -> eff Reads B) l : (forall b a, counts (f b a)) -> forall b, counts (fold_eff f b l).
Proof. intros Hf. induction l as [|a l IH]; intros b; [apply counts_ret|]. cbn [fold_eff]. by apply counts_bind. Qed.
#[local] Hint Resolve @counts_ret @counts_lift counts_id counts_clock : core.
Ltac counts_tac :=
  repeat first [progress intros | apply counts_bind | apply counts_fold | case_match | by auto].

Lemma counts_day config s day : counts (simulate_day config s day).
Proof.
  unfold simulate_day, process_point, trade_on_signal, executeEntry, executeExit. counts_tac.
Qed.
Lemma counts_results config s d : counts (buildResults config s d).
Proof. unfold buildResults, holding_hours. counts_tac. Qed.

(** The days a task still has, and one for its end. *)
Definition task_days (t : BacktestTask) : nat :=
  match t with
  | after_generation _ _ data => S (length (groupDataByDay data))
  | at_day _ _ _ _ rest _ => S (length rest)
  end.

Lemma run_days_progress aborted config startTime total rest : forall dayIndex sim run r run' r' o,
  run_days onProgress aborted config startTime total dayIndex rest sim run r = (run', r', o) ->
  rd_ids r <= rd_ids r' /\ (forall t, o = inl t -> (task_days t <= length rest)%nat).
Proof.
  induction rest as [|d rest IH]; intros dayIndex sim run r run' r' o H; cbn [run_days] in H.
  - injection H as _ <- <-. by split; [lia|].
  - destruct aborted; [injection H as _ <- <-; by split; [lia|]|].
    destruct (simulate_day config sim d r) as [[sim1|e] r1] eqn:E; apply counts_day in E;
      [|injection H as _ <- <-; by split; [lia|]].
    destruct (onProgress _); [|injection H as _ <- <-; by split; [lia|]].
    destruct (dayIndex mod 10 =? 0); [injection H as _ <- <-; split; [lia|by intros t [= <-]]|].
    apply IH in H as [H1 H2]. split; [lia|]. intros t Ht. specialize (H2 t Ht). cbn [length]. lia.
Qed.

Lemma finish_counts config startTime sim run r : rd_ids r <= rd_ids (finish_run onComplete config startTime sim run r).2.
Proof.
  unfold finish_run. destruct ((now ← read_clock; _) r) as [[results|e] r1] eqn:E; cbn [snd].
  all: assert (C : rd_ids r <= rd_ids r1) by
    (eapply counts_bind in E; [exact E|apply counts_clock|intros; apply counts_results]).
  - unfold read_clock. cbn. lia.
  - exact C.
Qed.

Lemma resume_task_progress aborted task run r run' r' task' :
  resume_task onProgress onComplete aborted task run r = (run', r', task') ->
  rd_ids r <= rd_ids r' /\ (forall t, task' = Some t -> (task_days t < task_days task)%nat).
Proof.
  assert (G : forall config startTime run1 r1 o n, rd_ids r <= rd_ids r1 -> (forall t, o = inl t -> (task_days t <= n)%nat) ->
    (match o : BacktestTask + exn SimState with
     | inl task' => (run1, r1, Some task')
     | inr (Throw e) => (fail_run run1 e, r1, None)
     | inr (Ret sim) => (finish_run onComplete config startTime sim run1 r1, None)
     end) = (run', r', task') -> rd_ids r <= rd_ids r' /\ (forall t, task' = Some t -> (task_days t < S n)%nat)).
  { intros config startTime run1 r1 o n H1 H2 E. destruct o as [t|[sim|e]].
    - injection E as _ <- <-. split; [done|]. intros t' [= <-]. specialize (H2 t eq_refl). lia.
    - pose proof (finish_counts config startTime sim run1 r1) as F.
      destruct (finish_run onComplete config startTime sim run1 r1) as [run2 r2]. injection E as _ <- <-. cbn in F. split; [lia|done].
    - injection E as _ <- <-. by split. }
  intros H. unfold resume_task in H. destruct task as [config startTime data|config startTime total dayIndex rest sim]; cbn [task_days].
  - destruct (dec_of_string _) as [ic|e]; [|injection H as _ <- <-; by split; [lia|]].
    destruct (run_days _ _ _ _ _ _ _ _ _ _) as [[run1 r1] o] eqn:E. apply run_days_progress in E as [E1 E2]. by eapply G.
  - destruct (run_days _ _ _ _ _ _ _ _ _ _) as [[run1 r1] o] eqn:E. apply run_days_progress in E as [E1 E2]. by eapply G.
Qed.

(** The continuations of a run among some events. *)
Definition resumes (id : string) (evs : list EngineEvent) : nat :=
  length (List.filter (fun ev => match ev with resume_event i => String.eqb i id | _ => false end) evs).

Definition remaining (id : string) (e : BacktestEngine) : nat :=
  match jm_get id (en_tasks e) with Some t => task_days t | None => 0 end.

Context (uuid_inj : forall i j, randomUUID i = randomUUID j -> i = j).

(** A run with an identifier that was given out before. *)
Definition registered (i : Z) (e : BacktestEngine) : Prop :=
  i < rd_ids (en_reads e) /\ is_Some (jm_get (randomUUID i) (en_runs e)).

Lemma step_progress i e ev : registered i e ->
  let e' := engine_step onProgress onComplete e ev in
  registered i e' /\ (remaining (randomUUID i) e' <= remaining (randomUUID i) e - resumes (randomUUID i) [ev])%nat.
Proof.
  intros [Hi Hr]. cbn zeta. unfold resumes, remaining. destruct ev as [config|id'|id']; cbn [engine_step List.filter length].
  - destruct (start_outcome config e) as [[err ->]|(run & task & r' & -> & Er & _)]; cbn [snd en_tasks en_runs en_reads].
    + split; [done|lia].
    + assert (randomUUID (rd_ids (en_reads e)) <> randomUUID i) by (intros E%uuid_inj; lia).
      rewrite jm_get_set_ne by done. split; [|lia]. split; cbn [en_reads en_runs]; [lia|by rewrite jm_get_set_ne].
  - unfold cancelBacktest. destruct (jm_get id' (en_abortControllers e)); cbn [snd en_tasks en_runs en_reads]; (split; [|lia]); [|done].
    split; [exact Hi|]. cbn [en_runs]. destruct (jm_get id' (en_runs e)); [|done]. rewrite jm_get_set. case_decide; [by eauto|done].
  - unfold resume. destruct (jm_get id' (en_tasks e)) as [task|] eqn:Et.
    2: { split; [done|]. destruct (String.eqb_spec id' (randomUUID i)) as [->|]; cbn [length]; [rewrite Et|]; lia. }
    destruct (jm_get id' (en_runs e)) as [run|] eqn:Erun.
    2: { split; [done|]. destruct (String.eqb_spec id' (randomUUID i)) as [->|]; cbn [length]; [|lia]. rewrite Erun in Hr. by destruct Hr. }
    destruct (resume_task _ _ _ task run (en_reads e)) as [[run1 r1] rest] eqn:E. apply resume_task_progress in E as [E1 E2].
    cbn [en_tasks en_runs en_reads]. split.
    + split; cbn [en_tasks en_runs en_reads]; [lia|]. rewrite jm_get_set. case_decide; [by eauto|done].
    + destruct (String.eqb_spec id' (randomUUID i)) as [->|Hne].
      * rewrite Et. destruct rest as [t|]; [|rewrite jm_get_delete_eq; lia]. rewrite jm_get_set_eq. specialize (E2 t eq_refl). cbn [length]. lia.
      * cbn [length]. destruct rest; [rewrite jm_get_set_ne by done|rewrite jm_get_delete_ne by done]; lia.
Qed.

Lemma run_progress i evs : forall e, registered i e ->
  let e' := engine_run onProgress onComplete e evs in
  registered i e' /\ (remaining (randomUUID i) e' <= remaining (randomUUID i) e - resumes (randomUUID i) evs)%nat.
Proof.
  induction evs as [|ev evs IH]; intros e He; cbn zeta; [split; [done|cbn; lia]|].
  destruct (step_progress i e ev He) as [H1 H2]. destruct (IH _ H1) as [H3 H4]. split; [exact H3|].
  change (ev :: evs) with ([ev] ++ evs). unfold resumes in *. rewrite List.filter_app, length_app.
  unfold engine_run in *. cbn [foldl app]. lia.
Qed.

(** C33. Every backtest ends.  Once started, a run has no task left after its
    task was continued as many times as its data has days, plus one, whatever
    other calls and continuations happen in between, and it stays registered. *)
Theorem backtest_run_ends (config : BacktestConfig) (e e1 : BacktestEngine) (run : BacktestRun) (evs : list EngineEvent)
    (Hstart : startBacktest config e = (Ret run, e1))
    (Hn : (remaining (rn_runId run) e1 <= resumes (rn_runId run) evs)%nat) :
  let e2 := engine_run onProgress onComplete e1 evs in
  jm_get (rn_runId run) (en_tasks e2) = None /\ is_Some (getRun (rn_runId run) e2).
Proof.
  cbn zeta. destruct (start_outcome config e) as [[err E]|(run' & task & r' & E & Er & Hid & _)]; rewrite E in Hstart; [done|].
  injection Hstart as -> <-. rewrite Hid in *.
  destruct (run_progress (rd_ids (en_reads e)) evs
    (MkEngine (jm_set (randomUUID (rd_ids (en_reads e))) run (en_runs e)) (jm_set (randomUUID (rd_ids (en_reads e))) false (en_abortControllers e))
       (jm_set (randomUUID (rd_ids (en_reads e))) task (en_tasks e)) r')) as [[_ H1] H2].
  - split; cbn [en_reads en_runs]; [lia|]. by rewrite jm_get_set_eq; eauto.
  - split; [|exact H1]. unfold remaining at 1 in H2. destruct (jm_get _ (en_tasks (engine_run _ _ _ _))) as [t|]; [|done].
    assert (1 <= task_days t)%nat by (destruct t; cbn; lia). lia.
Qed.
End Ends.

(** * Cancelled runs *)

Section Cancelled.
Context `{DL : DecimalLib} `{DH : DateHost} `{MH : MathHost} `{EH : EngineHost}.
Context (onProgress : BacktestRun -> exn unit) (onComplete : BacktestResults -> exn unit).

(** The days a task has not started. *)
Definition days_left (t : BacktestTask) : list DayData :=
  match t with after_generation _ _ data => groupDataByDay data | at_day _ _ _ _ rest _ => rest end.

Lemma aborted_days config startTime total dayIndex rest sim run r :
  run_days onProgress true config startTime total dayIndex rest sim run r =
    (run, r, inr (match rest with [] => Ret sim | _ => Throw (Error_ "Backtest cancelled") end)).
Proof. by destruct rest. Qed.

Lemma aborted_task task run r : exists run' r',
  resume_task onProgress onComplete true task run r = (run', r', None) /\
  (rn_status run' = bt_failed \/ rn_status run' = bt_completed) /\
  (days_left task <> [] -> rn_status run' = bt_failed /\ rn_results run' = rn_results run /\
     pg_processedDays (rn_progress run') = pg_processedDays (rn_progress run)).
Proof.
  assert (F : forall config startTime sim run r, exists run' r', finish_run onComplete config startTime sim run r = (run', r') /\
    (rn_status run' = bt_failed \/ rn_status run' = bt_completed)).
  { intros c st sim run1 r1. pose proof (finish_run_ends onComplete c st sim run1 r1) as (_ & _ & H).
    destruct (finish_run onComplete c st sim run1 r1) as [run' r']. exists run', r'. split; [done|]. cbn in H. tauto. }
  unfold resume_task, days_left. destruct task as [c st data|c st total i rest sim].
  - destruct (dec_of_string _) as [ic|e]; [|do 2 eexists; split_and!; [reflexivity|by left|done]].
    rewrite aborted_days. destruct (groupDataByDay data) as [|d days].
    + match goal with |- context [finish_run onComplete c st ?s ?x ?y] => destruct (F c st s x y) as (run' & r' & -> & H) end.
      do 2 eexists. split_and!; [reflexivity|exact H|done].
    + do 2 eexists. split_and!; [reflexivity|by left|done].
  - rewrite aborted_days. destruct rest as [|d days].
    + destruct (F c st sim run r) as (run' & r' & -> & H). do 2 eexists. split_and!; [reflexivity|exact H|done].
    + do 2 eexists. split_and!; [reflexivity|by left|done].
Qed.

(** A cancelled backtest is not reported as cancelled once it ends.  When a
    run that was cancelled continues, its task ends and its status becomes
    failed or completed; with days left it becomes failed, no further day is
    simulated and there are no results. *)
Theorem cancelled_run_not_reported (r0 : Reads) (evs : list EngineEvent) (id : string) (run : BacktestRun) (task : BacktestTask) :
  let e := engine_run onProgress onComplete (new_engine r0) evs in
  jm_get id (en_runs e) = Some run -> jm_get id (en_tasks e) = Some task -> rn_status run = bt_cancelled ->
  exists run', getRun id (resume onProgress onComplete id e) = Some run' /\
    jm_get id (en_tasks (resume onProgress onComplete id e)) = None /\
    (rn_status run' = bt_failed \/ rn_status run' = bt_completed) /\
    (days_left task <> [] -> rn_status run' = bt_failed /\ rn_results run' = None /\
       pg_processedDays (rn_progress run') = pg_processedDays (rn_progress run)).
Proof.
  cbn zeta. intros Hr Ht Hs. destruct (reachable_engine_ok onProgress onComplete r0 evs id) as [_ H].
  rewrite Hr, Ht in H. destruct H as (_ & aborted & Ha & _ & Hst & Hres & _).
  destruct aborted; [|congruence]. unfold resume. rewrite Ht, Hr, Ha.
  match goal with |- context [resume_task _ _ true task run ?r] => destruct (aborted_task task run r) as (run' & r' & -> & H1 & H2) end.
  exists run'. unfold getRun. cbn [en_runs en_tasks]. rewrite jm_get_set_eq, jm_get_delete_eq, <- Hres. by split_and!.
Qed.
End Cancelled.

(** * Concrete runs *)

#[local] Instance still_market : MathHost := {| math_sin _ := n_zero; math_random _ := num_of_dec 5 (-1); local_year_start t := t |}.
Definition no_progress (_ : BacktestRun) : exn unit := Ret tt.
Definition no_complete (_ : BacktestResults) : exn unit := Ret tt.
Definition first_engine : BacktestEngine (DL := exact_decimal) := new_engine (MkReads 0 0 0).

Lemma counting_inj i j : randomUUID i = randomUUID j -> i = j.
Proof. intros [= H]. exact (inj (pretty (A := Z)) _ _ H). Qed.

Lemma backtest_runs_well_formed_witness :
  let e := engine_run (DL := exact_decimal) no_progress no_complete (new_engine (MkReads 0 0 0)) [start_event sample_config; cancel_event "id-0"] in
  exists run, jm_get "id-0" (en_runs e) = Some run /\ rn_runId run = "id-0" /\ rn_status run = bt_cancelled.
Proof.
  cbn zeta. set (e := engine_run _ _ _ _).
  assert (B : match jm_get "id-0" (en_runs e) with Some run => bool_decide (rn_status run = bt_cancelled) | None => false end = true)
    by (vm_compute; reflexivity).
  destruct (jm_get "id-0" (en_runs e)) as [run|] eqn:E; [|discriminate B]. exists run. split; [done|].
  split; [|by apply bool_decide_eq_true in B].
  exact (proj1 (backtest_runs_well_formed (DL := exact_decimal) no_progress no_complete (MkReads 0 0 0) _ "id-0" run E)).
Defined.

Lemma backtest_run_ends_witness :
  match startBacktest (DL := exact_decimal) sample_config first_engine with
  | (Ret run, e1) => jm_get (rn_runId run)
      (en_tasks (engine_run no_progress no_complete e1 (repeat (resume_event "id-0") 5))) = None
  | _ => False
  end.
Proof.
  assert (B : match startBacktest (DL := exact_decimal) sample_config first_engine with
    | (Ret run, e1) => Nat.leb (remaining (rn_runId run) e1) (resumes (rn_runId run) (repeat (resume_event "id-0") 5))
    | _ => false end = true) by (vm_compute; reflexivity).
  destruct (startBacktest sample_config first_engine) as [[run|err] e1] eqn:E; [|discriminate B]. apply Nat.leb_le in B.
  exact (proj1 (backtest_run_ends (DL := exact_decimal) no_progress no_complete counting_inj sample_config first_engine e1 run _ E B)).
Defined.

Lemma cancelled_run_not_reported_witness :
  let e := engine_run (DL := exact_decimal) no_progress no_complete (new_engine (MkReads 0 0 0)) [start_event sample_config; cancel_event "id-0"] in
  exists run', getRun "id-0" (resume no_progress no_complete "id-0" e) = Some run' /\
    (rn_status run' = bt_failed \/ rn_status run' = bt_completed).
Proof.
  cbn zeta. set (e := engine_run _ _ _ _).
  assert (B : match jm_get "id-0" (en_runs e), jm_get "id-0" (en_tasks e) with
    | Some run, Some _ => bool_decide (rn_status run = bt_cancelled) | _, _ => false end = true) by (vm_compute; reflexivity).
  destruct (jm_get "id-0" (en_runs e)) as [run|] eqn:Er; [|discriminate B].
  destruct (jm_get "id-0" (en_tasks e)) as [task|] eqn:Et; [|discriminate B]. apply bool_decide_eq_true in B.
  destruct (cancelled_run_not_reported (DL := exact_decimal) no_progress no_complete (MkReads 0 0 0) _ "id-0" run task Er Et B)
    as (run' & H1 & _ & H2 & _). exact (ex_intro _ run' (conj H1 H2)).
Defined.

(** A run of the sample: three days of data, completed by its second
    continuation; cancelled afterwards it is listed as cancelled although it has
    its results. *)
Example sample_engine_run :
  let e := engine_run (DL := exact_decimal) no_progress no_complete first_engine
             [start_event sample_config; resume_event "id-0"; resume_event "id-0"; cancel_event "id-0"] in
  (r ← getRun "id-0" e; Some (rn_status r, pg_processedDays (rn_progress r), bool_decide (is_Some (rn_completedAt r))))
    = Some (bt_cancelled, 3, true).
Proof. vm_compute. reflexivity. Qed.
