(* ===== verification/Commands.v ===== *)
(** * Runtime commands (packages/runtime: store.ts and control-plane.ts)

    The queue of commands between the control plane and the worker: the tables of
    commands, of remediation attempts, of bundle recoveries and of the worker's
    state, the store functions on them, and how the control plane asks for a
    command or for the remediation of a mismatch.  The statements of the database
    are the class [CommandDb]. *)
From S2P Require Import Prelude JsNumber JsValue JsText MismatchLifecycle MismatchStore CarryExecution.
Open Scope Z_scope.

(** ** Data *)

Inductive RuntimeRemediationActionType := ra_run_cycle | ra_rebuild_projections.
Inductive RuntimeRemediationStatus := rm_requested | rm_running | rm_completed | rm_failed.
Inductive WorkerLifecycleState := wl_starting | wl_ready | wl_stopping | wl_stopped | wl_degraded.
Inductive WorkerSchedulerState := wc_idle | wc_waiting | wc_running | wc_paused.
#[export] Instance RemediationType_eq_dec : EqDecision RuntimeRemediationActionType.
Proof. solve_decision. Defined.
#[export] Instance RemediationStatus_eq_dec : EqDecision RuntimeRemediationStatus.
Proof. solve_decision. Defined.

Definition command_type_str (c : RuntimeCommandType) : string :=
  match c with
  | rct_run_cycle => "run_cycle" | rct_run_carry_evaluation => "run_carry_evaluation" | rct_rebuild_projections => "rebuild_projections"
  | rct_run_reconciliation => "run_reconciliation" | rct_run_treasury_evaluation => "run_treasury_evaluation"
  | rct_run_allocator_evaluation => "run_allocator_evaluation" | rct_execute_carry_action => "execute_carry_action"
  | rct_execute_treasury_action => "execute_treasury_action" | rct_execute_rebalance_proposal => "execute_rebalance_proposal"
  end.
Definition remediation_type_str (r : RuntimeRemediationActionType) : string :=
  match r with ra_run_cycle => "run_cycle" | ra_rebuild_projections => "rebuild_projections" end.

Record RuntimeCommandView := MkCommand {
  rc_commandId : string;
  rc_commandType : RuntimeCommandType;
  rc_status : RuntimeCommandStatus;
  rc_requestedBy : string;
  rc_claimedBy : option string;
  rc_payload : record_;
  rc_result : record_;
  rc_errorMessage : option string;
  rc_requestedAt : Z;
  rc_startedAt : option Z;
  rc_completedAt : option Z;
  rc_updatedAt : Z;
}.

(** A row of [runtime_mismatch_remediations], and its view. *)
Record RemediationRow := MkRemediation {
  rr_id : string;
  rr_mismatchId : string;
  rr_attemptSequence : Z;
  rr_remediationType : RuntimeRemediationActionType;
  rr_commandId : string;
  rr_status : RuntimeRemediationStatus;
  rr_requestedBy : string;
  rr_requestedSummary : option string;
  rr_outcomeSummary : option string;
  rr_latestRecoveryEventId : option string;
  rr_startedAt : option Z;
  rr_completedAt : option Z;
  rr_failedAt : option Z;
  rr_updatedAt : Z;
}.
Record RuntimeMismatchRemediationView := MkRemediationView {
  rv_row : RemediationRow;
  rv_command : option RuntimeCommandView;
  rv_latestRecoveryEvent : option RecoveryEvent;
}.

Record WorkerStatusView := MkWorkerStatus {
  ws_workerId : string;
  ws_lifecycleState : WorkerLifecycleState;
  ws_schedulerState : WorkerSchedulerState;
  ws_currentOperation : option string;
  ws_currentCommandId : option string;
  ws_currentRunId : option string;
  ws_cycleIntervalMs : Z;
  ws_processId : option Z;
  ws_hostname : option string;
  ws_lastHeartbeatAt : option Z;
  ws_lastStartedAt : option Z;
  ws_lastStoppedAt : option Z;
  ws_lastRunStartedAt : option Z;
  ws_lastRunCompletedAt : option Z;
  ws_lastSuccessAt : option Z;
  ws_lastFailureAt : option Z;
  ws_lastFailureReason : option string;
  ws_nextScheduledRunAt : option Z;
  ws_updatedAt : Z;
}.
(** The fields of a patch of the worker's state that are given. *)
Inductive WorkerField :=
  | wf_workerId (v : string) | wf_lifecycleState (v : WorkerLifecycleState) | wf_schedulerState (v : WorkerSchedulerState)
  | wf_currentOperation (v : option string) | wf_currentCommandId (v : option string) | wf_currentRunId (v : option string)
  | wf_cycleIntervalMs (v : Z) | wf_processId (v : option Z) | wf_hostname (v : option string) | wf_lastHeartbeatAt (v : option Z)
  | wf_lastStartedAt (v : option Z) | wf_lastStoppedAt (v : option Z) | wf_lastRunStartedAt (v : option Z)
  | wf_lastRunCompletedAt (v : option Z) | wf_lastSuccessAt (v : option Z) | wf_lastFailureAt (v : option Z)
  | wf_lastFailureReason (v : option string) | wf_nextScheduledRunAt (v : option Z).
Definition set_worker_field (w : WorkerStatusView) (f : WorkerField) : WorkerStatusView :=
  let '(MkWorkerStatus id lc sc op cmd run ci pid host hb st sp rs rc su fa fr nx up) := w in
  match f with
  | wf_workerId v => MkWorkerStatus v lc sc op cmd run ci pid host hb st sp rs rc su fa fr nx up
  | wf_lifecycleState v => MkWorkerStatus id v sc op cmd run ci pid host hb st sp rs rc su fa fr nx up
  | wf_schedulerState v => MkWorkerStatus id lc v op cmd run ci pid host hb st sp rs rc su fa fr nx up
  | wf_currentOperation v => MkWorkerStatus id lc sc v cmd run ci pid host hb st sp rs rc su fa fr nx up
  | wf_currentCommandId v => MkWorkerStatus id lc sc op v run ci pid host hb st sp rs rc su fa fr nx up
  | wf_currentRunId v => MkWorkerStatus id lc sc op cmd v ci pid host hb st sp rs rc su fa fr nx up
  | wf_cycleIntervalMs v => MkWorkerStatus id lc sc op cmd run v pid host hb st sp rs rc su fa fr nx up
  | wf_processId v => MkWorkerStatus id lc sc op cmd run ci v host hb st sp rs rc su fa fr nx up
  | wf_hostname v => MkWorkerStatus id lc sc op cmd run ci pid v hb st sp rs rc su fa fr nx up
  | wf_lastHeartbeatAt v => MkWorkerStatus id lc sc op cmd run ci pid host v st sp rs rc su fa fr nx up
  | wf_lastStartedAt v => MkWorkerStatus id lc sc op cmd run ci pid host hb v sp rs rc su fa fr nx up
  | wf_lastStoppedAt v => MkWorkerStatus id lc sc op cmd run ci pid host hb st v rs rc su fa fr nx up
  | wf_lastRunStartedAt v => MkWorkerStatus id lc sc op cmd run ci pid host hb st sp v rc su fa fr nx up
  | wf_lastRunCompletedAt v => MkWorkerStatus id lc sc op cmd run ci pid host hb st sp rs v su fa fr nx up
  | wf_lastSuccessAt v => MkWorkerStatus id lc sc op cmd run ci pid host hb st sp rs rc v fa fr nx up
  | wf_lastFailureAt v => MkWorkerStatus id lc sc op cmd run ci pid host hb st sp rs rc su v fr nx up
  | wf_lastFailureReason v => MkWorkerStatus id lc sc op cmd run ci pid host hb st sp rs rc su fa v nx up
  | wf_nextScheduledRunAt v => MkWorkerStatus id lc sc op cmd run ci pid host hb st sp rs rc su fa fr v up
  end.
Definition touch_worker (now : Z) (w : WorkerStatusView) : WorkerStatusView :=
  let '(MkWorkerStatus id lc sc op cmd run ci pid host hb st sp rs rc su fa fr nx _) := w in
  MkWorkerStatus id lc sc op cmd run ci pid host hb st sp rs rc su fa fr nx now.
Definition unassigned_worker : WorkerStatusView :=
  MkWorkerStatus "unassigned" wl_stopped wc_idle None None None 60000 None None None None None None None None None None None 0.
Definition new_worker_state (workerId : string) (cycleIntervalMs now : Z) : WorkerStatusView :=
  MkWorkerStatus workerId wl_stopped wc_idle None None None cycleIntervalMs None None None None None None None None None None None now.

(** Of the state of the runtime, what decides whether it is paused. *)
Record RuntimeStateRow := MkRuntimeState { rt_halted : bool; rt_lifecycleState : RuntimeLifecycleState }.

(** Of a row of [allocator_rebalance_bundle_recovery_actions], what the worker sets. *)
Inductive RebalanceBundleRecoveryStatus := br_requested | br_queued | br_executing | br_completed | br_failed | br_blocked | br_cancelled.
Record RecoveryActionRow := MkRecoveryAction {
  ba_id : string;
  ba_status : RebalanceBundleRecoveryStatus;
  ba_outcomeSummary : option string;
  ba_outcome : record_;
  ba_lastError : option string;
  ba_startedAt : option Z;
  ba_completedAt : option Z;
  ba_updatedAt : Z;
}.

(** ** The database *)

Class CommandDb `{MD : MismatchDb} := {
  (** [createId()] *)
  cd_create_id : eff Db string;
  (** [insert(runtimeCommands).values(row).onConflictDoNothing()], the database giving [requestedAt] *)
  cd_insert_command : string -> (Z -> RuntimeCommandView) -> eff Db unit;
  (** the pending command requested first *)
  cd_pending : eff Db (option RuntimeCommandView);
  cd_command : string -> eff Db (option RuntimeCommandView);
  (** [update(runtimeCommands).set(f).where(..)] on the command of an id, where a condition holds *)
  cd_update_command : string -> (RuntimeCommandView -> bool) -> (RuntimeCommandView -> RuntimeCommandView) -> eff Db unit;
  (** the largest attempt of a mismatch, 0 without one *)
  cd_last_attempt : string -> eff Db Z;
  cd_insert_remediation : (string -> RemediationRow) -> eff Db (option RemediationRow);
  (** the attempt where a condition holds, the latest first *)
  cd_remediation : (RemediationRow -> bool) -> eff Db (option RemediationRow);
  cd_update_remediation : string -> (RemediationRow -> RemediationRow) -> eff Db unit;
  cd_event : string -> eff Db (option RecoveryEvent);
  cd_worker : eff Db (option WorkerStatusView);
  (** on a conflict nothing *)
  cd_insert_worker : WorkerStatusView -> eff Db unit;
  cd_update_worker : (WorkerStatusView -> WorkerStatusView) -> eff Db unit;
  cd_runtime : eff Db (option RuntimeStateRow);
  cd_recovery : string -> eff Db (option RecoveryActionRow);
  cd_update_recovery : string -> (RecoveryActionRow -> RecoveryActionRow) -> eff Db unit;
}.

(** Other processes may ask for commands at any time: a command keeps its row
    until the worker updates it, and new commands are pending. *)
Definition asked (more : list RuntimeCommandView) : Prop := Forall (fun c => rc_status c = rcs_pending) more.
Definition update_where (id : string) (cond : RuntimeCommandView -> bool) (f : RuntimeCommandView -> RuntimeCommandView)
    (c : RuntimeCommandView) : RuntimeCommandView :=
  if decide (rc_commandId c = id) then if cond c then f c else c else c.

(** The documented behaviour on the commands; a failing statement changes none. *)
Class CommandDbLaws `{CD : CommandDb} := {
  commands_of : Db -> list RuntimeCommandView;
  commands_unique : forall d, NoDup (map rc_commandId (commands_of d));
  grows (d d' : Db) : Prop := exists more, asked more /\ commands_of d' = commands_of d ++ more;
  cd_create_id_law : keeps grows cd_create_id;
  cd_insert_command_law : forall id mk d r d', cd_insert_command id mk d = (r, d') -> (forall t, rc_status (mk t) = rcs_pending) -> grows d d';
  cd_pending_law : forall d r d', cd_pending d = (r, d') -> grows d d' /\
    forall c, r = Ret (Some c) -> c ∈ commands_of d' /\ rc_status c = rcs_pending;
  cd_command_law : forall id d r d', cd_command id d = (r, d') -> grows d d' /\
    forall o, r = Ret o -> o = find_key rc_commandId id (commands_of d');
  cd_update_command_law : forall id cond f d r d', cd_update_command id cond f d = (r, d') ->
    (forall c, rc_commandId (f c) = rc_commandId c) ->
    grows d d' /\ is_ret r = false \/
    exists d1, grows d d1 /\ commands_of d' = map (update_where id cond f) (commands_of d1);
  cd_last_attempt_law : forall m, keeps grows (cd_last_attempt m);
  cd_insert_remediation_law : forall mk, keeps grows (cd_insert_remediation mk);
  cd_remediation_law : forall p, keeps grows (cd_remediation p);
  cd_update_remediation_law : forall id f, keeps grows (cd_update_remediation id f);
  cd_event_law : forall id, keeps grows (cd_event id);
  cd_worker_law : keeps grows cd_worker;
  cd_insert_worker_law : forall w, keeps grows (cd_insert_worker w);
  cd_update_worker_law : forall f, keeps grows (cd_update_worker f);
  cd_runtime_law : keeps grows cd_runtime;
  cd_recovery_law : forall id, keeps grows (cd_recovery id);
  cd_update_recovery_law : forall id f, keeps grows (cd_update_recovery id f);
  cm_select_law : forall k, keeps grows (db_select k);
  cm_select_id_law : forall i, keeps grows (db_select_id i);
  cm_insert_law : forall mk, keeps grows (db_insert mk);
  cm_update_law : forall k f, keeps grows (db_update k f);
  cm_update_id_law : forall i f, keeps grows (db_update_id i f);
  cm_insert_event_law : forall e, keeps grows (db_insert_event e);
  cm_now_law : keeps grows db_now;
}.

Section Commands.
Context `{CD : CommandDb}.

(** ** The store: commands *)

Definition enqueueRuntimeCommand (commandId : string) (commandType : RuntimeCommandType) (requestedBy : string) (payload : record_)
    : eff Db unit :=
  now ← db_now;
  cd_insert_command commandId (fun requestedAt =>
    MkCommand commandId commandType rcs_pending requestedBy None payload [] None requestedAt None None now).
Definition getRuntimeCommand (commandId : string) : eff Db (option RuntimeCommandView) := cd_command commandId.

Definition claimed_row (claimedBy : string) (startedAt now : Z) (c : RuntimeCommandView) : RuntimeCommandView :=
  MkCommand (rc_commandId c) (rc_commandType c) rcs_running (rc_requestedBy c) (Some claimedBy) (rc_payload c) (rc_result c)
    (rc_errorMessage c) (rc_requestedAt c) (Some startedAt) (rc_completedAt c) now.
(** The statements after the pending command was read. *)
Definition claim_pending (claimedBy : string) (pending : RuntimeCommandView) : eff Db (option RuntimeCommandView) :=
  startedAt ← db_now;
  now ← db_now;
  _ ← cd_update_command (rc_commandId pending) (fun c => bool_decide (rc_status c = rcs_pending)) (claimed_row claimedBy startedAt now);
  getRuntimeCommand (rc_commandId pending).
Definition claimNextPendingCommand (claimedBy : string) : eff Db (option RuntimeCommandView) :=
  pending ← cd_pending;
  match pending with None => mret None | Some p => claim_pending claimedBy p end.

Definition completed_row (result : record_) (completedAt now : Z) (c : RuntimeCommandView) : RuntimeCommandView :=
  MkCommand (rc_commandId c) (rc_commandType c) rcs_completed (rc_requestedBy c) (rc_claimedBy c) (rc_payload c) result None
    (rc_requestedAt c) (rc_startedAt c) (Some completedAt) now.
Definition completeRuntimeCommand (commandId : string) (result : record_) : eff Db (option RuntimeCommandView) :=
  completedAt ← db_now;
  now ← db_now;
  _ ← cd_update_command commandId (fun _ => true) (completed_row result completedAt now);
  getRuntimeCommand commandId.
Definition failed_row (errorMessage : string) (completedAt now : Z) (c : RuntimeCommandView) : RuntimeCommandView :=
  MkCommand (rc_commandId c) (rc_commandType c) rcs_failed (rc_requestedBy c) (rc_claimedBy c) (rc_payload c) (rc_result c) (Some errorMessage)
    (rc_requestedAt c) (rc_startedAt c) (Some completedAt) now.
Definition failRuntimeCommand (commandId errorMessage : string) : eff Db (option RuntimeCommandView) :=
  completedAt ← db_now;
  now ← db_now;
  _ ← cd_update_command commandId (fun _ => true) (failed_row errorMessage completedAt now);
  getRuntimeCommand commandId.

(** ** The store: the worker and the runtime *)

Definition ensureWorkerState (workerId : string) (cycleIntervalMs : Z) : eff Db unit :=
  now ← db_now;
  cd_insert_worker (new_worker_state workerId cycleIntervalMs now).
Definition getWorkerStatus : eff Db WorkerStatusView :=
  row ← cd_worker;
  mret (or_else row unassigned_worker).
Definition updateWorkerStatus (patch : list WorkerField) : eff Db unit :=
  now ← db_now;
  cd_update_worker (fun w => touch_worker now (fold_left set_worker_field patch w)).
Definition getRuntimeStatus : eff Db RuntimeStateRow :=
  row ← cd_runtime;
  mret (or_else row (MkRuntimeState false rl_stopped)).

Definition updateRebalanceBundleRecoveryAction (recoveryActionId : string) (patch : RecoveryActionRow -> RecoveryActionRow)
    : eff Db (option RecoveryActionRow) :=
  now ← db_now;
  _ ← cd_update_recovery recoveryActionId (fun row =>
        let row' := patch row in
        MkRecoveryAction (ba_id row) (ba_status row') (ba_outcomeSummary row') (ba_outcome row') (ba_lastError row') (ba_startedAt row')
          (ba_completedAt row') now);
  cd_recovery recoveryActionId.

(** ** The store: remediations *)

Definition mapRemediationRow (row : RemediationRow) : eff Db RuntimeMismatchRemediationView :=
  command ← getRuntimeCommand (rr_commandId row);
  latestRecoveryEvent ← (match rr_latestRecoveryEventId row with None => mret None | Some id => cd_event id end);
  mret (MkRemediationView row command latestRecoveryEvent).
Definition map_remediation (row : option RemediationRow) : eff Db (option RuntimeMismatchRemediationView) :=
  match row with None => mret None | Some r => v ← mapRemediationRow r; mret (Some v) end.
Definition getMismatchRemediationById (id : string) : eff Db (option RuntimeMismatchRemediationView) :=
  row ← cd_remediation (fun r => String.eqb (rr_id r) id); map_remediation row.
Definition getMismatchRemediationByCommandId (commandId : string) : eff Db (option RuntimeMismatchRemediationView) :=
  row ← cd_remediation (fun r => String.eqb (rr_commandId r) commandId); map_remediation row.
Definition in_flight (r : RemediationRow) : bool := bool_decide (rr_status r = rm_requested) || bool_decide (rr_status r = rm_running).
Definition getInFlightMismatchRemediation (mismatchId : string) : eff Db (option RuntimeMismatchRemediationView) :=
  row ← cd_remediation (fun r => String.eqb (rr_mismatchId r) mismatchId && in_flight r); map_remediation row.

Definition createMismatchRemediation (mismatchId : string) (remediationType : RuntimeRemediationActionType) (commandId requestedBy : string)
    (requestedSummary : option string) : eff Db RuntimeMismatchRemediationView :=
  last ← cd_last_attempt mismatchId;
  now ← db_now;
  inserted ← cd_insert_remediation (fun id =>
    MkRemediation id mismatchId (last + 1) remediationType commandId rm_requested requestedBy requestedSummary None None None None None now);
  match inserted with
  | None => throw_eff (Error_ ("RuntimeStore.createMismatchRemediation: remediation for mismatch " +:+ quoted mismatchId +:+ " was not persisted"))
  | Some row => mapRemediationRow row
  end.
Definition updateMismatchRemediationById (id : string) (patch : RemediationRow -> RemediationRow)
    : eff Db (option RuntimeMismatchRemediationView) :=
  now ← db_now;
  _ ← cd_update_remediation id (fun row =>
        let r := patch row in
        MkRemediation (rr_id r) (rr_mismatchId r) (rr_attemptSequence r) (rr_remediationType r) (rr_commandId r) (rr_status r) (rr_requestedBy r)
          (rr_requestedSummary r) (rr_outcomeSummary r) (rr_latestRecoveryEventId r) (rr_startedAt r) (rr_completedAt r) (rr_failedAt r) now);
  getMismatchRemediationById id.

(** ** The control plane *)

Definition createCommandRecord (commandId : string) (commandType : RuntimeCommandType) (requestedBy : string) (payload : record_)
    : eff Db RuntimeCommandView :=
  _ ← enqueueRuntimeCommand commandId commandType requestedBy payload;
  _ ← recordRecoveryEvent (MkRecoveryEvent None (Some commandId) None "runtime_command_requested" "pending" "api-control-plane"
        (Some requestedBy) ("Runtime command " +:+ command_type_str commandType +:+ " requested.") payload None None);
  command ← getRuntimeCommand commandId;
  match command with
  | None => throw_eff (Error_ ("RuntimeControlPlane.createCommandRecord: command " +:+ quoted commandId +:+ " was not persisted"))
  | Some c => mret c
  end.
Definition enqueueCommand (commandType : RuntimeCommandType) (requestedBy : string) (payload : record_) : eff Db RuntimeCommandView :=
  commandId ← cd_create_id;
  createCommandRecord commandId commandType requestedBy payload.

Definition getRequiredMismatch (mismatchId : string) : eff Db RuntimeMismatchView :=
  mismatch ← getMismatchById mismatchId;
  match mismatch with
  | None => throw_eff (RuntimeMismatchNotFoundError ("Mismatch " +:+ quoted mismatchId +:+ " was not found."))
  | Some m => mret m
  end.
Definition remediation_payload (mismatchId actorId : string) (remediationType : RuntimeRemediationActionType) : record_ :=
  (if bool_decide (remediationType = ra_run_cycle) then [("triggerSource", JStr ("mismatch-remediation:" +:+ mismatchId))] else [])
  ++ [("remediation", JObj [("mismatchId", JStr mismatchId); ("remediationType", JStr (remediation_type_str remediationType));
                            ("requestedBy", JStr actorId)])].
Definition remediation_command (r : RuntimeRemediationActionType) : RuntimeCommandType :=
  match r with ra_run_cycle => rct_run_cycle | ra_rebuild_projections => rct_rebuild_projections end.
Definition recovering_patch (status : RuntimeMismatchStatus) (actorId summary commandId : string) (startedAt changedAt : Z)
    (m : RuntimeMismatchView) : RuntimeMismatchView :=
  MkMismatch (mm_id m) (mm_dedupeKey m) (mm_category m) (mm_severity m) (mm_sourceKind m) (mm_sourceComponent m)
    (mm_entityType m) (mm_entityId m) (mm_summary m) (mm_details m) status (mm_firstDetectedAt m) (mm_lastDetectedAt m)
    (mm_occurrenceCount m) (mm_acknowledgedAt m) (mm_acknowledgedBy m) (Some startedAt) (Some actorId) (Some summary) (Some commandId) None
    (mm_resolvedAt m) (mm_resolvedBy m) (mm_resolutionSummary m) (mm_verifiedAt m) (mm_verifiedBy m) (mm_verificationSummary m)
    (mm_verificationOutcome m) (mm_reopenedAt m) (mm_reopenedBy m) (mm_reopenSummary m) changedAt (mm_updatedAt m).

(** The guards of [remediateMismatch]. *)
Definition check_remediation (mismatchId : string) (remediationType : RuntimeRemediationActionType) : eff Db RuntimeMismatchView :=
  mismatch ← getRequiredMismatch mismatchId;
  if bool_decide (mm_status mismatch = ms_resolved) || bool_decide (mm_status mismatch = ms_verified) then
    throw_eff (RuntimeMismatchLifecycleError ("Cannot start remediation for mismatch " +:+ quoted mismatchId +:+ " from status "
      +:+ quoted (mismatch_status_str (mm_status mismatch)) +:+ "."))
  else
    inFlight ← getInFlightMismatchRemediation mismatchId;
    match inFlight with
    | Some r => throw_eff (RuntimeMismatchLifecycleError ("Mismatch " +:+ quoted mismatchId +:+ " already has remediation " +:+ quoted (rr_id (rv_row r))
                  +:+ " in flight."))
    | None =>
        runtimeStatus ← getRuntimeStatus;
        if bool_decide (remediationType = ra_run_cycle)
           && (rt_halted runtimeStatus || bool_decide (rt_lifecycleState runtimeStatus = rl_paused)
               || bool_decide (rt_lifecycleState runtimeStatus = rl_stopped))
        then throw_eff (RuntimeMismatchLifecycleError ("Cannot start run_cycle remediation while runtime is "
               +:+ RuntimeLifecycleState_str (rt_lifecycleState runtimeStatus) +:+ "."))
        else mret mismatch
    end.
(** What follows the command of a remediation. *)
Definition record_remediation (mismatch : RuntimeMismatchView) (mismatchId actorId : string) (remediationType : RuntimeRemediationActionType)
    (summary : option string) (commandId : string) : eff Db RuntimeMismatchRemediationView :=
  remediation ← createMismatchRemediation mismatchId remediationType commandId actorId summary;
  nextStatus ← lift_exn (recoveryNextStatus (mm_status mismatch));
  startedAt ← db_now;
  changedAt ← db_now;
  _ ← updateMismatchById mismatchId (recovering_patch nextStatus actorId
        (or_else summary ("Remediation " +:+ remediation_type_str remediationType +:+ " requested.")) commandId startedAt changedAt);
  let id := rr_id (rv_row remediation) in
  _ ← recordRecoveryEvent (MkRecoveryEvent (Some mismatchId) (Some commandId) None "mismatch_remediation_requested"
        (mismatch_status_str nextStatus) "api-control-plane" (Some actorId)
        (or_else summary ("Mismatch remediation " +:+ remediation_type_str remediationType +:+ " requested."))
        [("mismatchId", JStr mismatchId); ("remediationId", JStr id); ("remediationType", JStr (remediation_type_str remediationType))] None None);
  result ← getMismatchRemediationById id;
  match result with
  | None => throw_eff (Error_ ("RuntimeControlPlane.remediateMismatch: remediation " +:+ quoted id +:+ " was not persisted"))
  | Some v => mret v
  end.
Definition remediateMismatch (mismatchId actorId : string) (remediationType : RuntimeRemediationActionType) (summary : option string)
    : eff Db RuntimeMismatchRemediationView :=
  mismatch ← check_remediation mismatchId remediationType;
  let summary := js_trim <$> summary in
  commandId ← cd_create_id;
  _ ← createCommandRecord commandId (remediation_command remediationType) actorId (remediation_payload mismatchId actorId remediationType);
  record_remediation mismatch mismatchId actorId remediationType summary commandId.
End Commands.

(** ** What the functions do to the commands *)

Lemma find_key_keep {A} (key : A -> string) k l more x : find_key key k l = Some x -> find_key key k (l ++ more) = Some x.
Proof. unfold find_key. induction l as [|y l IH]; [done|]. cbn. by destruct (String.eqb (key y) k). Qed.

Section Growth.
Context `{CL : CommandDbLaws}.

#[export] Instance grows_preorder : PreOrder grows.
Proof.
  unfold grows, asked. split.
  - intros d. exists []. by rewrite app_nil_r.
  - intros a b c (m1 & H1 & E1) (m2 & H2 & E2). exists (m1 ++ m2). rewrite E2, E1, app_assoc. split; [by apply Forall_app|done].
Qed.

Definition status_of (id : string) (d : Db) : option RuntimeCommandStatus := rc_status <$> find_key rc_commandId id (commands_of d).

(** A command that is no longer pending stays so. *)
Definition advances (d d' : Db) : Prop :=
  forall id s, status_of id d = Some s -> s <> rcs_pending -> exists s', status_of id d' = Some s' /\ s' <> rcs_pending.
#[export] Instance advances_preorder : PreOrder advances.
Proof.
  split; [by intros d id s H Hs; exists s|]. intros a b c H1 H2 id s H Hs. destruct (H1 _ _ H Hs) as (s1 & H3 & H4). by apply (H2 _ s1).
Qed.

Lemma grows_status id s d d' : grows d d' -> status_of id d = Some s -> status_of id d' = Some s.
Proof.
  intros (more & _ & E) H. unfold status_of in *. rewrite E. destruct (find_key rc_commandId id (commands_of d)) as [c|] eqn:F; [|done].
  by rewrite (find_key_keep _ _ _ _ _ F).
Qed.
Lemma grows_advances d d' : grows d d' -> advances d d'.
Proof. intros H id s Hs Hn. exists s. split; [by eapply grows_status|done]. Qed.
Lemma keeps_advances {A} (m : eff Db A) : keeps grows m -> keeps advances m.
Proof. intros H d r d' E. by eapply grows_advances, H. Qed.

Lemma update_status id0 cond f id d1 d' s : (forall c, rc_commandId (f c) = rc_commandId c) ->
  commands_of d' = map (update_where id0 cond f) (commands_of d1) -> status_of id d1 = Some s ->
  exists c, find_key rc_commandId id (commands_of d1) = Some c /\ rc_status c = s /\ status_of id d' = Some (rc_status (update_where id0 cond f c)).
Proof.
  intros Hf E H. unfold status_of in *. rewrite E. destruct (find_key rc_commandId id (commands_of d1)) as [c|] eqn:F; [|done].
  injection H as <-. exists c. split_and!; [done|done|]. rewrite find_key_map; [by rewrite F|]. intros x. unfold update_where.
  case_decide; [|done]. destruct (cond x); [apply Hf|done].
Qed.

Lemma update_advances id cond f : (forall c, rc_commandId (f c) = rc_commandId c) -> (forall c, rc_status (f c) <> rcs_pending) ->
  keeps advances (cd_update_command id cond f).
Proof.
  intros Hf Hs d r d' E. destruct (cd_update_command_law _ _ _ _ _ _ E Hf) as [[G _]|(d1 & G & E')]; [by apply grows_advances|].
  etrans; [by apply grows_advances|]. intros id' s H Hn. destruct (update_status _ _ _ _ _ _ _ Hf E' H) as (c & _ & Hc & H').
  eexists. split; [exact H'|]. unfold update_where. case_decide; [|congruence]. destruct (cond c); [apply Hs|congruence].
Qed.

#[local] Hint Resolve cd_create_id_law cd_last_attempt_law cd_insert_remediation_law cd_remediation_law cd_update_remediation_law
  cd_event_law cd_worker_law cd_insert_worker_law cd_update_worker_law cd_runtime_law cd_recovery_law cd_update_recovery_law
  cm_select_law cm_select_id_law cm_insert_law cm_update_law cm_update_id_law cm_insert_event_law cm_now_law : keeps.

Lemma keeps_getCommand id : keeps grows (getRuntimeCommand id).
Proof. intros d r d' E. by apply cd_command_law in E as [? _]. Qed.
#[local] Hint Resolve keeps_getCommand : keeps.
Lemma keeps_enqueue id t by_ p : keeps grows (enqueueRuntimeCommand id t by_ p).
Proof. unfold enqueueRuntimeCommand. keeps_tac. intros d r d' E. by eapply cd_insert_command_law. Qed.
#[local] Hint Resolve keeps_enqueue : keeps.
Lemma keeps_record e : keeps grows (recordRecoveryEvent e).
Proof. unfold recordRecoveryEvent. keeps_tac. Qed.
Lemma keeps_updateWorker p : keeps grows (updateWorkerStatus p).
Proof. unfold updateWorkerStatus. keeps_tac. Qed.
Lemma keeps_workerStatus : keeps grows getWorkerStatus.
Proof. unfold getWorkerStatus. keeps_tac. Qed.
Lemma keeps_runtimeStatus : keeps grows getRuntimeStatus.
Proof. unfold getRuntimeStatus. keeps_tac. Qed.
Lemma keeps_ensureWorker id ms : keeps grows (ensureWorkerState id ms).
Proof. unfold ensureWorkerState. keeps_tac. Qed.
Lemma keeps_recovery id p : keeps grows (updateRebalanceBundleRecoveryAction id p).
Proof. unfold updateRebalanceBundleRecoveryAction. keeps_tac. Qed.
Lemma keeps_mapRemediation r : keeps grows (mapRemediationRow r).
Proof. unfold mapRemediationRow. keeps_tac. Qed.
#[local] Hint Resolve keeps_record keeps_updateWorker keeps_workerStatus keeps_runtimeStatus keeps_ensureWorker keeps_recovery
  keeps_mapRemediation : keeps.
Lemma keeps_map_remediation o : keeps grows (map_remediation o).
Proof. unfold map_remediation. keeps_tac. Qed.
#[local] Hint Resolve keeps_map_remediation : keeps.
Lemma keeps_remediationById id : keeps grows (getMismatchRemediationById id).
Proof. unfold getMismatchRemediationById. keeps_tac. Qed.
Lemma keeps_remediationByCommand id : keeps grows (getMismatchRemediationByCommandId id).
Proof. unfold getMismatchRemediationByCommandId. keeps_tac. Qed.
Lemma keeps_inFlight id : keeps grows (getInFlightMismatchRemediation id).
Proof. unfold getInFlightMismatchRemediation. keeps_tac. Qed.
#[local] Hint Resolve keeps_remediationById keeps_remediationByCommand keeps_inFlight : keeps.
Lemma keeps_createRemediation m t c r s : keeps grows (createMismatchRemediation m t c r s).
Proof. unfold createMismatchRemediation. keeps_tac. Qed.
Lemma keeps_updateRemediation id p : keeps grows (updateMismatchRemediationById id p).
Proof. unfold updateMismatchRemediationById. keeps_tac. Qed.
Lemma keeps_getMismatch id : keeps grows (getMismatchById id).
Proof. unfold getMismatchById. keeps_tac. Qed.
Lemma keeps_updateMismatch id p : keeps grows (updateMismatchById id p).
Proof. unfold updateMismatchById, getMismatchById. keeps_tac. Qed.
Lemma keeps_upsert i : keeps grows (upsertMismatch i).
Proof. unfold upsertMismatch, getMismatchByDedupeKey. keeps_tac. Qed.
#[local] Hint Resolve keeps_createRemediation keeps_updateRemediation keeps_getMismatch keeps_updateMismatch keeps_upsert : keeps.
Lemma keeps_createCommand id t by_ p : keeps grows (createCommandRecord id t by_ p).
Proof. unfold createCommandRecord. keeps_tac. Qed.
#[local] Hint Resolve keeps_createCommand : keeps.
Lemma keeps_enqueueCommand t by_ p : keeps grows (enqueueCommand t by_ p).
Proof. unfold enqueueCommand. keeps_tac. Qed.
Lemma keeps_remediate m a t s : keeps grows (remediateMismatch m a t s).
Proof. unfold remediateMismatch, check_remediation, getRequiredMismatch, record_remediation. keeps_tac. Qed.
End Growth.
#[export] Hint Resolve cd_create_id_law cd_last_attempt_law cd_insert_remediation_law cd_remediation_law
  cd_update_remediation_law cd_event_law cd_worker_law cd_insert_worker_law cd_update_worker_law cd_runtime_law
  cd_recovery_law cd_update_recovery_law cm_select_law cm_select_id_law cm_insert_law cm_update_law cm_update_id_law
  cm_insert_event_law cm_now_law keeps_getCommand keeps_enqueue keeps_record keeps_updateWorker keeps_workerStatus
  keeps_runtimeStatus keeps_ensureWorker keeps_recovery keeps_mapRemediation keeps_map_remediation keeps_remediationById
  keeps_remediationByCommand keeps_inFlight keeps_createRemediation keeps_updateRemediation keeps_getMismatch
  keeps_updateMismatch keeps_upsert keeps_createCommand keeps_enqueueCommand keeps_remediate : keeps.

(** ** The claim and the end of a command *)

Lemma find_key_in {A} (key : A -> string) l x : NoDup (map key l) -> x ∈ l -> find_key key (key x) l = Some x.
Proof.
  unfold find_key. induction l as [|y l IH]; [by intros _ ?%elem_of_nil|]. cbn. intros [Hy Hn]%NoDup_cons [->|Hx]%elem_of_cons.
  - by rewrite String.eqb_refl.
  - destruct (String.eqb_spec (key y) (key x)) as [E|_]; [|by apply IH]. exfalso. apply Hy. rewrite E. by apply list_elem_of_fmap_2.
Qed.

Section Claim.
Context `{CL : CommandDbLaws}.

Lemma in_status d c : c ∈ commands_of d -> status_of (rc_commandId c) d = Some (rc_status c).
Proof. intros H. unfold status_of. by rewrite (find_key_in _ _ _ (commands_unique d) H). Qed.

(** [leaves id s m]: if [m] returns, it leaves the command [id] in status [s]. *)
Definition leaves {A} (id : string) (s : RuntimeCommandStatus) (m : eff Db A) : Prop :=
  forall d a d', is_Some (status_of id d) -> m d = (Ret a, d') -> status_of id d' = Some s.

Lemma leaves_after {A B} id s (m : eff Db A) (k : A -> eff Db B) : keeps grows m -> (forall a, leaves id s (k a)) -> leaves id s (m ≫= k).
Proof.
  intros Hm Hk d b d' [s0 Hs] H. eff_inv H as a d1 E; [done|]. apply (Hk a d1 b d'); [|done]. exists s0. eapply grows_status; [by eapply Hm|done].
Qed.
Lemma leaves_then {A B} id s (m : eff Db A) (k : A -> eff Db B) : leaves id s m -> (forall a, keeps grows (k a)) -> leaves id s (m ≫= k).
Proof. intros Hm Hk d b d' Hs H. eff_inv H as a d1 E; [done|]. eapply grows_status; [by eapply Hk|by eapply Hm]. Qed.
Lemma leaves_throw {A} id s e : leaves id s (throw_eff (A := A) e).
Proof. done. Qed.
Lemma leaves_update id s f : (forall c, rc_commandId (f c) = rc_commandId c) -> (forall c, rc_status (f c) = s) ->
  leaves id s (cd_update_command id (fun _ => true) f).
Proof.
  intros Hf Hs d a d' [s0 H0] E. destruct (cd_update_command_law _ _ _ _ _ _ E Hf) as [[_ ?]|(d1 & G & E')]; [done|].
  apply (grows_status _ _ _ _ G) in H0. destruct (update_status _ _ _ _ _ _ _ Hf E' H0) as (c & F & _ & ->).
  unfold update_where. rewrite decide_True by (by eapply find_key_key). by rewrite Hs.
Qed.
Lemma leaves_complete id result : leaves id rcs_completed (completeRuntimeCommand id result).
Proof.
  unfold completeRuntimeCommand. do 2 (apply leaves_after; [eauto with keeps|intros ?]). apply leaves_then; [by apply leaves_update|].
  intros _. apply keeps_getCommand.
Qed.
Lemma leaves_fail id message : leaves id rcs_failed (failRuntimeCommand id message).
Proof.
  unfold failRuntimeCommand. do 2 (apply leaves_after; [eauto with keeps|intros ?]). apply leaves_then; [by apply leaves_update|].
  intros _. apply keeps_getCommand.
Qed.

Lemma advances_complete id result : keeps advances (completeRuntimeCommand id result).
Proof.
  unfold completeRuntimeCommand. repeat (apply keeps_bind; [typeclasses eauto| |intros ?]).
  all: first [apply update_advances; done|apply keeps_advances; eauto with keeps].
Qed.
Lemma advances_fail id message : keeps advances (failRuntimeCommand id message).
Proof.
  unfold failRuntimeCommand. repeat (apply keeps_bind; [typeclasses eauto| |intros ?]).
  all: first [apply update_advances; done|apply keeps_advances; eauto with keeps].
Qed.

(** A claim takes a command that was pending, or had not been asked for, and
    leaves it running. *)
Lemma claim_law who d r d' : claimNextPendingCommand who d = (r, d') ->
  advances d d' /\ forall c, r = Ret (Some c) ->
    status_of (rc_commandId c) d' = Some rcs_running /\ forall s, status_of (rc_commandId c) d = Some s -> s = rcs_pending.
Proof.
  unfold claimNextPendingCommand. intros H. eff_inv H as o d1 E1; pose proof (cd_pending_law _ _ _ E1) as [G1 Hp].
  { subst r. split; [by apply grows_advances|done]. }
  destruct o as [p|]; [|injection H as <- <-; split; [by apply grows_advances|done]]. destruct (Hp p eq_refl) as [Hin Hs]. clear E1 Hp.
  unfold claim_pending in H. eff_inv H as t1 d2 E2; apply cm_now_law in E2; [subst r; split; [apply grows_advances; by etrans|done]|].
  eff_inv H as t2 d3 E3; apply cm_now_law in E3; [subst r; split; [apply grows_advances; do 2 (etrans; [eassumption|]); done|done]|].
  assert (G3 : grows d d3) by (do 2 (etrans; [eassumption|]); done). assert (G13 : grows d1 d3) by by etrans.
  set (f := claimed_row who t1 t2) in *.
  eff_inv H as u d4 E4.
  - subst r. split; [|done]. etrans; [by apply grows_advances|]. eapply update_advances; [| |exact E4]; done.
  - assert (A4 : advances d d4). { etrans; [by apply grows_advances|]. eapply update_advances; [| |exact E4]; done. }
    destruct (cd_update_command_law _ _ _ _ _ _ E4 (fun _ => eq_refl)) as [[_ ?]|(d5 & G5 & E5)]; [done|]. apply cd_command_law in H as [G6 Hc].
    split; [etrans; [exact A4|by apply grows_advances]|]. intros c ->. specialize (Hc _ eq_refl). pose proof (find_key_key _ _ _ _ (eq_sym Hc)) as Hid.
    rewrite Hid. assert (H1 : status_of (rc_commandId p) d1 = Some rcs_pending) by by rewrite in_status, Hs.
    split.
    + assert (H5 : status_of (rc_commandId p) d5 = Some rcs_pending) by (eapply (grows_status _ _ d1); [by etrans|done]).
      eapply grows_status; [exact G6|]. destruct (update_status _ _ f _ _ _ _ (fun _ => eq_refl) E5 H5) as (x & Fx & Sx & ->).
      unfold update_where. rewrite decide_True by (by eapply find_key_key). by rewrite Sx.
    + intros s Hs0. apply (grows_status _ _ _ _ G1) in Hs0. congruence.
Qed.
End Claim.
