(* ===== verification/RuntimeWorker.v ===== *)
(** * The runtime worker (packages/runtime: worker.ts)

    The worker polls the queue of commands, executes the next one or, when it is
    due, a scheduled cycle.  Each poll is a run of [tick]; a stop during a poll
    waits for its end.  The operations of the runtime are the class [RuntimeOps].
    The file shows that a command is executed at most once, and that a command
    whose tick returns is completed or failed. *)
From S2P Require Import Prelude JsNumber JsValue JsText MismatchLifecycle MismatchStore CarryExecution Commands.
Open Scope Z_scope.

(** ** The runtime *)

(** The operations of [SentinelRuntime] that commands call, on the inputs that
    the worker passes, and the objects they return. *)
Record CycleOutcome := MkCycleOutcome { cy_runId : string; cy_rest : record_ }.
Record ExecuteActionInput := MkExecuteAction { ea_actionId : string; ea_actorId : string; ea_commandId : string; ea_startedBy : string }.
Record CarryEvaluationInput := MkCarryEvaluation {
  cv_actorId : string;
  cv_trigger : string;
  cv_sourceRunId : option string;
  cv_linkedRebalanceProposalId : option string;
  cv_targetCarryNotionalUsd : option string;
}.
Class RuntimeOps `{MD : MismatchDb} := {
  ro_runCycle : string -> eff Db CycleOutcome;
  (** trigger, trigger reference, triggered by *)
  ro_runReconciliation : string -> option string -> option string -> eff Db record_;
  (** actor, source run *)
  ro_runTreasuryEvaluation : string -> option string -> eff Db record_;
  ro_runCarryEvaluation : CarryEvaluationInput -> eff Db record_;
  (** trigger, actor, source run *)
  ro_runAllocatorEvaluation : string -> string -> option string -> eff Db record_;
  ro_executeCarryAction : ExecuteActionInput -> eff Db record_;
  ro_executeTreasuryAction : ExecuteActionInput -> eff Db record_;
  ro_executeRebalanceProposal : ExecuteActionInput -> eff Db record_;
  ro_rebuildProjections : string -> eff Db record_;
  ro_close : eff Db unit;
}.
(** None of them writes a command. *)
Class RuntimeOpsLaws `{RO : RuntimeOps} `{CL : CommandDbLaws (MD := MD)} := {
  ro_runCycle_law : forall t, keeps grows (ro_runCycle t);
  ro_runReconciliation_law : forall a b c, keeps grows (ro_runReconciliation a b c);
  ro_runTreasuryEvaluation_law : forall a b, keeps grows (ro_runTreasuryEvaluation a b);
  ro_runCarryEvaluation_law : forall i, keeps grows (ro_runCarryEvaluation i);
  ro_runAllocatorEvaluation_law : forall a b c, keeps grows (ro_runAllocatorEvaluation a b c);
  ro_executeCarryAction_law : forall i, keeps grows (ro_executeCarryAction i);
  ro_executeTreasuryAction_law : forall i, keeps grows (ro_executeTreasuryAction i);
  ro_executeRebalanceProposal_law : forall i, keeps grows (ro_executeRebalanceProposal i);
  ro_rebuildProjections_law : forall s, keeps grows (ro_rebuildProjections s);
  ro_close_law : keeps grows ro_close;
}.

Record RemediationContext := MkRemediationContext {
  rx_mismatchId : string;
  rx_remediationType : RuntimeRemediationActionType;
  rx_requestedBy : option string;
}.
Definition remediation_type_of (s : string) : option RuntimeRemediationActionType :=
  if String.eqb s "run_cycle" then Some ra_run_cycle else if String.eqb s "rebuild_projections" then Some ra_rebuild_projections else None.
Definition payload_str (payload : record_) (key : string) : option string :=
  match rec_get payload key with JStr s => Some s | _ => None end.
Definition getRemediationContext (command : RuntimeCommandView) : option RemediationContext :=
  match rec_get (rc_payload command) "remediation" with
  | JObj remediation =>
      match rec_get remediation "mismatchId", rec_get remediation "remediationType" with
      | JStr mismatchId, JStr t =>
          remediationType ← remediation_type_of t;
          Some (MkRemediationContext mismatchId remediationType (payload_str remediation "requestedBy"))
      | _, _ => None
      end
  | _ => None
  end.

Definition isClosedDatabaseError (error : JsError) : bool := includes "PGlite is closed" (err_message error).

(** The patch [{ linkedCommandId, linkedRecoveryEventId }] of a mismatch, and the
    one of a failed remediation. *)
Definition linked_patch (commandId : string) (eventId : option string) (m : RuntimeMismatchView) : RuntimeMismatchView :=
  MkMismatch (mm_id m) (mm_dedupeKey m) (mm_category m) (mm_severity m) (mm_sourceKind m) (mm_sourceComponent m)
    (mm_entityType m) (mm_entityId m) (mm_summary m) (mm_details m) (mm_status m) (mm_firstDetectedAt m) (mm_lastDetectedAt m)
    (mm_occurrenceCount m) (mm_acknowledgedAt m) (mm_acknowledgedBy m) (mm_recoveryStartedAt m) (mm_recoveryStartedBy m)
    (mm_recoverySummary m) (Some commandId) eventId (mm_resolvedAt m) (mm_resolvedBy m) (mm_resolutionSummary m) (mm_verifiedAt m)
    (mm_verifiedBy m) (mm_verificationSummary m) (mm_verificationOutcome m) (mm_reopenedAt m) (mm_reopenedBy m) (mm_reopenSummary m)
    (mm_lastStatusChangeAt m) (mm_updatedAt m).
Definition remediation_failed_patch (status : RuntimeMismatchStatus) (commandId : string) (eventId : option string) (reopenedBy message : string)
    (reopenedAt changedAt : Z) (m : RuntimeMismatchView) : RuntimeMismatchView :=
  MkMismatch (mm_id m) (mm_dedupeKey m) (mm_category m) (mm_severity m) (mm_sourceKind m) (mm_sourceComponent m)
    (mm_entityType m) (mm_entityId m) (mm_summary m) (mm_details m) status (mm_firstDetectedAt m) (mm_lastDetectedAt m)
    (mm_occurrenceCount m) (mm_acknowledgedAt m) (mm_acknowledgedBy m) (mm_recoveryStartedAt m) (mm_recoveryStartedBy m)
    (mm_recoverySummary m) (Some commandId) eventId (mm_resolvedAt m) (mm_resolvedBy m) (mm_resolutionSummary m) (mm_verifiedAt m)
    (mm_verifiedBy m) (mm_verificationSummary m) (mm_verificationOutcome m) (Some reopenedAt) (Some reopenedBy) (Some message)
    changedAt (mm_updatedAt m).
(** The patches of a remediation attempt. *)
Definition remediation_patch (status : RuntimeRemediationStatus) (eventId : option string) (outcomeSummary : option string)
    (startedAt completedAt failedAt : option Z) (r : RemediationRow) : RemediationRow :=
  MkRemediation (rr_id r) (rr_mismatchId r) (rr_attemptSequence r) (rr_remediationType r) (rr_commandId r) status (rr_requestedBy r)
    (rr_requestedSummary r) (match outcomeSummary with Some _ => outcomeSummary | None => rr_outcomeSummary r end) eventId
    (match startedAt with Some _ => startedAt | None => rr_startedAt r end)
    (match completedAt with Some _ => completedAt | None => rr_completedAt r end)
    (match failedAt with Some _ => failedAt | None => rr_failedAt r end) (rr_updatedAt r).

(** ** The worker *)

Record Worker := MkWorker {
  wk_workerId : string;
  wk_pollIntervalMs : Z;
  wk_cycleIntervalMs : Z;
  wk_nextScheduledRunAt : Z;
  (** a timer is set *)
  wk_timer : bool;
  wk_stopping : bool;
}.

Section Worker.
Context `{RO : RuntimeOps} `{CD : !CommandDb}.
(** [process.pid] and [os.hostname()] *)
Variable pid : Z.
Variable host : string.

Definition W : Type := Worker * Db.
Definition on_db {A} (m : eff Db A) : eff W A := fun s => let '(r, d) := m s.2 in (r, (s.1, d)).
Definition self : eff W Worker := fun s => (Ret s.1, s).
Definition set_next (at_ : Z) : eff W unit := modify_state (fun '(w, d) =>
  (MkWorker (wk_workerId w) (wk_pollIntervalMs w) (wk_cycleIntervalMs w) at_ (wk_timer w) (wk_stopping w), d)).
Definition set_timer (b : bool) : eff W unit := modify_state (fun '(w, d) =>
  (MkWorker (wk_workerId w) (wk_pollIntervalMs w) (wk_cycleIntervalMs w) (wk_nextScheduledRunAt w) b (wk_stopping w), d)).
Definition set_stopping (b : bool) : eff W unit := modify_state (fun '(w, d) =>
  (MkWorker (wk_workerId w) (wk_pollIntervalMs w) (wk_cycleIntervalMs w) (wk_nextScheduledRunAt w) (wk_timer w) b, d)).

(** The constructor. *)
Definition new_RuntimeWorker (workerId : option string) (cycleIntervalMs : Z) (pollIntervalMs : option Z) (now : Z) : Worker :=
  MkWorker (or_else workerId ("runtime-worker-" +:+ z_str pid)) (or_else pollIntervalMs (Z.min cycleIntervalMs 1000)) cycleIntervalMs
    (now + cycleIntervalMs) false false.

(** *** Events *)

Definition worker_event (workerId : string) (mismatchId commandId runId : option string) (eventType status message : string) (details : record_)
    : RecoveryEvent :=
  MkRecoveryEvent mismatchId commandId runId eventType status "runtime-worker" (Some workerId) message details None None.
Definition mismatch_of (remediation : option RemediationContext) : option string := rx_mismatchId <$> remediation.

(** *** The stages of a command *)

(** [completeRuntimeCommand], the worker's state and the event of a completed command. *)
Definition finish_command (workerId : string) (command : RuntimeCommandView) (remediation : option RemediationContext) (result : record_)
    (fields : eff Db (list WorkerField)) (runId : option string) (message : string) (details : record_) : eff Db RecoveryEvent :=
  _ ← completeRuntimeCommand (rc_commandId command) result;
  runFields ← fields;
  now ← db_now;
  _ ← updateWorkerStatus ([wf_schedulerState wc_waiting; wf_currentOperation None; wf_currentCommandId None] ++ runFields
        ++ [wf_lastSuccessAt (Some now); wf_lastFailureAt None; wf_lastFailureReason None]);
  recordRecoveryEvent (worker_event workerId (mismatch_of remediation) (Some (rc_commandId command)) runId "runtime_command_completed" "completed"
    message details).
Definition no_fields : eff Db (list WorkerField) := mret [].
Definition run_fields (runId : string) : eff Db (list WorkerField) :=
  startedAt ← db_now;
  completedAt ← db_now;
  mret [wf_currentRunId (Some runId); wf_lastRunStartedAt (Some startedAt); wf_lastRunCompletedAt (Some completedAt)].

Definition complete_remediation (command : RuntimeCommandView) (remediation : option RemediationContext) (completedEvent : RecoveryEvent)
    : eff Db unit :=
  match remediation with
  | None => mret tt
  | Some context =>
      attempt ← getMismatchRemediationByCommandId (rc_commandId command);
      match attempt with
      | None => mret tt
      | Some a =>
          now ← db_now;
          _ ← updateMismatchRemediationById (rr_id (rv_row a)) (remediation_patch rm_completed (re_id completedEvent)
                (Some ("Remediation " +:+ remediation_type_str (rx_remediationType context) +:+ " completed successfully.")) None (Some now) None);
          _ ← updateMismatchById (rx_mismatchId context) (linked_patch (rc_commandId command) (re_id completedEvent));
          mret tt
      end
  end.
Definition recovery_completed (summary : string) (outcome : record_) (now : Z) (row : RecoveryActionRow) : RecoveryActionRow :=
  MkRecoveryAction (ba_id row) br_completed (Some summary) outcome None (ba_startedAt row) (Some now) (ba_updatedAt row).
Definition complete_recovery (bundleRecoveryActionId : option string) (summary : string) (outcome : record_) : eff Db unit :=
  match bundleRecoveryActionId with
  | None => mret tt
  | Some id => now ← db_now; _ ← updateRebalanceBundleRecoveryAction id (recovery_completed summary outcome now); mret tt
  end.
(** An object of some fields of another, under their new names. *)
Definition pick (fields : list (string * string)) (outcome : record_) : record_ := map (fun '(key, source) => (key, rec_get outcome source)) fields.
Definition actor_of (command : RuntimeCommandView) : string := or_else (payload_str (rc_payload command) "actorId") (rc_requestedBy command).

Definition execute_input (workerId : string) (command : RuntimeCommandView) (id : string) : ExecuteActionInput :=
  MkExecuteAction id (actor_of command) (rc_commandId command) workerId.
Definition carry_message (outcome : record_) : string :=
  match rec_get outcome "guardrailViolations" with
  | JArr (_ :: _ as l) => "Carry action execution completed with " +:+ z_str (Z.of_nat (length l)) +:+ " guardrail violations."
  | _ => "Carry action execution completed."
  end.
Definition carry_fields : list (string * string) :=
  [("carryActionId", "actionId"); ("carryExecutionId", "executionId"); ("orderCount", "orderCount")].
Definition treasury_fields : list (string * string) :=
  [("treasuryActionId", "actionId"); ("treasuryExecutionId", "executionId"); ("treasuryRunId", "treasuryRunId");
   ("venueExecutionReference", "venueExecutionReference"); ("simulated", "simulated")].
Definition rebalance_fields : list (string * string) :=
  [("proposalId", "proposalId"); ("rebalanceExecutionId", "executionId"); ("allocatorRunId", "allocatorRunId"); ("applied", "applied");
   ("downstreamCarryActionIds", "downstreamCarryActionIds"); ("downstreamTreasuryActionIds", "downstreamTreasuryActionIds")].

(** *** The commands *)

Section Commands.
Variable workerId : string.
Variable command : RuntimeCommandView.
Variable remediation : option RemediationContext.
Variable bundleRecoveryActionId : option string.
Let text := payload_str (rc_payload command).
Let finish := finish_command workerId command remediation.

Definition run_cycle_command : eff Db unit :=
  result ← ro_runCycle (or_else (text "triggerSource") "worker-command-cycle");
  completedEvent ← finish (("runId", JStr (cy_runId result)) :: cy_rest result) (run_fields (cy_runId result)) (Some (cy_runId result))
    "Runtime cycle command completed." [("runId", JStr (cy_runId result))];
  complete_remediation command remediation completedEvent.

Definition run_reconciliation_command : eff Db unit :=
  run ← ro_runReconciliation (or_else (text "trigger") "manual_reconciliation") (text "triggerReference")
    (text "triggeredBy");
  _ ← finish (pick [("reconciliationRunId", "id"); ("reconciliationRunStatus", "status"); ("findingCount", "findingCount");
                    ("linkedMismatchCount", "linkedMismatchCount")] run) no_fields None "Reconciliation command completed."
        (pick [("reconciliationRunId", "id"); ("findingCount", "findingCount")] run);
  mret tt.

Definition run_treasury_command : eff Db unit :=
  summary ← ro_runTreasuryEvaluation (actor_of command) (text "sourceRunId");
  let reserve := match rec_get summary "reserveStatus" with JObj r => r | _ => [] end in
  _ ← finish (pick [("treasuryRunId", "treasuryRunId"); ("actionCount", "actionCount"); ("simulated", "simulated")] summary
              ++ pick [("reserveShortfallUsd", "reserveShortfallUsd"); ("surplusCapitalUsd", "surplusCapitalUsd")] reserve) no_fields None
        "Treasury evaluation command completed." (pick [("treasuryRunId", "treasuryRunId"); ("actionCount", "actionCount")] summary);
  mret tt.

Definition run_carry_command : eff Db unit :=
  summary ← ro_runCarryEvaluation (MkCarryEvaluation (actor_of command) (or_else (text "trigger") "manual_carry_evaluation")
    (text "sourceRunId") (text "linkedRebalanceProposalId") (text "targetCarryNotionalUsd"));
  let fields := pick [("sourceRunId", "sourceRunId"); ("actionCount", "actionCount")] summary in
  _ ← finish fields no_fields None "Carry evaluation command completed." fields;
  mret tt.

Definition run_allocator_command : eff Db unit :=
  summary ← ro_runAllocatorEvaluation (or_else (text "trigger") "manual_allocator_evaluation") (actor_of command)
    (text "sourceRunId");
  _ ← finish (pick [("allocatorRunId", "allocatorRunId"); ("regimeState", "regimeState"); ("pressureLevel", "pressureLevel");
                    ("carryTargetPct", "carryTargetPct"); ("treasuryTargetPct", "treasuryTargetPct");
                    ("recommendationCount", "recommendationCount")] summary) no_fields None "Allocator evaluation command completed."
        (pick [("allocatorRunId", "allocatorRunId"); ("regimeState", "regimeState")] summary);
  mret tt.

Definition execute_carry_command : eff Db unit :=
  match text "actionId" with
  | None => throw_eff (Error_ "Carry action execution command is missing actionId.")
  | Some id =>
      outcome ← ro_executeCarryAction (execute_input workerId command id);
      let result := pick (carry_fields ++ [("guardrailViolations", "guardrailViolations")]) outcome in
      _ ← finish result no_fields None (carry_message outcome) result;
      complete_recovery bundleRecoveryActionId "Bundle recovery requeued the carry child successfully." (pick carry_fields outcome)
  end.

Definition execute_treasury_command : eff Db unit :=
  match text "treasuryActionId" with
  | None => throw_eff (Error_ "Treasury action execution command is missing treasuryActionId.")
  | Some id =>
      outcome ← ro_executeTreasuryAction (execute_input workerId command id);
      let result := pick treasury_fields outcome in
      _ ← finish result no_fields None "Treasury action execution completed."
            (pick [("treasuryActionId", "actionId"); ("treasuryExecutionId", "executionId")] outcome);
      complete_recovery bundleRecoveryActionId "Bundle recovery requeued the treasury child successfully." result
  end.

Definition execute_rebalance_command : eff Db unit :=
  match text "proposalId" with
  | None => throw_eff (Error_ "Rebalance proposal execution command is missing proposalId.")
  | Some id =>
      outcome ← ro_executeRebalanceProposal (execute_input workerId command id);
      _ ← finish (pick rebalance_fields outcome) no_fields None "Rebalance proposal execution completed."
            (pick [("proposalId", "proposalId"); ("rebalanceExecutionId", "executionId"); ("applied", "applied")] outcome);
      mret tt
  end.

Definition rebuild_projections_command : eff Db unit :=
  status ← ro_rebuildProjections "runtime-worker-command";
  completedEvent ← finish (pick [("projectionStatus", "projectionStatus"); ("lifecycleState", "lifecycleState");
                                 ("lastProjectionSourceRunId", "lastProjectionSourceRunId")] status) no_fields None
    "Projection rebuild command completed." (pick [("lastProjectionSourceRunId", "lastProjectionSourceRunId")] status);
  complete_remediation command remediation completedEvent.

(** The [try] block of [executeCommand]. *)
Definition run_command : eff Db unit :=
  match rc_commandType command with
  | rct_run_cycle => run_cycle_command
  | rct_run_reconciliation => run_reconciliation_command
  | rct_run_treasury_evaluation => run_treasury_command
  | rct_run_carry_evaluation => run_carry_command
  | rct_run_allocator_evaluation => run_allocator_command
  | rct_execute_carry_action => execute_carry_command
  | rct_execute_treasury_action => execute_treasury_command
  | rct_execute_rebalance_proposal => execute_rebalance_command
  | rct_rebuild_projections => rebuild_projections_command
  end.
End Commands.

(** *** A failed command *)

Definition recovery_failed (message : string) (command : RuntimeCommandView) (now : Z) (row : RecoveryActionRow) : RecoveryActionRow :=
  MkRecoveryAction (ba_id row) br_failed (Some message)
    [("commandId", JStr (rc_commandId command)); ("commandType", JStr (command_type_str (rc_commandType command)))] (Some message)
    (ba_startedAt row) (Some now) (ba_updatedAt row).
Definition fail_remediation (workerId : string) (command : RuntimeCommandView) (context : RemediationContext) (message : string) : eff Db unit :=
  attempt ← getMismatchRemediationByCommandId (rc_commandId command);
  mismatch ← getMismatchById (rx_mismatchId context);
  nextStatus ← (match mismatch with None => mret ms_reopened | Some m => lift_exn (remediationFailureNextStatus (mm_status m)) end);
  failedEvent ← recordRecoveryEvent (worker_event workerId (Some (rx_mismatchId context)) (Some (rc_commandId command)) None
    "mismatch_remediation_failed" (mismatch_status_str nextStatus) message
    [("remediationId", JStrNull ((fun a => rr_id (rv_row a)) <$> attempt));
     ("remediationType", JStr (remediation_type_str (rx_remediationType context)))]);
  _ ← (match attempt with
       | None => mret tt
       | Some a => now ← db_now;
                   _ ← updateMismatchRemediationById (rr_id (rv_row a))
                         (remediation_patch rm_failed (re_id failedEvent) (Some message) None None (Some now));
                   mret tt
       end);
  match mismatch with
  | None => mret tt
  | Some _ =>
      reopenedAt ← db_now;
      changedAt ← db_now;
      _ ← updateMismatchById (rx_mismatchId context)
            (remediation_failed_patch nextStatus (rc_commandId command) (re_id failedEvent) workerId message reopenedAt changedAt);
      mret tt
  end.
Definition record_failure (workerId : string) (command : RuntimeCommandView) (message : string) : eff Db unit :=
  now ← db_now;
  res ← upsertMismatch (MkMismatchInput ("runtime_command_failure:" +:+ rc_commandId command) "recovery_action_failure" "medium" None
    "runtime-worker" (Some "runtime_command") (Some (rc_commandId command)) message
    [("commandType", JStr (command_type_str (rc_commandType command))); ("commandId", JStr (rc_commandId command))] now);
  _ ← recordRecoveryEvent (worker_event workerId (Some (mm_id res.1)) (Some (rc_commandId command)) None
        (if bool_decide (res.2 = reopened_) then "runtime_command_failure_reopened" else "runtime_command_failed")
        (mismatch_status_str (mm_status res.1)) message []);
  mret tt.
(** The [catch] block of [executeCommand]. *)
Definition fail_command (workerId : string) (command : RuntimeCommandView) (remediation : option RemediationContext)
    (bundleRecoveryActionId : option string) (error : JsError) : eff Db unit :=
  let message := err_message error in
  _ ← failRuntimeCommand (rc_commandId command) message;
  _ ← (match bundleRecoveryActionId with
       | None => mret tt
       | Some id => now ← db_now; _ ← updateRebalanceBundleRecoveryAction id (recovery_failed message command now); mret tt
       end);
  _ ← (match remediation with
       | Some context => fail_remediation workerId command context message
       | None => record_failure workerId command message
       end);
  now ← db_now;
  updateWorkerStatus [wf_lifecycleState wl_degraded; wf_schedulerState wc_waiting; wf_currentOperation None; wf_currentCommandId None;
                      wf_lastFailureAt (Some now); wf_lastFailureReason (Some message)].

Definition start_remediation (command : RuntimeCommandView) (remediation : option RemediationContext) (startedEvent : RecoveryEvent)
    : eff Db unit :=
  match remediation with
  | None => mret tt
  | Some context =>
      attempt ← getMismatchRemediationByCommandId (rc_commandId command);
      match attempt with
      | None => mret tt
      | Some a =>
          now ← db_now;
          _ ← updateMismatchRemediationById (rr_id (rv_row a)) (remediation_patch rm_running (re_id startedEvent) None (Some now) None None);
          _ ← updateMismatchById (rx_mismatchId context) (linked_patch (rc_commandId command) (re_id startedEvent));
          mret tt
      end
  end.
Definition recovery_started (now : Z) (row : RecoveryActionRow) : RecoveryActionRow :=
  MkRecoveryAction (ba_id row) br_executing (ba_outcomeSummary row) (ba_outcome row) (ba_lastError row) (Some now) (ba_completedAt row)
    (ba_updatedAt row).
(** What precedes the [try] block of [executeCommand]. *)
Definition start_command (workerId : string) (command : RuntimeCommandView) (remediation : option RemediationContext)
    (bundleRecoveryActionId : option string) : eff Db unit :=
  now ← db_now;
  _ ← updateWorkerStatus [wf_schedulerState wc_running; wf_currentOperation (Some (command_type_str (rc_commandType command)));
        wf_currentCommandId (Some (rc_commandId command)); wf_currentRunId None; wf_lastHeartbeatAt (Some now); wf_nextScheduledRunAt None];
  startedEvent ← recordRecoveryEvent (worker_event workerId (mismatch_of remediation) (Some (rc_commandId command)) None
    "runtime_command_started" "running" ("Runtime command " +:+ command_type_str (rc_commandType command) +:+ " started.") (rc_payload command));
  _ ← start_remediation command remediation startedEvent;
  match bundleRecoveryActionId with
  | None => mret tt
  | Some id => startedAt ← db_now; _ ← updateRebalanceBundleRecoveryAction id (recovery_started startedAt); mret tt
  end.
Definition executeCommand (workerId : string) (command : RuntimeCommandView) : eff Db unit :=
  let remediation := getRemediationContext command in
  let bundleRecoveryActionId := payload_str (rc_payload command) "bundleRecoveryActionId" in
  _ ← start_command workerId command remediation bundleRecoveryActionId;
  catch_eff (run_command workerId command remediation bundleRecoveryActionId)
    (fail_command workerId command remediation bundleRecoveryActionId).

Definition executeScheduledCycle : eff Db unit :=
  startedAt ← db_now;
  _ ← updateWorkerStatus [wf_schedulerState wc_running; wf_currentOperation (Some "scheduled_cycle"); wf_currentCommandId None;
        wf_currentRunId None; wf_lastRunStartedAt (Some startedAt); wf_nextScheduledRunAt None];
  catch_eff
    (result ← ro_runCycle "worker-scheduled-cycle";
     completedAt ← db_now;
     succeededAt ← db_now;
     updateWorkerStatus [wf_schedulerState wc_waiting; wf_currentOperation None; wf_currentRunId (Some (cy_runId result));
       wf_lastRunCompletedAt (Some completedAt); wf_lastSuccessAt (Some succeededAt); wf_lastFailureAt None; wf_lastFailureReason None])
    (fun error =>
     completedAt ← db_now;
     failedAt ← db_now;
     updateWorkerStatus [wf_lifecycleState wl_degraded; wf_schedulerState wc_waiting; wf_currentOperation None;
       wf_lastRunCompletedAt (Some completedAt); wf_lastFailureAt (Some failedAt); wf_lastFailureReason (Some (err_message error))]).

(** *** A poll *)

(** The heartbeat and the claim. *)
Definition tick_claim (w : Worker) : eff Db (option RuntimeCommandView) :=
  now ← db_now;
  _ ← updateWorkerStatus [wf_lifecycleState wl_ready; wf_lastHeartbeatAt (Some now); wf_nextScheduledRunAt (Some (wk_nextScheduledRunAt w))];
  claimNextPendingCommand (wk_workerId w).
Definition reschedule : eff W unit :=
  w ← self;
  now ← on_db db_now;
  set_next (now + wk_cycleIntervalMs w).
Definition tick : eff W unit :=
  w ← self;
  if wk_stopping w then mret tt else
  command ← on_db (tick_claim w);
  match command with
  | Some c => _ ← on_db (executeCommand (wk_workerId w) c); reschedule
  | None =>
      runtimeStatus ← on_db getRuntimeStatus;
      if rt_halted runtimeStatus || bool_decide (rt_lifecycleState runtimeStatus = rl_paused) then
        on_db (updateWorkerStatus [wf_schedulerState wc_paused; wf_currentOperation None; wf_currentCommandId None; wf_currentRunId None;
                 wf_nextScheduledRunAt None])
      else
        now ← on_db db_now;
        if wk_nextScheduledRunAt w <=? now then _ ← on_db executeScheduledCycle; reschedule
        else on_db (updateWorkerStatus [wf_schedulerState wc_waiting; wf_currentOperation None; wf_currentCommandId None; wf_currentRunId None;
                      wf_nextScheduledRunAt (Some (wk_nextScheduledRunAt w))])
  end.

Definition scheduleNextTick : eff W unit :=
  w ← self;
  if wk_stopping w then mret tt else set_timer true.
(** The timer goes off: a poll, then the next timer, however the poll ended. *)
Definition on_timer : eff W unit :=
  w ← self;
  if wk_timer w then
    _ ← set_timer false;
    settle tick (fun r => _ ← scheduleNextTick; lift_exn r)
  else mret tt.

Definition start : eff W WorkerStatusView :=
  _ ← set_stopping false;
  _ ← reschedule;
  w ← self;
  _ ← on_db (ensureWorkerState (wk_workerId w) (wk_cycleIntervalMs w));
  startedAt ← on_db db_now;
  heartbeatAt ← on_db db_now;
  _ ← on_db (updateWorkerStatus [wf_workerId (wk_workerId w); wf_lifecycleState wl_starting; wf_schedulerState wc_waiting;
        wf_cycleIntervalMs (wk_cycleIntervalMs w); wf_processId (Some pid); wf_hostname (Some host); wf_lastStartedAt (Some startedAt);
        wf_lastStoppedAt None; wf_lastFailureAt None; wf_lastFailureReason None; wf_lastHeartbeatAt (Some heartbeatAt);
        wf_nextScheduledRunAt (Some (wk_nextScheduledRunAt w))]);
  _ ← on_db (recordRecoveryEvent (worker_event (wk_workerId w) None None None "worker_started" "ready" "Runtime worker started."
        [("cycleIntervalMs", JInt (wk_cycleIntervalMs w))]));
  now ← on_db db_now;
  _ ← on_db (updateWorkerStatus [wf_lifecycleState wl_ready; wf_schedulerState wc_waiting; wf_lastHeartbeatAt (Some now);
        wf_nextScheduledRunAt (Some (wk_nextScheduledRunAt w))]);
  _ ← scheduleNextTick;
  on_db getWorkerStatus.

Definition unless_closed (m : eff W unit) : eff W unit :=
  catch_eff m (fun error => if isClosedDatabaseError error then mret tt else throw_eff error).
(** Between polls. *)
Definition stop : eff W unit :=
  _ ← set_stopping true;
  _ ← set_timer false;
  _ ← unless_closed
        (heartbeatAt ← on_db db_now;
         _ ← on_db (updateWorkerStatus [wf_lifecycleState wl_stopping; wf_schedulerState wc_idle; wf_nextScheduledRunAt None;
               wf_lastHeartbeatAt (Some heartbeatAt)]);
         stoppedAt ← on_db db_now;
         now ← on_db db_now;
         _ ← on_db (updateWorkerStatus [wf_lifecycleState wl_stopped; wf_schedulerState wc_idle; wf_currentOperation None;
               wf_currentCommandId None; wf_currentRunId None; wf_nextScheduledRunAt None; wf_lastStoppedAt (Some stoppedAt);
               wf_lastHeartbeatAt (Some now)]);
         w ← self;
         _ ← on_db (recordRecoveryEvent (worker_event (wk_workerId w) None None None "worker_stopped" "resolved"
               "Runtime worker stopped cleanly." []));
         mret tt);
  unless_closed (on_db ro_close).
End Worker.

(** ** A command and its end *)

Section Settled.
Context `{RL : RuntimeOpsLaws}.
Variable pid : Z.

#[local] Hint Resolve ro_runCycle_law ro_runReconciliation_law ro_runTreasuryEvaluation_law ro_runCarryEvaluation_law
  ro_runAllocatorEvaluation_law ro_executeCarryAction_law ro_executeTreasuryAction_law ro_executeRebalanceProposal_law
  ro_rebuildProjections_law ro_close_law : keeps.

Lemma keeps_no_fields : keeps grows no_fields.
Proof. apply keeps_ret; typeclasses eauto. Qed.
Lemma keeps_run_fields runId : keeps grows (run_fields runId).
Proof. unfold run_fields. keeps_tac. Qed.
#[local] Hint Resolve keeps_no_fields keeps_run_fields : keeps.
Lemma keeps_complete_remediation command rem e : keeps grows (complete_remediation command rem e).
Proof. unfold complete_remediation. keeps_tac. Qed.
Lemma keeps_complete_recovery id summary outcome : keeps grows (complete_recovery id summary outcome).
Proof. unfold complete_recovery. keeps_tac. Qed.
Lemma keeps_fail_remediation w command context m : keeps grows (fail_remediation w command context m).
Proof. unfold fail_remediation. keeps_tac. Qed.
Lemma keeps_record_failure w command m : keeps grows (record_failure w command m).
Proof. unfold record_failure. keeps_tac. Qed.
Lemma keeps_start_remediation command rem e : keeps grows (start_remediation command rem e).
Proof. unfold start_remediation. keeps_tac. Qed.
#[local] Hint Resolve keeps_complete_remediation keeps_complete_recovery keeps_fail_remediation keeps_record_failure keeps_start_remediation : keeps.
Lemma keeps_start_command w command rem rec : keeps grows (start_command w command rem rec).
Proof. unfold start_command. keeps_tac. Qed.
#[local] Hint Resolve keeps_start_command : keeps.

(** *** Where a command ends *)

Lemma leaves_finish w command rem result fields runId m details : keeps grows fields ->
  leaves (rc_commandId command) rcs_completed (finish_command w command rem result fields runId m details).
Proof. intros Hf. unfold finish_command. apply leaves_then; [apply leaves_complete|]. keeps_tac. Qed.

Ltac run_command_unfold :=
  unfold run_command, run_cycle_command, run_reconciliation_command, run_treasury_command, run_carry_command, run_allocator_command, execute_carry_command,
    execute_treasury_command, execute_rebalance_command, rebuild_projections_command.
Ltac leaves_finish_tac :=
  apply leaves_after; [eauto with keeps|intros ?; cbv zeta]; apply leaves_then; [apply leaves_finish; eauto with keeps|intros ?; keeps_tac].
Lemma leaves_run w command rem rec : leaves (rc_commandId command) rcs_completed (run_command w command rem rec).
Proof. run_command_unfold. cbv zeta. destruct (rc_commandType command); [..|]; try (destruct (payload_str _ _); [|apply leaves_throw]); leaves_finish_tac. Qed.
Lemma leaves_failed w command rem rec error : leaves (rc_commandId command) rcs_failed (fail_command w command rem rec error).
Proof. unfold fail_command. cbv zeta. apply leaves_then; [apply leaves_fail|]. keeps_tac. Qed.

(** *** Nothing becomes pending again *)

Lemma advances_finish w command rem result fields runId m details : keeps grows fields ->
  keeps advances (finish_command w command rem result fields runId m details).
Proof.
  intros Hf. unfold finish_command. apply keeps_bind; [typeclasses eauto|apply advances_complete|intros ?]. apply keeps_advances. keeps_tac.
Qed.
Ltac advances_finish_tac :=
  apply keeps_bind; [typeclasses eauto|apply keeps_advances; eauto with keeps|intros ?; cbv zeta];
  apply keeps_bind; [typeclasses eauto|apply advances_finish; eauto with keeps|intros ?; apply keeps_advances; keeps_tac].
Lemma advances_run w command rem rec : keeps advances (run_command w command rem rec).
Proof.
  run_command_unfold. cbv zeta. destruct (rc_commandType command); [..|]; try (destruct (payload_str _ _); [|apply keeps_throw; typeclasses eauto]);
    advances_finish_tac.
Qed.
Lemma advances_failed w command rem rec error : keeps advances (fail_command w command rem rec error).
Proof.
  unfold fail_command. cbv zeta. apply keeps_bind; [typeclasses eauto|apply advances_fail|intros ?]. apply keeps_advances. keeps_tac.
Qed.

Lemma catch_inv {St A} (m : eff St A) h s r s' : catch_eff m h s = (r, s') ->
  (exists a, m s = (Ret a, s') /\ r = Ret a) \/ (exists e s1, m s = (Throw e, s1) /\ h e s1 = (r, s')).
Proof. unfold catch_eff. destruct (m s) as [[a|e] s1]; [intros [= <- <-]; left; by exists a|intros H; right; by exists e, s1]. Qed.
Lemma keeps_catch {St A} (R : St -> St -> Prop) (m : eff St A) h : PreOrder R -> keeps R m -> (forall e, keeps R (h e)) -> keeps R (catch_eff m h).
Proof.
  intros HR Hm Hh s r s' [(a & E & _)|(e & s1 & E & E')]%catch_inv; [by eapply Hm|]. etrans; [by eapply Hm|by eapply Hh].
Qed.

Lemma advances_execute w command : keeps advances (executeCommand w command).
Proof.
  unfold executeCommand. cbv zeta. apply keeps_bind; [typeclasses eauto|apply keeps_advances; eauto with keeps|intros _].
  apply keeps_catch; [typeclasses eauto|apply advances_run|intros e; apply advances_failed].
Qed.

Definition ended (id : string) (d : Db) : Prop := status_of id d = Some rcs_completed \/ status_of id d = Some rcs_failed.
Lemma execute_ends w command d d' : status_of (rc_commandId command) d = Some rcs_running ->
  executeCommand w command d = (Ret tt, d') -> ended (rc_commandId command) d'.
Proof.
  intros Hs H. unfold executeCommand in H. cbv zeta in H. eff_inv H as u d1 E1; [done|]. apply keeps_start_command in E1.
  apply (grows_status _ _ _ _ E1) in Hs. apply catch_inv in H as [([] & E & _)|(e & d2 & E & E')].
  - left. eapply leaves_run; [|exact E]. by eexists.
  - right. apply advances_run in E. destruct (E _ _ Hs) as (s & Hs2 & _); [done|]. eapply leaves_failed; [|exact E']. by eexists.
Qed.
End Settled.

(** ** Every command runs at most once *)

Section Once.
Context `{RL : RuntimeOpsLaws}.

Lemma keeps_worker_cycle : keeps grows executeScheduledCycle.
Proof.
  unfold executeScheduledCycle. do 2 (apply keeps_bind; [typeclasses eauto|eauto with keeps|intros ?]).
  apply keeps_catch; [typeclasses eauto| |]; [apply keeps_bind; [typeclasses eauto|apply ro_runCycle_law|intros ?]|intros ?]; keeps_tac.
Qed.

(** The commands that a tick executes: the one it claims. *)
Definition executed (s : W) : list string :=
  if wk_stopping s.1 then []
  else match (tick_claim s.1 s.2).1 with Ret (Some c) => [rc_commandId c] | _ => [] end.

Lemma tick_claim_law w d r d' : tick_claim w d = (r, d') -> advances d d' /\ forall c, r = Ret (Some c) ->
  status_of (rc_commandId c) d' = Some rcs_running /\ forall s, status_of (rc_commandId c) d = Some s -> s = rcs_pending.
Proof.
  unfold tick_claim. intros H. eff_inv H as now d1 E1; apply cm_now_law in E1; [subst r; split; [by apply grows_advances|done]|].
  eff_inv H as u d2 E2; apply keeps_updateWorker in E2; [subst r; split; [apply grows_advances; by etrans|done]|].
  assert (G : grows d d2) by by etrans. apply claim_law in H as [A Hc]. split; [etrans; [by apply grows_advances|exact A]|].
  intros c Hr. destruct (Hc c Hr) as [H1 H2]. split; [done|]. intros s Hs. apply H2. by apply (grows_status _ _ _ _ G).
Qed.

(** What the worker does to the commands: [wgrows] relates the databases. *)
Definition wgrows (s s' : W) : Prop := grows s.2 s'.2.
#[local] Instance wgrows_preorder : PreOrder wgrows.
Proof. unfold wgrows. split; [by intros s|]. intros a b c ? ?. by etrans. Qed.
Lemma on_db_inv {A} (m : eff Db A) (s : W) r s' : on_db m s = (r, s') -> m s.2 = (r, s'.2) /\ s'.1 = s.1.
Proof. unfold on_db. destruct (m s.2) as [r0 d0]. by intros [= <- <-]. Qed.
Lemma on_db_keeps {A} (m : eff Db A) : keeps grows m -> keeps wgrows (on_db m).
Proof. intros Hm s r s' H. apply on_db_inv in H as [H _]. by eapply Hm. Qed.
Lemma modify_keeps f : (forall s, (f s).2 = s.2) -> keeps wgrows (modify_state f).
Proof. intros Hf s r s' [= _ <-]. unfold wgrows. by rewrite Hf. Qed.
Lemma keeps_self : keeps wgrows self.
Proof. by intros s r s' [= _ <-]. Qed.
Lemma keeps_set_next t : keeps wgrows (set_next t).
Proof. by apply modify_keeps; intros [w d]. Qed.
Lemma keeps_set_timer b : keeps wgrows (set_timer b).
Proof. by apply modify_keeps; intros [w d]. Qed.
Lemma keeps_set_stopping b : keeps wgrows (set_stopping b).
Proof. by apply modify_keeps; intros [w d]. Qed.
#[local] Hint Resolve on_db_keeps keeps_self keeps_set_next keeps_set_timer keeps_set_stopping keeps_worker_cycle ro_close_law : keeps.
Lemma keeps_reschedule : keeps wgrows reschedule.
Proof. unfold reschedule. keeps_tac. Qed.
Lemma keeps_schedule : keeps wgrows scheduleNextTick.
Proof. unfold scheduleNextTick. keeps_tac. Qed.
#[local] Hint Resolve keeps_reschedule keeps_schedule : keeps.
Lemma keeps_start pid host : keeps wgrows (start pid host).
Proof. unfold start. keeps_tac. Qed.
Lemma keeps_unless_closed m : keeps wgrows m -> keeps wgrows (unless_closed m).
Proof. intros H. unfold unless_closed. apply keeps_catch; [typeclasses eauto|done|]. intros e. keeps_tac. Qed.
#[local] Hint Resolve keeps_unless_closed : keeps.
Lemma keeps_stop : keeps wgrows stop.
Proof. unfold stop. repeat (apply keeps_bind; [typeclasses eauto| |intros ?]); try apply keeps_unless_closed; keeps_tac. Qed.

Lemma tick_law (s : W) r s' : tick s = (r, s') -> advances s.2 s'.2 /\
  forall id, id ∈ executed s -> (forall st, status_of id s.2 = Some st -> st = rcs_pending) /\
    (exists st, status_of id s'.2 = Some st /\ st <> rcs_pending) /\ (r = Ret tt -> ended id s'.2).
Proof.
  destruct s as [w d]. unfold tick, executed. intros H. eff_inv H as w0 s0 E0; [done|]. injection E0 as <- <-. cbn [fst snd] in *.
  destruct (wk_stopping w); [injection H as <- <-; split; [reflexivity|by intros id ?%elem_of_nil]|].
  eff_inv H as o s1 E1; apply on_db_inv in E1 as [E1 Hw]; cbn [fst snd] in E1, Hw; rewrite E1; cbn [fst];
    destruct (tick_claim_law _ _ _ _ E1) as [A1 Hc]; [split; [done|by intros id ?%elem_of_nil]|].
  destruct o as [c|].
  - destruct (Hc c eq_refl) as [Hrun Hp]. eff_inv H as u s2 E2; apply on_db_inv in E2 as [E2 _]; pose proof (advances_execute _ _ _ _ _ E2) as A2.
    + split; [by etrans|]. intros id ->%list_elem_of_singleton. split_and!; [done|by apply (A2 _ _ Hrun)|by intros ->].
    + destruct u. pose proof (execute_ends _ _ _ _ Hrun E2) as He. apply keeps_reschedule in H.
      assert (A : advances s1.2 s'.2) by (etrans; [exact A2|by apply grows_advances]). split; [by etrans|].
      intros id ->%list_elem_of_singleton. split_and!; [done|by apply (A _ _ Hrun)|]. intros _.
      destruct He as [He|He]; [left|right]; by eapply grows_status.
  - split; [|by intros id ?%elem_of_nil]. etrans; [exact A1|]. apply grows_advances.
    cut (wgrows s1 s'); [done|]. revert H. generalize r. intros r0 H. refine ((_ : keeps wgrows _) _ _ _ H). keeps_tac.
Qed.

(** A history of one worker: its polls, however they end, and between them
    anything that leaves the commands taken up as they are: requests of the
    control plane, a stop, a start, other users of the database. *)
Inductive worker_history : list string -> W -> Prop :=
  | history_begin s : worker_history [] s
  | history_tick l s r s' : worker_history l s -> tick s = (r, s') -> worker_history (l ++ executed s) s'
  | history_else l s s' : worker_history l s -> advances s.2 s'.2 -> worker_history l s'.

Lemma history_run_tick l s : worker_history l s -> worker_history (l ++ executed s) (tick s).2.
Proof. intros H. by eapply history_tick; [exact H|apply surjective_pairing]. Qed.

(** C11. Every command runs at most once.  Over any sequence of polls of a worker,
    whatever statement fails in which of them, and whatever is asked for between
    and during them, no command is executed twice, and none that was executed is
    pending again. *)
Theorem command_runs_at_most_once (l : list string) (s : W) : worker_history l s ->
  NoDup l /\ Forall (fun id => exists st, status_of id s.2 = Some st /\ st <> rcs_pending) l.
Proof.
  induction 1 as [s|l s r s' _ [IH1 IH2] H|l s s' _ [IH1 IH2] H]; [split; constructor| |].
  - destruct (tick_law _ _ _ H) as [A Hx]. split.
    + apply NoDup_app. split_and!; [done| |].
      * intros id Hid Hin. destruct (Hx _ Hin) as (Hp & _). destruct (proj1 (Forall_forall _ _) IH2 id Hid) as (st & Hst & Hn). by apply Hn, Hp.
      * unfold executed. destruct (wk_stopping s.1); [constructor|]. destruct (tick_claim s.1 s.2).1 as [[c|]|]; [apply NoDup_singleton|constructor..].
    + apply Forall_app. split; [|apply Forall_forall; intros id Hid; apply (Hx _ Hid)].
      eapply Forall_impl; [exact IH2|]. intros id (st & Hst & Hn). by apply (A _ _ Hst).
  - split; [done|]. eapply Forall_impl; [exact IH2|]. intros id (st & Hst & Hn). by apply (H _ _ Hst).
Qed.

(** C20. A command ends with its tick.  If a poll that took up a command returns,
    that command is completed or failed; it was pending, or not yet asked for,
    when the poll began. *)
Theorem command_ends_with_tick (s s' : W) (id : string) : tick s = (Ret tt, s') -> id ∈ executed s ->
  ended id s'.2 /\ forall st, status_of id s.2 = Some st -> st = rcs_pending.
Proof. intros H Hid. destruct (tick_law _ _ _ H) as [_ Hx]. destruct (Hx _ Hid) as (H1 & _ & H3). split; [by apply H3|exact H1]. Qed.

End Once.

(** ** Tables in memory *)

Record Tables := MkTables {
  tb_mismatches : MemoryDb;
  tb_commands : list RuntimeCommandView;
  tb_remediations : list RemediationRow;
  tb_worker : option WorkerStatusView;
  tb_runtime : option RuntimeStateRow;
  tb_recoveries : list RecoveryActionRow;
  (** an event type that cannot be recorded *)
  tb_broken : option string;
}.
Definition with_mismatches (m : MemoryDb) (d : Tables) : Tables :=
  MkTables m (tb_commands d) (tb_remediations d) (tb_worker d) (tb_runtime d) (tb_recoveries d) (tb_broken d).
Definition with_commands (l : list RuntimeCommandView) (d : Tables) : Tables :=
  MkTables (tb_mismatches d) l (tb_remediations d) (tb_worker d) (tb_runtime d) (tb_recoveries d) (tb_broken d).
Definition with_remediations (l : list RemediationRow) (d : Tables) : Tables :=
  MkTables (tb_mismatches d) (tb_commands d) l (tb_worker d) (tb_runtime d) (tb_recoveries d) (tb_broken d).
Definition with_worker (w : option WorkerStatusView) (d : Tables) : Tables :=
  MkTables (tb_mismatches d) (tb_commands d) (tb_remediations d) w (tb_runtime d) (tb_recoveries d) (tb_broken d).
Definition with_recoveries (l : list RecoveryActionRow) (d : Tables) : Tables :=
  MkTables (tb_mismatches d) (tb_commands d) (tb_remediations d) (tb_worker d) (tb_runtime d) l (tb_broken d).
Definition on_mismatches {A} (m : eff (@Db memory_db) A) : eff Tables A :=
  fun d => let '(r, x) := m (tb_mismatches d) in (r, with_mismatches x d).

#[export] Instance tables_mismatches : MismatchDb := {|
  Db := Tables;
  db_select k := on_mismatches (db_select k);
  db_select_id i := on_mismatches (db_select_id i);
  db_insert mk := on_mismatches (db_insert mk);
  db_update k f := on_mismatches (db_update k f);
  db_update_id i f := on_mismatches (db_update_id i f);
  db_list n sk := on_mismatches (db_list n sk);
  db_insert_event e := fun d =>
    if bool_decide (tb_broken d = Some (re_eventType e)) then (Throw (Error_ "connection lost"), d) else on_mismatches (db_insert_event e) d;
  db_now := on_mismatches db_now;
|}.
Definition requested_before (a b : RuntimeCommandView) : bool := rc_requestedAt a <? rc_requestedAt b.
(** The commands of a table with unique ids. *)
Definition table_commands (d : Tables) : list RuntimeCommandView :=
  omap (fun id => find_key rc_commandId id (tb_commands d)) (js_unique (map rc_commandId (tb_commands d))).

#[export] Instance tables_commands : CommandDb (MD := tables_mismatches) := {|
  cd_create_id := (fun d => (Ret ("id-" +:+ z_str (md_clock (tb_mismatches d))), with_mismatches (MkMemoryDb (md_rows (tb_mismatches d))
    (md_events (tb_mismatches d)) (md_clock (tb_mismatches d) + 1)) d)) : eff (@Db tables_mismatches) _;
  cd_insert_command id mk := (fun d =>
    let c := mk (md_clock (tb_mismatches d)) in
    (Ret tt, if bool_decide (rc_commandId c ∈ map rc_commandId (tb_commands d)) then d else with_commands (tb_commands d ++ [c]) d))
    : eff (@Db tables_mismatches) _;
  cd_pending := (fun d =>
    (Ret (hd_error (js_sort requested_before (List.filter (fun c => bool_decide (rc_status c = rcs_pending)) (table_commands d)))), d))
    : eff (@Db tables_mismatches) _;
  cd_command id := (fun d => (Ret (find_key rc_commandId id (table_commands d)), d)) : eff (@Db tables_mismatches) _;
  cd_update_command id cond f := (fun d => (Ret tt, with_commands (map (update_where id cond f) (tb_commands d)) d)) : eff (@Db tables_mismatches) _;
  cd_last_attempt m := (fun d => (Ret (fold_left Z.max (map rr_attemptSequence (List.filter (fun r => String.eqb (rr_mismatchId r) m)
    (tb_remediations d))) 0), d)) : eff (@Db tables_mismatches) _;
  cd_insert_remediation mk := (fun d =>
    let r := mk ("remediation-" +:+ z_str (Z.of_nat (length (tb_remediations d)))) in
    (Ret (Some r), with_remediations (r :: tb_remediations d) d)) : eff (@Db tables_mismatches) _;
  cd_remediation p := (fun d => (Ret (List.find p (tb_remediations d)), d)) : eff (@Db tables_mismatches) _;
  cd_update_remediation id f := (fun d =>
    (Ret tt, with_remediations (map (fun r => if decide (rr_id r = id) then f r else r) (tb_remediations d)) d)) : eff (@Db tables_mismatches) _;
  cd_event id := (fun d => (Ret (List.find (fun e => bool_decide (re_id e = Some id)) (md_events (tb_mismatches d))), d))
    : eff (@Db tables_mismatches) _;
  cd_worker := (fun d => (Ret (tb_worker d), d)) : eff (@Db tables_mismatches) _;
  cd_insert_worker w := (fun d => (Ret tt, match tb_worker d with None => with_worker (Some w) d | Some _ => d end))
    : eff (@Db tables_mismatches) _;
  cd_update_worker f := (fun d => (Ret tt, with_worker (f <$> tb_worker d) d)) : eff (@Db tables_mismatches) _;
  cd_runtime := (fun d => (Ret (tb_runtime d), d)) : eff (@Db tables_mismatches) _;
  cd_recovery id := (fun d => (Ret (List.find (fun r => String.eqb (ba_id r) id) (tb_recoveries d)), d)) : eff (@Db tables_mismatches) _;
  cd_update_recovery id f := (fun d =>
    (Ret tt, with_recoveries (map (fun r => if decide (ba_id r = id) then f r else r) (tb_recoveries d)) d)) : eff (@Db tables_mismatches) _;
|}.

Lemma table_commands_unique d : NoDup (map rc_commandId (table_commands d)).
Proof.
  unfold table_commands. set (l := js_unique _). assert (Hl : NoDup l) by apply js_unique_spec. clearbody l.
  induction l as [|k l IH]; [constructor|]. apply NoDup_cons in Hl as [Hk Hl]. cbn. destruct (find_key rc_commandId k _) as [c|] eqn:E; [|by apply IH].
  cbn. apply NoDup_cons. split; [|by apply IH]. intros (c' & Ec & Hc)%list_elem_of_fmap. apply list_elem_of_omap in Hc as (k' & Hk' & E').
  apply Hk. by rewrite <- (find_key_key _ _ _ _ E), Ec, (find_key_key _ _ _ _ E').
Qed.

Lemma js_unique_snoc (l : list string) k : k ∉ l -> js_unique (l ++ [k]) = js_unique l ++ [k].
Proof.
  intros Hk. unfold js_unique. rewrite foldl_app. cbn. unfold js_add at 1, js_has. rewrite bool_decide_false; [done|].
  intros H. apply Hk. by apply (js_unique_spec l).
Qed.
Lemma table_insert d c : rc_commandId c ∉ map rc_commandId (tb_commands d) ->
  table_commands (with_commands (tb_commands d ++ [c]) d) = table_commands d ++ [c].
Proof.
  intros H. unfold table_commands. cbn [tb_commands with_commands]. rewrite map_app. cbn [map]. rewrite js_unique_snoc by done.
  rewrite omap_app. f_equal.
  - set (l := js_unique _). assert (Hl : forall k, k ∈ l -> k <> rc_commandId c) by (intros k Hk ->; apply H; by apply js_unique_spec). clearbody l.
    induction l as [|k l IH]; [done|]. cbn. rewrite IH by (intros; apply Hl; by right). rewrite find_key_app.
    destruct (find_key rc_commandId k (tb_commands d)); [done|]. rewrite decide_False; [done|]. intros E. by apply (Hl k); [left|].
  - cbn. rewrite find_key_app. destruct (find_key rc_commandId (rc_commandId c) (tb_commands d)) as [x|] eqn:E.
    + exfalso. apply H. pose proof (find_key_key _ _ _ _ E) as <-. apply find_some in E as [E _]. apply list_elem_of_fmap_2. by apply list_elem_of_In.
    + by rewrite decide_True.
Qed.
Lemma table_update d g : (forall c, rc_commandId (g c) = rc_commandId c) ->
  table_commands (with_commands (map g (tb_commands d)) d) = map g (table_commands d).
Proof.
  intros Hg. unfold table_commands. cbn [tb_commands with_commands]. rewrite map_map. rewrite (map_ext _ rc_commandId) by done.
  set (l := js_unique _). clearbody l. induction l as [|k l IH]; [done|]. cbn. rewrite find_key_map by done.
  destruct (find_key rc_commandId k (tb_commands d)); cbn; by rewrite IH.
Qed.
Lemma table_same d d' : tb_commands d' = tb_commands d -> table_commands d' = table_commands d.
Proof. unfold table_commands. by intros ->. Qed.

Definition table_grows (d d' : Tables) : Prop := exists more, asked more /\ table_commands d' = table_commands d ++ more.
Lemma same_table_grows d d' : tb_commands d' = tb_commands d -> table_grows d d'.
Proof. intros H. exists []. rewrite (table_same _ _ H), app_nil_r. by split; [constructor|]. Qed.
Lemma on_mismatches_grows {A} (m : eff (@Db memory_db) A) d r d' : on_mismatches m d = (r, d') -> table_grows d d'.
Proof. unfold on_mismatches. destruct (m (tb_mismatches d)) as [r0 x]. intros [= _ <-]. by apply same_table_grows. Qed.

#[export] Program Instance tables_laws : CommandDbLaws (MD := tables_mismatches) (CD := tables_commands) := {|
  commands_of := table_commands : @Db tables_mismatches -> _
|}.
Next Obligation. apply table_commands_unique. Qed.
Next Obligation. intros d r d' [= _ <-]. by apply same_table_grows. Qed.
Next Obligation.
  intros id mk d r d' [= _ <-] Hm. case_bool_decide as Hc; [by apply same_table_grows|]. exists [mk (md_clock (tb_mismatches d))].
  split; [by constructor|by apply table_insert].
Qed.
Next Obligation.
  intros d r d' [= <- <-]. split; [by apply same_table_grows|]. intros c [= Hc].
  assert (Hin : c ∈ js_sort requested_before (List.filter (fun c => bool_decide (rc_status c = rcs_pending)) (table_commands d))).
  { destruct (js_sort _ _); [done|]. injection Hc as ->. by left. }
  rewrite (js_sort_perm _ _) in Hin. apply list_elem_of_In, filter_In in Hin as [Hin Hs%bool_decide_eq_true]. by split; [apply list_elem_of_In|].
Qed.
Next Obligation. intros id d r d' [= <- <-]. split; [by apply same_table_grows|]. by intros o [= <-]. Qed.
Next Obligation.
  intros id cond f d r d' [= <- <-] Hf. right. exists d. split; [by apply same_table_grows|]. apply table_update.
  intros c. unfold update_where. case_decide; [|done]. destruct (cond c); [apply Hf|done].
Qed.
Solve All Obligations with
  (intros; intros ? ? ? E; cbn in E; first [exact (on_mismatches_grows _ _ _ _ E)
   | injection E as _ <-; by apply same_table_grows
   | injection E as _ <-; destruct (tb_worker _); by apply same_table_grows]).
Next Obligation.
  intros e d r d' E. cbn in E. case_bool_decide; injection E as _ <-; by apply same_table_grows.
Qed.

(** *** A runtime whose cycles take a tick of the clock, or fail *)

Definition cycle_error : JsError := Error_ "venue unreachable".
Definition returns_or_fails {A} (fails : bool) (a : A) : eff (@Db tables_mismatches) A :=
  _ ← db_now; if fails then throw_eff cycle_error else mret a.
Definition sample_runtime (fails : bool) : RuntimeOps (MD := tables_mismatches) := {|
  ro_runCycle _ := returns_or_fails fails (MkCycleOutcome "run-1" []);
  ro_runReconciliation _ _ _ := returns_or_fails fails [("id", JStr "rec-1"); ("status", JStr "completed")];
  ro_runTreasuryEvaluation _ _ := returns_or_fails fails [("treasuryRunId", JStr "treasury-1")];
  ro_runCarryEvaluation _ := returns_or_fails fails [];
  ro_runAllocatorEvaluation _ _ _ := returns_or_fails fails [];
  ro_executeCarryAction i := returns_or_fails fails [("actionId", JStr (ea_actionId i))];
  ro_executeTreasuryAction i := returns_or_fails fails [("actionId", JStr (ea_actionId i))];
  ro_executeRebalanceProposal i := returns_or_fails fails [("proposalId", JStr (ea_actionId i))];
  ro_rebuildProjections _ := returns_or_fails fails [];
  ro_close := mret tt;
|}.
Lemma keeps_sample {A} fails (a : A) : keeps (grows (CommandDbLaws := tables_laws)) (returns_or_fails fails a).
Proof. unfold returns_or_fails. apply keeps_bind; [typeclasses eauto|apply cm_now_law|intros _]. destruct fails; keeps_tac. Qed.
Definition sample_laws (fails : bool) : RuntimeOpsLaws (RO := sample_runtime fails) (CL := tables_laws).
Proof. split; intros; first [apply keeps_sample|apply keeps_ret; typeclasses eauto]. Defined.

Definition sample_worker : Worker := new_RuntimeWorker 7 (Some "worker-a") 60000 None 0.
Definition ready_tables (commands : list RuntimeCommandView) (broken : option string) : Tables :=
  MkTables (MkMemoryDb [] [] 1000) commands [] (Some (new_worker_state "worker-a" 60000 0)) (Some (MkRuntimeState false rl_ready)) [] broken.
Definition sample_command : RuntimeCommandView :=
  MkCommand "cmd-1" rct_run_cycle rcs_pending "olga" None [] [] None 900 None None 900.
Definition sample_tick (fails : bool) (s : Worker * Tables) : Worker * Tables := (tick (RO := sample_runtime fails) s).2.
Definition statuses (d : Tables) : list (string * RuntimeCommandStatus) := map (fun c => (rc_commandId c, rc_status c)) (tb_commands d).
Definition worker_shows (d : Tables) : option (WorkerLifecycleState * WorkerSchedulerState * option string) :=
  (fun w => (ws_lifecycleState w, ws_schedulerState w, ws_currentCommandId w)) <$> tb_worker d.

Example command_completes : statuses (sample_tick false (sample_worker, ready_tables [sample_command] None)).2 = [("cmd-1", rcs_completed)].
Proof. vm_compute. reflexivity. Qed.

(** The cycle ran and the command was completed; then its event could not be
    recorded, and the command is failed. *)
Example completed_marked_failed :
  let d := (sample_tick false (sample_worker, ready_tables [sample_command] (Some "runtime_command_completed"))).2 in
  statuses d = [("cmd-1", rcs_failed)] /\ map (fun c => (rc_result c, rc_errorMessage c)) (tb_commands d) =
    [([("runId", JStr "run-1")], Some "connection lost")].
Proof. vm_compute. done. Qed.

(** A run of a command is recorded to have started after it ended. *)
Example run_starts_after_end :
  let d := (sample_tick false (sample_worker, ready_tables [sample_command] None)).2 in
  (ws_lastRunStartedAt <$> tb_worker d) = Some (Some 1009) /\ map rc_completedAt (tb_commands d) = [Some 1007].
Proof. vm_compute. done. Qed.

(** Two workers read the same pending command before either marks it: both get it. *)
Example both_workers_claim :
  let d := ready_tables [sample_command] None in
  match (cd_pending (CommandDb := tables_commands) d).1 with
  | Ret (Some p) =>
      let '(r1, d1) := claim_pending "worker-a" p d in
      let '(r2, d2) := claim_pending "worker-b" p d1 in
      exists c, r1 = Ret (Some c) /\ r2 = Ret (Some c) /\ rc_claimedBy c = Some "worker-a"
  | _ => False
  end.
Proof. vm_compute. eexists. done. Qed.

(** *** Remediations *)

Definition open_mismatch : MismatchInput := MkMismatchInput "projection" "projection_state_mismatch" "high" None "monitor" None None "stale" [] 500.
Definition mismatch_tables : Tables := (upsertMismatch (MD := tables_mismatches) open_mismatch (ready_tables [] None)).2.
Definition ask_cycle (d : Tables) : Tables :=
  (createCommandRecord (CD := tables_commands) "cmd-1" rct_run_cycle "olga" (remediation_payload "mismatch-0" "olga" ra_run_cycle) d).2.
Definition mismatch_statuses (d : Tables) : list RuntimeMismatchStatus := map mm_status (md_rows (tb_mismatches d)).
Definition attempts (d : Tables) : list (string * RuntimeRemediationStatus) := map (fun r => (rr_commandId r, rr_status r)) (tb_remediations d).
Definition error_of {A} (r : exn A) : option string := match r with Throw e => Some (err_message e) | Ret _ => None end.

(** In order: the attempt completes. *)
Example remediation_completes :
  let d := (remediateMismatch (CD := tables_commands) "mismatch-0" "olga" ra_run_cycle None mismatch_tables).2 in
  let d' := (sample_tick false (sample_worker, d)).2 in
  map snd (statuses d') = [rcs_completed] /\ map snd (attempts d') = [rm_completed] /\ mismatch_statuses d' = [ms_recovering].
Proof. vm_compute. done. Qed.

(** The worker polls after the command is asked for and before the attempt is
    recorded: the attempt stays requested for a completed command, and no other
    remediation of the mismatch is accepted. *)
Example remediation_stuck :
  let d1 := (sample_tick false (sample_worker, ask_cycle mismatch_tables)).2 in
  match (getMismatchById (MD := tables_mismatches) "mismatch-0" d1).1 with
  | Ret (Some m) =>
      let d2 := (record_remediation (CD := tables_commands) m "mismatch-0" "olga" ra_run_cycle None "cmd-1" d1).2 in
      statuses d2 = [("cmd-1", rcs_completed)] /\ attempts d2 = [("cmd-1", rm_requested)] /\
      error_of (remediateMismatch (CD := tables_commands) "mismatch-0" "olga" ra_run_cycle None d2).1
        = Some ("Mismatch " +:+ quoted "mismatch-0" +:+ " already has remediation " +:+ quoted "remediation-0" +:+ " in flight.")
  | _ => False
  end.
Proof. vm_compute. done. Qed.

(** The command fails before the mismatch is recovering: the handler of the
    failure throws, the attempt stays running and the worker shows the command. *)
Example failure_handler_throws :
  let d1 := (createMismatchRemediation (CD := tables_commands) "mismatch-0" ra_run_cycle "cmd-1" "olga" None (ask_cycle mismatch_tables)).2 in
  let '(r, (_, d2)) := tick (RO := sample_runtime true) (sample_worker, d1) in
  error_of r = Some ("Cannot remediation failed mismatch from status " +:+ quoted "open" +:+ ". Allowed statuses: recovering, reopened.") /\
  statuses d2 = [("cmd-1", rcs_failed)] /\ attempts d2 = [("cmd-1", rm_running)] /\
  worker_shows d2 = Some (wl_ready, wc_running, Some "cmd-1").
Proof. vm_compute. done. Qed.

(** *** The theorems at a command *)

Definition sample_start : Worker * Tables := (sample_worker, ready_tables [sample_command] None).
Lemma sample_executed : executed (CD := tables_commands) sample_start = ["cmd-1"].
Proof. vm_compute. reflexivity. Qed.

Lemma command_runs_at_most_once_witness : NoDup ["cmd-1"] /\
  Forall (fun id => exists st, status_of (CL := tables_laws) id (sample_tick false sample_start).2 = Some st /\ st <> rcs_pending) ["cmd-1"].
Proof.
  pose proof (history_run_tick (RO := sample_runtime false) (CL := tables_laws) [] sample_start (history_begin (RO := sample_runtime false) (CL := tables_laws) sample_start)) as H.
  rewrite sample_executed in H. exact (command_runs_at_most_once (RL := sample_laws false) _ _ H).
Defined.

Lemma command_ends_with_tick_witness : ended (CL := tables_laws) "cmd-1" (sample_tick false sample_start).2.
Proof.
  destruct (tick (RO := sample_runtime false) sample_start) as [r s'] eqn:E.
  assert (Hr : r = Ret tt). { change r with (r, s').1. rewrite <- E. vm_compute. reflexivity. }
  unfold sample_tick. rewrite E. subst r.
  refine (proj1 (command_ends_with_tick (RL := sample_laws false) sample_start s' "cmd-1" E _)). rewrite sample_executed. by left.
Defined.
