(* ===== verification/MismatchControl.v ===== *)
(** * Operator control of mismatches (packages/runtime: control-plane.ts)

    What an operator may do to a mismatch: acknowledge it, start its recovery,
    resolve, verify and reopen it, and record a failed remediation.  The file
    shows that the whole runtime, the control plane, the worker, the monitors and
    the reconciliation, moves the mismatches of the database along the lifecycle
    of [MismatchLifecycle], and that only an operator's call verifies one.  Calls
    run one after the other. *)
From S2P Require Import Prelude JsNumber JsValue JsText DecimalLib DecimalExact HealthMonitor ReconcileStore ReconcileDetect ReconcileVenues Reconciliation MismatchLifecycle MismatchStore CarryExecution Commands RuntimeWorker.
Open Scope Z_scope.

(** ** Patches *)

(** The fields of a mismatch that the control plane sets. *)
Inductive MismatchField :=
  | mf_status (s : RuntimeMismatchStatus)
  | mf_acknowledged (at_ : Z) (by_ : string)
  | mf_recoveryStarted (at_ : Z) (by_ : string) (summary : option string)
  | mf_linkedCommandId (id : option string)
  | mf_linkedRecoveryEventId (id : option string)
  | mf_resolved (at_ : Z) (by_ summary : string)
  | mf_verified (at_ : Z) (by_ summary : string) (outcome : RuntimeVerificationOutcome)
  | mf_reopened (at_ : Z) (by_ summary : string)
  | mf_lastStatusChangeAt (at_ : Z).
Definition set_mismatch_field (m : RuntimeMismatchView) (f : MismatchField) : RuntimeMismatchView :=
  let '(MkMismatch id key cat sev sk sc et ei sum det st fd ld oc aa ab ra rb rs lc le rsa rsb rss va vb vs vo pa pb ps lsc up) := m in
  match f with
  | mf_status s => MkMismatch id key cat sev sk sc et ei sum det s fd ld oc aa ab ra rb rs lc le rsa rsb rss va vb vs vo pa pb ps lsc up
  | mf_acknowledged a b =>
      MkMismatch id key cat sev sk sc et ei sum det st fd ld oc (Some a) (Some b) ra rb rs lc le rsa rsb rss va vb vs vo pa pb ps lsc up
  | mf_recoveryStarted a b s =>
      MkMismatch id key cat sev sk sc et ei sum det st fd ld oc aa ab (Some a) (Some b) s lc le rsa rsb rss va vb vs vo pa pb ps lsc up
  | mf_linkedCommandId v => MkMismatch id key cat sev sk sc et ei sum det st fd ld oc aa ab ra rb rs v le rsa rsb rss va vb vs vo pa pb ps lsc up
  | mf_linkedRecoveryEventId v =>
      MkMismatch id key cat sev sk sc et ei sum det st fd ld oc aa ab ra rb rs lc v rsa rsb rss va vb vs vo pa pb ps lsc up
  | mf_resolved a b s =>
      MkMismatch id key cat sev sk sc et ei sum det st fd ld oc aa ab ra rb rs lc le (Some a) (Some b) (Some s) va vb vs vo pa pb ps lsc up
  | mf_verified a b s o =>
      MkMismatch id key cat sev sk sc et ei sum det st fd ld oc aa ab ra rb rs lc le rsa rsb rss (Some a) (Some b) (Some s) (Some o) pa pb ps lsc up
  | mf_reopened a b s =>
      MkMismatch id key cat sev sk sc et ei sum det st fd ld oc aa ab ra rb rs lc le rsa rsb rss va vb vs vo (Some a) (Some b) (Some s) lsc up
  | mf_lastStatusChangeAt a => MkMismatch id key cat sev sk sc et ei sum det st fd ld oc aa ab ra rb rs lc le rsa rsb rss va vb vs vo pa pb ps a up
  end.
Definition set_mismatch (fields : list MismatchField) (m : RuntimeMismatchView) : RuntimeMismatchView := fold_left set_mismatch_field fields m.

Section Control.
Context `{CD : CommandDb}.

Definition blank_text (s : string) : bool := bool_decide (js_trim s = "").
Definition control_event (mismatchId : string) (commandId : option string) (eventType status actorId message : string) (details : record_)
    : RecoveryEvent :=
  MkRecoveryEvent (Some mismatchId) commandId None eventType status "api-control-plane" (Some actorId) message details None None.
(** The event of an update that found its row. *)
Definition note_update (updated : option RuntimeMismatchView) (event : RuntimeMismatchView -> RecoveryEvent) : eff Db (option RuntimeMismatchView) :=
  _ ← (match updated with Some m => _ ← recordRecoveryEvent (event m); mret tt | None => mret tt end);
  mret updated.

Definition acknowledgeMismatch (mismatchId actorId : string) (summary : option string) : eff Db (option RuntimeMismatchView) :=
  mismatch ← getRequiredMismatch mismatchId;
  nextStatus ← lift_exn (acknowledgeNextStatus (mm_status mismatch));
  if bool_decide (nextStatus = mm_status mismatch) then mret (Some mismatch) else
  at_ ← db_now;
  changedAt ← db_now;
  updated ← updateMismatchById mismatchId (set_mismatch [mf_status nextStatus; mf_acknowledged at_ actorId; mf_lastStatusChangeAt changedAt]);
  note_update updated (fun _ => control_event mismatchId None "mismatch_acknowledged" "acknowledged" actorId
    (or_else summary ("Mismatch " +:+ mismatchId +:+ " acknowledged.")) [("mismatchId", JStr mismatchId)]).

Definition startMismatchRecovery (mismatchId actorId : string) (summary commandId linkedRecoveryEventId : option string)
    : eff Db (option RuntimeMismatchView) :=
  if match summary with None => true | Some s => blank_text s end && bool_decide (commandId = None) && bool_decide (linkedRecoveryEventId = None) then
    throw_eff (RuntimeMismatchLifecycleError "Recovery start requires a summary, linked commandId, or linked recoveryEventId.")
  else
  mismatch ← getRequiredMismatch mismatchId;
  nextStatus ← lift_exn (recoveryNextStatus (mm_status mismatch));
  if bool_decide (nextStatus = mm_status mismatch) then mret (Some mismatch) else
  at_ ← db_now;
  changedAt ← db_now;
  updated ← updateMismatchById mismatchId (set_mismatch [mf_status nextStatus; mf_recoveryStarted at_ actorId summary;
    mf_linkedCommandId commandId; mf_linkedRecoveryEventId linkedRecoveryEventId; mf_lastStatusChangeAt changedAt]);
  note_update updated (fun _ => control_event mismatchId commandId "mismatch_recovery_started" "recovering" actorId
    (or_else summary ("Mismatch " +:+ mismatchId +:+ " moved to recovering."))
    [("mismatchId", JStr mismatchId); ("linkedRecoveryEventId", JStrNull linkedRecoveryEventId)]).

Definition or_null {A} (a b : option A) : option A := match a with Some _ => a | None => b end.
Definition resolveMismatch (mismatchId actorId summary : string) (commandId linkedRecoveryEventId : option string)
    : eff Db (option RuntimeMismatchView) :=
  if blank_text summary then throw_eff (RuntimeMismatchLifecycleError "Mismatch resolution summary is required.") else
  mismatch ← getRequiredMismatch mismatchId;
  nextStatus ← lift_exn (resolveNextStatus (mm_status mismatch));
  if bool_decide (nextStatus = mm_status mismatch) then mret (Some mismatch) else
  now ← db_now;
  let command := or_null commandId (mm_linkedCommandId mismatch) in
  let event := or_null linkedRecoveryEventId (mm_linkedRecoveryEventId mismatch) in
  updated ← updateMismatchById mismatchId (set_mismatch [mf_status nextStatus; mf_resolved now actorId summary; mf_linkedCommandId command;
    mf_linkedRecoveryEventId event; mf_lastStatusChangeAt now]);
  note_update updated (fun _ => control_event mismatchId command "mismatch_resolved" "resolved" actorId summary
    [("mismatchId", JStr mismatchId); ("linkedRecoveryEventId", JStrNull event)]).

Definition outcome_str (o : RuntimeVerificationOutcome) : string := match o with vo_verified => "verified" | vo_failed => "failed" end.
Definition verifyMismatch (mismatchId actorId summary : string) (outcome : RuntimeVerificationOutcome) : eff Db (option RuntimeMismatchView) :=
  if blank_text summary then throw_eff (RuntimeMismatchLifecycleError "Mismatch verification summary is required.") else
  mismatch ← getRequiredMismatch mismatchId;
  nextStatus ← lift_exn (verifyNextStatus (mm_status mismatch) outcome);
  if bool_decide (nextStatus = mm_status mismatch) then mret (Some mismatch) else
  now ← db_now;
  updated ← updateMismatchById mismatchId (set_mismatch ([mf_status nextStatus; mf_verified now actorId summary outcome]
    ++ (if bool_decide (outcome = vo_failed) then [mf_reopened now actorId summary] else []) ++ [mf_lastStatusChangeAt now]));
  _ ← recordRecoveryEvent (control_event mismatchId None
        (if bool_decide (outcome = vo_verified) then "mismatch_verified" else "mismatch_verification_failed")
        (if bool_decide (outcome = vo_verified) then "verified" else "reopened") actorId summary
        [("mismatchId", JStr mismatchId); ("outcome", JStr (outcome_str outcome))]);
  mret updated.

Definition reopenMismatch (mismatchId actorId summary : string) : eff Db (option RuntimeMismatchView) :=
  if blank_text summary then throw_eff (RuntimeMismatchLifecycleError "Mismatch reopen summary is required.") else
  mismatch ← getRequiredMismatch mismatchId;
  nextStatus ← lift_exn (reopenNextStatus (mm_status mismatch));
  if bool_decide (nextStatus = mm_status mismatch) then mret (Some mismatch) else
  at_ ← db_now;
  changedAt ← db_now;
  updated ← updateMismatchById mismatchId (set_mismatch [mf_status nextStatus; mf_reopened at_ actorId summary; mf_lastStatusChangeAt changedAt]);
  note_update updated (fun m => control_event mismatchId (mm_linkedCommandId m) "mismatch_reopened" "reopened" actorId summary
    [("mismatchId", JStr mismatchId)]).

Definition recordFailedRemediationOutcome (mismatchId commandId remediationId actorId summary : string) : eff Db (option RuntimeMismatchView) :=
  mismatch ← getRequiredMismatch mismatchId;
  nextStatus ← lift_exn (remediationFailureNextStatus (mm_status mismatch));
  event ← recordRecoveryEvent (MkRecoveryEvent (Some mismatchId) (Some commandId) None "mismatch_remediation_failed"
    (mismatch_status_str nextStatus) "runtime-worker" (Some actorId) summary
    [("mismatchId", JStr mismatchId); ("remediationId", JStr remediationId)] None None);
  now ← db_now;
  _ ← updateMismatchRemediationById remediationId (remediation_patch rm_failed (re_id event) (Some summary) None None (Some now));
  reopenedAt ← db_now;
  changedAt ← db_now;
  updateMismatchById mismatchId (remediation_failed_patch nextStatus commandId (re_id event) actorId summary reopenedAt changedAt).

(** A call of the control plane on a mismatch. *)
Inductive control_call :=
  | call_acknowledge (mismatchId actorId : string) (summary : option string)
  | call_start_recovery (mismatchId actorId : string) (summary commandId eventId : option string)
  | call_resolve (mismatchId actorId summary : string) (commandId eventId : option string)
  | call_verify (mismatchId actorId summary : string) (outcome : RuntimeVerificationOutcome)
  | call_reopen (mismatchId actorId summary : string)
  | call_remediate (mismatchId actorId : string) (remediationType : RuntimeRemediationActionType) (summary : option string)
  | call_failed_remediation (mismatchId commandId remediationId actorId summary : string).
Definition discard {A} (m : eff Db A) : eff Db unit := _ ← m; mret tt.
Definition control (c : control_call) : eff Db unit :=
  match c with
  | call_acknowledge i a s => discard (acknowledgeMismatch i a s)
  | call_start_recovery i a s cmd e => discard (startMismatchRecovery i a s cmd e)
  | call_resolve i a s cmd e => discard (resolveMismatch i a s cmd e)
  | call_verify i a s o => discard (verifyMismatch i a s o)
  | call_reopen i a s => discard (reopenMismatch i a s)
  | call_remediate i a t s => discard (remediateMismatch i a t s)
  | call_failed_remediation i cmd rem a s => discard (recordFailedRemediationOutcome i cmd rem a s)
  end.
End Control.

(** ** What the runtime does to a mismatch *)

(** Rows are found by their id, which no two rows share; the other tables are
    not the table of mismatches. *)
Class MismatchIdLaws `{CD : CommandDb} `{ML : !MismatchDbLaws} := {
  row_ids : forall d k k' m m', row_of d k = Some m -> row_of d k' = Some m' -> mm_id m = mm_id m' -> k = k';
  select_id_row : forall i d r d' m, db_select_id i d = (r, d') -> r = Ret (Some m) -> row_of d (mm_dedupeKey m) = Some m /\ mm_id m = i;
  rows_create_id : keeps same_rows cd_create_id;
  rows_insert_command : forall id mk, keeps same_rows (cd_insert_command id mk);
  rows_pending : keeps same_rows cd_pending;
  rows_command : forall id, keeps same_rows (cd_command id);
  rows_update_command : forall id c f, keeps same_rows (cd_update_command id c f);
  rows_last_attempt : forall m, keeps same_rows (cd_last_attempt m);
  rows_insert_remediation : forall mk, keeps same_rows (cd_insert_remediation mk);
  rows_remediation : forall p, keeps same_rows (cd_remediation p);
  rows_update_remediation : forall id f, keeps same_rows (cd_update_remediation id f);
  rows_event : forall id, keeps same_rows (cd_event id);
  rows_worker : keeps same_rows cd_worker;
  rows_insert_worker : forall w, keeps same_rows (cd_insert_worker w);
  rows_update_worker : forall f, keeps same_rows (cd_update_worker f);
  rows_runtime : keeps same_rows cd_runtime;
  rows_recovery : forall id, keeps same_rows (cd_recovery id);
  rows_update_recovery : forall id f, keeps same_rows (cd_update_recovery id f);
}.

(** A step of the lifecycle that is not a verification. *)
Definition mild_step (s s' : RuntimeMismatchStatus) : Prop := exists q, (forall o, q <> Verify o) /\ next_status q s = Ret s'.
Lemma mild_verified s s' : rtc mild_step s s' -> s' = ms_verified -> s = ms_verified.
Proof.
  induction 1 as [|s s1 s' (q & Hq & Hs) _ IH]; [done|]. intros ->. specialize (IH eq_refl). subst s1.
  apply next_status_step in Hs. inversion Hs; subst. by destruct (Hq vo_verified).
Qed.
Lemma auto_mild s s' : auto_step s s' -> mild_step s s'.
Proof. intros [H|H]; [by exists Resolve|by exists Reopen]. Qed.

(** No mismatch disappears or changes its id, and its status moves by such steps. *)
Definition mild_row (o o' : option RuntimeMismatchView) : Prop :=
  match o, o' with
  | None, None => True
  | None, Some m' => rtc mild_step ms_open (mm_status m')
  | Some m, Some m' => rtc mild_step (mm_status m) (mm_status m') /\ mm_id m' = mm_id m
  | Some _, None => False
  end.
Lemma mild_row_refl o : mild_row o o.
Proof. by destruct o. Qed.
Lemma row_moves_mild o o' : row_moves o o' -> mild_row o o'.
Proof.
  destruct o as [m|], o' as [m'|]; cbn; try done.
  - intros [H ?]. split; [|done]. by eapply rtc_subrel; [intros ? ?; apply auto_mild|].
  - intros H. by eapply rtc_subrel; [intros ? ?; apply auto_mild|].
Qed.

Section Rows.
Context `{IL : MismatchIdLaws}.

Definition mild (d d' : Db) : Prop := forall k, mild_row (row_of d k) (row_of d' k).
#[export] Instance mild_preorder : PreOrder mild.
Proof.
  split; [intros d k; apply mild_row_refl|]. intros a b c H1 H2 k. specialize (H1 k). specialize (H2 k).
  destruct (row_of a k) as [m|], (row_of b k) as [m1|], (row_of c k) as [m2|]; cbn in *; try done.
  - destruct H1 as [H1 E1], H2 as [H2 E2]. split; [by etrans|congruence].
  - destruct H2 as [H2 _]. by etrans.
Qed.
Lemma rows_move_mild d d' : rows_move d d' -> mild d d'.
Proof. intros H k. apply row_moves_mild, H. Qed.
Lemma same_mild d d' : same_rows d d' -> mild d d'.
Proof. intros H k. rewrite H. apply mild_row_refl. Qed.

#[local] Hint Resolve rows_create_id rows_insert_command rows_pending rows_command rows_update_command rows_last_attempt
  rows_insert_remediation rows_remediation rows_update_remediation rows_event rows_worker rows_insert_worker rows_update_worker
  rows_runtime rows_recovery rows_update_recovery select_same select_id_same event_same now_same : keeps.
Lemma same_getRequired i : keeps same_rows (getRequiredMismatch i).
Proof. unfold getRequiredMismatch, getMismatchById. keeps_tac. Qed.
Lemma same_note o e : keeps same_rows (note_update o e).
Proof. unfold note_update. keeps_tac. Qed.
Lemma same_createCommand id t a p : keeps same_rows (createCommandRecord id t a p).
Proof. unfold createCommandRecord, enqueueRuntimeCommand, getRuntimeCommand. keeps_tac. Qed.
Lemma same_mapRemediation r : keeps same_rows (map_remediation r).
Proof. unfold map_remediation, mapRemediationRow, getRuntimeCommand. keeps_tac. Qed.
#[local] Hint Resolve same_getRequired same_note same_createCommand same_mapRemediation : keeps.
Lemma same_remediationById i : keeps same_rows (getMismatchRemediationById i).
Proof. unfold getMismatchRemediationById. keeps_tac. Qed.
#[local] Hint Resolve same_remediationById : keeps.
Lemma same_updateRemediation i p : keeps same_rows (updateMismatchRemediationById i p).
Proof. unfold updateMismatchRemediationById. keeps_tac. Qed.
Lemma same_createRemediation m t c a s : keeps same_rows (createMismatchRemediation m t c a s).
Proof. unfold createMismatchRemediation, mapRemediationRow, getRuntimeCommand. keeps_tac. Qed.
#[local] Hint Resolve same_updateRemediation same_createRemediation : keeps.

Lemma getRequired_row i d m d' : getRequiredMismatch i d = (Ret m, d') -> same_rows d d' /\ row_of d (mm_dedupeKey m) = Some m /\ mm_id m = i.
Proof.
  intros H. pose proof (same_getRequired _ _ _ _ H) as S. split; [done|]. unfold getRequiredMismatch, getMismatchById in H.
  eff_inv H as o d1 E; [done|]. destruct o as [x|]; [|done]. injection H as <- _. by eapply select_id_row.
Qed.

(** [moves i q d d']: at most the mismatch [i] changes, its status by the request [q]. *)
Definition moves (i : string) (q : Request) (d d' : Db) : Prop := forall k, row_of d' k = row_of d k \/
  exists m m', row_of d k = Some m /\ row_of d' k = Some m' /\ mm_id m = i /\ mm_id m' = i /\ next_status q (mm_status m) = Ret (mm_status m').
Lemma same_moves i q d d' : same_rows d d' -> moves i q d d'.
Proof. intros H k. left. apply H. Qed.
Lemma moves_same_l i q d d1 d' : same_rows d d1 -> moves i q d1 d' -> moves i q d d'.
Proof. intros H1 H k. rewrite <- (H1 k). apply H. Qed.
Lemma moves_same_r i q d d1 d' : moves i q d d1 -> same_rows d1 d' -> moves i q d d'.
Proof. intros H H1 k. rewrite (H1 k). apply H. Qed.

(** Updating the mismatch [m] by its id to the status that [q] gives. *)
Lemma update_moves f d r d' m s q : updateMismatchById (mm_id m) f d = (r, d') -> row_of d (mm_dedupeKey m) = Some m ->
  next_status q (mm_status m) = Ret s -> (forall x, mm_dedupeKey (f x) = mm_dedupeKey x /\ mm_id (f x) = mm_id x /\ mm_status (f x) = s) ->
  moves (mm_id m) q d d'.
Proof.
  intros H Hm Hq Hf. unfold updateMismatchById in H. eff_inv H as now d1 E1; apply now_same in E1; [by apply same_moves|].
  apply (moves_same_l _ _ _ _ _ E1). assert (Hm1 : row_of d1 (mm_dedupeKey m) = Some m) by by rewrite E1.
  assert (HU : forall d2, (forall k', row_of d2 k' = (x ← row_of d1 k'; Some (if decide (mm_id x = mm_id m) then touch now (f x) else x)))
    \/ (forall k', row_of d2 k' = row_of d1 k') -> moves (mm_id m) q d1 d2).
  { intros d2 [HU|HU] k; [|left; apply HU]. rewrite HU. destruct (row_of d1 k) as [x|] eqn:Ex; [|by left]. cbn.
    case_decide as Hid; [|by left]. right. assert (k = mm_dedupeKey m) as -> by (by eapply row_ids). rewrite Hm1 in Ex. injection Ex as <-.
    destruct (Hf m) as (_ & Hi & Hs). exists m, (touch now (f m)). cbn [touch mm_id mm_status]. by rewrite Hi, Hs. }
  assert (Hkey : forall x, mm_dedupeKey (touch now (f x)) = mm_dedupeKey x) by (intros x; apply Hf).
  eff_inv H as u d2 E2; pose proof (db_update_id_law _ _ _ _ _ E2 Hkey) as L; [by apply HU|].
  apply (moves_same_r _ _ _ d2); [by apply HU|]. by eapply select_id_same.
Qed.

Definition call_request (c : control_call) : string * Request :=
  match c with
  | call_acknowledge i _ _ => (i, Acknowledge)
  | call_start_recovery i _ _ _ _ => (i, StartRecovery)
  | call_resolve i _ _ _ _ => (i, Resolve)
  | call_verify i _ _ o => (i, Verify o)
  | call_reopen i _ _ => (i, Reopen)
  | call_remediate i _ _ _ => (i, StartRecovery)
  | call_failed_remediation i _ _ _ _ => (i, RemediationFailed)
  end.

(** The common part of the calls: read, next status, unless it is the same an
    update to it, and statements on other tables. *)
Lemma transition_moves {A} i q (k : RuntimeMismatchView -> RuntimeMismatchStatus -> eff Db A) :
  (forall m s d1 r d', row_of d1 (mm_dedupeKey m) = Some m -> mm_id m = i -> next_status q (mm_status m) = Ret s ->
     k m s d1 = (r, d') -> moves i q d1 d') ->
  keeps (moves i q) (m ← getRequiredMismatch i; s ← lift_exn (next_status q (mm_status m)); k m s).
Proof.
  intros Hk d r d' H. eff_inv H as m d1 E1; [apply same_moves; by eapply same_getRequired|]. apply getRequired_row in E1 as (S1 & Hm & Hi).
  apply (moves_same_l _ _ _ _ _ S1). eff_inv H as s d2 E2; [injection E2 as _ <-; by apply same_moves|]. injection E2 as Hq <-.
  eapply Hk; [|exact Hi|exact Hq|exact H]. by rewrite (S1 _).
Qed.
(** Statements that keep the mismatches before and after the update. *)
Lemma moves_before {A B} i q (m : eff Db A) (k : A -> eff Db B) d r d' : (m ≫= k) d = (r, d') -> keeps same_rows m ->
  (forall a d1, same_rows d d1 -> k a d1 = (r, d') -> moves i q d1 d') -> moves i q d d'.
Proof.
  intros H Hm Hk. eff_inv H as a d1 E; apply Hm in E; [by apply same_moves|]. apply (moves_same_l _ _ _ _ _ E). by eapply Hk.
Qed.
Lemma moves_after {A B} i q (m : eff Db A) (k : A -> eff Db B) d r d' : (forall a, keeps same_rows (k a)) ->
  (forall r1 d1, m d = (r1, d1) -> moves i q d d1) -> (m ≫= k) d = (r, d') -> moves i q d d'.
Proof. intros Hk Hm H. eff_inv H as a d1 E; [by eapply Hm|]. apply (moves_same_r _ _ _ d1); [by eapply Hm|by eapply Hk]. Qed.

(** *** The calls *)

Lemma set_mismatch_key fields m : mm_dedupeKey (set_mismatch fields m) = mm_dedupeKey m /\ mm_id (set_mismatch fields m) = mm_id m.
Proof.
  unfold set_mismatch. revert m. induction fields as [|f fields IH]; intros m; [done|]. cbn [fold_left].
  destruct (IH (set_mismatch_field m f)) as [-> ->]. by destruct m, f.
Qed.
Lemma set_mismatch_rest fields m : Forall (fun f => match f with mf_status _ => False | _ => True end) fields ->
  mm_status (set_mismatch fields m) = mm_status m.
Proof.
  unfold set_mismatch. intros H. revert m. induction H as [|f fields Hf _ IH]; intros m; [done|]. cbn [fold_left]. rewrite IH. by destruct m, f.
Qed.
Lemma set_mismatch_ok s fields m : Forall (fun f => match f with mf_status _ => False | _ => True end) fields ->
  mm_dedupeKey (set_mismatch (mf_status s :: fields) m) = mm_dedupeKey m /\ mm_id (set_mismatch (mf_status s :: fields) m) = mm_id m /\
  mm_status (set_mismatch (mf_status s :: fields) m) = s.
Proof.
  intros H. destruct (set_mismatch_key (mf_status s :: fields) m) as [-> ->]. split_and!; [done|done|].
  change (set_mismatch (mf_status s :: fields) m) with (set_mismatch fields (set_mismatch_field m (mf_status s))).
  rewrite set_mismatch_rest by done. by destruct m.
Qed.

Lemma discard_moves {A} i q (m : eff Db A) : keeps (moves i q) m -> keeps (moves i q) (discard m).
Proof. intros Hm d r d' H. unfold discard in H. eff_inv H as a d1 E; [by eapply Hm|]. injection H as _ <-. by eapply Hm. Qed.

(** [same] statements, then the update of the mismatch, then [same] statements. *)
Lemma update_after {A} f (k : option RuntimeMismatchView -> eff Db A) d r d' m s q :
  (updated ← updateMismatchById (mm_id m) f; k updated) d = (r, d') -> row_of d (mm_dedupeKey m) = Some m -> next_status q (mm_status m) = Ret s ->
  (forall x, mm_dedupeKey (f x) = mm_dedupeKey x /\ mm_id (f x) = mm_id x /\ mm_status (f x) = s) -> (forall o, keeps same_rows (k o)) ->
  moves (mm_id m) q d d'.
Proof. intros H Hm Hq Hf Hk. eapply moves_after; [exact Hk| |exact H]. intros r1 d1 E. by eapply update_moves. Qed.

(** One statement of [same] kind at the head of [H]. *)
Ltac skip_same H Hm :=
  cbv beta zeta in H;
  match type of H with
  | mbind _ (db_now) ?d = _ =>
      let at_ := fresh "at_" in let d1 := fresh "d" in let E := fresh "E" in
      apply eff_bind_inv in H; destruct H as [(? & E & H)|(at_ & d1 & E & H)]; apply now_same in E;
      [by apply same_moves|]; apply (moves_same_l _ _ _ _ _ E); rewrite <- (E _) in Hm; clear E
  end.
Ltac rest_tac := repeat first [apply Forall_nil_2 | apply Forall_cons_2; [exact I|]].
Ltac transition_tac :=
  intros m s d1 r d' Hm Hi Hq H; subst; first [case_bool_decide; [injection H as _ <-; by apply same_moves|]|idtac];
  repeat skip_same H Hm;
  eapply update_after; [exact H|exact Hm|exact Hq|intros x; apply set_mismatch_ok; rest_tac|intros o; cbv beta; apply same_note].

Lemma acknowledge_moves i a sm : keeps (moves i Acknowledge) (acknowledgeMismatch i a sm).
Proof. unfold acknowledgeMismatch. apply (transition_moves i Acknowledge). transition_tac. Qed.
Lemma start_moves i a sm c e : keeps (moves i StartRecovery) (startMismatchRecovery i a sm c e).
Proof.
  unfold startMismatchRecovery. destruct (_ && _ && _); [intros d r d' [= _ <-]; by apply same_moves|].
  apply (transition_moves i StartRecovery). transition_tac.
Qed.
Lemma resolve_moves_call i a sm c e : keeps (moves i Resolve) (resolveMismatch i a sm c e).
Proof.
  unfold resolveMismatch. destruct (blank_text sm); [intros d r d' [= _ <-]; by apply same_moves|].
  apply (transition_moves i Resolve). cbv zeta. transition_tac.
Qed.
Lemma verify_moves i a sm o : keeps (moves i (Verify o)) (verifyMismatch i a sm o).
Proof.
  unfold verifyMismatch. destruct (blank_text sm); [intros d r d' [= _ <-]; by apply same_moves|].
  apply (transition_moves i (Verify o)). intros m st d1 r d' Hm Hi Hq H. subst.
  case_bool_decide; [injection H as _ <-; by apply same_moves|]. skip_same H Hm.
  eapply update_after; [exact H|exact Hm|exact Hq|intros x; apply set_mismatch_ok; destruct o; rest_tac|]. intros u. keeps_tac.
Qed.
Lemma reopen_moves i a sm : keeps (moves i Reopen) (reopenMismatch i a sm).
Proof.
  unfold reopenMismatch. destruct (blank_text sm); [intros d r d' [= _ <-]; by apply same_moves|].
  apply (transition_moves i Reopen). transition_tac.
Qed.

Lemma failed_remediation_moves i cmd rem a sm : keeps (moves i RemediationFailed) (recordFailedRemediationOutcome i cmd rem a sm).
Proof.
  unfold recordFailedRemediationOutcome. apply (transition_moves i RemediationFailed). intros m s d1 r d' Hm Hi Hq H. subst i.
  eapply moves_before; [exact H|apply event_same|clear H; intros e d2 S2 H2]. rewrite <- (S2 _) in Hm.
  skip_same H2 Hm. eapply moves_before; [exact H2|apply same_updateRemediation|clear H2; intros o d3 S3 H3]. rewrite <- (S3 _) in Hm.
  repeat skip_same H3 Hm. by eapply update_moves.
Qed.

Lemma check_row i t d m d' : check_remediation i t d = (Ret m, d') -> same_rows d d' /\ row_of d (mm_dedupeKey m) = Some m /\ mm_id m = i.
Proof.
  unfold check_remediation. intros H. eff_inv H as m0 d1 E1; [done|]. apply getRequired_row in E1 as (S1 & Hm & Hi).
  destruct (_ || _); [done|]. eff_inv H as o d2 E2; [done|].
  assert (S2 : same_rows d1 d2).
  { revert E2. unfold getInFlightMismatchRemediation. refine ((_ : keeps same_rows _) _ _ _). keeps_tac. }
  destruct o; [done|]. eff_inv H as st d3 E3; [done|].
  assert (S3 : same_rows d2 d3) by (revert E3; unfold getRuntimeStatus; refine ((_ : keeps same_rows _) _ _ _); keeps_tac).
  destruct (_ && _); [done|]. injection H as <- <-. split; [|done]. etrans; [exact S1|]. by etrans.
Qed.

Lemma remediate_moves i a t sm : keeps (moves i StartRecovery) (remediateMismatch i a t sm).
Proof.
  intros d r d' H. unfold remediateMismatch in H. eff_inv H as m d1 E1.
  - apply same_moves. revert E1. unfold check_remediation, getInFlightMismatchRemediation, getRuntimeStatus. refine ((_ : keeps same_rows _) _ _ _). keeps_tac.
  - apply check_row in E1 as (S1 & Hm & Hi). rewrite <- (S1 _) in Hm. apply (moves_same_l _ _ _ _ _ S1). cbv zeta in H. subst i.
    eapply moves_before; [exact H|apply rows_create_id|clear H; intros id d2 S2 H2]. rewrite <- (S2 _) in Hm.
    eapply moves_before; [exact H2|apply same_createCommand|clear H2; intros c d3 S3 H3]. rewrite <- (S3 _) in Hm.
    unfold record_remediation in H3. eapply moves_before; [exact H3|apply same_createRemediation|clear H3; intros v d4 S4 H4].
    rewrite <- (S4 _) in Hm. eff_inv H4 as s d5 E5; [injection E5 as _ <-; by apply same_moves|]. injection E5 as Hq <-.
    repeat skip_same H4 Hm. eapply update_after; [exact H4|exact Hm|exact Hq|by intros x|]. intros o. keeps_tac.
Qed.

Lemma control_moves c : keeps (moves (call_request c).1 (call_request c).2) (control c).
Proof.
  destruct c; apply discard_moves; [apply acknowledge_moves|apply start_moves|apply resolve_moves_call|apply verify_moves|apply reopen_moves
    |apply remediate_moves|apply failed_remediation_moves].
Qed.

Lemma moves_mild i q d d' : (forall o, q <> Verify o) -> moves i q d d' -> mild d d'.
Proof.
  intros Hq H k. destruct (H k) as [->|(m & m' & -> & -> & E1 & E2 & Hs)]; [apply mild_row_refl|]. split; [|congruence].
  apply rtc_once. by exists q.
Qed.
Lemma keeps_mild_same {A} (m : eff Db A) : keeps same_rows m -> keeps mild m.
Proof. intros H d r d' E. by eapply same_mild, H. Qed.

(** *** The worker *)

Lemma linked_update_mild i c e now : keeps mild (db_update_id i (fun m => touch now (linked_patch c e m))).
Proof.
  intros d r d' H k. destruct (db_update_id_law _ _ _ _ _ H (fun _ => eq_refl)) as [E|E]; rewrite E; [|apply mild_row_refl].
  destruct (row_of d k) as [m|]; [|done]. cbn. by case_decide.
Qed.
Lemma linked_mild i c e : keeps mild (updateMismatchById i (linked_patch c e)).
Proof.
  unfold updateMismatchById. apply keeps_bind; [typeclasses eauto|apply keeps_mild_same, now_same|intros now].
  apply keeps_bind; [typeclasses eauto|apply linked_update_mild|intros _]. apply keeps_mild_same, select_id_same.
Qed.
Lemma fail_remediation_moves w command context m : keeps (moves (rx_mismatchId context) RemediationFailed) (fail_remediation w command context m).
Proof.
  unfold fail_remediation. intros d r d' H. eapply moves_before; [exact H| |clear H; intros att d1 S1 H].
  { unfold getMismatchRemediationByCommandId. keeps_tac. }
  cbv beta in H. eff_inv H as o d2 E2; [apply same_moves; by eapply select_id_same|]. pose proof (select_id_same _ _ _ _ E2) as S2.
  apply (moves_same_l _ _ _ _ _ S2). destruct o as [x|].
  - destruct (select_id_row _ _ _ _ x E2 eq_refl) as [Hm Hi]. rewrite <- (S2 _) in Hm. eff_inv H as s d3 E3; [injection E3 as _ <-; by apply same_moves|].
    injection E3 as Hq <-. eapply moves_before; [exact H|apply event_same|clear H; intros e d4 S4 H]. rewrite <- (S4 _) in Hm.
    cbv beta in H. eapply moves_before; [exact H|keeps_tac|clear H; intros u d5 S5 H]. rewrite <- (S5 _) in Hm.
    repeat skip_same H Hm. rewrite <- Hi in *. by eapply update_after; [exact H|exact Hm|exact Hq| |intros o; keeps_tac].
  - apply same_moves. revert H. refine ((_ : keeps same_rows _) _ _ _). keeps_tac.
Qed.
Lemma record_failure_mild w command m : keeps mild (record_failure w command m).
Proof.
  unfold record_failure. apply keeps_bind; [typeclasses eauto|apply keeps_mild_same, now_same|intros now].
  apply keeps_bind; [typeclasses eauto| |intros res; apply keeps_mild_same; keeps_tac].
  intros d r d' H. apply rows_move_mild. by eapply upsert_moves.
Qed.
End Rows.

(** The operations of the runtime move the mismatches as the monitor and the
    reconciliation do, by which alone they write them
    ([own_operations_move]). *)
Class RuntimeOpsRows `{RO : RuntimeOps} `{ML : !MismatchDbLaws} := {
  mr_runCycle : forall t, keeps rows_move (ro_runCycle t);
  mr_runReconciliation : forall a b c, keeps rows_move (ro_runReconciliation a b c);
  mr_runTreasuryEvaluation : forall a b, keeps rows_move (ro_runTreasuryEvaluation a b);
  mr_runCarryEvaluation : forall i, keeps rows_move (ro_runCarryEvaluation i);
  mr_runAllocatorEvaluation : forall a b c, keeps rows_move (ro_runAllocatorEvaluation a b c);
  mr_executeCarryAction : forall i, keeps rows_move (ro_executeCarryAction i);
  mr_executeTreasuryAction : forall i, keeps rows_move (ro_executeTreasuryAction i);
  mr_executeRebalanceProposal : forall i, keeps rows_move (ro_executeRebalanceProposal i);
  mr_rebuildProjections : forall s, keeps rows_move (ro_rebuildProjections s);
}.

Section Polls.
Context `{IL : MismatchIdLaws} `{RO : !RuntimeOps} `{RR : !RuntimeOpsRows}.

#[local] Hint Resolve rows_create_id rows_insert_command rows_pending rows_command rows_update_command rows_last_attempt
  rows_insert_remediation rows_remediation rows_update_remediation rows_event rows_worker rows_insert_worker rows_update_worker
  rows_runtime rows_recovery rows_update_recovery select_same select_id_same event_same now_same same_mapRemediation
  same_updateRemediation : keeps.
Lemma same_complete id result : keeps same_rows (completeRuntimeCommand id result).
Proof. unfold completeRuntimeCommand, getRuntimeCommand. keeps_tac. Qed.
Lemma same_fail id m : keeps same_rows (failRuntimeCommand id m).
Proof. unfold failRuntimeCommand, getRuntimeCommand. keeps_tac. Qed.
Lemma same_worker p : keeps same_rows (updateWorkerStatus p).
Proof. unfold updateWorkerStatus. keeps_tac. Qed.
Lemma same_runtimeStatus : keeps same_rows getRuntimeStatus.
Proof. unfold getRuntimeStatus. keeps_tac. Qed.
Lemma same_byCommand c : keeps same_rows (getMismatchRemediationByCommandId c).
Proof. unfold getMismatchRemediationByCommandId. keeps_tac. Qed.
Lemma same_recovery id p : keeps same_rows (updateRebalanceBundleRecoveryAction id p).
Proof. unfold updateRebalanceBundleRecoveryAction. keeps_tac. Qed.
#[local] Hint Resolve same_complete same_fail same_worker same_runtimeStatus same_byCommand same_recovery : keeps.
Lemma same_claim w : keeps same_rows (tick_claim w).
Proof. unfold tick_claim, claimNextPendingCommand, claim_pending, getRuntimeCommand. keeps_tac. Qed.
Lemma same_complete_recovery id s o : keeps same_rows (complete_recovery id s o).
Proof. unfold complete_recovery. keeps_tac. Qed.
Lemma same_finish w c rem result fields runId m details : keeps same_rows fields ->
  keeps same_rows (finish_command w c rem result fields runId m details).
Proof. intros Hf. unfold finish_command. keeps_tac. Qed.
Lemma same_fields runId : keeps same_rows (run_fields runId).
Proof. unfold run_fields. keeps_tac. Qed.
Lemma same_no_fields : keeps same_rows no_fields.
Proof. apply keeps_ret; typeclasses eauto. Qed.
#[local] Hint Resolve same_claim same_complete_recovery same_finish same_fields same_no_fields : keeps.

Lemma keeps_mild_move {A} (m : eff Db A) : keeps rows_move m -> keeps mild m.
Proof. intros H d r d' E. by eapply rows_move_mild, H. Qed.
#[local] Hint Resolve keeps_mild_same keeps_mild_move mr_runCycle mr_runReconciliation mr_runTreasuryEvaluation mr_runCarryEvaluation
  mr_runAllocatorEvaluation mr_executeCarryAction mr_executeTreasuryAction mr_executeRebalanceProposal mr_rebuildProjections linked_mild
  record_failure_mild : keeps.
Lemma complete_remediation_mild c rem e : keeps mild (complete_remediation c rem e).
Proof. unfold complete_remediation. keeps_tac. Qed.
Lemma start_remediation_mild c rem e : keeps mild (start_remediation c rem e).
Proof. unfold start_remediation. keeps_tac. Qed.
Lemma fail_remediation_mild w c x m : keeps mild (fail_remediation w c x m).
Proof. intros d r d' H. by eapply (moves_mild (rx_mismatchId x) RemediationFailed), fail_remediation_moves. Qed.
#[local] Hint Resolve complete_remediation_mild start_remediation_mild fail_remediation_mild : keeps.
Lemma run_command_mild w c rem rec : keeps mild (run_command w c rem rec).
Proof.
  unfold run_command, run_cycle_command, run_reconciliation_command, run_treasury_command, run_carry_command, run_allocator_command,
    execute_carry_command, execute_treasury_command, execute_rebalance_command, rebuild_projections_command. cbv zeta.
  destruct (rc_commandType c); keeps_tac.
Qed.
Lemma fail_command_mild w c rem rec e : keeps mild (fail_command w c rem rec e).
Proof. unfold fail_command. keeps_tac. Qed.
Lemma execute_mild w c : keeps mild (executeCommand w c).
Proof.
  unfold executeCommand, start_command. cbv zeta. apply keeps_bind; [typeclasses eauto|keeps_tac|intros _].
  apply keeps_catch; [typeclasses eauto|apply run_command_mild|intros e; apply fail_command_mild].
Qed.
Lemma cycle_mild : keeps mild executeScheduledCycle.
Proof.
  unfold executeScheduledCycle. do 2 (apply keeps_bind; [typeclasses eauto|keeps_tac|intros ?]).
  apply keeps_catch; [typeclasses eauto|keeps_tac|intros e; keeps_tac].
Qed.

(** A poll of the worker moves no mismatch by a verification. *)
Lemma poll_mild (s : W) : mild s.2 (tick s).2.2.
Proof.
  assert (HR : PreOrder (fun a b : W => mild a.2 b.2)). { split; [intros a; reflexivity|]. intros a b c ? ?. by etrans. }
  assert (HK : forall A (m : eff Db A), keeps mild m -> keeps (fun a b : W => mild a.2 b.2) (on_db m)).
  { intros A m Hm s0 r0 s1 E. apply on_db_inv in E as [E _]. by eapply Hm. }
  cut (keeps (fun a b : W => mild a.2 b.2) tick); [intros K; apply (K s (tick s).1); apply surjective_pairing|].
  assert (HS : keeps (fun a b : W => mild a.2 b.2) self). { intros s0 r0 s1 [= _ <-]. reflexivity. }
  assert (HN : forall t, keeps (fun a b : W => mild a.2 b.2) (set_next t)). { intros t [w d] r0 s1 [= _ <-]. reflexivity. }
  pose proof execute_mild. pose proof cycle_mild. unfold tick, reschedule. keeps_tac.
Qed.
End Polls.

(** ** Who verifies a mismatch *)

Section History.
Context `{DL : DecimalLib} `{IL : MismatchIdLaws} `{RO : !RuntimeOps}.
Context `{MQ : !MonitorQueries} `{QL : !MonitorQueriesLaws} `{RD : !ReconDb} `{RL : !ReconDbLaws} `{RQ : !ReconQueries} `{RQL : !ReconQueriesLaws}
  `{VQ : !VenueQueries} `{VL : !VenueQueriesLaws}.
Context (adapters : list (string * VenueAdapter)) (truthAdapters : list (string * eff Db VenueCapability)).
Hypothesis adapters_quiet : forall va, va ∈ adapters -> quiet_adapter va.2.
Hypothesis truth_quiet : forall va, va ∈ truthAdapters -> keeps same_rows va.2.

(** What an operation of the runtime does to the mismatches from statement to
    statement: nothing, a call of the health monitor, a reconciliation run. *)
Inductive own_step : Db -> Db -> Prop :=
  | own_quiet d d' : same_rows d d' -> own_step d d'
  | own_monitor c d : own_step d (monitor_call c d).2
  | own_reconcile input d : own_step d (Reconciliation.run adapters truthAdapters input d).2.
(** The operations that a poll starts write mismatches by the monitor and the
    reconciliation only. *)
Class OwnOperations : Prop := {
  own_runCycle : forall t, keeps (rtc own_step) (ro_runCycle t);
  own_runReconciliation : forall a b c, keeps (rtc own_step) (ro_runReconciliation a b c);
  own_runTreasuryEvaluation : forall a b, keeps (rtc own_step) (ro_runTreasuryEvaluation a b);
  own_runCarryEvaluation : forall i, keeps (rtc own_step) (ro_runCarryEvaluation i);
  own_runAllocatorEvaluation : forall a b c, keeps (rtc own_step) (ro_runAllocatorEvaluation a b c);
  own_executeCarryAction : forall i, keeps (rtc own_step) (ro_executeCarryAction i);
  own_executeTreasuryAction : forall i, keeps (rtc own_step) (ro_executeTreasuryAction i);
  own_executeRebalanceProposal : forall i, keeps (rtc own_step) (ro_executeRebalanceProposal i);
  own_rebuildProjections : forall s, keeps (rtc own_step) (ro_rebuildProjections s);
}.
Context `{OW : !OwnOperations}.

Lemma own_steps_move d d' : rtc own_step d d' -> rows_move d d'.
Proof.
  induction 1 as [|d d1 d' Hs _ IH]; [reflexivity|]. etrans; [|exact IH]. destruct Hs as [d d1 H|c d|input d].
  - by apply same_rows_move.
  - apply (call_moves c d _ _ (surjective_pairing _)).
  - eapply run_moves; [done|done|intros k1 k2 m1 m2; apply row_ids|apply surjective_pairing].
Qed.
#[local] Instance own_operations_move : RuntimeOpsRows.
Proof.
  split; intros; intros d r d' H; apply own_steps_move; revert H;
    [apply own_runCycle|apply own_runReconciliation|apply own_runTreasuryEvaluation|apply own_runCarryEvaluation
    |apply own_runAllocatorEvaluation|apply own_executeCarryAction|apply own_executeTreasuryAction
    |apply own_executeRebalanceProposal|apply own_rebuildProjections].
Qed.

(** What touches the mismatches: a call of the control plane, a poll of a worker
    in some state, an operation of the health monitor, a reconciliation run. *)
Inductive runtime_event :=
  | ev_control (c : control_call)
  | ev_poll (w : Worker)
  | ev_monitor (c : MonitorCall)
  | ev_reconcile (input : RunInput).
(** The database after an event, however it ends. *)
Definition after (e : runtime_event) (d : Db) : Db :=
  match e with
  | ev_control c => (control c d).2
  | ev_poll w => (tick (w, d)).2.2
  | ev_monitor c => (monitor_call c d).2
  | ev_reconcile input => (Reconciliation.run adapters truthAdapters input d).2
  end.

(** What an event may do to the row of a key. *)
Definition event_row (e : runtime_event) (o o' : option RuntimeMismatchView) : Prop :=
  match e with
  | ev_control c => o' = o \/ exists m m', o = Some m /\ o' = Some m' /\ mm_id m = (call_request c).1 /\ mm_id m' = mm_id m /\
      next_status (call_request c).2 (mm_status m) = Ret (mm_status m')
  | ev_poll _ => mild_row o o'
  | ev_monitor _ | ev_reconcile _ => row_moves o o'
  end.
Lemma after_rows e d k : event_row e (row_of d k) (row_of (after e d) k).
Proof.
  destruct e as [c|w|c|input]; cbn [after event_row].
  - destruct (control_moves c d _ _ (surjective_pairing _) k) as [E|(m & m' & E & E' & Hi & Hi' & Hs)]; [by left|].
    right. exists m, m'. split_and!; [done..|congruence|done].
  - apply (poll_mild (w, d)).
  - apply (call_moves c d _ _ (surjective_pairing _)).
  - eapply run_moves; [done|done|intros k1 k2 m1 m2; apply row_ids|apply surjective_pairing].
Qed.

Lemma event_row_mild e m o' : (forall c, e <> ev_control c) -> event_row e (Some m) o' ->
  exists m', o' = Some m' /\ mm_id m' = mm_id m /\ rtc mild_step (mm_status m) (mm_status m').
Proof.
  intros He H. assert (M : mild_row (Some m) o').
  { destruct e as [c|w|c|i]; [by destruct (He c)|exact H|by apply row_moves_mild|by apply row_moves_mild]. }
  destruct o' as [m'|]; [|done]. destruct M as [M Hi]. by exists m'.
Qed.

(** A verified mismatch was verified before, or the event verified it. *)
Lemma verified_by e o m : event_row e o (Some m) -> mm_status m = ms_verified -> exists m0, o = Some m0 /\ mm_id m0 = mm_id m /\
  (mm_status m0 = ms_verified \/
   mm_status m0 = ms_resolved /\ exists actor summary, e = ev_control (call_verify (mm_id m) actor summary vo_verified)).
Proof.
  intros H Hv. assert (Hmild : mild_row o (Some m) -> exists m0, o = Some m0 /\ mm_id m0 = mm_id m /\ mm_status m0 = ms_verified).
  { intros M. destruct o as [m0|]; cbn in M; [|by apply mild_verified in M]. destruct M as [M Hi].
    exists m0. split_and!; [done..|]. by eapply mild_verified. }
  destruct e as [c|w|c|i]; [|destruct Hmild as (m0 & ? & ? & ?); [first [exact H|by apply row_moves_mild]|exists m0; split_and!; [done..|by left]]..].
  destruct H as [E|(m0 & m1 & E & E1 & Hi & Hi1 & Hs)]; [symmetry in E; exists m; split_and!; [done..|by left]|].
  injection E1 as <-. exists m0. split_and!; [done..|]. rewrite Hv in Hs. apply next_status_step in Hs.
  inversion Hs as [| | | |st Hin Hst Hb Hc| |]; subst. apply elem_of_cons in Hin as [Hr|Hin%list_elem_of_singleton]; [|by left].
  right. split; [done|]. destruct c; try done. injection Hb as <-. cbn in Hi. exists actorId, summary. rewrite Hi1, Hi. done.
Qed.

(** A history of a database that began without mismatches: the events so far,
    each with the state it found. *)
Inductive history : list (Db * runtime_event) -> Db -> Prop :=
  | history_start d : (forall k, row_of d k = None) -> history [] d
  | history_event h d e : history h d -> history (h ++ [(d, e)]) (after e d).

Definition is_verified (k i : string) (d : Db) : Prop := exists m, row_of d k = Some m /\ mm_id m = i /\ mm_status m = ms_verified.

(** A call verified the mismatch [i] of key [k] when it was resolved, and it has
    been verified in every state since. *)
Definition verified_in (h : list (Db * runtime_event)) (k i : string) : Prop :=
  exists h1 d0 actor summary h2 m0, h = h1 ++ (d0, ev_control (call_verify i actor summary vo_verified)) :: h2 /\
    row_of d0 k = Some m0 /\ mm_id m0 = i /\ mm_status m0 = ms_resolved /\ Forall (fun x => is_verified k i x.1) h2.

Lemma history_verified h d k m : history h d -> row_of d k = Some m -> mm_status m = ms_verified -> verified_in h k (mm_id m).
Proof.
  intros H. revert m. induction H as [d H0|h d e _ IH]; intros m Hm Hv; [by rewrite H0 in Hm|].
  pose proof (after_rows e d k) as R. rewrite Hm in R. apply verified_by in R as (m0 & E & Hi & R); [|done].
  destruct R as [R|(R & actor & summary & ->)].
  - destruct (IH _ E R) as (h1 & d0 & a & sm & h2 & m1 & -> & H1 & H2 & H3 & H4). rewrite Hi in *.
    exists h1, d0, a, sm, (h2 ++ [(d, e)]), m1. split_and!; [by rewrite <- app_assoc|done|done|done|].
    apply Forall_app. split; [done|]. constructor; [by exists m0|done].
  - exists h, d, actor, summary, [], m0. by split_and!.
Qed.

(** C12. The runtime follows the lifecycle, and only operators verify.  Take any
    history of calls of the control plane, polls of workers, operations of the
    health monitor and reconciliation runs, that succeed, are refused or fail
    anywhere, on a database that began without mismatches.  If a mismatch is
    verified, then a verification by the control plane found that mismatch
    resolved, and it has been verified in every state since.  From the state
    reached, a call of the control plane leaves every mismatch as it is but the
    one it names, which it may move by the very lifecycle request of the call;
    a poll moves mismatches by lifecycle steps that are no verifications;
    the monitor and a reconciliation, only by steps to resolved or reopened; and
    none of these loses a mismatch or changes its id.  Of the operations that a
    poll starts it is used that they write mismatches by the monitor and the
    reconciliation only ([OwnOperations]). *)
Theorem only_operators_verify (h : list (Db * runtime_event)) (d : Db) (k : string) (m : RuntimeMismatchView) :
  history h d -> row_of d k = Some m ->
  (mm_status m = ms_verified -> verified_in h k (mm_id m)) /\
  (forall c, exists m', row_of (after (ev_control c) d) k = Some m' /\
     (m' = m \/ mm_id m = (call_request c).1 /\ mm_id m' = mm_id m /\ next_status (call_request c).2 (mm_status m) = Ret (mm_status m'))) /\
  (forall w, exists m', row_of (after (ev_poll w) d) k = Some m' /\ mm_id m' = mm_id m /\ rtc mild_step (mm_status m) (mm_status m')) /\
  (forall e, (exists c, e = ev_monitor c) \/ (exists input, e = ev_reconcile input) ->
     exists m', row_of (after e d) k = Some m' /\ mm_id m' = mm_id m /\ rtc auto_step (mm_status m) (mm_status m')).
Proof.
  intros H Hm. assert (R : forall e, event_row e (Some m) (row_of (after e d) k)) by (intros e; rewrite <- Hm; apply after_rows).
  split_and!.
  - by eapply history_verified.
  - intros c. destruct (R (ev_control c)) as [E|(m0 & m' & [= <-] & E & Hi & Hi' & Hs)]; [exists m|exists m']; (split; [exact E|]); [by left|by right].
  - intros w. by apply (event_row_mild (ev_poll w)).
  - intros e He. specialize (R e). destruct (row_of (after e d) k) as [m'|].
    + exists m'. split; [done|]. by destruct He as [[c ->]|[i ->]]; destruct R.
    + by destruct He as [[c ->]|[i ->]]; destruct R.
Qed.
End History.

(** ** Tables with unique ids and keys, in memory *)

Definition keyed (t : Tables) : bool :=
  let rows := md_rows (tb_mismatches t) in bool_decide (NoDup (map mm_id rows)) && bool_decide (NoDup (map mm_dedupeKey rows)).
Record KeyedTables := MkKeyed { kt : Tables; kt_keyed : keyed kt = true }.
Definition duplicate_key : JsError := Error_ "duplicate key value violates unique constraint".
(** A statement that would break a constraint fails. *)
Definition guarded {A} (m : eff Tables A) : eff KeyedTables A := fun d =>
  let '(r, t) := m (kt d) in
  match Sumbool.sumbool_of_bool (keyed t) with left H => (r, MkKeyed t H) | right _ => (Throw duplicate_key, d) end.
Lemma guarded_inv {A} (m : eff Tables A) d r d' : guarded m d = (r, d') -> m (kt d) = (r, kt d') \/ (d' = d /\ r = Throw duplicate_key).
Proof.
  unfold guarded. destruct (m (kt d)) as [r0 t]. destruct (Sumbool.sumbool_of_bool (keyed t)) as [H|H]; intros [= <- <-]; [by left|by right].
Qed.
Definition keyed_rows (d : KeyedTables) : list RuntimeMismatchView := md_rows (tb_mismatches (kt d)).

#[export] Instance keyed_mismatches : MismatchDb := {|
  Db := KeyedTables;
  db_select k := guarded (db_select (MismatchDb := tables_mismatches) k);
  db_select_id i := guarded (db_select_id (MismatchDb := tables_mismatches) i);
  db_insert mk := guarded (db_insert (MismatchDb := tables_mismatches) mk);
  db_update k f := guarded (db_update (MismatchDb := tables_mismatches) k f);
  db_update_id i f := guarded (db_update_id (MismatchDb := tables_mismatches) i f);
  db_list n sk := guarded (db_list (MismatchDb := tables_mismatches) n sk);
  db_insert_event e := guarded (db_insert_event (MismatchDb := tables_mismatches) e);
  db_now := guarded (db_now (MismatchDb := tables_mismatches));
|}.
#[export] Instance keyed_commands : CommandDb (MD := keyed_mismatches) := {|
  cd_create_id := guarded (cd_create_id (CommandDb := tables_commands)) : eff (@Db keyed_mismatches) _;
  cd_insert_command id mk := guarded (cd_insert_command (CommandDb := tables_commands) id mk) : eff (@Db keyed_mismatches) _;
  cd_pending := guarded (cd_pending (CommandDb := tables_commands)) : eff (@Db keyed_mismatches) _;
  cd_command id := guarded (cd_command (CommandDb := tables_commands) id) : eff (@Db keyed_mismatches) _;
  cd_update_command id c f := guarded (cd_update_command (CommandDb := tables_commands) id c f) : eff (@Db keyed_mismatches) _;
  cd_last_attempt m := guarded (cd_last_attempt (CommandDb := tables_commands) m) : eff (@Db keyed_mismatches) _;
  cd_insert_remediation mk := guarded (cd_insert_remediation (CommandDb := tables_commands) mk) : eff (@Db keyed_mismatches) _;
  cd_remediation p := guarded (cd_remediation (CommandDb := tables_commands) p) : eff (@Db keyed_mismatches) _;
  cd_update_remediation id f := guarded (cd_update_remediation (CommandDb := tables_commands) id f) : eff (@Db keyed_mismatches) _;
  cd_event id := guarded (cd_event (CommandDb := tables_commands) id) : eff (@Db keyed_mismatches) _;
  cd_worker := guarded (cd_worker (CommandDb := tables_commands)) : eff (@Db keyed_mismatches) _;
  cd_insert_worker w := guarded (cd_insert_worker (CommandDb := tables_commands) w) : eff (@Db keyed_mismatches) _;
  cd_update_worker f := guarded (cd_update_worker (CommandDb := tables_commands) f) : eff (@Db keyed_mismatches) _;
  cd_runtime := guarded (cd_runtime (CommandDb := tables_commands)) : eff (@Db keyed_mismatches) _;
  cd_recovery id := guarded (cd_recovery (CommandDb := tables_commands) id) : eff (@Db keyed_mismatches) _;
  cd_update_recovery id f := guarded (cd_update_recovery (CommandDb := tables_commands) id f) : eff (@Db keyed_mismatches) _;
|}.

Lemma on_mismatches_inv {A} (m : eff (@Db memory_db) A) d r d' : on_mismatches m d = (r, d') -> m (tb_mismatches d) = (r, tb_mismatches d').
Proof. unfold on_mismatches. destruct (m (tb_mismatches d)) as [r0 x]. by intros [= <- <-]. Qed.
(** A statement of the keyed tables is the one of the tables in memory, or fails
    and changes nothing. *)
Lemma keyed_inv {A} (m : eff (@Db memory_db) A) d r d' : guarded (on_mismatches m) d = (r, d') ->
  m (tb_mismatches (kt d)) = (r, tb_mismatches (kt d')) \/ (d' = d /\ r = Throw duplicate_key).
Proof. intros [H|H]%guarded_inv; [left; by apply on_mismatches_inv|by right]. Qed.
Lemma keyed_unique d : NoDup (map mm_id (keyed_rows d)) /\ NoDup (map mm_dedupeKey (keyed_rows d)).
Proof. pose proof (kt_keyed d) as H. unfold keyed in H. by apply andb_true_iff in H as [?%bool_decide_eq_true ?%bool_decide_eq_true]. Qed.

Notation memory_row d := (row_of (MD := memory_db) (tb_mismatches (kt d))).
#[export] Program Instance keyed_laws : MismatchDbLaws (MD := keyed_mismatches) := {|
  row_of := fun (d : @Db keyed_mismatches) k => memory_row d k
|}.
Next Obligation. intros d k r. apply (row_key (MD := memory_db)). Qed.
Next Obligation.
  intros k d r d' [H|[-> ->]]%keyed_inv; [|by split]. exact (db_select_law (MD := memory_db) _ _ _ _ H).
Qed.
Next Obligation. intros i d r d' [H|[-> ->]]%keyed_inv; [|done]. exact (db_select_id_law (MD := memory_db) _ _ _ _ H). Qed.
Next Obligation.
  intros mk k d r d' [H|[-> ->]]%keyed_inv Hk Hn; [|by right]. exact (db_insert_law (MD := memory_db) _ _ _ _ _ H Hk Hn).
Qed.
Next Obligation. intros k f d r d' [H|[-> ->]]%keyed_inv Hf; [|by right]. exact (db_update_law (MD := memory_db) _ _ _ _ _ H Hf). Qed.
Next Obligation. intros i f d r d' [H|[-> ->]]%keyed_inv Hf; [|by right]. exact (db_update_id_law (MD := memory_db) _ _ _ _ _ H Hf). Qed.
Next Obligation. intros n sk d r d' [H|[-> ->]]%keyed_inv; [|by split]. exact (db_list_law (MD := memory_db) _ _ _ _ _ H). Qed.
Next Obligation.
  intros e d r d' [H|[-> ->]]%guarded_inv k'; [|done]. cbn in H. cbn. case_bool_decide; injection H as _ <-; done.
Qed.
Next Obligation. intros d r d' [H|[-> ->]]%keyed_inv; [|done]. exact (db_now_law (MD := memory_db) _ _ _ H). Qed.

Lemma guarded_same {A} (m : eff Tables A) : (forall t, md_rows (tb_mismatches (m t).2) = md_rows (tb_mismatches t)) ->
  keeps (same_rows (MD := keyed_mismatches)) (guarded m : eff (@Db keyed_mismatches) A).
Proof.
  intros Hm d r d' [H|[-> _]]%guarded_inv k; [|done]. specialize (Hm (kt d)). rewrite H in Hm. cbn in *. by rewrite Hm.
Qed.
#[export] Program Instance keyed_id_laws : MismatchIdLaws (MD := keyed_mismatches) (CD := keyed_commands).
Next Obligation.
  intros d k k' m m' Hm Hm' Hid. cbn in Hm, Hm'. pose proof (find_key_key _ _ _ _ Hm) as <-. pose proof (find_key_key _ _ _ _ Hm') as <-.
  apply find_some in Hm as [Hm _], Hm' as [Hm' _]. f_equal.
  destruct (keyed_unique d) as [Hu _]. pose proof (find_key_in mm_id _ _ Hu (proj2 (list_elem_of_In _ _) Hm)) as E.
  pose proof (find_key_in mm_id _ _ Hu (proj2 (list_elem_of_In _ _) Hm')) as E'. congruence.
Qed.
Next Obligation.
  intros i d r d' m [H|[-> ->]]%keyed_inv Hr; [|done]. cbn in H. injection H as <- _. injection Hr as Hf. apply find_some in Hf as [Hin Hi%String.eqb_eq].
  split; [|done]. cbn. apply find_key_in; [apply (keyed_unique d)|by apply list_elem_of_In].
Qed.
Solve All Obligations with
  (intros; apply guarded_same; intros t; cbn; repeat first [case_bool_decide | case_match]; done).

(** *** A mismatch and its verification *)

Definition no_mismatches : KeyedTables := MkKeyed (ready_tables [] None) eq_refl.
Definition found_tables : KeyedTables := (upsertMismatch (MD := keyed_mismatches) open_mismatch no_mismatches).2.
Definition resolve_call : control_call := call_resolve "mismatch-0" "olga" "rebuilt" None None.
Definition verify_call : control_call := call_verify "mismatch-0" "ada" "checked" vo_verified.
Definition after_control (c : control_call) (d : KeyedTables) : KeyedTables := (control (CD := keyed_commands) c d).2.
Definition verified_tables : KeyedTables := after_control verify_call (after_control resolve_call found_tables).
Definition control_refused (c : control_call) (d : KeyedTables) : option string := error_of (control (CD := keyed_commands) c d).1.
Definition row_statuses (d : KeyedTables) : list RuntimeMismatchStatus := map mm_status (keyed_rows d).

Example verification_takes_two : row_statuses found_tables = [ms_open] /\ row_statuses verified_tables = [ms_verified].
Proof. vm_compute. done. Qed.
Example open_is_not_verified : control_refused verify_call found_tables
  = Some ("Cannot verify mismatch from status " +:+ quoted "open" +:+ ". Allowed statuses: resolved, verified.").
Proof. vm_compute. done. Qed.
Example summary_required : control_refused (call_reopen "mismatch-0" "olga" "  ") verified_tables = Some "Mismatch reopen summary is required.".
Proof. vm_compute. done. Qed.

(** The other reads of the runtime find nothing here. *)
Definition answer {A} (a : A) : eff (@Db keyed_mismatches) A := fun d => (Ret a, d).
Lemma answer_same {A} (a : A) : keeps (same_rows (MD := keyed_mismatches) (ML := keyed_laws)) (answer a).
Proof. by intros d r d' [= _ <-]. Qed.
#[local] Instance keyed_queries : MonitorQueries (MD := keyed_mismatches) := {|
  db_count_approved_intents _ := answer None; db_count_orders _ := answer None; db_runtime_state := answer None;
  db_risk_current := answer None; db_portfolio_current := answer None; db_latest_completed_run := answer None |}.
#[local] Instance keyed_recon : ReconDb (MD := keyed_mismatches) := {|
  db_insert_run mk := answer (Some (mk "recon-1" 0)); db_select_run _ := answer None; db_update_run _ _ := answer tt;
  db_latest_run := answer None; db_latest_completed_reconciliation := answer None; db_insert_finding mk := answer (Some (mk "finding-1" 0));
  db_list_findings _ _ := answer []; db_audit _ := answer tt; db_create_id := answer "id-1" |}.
#[local] Instance keyed_recon_queries : ReconQueries (MQ := keyed_queries) := {|
  ReconcileDetect.getRuntimeStatus := answer (MkRuntimeStatus pj_fresh None); getLatestPortfolioSnapshotRow := answer None;
  getLatestRiskSnapshotRow := answer None; getPortfolioCurrentRow := answer None; getRiskCurrentRow := answer None;
  listRuntimeCommands _ := answer []; getStrategyRun _ := answer None; listOrdersByVenue _ := answer []; listPositionsByVenue _ := answer [] |}.
#[local] Instance keyed_venue_queries : VenueQueries (RQ := keyed_recon_queries) := {|
  listVenues _ := answer []; listExpectedVenueExecutionReferences _ _ := answer []; listVenueSnapshots _ _ := answer [];
  getVenueComparisonDetail _ := answer None; getInternalDerivativeSourceWatermark _ := answer None |}.
#[local] Instance keyed_queries_laws : MonitorQueriesLaws (MQ := keyed_queries) (ML := keyed_laws).
Proof. split; intros; apply answer_same. Qed.
#[local] Instance keyed_recon_laws : ReconDbLaws (RD := keyed_recon) (ML := keyed_laws).
Proof. split; intros; apply answer_same. Qed.
#[local] Instance keyed_recon_queries_laws : ReconQueriesLaws (RQ := keyed_recon_queries) (ML := keyed_laws).
Proof. split; intros; apply answer_same. Qed.
#[local] Instance keyed_venue_queries_laws : VenueQueriesLaws (VQ := keyed_venue_queries) (ML := keyed_laws).
Proof. split; intros; apply answer_same. Qed.

(** A runtime whose cycle settles the runtime failure, and which reconciles. *)
Notation keyed_reconciliation := (Reconciliation.run (DL := exact_decimal) (VQ := keyed_venue_queries) (RD := keyed_recon) [] []).
#[local] Instance keyed_runtime : RuntimeOps (MD := keyed_mismatches) := {|
  ro_runCycle _ := (_ ← resolveRuntimeFailure (MD := keyed_mismatches) "sentinel-runtime" (Some "run-1"); mret (MkCycleOutcome "run-1" []));
  ro_runReconciliation t r b := (_ ← keyed_reconciliation (MkRunInput t "sentinel-runtime" r b); mret []);
  ro_runTreasuryEvaluation _ _ := answer []; ro_runCarryEvaluation _ := answer []; ro_runAllocatorEvaluation _ _ _ := answer [];
  ro_executeCarryAction _ := answer []; ro_executeTreasuryAction _ := answer []; ro_executeRebalanceProposal _ := answer [];
  ro_rebuildProjections _ := answer []; ro_close := answer tt |}.
Lemma no_adapters (va : string * VenueAdapter (MD := keyed_mismatches)) : va ∈ [] -> quiet_adapter (ML := keyed_laws) va.2.
Proof. by intros ?%elem_of_nil. Qed.
Lemma no_truth_adapters (va : string * eff (@Db keyed_mismatches) VenueCapability) : va ∈ [] -> keeps (same_rows (ML := keyed_laws)) va.2.
Proof. by intros ?%elem_of_nil. Qed.
Notation keyed_step := (own_step (DL := exact_decimal) (ML := keyed_laws) (MQ := keyed_queries) (RD := keyed_recon) (RQ := keyed_recon_queries)
  (VQ := keyed_venue_queries) [] []).
Lemma answer_own {A} (a : A) : keeps (rtc keyed_step) (answer a).
Proof. intros d r d' [= _ <-]. reflexivity. Qed.
#[local] Instance keyed_operations : OwnOperations (DL := exact_decimal) (ML := keyed_laws) (RO := keyed_runtime) (MQ := keyed_queries)
  (RD := keyed_recon) (RQ := keyed_recon_queries) (VQ := keyed_venue_queries) [] [].
Proof.
  split; intros; try apply answer_own; cbn [ro_runCycle ro_runReconciliation keyed_runtime]; (apply keeps_bind;
    [typeclasses eauto| |intros _; apply keeps_ret; typeclasses eauto]); intros d r d' H; apply rtc_once.
  - replace d' with (monitor_call (MQ := keyed_queries) (ResolveFailure "sentinel-runtime" (Some "run-1")) d).2 by (cbn [monitor_call]; by rewrite H).
    apply own_monitor.
  - match type of H with Reconciliation.run _ _ ?i _ = _ => replace d' with (keyed_reconciliation i d).2 by (by rewrite H) end.
    apply own_reconcile.
Qed.

Notation keyed_after := (after (DL := exact_decimal) (CD := keyed_commands) (RO := keyed_runtime) (MQ := keyed_queries) (RD := keyed_recon)
  (RQ := keyed_recon_queries) (VQ := keyed_venue_queries) [] []).
Notation keyed_history := (history (DL := exact_decimal) (CD := keyed_commands) (RO := keyed_runtime) (MQ := keyed_queries) (RD := keyed_recon)
  (RQ := keyed_recon_queries) (VQ := keyed_venue_queries) (ML := keyed_laws) [] []).
(** The monitor finds a failure; an operator resolves and another verifies it;
    a worker polls and a reconciliation runs. *)
Definition sample_events : list runtime_event :=
  [ev_monitor (RecordFailure "worker" None "boom"); ev_control resolve_call; ev_control verify_call; ev_poll sample_worker;
   ev_reconcile (MkRunInput "manual" "worker" None None)].
Definition replay (es : list runtime_event) (d : KeyedTables) : KeyedTables := fold_left (fun d e => keyed_after e d) es d.
Lemma replay_history es : exists h, keyed_history h (replay es no_mismatches).
Proof.
  induction es as [|e es IH] using rev_ind; [exists []; by constructor|]. destruct IH as (h & IH). eexists.
  unfold replay. rewrite fold_left_app. by apply history_event.
Qed.
Example sample_statuses :
  map (fun n => row_statuses (replay (firstn n sample_events) no_mismatches)) [1; 2; 3; 4; 5]%nat =
  [[ms_open]; [ms_resolved]; [ms_verified]; [ms_verified]; [ms_verified]].
Proof. vm_compute. reflexivity. Qed.

Lemma only_operators_verify_witness : exists h m, row_of (MD := keyed_mismatches) (replay sample_events no_mismatches) "runtime_failure:primary" = Some m /\
  mm_status m = ms_verified /\ verified_in (ML := keyed_laws) h "runtime_failure:primary" (mm_id m) /\
  exists m', row_of (MD := keyed_mismatches) (keyed_after (ev_control (call_reopen "mismatch-0" "olga" "again")) (replay sample_events no_mismatches))
    "runtime_failure:primary" = Some m' /\ next_status Reopen (mm_status m) = Ret (mm_status m').
Proof.
  destruct (row_of (MD := keyed_mismatches) (replay sample_events no_mismatches) "runtime_failure:primary") as [m|] eqn:E;
    [|vm_compute in E; discriminate].
  assert (Hv : mm_status m = ms_verified). { vm_compute in E. injection E as <-. reflexivity. }
  destruct (replay_history sample_events) as (h & H). exists h, m. split; [reflexivity|]. split; [exact Hv|].
  destruct (only_operators_verify (DL := exact_decimal) (IL := keyed_id_laws) (OW := keyed_operations) [] [] no_adapters no_truth_adapters h _ _ m H E) as (H1 & H2 & _).
  split; [exact (H1 Hv)|]. destruct (H2 (call_reopen "mismatch-0" "olga" "again")) as (m' & E' & H3). exists m'. split; [exact E'|].
  destruct H3 as [->|(_ & _ & H3)]; [|exact H3].
  assert (B : (mm_status <$> row_of (MD := keyed_mismatches) (keyed_after (ev_control (call_reopen "mismatch-0" "olga" "again"))
    (replay sample_events no_mismatches)) "runtime_failure:primary") = Some ms_reopened) by (vm_compute; reflexivity).
  rewrite E' in B. injection B as B. rewrite Hv in B. discriminate B.
Defined.
