(* ===== verification/TreasuryVenues.v ===== *)
(** * Treasury venue adapters (packages/venue-adapters: treasury-venue-adapter.ts, simulated-treasury-venue-adapter.ts,
      pusd-treasury-adapter.ts)

    What the runtime sees of a treasury venue, the simulated venue, whose
    balances are numbers kept as text with two decimals, and the adapter of the
    PUSD vault, which executes nothing. *)
From Stdlib Require Import SpecFloat.
From S2P Require Import Prelude JsNumber JsValue JsText DecimalLib TreasuryPolicy TreasuryPlanner.
Open Scope Z_scope.

(** ** The interface *)

Record TreasuryVenueState := MkTreasuryVenueState {
  tvs_venueId : string;
  tvs_venueName : string;
  tvs_mode : TreasuryVenueMode;
  tvs_liquidityTier : TreasuryLiquidityTier;
  tvs_healthy : bool;
  tvs_aprBps : num;
  tvs_availableCapacityUsd : string;
  tvs_updatedAt : string;
  tvs_metadata : record_;
}.
Record TreasuryVenuePosition := MkTreasuryVenuePosition {
  tvp_venueId : string;
  tvp_currentAllocationUsd : string;
  tvp_withdrawalAvailableUsd : string;
  tvp_updatedAt : string;
}.
Record TreasuryVenueExecutionRequest := MkTreasuryRequest {
  trq_actionType : TreasuryActionType;
  trq_amountUsd : string;
  trq_actorId : string;
  trq_reasonCode : string;
  trq_executionMode : TreasuryExecutionMode;
}.
Inductive TreasuryResultStatus := trs_completed | trs_failed.
Record TreasuryVenueExecutionResult := MkTreasuryResult {
  trr_venueId : string;
  trr_venueMode : TreasuryVenueMode;
  trr_executionReference : string;
  trr_status : TreasuryResultStatus;
  trr_summary : string;
  trr_simulated : bool;
  trr_balanceDeltaUsd : string;
  trr_allocationUsd : string;
  trr_withdrawalAvailableUsd : string;
  trr_metadata : record_;
}.

(** ** The simulated venue *)

Record SimulatedTreasuryVenueConfig := MkSimTreasuryConfig {
  stc_venueId : string;
  stc_venueName : string;
  stc_liquidityTier : TreasuryLiquidityTier;
  stc_aprBps : num;
  stc_availableCapacityUsd : string;
  stc_currentAllocationUsd : string;
  stc_withdrawalAvailableUsd : option string;
  stc_healthy : option bool;
  stc_metadata : option record_;
}.
Record SimulatedTreasuryVenue := MkSimTreasury {
  sty_connected : bool;
  sty_currentAllocationUsd : string;
  sty_withdrawalAvailableUsd : string;
  sty_executionCounter : Z;
}.

Section Simulated.
Variable config : SimulatedTreasuryVenueConfig.

Definition new_SimulatedTreasuryVenue : SimulatedTreasuryVenue :=
  MkSimTreasury false (stc_currentAllocationUsd config) (or_else (stc_withdrawalAvailableUsd config) (stc_currentAllocationUsd config)) 0.
Definition sim_connect (v : SimulatedTreasuryVenue) : SimulatedTreasuryVenue :=
  MkSimTreasury true (sty_currentAllocationUsd v) (sty_withdrawalAvailableUsd v) (sty_executionCounter v).
Definition sim_disconnect (v : SimulatedTreasuryVenue) : SimulatedTreasuryVenue :=
  MkSimTreasury false (sty_currentAllocationUsd v) (sty_withdrawalAvailableUsd v) (sty_executionCounter v).

Definition sim_getVenueState (now : Z) : TreasuryVenueState :=
  MkTreasuryVenueState (stc_venueId config) (stc_venueName config) vm_simulated (stc_liquidityTier config) (or_else (stc_healthy config) true)
    (stc_aprBps config) (stc_availableCapacityUsd config) (toISOString now) (or_else (stc_metadata config) []).
Definition sim_getPosition (v : SimulatedTreasuryVenue) (now : Z) : TreasuryVenuePosition :=
  MkTreasuryVenuePosition (stc_venueId config) (sty_currentAllocationUsd v) (sty_withdrawalAvailableUsd v) (toISOString now).
Definition sim_getCapabilities : TreasuryVenueCapabilities :=
  MkCapabilities (stc_venueId config) vm_simulated true true true false false false pm_not_requested [] ob_simulated
    ["Real connector implementation"; "Read-only validation against venue"; "Live enable approval"] (or_else (stc_healthy config) true)
    (jm_of_list (("simulated", JBool true) :: or_else (stc_metadata config) [])).

(** The balances after a request. *)
Definition next_balances (actionType : TreasuryActionType) (allocation withdrawal amount : num) : exn (num * num) :=
  match actionType with
  | allocate_to_venue => Ret (n_add allocation amount, n_add withdrawal amount)
  | _ =>
      if n_gt amount withdrawal then
        Throw (Error_ ("Simulated treasury withdrawal exceeds available withdrawal balance for " +:+ stc_venueId config +:+ "."))
      else Ret (n_max (n_sub allocation amount) n_zero, n_max (n_sub withdrawal amount) n_zero)
  end.
Definition sim_executeTreasuryAction (request : TreasuryVenueExecutionRequest) : eff SimulatedTreasuryVenue TreasuryVenueExecutionResult := fun v =>
  let currentAllocation := js_Number (sty_currentAllocationUsd v) in
  let currentWithdrawal := js_Number (sty_withdrawalAvailableUsd v) in
  let amount := js_Number (trq_amountUsd request) in
  if negb (n_isFinite amount) || n_le amount n_zero then
    (Throw (Error_ "Simulated treasury execution requires a positive amount."), v)
  else
    match next_balances (trq_actionType request) currentAllocation currentWithdrawal amount with
    | Throw e => (Throw e, v)
    | Ret (nextAllocation, nextWithdrawal) =>
        let allocationUsd := n_toFixed 2 nextAllocation in
        let withdrawalUsd := n_toFixed 2 nextWithdrawal in
        let counter := sty_executionCounter v + 1 in
        let allocates := match trq_actionType request with allocate_to_venue => true | _ => false end in
        (Ret (MkTreasuryResult (stc_venueId config) vm_simulated (stc_venueId config +:+ "-sim-treasury-" +:+ z_str counter) trs_completed
                (if allocates then "Simulated allocation of " +:+ n_toFixed 2 amount +:+ " USD completed."
                 else "Simulated reduction of " +:+ n_toFixed 2 amount +:+ " USD completed.")
                true (n_toFixed 2 (if allocates then amount else SFopp amount)) allocationUsd withdrawalUsd
                [("actorId", JStr (trq_actorId request)); ("executionMode", JStr (execution_mode_str (trq_executionMode request)));
                 ("reasonCode", JStr (trq_reasonCode request))]),
         MkSimTreasury (sty_connected v) allocationUsd withdrawalUsd counter)
    end.
End Simulated.

(** ** The PUSD vault *)

Record PusdTreasuryAdapterConfig := MkPusdConfig {
  pta_venueId : option string;
  pta_venueName : option string;
  pta_idleBalancePusd : string;
  pta_simulatedLiquidityCarryPusd : option string;
}.
Definition pusd_venueId (config : PusdTreasuryAdapterConfig) : string := or_else (pta_venueId config) "pusd-treasury-dry-run".
Definition pusd_getVenueState (config : PusdTreasuryAdapterConfig) (now : Z) : TreasuryVenueState :=
  MkTreasuryVenueState (pusd_venueId config) (or_else (pta_venueName config) "PUSD Treasury Dry-Run") vm_simulated instant true (num_of_Z 275)
    (or_else (pta_simulatedLiquidityCarryPusd config) "250000") (toISOString now)
    [("asset", JStr "PUSD"); ("dryRun", JBool true); ("simulation", JBool true); ("supportsReadOnlyBalance", JBool true);
     ("supportsSimulation", JBool true); ("supportsLiveExecution", JBool false);
     ("strategies", JArr [JStr "idle PUSD treasury"; JStr "simulated PUSD/USDC liquidity carry"; JStr "simulated PUSD lending carry"])].
Definition pusd_getPosition (config : PusdTreasuryAdapterConfig) (now : Z) : TreasuryVenuePosition :=
  MkTreasuryVenuePosition (pusd_venueId config) (pta_idleBalancePusd config) (pta_idleBalancePusd config) (toISOString now).
Definition pusd_getCapabilities (config : PusdTreasuryAdapterConfig) : TreasuryVenueCapabilities :=
  MkCapabilities (pusd_venueId config) vm_simulated true true false true false false pm_not_requested ["Phase PUSD-1 disables live execution."]
    ob_simulated ["Live PUSD venue integration"; "Operator-approved signing flow"; "Post-trade confirmation adapter"] true
    [("asset", JStr "PUSD"); ("dryRun", JBool true); ("supportsReadOnlyBalance", JBool true); ("supportsSimulation", JBool true);
     ("supportsLiveExecution", JBool false)].
Definition pusd_executeTreasuryAction {S} (request : TreasuryVenueExecutionRequest) : eff S TreasuryVenueExecutionResult :=
  throw_eff (Error_ "PUSD treasury adapter is dry-run only in Phase PUSD-1; live execution is disabled.").

(** ** The simulated venue at work *)

Lemma sim_failed_same config request v e v' : sim_executeTreasuryAction config request v = (Throw e, v') -> v' = v.
Proof.
  unfold sim_executeTreasuryAction. cbn zeta. destruct (_ || _); [by intros [= _ <-]|].
  destruct (next_balances _ _ _ _ _) as [[a w]|e']; [discriminate|by intros [= _ <-]].
Qed.

(** The planner never lets the PUSD vault be asked. *)
Lemma pusd_never_capable (config : PusdTreasuryAdapterConfig) input r : ~ venue_capable input r (pusd_getCapabilities config).
Proof. by intros [? _]. Qed.

Definition atlas_t0 : SimulatedTreasuryVenueConfig :=
  MkSimTreasuryConfig "atlas-t0-sim" "Atlas Treasury T0" instant (num_of_Z 385) "500000" "15000" (Some "15000") None None.
Definition request_of_amount (t : TreasuryActionType) (amount : string) : TreasuryVenueExecutionRequest :=
  MkTreasuryRequest t amount "olga" "surplus_deployable" tm_dry_run.

Definition balances_after (t : TreasuryActionType) (amount : string) (v : SimulatedTreasuryVenue) : option (string * string) :=
  match sim_executeTreasuryAction atlas_t0 (request_of_amount t amount) v with
  | (Ret r, v') => Some (trr_balanceDeltaUsd r, sty_currentAllocationUsd v')
  | (Throw _, _) => None
  end.
Example sim_balances :
  let v := new_SimulatedTreasuryVenue atlas_t0 in
  balances_after allocate_to_venue "0.10" v = Some ("0.10", "15000.10") /\
  balances_after reduce_venue_allocation "14999.99" v = Some ("-14999.99", "0.01") /\
  balances_after reduce_venue_allocation "15000.01" v = None /\
  (** no capacity is checked *)
  balances_after allocate_to_venue "600000" v = Some ("600000.00", "615000.00") /\
  balances_after allocate_to_venue "-1" v = None.
Proof. vm_compute. done. Qed.
