(* ===== verification/TreasuryActions.v ===== *)
(** * Treasury actions (packages/runtime: store.ts and control-plane.ts)

    The tables of treasury runs, of the actions that an evaluation recommends and
    of their executions, the store functions on them, and how the control plane
    approves an action and asks for its execution.  The statements of the database
    are the class [TreasuryDb].  Of the view of an action only the action is kept;
    that its other parts are read too is [td_action_views]. *)
From S2P Require Import Prelude JsNumber JsValue JsText DecimalLib MismatchStore CarryExecution TreasuryPolicy TreasuryPlanner Executor ConnectorPromotion Commands.
Open Scope Z_scope.

(** ** Data *)

Inductive TreasuryExecutionStatus := tes_recommended | tes_approved | tes_queued | tes_executing | tes_completed | tes_failed | tes_cancelled.
#[export] Instance TreasuryExecutionStatus_eq_dec : EqDecision TreasuryExecutionStatus.
Proof. solve_decision. Defined.
#[export] Instance TreasuryActionReadiness_eq_dec : EqDecision TreasuryActionReadiness.
Proof. solve_decision. Defined.
#[export] Instance TreasuryActionType_eq_dec : EqDecision TreasuryActionType.
Proof. solve_decision. Defined.
Definition treasury_status_str (s : TreasuryExecutionStatus) : string :=
  match s with
  | tes_recommended => "recommended" | tes_approved => "approved" | tes_queued => "queued" | tes_executing => "executing"
  | tes_completed => "completed" | tes_failed => "failed" | tes_cancelled => "cancelled"
  end.
Definition approval_str (a : TreasuryApprovalRequirement) : string := match a with ta_operator => "operator" | ta_admin => "admin" end.
Definition approval_role (a : TreasuryApprovalRequirement) : ActorRole := match a with ta_operator => role_operator | ta_admin => role_admin end.
Definition reason_str (r : TreasuryRecommendationReasonCode) : string :=
  match r with
  | reserve_shortfall => "reserve_shortfall" | surplus_deployable => "surplus_deployable" | venue_concentration => "venue_concentration"
  | rr_venue_ineligible => "venue_ineligible" | rebalance_budget_application => "rebalance_budget_application"
  end.

(** A row of [treasury_actions]: the columns that no statement updates. *)
Record TreasuryActionPlan := MkTreasuryPlan {
  tap_treasuryRunId : string;
  tap_linkedRebalanceProposalId : option string;
  tap_actionType : TreasuryActionType;
  tap_venueId : option string;
  tap_venueName : option string;
  tap_venueMode : IntentVenueMode;
  tap_amountUsd : string;
  tap_reasonCode : TreasuryRecommendationReasonCode;
  tap_summary : string;
  tap_details : record_;
  tap_readiness : TreasuryActionReadiness;
  tap_executable : bool;
  tap_blockedReasons : list TreasuryActionBlockedReason;
  tap_approvalRequirement : TreasuryApprovalRequirement;
  tap_executionMode : TreasuryExecutionMode;
  tap_simulated : bool;
  (** [{}], or the type of the recommendation and the effects *)
  tap_executionPlan : option (TreasuryRecommendationType * TreasuryExecutionEffects);
  tap_actorId : option string;
  tap_createdAt : Z;
}.
Record TreasuryActionRow := MkTreasuryAction {
  ta_id : string;
  ta_plan : TreasuryActionPlan;
  ta_status : TreasuryExecutionStatus;
  ta_approvedBy : option string;
  ta_approvedAt : option Z;
  ta_executionRequestedBy : option string;
  ta_executionRequestedAt : option Z;
  ta_queuedAt : option Z;
  ta_executingAt : option Z;
  ta_completedAt : option Z;
  ta_failedAt : option Z;
  ta_cancelledAt : option Z;
  ta_linkedCommandId : option string;
  ta_latestExecutionId : option string;
  ta_lastError : option string;
  ta_updatedAt : Z;
}.

(** A row of [treasury_action_executions], and the fields of a patch. *)
Record TreasuryExecution := MkTreasuryExecution {
  txe_id : string;
  txe_treasuryActionId : string;
  txe_treasuryRunId : string;
  txe_commandId : option string;
  txe_status : TreasuryExecutionStatus;
  txe_executionMode : TreasuryExecutionMode;
  txe_venueMode : IntentVenueMode;
  txe_simulated : bool;
  txe_requestedBy : string;
  txe_startedBy : option string;
  txe_blockedReasons : list TreasuryActionBlockedReason;
  txe_outcomeSummary : option string;
  txe_outcome : record_;
  txe_venueExecutionReference : option string;
  txe_lastError : option string;
  txe_createdAt : Z;
  txe_startedAt : option Z;
  txe_completedAt : option Z;
  txe_updatedAt : Z;
}.
Inductive TreasuryExecutionField :=
  | txf_status (v : TreasuryExecutionStatus) | txf_outcomeSummary (v : option string) | txf_outcome (v : record_)
  | txf_venueExecutionReference (v : option string) | txf_lastError (v : option string)
  | txf_startedAt (v : Z) | txf_completedAt (v : Z) | txf_updatedAt (v : Z).
Definition set_execution_field (x : TreasuryExecution) (f : TreasuryExecutionField) : TreasuryExecution :=
  let '(MkTreasuryExecution id act run cmd st em vm sim rq by_ br os oc ref le cr sa ca up) := x in
  match f with
  | txf_status v => MkTreasuryExecution id act run cmd v em vm sim rq by_ br os oc ref le cr sa ca up
  | txf_outcomeSummary v => MkTreasuryExecution id act run cmd st em vm sim rq by_ br v oc ref le cr sa ca up
  | txf_outcome v => MkTreasuryExecution id act run cmd st em vm sim rq by_ br os v ref le cr sa ca up
  | txf_venueExecutionReference v => MkTreasuryExecution id act run cmd st em vm sim rq by_ br os oc v le cr sa ca up
  | txf_lastError v => MkTreasuryExecution id act run cmd st em vm sim rq by_ br os oc ref v cr sa ca up
  | txf_startedAt v => MkTreasuryExecution id act run cmd st em vm sim rq by_ br os oc ref le cr (Some v) ca up
  | txf_completedAt v => MkTreasuryExecution id act run cmd st em vm sim rq by_ br os oc ref le cr sa (Some v) up
  | txf_updatedAt v => MkTreasuryExecution id act run cmd st em vm sim rq by_ br os oc ref le cr sa ca v
  end.
Definition patched_status (patch : list TreasuryExecutionField) : option TreasuryExecutionStatus :=
  fold_left (fun s f => match f with txf_status v => Some v | _ => s end) patch None.

(** A row of [treasury_runs] (its columns that repeat the evaluation are left
    out), of [treasury_venue_snapshots] and of [treasury_current]. *)
Record TreasuryRunRow := MkTreasuryRun {
  trn_treasuryRunId : string;
  trn_sourceRunId : option string;
  trn_sleeveId : string;
  trn_policy : TreasuryPolicy;
  trn_summary : TreasuryEvaluation;
  trn_concentrationLimitBreached : bool;
  trn_actionCount : Z;
  trn_evaluatedAt : Z;
}.
Record TreasurySnapshotRow := MkTreasurySnapshot { tsr_treasuryRunId : string; tsr_snapshot : TreasuryVenueSnapshot; tsr_createdAt : Z }.
Record TreasuryCurrentRow := MkTreasuryCurrent {
  tcr_latestTreasuryRunId : string;
  tcr_cashBalanceUsd : string;
  tcr_policy : TreasuryPolicy;
  tcr_summary : TreasuryEvaluation;
  tcr_updatedAt : Z;
}.

(** ** The database *)

Class TreasuryDb `{CD : CommandDb} := {
  td_action : string -> eff Db (option TreasuryActionRow);
  td_action_views : TreasuryActionRow -> eff Db unit;
  (** [insert(treasuryActions).values(row)], the database giving the ids *)
  td_insert_actions : list TreasuryActionPlan -> eff Db (list TreasuryActionRow);
  td_update_action : string -> (TreasuryActionRow -> TreasuryActionRow) -> eff Db unit;
  (** the database gives the id and [createdAt] *)
  td_insert_execution : (string -> Z -> TreasuryExecution) -> eff Db (option TreasuryExecution);
  td_execution : string -> eff Db (option TreasuryExecution);
  td_update_execution : string -> (TreasuryExecution -> TreasuryExecution) -> eff Db unit;
  td_insert_run : TreasuryRunRow -> eff Db unit;
  td_insert_snapshots : list TreasurySnapshotRow -> eff Db unit;
  (** the run evaluated last *)
  td_latest_run : eff Db (option TreasuryRunRow);
  td_current : eff Db (option TreasuryCurrentRow);
  (** on a conflict the row is replaced *)
  td_insert_current : TreasuryCurrentRow -> eff Db unit;
  td_update_current : (TreasuryCurrentRow -> TreasuryCurrentRow) -> eff Db unit;
  (** [syncRebalanceBundleForProposal] *)
  td_sync_bundle : string -> eff Db unit;
  (** [auditWriter.write], with the sleeve *)
  td_audit : string -> AuditEvent -> eff Db unit;
}.

(** A new action is recommended. *)
Definition recommended_row (id : string) (plan : TreasuryActionPlan) : TreasuryActionRow :=
  MkTreasuryAction id plan tes_recommended None None None None None None None None None None None None (tap_createdAt plan).

Section Actions.
Context `{TD : TreasuryDb}.

(** ** The store: actions *)

Definition getTreasuryAction (actionId : string) : eff Db (option TreasuryActionRow) :=
  row ← td_action actionId;
  match row with
  | None => mret None
  | Some a => _ ← td_action_views a; mret (Some a)
  end.

Definition approved_row (actorId : string) (approvedAt now : Z) (a : TreasuryActionRow) : TreasuryActionRow :=
  MkTreasuryAction (ta_id a) (ta_plan a) tes_approved (Some actorId) (Some approvedAt) (ta_executionRequestedBy a) (ta_executionRequestedAt a)
    (ta_queuedAt a) (ta_executingAt a) (ta_completedAt a) (ta_failedAt a) (ta_cancelledAt a) (ta_linkedCommandId a) (ta_latestExecutionId a)
    None now.
Definition store_approveTreasuryAction (actionId actorId : string) : eff Db (option TreasuryActionRow) :=
  approvedAt ← db_now;
  now ← db_now;
  _ ← td_update_action actionId (approved_row actorId approvedAt now);
  getTreasuryAction actionId.
Definition queued_row (commandId actorId : string) (requestedAt queuedAt now : Z) (a : TreasuryActionRow) : TreasuryActionRow :=
  MkTreasuryAction (ta_id a) (ta_plan a) tes_queued (ta_approvedBy a) (ta_approvedAt a) (Some actorId) (Some requestedAt) (Some queuedAt)
    None None None None (Some commandId) (ta_latestExecutionId a) None now.
Definition queueTreasuryActionExecution (actionId commandId actorId : string) : eff Db (option TreasuryActionRow) :=
  requestedAt ← db_now;
  queuedAt ← db_now;
  now ← db_now;
  _ ← td_update_action actionId (queued_row commandId actorId requestedAt queuedAt now);
  getTreasuryAction actionId.
Definition executing_row (executingAt now : Z) (a : TreasuryActionRow) : TreasuryActionRow :=
  MkTreasuryAction (ta_id a) (ta_plan a) tes_executing (ta_approvedBy a) (ta_approvedAt a) (ta_executionRequestedBy a) (ta_executionRequestedAt a)
    (ta_queuedAt a) (Some executingAt) (ta_completedAt a) (ta_failedAt a) (ta_cancelledAt a) (ta_linkedCommandId a) (ta_latestExecutionId a)
    (ta_lastError a) now.
Definition markTreasuryActionExecuting (actionId : string) : eff Db (option TreasuryActionRow) :=
  executingAt ← db_now;
  now ← db_now;
  _ ← td_update_action actionId (executing_row executingAt now);
  getTreasuryAction actionId.
Definition completed_action (latestExecutionId : string) (completedAt now : Z) (a : TreasuryActionRow) : TreasuryActionRow :=
  MkTreasuryAction (ta_id a) (ta_plan a) tes_completed (ta_approvedBy a) (ta_approvedAt a) (ta_executionRequestedBy a) (ta_executionRequestedAt a)
    (ta_queuedAt a) (ta_executingAt a) (Some completedAt) (ta_failedAt a) (ta_cancelledAt a) (ta_linkedCommandId a) (Some latestExecutionId)
    None now.
Definition completeTreasuryAction (actionId latestExecutionId : string) : eff Db (option TreasuryActionRow) :=
  completedAt ← db_now;
  now ← db_now;
  _ ← td_update_action actionId (completed_action latestExecutionId completedAt now);
  getTreasuryAction actionId.
Definition failed_action (latestExecutionId : option string) (errorMessage : string) (failedAt now : Z) (a : TreasuryActionRow) : TreasuryActionRow :=
  MkTreasuryAction (ta_id a) (ta_plan a) tes_failed (ta_approvedBy a) (ta_approvedAt a) (ta_executionRequestedBy a) (ta_executionRequestedAt a)
    (ta_queuedAt a) (ta_executingAt a) (ta_completedAt a) (Some failedAt) (ta_cancelledAt a) (ta_linkedCommandId a) latestExecutionId
    (Some errorMessage) now.
Definition failTreasuryAction (actionId : string) (latestExecutionId : option string) (errorMessage : string) : eff Db (option TreasuryActionRow) :=
  failedAt ← db_now;
  now ← db_now;
  _ ← td_update_action actionId (failed_action latestExecutionId errorMessage failedAt now);
  getTreasuryAction actionId.
Definition createTreasuryAction (plan : TreasuryActionPlan) : eff Db TreasuryActionRow :=
  rows ← td_insert_actions [plan];
  match rows with
  | [] => throw_eff (Error_ "Failed to persist treasury action row.")
  | row :: _ => mret row
  end.

(** ** The store: executions *)

Definition now_if (c : bool) : eff Db (option Z) := if c then t ← db_now; mret (Some t) else mret None.
Definition ended_status (s : TreasuryExecutionStatus) : bool := bool_decide (s = tes_completed) || bool_decide (s = tes_failed).
Definition createTreasuryExecution (actionId treasuryRunId : string) (commandId : option string) (status : TreasuryExecutionStatus)
    (executionMode : TreasuryExecutionMode) (venueMode : IntentVenueMode) (simulated : bool) (requestedBy startedBy : string)
    (blockedReasons : list TreasuryActionBlockedReason) (outcome : record_) (lastError : option string) : eff Db TreasuryExecution :=
  startedAt ← now_if (bool_decide (status = tes_executing));
  completedAt ← now_if (ended_status status);
  now ← db_now;
  row ← td_insert_execution (fun id createdAt =>
    MkTreasuryExecution id actionId treasuryRunId commandId status executionMode venueMode simulated requestedBy (Some startedBy) blockedReasons
      None outcome None lastError createdAt startedAt completedAt now);
  match row with
  | None => throw_eff (Error_ "Failed to persist treasury execution row.")
  | Some x => mret x
  end.
Definition updateTreasuryExecution (executionId : string) (patch : list TreasuryExecutionField) : eff Db (option TreasuryExecution) :=
  let status := patched_status patch in
  startedAt ← now_if (bool_decide (status = Some tes_executing));
  completedAt ← now_if (match status with Some s => ended_status s | None => false end);
  now ← db_now;
  _ ← td_update_execution executionId (fun x =>
        fold_left set_execution_field
          (patch ++ match startedAt with Some t => [txf_startedAt t] | None => [] end
                 ++ match completedAt with Some t => [txf_completedAt t] | None => [] end ++ [txf_updatedAt now]) x);
  td_execution executionId.

(** ** The store: evaluations *)

Definition onboarding_str (o : OnboardingState) : string :=
  match o with
  | ob_simulated => "simulated" | ob_read_only => "read_only" | ob_ready_for_review => "ready_for_review" | ob_approved_for_live => "approved_for_live"
  end.
Definition venue_mode_str (m : TreasuryVenueMode) : string := match m with vm_simulated => "simulated" | vm_live => "live" end.
(** A capability spread into an object. *)
Definition capability_record (c : TreasuryVenueCapabilities) : record_ :=
  [("venueId", JStr (vc_venueId c)); ("venueMode", JStr (venue_mode_str (vc_venueMode c))); ("supportsAllocation", JBool (vc_supportsAllocation c));
   ("supportsReduction", JBool (vc_supportsReduction c)); ("executionSupported", JBool (vc_executionSupported c));
   ("readOnly", JBool (vc_readOnly c)); ("approvedForLiveUse", JBool (vc_approvedForLiveUse c));
   ("sensitiveExecutionEligible", JBool (vc_sensitiveExecutionEligible c)); ("promotionStatus", JStr (promotion_str (vc_promotionStatus c)));
   ("promotionBlockedReasons", JArr (map JStr (vc_promotionBlockedReasons c))); ("onboardingState", JStr (onboarding_str (vc_onboardingState c)));
   ("missingPrerequisites", JArr (map JStr (vc_missingPrerequisites c))); ("healthy", JBool (vc_healthy c)); ("metadata", JObj (vc_metadata c))].
Definition snapshot_row (treasuryRunId : string) (capabilities : list (string * TreasuryVenueCapabilities)) (now : Z) (s : TreasuryVenueSnapshot)
    : TreasurySnapshotRow :=
  MkTreasurySnapshot treasuryRunId
    (MkVenueSnapshot (vs_venueId s) (vs_venueName s) (vs_mode s) (vs_liquidityTier s) (vs_healthy s) (vs_aprBps s) (vs_availableCapacityUsd s)
       (vs_currentAllocationUsd s) (vs_withdrawalAvailableUsd s) (vs_concentrationPct s) (vs_updatedAt s)
       (jm_of_list (vs_metadata s ++ match jm_get (vs_venueId s) capabilities with Some c => capability_record c | None => [] end))) now.
Definition intent_plan (treasuryRunId : string) (actorId : option string) (now : Z) (i : TreasuryExecutionIntent) : TreasuryActionPlan :=
  MkTreasuryPlan treasuryRunId None (ti_actionType i) (ti_venueId i) (ti_venueName i) (ti_venueMode i) (ti_amountUsd i) (ti_reasonCode i)
    (ti_summary i) (ti_details i) (ti_readiness i) (ti_executable i) (ti_blockedReasons i) (ti_approvalRequirement i) (ti_executionMode i)
    (ti_simulated i) (Some (ti_recommendationType i, ti_effects i)) actorId now.
Definition persistTreasuryEvaluation (treasuryRunId : string) (sourceRunId : option string) (sleeveId : string) (policy : TreasuryPolicy)
    (evaluation : TreasuryEvaluation) (executionIntents : list TreasuryExecutionIntent) (venueCapabilities : list TreasuryVenueCapabilities)
    (actorId : option string) : eff Db unit :=
  now ← db_now;
  let capabilitiesByVenueId := jm_of_list (map (fun c => (vc_venueId c, c)) venueCapabilities) in
  _ ← td_insert_run (MkTreasuryRun treasuryRunId sourceRunId sleeveId policy evaluation
        (existsb (fun r => bool_decide (tr_reasonCode r = venue_concentration)) (te_recommendations evaluation))
        (Z.of_nat (length (te_recommendations evaluation))) now);
  _ ← (match te_venueSnapshots evaluation with
       | [] => mret tt
       | snapshots => td_insert_snapshots (map (snapshot_row treasuryRunId capabilitiesByVenueId now) snapshots)
       end);
  _ ← (match executionIntents with
       | [] => mret tt
       | intents => _ ← td_insert_actions (map (intent_plan treasuryRunId actorId now) intents); mret tt
       end);
  td_insert_current (MkTreasuryCurrent treasuryRunId (rv_idleCapitalUsd (te_reserveStatus evaluation)) policy evaluation now).

(** [mapTreasurySummaryRow] reads the reserve and the alerts back from the evaluation. *)
Definition getTreasurySummary : eff Db (option TreasuryRunRow) := td_latest_run.
Definition getTreasuryCashBalanceUsd : eff Db (option string) :=
  row ← td_current; mret (tcr_cashBalanceUsd <$> row).
Definition setTreasuryCashBalanceUsd (cashBalanceUsd : string) : eff Db unit :=
  now ← db_now;
  td_update_current (fun c => MkTreasuryCurrent (tcr_latestTreasuryRunId c) cashBalanceUsd (tcr_policy c) (tcr_summary c) now).

(** ** The control plane *)

Definition treasury_audit (eventType actorId : string) (data : record_) : eff Db unit :=
  eventId ← cd_create_id;
  occurredAt ← db_now;
  td_audit "treasury" (MkAuditEvent eventId eventType (toISOString occurredAt) actorId data).
Definition sync_linked (plan : TreasuryActionPlan) : eff Db unit :=
  match tap_linkedRebalanceProposalId plan with None => mret tt | Some proposalId => td_sync_bundle proposalId end.
Definition open_to_action (plan : TreasuryActionPlan) : bool :=
  tap_executable plan && negb (bool_decide (tap_readiness plan = tr_blocked)).
Definition role_suffices (actorRole : ActorRole) (plan : TreasuryActionPlan) : bool :=
  canSatisfyApprovalRequirement actorRole (approval_role (tap_approvalRequirement plan)).
Definition needs_approval (plan : TreasuryActionPlan) : JsError :=
  Error_ ("Treasury action requires " +:+ approval_str (tap_approvalRequirement plan) +:+ " approval.").

(** What follows the guards of an approval. *)
Definition record_approval (a : TreasuryActionRow) (actionId actorId : string) : eff Db (option TreasuryActionRow) :=
  approved ← store_approveTreasuryAction actionId actorId;
  _ ← treasury_audit "treasury.action_approved" actorId
        [("treasuryActionId", JStr actionId); ("approvalRequirement", JStr (approval_str (tap_approvalRequirement (ta_plan a))))];
  _ ← sync_linked (ta_plan a);
  mret approved.
Definition approveTreasuryAction (actionId actorId : string) (actorRole : ActorRole) : eff Db (option TreasuryActionRow) :=
  detail ← getTreasuryAction actionId;
  match detail with
  | None => mret None
  | Some a =>
      if negb (open_to_action (ta_plan a)) then throw_eff (Error_ "Treasury action is blocked and cannot be approved.")
      else if negb (role_suffices actorRole (ta_plan a)) then throw_eff (needs_approval (ta_plan a))
      else record_approval a actionId actorId
  end.

Definition request_execution (a : TreasuryActionRow) (actionId actorId : string) : eff Db (option RuntimeCommandView) :=
  command ← enqueueCommand rct_execute_treasury_action actorId [("treasuryActionId", JStr actionId); ("actorId", JStr actorId)];
  _ ← queueTreasuryActionExecution actionId (rc_commandId command) actorId;
  _ ← treasury_audit "treasury.action_execution_queued" actorId
        [("treasuryActionId", JStr actionId); ("commandId", JStr (rc_commandId command))];
  _ ← sync_linked (ta_plan a);
  mret (Some command).
Definition enqueueTreasuryActionExecution (actionId actorId : string) (actorRole : ActorRole) : eff Db (option RuntimeCommandView) :=
  detail ← getTreasuryAction actionId;
  match detail with
  | None => mret None
  | Some a =>
      if negb (open_to_action (ta_plan a)) then throw_eff (Error_ "Treasury action is blocked and cannot be executed.")
      else if negb (bool_decide (ta_status a = tes_approved)) then throw_eff (Error_ "Treasury action must be approved before execution.")
      else if negb (role_suffices actorRole (ta_plan a)) then throw_eff (needs_approval (ta_plan a))
      else request_execution a actionId actorId
  end.
End Actions.
