(* ===== verification/Approvals.v ===== *)
(** * Approved actions

    What the tables of treasury actions, carry actions and rebalance proposals
    share: a row has a plan that no statement changes, moves on from its
    recommendation only after an approval, and is approved by an actor whose role
    suffices for its plan.  [drifts] is what any of the processes may do to a table
    between two statements of one of them; [guarded] is what a computation keeps
    when the row that it acts on is there with a property that no process takes
    away. *)
From S2P Require Import Prelude ConnectorPromotion.
Open Scope Z_scope.

(** [ap_moved]: the row is beyond its recommendation. *)
Class Approvable (Row Plan : Type) := {
  ap_id : Row -> string;
  ap_plan : Row -> Plan;
  ap_moved : Row -> Prop;
  ap_by : Row -> option string;
  ap_allowed : ActorRole -> Plan -> bool;
}.

Section Approvals.
Context {Row Plan : Type} `{AP : !Approvable Row Plan}.
(** the role that authentication gives an actor *)
Variable role_of : string -> ActorRole.

Definition approved_well (a : Row) : Prop := exists actor, ap_by a = Some actor /\ ap_allowed (role_of actor) (ap_plan a) = true.
Definition approval_ok (a : Row) : Prop := ap_moved a -> approved_well a.
(** A row as it was or further on. *)
Definition later (a a' : Row) : Prop := ap_id a' = ap_id a /\ ap_plan a' = ap_plan a /\ (approved_well a -> approved_well a').
Definition drifts (l l' : list Row) : Prop :=
  (Forall approval_ok l -> Forall approval_ok l') /\ forall a, a ∈ l -> exists a', a' ∈ l' /\ later a a'.
Definition set_row (id : string) (f : Row -> Row) (a : Row) : Row := if decide (ap_id a = id) then f a else a.

Lemma later_refl a : later a a.
Proof. done. Qed.
Lemma later_trans a b c : later a b -> later b c -> later a c.
Proof. intros (H1 & H2 & H3) (H4 & H5 & H6). split_and!; [congruence|congruence|auto]. Qed.
#[export] Instance drifts_preorder : PreOrder drifts.
Proof.
  split; [intros l; split; [done|]; intros a Ha; by exists a|]. intros l1 l2 l3 [A1 B1] [A2 B2]. split; [auto|].
  intros a Ha. destruct (B1 a Ha) as (b & Hb & Lb). destruct (B2 b Hb) as (c & Hc & Lc). exists c. split; [done|by eapply later_trans].
Qed.

(** The row of an id is there, with a property that its later versions keep. *)
Definition has (id : string) (P : Row -> Prop) (l : list Row) : Prop := exists a, a ∈ l /\ ap_id a = id /\ P a.
Definition stable (P : Row -> Prop) : Prop := forall a a', later a a' -> P a -> P a'.
Lemma stable_approved : stable approved_well.
Proof. intros a a' (_ & _ & H). exact H. Qed.
Lemma stable_plan (p : Plan -> Prop) : stable (fun a => p (ap_plan a)).
Proof. by intros a a' (_ & -> & _). Qed.
Lemma has_drift id P l l' : stable P -> drifts l l' -> has id P l -> has id P l'.
Proof.
  intros HP [_ H] (a & Ha & Hid & Hp). destruct (H a Ha) as (a' & Ha' & L). exists a'. split_and!; [done| |by eapply HP].
  destruct L as (-> & _). done.
Qed.

Lemma unique_row l a b : NoDup (map ap_id l) -> a ∈ l -> b ∈ l -> ap_id a = ap_id b -> a = b.
Proof.
  intros Hn Ha Hb E. induction l as [|x l IH]; [by apply elem_of_nil in Ha|]. cbn in Hn. apply NoDup_cons in Hn as [Hx Hn].
  apply elem_of_cons in Ha as [->|Ha]; apply elem_of_cons in Hb as [->|Hb]; [done| | |by apply IH].
  - exfalso. apply Hx. rewrite E. by apply list_elem_of_fmap_2.
  - exfalso. apply Hx. rewrite <- E. by apply list_elem_of_fmap_2.
Qed.

(** Updating the row of an id, when the result is approved well. *)
Lemma drift_update id P f l : NoDup (map ap_id l) -> has id P l -> (forall a, ap_id (f a) = ap_id a) -> (forall a, ap_plan (f a) = ap_plan a) ->
  (forall a, P a -> approved_well (f a)) -> drifts l (map (set_row id f) l).
Proof.
  intros Hn (a0 & Ha0 & Hid0 & Hp0) Hid Hplan Hf.
  assert (Hw : forall a, a ∈ l -> ap_id a = id -> approved_well (f a)).
  { intros a Ha Ea. apply Hf. rewrite (unique_row l a a0); [done|done|done|done|congruence]. }
  split.
  - intros Hok. apply Forall_forall. intros b Hb. apply list_elem_of_fmap in Hb as (a & -> & Ha).
    unfold set_row. case_decide as Ea; [intros _; by apply Hw|]. rewrite Forall_forall in Hok. by apply Hok.
  - intros a Ha. exists (set_row id f a). split; [by apply list_elem_of_fmap_2|]. unfold set_row. case_decide as Ea; [|done].
    split_and!; [done|done|]. intros _. by apply Hw.
Qed.
(** Updating it without moving it on. *)
Lemma drift_keep id f l : (forall a, ap_id (f a) = ap_id a) -> (forall a, ap_plan (f a) = ap_plan a) -> (forall a, approval_ok a -> approval_ok (f a)) ->
  (forall a, approved_well a -> approved_well (f a)) -> drifts l (map (set_row id f) l).
Proof.
  intros Hid Hplan Hok Hw. split.
  - intros H. apply Forall_forall. intros b Hb. apply list_elem_of_fmap in Hb as (a & -> & Ha). rewrite Forall_forall in H.
    unfold set_row. case_decide; [by apply Hok, H|by apply H].
  - intros a Ha. exists (set_row id f a). split; [by apply list_elem_of_fmap_2|]. unfold set_row. case_decide; [|done]. split_and!; [done|done|apply Hw].
Qed.
Lemma drift_insert l rows : (forall a, a ∈ rows -> ~ ap_moved a) -> drifts l (l ++ rows).
Proof.
  intros H. split.
  - intros Hok. apply Forall_app. split; [done|]. apply Forall_forall. intros a Ha Hm. by apply H in Ha.
  - intros a Ha. exists a. split; [by apply elem_of_app; left|done].
Qed.

(** ** Computations on the row of an id *)

Section Guarded.
Context {S : Type} (rows_of : S -> list Row) (Q : S -> S -> Prop) `{!PreOrder Q}.
Class Drifting : Prop := drifting : forall d d', Q d d' -> drifts (rows_of d) (rows_of d').
Context `{!Drifting}.
Definition guarded (id : string) (P : Row -> Prop) (d d' : S) : Prop := stable P -> has id P (rows_of d) -> Q d d'.
#[export] Instance guarded_preorder id P : PreOrder (guarded id P).
Proof.
  split; [intros d _ _; reflexivity|]. intros a b c H1 H2 HP Ha. pose proof (H1 HP Ha) as HQ. etrans; [exact HQ|]. apply (H2 HP).
  by eapply has_drift; [|by apply drifting|].
Qed.
Lemma keeps_guarded {A} id P (m : eff S A) : keeps Q m -> keeps (guarded id P) m.
Proof. intros Hm d r d' E _ _. by apply (Hm _ _ _ E). Qed.
Lemma has_after id P d d' : stable P -> Q d d' -> has id P (rows_of d) -> has id P (rows_of d').
Proof. intros HP HQ. apply has_drift; [done|by apply drifting]. Qed.
End Guarded.
End Approvals.

(** ** Folds *)

(** The results of [f] on the elements, each in the state the one before left. *)
Inductive in_turn {S A B} (f : A -> eff S B) : list A -> S -> list B -> S -> Prop :=
  | in_turn_nil s : in_turn f [] s [] s
  | in_turn_cons a l s b s1 bs s2 : f a s = (Ret b, s1) -> in_turn f l s1 bs s2 -> in_turn f (a :: l) s (b :: bs) s2.
Lemma collect_in_turn {S A B C} (f : A -> eff S B) (g : B -> C) l : forall acc s r s',
  fold_eff (fun acc a => b ← f a; mret (acc ++ [g b])) acc l s = (Ret r, s') -> exists bs, in_turn f l s bs s' /\ r = acc ++ map g bs.
Proof.
  induction l as [|a l IH]; intros acc s r s' H; cbn [fold_eff] in H.
  - injection H as <- <-. exists []. split; [constructor|by rewrite app_nil_r].
  - eff_inv H as acc1 s1 E1; [done|]. eff_inv E1 as b s2 E2; [done|]. injection E1 as <- <-.
    destruct (IH _ _ _ _ H) as (bs & Hb & ->). exists (b :: bs). split; [by econstructor|]. by rewrite <- app_assoc.
Qed.

(** ** Tables whose rows are named by their position *)

Section Numbered.
Context {Row : Type} (rid : Row -> string) (named : string -> Row -> Row) (name : nat -> string) `{!Inj (=) (=) name}.
Hypothesis named_id : forall i a, rid (named i a) = i.
Hypothesis named_same : forall a, named (rid a) a = a.
Definition numbered (l : list Row) : list Row := imap (fun n => named (name n)) l.
Definition names (n m : nat) : list string := map name (seq n m).

Lemma names_unique n m : NoDup (names n m).
Proof. apply NoDup_fmap_2; [exact _|apply NoDup_seq]. Qed.
Lemma names_length n m : length (names n m) = m.
Proof. unfold names. by rewrite length_map, length_seq. Qed.
Lemma numbered_from l n : map rid (imap (fun i => named (name (n + i))) l) = names n (length l).
Proof.
  unfold names. revert n. induction l as [|a l IH]; intros n; [done|]. cbn. rewrite Nat.add_0_r, named_id. f_equal. rewrite <- IH. f_equal.
  apply imap_ext. intros i x _. unfold compose. by rewrite Nat.add_succ_r.
Qed.
Lemma numbered_ids l : map rid (numbered l) = names 0 (length l).
Proof. exact (numbered_from l 0). Qed.
Lemma numbered_unique l : NoDup (map rid (numbered l)).
Proof. rewrite numbered_ids. apply names_unique. Qed.
Lemma stored_from l n : map rid l = names n (length l) -> imap (fun i => named (name (n + i))) l = l.
Proof.
  revert n. induction l as [|a l IH]; intros n H; [done|]. cbn in H. injection H as Ha H. cbn. rewrite Nat.add_0_r, <- Ha, named_same. f_equal.
  rewrite <- (IH (S n)) at 2 by done. apply imap_ext. intros i x _. unfold compose. by rewrite Nat.add_succ_r.
Qed.
Lemma numbered_updated (f : Row -> Row) l : (forall a, rid (f a) = rid a) -> numbered (map f (numbered l)) = map f (numbered l).
Proof.
  intros Hf. apply (stored_from _ 0). rewrite length_map, map_map, (map_ext _ rid) by done. rewrite numbered_ids. unfold numbered. by rewrite length_imap.
Qed.
Lemma numbered_appended l rows : map rid rows = names (length l) (length rows) -> numbered (l ++ rows) = numbered l ++ rows.
Proof. intros H. unfold numbered. rewrite imap_app. f_equal. exact (stored_from rows _ H). Qed.
End Numbered.
