(* ===== verification/TreasuryRuntime.v ===== *)
(** * Treasury evaluation and execution (packages/runtime: runtime.ts)

    [runTreasuryEvaluation] records the policy's evaluation of the venues and the
    actions it recommends; [executeTreasuryAction] plans an approved action again,
    on fresh readings, and has the adapter of its venue execute it.  The adapters,
    the portfolio tracker and the promotions of the connectors are the class
    [TreasuryVenues].  The file shows that no action leaves its recommendation
    without an approval, and what has been checked when a venue is asked. *)
From S2P Require Import Prelude JsNumber JsValue JsText DecimalLib DecimalExact MismatchStore CarryExecution RiskEngine TreasuryPolicy TreasuryPlanner TreasuryVenues ConnectorEvidence ConnectorPromotion Approvals Commands RuntimeWorker TreasuryActions.
Open Scope Z_scope.

(** ** The venues *)

(** Of the options of the runtime, what the treasury reads. *)
Record TreasuryOptions := MkTreasuryOptions {
  to_treasuryPolicy : TreasuryPolicy;
  to_executionMode : TreasuryExecutionMode;
  to_liveExecutionEnabled : bool;
}.
Class TreasuryVenues `{TD : TreasuryDb} := {
  (** the keys of the map of treasury adapters, and the methods of each *)
  tv_keys : list string;
  tv_getVenueState : string -> eff Db TreasuryVenueState;
  tv_getPosition : string -> eff Db TreasuryVenuePosition;
  tv_getCapabilities : string -> eff Db TreasuryVenueCapabilities;
  tv_executeTreasuryAction : string -> TreasuryVenueExecutionRequest -> eff Db TreasuryVenueExecutionResult;
  (** [listVenues(limit)]: the id and the promotion of each *)
  tv_listVenues : Z -> eff Db (list (string * ConnectorPromotionSummary));
  (** [portfolioTracker.refresh()] *)
  tv_portfolio : eff Db PortfolioState;
  (** [refreshVenueTruthInventory()] *)
  tv_refreshVenueTruthInventory : eff Db unit;
}.

Definition planner_status (s : ConnectorPromotionStatus) : PromotionStatus :=
  match s with
  | ps_not_requested => pm_not_requested | ps_pending_review => pm_pending_review | ps_approved => pm_approved
  | ps_rejected => pm_rejected | ps_suspended => pm_suspended
  end.
(** The capability that an adapter reports, under the promotion of its connector. *)
Definition promoted (promotion : option ConnectorPromotionSummary) (c : TreasuryVenueCapabilities) : TreasuryVenueCapabilities :=
  let status := match promotion with Some p => planner_status (cp_promotionStatus p) | None => pm_not_requested end in
  MkCapabilities (vc_venueId c) (vc_venueMode c) (vc_supportsAllocation c) (vc_supportsReduction c) (vc_executionSupported c) (vc_readOnly c)
    (match promotion with Some p => cp_approvedForLiveUse p | None => false end)
    (match promotion with Some p => cp_sensitiveExecutionEligible p | None => false end)
    status (match promotion with Some p => cp_blockers p | None => vc_missingPrerequisites c end)
    (vc_onboardingState c) (vc_missingPrerequisites c) (vc_healthy c)
    (jm_of_list (vc_metadata c ++ [("reportedApprovedForLiveUse", JBool (vc_approvedForLiveUse c));
                                   ("connectorPromotionStatus", JStr (promotion_str status))])).
Definition venue_snapshot (state : TreasuryVenueState) (position : TreasuryVenuePosition) : TreasuryVenueSnapshot :=
  MkVenueSnapshot (tvs_venueId state) (tvs_venueName state) (tvs_mode state) (tvs_liquidityTier state) (tvs_healthy state) (tvs_aprBps state)
    (tvs_availableCapacityUsd state) (tvp_currentAllocationUsd position) (tvp_withdrawalAvailableUsd position) "0.00"
    (tvp_updatedAt position) (tvs_metadata state).

Record ExecuteTreasuryInput := MkExecuteTreasury {
  xi_actionId : string;
  xi_actorId : string;
  xi_commandId : option string;
  xi_startedBy : string;
}.
Record ExecuteTreasuryResult := MkTreasuryOutcome {
  xr_actionId : string;
  xr_executionId : string;
  xr_treasuryRunId : option string;
  xr_venueExecutionReference : option string;
  xr_simulated : bool;
}.
Definition effects_record (e : TreasuryExecutionEffects) : record_ :=
  [("totalCapitalUsd", JStr (fx_totalCapitalUsd e)); ("idleCapitalUsd", JStr (fx_idleCapitalUsd e));
   ("allocatedCapitalUsd", JStr (fx_allocatedCapitalUsd e)); ("requiredReserveUsd", JStr (fx_requiredReserveUsd e));
   ("minimumRemainingIdleUsd", JStr (fx_minimumRemainingIdleUsd e)); ("reserveShortfallUsd", JStr (fx_reserveShortfallUsd e));
   ("targetVenueAllocationUsd", JStrNull (fx_targetVenueAllocationUsd e));
   ("targetVenueConcentrationPct", JStrNull (fx_targetVenueConcentrationPct e))].
Definition blocked_message (reasons : list TreasuryActionBlockedReason) : string := js_join "; " (map ab_message reasons).
Definition blocked_code_str (c : TreasuryActionBlockedReasonCode) : string :=
  match c with
  | below_minimum_action_size => "below_minimum_action_size" | insufficient_idle_capital => "insufficient_idle_capital"
  | live_execution_disabled => "live_execution_disabled" | minimum_remaining_liquidity_breach => "minimum_remaining_liquidity_breach"
  | reserve_floor_breach => "reserve_floor_breach" | venue_capacity_exceeded => "venue_capacity_exceeded"
  | venue_concentration_breach => "venue_concentration_breach" | venue_execution_unsupported => "venue_execution_unsupported"
  | venue_live_unapproved => "venue_live_unapproved" | venue_live_ineligible => "venue_live_ineligible" | venue_ineligible => "venue_ineligible"
  | venue_not_found => "venue_not_found" | venue_unhealthy => "venue_unhealthy" | withdrawal_capacity_exceeded => "withdrawal_capacity_exceeded"
  end.
Definition blocked_category_str (c : TreasuryBlockedReasonCategory) : string :=
  match c with
  | ct_action_size => "action_size" | ct_liquidity => "liquidity" | ct_reserve => "reserve" | ct_concentration => "concentration"
  | ct_venue_eligibility => "venue_eligibility" | ct_venue_health => "venue_health" | ct_venue_capability => "venue_capability"
  | ct_capacity => "capacity" | ct_execution_mode => "execution_mode"
  end.
Definition reason_record (b : TreasuryActionBlockedReason) : jsval :=
  JObj [("code", JStr (blocked_code_str (ab_code b))); ("category", JStr (blocked_category_str (ab_category b)));
        ("message", JStr (ab_message b)); ("operatorAction", JStr (ab_operatorAction b)); ("details", JObj (ab_details b))].

Section Runtime.
Context `{TV : TreasuryVenues} `{DL : DecimalLib}.
Variable options : TreasuryOptions.

Definition collectTreasuryVenueSnapshots : eff Db (list TreasuryVenueSnapshot) :=
  fold_eff (fun snapshots key =>
    venueState ← tv_getVenueState key;
    position ← tv_getPosition key;
    mret (snapshots ++ [venue_snapshot venueState position])) [] tv_keys.
Definition collectTreasuryVenueCapabilities : eff Db (list TreasuryVenueCapabilities) :=
  venues ← tv_listVenues 500;
  let promotionByVenueId := jm_of_list venues in
  fold_eff (fun capabilities key =>
    c ← tv_getCapabilities key;
    mret (capabilities ++ [promoted (jm_get (vc_venueId c) promotionByVenueId) c])) [] tv_keys.

Definition runTreasuryEvaluation (actorId : string) (sourceRunId : option string) (portfolioState : option PortfolioState)
    (idleCapitalUsdOverride : option string) : eff Db TreasuryRunRow :=
  portfolio ← (match portfolioState with Some p => mret p | None => tv_portfolio end);
  venueSnapshots ← collectTreasuryVenueSnapshots;
  venueCapabilities ← collectTreasuryVenueCapabilities;
  persistedCashBalanceUsd ← getTreasuryCashBalanceUsd;
  let idle := or_else idleCapitalUsdOverride (or_else persistedCashBalanceUsd (liquidityReserve portfolio)) in
  evaluation ← lift_exn (evaluate (MkTreasuryInput (totalNav portfolio) idle venueSnapshots (to_treasuryPolicy options)));
  executionIntents ← lift_exn (createExecutionIntents
    (MkPlanningInput evaluation (to_treasuryPolicy options) (to_executionMode options) (to_liveExecutionEnabled options) venueCapabilities));
  treasuryRunId ← cd_create_id;
  _ ← persistTreasuryEvaluation treasuryRunId sourceRunId "treasury" (to_treasuryPolicy options) evaluation executionIntents venueCapabilities
        (Some actorId);
  _ ← tv_refreshVenueTruthInventory;
  _ ← treasury_audit "treasury.evaluated" actorId
        [("treasuryRunId", JStr treasuryRunId); ("sourceRunId", JStrNull sourceRunId);
         ("actionCount", JInt (Z.of_nat (length (te_recommendations evaluation))));
         ("reserveShortfallUsd", JStr (rv_reserveShortfallUsd (te_reserveStatus evaluation)));
         ("surplusCapitalUsd", JStr (rv_surplusCapitalUsd (te_reserveStatus evaluation)))];
  summary ← getTreasurySummary;
  match summary with
  | None => throw_eff (Error_ ("SentinelRuntime.runTreasuryEvaluation: treasury run " +:+ quoted treasuryRunId +:+ " was not persisted"))
  | Some s => mret s
  end.

(** *** The execution of an action *)

(** [rebalance_treasury_budget]: nothing is asked of a venue. *)
Definition budget_outcome (plan : TreasuryActionPlan) : record_ :=
  jm_of_list (("executionKind", JStr "budget_state_application") :: tap_details plan).
Definition execute_budget (a : TreasuryActionRow) (input : ExecuteTreasuryInput) : eff Db ExecuteTreasuryResult :=
  let plan := ta_plan a in
  execution ← createTreasuryExecution (ta_id a) (tap_treasuryRunId plan) (xi_commandId input) tes_executing (tap_executionMode plan) im_reserve
    (tap_simulated plan) (xi_actorId input) (xi_startedBy input) [] (budget_outcome plan) None;
  _ ← updateTreasuryExecution (txe_id execution)
        [txf_status tes_completed; txf_outcomeSummary (Some "Treasury budget-state action completed without venue-native execution.");
         txf_outcome (budget_outcome plan); txf_lastError None];
  _ ← completeTreasuryAction (ta_id a) (txe_id execution);
  _ ← sync_linked plan;
  mret (MkTreasuryOutcome (ta_id a) (txe_id execution) (Some (tap_treasuryRunId plan)) None (tap_simulated plan)).

Definition action_recommendation (plan : TreasuryActionPlan) : TreasuryRecommendation :=
  MkTreasuryRecommendation (match tap_actionType plan with allocate_to_venue => rt_deposit | _ => rt_redeem end) (tap_venueId plan)
    (tap_amountUsd plan) (tap_reasonCode plan) (tap_summary plan) (tap_details plan).
Definition with_recommendations (e : TreasuryEvaluation) (l : list TreasuryRecommendation) : TreasuryEvaluation :=
  MkTreasuryEvaluation (te_policy e) (te_reserveStatus e) (te_venueSnapshots e) l (te_alerts e) (te_simulated e).
(** The plan of the action on an evaluation and capabilities. *)
Definition planning_input (evaluation : TreasuryEvaluation) (plan : TreasuryActionPlan) (capabilities : list TreasuryVenueCapabilities)
    : TreasuryExecutionPlanningInput :=
  MkPlanningInput (with_recommendations evaluation [action_recommendation plan]) (to_treasuryPolicy options) (to_executionMode options)
    (to_liveExecutionEnabled options) capabilities.
Definition plan_again (plan : TreasuryActionPlan) : eff Db (PortfolioState * list TreasuryExecutionIntent) :=
  portfolioState ← tv_portfolio;
  venueSnapshots ← collectTreasuryVenueSnapshots;
  venueCapabilities ← collectTreasuryVenueCapabilities;
  evaluation ← lift_exn (evaluate (MkTreasuryInput (totalNav portfolioState) (liquidityReserve portfolioState) venueSnapshots
    (to_treasuryPolicy options)));
  intents ← lift_exn (createExecutionIntents (planning_input evaluation plan venueCapabilities));
  mret (portfolioState, intents).

(** The end of an attempt that failed with a message. *)
Definition fail_attempt {A} (a : TreasuryActionRow) (executionId message : string) : eff Db A :=
  _ ← updateTreasuryExecution executionId [txf_status tes_failed; txf_lastError (Some message)];
  _ ← failTreasuryAction (ta_id a) (Some executionId) message;
  _ ← sync_linked (ta_plan a);
  throw_eff (Error_ message).
Definition block_attempt {A} (a : TreasuryActionRow) (input : ExecuteTreasuryInput) (executionId : string)
    (reasons : list TreasuryActionBlockedReason) : eff Db A :=
  _ ← failTreasuryAction (ta_id a) (Some executionId) (blocked_message reasons);
  _ ← sync_linked (ta_plan a);
  _ ← treasury_audit "treasury.execution_blocked" (xi_actorId input)
        [("treasuryActionId", JStr (ta_id a)); ("executionId", JStr executionId); ("blockedReasons", JArr (map reason_record reasons))];
  throw_eff (Error_ (blocked_message reasons)).
Definition venue_request (a : TreasuryActionRow) (actorId : string) : TreasuryVenueExecutionRequest :=
  MkTreasuryRequest (tap_actionType (ta_plan a)) (tap_amountUsd (ta_plan a)) actorId (reason_str (tap_reasonCode (ta_plan a)))
    (tap_executionMode (ta_plan a)).
(** What follows the venue's result, in the [try]. *)
Definition record_result (a : TreasuryActionRow) (input : ExecuteTreasuryInput) (executionId : string) (portfolioState : PortfolioState)
    (idleCapitalUsd : string) (result : TreasuryVenueExecutionResult) : eff Db ExecuteTreasuryResult :=
  _ ← setTreasuryCashBalanceUsd idleCapitalUsd;
  followUp ← runTreasuryEvaluation (xi_actorId input) None (Some portfolioState) (Some idleCapitalUsd);
  _ ← updateTreasuryExecution executionId
        [txf_status tes_completed; txf_outcomeSummary (Some (trr_summary result));
         txf_outcome [("balanceDeltaUsd", JStr (trr_balanceDeltaUsd result)); ("allocationUsd", JStr (trr_allocationUsd result));
                      ("withdrawalAvailableUsd", JStr (trr_withdrawalAvailableUsd result));
                      ("followUpTreasuryRunId", JStr (trn_treasuryRunId followUp)); ("metadata", JObj (trr_metadata result))];
         txf_venueExecutionReference (Some (trr_executionReference result)); txf_lastError None];
  _ ← completeTreasuryAction (ta_id a) executionId;
  _ ← sync_linked (ta_plan a);
  _ ← treasury_audit "treasury.executed" (xi_actorId input)
        [("treasuryActionId", JStr (ta_id a)); ("executionId", JStr executionId);
         ("venueExecutionReference", JStr (trr_executionReference result));
         ("followUpTreasuryRunId", JStr (trn_treasuryRunId followUp)); ("simulated", JBool (trr_simulated result))];
  mret (MkTreasuryOutcome (ta_id a) executionId (Some (trn_treasuryRunId followUp)) (Some (trr_executionReference result)) (trr_simulated result)).
(** The handler of the [catch]. *)
Definition record_failure {A} (a : TreasuryActionRow) (input : ExecuteTreasuryInput) (executionId : string) (error : JsError) : eff Db A :=
  let message := err_message error in
  _ ← updateTreasuryExecution executionId [txf_status tes_failed; txf_lastError (Some message)];
  _ ← failTreasuryAction (ta_id a) (Some executionId) message;
  _ ← sync_linked (ta_plan a);
  _ ← treasury_audit "treasury.execution_failed" (xi_actorId input)
        [("treasuryActionId", JStr (ta_id a)); ("executionId", JStr executionId); ("error", JStr message)];
  throw_eff error.
Definition ask_venue (a : TreasuryActionRow) (input : ExecuteTreasuryInput) (executionId venueId : string) (portfolioState : PortfolioState)
    (idleCapitalUsd : string) : eff Db ExecuteTreasuryResult :=
  catch_eff
    (result ← tv_executeTreasuryAction venueId (venue_request a (xi_actorId input));
     record_result a input executionId portfolioState idleCapitalUsd result)
    (record_failure a input executionId).

Definition execute_on_venue (a : TreasuryActionRow) (input : ExecuteTreasuryInput) : eff Db ExecuteTreasuryResult :=
  let plan := ta_plan a in
  planned ← plan_again plan;
  let '(portfolioState, intents) := planned in
  match intents with
  | [] => throw_eff (Error_ ("Treasury action " +:+ quoted (xi_actionId input) +:+ " could not be planned for execution."))
  | intent :: _ =>
      execution ← createTreasuryExecution (ta_id a) (tap_treasuryRunId plan) (xi_commandId input)
        (if ti_executable intent then tes_executing else tes_failed) (ti_executionMode intent) (ti_venueMode intent) (ti_simulated intent)
        (xi_actorId input) (xi_startedBy input) (ti_blockedReasons intent) [("executionPlan", JObj (effects_record (ti_effects intent)))]
        (if ti_executable intent then None else Some (blocked_message (ti_blockedReasons intent)));
      if negb (ti_executable intent) then block_attempt a input (txe_id execution) (ti_blockedReasons intent)
      else
        _ ← markTreasuryActionExecuting (ta_id a);
        match tap_venueId plan with
        | None => fail_attempt a (txe_id execution) "Treasury action did not target a venue."
        | Some venueId =>
            if bool_decide (venueId ∈ tv_keys) then
              ask_venue a input (txe_id execution) venueId portfolioState (fx_idleCapitalUsd (ti_effects intent))
            else fail_attempt a (txe_id execution) ("Treasury venue " +:+ quoted venueId +:+ " is not registered.")
        end
  end.
Definition executable_status (s : TreasuryExecutionStatus) : bool := bool_decide (s = tes_queued) || bool_decide (s = tes_approved).
Definition executeTreasuryAction (input : ExecuteTreasuryInput) : eff Db ExecuteTreasuryResult :=
  detail ← getTreasuryAction (xi_actionId input);
  match detail with
  | None => throw_eff (Error_ ("Treasury action " +:+ quoted (xi_actionId input) +:+ " was not found."))
  | Some a =>
      if negb (executable_status (ta_status a)) then
        throw_eff (Error_ ("Treasury action " +:+ quoted (xi_actionId input) +:+ " is not executable from status "
          +:+ quoted (treasury_status_str (ta_status a)) +:+ "."))
      else if bool_decide (tap_actionType (ta_plan a) = rebalance_treasury_budget) then execute_budget a input
      else execute_on_venue a input
  end.
End Runtime.

(** ** What the statements do to the actions *)

(** The approval of an action: by an actor whose role suffices, of an action that
    was not blocked. *)
Definition allowed (role : ActorRole) (plan : TreasuryActionPlan) : bool := open_to_action plan && role_suffices role plan.
#[export] Instance treasury_approvable : Approvable TreasuryActionRow TreasuryActionPlan := {|
  ap_id := ta_id; ap_plan := ta_plan; ap_moved a := ta_status a <> tes_recommended; ap_by := ta_approvedBy; ap_allowed := allowed |}.

(** The documented behaviour on the actions, in a system where other processes
    may run the same operations between the statements: their steps are
    [drifts].  [calls_of] are the requests that this runtime has made to the venues;
    a failing statement changes no row. *)
Class TreasuryLaws `{TV : TreasuryVenues} := {
  (** the role that authentication gives an actor *)
  role_of : string -> ActorRole;
  actions_of : Db -> list TreasuryActionRow;
  calls_of : Db -> list (string * TreasuryVenueExecutionRequest);
  actions_unique : forall d, NoDup (map ta_id (actions_of d));
  quiet (d d' : Db) : Prop := drifts role_of (actions_of d) (actions_of d') /\ calls_of d' = calls_of d;
  td_action_law : forall id d r d', td_action id d = (r, d') -> quiet d d' /\ forall o, r = Ret o -> o = find_key ta_id id (actions_of d');
  td_action_views_law : forall a, keeps quiet (td_action_views a);
  td_insert_actions_law : forall plans d r d', td_insert_actions plans d = (r, d') ->
    quiet d d' /\ is_ret r = false \/
    exists d1 ids, quiet d d1 /\ length ids = length plans /\ r = Ret (zip_with recommended_row ids plans) /\
      actions_of d' = actions_of d1 ++ zip_with recommended_row ids plans /\ calls_of d' = calls_of d1;
  td_update_action_law : forall id f d r d', td_update_action id f d = (r, d') -> (forall a, ta_id (f a) = ta_id a) ->
    quiet d d' /\ is_ret r = false \/
    exists d1, quiet d d1 /\ actions_of d' = map (set_row id f) (actions_of d1) /\ calls_of d' = calls_of d1;
  td_insert_execution_law : forall mk, keeps quiet (td_insert_execution mk);
  td_execution_law : forall id, keeps quiet (td_execution id);
  td_update_execution_law : forall id f, keeps quiet (td_update_execution id f);
  td_insert_run_law : forall x, keeps quiet (td_insert_run x);
  td_insert_snapshots_law : forall l, keeps quiet (td_insert_snapshots l);
  td_latest_run_law : keeps quiet td_latest_run;
  td_current_law : keeps quiet td_current;
  td_insert_current_law : forall c, keeps quiet (td_insert_current c);
  td_update_current_law : forall f, keeps quiet (td_update_current f);
  td_sync_bundle_law : forall id, keeps quiet (td_sync_bundle id);
  td_audit_law : forall s e, keeps quiet (td_audit s e);
  tv_getVenueState_law : forall k, keeps quiet (tv_getVenueState k);
  tv_getPosition_law : forall k, keeps quiet (tv_getPosition k);
  tv_getCapabilities_law : forall k, keeps quiet (tv_getCapabilities k);
  (** a request is made, whether the adapter returns or throws *)
  tv_execute_law : forall k q d r d', tv_executeTreasuryAction k q d = (r, d') ->
    drifts role_of (actions_of d) (actions_of d') /\ calls_of d' = calls_of d ++ [(k, q)];
  tv_listVenues_law : forall n, keeps quiet (tv_listVenues n);
  tv_portfolio_law : keeps quiet tv_portfolio;
  tv_refresh_law : keeps quiet tv_refreshVenueTruthInventory;
  tq_now_law : keeps quiet db_now;
  tq_create_id_law : keeps quiet cd_create_id;
  tq_insert_command_law : forall id mk, keeps quiet (cd_insert_command id mk);
  tq_command_law : forall id, keeps quiet (cd_command id);
  tq_insert_event_law : forall e, keeps quiet (db_insert_event e);
}.

Section Steps.
Context `{TL : TreasuryLaws}.

#[export] Instance quiet_preorder : PreOrder quiet.
Proof.
  split; [by intros d; split|]. intros a b c [H1 H2] [H3 H4]. split; [by etrans|congruence].
Qed.
#[export] Instance quiet_drifting : Drifting role_of actions_of quiet.
Proof. by intros d d' [H _]. Qed.

(** An update whose result on the action of that property is approved well. *)
Lemma update_for id P f : (forall a, ta_id (f a) = ta_id a) -> (forall a, ta_plan (f a) = ta_plan a) ->
  (forall a, P a -> approved_well role_of (f a)) -> keeps (guarded role_of actions_of quiet id P) (td_update_action id f).
Proof.
  intros Hid Hplan Hf d r d' E HP Hd. destruct (td_update_action_law _ _ _ _ _ E Hid) as [[Q _]|(d1 & Q & EA & EC)]; [done|].
  etrans; [exact Q|]. split; [|done]. rewrite EA. apply (drift_update role_of id P f); [apply actions_unique| |done|done|done].
  exact (has_after role_of actions_of quiet id P d d1 HP Q Hd).
Qed.
Lemma insert_quiet plans : keeps quiet (td_insert_actions plans).
Proof.
  intros d r d' E. destruct (td_insert_actions_law _ _ _ _ E) as [[Q _]|(d1 & ids & Q & _ & _ & EA & EC)]; [done|].
  etrans; [exact Q|]. split; [|done]. rewrite EA. apply drift_insert. intros a Ha. apply list_elem_of_lookup in Ha as (n & Ha).
  apply lookup_zip_with_Some in Ha as (x & y & -> & _). by intros [].
Qed.
End Steps.
Notation quiet_for := (guarded role_of actions_of quiet).

Section Statements.
Context `{TL : TreasuryLaws} `{DL : DecimalLib}.

#[local] Hint Resolve td_action_views_law td_insert_execution_law td_execution_law td_update_execution_law td_insert_run_law
  td_insert_snapshots_law td_latest_run_law td_current_law td_insert_current_law td_update_current_law td_sync_bundle_law td_audit_law
  tv_getVenueState_law tv_getPosition_law tv_getCapabilities_law tv_listVenues_law tv_portfolio_law tv_refresh_law tq_now_law
  tq_create_id_law tq_insert_command_law tq_command_law tq_insert_event_law insert_quiet : keeps.

Lemma action_quiet id : keeps quiet (td_action id).
Proof. intros d r d' E. by apply td_action_law in E as [? _]. Qed.
#[local] Hint Resolve action_quiet : keeps.
Lemma getAction_quiet id : keeps quiet (getTreasuryAction id).
Proof. unfold getTreasuryAction. keeps_tac. Qed.
#[local] Hint Resolve getAction_quiet : keeps.
Lemma now_if_quiet c : keeps quiet (now_if c).
Proof. unfold now_if. keeps_tac. Qed.
#[local] Hint Resolve now_if_quiet : keeps.
Lemma createExecution_quiet a b c st em vm sim rq by_ br oc le : keeps quiet (createTreasuryExecution a b c st em vm sim rq by_ br oc le).
Proof. unfold createTreasuryExecution. keeps_tac. Qed.
Lemma updateExecution_quiet id patch : keeps quiet (updateTreasuryExecution id patch).
Proof. unfold updateTreasuryExecution. keeps_tac. Qed.
Lemma audit_quiet t a x : keeps quiet (treasury_audit t a x).
Proof. unfold treasury_audit. keeps_tac. Qed.
Lemma sync_quiet plan : keeps quiet (sync_linked plan).
Proof. unfold sync_linked. keeps_tac. Qed.
Lemma persist_quiet a b c p e l caps x : keeps quiet (persistTreasuryEvaluation a b c p e l caps x).
Proof. unfold persistTreasuryEvaluation. keeps_tac. Qed.
Lemma setCash_quiet x : keeps quiet (setTreasuryCashBalanceUsd x).
Proof. unfold setTreasuryCashBalanceUsd. keeps_tac. Qed.
Lemma getCash_quiet : keeps quiet getTreasuryCashBalanceUsd.
Proof. unfold getTreasuryCashBalanceUsd. keeps_tac. Qed.
Lemma enqueue_quiet t by_ p : keeps quiet (enqueueCommand t by_ p).
Proof. unfold enqueueCommand, createCommandRecord, enqueueRuntimeCommand, recordRecoveryEvent, getRuntimeCommand. keeps_tac. Qed.
#[local] Hint Resolve createExecution_quiet updateExecution_quiet audit_quiet sync_quiet persist_quiet setCash_quiet getCash_quiet
  enqueue_quiet : keeps.
Lemma snapshots_quiet : keeps quiet collectTreasuryVenueSnapshots.
Proof. unfold collectTreasuryVenueSnapshots. keeps_tac. Qed.
Lemma capabilities_quiet : keeps quiet collectTreasuryVenueCapabilities.
Proof. unfold collectTreasuryVenueCapabilities. keeps_tac. Qed.
#[local] Hint Resolve snapshots_quiet capabilities_quiet : keeps.
Lemma evaluation_quiet options actorId src p idle : keeps quiet (runTreasuryEvaluation options actorId src p idle).
Proof. unfold runTreasuryEvaluation, getTreasurySummary. keeps_tac. Qed.
Lemma plan_quiet options plan : keeps quiet (plan_again options plan).
Proof. unfold plan_again. keeps_tac. Qed.

Lemma stable_allowed role : stable role_of (fun a => allowed role (ta_plan a) = true).
Proof. exact (stable_plan (Row := TreasuryActionRow) role_of (fun p => allowed role p = true)). Qed.
(** The updates of an approved action keep it approved. *)
Lemma keeps_update id P f : (forall a, ta_id (f a) = ta_id a) -> (forall a, ta_plan (f a) = ta_plan a) ->
  (forall a, P a -> approved_well role_of (f a)) ->
  keeps (quiet_for id P) (_ ← td_update_action id f; getTreasuryAction id).
Proof.
  intros H1 H2 H3. apply keeps_bind; [typeclasses eauto|by apply update_for|intros _; apply keeps_guarded, getAction_quiet].
Qed.
Ltac after_now := repeat (apply keeps_bind; [typeclasses eauto|apply keeps_guarded, tq_now_law|intros ?]).
Lemma approve_for id actor : keeps (quiet_for id (fun a => allowed (role_of actor) (ta_plan a) = true)) (store_approveTreasuryAction id actor).
Proof. unfold store_approveTreasuryAction. after_now. apply keeps_update; [done|done|]. intros x Hx. by exists actor. Qed.
Lemma queue_for id c actor : keeps (quiet_for id (approved_well role_of)) (queueTreasuryActionExecution id c actor).
Proof. unfold queueTreasuryActionExecution. after_now. by apply keeps_update. Qed.
Lemma mark_for id : keeps (quiet_for id (approved_well role_of)) (markTreasuryActionExecuting id).
Proof. unfold markTreasuryActionExecuting. after_now. by apply keeps_update. Qed.
Lemma complete_for id x : keeps (quiet_for id (approved_well role_of)) (completeTreasuryAction id x).
Proof. unfold completeTreasuryAction. after_now. by apply keeps_update. Qed.
Lemma fail_for id x m : keeps (quiet_for id (approved_well role_of)) (failTreasuryAction id x m).
Proof. unfold failTreasuryAction. after_now. by apply keeps_update. Qed.

(** What reading an action says of it. *)
Lemma getAction_law id d a d1 : getTreasuryAction id d = (Ret (Some a), d1) -> quiet d d1 /\ ta_id a = id /\ exists d0, quiet d d0 /\ quiet d0 d1 /\ a ∈ actions_of d0.
Proof.
  unfold getTreasuryAction. intros H. eff_inv H as o d0 E; [done|]. apply td_action_law in E as [Q Ho]. specialize (Ho _ eq_refl).
  destruct o as [b|]; [|injection H; done]. eff_inv H as u d2 E2; [done|]. apply td_action_views_law in E2. injection H as -> ->.
  split; [by etrans|]. split; [by eapply find_key_key|]. exists d0. split_and!; [done|done|].
  symmetry in Ho. apply find_some in Ho as [Ho _]. by apply list_elem_of_In.
Qed.
Lemma getAction_has id d a d1 P : stable role_of P -> P a -> getTreasuryAction id d = (Ret (Some a), d1) -> has id P (actions_of d1).
Proof.
  intros HP Ha H. destruct (getAction_law _ _ _ _ H) as (_ & Hid & d0 & _ & Q & Hin).
  apply (has_after role_of actions_of quiet id P d0 d1 HP Q). by exists a.
Qed.
Lemma getAction_approved id d a d1 : Forall (approval_ok role_of) (actions_of d) -> getTreasuryAction id d = (Ret (Some a), d1) ->
  ta_status a <> tes_recommended -> approved_well role_of a /\ has id (approved_well role_of) (actions_of d1).
Proof.
  intros Hok H Hs. assert (Ha : approved_well role_of a).
  { destruct (getAction_law _ _ _ _ H) as (_ & _ & d0 & Q & _ & Hin). apply Q in Hok. rewrite Forall_forall in Hok. by apply (Hok a). }
  split; [done|]. eapply getAction_has; [apply stable_approved|done|done].
Qed.
End Statements.
#[export] Hint Resolve getAction_quiet createExecution_quiet updateExecution_quiet audit_quiet sync_quiet setCash_quiet enqueue_quiet
  snapshots_quiet capabilities_quiet evaluation_quiet plan_quiet tv_portfolio_law keeps_guarded mark_for complete_for fail_for queue_for : keeps.

(** ** The operations *)

Section Operations.
Context `{TL : TreasuryLaws} `{DL : DecimalLib}.
Variable options : TreasuryOptions.

Lemma approve_steady id actor d r d' : approveTreasuryAction id actor (role_of actor) d = (r, d') -> quiet d d'.
Proof.
  unfold approveTreasuryAction. intros H. eff_inv H as o d1 E1; [by apply getAction_quiet in E1|].
  pose proof (getAction_quiet _ _ _ _ E1) as Q1. etrans; [exact Q1|].
  destruct o as [a|]; [|by injection H as <- <-]. destruct (open_to_action (ta_plan a)) eqn:Ho; [|by injection H as <- <-].
  destruct (role_suffices (role_of actor) (ta_plan a)) eqn:Hr; [|by injection H as <- <-]. cbn [negb] in H.
  assert (Ha : allowed (role_of actor) (ta_plan a) = true) by (unfold allowed; by rewrite Ho, Hr).
  assert (K : keeps (quiet_for id (fun a => allowed (role_of actor) (ta_plan a) = true)) (record_approval a id actor)).
  { unfold record_approval. apply keeps_bind; [typeclasses eauto|apply approve_for|intros ?]. apply keeps_guarded. keeps_tac. }
  apply (K _ _ _ H); [apply stable_allowed|]. by eapply getAction_has; [apply stable_allowed|exact Ha|].
Qed.

Lemma enqueue_steady id actor role d r d' : Forall (approval_ok role_of) (actions_of d) ->
  enqueueTreasuryActionExecution id actor role d = (r, d') -> quiet d d'.
Proof.
  intros Hok. unfold enqueueTreasuryActionExecution. intros H. eff_inv H as o d1 E1; [by apply getAction_quiet in E1|].
  pose proof (getAction_quiet _ _ _ _ E1) as Q1. etrans; [exact Q1|].
  destruct o as [a|]; [|by injection H as <- <-]. destruct (open_to_action (ta_plan a)); [|by injection H as <- <-].
  case_bool_decide as Hs; [|by injection H as <- <-]. destruct (role_suffices role (ta_plan a)); [|by injection H as <- <-]. cbn [negb] in H.
  destruct (getAction_approved _ _ _ _ Hok E1) as [_ Hh]; [by rewrite Hs|].
  assert (K : keeps (quiet_for id (approved_well role_of)) (request_execution a id actor)) by (unfold request_execution; keeps_tac).
  by apply (K _ _ _ H); [apply stable_approved|].
Qed.

(** *** The execution *)


Lemma collected_capabilities d caps d' : collectTreasuryVenueCapabilities d = (Ret caps, d') ->
  exists venues d1 reports, tv_listVenues 500 d = (Ret venues, d1) /\ in_turn tv_getCapabilities tv_keys d1 reports d' /\
    caps = map (fun c => promoted (jm_get (vc_venueId c) (jm_of_list venues)) c) reports.
Proof.
  unfold collectTreasuryVenueCapabilities. intros H. eff_inv H as venues d1 E1; [done|]. cbv beta zeta in H.
  apply (collect_in_turn tv_getCapabilities (fun c => promoted (jm_get (vc_venueId c) (jm_of_list venues)) c)) in H as (reports & H & ->).
  by exists venues, d1, reports.
Qed.
Lemma find_map {A B} (f : A -> B) (q : B -> bool) l y : List.find q (map f l) = Some y -> exists x, List.find (fun x => q (f x)) l = Some x /\ y = f x.
Proof. induction l as [|x l IH]; [done|]. cbn. destruct (q (f x)); [intros [= <-]; by exists x|exact IH]. Qed.

(** An executable intent for a venue has a capable venue. *)
Lemma executable_capable input r i v : createIntentForRecommendation input r = Ret i -> ti_executable i = true -> tr_venueId r = Some v ->
  exists c, findVenueCapabilities (pn_venueCapabilities input) (Some v) = Some c /\ venue_capable input r c.
Proof.
  unfold createIntentForRecommendation. intros H He Hv. exn_inv H as p Ep. exn_inv H as reasons Er. injection H as <-. cbn [ti_executable] in He.
  unfold blocked_reasons in Er. exn_inv Er as size E1. exn_inv Er as action E2. injection Er as <-.
  rewrite !is_empty_app, !andb_true_iff in He. destruct He as (_ & _ & _ & He). apply capability_reasons_empty in He; [|by rewrite Hv].
  by rewrite Hv in He.
Qed.

(** The venue is cleared for the action by the promotions that are listed and what
    the adapters report: the first report of the venue says that it executes actions
    of the kind and, where it is live, the runtime is live and the connector approved
    for live use and eligible. *)
Definition cleared (plan : TreasuryActionPlan) (venues : list (string * ConnectorPromotionSummary)) (reports : list TreasuryVenueCapabilities)
    (venueId : string) : Prop :=
  exists c, List.find (fun c => bool_decide (vc_venueId c = venueId)) reports = Some c /\ vc_executionSupported c = true /\
    (if bool_decide (tap_actionType plan = allocate_to_venue) then vc_supportsAllocation c else vc_supportsReduction c) = true /\
    (vc_venueMode c = vm_live -> to_executionMode options = tm_live /\ to_liveExecutionEnabled options = true /\
       exists p, jm_get venueId (jm_of_list venues) = Some p /\ cp_approvedForLiveUse p = true /\ cp_sensitiveExecutionEligible p = true).
(** The promotions and reports that are read from [d] on, after the portfolio and the
    states of the venues. *)
Definition read_from (d : Db) (venues : list (string * ConnectorPromotionSummary)) (reports : list TreasuryVenueCapabilities) : Prop :=
  exists portfolio d1 snapshots d2 d3 d4, tv_portfolio d = (Ret portfolio, d1) /\ collectTreasuryVenueSnapshots d1 = (Ret snapshots, d2) /\
    tv_listVenues 500 d2 = (Ret venues, d3) /\ in_turn tv_getCapabilities tv_keys d3 reports d4.

Lemma plan_cleared plan d p intents d' i rest v : plan_again options plan d = (Ret (p, intents), d') -> intents = i :: rest ->
  ti_executable i = true -> tap_venueId plan = Some v -> exists venues reports, read_from d venues reports /\ cleared plan venues reports v.
Proof.
  unfold plan_again. intros H Hi He Hv. eff_inv H as p0 d1 E1; [done|]. eff_inv H as s d2 E2; [done|]. eff_inv H as caps d3 E3; [done|].
  eff_inv H as ev d4 E4; [done|]. eff_inv H as l d5 E5; [done|]. injection H as -> -> _. injection E5 as E5 _. subst intents.
  unfold createExecutionIntents in E5. cbn [planning_input pn_evaluation with_recommendations te_recommendations map_exn] in E5.
  exn_inv E5 as i0 Ei. injection E5 as -> _. destruct (executable_capable _ _ _ _ Ei He Hv) as (c & Hf & Hs & Hk & Hl).
  cbn [planning_input pn_venueCapabilities pn_executionMode pn_liveExecutionEnabled] in Hf, Hl.
  destruct (collected_capabilities _ _ _ E3) as (venues & d6 & reports & Hlist & Hturn & ->). exists venues, reports.
  split; [by exists p, d1, s, d2, d6, d3|].
  apply (find_map _ (fun c => bool_decide (vc_venueId c = v))) in Hf as (c0 & Hf & ->). exists c0. split_and!; [exact Hf|exact Hs| |].
  - cbn [promoted vc_supportsAllocation vc_supportsReduction] in Hk. unfold is_deposit, action_recommendation in Hk. cbn [tr_actionType] in Hk.
    destruct (tap_actionType plan); exact Hk.
  - intros Hm. destruct (Hl Hm) as (Ha & Hel & ? & ?). cbn [promoted vc_approvedForLiveUse vc_sensitiveExecutionEligible] in Ha, Hel.
    apply find_some in Hf as [_ Hid%bool_decide_eq_true]. cbn [promoted vc_venueId] in Hid.
    split_and!; [done|done|]. rewrite Hid in Ha, Hel. destruct (jm_get v (jm_of_list venues)) as [q|]; [by exists q|done].
Qed.

Lemma record_result_for a input x p idle result :
  keeps (quiet_for (ta_id a) (approved_well role_of)) (record_result options a input x p idle result).
Proof. unfold record_result. keeps_tac. Qed.
Lemma record_failure_for {A} a input x e : keeps (quiet_for (ta_id a) (approved_well role_of)) (record_failure (A := A) a input x e).
Proof. unfold record_failure. keeps_tac. Qed.
Lemma fail_attempt_for {A} a x m : keeps (quiet_for (ta_id a) (approved_well role_of)) (fail_attempt (A := A) a x m).
Proof. unfold fail_attempt. keeps_tac. Qed.
Lemma block_attempt_for {A} a input x l : keeps (quiet_for (ta_id a) (approved_well role_of)) (block_attempt (A := A) a input x l).
Proof. unfold block_attempt. keeps_tac. Qed.
Lemma budget_for a input : keeps (quiet_for (ta_id a) (approved_well role_of)) (execute_budget a input).
Proof. unfold execute_budget. keeps_tac. Qed.

Lemma ask_venue_law a input x v p idle d r d' : has (ta_id a) (approved_well role_of) (actions_of d) -> ask_venue options a input x v p idle d = (r, d') ->
  drifts role_of (actions_of d) (actions_of d') /\ calls_of d' = calls_of d ++ [(v, venue_request a (xi_actorId input))].
Proof.
  intros Hd. unfold ask_venue, catch_eff. set (body := tv_executeTreasuryAction _ _ ≫= _). destruct (body d) as [r1 d1] eqn:E. subst body. intros H.
  assert (G : exists d0, drifts role_of (actions_of d) (actions_of d0) /\ calls_of d0 = calls_of d ++ [(v, venue_request a (xi_actorId input))] /\
    quiet d0 d1).
  { eff_inv E as result d2 E2; apply tv_execute_law in E2 as [D2 C2]; [exists d1; split_and!; [done|done|reflexivity]|]. exists d2. split_and!; [done|done|].
    apply (record_result_for _ _ _ _ _ _ _ _ _ E); [apply stable_approved|].
    exact (has_drift role_of _ _ _ _ (stable_approved _) D2 Hd). }
  destruct G as (d0 & D0 & C0 & Q). assert (Q' : quiet d1 d').
  { destruct r1 as [b|e]; [by injection H as <- <-|]. apply (record_failure_for _ _ _ _ _ _ _ H); [apply stable_approved|].
    refine (has_drift role_of _ _ _ _ (stable_approved _) _ Hd). etrans; [exact D0|apply Q]. }
  destruct Q as [Q1 Q2], Q' as [Q3 Q4]. split; [|congruence]. etrans; [exact D0|]. by etrans.
Qed.

(** Either no venue is asked and the execution fails, or the venue of the action
    is asked once, cleared by what this execution has read. *)
Definition asks_once (a : TreasuryActionRow) (actorId : string) (d d' : Db) {A} (r : exn A) : Prop :=
  calls_of d' = calls_of d /\ is_ret r = false \/
  exists v venues reports, tap_venueId (ta_plan a) = Some v /\ read_from d venues reports /\ cleared (ta_plan a) venues reports v /\
    calls_of d' = calls_of d ++ [(v, venue_request a actorId)].

Lemma fail_asks {A} a actorId d d' (r : exn A) : quiet d d' -> is_ret r = false ->
  drifts role_of (actions_of d) (actions_of d') /\ asks_once a actorId d d' r.
Proof. intros [? ?] Hr. split; [done|by left]. Qed.
Lemma execute_on_venue_law a input d r d' : has (ta_id a) (approved_well role_of) (actions_of d) -> execute_on_venue options a input d = (r, d') ->
  drifts role_of (actions_of d) (actions_of d') /\ asks_once a (xi_actorId input) d d' r.
Proof.
  intros Hd. unfold execute_on_venue. intros H. eff_inv H as planned d1 E1; pose proof (plan_quiet _ _ _ _ _ E1) as Q1; [subst r; by apply fail_asks|].
  destruct planned as [p intents]. destruct intents as [|i rest]; [injection H as <- <-; by apply fail_asks|].
  eff_inv H as x d2 E2; pose proof (createExecution_quiet _ _ _ _ _ _ _ _ _ _ _ _ _ _ _ E2) as Q2; [subst r; apply fail_asks; [by etrans|done]|].
  assert (Q : quiet d d2) by by etrans. apply (has_after role_of actions_of quiet _ _ d d2 (stable_approved _) Q) in Hd.
  destruct (ti_executable i) eqn:He; cbn [negb] in H.
  2: { pose proof (block_attempt_for _ _ _ _ _ _ _ H (stable_approved _) Hd) as Q3. apply fail_asks; [by etrans|].
       unfold block_attempt in H. eff_inv H as u1 s1 F1; [by subst r|]. eff_inv H as u2 s2 F2; [by subst r|]. eff_inv H as u3 s3 F3; [by subst r|]. by injection H as <- _. }
  eff_inv H as m d3 E3; pose proof (mark_for _ _ _ _ E3 (stable_approved _) Hd) as Q3; [subst r; apply fail_asks; [by etrans|done]|].
  assert (Q' : quiet d d3) by by etrans. apply (has_after role_of actions_of quiet _ _ d2 d3 (stable_approved _) Q3) in Hd.
  assert (Hfail : forall msg, fail_attempt a (txe_id x) msg d3 = (r, d') ->
    drifts role_of (actions_of d) (actions_of d') /\ asks_once a (xi_actorId input) d d' r).
  { intros msg Hm. pose proof (fail_attempt_for _ _ _ _ _ _ Hm (stable_approved _) Hd) as Q4. apply fail_asks; [by etrans|].
    unfold fail_attempt in Hm. eff_inv Hm as u1 s1 F1; [by subst r|]. eff_inv Hm as u2 s2 F2; [by subst r|]. eff_inv Hm as u3 s3 F3; [by subst r|]. by injection Hm as <- _. }
  destruct (tap_venueId (ta_plan a)) as [v|] eqn:Hv; [|by eapply Hfail]. case_bool_decide; [|by eapply Hfail].
  destruct (ask_venue_law _ _ _ _ _ _ _ _ _ Hd H) as [D C]. split; [etrans; [apply Q'|exact D]|]. right.
  destruct (plan_cleared _ _ _ _ _ _ _ _ E1 eq_refl He Hv) as (venues & reports & Hr & Hc). exists v, venues, reports. split_and!; [done|done|done|].
  rewrite C. by rewrite (proj2 Q').
Qed.

Lemma executable_open s : executable_status s = true -> s = tes_queued \/ s = tes_approved.
Proof. unfold executable_status. by rewrite orb_true_iff, !bool_decide_eq_true. Qed.
Lemma execute_law input d r d' : Forall (approval_ok role_of) (actions_of d) -> executeTreasuryAction options input d = (r, d') ->
  drifts role_of (actions_of d) (actions_of d') /\
  ((calls_of d' = calls_of d /\ is_ret r = false) \/
   exists a d1, getTreasuryAction (xi_actionId input) d = (Ret (Some a), d1) /\ (ta_status a = tes_queued \/ ta_status a = tes_approved) /\ approved_well role_of a /\
     calls_of d1 = calls_of d /\
     if bool_decide (tap_actionType (ta_plan a) = rebalance_treasury_budget) then calls_of d' = calls_of d
     else asks_once a (xi_actorId input) d1 d' r).
Proof.
  intros Hok. unfold executeTreasuryAction. intros H. eff_inv H as o d1 E1; pose proof (getAction_quiet _ _ _ _ E1) as Q1.
  { subst r. split; [apply Q1|]. left. by split; [apply Q1|]. }
  destruct o as [a|]; [|injection H as <- <-; split; [apply Q1|left; by split; [apply Q1|]]].
  destruct (executable_status (ta_status a)) eqn:Hs; [|injection H as <- <-; split; [apply Q1|left; by split; [apply Q1|]]]. cbn [negb] in H.
  destruct (getAction_approved _ _ _ _ Hok E1) as [Hw Hh].
  { intros E. rewrite E in Hs. done. }
  rewrite <- (proj1 (proj2 (getAction_law _ _ _ _ E1))) in Hh. case_bool_decide as Ht.
  - pose proof (budget_for _ _ _ _ _ H (stable_approved _) Hh) as Q2. assert (Q : quiet d d') by by etrans. split; [apply Q|].
    right. exists a, d1. rewrite bool_decide_true by done. split_and!; [done|by apply executable_open|done|apply Q1|apply Q].
  - destruct (execute_on_venue_law _ _ _ _ _ Hh H) as [D A]. split; [etrans; [apply Q1|exact D]|].
    right. exists a, d1. rewrite bool_decide_false by done. split_and!; [done|by apply executable_open|done|apply Q1|exact A].
Qed.
End Operations.

(** ** Properties *)

Section Properties.
Context `{TL : TreasuryLaws} `{DL : DecimalLib}.
Variable options : TreasuryOptions.

(** The operations of the control plane and of the worker on treasury actions. *)
Inductive TreasuryCall :=
  | Approve (actionId actorId : string)
  | Enqueue (actionId actorId : string)
  | Execute (input : ExecuteTreasuryInput)
  | Evaluate (actorId : string) (sourceRunId : option string).
(** The state after a call, which may have thrown. *)
Definition after_call (c : TreasuryCall) (d : Db) : Db :=
  match c with
  | Approve id actor => (approveTreasuryAction id actor (role_of actor) d).2
  | Enqueue id actor => (enqueueTreasuryActionExecution id actor (role_of actor) d).2
  | Execute input => (executeTreasuryAction options input d).2
  | Evaluate actor src => (runTreasuryEvaluation options actor src None None d).2
  end.

Lemma call_drifts c d : Forall (approval_ok role_of) (actions_of d) -> drifts role_of (actions_of d) (actions_of (after_call c d)).
Proof.
  intros Hok. destruct c as [id actor|id actor|input|actor src]; cbn [after_call].
  - destruct (approveTreasuryAction _ _ _ d) as [r d'] eqn:E. by apply approve_steady in E as [? _].
  - destruct (enqueueTreasuryActionExecution _ _ _ d) as [r d'] eqn:E. by apply enqueue_steady in E as [? _].
  - destruct (executeTreasuryAction _ _ d) as [r d'] eqn:E. by apply execute_law in E as [? _].
  - destruct (runTreasuryEvaluation _ _ _ _ _ d) as [r d'] eqn:E. by apply evaluation_quiet in E as [? _].
Qed.

Definition after_calls (calls : list TreasuryCall) (d : Db) : Db := fold_left (fun d c => after_call c d) calls d.
Lemma calls_drift calls d : Forall (approval_ok role_of) (actions_of d) -> drifts role_of (actions_of d) (actions_of (after_calls calls d)).
Proof.
  revert d. induction calls as [|c calls IH]; intros d Hok; [done|]. pose proof (call_drifts c d Hok) as D.
  etrans; [exact D|]. apply IH. by apply D.
Qed.

(** C15. No treasury action goes beyond its recommendation without an approval.
    After any calls that approve, queue, execute or evaluate, whether they returned
    or threw, and whatever other processes did by the same calls between their
    statements, every action that is no longer recommended was approved by an actor
    whose role suffices for it, and was open to action; and no action or approval is lost.
    Approvals by the execution of a rebalance proposal or a recovery of its bundle are
    not among the calls. *)
Theorem treasury_needs_approval (calls : list TreasuryCall) (d : Db) : Forall (approval_ok role_of) (actions_of d) ->
  Forall (approval_ok role_of) (actions_of (after_calls calls d)) /\
  forall a, a ∈ actions_of d -> exists a', a' ∈ actions_of (after_calls calls d) /\ later role_of a a'.
Proof. intros Hok. destruct (calls_drift calls d Hok) as [H1 H2]. split; [by apply H1|exact H2]. Qed.

(** C16. A venue is asked only when it is cleared.  While the actions beyond their
    recommendation are approved, as C15 keeps them, the execution of an action asks
    at most one venue, once, and one that returns asks one unless the action only
    applies a budget.  It asks the venue of the action, for the amount of the
    action, which was queued or approved, by an actor whose role suffices, when it
    was read. What the execution itself reads after that, the listed promotions and
    then the reports of the adapters one by one, clears the venue: its first report
    says that it executes such actions and, where it is live, the runtime is in live
    mode with live execution enabled and the connector is, in that list, approved
    for live use and eligible for sensitive execution. *)
Theorem venue_asked_when_cleared (input : ExecuteTreasuryInput) (d : Db) (r : exn ExecuteTreasuryResult) (d' : Db) :
  Forall (approval_ok role_of) (actions_of d) -> executeTreasuryAction options input d = (r, d') ->
  (calls_of d' = calls_of d /\ is_ret r = false) \/
  exists a d1, getTreasuryAction (xi_actionId input) d = (Ret (Some a), d1) /\ (ta_status a = tes_queued \/ ta_status a = tes_approved) /\ approved_well role_of a /\
    calls_of d1 = calls_of d /\
    if bool_decide (tap_actionType (ta_plan a) = rebalance_treasury_budget) then calls_of d' = calls_of d
    else asks_once options a (xi_actorId input) d1 d' r.
Proof. intros Hok H. by apply execute_law in H as [_ H]. Qed.
End Properties.

(** ** Tables and simulated venues in memory *)

Record Treasury := MkTreasury {
  tm_base : Tables;
  (** the actions, in the order of their ids *)
  tm_actions : list TreasuryActionRow;
  tm_executions : list TreasuryExecution;
  tm_runs : list TreasuryRunRow;
  tm_current : option TreasuryCurrentRow;
  tm_venues : list (string * SimulatedTreasuryVenue);
  tm_calls : list (string * TreasuryVenueExecutionRequest);
  (** what the portfolio tracker reads *)
  tm_idle : string;
  (** an audit event that cannot be written; the venues report failures *)
  tm_fault : option string;
  tm_reports_failed : bool;
}.
Definition on_base {A} (m : eff Tables A) : eff Treasury A := fun d =>
  let '(r, b) := m (tm_base d) in
  (r, MkTreasury b (tm_actions d) (tm_executions d) (tm_runs d) (tm_current d) (tm_venues d) (tm_calls d) (tm_idle d) (tm_fault d) (tm_reports_failed d)).
Definition with_actions (l : list TreasuryActionRow) (d : Treasury) : Treasury :=
  MkTreasury (tm_base d) l (tm_executions d) (tm_runs d) (tm_current d) (tm_venues d) (tm_calls d) (tm_idle d) (tm_fault d) (tm_reports_failed d).
Definition with_executions (l : list TreasuryExecution) (d : Treasury) : Treasury :=
  MkTreasury (tm_base d) (tm_actions d) l (tm_runs d) (tm_current d) (tm_venues d) (tm_calls d) (tm_idle d) (tm_fault d) (tm_reports_failed d).
Definition with_runs (l : list TreasuryRunRow) (d : Treasury) : Treasury :=
  MkTreasury (tm_base d) (tm_actions d) (tm_executions d) l (tm_current d) (tm_venues d) (tm_calls d) (tm_idle d) (tm_fault d) (tm_reports_failed d).
Definition with_current (c : option TreasuryCurrentRow) (d : Treasury) : Treasury :=
  MkTreasury (tm_base d) (tm_actions d) (tm_executions d) (tm_runs d) c (tm_venues d) (tm_calls d) (tm_idle d) (tm_fault d) (tm_reports_failed d).
Definition with_call (k : string) (q : TreasuryVenueExecutionRequest) (venues : list (string * SimulatedTreasuryVenue)) (d : Treasury) : Treasury :=
  MkTreasury (tm_base d) (tm_actions d) (tm_executions d) (tm_runs d) (tm_current d) venues (tm_calls d ++ [(k, q)]) (tm_idle d) (tm_fault d)
    (tm_reports_failed d).
Definition with_fault (fault : option string) (reportsFailed : bool) (d : Treasury) : Treasury :=
  MkTreasury (tm_base d) (tm_actions d) (tm_executions d) (tm_runs d) (tm_current d) (tm_venues d) (tm_calls d) (tm_idle d) fault reportsFailed.

#[export] Instance treasury_mismatches : MismatchDb := {|
  Db := Treasury;
  db_select k := on_base (db_select (MismatchDb := tables_mismatches) k);
  db_select_id i := on_base (db_select_id (MismatchDb := tables_mismatches) i);
  db_insert mk := on_base (db_insert (MismatchDb := tables_mismatches) mk);
  db_update k f := on_base (db_update (MismatchDb := tables_mismatches) k f);
  db_update_id i f := on_base (db_update_id (MismatchDb := tables_mismatches) i f);
  db_list n sk := on_base (db_list (MismatchDb := tables_mismatches) n sk);
  db_insert_event e := on_base (db_insert_event (MismatchDb := tables_mismatches) e);
  db_now := on_base (db_now (MismatchDb := tables_mismatches));
|}.
#[export] Instance treasury_commands : CommandDb (MD := treasury_mismatches) := {|
  cd_create_id := on_base (cd_create_id (CommandDb := tables_commands)) : eff (@Db treasury_mismatches) _;
  cd_insert_command id mk := on_base (cd_insert_command (CommandDb := tables_commands) id mk) : eff (@Db treasury_mismatches) _;
  cd_pending := on_base (cd_pending (CommandDb := tables_commands)) : eff (@Db treasury_mismatches) _;
  cd_command id := on_base (cd_command (CommandDb := tables_commands) id) : eff (@Db treasury_mismatches) _;
  cd_update_command id c f := on_base (cd_update_command (CommandDb := tables_commands) id c f) : eff (@Db treasury_mismatches) _;
  cd_last_attempt m := on_base (cd_last_attempt (CommandDb := tables_commands) m) : eff (@Db treasury_mismatches) _;
  cd_insert_remediation mk := on_base (cd_insert_remediation (CommandDb := tables_commands) mk) : eff (@Db treasury_mismatches) _;
  cd_remediation p := on_base (cd_remediation (CommandDb := tables_commands) p) : eff (@Db treasury_mismatches) _;
  cd_update_remediation id f := on_base (cd_update_remediation (CommandDb := tables_commands) id f) : eff (@Db treasury_mismatches) _;
  cd_event id := on_base (cd_event (CommandDb := tables_commands) id) : eff (@Db treasury_mismatches) _;
  cd_worker := on_base (cd_worker (CommandDb := tables_commands)) : eff (@Db treasury_mismatches) _;
  cd_insert_worker w := on_base (cd_insert_worker (CommandDb := tables_commands) w) : eff (@Db treasury_mismatches) _;
  cd_update_worker f := on_base (cd_update_worker (CommandDb := tables_commands) f) : eff (@Db treasury_mismatches) _;
  cd_runtime := on_base (cd_runtime (CommandDb := tables_commands)) : eff (@Db treasury_mismatches) _;
  cd_recovery id := on_base (cd_recovery (CommandDb := tables_commands) id) : eff (@Db treasury_mismatches) _;
  cd_update_recovery id f := on_base (cd_update_recovery (CommandDb := tables_commands) id f) : eff (@Db treasury_mismatches) _;
|}.

Definition action_id (n : nat) : string := "action-" +:+ z_str (Z.of_nat n).
Definition with_id (id : string) (a : TreasuryActionRow) : TreasuryActionRow :=
  MkTreasuryAction id (ta_plan a) (ta_status a) (ta_approvedBy a) (ta_approvedAt a) (ta_executionRequestedBy a)
    (ta_executionRequestedAt a) (ta_queuedAt a) (ta_executingAt a) (ta_completedAt a) (ta_failedAt a) (ta_cancelledAt a) (ta_linkedCommandId a)
    (ta_latestExecutionId a) (ta_lastError a) (ta_updatedAt a).
Definition table_actions (d : Treasury) : list TreasuryActionRow := numbered with_id action_id (tm_actions d).
Definition new_ids (n m : nat) : list string := names action_id n m.

#[export] Instance treasury_db : TreasuryDb (CD := treasury_commands) := {|
  td_action id := (fun d => (Ret (find_key ta_id id (table_actions d)), d)) : eff (@Db treasury_mismatches) _;
  td_action_views _ := (fun d => (Ret tt, d)) : eff (@Db treasury_mismatches) _;
  td_insert_actions plans := (fun d =>
    let rows := zip_with recommended_row (new_ids (length (tm_actions d)) (length plans)) plans in
    (Ret rows, with_actions (tm_actions d ++ rows) d)) : eff (@Db treasury_mismatches) _;
  td_update_action id f := (fun d => (Ret tt, with_actions (map (set_row id f) (table_actions d)) d)) : eff (@Db treasury_mismatches) _;
  td_insert_execution mk := (fun d =>
    let x := mk ("execution-" +:+ z_str (Z.of_nat (length (tm_executions d)))) (md_clock (tb_mismatches (tm_base d))) in
    (Ret (Some x), with_executions (tm_executions d ++ [x]) d)) : eff (@Db treasury_mismatches) _;
  td_execution id := (fun d => (Ret (find_key txe_id id (tm_executions d)), d)) : eff (@Db treasury_mismatches) _;
  td_update_execution id f := (fun d =>
    (Ret tt, with_executions (map (fun x => if decide (txe_id x = id) then f x else x) (tm_executions d)) d)) : eff (@Db treasury_mismatches) _;
  td_insert_run x := (fun d => (Ret tt, with_runs (x :: tm_runs d) d)) : eff (@Db treasury_mismatches) _;
  td_insert_snapshots _ := (fun d => (Ret tt, d)) : eff (@Db treasury_mismatches) _;
  td_latest_run := (fun d => (Ret (hd_error (tm_runs d)), d)) : eff (@Db treasury_mismatches) _;
  td_current := (fun d => (Ret (tm_current d), d)) : eff (@Db treasury_mismatches) _;
  td_insert_current c := (fun d => (Ret tt, with_current (Some c) d)) : eff (@Db treasury_mismatches) _;
  td_update_current f := (fun d => (Ret tt, with_current (f <$> tm_current d) d)) : eff (@Db treasury_mismatches) _;
  td_sync_bundle _ := (fun d => (Ret tt, d)) : eff (@Db treasury_mismatches) _;
  td_audit _ e := (fun d => (if bool_decide (tm_fault d = Some (Executor.ae_eventType e)) then Throw (Error_ "connection lost") else Ret tt, d))
    : eff (@Db treasury_mismatches) _;
|}.

Definition atlas_t1 : SimulatedTreasuryVenueConfig :=
  MkSimTreasuryConfig "atlas-t1-sim" "Atlas Treasury T1" same_day (num_of_Z 465) "750000" "5000" (Some "5000") None None.
Definition atlas (k : string) : SimulatedTreasuryVenueConfig := if String.eqb k "atlas-t0-sim" then atlas_t0 else atlas_t1.
Definition venue_at (k : string) (d : Treasury) : SimulatedTreasuryVenue :=
  or_else (jm_get k (tm_venues d)) (new_SimulatedTreasuryVenue (atlas k)).
Definition memory_execute (k : string) (q : TreasuryVenueExecutionRequest) : eff Treasury TreasuryVenueExecutionResult := fun d =>
  if tm_reports_failed d then
    (Ret (MkTreasuryResult k vm_simulated (k +:+ "-refused") trs_failed "Refused by the venue." true "0.00" "0.00" "0.00" []), with_call k q (tm_venues d) d)
  else
    let '(r, v) := sim_executeTreasuryAction (atlas k) q (venue_at k d) in (r, with_call k q (jm_set k v (tm_venues d)) d).
#[export] Instance treasury_venues : TreasuryVenues (TD := treasury_db) := {|
  tv_keys := ["atlas-t0-sim"; "atlas-t1-sim"];
  tv_getVenueState k := (fun d => (Ret (sim_getVenueState (atlas k) 0), d)) : eff (@Db treasury_mismatches) _;
  tv_getPosition k := (fun d => (Ret (sim_getPosition (atlas k) (venue_at k d) 0), d)) : eff (@Db treasury_mismatches) _;
  tv_getCapabilities k := (fun d => (Ret (sim_getCapabilities (atlas k)), d)) : eff (@Db treasury_mismatches) _;
  tv_executeTreasuryAction k q := memory_execute k q : eff (@Db treasury_mismatches) _;
  tv_listVenues _ := (fun d => (Ret [], d)) : eff (@Db treasury_mismatches) _;
  tv_portfolio := (fun d => (Ret (MkPortfolioState (tm_idle d) "0" "0" (tm_idle d) n_zero n_zero n_zero ∅ ∅ ∅ n_zero), d))
    : eff (@Db treasury_mismatches) _;
  tv_refreshVenueTruthInventory := (fun d => (Ret tt, d)) : eff (@Db treasury_mismatches) _;
|}.

#[export] Instance action_id_inj : Inj (=) (=) action_id.
Proof. intros n m. unfold action_id, z_str. intros H. apply (inj (String.append "action-")) in H. apply (inj pretty) in H. lia. Qed.
Lemma with_id_same a : with_id (ta_id a) a = a.
Proof. by destruct a. Qed.
Lemma actions_updated d id f : (forall a, ta_id (f a) = ta_id a) ->
  table_actions (with_actions (map (set_row id f) (table_actions d)) d) = map (set_row id f) (table_actions d).
Proof.
  intros Hf. apply (numbered_updated ta_id with_id action_id (fun i a => eq_refl) with_id_same). intros a. unfold set_row. by destruct (decide _).
Qed.
Lemma zip_ids ids plans : length ids = length plans -> map ta_id (zip_with recommended_row ids plans) = ids.
Proof. revert plans. induction ids as [|i ids IH]; intros [|p plans]; [done..|]. cbn. intros [= H]. by rewrite IH. Qed.
Lemma actions_inserted d plans :
  let rows := zip_with recommended_row (new_ids (length (tm_actions d)) (length plans)) plans in
  table_actions (with_actions (tm_actions d ++ rows) d) = table_actions d ++ rows.
Proof.
  apply (numbered_appended ta_id with_id action_id with_id_same). rewrite zip_ids by apply names_length. f_equal.
  rewrite length_zip_with. unfold new_ids. rewrite names_length. lia.
Qed.

(** The role of an actor, by name. *)
Definition sample_role (actor : string) : ActorRole :=
  if String.eqb actor "ada" then role_admin else if String.eqb actor "olga" then role_operator else role_viewer.
Definition memory_quiet (d d' : Treasury) : Prop := drifts sample_role (table_actions d) (table_actions d') /\ tm_calls d' = tm_calls d.
Lemma same_quiet d d' : tm_actions d' = tm_actions d -> tm_calls d' = tm_calls d -> memory_quiet d d'.
Proof. intros Ha Hc. split; [|done]. unfold table_actions. rewrite Ha. split; [done|]. intros a ?. by exists a. Qed.
Lemma base_quiet {A} (m : eff Tables A) d r d' : on_base m d = (r, d') -> memory_quiet d d'.
Proof. unfold on_base. destruct (m (tm_base d)) as [r0 b]. intros [= _ <-]. by apply same_quiet. Qed.

#[export] Program Instance memory_laws : TreasuryLaws (TV := treasury_venues) := {|
  role_of := sample_role;
  actions_of := table_actions : @Db treasury_mismatches -> _;
  calls_of := tm_calls : @Db treasury_mismatches -> _;
|}.
Next Obligation. intros d. exact (numbered_unique ta_id with_id action_id (fun i a => eq_refl) _). Qed.
Next Obligation. intros id d r d' [= <- <-]. split; [by apply same_quiet|]. by intros o [= <-]. Qed.
Next Obligation. intros a d r d' [= _ <-]. by apply same_quiet. Qed.
Next Obligation.
  intros plans d r d' [= <- <-]. right. exists d, (new_ids (length (tm_actions d)) (length plans)).
  refine (conj (same_quiet d d eq_refl eq_refl) _). split_and!; [apply names_length|done|apply actions_inserted|done].
Qed.
Next Obligation. intros id f d r d' [= <- <-] Hf. right. exists d.
  refine (conj (same_quiet d d eq_refl eq_refl) _). split; [by apply actions_updated|done].
Qed.
Solve All Obligations with
  (intros; intros ? ? ? E; cbn in E; first [exact (base_quiet _ _ _ _ E) | injection E as _ <-; by apply same_quiet]).
Next Obligation.
  intros k q d r d' E. cbn in E. unfold memory_execute in E. destruct (tm_reports_failed d); [injection E as <- <-|].
  - split; [|done]. split; [done|]. intros a ?. by exists a.
  - destruct (sim_executeTreasuryAction _ _ _) as [r0 v]. injection E as _ <-. split; [|done]. split; [done|]. intros a ?. by exists a.
Qed.

(** *** Actions from evaluation to execution *)

Definition sample_options : TreasuryOptions := MkTreasuryOptions DEFAULT_TREASURY_POLICY tm_dry_run false.
Definition empty_treasury : Treasury := MkTreasury (ready_tables [] None) [] [] [] None [] [] "60000" None false.
Definition run_calls (calls : list TreasuryCall) (d : Treasury) : Treasury := after_calls (TL := memory_laws) sample_options calls d.
Definition evaluated : Treasury := run_calls [Evaluate "olga" None] empty_treasury.
Definition action_shows (d : Treasury) : list (string * string * TreasuryExecutionStatus * option string) :=
  map (fun a => (ta_id a, tap_amountUsd (ta_plan a), ta_status a, ta_approvedBy a)) (table_actions d).
Definition execution_statuses (d : Treasury) : list TreasuryExecutionStatus := map txe_status (tm_executions d).
Definition execute_0 : TreasuryCall := Execute (MkExecuteTreasury "action-0" "olga" None "worker-a").
Definition perform (id : string) : list TreasuryCall := [Approve id "olga"; Enqueue id "olga"; Execute (MkExecuteTreasury id "olga" None "worker-a")].
Definition asked_of (d : Treasury) : list (string * string) := map (fun c => (c.1, trq_amountUsd c.2)) (tm_calls d).
Definition cash (d : Treasury) : option string := tcr_cashBalanceUsd <$> tm_current d.
Definition allocations (d : Treasury) : list (string * string) := map (fun kv => (kv.1, sty_currentAllocationUsd kv.2)) (tm_venues d).
Definition idle_spent (d : Treasury) : list string := map snd (asked_of d).

Example action_executes :
  action_shows evaluated = [("action-0", "35000.00", tes_recommended, None); ("action-1", "15000.00", tes_recommended, None)] /\
  (** a viewer cannot approve *)
  action_shows (run_calls [Approve "action-1" "eve"; Enqueue "action-1" "olga"; execute_0] evaluated) = action_shows evaluated /\
  let d := run_calls (perform "action-1") evaluated in
  action_shows d = [("action-0", "35000.00", tes_recommended, None); ("action-1", "15000.00", tes_completed, Some "olga");
                    ("action-2", "35000.00", tes_recommended, None)] /\
  asked_of d = [("atlas-t0-sim", "15000.00")] /\ cash d = Some "45000.00" /\ allocations d = [("atlas-t0-sim", "30000.00")].
Proof. vm_compute. done. Qed.

(** A completed action can be approved again, and is executed again. *)
Example completed_action_repeats :
  let d := run_calls (perform "action-1" ++ perform "action-1") evaluated in
  asked_of d = [("atlas-t0-sim", "15000.00"); ("atlas-t0-sim", "15000.00")] /\ execution_statuses d = [tes_completed; tes_completed].
Proof. vm_compute. done. Qed.

(** Of 60,000 idle, with 10,000 to stay idle, 65,000 are deployed, and the recorded
    cash is 45,000: each action is planned on what the portfolio tracker reads, not
    on the recorded cash. *)
Example more_than_idle_deployed :
  let d := run_calls (perform "action-0" ++ perform "action-1" ++ perform "action-2") evaluated in
  idle_spent d = ["35000.00"; "15000.00"; "15000.00"] /\ execution_statuses d = [tes_completed; tes_completed; tes_completed] /\
  cash d = Some "45000.00".
Proof. vm_compute. done. Qed.

(** The venue refused, and the action is completed. *)
Example refused_is_completed :
  let d := run_calls (perform "action-1") (with_fault None true evaluated) in
  allocations d = [] /\ execution_statuses d = [tes_completed] /\ map ta_status (table_actions d) = [tes_recommended; tes_completed; tes_recommended; tes_recommended].
Proof. vm_compute. done. Qed.

(** The venue executed the action; then its audit event could not be written, and
    the action is failed. *)
Example executed_is_failed :
  let d := run_calls (perform "action-1") (with_fault (Some "treasury.executed") false evaluated) in
  allocations d = [("atlas-t0-sim", "30000.00")] /\ execution_statuses d = [tes_failed] /\
  map ta_status (table_actions d) = [tes_recommended; tes_failed; tes_recommended].
Proof. vm_compute. done. Qed.

(** The worker executes the action after its command is asked for and before the
    action is queued: it ends queued, with no time of completion. *)
Example queued_after_completion :
  let d1 := run_calls [Approve "action-1" "olga"] evaluated in
  let d2 := (enqueueCommand (CD := treasury_commands) rct_execute_treasury_action "olga" [("treasuryActionId", JStr "action-1")] d1).2 in
  let d3 := run_calls [Execute (MkExecuteTreasury "action-1" "olga" None "worker-a")] d2 in
  let d4 := (queueTreasuryActionExecution (TD := treasury_db) "action-1" "cmd-1" "olga" d3).2 in
  asked_of d4 = [("atlas-t0-sim", "15000.00")] /\
  map (fun a => (ta_status a, ta_completedAt a)) (table_actions d4) = [(tes_recommended, None); (tes_queued, None); (tes_recommended, None)].
Proof. vm_compute. done. Qed.

(** *** The theorems at the sample *)

Definition asked_calls : list TreasuryCall := [Evaluate "olga" None; Approve "action-1" "olga"; Enqueue "action-1" "olga"].
Lemma treasury_needs_approval_witness :
  Forall (approval_ok sample_role) (table_actions (run_calls (asked_calls ++ [execute_0]) empty_treasury)).
Proof.
  assert (G : forall calls (d : Treasury), Forall (approval_ok sample_role) (table_actions d) ->
    Forall (approval_ok sample_role) (table_actions (run_calls calls d))).
  { intros calls d Hd. exact (proj1 (treasury_needs_approval (TL := memory_laws) sample_options calls d Hd)). }
  exact (G _ empty_treasury (Forall_nil_2 _)).
Defined.

Definition execute_1 : ExecuteTreasuryInput := MkExecuteTreasury "action-1" "olga" None "worker-a".
Lemma asked_ok : Forall (approval_ok sample_role) (table_actions (run_calls asked_calls empty_treasury)).
Proof.
  assert (G : forall calls (d : Treasury), Forall (approval_ok sample_role) (table_actions d) ->
    Forall (approval_ok sample_role) (table_actions (run_calls calls d))).
  { intros calls d Hd. exact (proj1 (calls_drift (TL := memory_laws) sample_options calls d Hd) Hd). }
  exact (G _ empty_treasury (Forall_nil_2 _)).
Qed.
(** What the theorem says of an execution of the second action, which asks a venue. *)
Definition second_asked (d : Treasury) : Prop :=
  let out := executeTreasuryAction (TV := treasury_venues) sample_options execute_1 d in
  exists a d1, getTreasuryAction (TD := treasury_db) (xi_actionId execute_1) d = (Ret (Some a), d1) /\ (ta_status a = tes_queued \/ ta_status a = tes_approved) /\
    approved_well sample_role a /\ tm_calls d1 = tm_calls d /\
    if bool_decide (tap_actionType (ta_plan a) = rebalance_treasury_budget) then tm_calls out.2 = tm_calls d
    else asks_once (TL := memory_laws) sample_options a (xi_actorId execute_1) d1 out.2 out.1.
Lemma venue_asked_when_cleared_witness :
  map fst (tm_calls (executeTreasuryAction (TV := treasury_venues) sample_options execute_1 (run_calls asked_calls empty_treasury)).2) =
    ["atlas-t0-sim"] /\
  second_asked (run_calls asked_calls empty_treasury).
Proof.
  split; [vm_compute; reflexivity|].
  assert (G : forall d : Treasury, Forall (approval_ok sample_role) (table_actions d) ->
    is_ret (executeTreasuryAction (TV := treasury_venues) sample_options execute_1 d).1 = true -> second_asked d).
  { intros d Hd Hr. destruct (venue_asked_when_cleared (TL := memory_laws) sample_options execute_1 d _ _ Hd (surjective_pairing _)) as [[_ H]|H];
      [rewrite Hr in H; discriminate H|exact H]. }
  refine (G _ asked_ok _). vm_compute. reflexivity.
Defined.
