(* ===== verification/CarryActions.v ===== *)
(** * Carry actions (packages/runtime: store.ts, control-plane.ts and adapters/carry-orchestration-adapter.ts)

    The tables of carry actions and their planned orders, of their executions and
    steps, of multi-leg plans, legs and hedge states, and of guardrails and their
    violations; the store functions on them; how the control plane approves a carry
    action; and how its planned orders become a multi-leg plan.  The statements of
    the database are the class [CarryDb]. *)
From S2P Require Import Prelude JsNumber JsValue JsText DecimalLib DecimalExact Shared Domain MarketIdentity SpotPerp MultiLeg StrategyPolicy MismatchStore CarryExecution Executor ConnectorPromotion Commands.
Open Scope Z_scope.

(** ** Data *)

Inductive CarryExecutionStatus := cst_recommended | cst_approved | cst_queued | cst_executing | cst_completed | cst_failed | cst_cancelled.
#[export] Instance CarryExecutionStatus_eq_dec : EqDecision CarryExecutionStatus.
Proof. solve_decision. Defined.
Definition carry_status_str (s : CarryExecutionStatus) : string :=
  match s with
  | cst_recommended => "recommended" | cst_approved => "approved" | cst_queued => "queued" | cst_executing => "executing"
  | cst_completed => "completed" | cst_failed => "failed" | cst_cancelled => "cancelled"
  end.
Definition carry_approval_str (a : CarryApprovalRequirement) : string := match a with ca_operator => "operator" | ca_admin => "admin" end.
Definition carry_approval_role (a : CarryApprovalRequirement) : ActorRole := match a with ca_operator => role_operator | ca_admin => role_admin end.

(** A row of [carry_actions]: the columns that no statement updates, and the others. *)
Record CarryActionPlan := MkCarryPlan {
  cap_strategyRunId : option string;
  cap_linkedRebalanceProposalId : option string;
  cap_actionType : CarryActionType;
  cap_sourceKind : CarryRecommendationSourceKind;
  cap_sourceReference : option string;
  cap_opportunityId : option string;
  cap_asset : option string;
  cap_summary : string;
  cap_notionalUsd : string;
  cap_details : record_;
  cap_readiness : CarryActionReadiness;
  cap_executable : bool;
  cap_blockedReasons : list CarryOperationalBlockedReason;
  cap_approvalRequirement : CarryApprovalRequirement;
  cap_executionMode : CarryExecutionMode;
  cap_simulated : bool;
  (** [executionPlan] *)
  cap_effects : CarryExecutionEffects;
  cap_plannedOrderCount : Z;
  cap_strategyProfile : CarryStrategyProfile;
  cap_actorId : option string;
  cap_createdAt : Z;
}.
Record CarryActionRow := MkCarryAction {
  cya_id : string;
  cya_plan : CarryActionPlan;
  cya_status : CarryExecutionStatus;
  cya_approvedBy : option string;
  cya_approvedAt : option Z;
  cya_executionRequestedBy : option string;
  cya_executionRequestedAt : option Z;
  cya_queuedAt : option Z;
  cya_executingAt : option Z;
  cya_completedAt : option Z;
  cya_failedAt : option Z;
  cya_cancelledAt : option Z;
  cya_linkedCommandId : option string;
  cya_latestExecutionId : option string;
  cya_lastError : option string;
  cya_updatedAt : Z;
}.
(** A row of [carry_action_order_intents]. *)
Record CarryPlannedOrder := MkPlannedOrder {
  cpo_id : string;
  cpo_carryActionId : string;
  cpo_intentId : string;
  cpo_venueId : string;
  cpo_asset : string;
  cpo_side : OrderSide;
  cpo_orderType : OrderType;
  cpo_requestedSize : string;
  cpo_requestedPrice : option string;
  cpo_reduceOnly : bool;
  cpo_metadata : record_;
  cpo_createdAt : Z;
}.

Record CarryExecutionRow := MkCarryExecutionRow {
  cxr_id : string;
  cxr_carryActionId : string;
  cxr_strategyRunId : option string;
  cxr_commandId : option string;
  cxr_status : CarryExecutionStatus;
  cxr_executionMode : CarryExecutionMode;
  cxr_simulated : bool;
  cxr_requestedBy : string;
  cxr_startedBy : option string;
  cxr_blockedReasons : list CarryOperationalBlockedReason;
  cxr_outcomeSummary : option string;
  cxr_outcome : record_;
  cxr_venueExecutionReference : option string;
  cxr_lastError : option string;
  cxr_createdAt : Z;
  cxr_startedAt : option Z;
  cxr_completedAt : option Z;
  cxr_updatedAt : Z;
}.
Inductive CarryExecutionField :=
  | xcf_status (v : CarryExecutionStatus) | xcf_blockedReasons (v : list CarryOperationalBlockedReason) | xcf_outcomeSummary (v : option string)
  | xcf_outcome (v : record_) | xcf_venueExecutionReference (v : option string) | xcf_lastError (v : option string) | xcf_completedAt (v : option Z).
Definition set_carry_execution (x : CarryExecutionRow) (f : CarryExecutionField) : CarryExecutionRow :=
  let '(MkCarryExecutionRow id act run cmd st em sim rq by_ br os oc ref le cr sa ca up) := x in
  match f with
  | xcf_status v => MkCarryExecutionRow id act run cmd v em sim rq by_ br os oc ref le cr sa ca up
  | xcf_blockedReasons v => MkCarryExecutionRow id act run cmd st em sim rq by_ v os oc ref le cr sa ca up
  | xcf_outcomeSummary v => MkCarryExecutionRow id act run cmd st em sim rq by_ br v oc ref le cr sa ca up
  | xcf_outcome v => MkCarryExecutionRow id act run cmd st em sim rq by_ br os v ref le cr sa ca up
  | xcf_venueExecutionReference v => MkCarryExecutionRow id act run cmd st em sim rq by_ br os oc v le cr sa ca up
  | xcf_lastError v => MkCarryExecutionRow id act run cmd st em sim rq by_ br os oc ref v cr sa ca up
  | xcf_completedAt v => MkCarryExecutionRow id act run cmd st em sim rq by_ br os oc ref le cr sa v up
  end.
Definition touch_carry_execution (now : Z) (x : CarryExecutionRow) : CarryExecutionRow :=
  let '(MkCarryExecutionRow id act run cmd st em sim rq by_ br os oc ref le cr sa ca _) := x in
  MkCarryExecutionRow id act run cmd st em sim rq by_ br os oc ref le cr sa ca now.

(** A row of [carry_execution_steps]: the columns that no statement updates, and
    the others. *)
Record CarryStepPlan := MkStepPlan {
  csp_carryExecutionId : string;
  csp_carryActionId : string;
  csp_strategyRunId : option string;
  csp_plannedOrderId : option string;
  csp_intentId : string;
  csp_venueId : string;
  csp_venueMode : CarryVenueMode;
  csp_executionSupported : bool;
  csp_readOnly : bool;
  csp_approvedForLiveUse : bool;
  csp_onboardingState : string;
  csp_asset : string;
  csp_side : OrderSide;
  csp_orderType : OrderType;
  csp_requestedSize : string;
  csp_requestedPrice : option string;
  csp_reduceOnly : bool;
}.
Record CarryStepRow := MkStepRow {
  cs_id : string;
  cs_plan : CarryStepPlan;
  cs_clientOrderId : option string;
  cs_venueOrderId : option string;
  cs_executionReference : option string;
  cs_status : string;
  cs_simulated : bool;
  cs_filledSize : option string;
  cs_averageFillPrice : option string;
  cs_outcomeSummary : option string;
  cs_outcome : record_;
  cs_lastError : option string;
  cs_metadata : record_;
  cs_completedAt : option Z;
  cs_createdAt : Z;
  cs_stepUpdatedAt : Z;
}.
Inductive CarryStepField :=
  | csf_clientOrderId (v : option string) | csf_venueOrderId (v : option string) | csf_executionReference (v : option string)
  | csf_status (v : string) | csf_simulated (v : bool) | csf_filledSize (v : option string) | csf_averageFillPrice (v : option string)
  | csf_outcomeSummary (v : option string) | csf_outcome (v : record_) | csf_lastError (v : option string) | csf_metadata (v : record_)
  | csf_completedAt (v : option Z).
Definition set_step (x : CarryStepRow) (f : CarryStepField) : CarryStepRow :=
  let '(MkStepRow id pl co vo er st sim fs ap os oc le md ca cr up) := x in
  match f with
  | csf_clientOrderId v => MkStepRow id pl v vo er st sim fs ap os oc le md ca cr up
  | csf_venueOrderId v => MkStepRow id pl co v er st sim fs ap os oc le md ca cr up
  | csf_executionReference v => MkStepRow id pl co vo v st sim fs ap os oc le md ca cr up
  | csf_status v => MkStepRow id pl co vo er v sim fs ap os oc le md ca cr up
  | csf_simulated v => MkStepRow id pl co vo er st v fs ap os oc le md ca cr up
  | csf_filledSize v => MkStepRow id pl co vo er st sim v ap os oc le md ca cr up
  | csf_averageFillPrice v => MkStepRow id pl co vo er st sim fs v os oc le md ca cr up
  | csf_outcomeSummary v => MkStepRow id pl co vo er st sim fs ap v oc le md ca cr up
  | csf_outcome v => MkStepRow id pl co vo er st sim fs ap os v le md ca cr up
  | csf_lastError v => MkStepRow id pl co vo er st sim fs ap os oc v md ca cr up
  | csf_metadata v => MkStepRow id pl co vo er st sim fs ap os oc le v ca cr up
  | csf_completedAt v => MkStepRow id pl co vo er st sim fs ap os oc le md v cr up
  end.
Definition touch_step (now : Z) (x : CarryStepRow) : CarryStepRow :=
  let '(MkStepRow id pl co vo er st sim fs ap os oc le md ca cr _) := x in MkStepRow id pl co vo er st sim fs ap os oc le md ca cr now.

(** Rows of [carry_multi_leg_plans], [carry_leg_executions] and [carry_hedge_state]:
    the columns that the runtime writes. *)
Record PlanRow := MkPlanRow {
  pln_id : string;
  pln_carryActionId : string;
  pln_strategyRunId : option string;
  pln_asset : string;
  pln_notionalUsd : string;
  pln_legCount : Z;
  pln_coordinationConfig : SpotPerpCoordinationConfig;
  pln_executionOrder : list Z;
  pln_status : PlanStatus;
  pln_outcomeSummary : option string;
  pln_startedAt : option Z;
  pln_completedAt : option Z;
  pln_failedAt : option Z;
  pln_createdAt : Z;
  pln_updatedAt : Z;
}.
Record LegRow := MkLegRow {
  lgr_id : string;
  lgr_planId : string;
  lgr_carryActionId : string;
  lgr_legSequence : Z;
  lgr_legType : LegType;
  lgr_side : LegSide;
  lgr_venueId : string;
  lgr_asset : string;
  lgr_targetSize : string;
  lgr_targetNotionalUsd : string;
  lgr_executedSize : option string;
  lgr_averageFillPrice : option string;
  lgr_status : LegStatus;
  lgr_lastError : option string;
  lgr_metadata : record_;
  lgr_startedAt : option Z;
  lgr_completedAt : option Z;
  lgr_failedAt : option Z;
  lgr_createdAt : Z;
  lgr_updatedAt : Z;
}.
Inductive HedgeImbalance := hi_spot_heavy | hi_perp_heavy | hi_balanced.
Record HedgeRow := MkHedgeRow {
  hgr_id : string;
  hgr_planId : string;
  hgr_carryActionId : string;
  hgr_asset : string;
  hgr_spotLegId : option string;
  hgr_perpLegId : option string;
  hgr_notionalUsd : string;
  hgr_hedgeDeviationPct : string;
  hgr_imbalanceDirection : HedgeImbalance;
  hgr_imbalanceThresholdBreached : bool;
  hgr_status : HedgeStatus;
  hgr_createdAt : Z;
}.

(** What the execution reads of a row of [execution_guardrails_config], and a row
    of [execution_guardrail_violations]. *)
Record GuardrailConfigView := MkGuardrailView {
  gcv_id : string;
  gcv_maxSingleActionNotionalUsd : option string;
  gcv_maxConcurrentExecutions : option Z;
  gcv_killSwitchEnabled : bool;
  gcv_killSwitchTriggered : bool;
}.
Record ViolationRow := MkViolation {
  vio_id : string;
  vio_guardrailConfigId : string;
  vio_violationType : string;
  vio_violationMessage : string;
  vio_carryActionId : option string;
  vio_attemptedNotionalUsd : option string;
  vio_limitNotionalUsd : option string;
  vio_blocked : bool;
  vio_createdAt : Z;
}.

(** ** The database *)

Class CarryDb `{CD : CommandDb} := {
  cy_action : string -> eff Db (option CarryActionRow);
  (** the planned orders of an action, the latest created first *)
  cy_orders : string -> eff Db (list CarryPlannedOrder);
  (** the other tables that the view of an action reads *)
  cy_action_views : CarryActionRow -> eff Db unit;
  (** [insert(carryActions).values(...).returning()], given the generated id *)
  cy_insert_action : (string -> CarryActionRow) -> eff Db (option CarryActionRow);
  cy_insert_orders : list (string -> CarryPlannedOrder) -> eff Db unit;
  cy_update_action : string -> (CarryActionRow -> CarryActionRow) -> eff Db unit;
  (** [count( * )] of the actions that are executing *)
  cy_executing_count : eff Db Z;
  cy_insert_execution : (string -> CarryExecutionRow) -> eff Db (option CarryExecutionRow);
  cy_execution : string -> eff Db (option CarryExecutionRow);
  cy_update_execution : string -> (CarryExecutionRow -> CarryExecutionRow) -> eff Db unit;
  cy_insert_step : (string -> CarryStepRow) -> eff Db (option CarryStepRow);
  cy_step : string -> eff Db (option CarryStepRow);
  cy_update_step : string -> (CarryStepRow -> CarryStepRow) -> eff Db unit;
  cy_insert_plan : PlanRow -> eff Db unit;
  cy_update_plan : string -> (PlanRow -> PlanRow) -> eff Db unit;
  cy_insert_leg : LegRow -> eff Db unit;
  (** the legs of a plan by sequence *)
  cy_legs : string -> eff Db (list LegRow);
  cy_update_leg : string -> (LegRow -> LegRow) -> eff Db unit;
  cy_insert_hedge : HedgeRow -> eff Db unit;
  (** scope type and scope *)
  cy_guardrail : string -> string -> eff Db (option GuardrailConfigView);
  cy_insert_violation : ViolationRow -> eff Db unit;
  (** [syncRebalanceBundleForProposal] *)
  cy_sync_bundle : string -> eff Db unit;
  (** [auditWriter.write], with the sleeve *)
  cy_audit : string -> AuditEvent -> eff Db unit;
}.

Section Actions.
Context `{CB : CarryDb}.

(** ** The store: actions *)

Definition getCarryAction (actionId : string) : eff Db (option (CarryActionRow * list CarryPlannedOrder)) :=
  row ← cy_action actionId;
  match row with
  | None => mret None
  | Some a => orders ← cy_orders (cya_id a); _ ← cy_action_views a; mret (Some (a, orders))
  end.
Definition action_view (actionId : string) : eff Db (option CarryActionRow) :=
  detail ← getCarryAction actionId; mret (fst <$> detail).

Definition approved_carry (actorId : string) (approvedAt now : Z) (a : CarryActionRow) : CarryActionRow :=
  MkCarryAction (cya_id a) (cya_plan a) cst_approved (Some actorId) (Some approvedAt) (cya_executionRequestedBy a) (cya_executionRequestedAt a)
    (cya_queuedAt a) (cya_executingAt a) (cya_completedAt a) (cya_failedAt a) (cya_cancelledAt a) (cya_linkedCommandId a)
    (cya_latestExecutionId a) None now.
Definition store_approveCarryAction (actionId actorId : string) : eff Db (option CarryActionRow) :=
  approvedAt ← db_now;
  now ← db_now;
  _ ← cy_update_action actionId (approved_carry actorId approvedAt now);
  action_view actionId.
Definition queued_carry (commandId actorId : string) (requestedAt queuedAt now : Z) (a : CarryActionRow) : CarryActionRow :=
  MkCarryAction (cya_id a) (cya_plan a) cst_queued (cya_approvedBy a) (cya_approvedAt a) (Some actorId) (Some requestedAt) (Some queuedAt)
    None None None None (Some commandId) (cya_latestExecutionId a) None now.
Definition queueCarryActionExecution (actionId commandId actorId : string) : eff Db (option CarryActionRow) :=
  requestedAt ← db_now;
  queuedAt ← db_now;
  now ← db_now;
  _ ← cy_update_action actionId (queued_carry commandId actorId requestedAt queuedAt now);
  action_view actionId.
Definition executing_carry (executingAt now : Z) (a : CarryActionRow) : CarryActionRow :=
  MkCarryAction (cya_id a) (cya_plan a) cst_executing (cya_approvedBy a) (cya_approvedAt a) (cya_executionRequestedBy a)
    (cya_executionRequestedAt a) (cya_queuedAt a) (Some executingAt) (cya_completedAt a) (cya_failedAt a) (cya_cancelledAt a)
    (cya_linkedCommandId a) (cya_latestExecutionId a) (cya_lastError a) now.
Definition markCarryActionExecuting (actionId : string) : eff Db (option CarryActionRow) :=
  executingAt ← db_now;
  now ← db_now;
  _ ← cy_update_action actionId (executing_carry executingAt now);
  action_view actionId.
Definition completed_carry (latestExecutionId : string) (completedAt now : Z) (a : CarryActionRow) : CarryActionRow :=
  MkCarryAction (cya_id a) (cya_plan a) cst_completed (cya_approvedBy a) (cya_approvedAt a) (cya_executionRequestedBy a)
    (cya_executionRequestedAt a) (cya_queuedAt a) (cya_executingAt a) (Some completedAt) (cya_failedAt a) (cya_cancelledAt a)
    (cya_linkedCommandId a) (Some latestExecutionId) None now.
Definition completeCarryAction (actionId latestExecutionId : string) : eff Db (option CarryActionRow) :=
  completedAt ← db_now;
  now ← db_now;
  _ ← cy_update_action actionId (completed_carry latestExecutionId completedAt now);
  action_view actionId.
Definition failed_carry (latestExecutionId : option string) (errorMessage : string) (failedAt now : Z) (a : CarryActionRow) : CarryActionRow :=
  MkCarryAction (cya_id a) (cya_plan a) cst_failed (cya_approvedBy a) (cya_approvedAt a) (cya_executionRequestedBy a)
    (cya_executionRequestedAt a) (cya_queuedAt a) (cya_executingAt a) (cya_completedAt a) (Some failedAt) (cya_cancelledAt a)
    (cya_linkedCommandId a) latestExecutionId (Some errorMessage) now.
Definition failCarryAction (actionId : string) (latestExecutionId : option string) (errorMessage : string) : eff Db (option CarryActionRow) :=
  failedAt ← db_now;
  now ← db_now;
  _ ← cy_update_action actionId (failed_carry latestExecutionId errorMessage failedAt now);
  action_view actionId.

(** The market identity of an order or a step at a stage: that of its metadata, or
    one derived from its asset. *)
Definition stage_identity (venueId asset : string) (metadata : record_) (stage : CanonicalMarketIdentityCaptureStage)
    (source readNote deriveNote : string) : CanonicalMarketIdentity :=
  or_else
    (readCanonicalMarketIdentityFromMetadata metadata {|
       md_venueId := Some venueId; md_asset := Some asset; md_marketType := rec_get metadata "instrumentType"; md_provenance := Some derived;
       md_capturedAtStage := stage; md_source := source; md_notes := Some [readNote] |})
    (createCanonicalMarketIdentity {|
       ii_venueId := Some venueId; ii_asset := Some asset; ii_marketType := rec_get metadata "instrumentType"; ii_marketIndex := JUndefined;
       ii_marketKey := None; ii_marketSymbol := None; ii_marketName := None; ii_aliases := None; ii_provenance := Some derived;
       ii_capturedAtStage := stage; ii_source := source; ii_notes := Some [deriveNote] |}).
Definition recommended_plan (strategyRunId linkedRebalanceProposalId actorId : option string) (createdAt : Z) (i : CarryExecutionIntent)
    : CarryActionPlan :=
  MkCarryPlan strategyRunId linkedRebalanceProposalId (ci_actionType i) (ci_sourceKind i) (ci_sourceReference i) (ci_opportunityId i) (ci_asset i)
    (ci_summary i) (ci_notionalUsd i) (ci_details i) (ci_readiness i) (ci_executable i) (ci_blockedReasons i) (ci_approvalRequirement i)
    (ci_executionMode i) (ci_simulated i) (ci_effects i) (Z.of_nat (length (ci_plannedOrders i))) (ci_strategyProfile i) actorId createdAt.
Definition recommended_carry (plan : CarryActionPlan) (id : string) : CarryActionRow :=
  MkCarryAction id plan cst_recommended None None None None None None None None None None None None (cap_createdAt plan).
Definition planned_order (actionId : string) (order : OrderIntent) (id : string) : CarryPlannedOrder :=
  MkPlannedOrder id actionId (oi_intentId order) (oi_venueId order) (oi_asset order) (oi_side order) (oi_type order) (oi_size order)
    (oi_limitPrice order) (oi_reduceOnly order)
    (attachCanonicalMarketIdentityToMetadata (oi_metadata order) (Some (stage_identity (oi_venueId order) (oi_asset order) (oi_metadata order)
       carry_planned_order "carry_action_creation"
       "Carry planned orders persist the best market identity already attached to the execution intent."
       "Carry planned orders derived market identity because upstream intent metadata did not carry richer venue-native identifiers.")))
    (oi_createdAt order).
Definition createCarryActions (strategyRunId linkedRebalanceProposalId : option string) (intents : list CarryExecutionIntent)
    (actorId : option string) (createdAt : Z) : eff Db (list CarryActionRow) :=
  fold_eff (fun created i =>
    row ← cy_insert_action (recommended_carry (recommended_plan strategyRunId linkedRebalanceProposalId actorId createdAt i));
    match row with
    | None => throw_eff (Error_ "RuntimeStore.createCarryActions: action was not persisted")
    | Some a =>
        _ ← (match ci_plannedOrders i with [] => mret tt | orders => cy_insert_orders (map (planned_order (cya_id a)) orders) end);
        mret (created ++ [a])
    end) [] intents.

(** The market identity that the view of a planned order shows. *)
Definition order_identity (o : CarryPlannedOrder) : option CanonicalMarketIdentity :=
  readCanonicalMarketIdentityFromMetadata (cpo_metadata o) {|
    md_venueId := Some (cpo_venueId o); md_asset := Some (cpo_asset o); md_marketType := rec_get (cpo_metadata o) "instrumentType";
    md_provenance := Some derived; md_capturedAtStage := carry_planned_order; md_source := "carry_action_order_intents";
    md_notes := Some ["Carry planned-order market identity falls back to persisted order metadata when venue-native metadata is unavailable."] |}.

(** ** The store: executions and steps *)

Definition createCarryExecution (actionId : string) (strategyRunId commandId : option string) (status : CarryExecutionStatus)
    (executionMode : CarryExecutionMode) (simulated : bool) (requestedBy startedBy : string) (blockedReasons : list CarryOperationalBlockedReason)
    (outcome : record_) (lastError : option string) : eff Db CarryExecutionRow :=
  startedAt ← (if bool_decide (status = cst_executing) then t ← db_now; mret (Some t) else mret None);
  createdAt ← db_now;
  now ← db_now;
  row ← cy_insert_execution (fun id =>
    MkCarryExecutionRow id actionId strategyRunId commandId status executionMode simulated requestedBy (Some startedBy) blockedReasons None outcome
      None lastError createdAt startedAt None now);
  match row with
  | None => throw_eff (Error_ "RuntimeStore.createCarryExecution: execution was not persisted")
  | Some x => mret x
  end.
Definition updateCarryExecution (executionId : string) (patch : list CarryExecutionField) : eff Db (option CarryExecutionRow) :=
  now ← db_now;
  _ ← cy_update_execution executionId (fun x => touch_carry_execution now (fold_left set_carry_execution patch x));
  cy_execution executionId.
Definition createCarryExecutionStep (plan : CarryStepPlan) (clientOrderId : option string) (status : string) (simulated : bool) (metadata : record_)
    : eff Db CarryStepRow :=
  let identity := stage_identity (csp_venueId plan) (csp_asset plan) metadata carry_execution_step "carry_execution_step_creation"
    "Carry execution steps persist the best market identity already attached to the planned order or execution result."
    "Carry execution steps derived market identity because no richer upstream metadata was available." in
  createdAt ← db_now;
  now ← db_now;
  row ← cy_insert_step (fun id =>
    MkStepRow id plan clientOrderId None None status simulated None None None [] None
      (attachCanonicalMarketIdentityToMetadata metadata (Some identity)) None createdAt now);
  match row with
  | None => throw_eff (Error_ "RuntimeStore.createCarryExecutionStep: execution step was not persisted")
  | Some x => mret x
  end.
Definition updateCarryExecutionStep (stepId : string) (patch : list CarryStepField) : eff Db (option CarryStepRow) :=
  now ← db_now;
  _ ← cy_update_step stepId (fun x => touch_step now (fold_left set_step patch x));
  cy_step stepId.

(** ** The store: multi-leg plans *)

Definition store_createMultiLegPlan (carryActionId : string) (strategyRunId : option string) (asset notionalUsd : string) (legCount : Z)
    (coordinationConfig : SpotPerpCoordinationConfig) (executionOrder : list Z) : eff Db string :=
  id ← cd_create_id;
  now ← db_now;
  _ ← cy_insert_plan (MkPlanRow id carryActionId strategyRunId asset notionalUsd legCount coordinationConfig executionOrder pl_pending None None None
        None now now);
  mret id.
Definition createLegExecution (planId carryActionId : string) (legSequence : Z) (legType : LegType) (side : LegSide)
    (venueId asset targetSize targetNotionalUsd : string) (metadata : record_) : eff Db string :=
  id ← cd_create_id;
  now ← db_now;
  _ ← cy_insert_leg (MkLegRow id planId carryActionId legSequence legType side venueId asset targetSize targetNotionalUsd None None ls_pending None
        metadata None None None now now);
  mret id.
(** The update of a plan; [t] is the second reading of the clock. *)
Definition planned_status (status : PlanStatus) (outcomeSummary : option string) (now t : Z) (p : PlanRow) : PlanRow :=
  MkPlanRow (pln_id p) (pln_carryActionId p) (pln_strategyRunId p) (pln_asset p) (pln_notionalUsd p) (pln_legCount p) (pln_coordinationConfig p)
    (pln_executionOrder p) status
    (match status with
     | pl_completed => Some (or_else outcomeSummary "Plan completed") | pl_failed => Some (or_else outcomeSummary "Plan failed")
     | _ => pln_outcomeSummary p
     end)
    (if bool_decide (status = pl_executing) then Some t else pln_startedAt p)
    (if bool_decide (status = pl_completed) then Some t else pln_completedAt p)
    (if bool_decide (status = pl_failed) then Some t else pln_failedAt p) (pln_createdAt p) now.
Definition updateMultiLegPlanStatus (planId : string) (status : PlanStatus) (outcomeSummary : option string) : eff Db unit :=
  now ← db_now;
  t ← (match status with pl_executing | pl_completed | pl_failed => db_now | _ => mret now end);
  cy_update_plan planId (planned_status status outcomeSummary now t).
Definition leg_status (status : LegStatus) (executedSize averageFillPrice : option (option string)) (lastError : option string) (now t : Z)
    (l : LegRow) : LegRow :=
  MkLegRow (lgr_id l) (lgr_planId l) (lgr_carryActionId l) (lgr_legSequence l) (lgr_legType l) (lgr_side l) (lgr_venueId l) (lgr_asset l)
    (lgr_targetSize l) (lgr_targetNotionalUsd l) (or_else executedSize (lgr_executedSize l)) (or_else averageFillPrice (lgr_averageFillPrice l))
    status (match lastError with Some _ => lastError | None => lgr_lastError l end) (lgr_metadata l)
    (if bool_decide (status = ls_executing) then Some t else lgr_startedAt l)
    (if bool_decide (status = ls_completed) then Some t else lgr_completedAt l)
    (if bool_decide (status = ls_failed) then Some t else lgr_failedAt l) (lgr_createdAt l) now.
Definition updateLegExecutionStatus (legId : string) (status : LegStatus) (executedSize averageFillPrice : option (option string))
    (lastError : option string) : eff Db unit :=
  now ← db_now;
  t ← (match status with ls_executing | ls_completed | ls_failed => db_now | _ => mret now end);
  cy_update_leg legId (leg_status status executedSize averageFillPrice lastError now t).
Definition getLegExecutionsForPlan (planId : string) : eff Db (list LegRow) := cy_legs planId.
Definition recordHedgeState (planId carryActionId asset : string) (spotLegId perpLegId : option string) (notionalUsd : string)
    (hedgeDeviationPct : num) (imbalanceDirection : HedgeImbalance) (imbalanceThresholdBreached : bool) : eff Db string :=
  id ← cd_create_id;
  now ← db_now;
  _ ← cy_insert_hedge (MkHedgeRow id planId carryActionId asset spotLegId perpLegId notionalUsd (n_str hedgeDeviationPct) imbalanceDirection
        imbalanceThresholdBreached (if imbalanceThresholdBreached then hs_rebalancing else hs_balanced) now);
  mret id.

(** ** The store: guardrails *)

Definition getExecutingActionCount : eff Db Z := cy_executing_count.
Definition getGuardrailConfig (scopeType scopeId : string) : eff Db (option GuardrailConfigView) := cy_guardrail scopeType scopeId.
Definition recordGuardrailViolation (configId violationType message : string) (carryActionId attempted limit : option string) (blocked : bool)
    : eff Db unit :=
  id ← cd_create_id;
  now ← db_now;
  cy_insert_violation (MkViolation id configId violationType message carryActionId attempted limit blocked now).

(** ** The control plane *)

Definition carry_audit (eventType actorId : string) (data : record_) : eff Db unit :=
  eventId ← cd_create_id;
  occurredAt ← db_now;
  cy_audit "carry" (MkAuditEvent eventId eventType (toISOString occurredAt) actorId data).
Definition sync_carry (plan : CarryActionPlan) : eff Db unit :=
  match cap_linkedRebalanceProposalId plan with None => mret tt | Some proposalId => cy_sync_bundle proposalId end.
Definition carry_open (plan : CarryActionPlan) : bool := cap_executable plan && is_empty (cap_blockedReasons plan).
Definition carry_role_suffices (actorRole : ActorRole) (plan : CarryActionPlan) : bool :=
  canSatisfyApprovalRequirement actorRole (carry_approval_role (cap_approvalRequirement plan)).
Definition record_carry_approval (a : CarryActionRow) (actionId actorId : string) : eff Db (option RuntimeCommandView) :=
  _ ← store_approveCarryAction actionId actorId;
  command ← enqueueCommand rct_execute_carry_action actorId [("actionId", JStr actionId); ("actorId", JStr actorId)];
  _ ← queueCarryActionExecution actionId (rc_commandId command) actorId;
  _ ← carry_audit "carry.action_approved" actorId [("carryActionId", JStr actionId); ("commandId", JStr (rc_commandId command))];
  _ ← sync_carry (cya_plan a);
  mret (Some command).
Definition approveCarryAction (actionId actorId : string) (actorRole : ActorRole) : eff Db (option RuntimeCommandView) :=
  detail ← getCarryAction actionId;
  match detail with
  | None => mret None
  | Some (a, _) =>
      if negb (carry_open (cya_plan a)) then throw_eff (Error_ "Carry action is blocked and cannot be approved.")
      else if negb (carry_role_suffices actorRole (cya_plan a)) then
        throw_eff (Error_ ("Carry action requires " +:+ carry_approval_str (cap_approvalRequirement (cya_plan a)) +:+ " approval."))
      else if negb (bool_decide (cya_status a = cst_recommended)) then
        throw_eff (Error_ ("Carry action cannot be approved from status " +:+ quoted (carry_status_str (cya_status a)) +:+ "."))
      else record_carry_approval a actionId actorId
  end.
End Actions.

(** ** The multi-leg plan of an action *)

Section Orchestration.
Context `{DL : DecimalLib}.

Definition toLegSide (plannedOrderSide : OrderSide) (legType : LegType) : LegSide :=
  if bool_decide (legType = lt_spot) then sd_long else sd_short.
Definition order_price (o : CarryPlannedOrder) : string := or_else (cpo_requestedPrice o) "0".
Definition toLegDefinition (o : CarryPlannedOrder) (legSequence : Z) (legType : LegType) : exn LegDefinition :=
  targetSize ← dec_of_string (cpo_requestedSize o);
  targetPrice ← dec_of_string (order_price o);
  Ret (MkLegDefinition legSequence legType (toLegSide (cpo_side o) legType) (cpo_venueId o) (cpo_asset o) (Some (cpo_asset o)) targetSize
         (d_times targetSize targetPrice) None).
Definition createCoordinationConfig : SpotPerpCoordinationConfig := MkCoordinationConfig (num_of_Z 2) true 30000 "0.0001".
Fixpoint leg_definitions (index : Z) (orders : list CarryPlannedOrder) : exn (list LegDefinition) :=
  match orders with
  | [] => Ret []
  | o :: rest =>
      leg ← toLegDefinition o index (if index =? 0 then lt_spot else lt_perp);
      legs ← leg_definitions (index + 1) rest;
      Ret (leg :: legs)
  end.
Definition buildLegDefinitions (orders : list CarryPlannedOrder) : exn (list LegDefinition) :=
  if Z.of_nat (length orders) <? 2 then
    Throw (Error_ ("Multi-leg execution requires at least 2 legs, got " +:+ z_str (Z.of_nat (length orders))))
  else leg_definitions 0 orders.
Definition calculateTotalNotional (orders : list CarryPlannedOrder) : exn dec :=
  fold_exn (fun sum o =>
    size ← dec_of_string (cpo_requestedSize o);
    price ← dec_of_string (order_price o);
    Ret (d_plus sum (d_times size price))) (dec_of_Z 0) orders.
Definition buildMultiLegPlanInput (carryActionId : string) (strategyRunId : option string) (asset : string) (orders : list CarryPlannedOrder)
    : exn MultiLegPlanInput :=
  legs ← buildLegDefinitions orders;
  notionalUsd ← calculateTotalNotional orders;
  Ret (MkPlanInput carryActionId strategyRunId asset notionalUsd legs createCoordinationConfig (dec_of_num (num_of_Z 2))).
Definition calculateExecutionOrder (config : SpotPerpCoordinationConfig) (legCount : Z) : list Z :=
  let order := map Z.of_nat (seq 0 (Z.to_nat legCount)) in
  if cc_perpFirst config && (2 <=? legCount) then [1; 0] ++ drop 2 order else order.
Definition calculateHedgeDeviation (spotExecutedSize perpExecutedSize : string) : exn (num * HedgeImbalance) :=
  spot ← dec_of_string spotExecutedSize;
  perp ← dec_of_string perpExecutedSize;
  let avgExecuted := d_div (d_plus spot perp) (dec_of_Z 2) in
  if d_isZero avgExecuted then Ret (n_zero, hi_balanced)
  else Ret (d_toNumber (d_times (d_div (d_abs (d_minus spot perp)) avgExecuted) (dec_of_Z 100)),
            if d_gt spot perp then hi_spot_heavy else if d_gt perp spot then hi_perp_heavy else hi_balanced).
End Orchestration.

(** ** The adapter's plans are never accepted *)

(** The legs are numbered from zero and [createMultiLegPlan] asks for numbers from one. *)
Lemma leg_definitions_sequences `{DL : DecimalLib} orders : forall i legs, leg_definitions i orders = Ret legs ->
  map ld_legSequence legs = map (fun n => i + Z.of_nat n) (seq 0 (length orders)).
Proof.
  induction orders as [|o orders IH]; intros i legs H; [by injection H as <-|]. cbn [leg_definitions] in H.
  exn_inv H as leg E1. exn_inv H as rest E2. injection H as <-. cbn [map length seq]. f_equal.
  - unfold toLegDefinition in E1. exn_inv E1 as s Es. exn_inv E1 as p Ep. injection E1 as <-. cbn. lia.
  - rewrite (IH _ _ E2), <- seq_shift, map_map. apply map_ext. intros n. lia.
Qed.
Lemma first_gap_member i l : first_gap i l = None -> l <> [] -> i ∈ l /\ forall x, x ∈ l -> i <= x.
Proof.
  revert i. induction l as [|x l IH]; intros i H Hne; [done|]. cbn in H. destruct (Z.eqb_spec x i) as [->|]; [|done]. split; [left|].
  intros y [->|Hy]%elem_of_cons; [lia|]. destruct l as [|z l]; [by apply elem_of_nil in Hy|]. destruct (IH _ H ltac:(done)) as [_ Hall].
  specialize (Hall _ Hy). lia.
Qed.
Lemma plan_refused `{DL : DecimalLib} now ms actionId run asset orders input :
  buildMultiLegPlanInput actionId run asset orders = Ret input ->
  createMultiLegPlan now ms input = Err (Error_ "Leg sequences must be contiguous starting from 1. Missing: 1").
Proof.
  unfold buildMultiLegPlanInput, buildLegDefinitions. intros H. exn_inv H as legs E1. exn_inv H as total E2. injection H as <-.
  destruct (Z.ltb_spec (Z.of_nat (length orders)) 2) as [|Hlen]; [done|]. pose proof (leg_definitions_sequences _ _ _ E1) as Hs.
  destruct orders as [|o orders]; [cbn in Hlen; lia|]. cbn [length seq map] in Hs.
  assert (Hsorted : sorted_sequences legs ≡ₚ map ld_legSequence legs) by apply js_sort_perm.
  unfold createMultiLegPlan. cbn [mi_legs]. destruct legs as [|leg legs]; [done|]. cbn [is_empty].
  set (l := sorted_sequences (leg :: legs)) in *.
  assert (H0 : 0 ∈ l). { rewrite Hsorted, Hs. left. }
  assert (Ho : in_order (fun a b => a - b <? 0) l).
  { apply js_sort_in_order; intros *; rewrite ?Z.ltb_lt, ?Z.ltb_ge; lia. }
  destruct Ho as [|x l' _ Hx]; [by apply elem_of_nil in H0|]. cbn [first_gap]. destruct (Z.eqb_spec x 1) as [->|]; [|done].
  exfalso. apply elem_of_cons in H0 as [H0|H0]; [lia|]. eapply Forall_forall in Hx; [|exact H0]. cbn in Hx. lia.
Qed.
(** C17. The plan that the adapter builds from the orders of an action is refused,
    whatever the orders are: its legs are numbered from zero, and the orchestration
    accepts numbers from one only. *)
Theorem adapter_plan_refused `{DL : DecimalLib} now ms actionId run asset orders input :
  buildMultiLegPlanInput actionId run asset orders = Ret input ->
  createMultiLegPlan now ms input = Err (Error_ "Leg sequences must be contiguous starting from 1. Missing: 1").
Proof. apply plan_refused. Qed.
Definition sample_order (id : string) (side : OrderSide) : CarryPlannedOrder :=
  MkPlannedOrder id "action-1" ("intent-" +:+ id) "venue-a" "BTC" side limit "0.5" (Some "60000") false [] 0.
Lemma adapter_plan_refused_witness : exists input,
  buildMultiLegPlanInput "action-1" None "BTC" [sample_order "1" buy; sample_order "2" sell] = Ret input /\
  createMultiLegPlan 0 0 input = Err (Error_ "Leg sequences must be contiguous starting from 1. Missing: 1").
Proof.
  eexists. assert (E : buildMultiLegPlanInput "action-1" None "BTC" [sample_order "1" buy; sample_order "2" sell] = Ret _) by reflexivity.
  split; [exact E|exact (adapter_plan_refused 0 0 _ _ _ _ _ E)].
Defined.
