(* ===== verification/CarryRuntime.v ===== *)
(** * The execution of carry actions (packages/runtime: runtime.ts)

    [executeCarryAction] executes an approved action: it checks the connectors of a
    live action and the guardrails, then submits the planned orders one by one
    through [OrderExecutor] on the runtime order store, and records steps, outcome
    and the state of the action.  The adapters, the world the executor acts on and
    the tables it shares with the rest of the database are the class [CarryVenues].
    The file shows which orders reach a venue, that no action leaves its
    recommendation without an approval, and that no multi-leg plan is opened. *)
From S2P Require Import Prelude JsNumber JsValue JsText DecimalLib DecimalExact Shared Domain MarketIdentity OrderStore Executor RuntimeOrders SpotPerp MultiLeg MismatchStore CarryExecution DerivativeCompare ConnectorEvidence ConnectorPromotion Approvals Commands RuntimeWorker CarryActions.
Open Scope Z_scope.

(** ** The venues *)

(** What an adapter reports beyond what the planner reads. *)
Record CarryCapabilityReport := MkCapabilityReport {
  crp_capabilities : CarryVenueCapabilities;
  crp_healthy : bool;
  crp_onboardingState : string;
  crp_missingPrerequisites : list string;
  crp_metadata : record_;
}.
Record CarryVenueView := MkCarryVenueView {
  cvw_strategyRunId : option string;
  cvw_venueId : string;
  cvw_venueMode : CarryVenueMode;
  cvw_executionSupported : bool;
  cvw_supportsIncreaseExposure : bool;
  cvw_supportsReduceExposure : bool;
  cvw_readOnly : bool;
  cvw_approvedForLiveUse : bool;
  cvw_sensitiveExecutionEligible : bool;
  cvw_promotionStatus : ConnectorPromotionStatus;
  cvw_promotionBlockedReasons : list string;
  cvw_healthy : bool;
  cvw_onboardingState : string;
  cvw_missingPrerequisites : list string;
  cvw_metadata : record_;
  cvw_updatedAt : string;
  cvw_createdAt : string;
}.

Class CarryVenues `{CB : CarryDb} `{OD : OrderDb} := {
  (** the keys of the map of adapters, and [venueType] and [getCarryCapabilities] of each *)
  cv_keys : list string;
  cv_venueType : string -> string;
  cv_getCarryCapabilities : string -> option (eff Db CarryCapabilityReport);
  (** the world of the executor: the venues, the audit trail and the clock; and each
      adapter in it *)
  cv_World : Type;
  cv_adapter : string -> ExecutionEnv cv_World;
  (** the tables of orders and the world, in the state of the runtime *)
  cv_split : Db -> Odb * cv_World;
  cv_join : Odb * cv_World -> Db -> Db;
  (** [listVenues(limit)]: the id and the promotion of each *)
  cv_listVenues : Z -> eff Db (list (string * ConnectorPromotionSummary));
  (** [persistExecutionEvent] of a record, with the run *)
  cv_execution_event : string -> OrderRecord -> eff Odb unit;
  cv_refreshVenueTruthInventory : list string -> eff Db unit;
  (** source component, run and reference *)
  cv_refreshInternalDerivativeState : string -> option string -> string -> eff Db unit;
}.

Definition readVenueExecutionReference (metadata : record_) : option string :=
  match rec_get metadata VENUE_EXECUTION_REFERENCE_METADATA_KEY with
  | JStr s => if bool_decide (s = "") then None else Some s
  | _ => None
  end.
Definition readVenueExecutionMode (metadata : record_) : option VenueOrderExecutionMode :=
  match rec_get metadata VENUE_EXECUTION_MODE_METADATA_KEY with
  | JStr s => if bool_decide (s = "real") then Some real else if bool_decide (s = "simulated") then Some simulated else None
  | _ => None
  end.
Definition marketValue (value : jsval) : option string :=
  match value with JStr s => if bool_decide (s = "") then None else Some s | _ => None end.

(** The report of an adapter without [getCarryCapabilities]. *)
Definition no_capabilities (venueId venueType : string) : CarryCapabilityReport :=
  MkCapabilityReport (MkCarryCapabilities venueId mode_simulated false false false true false false not_requested []) true "read_only"
    ["carry_controlled_execution_not_implemented"] [("venueType", JStr venueType)].
(** The view of a venue: the promotion of its connector, or what the adapter reports
    where there is none. *)
Definition self_eligible (c : CarryCapabilityReport) (approvedForLiveUse : bool) : bool :=
  approvedForLiveUse && vk_executionSupported (crp_capabilities c) && crp_healthy c && is_empty (crp_missingPrerequisites c).
Definition venue_view (strategyRunId : option string) (now : string) (promotion : option ConnectorPromotionSummary) (c : CarryCapabilityReport)
    : CarryVenueView :=
  let k := crp_capabilities c in
  let approvedForLiveUse := match promotion with Some p => cp_approvedForLiveUse p | None => vk_approvedForLiveUse k end in
  let promotionStatus := match promotion with
                         | Some p => cp_promotionStatus p
                         | None => if approvedForLiveUse then ps_approved else ps_not_requested
                         end in
  MkCarryVenueView strategyRunId (vk_venueId k) (vk_venueMode k) (vk_executionSupported k) (vk_supportsIncreaseExposure k)
    (vk_supportsReduceExposure k) (vk_readOnly k) approvedForLiveUse
    (match promotion with Some p => cp_sensitiveExecutionEligible p | None => self_eligible c approvedForLiveUse end)
    promotionStatus (match promotion with Some p => cp_blockers p | None => crp_missingPrerequisites c end)
    (crp_healthy c) (crp_onboardingState c) (crp_missingPrerequisites c)
    (jm_of_list (crp_metadata c ++ [("reportedApprovedForLiveUse", JBool (vk_approvedForLiveUse k));
                                    ("connectorPromotionStatus", JStr (promotion_status_str promotionStatus))]))
    now now.

(** *** The connectors of a live action *)

Definition unregistered_reason (venueId : string) : CarryOperationalBlockedReason :=
  MkCarryBlocked venue_execution_unsupported cat_venue_capability ("Carry venue " +:+ venueId +:+ " is not registered for execution.")
    "Register the connector and re-run carry evaluation before executing this action." [("venueId", JStr venueId)].
Definition unsupported_reason (v : CarryVenueView) (venueId : string) : CarryOperationalBlockedReason :=
  MkCarryBlocked venue_execution_unsupported cat_venue_capability ("Carry venue " +:+ venueId +:+ " is not currently executable.")
    "Restore execution-capable connector posture before retrying this action."
    [("venueId", JStr venueId); ("readOnly", JBool (cvw_readOnly v)); ("executionSupported", JBool (cvw_executionSupported v))].
Definition unapproved_reason (v : CarryVenueView) (venueId : string) : CarryOperationalBlockedReason :=
  MkCarryBlocked venue_live_unapproved cat_venue_capability ("Carry venue " +:+ venueId +:+ " is not approved for live use.")
    "Request and approve connector promotion before retrying this action."
    [("venueId", JStr venueId); ("promotionStatus", JStr (promotion_status_str (cvw_promotionStatus v)))].
Definition ineligible_reason (v : CarryVenueView) (venueId : string) : CarryOperationalBlockedReason :=
  MkCarryBlocked venue_live_ineligible cat_venue_capability
    ("Carry venue " +:+ venueId +:+ " is approved but currently blocked by connector readiness evidence.")
    "Restore connector freshness and health, then re-run carry evaluation before retrying."
    [("venueId", JStr venueId); ("promotionStatus", JStr (promotion_status_str (cvw_promotionStatus v)));
     ("blockers", JArr (map JStr (cvw_promotionBlockedReasons v)))].
Definition connector_block (venues : list (string * CarryVenueView)) (o : CarryPlannedOrder) : list CarryOperationalBlockedReason :=
  match jm_get (cpo_venueId o) venues with
  | None => [unregistered_reason (cpo_venueId o)]
  | Some v =>
      (if negb (cvw_executionSupported v) || cvw_readOnly v then [unsupported_reason v (cpo_venueId o)] else [])
      ++ (if negb (cvw_approvedForLiveUse v) then [unapproved_reason v (cpo_venueId o)]
          else if negb (cvw_sensitiveExecutionEligible v) then [ineligible_reason v (cpo_venueId o)] else [])
  end.
Definition connector_blocks (a : CarryActionRow) (orders : list CarryPlannedOrder) (venues : list (string * CarryVenueView))
    : list CarryOperationalBlockedReason :=
  if bool_decide (cap_executionMode (cya_plan a) = cm_live) then flat_map (connector_block venues) orders else [].

(** *** The position before an order *)

Definition PRE_TRADE_POSITION_CONTEXT_METADATA_KEY : string := "preTradePositionContext".
Definition positionSideFromOrderSide (side : OrderSide) : PositionSide := if bool_decide (side = buy) then long else short.
Definition expectedPositionSideForOrder (side : OrderSide) (reduceOnly : bool) : PositionSide :=
  if reduceOnly then (if bool_decide (side = buy) then short else long) else positionSideFromOrderSide side.
Definition same_asset (a b : string) : bool := bool_decide (toUpperCase (js_trim a) = toUpperCase (js_trim b)).
Definition matching_position (side : PositionSide) (asset : string) (positions : list VenuePosition) : option VenuePosition :=
  let matching := filter (fun p => same_asset (vp_asset p) asset = true) positions in
  match List.find (fun p => bool_decide (vp_side p = side)) matching with Some p => Some p | None => head matching end.
Definition position_context (status : string) (observedAt : Z) (asset : string) (marketKey marketSymbol side size reason : option string) : record_ :=
  [("captureStatus", JStr status); ("observedAt", JStr (toISOString observedAt)); ("asset", JStr asset); ("marketKey", JStrNull marketKey);
   ("marketSymbol", JStrNull marketSymbol); ("side", JStrNull side); ("size", JStrNull size); ("reason", JStrNull reason)].
Definition capturePreTradePositionContext (asset : string) (side : OrderSide) (reduceOnly : bool) (marketKey marketSymbol : option string)
    (capturedAt : Z) (positions : list VenuePosition) : record_ :=
  match matching_position (expectedPositionSideForOrder side reduceOnly) asset positions with
  | None => position_context "captured" capturedAt asset marketKey marketSymbol (Some "flat") (Some "0") None
  | Some p => position_context "captured" capturedAt asset marketKey marketSymbol (Some (PositionSide_str (vp_side p))) (Some (vp_size p)) None
  end.

(** *** Guardrails *)

(** [sum + parseFloat(size) * parseFloat(price ?? '0')], from 0. *)
Definition total_notional (orders : list CarryPlannedOrder) : num :=
  foldl (fun sum o => n_add sum (n_mul (parseFloat (cpo_requestedSize o)) (parseFloat (order_price o)))) n_zero orders.
Definition over_notional (config : option GuardrailConfigView) (total : num) : option (GuardrailConfigView * string) :=
  match config with
  | Some g => match gcv_maxSingleActionNotionalUsd g with
              | Some bound => if negb (bool_decide (bound = "")) && n_gt total (parseFloat bound) then Some (g, bound) else None
              | None => None
              end
  | None => None
  end.
Definition at_capacity (config : option GuardrailConfigView) (count : Z) : option (GuardrailConfigView * Z) :=
  match config with
  | Some g => match gcv_maxConcurrentExecutions g with
              | Some bound => if negb (bound =? 0) && (bound <=? count) then Some (g, bound) else None
              | None => None
              end
  | None => None
  end.
Definition kill_switch (config : option GuardrailConfigView) : option GuardrailConfigView :=
  match config with Some g => if gcv_killSwitchTriggered g then Some g else None | None => None end.

(** *** What is recorded *)

Definition carry_code_str (c : CarryOperationalBlockedReasonCode) : string :=
  match c with
  | below_minimum_action_size => "below_minimum_action_size" | runtime_not_ready => "runtime_not_ready"
  | critical_mismatch_pressure => "critical_mismatch_pressure" | carry_throttle_active => "carry_throttle_active"
  | carry_budget_exceeded => "carry_budget_exceeded" | venue_execution_unsupported => "venue_execution_unsupported"
  | venue_live_unapproved => "venue_live_unapproved" | venue_live_ineligible => "venue_live_ineligible"
  | live_execution_disabled => "live_execution_disabled" | simulated_execution_only => "simulated_execution_only"
  | unsupported_strategy_base_asset => "unsupported_strategy_base_asset" | unsupported_strategy_tenor => "unsupported_strategy_tenor"
  | strategy_target_apy_below_floor => "strategy_target_apy_below_floor" | disallowed_yield_source => "disallowed_yield_source"
  | missing_leverage_health_threshold => "missing_leverage_health_threshold" | unsafe_leverage_looping => "unsafe_leverage_looping"
  | opportunity_confidence_below_threshold => "opportunity_confidence_below_threshold" | opportunity_expired => "opportunity_expired"
  | no_open_positions => "no_open_positions" | insufficient_position_reduction_capacity => "insufficient_position_reduction_capacity"
  end.
Definition carry_category_str (c : CarryOperationalBlockedReasonCategory) : string :=
  match c with
  | cat_action_size => "action_size" | cat_runtime => "runtime" | cat_risk => "risk" | cat_budget => "budget"
  | cat_venue_capability => "venue_capability" | cat_execution_mode => "execution_mode" | cat_strategy_policy => "strategy_policy"
  | cat_opportunity => "opportunity" | cat_exposure => "exposure"
  end.
Definition carry_reason (b : CarryOperationalBlockedReason) : jsval :=
  JObj [("code", JStr (carry_code_str (cb_code b))); ("category", JStr (carry_category_str (cb_category b))); ("message", JStr (cb_message b));
        ("operatorAction", JStr (cb_operatorAction b)); ("details", JObj (cb_details b))].
Definition carry_reasons (l : list CarryOperationalBlockedReason) : jsval := JArr (map carry_reason l).
Definition reasons_message (l : list CarryOperationalBlockedReason) : string := js_join "; " (map cb_message l).

(** An entry of [orderResults]. *)
Record CarryOrderResult := MkCarryOrderResult {
  cor_stepId : string;
  cor_intentId : string;
  cor_clientOrderId : string;
  cor_venueOrderId : option string;
  cor_status : OrderStatus;
  cor_filledSize : string;
  cor_averageFillPrice : option string;
  cor_executionReference : string;
  cor_executionMode : option VenueOrderExecutionMode;
}.
Definition mode_value (m : option VenueOrderExecutionMode) : jsval := JStrNull (mode_str <$> m).
Definition order_result_value (r : CarryOrderResult) : jsval :=
  JObj [("stepId", JStr (cor_stepId r)); ("intentId", JStr (cor_intentId r)); ("clientOrderId", JStr (cor_clientOrderId r));
        ("venueOrderId", JStrNull (cor_venueOrderId r)); ("status", JStr (OrderStatus_str (cor_status r)));
        ("filledSize", JStr (cor_filledSize r)); ("averageFillPrice", JStrNull (cor_averageFillPrice r));
        ("executionReference", JStr (cor_executionReference r)); ("executionMode", mode_value (cor_executionMode r))].
Definition references (results : list CarryOrderResult) : list string :=
  filter (fun s => s <> "") (map cor_executionReference results).

Record ExecuteCarryInput := MkExecuteCarry {
  eci_actionId : string;
  eci_actorId : string;
  eci_commandId : option string;
  eci_startedBy : string;
}.
Record ExecuteCarryResult := MkCarryOutcome {
  ecr_actionId : string;
  ecr_executionId : string;
  ecr_orderCount : Z;
  ecr_guardrailViolations : list string;
}.

Section Runtime.
Context `{CV : CarryVenues} `{DL : DecimalLib}.

Definition run_orders {A} (m : eff (Odb * cv_World) A) : eff Db A := fun d => let '(r, sw) := m (cv_split d) in (r, cv_join sw d).

Definition carry_report (key : string) : eff Db CarryCapabilityReport :=
  match cv_getCarryCapabilities key with
  | Some report => report
  | None => mret (no_capabilities (env_venueId (ExecutionEnv := cv_adapter key)) (cv_venueType key))
  end.
Definition collectCarryVenueViews (strategyRunId : option string) : eff Db (list CarryVenueView) :=
  now ← db_now;
  venues ← cv_listVenues 500;
  let promotionByVenueId := jm_of_list venues in
  fold_eff (fun views key =>
    c ← carry_report key;
    mret (views ++ [venue_view strategyRunId (toISOString now) (jm_get (vk_venueId (crp_capabilities c)) promotionByVenueId) c])) [] cv_keys.

Definition buildCarryExecutionStepMetadata (o : CarryPlannedOrder) : eff Db record_ :=
  capturedAt ← db_now;
  let marketIdentity := readCanonicalMarketIdentityFromMetadata (cpo_metadata o) {|
    md_venueId := Some (cpo_venueId o); md_asset := Some (cpo_asset o); md_marketType := rec_get (cpo_metadata o) "instrumentType";
    md_provenance := Some derived; md_capturedAtStage := carry_execution_step; md_source := "carry_execution_pretrade_capture";
    md_notes := Some ["Pre-trade position context captures the best market identity available immediately before submission."] |} in
  let field (of_identity : CanonicalMarketIdentity -> option string) (key : string) :=
    match marketIdentity ≫= of_identity with Some s => Some s | None => marketValue (rec_get (cpo_metadata o) key) end in
  let marketKey := field mi_marketKey "marketKey" in
  let marketSymbol := field mi_marketSymbol "marketSymbol" in
  let with_context (context : record_) := jm_set PRE_TRADE_POSITION_CONTEXT_METADATA_KEY (JObj context) (cpo_metadata o) in
  catch_eff
    (positions ← run_orders (on_world (env_getPositions (ExecutionEnv := cv_adapter (cpo_venueId o))));
     mret (with_context (capturePreTradePositionContext (cpo_asset o) (cpo_side o) (cpo_reduceOnly o) marketKey marketSymbol capturedAt positions)))
    (fun error => mret (with_context
       (position_context "unavailable" capturedAt (cpo_asset o) marketKey marketSymbol None None (Some (err_message error))))).

(** *** How an attempt ends without orders *)

Definition refuse (a : CarryActionRow) (executionId message : string) (patch : list CarryExecutionField) : eff Db unit :=
  completedAt ← db_now;
  _ ← updateCarryExecution executionId (patch ++ [xcf_completedAt (Some completedAt)]);
  _ ← failCarryAction (cya_id a) (Some executionId) message;
  mret tt.
(** The action is not executable. *)
Definition fail_unexecutable {A} (a : CarryActionRow) (executionId : string) : eff Db A :=
  let errorMessage := reasons_message (cap_blockedReasons (cya_plan a)) in
  _ ← failCarryAction (cya_id a) (Some executionId) errorMessage;
  _ ← sync_carry (cya_plan a);
  throw_eff (Error_ errorMessage).
(** A connector blocks a live action. *)
Definition block_connectors {A} (a : CarryActionRow) (input : ExecuteCarryInput) (executionId : string)
    (blocks : list CarryOperationalBlockedReason) : eff Db A :=
  let errorMessage := reasons_message blocks in
  _ ← refuse a executionId errorMessage
        [xcf_status cst_failed; xcf_blockedReasons blocks; xcf_lastError (Some errorMessage); xcf_outcomeSummary (Some errorMessage);
         xcf_outcome [("blockedReasons", carry_reasons blocks)]];
  _ ← sync_carry (cya_plan a);
  _ ← carry_audit "carry.execution_blocked" (eci_actorId input)
        [("carryActionId", JStr (cya_id a)); ("executionId", JStr executionId); ("blockedReasons", carry_reasons blocks)];
  throw_eff (Error_ errorMessage).
(** A guardrail is violated. *)
Definition stop_at_guardrail {A} (a : CarryActionRow) (executionId configId violationType violationMessage : string)
    (attempted bound : option string) (errorMessage outcomeSummary : string) : eff Db A :=
  _ ← recordGuardrailViolation configId violationType violationMessage (Some (cya_id a)) attempted bound true;
  _ ← refuse a executionId errorMessage
        [xcf_status cst_failed; xcf_lastError (Some errorMessage); xcf_outcomeSummary (Some outcomeSummary)];
  throw_eff (Error_ errorMessage).
Definition enforce_guardrails (a : CarryActionRow) (orders : list CarryPlannedOrder) (executionId : string) : eff Db unit :=
  guardrailConfig ← getGuardrailConfig "global" "carry";
  match kill_switch guardrailConfig with
  | Some g => stop_at_guardrail a executionId (gcv_id g) "kill_switch_triggered" "Execution blocked: kill switch is triggered" None None
                "Execution blocked: kill switch triggered" "Execution blocked by guardrail: kill switch"
  | None =>
      let totalNotional := total_notional orders in
      match over_notional guardrailConfig totalNotional with
      | Some (g, bound) =>
          stop_at_guardrail a executionId (gcv_id g) "max_notional_exceeded"
            ("Execution blocked: notional " +:+ n_str totalNotional +:+ " exceeds limit " +:+ bound) (Some (n_str totalNotional)) (Some bound)
            "Execution blocked: notional limit exceeded" ("Execution blocked by guardrail: max notional " +:+ bound)
      | None =>
          executingCount ← getExecutingActionCount;
          match at_capacity guardrailConfig executingCount with
          | Some (g, bound) =>
              stop_at_guardrail a executionId (gcv_id g) "max_concurrency_exceeded"
                ("Execution blocked: concurrency " +:+ z_str executingCount +:+ " >= limit " +:+ z_str bound) None None
                "Execution blocked: concurrency limit exceeded" ("Execution blocked by guardrail: max concurrent " +:+ z_str bound)
          | None => mret tt
          end
      end
  end.

(** *** The multi-leg plan *)

Definition db_leg_type (t : LegType) : LegType := match t with lt_futures => lt_perp | _ => t end.
Definition or_unknown (asset : option string) : string := or_else asset "unknown".
Definition persist_legs (a : CarryActionRow) (planId : string) (legs : list LegExecution) : eff Db unit :=
  fold_eff (fun _ leg =>
    _ ← createLegExecution planId (cya_id a) (le_legSequence leg) (db_leg_type (le_legType leg)) (le_side leg) (le_venueId leg) (le_asset leg)
          (d_toString (le_targetSize leg)) (d_toString (le_targetNotionalUsd leg)) [("marketSymbol", JStrNull (le_marketSymbol leg))];
    mret tt) tt legs.
(** The legs of a plan and its start; the plan is open also when this fails. *)
Definition start_plan (a : CarryActionRow) (executionId planId : string) (plan : MultiLegPlan) : eff Db unit :=
  _ ← persist_legs a planId (mp_legs plan);
  _ ← updateMultiLegPlanStatus planId pl_executing (Some "Plan execution started");
  _ ← updateCarryExecution executionId
        [xcf_outcome [("blockedReasons", carry_reasons (cap_blockedReasons (cya_plan a))); ("multiLegPlanId", JStr planId);
                      ("multiLegEnabled", JBool true)]];
  mret tt.
Definition open_plan (a : CarryActionRow) (orders : list CarryPlannedOrder) (executionId : string) : eff Db (option string) :=
  if Z.of_nat (length orders) <? 2 then mret None
  else catch_eff
    (planInput ← lift_exn (buildMultiLegPlanInput (cya_id a) (cap_strategyRunId (cya_plan a)) (or_unknown (cap_asset (cya_plan a))) orders);
     now ← db_now;
     ms ← db_now;
     match createMultiLegPlan now ms planInput with
     | Err _ => mret None
     | Ok plan =>
         planId ← store_createMultiLegPlan (cya_id a) (cap_strategyRunId (cya_plan a)) (or_unknown (cap_asset (cya_plan a)))
           (d_toString (mi_notionalUsd planInput)) (Z.of_nat (length (mp_legs plan))) (mp_coordinationConfig plan)
           (calculateExecutionOrder (mp_coordinationConfig plan) (Z.of_nat (length (mp_legs plan))));
         _ ← catch_eff (start_plan a executionId planId plan) (fun _ => mret tt);
         mret (Some planId)
     end)
    (fun _ => mret None).

(** *** One order *)

(** [venueSnapshot], where the venue is not registered. *)
Definition step_plan (a : CarryActionRow) (executionId : string) (venues : list (string * CarryVenueView)) (o : CarryPlannedOrder) : CarryStepPlan :=
  let '(mode, supported, readOnly, approved, onboarding) :=
    match jm_get (cpo_venueId o) venues with
    | Some v => (cvw_venueMode v, cvw_executionSupported v, cvw_readOnly v, cvw_approvedForLiveUse v, cvw_onboardingState v)
    | None => (if cap_simulated (cya_plan a) then mode_simulated else mode_live, false, true, false, "read_only")
    end in
  MkStepPlan executionId (cya_id a) (cap_strategyRunId (cya_plan a)) (Some (cpo_id o)) (cpo_intentId o) (cpo_venueId o) mode supported readOnly
    approved onboarding (cpo_asset o) (cpo_side o) (cpo_orderType o) (cpo_requestedSize o) (cpo_requestedPrice o) (cpo_reduceOnly o).
Definition order_intent (o : CarryPlannedOrder) (opportunityId : string) (metadata : record_) : OrderIntent := {|
  oi_intentId := cpo_intentId o; oi_venueId := cpo_venueId o; oi_asset := cpo_asset o; oi_side := cpo_side o; oi_type := cpo_orderType o;
  oi_size := cpo_requestedSize o; oi_limitPrice := cpo_requestedPrice o; oi_opportunityId := opportunityId; oi_reduceOnly := cpo_reduceOnly o;
  oi_createdAt := cpo_createdAt o; oi_metadata := metadata |}.
Definition record_identity (record : OrderRecord) : option CanonicalMarketIdentity :=
  let i := or_intent record in
  readCanonicalMarketIdentityFromMetadata (oi_metadata i) {|
    md_venueId := Some (oi_venueId i); md_asset := Some (oi_asset i); md_marketType := rec_get (oi_metadata i) "instrumentType";
    md_provenance := Some derived; md_capturedAtStage := carry_execution_step; md_source := "carry_action_execution";
    md_notes := Some ["Carry execution outcomes expose the best market identity available after order submission."] |}.
Definition order_reference (o : CarryPlannedOrder) (record : OrderRecord) : string :=
  match readVenueExecutionReference (oi_metadata (or_intent record)) with
  | Some r => r
  | None => or_else (or_venueOrderId record) (cpo_intentId o)
  end.
Definition step_patch (a : CarryActionRow) (o : CarryPlannedOrder) (record : OrderRecord) (completedAt : Z) : list CarryStepField :=
  [csf_clientOrderId (Some (cpo_intentId o)); csf_venueOrderId (or_venueOrderId record); csf_executionReference (Some (order_reference o record));
   csf_status (OrderStatus_str (or_status record)); csf_simulated (cap_simulated (cya_plan a)); csf_filledSize (Some (or_filledSize record));
   csf_averageFillPrice (or_averageFillPrice record);
   csf_outcomeSummary (Some (match or_lastError record with
                             | None => "Execution step completed with status " +:+ OrderStatus_str (or_status record) +:+ "."
                             | Some e => e
                             end));
   csf_outcome [("attemptCount", JInt (or_attemptCount record)); ("feesPaid", JStrNull (or_feesPaid record));
                ("fillCount", JInt (Z.of_nat (length (or_fills record)))); ("submittedAt", JStrNull (toISOString <$> or_submittedAt record));
                ("executionReference", JStr (order_reference o record));
                ("executionMode", mode_value (readVenueExecutionMode (oi_metadata (or_intent record))));
                ("marketIdentity", match record_identity record with Some i => JObj (identity_record i) | None => JNull end)];
   csf_lastError (or_lastError record); csf_metadata (oi_metadata (or_intent record)); csf_completedAt (Some completedAt)].

(** The leg of an order: by the market of the order or the name of its venue, the
    first that is pending. *)
Definition order_leg_type (o : CarryPlannedOrder) : LegType :=
  if bool_decide (mi_marketType <$> order_identity o = Some mt_perp) || includes "perp" (toLowerCase (cpo_venueId o)) then lt_perp else lt_spot.
Definition complete_leg (planId : string) (o : CarryPlannedOrder) (record : OrderRecord) : eff Db unit :=
  legs ← getLegExecutionsForPlan planId;
  match List.find (fun l => bool_decide (lgr_venueId l = cpo_venueId o) && bool_decide (lgr_legType l = order_leg_type o)
                            && bool_decide (lgr_status l = ls_pending)) legs with
  | None => mret tt
  | Some l =>
      updateLegExecutionStatus (lgr_id l) ls_completed (Some (Some (or_filledSize record)))
        (Some (Some (or_else (or_averageFillPrice record) (order_price o)))) None
  end.
Definition fail_leg (planId message : string) : eff Db unit :=
  legs ← getLegExecutionsForPlan planId;
  match List.find (fun l => bool_decide (lgr_status l = ls_pending)) legs with
  | None => mret tt
  | Some l => updateLegExecutionStatus (lgr_id l) ls_failed None None (Some ("Leg failed: " +:+ message))
  end.
(** A leg that cannot be updated is logged only. *)
Definition on_leg (planId : option string) (f : string -> eff Db unit) : eff Db unit :=
  match planId with None => mret tt | Some id => catch_eff (f id) (fun _ => mret tt) end.

(** The [try] of an order: its submission and what is recorded of it. *)
Definition submit_order (a : CarryActionRow) (o : CarryPlannedOrder) (opportunityId : string) (metadata : record_) : eff Db OrderRecord :=
  run_orders (submitIntent (EE := cv_adapter (cpo_venueId o)) cycle_executor (order_intent o opportunityId metadata)).
Definition record_order (a : CarryActionRow) (o : CarryPlannedOrder) (stepId : string) (planId : option string) (record : OrderRecord)
    : eff Db CarryOrderResult :=
  _ ← (match cap_strategyRunId (cya_plan a) with
       | None => mret tt
       | Some runId => run_orders (on_store (persistExecutionRecord (cv_execution_event runId) record))
       end);
  completedAt ← (match or_completedAt record with Some t => mret t | None => db_now end);
  _ ← updateCarryExecutionStep stepId (step_patch a o record completedAt);
  _ ← on_leg planId (fun id => complete_leg id o record);
  mret (MkCarryOrderResult stepId (cpo_intentId o) (cpo_intentId o) (or_venueOrderId record) (or_status record) (or_filledSize record)
    (or_averageFillPrice record) (order_reference o record) (readVenueExecutionMode (oi_metadata (or_intent record)))).
Definition try_order (a : CarryActionRow) (o : CarryPlannedOrder) (stepId : string) (metadata : record_) (planId : option string)
    : eff Db CarryOrderResult :=
  opportunityId ← (match cap_opportunityId (cya_plan a) with Some id => mret id | None => cd_create_id end);
  record ← submit_order a o opportunityId metadata;
  record_order a o stepId planId record.
(** The handler of its [catch]. *)
Definition fail_order {A} (a : CarryActionRow) (executionId stepId : string) (planId : option string) (results : list CarryOrderResult)
    (error : JsError) : eff Db A :=
  let message := err_message error in
  stepAt ← db_now;
  _ ← updateCarryExecutionStep stepId
        [csf_status "failed"; csf_simulated (cap_simulated (cya_plan a)); csf_outcomeSummary (Some message);
         csf_outcome [("attempted", JBool true)]; csf_lastError (Some message); csf_completedAt (Some stepAt)];
  _ ← on_leg planId (fun id => fail_leg id message);
  _ ← refuse a executionId message
        [xcf_status cst_failed; xcf_lastError (Some message); xcf_outcomeSummary (Some message);
         xcf_outcome [("orderResults", JArr (map order_result_value results))]];
  _ ← sync_carry (cya_plan a);
  throw_eff error.
Definition fail_unregistered {A} (a : CarryActionRow) (executionId stepId venueId : string) : eff Db A :=
  let message := "Carry venue " +:+ quoted venueId +:+ " is not registered." in
  stepAt ← db_now;
  _ ← updateCarryExecutionStep stepId
        [csf_status "failed"; csf_outcomeSummary (Some message); csf_lastError (Some message); csf_outcome [("attempted", JBool false)];
         csf_completedAt (Some stepAt)];
  _ ← refuse a executionId message [xcf_status cst_failed; xcf_lastError (Some message)];
  _ ← sync_carry (cya_plan a);
  throw_eff (Error_ message).
Definition execute_order (a : CarryActionRow) (executionId : string) (venues : list (string * CarryVenueView)) (planId : option string)
    (results : list CarryOrderResult) (o : CarryPlannedOrder) : eff Db (list CarryOrderResult) :=
  let registered := bool_decide (cpo_venueId o ∈ cv_keys) in
  metadata ← (if registered then buildCarryExecutionStepMetadata o else mret (cpo_metadata o));
  step ← createCarryExecutionStep (step_plan a executionId venues o) (Some (cpo_intentId o)) "pending" (cap_simulated (cya_plan a)) metadata;
  if negb registered then fail_unregistered a executionId (cs_id step) (cpo_venueId o)
  else
    result ← catch_eff (try_order a o (cs_id step) metadata planId) (fail_order a executionId (cs_id step) planId results);
    mret (results ++ [result]).

(** *** The end of the plan and of the action *)

Definition leg_notional (legs : list LegRow) : num :=
  foldl (fun sum l => n_add sum (n_mul (js_Number (or_else (lgr_executedSize l) (lgr_targetSize l)))
                                       (js_Number (or_else (lgr_averageFillPrice l) "0")))) n_zero legs.
Definition legs_of_type (t : LegType) (legs : list LegRow) : list LegRow := filter (fun l => lgr_legType l = t) legs.
Definition plan_deviation (spotNotional perpNotional : num) : num :=
  let total := n_add spotNotional perpNotional in
  if n_gt total n_zero then n_mul (n_div (n_abs (n_sub spotNotional perpNotional)) total) (num_of_Z 100) else n_zero.
Definition plan_imbalance (spotNotional perpNotional : num) : HedgeImbalance :=
  if n_gt spotNotional perpNotional then hi_spot_heavy else if n_gt perpNotional spotNotional then hi_perp_heavy else hi_balanced.
(** [legsFailed] is 0 here: an order that fails ends the execution. *)
Definition settle_plan (a : CarryActionRow) (orders : list CarryPlannedOrder) (planId : string) (legsCompleted : Z) (legs : list LegRow)
    (deviation : num) : eff Db unit :=
  let spotLegs := legs_of_type lt_spot legs in
  let perpLegs := legs_of_type lt_perp legs in
  _ ← recordHedgeState planId (cya_id a) (or_unknown (cap_asset (cya_plan a))) (lgr_id <$> head spotLegs) (lgr_id <$> head perpLegs)
        (n_str (total_notional orders)) deviation (plan_imbalance (leg_notional spotLegs) (leg_notional perpLegs)) (n_ge deviation (num_of_Z 2));
  if forallb (fun l => bool_decide (lgr_status l = ls_completed)) legs then
    updateMultiLegPlanStatus planId pl_completed
      (Some ("All " +:+ z_str legsCompleted +:+ " legs completed successfully, hedge deviation: " +:+ n_toFixed 4 deviation +:+ "%"))
  else if existsb (fun l => bool_decide (lgr_status l = ls_failed)) legs then
    updateMultiLegPlanStatus planId pl_partial
      (Some (z_str legsCompleted +:+ " legs completed, 0 legs failed, hedge deviation: " +:+ n_toFixed 4 deviation +:+ "%"))
  else mret tt.
(** [finalHedgeDeviation]. *)
Definition close_plan (a : CarryActionRow) (orders : list CarryPlannedOrder) (planId : option string) (legsCompleted : Z)
    : eff Db (option string) :=
  match planId with
  | None => mret None
  | Some id => catch_eff
      (legs ← getLegExecutionsForPlan id;
       let deviation := plan_deviation (leg_notional (legs_of_type lt_spot legs)) (leg_notional (legs_of_type lt_perp legs)) in
       _ ← catch_eff (settle_plan a orders id legsCompleted legs deviation) (fun _ => mret tt);
       mret (Some (n_toFixed 4 deviation)))
      (fun _ => mret None)
  end.
Definition execution_modes (results : list CarryOrderResult) : list string :=
  js_unique (omap (fun r => mode_str <$> cor_executionMode r) results).
Definition finish_action (a : CarryActionRow) (orders : list CarryPlannedOrder) (input : ExecuteCarryInput) (executionId : string)
    (planId finalHedgeDeviation : option string) (results : list CarryOrderResult) : eff Db ExecuteCarryResult :=
  let plan := cya_plan a in
  completedAt ← db_now;
  _ ← updateCarryExecution executionId
        [xcf_status cst_completed;
         xcf_outcomeSummary (Some (if cap_simulated plan then "Carry action completed against simulated venues."
                                   else "Carry action completed against live venues."));
         xcf_outcome [("stepCount", JInt (Z.of_nat (length results))); ("orderResults", JArr (map order_result_value results));
                      ("executionModes", JArr (map JStr (execution_modes results))); ("guardrailViolations", JArr []);
                      ("multiLegPlanId", JStrOpt planId); ("legsCompleted", JInt (Z.of_nat (length results))); ("legsFailed", JInt 0);
                      ("finalHedgeDeviation", JStrNull finalHedgeDeviation)];
         xcf_venueExecutionReference (Some (js_join "," (references results))); xcf_completedAt (Some completedAt)];
  _ ← completeCarryAction (cya_id a) executionId;
  _ ← cv_refreshVenueTruthInventory (js_unique (map cpo_venueId orders));
  _ ← cv_refreshInternalDerivativeState "carry-execution" (cap_strategyRunId plan) executionId;
  _ ← sync_carry plan;
  _ ← carry_audit "carry.executed" (eci_actorId input)
        [("carryActionId", JStr (cya_id a)); ("executionId", JStr executionId); ("orderCount", JInt (Z.of_nat (length results)));
         ("simulated", JBool (cap_simulated plan)); ("venueExecutionReferences", JArr (map JStr (references results)))];
  mret (MkCarryOutcome (cya_id a) executionId (Z.of_nat (length results)) []).

(** *** executeCarryAction *)

(** The orders, once connectors and guardrails let them through. *)
Definition execute_orders (a : CarryActionRow) (orders : list CarryPlannedOrder) (input : ExecuteCarryInput) (executionId : string)
    (venues : list (string * CarryVenueView)) : eff Db ExecuteCarryResult :=
  planId ← open_plan a orders executionId;
  results ← fold_eff (execute_order a executionId venues planId) [] orders;
  finalHedgeDeviation ← close_plan a orders planId (Z.of_nat (length results));
  finish_action a orders input executionId planId finalHedgeDeviation results.
Definition execute_checked (a : CarryActionRow) (orders : list CarryPlannedOrder) (input : ExecuteCarryInput) (executionId : string)
    : eff Db ExecuteCarryResult :=
  _ ← markCarryActionExecuting (cya_id a);
  carryVenues ← collectCarryVenueViews (cap_strategyRunId (cya_plan a));
  let venues := jm_of_list (map (fun v => (cvw_venueId v, v)) carryVenues) in
  let blocks := connector_blocks a orders venues in
  if negb (is_empty blocks) then block_connectors a input executionId blocks
  else
    _ ← enforce_guardrails a orders executionId;
    execute_orders a orders input executionId venues.
Definition carry_executable_status (s : CarryExecutionStatus) : bool := bool_decide (s = cst_queued) || bool_decide (s = cst_approved).
Definition start_execution (a : CarryActionRow) (input : ExecuteCarryInput) : eff Db CarryExecutionRow :=
  let plan := cya_plan a in
  createCarryExecution (cya_id a) (cap_strategyRunId plan) (eci_commandId input) (if cap_executable plan then cst_executing else cst_failed)
    (cap_executionMode plan) (cap_simulated plan) (eci_actorId input) (eci_startedBy input) (cap_blockedReasons plan)
    [("blockedReasons", carry_reasons (cap_blockedReasons plan))]
    (if cap_executable plan then None else Some (reasons_message (cap_blockedReasons plan))).
Definition executeCarryAction (input : ExecuteCarryInput) : eff Db ExecuteCarryResult :=
  detail ← getCarryAction (eci_actionId input);
  match detail with
  | None => throw_eff (Error_ ("Carry action " +:+ quoted (eci_actionId input) +:+ " was not found."))
  | Some (a, orders) =>
      if negb (carry_executable_status (cya_status a)) then
        throw_eff (Error_ ("Carry action " +:+ quoted (eci_actionId input) +:+ " is not executable from status "
          +:+ quoted (carry_status_str (cya_status a)) +:+ "."))
      else
        execution ← start_execution a input;
        if negb (cap_executable (cya_plan a)) then fail_unexecutable a (cxr_id execution)
        else execute_checked a orders input (cxr_id execution)
  end.
End Runtime.

(** ** No multi-leg plan is opened *)

Lemma no_plan_opened `{CV : CarryVenues} `{DL : DecimalLib} a orders executionId d r d' :
  open_plan a orders executionId d = (r, d') -> r = Ret None.
Proof.
  unfold open_plan. destruct (Z.of_nat (length orders) <? 2); [by intros [= <- _]|]. unfold catch_eff.
  set (body := lift_exn _ ≫= _). destruct (body d) as [[o|e] d1] eqn:E; [|by intros [= <- _]]. intros [= <- _]. f_equal.
  subst body. eff_inv E as input d2 E1; [done|]. eff_inv E as t1 d3 E2; [done|]. eff_inv E as t2 d4 E3; [done|].
  injection E1 as E1 _. rewrite (plan_refused _ _ _ _ _ _ _ E1) in E. by injection E as <- _.
Qed.

(** ** What the statements do to the actions and the venues *)

Definition carry_allowed (role : ActorRole) (plan : CarryActionPlan) : bool := carry_open plan && carry_role_suffices role plan.
#[export] Instance carry_approvable : Approvable CarryActionRow CarryActionPlan := {|
  ap_id := cya_id; ap_plan := cya_plan; ap_moved a := cya_status a <> cst_recommended; ap_by := cya_approvedBy; ap_allowed := carry_allowed |}.

(** The documented behaviour on the actions, in a system where other processes may
    run the same operations between the statements: their steps are [drifts].
    [placed_of] are the placements that this runtime has asked of the venues; a
    failing statement changes no row. *)
Class CarryLaws `{CV : CarryVenues} := {
  (** the role that authentication gives an actor *)
  role_of : string -> ActorRole;
  actions_of : Db -> list CarryActionRow;
  placed_of : cv_World -> list (string * PlaceOrderParams);
  actions_unique : forall d, NoDup (map cya_id (actions_of d));
  placed (d : Db) : list (string * PlaceOrderParams) := placed_of (cv_split d).2;
  quiet (d d' : Db) : Prop := drifts role_of (actions_of d) (actions_of d') /\ placed d' = placed d;
  cy_action_law : forall id d r d', cy_action id d = (r, d') -> quiet d d' /\ forall o, r = Ret o -> o = find_key cya_id id (actions_of d');
  cy_orders_law : forall id, keeps quiet (cy_orders id);
  cy_action_views_law : forall a, keeps quiet (cy_action_views a);
  cy_insert_action_law : forall mk d r d', cy_insert_action mk d = (r, d') -> (forall id, cya_id (mk id) = id) ->
    quiet d d' /\ is_ret r = false \/
    exists d1 id, quiet d d1 /\ r = Ret (Some (mk id)) /\ actions_of d' = actions_of d1 ++ [mk id] /\ placed d' = placed d1;
  cy_insert_orders_law : forall l, keeps quiet (cy_insert_orders l);
  cy_update_action_law : forall id f d r d', cy_update_action id f d = (r, d') -> (forall a, cya_id (f a) = cya_id a) ->
    quiet d d' /\ is_ret r = false \/
    exists d1, quiet d d1 /\ actions_of d' = map (set_row id f) (actions_of d1) /\ placed d' = placed d1;
  cy_executing_count_law : keeps quiet cy_executing_count;
  cy_insert_execution_law : forall mk, keeps quiet (cy_insert_execution mk);
  cy_execution_law : forall id, keeps quiet (cy_execution id);
  cy_update_execution_law : forall id f, keeps quiet (cy_update_execution id f);
  cy_insert_step_law : forall mk, keeps quiet (cy_insert_step mk);
  cy_step_law : forall id, keeps quiet (cy_step id);
  cy_update_step_law : forall id f, keeps quiet (cy_update_step id f);
  cy_insert_plan_law : forall x, keeps quiet (cy_insert_plan x);
  cy_update_plan_law : forall id f, keeps quiet (cy_update_plan id f);
  cy_insert_leg_law : forall x, keeps quiet (cy_insert_leg x);
  cy_legs_law : forall id, keeps quiet (cy_legs id);
  cy_update_leg_law : forall id f, keeps quiet (cy_update_leg id f);
  cy_insert_hedge_law : forall x, keeps quiet (cy_insert_hedge x);
  cy_guardrail_law : forall t s, keeps quiet (cy_guardrail t s);
  cy_insert_violation_law : forall x, keeps quiet (cy_insert_violation x);
  cy_sync_bundle_law : forall id, keeps quiet (cy_sync_bundle id);
  cy_audit_law : forall s e, keeps quiet (cy_audit s e);
  cv_capabilities_law : forall k m, cv_getCarryCapabilities k = Some m -> keeps quiet m;
  cv_listVenues_law : forall n, keeps quiet (cv_listVenues n);
  cv_refreshTruth_law : forall l, keeps quiet (cv_refreshVenueTruthInventory l);
  cv_refreshDerivatives_law : forall a b c, keeps quiet (cv_refreshInternalDerivativeState a b c);
  cq_now_law : keeps quiet db_now;
  cq_create_id_law : keeps quiet cd_create_id;
  cq_insert_command_law : forall id mk, keeps quiet (cd_insert_command id mk);
  cq_command_law : forall id, keeps quiet (cd_command id);
  cq_insert_event_law : forall e, keeps quiet (db_insert_event e);
  (** the world of the executor is in the state, and the orders are not among the actions *)
  cv_join_law : forall sw d, drifts role_of (actions_of d) (actions_of (cv_join sw d)) /\ placed (cv_join sw d) = placed_of sw.2;
  (** a placement is asked for, whether the venue returns or throws *)
  cv_place_law : forall k p w r w', env_placeOrder (ExecutionEnv := cv_adapter k) p w = (r, w') -> placed_of w' = placed_of w ++ [(k, p)];
  same_placed (w w' : cv_World) : Prop := placed_of w' = placed_of w;
  cv_positions_law : forall k, keeps same_placed (env_getPositions (ExecutionEnv := cv_adapter k));
  cv_env_audit_law : forall k e, keeps same_placed (env_audit (ExecutionEnv := cv_adapter k) e);
  cv_env_now_law : forall k w, placed_of (env_now (ExecutionEnv := cv_adapter k) w).2 = placed_of w;
  cv_env_id_law : forall k w, placed_of (env_createId (ExecutionEnv := cv_adapter k) w).2 = placed_of w;
  cv_env_sleep_law : forall k ms w, placed_of (env_sleep (ExecutionEnv := cv_adapter k) ms w) = placed_of w;
}.

(** ** A submission asks for at most one placement *)

Section Placements.
Context `{CL : CarryLaws}.

Definition no_placement (sw sw' : Odb * cv_World) : Prop := placed_of sw'.2 = placed_of sw.2.
#[export] Instance no_placement_preorder : PreOrder no_placement.
Proof. split; [done|]. intros a b c H1 H2. unfold no_placement in *. congruence. Qed.
Lemma on_store_still {A} (m : eff Odb A) : keeps no_placement (on_store (W := cv_World) m).
Proof. intros sw r sw' H. unfold on_store in H. destruct (m sw.1) as [r0 s]. by injection H as _ <-. Qed.
Lemma pure_still {A} (m : cv_World -> A * cv_World) : (forall w, placed_of (m w).2 = placed_of w) -> keeps no_placement (pure_world (S := Odb) m).
Proof. intros Hm sw r sw' H. unfold pure_world in H. specialize (Hm sw.2). destruct (m sw.2) as [a w]. by injection H as _ <-. Qed.
Lemma now_still k : keeps no_placement (now_ (EE := cv_adapter k) (S := Odb)).
Proof. apply pure_still, cv_env_now_law. Qed.
Lemma id_still k : keeps no_placement (createId (EE := cv_adapter k) (S := Odb)).
Proof. apply pure_still, cv_env_id_law. Qed.
Lemma sleep_still k ms : keeps no_placement (sleep (EE := cv_adapter k) (S := Odb) ms).
Proof. apply pure_still. intros w. apply cv_env_sleep_law. Qed.
Lemma on_world_still {A} (m : eff cv_World A) : keeps same_placed m -> keeps no_placement (on_world (S := Odb) m).
Proof. intros Hm sw r sw' H. unfold on_world in H. destruct (m sw.2) as [r0 w] eqn:E. injection H as _ <-. exact (Hm _ _ _ E). Qed.
Lemma world_audit_still k e : keeps no_placement (on_world (S := Odb) (env_audit (ExecutionEnv := cv_adapter k) e)).
Proof. apply on_world_still, cv_env_audit_law. Qed.
#[local] Hint Resolve on_store_still now_still id_still sleep_still world_audit_still : keeps.
Lemma audit_still k t a x : keeps no_placement (audit (EE := cv_adapter k) (S := Odb) t a x).
Proof. unfold audit. keeps_tac. Qed.
Lemma completion_still k s : keeps no_placement (completion_time (EE := cv_adapter k) (S := Odb) s).
Proof. unfold completion_time. keeps_tac. Qed.
#[local] Hint Resolve audit_still completion_still : keeps.

(** At most one placement at the venue, with parameters of the intent. *)
Definition one_placement (k : string) (intent : OrderIntent) (sw sw' : Odb * cv_World) : Prop :=
  no_placement sw sw' \/ exists identity, placed_of sw'.2 = placed_of sw.2 ++ [(k, place_params intent identity)].
Lemma one_before k intent a b c : no_placement a b -> one_placement k intent b c -> one_placement k intent a c.
Proof. unfold one_placement, no_placement. intros E [H|(i & H)]; [left|right; exists i]; congruence. Qed.
Lemma one_after k intent a b c : one_placement k intent a b -> no_placement b c -> one_placement k intent a c.
Proof. unfold one_placement, no_placement. intros [H|(i & H)] E; [left|right; exists i]; congruence. Qed.

Lemma attempt_places k intent record identity t n : keeps (one_placement k intent) (submit_attempt (EE := cv_adapter k) intent record identity t n).
Proof.
  intros sw r sw' H. unfold submit_attempt in H. eff_inv H as t1 s1 E1; [left; by apply now_still in E1|]. apply now_still in E1.
  eapply one_before; [exact E1|]. clear E1 sw. eff_inv H as u s2 E2; [left; by apply on_store_still in E2|]. apply on_store_still in E2.
  eapply one_before; [exact E2|]. clear E2 s1.
  assert (P : forall r0 s3, on_world (env_placeOrder (ExecutionEnv := cv_adapter k) (place_params intent identity)) s2 = (r0, s3) -> one_placement k intent s2 s3).
  { intros r0 s3 E. unfold on_world in E. destruct (env_placeOrder _ s2.2) as [r1 w] eqn:Ep. injection E as _ <-. apply cv_place_law in Ep.
    right. by exists identity. }
  eff_inv H as result s3 E3; [by eapply P|]. eapply one_after; [by eapply P|]. clear P E3 s2. revert H.
  match goal with |- ?m s3 = _ -> _ => assert (K : keeps no_placement m) by (unfold get_or; keeps_tac) end. apply K.
Qed.
Lemma submit_places k intent : keeps (one_placement k intent) (submitIntent (EE := cv_adapter k) cycle_executor intent).
Proof.
  assert (KR : forall record, keeps (one_placement k intent) (submit_record (EE := cv_adapter k) cycle_executor intent record)).
  { intros record sw r sw' H. unfold submit_record in H. eff_inv H as u s1 E1; [left; by apply on_store_still in E1|]. apply on_store_still in E1.
    eapply one_before; [exact E1|]. clear E1 sw. eff_inv H as t s2 E2; [left; by apply now_still in E2|]. apply now_still in E2.
    eapply one_before; [exact E2|]. clear E2 s1.
    assert (PL : forall r0 s3, submit_loop (EE := cv_adapter k) 1 cycle_executor intent record (runtime_identity record) t 1 s2 = (r0, s3) ->
      one_placement k intent s2 s3).
    { intros r0 s3 E. cbn [submit_loop] in E. destruct (submit_attempt _ _ _ _ _ s2) as [[x|e] s4] eqn:Ea; apply attempt_places in Ea.
      - by injection E as _ <-.
      - eapply one_after; [exact Ea|]. revert E. match goal with |- ?m s4 = _ -> _ => assert (K : keeps no_placement m) by (unfold after_failure; keeps_tac) end.
        apply K. }
    eff_inv H as o s3 E3; [by eapply PL|]. eapply one_after; [by eapply PL|]. clear PL E3. revert H.
    match goal with |- ?m s3 = _ -> _ => assert (K : keeps no_placement m) by (unfold get_or; keeps_tac) end. apply K. }
  intros sw r sw' H. unfold submitIntent in H. eff_inv H as o s1 E1; [left; by apply on_store_still in E1|]. apply on_store_still in E1.
  eapply one_before; [exact E1|]. destruct o as [x|]; [destruct (resubmittable (or_status x))|]; [by eapply KR| |by eapply KR].
  injection H as _ <-. by left.
Qed.
End Placements.

(** ** The statements of an execution *)


Section Steps.
Context `{CL : CarryLaws}.

#[export] Instance quiet_preorder : PreOrder quiet.
Proof.
  split; [by intros d; split|]. intros a b c [H1 H2] [H3 H4]. split; [by etrans|congruence].
Qed.
#[export] Instance quiet_drifting : Drifting role_of actions_of quiet.
Proof. by intros d d' [H _]. Qed.
Lemma carry_update_for id P f : (forall a, cya_id (f a) = cya_id a) -> (forall a, cya_plan (f a) = cya_plan a) ->
  (forall a, P a -> approved_well role_of (f a)) -> keeps (guarded role_of actions_of quiet id P) (cy_update_action id f).
Proof.
  intros Hid Hplan Hf d r d' E HP Hd. destruct (cy_update_action_law _ _ _ _ _ E Hid) as [[Q _]|(d1 & Q & EA & EC)]; [done|].
  etrans; [exact Q|]. split; [|done]. rewrite EA. apply (drift_update role_of id P f); [apply actions_unique| |done|done|done].
  exact (has_after role_of actions_of quiet id P d d1 HP Q Hd).
Qed.
Lemma carry_insert_quiet plan : keeps quiet (cy_insert_action (recommended_carry plan)).
Proof.
  intros d r d' E. destruct (cy_insert_action_law _ _ _ _ E (fun _ => eq_refl)) as [[Q _]|(d1 & id & Q & _ & EA & EC)]; [done|].
  etrans; [exact Q|]. split; [|done]. rewrite EA. apply drift_insert. intros a Ha%list_elem_of_singleton. subst a. by intros [].
Qed.
(** A run of the executor that asks for no placement. *)
Lemma run_quiet {A} (m : eff (Odb * cv_World) A) : keeps no_placement m -> keeps quiet (run_orders m).
Proof.
  intros Hm d r d' H. unfold run_orders in H. destruct (m (cv_split d)) as [r0 sw] eqn:E. injection H as _ <-. apply Hm in E.
  destruct (cv_join_law sw d) as [D P]. split; [done|]. rewrite P. exact E.
Qed.
End Steps.
Notation quiet_for := (guarded role_of actions_of quiet).

Section Statements.
Context `{CL : CarryLaws} `{DL : DecimalLib}.

#[local] Hint Resolve cy_orders_law cy_action_views_law cy_insert_orders_law cy_executing_count_law cy_insert_execution_law cy_execution_law
  cy_update_execution_law cy_insert_step_law cy_step_law cy_update_step_law cy_insert_plan_law cy_update_plan_law cy_insert_leg_law cy_legs_law
  cy_update_leg_law cy_insert_hedge_law cy_guardrail_law cy_insert_violation_law cy_sync_bundle_law cy_audit_law cv_capabilities_law
  cv_listVenues_law cv_refreshTruth_law cv_refreshDerivatives_law cq_now_law cq_create_id_law cq_insert_command_law cq_command_law
  cq_insert_event_law carry_insert_quiet on_store_still : keeps.

Lemma carry_action_quiet id : keeps quiet (cy_action id).
Proof. intros d r d' E. by apply cy_action_law in E as [? _]. Qed.
#[local] Hint Resolve carry_action_quiet : keeps.
Lemma getCarry_quiet id : keeps quiet (getCarryAction id).
Proof. unfold getCarryAction. keeps_tac. Qed.
#[local] Hint Resolve getCarry_quiet : keeps.
Lemma view_quiet id : keeps quiet (action_view id).
Proof. unfold action_view. keeps_tac. Qed.
#[local] Hint Resolve view_quiet : keeps.
Lemma createCarry_quiet run link l actor t : keeps quiet (createCarryActions run link l actor t).
Proof. unfold createCarryActions. keeps_tac. Qed.
Lemma carry_createExecution_quiet a b c st em sim rq by_ br oc le : keeps quiet (createCarryExecution a b c st em sim rq by_ br oc le).
Proof. unfold createCarryExecution. keeps_tac. Qed.
Lemma carry_updateExecution_quiet id patch : keeps quiet (updateCarryExecution id patch).
Proof. unfold updateCarryExecution. keeps_tac. Qed.
Lemma createStep_quiet p c s sim m : keeps quiet (createCarryExecutionStep p c s sim m).
Proof. unfold createCarryExecutionStep. keeps_tac. Qed.
Lemma updateStep_quiet id patch : keeps quiet (updateCarryExecutionStep id patch).
Proof. unfold updateCarryExecutionStep. keeps_tac. Qed.
Lemma createPlan_quiet a b c n l cc o : keeps quiet (store_createMultiLegPlan a b c n l cc o).
Proof. unfold store_createMultiLegPlan. keeps_tac. Qed.
Lemma createLeg_quiet a b c t s v x y z m : keeps quiet (createLegExecution a b c t s v x y z m).
Proof. unfold createLegExecution. keeps_tac. Qed.
Lemma planStatus_quiet id s o : keeps quiet (updateMultiLegPlanStatus id s o).
Proof. unfold updateMultiLegPlanStatus. keeps_tac. Qed.
Lemma legStatus_quiet id s a b e : keeps quiet (updateLegExecutionStatus id s a b e).
Proof. unfold updateLegExecutionStatus. keeps_tac. Qed.
Lemma legs_quiet id : keeps quiet (getLegExecutionsForPlan id).
Proof. apply cy_legs_law. Qed.
Lemma hedge_quiet a b c s p n x i t : keeps quiet (recordHedgeState a b c s p n x i t).
Proof. unfold recordHedgeState. keeps_tac. Qed.
Lemma violation_quiet a b c x y z w : keeps quiet (recordGuardrailViolation a b c x y z w).
Proof. unfold recordGuardrailViolation. keeps_tac. Qed.
Lemma guardrail_quiet t s : keeps quiet (getGuardrailConfig t s).
Proof. apply cy_guardrail_law. Qed.
Lemma count_quiet : keeps quiet getExecutingActionCount.
Proof. apply cy_executing_count_law. Qed.
Lemma carry_audit_quiet t a x : keeps quiet (carry_audit t a x).
Proof. unfold carry_audit. keeps_tac. Qed.
Lemma carry_sync_quiet plan : keeps quiet (sync_carry plan).
Proof. unfold sync_carry. keeps_tac. Qed.
Lemma carry_enqueue_quiet t by_ p : keeps quiet (enqueueCommand t by_ p).
Proof. unfold enqueueCommand, createCommandRecord, enqueueRuntimeCommand, recordRecoveryEvent, getRuntimeCommand. keeps_tac. Qed.
#[local] Hint Resolve createCarry_quiet carry_createExecution_quiet carry_updateExecution_quiet createStep_quiet updateStep_quiet createPlan_quiet createLeg_quiet
  planStatus_quiet legStatus_quiet legs_quiet hedge_quiet violation_quiet guardrail_quiet count_quiet carry_audit_quiet carry_sync_quiet
  carry_enqueue_quiet : keeps.

Lemma views_quiet run : keeps quiet (collectCarryVenueViews run).
Proof. unfold collectCarryVenueViews, carry_report. keeps_tac. Qed.
Lemma metadata_quiet o : keeps quiet (buildCarryExecutionStepMetadata o).
Proof.
  unfold buildCarryExecutionStepMetadata. apply keeps_bind; [typeclasses eauto|keeps_tac|intros t]. cbn zeta.
  apply keeps_catch; [typeclasses eauto| |intros e; keeps_tac]. apply keeps_bind; [typeclasses eauto| |intros l; keeps_tac].
  apply run_quiet, on_world_still, cv_positions_law.
Qed.
Lemma carry_persist_quiet runId record : keeps quiet (run_orders (on_store (persistExecutionRecord (cv_execution_event runId) record))).
Proof. apply run_quiet, on_store_still. Qed.
#[local] Hint Resolve views_quiet metadata_quiet carry_persist_quiet : keeps.
Lemma on_leg_quiet p f : (forall id, keeps quiet (f id)) -> keeps quiet (on_leg p f).
Proof. intros H. unfold on_leg. destruct p as [id|]; [|keeps_tac]. apply keeps_catch; [typeclasses eauto|apply H|intros e; keeps_tac]. Qed.
Lemma complete_leg_quiet id o r : keeps quiet (complete_leg id o r).
Proof. unfold complete_leg. keeps_tac. Qed.
Lemma fail_leg_quiet id m : keeps quiet (fail_leg id m).
Proof. unfold fail_leg. keeps_tac. Qed.
#[local] Hint Resolve on_leg_quiet complete_leg_quiet fail_leg_quiet : keeps.
Lemma record_order_quiet a o s p r : keeps quiet (record_order a o s p r).
Proof. unfold record_order. keeps_tac. Qed.
Lemma persist_legs_quiet a p l : keeps quiet (persist_legs a p l).
Proof. unfold persist_legs. keeps_tac. Qed.
#[local] Hint Resolve persist_legs_quiet : keeps.
Lemma start_plan_quiet a x p m : keeps quiet (start_plan a x p m).
Proof. unfold start_plan. keeps_tac. Qed.
Lemma open_plan_quiet a l x : keeps quiet (open_plan a l x).
Proof.
  unfold open_plan. case_match; [keeps_tac|]. apply keeps_catch; [typeclasses eauto| |intros e; keeps_tac].
  keeps_tac. apply keeps_catch; [typeclasses eauto|apply start_plan_quiet|intros e; keeps_tac].
Qed.
Lemma settle_plan_quiet a l p n legs dv : keeps quiet (settle_plan a l p n legs dv).
Proof. unfold settle_plan. keeps_tac. Qed.
Lemma close_plan_quiet a l p n : keeps quiet (close_plan a l p n).
Proof.
  unfold close_plan. case_match; [|keeps_tac]. apply keeps_catch; [typeclasses eauto| |intros e; keeps_tac]. keeps_tac.
  apply keeps_catch; [typeclasses eauto|apply settle_plan_quiet|intros e; keeps_tac].
Qed.

Lemma carry_stable_allowed role : stable role_of (fun a => carry_allowed role (cya_plan a) = true).
Proof. exact (stable_plan (Row := CarryActionRow) role_of (fun p => carry_allowed role p = true)). Qed.
(** The updates of an approved action keep it approved. *)
Lemma carry_keeps_update id P f : (forall a, cya_id (f a) = cya_id a) -> (forall a, cya_plan (f a) = cya_plan a) ->
  (forall a, P a -> approved_well role_of (f a)) -> keeps (quiet_for id P) (_ ← cy_update_action id f; action_view id).
Proof.
  intros H1 H2 H3. apply keeps_bind; [typeclasses eauto|by apply carry_update_for|intros _; apply keeps_guarded, view_quiet].
Qed.
Ltac after_now := repeat (apply keeps_bind; [typeclasses eauto|apply keeps_guarded, cq_now_law|intros ?]).
Lemma carry_approve_for id actor : keeps (quiet_for id (fun a => carry_allowed (role_of actor) (cya_plan a) = true)) (store_approveCarryAction id actor).
Proof. unfold store_approveCarryAction. after_now. apply carry_keeps_update; [done|done|]. intros x Hx. by exists actor. Qed.
Lemma carry_queue_for id c actor : keeps (quiet_for id (approved_well role_of)) (queueCarryActionExecution id c actor).
Proof. unfold queueCarryActionExecution. after_now. by apply carry_keeps_update. Qed.
Lemma carry_mark_for id : keeps (quiet_for id (approved_well role_of)) (markCarryActionExecuting id).
Proof. unfold markCarryActionExecuting. after_now. by apply carry_keeps_update. Qed.
Lemma carry_complete_for id x : keeps (quiet_for id (approved_well role_of)) (completeCarryAction id x).
Proof. unfold completeCarryAction. after_now. by apply carry_keeps_update. Qed.
Lemma carry_fail_for id x m : keeps (quiet_for id (approved_well role_of)) (failCarryAction id x m).
Proof. unfold failCarryAction. after_now. by apply carry_keeps_update. Qed.

(** What reading an action says of it. *)
Lemma getCarry_law id d a l d1 : getCarryAction id d = (Ret (Some (a, l)), d1) ->
  quiet d d1 /\ cya_id a = id /\ exists d0, quiet d d0 /\ quiet d0 d1 /\ a ∈ actions_of d0.
Proof.
  unfold getCarryAction. intros H. eff_inv H as o d0 E; [done|]. apply cy_action_law in E as [Q Ho]. specialize (Ho _ eq_refl).
  destruct o as [b|]; [|injection H; done]. eff_inv H as orders d2 E2; [done|]. apply cy_orders_law in E2. eff_inv H as u d3 E3; [done|].
  apply cy_action_views_law in E3. injection H as -> _ ->. assert (Q1 : quiet d0 d1) by by etrans.
  split; [by etrans|]. split; [by eapply find_key_key|]. exists d0. split_and!; [done|done|].
  symmetry in Ho. apply find_some in Ho as [Ho _]. by apply list_elem_of_In.
Qed.
Lemma getCarry_has id d a l d1 P : stable role_of P -> P a -> getCarryAction id d = (Ret (Some (a, l)), d1) -> has id P (actions_of d1).
Proof.
  intros HP Ha H. destruct (getCarry_law _ _ _ _ _ H) as (_ & Hid & d0 & _ & Q & Hin).
  apply (has_after role_of actions_of quiet id P d0 d1 HP Q). by exists a.
Qed.
Lemma getCarry_approved id d a l d1 : Forall (approval_ok role_of) (actions_of d) -> getCarryAction id d = (Ret (Some (a, l)), d1) ->
  cya_status a <> cst_recommended -> approved_well role_of a /\ has id (approved_well role_of) (actions_of d1).
Proof.
  intros Hok H Hs. assert (Ha : approved_well role_of a).
  { destruct (getCarry_law _ _ _ _ _ H) as (_ & _ & d0 & Q & _ & Hin). apply Q in Hok. rewrite Forall_forall in Hok. by apply (Hok a). }
  split; [done|]. eapply getCarry_has; [apply stable_approved|done|done].
Qed.
End Statements.
#[export] Hint Resolve cq_now_law cq_create_id_law getCarry_quiet createCarry_quiet carry_createExecution_quiet carry_updateExecution_quiet createStep_quiet
  updateStep_quiet violation_quiet guardrail_quiet count_quiet carry_audit_quiet carry_sync_quiet carry_enqueue_quiet views_quiet metadata_quiet
  on_leg_quiet fail_leg_quiet record_order_quiet open_plan_quiet close_plan_quiet cv_refreshTruth_law cv_refreshDerivatives_law
  keeps_guarded carry_mark_for carry_complete_for carry_fail_for carry_queue_for : keeps.

(** ** The operations *)

Section Operations.
Context `{CL : CarryLaws} `{DL : DecimalLib}.

(** An approval that returns leaves the action approved. *)
Lemma approve_approves id actor d v d' : has id (fun a => carry_allowed (role_of actor) (cya_plan a) = true) (actions_of d) ->
  store_approveCarryAction id actor d = (Ret v, d') -> has id (approved_well role_of) (actions_of d').
Proof.
  intros Hh H. unfold store_approveCarryAction in H. eff_inv H as t1 d1 E1; [done|]. apply cq_now_law in E1. eff_inv H as t2 d2 E2; [done|].
  apply cq_now_law in E2. eff_inv H as u d3 E3; [done|]. apply view_quiet in H.
  destruct (cy_update_action_law _ _ _ _ _ E3) as [[_ ?]|(d0 & Q & EA & _)]; [done|done|].
  apply (has_after role_of actions_of quiet id _ d3 d' (stable_approved _) H). assert (Q' : quiet d d0) by (etrans; [exact E1|]; by etrans).
  apply (has_after role_of actions_of quiet id _ d d0 (carry_stable_allowed _) Q') in Hh as (a & Ha & Hid & Hp).
  exists (approved_carry actor t1 t2 a). split_and!; [|done|by exists actor]. rewrite EA. apply list_elem_of_fmap. exists a. split; [|done].
  unfold set_row. by rewrite decide_True.
Qed.
Lemma carry_approve_steady id actor d r d' : approveCarryAction id actor (role_of actor) d = (r, d') -> quiet d d'.
Proof.
  unfold approveCarryAction. intros H. eff_inv H as o d1 E1; [by apply getCarry_quiet in E1|].
  pose proof (getCarry_quiet _ _ _ _ E1) as Q1. etrans; [exact Q1|].
  destruct o as [[a l]|]; [|by injection H as <- <-]. destruct (carry_open (cya_plan a)) eqn:Ho; [|by injection H as <- <-].
  destruct (carry_role_suffices (role_of actor) (cya_plan a)) eqn:Hr; [|by injection H as <- <-]. cbn [negb] in H.
  case_bool_decide; [|by injection H as <- <-]. cbn [negb] in H.
  assert (Hh : has id (fun b => carry_allowed (role_of actor) (cya_plan b) = true) (actions_of d1)).
  { eapply getCarry_has; [apply carry_stable_allowed| |exact E1]. unfold carry_allowed. by rewrite Ho, Hr. }
  unfold record_carry_approval in H. eff_inv H as v d2 E2; pose proof (carry_approve_for _ _ _ _ _ E2 (carry_stable_allowed _) Hh) as Q2; [done|].
  etrans; [exact Q2|]. apply (approve_approves _ _ _ _ _ Hh) in E2. revert H.
  match goal with |- ?m d2 = _ -> _ => assert (K : keeps (quiet_for id (approved_well role_of)) m) by keeps_tac end.
  intros H. by apply (K _ _ _ H); [apply stable_approved|].
Qed.

(** *** The execution *)

Section Attempt.
Variable a : CarryActionRow.
Notation kept := (quiet_for (cya_id a) (approved_well role_of)).

Lemma refuse_for x m p : keeps kept (refuse a x m p).
Proof. unfold refuse. keeps_tac. Qed.
Hint Resolve refuse_for : keeps.
Lemma unexecutable_for {A} x : keeps kept (fail_unexecutable (A := A) a x).
Proof. unfold fail_unexecutable. keeps_tac. Qed.
Lemma block_for {A} input x l : keeps kept (block_connectors (A := A) a input x l).
Proof. unfold block_connectors. keeps_tac. Qed.
Lemma stop_for {A} x c t m p q e o : keeps kept (stop_at_guardrail (A := A) a x c t m p q e o).
Proof. unfold stop_at_guardrail. keeps_tac. Qed.
Hint Resolve stop_for : keeps.
Lemma enforce_for l x : keeps kept (enforce_guardrails a l x).
Proof. unfold enforce_guardrails. keeps_tac. Qed.
Lemma fail_order_for {A} x s p l e : keeps kept (fail_order (A := A) a x s p l e).
Proof. unfold fail_order. keeps_tac. Qed.
Lemma unregistered_for {A} x s v : keeps kept (fail_unregistered (A := A) a x s v).
Proof. unfold fail_unregistered. keeps_tac. Qed.
Lemma finish_for l input x p h results : keeps kept (finish_action a l input x p h results).
Proof. unfold finish_action. keeps_tac. Qed.
End Attempt.

(** *** Placements *)

Definition moves (d d' : Db) (l : list (string * PlaceOrderParams)) : Prop :=
  drifts role_of (actions_of d) (actions_of d') /\ placed d' = placed d ++ l.
(** A placement at the venue of an order, of what the order says. *)
Definition asks_for (o : CarryPlannedOrder) (p : string * PlaceOrderParams) : Prop :=
  p.1 = cpo_venueId o /\ Executor.pp_clientOrderId p.2 = cpo_intentId o /\ Executor.pp_asset p.2 = cpo_asset o /\ Executor.pp_side p.2 = cpo_side o /\
  Executor.pp_type p.2 = cpo_orderType o /\ Executor.pp_size p.2 = cpo_requestedSize o /\ Executor.pp_price p.2 = cpo_requestedPrice o /\
  Executor.pp_reduceOnly p.2 = cpo_reduceOnly o.
(** At most one placement for each of the orders, in their order. *)
Definition follows (orders : list CarryPlannedOrder) (l : list (string * PlaceOrderParams)) : Prop :=
  exists os, os `sublist_of` orders /\ Forall2 asks_for os l.
Lemma follows_nil orders : follows orders [].
Proof. exists []. split; [apply sublist_nil_l|constructor]. Qed.
Lemma follows_one o p : asks_for o p -> follows [o] [p].
Proof. intros H. exists [o]. split; [done|]. constructor; [done|constructor]. Qed.
Lemma follows_app os1 os2 l1 l2 : follows os1 l1 -> follows os2 l2 -> follows (os1 ++ os2) (l1 ++ l2).
Proof. intros (a & Ha & Fa) (b & Hb & Fb). exists (a ++ b). split; [by apply sublist_app|by apply Forall2_app]. Qed.

Lemma moves_quiet d d' : quiet d d' -> moves d d' [].
Proof. intros [D P]. split; [done|by rewrite app_nil_r]. Qed.
Lemma moves_trans a b c l m : moves a b l -> moves b c m -> moves a c (l ++ m).
Proof. intros [D1 P1] [D2 P2]. split; [by etrans|]. by rewrite P2, P1, app_assoc. Qed.
Lemma carry_moves_before a b c l : quiet a b -> moves b c l -> moves a c l.
Proof. intros Q M. exact (moves_trans _ _ _ [] _ (moves_quiet _ _ Q) M). Qed.
Lemma carry_moves_after a b c l : moves a b l -> quiet b c -> moves a c l.
Proof. intros M Q. rewrite <- (app_nil_r l). exact (moves_trans _ _ _ _ _ M (moves_quiet _ _ Q)). Qed.
Lemma moves_has id P d d' l : stable role_of P -> moves d d' l -> has id P (actions_of d) -> has id P (actions_of d').
Proof. intros HP [D _]. exact (has_drift role_of id P _ _ HP D). Qed.

(** What a computation for an order, or for several, does. *)
Definition places (orders : list CarryPlannedOrder) (d d' : Db) : Prop := exists l, moves d d' l /\ follows orders l.
Lemma places_quiet orders d d' : quiet d d' -> places orders d d'.
Proof. intros Q. exists []. split; [by apply moves_quiet|apply follows_nil]. Qed.
Lemma places_before orders a b c : quiet a b -> places orders b c -> places orders a c.
Proof. intros Q (l & M & F). exists l. split; [by eapply carry_moves_before|done]. Qed.
Lemma places_after orders a b c : places orders a b -> quiet b c -> places orders a c.
Proof. intros (l & M & F) Q. exists l. split; [by eapply carry_moves_after|done]. Qed.
Lemma places_app os1 os2 a b c : places os1 a b -> places os2 b c -> places (os1 ++ os2) a c.
Proof. intros (l & M & F) (m & N & G). exists (l ++ m). split; [by eapply moves_trans|by apply follows_app]. Qed.
Lemma places_has id P orders d d' : stable role_of P -> places orders d d' -> has id P (actions_of d) -> has id P (actions_of d').
Proof. intros HP (l & M & _). by eapply moves_has. Qed.

Lemma submit_order_places a o opp md : keeps (places [o]) (submit_order a o opp md).
Proof.
  intros d r d' H. unfold submit_order, run_orders in H.
  destruct (submitIntent cycle_executor (order_intent o opp md) (cv_split d)) as [r0 sw] eqn:E. injection H as _ <-. apply submit_places in E.
  destruct (cv_join_law sw d) as [D P]. destruct E as [E|(i & E)].
  - apply places_quiet. split; [done|]. rewrite P. exact E.
  - exists [(cpo_venueId o, place_params (order_intent o opp md) i)]. split; [|by apply follows_one]. split; [done|]. rewrite P. exact E.
Qed.
Lemma try_order_places a o s md p : keeps (places [o]) (try_order a o s md p).
Proof.
  intros d r d' H. unfold try_order in H. eff_inv H as opp d1 E1.
  { assert (K : keeps quiet (match cap_opportunityId (cya_plan a) with Some id => mret id | None => cd_create_id end)) by keeps_tac.
    by apply places_quiet, (K _ _ _ E1). }
  assert (Q : quiet d d1).
  { assert (K : keeps quiet (match cap_opportunityId (cya_plan a) with Some id => mret id | None => cd_create_id end)) by keeps_tac. by apply (K _ _ _ E1). }
  eapply places_before; [exact Q|]. eff_inv H as record d2 E2; [by apply submit_order_places in E2|]. apply submit_order_places in E2.
  eapply places_after; [exact E2|]. by apply record_order_quiet in H.
Qed.

Definition approved_there (a : CarryActionRow) (d : Db) : Prop := has (cya_id a) (approved_well role_of) (actions_of d).
Lemma there_after a d d' : quiet d d' -> approved_there a d -> approved_there a d'.
Proof. intros Q. exact (has_after role_of actions_of quiet _ _ d d' (stable_approved _) Q). Qed.
Lemma for_there a {A} (m : eff Db A) d r d' : keeps (quiet_for (cya_id a) (approved_well role_of)) m -> approved_there a d -> m d = (r, d') -> quiet d d'.
Proof. intros K Hd H. by apply (K _ _ _ H); [apply stable_approved|]. Qed.

Lemma execute_order_places a x venues pid results o d r d' : approved_there a d -> execute_order a x venues pid results o d = (r, d') ->
  places [o] d d' /\ forall l, r = Ret l -> length l = S (length results).
Proof.
  intros Hd H. unfold execute_order in H. set (m := if bool_decide _ then buildCarryExecutionStepMetadata o else _) in H.
  assert (K : keeps quiet m) by (subst m; case_bool_decide; keeps_tac). eff_inv H as md d1 E1; apply K in E1; [subst r; split; [by apply places_quiet|done]|].
  clear K m. apply (there_after _ _ _ E1) in Hd. eff_inv H as step d2 E2; apply createStep_quiet in E2.
  { subst r. split; [apply places_quiet; by etrans|done]. }
  assert (Q : quiet d d2) by by etrans. apply (there_after _ _ _ E2) in Hd. clear E1 E2. case_bool_decide as Hk; cbn [negb] in H.
  2: { pose proof (for_there a _ _ _ _ (unregistered_for a x (cs_id step) (cpo_venueId o)) Hd H) as Q2. split; [apply places_quiet; by etrans|].
       intros l ->. unfold fail_unregistered in H. eff_inv H as u1 s1 F1; [done|]. eff_inv H as u2 s2 F2; [done|]. eff_inv H as u3 s3 F3; [done|].
       by eff_inv H as u4 s4 F4. }
  assert (P : forall r0 d3, catch_eff (try_order a o (cs_id step) md pid) (fail_order a x (cs_id step) pid results) d2 = (r0, d3) -> places [o] d d3).
  { intros r0 d3 E. eapply places_before; [exact Q|]. unfold catch_eff in E.
    destruct (try_order _ _ _ _ _ d2) as [[y|e] d4] eqn:E4; apply try_order_places in E4; [by injection E as _ <-|]. eapply places_after; [exact E4|].
    apply (for_there a _ _ _ _ (fail_order_for a x (cs_id step) pid results e)) in E; [done|]. by eapply places_has; [apply stable_approved|exact E4|]. }
  eff_inv H as y d3 E3; [subst r; split; [by eapply P|done]|]. injection H as <- <-. split; [by eapply P|]. intros l [= <-]. rewrite length_app. cbn. lia.
Qed.
Lemma execute_loop_places a x venues pid orders : forall results d r d', approved_there a d ->
  fold_eff (execute_order a x venues pid) results orders d = (r, d') ->
  places orders d d' /\ forall l, r = Ret l -> length l = (length results + length orders)%nat.
Proof.
  induction orders as [|o orders IH]; intros results d r d' Hd H.
  - injection H as <- <-. split; [by apply places_quiet|]. intros l [= <-]. cbn. lia.
  - cbn [fold_eff] in H. eff_inv H as l1 d1 E1; pose proof (execute_order_places _ _ _ _ _ _ _ _ _ Hd E1) as [P1 L1].
    + subst r. split; [|done]. destruct P1 as (l & M & os & S & F). exists l. split; [done|].
      exists os. split; [|done]. etrans; [exact S|]. apply (sublist_app [o] [o] [] orders); [done|apply sublist_nil_l].
    + assert (Hd1 : approved_there a d1) by (eapply places_has; [apply stable_approved|exact P1|exact Hd]).
      destruct (IH _ _ _ _ Hd1 H) as [P2 L2]. split; [exact (places_app [o] orders _ _ _ P1 P2)|]. intros l ->. rewrite (L2 _ eq_refl), (L1 _ eq_refl).
      cbn. lia.
Qed.
Lemma execute_orders_places a orders input x venues d r d' : approved_there a d -> execute_orders a orders input x venues d = (r, d') ->
  places orders d d' /\ forall out, r = Ret out -> ecr_orderCount out = Z.of_nat (length orders).
Proof.
  intros Hd H. unfold execute_orders in H. eff_inv H as pid d1 E1; apply open_plan_quiet in E1; [subst r; split; [by apply places_quiet|done]|].
  apply (there_after _ _ _ E1) in Hd. eff_inv H as results d2 E2; destruct (execute_loop_places _ _ _ _ _ _ _ _ _ Hd E2) as [P L].
  { subst r. split; [by eapply places_before|done]. }
  assert (Hd2 : approved_there a d2) by (eapply places_has; [apply stable_approved|exact P|exact Hd]).
  eff_inv H as dev d3 E3; apply close_plan_quiet in E3; [subst r; split; [eapply places_before; [exact E1|by eapply places_after]|done]|].
  apply (there_after _ _ _ E3) in Hd2. pose proof (for_there a _ _ _ _ (finish_for a orders input x pid dev results) Hd2 H) as Q.
  split; [eapply places_before; [exact E1|]; eapply places_after; [exact P|by etrans]|]. intros out ->. unfold finish_action in H.
  eff_inv H as u1 s1 F1; [done|]. eff_inv H as u2 s2 F2; [done|]. eff_inv H as u3 s3 F3; [done|].
  eff_inv H as u4 s4 F4; [done|]. eff_inv H as u5 s5 F5; [done|]. eff_inv H as u6 s6 F6; [done|]. eff_inv H as u7 s7 F7; [done|]. injection H as <- _. cbn [ecr_orderCount]. by rewrite (L _ eq_refl).
Qed.

(** *** What has been checked *)

(** The worth of planned orders, each its requested size at its expected price. *)
Definition orders_worth (orders : list CarryPlannedOrder) : num :=
  foldl (fun sum o => n_add sum (n_mul (parseFloat (cpo_requestedSize o)) (parseFloat (or_else (cpo_requestedPrice o) "0")))) n_zero orders.
(** A configuration of the guardrails, where there is one, and a number of running
    executions let the orders pass. *)
Definition within_guardrails (config : option GuardrailConfigView) (count : Z) (orders : list CarryPlannedOrder) : Prop :=
  forall g, config = Some g -> gcv_killSwitchTriggered g = false /\
    (forall bound, gcv_maxSingleActionNotionalUsd g = Some bound -> bound = "" \/ n_gt (orders_worth orders) (parseFloat bound) = false) /\
    (forall bound, gcv_maxConcurrentExecutions g = Some bound -> bound = 0 \/ count < bound).
Lemma stop_throws {A} a x c t m p q e o d r d' : stop_at_guardrail (A := A) a x c t m p q e o d = (r, d') -> is_ret r = false.
Proof. unfold stop_at_guardrail. intros H. eff_inv H as u1 s1 F1; [by subst r|]. eff_inv H as u2 s2 F2; [by subst r|]. by injection H as <- _. Qed.
Lemma enforce_passes a orders x d d' : enforce_guardrails a orders x d = (Ret tt, d') ->
  exists config count d1, getGuardrailConfig "global" "carry" d = (Ret config, d1) /\ getExecutingActionCount d1 = (Ret count, d') /\
    within_guardrails config count orders.
Proof.
  unfold enforce_guardrails. intros H. eff_inv H as config d1 E1; [done|]. destruct (kill_switch config) as [g|] eqn:Hk; [by apply stop_throws in H|].
  cbv zeta in H. change (total_notional orders) with (orders_worth orders) in H.
  destruct (over_notional config (orders_worth orders)) as [[g m]|] eqn:Ho; [by apply stop_throws in H|].
  eff_inv H as count d2 E2; [done|]. destruct (at_capacity config count) as [[g m]|] eqn:Hc; [by apply stop_throws in H|].
  injection H as <-. exists config, count, d1. split_and!; [done|done|]. intros g ->. cbn in Hk, Ho, Hc. split_and!.
  - by destruct (gcv_killSwitchTriggered g).
  - intros bound Hb. rewrite Hb in Ho. destruct (decide (bound = "")) as [->|Hn]; [by left|right]. rewrite bool_decide_false in Ho by done. cbn in Ho.
    by destruct (n_gt _ _).
  - intros bound Hb. rewrite Hb in Hc. destruct (Z.eqb_spec bound 0); [by left|right]. cbn in Hc. by destruct (Z.leb_spec bound count).
Qed.

(** What the execution reads of the connectors from [d] on: the time, the listed
    promotions, the reports of the adapters one by one. *)
Definition views_read (run : option string) (d : Db) (venues : list (string * ConnectorPromotionSummary)) (reports : list CarryCapabilityReport)
    (d' : Db) : Prop :=
  exists now d1 d2, db_now d = (Ret now, d1) /\ cv_listVenues 500 d1 = (Ret venues, d2) /\ in_turn carry_report cv_keys d2 reports d'.
Lemma collected_views run d views d' : collectCarryVenueViews run d = (Ret views, d') ->
  exists venues reports now, views_read run d venues reports d' /\
    views = map (fun c => venue_view run now (jm_get (vk_venueId (crp_capabilities c)) (jm_of_list venues)) c) reports.
Proof.
  unfold collectCarryVenueViews. intros H. eff_inv H as now d1 E1; [done|]. eff_inv H as venues d2 E2; [done|]. cbv beta zeta in H.
  apply (collect_in_turn carry_report (fun c => venue_view run (toISOString now) (jm_get (vk_venueId (crp_capabilities c)) (jm_of_list venues)) c))
    in H as (reports & H & ->).
  exists venues, reports, (toISOString now). split; [by exists now, d1, d2|done].
Qed.

(** A venue that live orders may go to: an adapter reports that it executes, and its
    connector is listed as approved for live use and eligible, or, where it is not
    listed, the adapter says so itself. *)
Definition open_to_live (venues : list (string * ConnectorPromotionSummary)) (reports : list CarryCapabilityReport) (venueId : string) : Prop :=
  exists c, c ∈ reports /\ vk_venueId (crp_capabilities c) = venueId /\
    vk_executionSupported (crp_capabilities c) = true /\ vk_readOnly (crp_capabilities c) = false /\
    match jm_get venueId (jm_of_list venues) with
    | Some p => cp_approvedForLiveUse p = true /\ cp_sensitiveExecutionEligible p = true
    | None => vk_approvedForLiveUse (crp_capabilities c) = true /\ crp_healthy c = true /\ crp_missingPrerequisites c = []
    end.
Lemma no_block run now venues reports o :
  connector_block (jm_of_list (map (fun v => (cvw_venueId v, v))
    (map (fun c => venue_view run now (jm_get (vk_venueId (crp_capabilities c)) (jm_of_list venues)) c) reports))) o = [] ->
  open_to_live venues reports (cpo_venueId o).
Proof.
  unfold connector_block. destruct (jm_get _ _) as [v|] eqn:E; [|done]. apply jm_of_list_value in E.
  apply list_elem_of_fmap in E as (w & [= Hid ->] & Hw). apply list_elem_of_fmap in Hw as (c & -> & Hc). cbn in Hid. intros [H1 H2]%app_nil.
  cbn in H1, H2. exists c. rewrite Hid. unfold self_eligible in H2.
  destruct (vk_executionSupported (crp_capabilities c)) eqn:Es; [|done]. destruct (vk_readOnly (crp_capabilities c)) eqn:Er; [done|].
  split_and!; [done|done|done|done|]. rewrite Hid in H2. destruct (jm_get _ _) as [p|]; cbn in H2.
  - destruct (cp_approvedForLiveUse p); [|done]. by destruct (cp_sensitiveExecutionEligible p).
  - destruct (vk_approvedForLiveUse (crp_capabilities c)); [|done]. cbn in H2. destruct (crp_healthy c); [|done]. cbn in H2.
    by destruct (crp_missingPrerequisites c).
Qed.
Definition live_open (a : CarryActionRow) (venues : list (string * ConnectorPromotionSummary)) (reports : list CarryCapabilityReport)
    (orders : list CarryPlannedOrder) : Prop :=
  cap_executionMode (cya_plan a) = cm_live -> forall o, o ∈ orders -> open_to_live venues reports (cpo_venueId o).
Lemma no_blocks a run now venues reports orders :
  is_empty (connector_blocks a orders (jm_of_list (map (fun v => (cvw_venueId v, v))
    (map (fun c => venue_view run now (jm_get (vk_venueId (crp_capabilities c)) (jm_of_list venues)) c) reports)))) = true ->
  live_open a venues reports orders.
Proof.
  intros H Hm o Ho. unfold connector_blocks in H. rewrite bool_decide_true in H by done. apply (no_block run now).
  induction orders as [|o1 orders IH]; [by apply elem_of_nil in Ho|]. cbn [flat_map] in H.
  destruct (connector_block _ o1) as [|b l] eqn:E; [|done]. apply elem_of_cons in Ho as [->|Ho]; [exact E|]. by apply IH.
Qed.

(** *** The whole execution *)

(** The checks of an execution that goes on to its orders, from the state [d] after
    the action was read to the state [d'] before the first order: it is recorded and
    marked, then the connectors, the guardrails and the running executions are read
    one after the other, and they let the orders pass. *)
Definition checked (a : CarryActionRow) (orders : list CarryPlannedOrder) (input : ExecuteCarryInput) (d d' : Db) : Prop :=
  exists x d1 m d2 venues reports d3 config d4 count,
    start_execution a input d = (Ret x, d1) /\ markCarryActionExecuting (cya_id a) d1 = (Ret m, d2) /\
    views_read (cap_strategyRunId (cya_plan a)) d2 venues reports d3 /\
    getGuardrailConfig "global" "carry" d3 = (Ret config, d4) /\ getExecutingActionCount d4 = (Ret count, d') /\
    live_open a venues reports orders /\ within_guardrails config count orders.

(** Nothing is placed and the execution throws; or all was checked, and the
    placements follow the orders. *)
Definition executed (a : CarryActionRow) (orders : list CarryPlannedOrder) (input : ExecuteCarryInput) (d d' : Db) (r : exn ExecuteCarryResult) : Prop :=
  (placed d' = placed d /\ is_ret r = false) \/
  (cap_executable (cya_plan a) = true /\ exists d0, checked a orders input d d0 /\ placed d0 = placed d /\
   (exists l, placed d' = placed d0 ++ l /\ follows orders l) /\
   forall out, r = Ret out -> ecr_orderCount out = Z.of_nat (length orders)).
Lemma fails_quiet a orders input d d' r : quiet d d' -> is_ret r = false ->
  drifts role_of (actions_of d) (actions_of d') /\ executed a orders input d d' r.
Proof. intros [D P] Hr. split; [done|by left]. Qed.
Lemma execute_checked_law a orders input x d0 d r d' : cap_executable (cya_plan a) = true -> quiet d0 d -> approved_there a d ->
  start_execution a input d0 = (Ret x, d) -> execute_checked a orders input (cxr_id x) d = (r, d') ->
  drifts role_of (actions_of d0) (actions_of d') /\ executed a orders input d0 d' r.
Proof.
  intros Hex Q0 Hd Hstart H. unfold execute_checked in H.
  eff_inv H as m d1 E1; pose proof (for_there a _ _ _ _ (carry_mark_for _) Hd E1) as Q1; [subst r; apply fails_quiet; [by etrans|done]|].
  eff_inv H as views d2 E2; pose proof (views_quiet _ _ _ _ E2) as Q2; [subst r; apply fails_quiet; [etrans; [exact Q0|by etrans]|done]|].
  assert (Q : quiet d d2) by by etrans. apply (there_after _ _ _ Q) in Hd. clear Q1 Q2. cbv zeta in H.
  destruct (collected_views _ _ _ _ E2) as (venues & reports & now & Hread & ->). destruct (is_empty (connector_blocks _ _ _)) eqn:Hb; cbn [negb] in H.
  2: { pose proof (for_there a _ _ _ _ (block_for a input (cxr_id x) _) Hd H) as Q2. apply fails_quiet; [etrans; [exact Q0|by etrans]|]. unfold block_connectors in H.
       eff_inv H as u1 s1 F1; [by subst r|]. eff_inv H as u2 s2 F2; [by subst r|]. eff_inv H as u3 s3 F3; [by subst r|]. by injection H as <- _. }
  apply no_blocks in Hb. eff_inv H as u d3 E3; pose proof (for_there a _ _ _ _ (enforce_for a orders (cxr_id x)) Hd E3) as Q3.
  { subst r. apply fails_quiet; [etrans; [exact Q0|by etrans]|done]. }
  destruct u. apply enforce_passes in E3 as (config & count & d4 & Hg & Hc & Hw). apply (there_after _ _ _ Q3) in Hd.
  destruct (execute_orders_places _ _ _ _ _ _ _ _ Hd H) as [(l & [D P] & F) C]. assert (Q' : quiet d0 d3) by (etrans; [exact Q0|by etrans]).
  split; [etrans; [apply Q'|exact D]|]. right. split; [done|]. exists d3.
  split; [by exists x, d, m, d1, venues, reports, d2, config, d4, count|]. split; [apply Q'|]. split; [by exists l|exact C].
Qed.
Lemma execute_carry_law input d r d' : Forall (approval_ok role_of) (actions_of d) -> executeCarryAction input d = (r, d') ->
  drifts role_of (actions_of d) (actions_of d') /\
  ((placed d' = placed d /\ is_ret r = false) \/
   exists a orders d1, getCarryAction (eci_actionId input) d = (Ret (Some (a, orders)), d1) /\ (cya_status a = cst_queued \/ cya_status a = cst_approved) /\
     approved_well role_of a /\ placed d1 = placed d /\ executed a orders input d1 d' r).
Proof.
  intros Hok. unfold executeCarryAction. intros H. eff_inv H as o d1 E1; pose proof (getCarry_quiet _ _ _ _ E1) as Q1.
  { subst r. split; [apply Q1|]. left. by split; [apply Q1|]. }
  destruct o as [[a orders]|]; [|injection H as <- <-; split; [apply Q1|left; by split; [apply Q1|]]].
  destruct (carry_executable_status (cya_status a)) eqn:Hs; [|injection H as <- <-; split; [apply Q1|left; by split; [apply Q1|]]]. cbn [negb] in H.
  destruct (getCarry_approved _ _ _ _ _ Hok E1) as [Hw Hh]; [intros E; by rewrite E in Hs|].
  rewrite <- (proj1 (proj2 (getCarry_law _ _ _ _ _ E1))) in Hh. change (approved_there a d1) in Hh.
  assert (G : drifts role_of (actions_of d1) (actions_of d') /\ executed a orders input d1 d' r).
  { eff_inv H as x d2 E2; pose proof (carry_createExecution_quiet _ _ _ _ _ _ _ _ _ _ _ _ _ _ E2) as Q2; [subst r; by apply fails_quiet|].
    apply (there_after _ _ _ Q2) in Hh. destruct (cap_executable (cya_plan a)) eqn:Hex; cbn [negb] in H.
    - by eapply execute_checked_law.
    - pose proof (for_there a _ _ _ _ (unexecutable_for a (cxr_id x)) Hh H) as Q3. apply fails_quiet; [by etrans|]. unfold fail_unexecutable in H.
      eff_inv H as u1 s1 F1; [by subst r|]. eff_inv H as u2 s2 F2; [by subst r|]. by injection H as <- _. }
  destruct G as [D X]. split; [etrans; [apply Q1|exact D]|]. right. exists a, orders, d1. split_and!; [done| |done|apply Q1|done].
  unfold carry_executable_status in Hs. by rewrite orb_true_iff, !bool_decide_eq_true in Hs.
Qed.
End Operations.

(** ** Properties *)

Section Properties.
Context `{CL : CarryLaws} `{DL : DecimalLib}.

(** The operations on carry actions: the recommendations of an evaluation, the
    approvals of the control plane, the executions of the worker. *)
Inductive CarryCall :=
  | Recommend (strategyRunId linkedRebalanceProposalId : option string) (intents : list CarryExecutionIntent) (actorId : option string) (createdAt : Z)
  | Approve (actionId actorId : string)
  | Execute (input : ExecuteCarryInput).
(** The state after a call, which may have thrown. *)
Definition after_call (c : CarryCall) (d : Db) : Db :=
  match c with
  | Recommend run link intents actor t => (createCarryActions run link intents actor t d).2
  | Approve id actor => (approveCarryAction id actor (role_of actor) d).2
  | Execute input => (executeCarryAction input d).2
  end.
Definition after_calls (calls : list CarryCall) (d : Db) : Db := foldl (fun d c => after_call c d) d calls.
Lemma carry_call_drifts c d : Forall (approval_ok role_of) (actions_of d) -> drifts role_of (actions_of d) (actions_of (after_call c d)).
Proof.
  intros Hok. destruct c as [run link l actor t|id actor|input]; cbn [after_call].
  - destruct (createCarryActions _ _ _ _ _ d) as [r d'] eqn:E. by apply createCarry_quiet in E as [? _].
  - destruct (approveCarryAction _ _ _ d) as [r d'] eqn:E. by apply carry_approve_steady in E as [? _].
  - destruct (executeCarryAction _ d) as [r d'] eqn:E. by apply execute_carry_law in E as [? _].
Qed.
Lemma carry_calls_drift calls : forall d, Forall (approval_ok role_of) (actions_of d) -> drifts role_of (actions_of d) (actions_of (after_calls calls d)).
Proof.
  induction calls as [|c calls IH]; intros d Hok; [done|]. pose proof (carry_call_drifts c d Hok) as D. etrans; [exact D|].
  apply IH. by apply D.
Qed.

(** C14. No carry action goes beyond its recommendation without an approval.  After
    any recommendations, approvals and executions, whether they returned or threw,
    and whatever other processes did by the same calls between their statements,
    every action that is no longer recommended was approved by an actor whose role
    suffices for it, and was executable and not blocked; and no action or approval
    is lost.  Approvals by a recovery of a rebalance bundle are not among the calls. *)
Theorem carry_needs_approval (calls : list CarryCall) (d : Db) : Forall (approval_ok role_of) (actions_of d) ->
  Forall (approval_ok role_of) (actions_of (after_calls calls d)) /\
  forall a, a ∈ actions_of d -> exists a', a' ∈ actions_of (after_calls calls d) /\ later role_of a a'.
Proof. intros Hok. destruct (carry_calls_drift calls d Hok) as [H1 H2]. split; [by apply H1|exact H2]. Qed.

(** C13. Orders reach a venue only as planned.  While the actions beyond their
    recommendation are approved, as C14 keeps them, an execution of a carry action
    either places nothing and throws, or its action was executable and queued or
    approved when it was read, by an actor whose role suffices, and what the
    execution then read, before its first order and in this order, let it pass: for
    a live action, the listed promotions and the reports of the adapters have the
    venue of every order execute, approved for live use and eligible; the
    configuration of the guardrails has no triggered kill switch, and the notional
    and the number of running executions are within its limits.  The placements that
    it asked of the venues after that are, for a selection of the planned orders in
    their order, one for each, at the venue of the order and of what the order
    says.  One that returns has dealt with every planned order. *)
Theorem carry_orders_follow_plan (input : ExecuteCarryInput) (d : Db) (r : exn ExecuteCarryResult) (d' : Db) :
  Forall (approval_ok role_of) (actions_of d) -> executeCarryAction input d = (r, d') ->
  (placed d' = placed d /\ is_ret r = false) \/
  exists a orders d1, getCarryAction (eci_actionId input) d = (Ret (Some (a, orders)), d1) /\ (cya_status a = cst_queued \/ cya_status a = cst_approved) /\
    approved_well role_of a /\ placed d1 = placed d /\ executed a orders input d1 d' r.
Proof. intros Hok H. by apply execute_carry_law in H as [_ H]. Qed.
End Properties.

(** ** Tables and venues in memory *)

(** The venues fill every order at its price, but one that throws. *)
Record CarryWorld := MkCarryWorld {
  cw_clock : Z;
  cw_placed : list (string * PlaceOrderParams);
  cw_broken : option string;
}.
Definition filled_at (k : string) (p : PlaceOrderParams) (t : Z) : PlaceOrderResult :=
  MkPlaceOrderResult (k +:+ "-" +:+ Executor.pp_clientOrderId p) (Executor.pp_clientOrderId p) vo_filled (Executor.pp_size p) (Executor.pp_price p)
    None t (Some (Some ("ref-" +:+ Executor.pp_clientOrderId p))) (Some simulated) None.
Definition world_place (k : string) (p : PlaceOrderParams) : eff CarryWorld PlaceOrderResult := fun w =>
  (if bool_decide (cw_broken w = Some k) then Throw (Error_ "venue down") else Ret (filled_at k p (cw_clock w)),
   MkCarryWorld (cw_clock w) (cw_placed w ++ [(k, p)]) (cw_broken w)).
Definition world_adapter (k : string) : ExecutionEnv CarryWorld := {|
  env_venueId := k; env_placeOrder := world_place k; env_cancelOrder := fun id w => (Ret (MkCancelOrderResult id false None), w);
  env_getOrder := fun _ w => (Ret None, w); env_getPositions := fun w => (Ret [], w); env_audit := fun _ w => (Ret tt, w);
  env_now := fun w => (cw_clock w, w); env_createId := fun w => ("id", w); env_sleep := fun _ w => w |}.

Record Carry := MkCarry {
  cm_base : Tables;
  (** the actions, in the order of their ids *)
  cm_actions : list CarryActionRow;
  cm_orders : list CarryPlannedOrder;
  cm_executions : list CarryExecutionRow;
  cm_steps : list CarryStepRow;
  cm_plans : list PlanRow;
  cm_violations : list ViolationRow;
  cm_guardrail : option GuardrailConfigView;
  cm_book : MemoryOrders;
  cm_world : CarryWorld;
}.
Definition on_tables {A} (m : eff Tables A) : eff Carry A := fun d =>
  let '(r, b) := m (cm_base d) in
  (r, MkCarry b (cm_actions d) (cm_orders d) (cm_executions d) (cm_steps d) (cm_plans d) (cm_violations d) (cm_guardrail d) (cm_book d) (cm_world d)).
Definition with_rows (actions : list CarryActionRow) (orders : list CarryPlannedOrder) (d : Carry) : Carry :=
  MkCarry (cm_base d) actions orders (cm_executions d) (cm_steps d) (cm_plans d) (cm_violations d) (cm_guardrail d) (cm_book d) (cm_world d).
Definition with_records (executions : list CarryExecutionRow) (steps : list CarryStepRow) (plans : list PlanRow) (violations : list ViolationRow)
    (d : Carry) : Carry :=
  MkCarry (cm_base d) (cm_actions d) (cm_orders d) executions steps plans violations (cm_guardrail d) (cm_book d) (cm_world d).
Definition with_book (sw : MemoryOrders * CarryWorld) (d : Carry) : Carry :=
  MkCarry (cm_base d) (cm_actions d) (cm_orders d) (cm_executions d) (cm_steps d) (cm_plans d) (cm_violations d) (cm_guardrail d) sw.1 sw.2.
Definition with_guardrail (g : option GuardrailConfigView) (d : Carry) : Carry :=
  MkCarry (cm_base d) (cm_actions d) (cm_orders d) (cm_executions d) (cm_steps d) (cm_plans d) (cm_violations d) g (cm_book d) (cm_world d).

#[export] Instance carry_mismatches : MismatchDb := {|
  Db := Carry;
  db_select k := on_tables (db_select (MismatchDb := tables_mismatches) k);
  db_select_id i := on_tables (db_select_id (MismatchDb := tables_mismatches) i);
  db_insert mk := on_tables (db_insert (MismatchDb := tables_mismatches) mk);
  db_update k f := on_tables (db_update (MismatchDb := tables_mismatches) k f);
  db_update_id i f := on_tables (db_update_id (MismatchDb := tables_mismatches) i f);
  db_list n sk := on_tables (db_list (MismatchDb := tables_mismatches) n sk);
  db_insert_event e := on_tables (db_insert_event (MismatchDb := tables_mismatches) e);
  db_now := on_tables (db_now (MismatchDb := tables_mismatches));
|}.
#[export] Instance carry_commands : CommandDb (MD := carry_mismatches) := {|
  cd_create_id := on_tables (cd_create_id (CommandDb := tables_commands)) : eff (@Db carry_mismatches) _;
  cd_insert_command id mk := on_tables (cd_insert_command (CommandDb := tables_commands) id mk) : eff (@Db carry_mismatches) _;
  cd_pending := on_tables (cd_pending (CommandDb := tables_commands)) : eff (@Db carry_mismatches) _;
  cd_command id := on_tables (cd_command (CommandDb := tables_commands) id) : eff (@Db carry_mismatches) _;
  cd_update_command id c f := on_tables (cd_update_command (CommandDb := tables_commands) id c f) : eff (@Db carry_mismatches) _;
  cd_last_attempt m := on_tables (cd_last_attempt (CommandDb := tables_commands) m) : eff (@Db carry_mismatches) _;
  cd_insert_remediation mk := on_tables (cd_insert_remediation (CommandDb := tables_commands) mk) : eff (@Db carry_mismatches) _;
  cd_remediation p := on_tables (cd_remediation (CommandDb := tables_commands) p) : eff (@Db carry_mismatches) _;
  cd_update_remediation id f := on_tables (cd_update_remediation (CommandDb := tables_commands) id f) : eff (@Db carry_mismatches) _;
  cd_event id := on_tables (cd_event (CommandDb := tables_commands) id) : eff (@Db carry_mismatches) _;
  cd_worker := on_tables (cd_worker (CommandDb := tables_commands)) : eff (@Db carry_mismatches) _;
  cd_insert_worker w := on_tables (cd_insert_worker (CommandDb := tables_commands) w) : eff (@Db carry_mismatches) _;
  cd_update_worker f := on_tables (cd_update_worker (CommandDb := tables_commands) f) : eff (@Db carry_mismatches) _;
  cd_runtime := on_tables (cd_runtime (CommandDb := tables_commands)) : eff (@Db carry_mismatches) _;
  cd_recovery id := on_tables (cd_recovery (CommandDb := tables_commands) id) : eff (@Db carry_mismatches) _;
  cd_update_recovery id f := on_tables (cd_update_recovery (CommandDb := tables_commands) id f) : eff (@Db carry_mismatches) _;
|}.

Definition carry_id (n : nat) : string := "carry-" +:+ z_str (Z.of_nat n).
Definition with_carry_id (id : string) (a : CarryActionRow) : CarryActionRow :=
  MkCarryAction id (cya_plan a) (cya_status a) (cya_approvedBy a) (cya_approvedAt a) (cya_executionRequestedBy a) (cya_executionRequestedAt a)
    (cya_queuedAt a) (cya_executingAt a) (cya_completedAt a) (cya_failedAt a) (cya_cancelledAt a) (cya_linkedCommandId a)
    (cya_latestExecutionId a) (cya_lastError a) (cya_updatedAt a).
Definition carry_table (d : Carry) : list CarryActionRow := numbered with_carry_id carry_id (cm_actions d).
Definition update_key {A} (key : A -> string) (id : string) (f : A -> A) (l : list A) : list A := map (fun x => if decide (key x = id) then f x else x) l.

#[export] Instance carry_db : CarryDb (CD := carry_commands) := {|
  cy_action id := (fun d => (Ret (find_key cya_id id (carry_table d)), d)) : eff (@Db carry_mismatches) _;
  cy_orders id := (fun d => (Ret (js_sort (fun x y => cpo_createdAt y <? cpo_createdAt x)
    (List.filter (fun o => String.eqb (cpo_carryActionId o) id) (cm_orders d))), d)) : eff (@Db carry_mismatches) _;
  cy_action_views _ := (fun d => (Ret tt, d)) : eff (@Db carry_mismatches) _;
  cy_insert_action mk := (fun d =>
    let row := mk (carry_id (length (cm_actions d))) in (Ret (Some row), with_rows (cm_actions d ++ [row]) (cm_orders d) d)) : eff (@Db carry_mismatches) _;
  cy_insert_orders l := (fun d => (Ret tt, with_rows (cm_actions d)
    (cm_orders d ++ imap (fun n mk => mk ("order-" +:+ z_str (Z.of_nat (length (cm_orders d) + n)))) l) d)) : eff (@Db carry_mismatches) _;
  cy_update_action id f := (fun d => (Ret tt, with_rows (map (set_row id f) (carry_table d)) (cm_orders d) d)) : eff (@Db carry_mismatches) _;
  cy_executing_count := (fun d => (Ret (Z.of_nat (length (List.filter (fun a => bool_decide (cya_status a = cst_executing)) (cm_actions d)))), d))
    : eff (@Db carry_mismatches) _;
  cy_insert_execution mk := (fun d => let x := mk ("execution-" +:+ z_str (Z.of_nat (length (cm_executions d)))) in
    (Ret (Some x), with_records (cm_executions d ++ [x]) (cm_steps d) (cm_plans d) (cm_violations d) d)) : eff (@Db carry_mismatches) _;
  cy_execution id := (fun d => (Ret (find_key cxr_id id (cm_executions d)), d)) : eff (@Db carry_mismatches) _;
  cy_update_execution id f := (fun d =>
    (Ret tt, with_records (update_key cxr_id id f (cm_executions d)) (cm_steps d) (cm_plans d) (cm_violations d) d)) : eff (@Db carry_mismatches) _;
  cy_insert_step mk := (fun d => let x := mk ("step-" +:+ z_str (Z.of_nat (length (cm_steps d)))) in
    (Ret (Some x), with_records (cm_executions d) (cm_steps d ++ [x]) (cm_plans d) (cm_violations d) d)) : eff (@Db carry_mismatches) _;
  cy_step id := (fun d => (Ret (find_key cs_id id (cm_steps d)), d)) : eff (@Db carry_mismatches) _;
  cy_update_step id f := (fun d =>
    (Ret tt, with_records (cm_executions d) (update_key cs_id id f (cm_steps d)) (cm_plans d) (cm_violations d) d)) : eff (@Db carry_mismatches) _;
  cy_insert_plan x := (fun d => (Ret tt, with_records (cm_executions d) (cm_steps d) (cm_plans d ++ [x]) (cm_violations d) d)) : eff (@Db carry_mismatches) _;
  cy_update_plan id f := (fun d =>
    (Ret tt, with_records (cm_executions d) (cm_steps d) (update_key pln_id id f (cm_plans d)) (cm_violations d) d)) : eff (@Db carry_mismatches) _;
  cy_insert_leg _ := (fun d => (Ret tt, d)) : eff (@Db carry_mismatches) _;
  cy_legs _ := (fun d => (Ret [], d)) : eff (@Db carry_mismatches) _;
  cy_update_leg _ _ := (fun d => (Ret tt, d)) : eff (@Db carry_mismatches) _;
  cy_insert_hedge _ := (fun d => (Ret tt, d)) : eff (@Db carry_mismatches) _;
  cy_guardrail _ _ := (fun d => (Ret (cm_guardrail d), d)) : eff (@Db carry_mismatches) _;
  cy_insert_violation x := (fun d => (Ret tt, with_records (cm_executions d) (cm_steps d) (cm_plans d) (cm_violations d ++ [x]) d)) : eff (@Db carry_mismatches) _;
  cy_sync_bundle _ := (fun d => (Ret tt, d)) : eff (@Db carry_mismatches) _;
  cy_audit _ _ := (fun d => (Ret tt, d)) : eff (@Db carry_mismatches) _;
|}.

Definition listed_report (k : string) : CarryCapabilityReport :=
  MkCapabilityReport (MkCarryCapabilities k mode_simulated true true true false false false not_requested []) true "simulated" [] [].
#[export] Instance carry_venues : CarryVenues (CB := carry_db) (OD := memory_orders) := {|
  cv_keys := ["sim"; "sim-perp"];
  cv_venueType _ := "simulated";
  cv_getCarryCapabilities k := Some (fun d => (Ret (listed_report k), d)) : option (eff (@Db carry_mismatches) _);
  cv_World := CarryWorld;
  cv_adapter := world_adapter;
  cv_split := (fun d => (cm_book d, cm_world d)) : @Db carry_mismatches -> _;
  cv_join := with_book : _ -> @Db carry_mismatches -> @Db carry_mismatches;
  cv_listVenues _ := (fun d => (Ret [], d)) : eff (@Db carry_mismatches) _;
  cv_execution_event _ _ := fun b => (Ret tt, b);
  cv_refreshVenueTruthInventory _ := (fun d => (Ret tt, d)) : eff (@Db carry_mismatches) _;
  cv_refreshInternalDerivativeState _ _ _ := (fun d => (Ret tt, d)) : eff (@Db carry_mismatches) _;
|}.

(** The role of an actor, by name. *)
Definition carry_role (actor : string) : ActorRole :=
  if String.eqb actor "ada" then role_admin else if String.eqb actor "olga" then role_operator else role_viewer.
Definition memory_still (d d' : Carry) : Prop := drifts carry_role (carry_table d) (carry_table d') /\ cw_placed (cm_world d') = cw_placed (cm_world d).
Lemma same_still d d' : cm_actions d' = cm_actions d -> cm_world d' = cm_world d -> memory_still d d'.
Proof. intros Ha Hc. split; [|by rewrite Hc]. unfold carry_table. rewrite Ha. split; [done|]. intros a ?. by exists a. Qed.
Lemma tables_still {A} (m : eff Tables A) d r d' : on_tables m d = (r, d') -> memory_still d d'.
Proof. unfold on_tables. destruct (m (cm_base d)) as [r0 b]. intros [= _ <-]. by apply same_still. Qed.
#[export] Instance carry_id_inj : Inj (=) (=) carry_id.
Proof. intros n m. unfold carry_id, z_str. intros H. apply (inj (String.append "carry-")) in H. apply (inj pretty) in H. lia. Qed.
Lemma with_carry_id_same a : with_carry_id (cya_id a) a = a.
Proof. by destruct a. Qed.

#[export] Program Instance carry_memory_laws : CarryLaws (CV := carry_venues) := {|
  role_of := carry_role;
  actions_of := carry_table : @Db carry_mismatches -> _;
  placed_of := cw_placed : @cv_World _ _ _ _ carry_venues -> _;
|}.
Next Obligation. intros d. exact (numbered_unique cya_id with_carry_id carry_id (fun i a => eq_refl) _). Qed.
Next Obligation. intros id d r d' [= <- <-]. split; [by apply same_still|]. by intros o [= <-]. Qed.
Next Obligation. intros id d r d' [= _ <-]. by apply same_still. Qed.
Next Obligation. intros a d r d' [= _ <-]. by apply same_still. Qed.
Next Obligation.
  intros mk d r d' [= <- <-] Hmk. right. exists d, (carry_id (length (cm_actions d))). refine (conj (same_still d d eq_refl eq_refl) _).
  split_and!; [done| |done]. apply (numbered_appended cya_id with_carry_id carry_id with_carry_id_same). cbn. by rewrite Hmk.
Qed.
Next Obligation. intros l d r d' [= _ <-]. by apply same_still. Qed.
Next Obligation.
  intros id f d r d' [= <- <-] Hf. right. exists d. refine (conj (same_still d d eq_refl eq_refl) _). split; [|done].
  apply (numbered_updated cya_id with_carry_id carry_id (fun i a => eq_refl) with_carry_id_same). intros a. unfold set_row. by destruct (decide _).
Qed.
Solve All Obligations with
  (intros; intros ? ? ? E; cbn in E; first [exact (tables_still _ _ _ _ E) | injection E as _ <-; by apply same_still]).
Next Obligation. intros k m [= <-] d r d' [= _ <-]. by apply same_still. Qed.
Next Obligation. intros sw d. split; [|done]. split; [done|]. intros a Ha. by exists a. Qed.
Next Obligation. by intros k p w r w' [= _ <-]. Qed.
Next Obligation. by intros k w r w' [= _ <-]. Qed.
Next Obligation. by intros k e w r w' [= _ <-]. Qed.
Solve All Obligations with done.

(** *** Actions from recommendation to execution *)

Definition pair_order (id venueId : string) (side : OrderSide) (price : option string) : OrderIntent :=
  MkOrderIntent id venueId "BTC" side limit "0.05" price "opp" false 0 [("sleeveId", JStr "carry")].
Definition pair_recommendation (price : option string) : CarryExecutionRecommendation :=
  MkCarryRecommendation increase_carry_exposure from_opportunity None (Some "opp") (Some "BTC") "deploy" "4000"
    [("netYieldPct", JStr "12.5"); ("confidenceScore", JNum (num_of_dec 9 (-1)))]
    [pair_order "spot-leg" "sim" buy price; pair_order "perp-leg" "sim-perp" sell price].
Definition pair_input (price : option string) : CarryControlledExecutionPlanningInput :=
  let i := carry_input rl_ready [pair_recommendation price] in
  MkCarryPlanning (cx_recommendations i) (cx_policy i) (cx_strategyPolicy i) (cx_strategyProfile i) (cx_currentCarryAllocationUsd i)
    (cx_approvedCarryBudgetUsd i) (cx_totalCapitalUsd i) (cx_runtimeLifecycleState i) (cx_runtimeHalted i) (cx_criticalMismatchCount i)
    (cx_carryThrottleState i) (cx_executionMode i) (cx_liveExecutionEnabled i)
    (map (fun k => crp_capabilities (listed_report k)) ["sim"; "sim-perp"]) (cx_openPositions i) (cx_now i).
Definition pair_intents (price : option string) : list CarryExecutionIntent :=
  match CarryExecution.createExecutionIntents (DH := {| date_parse _ := None |}) (pair_input price) with Ret l => l | Throw _ => [] end.
Definition empty_carry (broken : option string) : Carry :=
  MkCarry (ready_tables [] None) [] [] [] [] [] [] None (MkMemoryOrders 0 0 [] []) (MkCarryWorld 0 [] broken).
Definition run_carry (calls : list CarryCall) (d : Carry) : Carry := after_calls (CL := carry_memory_laws) calls d.
Definition recommended (price : option string) : CarryCall := Recommend None None (pair_intents price) (Some "olga") 0.
Definition execute_first : CarryCall := Execute (MkExecuteCarry "carry-0" "olga" None "worker-a").
Definition carry_shows (d : Carry) : list (string * CarryExecutionStatus * option string) :=
  map (fun a => (cya_id a, cya_status a, cya_lastError a)) (carry_table d).
Definition placed_ids (d : Carry) : list (string * string) := map (fun p => (p.1, Executor.pp_clientOrderId p.2)) (cw_placed (cm_world d)).

(** From recommendation to execution; a viewer cannot approve, and no plan is opened. *)
Example carry_executes :
  let d := run_carry [recommended (Some "40000"); Approve "carry-0" "eve"; execute_first] (empty_carry None) in
  carry_shows d = [("carry-0", cst_recommended, None)] /\ placed_ids d = [] /\
  let d' := run_carry [Approve "carry-0" "olga"; execute_first; Approve "carry-0" "olga"; execute_first] d in
  carry_shows d' = [("carry-0", cst_completed, None)] /\ placed_ids d' = [("sim", "spot-leg"); ("sim-perp", "perp-leg")] /\
  cm_plans d' = [] /\ map cs_status (cm_steps d') = ["filled"; "filled"].
Proof. vm_compute. done. Qed.

(** The venue of the second order throws: the executor records the order as failed
    and returns, and the action is completed with one leg only. *)
Example failed_order_completes :
  let d := run_carry [recommended (Some "40000"); Approve "carry-0" "olga"; execute_first] (empty_carry (Some "sim-perp")) in
  carry_shows d = [("carry-0", cst_completed, None)] /\ map cs_status (cm_steps d) = ["filled"; "failed"] /\
  map cxr_outcomeSummary (cm_executions d) = [Some "Carry action completed against simulated venues."].
Proof. vm_compute. done. Qed.

Definition sample_guardrail (maximum : option string) (concurrent : option Z) (triggered : bool) : option GuardrailConfigView :=
  Some (MkGuardrailView "global-carry" maximum concurrent true triggered).
Definition guarded_run (price : option string) (g : option GuardrailConfigView) : Carry :=
  run_carry [recommended price; Approve "carry-0" "olga"; execute_first] (with_guardrail g (empty_carry None)).
(** The action is itself among the executing ones: with a limit of one none executes. *)
Example own_execution_counts :
  let d := guarded_run (Some "40000") (sample_guardrail None (Some 1) false) in
  carry_shows d = [("carry-0", cst_failed, Some "Execution blocked: concurrency limit exceeded")] /\ placed_ids d = [] /\
  map vio_violationMessage (cm_violations d) = ["Execution blocked: concurrency 1 >= limit 1"].
Proof. vm_compute. done. Qed.
(** Orders without a price count nothing: the notional limit lets them through. *)
Example unpriced_orders_pass :
  carry_shows (guarded_run (Some "40000") (sample_guardrail (Some "100") None false)) =
    [("carry-0", cst_failed, Some "Execution blocked: notional limit exceeded")] /\
  placed_ids (guarded_run None (sample_guardrail (Some "100") None false)) = [("sim", "spot-leg"); ("sim-perp", "perp-leg")] /\
  placed_ids (guarded_run None (sample_guardrail None None true)) = [].
Proof. vm_compute. done. Qed.

(** *** The theorems at the sample *)

Definition carry_calls : list CarryCall := [recommended (Some "40000"); Approve "carry-0" "olga"].
Lemma carry_needs_approval_witness :
  Forall (approval_ok carry_role) (carry_table (run_carry (carry_calls ++ [execute_first]) (empty_carry None))).
Proof.
  assert (G : forall calls (d : Carry), Forall (approval_ok carry_role) (carry_table d) ->
    Forall (approval_ok carry_role) (carry_table (run_carry calls d))).
  { intros calls d Hd. exact (proj1 (carry_needs_approval (CL := carry_memory_laws) calls d Hd)). }
  exact (G _ (empty_carry None) (Forall_nil_2 _)).
Defined.
Lemma carry_approved_ok g : Forall (approval_ok carry_role) (carry_table (run_carry carry_calls (with_guardrail g (empty_carry None)))).
Proof.
  assert (G : forall calls (d : Carry), Forall (approval_ok carry_role) (carry_table d) ->
    Forall (approval_ok carry_role) (carry_table (run_carry calls d))).
  { intros calls d Hd. exact (proj1 (carry_calls_drift (CL := carry_memory_laws) calls d Hd) Hd). }
  exact (G _ (with_guardrail g (empty_carry None)) (Forall_nil_2 _)).
Qed.
(** What the theorem says of an execution of the first action that returns. *)
Definition first_executed (d : Carry) : Prop :=
  let input := MkExecuteCarry "carry-0" "olga" None "worker-a" in
  let out := executeCarryAction (CV := carry_venues) input d in
  exists a orders d1, getCarryAction (CB := carry_db) "carry-0" d = (Ret (Some (a, orders)), d1) /\ (cya_status a = cst_queued \/ cya_status a = cst_approved) /\
    approved_well carry_role a /\ cw_placed (cm_world d1) = cw_placed (cm_world d) /\ executed (CL := carry_memory_laws) a orders input d1 out.2 out.1.
(** An approved action under guardrails that let it pass. *)
Definition approved_carry : Carry :=
  run_carry carry_calls (with_guardrail (sample_guardrail (Some "5000") (Some 3) false) (empty_carry None)).
Lemma carry_orders_follow_plan_witness :
  placed_ids (run_carry [execute_first] approved_carry) = [("sim", "spot-leg"); ("sim-perp", "perp-leg")] /\ first_executed approved_carry.
Proof.
  split; [vm_compute; reflexivity|].
  assert (G : forall d : Carry, Forall (approval_ok carry_role) (carry_table d) ->
    is_ret (executeCarryAction (CV := carry_venues) (MkExecuteCarry "carry-0" "olga" None "worker-a") d).1 = true -> first_executed d).
  { intros d Hd Hr.
    destruct (carry_orders_follow_plan (CL := carry_memory_laws) (MkExecuteCarry "carry-0" "olga" None "worker-a") d _ _ Hd (surjective_pairing _))
      as [[_ H]|H]; [rewrite Hr in H; discriminate H|exact H]. }
  refine (G _ (carry_approved_ok _) _). vm_compute. reflexivity.
Defined.
